(* ===== verification/_CoqProject ===== *)
-Q . S2P
Prelude.v
KService.v
RtList.v
RingBuffer.v
Kernel.v
Object.v
Scheduler.v
Timer.v
Thread.v
Frame.v
Clock.v
Ipc.v
Sem.v
MutexLock.v
EventSet.v
Mailbox.v
MsgQueue.v
System.v
Mempool.v
Mem.v
Heap.v
Dynamic.v
DynObjects.v
Idle.v
Completion.v
DataQueue.v
Device.v
Serial.v
Pipe.v
MemFunc.v
FinshVm.v
FinshCompiler.v
FinshExec.v
FinshToken.v
FinshHeap.v
FinshParser.v
FinshLine.v
Format.v
Console.v
Base64.v
AtParse.v
Board.v
BoardHeap.v
BoardSystem.v
BoardDynamic.v
BoardDrivers.v
Cmux.v
Gsm0710.v
AppEvent.v
AppTimer.v
BoardApp.v
