(* ===== verification/Prelude.v ===== *)
(** * EasyIO on RT-Thread: a verification development

    EasyIO is the firmware of a family of data-logging boards (STM32L1, ARM Cortex-M3).  It
    runs on the RT-Thread kernel, which is part of the repository.  This library models the
    kernel (src/src, src/include), its driver framework (the device table, the serial
    driver, pipes, completions, data queues and the byte ring of src/components/drivers), the
    FinSH shell (src/components/finsh) and the core of the application
    (src/bsp/easyio_core) as executable functions, and proves what makes them correct.

    ** The program and its parts

    The kernel keeps threads in ready queues, one for each of 32 priorities, and runs the
    first thread of the highest one.  Threads wait in the lists of IPC objects (semaphores,
    mutexes, events, mailboxes, message queues), of memory pools, or asleep; each wait may
    have a timer, and the tick interrupt wakes the threads whose time has come.  All of
    them share one set of thread control blocks and of intrusive lists, which is where the
    difficulty of the kernel lies.  The heap uses a semaphore of the kernel.  The device
    table gives every driver the same interface (init, open, close, read, write, control);
    the serial driver implements it with rings filled by interrupts, the pipes with a byte
    ring and two waiting lists, and completions and data queues are what drivers use to hand
    work between interrupts and threads.  On top of it the application has a main loop that
    takes events from a mailbox, a clock driven by a kernel timer that posts such events, a
    parser of AT commands, and a multiplexer that carries several virtual ports over the line
    of the modem.  The shell is a C interpreter for the console: a scanner and a parser make
    trees of a line, a compiler makes code of them, and a stack machine runs it on the memory
    and the functions of the firmware.

    ** The files

    - Prelude.v (this file): machine integers and their wrap-around, error codes, the
      tactics [zcases], [mlia] and the hint databases, generic lemmas.
    - KService.v: [__rt_ffs] and the string functions of src/src/kservice.c.
    - RtList.v: the pointer operations of src/include/rtservice.h on a memory of nodes, and
      that they implement the operations on sequences used by the files below.
    - Kernel.v: the state [kstate] (the static variables and control blocks of rtdef.h), the
      monad [M] of kernel operations, the lists.
    - Object.v: the container of src/src/object.c.
    - Scheduler.v: src/src/scheduler.c, with the invariant [sched_wf].
    - Timer.v: src/src/timer.c but for the loop that fires timers.
    - Thread.v: src/src/thread.c, with the invariant [kernel_wf] of the kernel core, and the
      lemmas on leaving the ready queues and on blocking.
    - Frame.v: what an operation of one component leaves alone for the others: the relation
      [ipc_frame] and the classes [WaitObject] and [Stable], the interface between the
      components that keep waiting threads.
    - Clock.v: src/src/clock.c, irq.c, [rt_timer_check] and the tick handler of the board.
      The timeout functions of the application are the parameter [user_cb]; what they have
      to respect is [cb_ok], and [cb_keeps] for the objects of the other components.
    - Ipc.v, Sem.v, MutexLock.v, EventSet.v, Mailbox.v, MsgQueue.v: src/src/ipc.c.
    - System.v: all of these together, as a transition system: threads that call the kernel,
      are suspended in a call and go on with it, ticks and interrupts, in any order.
    - Mempool.v: src/src/mempool.c.
    - Mem.v and Heap.v: src/src/mem.c, first the heap itself and then its functions with the
      semaphore that guards them.
    - Dynamic.v, DynObjects.v, Idle.v: objects on the heap: [rt_object_allocate] and
      [rt_object_delete], the [_create] and [_delete] functions of all kinds of objects, and
      the idle thread of src/src/idle.c.  A function that calls both the kernel and the heap
      is a value of [prog], a sequence of atomic sections and heap calls that [exec] runs.
    - RingBuffer.v: src/components/drivers/src/ringbuffer.c, the ring the pipes use.
    - Completion.v, DataQueue.v: completion.c and dataqueue.c of src/components/drivers/src.
    - Device.v: src/src/device.c and the error number of kservice.c.  The functions of
      the drivers are the parameter [drv], a record [driver]; what the device table may rely
      on is the class [DriverOk], and the theorems on devices are proved against it.
    - Serial.v: src/components/drivers/serial/serial.c, a driver in the sense of Device.v
      ([serial_driver_ok] discharges the interface).  A UART is the characters
      that it is going to deliver and the record of the calls made to it.
    - Pipe.v: src/components/drivers/src/pipe.c.
    - MemFunc.v, Format.v, Console.v: the rest of src/src/kservice.c: the memory functions with
      their loops over words, on a memory of bytes; [rt_vsnprintf] with [print_number], next
      to a grammar of formats and the text the C standard gives for them ([render]); and
      [rt_kprintf] on the console device.
    - FinshVm.v, FinshCompiler.v, FinshExec.v: the stack machine of the shell (finsh_vm.c,
      finsh_ops.c), its type check and code generation (finsh_compiler.c), a language of
      expressions with an evaluator, and that code and evaluator agree.
    - FinshToken.v, FinshHeap.v, FinshParser.v, FinshLine.v: the scanner (finsh_token.c); the
      heap of strings (finsh_heap.c); the parser with the nodes, variables and symbols
      (finsh_parser.c, finsh_node.c, finsh_var.c) next to a grammar; and [finsh_run_line] of
      shell.c, which puts all of it together.
    - Base64.v: src/bsp/easyio_core/BASE64/cbase64.c.
    - AtParse.v: src/bsp/easyio_core/atparse.c.
    - Cmux.v: src/bsp/easyio_core/gsmmux/easyio_cmux.c and [make_fcs] of buffer.c.
    - Gsm0710.v: the rest of buffer.c, the receive buffer of the original multiplexer.
    - AppEvent.v, AppTimer.v: src/bsp/easyio_core/app_ev.c and app_timer.c.
    - Board.v, BoardHeap.v, BoardSystem.v, BoardDynamic.v, BoardDrivers.v, BoardApp.v: a
      concrete system brought up by the kernel's own initialisation functions, on which the
      theorems are applied.

    ** How the code is modelled

    A definition has the name of the C function it translates.  An operation of the kernel
    is a function [kstate -> option (A * kstate)]: [None] is a failed [RT_ASSERT] (which
    never returns), an access through a pointer to no object, or a list operation on a node
    that is linked elsewhere, so that a theorem that an operation returns [Some] is a theorem
    that none of these happens.  Integers are values of [Z] with the wrap of their C type
    written out.  The kernel disables interrupts around each access to shared data, so what
    lies between is one atomic step; where a function enables them again in between (message
    queues, memory pools, the heap, the main loop) it is a sequence of steps.  A call that
    switches to another thread ends with the result [Wait], and the rest of the C function
    is a definition of its own ([rt_sem_take_resume] and the like) that runs when the thread
    is current again.  The configuration is the one of the board's rtconfig.h: names of 8
    bytes, alignment 4, 32 priorities, 100 ticks a second, assertions on, no hooks, no soft
    timers, the small-memory heap.

    ** What the theorems show

    - The whole kernel: every allowed call, resumption, tick or interrupt of a running
      system returns and keeps the invariants of all components ([sys_step_total]), and in
      every reachable state no thread waits for something that is there
      ([reachable_no_lost_wakeup]).
    - Scheduling and time: the thread that runs next is the first of the highest ready
      priority; the tick interrupt returns and wakes exactly the waits that are over; a sleep
      of [n] ticks lasts [n] ticks; the timer list stays ordered across the wrap of the tick;
      yielding is round robin.
    - The IPC objects refine their abstract specifications: a counting semaphore with a
      queue, a recursive lock with priority inheritance, a set of events, a bounded queue of
      mails and one of messages; every branch of each operation, errors and time-outs too.
    - Lists: the pointer operations refine insertion into and removal from sequences.
    - The heap: allocations are aligned, inside the heap and disjoint; freeing removes
      exactly one; the heap stays tiled and coalesced; the calls that nothing interrupts
      equal a sequential reference, and a call made while another one holds the heap waits
      without touching it.  Pools: the same for blocks of one size.
    - Objects on the heap: kernel and heap agree on who owns which region ([mem_ok]); a
      creation succeeds or leaves nothing behind, wherever it fails; a deletion wakes the
      threads that wait and gives back exactly what the object owned; the idle thread gives
      back all that belonged to the closed threads, and nothing else.
    - Drivers: a completion wakes the thread that waits for it, whichever comes first; a
      data queue is a bounded queue of items, also when its 16-bit positions wrap; devices
      are found under the names they were registered with, and are open exactly while they
      have users; what a serial line reads is, in order, the newest characters that arrived, at
      most 2047, and a DMA line sends its blocks in order; a pipe is a bounded stream whose
      readers and writers wake each other.
    - Memory and text: the fast memory functions have the effect of loops over bytes, for
      blocks that overlap too where the code promises it; formatted output is the text the C
      standard gives, cut to the buffer, for the directives on which the code agrees with it (no
      %o, no #, no precision of zero, no precision together with the 0 flag); a message of
      [rt_kprintf] reaches the serial line.
    - The shell: for the text of a line of expressions and declarations [finsh_run_line] shows
      the value the evaluator gives, in the bytes of its type, and the right character; the
      scanner gives back the tokens of a printed line; the parser follows the grammar of its
      comments, less parentheses, casts, strings and general postfix operands; well-typed
      arithmetic whose code fits into the text segment does not fail, and the machine stops
      whatever it is given; its heap of strings is a first-fit allocator with a
      collector on a list of blocks.
    - The AT parser accepts exactly the commands of a grammar with at most 16 parameters, and
      gives back the parameters that a command was built from.
    - Byte rings are queues; Base64 encoding and decoding are inverse, for the string decoder
      and for the stream decoder; what [cmux_write] sends is what the parser of the frames
      hands over, on the same port for the ports 0 to 2; the table-driven check sequence equals
      the bitwise one; frames of at most 127 bytes of data that come in over the line in pieces
      of at most 1916 bytes leave the receive buffer whole and in order.
    - The application: an event whose post succeeds is in the main loop's queue, in a slot of
      its own; a turn of the loop calls the oldest event once and frees its memory; the
      application's clock counts exactly the time that passed; its timers fire exactly when
      their seconds have passed.

    Theorems named in the manifest carry their number; examples at the ends of the files show
    the limits of the code (counters that wrap, waits while the scheduler is locked, a wrong
    check sequence that makes the parser run past its buffer, and others).

    ** Fuel and bounds

    Loops over lists are structural.  The loop of [rt_timer_check] has the length of the
    timer list as fuel, which is enough because every turn either removes a timer that is
    due or stops, and a periodic timer is started again behind the current tick; the theorem
    [SysTick_Handler_ok] is that it returns.  The searches of the heap have
    [heap_fuel], the greatest number of block headers the heap has room for
    ([heap_fuel_enough]), and the theorems that they return are part of those on [rt_malloc]
    and [rt_free].  [rt_thread_idle_excute] has the number of closed threads as fuel, one turn
    for each.  The main loop is modelled turn by turn, one turn a call of [mainloop].
    The loops that wait in data queues and pipes have fuel 2: a turn that does not switch to
    another thread ends the loop at the next test, and a turn that does ends the step.  The
    receive interrupt of a serial line has one turn for each character on the line, and
    [rt_device_init_all] one for each device.  The loops over blocks of memory have the count
    of bytes as fuel, that over the digits of a number the 16 places of its buffer, of which
    ten are used, and the one over a format its length.  The machine of the shell takes at
    most 128 steps, as its program counter only goes up; the scanner reads a character a turn
    and the parser a token a turn and a level, so that the length of the line is enough for
    both; the lists of the shell's heap have at most the 16 headers that fit into it.  A call
    of [gsm0710_buffer_get_frame] takes a byte from the ring for each of its 2048 turns.
    Times are compared modulo 2^32 as in the code, for waits below [RT_TICK_MAX / 2].

    ** Not modelled

    Context switches and the initial stack (assembly), hooks, soft timers, the other
    allocators and loadable modules, which the configuration switches off.  A switch inside a
    heap call of a [_create] or [_delete] function is a result of [exec], and [exec_resume] goes on from it; the theorems on these functions are about
    calls during which nobody else holds the heap.  Waits on completions, data queues and
    pipes are steps of their own with their continuations, and are not among the calls of
    the transition system of System.v.  A portal is a driver that calls the device layer
    again for two pipes, which the interface of drivers in Device.v has no room for.  Of the
    multiplexer gsm0710.c is left, which nothing calls, and of the shell the thread that edits
    the line and the commands, which print.  Third-party code (file systems, lwIP, SQLite,
    cJSON, ezxml, NMEA), register-level drivers, the threads that talk to the modem and
    processor ports are outside of the development. *)
From Stdlib Require Export ZArith Lia.
From stdpp Require Export base gmap sets list strings numbers option.

#[global] Open Scope Z_scope.

(** ** Machine integers

    The firmware is compiled for a 32-bit ARM core: [rt_uint32_t], [rt_size_t],
    [rt_tick_t] and pointers are 32 bits wide, [rt_uint16_t] 16 and [rt_uint8_t] 8.
    A value is kept as a [Z] and every operation that can leave the range is
    followed by the wrap of its type. *)
Definition u8 (x : Z) : Z := x mod 256.
Definition u16 (x : Z) : Z := x mod 65536.
Definition u32 (x : Z) : Z := x mod 4294967296.
Definition i8 (x : Z) : Z := (x + 128) mod 256 - 128.
Definition i16 (x : Z) : Z := (x + 32768) mod 65536 - 32768.
Definition i32 (x : Z) : Z := (x + 2147483648) mod 4294967296 - 2147483648.

(** [RT_UINT32_MAX], and [RT_TICK_MAX] which is defined as it. *)
Definition RT_TICK_MAX : Z := 4294967295.
Definition RT_TICK_HALF : Z := RT_TICK_MAX / 2.

(** [RT_ALIGN] and [RT_ALIGN_DOWN] of rtdef.h at [RT_ALIGN_SIZE = 4], on 32-bit values. *)
Definition RT_ALIGN_SIZE : Z := 4.
Definition RT_ALIGN (size align : Z) : Z :=
  Z.land (u32 (size + align - 1)) (u32 (Z.lnot (align - 1))).
Definition RT_ALIGN_DOWN (size align : Z) : Z :=
  Z.land (u32 size) (u32 (Z.lnot (align - 1))).

(** Error codes of rtdef.h; functions return their negation. *)
Definition RT_EOK : Z := 0.
Definition RT_ERROR : Z := 1.
Definition RT_ETIMEOUT : Z := 2.
Definition RT_EFULL : Z := 3.
Definition RT_EEMPTY : Z := 4.
Definition RT_ENOMEM : Z := 5.
Definition RT_ENOSYS : Z := 6.
Definition RT_EBUSY : Z := 7.

(** The characters of a C string, before the terminating zero. *)
Fixpoint cstring (s : list Z) : list Z :=
  match s with [] => [] | c :: s' => if c =? 0 then [] else c :: cstring s' end.

(** ** Automation *)

(** Case analysis on the boolean comparisons of [Z] in the goal. *)
Ltac zcases :=
  repeat match goal with
    | |- context [Z.eqb ?a ?b] => destruct (Z.eqb_spec a b)
    | |- context [Z.ltb ?a ?b] => destruct (Z.ltb_spec a b)
    | |- context [Z.leb ?a ?b] => destruct (Z.leb_spec a b)
    end.

(** Linear arithmetic after the machine wraps are unfolded to [mod]. *)
Ltac mlia :=
  unfold u8, u16, u32, i8, i16, i32, RT_TICK_HALF, RT_TICK_MAX in *;
  Z.div_mod_to_equations; lia.

Create HintDb rt.
Create Rewrite HintDb rtr.

(** ** Generic lemmas *)

Lemma u32_id (x : Z) : 0 <= x < 4294967296 -> u32 x = x.
Proof. intros. unfold u32. by rewrite Z.mod_small. Qed.

Lemma u32_range (x : Z) : 0 <= u32 x < 4294967296.
Proof. unfold u32. apply Z.mod_pos_bound. lia. Qed.

Lemma u16_id (x : Z) : 0 <= x < 65536 -> u16 x = x.
Proof. intros. unfold u16. by rewrite Z.mod_small. Qed.

Lemma u16_range (x : Z) : 0 <= u16 x < 65536.
Proof. unfold u16. apply Z.mod_pos_bound. lia. Qed.

Lemma u8_id (x : Z) : 0 <= x < 256 -> u8 x = x.
Proof. intros. unfold u8. by rewrite Z.mod_small. Qed.

Lemma u8_range (x : Z) : 0 <= u8 x < 256.
Proof. unfold u8. apply Z.mod_pos_bound. lia. Qed.

#[export] Hint Resolve u32_range u16_range u8_range : rt.

(** Clearing the two low bits of a number rounds it down to a multiple of 4. *)
Lemma land_align4 (x : Z) :
  0 <= x < 4294967296 -> Z.land x 4294967292 = x - x mod 4.
Proof.
  intros Hx.
  assert (Hl : Z.land x 4294967292 = Z.ldiff x 3).
  { apply Z.bits_inj'. intros n Hn. rewrite Z.land_spec, Z.ldiff_spec.
    destruct (decide (n < 32)) as [Hlt|Hge].
    - f_equal. assert (Hc : n = 0 \/ n = 1 \/ 2 <= n) by lia.
      destruct Hc as [->|[->|Hc]]; [done..|].
      change 4294967292 with (Z.shiftl (Z.ones 30) 2). change 3 with (Z.ones 2).
      rewrite Z.shiftl_spec, Z.ones_spec_low, Z.ones_spec_high by lia. done.
    - replace (Z.testbit x n) with false; [done|].
      symmetry. apply Z.bits_above_log2; [lia|].
      destruct (decide (x = 0)) as [->|]; [simpl; lia|].
      apply Z.log2_lt_pow2; [lia|]. apply Z.lt_le_trans with (2 ^ 32); [lia|].
      apply Z.pow_le_mono_r; lia. }
  rewrite Hl. change 3 with (Z.ones 2). rewrite Z.ldiff_ones_r by lia.
  rewrite Z.shiftr_div_pow2, Z.shiftl_mul_pow2 by lia. change (2 ^ 2) with 4.
  Z.div_mod_to_equations; lia.
Qed.

Lemma RT_ALIGN_4 (size : Z) :
  0 <= size <= 4294967292 ->
  RT_ALIGN size 4 = size + (- size) mod 4.
Proof.
  intros Hs. unfold RT_ALIGN. change (u32 (Z.lnot (4 - 1))) with 4294967292.
  rewrite land_align4 by apply u32_range. rewrite u32_id by lia.
  Z.div_mod_to_equations; lia.
Qed.

Lemma RT_ALIGN_DOWN_4 (size : Z) :
  0 <= size < 4294967296 -> RT_ALIGN_DOWN size 4 = size - size mod 4.
Proof.
  intros Hs. unfold RT_ALIGN_DOWN. change (u32 (Z.lnot (4 - 1))) with 4294967292.
  rewrite land_align4 by apply u32_range. by rewrite u32_id by lia.
Qed.

(** Lengths of lists, brought to sums and handed to [lia]. *)
#[export] Hint Rewrite @length_app @length_take @length_drop @length_replicate Nat2Z.inj_add : rtr.
Ltac len := autorewrite with rtr in *; simpl length in *; try lia.

(** A list from which an element absent from it is filtered out. *)
Lemma filter_ne_id {A} `{EqDecision A} (x : A) (l : list A) :
  x ∉ l -> filter (fun y => y <> x) l = l.
Proof.
  induction l as [|a l IH]; [done|]. intros Hx.
  rewrite filter_cons_True by set_solver. rewrite IH by set_solver. done.
Qed.

Lemma elem_of_not_nil {A} (x : A) (l : list A) : x ∈ l -> l <> [].
Proof. intros H ->. by apply not_elem_of_nil in H. Qed.

(** ** Bits of 32-bit words *)

Lemma testbit_above (x i : Z) : 0 <= x < 4294967296 -> 32 <= i -> Z.testbit x i = false.
Proof.
  intros Hx Hi. destruct (decide (x = 0)) as [->|]; [apply Z.bits_0|].
  apply Z.bits_above_log2; [lia|]. apply Z.log2_lt_pow2; [lia|].
  apply Z.lt_le_trans with (2 ^ 32); [lia|]. apply Z.pow_le_mono_r; lia.
Qed.

Lemma word_range (x : Z) :
  0 <= x -> (forall i, 32 <= i -> Z.testbit x i = false) -> x < 4294967296.
Proof.
  intros Hx H. destruct (decide (x < 4294967296)) as [|Hge]; [done|].
  assert (Hl : 32 <= Z.log2 x).
  { change 32 with (Z.log2 4294967296). apply Z.log2_le_mono. lia. }
  specialize (H _ Hl). rewrite Z.bit_log2 in H by lia. done.
Qed.

Lemma lor_range (x y : Z) :
  0 <= x < 4294967296 -> 0 <= y < 4294967296 -> 0 <= Z.lor x y < 4294967296.
Proof.
  intros Hx Hy. assert (0 <= Z.lor x y) by (apply Z.lor_nonneg; lia).
  split; [done|]. apply word_range; [done|]. intros i Hi.
  rewrite Z.lor_spec, !testbit_above by lia. done.
Qed.

Lemma land_range (x y : Z) : 0 <= x < 4294967296 -> 0 <= Z.land x y < 4294967296.
Proof.
  intros Hx. assert (0 <= Z.land x y) by (apply Z.land_nonneg; lia).
  split; [done|]. apply word_range; [done|]. intros i Hi.
  rewrite Z.land_spec, testbit_above by lia. done.
Qed.

Lemma pow2_range (p : Z) : 0 <= p < 32 -> 0 <= 2 ^ p < 4294967296.
Proof.
  intros Hp. split; [apply Z.pow_nonneg; lia|].
  change 4294967296 with (2 ^ 32). apply Z.pow_lt_mono_r; lia.
Qed.

Lemma testbit_set (g p i : Z) :
  0 <= p -> 0 <= i -> Z.testbit (Z.lor g (2 ^ p)) i = (i =? p) || Z.testbit g i.
Proof.
  intros. rewrite Z.lor_spec, orb_comm. f_equal.
  destruct (Z.eqb_spec i p) as [->|]; [by apply Z.pow2_bits_true|].
  apply Z.pow2_bits_false; lia.
Qed.

Lemma testbit_u32 (x i : Z) : 0 <= i < 32 -> Z.testbit (u32 x) i = Z.testbit x i.
Proof.
  intros. unfold u32. change 4294967296 with (2 ^ 32). apply Z.mod_pow2_bits_low. lia.
Qed.

Lemma testbit_clear (g p i : Z) :
  0 <= p -> 0 <= i < 32 ->
  Z.testbit (Z.land g (u32 (Z.lnot (2 ^ p)))) i = negb (i =? p) && Z.testbit g i.
Proof.
  intros. rewrite Z.land_spec, testbit_u32, Z.lnot_spec, andb_comm by lia. f_equal. f_equal.
  destruct (Z.eqb_spec i p) as [->|]; [by apply Z.pow2_bits_true|].
  apply Z.pow2_bits_false; lia.
Qed.

(** The test of a flag reads one bit. *)
Lemma land_pow2_testbit (x n : Z) :
  0 <= n -> negb (Z.land x (2 ^ n) =? 0) = Z.testbit x n.
Proof.
  intros Hn. destruct (Z.testbit x n) eqn:E.
  - apply negb_true_iff, Z.eqb_neq. intros H.
    assert (Hb : Z.testbit (Z.land x (2 ^ n)) n = false) by (by rewrite H, Z.bits_0).
    rewrite Z.land_spec, E, Z.pow2_bits_true in Hb by done. done.
  - apply negb_false_iff, Z.eqb_eq. apply Z.bits_inj'. intros i Hi.
    rewrite Z.land_spec, Z.bits_0. destruct (decide (i = n)) as [->|]; [by rewrite E|].
    rewrite Z.pow2_bits_false by lia. apply andb_false_r.
Qed.

Lemma lor_byte_range (x y : Z) : 0 <= x < 256 -> 0 <= y < 256 -> 0 <= Z.lor x y < 256.
Proof.
  intros Hx Hy. assert (0 <= Z.lor x y) by (apply Z.lor_nonneg; lia). split; [done|].
  destruct (decide (Z.lor x y = 0)) as [->|]; [lia|].
  apply (Z.log2_lt_pow2 _ 8); [lia|]. rewrite Z.log2_lor by lia.
  apply Z.max_lub_lt; [destruct (decide (x = 0)) as [->|]|destruct (decide (y = 0)) as [->|]];
    try (simpl; lia); apply Z.log2_lt_pow2; lia.
Qed.

Lemma land_byte_range (x y : Z) : 0 <= x < 256 -> 0 <= y -> 0 <= Z.land x y < 256.
Proof.
  intros Hx Hy. assert (0 <= Z.land x y) by (apply Z.land_nonneg; lia). split; [done|].
  destruct (decide (Z.land x y = 0)) as [->|]; [lia|].
  apply (Z.log2_lt_pow2 _ 8); [lia|].
  apply Z.le_lt_trans with (Z.log2 x).
  - etrans; [apply Z.log2_land; lia|]. lia.
  - destruct (decide (x = 0)) as [->|]; [simpl; lia|]. apply Z.log2_lt_pow2; lia.
Qed.

(** ** Rings *)

(** The [count] elements of a ring of [n] places from the place [start] on. *)
Definition ring_view {A} (dflt : A) (l : list A) (n start count : Z) : list A :=
  (fun i => default dflt (l !! Z.to_nat ((start + i) mod n))) <$> seqZ 0 count.

Lemma length_ring_view {A} dflt (l : list A) n start count : length (ring_view dflt l n start count) = Z.to_nat count.
Proof. unfold ring_view. by rewrite length_fmap, length_seqZ. Qed.

Lemma ring_index_ne o n i j : 0 < n -> 0 <= i < j -> j < n + i -> (o + i) mod n <> (o + j) mod n.
Proof.
  intros Hn Hi Hj Heq. assert (Hm : (o + j - (o + i)) mod n = 0).
  { rewrite Zminus_mod, Heq, Z.sub_diag. apply Zmod_0_l. }
  rewrite Z.mod_small in Hm by lia. lia.
Qed.

Lemma ring_view_mod {A} dflt (l : list A) n start count : ring_view dflt l n (start mod n) count = ring_view dflt l n start count.
Proof. apply list_fmap_ext. intros i x _. by rewrite Zplus_mod_idemp_l. Qed.

(** Storing at the first free place appends. *)
Lemma ring_view_put {A} dflt (l : list A) n start count v :
  Z.of_nat (length l) = n -> 0 <= count < n ->
  ring_view dflt (<[Z.to_nat ((start + count) mod n) := v]> l) n start (count + 1) = ring_view dflt l n start count ++ [v].
Proof.
  intros Hl Hc. pose proof (Z.mod_pos_bound (start + count) n ltac:(lia)). unfold ring_view.
  rewrite seqZ_app, fmap_app by lia. f_equal.
  - apply list_fmap_ext. intros i x Hx. apply lookup_seqZ in Hx as [-> Hi]. f_equal.
    rewrite list_lookup_insert_ne; [done|]. intros Heq. apply Z2Nat.inj in Heq; [|lia|apply Z.mod_pos_bound; lia].
    symmetry in Heq. apply ring_index_ne in Heq; lia.
  - change (seqZ (0 + count) 1) with [0 + count]. cbn [fmap list_fmap]. rewrite Z.add_0_l, list_lookup_insert_eq by lia. done.
Qed.

(** The element at [start] is the first. *)
Lemma ring_view_get {A} dflt (l : list A) n start count v :
  0 < count -> l !! Z.to_nat (start mod n) = Some v ->
  ring_view dflt l n start count = v :: ring_view dflt l n (start + 1) (count - 1).
Proof.
  intros Hc Ev. unfold ring_view. rewrite (seqZ_cons 0) by lia. cbn [fmap list_fmap]. f_equal; [by rewrite Z.add_0_r, Ev|].
  change (Z.succ 0) with (1 + 0). rewrite <-(fmap_add_seqZ 1 0), <-list_fmap_compose. replace (Z.pred count) with (count - 1) by lia.
  apply list_fmap_ext. intros i x _. cbn. by rewrite Z.add_assoc.
Qed.
