(* ===== verification/KService.v ===== *)
(** * Kernel services (src/src/kservice.c)

    The find-first-set routine the scheduler uses to pick the highest ready
    priority, and the string and memory routines the kernel uses for object
    names and for the bodies of messages.

    A C string is the list of its bytes with the terminating zero included;
    reading past the list is reading outside the string and gives [None].
    [char] is unsigned on the target (ARM). *)
From S2P Require Import Prelude.

(** ** Find first set *)

(** [__lowest_bit_bitmap]: for a byte, the index of its lowest set bit. *)
Definition lowest_bit_bitmap : list Z :=
  [0; 0; 1; 0; 2; 0; 1; 0; 3; 0; 1; 0; 2; 0; 1; 0;
   4; 0; 1; 0; 2; 0; 1; 0; 3; 0; 1; 0; 2; 0; 1; 0;
   5; 0; 1; 0; 2; 0; 1; 0; 3; 0; 1; 0; 2; 0; 1; 0;
   4; 0; 1; 0; 2; 0; 1; 0; 3; 0; 1; 0; 2; 0; 1; 0;
   6; 0; 1; 0; 2; 0; 1; 0; 3; 0; 1; 0; 2; 0; 1; 0;
   4; 0; 1; 0; 2; 0; 1; 0; 3; 0; 1; 0; 2; 0; 1; 0;
   5; 0; 1; 0; 2; 0; 1; 0; 3; 0; 1; 0; 2; 0; 1; 0;
   4; 0; 1; 0; 2; 0; 1; 0; 3; 0; 1; 0; 2; 0; 1; 0;
   7; 0; 1; 0; 2; 0; 1; 0; 3; 0; 1; 0; 2; 0; 1; 0;
   4; 0; 1; 0; 2; 0; 1; 0; 3; 0; 1; 0; 2; 0; 1; 0;
   5; 0; 1; 0; 2; 0; 1; 0; 3; 0; 1; 0; 2; 0; 1; 0;
   4; 0; 1; 0; 2; 0; 1; 0; 3; 0; 1; 0; 2; 0; 1; 0;
   6; 0; 1; 0; 2; 0; 1; 0; 3; 0; 1; 0; 2; 0; 1; 0;
   4; 0; 1; 0; 2; 0; 1; 0; 3; 0; 1; 0; 2; 0; 1; 0;
   5; 0; 1; 0; 2; 0; 1; 0; 3; 0; 1; 0; 2; 0; 1; 0;
   4; 0; 1; 0; 2; 0; 1; 0; 3; 0; 1; 0; 2; 0; 1; 0].

Definition lowest_bit (b : Z) : Z := default 0 (lowest_bit_bitmap !! Z.to_nat b).

(** [__rt_ffs]: one plus the index of the lowest set bit, zero for zero. *)
Definition rt_ffs (value : Z) : Z :=
  if value =? 0 then 0
  else if negb (Z.land value 0xff =? 0) then
    lowest_bit (Z.land value 0xff) + 1
  else if negb (Z.land value 0xff00 =? 0) then
    lowest_bit (Z.shiftr (Z.land value 0xff00) 8) + 9
  else if negb (Z.land value 0xff0000 =? 0) then
    lowest_bit (Z.shiftr (Z.land value 0xff0000) 16) + 17
  else
    lowest_bit (Z.shiftr (Z.land value 0xff000000) 24) + 25.

(** ** Strings *)

(** [rt_strlen]: the number of bytes before the terminating zero. *)
Fixpoint rt_strlen (s : list Z) : option Z :=
  match s with
  | [] => None
  | c :: s' => if c =? 0 then Some 0 else n ← rt_strlen s'; Some (n + 1)
  end.

(** [rt_strncpy]: the [n] bytes written at the destination. *)
Fixpoint rt_strncpy (src : list Z) (n : nat) : option (list Z) :=
  match n with
  | O => Some []
  | S n' =>
      match src with
      | [] => None
      | c :: s' =>
          if c =? 0 then Some (0 :: replicate n' 0)
          else r ← rt_strncpy s' n'; Some (c :: r)
      end
  end.

(** [rt_strncmp]: the difference is kept in a [signed char]. *)
Fixpoint rt_strncmp (cs ct : list Z) (count : nat) : option Z :=
  match count with
  | O => Some 0
  | S count' =>
      match cs, ct with
      | a :: cs', b :: ct' =>
          let res := i8 (a - b) in
          if negb (res =? 0) || (a =? 0) then Some (u32 res)
          else rt_strncmp cs' ct' count'
      | _, _ => None
      end
  end.

(** [rt_strcmp]: the difference of the first bytes that differ. *)
Fixpoint rt_strcmp (cs ct : list Z) : option Z :=
  match cs, ct with
  | a :: cs', b :: ct' =>
      if negb (a =? 0) && (a =? b) then rt_strcmp cs' ct' else Some (u32 (a - b))
  | _, _ => None
  end.

(** [rt_memcmp] on [count] bytes. *)
Fixpoint rt_memcmp (cs ct : list Z) (count : nat) : option Z :=
  match count with
  | O => Some 0
  | S count' =>
      match cs, ct with
      | a :: cs', b :: ct' =>
          if negb (a - b =? 0) then Some (a - b) else rt_memcmp cs' ct' count'
      | _, _ => None
      end
  end.

(** The loop of [rt_strstr]: [off] is the distance [s1] has moved; the result is
    the offset of the match, [None] inside when there is none. *)
Fixpoint strstr_loop (fuel : nat) (s1 s2 : list Z) (l1 l2 off : Z) : option (option Z) :=
  if l1 <? l2 then Some None
  else match fuel with
  | O => None
  | S fuel' =>
      r ← rt_memcmp s1 s2 (Z.to_nat l2);
      if r =? 0 then Some (Some off)
      else strstr_loop fuel' (tail s1) s2 (l1 - 1) l2 (off + 1)
  end.

(** [rt_strstr]: the offset of the first occurrence of [s2] in [s1]. *)
Definition rt_strstr (s1 s2 : list Z) : option (option Z) :=
  l2 ← rt_strlen s2;
  if l2 =? 0 then Some (Some 0)
  else l1 ← rt_strlen s1; strstr_loop (S (Z.to_nat l1)) s1 s2 l1 l2 0.

(** ** Lemmas on find-first-set *)

Lemma lowest_bit_spec_bool :
  forallb (fun b => (b =? 0) ||
    (let r := lowest_bit b in
     (0 <=? r) && (r <? 8) && Z.testbit b r &&
     forallb (fun i => negb (Z.testbit b i)) (seqZ 0 r))) (seqZ 0 256) = true.
Proof. vm_compute. reflexivity. Qed.

Lemma lowest_bit_spec (b : Z) :
  0 < b < 256 ->
  0 <= lowest_bit b < 8 /\ Z.testbit b (lowest_bit b) = true /\
  (forall i, 0 <= i < lowest_bit b -> Z.testbit b i = false).
Proof.
  intros Hb. pose proof lowest_bit_spec_bool as H.
  rewrite forallb_forall in H. specialize (H b).
  rewrite <-list_elem_of_In, elem_of_seqZ in H. specialize (H ltac:(lia)).
  apply orb_true_iff in H as [H|H]; [apply Z.eqb_eq in H; lia|].
  rewrite !andb_true_iff in H. destruct H as [[[H1 H2] H3] H4].
  split; [lia|]. split; [done|]. intros i Hi.
  rewrite forallb_forall in H4. specialize (H4 i).
  rewrite <-list_elem_of_In, elem_of_seqZ in H4. specialize (H4 ltac:(lia)).
  by apply negb_true_iff in H4.
Qed.

(** Byte [k] of a word, the way the code extracts it. *)
Lemma byte_land (v k : Z) :
  0 <= k -> Z.shiftr (Z.land v (Z.shiftl 255 (8 * k))) (8 * k) = Z.land (Z.shiftr v (8 * k)) 255.
Proof.
  intros. rewrite Z.shiftr_land. f_equal. rewrite Z.shiftr_shiftl_l by lia.
  rewrite Z.sub_diag. apply Z.shiftl_0_r.
Qed.

Lemma byte_land_zero (v k : Z) :
  0 <= k ->
  (Z.land v (Z.shiftl 255 (8 * k)) =? 0) = (Z.land (Z.shiftr v (8 * k)) 255 =? 0).
Proof.
  intros Hk. rewrite <-byte_land by done.
  set (w := Z.land v (Z.shiftl 255 (8 * k))).
  destruct (Z.eqb_spec w 0) as [->|Hw]; [by rewrite Z.shiftr_0_l|].
  symmetry. apply Z.eqb_neq. intros H0. apply Hw.
  apply Z.bits_inj'. intros n Hn. rewrite Z.bits_0.
  destruct (decide (n < 8 * k)) as [Hlt|Hge].
  - unfold w. rewrite Z.land_spec, Z.shiftl_spec_low by lia. apply andb_false_r.
  - replace n with ((n - 8 * k) + 8 * k) by lia.
    rewrite <-Z.shiftr_spec by lia. by rewrite H0, Z.bits_0.
Qed.

Lemma byte_range (v : Z) : 0 <= Z.land v 255 < 256.
Proof. change 255 with (Z.ones 8). rewrite Z.land_ones by lia. apply Z.mod_pos_bound. lia. Qed.

Lemma byte_testbit (v k i : Z) :
  0 <= k -> 0 <= i < 8 -> Z.testbit (Z.land (Z.shiftr v (8 * k)) 255) i = Z.testbit v (i + 8 * k).
Proof.
  intros. rewrite Z.land_spec, Z.shiftr_spec by lia.
  change 255 with (Z.ones 8). rewrite Z.ones_spec_low by lia. apply andb_true_r.
Qed.

(** The lowest set bit of a word whose bytes below [k] are zero. *)
Lemma byte_lowest (v k : Z) :
  0 <= k ->
  (forall j, 0 <= j < k -> Z.land (Z.shiftr v (8 * j)) 255 = 0) ->
  Z.land (Z.shiftr v (8 * k)) 255 <> 0 ->
  let r := lowest_bit (Z.land (Z.shiftr v (8 * k)) 255) + 8 * k in
  8 * k <= r < 8 * k + 8 /\ Z.testbit v r = true /\
  (forall i, 0 <= i < r -> Z.testbit v i = false).
Proof.
  intros Hk Hlow Hnz r. pose proof (byte_range (Z.shiftr v (8 * k))) as Hr.
  destruct (lowest_bit_spec (Z.land (Z.shiftr v (8 * k)) 255)) as (H1 & H2 & H3); [lia|].
  split; [lia|]. split; [unfold r; by rewrite <-byte_testbit|].
  intros i Hi. destruct (decide (8 * k <= i)).
  - replace i with ((i - 8 * k) + 8 * k) by lia. rewrite <-byte_testbit by lia. apply H3. lia.
  - replace i with (i mod 8 + 8 * (i / 8)) by (Z.div_mod_to_equations; lia).
    rewrite <-byte_testbit by (Z.div_mod_to_equations; lia).
    rewrite Hlow by (Z.div_mod_to_equations; lia). apply Z.bits_0.
Qed.

Lemma byte3_zero (v : Z) :
  0 <= v < 4294967296 ->
  (forall j, 0 <= j < 4 -> Z.land (Z.shiftr v (8 * j)) 255 = 0) -> v = 0.
Proof.
  intros Hv H. apply Z.bits_inj'. intros n Hn. rewrite Z.bits_0.
  destruct (decide (n < 32)).
  - replace n with (n mod 8 + 8 * (n / 8)) by (Z.div_mod_to_equations; lia).
    rewrite <-byte_testbit by (Z.div_mod_to_equations; lia).
    rewrite H by (Z.div_mod_to_equations; lia). apply Z.bits_0.
  - destruct (decide (v = 0)) as [->|]; [apply Z.bits_0|].
    apply Z.bits_above_log2; [lia|].
    apply Z.log2_lt_pow2; [lia|]. apply Z.lt_le_trans with (2 ^ 32); [lia|].
    apply Z.pow_le_mono_r; lia.
Qed.

(** The table-driven routine finds the lowest set bit of every non-zero word. *)
Lemma rt_ffs_spec (v : Z) :
  0 < v < 4294967296 ->
  1 <= rt_ffs v <= 32 /\ Z.testbit v (rt_ffs v - 1) = true /\
  (forall i, 0 <= i < rt_ffs v - 1 -> Z.testbit v i = false).
Proof.
  intros Hv. unfold rt_ffs. destruct (Z.eqb_spec v 0); [lia|].
  change 0xff00 with (Z.shiftl 255 (8 * 1)). change 0xff0000 with (Z.shiftl 255 (8 * 2)).
  change 0xff000000 with (Z.shiftl 255 (8 * 3)).
  change 24 with (8 * 3). change 16 with (8 * 2).
  change (Z.shiftr (Z.land v (Z.shiftl 255 (8 * 1))) 8) with
    (Z.shiftr (Z.land v (Z.shiftl 255 (8 * 1))) (8 * 1)).
  rewrite !byte_land_zero, !byte_land by lia.
  change (Z.land v 255) with (Z.land (Z.shiftr v (8 * 0)) 255).
  assert (Hb : forall k, 0 <= k < 4 ->
    (forall j, 0 <= j < k -> Z.land (Z.shiftr v (8 * j)) 255 = 0) ->
    Z.land (Z.shiftr v (8 * k)) 255 <> 0 ->
    forall r, r = lowest_bit (Z.land (Z.shiftr v (8 * k)) 255) + (8 * k + 1) ->
    1 <= r <= 32 /\ Z.testbit v (r - 1) = true /\
    (forall i, 0 <= i < r - 1 -> Z.testbit v i = false)).
  { intros k Hk Hl Hn r ->. destruct (byte_lowest v k) as (A & B & C); [lia|done..|].
    replace (lowest_bit (Z.land (Z.shiftr v (8 * k)) 255) + (8 * k + 1) - 1) with
      (lowest_bit (Z.land (Z.shiftr v (8 * k)) 255) + 8 * k) by lia.
    split; [lia|]. split; [done|]. apply C. }
  destruct (Z.eqb_spec (Z.land (Z.shiftr v (8 * 0)) 255) 0) as [E0|E0]; cbn [negb];
    [|eapply (Hb 0); [lia| intros; lia | done | done]].
  destruct (Z.eqb_spec (Z.land (Z.shiftr v (8 * 1)) 255) 0) as [E1|E1]; cbn [negb];
    [|eapply (Hb 1); [lia| intros j Hj; replace j with 0 by lia; done | done | done]].
  destruct (Z.eqb_spec (Z.land (Z.shiftr v (8 * 2)) 255) 0) as [E2|E2]; cbn [negb].
  - assert (Hz : forall j, 0 <= j < 3 -> Z.land (Z.shiftr v (8 * j)) 255 = 0).
    { intros j Hj. assert (Hc : j = 0 \/ j = 1 \/ j = 2) by lia.
      destruct Hc as [-> | [-> | ->]]; done. }
    eapply (Hb 3); [lia|done| |done]. intros E3. apply n. apply byte3_zero; [lia|].
    intros j Hj. destruct (decide (j = 3)) as [->|]; [done|]. apply Hz. lia.
  - eapply (Hb 2); [lia| |done|done].
    intros j Hj. assert (Hc : j = 0 \/ j = 1) by lia. destruct Hc as [-> | ->]; done.
Qed.
