(* ===== verification/RtList.v ===== *)
(** * Intrusive doubly linked lists (src/include/rtservice.h)

    Every queue of the kernel (ready queues, waiting threads of an IPC object,
    active timers, object containers) is a circular doubly linked list threaded
    through nodes embedded in the objects.  This file models the pointer
    operations on a memory of list nodes and proves that they implement the
    operations on finite sequences the rest of the development uses: a family
    of disjoint sequences, [filter] for a removal and insertion at a position. *)
From S2P Require Import Prelude.

Module RtList.

(** ** The memory of list nodes *)

(** [struct rt_list_node]. *)
Record rt_list_node := Node { next : Z; prev : Z }.

(** The nodes by address; an access outside it is an invalid pointer. *)
Abbreviation lmem := (gmap Z rt_list_node).

Definition get_next (a : Z) (m : lmem) : option Z := next <$> m !! a.
Definition get_prev (a : Z) (m : lmem) : option Z := prev <$> m !! a.
Definition set_next (a v : Z) (m : lmem) : option lmem :=
  n ← m !! a; Some (<[a := Node v (prev n)]> m).
Definition set_prev (a v : Z) (m : lmem) : option lmem :=
  n ← m !! a; Some (<[a := Node (next n) v]> m).

(** ** The operations, one assignment after the other *)

Definition rt_list_init (l : Z) (m : lmem) : option lmem :=
  m ← set_prev l l m; set_next l l m.

Definition rt_list_insert_after (l n : Z) (m : lmem) : option lmem :=
  ln ← get_next l m;
  m ← set_prev ln n m;
  ln ← get_next l m;
  m ← set_next n ln m;
  m ← set_next l n m;
  set_prev n l m.

Definition rt_list_insert_before (l n : Z) (m : lmem) : option lmem :=
  lp ← get_prev l m;
  m ← set_next lp n m;
  lp ← get_prev l m;
  m ← set_prev n lp m;
  m ← set_prev l n m;
  set_next n l m.

Definition rt_list_remove (n : Z) (m : lmem) : option lmem :=
  nn ← get_next n m; np ← get_prev n m;
  m ← set_prev nn np m;
  nn ← get_next n m; np ← get_prev n m;
  m ← set_next np nn m;
  m ← set_prev n n m;
  set_next n n m.

Definition rt_list_isempty (l : Z) (m : lmem) : option bool :=
  ln ← get_next l m; Some (ln =? l).

(** ** The sequences a memory represents *)

(** [b] follows [a]. *)
Definition linked (m : lmem) (a b : Z) : Prop :=
  get_next a m = Some b /\ get_prev b m = Some a.

(** Each element is linked to the one after it. *)
Fixpoint chain (m : lmem) (l : list Z) : Prop :=
  match l with
  | a :: (b :: _) as l' => linked m a b /\ chain m l'
  | _ => True
  end.

(** The list with head node [h] holds the nodes [l], in order. *)
Definition is_list (m : lmem) (h : Z) (l : list Z) : Prop :=
  NoDup (h :: l) /\ chain m (h :: l ++ [h]).

(** What an insertion of [n] between [a] and [b] does to the memory. *)
Definition spliced (m m' : lmem) (a n b : Z) : Prop :=
  linked m' a n /\ linked m' n b /\
  (forall x, x <> a -> x <> n -> get_next x m' = get_next x m) /\
  (forall x, x <> b -> x <> n -> get_prev x m' = get_prev x m) /\
  (forall x, x <> a -> x <> b -> x <> n -> m' !! x = m !! x).

(** What a removal of [n] from between [a] and [b] does to the memory. *)
Definition unspliced (m m' : lmem) (a n b : Z) : Prop :=
  linked m' a b /\ linked m' n n /\
  (forall x, x <> a -> x <> n -> get_next x m' = get_next x m) /\
  (forall x, x <> b -> x <> n -> get_prev x m' = get_prev x m) /\
  (forall x, x <> a -> x <> b -> x <> n -> m' !! x = m !! x).

(** A family of lists, by head: no node is in two of them. *)
Definition repr (m : lmem) (Q : gmap Z (list Z)) : Prop :=
  (forall h l, Q !! h = Some l -> is_list m h l) /\
  (forall h1 l1 h2 l2 x, Q !! h1 = Some l1 -> Q !! h2 = Some l2 -> h1 <> h2 ->
     x ∈ h1 :: l1 -> x ∈ h2 :: l2 -> False).

(** The sequence operations. *)
Definition q_remove (n : Z) (Q : gmap Z (list Z)) : gmap Z (list Z) :=
  (fun l => filter (fun x => x <> n) l) <$> Q.
Definition q_insert (h : Z) (l1 : list Z) (n : Z) (l2 : list Z)
    (Q : gmap Z (list Z)) : gmap Z (list Z) := <[h := l1 ++ n :: l2]> Q.

(** ** Lemmas *)

Lemma get_next_Some m a b : get_next a m = Some b <-> exists p, m !! a = Some (Node b p).
Proof.
  unfold get_next. rewrite fmap_Some. split.
  - intros ([b' p] & H & ->). eauto.
  - intros [p H]. eauto.
Qed.

Lemma get_prev_Some m a b : get_prev a m = Some b <-> exists n, m !! a = Some (Node n b).
Proof.
  unfold get_prev. rewrite fmap_Some. split.
  - intros ([n p] & H & ->). eauto.
  - intros [n H]. eauto.
Qed.

Lemma chain_app m l1 a l2 :
  chain m (l1 ++ a :: l2) <-> chain m (l1 ++ [a]) /\ chain m (a :: l2).
Proof.
  induction l1 as [|x l1 IH]; [simpl; destruct l2; tauto|].
  destruct l1 as [|y l1]; simpl in *; tauto.
Qed.

(** Only the successors of all nodes but the last and the predecessors of all
    but the first matter to a chain. *)
Lemma chain_frame m m' l a b :
  (forall x, x ∈ l -> get_next x m' = get_next x m) ->
  (forall y, y ∈ l -> get_prev y m' = get_prev y m) ->
  get_next a m' = get_next a m -> get_prev b m' = get_prev b m ->
  chain m (a :: l ++ [b]) -> chain m' (a :: l ++ [b]).
Proof.
  revert a. induction l as [|x l IH]; intros a Hn Hp Ha Hb; simpl.
  - intros [[H1 H2] _]. split; [|done]. split; congruence.
  - intros [[H1 H2] H]. split.
    + split; [congruence|]. rewrite Hp by set_solver. done.
    + apply IH; try done; intros; first [apply Hn|apply Hp]; set_solver.
Qed.

Lemma chain_frame_eq m m' l :
  (forall x, x ∈ l -> m' !! x = m !! x) -> chain m l -> chain m' l.
Proof.
  induction l as [|x [|y l] IH]; [done..|]. intros He [[H1 H2] H]. split.
  - unfold linked, get_next, get_prev in *. rewrite !He by set_solver. done.
  - apply IH; [|done]. intros z Hz. apply He. set_solver.
Qed.

Lemma is_list_frame m m' h l :
  (forall x, x ∈ h :: l -> m' !! x = m !! x) -> is_list m h l -> is_list m' h l.
Proof.
  intros He [Hnd Hc]. split; [done|].
  eapply chain_frame_eq; [|done]. intros x Hx. apply He. set_solver.
Qed.

(** The last two nodes of a chain, and the first two. *)
Lemma chain_linked m l1 a b l2 : chain m (l1 ++ a :: b :: l2) -> linked m a b.
Proof. rewrite chain_app. intros [_ [H _]]. done. Qed.

Lemma is_list_cycle m h l a l2 :
  is_list m h (l ++ a :: l2) ->
  exists p n, linked m p a /\ linked m a n /\
    (p = List.last l h) /\ (n = hd h l2).
Proof.
  intros [_ Hc]. exists (List.last l h), (hd h l2).
  assert (Hp : exists l', h :: l = l' ++ [List.last l h]).
  { destruct l as [|x l] using rev_ind; [by exists []|].
    exists (h :: l). simpl. rewrite List.last_last. done. }
  destruct Hp as [l' Hp].
  assert (Hn : exists l'', l2 ++ [h] = hd h l2 :: l'').
  { destruct l2; simpl; eauto. }
  destruct Hn as [l'' Hn].
  replace (h :: (l ++ a :: l2) ++ [h]) with ((l' ++ [List.last l h]) ++ a :: hd h l2 :: l'') in Hc.
  2: { rewrite <-Hp, <-Hn. simpl. by rewrite <-app_assoc. }
  split.
  - rewrite <-app_assoc in Hc. simpl in Hc. by apply chain_linked in Hc.
  - split; [|done]. by apply chain_linked in Hc.
Qed.

(** Evaluates the reads and writes of an operation on a memory whose cells at
    the addresses involved are known. *)
Ltac cells :=
  repeat first
    [ progress simplify_map_eq
    | match goal with |- context [?m !! ?a] =>
        rewrite (lookup_insert_ne _ _ a) by congruence end
    | match goal with H : context [<[?i := _]> _ !! ?j] |- _ =>
        rewrite (lookup_insert_ne _ i j) in H by congruence end
    | progress simpl ].

Ltac cell_facts :=
  repeat split; intros; unfold linked, get_next, get_prev; repeat split;
  rewrite ?lookup_insert; repeat (case_decide; simplify_eq/=; try congruence);
  rewrite ?lookup_insert; repeat (case_decide; simplify_eq/=; try congruence);
  try done; try by simplify_map_eq.

Lemma insert_after_spliced m a b n :
  linked m a b -> is_Some (m !! n) -> n <> a -> n <> b ->
  exists m', rt_list_insert_after a n m = Some m' /\ spliced m m' a n b.
Proof.
  intros [Ha Hb] [[nn np] Hn] Hna Hnb.
  apply get_next_Some in Ha as [ap Ha]. apply get_prev_Some in Hb as [bn Hb].
  unfold rt_list_insert_after, set_prev, set_next, get_next, get_prev, spliced.
  rewrite Ha. simpl. rewrite Hb. simpl.
  destruct (decide (a = b)) as [->|Hab].
  - rewrite Hb in Ha. simplify_eq. cells. eexists. split; [done|]. cell_facts.
  - cells. eexists. split; [done|]. cell_facts.
Qed.

Lemma insert_before_spliced m a b n :
  linked m a b -> is_Some (m !! n) -> n <> a -> n <> b ->
  exists m', rt_list_insert_before b n m = Some m' /\ spliced m m' a n b.
Proof.
  intros [Ha Hb] [[nn np] Hn] Hna Hnb.
  apply get_next_Some in Ha as [ap Ha]. apply get_prev_Some in Hb as [bn Hb].
  unfold rt_list_insert_before, set_prev, set_next, get_next, get_prev, spliced.
  rewrite Hb. simpl. rewrite Ha. simpl.
  destruct (decide (a = b)) as [->|Hab].
  - rewrite Hb in Ha. simplify_eq. cells. eexists. split; [done|]. cell_facts.
  - cells. eexists. split; [done|]. cell_facts.
Qed.

Lemma remove_unspliced m a b n :
  linked m a n -> linked m n b -> n <> a -> n <> b ->
  exists m', rt_list_remove n m = Some m' /\ unspliced m m' a n b.
Proof.
  intros [Ha Hn] [Hn' Hb] Hna Hnb.
  apply get_next_Some in Ha as [ap Ha]. apply get_prev_Some in Hb as [bn Hb].
  apply get_prev_Some in Hn as [n1 Hn].
  unfold get_next in Hn'. rewrite Hn in Hn'. injection Hn' as ->.
  unfold rt_list_remove, set_prev, set_next, get_next, get_prev, unspliced.
  rewrite Hn. simpl. rewrite Hb. simpl.
  destruct (decide (a = b)) as [->|Hab].
  - rewrite Hb in Ha. simplify_eq. cells. eexists. split; [done|]. cell_facts.
  - cells. eexists. split; [done|]. cell_facts.
Qed.

(** Removing a node that is in no list (it is linked to itself) changes nothing. *)
Lemma remove_self m n : linked m n n -> rt_list_remove n m = Some m.
Proof.
  intros [H1 H2]. apply get_next_Some in H1 as [p H1]. apply get_prev_Some in H2 as [q H2].
  rewrite H1 in H2. simplify_eq.
  unfold rt_list_remove, set_prev, set_next, get_next, get_prev.
  rewrite H1. simpl. cells. f_equal. rewrite !insert_insert_eq.
  by apply insert_id.
Qed.

(** The ends of a cycle around a position. *)
Lemma last_split (h : Z) (l : list Z) : exists l', h :: l = l' ++ [List.last l h].
Proof.
  destruct l as [|x l] using rev_ind; [by exists []|].
  exists (h :: l). simpl. rewrite List.last_last. done.
Qed.

Lemma hd_split (h : Z) (l : list Z) : exists l', l ++ [h] = hd h l :: l'.
Proof. destruct l; simpl; eauto. Qed.

(** The nodes strictly before the last one of [h :: l1], and those after the
    first one of [l2 ++ [h]]. *)
Lemma chain_cycle m h l1 l2 :
  chain m (h :: (l1 ++ l2) ++ [h]) <->
  chain m (h :: l1) /\ linked m (List.last l1 h) (hd h l2) /\ chain m (l2 ++ [h]).
Proof.
  destruct (last_split h l1) as [l' Hl]. destruct (hd_split h l2) as [l'' Hh].
  replace (h :: (l1 ++ l2) ++ [h]) with (l' ++ List.last l1 h :: hd h l2 :: l'').
  2: { rewrite <-Hh. rewrite <-app_assoc.
       change (h :: l1 ++ l2 ++ [h]) with ((h :: l1) ++ l2 ++ [h]).
       rewrite Hl, <-app_assoc. done. }
  rewrite Hl, Hh, chain_app. simpl. tauto.
Qed.

Lemma chain_frame_gen m m' l :
  (forall x, x ∈ removelast l -> get_next x m' = get_next x m) ->
  (forall y, y ∈ tail l -> get_prev y m' = get_prev y m) ->
  chain m l -> chain m' l.
Proof.
  induction l as [|x [|y l] IH]; [done..|]. intros Hn Hp [[H1 H2] H]. split.
  - split; [rewrite Hn by (simpl; set_solver); done|].
    rewrite Hp by (simpl; set_solver). done.
  - apply IH; [| |done]; intros z Hz; [apply Hn|apply Hp]; simpl in *; set_solver.
Qed.

Lemma removelast_last_ne (h : Z) (l : list Z) x :
  NoDup (h :: l) -> x ∈ removelast (h :: l) -> x ∈ h :: l /\ x <> List.last l h.
Proof.
  intros Hnd Hx. destruct (last_split h l) as [l' Hl]. rewrite Hl in *.
  rewrite removelast_last in Hx. rewrite list.NoDup_app in Hnd. set_solver.
Qed.

Lemma tail_hd_ne (h : Z) (l : list Z) x :
  NoDup (h :: l) -> x ∈ tail (l ++ [h]) -> x ∈ h :: l /\ x <> hd h l.
Proof.
  intros Hnd Hx. destruct l as [|y l]; simpl in *; [set_solver|].
  rewrite !list.NoDup_cons in Hnd. set_solver.
Qed.

(** An insertion between the last node of [h :: l1] and the first of [l2]. *)
Lemma spliced_is_list m m' h l1 l2 n :
  is_list m h (l1 ++ l2) -> n ∉ h :: l1 ++ l2 ->
  spliced m m' (List.last l1 h) n (hd h l2) ->
  is_list m' h (l1 ++ n :: l2).
Proof.
  intros [Hnd Hc] Hn (Han & Hnb & Hnext & Hprev & _).
  assert (Hla : List.last l1 h ∈ h :: l1) by
    (destruct (last_split h l1) as [l' ->]; set_solver).
  assert (Hhb : hd h l2 ∈ h :: l2) by (destruct l2; set_solver).
  assert (Hnd1 : NoDup (h :: l1)).
  { rewrite app_comm_cons, list.NoDup_app in Hnd. tauto. }
  assert (Hnd2 : NoDup (h :: l2)).
  { rewrite list.NoDup_cons, list.NoDup_app in Hnd. rewrite list.NoDup_cons. set_solver. }
  split.
  - rewrite list.NoDup_cons in *. rewrite list.NoDup_app in *. rewrite list.NoDup_cons. set_solver.
  - apply chain_cycle in Hc as (H1 & _ & H2). apply chain_cycle. simpl hd.
    split; [|split; [done|]].
    + eapply chain_frame_gen; [| |exact H1].
      * intros x Hx. destruct (removelast_last_ne _ _ _ Hnd1 Hx).
        apply Hnext; [done|]. set_solver.
      * intros y Hy. simpl in Hy. apply Hprev; [|set_solver].
        rewrite list.NoDup_cons, list.NoDup_app in Hnd. intros ->. destruct l2; set_solver.
    + destruct (hd_split h l2) as [l'' Hh]. rewrite <-app_comm_cons, Hh.
      change (linked m' n (hd h l2) /\ chain m' (hd h l2 :: l'')). rewrite <-Hh.
      split; [done|]. eapply chain_frame_gen; [| |exact H2].
      * intros x Hx. rewrite removelast_last in Hx. apply Hnext; [|set_solver].
        rewrite list.NoDup_cons, list.NoDup_app in Hnd. intros ->.
        apply elem_of_cons in Hla as [Hla|Hla]; [rewrite Hla in Hx|]; set_solver.
      * intros y Hy. destruct (tail_hd_ne _ _ _ Hnd2 Hy). apply Hprev; [done|set_solver].
Qed.

Lemma unspliced_is_list m m' h l1 l2 n :
  is_list m h (l1 ++ n :: l2) ->
  unspliced m m' (List.last l1 h) n (hd h l2) ->
  is_list m' h (l1 ++ l2) /\ is_list m' n [].
Proof.
  intros [Hnd Hc] (Hab & Hnn & Hnext & Hprev & _). split; [|split; [apply NoDup_singleton|]; split; done].
  assert (Hla : List.last l1 h ∈ h :: l1) by
    (destruct (last_split h l1) as [l' ->]; set_solver).
  assert (Hhb : hd h l2 ∈ h :: l2) by (destruct l2; set_solver).
  rewrite list.NoDup_cons, list.NoDup_app, list.NoDup_cons in Hnd. destruct Hnd as (Hh & N1 & N2 & N3 & N4).
  assert (Hnd1 : NoDup (h :: l1)) by (rewrite list.NoDup_cons; set_solver).
  assert (Hnd2 : NoDup (h :: l2)) by (rewrite list.NoDup_cons; set_solver).
  split.
  - rewrite list.NoDup_cons, list.NoDup_app. set_solver.
  - apply chain_cycle in Hc as (H1 & _ & H2). apply chain_cycle.
    split; [|split; [done|]].
    + eapply chain_frame_gen; [| |exact H1].
      * intros x Hx. destruct (removelast_last_ne _ _ _ Hnd1 Hx).
        apply Hnext; [done|]. set_solver.
      * intros y Hy. simpl in Hy. apply Hprev; [|set_solver].
        intros ->. destruct l2; set_solver.
    + destruct (hd_split h l2) as [l'' E]. rewrite <-app_comm_cons, E in H2.
      destruct H2 as [_ H2]. rewrite <-E in H2.
      eapply chain_frame_gen; [| |exact H2].
      * intros x Hx. rewrite removelast_last in Hx. apply Hnext; [|set_solver].
        intros ->. apply elem_of_cons in Hla as [Hla|Hla]; [rewrite Hla in Hx|]; set_solver.
      * intros y Hy. destruct (tail_hd_ne _ _ _ Hnd2 Hy). apply Hprev; [done|set_solver].
Qed.

(** A list disjoint from the nodes an operation touches is untouched. *)
Lemma repr_other m m' Q h l h' l' :
  repr m Q -> Q !! h = Some l -> Q !! h' = Some l' -> h <> h' ->
  (forall x, x ∉ h :: l -> x ∈ h' :: l' -> m' !! x = m !! x) ->
  is_list m' h' l'.
Proof.
  intros [Hl Hd] Hh Hh' Hne Hf. eapply is_list_frame; [|by apply Hl].
  intros x Hx. apply Hf; [|done]. intros Hx'. by eapply (Hd h l h' l').
Qed.

Lemma repr_insert m m' Q h l1 l2 n :
  repr m Q -> Q !! h = Some (l1 ++ l2) ->
  (forall h' l', Q !! h' = Some l' -> n ∉ h' :: l') ->
  spliced m m' (List.last l1 h) n (hd h l2) ->
  repr m' (q_insert h l1 n l2 Q).
Proof.
  intros Hr Hh Hn Hs.
  assert (Hla : List.last l1 h ∈ h :: l1) by
    (destruct (last_split h l1) as [l' ->]; set_solver).
  assert (Hhb : hd h l2 ∈ h :: l2) by (destruct l2; set_solver).
  split.
  - intros h' l' Hl'. unfold q_insert in Hl'. rewrite lookup_insert in Hl'. case_decide.
    + simplify_eq. eapply spliced_is_list; [by apply Hr|by eapply Hn|done].
    + eapply repr_other; [done|exact Hh|exact Hl'|done|].
      intros x Hx Hx'. apply Hs; [set_solver..|]. intros ->. by eapply Hn.
  - intros h1 l1' h2 l2' x H1 H2 Hne Hx1 Hx2. unfold q_insert in *.
    rewrite lookup_insert in H1, H2. destruct Hr as [_ Hd].
    destruct (decide (h = h1)) as [E1|E1], (decide (h = h2)) as [E2|E2].
    + congruence.
    + subst h1. injection H1 as <-. assert (x <> n) by (intros ->; eapply Hn; eauto).
      eapply (Hd _ _ _ _ x Hh H2); eauto; set_solver.
    + subst h2. injection H2 as <-. assert (x <> n) by (intros ->; eapply Hn; eauto).
      eapply (Hd _ _ _ _ x H1 Hh); eauto; set_solver.
    + by eapply (Hd _ _ _ _ x H1 H2).
Qed.

(** [rt_list_insert_before] at a node of a list, or at its head, puts a node
    that is in no list immediately before it, and leaves all other lists alone. *)
Lemma rt_list_insert_before_refines m Q h l1 l2 n :
  repr m Q -> Q !! h = Some (l1 ++ l2) ->
  (forall h' l', Q !! h' = Some l' -> n ∉ h' :: l') -> is_Some (m !! n) ->
  exists m', rt_list_insert_before (hd h l2) n m = Some m' /\
             repr m' (q_insert h l1 n l2 Q).
Proof.
  intros Hr Hh Hn Hm.
  assert (Hla : List.last l1 h ∈ h :: l1) by
    (destruct (last_split h l1) as [l' ->]; set_solver).
  assert (Hhb : hd h l2 ∈ h :: l2) by (destruct l2; set_solver).
  pose proof (proj1 Hr _ _ Hh) as [_ Hc]. apply chain_cycle in Hc as (_ & Hab & _).
  pose proof (Hn _ _ Hh) as Hni.
  destruct (insert_before_spliced m _ _ n Hab Hm) as (m' & E & Hs); [set_solver..|].
  exists m'. split; [done|]. by eapply repr_insert.
Qed.

(** [rt_list_remove] takes a node out of whichever list it is in, leaves it
    linked to itself and leaves all other lists alone. *)
Lemma rt_list_remove_refines m Q h l n :
  repr m Q -> Q !! h = Some l -> n ∈ l ->
  exists m', rt_list_remove n m = Some m' /\ repr m' (q_remove n Q) /\ is_list m' n [].
Proof.
  intros Hr Hh Hin. apply list_elem_of_split in Hin as (l1 & l2 & ->).
  pose proof (proj1 Hr _ _ Hh) as Hil. destruct (is_list_cycle _ _ _ _ _ Hil)
    as (p & q & Hp & Hq & -> & ->).
  pose proof Hil as [Hnd _].
  rewrite list.NoDup_cons, list.NoDup_app, list.NoDup_cons in Hnd.
  destruct Hnd as (N0 & N1 & N2 & N3 & N4).
  assert (Hla : List.last l1 h ∈ h :: l1) by
    (destruct (last_split h l1) as [l' ->]; set_solver).
  assert (Hhb : hd h l2 ∈ h :: l2) by (destruct l2; set_solver).
  destruct (remove_unspliced m _ _ n Hp Hq) as (m' & E & Hu); [set_solver..|].
  exists m'. split; [done|].
  destruct (unspliced_is_list _ _ _ _ _ _ Hil Hu) as [Hil' Hself].
  split; [|done]. split.
  - intros h' l' Hl'. unfold q_remove in Hl'. rewrite lookup_fmap in Hl'.
    apply fmap_Some in Hl' as (l0 & Hl0 & ->). destruct (decide (h = h')) as [<-|Hne].
    + simplify_eq. rewrite list.filter_app, filter_cons_False by tauto.
      rewrite !filter_ne_id by set_solver. done.
    + assert (Hn0 : n ∉ h' :: l0).
      { intros ?. eapply (proj2 Hr h _ h' l0 n); eauto. set_solver. }
      rewrite filter_ne_id by set_solver. eapply repr_other; [done|exact Hh|exact Hl0|done|].
      intros x Hx Hx'. apply Hu; set_solver.
  - intros h1 l1' h2 l2' x H1 H2 Hne Hx1 Hx2. unfold q_remove in *.
    rewrite lookup_fmap in H1, H2.
    apply fmap_Some in H1 as (k1 & K1 & ->). apply fmap_Some in H2 as (k2 & K2 & ->).
    eapply (proj2 Hr h1 k1 h2 k2 x); eauto.
    + apply elem_of_cons in Hx1 as [->|Hx1]; [set_solver|].
      apply list_elem_of_filter in Hx1. set_solver.
    + apply elem_of_cons in Hx2 as [->|Hx2]; [set_solver|].
      apply list_elem_of_filter in Hx2. set_solver.
Qed.

(** C23. The pointer operations on lists refine the ones on sequences, for all the lists of a store
    together: [rt_list_insert_before] at a node of a list, or at its head, puts a node that is
    in no list immediately before it, [rt_list_remove] takes a node out of whichever list it
    is in and leaves it linked to itself, and both leave all other lists alone. *)
Theorem rt_list_refines m Q :
  repr m Q ->
  (forall h l1 l2 n, Q !! h = Some (l1 ++ l2) -> (forall h' l', Q !! h' = Some l' -> n ∉ h' :: l') -> is_Some (m !! n) ->
     exists m', rt_list_insert_before (hd h l2) n m = Some m' /\ repr m' (q_insert h l1 n l2 Q)) /\
  (forall h l n, Q !! h = Some l -> n ∈ l ->
     exists m', rt_list_remove n m = Some m' /\ repr m' (q_remove n Q) /\ is_list m' n []).
Proof.
  intros Hr. split; intros; [by apply rt_list_insert_before_refines|by eapply rt_list_remove_refines].
Qed.

(** The emptiness test answers for the sequence. *)
Lemma rt_list_isempty_spec m h l :
  is_list m h l -> rt_list_isempty h m = Some (bool_decide (l = [])).
Proof.
  intros [Hnd Hc]. unfold rt_list_isempty.
  destruct l as [|x l]; simpl in Hc.
  - destruct Hc as [[-> _] _]. simpl. by rewrite Z.eqb_refl.
  - destruct Hc as [[-> _] _]. simpl.
    f_equal. apply Z.eqb_neq. rewrite list.NoDup_cons in Hnd. set_solver.
Qed.

(** A concrete memory: the head 1 with nodes 2 and 3, and the free node 4. *)
Definition ex_mem : lmem :=
  {[ 1 := Node 2 3; 2 := Node 3 1; 3 := Node 1 2; 4 := Node 4 4 ]}.
Definition ex_lists : gmap Z (list Z) := {[ 1 := [2; 3] ]}.

Lemma ex_repr : repr ex_mem ex_lists.
Proof.
  split.
  - intros h l H. unfold ex_lists in H. apply lookup_singleton_Some in H as [<- <-].
    split; [apply (bool_decide_unpack _); vm_compute; done|].
    simpl. repeat split; vm_compute; done.
  - intros h1 l1 h2 l2 x H1 H2. unfold ex_lists in *.
    apply lookup_singleton_Some in H1 as [<- _]. apply lookup_singleton_Some in H2 as [<- _]. done.
Qed.

Lemma ex_fresh h l : ex_lists !! h = Some l -> 4 ∉ h :: l.
Proof. intros H. unfold ex_lists in H. apply lookup_singleton_Some in H as [<- <-]. set_solver. Qed.

Lemma rt_list_refines_witness :
  (exists m', rt_list_insert_before 3 4 ex_mem = Some m' /\ repr m' (q_insert 1 [2] 4 [3] ex_lists)) /\
  (exists m', rt_list_remove 2 ex_mem = Some m' /\ repr m' (q_remove 2 ex_lists) /\ is_list m' 2 []).
Proof.
  destruct (rt_list_refines ex_mem ex_lists ex_repr) as [H1 H2]. split.
  - apply (H1 1 [2] [3] 4); [vm_compute; reflexivity|exact ex_fresh|vm_compute; eauto].
  - apply (H2 1 [2; 3] 2); [vm_compute; reflexivity|set_solver].
Defined.

End RtList.
