(* ===== verification/RingBuffer.v ===== *)
(** * The ring buffer of the drivers (src/components/drivers/src/ringbuffer.c)

    The two indexes carry a mirror bit, so that a full buffer and an empty one are told
    apart without losing a byte.  The buffer is modelled as the list of its bytes; a
    copy outside of it, or outside of the data given by the caller, is [None], as is a
    failed assertion. *)
From S2P Require Import Prelude.

(** [struct rt_ringbuffer] of rtdevice.h: the mirrors are 1 bit wide and the indexes
    15, the size is a signed 16-bit number. *)
Record rt_ringbuffer := RingBuffer {
  buffer_ptr : list Z;
  read_mirror : bool;
  read_index : Z;
  write_mirror : bool;
  write_index : Z;
  buffer_size : Z
}.

(** [enum rt_ringbuffer_state]. *)
Inductive rt_ringbuffer_state := RT_RINGBUFFER_EMPTY | RT_RINGBUFFER_FULL | RT_RINGBUFFER_HALFFULL.
#[export] Instance rt_ringbuffer_state_eq_dec : EqDecision rt_ringbuffer_state.
Proof. solve_decision. Defined.

(** A value stored into a 15-bit field. *)
Definition u15 (x : Z) : Z := x mod 32768.

Definition rt_ringbuffer_get_size (rb : rt_ringbuffer) : Z := u16 (buffer_size rb).

Definition rt_ringbuffer_status (rb : rt_ringbuffer) : rt_ringbuffer_state :=
  if read_index rb =? write_index rb then
    if Bool.eqb (read_mirror rb) (write_mirror rb) then RT_RINGBUFFER_EMPTY else RT_RINGBUFFER_FULL
  else RT_RINGBUFFER_HALFFULL.

Definition rt_ringbuffer_data_len (rb : rt_ringbuffer) : Z :=
  match rt_ringbuffer_status rb with
  | RT_RINGBUFFER_EMPTY => 0
  | RT_RINGBUFFER_FULL => u16 (buffer_size rb)
  | RT_RINGBUFFER_HALFFULL =>
      if read_index rb <? write_index rb then u16 (write_index rb - read_index rb)
      else u16 (buffer_size rb - (read_index rb - write_index rb))
  end.

(** The macro [rt_ringbuffer_space_len], an [int]. *)
Definition rt_ringbuffer_space_len (rb : rt_ringbuffer) : Z :=
  buffer_size rb - rt_ringbuffer_data_len rb.

(** [memcpy] of [n] bytes of [src] into a buffer at [off], and out of it. *)
Definition copy_in (off n : Z) (src buf : list Z) : option (list Z) :=
  if (0 <=? off) && (0 <=? n) && (off + n <=? Z.of_nat (length buf)) && (n <=? Z.of_nat (length src))
  then Some (take (Z.to_nat off) buf ++ take (Z.to_nat n) src ++ drop (Z.to_nat (off + n)) buf)
  else None.
Definition copy_out (off n : Z) (buf : list Z) : option (list Z) :=
  if (0 <=? off) && (0 <=? n) && (off + n <=? Z.of_nat (length buf))
  then Some (take (Z.to_nat n) (drop (Z.to_nat off) buf)) else None.

Definition rt_ringbuffer_init (pool : list Z) (size : Z) : option rt_ringbuffer :=
  if 0 <? size then Some (RingBuffer pool false 0 false 0 (i16 (RT_ALIGN_DOWN size 4))) else None.

(** Both halves of a write that may wrap: the buffer, whether the mirror flips, and the
    new index. *)
Definition ring_write (rb : rt_ringbuffer) (ptr : list Z) (length : Z) : option (list Z * bool * Z) :=
  let w := write_index rb in
  let room := buffer_size rb - w in
  if length <? room then
    buf ← copy_in w length ptr (buffer_ptr rb);
    Some (buf, false, u15 (w + length))
  else
    buf ← copy_in w room ptr (buffer_ptr rb);
    buf ← copy_in 0 (length - room) (drop (Z.to_nat room) ptr) buf;
    Some (buf, true, u15 (length - room)).

Definition rt_ringbuffer_put (rb : rt_ringbuffer) (ptr : list Z) (length : Z)
    : option (Z * rt_ringbuffer) :=
  let size := u16 (rt_ringbuffer_space_len rb) in
  if size =? 0 then Some (0, rb)
  else
    let length := if size <? length then size else length in
    w ← ring_write rb ptr length;
    let '(buf, flip, index) := w in
    Some (length, RingBuffer buf (read_mirror rb) (read_index rb)
                    (xorb flip (write_mirror rb)) index (buffer_size rb)).

Definition rt_ringbuffer_put_force (rb : rt_ringbuffer) (ptr : list Z) (length : Z)
    : option (Z * rt_ringbuffer) :=
  let old_state := rt_ringbuffer_status rb in
  let length := if buffer_size rb <? length then buffer_size rb else length in
  w ← ring_write rb ptr length;
  let '(buf, flip, index) := w in
  let full := bool_decide (old_state = RT_RINGBUFFER_FULL) in
  Some (length, RingBuffer buf (xorb (full && flip) (read_mirror rb))
                  (if full then index else read_index rb)
                  (xorb flip (write_mirror rb)) index (buffer_size rb)).

(** The second result is what is stored through [ptr]. *)
Definition rt_ringbuffer_get (rb : rt_ringbuffer) (length : Z) : option (Z * list Z * rt_ringbuffer) :=
  let size := rt_ringbuffer_data_len rb in
  if size =? 0 then Some (0, [], rb)
  else
    let length := if size <? length then u16 size else length in
    let r := read_index rb in
    let room := buffer_size rb - r in
    if length <? room then
      out ← copy_out r length (buffer_ptr rb);
      Some (length, out, RingBuffer (buffer_ptr rb) (read_mirror rb) (u15 (r + length))
                           (write_mirror rb) (write_index rb) (buffer_size rb))
    else
      out1 ← copy_out r room (buffer_ptr rb);
      out2 ← copy_out 0 (length - room) (buffer_ptr rb);
      Some (length, out1 ++ out2,
            RingBuffer (buffer_ptr rb) (negb (read_mirror rb)) (u15 (length - room))
              (write_mirror rb) (write_index rb) (buffer_size rb)).

(** The step of an index by one: whether the mirror flips, and the new index. *)
Definition index_step (index size : Z) : bool * Z :=
  if index =? size - 1 then (true, 0) else (false, u15 (index + 1)).

Definition rt_ringbuffer_putchar (rb : rt_ringbuffer) (ch : Z) : option (Z * rt_ringbuffer) :=
  if rt_ringbuffer_space_len rb =? 0 then Some (0, rb)
  else
    buf ← copy_in (write_index rb) 1 [ch] (buffer_ptr rb);
    let '(flip, index) := index_step (write_index rb) (buffer_size rb) in
    Some (1, RingBuffer buf (read_mirror rb) (read_index rb) (xorb flip (write_mirror rb)) index
               (buffer_size rb)).

Definition rt_ringbuffer_putchar_force (rb : rt_ringbuffer) (ch : Z) : option (Z * rt_ringbuffer) :=
  let full := bool_decide (rt_ringbuffer_status rb = RT_RINGBUFFER_FULL) in
  buf ← copy_in (write_index rb) 1 [ch] (buffer_ptr rb);
  let '(flip, index) := index_step (write_index rb) (buffer_size rb) in
  Some (1, RingBuffer buf (xorb (full && flip) (read_mirror rb)) (if full then index else read_index rb)
             (xorb flip (write_mirror rb)) index (buffer_size rb)).

Definition rt_ringbuffer_getchar (rb : rt_ringbuffer) : option (Z * option Z * rt_ringbuffer) :=
  if rt_ringbuffer_data_len rb =? 0 then Some (0, None, rb)
  else
    out ← copy_out (read_index rb) 1 (buffer_ptr rb);
    let '(flip, index) := index_step (read_index rb) (buffer_size rb) in
    Some (1, head out, RingBuffer (buffer_ptr rb) (xorb flip (read_mirror rb)) index (write_mirror rb)
                         (write_index rb) (buffer_size rb)).

(** ** The queue a ring buffer holds

    In the same mirror the bytes lie between the read and the write index; in different
    mirrors they go on from the read index over the end of the buffer. *)
Inductive holds (rb : rt_ringbuffer) : list Z -> Prop :=
  | holds_flat a c b :
      read_mirror rb = write_mirror rb -> buffer_ptr rb = a ++ c ++ b -> b <> [] ->
      read_index rb = Z.of_nat (length a) -> write_index rb = Z.of_nat (length a + length c) -> holds rb c
  | holds_wrap c1 c2 f :
      read_mirror rb = negb (write_mirror rb) -> buffer_ptr rb = c2 ++ f ++ c1 -> c1 <> [] ->
      write_index rb = Z.of_nat (length c2) -> read_index rb = Z.of_nat (length c2 + length f) ->
      holds rb (c1 ++ c2).

(** A ring buffer of a size an index can address, with its contents. *)
Definition rb_ok (rb : rt_ringbuffer) (c : list Z) : Prop :=
  0 < buffer_size rb < 32768 /\ Z.of_nat (length (buffer_ptr rb)) = buffer_size rb /\ holds rb c.

(** ** Lemmas *)

Lemma not_nil_length {A} (l : list A) : l <> [] -> (0 < length l)%nat.
Proof. destruct l; [done|]. simpl. lia. Qed.

(** The length and the state read off the indexes. *)
Lemma data_len_spec rb c : rb_ok rb c ->
  rt_ringbuffer_data_len rb = Z.of_nat (length c) /\ Z.of_nat (length c) <= buffer_size rb /\
  (rt_ringbuffer_status rb = RT_RINGBUFFER_FULL <-> Z.of_nat (length c) = buffer_size rb).
Proof.
  intros (Hs & Hl & H). unfold rt_ringbuffer_data_len, rt_ringbuffer_status.
  destruct H as [a c b Hm Hb Hn Hr Hw|c1 c2 f Hm Hb Hn Hw Hr]; apply not_nil_length in Hn;
    rewrite Hb in Hl; len; rewrite Hm, Hr, Hw.
  - rewrite Bool.eqb_reflx. zcases; rewrite ?u16_id by lia; (split; [lia|]); (split; [lia|]); split; (done || lia).
  - rewrite (proj2 (Bool.eqb_false_iff _ _)) by by destruct (write_mirror rb).
    zcases; try lia; rewrite ?u16_id by lia; (split; [lia|]); (split; [lia|]); split; (done || lia).
Qed.

Lemma copy_in_run x y n src : (n <= length y)%nat -> (n <= length src)%nat ->
  copy_in (Z.of_nat (length x)) (Z.of_nat n) src (x ++ y) = Some (x ++ take n src ++ drop n y).
Proof.
  intros Hy Hs. unfold copy_in. rewrite length_app.
  destruct (Z.leb_spec 0 (Z.of_nat (length x))); [|lia]. destruct (Z.leb_spec 0 (Z.of_nat n)); [|lia].
  destruct (Z.leb_spec (Z.of_nat (length x) + Z.of_nat n) (Z.of_nat (length x + length y))); [|lia].
  destruct (Z.leb_spec (Z.of_nat n) (Z.of_nat (length src))); [|lia]. simpl.
  rewrite <- Nat2Z.inj_add, !Nat2Z.id, take_app_length, drop_app_ge by lia.
  do 3 f_equal. f_equal. lia.
Qed.

Lemma copy_out_run x y n : (n <= length y)%nat ->
  copy_out (Z.of_nat (length x)) (Z.of_nat n) (x ++ y) = Some (take n y).
Proof.
  intros Hy. unfold copy_out. rewrite length_app.
  destruct (Z.leb_spec 0 (Z.of_nat (length x))); [|lia]. destruct (Z.leb_spec 0 (Z.of_nat n)); [|lia].
  destruct (Z.leb_spec (Z.of_nat (length x) + Z.of_nat n) (Z.of_nat (length x + length y))); [|lia]. simpl.
  by rewrite !Nat2Z.id, drop_app_length.
Qed.

Lemma u15_id x : 0 <= x < 32768 -> u15 x = x.
Proof. intros. unfold u15. by rewrite Z.mod_small. Qed.

(** A write at the index that splits the buffer into [x] and [y]: it stays inside [y], or
    fills [y] and goes on at the start. *)
Lemma ring_write_run rb x y ptr n :
  buffer_ptr rb = x ++ y -> write_index rb = Z.of_nat (length x) -> buffer_size rb < 32768 ->
  Z.of_nat (length x + length y) = buffer_size rb -> (n <= length ptr)%nat -> (n <= length x + length y)%nat ->
  ring_write rb ptr (Z.of_nat n) =
    Some (if (n <? length y)%nat then (x ++ take n ptr ++ drop n y, false, Z.of_nat (length x + n))
          else (take (n - length y) (drop (length y) ptr) ++ drop (n - length y) x ++ take (length y) ptr,
                true, Z.of_nat (n - length y))).
Proof.
  intros Hb Hw Hs Hl Hp Hn. unfold ring_write. rewrite Hb, Hw.
  replace (buffer_size rb - Z.of_nat (length x)) with (Z.of_nat (length y)) by lia.
  destruct (Nat.ltb_spec n (length y)) as [Hlt|Hge].
  - destruct (Z.ltb_spec (Z.of_nat n) (Z.of_nat (length y))); [|lia].
    rewrite copy_in_run by lia. simpl. rewrite u15_id by lia. do 2 f_equal. lia.
  - destruct (Z.ltb_spec (Z.of_nat n) (Z.of_nat (length y))); [lia|].
    rewrite copy_in_run by lia. simpl. rewrite drop_all, app_nil_r.
    replace (Z.of_nat n - Z.of_nat (length y)) with (Z.of_nat (n - length y)) by lia.
    rewrite Nat2Z.id. pose proof (copy_in_run [] (x ++ take (length y) ptr) (n - length y) (drop (length y) ptr)) as Hc.
    simpl in Hc. change (Z.of_nat 0) with 0 in Hc. rewrite Hc by len. simpl. rewrite u15_id by lia.
    rewrite drop_app_le by lia. done.
Qed.

(** A write with enough room appends to the contents. *)
Lemma ring_write_append rb c ptr n :
  rb_ok rb c -> (n <= length ptr)%nat -> Z.of_nat (length c + n) <= buffer_size rb ->
  exists buf flip index, ring_write rb ptr (Z.of_nat n) = Some (buf, flip, index) /\
    rb_ok (RingBuffer buf (read_mirror rb) (read_index rb) (xorb flip (write_mirror rb)) index (buffer_size rb))
      (c ++ take n ptr).
Proof.
  intros (Hs & Hl & H) Hp Hn.
  destruct H as [a c b Hm Hb Hne Hr Hw|c1 c2 f Hm Hb Hne Hw Hr]; apply not_nil_length in Hne;
    rewrite Hb in Hl; len.
  - rewrite (ring_write_run rb (a ++ c) b ptr n); [|by rewrite Hb, (assoc (++))|len..].
    destruct (Nat.ltb_spec n (length b)) as [Hlt|Hge]; eexists _, _, _; (split; [done|]);
      split; [done| |done|]; simpl.
    + split; [len|]. apply (holds_flat _ a (c ++ take n ptr) (drop n b)); simpl; try len; try done.
      * by rewrite <- !(assoc (++)).
      * intros E. apply (f_equal length) in E. len.
    + split; [len|]. set (d2 := take (n - length b) (drop (length b) ptr)).
      replace (c ++ take n ptr) with ((c ++ take (length b) ptr) ++ d2).
      2:{ rewrite <- (assoc (++)). f_equal. unfold d2. rewrite take_drop_commute.
          replace (length b + (n - length b))%nat with n by lia.
          rewrite <- (take_drop (length b) (take n ptr)) at 2. by rewrite take_take, Nat.min_l by lia. }
      apply (holds_wrap _ (c ++ take (length b) ptr) d2 (drop (n - length b) a)); simpl.
      * rewrite Hm. by destruct (write_mirror rb).
      * f_equal. rewrite drop_app_le by lia. by rewrite <- (assoc (++)).
      * intros E. apply (f_equal length) in E. len.
      * unfold d2. len.
      * unfold d2. len.
  - rewrite (ring_write_run rb c2 (f ++ c1) ptr n); [|done|len..].
    destruct (Nat.ltb_spec n (length (f ++ c1))) as [Hlt|Hge]; [|len]. eexists _, _, _. split; [done|].
    split; [done|]. simpl. split; [len|]. rewrite <- (assoc (++)).
    apply (holds_wrap _ c1 (c2 ++ take n ptr) (drop n f)); simpl; try len; try done.
    + rewrite drop_app_le by lia. by rewrite <- !(assoc (++)).
    + intros ->. simpl in Hne. lia.
Qed.

(** [rt_ringbuffer_put] appends as many of the bytes as fit, in order, and returns
    their number. *)
Lemma rt_ringbuffer_put_refines rb c ptr len :
  rb_ok rb c -> 0 <= len < 65536 -> len <= Z.of_nat (length ptr) ->
  exists rb', let n := Z.min len (buffer_size rb - Z.of_nat (length c)) in
    rt_ringbuffer_put rb ptr len = Some (n, rb') /\
    rb_ok rb' (c ++ take (Z.to_nat n) ptr) /\ buffer_size rb' = buffer_size rb.
Proof.
  intros H Hlen Hp. destruct (data_len_spec rb c H) as (Hd & Hle & _). pose proof H as (Hs & _).
  unfold rt_ringbuffer_put, rt_ringbuffer_space_len. rewrite Hd, u16_id by lia.
  destruct (Z.eqb_spec (buffer_size rb - Z.of_nat (length c)) 0) as [E|E].
  - exists rb. rewrite E, Z.min_r by lia. simpl. by rewrite app_nil_r.
  - set (n := Z.min len (buffer_size rb - Z.of_nat (length c))).
    replace (if _ <? len then _ else len) with (Z.of_nat (Z.to_nat n)) by (unfold n; zcases; lia).
    destruct (ring_write_append rb c ptr (Z.to_nat n) H) as (buf & flip & index & -> & Hok); [lia|lia|].
    simpl. eexists. split; [repeat f_equal; lia|]. split; [exact Hok|done].
Qed.

(** [rt_ringbuffer_get] removes as many of the oldest bytes as asked for and there are,
    and gives them out in order. *)
Lemma rt_ringbuffer_get_refines rb c len :
  rb_ok rb c -> 0 <= len < 65536 ->
  exists rb', let n := Z.min len (Z.of_nat (length c)) in
    rt_ringbuffer_get rb len = Some (n, take (Z.to_nat n) c, rb') /\
    rb_ok rb' (drop (Z.to_nat n) c) /\ buffer_size rb' = buffer_size rb.
Proof.
  intros H Hlen. destruct (data_len_spec rb c H) as (Hd & Hle & _). destruct H as (Hs & Hl & H).
  unfold rt_ringbuffer_get. rewrite Hd.
  destruct (Z.eqb_spec (Z.of_nat (length c)) 0) as [E|E].
  { exists rb. rewrite E, Z.min_r by lia. destruct c; [|done]. simpl. split; [done|]. split; [|done]. exact (conj Hs (conj Hl H)). }
  remember (Z.min len (Z.of_nat (length c))) as n eqn:En.
  replace (if _ <? len then _ else len) with n by (subst n; rewrite u16_id by lia; zcases; lia).
  assert (Hnm : exists m, n = Z.of_nat m /\ (m <= length c)%nat) by (exists (Z.to_nat n); lia).
  destruct Hnm as (m & -> & Hn). rewrite !Nat2Z.id.
  destruct H as [a c b Hm Hb Hne Hr Hw|c1 c2 f Hm Hb Hne Hw Hr]; apply not_nil_length in Hne;
    rewrite Hb in Hl; rewrite Hb, Hr; len.
  - destruct (Z.ltb_spec (Z.of_nat m) (buffer_size rb - Z.of_nat (length a))); [|lia].
    rewrite copy_out_run by len. simpl. rewrite take_app_le by lia. eexists. split; [done|].
    split; [|done]. split; [done|]. simpl. split; [len|]. rewrite u15_id by lia.
    apply (holds_flat _ (a ++ take m c) (drop m c) b); simpl; try len; try done.
    + rewrite <- (assoc (++)), (assoc (++) (take m c)), take_drop. done.
    + intros ->. simpl in Hne. lia.
  - replace (buffer_size rb - _) with (Z.of_nat (length c1)) by lia.
    replace (c2 ++ f ++ c1) with ((c2 ++ f) ++ c1) by by rewrite (assoc (++)).
    replace (Z.of_nat (length c2) + Z.of_nat (length f)) with (Z.of_nat (length (c2 ++ f))) by len.
    destruct (Z.ltb_spec (Z.of_nat m) (Z.of_nat (length c1))).
    + rewrite copy_out_run by len. simpl. rewrite take_app_le, drop_app_le by lia. eexists. split; [done|].
      split; [|done]. split; [done|]. simpl. split; [len|].
      apply (holds_wrap _ (drop m c1) c2 (f ++ take m c1)); simpl; try done.
      * rewrite <- !(assoc (++)), take_drop. done.
      * intros E'. apply (f_equal length) in E'. len.
      * rewrite u15_id; len.
    + rewrite copy_out_run by lia. simpl.
      replace (Z.of_nat m - Z.of_nat (length c1)) with (Z.of_nat (m - length c1)) by lia.
      pose proof (copy_out_run [] ((c2 ++ f) ++ c1) (m - length c1)) as Hc. simpl in Hc.
      change (Z.of_nat 0) with 0 in Hc. rewrite Hc by len. simpl. clear Hc.
      rewrite (drop_app_ge c1), (take_app_ge c1) by lia. eexists. split.
      { rewrite firstn_all, <- (assoc (++)), take_app_le by lia. done. }
      split; [|done]. split; [done|]. simpl. split; [len|].
      apply (holds_flat _ (take (m - length c1) c2) (drop (m - length c1) c2) (f ++ c1)); simpl.
      * rewrite Hm. apply negb_involutive.
      * rewrite (assoc (++) (take _ _)), take_drop. by rewrite (assoc (++)).
      * intros E'. apply (f_equal length) in E'. len.
      * rewrite u15_id; len.
      * len.
Qed.

(** ** A stream of bytes through the buffer *)

(** Calls by which a producer and a consumer use a buffer. *)
Inductive rb_call := RbPut (ptr : list Z) | RbGet (len : Z).

(** The bytes that calls let in and the bytes that they give out, in order. *)
Fixpoint rb_calls (rb : rt_ringbuffer) (cs : list rb_call) : option (list Z * list Z * rt_ringbuffer) :=
  match cs with
  | [] => Some ([], [], rb)
  | RbPut ptr :: cs' =>
      p ← rt_ringbuffer_put rb ptr (Z.of_nat (length ptr));
      q ← rb_calls p.2 cs';
      Some (take (Z.to_nat p.1) ptr ++ q.1.1, q.1.2, q.2)
  | RbGet len :: cs' =>
      p ← rt_ringbuffer_get rb len;
      q ← rb_calls p.2 cs';
      Some (q.1.1, p.1.2 ++ q.1.2, q.2)
  end.
Definition rb_call_ok (c : rb_call) : Prop :=
  match c with RbPut ptr => Z.of_nat (length ptr) < 65536 | RbGet len => 0 <= len < 65536 end.

(** C25. The ring buffer is a stream: after any sequence of [rt_ringbuffer_put] and
    [rt_ringbuffer_get] the bytes it held and let in, in order, are the bytes it gave out
    followed by the bytes it holds; a put is cut to the room and a get to the contents, and
    no call fails. *)
Theorem rt_ringbuffer_stream cs : forall rb c,
  rb_ok rb c -> Forall rb_call_ok cs ->
  exists inp out rb' c', rb_calls rb cs = Some (inp, out, rb') /\ rb_ok rb' c' /\ c ++ inp = out ++ c'.
Proof.
  induction cs as [|[ptr|len] cs IH]; intros rb c Hok Hcs; cbn [rb_calls].
  - exists [], [], rb, c. split; [done|]. split; [done|]. by rewrite app_nil_r.
  - apply list.Forall_cons in Hcs as [Hp Hcs]. cbn in Hp.
    destruct (rt_ringbuffer_put_refines rb c ptr (Z.of_nat (length ptr)) Hok) as (rb1 & -> & Hok1 & _); [lia|lia|].
    cbn [mbind option_bind fst snd]. destruct (IH rb1 _ Hok1 Hcs) as (inp & out & rb' & c' & -> & Hok' & Heq).
    eexists _, _, rb', c'. split; [done|]. split; [done|]. cbn. by rewrite <-Heq, (assoc (++)).
  - apply list.Forall_cons in Hcs as [Hp Hcs]. cbn in Hp.
    destruct (rt_ringbuffer_get_refines rb c len Hok Hp) as (rb1 & -> & Hok1 & _).
    cbn [mbind option_bind fst snd]. destruct (IH rb1 _ Hok1 Hcs) as (inp & out & rb' & c' & -> & Hok' & Heq).
    eexists _, _, rb', c'. split; [done|]. split; [done|]. cbn. by rewrite <-(assoc (++)), <-Heq, (assoc (++)), take_drop.
Qed.

(** A forced write into a full buffer drops as many of the oldest bytes as it writes. *)
Lemma ring_write_full rb c ptr n :
  rb_ok rb c -> Z.of_nat (length c) = buffer_size rb -> (n <= length ptr)%nat -> (n <= length c)%nat ->
  exists buf flip index, ring_write rb ptr (Z.of_nat n) = Some (buf, flip, index) /\
    rb_ok (RingBuffer buf (xorb flip (read_mirror rb)) index (xorb flip (write_mirror rb)) index (buffer_size rb))
      (drop n c ++ take n ptr).
Proof.
  intros (Hs & Hl & H) Hc Hp Hn.
  destruct H as [a c b Hm Hb Hne Hr Hw|c1 c2 f Hm Hb Hne Hw Hr]; apply not_nil_length in Hne;
    rewrite Hb in Hl; len.
  assert (f = []) as -> by (destruct f; [done|simpl in *; lia]). simpl in *.
  rewrite (ring_write_run rb c2 c1 ptr n); [|done|len..].
  destruct (Nat.ltb_spec n (length c1)) as [Hlt|Hge]; eexists _, _, _; (split; [done|]);
    split; [done| |done|]; simpl; (split; [len|]).
  - rewrite drop_app_le, <- (assoc (++)) by lia.
    apply (holds_wrap _ (drop n c1) (c2 ++ take n ptr) []); simpl; try len; try done.
    + by rewrite <- (assoc (++)).
    + intros E. apply (f_equal length) in E. len.
  - set (d2 := take (n - length c1) (drop (length c1) ptr)).
    replace (take n ptr) with (take (length c1) ptr ++ d2).
    2:{ unfold d2. rewrite take_drop_commute. replace (length c1 + (n - length c1))%nat with n by lia.
        rewrite <- (take_drop (length c1) (take n ptr)) at 2. by rewrite take_take, Nat.min_l by lia. }
    rewrite drop_app_ge, (assoc (++) (drop (n - length c1) c2)) by lia.
    apply (holds_wrap _ (drop (n - length c1) c2 ++ take (length c1) ptr) d2 []); simpl.
    + rewrite Hm. by destruct (write_mirror rb).
    + done.
    + intros E. apply (f_equal length) in E. len.
    + unfold d2. len.
    + unfold d2. len.
Qed.

(** [rt_ringbuffer_put_force] on a full buffer overwrites the oldest bytes, and with
    enough room appends. *)
Theorem rt_ringbuffer_put_force_refines rb c ptr len :
  rb_ok rb c -> 0 <= len < 65536 -> len <= Z.of_nat (length ptr) ->
  Z.of_nat (length c) = buffer_size rb \/ Z.of_nat (length c) + len <= buffer_size rb ->
  exists rb', let n := Z.min len (buffer_size rb) in
    rt_ringbuffer_put_force rb ptr len = Some (n, rb') /\ buffer_size rb' = buffer_size rb /\
    rb_ok rb' (drop (Z.to_nat (Z.of_nat (length c) + n - buffer_size rb)) c ++ take (Z.to_nat n) ptr).
Proof.
  intros H Hlen Hp Hcase. destruct (data_len_spec rb c H) as (_ & Hle & Hfull). pose proof H as (Hs & _).
  unfold rt_ringbuffer_put_force.
  remember (Z.min len (buffer_size rb)) as n eqn:En.
  replace (if _ <? len then _ else len) with n by (subst n; zcases; lia).
  assert (Hnm : exists m, n = Z.of_nat m) by (exists (Z.to_nat n); lia). destruct Hnm as (m & ->).
  rewrite Nat2Z.id. destruct (decide (Z.of_nat (length c) = buffer_size rb)) as [Hf|Hf].
  - rewrite bool_decide_eq_true_2 by by apply Hfull.
    destruct (ring_write_full rb c ptr m H Hf) as (buf & flip & index & -> & Hok); [lia|lia|].
    simpl. eexists. split; [done|]. split; [done|].
    replace (Z.to_nat (Z.of_nat (length c) + Z.of_nat m - buffer_size rb)) with m by lia. exact Hok.
  - rewrite bool_decide_eq_false_2 by by rewrite Hfull. simpl.
    destruct (ring_write_append rb c ptr m H) as (buf & flip & index & -> & Hok); [lia|lia|].
    simpl. eexists. split; [done|]. split; [done|].
    replace (Z.to_nat (Z.of_nat (length c) + Z.of_nat m - buffer_size rb)) with 0%nat by lia. exact Hok.
Qed.

(** The one-byte step of an index is a write of one byte. *)
Lemma ring_write_one rb c ch : rb_ok rb c ->
  ring_write rb [ch] 1 =
    (buf ← copy_in (write_index rb) 1 [ch] (buffer_ptr rb);
     Some (buf, (index_step (write_index rb) (buffer_size rb)).1, (index_step (write_index rb) (buffer_size rb)).2)).
Proof.
  intros (Hs & Hl & H). assert (Hw : 0 <= write_index rb < buffer_size rb).
  { destruct H as [a c b Hm Hb Hne Hr Hw|c1 c2 f Hm Hb Hne Hw Hr]; apply not_nil_length in Hne;
      rewrite Hb in Hl; len. }
  unfold ring_write, index_step.
  destruct (Z.eqb_spec (write_index rb) (buffer_size rb - 1)) as [E|E];
    destruct (Z.ltb_spec 1 (buffer_size rb - write_index rb)); try lia; simpl; [|done].
  replace (buffer_size rb - write_index rb) with 1 by lia.
  destruct (copy_in (write_index rb) 1 [ch] (buffer_ptr rb)) as [buf|]; simpl; [|done].
  change (1 - 1) with 0. unfold copy_in. rewrite Z.add_0_l. simpl.
  destruct (Z.leb_spec 0 (Z.of_nat (length buf))); [|lia]. done.
Qed.

(** The one-byte operations agree with the block operations on a block of one byte. *)
Theorem rt_ringbuffer_char_ops rb c ch :
  rb_ok rb c ->
  rt_ringbuffer_putchar rb ch = rt_ringbuffer_put rb [ch] 1 /\
  rt_ringbuffer_putchar_force rb ch = rt_ringbuffer_put_force rb [ch] 1 /\
  rt_ringbuffer_getchar rb =
    (r ← rt_ringbuffer_get rb 1; let '(n, out, rb') := r in Some (n, head out, rb')).
Proof.
  intros H. destruct (data_len_spec rb c H) as (Hd & Hle & _). pose proof (ring_write_one rb c ch H) as Hw1.
  pose proof H as (Hs & Hl & Hh). split_and!.
  - unfold rt_ringbuffer_putchar, rt_ringbuffer_put, rt_ringbuffer_space_len. rewrite Hd, u16_id by lia.
    destruct (Z.eqb_spec (buffer_size rb - Z.of_nat (length c)) 0); [done|].
    replace (if _ <? 1 then _ else 1) with 1 by (zcases; lia). rewrite Hw1.
    destruct (copy_in _ _ _ _); [|done]. simpl. by destruct (index_step _ _).
  - unfold rt_ringbuffer_putchar_force, rt_ringbuffer_put_force.
    replace (if buffer_size rb <? 1 then _ else 1) with 1 by (zcases; lia). rewrite Hw1.
    destruct (copy_in _ _ _ _); [|done]. simpl. by destruct (index_step _ _).
  - unfold rt_ringbuffer_getchar, rt_ringbuffer_get. rewrite Hd.
    destruct (Z.eqb_spec (Z.of_nat (length c)) 0); [done|].
    replace (if _ <? 1 then _ else 1) with 1 by (zcases; lia).
    assert (Hr : 0 <= read_index rb < buffer_size rb).
    { destruct Hh as [a c b Hm Hb Hne Hr Hw|c1 c2 f Hm Hb Hne Hw Hr]; apply not_nil_length in Hne;
        rewrite Hb in Hl; len. }
    unfold index_step. destruct (Z.eqb_spec (read_index rb) (buffer_size rb - 1)) as [E|E];
      destruct (Z.ltb_spec 1 (buffer_size rb - read_index rb)); try lia; simpl.
    + replace (buffer_size rb - read_index rb) with 1 by lia.
      destruct (copy_out (read_index rb) 1 (buffer_ptr rb)) as [out|]; [|done]. simpl.
      change (1 - 1) with 0. unfold copy_out. rewrite Z.add_0_l. simpl.
      destruct (Z.leb_spec 0 (Z.of_nat (length (buffer_ptr rb)))); [|lia].
      simpl. by rewrite app_nil_r.
    + destruct (copy_out (read_index rb) 1 (buffer_ptr rb)) as [out|]; [|done]. simpl.
      by destruct (read_mirror rb).
Qed.

(** A ring buffer is set up empty, with the largest multiple of 4 bytes that its size
    allows. *)
Theorem rt_ringbuffer_init_empty pool size rb :
  4 <= size < 32768 -> Z.of_nat (length pool) = size - size mod 4 ->
  rt_ringbuffer_init pool size = Some rb -> rb_ok rb [] /\ buffer_size rb = size - size mod 4.
Proof.
  intros Hs Hp. unfold rt_ringbuffer_init. destruct (Z.ltb_spec 0 size); [|lia]. intros [= <-].
  rewrite RT_ALIGN_DOWN_4 by lia. simpl.
  assert (Hi : i16 (size - size mod 4) = size - size mod 4)
    by (unfold i16; rewrite Z.mod_small; Z.div_mod_to_equations; lia).
  unfold rb_ok. simpl. rewrite Hi. split; [|done]. split; [Z.div_mod_to_equations; lia|]. split; [lia|].
  apply (holds_flat _ [] [] pool); simpl; try done.
  intros ->. simpl in Hp. Z.div_mod_to_equations; lia.
Qed.

(** ** A buffer of 8 bytes *)

Definition rb6 : rt_ringbuffer := RingBuffer [1; 2; 3; 4; 5; 6; 0; 0] false 0 false 6 8.
Definition rb8 : rt_ringbuffer := RingBuffer [7; 8; 3; 4; 5; 6; 1; 2] false 2 true 2 8.

Lemma rb6_ok : rb_ok rb6 [1; 2; 3; 4; 5; 6].
Proof. split; [simpl; lia|]. split; [done|]. by apply (holds_flat _ [] [1; 2; 3; 4; 5; 6] [0; 0]). Qed.
Lemma rb8_ok : rb_ok rb8 [3; 4; 5; 6; 1; 2; 7; 8].
Proof. split; [simpl; lia|]. split; [done|]. by apply (holds_wrap _ [3; 4; 5; 6; 1; 2] [7; 8] []). Qed.

(** A forced write of 4 bytes to a buffer with room for 2 does not move the read index:
    the buffer is left with 2 bytes instead of the 8 most recent ones. *)
Example put_force_loses_data : exists rb',
  rt_ringbuffer_put_force rb6 [7; 8; 9; 10] 4 = Some (4, rb') /\ rt_ringbuffer_data_len rb' = 2.
Proof. by eexists. Qed.

Lemma rt_ringbuffer_stream_witness :
  exists inp out rb' c', rb_calls rb6 [RbPut [7; 8; 9]; RbGet 7; RbPut [10]] = Some (inp, out, rb') /\
    rb_ok rb' c' /\ [1; 2; 3; 4; 5; 6] ++ inp = out ++ c'.
Proof.
  apply (rt_ringbuffer_stream [RbPut [7; 8; 9]; RbGet 7; RbPut [10]] rb6 _ rb6_ok).
  repeat constructor; cbn; lia.
Defined.

Lemma rt_ringbuffer_put_force_refines_witness :
  exists rb', rt_ringbuffer_put_force rb8 [9; 10] 2 = Some (2, rb') /\ rb_ok rb' [5; 6; 1; 2; 7; 8; 9; 10].
Proof.
  destruct (rt_ringbuffer_put_force_refines rb8 _ [9; 10] 2 rb8_ok) as (rb' & H1 & _ & H2);
    [lia|simpl; lia|left; done|].
  exists rb'. exact (conj H1 H2).
Defined.

Lemma rt_ringbuffer_char_ops_witness : rt_ringbuffer_putchar rb6 9 = rt_ringbuffer_put rb6 [9] 1.
Proof. apply (rt_ringbuffer_char_ops rb6 _ 9 rb6_ok). Defined.

Lemma rt_ringbuffer_init_empty_witness : exists rb,
  rt_ringbuffer_init [0; 0; 0; 0] 5 = Some rb /\ rb_ok rb [].
Proof.
  eexists. split; [reflexivity|].
  apply (rt_ringbuffer_init_empty [0; 0; 0; 0] 5); [lia|reflexivity|reflexivity].
Defined.
