(* ===== verification/Kernel.v ===== *)
(** * The kernel state

    One record holds what the kernel keeps in its static variables and in the
    control blocks of its objects (src/include/rtdef.h, src/src/scheduler.c,
    timer.c, clock.c, irq.c, object.c).  The lists threaded through [tlist] are
    finite sequences named by their head; RtList.v shows that the pointer
    operations implement the sequence operations used here.

    An operation is a function of type [M A]: it returns a value and the new
    state, or [None] when the C code would not go on: a failed [RT_ASSERT]
    (which loops forever), an access through a pointer to no object, the first
    element of an empty list taken as an object, or a list operation on a node
    that is linked elsewhere. *)
From S2P Require Import Prelude RingBuffer KService.

(** ** Names of objects and list heads *)

(** A timer is the one embedded in a thread or a stand-alone one. *)
Inductive tmid := TmThread (t : Z) | TmUser (a : Z).

(** The kernel objects, by kind and address. *)
Inductive oid :=
  | OThread (t : Z) | OTimer (t : tmid) | OSem (a : Z) | OMutex (a : Z)
  | OEvent (a : Z) | OMb (a : Z) | OMq (a : Z) | OMp (a : Z) | ODev (a : Z).

(** The heads of the lists a thread can be linked into through [tlist]. *)
Inductive lhead :=
  | LReady (prio : Z)      (**r rt_thread_priority_table[prio] *)
  | LSuspend (o : oid)     (**r suspend_thread of an IPC object or a memory pool *)
  | LSender (o : oid)      (**r suspend_sender_thread of a mailbox *)
  | LWait (a : Z)          (**r the list of threads at [a] inside a completion or a data queue *)
  | LDefunct.              (**r rt_thread_defunct *)

#[export] Instance tmid_eq_dec : EqDecision tmid.
Proof. solve_decision. Defined.
#[export] Instance oid_eq_dec : EqDecision oid.
Proof. solve_decision. Defined.
#[export] Instance lhead_eq_dec : EqDecision lhead.
Proof. solve_decision. Defined.

Definition tmid_enc (t : tmid) : Z * Z :=
  match t with TmThread a => (0, a) | TmUser a => (1, a) end.
Definition tmid_dec (p : Z * Z) : tmid :=
  if p.1 =? 0 then TmThread p.2 else TmUser p.2.
#[export] Program Instance tmid_countable : Countable tmid :=
  inj_countable' tmid_enc tmid_dec _.
Next Obligation. by intros []. Qed.

Definition oid_enc (o : oid) : Z * (tmid * Z) :=
  match o with
  | OThread a => (0, (TmUser 0, a)) | OTimer t => (1, (t, 0)) | OSem a => (2, (TmUser 0, a))
  | OMutex a => (3, (TmUser 0, a)) | OEvent a => (4, (TmUser 0, a)) | OMb a => (5, (TmUser 0, a))
  | OMq a => (6, (TmUser 0, a)) | OMp a => (7, (TmUser 0, a)) | ODev a => (8, (TmUser 0, a))
  end.
Definition oid_dec (p : Z * (tmid * Z)) : oid :=
  let a := p.2.2 in
  if p.1 =? 0 then OThread a else if p.1 =? 1 then OTimer p.2.1
  else if p.1 =? 2 then OSem a else if p.1 =? 3 then OMutex a
  else if p.1 =? 4 then OEvent a else if p.1 =? 5 then OMb a
  else if p.1 =? 6 then OMq a else if p.1 =? 7 then OMp a else ODev a.
#[export] Program Instance oid_countable : Countable oid :=
  inj_countable' oid_enc oid_dec _.
Next Obligation. by intros []. Qed.

Definition lhead_enc (h : lhead) : Z * (Z * oid) :=
  match h with
  | LReady p => (0, (p, OSem 0)) | LSuspend o => (1, (0, o))
  | LSender o => (2, (0, o)) | LDefunct => (3, (0, OSem 0)) | LWait a => (4, (a, OSem 0))
  end.
Definition lhead_dec (p : Z * (Z * oid)) : lhead :=
  if p.1 =? 0 then LReady p.2.1 else if p.1 =? 1 then LSuspend p.2.2
  else if p.1 =? 2 then LSender p.2.2 else if p.1 =? 3 then LDefunct else LWait p.2.1.
#[export] Program Instance lhead_countable : Countable lhead :=
  inj_countable' lhead_enc lhead_dec _.
Next Obligation. by intros []. Qed.

(** ** Control blocks *)

(** [struct rt_thread]; the object header is in [k_objs], the timer in [k_timers]. *)
Record rt_thread := Thread {
  th_stat : Z;  (**r RT_THREAD_INIT, READY, SUSPEND or CLOSE *)
  th_error : Z;  (**r error code of the last wait *)
  th_current_priority : Z;
  th_init_priority : Z;
  th_number_mask : Z;
  th_event_set : Z;
  th_event_info : Z;
  th_init_tick : Z;  (**r time slice *)
  th_remaining_tick : Z;
  th_entry : Z;
  th_parameter : Z;
  th_stack_addr : Z;
  th_stack_size : Z;
  th_cleanup : option Z;  (**r [None] for [RT_NULL] *)
  th_user_data : Z
}.
Definition set_th_stat (v : Z) (r : rt_thread) : rt_thread :=
    Thread v (th_error r) (th_current_priority r) (th_init_priority r) (th_number_mask r)
    (th_event_set r) (th_event_info r) (th_init_tick r) (th_remaining_tick r) (th_entry r)
    (th_parameter r) (th_stack_addr r) (th_stack_size r) (th_cleanup r) (th_user_data r).
Definition set_th_error (v : Z) (r : rt_thread) : rt_thread :=
    Thread (th_stat r) v (th_current_priority r) (th_init_priority r) (th_number_mask r)
    (th_event_set r) (th_event_info r) (th_init_tick r) (th_remaining_tick r) (th_entry r)
    (th_parameter r) (th_stack_addr r) (th_stack_size r) (th_cleanup r) (th_user_data r).
Definition set_th_current_priority (v : Z) (r : rt_thread) : rt_thread :=
    Thread (th_stat r) (th_error r) v (th_init_priority r) (th_number_mask r)
    (th_event_set r) (th_event_info r) (th_init_tick r) (th_remaining_tick r) (th_entry r)
    (th_parameter r) (th_stack_addr r) (th_stack_size r) (th_cleanup r) (th_user_data r).
Definition set_th_init_priority (v : Z) (r : rt_thread) : rt_thread :=
    Thread (th_stat r) (th_error r) (th_current_priority r) v (th_number_mask r)
    (th_event_set r) (th_event_info r) (th_init_tick r) (th_remaining_tick r) (th_entry r)
    (th_parameter r) (th_stack_addr r) (th_stack_size r) (th_cleanup r) (th_user_data r).
Definition set_th_number_mask (v : Z) (r : rt_thread) : rt_thread :=
    Thread (th_stat r) (th_error r) (th_current_priority r) (th_init_priority r) v
    (th_event_set r) (th_event_info r) (th_init_tick r) (th_remaining_tick r) (th_entry r)
    (th_parameter r) (th_stack_addr r) (th_stack_size r) (th_cleanup r) (th_user_data r).
Definition set_th_event_set (v : Z) (r : rt_thread) : rt_thread :=
    Thread (th_stat r) (th_error r) (th_current_priority r) (th_init_priority r)
    (th_number_mask r) v (th_event_info r) (th_init_tick r) (th_remaining_tick r)
    (th_entry r) (th_parameter r) (th_stack_addr r) (th_stack_size r) (th_cleanup r)
    (th_user_data r).
Definition set_th_event_info (v : Z) (r : rt_thread) : rt_thread :=
    Thread (th_stat r) (th_error r) (th_current_priority r) (th_init_priority r)
    (th_number_mask r) (th_event_set r) v (th_init_tick r) (th_remaining_tick r) (th_entry
    r) (th_parameter r) (th_stack_addr r) (th_stack_size r) (th_cleanup r) (th_user_data
    r).
Definition set_th_init_tick (v : Z) (r : rt_thread) : rt_thread :=
    Thread (th_stat r) (th_error r) (th_current_priority r) (th_init_priority r)
    (th_number_mask r) (th_event_set r) (th_event_info r) v (th_remaining_tick r)
    (th_entry r) (th_parameter r) (th_stack_addr r) (th_stack_size r) (th_cleanup r)
    (th_user_data r).
Definition set_th_remaining_tick (v : Z) (r : rt_thread) : rt_thread :=
    Thread (th_stat r) (th_error r) (th_current_priority r) (th_init_priority r)
    (th_number_mask r) (th_event_set r) (th_event_info r) (th_init_tick r) v (th_entry r)
    (th_parameter r) (th_stack_addr r) (th_stack_size r) (th_cleanup r) (th_user_data r).
Definition set_th_entry (v : Z) (r : rt_thread) : rt_thread :=
    Thread (th_stat r) (th_error r) (th_current_priority r) (th_init_priority r)
    (th_number_mask r) (th_event_set r) (th_event_info r) (th_init_tick r)
    (th_remaining_tick r) v (th_parameter r) (th_stack_addr r) (th_stack_size r)
    (th_cleanup r) (th_user_data r).
Definition set_th_parameter (v : Z) (r : rt_thread) : rt_thread :=
    Thread (th_stat r) (th_error r) (th_current_priority r) (th_init_priority r)
    (th_number_mask r) (th_event_set r) (th_event_info r) (th_init_tick r)
    (th_remaining_tick r) (th_entry r) v (th_stack_addr r) (th_stack_size r) (th_cleanup
    r) (th_user_data r).
Definition set_th_stack_addr (v : Z) (r : rt_thread) : rt_thread :=
    Thread (th_stat r) (th_error r) (th_current_priority r) (th_init_priority r)
    (th_number_mask r) (th_event_set r) (th_event_info r) (th_init_tick r)
    (th_remaining_tick r) (th_entry r) (th_parameter r) v (th_stack_size r) (th_cleanup r)
    (th_user_data r).
Definition set_th_stack_size (v : Z) (r : rt_thread) : rt_thread :=
    Thread (th_stat r) (th_error r) (th_current_priority r) (th_init_priority r)
    (th_number_mask r) (th_event_set r) (th_event_info r) (th_init_tick r)
    (th_remaining_tick r) (th_entry r) (th_parameter r) (th_stack_addr r) v (th_cleanup r)
    (th_user_data r).
Definition set_th_cleanup (v : option Z) (r : rt_thread) : rt_thread :=
    Thread (th_stat r) (th_error r) (th_current_priority r) (th_init_priority r)
    (th_number_mask r) (th_event_set r) (th_event_info r) (th_init_tick r)
    (th_remaining_tick r) (th_entry r) (th_parameter r) (th_stack_addr r) (th_stack_size
    r) v (th_user_data r).
Definition set_th_user_data (v : Z) (r : rt_thread) : rt_thread :=
    Thread (th_stat r) (th_error r) (th_current_priority r) (th_init_priority r)
    (th_number_mask r) (th_event_set r) (th_event_info r) (th_init_tick r)
    (th_remaining_tick r) (th_entry r) (th_parameter r) (th_stack_addr r) (th_stack_size
    r) (th_cleanup r) v.

(** What a timer calls when it expires: the timeout of a thread's wait, or a
    function of the application with its parameter. *)
Inductive timeout_fn := rt_thread_timeout_fn (t : Z) | user_timeout_fn (f p : Z).

(** [struct rt_timer] with [RT_TIMER_SKIP_LIST_LEVEL = 1]. *)
Record rt_timer := Timer {
  tm_flag : Z;  (**r parent.flag *)
  tm_func : timeout_fn;  (**r timeout_func with its parameter *)
  tm_init_tick : Z;
  tm_timeout_tick : Z
}.
Definition set_tm_flag (v : Z) (r : rt_timer) : rt_timer :=
    Timer v (tm_func r) (tm_init_tick r) (tm_timeout_tick r).
Definition set_tm_func (v : timeout_fn) (r : rt_timer) : rt_timer :=
    Timer (tm_flag r) v (tm_init_tick r) (tm_timeout_tick r).
Definition set_tm_init_tick (v : Z) (r : rt_timer) : rt_timer :=
    Timer (tm_flag r) (tm_func r) v (tm_timeout_tick r).
Definition set_tm_timeout_tick (v : Z) (r : rt_timer) : rt_timer :=
    Timer (tm_flag r) (tm_func r) (tm_init_tick r) v.

(** [struct rt_semaphore]. *)
Record rt_semaphore := Sem {
  sem_flag : Z;  (**r parent.parent.flag *)
  sem_value : Z  (**r 16 bits *)
}.
Definition set_sem_flag (v : Z) (r : rt_semaphore) : rt_semaphore :=
    Sem v (sem_value r).
Definition set_sem_value (v : Z) (r : rt_semaphore) : rt_semaphore :=
    Sem (sem_flag r) v.

(** [struct rt_mutex]. *)
Record rt_mutex := Mutex {
  mx_flag : Z;
  mx_value : Z;  (**r 16 bits *)
  mx_original_priority : Z;  (**r 8 bits *)
  mx_hold : Z;  (**r 8 bits *)
  mx_owner : option Z  (**r [None] for [RT_NULL] *)
}.
Definition set_mx_flag (v : Z) (r : rt_mutex) : rt_mutex :=
    Mutex v (mx_value r) (mx_original_priority r) (mx_hold r) (mx_owner r).
Definition set_mx_value (v : Z) (r : rt_mutex) : rt_mutex :=
    Mutex (mx_flag r) v (mx_original_priority r) (mx_hold r) (mx_owner r).
Definition set_mx_original_priority (v : Z) (r : rt_mutex) : rt_mutex :=
    Mutex (mx_flag r) (mx_value r) v (mx_hold r) (mx_owner r).
Definition set_mx_hold (v : Z) (r : rt_mutex) : rt_mutex :=
    Mutex (mx_flag r) (mx_value r) (mx_original_priority r) v (mx_owner r).
Definition set_mx_owner (v : option Z) (r : rt_mutex) : rt_mutex :=
    Mutex (mx_flag r) (mx_value r) (mx_original_priority r) (mx_hold r) v.

(** [struct rt_event]. *)
Record rt_event := Event {
  ev_flag : Z;
  ev_set : Z  (**r 32 bits *)
}.
Definition set_ev_flag (v : Z) (r : rt_event) : rt_event :=
    Event v (ev_set r).
Definition set_ev_set (v : Z) (r : rt_event) : rt_event :=
    Event (ev_flag r) v.

(** [struct rt_mailbox]; the waiting senders are the list [LSender]. *)
Record rt_mailbox := Mailbox {
  mb_flag : Z;
  mb_pool_addr : Z;  (**r msg_pool, the address of the buffer *)
  mb_msg_pool : list Z;  (**r the 32-bit mails of the buffer *)
  mb_size : Z;  (**r 16 bits *)
  mb_entry : Z;  (**r 16 bits *)
  mb_in_offset : Z;  (**r 16 bits *)
  mb_out_offset : Z  (**r 16 bits *)
}.
Definition set_mb_flag (v : Z) (r : rt_mailbox) : rt_mailbox :=
    Mailbox v (mb_pool_addr r) (mb_msg_pool r) (mb_size r) (mb_entry r) (mb_in_offset
    r) (mb_out_offset r).
Definition set_mb_pool_addr (v : Z) (r : rt_mailbox) : rt_mailbox :=
    Mailbox (mb_flag r) v (mb_msg_pool r) (mb_size r) (mb_entry r) (mb_in_offset r)
    (mb_out_offset r).
Definition set_mb_msg_pool (v : list Z) (r : rt_mailbox) : rt_mailbox :=
    Mailbox (mb_flag r) (mb_pool_addr r) v (mb_size r) (mb_entry r) (mb_in_offset r)
    (mb_out_offset r).
Definition set_mb_size (v : Z) (r : rt_mailbox) : rt_mailbox :=
    Mailbox (mb_flag r) (mb_pool_addr r) (mb_msg_pool r) v (mb_entry r) (mb_in_offset
    r) (mb_out_offset r).
Definition set_mb_entry (v : Z) (r : rt_mailbox) : rt_mailbox :=
    Mailbox (mb_flag r) (mb_pool_addr r) (mb_msg_pool r) (mb_size r) v (mb_in_offset
    r) (mb_out_offset r).
Definition set_mb_in_offset (v : Z) (r : rt_mailbox) : rt_mailbox :=
    Mailbox (mb_flag r) (mb_pool_addr r) (mb_msg_pool r) (mb_size r) (mb_entry r) v
    (mb_out_offset r).
Definition set_mb_out_offset (v : Z) (r : rt_mailbox) : rt_mailbox :=
    Mailbox (mb_flag r) (mb_pool_addr r) (mb_msg_pool r) (mb_size r) (mb_entry r)
    (mb_in_offset r) v.

(** [struct rt_messagequeue]; the pool is the slots, each a link and a body. *)
Record rt_messagequeue := MsgQueue {
  mq_flag : Z;
  mq_pool_addr : Z;  (**r msg_pool, the address of the slots *)
  mq_msg_size : Z;  (**r 16 bits *)
  mq_max_msgs : Z;  (**r 16 bits *)
  mq_entry : Z;  (**r 16 bits *)
  mq_next : gmap Z (option Z);  (**r the [next] link of each slot of the pool *)
  mq_body : gmap Z (list Z);  (**r the bytes after each link *)
  mq_head : option Z;  (**r msg_queue_head *)
  mq_tail : option Z;  (**r msg_queue_tail *)
  mq_free : option Z  (**r msg_queue_free *)
}.
Definition set_mq_flag (v : Z) (r : rt_messagequeue) : rt_messagequeue :=
    MsgQueue v (mq_pool_addr r) (mq_msg_size r) (mq_max_msgs r) (mq_entry r) (mq_next
    r) (mq_body r) (mq_head r) (mq_tail r) (mq_free r).
Definition set_mq_pool_addr (v : Z) (r : rt_messagequeue) : rt_messagequeue :=
    MsgQueue (mq_flag r) v (mq_msg_size r) (mq_max_msgs r) (mq_entry r) (mq_next r)
    (mq_body r) (mq_head r) (mq_tail r) (mq_free r).
Definition set_mq_msg_size (v : Z) (r : rt_messagequeue) : rt_messagequeue :=
    MsgQueue (mq_flag r) (mq_pool_addr r) v (mq_max_msgs r) (mq_entry r) (mq_next r)
    (mq_body r) (mq_head r) (mq_tail r) (mq_free r).
Definition set_mq_max_msgs (v : Z) (r : rt_messagequeue) : rt_messagequeue :=
    MsgQueue (mq_flag r) (mq_pool_addr r) (mq_msg_size r) v (mq_entry r) (mq_next r)
    (mq_body r) (mq_head r) (mq_tail r) (mq_free r).
Definition set_mq_entry (v : Z) (r : rt_messagequeue) : rt_messagequeue :=
    MsgQueue (mq_flag r) (mq_pool_addr r) (mq_msg_size r) (mq_max_msgs r) v (mq_next
    r) (mq_body r) (mq_head r) (mq_tail r) (mq_free r).
Definition set_mq_next (v : gmap Z (option Z)) (r : rt_messagequeue) : rt_messagequeue :=
    MsgQueue (mq_flag r) (mq_pool_addr r) (mq_msg_size r) (mq_max_msgs r) (mq_entry r)
    v (mq_body r) (mq_head r) (mq_tail r) (mq_free r).
Definition set_mq_body (v : gmap Z (list Z)) (r : rt_messagequeue) : rt_messagequeue :=
    MsgQueue (mq_flag r) (mq_pool_addr r) (mq_msg_size r) (mq_max_msgs r) (mq_entry r)
    (mq_next r) v (mq_head r) (mq_tail r) (mq_free r).
Definition set_mq_head (v : option Z) (r : rt_messagequeue) : rt_messagequeue :=
    MsgQueue (mq_flag r) (mq_pool_addr r) (mq_msg_size r) (mq_max_msgs r) (mq_entry r)
    (mq_next r) (mq_body r) v (mq_tail r) (mq_free r).
Definition set_mq_tail (v : option Z) (r : rt_messagequeue) : rt_messagequeue :=
    MsgQueue (mq_flag r) (mq_pool_addr r) (mq_msg_size r) (mq_max_msgs r) (mq_entry r)
    (mq_next r) (mq_body r) (mq_head r) v (mq_free r).
Definition set_mq_free (v : option Z) (r : rt_messagequeue) : rt_messagequeue :=
    MsgQueue (mq_flag r) (mq_pool_addr r) (mq_msg_size r) (mq_max_msgs r) (mq_entry r)
    (mq_next r) (mq_body r) (mq_head r) (mq_tail r) v.

(** [struct rt_mempool]. *)
Record rt_mempool := MemPool {
  mp_start : Z;  (**r start_address *)
  mp_size : Z;
  mp_block_size : Z;
  mp_block_list : option Z;  (**r first free block *)
  mp_total : Z;  (**r block_total_count *)
  mp_free : Z;  (**r block_free_count *)
  mp_link : gmap Z (option Z + Z);  (**r the word before each block: next free block, or the pool it belongs to *)
  mp_suspend_count : Z  (**r suspend_thread_count *)
}.
Definition set_mp_start (v : Z) (r : rt_mempool) : rt_mempool :=
    MemPool v (mp_size r) (mp_block_size r) (mp_block_list r) (mp_total r) (mp_free r)
    (mp_link r) (mp_suspend_count r).
Definition set_mp_size (v : Z) (r : rt_mempool) : rt_mempool :=
    MemPool (mp_start r) v (mp_block_size r) (mp_block_list r) (mp_total r) (mp_free r)
    (mp_link r) (mp_suspend_count r).
Definition set_mp_block_size (v : Z) (r : rt_mempool) : rt_mempool :=
    MemPool (mp_start r) (mp_size r) v (mp_block_list r) (mp_total r) (mp_free r) (mp_link
    r) (mp_suspend_count r).
Definition set_mp_block_list (v : option Z) (r : rt_mempool) : rt_mempool :=
    MemPool (mp_start r) (mp_size r) (mp_block_size r) v (mp_total r) (mp_free r) (mp_link
    r) (mp_suspend_count r).
Definition set_mp_total (v : Z) (r : rt_mempool) : rt_mempool :=
    MemPool (mp_start r) (mp_size r) (mp_block_size r) (mp_block_list r) v (mp_free r)
    (mp_link r) (mp_suspend_count r).
Definition set_mp_free (v : Z) (r : rt_mempool) : rt_mempool :=
    MemPool (mp_start r) (mp_size r) (mp_block_size r) (mp_block_list r) (mp_total r) v
    (mp_link r) (mp_suspend_count r).
Definition set_mp_link (v : gmap Z (option Z + Z)) (r : rt_mempool) : rt_mempool :=
    MemPool (mp_start r) (mp_size r) (mp_block_size r) (mp_block_list r) (mp_total r)
    (mp_free r) v (mp_suspend_count r).
Definition set_mp_suspend_count (v : Z) (r : rt_mempool) : rt_mempool :=
    MemPool (mp_start r) (mp_size r) (mp_block_size r) (mp_block_list r) (mp_total r)
    (mp_free r) (mp_link r) v.

(** [struct rt_object]: the name buffer and the type with its static bit. *)
Record kobj := Kobj { o_name : list Z; o_type : Z }.

(** [struct rt_device]; a function pointer is the number of the function, [None] for
    [RT_NULL]. *)
Record rt_device := Device {
  dv_type : Z;  (**r the class of the device *)
  dv_flag : Z;  (**r 16 bits *)
  dv_open_flag : Z;  (**r 16 bits *)
  dv_ref_count : Z;  (**r 8 bits *)
  dv_rx_indicate : option Z;
  dv_tx_complete : option Z;
  dv_init : option Z;
  dv_open : option Z;
  dv_close : option Z;
  dv_read : option Z;
  dv_write : option Z;
  dv_control : option Z;
  dv_user_data : Z
}.

Definition set_dv_flag (v : Z) (r : rt_device) : rt_device :=
    Device (dv_type r) v (dv_open_flag r) (dv_ref_count r) (dv_rx_indicate r) (dv_tx_complete r)
    (dv_init r) (dv_open r) (dv_close r) (dv_read r) (dv_write r) (dv_control r) (dv_user_data r).
Definition set_dv_open_flag (v : Z) (r : rt_device) : rt_device :=
    Device (dv_type r) (dv_flag r) v (dv_ref_count r) (dv_rx_indicate r) (dv_tx_complete r)
    (dv_init r) (dv_open r) (dv_close r) (dv_read r) (dv_write r) (dv_control r) (dv_user_data r).
Definition set_dv_ref_count (v : Z) (r : rt_device) : rt_device :=
    Device (dv_type r) (dv_flag r) (dv_open_flag r) v (dv_rx_indicate r) (dv_tx_complete r)
    (dv_init r) (dv_open r) (dv_close r) (dv_read r) (dv_write r) (dv_control r) (dv_user_data r).
Definition set_dv_rx_indicate (v : option Z) (r : rt_device) : rt_device :=
    Device (dv_type r) (dv_flag r) (dv_open_flag r) (dv_ref_count r) v (dv_tx_complete r)
    (dv_init r) (dv_open r) (dv_close r) (dv_read r) (dv_write r) (dv_control r) (dv_user_data r).
Definition set_dv_tx_complete (v : option Z) (r : rt_device) : rt_device :=
    Device (dv_type r) (dv_flag r) (dv_open_flag r) (dv_ref_count r) (dv_rx_indicate r) v
    (dv_init r) (dv_open r) (dv_close r) (dv_read r) (dv_write r) (dv_control r) (dv_user_data r).

(** [struct rt_completion]; the waiting thread is in the list [LWait] of its address. *)
Record rt_completion := Completion { cp_flag : Z }.

(** [struct rt_data_queue]: [dq_items] are the data items (address and size) [queue] points
    to, [None] for [RT_NULL]. *)
Record rt_data_queue := DataQueue {
  dq_size : Z;  (**r 16 bits *)
  dq_lwm : Z;  (**r 16 bits *)
  dq_waiting_lwm : bool;
  dq_get_index : Z;  (**r 16 bits *)
  dq_put_index : Z;  (**r 16 bits *)
  dq_items : option (list (Z * Z));
  dq_evt_notify : option Z
}.

(** [struct serial_ringbuffer]. *)
Record serial_rb := SerialRb {
  sb_buffer : list Z;
  sb_put : Z;  (**r put_index, 16 bits *)
  sb_get : Z  (**r get_index, 16 bits *)
}.

(** A call of a function of [struct rt_uart_ops] by which the hardware gets something to do. *)
Inductive uart_call := UConfigure | UControl (cmd arg : Z) | UPutc (c : Z) | UDma (buf size : Z).

(** [struct rt_serial_device] behind its [parent]: the buffers [int_rx] and [int_tx] point to
    ([None] for [RT_NULL]) and [dma_flag]; the operations of the hardware are what [configure]
    returns ([None] for a null pointer), the characters that [getc] is going to return, one
    at a time and [-1] behind them, and the calls of the others so far. *)
Record rt_serial := Serial {
  sr_configure : option Z;
  sr_rx : option serial_rb;
  sr_tx : option serial_rb;
  sr_dma_flag : bool;
  sr_line : list Z;
  sr_calls : list uart_call
}.
Definition set_sr_rx (v : option serial_rb) (r : rt_serial) : rt_serial :=
    Serial (sr_configure r) v (sr_tx r) (sr_dma_flag r) (sr_line r) (sr_calls r).
Definition set_sr_tx (v : option serial_rb) (r : rt_serial) : rt_serial :=
    Serial (sr_configure r) (sr_rx r) v (sr_dma_flag r) (sr_line r) (sr_calls r).
Definition set_sr_dma_flag (v : bool) (r : rt_serial) : rt_serial :=
    Serial (sr_configure r) (sr_rx r) (sr_tx r) v (sr_line r) (sr_calls r).
Definition set_sr_line (v : list Z) (r : rt_serial) : rt_serial :=
    Serial (sr_configure r) (sr_rx r) (sr_tx r) (sr_dma_flag r) v (sr_calls r).
Definition set_sr_calls (v : list uart_call) (r : rt_serial) : rt_serial :=
    Serial (sr_configure r) (sr_rx r) (sr_tx r) (sr_dma_flag r) (sr_line r) v.

(** [struct rt_pipe_device] behind its [parent]: the ring buffer, the address of its memory
    and the flag. *)
Record rt_pipe := Pipe {
  pp_rb : rt_ringbuffer;
  pp_addr : Z;
  pp_flag : Z
}.

(** ** The state *)
Record kstate := KState {
  k_threads : gmap Z rt_thread;  (**r the threads, by address *)
  k_queues : gmap lhead (list Z);  (**r the lists threaded through [tlist] *)
  k_group : Z;  (**r [rt_thread_ready_priority_group] *)
  k_current : option Z;  (**r [rt_current_thread], [None] for [RT_NULL] *)
  k_current_priority : Z;  (**r [rt_current_priority] *)
  k_lock_nest : Z;  (**r [rt_scheduler_lock_nest], 16 bits *)
  k_int_nest : Z;  (**r [rt_interrupt_nest], 8 bits *)
  k_tick : Z;  (**r [rt_tick] *)
  k_timers : gmap tmid rt_timer;  (**r the timers, by address *)
  k_timer_list : list tmid;  (**r [rt_timer_list[0]] *)
  k_random_nr : Z;  (**r the static counter of [rt_timer_start] *)
  k_objs : gmap oid kobj;  (**r the object headers *)
  k_container : gmap Z (list oid);  (**r [rt_object_container[type].object_list] *)
  k_sems : gmap Z rt_semaphore;  (**r semaphores *)
  k_mutexes : gmap Z rt_mutex;  (**r mutexes *)
  k_events : gmap Z rt_event;  (**r events *)
  k_mbs : gmap Z rt_mailbox;  (**r mailboxes *)
  k_mqs : gmap Z rt_messagequeue;  (**r message queues *)
  k_mps : gmap Z rt_mempool;  (**r memory pools *)
  k_devs : gmap Z rt_device;  (**r devices *)
  k_comps : gmap Z rt_completion;  (**r completions *)
  k_dqs : gmap Z rt_data_queue;  (**r data queues *)
  k_serials : gmap Z rt_serial;  (**r serial devices *)
  k_pipes : gmap Z rt_pipe;  (**r pipes *)
  k_errno : Z  (**r [_errno] of kservice.c *)
}.
Definition set_k_threads (v : gmap Z rt_thread) (r : kstate) : kstate :=
    KState v (k_queues r) (k_group r) (k_current r) (k_current_priority r) (k_lock_nest r)
    (k_int_nest r) (k_tick r) (k_timers r) (k_timer_list r) (k_random_nr r) (k_objs r)
    (k_container r) (k_sems r) (k_mutexes r) (k_events r) (k_mbs r) (k_mqs r) (k_mps r)
    (k_devs r) (k_comps r) (k_dqs r) (k_serials r) (k_pipes r) (k_errno r).
Definition set_k_queues (v : gmap lhead (list Z)) (r : kstate) : kstate :=
    KState (k_threads r) v (k_group r) (k_current r) (k_current_priority r) (k_lock_nest r)
    (k_int_nest r) (k_tick r) (k_timers r) (k_timer_list r) (k_random_nr r) (k_objs r)
    (k_container r) (k_sems r) (k_mutexes r) (k_events r) (k_mbs r) (k_mqs r) (k_mps r)
    (k_devs r) (k_comps r) (k_dqs r) (k_serials r) (k_pipes r) (k_errno r).
Definition set_k_group (v : Z) (r : kstate) : kstate :=
    KState (k_threads r) (k_queues r) v (k_current r) (k_current_priority r) (k_lock_nest r)
    (k_int_nest r) (k_tick r) (k_timers r) (k_timer_list r) (k_random_nr r) (k_objs r)
    (k_container r) (k_sems r) (k_mutexes r) (k_events r) (k_mbs r) (k_mqs r) (k_mps r)
    (k_devs r) (k_comps r) (k_dqs r) (k_serials r) (k_pipes r) (k_errno r).
Definition set_k_current (v : option Z) (r : kstate) : kstate :=
    KState (k_threads r) (k_queues r) (k_group r) v (k_current_priority r) (k_lock_nest r)
    (k_int_nest r) (k_tick r) (k_timers r) (k_timer_list r) (k_random_nr r) (k_objs r)
    (k_container r) (k_sems r) (k_mutexes r) (k_events r) (k_mbs r) (k_mqs r) (k_mps r)
    (k_devs r) (k_comps r) (k_dqs r) (k_serials r) (k_pipes r) (k_errno r).
Definition set_k_current_priority (v : Z) (r : kstate) : kstate :=
    KState (k_threads r) (k_queues r) (k_group r) (k_current r) v (k_lock_nest r)
    (k_int_nest r) (k_tick r) (k_timers r) (k_timer_list r) (k_random_nr r) (k_objs r)
    (k_container r) (k_sems r) (k_mutexes r) (k_events r) (k_mbs r) (k_mqs r) (k_mps r)
    (k_devs r) (k_comps r) (k_dqs r) (k_serials r) (k_pipes r) (k_errno r).
Definition set_k_lock_nest (v : Z) (r : kstate) : kstate :=
    KState (k_threads r) (k_queues r) (k_group r) (k_current r) (k_current_priority r) v
    (k_int_nest r) (k_tick r) (k_timers r) (k_timer_list r) (k_random_nr r) (k_objs r)
    (k_container r) (k_sems r) (k_mutexes r) (k_events r) (k_mbs r) (k_mqs r) (k_mps r)
    (k_devs r) (k_comps r) (k_dqs r) (k_serials r) (k_pipes r) (k_errno r).
Definition set_k_int_nest (v : Z) (r : kstate) : kstate :=
    KState (k_threads r) (k_queues r) (k_group r) (k_current r) (k_current_priority r)
    (k_lock_nest r) v (k_tick r) (k_timers r) (k_timer_list r) (k_random_nr r) (k_objs r)
    (k_container r) (k_sems r) (k_mutexes r) (k_events r) (k_mbs r) (k_mqs r) (k_mps r)
    (k_devs r) (k_comps r) (k_dqs r) (k_serials r) (k_pipes r) (k_errno r).
Definition set_k_tick (v : Z) (r : kstate) : kstate :=
    KState (k_threads r) (k_queues r) (k_group r) (k_current r) (k_current_priority r)
    (k_lock_nest r) (k_int_nest r) v (k_timers r) (k_timer_list r) (k_random_nr r)
    (k_objs r) (k_container r) (k_sems r) (k_mutexes r) (k_events r) (k_mbs r) (k_mqs r)
    (k_mps r) (k_devs r) (k_comps r) (k_dqs r) (k_serials r) (k_pipes r) (k_errno r).
Definition set_k_timers (v : gmap tmid rt_timer) (r : kstate) : kstate :=
    KState (k_threads r) (k_queues r) (k_group r) (k_current r) (k_current_priority r)
    (k_lock_nest r) (k_int_nest r) (k_tick r) v (k_timer_list r) (k_random_nr r) (k_objs r)
    (k_container r) (k_sems r) (k_mutexes r) (k_events r) (k_mbs r) (k_mqs r) (k_mps r)
    (k_devs r) (k_comps r) (k_dqs r) (k_serials r) (k_pipes r) (k_errno r).
Definition set_k_timer_list (v : list tmid) (r : kstate) : kstate :=
    KState (k_threads r) (k_queues r) (k_group r) (k_current r) (k_current_priority r)
    (k_lock_nest r) (k_int_nest r) (k_tick r) (k_timers r) v (k_random_nr r) (k_objs r)
    (k_container r) (k_sems r) (k_mutexes r) (k_events r) (k_mbs r) (k_mqs r) (k_mps r)
    (k_devs r) (k_comps r) (k_dqs r) (k_serials r) (k_pipes r) (k_errno r).
Definition set_k_random_nr (v : Z) (r : kstate) : kstate :=
    KState (k_threads r) (k_queues r) (k_group r) (k_current r) (k_current_priority r)
    (k_lock_nest r) (k_int_nest r) (k_tick r) (k_timers r) (k_timer_list r) v (k_objs r)
    (k_container r) (k_sems r) (k_mutexes r) (k_events r) (k_mbs r) (k_mqs r) (k_mps r)
    (k_devs r) (k_comps r) (k_dqs r) (k_serials r) (k_pipes r) (k_errno r).
Definition set_k_objs (v : gmap oid kobj) (r : kstate) : kstate :=
    KState (k_threads r) (k_queues r) (k_group r) (k_current r) (k_current_priority r)
    (k_lock_nest r) (k_int_nest r) (k_tick r) (k_timers r) (k_timer_list r) (k_random_nr r)
    v (k_container r) (k_sems r) (k_mutexes r) (k_events r) (k_mbs r) (k_mqs r) (k_mps r)
    (k_devs r) (k_comps r) (k_dqs r) (k_serials r) (k_pipes r) (k_errno r).
Definition set_k_container (v : gmap Z (list oid)) (r : kstate) : kstate :=
    KState (k_threads r) (k_queues r) (k_group r) (k_current r) (k_current_priority r)
    (k_lock_nest r) (k_int_nest r) (k_tick r) (k_timers r) (k_timer_list r) (k_random_nr r)
    (k_objs r) v (k_sems r) (k_mutexes r) (k_events r) (k_mbs r) (k_mqs r) (k_mps r)
    (k_devs r) (k_comps r) (k_dqs r) (k_serials r) (k_pipes r) (k_errno r).
Definition set_k_sems (v : gmap Z rt_semaphore) (r : kstate) : kstate :=
    KState (k_threads r) (k_queues r) (k_group r) (k_current r) (k_current_priority r)
    (k_lock_nest r) (k_int_nest r) (k_tick r) (k_timers r) (k_timer_list r) (k_random_nr r)
    (k_objs r) (k_container r) v (k_mutexes r) (k_events r) (k_mbs r) (k_mqs r) (k_mps r)
    (k_devs r) (k_comps r) (k_dqs r) (k_serials r) (k_pipes r) (k_errno r).
Definition set_k_mutexes (v : gmap Z rt_mutex) (r : kstate) : kstate :=
    KState (k_threads r) (k_queues r) (k_group r) (k_current r) (k_current_priority r)
    (k_lock_nest r) (k_int_nest r) (k_tick r) (k_timers r) (k_timer_list r) (k_random_nr r)
    (k_objs r) (k_container r) (k_sems r) v (k_events r) (k_mbs r) (k_mqs r) (k_mps r)
    (k_devs r) (k_comps r) (k_dqs r) (k_serials r) (k_pipes r) (k_errno r).
Definition set_k_events (v : gmap Z rt_event) (r : kstate) : kstate :=
    KState (k_threads r) (k_queues r) (k_group r) (k_current r) (k_current_priority r)
    (k_lock_nest r) (k_int_nest r) (k_tick r) (k_timers r) (k_timer_list r) (k_random_nr r)
    (k_objs r) (k_container r) (k_sems r) (k_mutexes r) v (k_mbs r) (k_mqs r) (k_mps r)
    (k_devs r) (k_comps r) (k_dqs r) (k_serials r) (k_pipes r) (k_errno r).
Definition set_k_mbs (v : gmap Z rt_mailbox) (r : kstate) : kstate :=
    KState (k_threads r) (k_queues r) (k_group r) (k_current r) (k_current_priority r)
    (k_lock_nest r) (k_int_nest r) (k_tick r) (k_timers r) (k_timer_list r) (k_random_nr r)
    (k_objs r) (k_container r) (k_sems r) (k_mutexes r) (k_events r) v (k_mqs r) (k_mps r)
    (k_devs r) (k_comps r) (k_dqs r) (k_serials r) (k_pipes r) (k_errno r).
Definition set_k_mqs (v : gmap Z rt_messagequeue) (r : kstate) : kstate :=
    KState (k_threads r) (k_queues r) (k_group r) (k_current r) (k_current_priority r)
    (k_lock_nest r) (k_int_nest r) (k_tick r) (k_timers r) (k_timer_list r) (k_random_nr r)
    (k_objs r) (k_container r) (k_sems r) (k_mutexes r) (k_events r) (k_mbs r) v (k_mps r)
    (k_devs r) (k_comps r) (k_dqs r) (k_serials r) (k_pipes r) (k_errno r).
Definition set_k_mps (v : gmap Z rt_mempool) (r : kstate) : kstate :=
    KState (k_threads r) (k_queues r) (k_group r) (k_current r) (k_current_priority r)
    (k_lock_nest r) (k_int_nest r) (k_tick r) (k_timers r) (k_timer_list r) (k_random_nr r)
    (k_objs r) (k_container r) (k_sems r) (k_mutexes r) (k_events r) (k_mbs r) (k_mqs r) v
    (k_devs r) (k_comps r) (k_dqs r) (k_serials r) (k_pipes r) (k_errno r).
Definition set_k_devs (v : gmap Z rt_device) (r : kstate) : kstate :=
    KState (k_threads r) (k_queues r) (k_group r) (k_current r) (k_current_priority r)
    (k_lock_nest r) (k_int_nest r) (k_tick r) (k_timers r) (k_timer_list r) (k_random_nr r)
    (k_objs r) (k_container r) (k_sems r) (k_mutexes r) (k_events r) (k_mbs r) (k_mqs r)
    (k_mps r) v (k_comps r) (k_dqs r) (k_serials r) (k_pipes r) (k_errno r).
Definition set_k_comps (v : gmap Z rt_completion) (r : kstate) : kstate :=
    KState (k_threads r) (k_queues r) (k_group r) (k_current r) (k_current_priority r)
    (k_lock_nest r) (k_int_nest r) (k_tick r) (k_timers r) (k_timer_list r) (k_random_nr r)
    (k_objs r) (k_container r) (k_sems r) (k_mutexes r) (k_events r) (k_mbs r) (k_mqs r)
    (k_mps r) (k_devs r) v (k_dqs r) (k_serials r) (k_pipes r) (k_errno r).
Definition set_k_dqs (v : gmap Z rt_data_queue) (r : kstate) : kstate :=
    KState (k_threads r) (k_queues r) (k_group r) (k_current r) (k_current_priority r)
    (k_lock_nest r) (k_int_nest r) (k_tick r) (k_timers r) (k_timer_list r) (k_random_nr r)
    (k_objs r) (k_container r) (k_sems r) (k_mutexes r) (k_events r) (k_mbs r) (k_mqs r)
    (k_mps r) (k_devs r) (k_comps r) v (k_serials r) (k_pipes r) (k_errno r).
Definition set_k_serials (v : gmap Z rt_serial) (r : kstate) : kstate :=
    KState (k_threads r) (k_queues r) (k_group r) (k_current r) (k_current_priority r)
    (k_lock_nest r) (k_int_nest r) (k_tick r) (k_timers r) (k_timer_list r) (k_random_nr r)
    (k_objs r) (k_container r) (k_sems r) (k_mutexes r) (k_events r) (k_mbs r) (k_mqs r)
    (k_mps r) (k_devs r) (k_comps r) (k_dqs r) v (k_pipes r) (k_errno r).
Definition set_k_pipes (v : gmap Z rt_pipe) (r : kstate) : kstate :=
    KState (k_threads r) (k_queues r) (k_group r) (k_current r) (k_current_priority r)
    (k_lock_nest r) (k_int_nest r) (k_tick r) (k_timers r) (k_timer_list r) (k_random_nr r)
    (k_objs r) (k_container r) (k_sems r) (k_mutexes r) (k_events r) (k_mbs r) (k_mqs r)
    (k_mps r) (k_devs r) (k_comps r) (k_dqs r) (k_serials r) v (k_errno r).
Definition set_k_errno (v : Z) (r : kstate) : kstate :=
    KState (k_threads r) (k_queues r) (k_group r) (k_current r) (k_current_priority r)
    (k_lock_nest r) (k_int_nest r) (k_tick r) (k_timers r) (k_timer_list r) (k_random_nr r)
    (k_objs r) (k_container r) (k_sems r) (k_mutexes r) (k_events r) (k_mbs r) (k_mqs r)
    (k_mps r) (k_devs r) (k_comps r) (k_dqs r) (k_serials r) (k_pipes r) v.

(** ** Constants of rtdef.h and rtconfig.h *)
Definition RT_THREAD_PRIORITY_MAX : Z := 32.
Definition RT_NAME_MAX : nat := 8.
Definition RT_THREAD_INIT : Z := 0.
Definition RT_THREAD_READY : Z := 1.
Definition RT_THREAD_SUSPEND : Z := 2.
Definition RT_THREAD_CLOSE : Z := 4.
Definition RT_TIMER_FLAG_ACTIVATED : Z := 1.
Definition RT_TIMER_FLAG_ONE_SHOT : Z := 0.
Definition RT_TIMER_FLAG_PERIODIC : Z := 2.
Definition RT_IPC_FLAG_FIFO : Z := 0.
Definition RT_IPC_FLAG_PRIO : Z := 1.
Definition RT_IPC_CMD_RESET : Z := 1.
Definition RT_EVENT_FLAG_AND : Z := 1.
Definition RT_EVENT_FLAG_OR : Z := 2.
Definition RT_EVENT_FLAG_CLEAR : Z := 4.
Definition RT_Object_Class_Static : Z := 128.
Definition RT_Object_Class_Unknown : Z := 9.

(** ** The monad of kernel operations *)
Definition M (A : Type) : Type := kstate -> option (A * kstate).
#[export] Instance M_ret : MRet M := fun A a k => Some (a, k).
#[export] Instance M_bind : MBind M := fun A B f m k =>
  match m k with Some (a, k') => f a k' | None => None end.

(** The code does not go on. *)
Definition stuck {A} : M A := fun _ => None.
Definition kget {A} (f : kstate -> A) : M A := fun k => Some (f k, k).
Definition kmod (f : kstate -> kstate) : M unit := fun k => Some (tt, f k).
Definition rt_assert (b : bool) : M unit := if b then mret tt else stuck.
Definition deref {A} (o : option A) : M A := match o with Some a => mret a | None => stuck end.

(** Access to the control blocks; an address with no object is an invalid pointer. *)
Definition get_thread (t : Z) : M rt_thread := fun k => th ← k_threads k !! t; Some (th, k).
Definition put_thread (t : Z) (th : rt_thread) : M unit :=
  kmod (fun k => set_k_threads (<[t := th]> (k_threads k)) k).
Definition mod_thread (t : Z) (f : rt_thread -> rt_thread) : M unit :=
  th ← get_thread t; put_thread t (f th).
Definition get_timer (t : tmid) : M rt_timer := fun k => tm ← k_timers k !! t; Some (tm, k).
Definition put_timer (t : tmid) (tm : rt_timer) : M unit :=
  kmod (fun k => set_k_timers (<[t := tm]> (k_timers k)) k).
Definition mod_timer (t : tmid) (f : rt_timer -> rt_timer) : M unit :=
  tm ← get_timer t; put_timer t (f tm).

(** ** The lists threaded through [tlist] *)
Definition queue (k : kstate) (h : lhead) : list Z := default [] (k_queues k !! h).
Definition put_queue (h : lhead) (l : list Z) (k : kstate) : kstate :=
  set_k_queues (<[h := l]> (k_queues k)) k.

(** Whether the node of a thread is linked into some list. *)
Definition queued (t : Z) (k : kstate) : bool :=
  existsb (fun p : lhead * list Z => bool_decide (t ∈ p.2)) (map_to_list (k_queues k)).

(** [rt_list_init] of a list head. *)
Definition list_head_init (h : lhead) : M unit := kmod (put_queue h []).
(** [rt_list_remove(&thread->tlist)]. *)
Definition tlist_remove (t : Z) : M unit :=
  kmod (fun k => set_k_queues (filter (fun x => x <> t) <$> k_queues k) k).
(** [rt_list_insert_before(h, &thread->tlist)]: at the end of the list. *)
Definition tlist_insert_before (h : lhead) (t : Z) : M unit := fun k =>
  if queued t k then None else Some (tt, put_queue h (queue k h ++ [t]) k).
(** [rt_list_insert_after(h, &thread->tlist)]: at the front of the list. *)
Definition tlist_insert_after (h : lhead) (t : Z) : M unit := fun k =>
  if queued t k then None else Some (tt, put_queue h (t :: queue k h) k).
(** [rt_list_isempty]. *)
Definition list_isempty (h : lhead) : M bool :=
  kget (fun k => match queue k h with [] => true | _ => false end).
(** [rt_list_entry(h->next, struct rt_thread, tlist)]: only a list that is not
    empty has a thread there. *)
Definition list_first (h : lhead) : M Z := fun k =>
  match queue k h with [] => None | t :: _ => Some (t, k) end.
(** [thread->tlist.next != thread->tlist.prev]: the thread shares its list with
    another one. *)
Definition tlist_shared (t : Z) (k : kstate) : bool :=
  existsb (fun p : lhead * list Z => bool_decide (t ∈ p.2) && (2 <=? length p.2)%nat) (map_to_list (k_queues k)).
