(* ===== verification/Object.v ===== *)
(** * The object container (src/src/object.c)

    Every kernel object is linked, under its class, into the list of the
    container, with its name cut to [RT_NAME_MAX] bytes.  The classes are the
    ones of rtdef.h under the configuration of the board (rtconfig.h): no
    memory heap objects and no modules. *)
From S2P Require Import Prelude KService Kernel.

(** [enum rt_object_class_type]: the index of a kind of object. *)
Definition obj_class (o : oid) : Z :=
  match o with
  | OThread _ => 0 | OSem _ => 1 | OMutex _ => 2 | OEvent _ => 3 | OMb _ => 4
  | OMq _ => 5 | OMp _ => 6 | ODev _ => 7 | OTimer _ => 8
  end.

Definition objects (k : kstate) (c : Z) : list oid := default [] (k_container k !! c).
Definition put_objects (c : Z) (l : list oid) (k : kstate) : kstate :=
  set_k_container (<[c := l]> (k_container k)) k.

(** Whether the list node of an object is linked into the container. *)
Definition registered (o : oid) (k : kstate) : bool := bool_decide (o ∈ objects k (obj_class o)).

(** Links an object under its class: [rt_list_insert_after] at the list head. *)
Definition object_link (o : oid) : M unit := fun k =>
  if registered o k then None else Some (tt, put_objects (obj_class o) (o :: objects k (obj_class o)) k).

(** [rt_object_init]: a static object. *)
Definition rt_object_init (o : oid) (name : list Z) : M unit :=
  nm ← deref (rt_strncpy name RT_NAME_MAX);
  kmod (fun k => set_k_objs
    (<[o := Kobj nm (Z.lor (obj_class o) RT_Object_Class_Static)]> (k_objs k)) k);;
  object_link o.

(** [rt_object_detach]. *)
Definition rt_object_detach (o : oid) : M unit :=
  kmod (fun k => put_objects (obj_class o)
    (filter (fun x => x <> o) (objects k (obj_class o))) k).

(** [rt_object_is_systemobject]. *)
Definition rt_object_is_systemobject (o : oid) : M bool := fun k =>
  ob ← k_objs k !! o;
  Some (negb (Z.land (o_type ob) RT_Object_Class_Static =? 0), k).

(** The loop of [rt_object_find] over the list of a class. *)
Fixpoint find_by_name (objs : gmap oid kobj) (name : list Z) (l : list oid) : option (option oid) :=
  match l with
  | [] => Some None
  | o :: l' =>
      ob ← objs !! o;
      r ← rt_strncmp (o_name ob) name RT_NAME_MAX;
      if r =? 0 then Some (Some o) else find_by_name objs name l'
  end.

(** ** Lemmas *)

(** A name that ends, or has at least [RT_NAME_MAX] characters. *)
Definition valid_name (name : list Z) : Prop := is_Some (rt_strncpy name RT_NAME_MAX).

(** The container after a static object was added. *)
Definition object_added (o : oid) (name : list Z) (k : kstate) : kstate :=
  put_objects (obj_class o) (o :: objects k (obj_class o))
    (set_k_objs (<[o := Kobj (default [] (rt_strncpy name RT_NAME_MAX))
                             (Z.lor (obj_class o) RT_Object_Class_Static)]> (k_objs k)) k).

Lemma rt_object_init_run o name k :
  valid_name name -> registered o k = false ->
  rt_object_init o name k = Some (tt, object_added o name k).
Proof.
  intros [nm E] Hr. unfold rt_object_init, object_added, mbind, M_bind, deref. rewrite E. cbn.
  unfold object_link. change (registered o (set_k_objs _ k)) with (registered o k). by rewrite Hr.
Qed.
