(* ===== verification/Scheduler.v ===== *)
(** * The scheduler (src/src/scheduler.c)

    The ready queues, one per priority, the bitmap of the priorities whose queue
    is not empty, and the choice of the thread to run.  The invariant
    [sched_wf] ties the control blocks, the lists and the bitmap together; the
    lemmas of this file give the effect of the queue operations and show that
    moving a thread from one list to another keeps the invariant.

    Interrupts are disabled around every access of these variables, so each
    operation is one atomic step; the level word itself is not modelled.  The
    stack check of [rt_schedule] and the context switch are not modelled: which
    thread runs is [k_current]. *)
From S2P Require Import Prelude KService Kernel Object.

(** ** Operations *)

(** [&rt_thread_priority_table[p]]: an index outside the array is invalid. *)
Definition ready_head (p : Z) : M lhead :=
  if (0 <=? p) && (p <? RT_THREAD_PRIORITY_MAX) then mret (LReady p) else stuck.

Definition init_ready_queues (k : kstate) : kstate :=
  foldr (fun p => put_queue (LReady p) []) k (seqZ 0 RT_THREAD_PRIORITY_MAX).

Definition rt_system_scheduler_init : M unit :=
  kmod (set_k_lock_nest 0);;
  kmod init_ready_queues;;
  kmod (set_k_current_priority (RT_THREAD_PRIORITY_MAX - 1));;
  kmod (set_k_current None);;
  kmod (set_k_group 0);;
  list_head_init LDefunct.

(** The head of the highest priority queue the bitmap says is not empty. *)
Definition highest_ready : M (Z * Z) :=
  g ← kget k_group;
  let highest := rt_ffs g - 1 in
  h ← ready_head highest;
  to ← list_first h;
  mret (highest, to).

Definition rt_system_scheduler_start : M unit :=
  r ← highest_ready;
  kmod (set_k_current (Some r.2)).

Definition rt_schedule : M unit :=
  nest ← kget k_lock_nest;
  if nest =? 0 then
    r ← highest_ready;
    cur ← kget k_current;
    if bool_decide (cur = Some r.2) then mret tt
    else
      _ ← deref cur;
      kmod (set_k_current_priority (u8 r.1));;
      kmod (set_k_current (Some r.2))
  else mret tt.

Definition rt_schedule_insert_thread (t : Z) : M unit :=
  mod_thread t (set_th_stat RT_THREAD_READY);;
  th ← get_thread t;
  h ← ready_head (th_current_priority th);
  tlist_insert_before h t;;
  kmod (fun k => set_k_group (Z.lor (k_group k) (th_number_mask th)) k).

Definition rt_schedule_remove_thread (t : Z) : M unit :=
  tlist_remove t;;
  th ← get_thread t;
  h ← ready_head (th_current_priority th);
  e ← list_isempty h;
  if e : bool then
    kmod (fun k => set_k_group (Z.land (k_group k) (u32 (Z.lnot (th_number_mask th)))) k)
  else mret tt.

Definition rt_enter_critical : M unit :=
  kmod (fun k => set_k_lock_nest (i16 (k_lock_nest k + 1)) k).

Definition rt_exit_critical : M unit :=
  kmod (fun k => set_k_lock_nest (i16 (k_lock_nest k - 1)) k);;
  nest ← kget k_lock_nest;
  if nest <=? 0 then kmod (set_k_lock_nest 0);; rt_schedule
  else mret tt.

Definition rt_critical_level : M Z := kget (fun k => u16 (k_lock_nest k)).

(** ** The invariant *)

Definition thread_wf (th : rt_thread) : Prop :=
  0 <= th_current_priority th < RT_THREAD_PRIORITY_MAX /\
  0 <= th_init_priority th < RT_THREAD_PRIORITY_MAX /\
  (th_stat th = RT_THREAD_INIT \/ th_stat th = RT_THREAD_READY \/
   th_stat th = RT_THREAD_SUSPEND \/ th_stat th = RT_THREAD_CLOSE) /\
  (th_stat th <> RT_THREAD_INIT -> th_number_mask th = 2 ^ th_current_priority th).

(** What a thread found in a list must be. *)
Definition home_ok (h : lhead) (th : rt_thread) : Prop :=
  match h with
  | LReady p => th_stat th = RT_THREAD_READY /\ th_current_priority th = p
  | LSuspend _ | LSender _ | LWait _ => th_stat th = RT_THREAD_SUSPEND
  | LDefunct => th_stat th = RT_THREAD_CLOSE
  end.

(** The bitmap has the bit of a priority exactly when its queue is not empty. *)
Definition group_ok (k : kstate) : Prop :=
  0 <= k_group k < 4294967296 /\
  forall p, 0 <= p < RT_THREAD_PRIORITY_MAX ->
    (Z.testbit (k_group k) p = true <-> queue k (LReady p) <> []).

Record sched_wf (k : kstate) : Prop := {
  wf_home : forall h t, t ∈ queue k h ->
    exists th, k_threads k !! t = Some th /\ home_ok h th;
  wf_nodup : forall h, NoDup (queue k h);
  wf_unique : forall h1 h2 t, t ∈ queue k h1 -> t ∈ queue k h2 -> h1 = h2;
  wf_ready : forall t th, k_threads k !! t = Some th -> th_stat th = RT_THREAD_READY ->
    t ∈ queue k (LReady (th_current_priority th));
  wf_group : group_ok k;
  wf_thread : forall t th, k_threads k !! t = Some th -> thread_wf th
}.

(** A thread is ready, with its control block. *)
Definition is_ready (k : kstate) (t : Z) (th : rt_thread) : Prop :=
  k_threads k !! t = Some th /\ th_stat th = RT_THREAD_READY.

(** The effects of the queue operations on the state. *)
Definition dequeue (t : Z) (k : kstate) : kstate :=
  set_k_queues (filter (fun x => x <> t) <$> k_queues k) k.
Definition put_th (t : Z) (th : rt_thread) (k : kstate) : kstate :=
  set_k_threads (<[t := th]> (k_threads k)) k.
Definition ready_insert (t : Z) (th : rt_thread) (k : kstate) : kstate :=
  let p := th_current_priority th in
  set_k_group (Z.lor (k_group k) (th_number_mask th))
    (put_queue (LReady p) (queue k (LReady p) ++ [t])
       (put_th t (set_th_stat RT_THREAD_READY th) k)).
Definition ready_remove (t : Z) (th : rt_thread) (k : kstate) : kstate :=
  let k1 := dequeue t k in
  match queue k1 (LReady (th_current_priority th)) with
  | [] => set_k_group (Z.land (k_group k) (u32 (Z.lnot (th_number_mask th)))) k1
  | _ => k1
  end.
Definition switch_to (p t : Z) (k : kstate) : kstate :=
  set_k_current (Some t) (set_k_current_priority (u8 p) k).

(** [k] with other threads, lists and bitmap. *)
Definition with_sched (thr : gmap Z rt_thread) (q : gmap lhead (list Z)) (g : Z) (k : kstate)
    : kstate := set_k_threads thr (set_k_queues q (set_k_group g k)).
Definition sched_only (k k' : kstate) : Prop :=
  k' = with_sched (k_threads k') (k_queues k') (k_group k') k.

(** The thread [t] gets the control block [th] and the list [home] (none for
    [None]); every other thread keeps its place. *)
Definition relocated (t : Z) (th : rt_thread) (home : option lhead) (k k' : kstate) : Prop :=
  k_threads k' = <[t := th]> (k_threads k) /\
  (forall h x, x <> t -> x ∈ queue k' h <-> x ∈ queue k h) /\
  (forall h, t ∈ queue k' h <-> home = Some h) /\
  (forall h, NoDup (queue k' h)) /\
  group_ok k' /\ sched_only k k'.

(** [k0] is [k] up to what concerns the thread [t]. *)
Definition same_but (t : Z) (k k0 : kstate) : Prop :=
  delete t (k_threads k0) = delete t (k_threads k) /\
  (forall h x, x <> t -> x ∈ queue k0 h <-> x ∈ queue k h) /\ sched_only k k0.

(** Arithmetic with the number of priorities unfolded. *)
Ltac plia := unfold RT_THREAD_PRIORITY_MAX in *; lia.

(** ** Lists *)

Lemma queue_put (h h' : lhead) (l : list Z) (k : kstate) :
  queue (put_queue h l k) h' = if decide (h = h') then l else queue k h'.
Proof.
  unfold queue, put_queue. cbn. rewrite lookup_insert. by case_decide.
Qed.

Lemma queue_put_eq h l k : queue (put_queue h l k) h = l.
Proof. rewrite queue_put. by rewrite decide_True. Qed.

Lemma queue_put_ne h h' l k : h <> h' -> queue (put_queue h l k) h' = queue k h'.
Proof. intros. rewrite queue_put. by rewrite decide_False. Qed.

Lemma queue_dequeue t k h :
  queue (dequeue t k) h = filter (fun x => x <> t) (queue k h).
Proof.
  unfold queue, dequeue. cbn. rewrite lookup_fmap. by destruct (k_queues k !! h).
Qed.

Lemma elem_of_dequeue t k h x : x ∈ queue (dequeue t k) h <-> x <> t /\ x ∈ queue k h.
Proof. rewrite queue_dequeue. by rewrite list_elem_of_filter. Qed.

Lemma elem_of_dequeue_ne t k h x : x <> t -> x ∈ queue (dequeue t k) h <-> x ∈ queue k h.
Proof. rewrite elem_of_dequeue. tauto. Qed.

Lemma queued_false t k : queued t k = false <-> forall h, t ∉ queue k h.
Proof.
  unfold queued. rewrite <-not_true_iff_false, existsb_exists. split.
  - intros Hn h Hh. apply Hn. unfold queue in Hh.
    destruct (k_queues k !! h) as [l|] eqn:E; [|by apply not_elem_of_nil in Hh].
    exists (h, l). split; [|by apply bool_decide_true].
    apply list_elem_of_In. by apply elem_of_map_to_list.
  - intros Hn ([h l] & Hin & Ht). apply bool_decide_eq_true in Ht.
    apply list_elem_of_In, elem_of_map_to_list in Hin.
    apply (Hn h). unfold queue. by rewrite Hin.
Qed.

(** Setters of other fields leave the lists and the threads alone. *)
Lemma queue_ext k k' h : k_queues k' = k_queues k -> queue k' h = queue k h.
Proof. intros E. unfold queue. by rewrite E. Qed.

(** ** The bitmap *)

Lemma group_ok_queues k k' :
  k_group k' = k_group k -> (forall p, queue k' (LReady p) = queue k (LReady p)) ->
  group_ok k -> group_ok k'.
Proof. intros Eg Eq [Hr Hb]. split; [by rewrite Eg|]. intros p Hp. by rewrite Eg, Eq, Hb. Qed.

Lemma group_ok_insert t th k :
  group_ok k -> 0 <= th_current_priority th < RT_THREAD_PRIORITY_MAX ->
  th_number_mask th = 2 ^ th_current_priority th ->
  group_ok (ready_insert t th k).
Proof.
  intros [Hr Hb] Hp Hm. unfold RT_THREAD_PRIORITY_MAX in *. split.
  - cbn. rewrite Hm. apply lor_range; [done|]. apply pow2_range; plia.
  - intros p Hp'. unfold ready_insert. cbn [k_group set_k_group].
    rewrite Hm, testbit_set by plia.
    rewrite (queue_ext (put_queue _ _ _) (set_k_group _ _)) by done. rewrite queue_put.
    destruct (Z.eqb_spec p (th_current_priority th)) as [->|Hne].
    + rewrite decide_True by done. simpl. split; [intros _; by destruct (queue k _)|done].
    + rewrite decide_False by congruence. simpl. rewrite Hb by done.
      by rewrite (queue_ext k (put_th _ _ k)).
Qed.

Lemma group_ok_remove t th k :
  group_ok k -> 0 <= th_current_priority th < RT_THREAD_PRIORITY_MAX ->
  th_number_mask th = 2 ^ th_current_priority th ->
  (forall p, t ∈ queue k (LReady p) -> p = th_current_priority th) ->
  group_ok (ready_remove t th k).
Proof.
  intros [Hr Hb] Hp Hm Ht. unfold RT_THREAD_PRIORITY_MAX in *.
  assert (Hsame : forall p, p <> th_current_priority th ->
            queue (dequeue t k) (LReady p) = queue k (LReady p)).
  { intros p Hne. rewrite queue_dequeue. apply filter_ne_id. intros Hin. by apply Ht in Hin. }
  unfold ready_remove. destruct (queue (dequeue t k) (LReady (th_current_priority th)))
    as [|x l] eqn:E.
  - split; [cbn; by apply land_range|]. intros p Hp'. cbn [k_group set_k_group].
    rewrite Hm, testbit_clear by plia. rewrite (queue_ext (dequeue t k)) by done.
    destruct (Z.eqb_spec p (th_current_priority th)) as [->|Hne]; simpl.
    + rewrite E. split; [done|]. by intros [].
    + rewrite Hsame by done. by apply Hb.
  - split; [done|]. intros p Hp'. cbn [k_group dequeue set_k_queues].
    destruct (decide (p = th_current_priority th)) as [->|Hne].
    + rewrite E. split; [done|]. intros _. apply Hb; [done|]. intros E0.
      rewrite queue_dequeue, E0 in E. done.
    + rewrite Hsame by done. by apply Hb.
Qed.

(** ** Keeping the invariant *)

Lemma relocated_wf t th home k k' :
  sched_wf k -> relocated t th home k k' -> thread_wf th ->
  (forall h, home = Some h -> home_ok h th) ->
  (th_stat th = RT_THREAD_READY -> home = Some (LReady (th_current_priority th))) ->
  sched_wf k'.
Proof.
  intros [H1 H2 H3 H4 H5 H6] (Et & Ho & Hh & Hnd & Hg & _) Hth Hhome Hrd. split; [| done | | |done|].
  - intros h x Hx. destruct (decide (x = t)) as [->|Hne].
    + exists th. rewrite Et, lookup_insert_eq. split; [done|]. apply Hhome. by apply Hh.
    + rewrite Ho in Hx by done. destruct (H1 h x Hx) as (thx & E & Hok).
      exists thx. by rewrite Et, lookup_insert_ne.
  - intros h1 h2 x X1 X2. destruct (decide (x = t)) as [->|Hne].
    + apply Hh in X1, X2. congruence.
    + rewrite Ho in X1, X2 by done. by eapply H3.
  - intros x thx Ex Hx. rewrite Et, lookup_insert in Ex. case_decide.
    + simplify_eq. apply Hh. by apply Hrd.
    + rewrite Ho by done. by apply H4.
  - intros x thx Ex. rewrite Et, lookup_insert in Ex. case_decide; [by simplify_eq|].
    by eapply H6.
Qed.

Lemma wf_ready_home k t p :
  sched_wf k -> t ∈ queue k (LReady p) ->
  exists th, is_ready k t th /\ th_current_priority th = p.
Proof.
  intros Hwf Hin. destruct (wf_home k Hwf _ _ Hin) as (th & E & Hs & Hp). by exists th.
Qed.

(** A thread that is not ready is in no ready queue. *)
Lemma wf_not_ready k t th p :
  sched_wf k -> k_threads k !! t = Some th -> th_stat th <> RT_THREAD_READY ->
  t ∉ queue k (LReady p).
Proof.
  intros Hwf E Hs Hin. destruct (wf_ready_home _ _ _ Hwf Hin) as (th' & [E' Hs'] & _).
  congruence.
Qed.

Lemma wf_at_prio k t th p :
  sched_wf k -> k_threads k !! t = Some th -> t ∈ queue k (LReady p) ->
  p = th_current_priority th.
Proof.
  intros Hwf E Hin. destruct (wf_ready_home _ _ _ Hwf Hin) as (th' & [E' Hs'] & Hp).
  congruence.
Qed.

(** ** Running the operations *)

Lemma bind_run {A B} (m : M A) (f : A -> M B) k a k' :
  m k = Some (a, k') -> (m ≫= f) k = f a k'.
Proof. intros E. unfold mbind, M_bind. by rewrite E. Qed.

Lemma bind_assoc {A B C} (m : M A) (f : A -> M B) (g : B -> M C) k :
  ((m ≫= f) ≫= g) k = (m ≫= (fun x => f x ≫= g)) k.
Proof. unfold mbind, M_bind. by destruct (m k) as [[? ?]|]. Qed.

Lemma get_thread_run t th k : k_threads k !! t = Some th -> get_thread t k = Some (th, k).
Proof. intros E. unfold get_thread. by rewrite E. Qed.

Lemma mod_thread_run t th f k :
  k_threads k !! t = Some th -> mod_thread t f k = Some (tt, put_th t (f th) k).
Proof. intros E. unfold mod_thread. by rewrite (bind_run _ _ _ _ _ (get_thread_run _ _ _ E)). Qed.

Lemma put_th_put_th t a b k : put_th t b (put_th t a k) = put_th t b k.
Proof. unfold put_th. cbn. by rewrite insert_insert_eq. Qed.

Lemma tlist_remove_run t k : tlist_remove t k = Some (tt, dequeue t k).
Proof. done. Qed.

Lemma rt_assert_run (b : bool) k : b = true -> rt_assert b k = Some (tt, k).
Proof. by intros ->. Qed.

Lemma tlist_insert_before_run h t k :
  (forall h, t ∉ queue k h) ->
  tlist_insert_before h t k = Some (tt, put_queue h (queue k h ++ [t]) k).
Proof. intros H. unfold tlist_insert_before. by rewrite (proj2 (queued_false t k)). Qed.

Lemma tlist_insert_after_run h t k :
  (forall h, t ∉ queue k h) ->
  tlist_insert_after h t k = Some (tt, put_queue h (t :: queue k h) k).
Proof. intros H. unfold tlist_insert_after. by rewrite (proj2 (queued_false t k)). Qed.

(** Runs the first call of a sequence of calls. *)
Ltac mlook := cbn [k_threads put_th dequeue put_queue set_k_threads set_k_queues set_k_group];
  first [eassumption | apply lookup_insert_eq | by rewrite lookup_insert_ne].
Ltac mcall :=
  first [ eapply get_thread_run; mlook | eapply mod_thread_run; mlook
        | apply tlist_remove_run | apply rt_assert_run; by auto | reflexivity ].
Ltac mstep := erewrite bind_run; [|mcall]; cbv beta.
Ltac mstep_by H := rewrite (bind_run _ _ _ _ _ H); cbv beta.

Lemma ready_head_run p k :
  0 <= p < RT_THREAD_PRIORITY_MAX -> ready_head p k = Some (LReady p, k).
Proof.
  intros Hp. unfold ready_head. destruct (Z.leb_spec 0 p); [|lia].
  destruct (Z.ltb_spec p RT_THREAD_PRIORITY_MAX); [done|lia].
Qed.

Lemma rt_schedule_insert_thread_run t th k :
  k_threads k !! t = Some th -> 0 <= th_current_priority th < RT_THREAD_PRIORITY_MAX ->
  (forall h, t ∉ queue k h) ->
  rt_schedule_insert_thread t k = Some (tt, ready_insert t th k).
Proof.
  intros E Hp Hq. unfold rt_schedule_insert_thread, mod_thread, get_thread, put_thread, kmod.
  unfold mbind, M_bind. rewrite E. cbn -[ready_head tlist_insert_before]. rewrite lookup_insert_eq.
  cbn -[ready_head tlist_insert_before]. rewrite ready_head_run by done.
  unfold tlist_insert_before. rewrite (proj2 (queued_false t _)) by done.
  by rewrite (queue_ext k).
Qed.

Lemma rt_schedule_remove_thread_run t th k :
  k_threads k !! t = Some th -> 0 <= th_current_priority th < RT_THREAD_PRIORITY_MAX ->
  rt_schedule_remove_thread t k = Some (tt, ready_remove t th k).
Proof.
  intros E Hp. unfold rt_schedule_remove_thread, tlist_remove, kmod, get_thread.
  unfold mbind, M_bind. cbn -[ready_head list_isempty]. rewrite E.
  cbn -[ready_head list_isempty]. rewrite ready_head_run by done.
  unfold list_isempty, kget, ready_remove. fold (dequeue t k).
  by destruct (queue (dequeue t k) _).
Qed.

Lemma highest_ready_run k :
  sched_wf k -> (exists t th, is_ready k t th) ->
  exists p t l, highest_ready k = Some ((p, t), k) /\
    queue k (LReady p) = t :: l /\
    forall t' th', is_ready k t' th' -> p <= th_current_priority th'.
Proof.
  intros Hwf (t0 & th0 & E0 & R0). pose proof (wf_group k Hwf) as [Hr Hb].
  pose proof (wf_thread k Hwf _ _ E0) as (Hp0 & _). unfold RT_THREAD_PRIORITY_MAX in *.
  assert (Hbit : Z.testbit (k_group k) (th_current_priority th0) = true).
  { apply Hb; [done|]. eapply elem_of_not_nil, wf_ready; eauto. }
  assert (Hpos : 0 < k_group k < 4294967296).
  { split; [|lia]. destruct (decide (k_group k = 0)) as [Z0|]; [|lia].
    rewrite Z0, Z.bits_0 in Hbit. done. }
  destruct (rt_ffs_spec _ Hpos) as (Hf & Hset & Hlow).
  assert (Hq : queue k (LReady (rt_ffs (k_group k) - 1)) <> []) by (apply Hb; [lia|done]).
  destruct (queue k (LReady (rt_ffs (k_group k) - 1))) as [|t l] eqn:Eq; [done|].
  exists (rt_ffs (k_group k) - 1), t, l. split; [|split; [done|]].
  - unfold highest_ready, kget, list_first. unfold mbind, M_bind.
    rewrite ready_head_run by (unfold RT_THREAD_PRIORITY_MAX; lia). by rewrite Eq.
  - intros t' th' [E' R']. pose proof (wf_thread k Hwf _ _ E') as (Hp' & _).
    unfold RT_THREAD_PRIORITY_MAX in *.
    destruct (decide (rt_ffs (k_group k) - 1 <= th_current_priority th')) as [|Hlt]; [done|].
    assert (Hz : Z.testbit (k_group k) (th_current_priority th') = false) by (apply Hlow; lia).
    assert (Ht : Z.testbit (k_group k) (th_current_priority th') = true).
    { apply Hb; [done|]. eapply elem_of_not_nil, wf_ready; eauto. }
    congruence.
Qed.

(** ** Scheduling *)

Lemma sched_wf_ext k k' :
  k_threads k' = k_threads k -> k_queues k' = k_queues k -> k_group k' = k_group k ->
  sched_wf k -> sched_wf k'.
Proof.
  destruct k, k'. cbn. intros -> -> -> [H1 H2 H3 H4 H5 H6].
  split; [exact H1|exact H2|exact H3|exact H4|exact H5|exact H6].
Qed.

Lemma rt_schedule_locked k : k_lock_nest k <> 0 -> rt_schedule k = Some (tt, k).
Proof.
  intros H. unfold rt_schedule, kget. unfold mbind, M_bind.
  destruct (Z.eqb_spec (k_lock_nest k) 0); done.
Qed.

(** The general form: the call returns, and either nothing changed or the head of
    the highest ready queue is now the current thread. *)
Lemma rt_schedule_run k cur :
  sched_wf k -> k_current k = Some cur ->
  (k_lock_nest k = 0 -> exists t th, is_ready k t th) ->
  exists k', rt_schedule k = Some (tt, k') /\ sched_wf k' /\
    (k' = k \/ exists p t, k' = switch_to p t k) /\
    (k_lock_nest k <> 0 -> k' = k) /\
    (k_lock_nest k = 0 -> exists p t l, k_current k' = Some t /\
       queue k' (LReady p) = t :: l /\
       forall t' th', is_ready k' t' th' -> p <= th_current_priority th').
Proof.
  intros Hwf Hcur Hex. destruct (decide (k_lock_nest k = 0)) as [Hl|Hl].
  - destruct (highest_ready_run k Hwf (Hex Hl)) as (p & t & l & Hr & Hq & Hmin).
    unfold rt_schedule, kget. unfold mbind, M_bind. rewrite Hl. cbn -[highest_ready].
    rewrite Hr, Hcur. cbn. destruct (decide (cur = t)) as [->|Hne].
    + rewrite bool_decide_true by done. exists k. split; [done|]. split; [done|].
      split; [by left|]. split; [done|]. intros _. by exists p, t, l.
    + rewrite bool_decide_false by congruence. cbn. exists (switch_to p t k).
      split; [done|]. split; [by apply (sched_wf_ext k)|]. split; [right; eauto|].
      split; [done|]. intros _. by exists p, t, l.
  - exists k. rewrite rt_schedule_locked by done.
    split; [done|]. split; [done|]. split; [by left|]. split; [done|]. by intros ?.
Qed.

(** C3. with the scheduler unlocked, [rt_schedule] returns, keeps the invariant and
    leaves as current thread a ready thread whose priority no other ready thread
    exceeds, the one that has been longest at the head of the queue of that priority. *)
Theorem rt_schedule_highest k cur :
  sched_wf k -> k_current k = Some cur -> k_lock_nest k = 0 ->
  (exists t th, is_ready k t th) ->
  exists k' t th l, rt_schedule k = Some (tt, k') /\ sched_wf k' /\
    k_current k' = Some t /\ is_ready k' t th /\
    queue k' (LReady (th_current_priority th)) = t :: l /\
    forall t' th', is_ready k' t' th' -> th_current_priority th <= th_current_priority th'.
Proof.
  intros Hwf Hcur Hl Hex.
  destruct (rt_schedule_run k cur Hwf Hcur (fun _ => Hex)) as (k' & Hr & Hwf' & _ & _ & Hs).
  destruct (Hs Hl) as (p & t & l & Hc & Hq & Hmin).
  destruct (wf_ready_home k' t p Hwf') as (th & Hrd & Hp); [rewrite Hq; set_solver|].
  exists k', t, th, l. rewrite Hp. done.
Qed.

(** ** Moving threads *)

Lemma sched_only_trans k k1 k2 : sched_only k k1 -> sched_only k1 k2 -> sched_only k k2.
Proof. unfold sched_only. intros E1 ->. rewrite E1. done. Qed.

Lemma same_but_refl t k : same_but t k k.
Proof. split; [done|]. split; [done|]. by destruct k. Qed.

Lemma same_but_trans t k k1 k2 : same_but t k k1 -> same_but t k1 k2 -> same_but t k k2.
Proof.
  intros (E1 & H1 & F1) (E2 & H2 & F2). split; [congruence|].
  split; [|by eapply sched_only_trans]. intros h x Hx. rewrite H2 by done. by apply H1.
Qed.

Lemma relocated_same_but t th home k k0 k' :
  same_but t k k0 -> relocated t th home k0 k' -> relocated t th home k k'.
Proof.
  intros (E & H & F) (Et & Ho & Hh & Hn & Hg & F').
  split; [|split; [|split; [|split; [|split]]]]; try done; [| |by eapply sched_only_trans].
  - rewrite Et. by rewrite <-(insert_delete_eq (k_threads k0)), E, insert_delete_eq.
  - intros h x Hx. rewrite Ho by done. by apply H.
Qed.

Lemma same_but_dequeue t k : same_but t k (dequeue t k).
Proof.
  split; [done|]. split; [|done]. intros h x Hx. rewrite elem_of_dequeue. tauto.
Qed.

Lemma same_but_put_th t th k : same_but t k (put_th t th k).
Proof. split; [cbn; by rewrite delete_insert_eq|]. done. Qed.

Lemma sched_only_ready_remove t th k : sched_only k (ready_remove t th k).
Proof. unfold ready_remove. by destruct (queue (dequeue t k) _). Qed.

Lemma queue_ready_remove t th k h :
  queue (ready_remove t th k) h = filter (fun x => x <> t) (queue k h).
Proof. unfold ready_remove. rewrite <-queue_dequeue. by destruct (queue (dequeue t k) _). Qed.

Lemma threads_ready_remove t th k : k_threads (ready_remove t th k) = k_threads k.
Proof. unfold ready_remove. by destruct (queue (dequeue t k) _). Qed.

Lemma same_but_ready_remove t th k : same_but t k (ready_remove t th k).
Proof.
  split; [by rewrite threads_ready_remove|]. split; [|apply sched_only_ready_remove].
  intros h x Hx. rewrite queue_ready_remove, list_elem_of_filter. tauto.
Qed.

Lemma queue_ready_insert t th k h :
  queue (ready_insert t th k) h =
    if decide (LReady (th_current_priority th) = h) then queue k h ++ [t] else queue k h.
Proof.
  unfold ready_insert. rewrite (queue_ext (put_queue _ _ _) (set_k_group _ _)) by done.
  rewrite queue_put. case_decide; [by subst|]. by rewrite (queue_ext k).
Qed.

Lemma NoDup_snoc (l : list Z) x : NoDup l -> x ∉ l -> NoDup (l ++ [x]).
Proof.
  intros Hl Hx. rewrite list.NoDup_app. split; [done|].
  split; [set_solver|apply NoDup_singleton].
Qed.

(** Inserting an unlinked thread into its ready queue. *)
Lemma relocated_ready_insert t th k :
  (forall h, t ∉ queue k h) -> (forall h, NoDup (queue k h)) -> group_ok k ->
  0 <= th_current_priority th < RT_THREAD_PRIORITY_MAX ->
  th_number_mask th = 2 ^ th_current_priority th ->
  relocated t (set_th_stat RT_THREAD_READY th) (Some (LReady (th_current_priority th)))
    k (ready_insert t th k).
Proof.
  intros Hq Hnd Hg Hth Hm. split; [done|]. split; [|split; [|split; [|split; [|done]]]].
  - intros h x Hx. rewrite queue_ready_insert. case_decide; [|done]. set_solver.
  - intros h. rewrite queue_ready_insert. case_decide; [set_solver|].
    split; [|congruence]. intros Hin. by apply Hq in Hin.
  - intros h. rewrite queue_ready_insert. case_decide; [|done]. by apply NoDup_snoc.
  - by apply group_ok_insert.
Qed.

(** Taking a thread out of the list it is in, with a new control block. *)
Lemma relocated_ready_remove t th th' k :
  sched_wf k -> k_threads k !! t = Some th ->
  th_current_priority th' = th_current_priority th ->
  th_number_mask th' = 2 ^ th_current_priority th ->
  relocated t th' None k (ready_remove t th' (put_th t th' k)).
Proof.
  intros Hwf E Hp Hm.
  assert (Hth : thread_wf th) by (by eapply wf_thread).
  split; [|split; [|split; [|split; [|split]]]].
  - by rewrite threads_ready_remove.
  - intros h x Hx. rewrite queue_ready_remove, (queue_ext k) by done.
    rewrite list_elem_of_filter. tauto.
  - intros h. rewrite queue_ready_remove, list_elem_of_filter. split; [tauto|done].
  - intros h. rewrite queue_ready_remove. apply list.NoDup_filter.
    rewrite (queue_ext k) by done. by apply wf_nodup.
  - destruct Hth as (Hpr & _). apply group_ok_remove.
    + eapply group_ok_queues; [..|apply (wf_group k Hwf)]; done.
    + by rewrite Hp.
    + by rewrite Hp.
    + intros p Hin. rewrite Hp. by eapply wf_at_prio.
  - eapply sched_only_trans; [|apply sched_only_ready_remove]. done.
Qed.
