(* ===== verification/Timer.v ===== *)
(** * Timers (src/src/timer.c)

    The list of active timers, ordered by expiry, with a 32-bit tick that wraps
    around: a time is before another when the difference, taken modulo 2^32, is
    less than half of [RT_TICK_MAX].  The model is the configuration of the board:
    one list ([RT_TIMER_SKIP_LIST_LEVEL] is 1) and no soft timers.  The loop
    that fires timers, [rt_timer_check], is in Clock.v, because what it calls is
    in Thread.v. *)
From S2P Require Import Prelude KService Kernel Object Scheduler.

(** ** Operations *)

Definition tm_active (tm : rt_timer) : bool :=
  negb (Z.land (tm_flag tm) RT_TIMER_FLAG_ACTIVATED =? 0).
Definition tm_periodic (tm : rt_timer) : bool :=
  negb (Z.land (tm_flag tm) RT_TIMER_FLAG_PERIODIC =? 0).
Definition tm_clear_active (tm : rt_timer) : rt_timer :=
  set_tm_flag (Z.land (tm_flag tm) (u8 (Z.lnot RT_TIMER_FLAG_ACTIVATED))) tm.
Definition tm_set_active (tm : rt_timer) : rt_timer :=
  set_tm_flag (Z.lor (tm_flag tm) RT_TIMER_FLAG_ACTIVATED) tm.

(** [_rt_timer_init]: the row node is made a list of its own, so the timer must
    not be linked. *)
Definition rt_timer_init_ (t : tmid) (f : timeout_fn) (time flag : Z) : M unit := fun k =>
  if bool_decide (t ∈ k_timer_list k) then None
  else put_timer t (Timer (Z.land flag (u8 (Z.lnot RT_TIMER_FLAG_ACTIVATED))) f time 0) k.

(** [rt_timer_init]. *)
Definition rt_timer_init (t : tmid) (name : list Z) (f : timeout_fn) (time flag : Z) : M unit :=
  rt_object_init (OTimer t) name;;
  rt_timer_init_ t f time flag.

(** [_rt_timer_remove]. *)
Definition rt_timer_remove (t : tmid) : M unit :=
  kmod (fun k => set_k_timer_list (filter (fun x => x <> t) (k_timer_list k)) k).

(** [rt_timer_list_next_timeout] on the timer list. *)
Definition rt_timer_next_timeout_tick : M Z := fun k =>
  match k_timer_list k with
  | [] => Some (RT_TICK_MAX, k)
  | t :: _ => tm ← k_timers k !! t; Some (tm_timeout_tick tm, k)
  end.

(** [rt_timer_detach]. *)
Definition rt_timer_detach (t : tmid) : M Z :=
  rt_timer_remove t;;
  rt_object_detach (OTimer t);;
  mret (- RT_EOK).

(** The search for the position and the insertion of [rt_timer_start]: after the
    timers that expire before or at the same time. *)
Fixpoint timer_insert (tms : gmap tmid rt_timer) (n : tmid) (timeout : Z) (l : list tmid)
    : option (list tmid) :=
  match l with
  | [] => Some [n]
  | t :: l' =>
      tm ← tms !! t;
      let d := u32 (tm_timeout_tick tm - timeout) in
      if d =? 0 then l'' ← timer_insert tms n timeout l'; Some (t :: l'')
      else if d <? RT_TICK_HALF then Some (n :: t :: l')
      else l'' ← timer_insert tms n timeout l'; Some (t :: l'')
  end.

(** Links the row node of a timer that is not linked. *)
Definition timer_link (t : tmid) : M unit := fun k =>
  tm ← k_timers k !! t;
  if bool_decide (t ∈ k_timer_list k) then None
  else l ← timer_insert (k_timers k) t (tm_timeout_tick tm) (k_timer_list k);
       Some (tt, set_k_timer_list l k).

(** [rt_timer_start]. *)
Definition rt_timer_start (t : tmid) : M Z :=
  tm ← get_timer t;
  if tm_active tm then mret (- RT_ERROR)
  else
    rt_assert (tm_init_tick tm <? RT_TICK_HALF);;
    now ← kget k_tick;
    mod_timer t (set_tm_timeout_tick (u32 (now + tm_init_tick tm)));;
    kmod (fun k => set_k_random_nr (u32 (k_random_nr k + 1)) k);;
    timer_link t;;
    mod_timer t tm_set_active;;
    mret (- RT_EOK).

(** [rt_timer_stop]. *)
Definition rt_timer_stop (t : tmid) : M Z :=
  tm ← get_timer t;
  if tm_active tm then
    rt_timer_remove t;;
    mod_timer t tm_clear_active;;
    mret RT_EOK
  else mret (- RT_ERROR).

(** [rt_timer_control]: the command with the value its argument points to; the
    second result is that value afterwards. *)
Inductive timer_cmd :=
  | RT_TIMER_CTRL_SET_TIME | RT_TIMER_CTRL_GET_TIME
  | RT_TIMER_CTRL_SET_ONESHOT | RT_TIMER_CTRL_SET_PERIODIC.

Definition rt_timer_control (t : tmid) (cmd : timer_cmd) (arg : Z) : M (Z * Z) :=
  match cmd with
  | RT_TIMER_CTRL_GET_TIME => tm ← get_timer t; mret (RT_EOK, tm_init_tick tm)
  | RT_TIMER_CTRL_SET_TIME => mod_timer t (set_tm_init_tick (u32 arg));; mret (RT_EOK, arg)
  | RT_TIMER_CTRL_SET_ONESHOT =>
      mod_timer t (fun tm => set_tm_flag
        (Z.land (tm_flag tm) (u8 (Z.lnot RT_TIMER_FLAG_PERIODIC))) tm);; mret (RT_EOK, arg)
  | RT_TIMER_CTRL_SET_PERIODIC =>
      mod_timer t (fun tm => set_tm_flag (Z.lor (tm_flag tm) RT_TIMER_FLAG_PERIODIC) tm);;
      mret (RT_EOK, arg)
  end.

(** [rt_system_timer_init]. *)
Definition rt_system_timer_init : M unit := kmod (set_k_timer_list []).

(** The sequence every timed wait of a thread starts with: the time of its own
    timer is set and the timer started. *)
Definition start_thread_timer (t time : Z) : M unit :=
  rt_timer_control (TmThread t) RT_TIMER_CTRL_SET_TIME time;;
  rt_timer_start (TmThread t);;
  mret tt.

(** The effects of a start and of a stop on the state. *)
Definition timer_start_eff (t : tmid) (tm : rt_timer) (l : list tmid) (k : kstate) : kstate :=
  set_k_timers (<[t := tm_set_active
      (set_tm_timeout_tick (u32 (k_tick k + tm_init_tick tm)) tm)]> (k_timers k))
    (set_k_timer_list l (set_k_random_nr (u32 (k_random_nr k + 1)) k)).
Definition timer_stop_eff (t : tmid) (k : kstate) : kstate :=
  match k_timers k !! t with
  | Some tm =>
      if tm_active tm then
        set_k_timers (<[t := tm_clear_active tm]> (k_timers k))
          (set_k_timer_list (filter (fun x => x <> t) (k_timer_list k)) k)
      else k
  | None => k
  end.

(** ** The invariant *)

(** Ticks until a timer expires. *)
Definition delta (now : Z) (tm : rt_timer) : Z := u32 (tm_timeout_tick tm - now).

(** The timers of the list expire in order. *)
Fixpoint timers_sorted (tms : gmap tmid rt_timer) (now : Z) (l : list tmid) : Prop :=
  match l with
  | [] => True
  | t :: l' =>
      (forall t' tm tm', t' ∈ l' -> tms !! t = Some tm -> tms !! t' = Some tm' ->
         delta now tm <= delta now tm') /\ timers_sorted tms now l'
  end.

(** Periodic timers have a period, and the timers of the application call
    functions of the application. *)
Definition timer_ok (x : tmid) (tm : rt_timer) : Prop :=
  (tm_periodic tm = true -> 1 <= tm_init_tick tm < RT_TICK_HALF) /\
  (forall a t, x = TmUser a -> tm_func tm <> rt_thread_timeout_fn t).

(** The invariant seen from the tick [b]: every active timer expires less than
    [bd] ticks after it. *)
Record timer_wf_at (b bd : Z) (k : kstate) : Prop := {
  tw_tick : 0 <= k_tick k < 4294967296;
  tw_nodup : NoDup (k_timer_list k);
  tw_listed : forall t, t ∈ k_timer_list k -> exists tm, k_timers k !! t = Some tm /\
    tm_active tm = true /\ delta b tm < bd;
  tw_sorted : timers_sorted (k_timers k) b (k_timer_list k);
  (** every thread has its own one-shot timer, which wakes it *)
  tw_thread : forall t th, k_threads k !! t = Some th -> exists tm,
    k_timers k !! TmThread t = Some tm /\ tm_func tm = rt_thread_timeout_fn t /\
    tm_periodic tm = false /\ 0 <= tm_flag tm < 256;
  (** the timer of a thread runs only while the thread waits *)
  tw_waiting : forall t, TmThread t ∈ k_timer_list k -> exists th,
    k_threads k !! t = Some th /\ th_stat th = RT_THREAD_SUSPEND;
  tw_active : forall t th tm, k_threads k !! t = Some th -> k_timers k !! TmThread t = Some tm ->
    th_stat th <> RT_THREAD_CLOSE -> tm_active tm = true -> TmThread t ∈ k_timer_list k;
  tw_ok : forall x tm, k_timers k !! x = Some tm -> timer_ok x tm
}.

(** Between ticks: from the current tick, and within half of the range. *)
Definition timer_wf (k : kstate) : Prop := timer_wf_at (k_tick k) RT_TICK_HALF k.

(** When a timer that expires [dn] ticks after [b] may be started. *)
Definition startable (bd dn : Z) : Prop :=
  0 <= dn < bd /\ bd <= RT_TICK_HALF + 1 /\ bd <= RT_TICK_HALF + dn.

(** ** Lemmas *)

(** The comparison of the code orders expiries that lie in the coming half of
    the tick range. *)
Lemma u32_sub_order (a b now : Z) :
  let da := u32 (a - now) in
  let db := u32 (b - now) in
  let d := u32 (a - b) in
  da <= RT_TICK_HALF -> db <= RT_TICK_HALF -> da - db < RT_TICK_HALF ->
  (d = 0 <-> da = db) /\ (d <> 0 -> d < RT_TICK_HALF -> db < da) /\
  (d <> 0 -> ~ d < RT_TICK_HALF -> da < db).
Proof. cbv zeta. intros. repeat split; mlia. Qed.

Lemma timer_insert_spec tms b bd n timeout l :
  startable bd (u32 (timeout - b)) ->
  (forall t, t ∈ l -> exists tm, tms !! t = Some tm /\ delta b tm < bd) ->
  timers_sorted tms b l ->
  exists l1 l2, l = l1 ++ l2 /\ timer_insert tms n timeout l = Some (l1 ++ n :: l2) /\
    (forall t tm, t ∈ l1 -> tms !! t = Some tm -> delta b tm <= u32 (timeout - b)) /\
    (forall t tm, t ∈ l2 -> tms !! t = Some tm -> u32 (timeout - b) < delta b tm).
Proof.
  intros (Hn & Hbd & Hbd'). induction l as [|t l IH]; intros Hl Hs.
  - exists [], []. split; [done|]. split; [done|]. split; set_solver.
  - destruct (Hl t) as (tm & E & Hd); [set_solver|]. destruct Hs as [Hs1 Hs2].
    unfold delta in Hd.
    destruct (u32_sub_order (tm_timeout_tick tm) timeout b) as (H0 & Hlt & Hgt); [lia..|].
    assert (Hstep : delta b tm <= u32 (timeout - b) ->
      exists l1 l2, t :: l = l1 ++ l2 /\
        (l'' ← timer_insert tms n timeout l; Some (t :: l'')) = Some (l1 ++ n :: l2) /\
        (forall t tm, t ∈ l1 -> tms !! t = Some tm -> delta b tm <= u32 (timeout - b)) /\
        (forall t tm, t ∈ l2 -> tms !! t = Some tm -> u32 (timeout - b) < delta b tm)).
    { intros Hle. destruct IH as (l1 & l2 & -> & Ei & I1 & I2); [set_solver|done|].
      exists (t :: l1), l2. rewrite Ei. split; [done|]. split; [done|]. split; [|done].
      intros t' tm' Ht' Et'. apply elem_of_cons in Ht' as [->|Ht']; [congruence|eauto]. }
    simpl. rewrite E. simpl. unfold delta in *.
    destruct (Z.eqb_spec (u32 (tm_timeout_tick tm - timeout)) 0) as [e|e].
    + apply Hstep. lia.
    + destruct (Z.ltb_spec (u32 (tm_timeout_tick tm - timeout)) RT_TICK_HALF) as [e'|e'].
      * exists [], (t :: l). split; [done|]. split; [done|]. split; [set_solver|].
        intros t' tm' Ht' Et'. specialize (Hlt e e').
        apply elem_of_cons in Ht' as [->|Ht']; [simplify_eq; done|].
        specialize (Hs1 t' tm tm' Ht' E Et'). lia.
      * apply Hstep. apply Z.lt_le_incl, Hgt; [done|lia].
Qed.

Lemma timers_sorted_ext tms tms' now l :
  (forall t, t ∈ l -> tms' !! t = tms !! t) -> timers_sorted tms now l -> timers_sorted tms' now l.
Proof.
  induction l as [|t l IH]; [done|]. intros He [H1 H2]. split.
  - intros t' tm tm' Ht' E E'. rewrite He in E, E' by set_solver. eauto.
  - apply IH; [|done]. intros. apply He. set_solver.
Qed.

Lemma timers_sorted_app tms now l1 n tmn l2 :
  tms !! n = Some tmn -> timers_sorted tms now (l1 ++ l2) ->
  (forall t tm, t ∈ l1 -> tms !! t = Some tm -> delta now tm <= delta now tmn) ->
  (forall t tm, t ∈ l2 -> tms !! t = Some tm -> delta now tmn <= delta now tm) ->
  timers_sorted tms now (l1 ++ n :: l2).
Proof.
  intros En. induction l1 as [|t l1 IH]; simpl; intros Hs H1 H2.
  - split; [|done]. intros. simplify_eq. eauto.
  - destruct Hs as [Hs1 Hs2]. split.
    + intros t' tm tm' Ht' E E'. rewrite elem_of_app, elem_of_cons in Ht'.
      destruct Ht' as [Ht'|[->|Ht']]; [|simplify_eq; apply H1 with t; set_solver|];
        apply (Hs1 t'); set_solver.
    + apply IH; [done| |done]. intros. apply H1 with t0; set_solver.
Qed.

Lemma timers_sorted_filter tms now (P : tmid -> Prop) `{forall x, Decision (P x)} l :
  timers_sorted tms now l -> timers_sorted tms now (filter P l).
Proof.
  induction l as [|t l IH]; [done|]. intros [H1 H2]. rewrite filter_cons.
  case_decide; [|by apply IH]. split; [|by apply IH].
  intros t' tm tm' Ht'. apply list_elem_of_filter in Ht' as [_ Ht']. by apply H1.
Qed.

(** The flags read single bits. *)
Lemma tm_active_bit tm : tm_active tm = Z.testbit (tm_flag tm) 0.
Proof. apply (land_pow2_testbit _ 0). lia. Qed.

Lemma tm_periodic_bit tm : tm_periodic tm = Z.testbit (tm_flag tm) 1.
Proof. apply (land_pow2_testbit _ 1). lia. Qed.

Lemma tm_active_set tm : tm_active (tm_set_active tm) = true.
Proof. rewrite tm_active_bit. unfold tm_set_active, tm_clear_active. cbn [tm_flag set_tm_flag]. rewrite Z.lor_spec. apply orb_true_r. Qed.

Lemma tm_active_clear tm : tm_active (tm_clear_active tm) = false.
Proof. rewrite tm_active_bit. unfold tm_set_active, tm_clear_active. cbn [tm_flag set_tm_flag]. rewrite Z.land_spec. apply andb_false_r. Qed.

Lemma tm_periodic_set tm : tm_periodic (tm_set_active tm) = tm_periodic tm.
Proof. rewrite !tm_periodic_bit. unfold tm_set_active, tm_clear_active. cbn [tm_flag set_tm_flag]. rewrite Z.lor_spec. apply orb_false_r. Qed.

Lemma tm_periodic_clear tm : tm_periodic (tm_clear_active tm) = tm_periodic tm.
Proof. rewrite !tm_periodic_bit. unfold tm_set_active, tm_clear_active. cbn [tm_flag set_tm_flag]. rewrite Z.land_spec. apply andb_true_r. Qed.



(** An inactive timer is not in the list. *)
Lemma tw_not_listed b bd k t tm :
  timer_wf_at b bd k -> k_timers k !! t = Some tm -> tm_active tm = false -> t ∉ k_timer_list k.
Proof.
  intros Hw E Ha Hin. destruct (tw_listed b bd k Hw t Hin) as (tm' & E' & Ha' & _). congruence.
Qed.

Lemma rt_timer_start_run b bd k t tm :
  timer_wf_at b bd k -> k_timers k !! t = Some tm -> tm_active tm = false ->
  tm_init_tick tm < RT_TICK_HALF ->
  startable bd (u32 (k_tick k + tm_init_tick tm - b)) ->
  exists l1 l2, k_timer_list k = l1 ++ l2 /\
    rt_timer_start t k = Some (- RT_EOK, timer_start_eff t tm (l1 ++ t :: l2) k) /\
    (forall x tx, x ∈ l1 -> k_timers k !! x = Some tx ->
       delta b tx <= u32 (k_tick k + tm_init_tick tm - b)) /\
    (forall x tx, x ∈ l2 -> k_timers k !! x = Some tx ->
       u32 (k_tick k + tm_init_tick tm - b) < delta b tx).
Proof.
  intros Hw E Ha Hi Hst. pose proof (tw_not_listed b bd k t tm Hw E Ha) as Hnl.
  set (to := u32 (k_tick k + tm_init_tick tm)).
  assert (Hd : u32 (to - b) = u32 (k_tick k + tm_init_tick tm - b)) by (unfold to; mlia).
  set (tms := <[t := set_tm_timeout_tick to tm]> (k_timers k)).
  assert (Hsame : forall x, x ∈ k_timer_list k -> tms !! x = k_timers k !! x).
  { intros x Hx. unfold tms. rewrite lookup_insert_ne; [done|]. by intros ->. }
  destruct (timer_insert_spec tms b bd t to (k_timer_list k))
    as (l1 & l2 & El & Ei & H1 & H2).
  { by rewrite Hd. }
  { intros x Hx. rewrite Hsame by done.
    destruct (tw_listed b bd k Hw x Hx) as (tx & Ex & _ & Hx'). eauto. }
  { eapply timers_sorted_ext; [|apply (tw_sorted b bd k Hw)]. done. }
  exists l1, l2. split; [done|]. rewrite Hd in H1, H2.
  assert (Hx1 : forall x, x ∈ l1 -> tms !! x = k_timers k !! x)
    by (intros; apply Hsame; rewrite El; set_solver).
  assert (Hx2 : forall x, x ∈ l2 -> tms !! x = k_timers k !! x)
    by (intros; apply Hsame; rewrite El; set_solver).
  split; [|split].
  - unfold rt_timer_start, mod_timer, get_timer, put_timer, timer_link, kget, kmod.
    unfold mbind, M_bind. rewrite E. cbn -[RT_TICK_HALF tm_set_active]. rewrite Ha.
    unfold rt_assert. destruct (Z.ltb_spec (tm_init_tick tm) RT_TICK_HALF); [|lia].
    cbn -[tm_set_active]. rewrite E. cbn -[tm_set_active]. rewrite lookup_insert_eq.
    cbn -[tm_set_active]. rewrite bool_decide_false by done. fold to. fold tms. rewrite Ei.
    cbn -[tm_set_active]. unfold tms. rewrite lookup_insert_eq. cbn -[tm_set_active].
    rewrite insert_insert_eq. done.
  - intros x tx Hx Ex. apply (H1 x); [done|]. by rewrite Hx1.
  - intros x tx Hx Ex. apply (H2 x); [done|]. by rewrite Hx2.
Qed.

Lemma timer_start_wf b bd k t tm l1 l2 :
  timer_wf_at b bd k -> k_timers k !! t = Some tm -> tm_active tm = false ->
  startable bd (u32 (k_tick k + tm_init_tick tm - b)) ->
  k_timer_list k = l1 ++ l2 ->
  (forall x tx, x ∈ l1 -> k_timers k !! x = Some tx ->
     delta b tx <= u32 (k_tick k + tm_init_tick tm - b)) ->
  (forall x tx, x ∈ l2 -> k_timers k !! x = Some tx ->
     u32 (k_tick k + tm_init_tick tm - b) < delta b tx) ->
  (forall u, t = TmThread u -> exists th, k_threads k !! u = Some th /\
     th_stat th = RT_THREAD_SUSPEND) ->
  timer_wf_at b bd (timer_start_eff t tm (l1 ++ t :: l2) k).
Proof.
  intros Hw E Ha Hi El H1 H2 Hth. pose proof (tw_not_listed b bd k t tm Hw E Ha) as Hnl.
  destruct Hi as (Hi & _). destruct Hw as [Q1 Q2 Q3 Q4 Q5 Q6 Q7 Q8].
  set (tm' := tm_set_active (set_tm_timeout_tick (u32 (k_tick k + tm_init_tick tm)) tm)).
  assert (Hd : delta b tm' = u32 (k_tick k + tm_init_tick tm - b)) by (unfold delta; cbn; mlia).
  assert (Hin : forall x, x ∈ l1 ++ t :: l2 <-> x = t \/ x ∈ k_timer_list k)
    by (intros; rewrite El; set_solver).
  assert (Hsame : forall x, x <> t -> <[t := tm']> (k_timers k) !! x = k_timers k !! x)
    by (intros; by rewrite lookup_insert_ne).
  assert (Hne : forall x, x ∈ k_timer_list k -> x <> t) by (by intros x Hx ->).
  split; cbn; fold tm'.
  - done.
  - rewrite El, list.NoDup_app in Q2. rewrite list.NoDup_app, list.NoDup_cons.
    rewrite El in Hnl. set_solver.
  - intros x Hx. apply Hin in Hx as [->|Hx].
    + exists tm'. rewrite lookup_insert_eq. split; [done|]. split; [apply tm_active_set|]. rewrite Hd. lia.
    + rewrite Hsame by auto. by apply Q3.
  - apply timers_sorted_app with tm'; [by rewrite lookup_insert_eq|..].
    + rewrite <-El. eapply timers_sorted_ext; [|exact Q4]. intros. apply Hsame. auto.
    + intros x tx Hx. rewrite Hsame by (apply Hne; rewrite El; set_solver). rewrite Hd. eauto.
    + intros x tx Hx. rewrite Hsame by (apply Hne; rewrite El; set_solver). rewrite Hd.
      intros Ex. apply Z.lt_le_incl. eauto.
  - intros u thu Eu. destruct (Q5 u thu Eu) as (tmu & Etu & F1 & F2 & F3).
    destruct (decide (t = TmThread u)) as [->|Hn].
    + simplify_eq. exists tm'. rewrite lookup_insert_eq. split; [done|]. split; [done|].
      split; [unfold tm'; rewrite tm_periodic_set; by rewrite tm_periodic_bit in *|].
      apply lor_byte_range; unfold RT_TIMER_FLAG_ACTIVATED; cbn; lia.
    + exists tmu. by rewrite Hsame.
  - intros u Hu. apply Hin in Hu as [Hu|Hu]; [by apply Hth|by apply Q6].
  - intros u thu tmu Eu Etu Hs Hac. apply Hin.
    destruct (decide (TmThread u = t)) as [|Hn]; [by left|right].
    rewrite Hsame in Etu by done. by eapply Q7.
  - intros x tx. rewrite lookup_insert. case_decide; [|apply Q8]. intros [= <-]. subst x.
    destruct (Q8 t tm E) as [K1 K2]. split; [unfold tm'; by rewrite tm_periodic_set|done].
Qed.

Lemma rt_timer_stop_run k t tm :
  k_timers k !! t = Some tm ->
  exists r, rt_timer_stop t k = Some (r, timer_stop_eff t k).
Proof.
  intros E. unfold rt_timer_stop, timer_stop_eff, mod_timer, get_timer, put_timer, rt_timer_remove, kmod.
  unfold mbind, M_bind. rewrite E. cbn -[tm_clear_active]. destruct (tm_active tm); [|by eexists].
  cbn -[tm_clear_active]. rewrite E. by eexists.
Qed.

(** After a stop, the timer is neither active nor in the list. *)
Lemma timer_stop_off b bd k t tm :
  timer_wf_at b bd k -> k_timers k !! t = Some tm ->
  t ∉ k_timer_list (timer_stop_eff t k) /\
  exists tm', k_timers (timer_stop_eff t k) !! t = Some tm' /\ tm_active tm' = false.
Proof.
  intros Hw E. unfold timer_stop_eff. rewrite E. destruct (tm_active tm) eqn:Ha; cbn.
  - split; [rewrite list_elem_of_filter; tauto|]. exists (tm_clear_active tm).
    rewrite lookup_insert_eq. split; [done|apply tm_active_clear].
  - split; [by eapply tw_not_listed|]. by exists tm.
Qed.

Lemma timer_stop_wf b bd k t : timer_wf_at b bd k -> timer_wf_at b bd (timer_stop_eff t k).
Proof.
  intros Hw. unfold timer_stop_eff. destruct (k_timers k !! t) as [tm|] eqn:E; [|done].
  destruct (tm_active tm) eqn:Ha; [|done]. destruct Hw as [Q1 Q2 Q3 Q4 Q5 Q6 Q7 Q8].
  assert (Hin : forall x, x ∈ filter (fun x => x <> t) (k_timer_list k) <->
            x <> t /\ x ∈ k_timer_list k) by (intros; by rewrite list_elem_of_filter).
  split; cbn.
  - done.
  - by apply list.NoDup_filter.
  - intros x [Hx Hx']%Hin. rewrite lookup_insert_ne by done. by apply Q3.
  - eapply timers_sorted_ext; [|apply timers_sorted_filter; exact Q4].
    intros x [Hx _]%Hin. by rewrite lookup_insert_ne.
  - intros u thu Eu. destruct (Q5 u thu Eu) as (tmu & Etu & F1 & F2 & F3).
    destruct (decide (t = TmThread u)) as [->|Hn].
    + simplify_eq. exists (tm_clear_active tm). rewrite lookup_insert_eq.
      split; [done|]. split; [done|]. split; [by rewrite tm_periodic_clear|].
      apply land_byte_range; [done|]. apply u8_range.
    + exists tmu. by rewrite lookup_insert_ne.
  - intros u [_ Hu]%Hin. by apply Q6.
  - intros u thu tmu Eu Etu Hs Hac. apply Hin.
    destruct (decide (TmThread u = t)) as [<-|Hn].
    + rewrite lookup_insert_eq in Etu. simplify_eq. by rewrite tm_active_clear in Hac.
    + rewrite lookup_insert_ne in Etu by done. split; [done|]. by eapply Q7.
  - intros x tx. rewrite lookup_insert. case_decide; [|apply Q8]. intros [= <-]. subst x.
    destruct (Q8 t tm E) as [K1 K2]. split; [by rewrite tm_periodic_clear|done].
Qed.

(** The invariant of the timers under a change of one thread whose own timer is
    off, and under changes of the lists of threads. *)
Lemma timer_wf_thread_off b bd k k' t th tm :
  timer_wf_at b bd k -> k_timers k !! TmThread t = Some tm -> tm_active tm = false ->
  is_Some (k_threads k !! t) ->
  k_threads k' = <[t := th]> (k_threads k) -> k_timers k' = k_timers k ->
  k_timer_list k' = k_timer_list k -> k_tick k' = k_tick k -> timer_wf_at b bd k'.
Proof.
  intros Hw E Ha [th0 E0] Et Em El Ek. pose proof (tw_not_listed b bd k _ _ Hw E Ha) as Hnl.
  destruct Hw as [Q1 Q2 Q3 Q4 Q5 Q6 Q7 Q8]. split; rewrite ?Em, ?El, ?Ek; try done.
  - intros u thu Eu. rewrite Et, lookup_insert in Eu. case_decide; [subst; eauto|eauto].
  - intros u Hu. rewrite Et, lookup_insert_ne by (intros ->; done). by apply Q6.
  - intros u thu tmu Eu Etu Hs Hac. rewrite Et, lookup_insert in Eu.
    case_decide; [simplify_eq; congruence|by eapply Q7].
Qed.

(** Nothing but the tick, the timers and the threads matters to the timers. *)
Lemma timer_wf_ext b bd k k' :
  k_threads k' = k_threads k -> k_timers k' = k_timers k ->
  k_timer_list k' = k_timer_list k -> k_tick k' = k_tick k -> timer_wf_at b bd k -> timer_wf_at b bd k'.
Proof.
  destruct k, k'. cbn. intros -> -> -> -> [Q1 Q2 Q3 Q4 Q5 Q6 Q7 Q8].
  split; [exact Q1|exact Q2|exact Q3|exact Q4|exact Q5|exact Q6|exact Q7|exact Q8].
Qed.

(** A waiting thread that keeps waiting. *)
Lemma timer_wf_thread_suspend b bd k k' t th0 th :
  timer_wf_at b bd k -> k_threads k !! t = Some th0 ->
  th_stat th = RT_THREAD_SUSPEND -> th_stat th0 <> RT_THREAD_CLOSE ->
  k_threads k' = <[t := th]> (k_threads k) -> k_timers k' = k_timers k ->
  k_timer_list k' = k_timer_list k -> k_tick k' = k_tick k -> timer_wf_at b bd k'.
Proof.
  intros [Q1 Q2 Q3 Q4 Q5 Q6 Q7 Q8] E0 Hs H0 Et Em El Ek. split; rewrite ?Em, ?El, ?Ek; try done.
  - intros u thu Eu. rewrite Et, lookup_insert in Eu. case_decide; [subst; eauto|eauto].
  - intros u Hu. rewrite Et, lookup_insert. case_decide; [eauto|by apply Q6].
  - intros u thu tmu Eu Etu Hsu Hac. rewrite Et, lookup_insert in Eu.
    case_decide; [simplify_eq; by eapply Q7|by eapply Q7].
Qed.

Lemma startable_now (k : kstate) (i : Z) :
  0 <= k_tick k < 4294967296 -> 0 <= i < RT_TICK_HALF ->
  u32 (k_tick k + i - k_tick k) = i /\ startable RT_TICK_HALF (u32 (k_tick k + i - k_tick k)).
Proof. intros Ht Hi. unfold startable. split; [|split; [|split]]; mlia. Qed.

(** [rt_timer_start] on an inactive timer succeeds, puts it after the active
    timers that expire before it or at the same time and before the others, whatever
    the wrap-around of the tick, and keeps the list well formed. *)
Theorem rt_timer_start_ordered k t tm :
  timer_wf k -> k_timers k !! t = Some tm -> tm_active tm = false ->
  0 <= tm_init_tick tm < RT_TICK_HALF ->
  (forall u, t = TmThread u -> exists th, k_threads k !! u = Some th /\
     th_stat th = RT_THREAD_SUSPEND) ->
  exists k' l1 l2 tm', rt_timer_start t k = Some (- RT_EOK, k') /\ timer_wf k' /\
    k_timer_list k = l1 ++ l2 /\ k_timer_list k' = l1 ++ t :: l2 /\
    k_timers k' !! t = Some tm' /\ delta (k_tick k) tm' = tm_init_tick tm /\
    (forall x tx, x ∈ l1 -> k_timers k !! x = Some tx ->
       delta (k_tick k) tx <= tm_init_tick tm) /\
    (forall x tx, x ∈ l2 -> k_timers k !! x = Some tx ->
       tm_init_tick tm < delta (k_tick k) tx).
Proof.
  intros Hw E Ha Hi Hth. pose proof (tw_tick _ _ k Hw) as Ht.
  destruct (startable_now k _ Ht Hi) as [Hd Hst].
  destruct (rt_timer_start_run _ _ k t tm Hw E Ha ltac:(lia) Hst) as (l1 & l2 & El & Er & H1 & H2).
  pose proof (timer_start_wf _ _ k t tm l1 l2 Hw E Ha Hst El H1 H2 Hth) as Hw'.
  rewrite Hd in H1, H2. do 4 eexists. split; [exact Er|]. split; [exact Hw'|].
  split; [exact El|]. split; [done|]. split; [cbn; apply lookup_insert_eq|].
  split; [unfold delta; cbn; mlia|]. done.
Qed.

(** Stopping the timer that was just started gives back the list of active
    timers there was before. *)
Theorem rt_timer_start_stop k t tm k1 r :
  timer_wf k -> k_timers k !! t = Some tm -> tm_active tm = false ->
  0 <= tm_init_tick tm < RT_TICK_HALF ->
  rt_timer_start t k = Some (r, k1) ->
  exists k2, rt_timer_stop t k1 = Some (RT_EOK, k2) /\ k_timer_list k2 = k_timer_list k.
Proof.
  intros Hw E Ha Hi Hr. pose proof (tw_tick _ _ k Hw) as Ht.
  pose proof (tw_not_listed _ _ k t tm Hw E Ha) as Hnl.
  destruct (startable_now k _ Ht Hi) as [_ Hst].
  destruct (rt_timer_start_run _ _ k t tm Hw E Ha ltac:(lia) Hst) as (l1 & l2 & El & Er & _).
  rewrite Er in Hr. simplify_eq.
  unfold rt_timer_stop, mod_timer, get_timer, put_timer, rt_timer_remove, kmod.
  unfold mbind, M_bind. cbn -[tm_set_active tm_clear_active tm_active].
  rewrite lookup_insert_eq. cbn -[tm_set_active tm_clear_active tm_active].
  rewrite tm_active_set. cbn -[tm_set_active tm_clear_active tm_active].
  rewrite lookup_insert_eq. eexists. split; [done|]. cbn.
  rewrite list.filter_app, filter_cons_False by tauto.
  rewrite !filter_ne_id by (rewrite El in Hnl; set_solver). done.
Qed.
