(* ===== verification/Thread.v ===== *)
(** * Threads (src/src/thread.c)

    Creation, start, suspension, resumption, sleep, priority change and exit of
    threads.  A call that can switch to another thread ends, in the model, at
    that point: its result is [Wait], and the rest of the function is a separate
    definition that runs when the thread is current again.  When [rt_schedule]
    does not switch (the scheduler is locked, or the thread is still the one to
    run) the rest runs at once, as in the code. *)
From S2P Require Import Prelude KService Kernel Object Scheduler Timer.

(** What a blocked call has to go on with: the function, its arguments and the
    local variables that are read after the wait.  For the functions that wait in a
    loop these are the time left to wait and the tick at which the wait started. *)
Inductive frame :=
  | FSleep | FSemTake | FMutexTake | FEventRecv
  | FMbSend (mb value timeout start : Z) | FMbRecv (mb timeout start : Z)
  | FMqRecv (mq size timeout start : Z) | FMpAlloc (mp : Z)
  | FCompletion (cp : Z) | FDqPush (dq ptr size timeout : Z) | FDqPop (dq timeout : Z)
  | FDqPopped (dq ptr size : Z)
  | FPipeRead (pipe size : Z) | FPipeWrite (pipe : Z) (data : list Z) (size : Z).

(** The result of a call that may block. *)
Inductive wait (A : Type) := Ret (a : A) | Wait (f : frame).
Arguments Ret {A} a.
Arguments Wait {A} f.

(** [rt_schedule ()] followed by the rest of the function of thread [t]. *)
Definition schedule_then {A} (t : Z) (f : frame) (rest : M (wait A)) : M (wait A) :=
  rt_schedule;;
  cur ← kget k_current;
  if bool_decide (cur = Some t) then rest else mret (Wait f).

(** [rt_thread_self]. *)
Definition rt_thread_self : M (option Z) := kget k_current.

(** [RT_DEBUG_NOT_IN_INTERRUPT] and [RT_DEBUG_IN_THREAD_CONTEXT] of rtdebug.h. *)
Definition RT_DEBUG_NOT_IN_INTERRUPT : M unit :=
  n ← kget k_int_nest; rt_assert (n =? 0).
Definition RT_DEBUG_IN_THREAD_CONTEXT : M unit :=
  cur ← rt_thread_self;
  rt_assert (bool_decide (is_Some cur));;
  RT_DEBUG_NOT_IN_INTERRUPT.

(** [rt_thread_suspend]. *)
Definition rt_thread_suspend (t : Z) : M Z :=
  th ← get_thread t;
  if negb (th_stat th =? RT_THREAD_READY) then mret (- RT_ERROR)
  else
    mod_thread t (set_th_stat RT_THREAD_SUSPEND);;
    rt_schedule_remove_thread t;;
    mret RT_EOK.

(** [rt_thread_resume]. *)
Definition rt_thread_resume (t : Z) : M Z :=
  th ← get_thread t;
  if negb (th_stat th =? RT_THREAD_SUSPEND) then mret (- RT_ERROR)
  else
    tlist_remove t;;
    rt_timer_stop (TmThread t);;
    rt_schedule_insert_thread t;;
    mret RT_EOK.

(** [rt_thread_timeout]. *)
Definition rt_thread_timeout (t : Z) : M unit :=
  th ← get_thread t;
  rt_assert (th_stat th =? RT_THREAD_SUSPEND);;
  mod_thread t (set_th_error (- RT_ETIMEOUT));;
  tlist_remove t;;
  rt_schedule_insert_thread t;;
  rt_schedule.

(** [_rt_thread_init]: [raw] is what the memory of the control block held. *)
Definition rt_thread_init_ (t : Z) (raw : rt_thread) (name : list Z)
    (entry parameter stack_start stack_size priority tick : Z) : M Z :=
  k_q ← kget (queued t);
  rt_assert (negb k_q);;
  rt_assert (priority <? RT_THREAD_PRIORITY_MAX);;
  put_thread t {|
    th_stat := RT_THREAD_INIT; th_error := RT_EOK;
    th_current_priority := priority; th_init_priority := priority;
    th_number_mask := th_number_mask raw;
    th_event_set := th_event_set raw; th_event_info := th_event_info raw;
    th_init_tick := tick; th_remaining_tick := tick;
    th_entry := entry; th_parameter := parameter;
    th_stack_addr := stack_start; th_stack_size := u16 stack_size;
    th_cleanup := None; th_user_data := 0 |};;
  rt_timer_init (TmThread t) name (rt_thread_timeout_fn t) 0 RT_TIMER_FLAG_ONE_SHOT;;
  mret RT_EOK.

(** [rt_thread_init]; the stack itself, which the source fills, is not part of the model. *)
Definition rt_thread_init (t : Z) (raw : rt_thread) (name : list Z)
    (entry parameter stack_start stack_size priority tick : Z) : M Z :=
  rt_assert (negb (stack_start =? 0));;
  rt_object_init (OThread t) name;;
  rt_thread_init_ t raw name entry parameter stack_start stack_size priority tick.

(** [rt_thread_startup]. *)
Definition rt_thread_startup (t : Z) : M Z :=
  th ← get_thread t;
  rt_assert (th_stat th =? RT_THREAD_INIT);;
  mod_thread t (fun th => set_th_current_priority (th_init_priority th) th);;
  mod_thread t (fun th => set_th_number_mask (u32 (Z.shiftl 1 (th_current_priority th))) th);;
  mod_thread t (set_th_stat RT_THREAD_SUSPEND);;
  rt_thread_resume t;;
  cur ← rt_thread_self;
  (if bool_decide (is_Some cur) then rt_schedule else mret tt);;
  mret RT_EOK.

(** [rt_thread_detach]. *)
Definition rt_thread_detach (t : Z) : M Z :=
  rt_schedule_remove_thread t;;
  rt_timer_detach (TmThread t);;
  mod_thread t (set_th_stat RT_THREAD_CLOSE);;
  rt_object_detach (OThread t);;
  th ← get_thread t;
  (if bool_decide (is_Some (th_cleanup th)) then tlist_insert_after LDefunct t else mret tt);;
  mret RT_EOK.

(** [rt_thread_delete]. *)
Definition rt_thread_delete (t : Z) : M Z :=
  rt_schedule_remove_thread t;;
  rt_timer_detach (TmThread t);;
  mod_thread t (set_th_stat RT_THREAD_CLOSE);;
  tlist_insert_after LDefunct t;;
  mret RT_EOK.

(** [rt_thread_exit], which a thread returns to when its entry function ends. *)
Definition rt_thread_exit : M unit :=
  cur ← rt_thread_self;
  t ← deref cur;
  rt_schedule_remove_thread t;;
  mod_thread t (set_th_stat RT_THREAD_CLOSE);;
  rt_timer_detach (TmThread t);;
  sys ← rt_object_is_systemobject (OThread t);
  th ← get_thread t;
  (if sys && bool_decide (th_cleanup th = None) then rt_object_detach (OThread t)
   else tlist_insert_after LDefunct t);;
  rt_schedule.

(** [rt_thread_yield]. *)
Definition rt_thread_yield : M Z :=
  cur ← rt_thread_self;
  t ← deref cur;
  th ← get_thread t;
  shared ← kget (tlist_shared t);
  if (th_stat th =? RT_THREAD_READY) && shared then
    tlist_remove t;;
    h ← ready_head (th_current_priority th);
    tlist_insert_before h t;;
    rt_schedule;;
    mret RT_EOK
  else mret RT_EOK.

(** [rt_thread_sleep] after it has been scheduled again. *)
Definition rt_thread_sleep_resume (t : Z) : M Z :=
  th ← get_thread t;
  (if th_error th =? - RT_ETIMEOUT then mod_thread t (set_th_error RT_EOK) else mret tt);;
  mret RT_EOK.

(** [rt_thread_sleep], and [rt_thread_delay] which calls it. *)
Definition rt_thread_sleep (tick : Z) : M (wait Z) :=
  cur ← rt_thread_self;
  t ← deref cur;
  rt_thread_suspend t;;
  start_thread_timer t tick;;
  schedule_then t FSleep (r ← rt_thread_sleep_resume t; mret (Ret r)).
Definition rt_thread_delay (tick : Z) : M (wait Z) := rt_thread_sleep tick.

(** The [RT_THREAD_CTRL_CHANGE_PRIORITY] command of [rt_thread_control]. *)
Definition change_priority (t prio : Z) : M unit :=
  th ← get_thread t;
  let set := mod_thread t (fun th => set_th_number_mask (u32 (Z.shiftl 1 (u8 prio)))
                                       (set_th_current_priority (u8 prio) th)) in
  if th_stat th =? RT_THREAD_READY then
    rt_schedule_remove_thread t;;
    set;;
    rt_schedule_insert_thread t
  else set.

Inductive thread_cmd :=
  | RT_THREAD_CTRL_STARTUP | RT_THREAD_CTRL_CLOSE
  | RT_THREAD_CTRL_CHANGE_PRIORITY (prio : Z) | RT_THREAD_CTRL_OTHER.

(** [rt_thread_control]. *)
Definition rt_thread_control (t : Z) (cmd : thread_cmd) : M Z :=
  match cmd with
  | RT_THREAD_CTRL_CHANGE_PRIORITY prio => change_priority t prio;; mret RT_EOK
  | RT_THREAD_CTRL_STARTUP => rt_thread_startup t
  | RT_THREAD_CTRL_CLOSE => rt_thread_delete t
  | RT_THREAD_CTRL_OTHER => mret RT_EOK
  end.

(** [rt_object_find]: the type is checked against the last class only, the
    container has one list less. *)
Definition rt_object_find (name : list Z) (type : Z) : M (option oid) :=
  if RT_Object_Class_Unknown <? type then mret None
  else
    n ← kget k_int_nest;
    rt_assert (n =? 0);;
    rt_enter_critical;;
    rt_assert ((0 <=? type) && (type <? RT_Object_Class_Unknown));;
    objs ← kget k_objs;
    l ← kget (fun k => objects k type);
    r ← deref (find_by_name objs name l);
    rt_exit_critical;;
    mret r.

(** [rt_thread_find]. *)
Definition rt_thread_find (name : list Z) : M (option oid) :=
  cur ← rt_thread_self;
  (if bool_decide (is_Some cur) then rt_enter_critical else mret tt);;
  objs ← kget k_objs;
  l ← kget (fun k => objects k 0);
  r ← deref (find_by_name objs name l);
  (if bool_decide (is_Some cur) then rt_exit_critical else mret tt);;
  mret r.

(** ** The invariant of the kernel core *)

Definition kinv_at (b bd : Z) (k : kstate) : Prop := sched_wf k /\ timer_wf_at b bd k.
Definition kinv (k : kstate) : Prop := sched_wf k /\ timer_wf k.

(** With the idle thread [idle] ready and a current thread. *)
Record core0 (b bd idle : Z) (k : kstate) : Prop := {
  c_inv : kinv_at b bd k;
  c_idle : exists th, is_ready k idle th;
  c_some : is_Some (k_current k)
}.
(** What holds whenever a thread runs: the current thread is ready. *)
Record core (b bd idle : Z) (k : kstate) : Prop := {
  c_core0 : core0 b bd idle k;
  c_cur : exists c th, k_current k = Some c /\ is_ready k c th
}.

Arguments c_inv {b bd idle k} _.
Arguments c_idle {b bd idle k} _.
Arguments c_some {b bd idle k} _.
Arguments c_core0 {b bd idle k} _.
Arguments c_cur {b bd idle k} _.

(** [k] with the threads, their lists and timers and the current thread of [k']. *)
Definition with_core (k' k : kstate) : kstate :=
  KState (k_threads k') (k_queues k') (k_group k') (k_current k') (k_current_priority k')
    (k_lock_nest k) (k_int_nest k) (k_tick k) (k_timers k') (k_timer_list k') (k_random_nr k')
    (k_objs k) (k_container k) (k_sems k) (k_mutexes k) (k_events k) (k_mbs k) (k_mqs k) (k_mps k)
    (k_devs k) (k_comps k) (k_dqs k) (k_serials k) (k_pipes k) (k_errno k).
(** Only those fields differ. *)
Definition core_only (k k' : kstate) : Prop := k' = with_core k' k.

(** The effect of changing the priority of a ready thread. *)
Definition set_prio (prio : Z) (th : rt_thread) : rt_thread :=
  set_th_number_mask (u32 (Z.shiftl 1 (u8 prio))) (set_th_current_priority (u8 prio) th).

(** The effects of suspending and resuming a thread. *)
Definition suspend_eff (t : Z) (th : rt_thread) (k : kstate) : kstate :=
  let th' := set_th_stat RT_THREAD_SUSPEND th in ready_remove t th' (put_th t th' k).
Definition resume_eff (t : Z) (th : rt_thread) (k : kstate) : kstate :=
  ready_insert t th (dequeue t (timer_stop_eff (TmThread t) k)).

(** The control block [rt_thread_startup] resumes. *)
Definition started (th : rt_thread) : rt_thread :=
  set_th_stat RT_THREAD_SUSPEND
    (set_th_number_mask (u32 (Z.shiftl 1 (th_init_priority th)))
       (set_th_current_priority (th_init_priority th) th)).

(** ** Lemmas *)

(** A thread that is not waiting has its timer off. *)
Lemma timer_off b bd k t th :
  kinv_at b bd k -> k_threads k !! t = Some th ->
  th_stat th <> RT_THREAD_SUSPEND -> th_stat th <> RT_THREAD_CLOSE ->
  exists tm, k_timers k !! TmThread t = Some tm /\ tm_active tm = false /\
    tm_func tm = rt_thread_timeout_fn t /\ tm_periodic tm = false /\ 0 <= tm_flag tm < 256.
Proof.
  intros [_ Hw] E Hs Hc. destruct (tw_thread _ _ k Hw t th E) as (tm & Em & F).
  exists tm. split; [done|]. split; [|done]. destruct (tm_active tm) eqn:Ha; [|done].
  pose proof (tw_active _ _ k Hw t th tm E Em Hc Ha) as Hin.
  destruct (tw_waiting _ _ k Hw t Hin) as (th' & E' & Hs'). congruence.
Qed.

Lemma timer_stop_frame t k :
  k_threads (timer_stop_eff t k) = k_threads k /\ k_queues (timer_stop_eff t k) = k_queues k /\
  k_group (timer_stop_eff t k) = k_group k /\ k_tick (timer_stop_eff t k) = k_tick k.
Proof.
  unfold timer_stop_eff. destruct (k_timers k !! t); [|done]. by destruct (tm_active _).
Qed.

Lemma timer_stop_sched t k : sched_wf k -> sched_wf (timer_stop_eff t k).
Proof. destruct (timer_stop_frame t k) as (E1 & E2 & E3 & _). by apply sched_wf_ext. Qed.

Lemma timer_stop_dequeue u t k : timer_stop_eff u (dequeue t k) = dequeue t (timer_stop_eff u k).
Proof.
  unfold timer_stop_eff. cbn. destruct (k_timers k !! u); [|done]. by destruct (tm_active _).
Qed.

Lemma READY_not_SUSPEND : RT_THREAD_READY <> RT_THREAD_SUSPEND.
Proof. done. Qed.

Lemma thread_wf_stat th s :
  thread_wf th -> th_stat th <> RT_THREAD_INIT ->
  (s = RT_THREAD_READY \/ s = RT_THREAD_SUSPEND \/ s = RT_THREAD_CLOSE) ->
  thread_wf (set_th_stat s th).
Proof. intros (H1 & H2 & H3 & H4) Hn Hs. split; [done|]. split; [done|]. cbn. tauto. Qed.

Lemma thread_wf_mask th :
  thread_wf th -> th_stat th <> RT_THREAD_INIT ->
  0 <= th_current_priority th < RT_THREAD_PRIORITY_MAX /\
  th_number_mask th = 2 ^ th_current_priority th.
Proof. intros (H1 & H2 & H3 & H4) Hn. auto. Qed.

(** Suspending a ready thread. *)
Lemma rt_thread_suspend_run k t th :
  sched_wf k -> is_ready k t th ->
  rt_thread_suspend t k = Some (RT_EOK, suspend_eff t th k) /\
  relocated t (set_th_stat RT_THREAD_SUSPEND th) None k (suspend_eff t th k).
Proof.
  intros Hwf [E Hs]. pose proof (wf_thread k Hwf t th E) as Hth.
  destruct (thread_wf_mask th Hth) as [Hp Hm]; [by rewrite Hs|]. split.
  - unfold rt_thread_suspend, mod_thread, get_thread, put_thread, kmod.
    unfold mbind, M_bind. rewrite E. cbn -[rt_schedule_remove_thread]. rewrite Hs.
    cbn -[rt_schedule_remove_thread]. rewrite E. cbn -[rt_schedule_remove_thread].
    rewrite (rt_schedule_remove_thread_run t (set_th_stat RT_THREAD_SUSPEND th)).
    + done.
    + cbn. by rewrite lookup_insert_eq.
    + done.
  - by apply relocated_ready_remove with th.
Qed.

Lemma suspend_eff_inv b bd k t th :
  kinv_at b bd k -> is_ready k t th -> kinv_at b bd (suspend_eff t th k).
Proof.
  intros Hk Hr. pose proof Hk as [Hwf Hw]. pose proof Hr as [E Hs].
  destruct (rt_thread_suspend_run k t th Hwf Hr) as [_ Hrel].
  pose proof (wf_thread k Hwf t th E) as Hth. split.
  - eapply relocated_wf; [done|exact Hrel|..].
    + apply thread_wf_stat; [done|by rewrite Hs|auto].
    + done.
    + done.
  - destruct (timer_off b bd k t th Hk E) as (tm & Em & Ha & _); [by rewrite Hs..|].
    destruct Hrel as (Et & _ & _ & _ & _ & F).
    eapply timer_wf_thread_off; [exact Hw|exact Em|done|eauto|exact Et|..];
      unfold sched_only in F; rewrite F; done.
Qed.

(** Resuming a waiting thread. *)
Lemma resume_eff_relocated b bd k t th :
  kinv_at b bd k -> k_threads k !! t = Some th -> th_stat th = RT_THREAD_SUSPEND ->
  relocated t (set_th_stat RT_THREAD_READY th) (Some (LReady (th_current_priority th)))
    (timer_stop_eff (TmThread t) k) (resume_eff t th k).
Proof.
  intros [Hwf Hw] E Hs. set (k1 := timer_stop_eff (TmThread t) k).
  assert (Hwf1 : sched_wf k1) by (by apply timer_stop_sched).
  destruct (timer_stop_frame (TmThread t) k) as (E1 & E2 & E3 & _). fold k1 in E1, E2, E3.
  pose proof (wf_thread k Hwf t th E) as Hth.
  destruct (thread_wf_mask th Hth) as [Hp Hm]; [by rewrite Hs|].
  eapply relocated_same_but; [apply same_but_dequeue|]. apply relocated_ready_insert.
  - intros h. rewrite elem_of_dequeue. tauto.
  - intros h. rewrite queue_dequeue. apply list.NoDup_filter. by apply wf_nodup.
  - assert (E1' : k_threads k1 !! t = Some th) by (by rewrite E1).
    eapply group_ok_queues; [| |apply (wf_group k1 Hwf1)]; [done|].
    intros p. rewrite queue_dequeue. apply filter_ne_id.
    eapply wf_not_ready; [done|exact E1'|]. by rewrite Hs.
  - done.
  - done.
Qed.

Lemma rt_thread_resume_run b bd k t th :
  kinv_at b bd k -> k_threads k !! t = Some th -> th_stat th = RT_THREAD_SUSPEND ->
  rt_thread_resume t k = Some (RT_EOK, resume_eff t th k).
Proof.
  intros [Hwf Hw] E Hs. pose proof (wf_thread k Hwf t th E) as (Hp & _).
  destruct (tw_thread _ _ k Hw t th E) as (tm & Em & _).
  unfold rt_thread_resume, get_thread, tlist_remove, kmod. unfold mbind, M_bind.
  rewrite E. cbn -[rt_timer_stop rt_schedule_insert_thread]. rewrite Hs.
  cbn -[rt_timer_stop rt_schedule_insert_thread]. fold (dequeue t k).
  destruct (rt_timer_stop_run (dequeue t k) (TmThread t) tm) as [r ->]; [done|].
  rewrite timer_stop_dequeue.
  rewrite (rt_schedule_insert_thread_run t th).
  - done.
  - cbn. by rewrite (proj1 (timer_stop_frame _ _)).
  - done.
  - intros h. rewrite elem_of_dequeue. tauto.
Qed.

Lemma resume_eff_inv b bd k t th :
  kinv_at b bd k -> k_threads k !! t = Some th -> th_stat th = RT_THREAD_SUSPEND ->
  kinv_at b bd (resume_eff t th k).
Proof.
  intros Hk E Hs. pose proof Hk as [Hwf Hw].
  pose proof (resume_eff_relocated b bd k t th Hk E Hs) as Hrel.
  pose proof (wf_thread k Hwf t th E) as Hth.
  destruct (timer_stop_frame (TmThread t) k) as (E1 & E2 & E3 & _). split.
  - eapply relocated_wf; [by apply timer_stop_sched|exact Hrel|..].
    + apply thread_wf_stat; [done|by rewrite Hs|auto].
    + by intros h [= <-].
    + done.
  - destruct (tw_thread _ _ k Hw t th E) as (tm & Em & _).
    destruct (timer_stop_off b bd k (TmThread t) tm Hw Em) as (_ & tm' & Em' & Ha').
    destruct Hrel as (Et & _ & _ & _ & _ & F).
    eapply timer_wf_thread_off; [apply timer_stop_wf, Hw|exact Em'|done| |exact Et|..];
      [rewrite E1; eauto|unfold sched_only in F; rewrite F; done..].
Qed.

(** Choosing another current thread keeps the invariant. *)
Lemma kinv_switch b bd p t k : kinv_at b bd k -> kinv_at b bd (switch_to p t k).
Proof. intros [H1 H2]. split; [by apply (sched_wf_ext k)|by apply (timer_wf_ext b bd k)]. Qed.

Lemma rt_schedule_inv b bd k cur :
  kinv_at b bd k -> k_current k = Some cur ->
  (k_lock_nest k = 0 -> exists t th, is_ready k t th) ->
  exists k', rt_schedule k = Some (tt, k') /\ kinv_at b bd k' /\
    (k' = k \/ exists p t, k' = switch_to p t k).
Proof.
  intros Hk Hc Hr. destruct (rt_schedule_run k cur (proj1 Hk) Hc Hr) as (k' & E & _ & Hor & _).
  exists k'. split; [done|]. split; [|done].
  destruct Hor as [->|(p & t & ->)]; [done|by apply kinv_switch].
Qed.

(** A relocation of a thread whose timer is off keeps the whole invariant. *)
Lemma relocated_inv b bd k k' t th th0 tm home :
  kinv_at b bd k -> k_threads k !! t = Some th0 ->
  k_timers k !! TmThread t = Some tm -> tm_active tm = false ->
  relocated t th home k k' -> thread_wf th ->
  (forall h, home = Some h -> home_ok h th) ->
  (th_stat th = RT_THREAD_READY -> home = Some (LReady (th_current_priority th))) ->
  kinv_at b bd k'.
Proof.
  intros [Hwf Hw] E Em Ha Hrel Hth Hh Hrd. split; [by eapply relocated_wf|].
  destruct Hrel as (Et & _ & _ & _ & _ & F). unfold sched_only in F.
  eapply timer_wf_thread_off; [exact Hw|exact Em|done|eauto|exact Et|..]; rewrite F; done.
Qed.

(** A thread that has just been put in its ready queue is ready. *)
Lemma ready_insert_ready t th k : is_ready (ready_insert t th k) t (set_th_stat RT_THREAD_READY th).
Proof. split; [|done]. cbn. apply lookup_insert_eq. Qed.

Lemma mask_pow2 p :
  0 <= p < RT_THREAD_PRIORITY_MAX -> u32 (Z.shiftl 1 p) = 2 ^ p.
Proof.
  intros Hp. rewrite Z.shiftl_1_l. apply u32_id. apply pow2_range. plia.
Qed.

(** The thread and its lists after a relocation that leaves it out of all lists
    but ready. *)
Lemma relocated_insert t th k :
  sched_wf k -> is_Some (k_threads k !! t) ->
  (forall p, t ∉ queue k (LReady p)) ->
  0 <= th_current_priority th < RT_THREAD_PRIORITY_MAX ->
  th_number_mask th = 2 ^ th_current_priority th ->
  relocated t (set_th_stat RT_THREAD_READY th) (Some (LReady (th_current_priority th)))
    k (ready_insert t th (dequeue t (put_th t th k))).
Proof.
  intros Hwf _ Hnr Hp Hm.
  eapply relocated_same_but; [apply same_but_put_th|].
  eapply relocated_same_but; [apply same_but_dequeue|]. apply relocated_ready_insert; try done.
  - intros h. rewrite elem_of_dequeue. tauto.
  - intros h. rewrite queue_dequeue. apply list.NoDup_filter. by apply (wf_nodup k).
  - eapply group_ok_queues; [| |apply (wf_group k Hwf)]; [done|].
    intros p. rewrite queue_dequeue, (queue_ext k) by done. apply filter_ne_id. apply Hnr.
Qed.

(** [rt_thread_timeout] on a waiting thread. *)
Lemma rt_thread_timeout_run k t th :
  k_threads k !! t = Some th -> th_stat th = RT_THREAD_SUSPEND ->
  0 <= th_current_priority th < RT_THREAD_PRIORITY_MAX ->
  let th' := set_th_error (- RT_ETIMEOUT) th in
  rt_thread_timeout t k = rt_schedule (ready_insert t th' (dequeue t (put_th t th' k))).
Proof.
  intros E Hs Hp th'. unfold rt_thread_timeout. mstep. rewrite Hs. do 3 mstep.
  by rewrite (bind_run _ _ _ _ _ (rt_schedule_insert_thread_run t th' _ (lookup_insert_eq _ _ _) Hp
    (fun h Hin => proj1 (proj1 (elem_of_dequeue _ _ _ _) Hin) eq_refl))).
Qed.

(** The choice of the thread to run does not read the timers. *)
Lemma rt_schedule_timers v k k' :
  rt_schedule k = Some (tt, k') -> rt_schedule (set_k_timers v k) = Some (tt, set_k_timers v k').
Proof.
  unfold rt_schedule, highest_ready, ready_head, list_first, kget, kmod.
  unfold mbind, M_bind, mret, M_ret, stuck, deref. cbn -[queue].
  destruct (k_lock_nest k =? 0); [|by intros [= <-]]. destruct (_ && _); [|done].
  rewrite (queue_ext k (set_k_timers v k)) by done. destruct (queue k _); [done|].
  cbn. destruct (bool_decide _); [by intros [= <-]|].
  destruct (k_current k); [by intros [= <-]|done].
Qed.

Lemma init_unlinked k t th h :
  sched_wf k -> k_threads k !! t = Some th -> th_stat th = RT_THREAD_INIT -> t ∉ queue k h.
Proof.
  intros Hwf E Hs Hin. destruct (wf_home k Hwf h t Hin) as (th' & E' & Hok).
  assert (th' = th) by congruence. subst.
  destruct h; cbn in Hok; [destruct Hok as [Hok _]|..]; rewrite Hs in Hok; done.
Qed.

Lemma start_state_inv b bd k t th :
  kinv_at b bd k -> k_threads k !! t = Some th -> th_stat th = RT_THREAD_INIT ->
  kinv_at b bd (put_th t (started th) k).
Proof.
  intros Hk E Hs. pose proof Hk as [Hwf Hw].
  destruct (timer_off b bd k t th Hk E) as (tm & Em & Ha & _); [by rewrite Hs..|].
  pose proof (wf_thread k Hwf t th E) as (Hp & Hip & _).
  eapply (relocated_inv b bd k _ t (started th) th tm None); try done.
  - split; [done|]. split; [done|]. split; [|split; [|split]].
    + intros h. rewrite (queue_ext k) by done. split; [|done]. intros Hin.
      by eapply init_unlinked in Hin.
    + intros h. rewrite (queue_ext k) by done. by apply wf_nodup.
    + eapply group_ok_queues; [..|apply (wf_group k Hwf)]; done.
    + done.
  - split; [done|]. split; [done|]. split; [auto|]. intros _. cbn. by apply mask_pow2.
Qed.

Lemma rt_thread_startup_inv b bd k t th :
  kinv_at b bd k -> k_threads k !! t = Some th -> th_stat th = RT_THREAD_INIT ->
  exists k1 k', k1 = resume_eff t (started th) (put_th t (started th) k) /\ kinv_at b bd k1 /\
    rt_thread_startup t k = Some (RT_EOK, k') /\ kinv_at b bd k' /\
    (k' = k1 \/ exists p u, k' = switch_to p u k1).
Proof.
  intros Hk E Hs. pose proof (start_state_inv b bd k t th Hk E Hs) as Hk0.
  set (k0 := put_th t (started th) k) in *.
  assert (E0 : k_threads k0 !! t = Some (started th)) by (cbn; apply lookup_insert_eq).
  set (k1 := resume_eff t (started th) k0).
  pose proof (resume_eff_inv b bd k0 t (started th) Hk0 E0 eq_refl) as Hk1. fold k1 in Hk1.
  pose proof (rt_thread_resume_run b bd k0 t (started th) Hk0 E0 eq_refl) as Hr. fold k1 in Hr.
  assert (Hfin : rt_thread_startup t k =
    ((if bool_decide (is_Some (k_current k1)) then rt_schedule else mret tt);; mret RT_EOK) k1).
  { unfold rt_thread_startup. mstep. rewrite Hs. do 4 mstep. rewrite !put_th_put_th.
    change (put_th t _ k) with k0. mstep_by Hr. mstep. done. }
  exists k1. destruct (k_current k1) as [cur|] eqn:Ec.
  - destruct (rt_schedule_inv b bd k1 cur Hk1 Ec) as (k' & Er & Hk' & Hor).
    { intros _. exists t. eexists. apply ready_insert_ready. }
    exists k'. split; [done|]. split; [done|]. split; [|done].
    rewrite Hfin. mstep_by Er. done.
  - exists k1. split; [done|]. split; [done|]. split; [by rewrite Hfin|].
    split; [done|by left].
Qed.

(** Changing fields of a control block that the lists do not depend on. *)
Lemma put_th_wf k t th0 th :
  sched_wf k -> k_threads k !! t = Some th0 -> thread_wf th -> th_stat th = th_stat th0 ->
  th_current_priority th = th_current_priority th0 -> sched_wf (put_th t th k).
Proof.
  intros [H1 H2 H3 H4 H5 H6] E Hth Hs Hp. split; try done.
  - intros h x Hx. destruct (H1 h x Hx) as (thx & Ex & Hok). cbn. rewrite lookup_insert.
    case_decide as Hd; [|by eauto]. subst. simplify_eq. exists th. split; [done|].
    destruct h; cbn in *; rewrite ?Hs, ?Hp; done.
  - intros x thx. cbn. rewrite lookup_insert. case_decide as Hd; [|by apply H4].
    intros [= <-] Hx. subst. rewrite Hp. apply H4; [done|congruence].
  - intros x thx. cbn. rewrite lookup_insert. case_decide as Hd; [|by apply H6].
    by intros [= <-].
Qed.

Lemma timer_wf_put_th b bd k t th0 th :
  timer_wf_at b bd k -> k_threads k !! t = Some th0 -> th_stat th = th_stat th0 ->
  timer_wf_at b bd (put_th t th k).
Proof.
  intros [Q1 Q2 Q3 Q4 Q5 Q6 Q7 Q8] E Hs. split; try done.
  - intros u thu. cbn. rewrite lookup_insert. case_decide; [subst; eauto|eauto].
  - intros u Hu. cbn. rewrite lookup_insert. case_decide as Hd; [|by apply Q6].
    subst. exists th. split; [done|]. destruct (Q6 u Hu) as (th' & E' & Hs'). congruence.
  - intros u thu tmu. cbn. rewrite lookup_insert. case_decide as Hd; [|by apply Q7].
    subst. intros [= <-] ?. rewrite Hs. eauto.
Qed.

Lemma put_th_inv b bd k t th0 th :
  kinv_at b bd k -> k_threads k !! t = Some th0 -> thread_wf th -> th_stat th = th_stat th0 ->
  th_current_priority th = th_current_priority th0 -> kinv_at b bd (put_th t th k).
Proof. intros [H1 H2] E Hth Hs Hp. split; [by eapply put_th_wf|by eapply timer_wf_put_th]. Qed.

(** Starting the timer of a thread that waits. *)
Lemma start_thread_timer_run b bd k t th time :
  kinv_at b bd k -> k_threads k !! t = Some th -> th_stat th = RT_THREAD_SUSPEND ->
  TmThread t ∉ k_timer_list k ->
  0 <= time < RT_TICK_HALF -> startable bd (u32 (k_tick k + time - b)) ->
  exists k', start_thread_timer t time k = Some (tt, k') /\ kinv_at b bd k' /\
    TmThread t ∈ k_timer_list k' /\
    (exists tm, k_timers k' = <[TmThread t := tm]> (k_timers k) /\
       tm_timeout_tick tm = u32 (k_tick k + time) /\ tm_periodic tm = false) /\
    k' = set_k_timers (k_timers k') (set_k_timer_list (k_timer_list k')
           (set_k_random_nr (k_random_nr k') k)).
Proof.
  intros [Hwf Hw] E Hs Hnl Ht Hst. destruct (tw_thread _ _ k Hw t th E) as (tm & Em & F1 & F2 & F3).
  assert (Ha : tm_active tm = false).
  { destruct (tm_active tm) eqn:Ha; [|done]. destruct Hnl.
    eapply (tw_active _ _ k Hw); eauto. by rewrite Hs. }
  set (tm1 := set_tm_init_tick (u32 time) tm).
  assert (Hti : tm_init_tick tm1 = time) by (cbn; apply u32_id; unfold RT_TICK_HALF in *; mlia).
  set (k1 := set_k_timers (<[TmThread t := tm1]> (k_timers k)) k).
  assert (Hc : rt_timer_control (TmThread t) RT_TIMER_CTRL_SET_TIME time k = Some ((RT_EOK, time), k1)).
  { unfold rt_timer_control, mod_timer, get_timer, put_timer, kmod. unfold mbind, M_bind.
    by rewrite Em. }
  assert (Hw1 : timer_wf_at b bd k1).
  { destruct Hw as [Q1 Q2 Q3 Q4 Q5 Q6 Q7 Q8]. split; try done.
    - intros x Hx. cbn. rewrite lookup_insert_ne by (by intros <-). by apply Q3.
    - eapply timers_sorted_ext; [|exact Q4]. intros x Hx. cbn.
      by rewrite lookup_insert_ne by (by intros <-).
    - intros u thu Eu. cbn. rewrite lookup_insert. case_decide as Hd; [|by apply (Q5 u thu)].
      simplify_eq. by exists tm1.
    - intros u thu tmu Eu. cbn. rewrite lookup_insert. case_decide as Hd; [|by apply Q7].
      simplify_eq. intros [= <-] ? Hact. unfold tm_active in *. cbn in Hact. congruence.
    - intros x tx. cbn. rewrite lookup_insert. case_decide; [|apply Q8]. intros [= <-]. subst x.
      split; [|done]. intros Hp. unfold tm_periodic in *. cbn in Hp. congruence. }
  destruct (rt_timer_start_run b bd k1 (TmThread t) tm1) as (l1 & l2 & El & Er & H1 & H2);
    rewrite ?Hti; try done; [cbn; apply lookup_insert_eq|lia|].
  eexists. split; [|split; [split|split; [|split]]].
  - unfold start_thread_timer. mstep_by Hc. mstep_by Er. done.
  - by apply (sched_wf_ext k).
  - apply (timer_start_wf b bd k1 (TmThread t) tm1 l1 l2); rewrite ?Hti; rewrite ?Hti in H1, H2;
      try done; [cbn; apply lookup_insert_eq|].
    intros u [= <-]. eauto.
  - cbn. set_solver.
  - cbn in Hti |- *. rewrite insert_insert_eq. eexists. split; [done|]. rewrite tm_periodic_set.
    split; [|exact F2]. cbn. by rewrite Hti.
  - done.
Qed.

(** Frames. *)
#[export] Instance core_only_refl : Reflexive core_only.
Proof. intros []. done. Qed.
#[export] Instance core_only_trans : Transitive core_only.
Proof. unfold core_only. intros k k1 k2 E1 ->. rewrite E1. done. Qed.

Lemma sched_only_core k k' : sched_only k k' -> core_only k k'.
Proof. unfold sched_only, core_only. intros ->. by destruct k. Qed.

Lemma switch_core p t k : core_only k (switch_to p t k).
Proof. by destruct k. Qed.

Lemma relocated_core t th home k k' : relocated t th home k k' -> core_only k k'.
Proof. intros (_ & _ & _ & _ & _ & F). by apply sched_only_core. Qed.

Lemma timer_stop_core t k : core_only k (timer_stop_eff t k).
Proof.
  unfold timer_stop_eff. destruct (k_timers k !! t); [|reflexivity].
  destruct (tm_active _); [by destruct k|reflexivity].
Qed.

(** [rt_schedule] with a ready thread to run. *)
Lemma rt_schedule_core b bd idle k :
  core0 b bd idle k ->
  (k_lock_nest k = 0 \/ exists c th, k_current k = Some c /\ is_ready k c th) ->
  exists k', rt_schedule k = Some (tt, k') /\ core b bd idle k' /\
    (k' = k \/ exists p t, k' = switch_to p t k) /\
    (k_lock_nest k = 0 -> exists p t l, k_current k' = Some t /\ queue k (LReady p) = t :: l /\
       forall t' th', is_ready k t' th' -> p <= th_current_priority th').
Proof.
  intros [Hk [thi Hi] [c Hc]] Hor.
  destruct (rt_schedule_run k c (proj1 Hk) Hc) as (k' & E & Hwf & Hsw & Hl & Hs).
  { intros _. eauto. }
  exists k'. split; [done|]. assert (Hcase : k_lock_nest k = 0 \/ k_lock_nest k <> 0) by lia.
  assert (Hsame : k_threads k' = k_threads k /\ k_queues k' = k_queues k /\ kinv_at b bd k').
  { destruct Hsw as [->|(p & t & ->)]; [done|]. split; [done|]. split; [done|by apply kinv_switch]. }
  destruct Hsame as (Et & Eq & Hk'). unfold is_ready in *. rewrite Et in *.
  split; [|split; [done|]].
  - assert (Hcr : exists c th, k_current k' = Some c /\ is_ready k' c th).
    { destruct Hcase as [H0|H0].
      - destruct (Hs H0) as (p & t & l & Ec & Eqq & _).
        destruct (wf_ready_home k' t p Hwf) as (th & Hrd & _); [rewrite Eqq; set_solver|]. eauto.
      - destruct Hor as [|(c' & th & ? & ?)]; [done|]. rewrite (Hl H0). exists c', th. done. }
    split; [split; [done| |]|done].
    + exists thi. unfold is_ready. by rewrite Et.
    + destruct Hcr as (c' & _ & -> & _). eauto.
  - intros H0. destruct (Hs H0) as (p & t & l & Ec & Eqq & Hm). exists p, t, l.
    rewrite (queue_ext k) in Eqq by done. done.
Qed.

Lemma put_th_id k t th : k_threads k !! t = Some th -> put_th t th k = k.
Proof. intros E. unfold put_th. rewrite insert_id by done. by destruct k. Qed.

(** Taking a thread out of its list, with its control block unchanged. *)
Lemma relocated_out k t th :
  sched_wf k -> k_threads k !! t = Some th -> th_stat th <> RT_THREAD_INIT ->
  relocated t th None k (ready_remove t th k).
Proof.
  intros Hwf E Hs. destruct (thread_wf_mask th (wf_thread k Hwf t th E) Hs) as [Hp Hm].
  rewrite <-(put_th_id k t th E) at 2. by apply relocated_ready_remove with th.
Qed.

(** Moving a ready thread to the end of the queue of its new control block. *)
Lemma relocated_requeue k t th th1 :
  sched_wf k -> k_threads k !! t = Some th -> th_stat th <> RT_THREAD_INIT ->
  0 <= th_current_priority th1 < RT_THREAD_PRIORITY_MAX ->
  th_number_mask th1 = 2 ^ th_current_priority th1 ->
  relocated t (set_th_stat RT_THREAD_READY th1) (Some (LReady (th_current_priority th1)))
    k (ready_insert t th1 (put_th t th1 (ready_remove t th k))).
Proof.
  intros Hwf E Hs Hp Hm. destruct (relocated_out k t th Hwf E Hs) as (Et & Ho & Hh & Hn & Hg & F).
  eapply relocated_same_but; [|apply relocated_ready_insert; try done].
  - eapply same_but_trans; [|apply same_but_put_th]. apply same_but_ready_remove.
  - intros h Hin. rewrite (queue_ext (ready_remove t th k)) in Hin by done. by apply Hh in Hin.
Qed.

Lemma set_prio_wf prio th :
  0 <= prio < RT_THREAD_PRIORITY_MAX -> thread_wf th -> thread_wf (set_prio prio th).
Proof.
  intros Hp (H1 & H2 & H3 & H4). assert (u8 prio = prio) as E by (unfold RT_THREAD_PRIORITY_MAX in *; mlia).
  unfold set_prio. rewrite E. split; [done|]. split; [done|]. split; [done|].
  intros _. cbn. by apply mask_pow2.
Qed.

(** [change_priority] gives the thread its new priority, at the end of the ready
    queue of that priority when it was ready. *)
Lemma change_priority_run b bd k t th prio :
  kinv_at b bd k -> k_threads k !! t = Some th -> th_stat th <> RT_THREAD_INIT ->
  0 <= prio < RT_THREAD_PRIORITY_MAX ->
  exists k', change_priority t prio k = Some (tt, k') /\ kinv_at b bd k' /\ core_only k k' /\
    k_threads k' = <[t := set_prio prio th]> (k_threads k) /\
    (forall h, (forall p, h <> LReady p) -> queue k' h = queue k h) /\ k_current k' = k_current k /\
    k_timers k' = k_timers k /\ k_timer_list k' = k_timer_list k.
Proof.
  intros Hk E Hs Hprio. pose proof Hk as [Hwf Hw].
  pose proof (wf_thread k Hwf t th E) as Hth. pose proof (set_prio_wf prio th Hprio Hth) as Hth1.
  set (th1 := set_prio prio th) in *. unfold change_priority. mstep.
  destruct (Z.eqb_spec (th_stat th) RT_THREAD_READY) as [Hr|Hr].
  - destruct (thread_wf_mask th Hth Hs) as [Hp Hm].
    destruct (thread_wf_mask th1 Hth1) as [Hp1 Hm1]; [cbn; by rewrite Hr|].
    destruct (timer_off b bd k t th Hk E) as (tm & Em & Ha & _); [by rewrite Hr..|].
    pose proof (relocated_requeue k t th th1 Hwf E Hs Hp1 Hm1) as Hrel.
    assert (Erd : set_th_stat RT_THREAD_READY th1 = th1) by (unfold th1; destruct th; cbn in *; by subst).
    rewrite Erd in Hrel. mstep_by (rt_schedule_remove_thread_run t th k E Hp).
    assert (E1 : k_threads (ready_remove t th k) !! t = Some th) by (by rewrite threads_ready_remove).
    erewrite bind_run; [|apply mod_thread_run, E1]. fold (set_prio prio th). fold th1.
    rewrite (rt_schedule_insert_thread_run t th1); [|cbn; apply lookup_insert_eq|done|].
    + eexists. split; [done|]. split; [|split; [by eapply relocated_core|]].
      * eapply (relocated_inv b bd k _ t th1 th tm); try done.
        by intros h [= <-].
      * pose proof Hrel as (Et & _ & _ & _ & _ & F). split; [done|].
        split; [|unfold ready_insert, ready_remove; cbn; by destruct (queue (dequeue t k) _)].
        intros h Hh. rewrite queue_ready_insert, decide_False by (intros <-; by eapply Hh).
        rewrite (queue_ext (ready_remove t th k)) by done. rewrite queue_ready_remove.
        apply filter_ne_id. intros Hin. destruct (wf_home k Hwf h t Hin) as (th' & E' & Hok).
        assert (th' = th) as -> by congruence. destruct h; cbn in Hok; [by eapply Hh|..];
          rewrite Hr in Hok; done.
    + intros h Hin. rewrite (queue_ext (ready_remove t th k)) in Hin by done.
      rewrite queue_ready_remove, list_elem_of_filter in Hin. tauto.
  - erewrite mod_thread_run by done. fold (set_prio prio th). fold th1. eexists. split; [done|].
    split; [|by destruct k]. split; [|by eapply timer_wf_put_th].
    destruct Hwf as [H1 H2 H3 H4 H5 H6]. split; try done.
    + intros h x Hx. destruct (H1 h x Hx) as (thx & Ex & Hok). cbn. rewrite lookup_insert.
      case_decide as Hd; [|by eauto]. subst. simplify_eq. exists th1. split; [done|].
      destruct h; cbn in *; [by destruct Hok|done..].
    + intros x thx. cbn. rewrite lookup_insert. case_decide as Hd; [|by apply H4].
      by intros [= <-] ?.
    + intros x thx. cbn. rewrite lookup_insert. case_decide as Hd; [|by apply H6].
      by intros [= <-].
Qed.

(** A thread that is ready stays ready under a change of another thread. *)
Lemma is_ready_other k k' t th u thu :
  k_threads k' = <[t := th]> (k_threads k) -> u <> t -> is_ready k u thu -> is_ready k' u thu.
Proof. intros Et Hne [E Hs]. split; [|done]. by rewrite Et, lookup_insert_ne. Qed.

Lemma is_ready_ne k t th u thu :
  is_ready k t th -> k_threads k !! u = Some thu -> th_stat thu = RT_THREAD_SUSPEND -> t <> u.
Proof. intros [E Hs] Eu Hu ->. apply READY_not_SUSPEND. congruence. Qed.

(** [change_priority] keeps ready threads ready. *)
Lemma change_priority_core b bd idle k t th prio :
  core b bd idle k -> k_threads k !! t = Some th -> th_stat th <> RT_THREAD_INIT ->
  0 <= prio < RT_THREAD_PRIORITY_MAX ->
  exists k', change_priority t prio k = Some (tt, k') /\ core b bd idle k' /\ core_only k k' /\
    k_threads k' = <[t := set_prio prio th]> (k_threads k) /\
    (forall h, (forall p, h <> LReady p) -> queue k' h = queue k h) /\ k_current k' = k_current k /\
    k_timers k' = k_timers k /\ k_timer_list k' = k_timer_list k.
Proof.
  intros [[Hk [thi Hi] Hc] (c & thc & Ec & Hcr)] E Hs Hp.
  destruct (change_priority_run b bd k t th prio Hk E Hs Hp)
    as (k' & Er & Hk' & F & Et & Eq & Ecur & Etm).
  assert (Hrd : forall u thu, is_ready k u thu -> exists thu', is_ready k' u thu').
  { intros u thu [Eu Hu]. unfold is_ready. rewrite Et.
    destruct (decide (u = t)) as [->|Hne].
    - exists (set_prio prio th). rewrite lookup_insert_eq. split; [done|]. cbn. congruence.
    - exists thu. by rewrite lookup_insert_ne. }
  exists k'. split; [done|]. split; [|done]. split; [split|].
  - done.
  - by eapply Hrd.
  - by rewrite Ecur.
  - destruct (Hrd _ _ Hcr) as [th' ?]. exists c, th'. by rewrite Ecur.
Qed.

(** Fields of a control block that nothing depends on. *)
Lemma put_th_core b bd idle k t th0 th :
  core b bd idle k -> k_threads k !! t = Some th0 -> thread_wf th -> th_stat th = th_stat th0 ->
  th_current_priority th = th_current_priority th0 -> core b bd idle (put_th t th k).
Proof.
  intros [[Hk [thi Hi] Hs] (c & thc & Ec & Hcr)] E Hth Est Ep.
  assert (Hrd : forall u thu, is_ready k u thu -> exists thu', is_ready (put_th t th k) u thu').
  { intros u thu [Eu Hu]. unfold is_ready. cbn. destruct (decide (u = t)) as [->|Hne].
    - exists th. rewrite lookup_insert_eq. split; [done|]. congruence.
    - exists thu. by rewrite lookup_insert_ne. }
  split; [split|]; [by apply put_th_inv with th0|by eapply Hrd|done|].
  destruct (Hrd _ _ Hcr) as [th' ?]. by exists c, th'.
Qed.

(** Resuming a waiting thread keeps the others as they are. *)
Lemma rt_thread_resume_core b bd idle k t th :
  core b bd idle k -> k_threads k !! t = Some th -> th_stat th = RT_THREAD_SUSPEND ->
  exists k', rt_thread_resume t k = Some (RT_EOK, k') /\ core b bd idle k' /\ core_only k k' /\
    k_threads k' = <[t := set_th_stat RT_THREAD_READY th]> (k_threads k) /\
    (forall h, (forall p, h <> LReady p) ->
       queue k' h = filter (fun x => x <> t) (queue k h)) /\
    k_current k' = k_current k.
Proof.
  intros [[Hk [thi Hi] Hc] (c & thc & Ec & Hcr)] E Hs.
  pose proof (resume_eff_relocated b bd k t th Hk E Hs) as Hrel.
  destruct (timer_stop_frame (TmThread t) k) as (E1 & E2 & _).
  pose proof (timer_stop_core (TmThread t) k) as Fs.
  exists (resume_eff t th k). split; [by eapply rt_thread_resume_run|].
  assert (F : core_only k (resume_eff t th k)).
  { etrans; [exact Fs|]. by eapply relocated_core. }
  destruct Hrel as (Et & _ & _ & _ & _ & F'). rewrite E1 in Et.
  assert (Ecur : k_current (resume_eff t th k) = k_current k).
  { rewrite F'. cbn. rewrite Fs. unfold timer_stop_eff.
    destruct (k_timers k !! _); [by destruct (tm_active _)|done]. }
  split; [|split; [done|split; [done|split; [|done]]]].
  - split; [split|].
    + by apply resume_eff_inv.
    + exists thi. eapply is_ready_other; eauto using is_ready_ne.
    + by rewrite Ecur.
    + exists c, thc. rewrite Ecur. split; [done|]. eapply is_ready_other; eauto using is_ready_ne.
  - intros h Hh. unfold resume_eff.
    rewrite queue_ready_insert, decide_False by (intros <-; by eapply Hh).
    rewrite queue_dequeue. by rewrite (queue_ext k).
Qed.

(** ** Yield *)

Lemma tlist_shared_spec k t th :
  sched_wf k -> is_ready k t th ->
  tlist_shared t k = negb (length (queue k (LReady (th_current_priority th))) <=? 1)%nat.
Proof.
  intros Hwf [E Hs]. pose proof (wf_ready k Hwf t th E Hs) as Hin.
  set (h := LReady (th_current_priority th)) in *. unfold tlist_shared.
  destruct (Nat.leb_spec (length (queue k h)) 1) as [Hl|Hl]; cbn [negb].
  - apply not_true_iff_false. rewrite existsb_exists. intros ([h' l] & Hm & Ht).
    apply andb_true_iff in Ht as [Ht Hlen]. apply bool_decide_eq_true in Ht. cbn [fst snd] in *.
    apply list_elem_of_In, elem_of_map_to_list in Hm.
    assert (Hq : queue k h' = l) by (unfold queue; by rewrite Hm).
    assert (h' = h) as -> by (eapply wf_unique; eauto; by rewrite Hq). subst l.
    apply Nat.leb_le in Hlen. lia.
  - apply existsb_exists. exists (h, queue k h). split.
    + apply list_elem_of_In, elem_of_map_to_list. unfold queue in *.
      destruct (k_queues k !! h); [done|]. by apply not_elem_of_nil in Hin.
    + cbn [snd]. rewrite bool_decide_true by done. apply Nat.leb_le. lia.
Qed.

Lemma filter_head_only (t : Z) l :
  t ∈ l -> (length l <= 1)%nat -> filter (fun x => x <> t) l ++ [t] = l.
Proof.
  destruct l as [|a [|? ?]]; intros Hin Hl; [by apply not_elem_of_nil in Hin| |simpl in Hl; lia].
  apply list_elem_of_singleton in Hin as ->. rewrite filter_cons_False by tauto. done.
Qed.

(** The state after the current thread has gone to the end of its queue. *)
Lemma rotate_relocated k t th :
  sched_wf k -> is_ready k t th ->
  let p := th_current_priority th in
  relocated t th (Some (LReady p)) k
    (put_queue (LReady p) (queue (dequeue t k) (LReady p) ++ [t]) (dequeue t k)).
Proof.
  intros Hwf [E Hs] p. pose proof (wf_ready k Hwf t th E Hs) as Hin. fold p in Hin.
  split; [cbn; by rewrite insert_id|]. split; [|split; [|split; [|split; [|done]]]].
  - intros h x Hx. rewrite queue_put. case_decide; [subst|apply elem_of_dequeue_ne; done].
    rewrite elem_of_app, elem_of_dequeue. set_solver.
  - intros h. rewrite queue_put. case_decide as Hd; [subst; set_solver|].
    rewrite elem_of_dequeue. split; [tauto|congruence].
  - intros h. rewrite queue_put.
    assert (HN : forall h, NoDup (queue (dequeue t k) h)).
    { intros h'. rewrite queue_dequeue. apply list.NoDup_filter. by apply wf_nodup. }
    case_decide; [|done]. subst. apply NoDup_snoc; [done|]. rewrite elem_of_dequeue. tauto.
  - destruct (wf_group k Hwf) as [Hg Hb]. split; [done|]. intros q Hq. cbn [k_group put_queue set_k_queues dequeue].
    rewrite Hb by done. rewrite queue_put. case_decide as Hd.
    + simplify_eq. split; intros _; [by destruct (queue (dequeue t k) _)|].
      intros E0. rewrite E0 in Hin. by apply not_elem_of_nil in Hin.
    + rewrite queue_dequeue, filter_ne_id; [done|]. intros Hin'. apply Hd.
      by rewrite (wf_at_prio k t th q Hwf E Hin').
Qed.

(** [rt_thread_yield] moves the current thread behind the ready threads of its
    priority and lets the scheduler choose. *)
Lemma rt_thread_yield_core b bd idle k t th :
  core b bd idle k -> k_current k = Some t -> is_ready k t th ->
  let p := th_current_priority th in
  exists k', rt_thread_yield k = Some (RT_EOK, k') /\ core b bd idle k' /\ core_only k k' /\
    k_threads k' = k_threads k /\ k_timers k' = k_timers k /\ k_timer_list k' = k_timer_list k /\
    (forall h, queue k' h = if decide (h = LReady p)
       then filter (fun x => x <> t) (queue k h) ++ [t] else queue k h) /\
    (k_lock_nest k = 0 -> (2 <= length (queue k (LReady p)))%nat ->
     exists q u l, k_current k' = Some u /\ queue k' (LReady q) = u :: l /\
       forall t' th', is_ready k' t' th' -> q <= th_current_priority th').
Proof.
  intros Hc Ec Hr p. pose proof Hc as [[Hk [thi Hi] Hsc] _]. pose proof Hk as [Hwf Hw].
  pose proof Hr as [E Hs]. pose proof (wf_ready k Hwf t th E Hs) as Hin. fold p in Hin.
  pose proof (wf_thread k Hwf t th E) as Hth. pose proof Hth as (Hp & _).
  unfold rt_thread_yield. mstep. rewrite Ec. do 3 mstep.
  rewrite (tlist_shared_spec k t th Hwf Hr), Hs. fold p.
  destruct (Nat.leb_spec (length (queue k (LReady p))) 1) as [Hl|Hl]; cbn [Z.eqb Pos.eqb andb negb RT_THREAD_READY].
  - exists k. split; [done|]. split; [done|]. split; [reflexivity|]. do 3 (split; [done|]).
    split; [|lia]. intros h. case_decide; [|done]. subst. by rewrite filter_head_only.
  - pose proof (rotate_relocated k t th Hwf Hr) as Hrel. cbv zeta in Hrel. fold p in Hrel.
    set (k1 := put_queue _ _ _) in Hrel.
    destruct (timer_off b bd k t th Hk E) as (tm & Em & Ha & _); [by rewrite Hs..|].
    assert (Hk1 : kinv_at b bd k1).
    { eapply (relocated_inv b bd k k1 t th th tm); try done. by intros h [= <-]. }
    assert (Hc1 : core b bd idle k1).
    { split; [split|]; [done|by exists thi|done|by exists t, th]. }
    destruct (rt_schedule_core b bd idle k1 (c_core0 Hc1)) as (k' & Er & Hc' & Hsw & Hhi).
    { right. by exists t, th. }
    exists k'. split.
    { mstep. mstep_by (ready_head_run p (dequeue t k) Hp).
      erewrite bind_run; [|apply tlist_insert_before_run; intros h; rewrite elem_of_dequeue; tauto].
      fold k1. mstep_by Er. done. }
    split; [done|]. assert (F1 : core_only k k1) by (by eapply relocated_core).
    assert (Hq1 : forall h, queue k1 h = if decide (h = LReady p)
       then filter (fun x => x <> t) (queue k h) ++ [t] else queue k h).
    { intros h. unfold k1. rewrite queue_put, queue_dequeue. case_decide as Hd.
      - subst. by rewrite decide_True.
      - rewrite decide_False by congruence. rewrite queue_dequeue. apply filter_ne_id.
        intros Hx. apply Hd. by eapply wf_unique. }
    assert (Hsame : core_only k1 k' /\ k_threads k' = k_threads k /\ k_timers k' = k_timers k /\
      k_timer_list k' = k_timer_list k /\ k_queues k' = k_queues k1).
    { destruct Hsw as [->|(q & u & ->)]; [split; [reflexivity|done]|split; [apply switch_core|done]]. }
    destruct Hsame as (F2 & E1 & E2 & E3 & E4).
    split; [by etrans|]. do 3 (split; [done|]). split.
    + intros h. by rewrite (queue_ext k1).
    + intros H0 _. destruct (Hhi H0) as (q & u & l & Eu & Eq & Hm). exists q, u, l.
      rewrite (queue_ext k1) by done. split; [done|]. split; [done|].
      intros t' th' [Et' Hs']. rewrite E1 in Et'. by apply (Hm t' th').
Qed.

(** With the scheduler unlocked, when the current thread heads the highest
    ready queue and shares it, [rt_thread_yield] runs the next thread of that queue
    and puts the caller last: threads of one priority take turns. *)
Theorem rt_thread_yield_round_robin b bd idle k t th u l :
  core b bd idle k -> k_current k = Some t -> is_ready k t th -> k_lock_nest k = 0 ->
  queue k (LReady (th_current_priority th)) = t :: u :: l ->
  (forall t' th', is_ready k t' th' -> th_current_priority th <= th_current_priority th') ->
  exists k', rt_thread_yield k = Some (RT_EOK, k') /\ core b bd idle k' /\
    k_current k' = Some u /\ queue k' (LReady (th_current_priority th)) = u :: l ++ [t].
Proof.
  intros Hc Ec Hr H0 Hq Hmin. pose proof Hc as [[[Hwf _] _ _] _].
  destruct (rt_thread_yield_core b bd idle k t th Hc Ec Hr)
    as (k' & Er & Hc' & _ & Et & _ & _ & Hqs & Hhi).
  exists k'. split; [done|]. split; [done|].
  assert (Hq' : queue k' (LReady (th_current_priority th)) = u :: l ++ [t]).
  { rewrite Hqs, decide_True, Hq by done. pose proof (wf_nodup k Hwf (LReady (th_current_priority th))) as Hn.
    rewrite Hq in Hn. apply list.NoDup_cons in Hn as [Hn _]. rewrite filter_cons_False by tauto.
    by rewrite filter_ne_id. }
  split; [|done]. destruct (Hhi H0) as (q & v & l' & Ev & Eqv & Hm); [rewrite Hq; cbn; lia|].
  rewrite Ev. f_equal. destruct Hc' as [[[Hwf' _] _ _] _].
  destruct (wf_ready_home k' v q Hwf') as (thv & Hrv & Hpv); [rewrite Eqv; set_solver|].
  assert (Hle : q <= th_current_priority th).
  { apply (Hm t th). destruct Hr. split; [by rewrite Et|done]. }
  assert (Hge : th_current_priority th <= q).
  { rewrite <-Hpv. destruct Hrv as [Evv ?]. apply (Hmin v). split; [by rewrite <-Et|done]. }
  assert (q = th_current_priority th) as -> by lia. congruence.
Qed.

(** ** Leaving the scheduler *)

(** Linking an unlinked thread into a list that is not a ready queue. *)
Lemma relocated_link t th h l1 l2 k k1 :
  relocated t th None k k1 -> (forall p, h <> LReady p) -> queue k1 h = l1 ++ l2 ->
  relocated t th (Some h) k (put_queue h (l1 ++ t :: l2) k1).
Proof.
  intros (Et & Ho & Hh & Hn & Hg & F) Hnr Hq.
  assert (Hnt : t ∉ l1 ++ l2) by (rewrite <-Hq; intros Hin; by apply Hh in Hin).
  split; [done|]. split; [|split; [|split; [|split]]].
  - intros h' x Hx. rewrite queue_put. case_decide; [|by apply Ho].
    subst h'. rewrite <-Ho, Hq by done. set_solver.
  - intros h'. rewrite queue_put. case_decide; [set_solver|]. rewrite Hh. naive_solver.
  - intros h'. rewrite queue_put. case_decide; [|by apply Hn]. specialize (Hn h).
    rewrite Hq, list.NoDup_app in Hn. rewrite list.NoDup_app, list.NoDup_cons. set_solver.
  - apply (group_ok_queues k1); [done| |exact Hg]. intros p. by rewrite queue_put_ne.
  - eapply sched_only_trans; [exact F|]. by destruct k1.
Qed.

(** A closed thread whose timer is out of the list. *)
Lemma timer_wf_closed b bd k k' t th :
  timer_wf_at b bd k -> is_Some (k_threads k !! t) -> th_stat th = RT_THREAD_CLOSE ->
  k_threads k' = <[t := th]> (k_threads k) -> k_timers k' = k_timers k ->
  k_timer_list k' = filter (fun x => x <> TmThread t) (k_timer_list k) ->
  k_tick k' = k_tick k -> timer_wf_at b bd k'.
Proof.
  intros [Q1 Q2 Q3 Q4 Q5 Q6 Q7 Q8] [th0 E0] Hs Et Em El Ek.
  split; rewrite ?Em, ?El, ?Ek; try done.
  - by apply list.NoDup_filter.
  - intros x [_ Hx]%list_elem_of_filter. by apply Q3.
  - by apply timers_sorted_filter.
  - intros u thu. rewrite Et, lookup_insert. case_decide; [subst; eauto|eauto].
  - intros u [Hu Hx]%list_elem_of_filter. rewrite Et, lookup_insert_ne by congruence. by apply Q6.
  - intros u thu tmu Eu Etu Hsu Hac. rewrite Et, lookup_insert in Eu.
    case_decide as Hd; [simplify_eq; congruence|]. apply list_elem_of_filter.
    split; [congruence|]. by eapply Q7.
Qed.

(** The invariant after a thread has been taken out of the scheduler for good. *)
Lemma closed_inv b bd k k' t th home :
  kinv_at b bd k -> k_threads k !! t = Some th -> th_stat th <> RT_THREAD_INIT ->
  let thc := set_th_stat RT_THREAD_CLOSE th in
  let k1 := ready_remove t th k in
  home = None \/ home = Some LDefunct ->
  k_threads k' = <[t := thc]> (k_threads k) ->
  (forall h, queue k' h = if decide (home = Some h) then t :: queue k1 h else queue k1 h) ->
  k_group k' = k_group k1 -> k_timers k' = k_timers k ->
  k_timer_list k' = filter (fun x => x <> TmThread t) (k_timer_list k) ->
  k_tick k' = k_tick k -> kinv_at b bd k'.
Proof.
  intros [Hwf Hw] E Hs thc k1 Hhome Et Eq Eg Em El Ek.
  split; [|eapply timer_wf_closed; eauto; done].
  destruct (thread_wf_mask th (wf_thread k Hwf t th E) Hs) as [Hp Hm].
  pose proof (relocated_ready_remove t th thc k Hwf E eq_refl Hm) as Hrel.
  set (k2 := ready_remove t thc (put_th t thc k)) in Hrel.
  assert (Eq2 : forall h, queue k2 h = queue k1 h).
  { intros h. unfold k1, k2. by rewrite !queue_ready_remove. }
  assert (Eg2 : k_group k2 = k_group k1).
  { unfold k1, k2, ready_remove. rewrite !queue_dequeue, (queue_ext k (put_th t thc k)) by done.
    change (th_current_priority thc) with (th_current_priority th). 
    by destruct (filter (fun x => x <> t) _). }
  assert (Hth : thread_wf thc).
  { apply thread_wf_stat; [by eapply wf_thread|done|auto]. }
  assert (Hfin : exists k3, relocated t thc home k k3 /\
    (forall h, queue k3 h = queue k' h) /\ k_group k3 = k_group k2).
  { destruct Hhome as [->| ->]; [exists k2; split; [done|]|].
    - split; [|done]. intros h. by rewrite Eq, decide_False.
    - exists (put_queue LDefunct (t :: queue k2 LDefunct) k2). split; [|split; [|done]].
      + by apply (relocated_link t thc LDefunct [] (queue k2 LDefunct)).
      + intros h. rewrite queue_put, Eq, Eq2. repeat case_decide; congruence. }
  destruct Hfin as (k3 & (Et3 & Ho & Hh & Hn & Hg & _) & Eq3 & Eg3).
  eapply (relocated_wf t thc home k (with_sched (k_threads k') (k_queues k') (k_group k') k)) in Hwf; try done.
  - by eapply (sched_wf_ext _ k') in Hwf.
  - split; [done|]. assert (Hqq : forall h, queue (with_sched (k_threads k') (k_queues k') (k_group k') k) h = queue k3 h)
      by (intros h; by rewrite (queue_ext k'), Eq3).
    split; [intros h x; rewrite Hqq; apply Ho|]. split; [intros h; rewrite Hqq; apply Hh|].
    split; [intros h; rewrite Hqq; apply Hn|]. split; [|done].
    apply (group_ok_queues k3); [cbn; congruence|done|exact Hg].
  - intros h Hh'. destruct Hhome as [->| ->]; [done|]. by injection Hh' as <-.
Qed.

Lemma queue_ready_out k t th h :
  t ∉ queue (ready_remove t th k) h.
Proof. rewrite queue_ready_remove, list_elem_of_filter. tauto. Qed.

(** [rt_thread_delete] of a started thread. *)
Lemma rt_thread_delete_inv b bd k t th :
  kinv_at b bd k -> k_threads k !! t = Some th -> th_stat th <> RT_THREAD_INIT ->
  exists k', rt_thread_delete t k = Some (RT_EOK, k') /\ kinv_at b bd k' /\
    k_threads k' = <[t := set_th_stat RT_THREAD_CLOSE th]> (k_threads k) /\
    (forall h, queue k' h = if decide (h = LDefunct) then t :: filter (fun x => x <> t) (queue k h)
                            else filter (fun x => x <> t) (queue k h)) /\
    TmThread t ∉ k_timer_list k' /\ k_current k' = k_current k /\ k_lock_nest k' = k_lock_nest k.
Proof.
  intros Hk E Hs. pose proof (wf_thread k (proj1 Hk) t th E) as (Hp & _).
  unfold rt_thread_delete. mstep_by (rt_schedule_remove_thread_run t th k E Hp).
  set (k1 := ready_remove t th k). unfold rt_timer_detach.
  assert (F : sched_only k k1) by apply sched_only_ready_remove. unfold sched_only in F.
  erewrite bind_run; [|reflexivity]. cbv beta.
  erewrite bind_run; [|eapply mod_thread_run; cbn; unfold k1; by rewrite threads_ready_remove].
  erewrite bind_run; [|apply tlist_insert_after_run; intros h; apply queue_ready_out].
  eexists. split; [done|].
  assert (Hq : forall h, queue k1 h = filter (fun x => x <> t) (queue k h))
    by (intros; apply queue_ready_remove).
  split; [|split; [|split; [|split; [|split]]]].
  - eapply (closed_inv b bd k _ t th (Some LDefunct)); try done; [by right|..].
    + cbn. unfold k1. by rewrite threads_ready_remove.
    + intros h. rewrite queue_put, !(queue_ext k1 (put_th _ _ _)) by done.
      do 2 case_decide; [by subst|congruence..|done].
    + cbn. by rewrite F.
    + cbn. by rewrite F.
    + cbn. by rewrite F.
  - cbn. unfold k1. by rewrite threads_ready_remove.
  - intros h. rewrite queue_put, !(queue_ext k1 (put_th _ _ _)), !Hq by done.
    repeat case_decide; congruence.
  - cbn. rewrite list_elem_of_filter. tauto.
  - cbn. by rewrite F.
  - cbn. by rewrite F.
Qed.

(** [rt_thread_detach] of a started thread: only one with a cleanup function is
    kept for the idle thread. *)
Lemma rt_thread_detach_inv b bd k t th :
  kinv_at b bd k -> k_threads k !! t = Some th -> th_stat th <> RT_THREAD_INIT ->
  exists k', rt_thread_detach t k = Some (RT_EOK, k') /\ kinv_at b bd k' /\
    k_threads k' = <[t := set_th_stat RT_THREAD_CLOSE th]> (k_threads k) /\
    (t ∈ queue k' LDefunct <-> is_Some (th_cleanup th)) /\
    (forall h, h <> LDefunct -> queue k' h = filter (fun x => x <> t) (queue k h)) /\
    TmThread t ∉ k_timer_list k' /\ OThread t ∉ objects k' 0 /\
    k_current k' = k_current k /\ k_lock_nest k' = k_lock_nest k.
Proof.
  intros Hk E Hs. pose proof (wf_thread k (proj1 Hk) t th E) as (Hp & _).
  unfold rt_thread_detach. mstep_by (rt_schedule_remove_thread_run t th k E Hp).
  set (k1 := ready_remove t th k). unfold rt_timer_detach.
  assert (F : sched_only k k1) by apply sched_only_ready_remove. unfold sched_only in F.
  assert (Hq : forall h, queue k1 h = filter (fun x => x <> t) (queue k h))
    by (intros; apply queue_ready_remove).
  erewrite bind_run; [|reflexivity]. cbv beta.
  erewrite bind_run; [|eapply mod_thread_run; cbn; unfold k1; by rewrite threads_ready_remove].
  erewrite bind_run; [|reflexivity]. mstep.
  change (th_cleanup (set_th_stat RT_THREAD_CLOSE th)) with (th_cleanup th).
  destruct (th_cleanup th) as [cl|].
  - rewrite bool_decide_true by eauto.
    erewrite bind_run; [|apply tlist_insert_after_run; intros h; apply queue_ready_out].
    eexists. split; [done|]. split; [|split; [|split; [|split; [|split; [|split; [|split]]]]]].
    + eapply (closed_inv b bd k _ t th (Some LDefunct)); try done; [by right|..].
      * cbn. unfold k1. by rewrite threads_ready_remove.
      * intros h. rewrite queue_put, !(queue_ext k1 (put_objects _ _ _)) by done.
        do 2 case_decide; [by subst|congruence..|done].
      * cbn. by rewrite F.
      * cbn. by rewrite F.
      * cbn. by rewrite F.
    + cbn. unfold k1. by rewrite threads_ready_remove.
    + rewrite queue_put_eq. split; [eauto|set_solver].
    + intros h Hh. rewrite queue_put_ne by done. by rewrite (queue_ext k1).
    + cbn. rewrite list_elem_of_filter. tauto.
    + unfold objects at 1. cbn. rewrite lookup_insert_eq. cbn. rewrite list_elem_of_filter. tauto.
    + cbn. by rewrite F.
    + cbn. by rewrite F.
  - rewrite bool_decide_false by (by intros []). mstep.
    eexists. split; [done|]. split; [|split; [|split; [|split; [|split; [|split; [|split]]]]]].
    + eapply (closed_inv b bd k _ t th None); try done; [by left|..].
      * cbn. unfold k1. by rewrite threads_ready_remove.
      * cbn. by rewrite F.
      * cbn. by rewrite F.
      * cbn. by rewrite F.
    + cbn. unfold k1. by rewrite threads_ready_remove.
    + split; [|by intros []]. intros Hin. by apply queue_ready_out in Hin.
    + intros h Hh. by rewrite (queue_ext k1).
    + cbn. rewrite list_elem_of_filter. tauto.
    + unfold objects at 1. cbn. rewrite lookup_insert_eq. cbn. rewrite list_elem_of_filter. tauto.
    + cbn. by rewrite F.
    + cbn. by rewrite F.
Qed.

Lemma sched_only_fields k k' :
  sched_only k k' -> k_current k' = k_current k /\ k_lock_nest k' = k_lock_nest k /\
  k_tick k' = k_tick k /\ k_timers k' = k_timers k /\ k_timer_list k' = k_timer_list k /\
  k_objs k' = k_objs k /\ k_container k' = k_container k.
Proof. unfold sched_only. intros F. rewrite F. done. Qed.

(** [rt_thread_exit] closes the current thread and runs another one. *)
Lemma rt_thread_exit_core b bd idle k t th ob :
  core b bd idle k -> k_current k = Some t -> k_threads k !! t = Some th ->
  th_stat th <> RT_THREAD_INIT -> t <> idle -> k_lock_nest k = 0 -> k_objs k !! OThread t = Some ob ->
  exists k' u, rt_thread_exit k = Some (tt, k') /\ core b bd idle k' /\
    k_current k' = Some u /\ u <> t /\
    k_threads k' = <[t := set_th_stat RT_THREAD_CLOSE th]> (k_threads k) /\
    (forall h, h <> LDefunct -> queue k' h = filter (fun x => x <> t) (queue k h)).
Proof.
  intros [[Hk [thi Hi] _] _] Ec E Hs Hni H0 Eo.
  pose proof (wf_thread k (proj1 Hk) t th E) as (Hp & _).
  set (thc := set_th_stat RT_THREAD_CLOSE th).
  set (k1 := ready_remove t th k).
  destruct (sched_only_fields k k1 (sched_only_ready_remove t th k))
    as (F1 & F2 & F3 & F4 & F5 & F6 & F7).
  assert (Et1 : k_threads k1 = k_threads k) by apply threads_ready_remove.
  assert (Hq : forall h, queue k1 h = filter (fun x => x <> t) (queue k h))
    by (intros; apply queue_ready_remove).
  assert (Hmid : exists k2, rt_thread_exit k = rt_schedule k2 /\ kinv_at b bd k2 /\
    k_threads k2 = <[t := thc]> (k_threads k) /\ k_current k2 = Some t /\ k_lock_nest k2 = 0 /\
    (forall h, h <> LDefunct -> queue k2 h = filter (fun x => x <> t) (queue k h))).
  { unfold rt_thread_exit. mstep. rewrite Ec. mstep.
    mstep_by (rt_schedule_remove_thread_run t th k E Hp). fold k1.
    erewrite bind_run; [|eapply mod_thread_run; by rewrite Et1]. unfold rt_timer_detach.
    erewrite bind_run; [|reflexivity]. cbv beta.
    assert (Eo1 : k_objs k1 !! OThread t = Some ob) by (by rewrite F6).
    erewrite bind_run; [|unfold rt_object_is_systemobject; cbn; by rewrite Eo1]. mstep.
    destruct (_ && _).
    - erewrite bind_run; [|reflexivity]. eexists. split; [done|]. split; [|split; [|split; [|split]]].
      + eapply (closed_inv b bd k _ t th None); try done; [by left|..]; cbn; by rewrite ?Et1, ?F3, ?F4, ?F5.
      + cbn. by rewrite Et1.
      + cbn. by rewrite F1.
      + cbn. by rewrite F2.
      + intros h Hh. by rewrite (queue_ext k1).
    - erewrite bind_run; [|apply tlist_insert_after_run; intros h; apply queue_ready_out].
      eexists. split; [done|]. split; [|split; [|split; [|split]]].
      + eapply (closed_inv b bd k _ t th (Some LDefunct)); try done; [by right|..];
          try (cbn; by rewrite ?Et1, ?F3, ?F4, ?F5).
        intros h. rewrite queue_put, !(queue_ext k1 (put_objects _ _ _)) by done.
        do 2 case_decide; [by subst|congruence..|done].
      + cbn. by rewrite Et1.
      + cbn. by rewrite F1.
      + cbn. by rewrite F2.
      + intros h Hh. rewrite queue_put_ne by done. by rewrite (queue_ext k1). }
  destruct Hmid as (k2 & Er & Hk2 & Et & Ec2 & Hl2 & Hq2).
  assert (Hc2 : core0 b bd idle k2).
  { split; [done| |by rewrite Ec2]. exists thi. by eapply is_ready_other. }
  destruct (rt_schedule_core b bd idle k2 Hc2 (or_introl Hl2)) as (k' & Es & Hc' & Hsw & Hhi).
  destruct (Hhi Hl2) as (p & u & l & Eu & Eq & _).
  assert (Hsame : k_threads k' = k_threads k2 /\ k_queues k' = k_queues k2).
  { by destruct Hsw as [->|(? & ? & ->)]. }
  destruct Hsame as [Et' Eq']. exists k', u. rewrite Er, Es. split; [done|]. split; [done|].
  split; [done|]. split; [|split; [congruence|]].
  - intros ->. assert (Hin : t ∈ queue k2 (LReady p)) by (rewrite Eq; set_solver).
    rewrite Hq2, list_elem_of_filter in Hin by done. tauto.
  - intros h Hh. rewrite (queue_ext k2) by done. by apply Hq2.
Qed.

(** ** Blocking *)

(** A thread that is no longer ready gives up the processor. *)
Lemma schedule_then_wait b bd idle k t th {A} f (rest : M (wait A)) :
  core0 b bd idle k -> k_current k = Some t -> k_threads k !! t = Some th ->
  th_stat th <> RT_THREAD_READY -> k_lock_nest k = 0 ->
  exists p u, schedule_then t f rest k = Some (Wait f, switch_to p u k) /\
    core b bd idle (switch_to p u k) /\ u <> t.
Proof.
  intros Hc Ec E Hs H0. destruct (rt_schedule_core b bd idle k Hc (or_introl H0)) as (k' & Er & Hc' & Hsw & Hhi).
  destruct (Hhi H0) as (q & u & l & Eu & Eq & _).
  destruct (wf_ready_home k u q (proj1 (c_inv Hc))) as (thu & [Ethu Hu] & _);
    [rewrite Eq; set_solver|].
  assert (Hne : u <> t) by (intros ->; congruence).
  destruct Hsw as [->|(p & v & ->)]; [congruence|]. cbn in Eu. injection Eu as ->.
  exists p, u. split; [|done]. unfold schedule_then. mstep_by Er. mstep. cbn.
  rewrite bool_decide_false by congruence. done.
Qed.

Lemma suspend_core0 b bd idle k t th :
  core b bd idle k -> is_ready k t th -> t <> idle ->
  core0 b bd idle (suspend_eff t th k) /\ core_only k (suspend_eff t th k) /\
  k_current (suspend_eff t th k) = k_current k /\
  k_threads (suspend_eff t th k) = <[t := set_th_stat RT_THREAD_SUSPEND th]> (k_threads k) /\
  k_timers (suspend_eff t th k) = k_timers k /\ k_timer_list (suspend_eff t th k) = k_timer_list k /\
  (forall h, queue (suspend_eff t th k) h = filter (fun x => x <> t) (queue k h)).
Proof.
  intros [[Hk [thi Hi] Hsc] _] Hr Hne.
  destruct (rt_thread_suspend_run k t th (proj1 Hk) Hr) as [_ Hrel].
  pose proof Hrel as (Et & _ & _ & _ & _ & F).
  destruct (sched_only_fields _ _ F) as (F1 & F2 & F3 & F4 & F5 & F6 & F7).
  split; [|split; [by eapply relocated_core|do 4 (split; [done|])]].
  - split; [by apply suspend_eff_inv|exists thi|by rewrite F1]. eapply is_ready_other; eauto.
  - intros h. unfold suspend_eff. rewrite queue_ready_remove. by rewrite (queue_ext k).
Qed.

Lemma ready_unlisted b bd k t th :
  kinv_at b bd k -> is_ready k t th -> TmThread t ∉ k_timer_list k.
Proof.
  intros [_ Hw] [E Hs] Hin. destruct (tw_waiting _ _ k Hw t Hin) as (th' & E' & Hs').
  apply READY_not_SUSPEND. congruence.
Qed.

Lemma startable_time b k time :
  b = k_tick k -> 0 <= k_tick k < 4294967296 -> 0 <= time < RT_TICK_HALF ->
  startable RT_TICK_HALF (u32 (k_tick k + time - b)).
Proof. intros -> Ht Hi. by apply startable_now. Qed.

(** [rt_thread_sleep] blocks the calling thread: another thread runs, the caller
    waits in no list, and its timer is in the timer list with an expiry that many
    ticks ahead, wrap-around included. *)
Lemma rt_thread_sleep_run idle k t th tick :
  core (k_tick k) RT_TICK_HALF idle k -> k_current k = Some t -> is_ready k t th ->
  t <> idle -> k_lock_nest k = 0 -> 0 <= tick < RT_TICK_HALF ->
  exists k' u tm, rt_thread_sleep tick k = Some (Wait FSleep, k') /\
    core (k_tick k') RT_TICK_HALF idle k' /\ k_current k' = Some u /\ u <> t /\
    k_threads k' !! t = Some (set_th_stat RT_THREAD_SUSPEND th) /\ (forall h, t ∉ queue k' h) /\
    TmThread t ∈ k_timer_list k' /\ k_timers k' = <[TmThread t := tm]> (k_timers k) /\
    tm_periodic tm = false /\ delta (k_tick k') tm = tick /\ k_tick k' = k_tick k /\ core_only k k' /\
    k_threads k' = <[t := set_th_stat RT_THREAD_SUSPEND th]> (k_threads k) /\
    (forall h, queue k' h = filter (fun x => x <> t) (queue k h)).
Proof.
  intros Hc Ec Hr Hne H0 Ht. pose proof Hc as [[Hk _ _] _]. pose proof Hk as [Hwf Hw].
  destruct (suspend_core0 _ _ idle k t th Hc Hr Hne) as (Hc1 & F & Ec1 & Et1 & Em1 & El1 & Hq1).
  set (k1 := suspend_eff t th k) in *. set (ths := set_th_stat RT_THREAD_SUSPEND th) in *.
  assert (E1 : k_threads k1 !! t = Some ths) by (rewrite Et1; apply lookup_insert_eq).
  assert (Ek1 : k_tick k1 = k_tick k /\ k_lock_nest k1 = 0) by (rewrite F; done).
  destruct Ek1 as [Ek1 El0]. pose proof (tw_tick _ _ k Hw) as Htk.
  destruct (start_thread_timer_run _ _ k1 t ths tick (c_inv Hc1) E1 eq_refl) as
    (k2 & Er2 & Hk2 & Hin2 & (tm & Em2 & Etm & Hper) & F2); [..|done|rewrite Ek1; by apply startable_time|].
  { rewrite El1. by eapply ready_unlisted. }
  assert (Hsame : k_threads k2 = k_threads k1 /\ k_queues k2 = k_queues k1 /\ k_current k2 = k_current k1
    /\ k_lock_nest k2 = k_lock_nest k1 /\ k_tick k2 = k_tick k1) by (rewrite F2; done).
  destruct Hsame as (S1 & S2 & S3 & S4 & S5).
  assert (Hc2 : core0 (k_tick k) RT_TICK_HALF idle k2).
  { destruct Hc1 as [_ [thi [Ei Hi]] Hsc]. split; [done| |by rewrite S3].
    exists thi. split; [by rewrite S1|done]. }
  destruct (schedule_then_wait _ _ idle k2 t ths FSleep
    (r ← rt_thread_sleep_resume t; mret (Ret r)) Hc2) as (p & u & Es & Hcu & Hu);
    [congruence|congruence|done|congruence|].
  exists (switch_to p u k2), u, tm. assert (Htick : k_tick (switch_to p u k2) = k_tick k) by (cbn; congruence).
  rewrite !Htick. split.
  { unfold rt_thread_sleep. mstep. rewrite Ec. mstep.
    mstep_by (proj1 (rt_thread_suspend_run k t th Hwf Hr)). fold k1. mstep_by Er2. exact Es. }
  split; [done|]. split; [done|]. split; [done|]. split; [cbn; congruence|]. split.
  { intros h. rewrite (queue_ext k1) by done. rewrite Hq1, list_elem_of_filter. tauto. }
  split; [done|]. split; [cbn; congruence|]. split; [done|]. split; [|split; [done|split; [|split; [cbn; congruence|]]]].
  2: { etrans; [exact F|]. etrans; [|apply switch_core]. rewrite F2. by destruct k1. }
  2: { intros h. rewrite (queue_ext k1) by done. apply Hq1. }
  unfold delta. rewrite Etm, Ek1. unfold RT_TICK_HALF in *. mlia.
Qed.
