(* ===== verification/Frame.v ===== *)
(** * What an operation leaves alone

    The components of the kernel share the threads and their lists.  An operation of one
    component changes the lists of another only by taking threads out of them, and leaves
    the control blocks of the threads that go on waiting as they were: [ipc_frame].  The
    class [WaitObject] is what a component with waiting lists promises to the others: its
    invariant survives every such operation that does not touch its own objects. *)
From S2P Require Import Prelude KService Kernel Object Scheduler Timer Thread.

(** A list of threads that is not a ready queue nor the list of closed threads. *)
Definition wait_list (h : lhead) : Prop :=
  match h with LSuspend _ | LSender _ | LWait _ => True | _ => False end.

(** Which threads may begin to wait, and in which list; [None] is a wait in no list. *)
Definition growth := option lhead -> Z -> Prop.
Definition no_growth : growth := fun _ _ => False.
(** The thread [t] may begin to wait in the list [h]. *)
Definition joins (h : option lhead) (t : Z) : growth := fun h' t' => h' = h /\ t' = t.

(** A call that returns lets no thread wait; one that does not suspends its caller [t]. *)
Definition grows {A} (r : wait A) (h : option lhead) (t : Z) : growth :=
  match r with Wait _ => joins h t | Ret _ => no_growth end.

(** The thread [t] waits. *)
Definition suspended (k : kstate) (t : Z) : Prop :=
  exists th, k_threads k !! t = Some th /\ th_stat th = RT_THREAD_SUSPEND.

(** What an operation leaves alone: only the threads of [g] begin to wait, in the lists of
    [g], the threads that go on waiting keep what they wait for, and no thread disappears. *)
Record ipc_frame (g : growth) (k k' : kstate) : Prop := {
  if_lists : forall h t, wait_list h -> t ∈ queue k' h -> t ∈ queue k h \/ g (Some h) t;
  if_event : forall h t th', wait_list h -> t ∈ queue k' h -> ~ g (Some h) t ->
    k_threads k' !! t = Some th' -> exists th, k_threads k !! t = Some th /\
      th_event_set th' = th_event_set th /\ th_event_info th' = th_event_info th;
  if_dom : forall t th, k_threads k !! t = Some th -> th_stat th <> RT_THREAD_INIT ->
    exists th', k_threads k' !! t = Some th' /\ th_stat th' <> RT_THREAD_INIT;
  if_susp : forall t, suspended k' t -> suspended k t \/ exists o, g o t
}.

(** The objects of all components are the same. *)
Record objects_same (k k' : kstate) : Prop := {
  os_sems : k_sems k' = k_sems k;
  os_mutexes : k_mutexes k' = k_mutexes k;
  os_events : k_events k' = k_events k;
  os_mbs : k_mbs k' = k_mbs k;
  os_mqs : k_mqs k' = k_mqs k;
  os_mps : k_mps k' = k_mps k;
  os_lock : k_lock_nest k' = k_lock_nest k
}.

(** An operation that is about no object: threads only leave the lists. *)
Definition quiet_step (k k' : kstate) : Prop := ipc_frame no_growth k k' /\ objects_same k k'.

(** What a component promises: [mine] are its waiting lists, [store] its objects. *)
Class WaitObject {A} (mine : lhead -> Prop) (store : kstate -> A) (ok : kstate -> Prop) : Prop :=
  wait_object_frame : forall g k k', ok k -> ipc_frame g k k' -> (forall h t, mine h -> ~ g (Some h) t) ->
    store k' = store k -> ok k'.

(** A property that no quiet step breaks. *)
Class Stable (I : kstate -> Prop) : Prop :=
  stable_step : forall k k', I k -> quiet_step k k' -> I k'.

(** ** Lemmas *)

Lemma wait_list_not_ready h p : wait_list h -> h <> LReady p.
Proof. by destruct h. Qed.

#[export] Instance ipc_frame_refl g : Reflexive (ipc_frame g).
Proof. intros k. split; eauto. Qed.
#[export] Instance ipc_frame_trans g : Transitive (ipc_frame g).
Proof.
  intros k k1 k2 [A1 B1 C1 D1] [A2 B2 C2 D2]. split.
  - intros h t Hh Hin. destruct (A2 h t Hh Hin); [by apply A1|by right].
  - intros h t th2 Hh Hin Hg E2. destruct (B2 h t th2 Hh Hin Hg E2) as (th1 & E1 & -> & ->).
    apply (B1 h t th1); [done| |done|done]. by destruct (A2 h t Hh Hin).
  - intros t th E Hs. destruct (C1 t th E Hs) as (th1 & E1 & Hs1). eauto.
  - intros t Ht. destruct (D2 t Ht); auto.
Qed.

Lemma ipc_frame_mono (g g' : growth) k k' :
  (forall o t, g o t -> g' o t) -> ipc_frame g k k' -> ipc_frame g' k k'.
Proof.
  intros Hg [A B C D]. split; [|intros; by eapply B; eauto|done|].
  - intros h t Hh Hin. destruct (A h t Hh Hin); auto.
  - intros t Ht. destruct (D t Ht) as [|[o Ho]]; eauto.
Qed.

(** What lets no thread wait is less than any growth. *)
Lemma ipc_frame_none g k k' : ipc_frame no_growth k k' -> ipc_frame g k k'.
Proof. by apply ipc_frame_mono. Qed.

(** The waiting lists are the same, and so are the threads. *)
Lemma ipc_frame_lists g k k' :
  k_threads k' = k_threads k -> (forall h, wait_list h -> queue k' h = queue k h) -> ipc_frame g k k'.
Proof.
  intros Et Eq. split.
  - intros h t Hh. rewrite Eq by done. auto.
  - intros h t th _ _ _. rewrite Et. eauto.
  - intros t th. rewrite Et. eauto.
  - unfold suspended. rewrite Et. auto.
Qed.

Lemma ipc_frame_same g k k' :
  k_threads k' = k_threads k -> k_queues k' = k_queues k -> ipc_frame g k k'.
Proof. intros Et Eq. apply ipc_frame_lists; [done|]. intros h _. by apply queue_ext. Qed.

(** The control block of one thread changes, in fields that no list depends on. *)
Lemma ipc_frame_thread g k k' t th th' :
  k_threads k !! t = Some th -> k_threads k' = <[t := th']> (k_threads k) ->
  (th_event_set th' = th_event_set th /\ th_event_info th' = th_event_info th \/
   forall h, wait_list h -> ~ g (Some h) t -> t ∉ queue k' h) ->
  (th_stat th <> RT_THREAD_INIT -> th_stat th' <> RT_THREAD_INIT) ->
  (th_stat th' = RT_THREAD_SUSPEND -> th_stat th = RT_THREAD_SUSPEND \/ exists o, g o t) ->
  (forall h x, wait_list h -> x ∈ queue k' h -> x ∈ queue k h \/ g (Some h) x) -> ipc_frame g k k'.
Proof.
  intros E Et Hev Hs Hsu Hq. split; [done| | |].
  - intros h x thx Hh Hin Hg. rewrite Et, lookup_insert. case_decide; [|by eauto].
    intros [= <-]. subst x. exists th. split; [done|].
    destruct Hev as [|Hev]; [done|]. by apply Hev in Hin.
  - intros x thx Ex Hsx. rewrite Et, lookup_insert. case_decide; [|by eauto].
    simplify_eq. eauto.
  - intros x (thx & Ex & Hsx). rewrite Et, lookup_insert in Ex. case_decide; [|left; by exists thx].
    simplify_eq. destruct (Hsu Hsx); [left; by exists th|by right].
Qed.

Lemma ipc_frame_switch g p t k : ipc_frame g k (switch_to p t k).
Proof. by apply ipc_frame_same. Qed.

Lemma ipc_frame_put_th g k t th th' :
  k_threads k !! t = Some th -> th_stat th' = th_stat th ->
  th_event_set th' = th_event_set th -> th_event_info th' = th_event_info th ->
  ipc_frame g k (put_th t th' k).
Proof.
  intros E Hs H1 H2. apply ipc_frame_thread with t th th'; auto; rewrite Hs; auto.
Qed.

#[export] Instance objects_same_refl : Reflexive objects_same.
Proof. by intros k. Qed.
#[export] Instance objects_same_trans : Transitive objects_same.
Proof. intros k k1 k2 [] []. split; congruence. Qed.
#[export] Instance quiet_refl : Reflexive quiet_step.
Proof. by intros k. Qed.
#[export] Instance quiet_trans : Transitive quiet_step.
Proof. intros k k1 k2 [F1 O1] [F2 O2]. split; by etrans. Qed.

Lemma core_only_objects k k' : core_only k k' -> objects_same k k'.
Proof. unfold core_only. intros F. rewrite F. done. Qed.

Lemma quiet_same k k' :
  k_threads k' = k_threads k -> k_queues k' = k_queues k -> objects_same k k' -> quiet_step k k'.
Proof. intros Et Eq Ho. split; [by apply ipc_frame_same|done]. Qed.

Lemma quiet_core k k' : core_only k k' -> ipc_frame no_growth k k' -> quiet_step k k'.
Proof. intros F If. split; [done|by apply core_only_objects]. Qed.

(** What [WaitObject] gives for an operation that lets no thread wait. *)
Lemma wait_object_keep {A} mine (store : kstate -> A) ok `{!WaitObject mine store ok} k k' :
  ok k -> ipc_frame no_growth k k' -> store k' = store k -> ok k'.
Proof. intros Hok If E. eapply wait_object_frame; [done|exact If|by intros h t _ []|done]. Qed.

Lemma wait_object_stable {A} mine (store : kstate -> A) ok `{!WaitObject mine store ok} :
  (forall k k', objects_same k k' -> store k' = store k) -> Stable ok.
Proof. intros Hst k k' Hok [If Ho]. eapply wait_object_keep; [done..|]. by apply Hst. Qed.

(** A thread of any list moves to a list nobody waits in. *)
Lemma ipc_frame_relocated g t th th' home k k' :
  k_threads k !! t = Some th -> relocated t th' home k k' ->
  th_event_set th' = th_event_set th -> th_event_info th' = th_event_info th ->
  (th_stat th <> RT_THREAD_INIT -> th_stat th' <> RT_THREAD_INIT) ->
  th_stat th' <> RT_THREAD_SUSPEND ->
  (forall h, home = Some h -> ~ wait_list h) -> ipc_frame g k k'.
Proof.
  intros E (Et & Ho & Hh & _) H1 H2 Hs Hsu Hn. apply ipc_frame_thread with t th th'; try done; [by left|].
  intros h x Hw Hx. left. destruct (decide (x = t)) as [->|Hne]; [|by apply Ho].
  apply Hh in Hx. by destruct (Hn h Hx).
Qed.

(** A waiting thread becomes ready. *)
Lemma ipc_frame_resume_eff g b bd k t th :
  kinv_at b bd k -> k_threads k !! t = Some th -> th_stat th = RT_THREAD_SUSPEND ->
  ipc_frame g k (resume_eff t th k).
Proof.
  intros Hk E Hs. destruct (timer_stop_frame (TmThread t) k) as (E1 & E2 & _).
  etrans; [by apply (ipc_frame_same _ k (timer_stop_eff (TmThread t) k))|].
  eapply ipc_frame_relocated; [by rewrite E1|by eapply resume_eff_relocated|done..|].
  intros h [= <-] [].
Qed.

#[export] Hint Resolve quiet_core quiet_same core_only_objects : rt.
