(* ===== verification/Clock.v ===== *)
(** * The tick, expiring timers and the tick interrupt (src/src/clock.c, timer.c, irq.c)

    [rt_timer_check] fires the timers whose time has come: the timer of a waiting
    thread wakes it with [-RT_ETIMEOUT], a timer of the application calls its
    function.  Those functions are not kernel code: they are the parameter
    [user_cb], about which the theorems assume what the documentation of the
    timers asks for, that they do not block and leave the timer list alone but
    for the timers of the threads they wake. *)
From S2P Require Import Prelude KService Kernel Object Scheduler Timer Thread Frame.

(** [rt_tick_get], [rt_tick_set]. *)
Definition rt_tick_get : M Z := kget k_tick.
Definition rt_tick_set (tick : Z) : M unit := kmod (set_k_tick tick).

(** [rt_tick_from_millisecond], in 32-bit arithmetic. *)
Definition RT_TICK_PER_SECOND : Z := 100.
Definition rt_tick_from_millisecond (ms : Z) : Z :=
  u32 (u32 (RT_TICK_PER_SECOND * ms) + 999) / 1000.

(** [rt_interrupt_enter], [rt_interrupt_leave], [rt_interrupt_get_nest]. *)
Definition rt_interrupt_enter : M unit :=
  kmod (fun k => set_k_int_nest (u8 (k_int_nest k + 1)) k).
Definition rt_interrupt_leave : M unit :=
  kmod (fun k => set_k_int_nest (u8 (k_int_nest k - 1)) k).
Definition rt_interrupt_get_nest : M Z := kget k_int_nest.

Section Check.
Context (user_cb : Z -> Z -> M unit).

(** [t->timeout_func(t->parameter)]. *)
Definition timeout_call (f : timeout_fn) : M unit :=
  match f with
  | rt_thread_timeout_fn t => rt_thread_timeout t
  | user_timeout_fn f p => user_cb f p
  end.

(** What follows the call of the timeout function. *)
Definition timer_rearm (t : tmid) : M unit :=
  tm ← get_timer t;
  if tm_periodic tm && tm_active tm then
    mod_timer t tm_clear_active;;
    rt_timer_start t;;
    mret tt
  else mod_timer t tm_clear_active.

(** The loop of [rt_timer_check]; [fuel] bounds the iterations. *)
Fixpoint timer_check_loop (fuel : nat) (current_tick : Z) : M unit :=
  match fuel with
  | O => stuck
  | S fuel' =>
      l ← kget k_timer_list;
      match l with
      | [] => mret tt
      | t :: _ =>
          tm ← get_timer t;
          if u32 (current_tick - tm_timeout_tick tm) <? RT_TICK_HALF then
            rt_timer_remove t;;
            timeout_call (tm_func tm);;
            now ← rt_tick_get;
            timer_rearm t;;
            timer_check_loop fuel' now
          else mret tt
      end
  end.

(** [rt_timer_check]: one iteration per timer of the list, and one to stop. *)
Definition rt_timer_check : M unit :=
  current_tick ← rt_tick_get;
  n ← kget (fun k => length (k_timer_list k));
  timer_check_loop (S n) current_tick.

(** The part of [rt_tick_increase] about the time slice of the current thread: at
    its end the thread goes behind the others of its priority. *)
Definition time_slice (t : Z) : M unit :=
  mod_thread t (fun th => set_th_remaining_tick (u32 (th_remaining_tick th - 1)) th);;
  th ← get_thread t;
  if th_remaining_tick th =? 0 then
    mod_thread t (fun th => set_th_remaining_tick (th_init_tick th) th);;
    rt_thread_yield;;
    mret tt
  else mret tt.

(** [rt_tick_increase]. *)
Definition rt_tick_increase : M unit :=
  kmod (fun k => set_k_tick (u32 (k_tick k + 1)) k);;
  cur ← rt_thread_self;
  t ← deref cur;
  time_slice t;;
  rt_timer_check.

(** [SysTick_Handler] of the board. *)
Definition SysTick_Handler : M unit :=
  rt_interrupt_enter;;
  rt_tick_increase;;
  rt_interrupt_leave.

(** [n] tick interrupts in a row. *)
Fixpoint ticks (n : nat) : M unit :=
  match n with O => mret tt | S n' => SysTick_Handler;; ticks n' end.

End Check.

(** ** What the kernel relies on *)

(** What a timeout function of the application may change. *)
Record cb_frame (k k' : kstate) : Prop := {
  cb_tick : k_tick k' = k_tick k;
  cb_int : k_int_nest k' = k_int_nest k;
  cb_list : forall x, x ∈ k_timer_list k' -> x ∈ k_timer_list k /\ k_timers k' !! x = k_timers k !! x;
  cb_user : forall a, k_timers k' !! TmUser a = k_timers k !! TmUser a;
  cb_ready : forall t th, is_ready k t th -> exists th', is_ready k' t th';
  cb_woken : forall t, TmThread t ∈ k_timer_list k ->
    TmThread t ∈ k_timer_list k' \/ exists th, is_ready k' t th
}.

(** A timeout function returns, keeps the kernel invariant and its frame. *)
Definition cb_ok (user_cb : Z -> Z -> M unit) : Prop := forall b bd idle f p k,
  core b bd idle k -> exists k', user_cb f p k = Some (tt, k') /\ core b bd idle k' /\ cb_frame k k'.

(** It does not touch the thread [t]. *)
Definition cb_quiet (user_cb : Z -> Z -> M unit) (t : Z) : Prop := forall f p k k',
  user_cb f p k = Some (tt, k') -> k_threads k' !! t = k_threads k !! t.

(** It keeps [I], a property of the objects of the other components. *)
Definition cb_keeps (user_cb : Z -> Z -> M unit) (I : kstate -> Prop) : Prop := forall b bd idle f p k k',
  core b bd idle k -> I k -> user_cb f p k = Some (tt, k') -> I k'.

(** What is true of the objects before a tick is true after it. *)
Definition preserves (user_cb : Z -> Z -> M unit) (k k' : kstate) : Prop := forall I,
  Stable I -> cb_keeps user_cb I -> I k -> I k'.

(** The control block of a thread whose wait has timed out. *)
Definition woken (th : rt_thread) : rt_thread :=
  set_th_stat RT_THREAD_READY (set_th_error (- RT_ETIMEOUT) th).

(** A timer whose time has come at the tick after [b]. *)
Definition expired (b : Z) (k : kstate) (x : tmid) : bool :=
  match k_timers k !! x with Some tm => delta b tm <=? 1 | None => false end.
Definition n_expired (b : Z) (k : kstate) : nat :=
  length (filter (fun x => expired b k x = true) (k_timer_list k)).

(** What the expiry of the timer [x] does to the threads and the other timers. *)
Record fired (user_cb : Z -> Z -> M unit) (x : tmid) (k k' : kstate) : Prop := {
  fi_tick : k_tick k' = k_tick k;
  fi_int : k_int_nest k' = k_int_nest k;
  fi_ready : forall t th, is_ready k t th -> exists th', is_ready k' t th';
  fi_listed : forall t, TmThread t ∈ k_timer_list k ->
    (TmThread t ∈ k_timer_list k' /\ k_timers k' !! TmThread t = k_timers k !! TmThread t) \/
    exists th, is_ready k' t th;
  fi_back : forall t, TmThread t ∈ k_timer_list k' -> TmThread t ∈ k_timer_list k;
  fi_head : forall t, x = TmThread t -> exists th, k_threads k !! t = Some th /\
    k_threads k' !! t = Some (woken th);
  fi_quiet : forall t, cb_quiet user_cb t -> x <> TmThread t ->
    k_threads k' !! t = k_threads k !! t;
  fi_keeps : preserves user_cb k k'
}.

(** What a whole check does to a thread that waits with a timer. *)
Record checked (user_cb : Z -> Z -> M unit) (T : Z) (k k' : kstate) : Prop := {
  ch_tick : k_tick k' = k_tick k;
  ch_int : k_int_nest k' = k_int_nest k;
  ch_ready : forall t th, is_ready k t th -> exists th', is_ready k' t th';
  (** a wait that has expired is over, another goes on unless a callback ended it *)
  ch_listed : forall t tm, TmThread t ∈ k_timer_list k -> k_timers k !! TmThread t = Some tm ->
    (2 <= delta T tm /\ TmThread t ∈ k_timer_list k' /\ k_timers k' !! TmThread t = Some tm) \/
    exists th, is_ready k' t th;
  (** exactly, when no callback touches the thread *)
  ch_quiet : forall t th, cb_quiet user_cb t -> k_threads k !! t = Some th ->
    k_threads k' !! t = Some (if bool_decide (TmThread t ∈ k_timer_list k) && expired T k (TmThread t)
                              then woken th else th);
  ch_keeps : preserves user_cb k k'
}.

(** What one tick interrupt does to the threads. *)
Record ticked (user_cb : Z -> Z -> M unit) (k k' : kstate) : Prop := {
  ti_tick : k_tick k' = u32 (k_tick k + 1);
  ti_int : 0 <= k_int_nest k < 256 -> k_int_nest k' = k_int_nest k;
  ti_ready : forall t th, is_ready k t th -> exists th', is_ready k' t th';
  (** a wait with one tick left is over; a longer one has one tick less *)
  ti_wait : forall t tm, TmThread t ∈ k_timer_list k -> k_timers k !! TmThread t = Some tm ->
    (2 <= delta (k_tick k) tm /\ TmThread t ∈ k_timer_list k' /\
     k_timers k' !! TmThread t = Some tm /\ delta (k_tick k') tm = delta (k_tick k) tm - 1) \/
    exists th, is_ready k' t th;
  ti_quiet : forall t th, cb_quiet user_cb t -> k_threads k !! t = Some th -> k_current k <> Some t ->
    k_threads k' !! t =
      Some (if bool_decide (TmThread t ∈ k_timer_list k) && expired (k_tick k) k (TmThread t)
            then woken th else th);
  ti_keeps : preserves user_cb k k'
}.

(** ** Lemmas *)

#[export] Instance preserves_refl user_cb : Reflexive (preserves user_cb).
Proof. by intros k I. Qed.
#[export] Instance preserves_trans user_cb : Transitive (preserves user_cb).
Proof. intros k k1 k2 H1 H2 I HI Hcb Hk. apply (H2 I); [done..|]. by apply (H1 I). Qed.
Lemma preserves_quiet user_cb k k' : quiet_step k k' -> preserves user_cb k k'.
Proof. intros Hq I HI _ Hk. by apply (stable_step k). Qed.
#[export] Hint Resolve preserves_quiet : rt.

Lemma timer_run t tm k : k_timers k !! t = Some tm -> get_timer t k = Some (tm, k).
Proof. intros E. unfold get_timer. by rewrite E. Qed.

Lemma mod_timer_run t tm f k :
  k_timers k !! t = Some tm ->
  mod_timer t f k = Some (tt, set_k_timers (<[t := f tm]> (k_timers k)) k).
Proof. intros E. unfold mod_timer. by rewrite (bind_run _ _ _ _ _ (timer_run _ _ _ E)). Qed.

(** The base of the timers' clock may be widened. *)
Lemma timer_wf_mono b bd bd' k : bd <= bd' -> timer_wf_at b bd k -> timer_wf_at b bd' k.
Proof.
  intros Hle [Q1 Q2 Q3 Q4 Q5 Q6 Q7 Q8]. split; try done.
  intros x Hx. destruct (Q3 x Hx) as (tm & E & Ha & Hd). exists tm. split; [done|]. split; [done|lia].
Qed.

(** Expiry of the timer of a thread: the thread becomes ready with
    [-RT_ETIMEOUT], as if it had been resumed. *)
Lemma fire_thread user_cb b bd idle k t l :
  core b bd idle k -> k_timer_list k = TmThread t :: l ->
  exists th tm k', k_threads k !! t = Some th /\ k_timers k !! TmThread t = Some tm /\
    let th' := set_th_stat RT_THREAD_READY (set_th_error (- RT_ETIMEOUT) th) in
    (rt_timer_remove (TmThread t);; timeout_call user_cb (tm_func tm);; now ← rt_tick_get;
     timer_rearm (TmThread t);; mret now) k = Some (k_tick k, k') /\
    core b bd idle k' /\ core_only k k' /\ k_timer_list k' = l /\
    k_timers k' = <[TmThread t := tm_clear_active tm]> (k_timers k) /\
    k_threads k' = <[t := th']> (k_threads k) /\ ipc_frame no_growth k k'.
Proof.
  intros Hc El. pose proof Hc as [[Hk [thi Hi] Hsc] (c & thc & Ec & Hcr)]. pose proof Hk as [Hwf Hw].
  assert (Hin : TmThread t ∈ k_timer_list k) by (rewrite El; set_solver).
  destruct (tw_waiting _ _ k Hw t Hin) as (th & E & Hs).
  destruct (tw_thread _ _ k Hw t th E) as (tm & Em & Hf & Hper & _).
  destruct (tw_listed _ _ k Hw _ Hin) as (tm' & Em' & Hact & _). assert (tm' = tm) as -> by congruence.
  set (the := set_th_error (- RT_ETIMEOUT) th). set (k0 := put_th t the k).
  assert (Hth : thread_wf the) by (exact (wf_thread k Hwf t th E)).
  assert (Hk0 : kinv_at b bd k0) by (by apply put_th_inv with th).
  assert (E0 : k_threads k0 !! t = Some the) by (cbn; apply lookup_insert_eq).
  set (k1 := resume_eff t the k0). pose proof (resume_eff_inv b bd k0 t the Hk0 E0 Hs) as Hk1. fold k1 in Hk1.
  assert (Hl : filter (fun x => x <> TmThread t) (k_timer_list k) = l).
  { pose proof (tw_nodup _ _ k Hw) as Hn. rewrite El in Hn |- *. apply list.NoDup_cons in Hn as [Hn _].
    rewrite filter_cons_False by tauto. by rewrite filter_ne_id. }
  assert (Est : timer_stop_eff (TmThread t) k0 =
    set_k_timers (<[TmThread t := tm_clear_active tm]> (k_timers k)) (set_k_timer_list l k0)).
  { unfold timer_stop_eff. change (k_timers k0) with (k_timers k).
    change (k_timer_list k0) with (k_timer_list k). by rewrite Em, Hact, Hl. }
  assert (Et1 : k_threads k1 = <[t := set_th_stat RT_THREAD_READY the]> (k_threads k)).
  { unfold k1, resume_eff. rewrite Est. cbn. by rewrite insert_insert_eq. }
  assert (Ec1 : k_current k1 = k_current k) by (unfold k1, resume_eff; by rewrite Est).
  assert (Hrd : forall u thu, is_ready k u thu -> is_ready k1 u thu).
  { intros u thu Hu. eapply is_ready_other; [exact Et1| |done]. by eapply is_ready_ne. }
  destruct (rt_schedule_core b bd idle k1) as (k' & Er & Hc' & Hsw & _).
  { split; [done|by eauto|by rewrite Ec1]. }
  { right. exists c, thc. rewrite Ec1. auto. }
  exists th, tm, k'. split; [done|]. split; [done|]. cbv zeta. fold the.
  assert (Hsame : k_timers k' = k_timers k1 /\ k_timer_list k' = k_timer_list k1 /\
    k_threads k' = k_threads k1 /\ core_only k1 k').
  { destruct Hsw as [->|(p & u & ->)]; [by split; [|split; [|split]]|].
    split; [done|]. split; [done|]. split; [done|apply switch_core]. }
  destruct Hsame as (S1 & S2 & S3 & F).
  assert (Et : k_timers k1 = <[TmThread t := tm_clear_active tm]> (k_timers k)
    /\ k_timer_list k1 = l /\ core_only k k1).
  { unfold k1, resume_eff. rewrite Est. by destruct k. }
  destruct Et as (Etm & Etl & F1).
  assert (Hfr : ipc_frame no_growth k k').
  { etrans; [by apply (ipc_frame_put_th _ k t th the)|]. fold k0. etrans.
    - by apply (ipc_frame_resume_eff _ b bd k0 t the).
    - fold k1. destruct Hsw as [->|(p & u & ->)]; [done|apply ipc_frame_switch]. }
  split; [|split; [done|split; [by etrans|split; [congruence|split; [congruence|split; [congruence|done]]]]]].
  assert (Hto : rt_thread_timeout t (set_k_timer_list l k) =
    Some (tt, set_k_timers (k_timers k) k')).
  { rewrite (rt_thread_timeout_run _ t th); [|done|done|apply Hth].
    apply (rt_schedule_timers (k_timers k)) in Er. rewrite <-Er. f_equal.
    unfold k1, resume_eff. rewrite Est. done. }
  unfold rt_timer_remove at 1. erewrite bind_run; [|reflexivity]. rewrite Hl, Hf. cbn [timeout_call].
  mstep_by Hto. mstep. assert (Etk : k_tick (set_k_timers (k_timers k) k') = k_tick k).
  { cbn. assert (core_only k k') as F2 by (by etrans). by rewrite F2. }
  rewrite Etk.
  assert (Hre : timer_rearm (TmThread t) (set_k_timers (k_timers k) k') = Some (tt, k')).
  { unfold timer_rearm. rewrite (bind_run _ _ _ _ _ (timer_run _ tm (set_k_timers (k_timers k) k') Em)), Hper. cbn [andb].
    rewrite (mod_timer_run (TmThread t) tm) by done. do 2 f_equal. cbn.
    rewrite <-Etm, <-S1. by destruct k'. }
  mstep_by Hre. done.
Qed.

Lemma n_expired_incl (l1 l2 : list tmid) (f1 f2 : tmid -> bool) :
  NoDup l1 -> (forall x, x ∈ l1 -> f1 x = true -> x ∈ l2 /\ f2 x = true) ->
  (length (filter (fun x => f1 x = true) l1) <= length (filter (fun x => f2 x = true) l2))%nat.
Proof.
  intros Hn Hi. apply submseteq_length, NoDup_submseteq; [by apply list.NoDup_filter|].
  intros x. rewrite !list_elem_of_filter. intros [Hf Hx]. destruct (Hi x Hx Hf). done.
Qed.

Lemma expired_spec b k x tm :
  k_timers k !! x = Some tm -> (expired b k x = true <-> delta b tm <= 1).
Proof. intros E. unfold expired. rewrite E. apply Z.leb_le. Qed.

Lemma n_expired_cons b k x l :
  k_timer_list k = x :: l -> expired b k x = true ->
  n_expired b k = S (length (filter (fun x => expired b k x = true) l)).
Proof. intros El Hx. unfold n_expired. rewrite El, filter_cons_True by done. done. Qed.

(** The iteration for the timer of a thread. *)
Lemma fire_thread_step user_cb b bd idle k t l tm :
  core b bd idle k -> k_timer_list k = TmThread t :: l ->
  k_timers k !! TmThread t = Some tm -> delta b tm <= 1 ->
  exists k', (rt_timer_remove (TmThread t);; timeout_call user_cb (tm_func tm);; now ← rt_tick_get;
     timer_rearm (TmThread t);; mret now) k = Some (k_tick k, k') /\
    core b bd idle k' /\ (n_expired b k' < n_expired b k)%nat /\
    fired user_cb (TmThread t) k k'.
Proof.
  intros Hc El Em Hd. pose proof Hc as [[[Hwf Hw] _ _] _].
  destruct (fire_thread user_cb b bd idle k t l Hc El) as (th & tm' & k' & E & Em' & Er & Hc' & F & El' & Et' & Eth & Hfr).
  assert (tm' = tm) as -> by congruence. exists k'. split; [done|]. split; [done|].
  pose proof (tw_nodup _ _ k Hw) as Hn. rewrite El in Hn. apply list.NoDup_cons in Hn as [Hn Hnl].
  assert (Hs : th_stat th = RT_THREAD_SUSPEND).
  { destruct (tw_waiting _ _ k Hw t) as (th' & E' & Hs'); [rewrite El; set_solver|congruence]. }
  split; [|split].
  - rewrite (n_expired_cons b k (TmThread t) l El) by (by apply (expired_spec b k _ tm Em)).
    unfold n_expired. rewrite El'. apply Nat.lt_succ_r, n_expired_incl; [done|]. intros x Hx Hex.
    split; [done|]. unfold expired in *. rewrite Et', lookup_insert_ne in Hex by (by intros <-). done.
  - by rewrite F.
  - by rewrite F.
  - intros u thu Hu. exists thu. eapply is_ready_other; [exact Eth| |done]. by eapply is_ready_ne.
  - intros u Hu. rewrite El in Hu. destruct (decide (u = t)) as [->|Hne].
    + right. exists (woken th). split; [|done]. by rewrite Eth, lookup_insert_eq.
    + left. rewrite El', Et', lookup_insert_ne by congruence. split; [set_solver|done].
  - intros u Hu. rewrite El' in Hu. rewrite El. set_solver.
  - intros u [= <-]. exists th. by rewrite Eth, lookup_insert_eq.
  - intros u _ Hu. rewrite Eth, lookup_insert_ne; [done|congruence].
  - auto with rt.
Qed.

(** The timer at the head leaves the list: a timer of the application. *)
Lemma unlink_user_inv b bd k a l :
  timer_wf_at b bd k -> k_timer_list k = TmUser a :: l -> timer_wf_at b bd (set_k_timer_list l k).
Proof.
  intros [Q1 Q2 Q3 Q4 Q5 Q6 Q7 Q8] El. rewrite El in *. apply list.NoDup_cons in Q2 as [_ Q2].
  destruct Q4 as [_ Q4]. split; try done.
  - intros x Hx. apply Q3. cbn in Hx. set_solver.
  - intros t Ht. apply Q6. cbn in Ht. set_solver.
  - intros t th tm E Em Hs Ha. pose proof (Q7 t th tm E Em Hs Ha). cbn. set_solver.
Qed.

(** A timer of the application that is not in the list may change. *)
Lemma put_user_timer_inv b bd k a tm :
  timer_wf_at b bd k -> TmUser a ∉ k_timer_list k -> timer_ok (TmUser a) tm ->
  timer_wf_at b bd (set_k_timers (<[TmUser a := tm]> (k_timers k)) k).
Proof.
  intros [Q1 Q2 Q3 Q4 Q5 Q6 Q7 Q8] Hn Hok. split; try done.
  - intros x Hx. cbn. rewrite lookup_insert_ne by (intros <-; done). by apply Q3.
  - eapply timers_sorted_ext; [|exact Q4]. intros x Hx. cbn. by rewrite lookup_insert_ne by (intros <-; done).
  - intros t th E. cbn. rewrite lookup_insert_ne by done. by apply (Q5 t th).
  - intros t th tm' E. cbn. rewrite lookup_insert_ne by done. by apply Q7.
  - intros x tx. cbn. rewrite lookup_insert. case_decide; [|apply Q8]. intros [= <-]. by subst x.
Qed.

(** The invariants of the threads do not read the timers. *)
Lemma core_timers b bd idle k v l r :
  core b bd idle k -> timer_wf_at b bd (set_k_timers v (set_k_timer_list l (set_k_random_nr r k))) ->
  core b bd idle (set_k_timers v (set_k_timer_list l (set_k_random_nr r k))).
Proof.
  intros [[[Hwf _] Hi Hs] Hcur] Hw. split; [split; [split|..]|]; try done.
  by apply (sched_wf_ext k).
Qed.

Lemma timer_rearm_user T idle k a tm :
  core T (RT_TICK_HALF + 1) idle k -> 0 <= T < 4294967296 -> k_tick k = u32 (T + 1) ->
  k_timers k !! TmUser a = Some tm -> TmUser a ∉ k_timer_list k ->
  exists k' tm', timer_rearm (TmUser a) k = Some (tt, k') /\ core T (RT_TICK_HALF + 1) idle k' /\
    k_timers k' = <[TmUser a := tm']> (k_timers k) /\
    k_threads k' = k_threads k /\ k_tick k' = k_tick k /\ k_int_nest k' = k_int_nest k /\ quiet_step k k' /\
    (k_timer_list k' = k_timer_list k \/
     2 <= delta T tm' /\ exists l1 l2, k_timer_list k = l1 ++ l2 /\ k_timer_list k' = l1 ++ TmUser a :: l2).
Proof.
  intros Hc HT Ht Em Hn. pose proof Hc as [[[Hwf Hw] _ _] _].
  pose proof (tw_ok _ _ k Hw _ tm Em) as [Hper Hfn].
  set (tmc := tm_clear_active tm). set (k1 := set_k_timers (<[TmUser a := tmc]> (k_timers k)) k).
  assert (Hw1 : timer_wf_at T (RT_TICK_HALF + 1) k1).
  { apply put_user_timer_inv; [done|done|]. split; [unfold tmc; by rewrite tm_periodic_clear|done]. }
  assert (Hc1 : core T (RT_TICK_HALF + 1) idle k1).
  { pose proof (core_timers _ _ idle k (k_timers k1) (k_timer_list k) (k_random_nr k) Hc) as Hx.
    destruct k. by apply Hx. }
  assert (Em1 : k_timers k1 !! TmUser a = Some tmc) by (cbn; apply lookup_insert_eq).
  unfold timer_rearm. rewrite (bind_run _ _ _ _ _ (timer_run _ tm k Em)).
  destruct (tm_periodic tm && tm_active tm) eqn:Ep.
  - apply andb_true_iff in Ep as [Ep _]. specialize (Hper Ep).
    mstep_by (mod_timer_run (TmUser a) tm tm_clear_active k Em). fold tmc. fold k1.
    assert (Hst : u32 (k_tick k1 + tm_init_tick tmc - T) = tm_init_tick tm + 1).
    { change (k_tick k1) with (k_tick k). change (tm_init_tick tmc) with (tm_init_tick tm).
      rewrite Ht. unfold RT_TICK_HALF in *. mlia. }
    assert (Hsb : startable (RT_TICK_HALF + 1) (u32 (k_tick k1 + tm_init_tick tmc - T))).
    { rewrite Hst. unfold startable. lia. }
    destruct (rt_timer_start_run _ _ k1 (TmUser a) tmc Hw1 Em1 (tm_active_clear tm) ltac:(cbn; lia) Hsb)
      as (l1 & l2 & El & Er & H1 & H2).
    pose proof (timer_start_wf _ _ k1 (TmUser a) tmc l1 l2 Hw1 Em1 (tm_active_clear tm) Hsb El H1 H2
      ltac:(done)) as Hw2.
    mstep_by Er. eexists _, _. split; [done|]. split; [by apply core_timers|].
    split; [cbn; by rewrite insert_insert_eq|]. do 3 (split; [done|]). split; [by apply quiet_same|].
    right. split; [|by eauto]. unfold delta. cbn. change (k_tick k1) with (k_tick k) in *.
    rewrite Ht. unfold RT_TICK_HALF in *. mlia.
  - rewrite (mod_timer_run (TmUser a) tm) by done. fold tmc. fold k1. exists k1, tmc.
    do 6 (split; [done|]). split; [by apply quiet_same|]. by left.
Qed.

(** The iteration for a timer of the application. *)
Lemma fire_user_step user_cb T idle k a l tm :
  cb_ok user_cb -> core T (RT_TICK_HALF + 1) idle k -> 0 <= T < 4294967296 -> k_tick k = u32 (T + 1) ->
  k_timer_list k = TmUser a :: l -> k_timers k !! TmUser a = Some tm ->
  delta T tm <= 1 ->
  exists k', (rt_timer_remove (TmUser a);; timeout_call user_cb (tm_func tm);; now ← rt_tick_get;
     timer_rearm (TmUser a);; mret now) k = Some (k_tick k, k') /\
    core T (RT_TICK_HALF + 1) idle k' /\ (n_expired T k' < n_expired T k)%nat /\
    fired user_cb (TmUser a) k k'.
Proof.
  intros Hcb Hc HT Ht El Em Hd. pose proof Hc as [[[Hwf Hw] Hi Hs] Hcur].
  pose proof (tw_nodup _ _ k Hw) as Hn. rewrite El in Hn. apply list.NoDup_cons in Hn as [Hn Hnl].
  set (k0 := set_k_timer_list l k).
  assert (Hc0 : core T (RT_TICK_HALF + 1) idle k0).
  { split; [split; [split|..]|]; [by apply (sched_wf_ext k)|by eapply unlink_user_inv|done..]. }
  destruct (tm_func tm) as [t|f p] eqn:Ef; [by destruct (proj2 (tw_ok _ _ k Hw _ tm Em) a t)|].
  destruct (Hcb T (RT_TICK_HALF + 1) idle f p k0 Hc0) as (k1 & Er & Hc1 & Hf).
  destruct (timer_rearm_user T idle k1 a tm Hc1 HT) as (k' & tm' & Er' & Hc' & Et' & Eth & Etk & Ein & Hqu & Hlist).
  { rewrite (cb_tick _ _ Hf). done. }
  { rewrite (cb_user _ _ Hf). done. }
  { intros Hin. by apply (cb_list _ _ Hf) in Hin as [Hin _]. }
  exists k'. split.
  { unfold rt_timer_remove. erewrite bind_run; [|reflexivity].
    rewrite El, filter_cons_False, filter_ne_id by tauto. fold k0. cbn [timeout_call].
    mstep_by Er. mstep. rewrite (cb_tick _ _ Hf). mstep_by Er'. done. }
  split; [done|].
  assert (Hin' : forall x, x ∈ k_timer_list k' -> x = TmUser a \/ x ∈ k_timer_list k1).
  { destruct Hlist as [->|(_ & l1 & l2 & -> & ->)]; [auto|set_solver]. }
  assert (Hin1 : forall x, x ∈ k_timer_list k1 -> x ∈ k_timer_list k').
  { destruct Hlist as [->|(_ & l1 & l2 & -> & ->)]; [auto|set_solver]. }
  assert (Hl1 : forall x, x ∈ k_timer_list k1 -> x ∈ l /\ k_timers k1 !! x = k_timers k !! x)
    by apply (cb_list _ _ Hf).
  split; [|split].
  - rewrite (n_expired_cons T k (TmUser a) l El) by (by apply (expired_spec T k _ tm Em)).
    apply Nat.lt_succ_r. apply n_expired_incl; [apply Hc'|]. intros x Hx Hex. unfold expired in Hex.
    destruct (decide (x = TmUser a)) as [->|Hne].
    + exfalso. rewrite Et', lookup_insert_eq in Hex. apply Z.leb_le in Hex.
      destruct Hlist as [Hl'|[Hge _]]; [|lia]. rewrite Hl' in Hx. by apply Hl1 in Hx as [Hx _].
    + rewrite Et', lookup_insert_ne in Hex by done. destruct (Hin' x Hx) as [|Hx1]; [done|].
      destruct (Hl1 x Hx1) as [Hxl E1]. split; [done|]. unfold expired. by rewrite <-E1.
  - rewrite Etk. apply (cb_tick _ _ Hf).
  - rewrite Ein. apply (cb_int _ _ Hf).
  - intros t th Hr. destruct (cb_ready _ _ Hf t th Hr) as [th' [E' Hs']]. exists th'. split; [by rewrite Eth|done].
  - intros t Hin. rewrite El in Hin. assert (Hin0 : TmThread t ∈ k_timer_list k0) by (cbn; set_solver).
    destruct (cb_woken _ _ Hf t Hin0) as [Hw1|[th' [E' Hs']]].
    + left. split; [by apply Hin1|]. rewrite Et', lookup_insert_ne by done. by apply Hl1.
    + right. exists th'. split; [by rewrite Eth|done].
  - intros t Hx. destruct (Hin' _ Hx) as [|Hx1]; [done|]. rewrite El. apply Hl1 in Hx1 as [? _]. set_solver.
  - done.
  - intros t Hq _. rewrite Eth. by rewrite (Hq f p k0 k1 Er).
  - intros I HI Hkp Hk. apply (stable_step k1); [|done]. apply (Hkp T (RT_TICK_HALF + 1) idle f p k0); try done.
    apply (stable_step k); [done|by apply quiet_same].
Qed.

(** ** The loop *)

(** The expiry test of the code, one tick after [T]. *)
Lemma expiry_test T tm now :
  0 <= T < 4294967296 -> now = u32 (T + 1) -> delta T tm < RT_TICK_HALF + 1 ->
  (u32 (now - tm_timeout_tick tm) <? RT_TICK_HALF) = (delta T tm <=? 1).
Proof.
  intros HT -> Hd. unfold delta in *. unfold RT_TICK_HALF in *.
  destruct (Z.leb_spec (u32 (tm_timeout_tick tm - T)) 1) as [H|H].
  - apply Z.ltb_lt. mlia.
  - apply Z.ltb_ge. mlia.
Qed.

(** One iteration, for either kind of timer. *)
Lemma fire_step user_cb T idle k x l tm :
  cb_ok user_cb -> core T (RT_TICK_HALF + 1) idle k -> 0 <= T < 4294967296 -> k_tick k = u32 (T + 1) ->
  k_timer_list k = x :: l -> k_timers k !! x = Some tm -> delta T tm <= 1 ->
  exists k', (rt_timer_remove x;; timeout_call user_cb (tm_func tm);; now ← rt_tick_get;
     timer_rearm x;; mret now) k = Some (k_tick k, k') /\
    core T (RT_TICK_HALF + 1) idle k' /\ (n_expired T k' < n_expired T k)%nat /\
    fired user_cb x k k'.
Proof.
  intros Hcb Hc HT Ht El Em Hd. destruct x as [t|a]; [by eapply fire_thread_step|].
  by eapply fire_user_step.
Qed.

Lemma n_expired_0 b bd k :
  timer_wf_at b bd k ->
  (n_expired b k = O <->
   forall x tm, x ∈ k_timer_list k -> k_timers k !! x = Some tm -> 2 <= delta b tm).
Proof.
  intros Hw. unfold n_expired. split.
  - intros H0 x tm Hx Ex. destruct (decide (2 <= delta b tm)) as [|Hlt]; [done|].
    apply length_zero_iff_nil in H0.
    assert (Hx' : x ∈ filter (fun x => expired b k x = true) (k_timer_list k)).
    { apply list_elem_of_filter. split; [|done]. apply (expired_spec b k x tm Ex). lia. }
    rewrite H0 in Hx'. by apply not_elem_of_nil in Hx'.
  - intros Hall. destruct (filter _ (k_timer_list k)) as [|y l] eqn:Ef; [done|].
    assert (Hy : y ∈ filter (fun x => expired b k x = true) (k_timer_list k)) by (rewrite Ef; set_solver).
    apply list_elem_of_filter in Hy as [Hy Hin].
    destruct (tw_listed _ _ k Hw y Hin) as (tm & Ey & _). apply (expired_spec b k y tm Ey) in Hy.
    specialize (Hall y tm Hin Ey). lia.
Qed.

Lemma checked_refl user_cb b bd k :
  timer_wf_at b bd k -> n_expired b k = O -> checked user_cb b k k.
Proof.
  intros Hw H0. pose proof (proj1 (n_expired_0 b bd k Hw) H0) as Hnone. split; try done.
  - eauto.
  - intros t tm Hin Em. left. split; [by eapply Hnone|done].
  - intros t th _ E. rewrite E. case_bool_decide as Hin; [|done]. cbn.
    destruct (tw_listed _ _ k Hw _ Hin) as (tm & Em & _). specialize (Hnone _ _ Hin Em).
    unfold expired. rewrite Em. destruct (Z.leb_spec (delta b tm) 1); [lia|done].
Qed.

(** The list is sorted: when its head has not expired, no timer has. *)
Lemma head_not_expired b bd k x l tm :
  timer_wf_at b bd k -> k_timer_list k = x :: l -> k_timers k !! x = Some tm -> 1 < delta b tm ->
  n_expired b k = O.
Proof.
  intros Hw El Em Hd. apply (n_expired_0 b bd k Hw). intros y tmy Hin Ey.
  pose proof (tw_sorted _ _ k Hw) as Hso. rewrite El in Hso, Hin. destruct Hso as [Hso _].
  apply elem_of_cons in Hin as [->|Hin]; [simplify_eq; lia|].
  specialize (Hso y tm tmy Hin Em Ey). lia.
Qed.

(** The state of a thread whose wait is not over does not change. *)
Lemma fired_quiet user_cb b bd idle T k k1 x t th :
  core b bd idle k -> core b bd idle k1 -> fired user_cb x k k1 -> expired T k x = true ->
  x ∈ k_timer_list k ->
  cb_quiet user_cb t -> k_threads k !! t = Some th ->
  let due k := bool_decide (TmThread t ∈ k_timer_list k) && expired T k (TmThread t) in
  k_threads k1 !! t = Some (if bool_decide (x = TmThread t) then woken th else th) /\
  (x <> TmThread t -> due k1 = due k) /\ (x = TmThread t -> due k1 = false /\ due k = true).
Proof.
  intros Hc Hc1 Hf Hex Hin Hq E due. destruct (decide (x = TmThread t)) as [->|Hne].
  - destruct (fi_head _ _ _ _ Hf t eq_refl) as (th' & E' & E1). assert (th' = th) as -> by congruence.
    rewrite bool_decide_true by done. split; [done|]. split; [done|]. intros _. split.
    + unfold due. rewrite bool_decide_false; [done|]. eapply ready_unlisted; [apply Hc1|].
      split; [exact E1|done].
    + unfold due. by rewrite bool_decide_true.
  - pose proof (fi_quiet _ _ _ _ Hf t Hq Hne) as E1. rewrite bool_decide_false by done.
    split; [congruence|]. split; [|done]. intros _. unfold due.
    destruct (decide (TmThread t ∈ k_timer_list k)) as [Hl|Hl].
    + destruct (fi_listed _ _ _ _ Hf t Hl) as [[Hl1 Et]|[th1 Hr1]].
      * rewrite !bool_decide_true by done. unfold expired. by rewrite Et.
      * destruct (tw_waiting _ _ k (proj2 (c_inv (c_core0 Hc))) t Hl) as (th2 & E2 & Hs2).
        destruct (is_ready_ne k1 t th1 t th2 Hr1); [congruence|done|done].
    + rewrite !bool_decide_false; [done|done|]. intros Hl1. by apply (fi_back _ _ _ _ Hf) in Hl1.
Qed.

(** One iteration, then the rest. *)
Lemma checked_step user_cb T idle k k1 k' x tm :
  core T (RT_TICK_HALF + 1) idle k -> core T (RT_TICK_HALF + 1) idle k1 ->
  x ∈ k_timer_list k -> k_timers k !! x = Some tm -> delta T tm <= 1 ->
  fired user_cb x k k1 -> checked user_cb T k1 k' -> checked user_cb T k k'.
Proof.
  intros Hc Hc1 Hx Em Hexp Hf Hch. split.
  - rewrite (ch_tick _ _ _ _ Hch). apply (fi_tick _ _ _ _ Hf).
  - rewrite (ch_int _ _ _ _ Hch). apply (fi_int _ _ _ _ Hf).
  - intros t th Hr. destruct (fi_ready _ _ _ _ Hf t th Hr) as [th1 Hr1]. by eapply (ch_ready _ _ _ _ Hch).
  - intros t tmt Hin Et. destruct (fi_listed _ _ _ _ Hf t Hin) as [[Hin1 Et1]|[th1 Hr1]].
    + apply (ch_listed _ _ _ _ Hch); congruence.
    + right. by eapply (ch_ready _ _ _ _ Hch).
  - intros t th Hq E. destruct (fired_quiet user_cb _ _ idle T k k1 x t th Hc Hc1 Hf) as (E1 & D1 & D2); try done.
    { by apply (expired_spec T k x tm Em). }
    rewrite (ch_quiet _ _ _ _ Hch t _ Hq E1). cbv zeta in *.
    destruct (decide (x = TmThread t)) as [->|Hne].
    + destruct (D2 eq_refl) as [-> ->]. by rewrite bool_decide_true.
    + rewrite D1 by done. by rewrite (bool_decide_false (x = TmThread t)).
  - etrans; [apply (fi_keeps _ _ _ _ Hf)|apply (ch_keeps _ _ _ _ Hch)].
Qed.

Lemma seq_run {A B C D} (m : M A) (n : M B) (g : M C) (r : M D) (f : C -> M unit) v k k' :
  (m;; n;; now ← g; r;; mret now) k = Some (v, k') -> (m;; n;; now ← g; r;; f now) k = f v k'.
Proof.
  unfold mbind, M_bind. destruct (m k) as [[? k1]|]; [|done]. destruct (n k1) as [[? k2]|]; [|done].
  destruct (g k2) as [[c k3]|]; [|done]. destruct (r k3) as [[? k4]|]; [|done].
  by intros [= <- <-].
Qed.

Lemma timer_check_loop_run user_cb T idle n : forall k fuel,
  cb_ok user_cb -> core T (RT_TICK_HALF + 1) idle k -> 0 <= T < 4294967296 -> k_tick k = u32 (T + 1) ->
  (n_expired T k <= n)%nat -> (n < fuel)%nat ->
  exists k', timer_check_loop user_cb fuel (k_tick k) k = Some (tt, k') /\
    core T (RT_TICK_HALF + 1) idle k' /\ checked user_cb T k k' /\ n_expired T k' = O.
Proof.
  induction n as [n IH] using lt_wf_ind. intros k fuel Hcb Hc HT Ht Hn Hfuel.
  destruct fuel as [|fuel]; [lia|]. cbn [timer_check_loop]. pose proof Hc as [[[Hwf Hw] _ _] _].
  pose proof (checked_refl user_cb T _ k Hw) as Hstop.
  mstep. destruct (k_timer_list k) as [|x l] eqn:El.
  - assert (H0 : n_expired T k = O) by (unfold n_expired; by rewrite El). exists k. auto.
  - assert (Hx : x ∈ k_timer_list k) by (rewrite El; set_solver).
    destruct (tw_listed _ _ k Hw x Hx) as (tm & Em & Ha & Hd).
    rewrite (bind_run _ _ _ _ _ (timer_run _ _ _ Em)). rewrite (expiry_test T) by done.
    destruct (Z.leb_spec (delta T tm) 1) as [Hexp|Hnexp].
    + destruct (fire_step user_cb T idle k x l tm) as (k1 & Er & Hc1 & Hlt & Hf); try done.
      rewrite (seq_run _ _ _ _ (timer_check_loop user_cb fuel) _ _ _ Er).
      rewrite <-(fi_tick _ _ _ _ Hf).
      destruct (IH (n_expired T k1) ltac:(lia) k1 fuel) as (k' & Er' & Hc' & Hch & H0); try done; [..|lia|].
      { by rewrite (fi_tick _ _ _ _ Hf). }
      exists k'. split; [done|]. split; [done|]. split; [by apply (checked_step user_cb T idle k k1 k' x tm)|done].
    + pose proof (head_not_expired T _ k x l tm Hw El Em Hnexp). exists k. auto.
Qed.

(** ** The tick interrupt *)

Lemma rt_timer_check_run user_cb T idle k :
  cb_ok user_cb -> core T (RT_TICK_HALF + 1) idle k -> 0 <= T < 4294967296 -> k_tick k = u32 (T + 1) ->
  exists k', rt_timer_check user_cb k = Some (tt, k') /\
    core T (RT_TICK_HALF + 1) idle k' /\ checked user_cb T k k' /\ n_expired T k' = O.
Proof.
  intros Hcb Hc HT Ht. unfold rt_timer_check. do 2 mstep.
  apply (timer_check_loop_run user_cb T idle (length (k_timer_list k))); try done; [|lia].
  apply length_filter.
Qed.

(** One tick later the timers that are left expire in the future again. *)
Lemma delta_next T tm :
  0 <= T < 4294967296 -> 1 <= delta T tm -> delta (u32 (T + 1)) tm = delta T tm - 1.
Proof. unfold delta. intros. mlia. Qed.

Lemma timers_sorted_next tms T l :
  0 <= T < 4294967296 ->
  (forall x tm, x ∈ l -> tms !! x = Some tm -> 1 <= delta T tm) ->
  (forall x, x ∈ l -> is_Some (tms !! x)) ->
  timers_sorted tms T l -> timers_sorted tms (u32 (T + 1)) l.
Proof.
  intros HT. induction l as [|x l IH]; [done|]. intros H1 H2 [Hs1 Hs2]. split.
  - intros y tm tm' Hy Ex Ey. rewrite !delta_next by (try done; eapply H1; eauto; set_solver).
    specialize (Hs1 y tm tm' Hy Ex Ey). lia.
  - apply IH; [|..]; [..|done].
    + intros y tm Hy. apply H1. set_solver.
    + intros y Hy. apply H2. set_solver.
Qed.

Lemma core_next T idle k :
  core T (RT_TICK_HALF + 1) idle k -> 0 <= T < 4294967296 -> k_tick k = u32 (T + 1) ->
  n_expired T k = O -> core (k_tick k) RT_TICK_HALF idle k.
Proof.
  intros [[[Hwf Hw] Hi Hs] Hcur] HT Ht H0. pose proof (proj1 (n_expired_0 _ _ k Hw) H0) as Hex.
  split; [split; [split|..]|]; try done. destruct Hw as [Q1 Q2 Q3 Q4 Q5 Q6 Q7 Q8]. rewrite Ht.
  split; try done.
  - intros x Hx. destruct (Q3 x Hx) as (tm & Ex & Ha & Hd). exists tm. split; [done|]. split; [done|].
    specialize (Hex x tm Hx Ex). rewrite delta_next by (done || lia). lia.
  - apply timers_sorted_next; try done.
    + intros x tm Hx Ex. specialize (Hex x tm Hx Ex). lia.
    + intros x Hx. destruct (Q3 x Hx) as (tm & Ex & _). eauto.
Qed.

Lemma core_set_tick idle k :
  core (k_tick k) RT_TICK_HALF idle k ->
  core (k_tick k) (RT_TICK_HALF + 1) idle (set_k_tick (u32 (k_tick k + 1)) k).
Proof.
  intros [[[Hwf Hw] Hi Hs] Hcur]. split; [split; [split|..]|]; try done; [by apply (sched_wf_ext k)|].
  apply (timer_wf_mono _ _ (RT_TICK_HALF + 1)) in Hw; [|lia].
  destruct Hw as [Q1 Q2 Q3 Q4 Q5 Q6 Q7 Q8]. split; try done. cbn. apply u32_range.
Qed.

Lemma core_set_int b bd idle k n : core b bd idle k -> core b bd idle (set_k_int_nest n k).
Proof.
  intros [[[Hwf Hw] Hi Hs] Hcur]. split; [split; [split|..]|]; try done;
    [by apply (sched_wf_ext k)|by apply (timer_wf_ext b bd k)].
Qed.

Lemma time_slice_core b bd idle k t th :
  core b bd idle k -> k_current k = Some t -> is_ready k t th ->
  exists k', time_slice t k = Some (tt, k') /\ core b bd idle k' /\ core_only k k' /\
    k_timers k' = k_timers k /\ k_timer_list k' = k_timer_list k /\
    (exists th', is_ready k' t th') /\ (forall u, u <> t -> k_threads k' !! u = k_threads k !! u) /\
    ipc_frame no_growth k k'.
Proof.
  intros Hc Ec [E Hs]. pose proof (wf_thread k (proj1 (c_inv (c_core0 Hc))) t th E) as Hth.
  set (th1 := set_th_remaining_tick (u32 (th_remaining_tick th - 1)) th).
  set (k1 := put_th t th1 k).
  assert (Hc1 : core b bd idle k1) by (by apply put_th_core with th).
  assert (E1 : k_threads k1 !! t = Some th1) by (cbn; apply lookup_insert_eq).
  assert (If1 : ipc_frame no_growth k k1) by (by apply ipc_frame_put_th with th).
  unfold time_slice. mstep. fold th1. fold k1. mstep.
  destruct (th_remaining_tick th1 =? 0).
  - set (th2 := set_th_remaining_tick (th_init_tick th1) th1). set (k2 := put_th t th2 k1).
    assert (Hc2 : core b bd idle k2) by (by apply put_th_core with th1).
    assert (E2 : k_threads k2 !! t = Some th2) by (cbn; apply lookup_insert_eq).
    destruct (rt_thread_yield_core b bd idle k2 t th2 Hc2 Ec) as (k' & Er & Hc' & F & Et & Em & El & Hq & _);
      [split; done|].
    exists k'. mstep_by (mod_thread_run t th1 (fun th => set_th_remaining_tick (th_init_tick th) th) k1 E1).
    fold th2. fold k2. mstep_by Er. split; [done|]. split; [done|]. split; [etrans; [|exact F]; by destruct k|].
    split; [done|]. split; [done|]. split; [|split].
    + exists th2. split; [by rewrite Et|done].
    + intros u Hu. rewrite Et. cbn. by rewrite !lookup_insert_ne.
    + etrans; [exact If1|]. etrans; [by apply (ipc_frame_put_th _ k1 t th1 th2)|].
      apply ipc_frame_lists; [done|]. intros h Hh. rewrite Hq. rewrite decide_False; [done|]. by apply wait_list_not_ready.
  - exists k1. split; [done|]. split; [done|]. split; [by destruct k|]. split; [done|]. split; [done|]. split; [|split].
    + by exists th1.
    + intros u Hu. cbn. by rewrite lookup_insert_ne.
    + done.
Qed.

Lemma rt_tick_increase_run user_cb idle k :
  cb_ok user_cb -> core (k_tick k) RT_TICK_HALF idle k ->
  exists k', rt_tick_increase user_cb k = Some (tt, k') /\ core (k_tick k') RT_TICK_HALF idle k' /\
    ticked user_cb k k'.
Proof.
  intros Hcb Hc. pose proof (tw_tick _ _ k (proj2 (c_inv (c_core0 Hc)))) as HT.
  pose proof (core_set_tick idle k Hc) as Hc1. set (k1 := set_k_tick _ k) in Hc1.
  pose proof Hc as [_ (c & thc & Ec & Hcr)].
  destruct (time_slice_core _ _ idle k1 c thc Hc1 Ec Hcr) as (k2 & Er2 & Hc2 & F2 & Em2 & El2 & [th2 Hr2] & Eo2 & If2).
  assert (Et2 : k_tick k2 = u32 (k_tick k + 1)) by (rewrite F2; done).
  destruct (rt_timer_check_run user_cb (k_tick k) idle k2 Hcb Hc2 HT Et2) as (k' & Er & Hc' & Hch & H0).
  assert (Etk : k_tick k' = u32 (k_tick k + 1)) by (rewrite (ch_tick _ _ _ _ Hch); done).
  exists k'. split; [|split; [by apply (core_next (k_tick k))|]].
  { unfold rt_tick_increase. mstep. fold k1. mstep. change (k_current k1) with (k_current k). rewrite Ec.
    mstep. mstep_by Er2. exact Er. }
  split; [done|..].
  - intros _. rewrite (ch_int _ _ _ _ Hch). by rewrite F2.
  - intros t th [E Hs]. destruct (decide (t = c)) as [->|Hne]; [by eapply (ch_ready _ _ _ _ Hch)|].
    apply (ch_ready _ _ _ _ Hch t th). split; [|done]. by rewrite Eo2.
  - intros t tm Hin Em. destruct (ch_listed _ _ _ _ Hch t tm) as [(Hd & Hin' & Em')|Hr].
    + by rewrite El2.
    + by rewrite Em2.
    + left. split; [done|]. split; [done|]. split; [done|]. rewrite Etk. apply delta_next; [done|lia].
    + by right.
  - intros t th Hq E Hnc. rewrite (ch_quiet _ _ _ _ Hch t th Hq).
    + rewrite El2. unfold expired. by rewrite Em2.
    + rewrite Eo2 by (intros ->; done). done.
  - etrans; [apply (preserves_quiet _ k k1); by apply quiet_same|].
    etrans; [apply preserves_quiet; by apply quiet_core|apply (ch_keeps _ _ _ _ Hch)].
Qed.

Lemma SysTick_Handler_run user_cb idle k :
  cb_ok user_cb -> core (k_tick k) RT_TICK_HALF idle k ->
  exists k', SysTick_Handler user_cb k = Some (tt, k') /\ core (k_tick k') RT_TICK_HALF idle k' /\
    ticked user_cb k k'.
Proof.
  intros Hcb Hc. set (k1 := set_k_int_nest (u8 (k_int_nest k + 1)) k).
  destruct (rt_tick_increase_run user_cb idle k1 Hcb) as (k2 & Er & Hc2 & Ht).
  { by apply core_set_int. }
  exists (set_k_int_nest (u8 (k_int_nest k2 - 1)) k2). split; [|split].
  - unfold SysTick_Handler, rt_interrupt_enter, rt_interrupt_leave. mstep. fold k1. mstep_by Er. done.
  - by apply core_set_int.
  - destruct Ht as [H1 Hi H2 H3 H4 H5]. split; try done.
    { intros Hr. cbn. rewrite Hi by (cbn; mlia). cbn. mlia. }
    etrans; [apply (preserves_quiet _ k k1); by apply quiet_same|].
    etrans; [exact H5|apply preserves_quiet; by apply quiet_same].
Qed.

(** C4. the tick interrupt always returns, keeps the invariant of the kernel, advances
    the tick modulo 2^32, wakes the threads whose wait ends with this tick and leaves
    the longer waits in place with one tick less. *)
Theorem SysTick_Handler_ok user_cb idle k :
  cb_ok user_cb -> core (k_tick k) RT_TICK_HALF idle k ->
  exists k', SysTick_Handler user_cb k = Some (tt, k') /\ core (k_tick k') RT_TICK_HALF idle k' /\
    ticked user_cb k k'.
Proof. apply SysTick_Handler_run. Qed.

(** ** Waiting for a number of ticks *)

Lemma waiting_not_current b bd idle k t th :
  core b bd idle k -> k_threads k !! t = Some th -> th_stat th <> RT_THREAD_READY -> k_current k <> Some t.
Proof. intros [_ (c & thc & Ec & [E Hs])] Et Hst Hc. congruence. Qed.

Lemma ticks_waiting user_cb idle t th n : forall k tm,
  cb_ok user_cb -> cb_quiet user_cb t -> core (k_tick k) RT_TICK_HALF idle k ->
  k_threads k !! t = Some th -> th_stat th = RT_THREAD_SUSPEND ->
  TmThread t ∈ k_timer_list k -> k_timers k !! TmThread t = Some tm ->
  Z.of_nat n < Z.max 1 (delta (k_tick k) tm) ->
  exists k', ticks user_cb n k = Some (tt, k') /\ core (k_tick k') RT_TICK_HALF idle k' /\
    k_threads k' !! t = Some th /\ TmThread t ∈ k_timer_list k' /\
    k_timers k' !! TmThread t = Some tm /\
    delta (k_tick k') tm = delta (k_tick k) tm - Z.of_nat n.
Proof.
  induction n as [|n IH]; intros k tm Hcb Hq Hc E Hs Hin Em Hn.
  - exists k. split; [done|]. do 4 (split; [done|]). lia.
  - destruct (SysTick_Handler_run user_cb idle k Hcb Hc) as (k1 & Er & Hc1 & Ht).
    assert (Hncur : k_current k <> Some t) by (eapply waiting_not_current; eauto; by rewrite Hs).
    assert (Hge : 2 <= delta (k_tick k) tm) by lia.
    assert (Hth : k_threads k1 !! t = Some th).
    { rewrite (ti_quiet _ _ _ Ht t th Hq E Hncur). unfold expired. rewrite Em.
      destruct (Z.leb_spec (delta (k_tick k) tm) 1); [lia|]. by rewrite andb_false_r. }
    destruct (ti_wait _ _ _ Ht t tm Hin Em) as [(_ & Hin1 & Em1 & Hd)|[th' Hr]].
    + destruct (IH k1 tm) as (k' & Er' & Hc' & E' & Hin' & Em' & Hd'); try done.
      * lia.
      * exists k'. cbn [ticks]. mstep_by Er. split; [done|]. do 4 (split; [done|]). lia.
    + destruct Hr as [Er1 Hr1]. exfalso. apply READY_not_SUSPEND. congruence.
Qed.

Lemma ticks_app user_cb n m k k1 :
  ticks user_cb n k = Some (tt, k1) -> ticks user_cb (n + m) k = ticks user_cb m k1.
Proof.
  revert k. induction n as [|n IH]; intros k; cbn [ticks Nat.add]; [by intros [= ->]|].
  unfold mbind, M_bind. destruct (SysTick_Handler user_cb k) as [[[] k2]|]; [|done]. apply IH.
Qed.

(** The tick at which the wait ends. *)
Lemma ticks_wake user_cb idle t th k tm :
  cb_ok user_cb -> cb_quiet user_cb t -> core (k_tick k) RT_TICK_HALF idle k ->
  k_threads k !! t = Some th -> th_stat th = RT_THREAD_SUSPEND ->
  TmThread t ∈ k_timer_list k -> k_timers k !! TmThread t = Some tm ->
  exists k', ticks user_cb (Z.to_nat (Z.max 1 (delta (k_tick k) tm))) k = Some (tt, k') /\
    core (k_tick k') RT_TICK_HALF idle k' /\ k_threads k' !! t = Some (woken th).
Proof.
  intros Hcb Hq Hc E Hs Hin Em. set (n := Z.to_nat (Z.max 1 (delta (k_tick k) tm) - 1)).
  destruct (ticks_waiting user_cb idle t th n k tm) as (k1 & Er1 & Hc1 & E1 & Hin1 & Em1 & Hd1);
    try done; [lia|].
  destruct (SysTick_Handler_run user_cb idle k1 Hcb Hc1) as (k' & Er & Hc' & Ht).
  exists k'. split; [|split; [done|]].
  - replace (Z.to_nat (Z.max 1 (delta (k_tick k) tm))) with (n + 1)%nat by lia.
    rewrite (ticks_app _ _ _ _ _ Er1). cbn [ticks]. mstep_by Er. done.
  - rewrite (ti_quiet _ _ _ Ht t th Hq E1) by (eapply waiting_not_current; eauto; by rewrite Hs).
    rewrite bool_decide_true by done. unfold expired. rewrite Em1.
    destruct (Z.leb_spec (delta (k_tick k1) tm) 1); [done|lia].
Qed.

(** C5. a thread that calls [rt_thread_sleep (tick)] is blocked through the next ticks
    and ready again, with [-RT_ETIMEOUT] noted, after exactly [tick] tick interrupts
    (one when [tick] is 0), for any starting tick; then the call returns [RT_EOK] with
    the error cleared. *)
Theorem rt_thread_sleep_duration user_cb idle k t th tick :
  cb_ok user_cb -> cb_quiet user_cb t -> core (k_tick k) RT_TICK_HALF idle k ->
  k_current k = Some t -> is_ready k t th -> t <> idle -> k_lock_nest k = 0 ->
  0 <= tick < RT_TICK_HALF ->
  let ths := set_th_stat RT_THREAD_SUSPEND th in
  exists k1, rt_thread_sleep tick k = Some (Wait FSleep, k1) /\ k_current k1 <> Some t /\
    (forall n, Z.of_nat n < Z.max 1 tick -> exists k2, ticks user_cb n k1 = Some (tt, k2) /\
       k_threads k2 !! t = Some ths) /\
    exists k3 k4, ticks user_cb (Z.to_nat (Z.max 1 tick)) k1 = Some (tt, k3) /\
      k_threads k3 !! t = Some (woken ths) /\
      rt_thread_sleep_resume t k3 = Some (RT_EOK, k4) /\
      k_threads k4 !! t = Some (set_th_error RT_EOK (woken ths)).
Proof.
  intros Hcb Hq Hc Ec Hr Hne H0 Ht ths.
  destruct (rt_thread_sleep_run idle k t th tick Hc Ec Hr Hne H0 Ht)
    as (k1 & u & tm & Er & Hc1 & Ecu & Hu & E1 & _ & Hin & Etm & Hper & Hd & _).
  assert (Em : k_timers k1 !! TmThread t = Some tm) by (rewrite Etm; apply lookup_insert_eq).
  exists k1. split; [done|]. split; [congruence|]. rewrite <-Hd. split.
  - intros n Hn. destruct (ticks_waiting user_cb idle t ths n k1 tm) as (k2 & Er2 & _ & E2 & _); try done.
    eauto.
  - destruct (ticks_wake user_cb idle t ths k1 tm) as (k3 & Er3 & _ & E3); try done.
    exists k3. eexists. split; [done|]. split; [done|].
    unfold rt_thread_sleep_resume. mstep. cbn [woken th_error set_th_stat set_th_error].
    change (- RT_ETIMEOUT =? - RT_ETIMEOUT) with true. cbv iota. mstep. split; [done|].
    cbn. apply lookup_insert_eq.
Qed.

(** [rt_tick_from_millisecond] rounds up to whole ticks, as long as the product
    fits in 32 bits: the result is the least number of ticks that lasts [ms]. *)
Theorem rt_tick_from_millisecond_ceil ms :
  0 <= ms <= 42949662 ->
  let n := rt_tick_from_millisecond ms in
  ms * RT_TICK_PER_SECOND <= n * 1000 < ms * RT_TICK_PER_SECOND + 1000.
Proof.
  intros H. unfold rt_tick_from_millisecond, RT_TICK_PER_SECOND.
  rewrite (u32_id (100 * ms)) by lia. rewrite u32_id by lia. cbv zeta. mlia.
Qed.
