(* ===== verification/Ipc.v ===== *)
(** * Waiting lists of IPC objects (src/src/ipc.c)

    The functions every IPC object is built on: a thread is suspended into the
    list of the object, in order of arrival or of priority, and the first or all
    threads of a list are resumed. *)
From S2P Require Import Prelude KService Kernel Object Scheduler Timer Thread Frame.

(** [rt_ipc_object_init]. *)
Definition rt_ipc_object_init (o : oid) : M unit := list_head_init (LSuspend o).

(** The search of [rt_ipc_list_suspend] for a list in order of priority: before the
    first thread of a lower priority. *)
Fixpoint prio_insert (ths : gmap Z rt_thread) (t prio : Z) (l : list Z) : option (list Z) :=
  match l with
  | [] => Some [t]
  | s :: l' =>
      sth ← ths !! s;
      if prio <? th_current_priority sth then Some (t :: s :: l')
      else l'' ← prio_insert ths t prio l'; Some (s :: l'')
  end.

Definition tlist_insert_prio (h : lhead) (t : Z) : M unit := fun k =>
  th ← k_threads k !! t;
  if queued t k then None
  else l ← prio_insert (k_threads k) t (th_current_priority th) (queue k h);
       Some (tt, put_queue h l k).

(** [rt_ipc_list_suspend]. *)
Definition rt_ipc_list_suspend (h : lhead) (t flag : Z) : M Z :=
  rt_thread_suspend t;;
  (if flag =? RT_IPC_FLAG_FIFO then tlist_insert_before h t
   else if flag =? RT_IPC_FLAG_PRIO then tlist_insert_prio h t
   else mret tt);;
  mret RT_EOK.

(** [rt_ipc_list_resume]. *)
Definition rt_ipc_list_resume (h : lhead) : M Z :=
  t ← list_first h;
  rt_thread_resume t;;
  mret RT_EOK.

(** The loop of [rt_ipc_list_resume_all]; [fuel] bounds the iterations. *)
Fixpoint resume_all_loop (fuel : nat) (h : lhead) : M unit :=
  e ← list_isempty h;
  if e : bool then mret tt
  else
    match fuel with
    | O => stuck
    | S fuel' =>
        t ← list_first h;
        mod_thread t (set_th_error (- RT_ERROR));;
        rt_thread_resume t;;
        resume_all_loop fuel' h
    end.

(** [rt_ipc_list_resume_all]: one iteration per waiting thread. *)
Definition rt_ipc_list_resume_all (h : lhead) : M Z :=
  n ← kget (fun k => length (queue k h));
  resume_all_loop n h;;
  mret RT_EOK.

(** The sequence with which [rt_sem_take] and the others start to wait: the thread
    is suspended into the list and, with a positive time, its timer is started. *)
Definition ipc_wait (h : lhead) (t flag time : Z) : M unit :=
  rt_ipc_list_suspend h t flag;;
  if 0 <? time then start_thread_timer t time else mret tt.

(** The end of the send and receive functions: the first thread of the list [h], if
    there is one, is resumed and the scheduler called. *)
Definition wake_first (h : lhead) : M unit :=
  e ← list_isempty h;
  if negb e then rt_ipc_list_resume h;; rt_schedule else mret tt.

(** Time left to wait after a wait for [timeout] that started at the tick [start]. *)
Definition time_left (timeout start now : Z) : Z :=
  if 0 <? timeout then
    let timeout' := i32 (timeout - u32 (now - start)) in if timeout' <? 0 then 0 else timeout'
  else timeout.

(** The flag of an IPC object. *)
Definition ipc_flag (flag : Z) : Prop := flag = RT_IPC_FLAG_FIFO \/ flag = RT_IPC_FLAG_PRIO.

(** Where a thread of priority [prio] enters a list: last, or before the threads of
    lower priority and behind the others. *)
Definition wait_position (ths : gmap Z rt_thread) (flag prio : Z) (l1 l2 : list Z) : Prop :=
  if flag =? RT_IPC_FLAG_FIFO then l2 = []
  else (forall s sth, s ∈ l1 -> ths !! s = Some sth -> th_current_priority sth <= prio) /\
       (forall s sth l, l2 = s :: l -> ths !! s = Some sth -> prio < th_current_priority sth).

(** A thread has begun to wait in the list [h] between [l1] and [l2], for [time]
    ticks (forever when negative). *)
Record waiting (b bd idle : Z) (h : lhead) (t : Z) (th : rt_thread) (flag time : Z)
    (k k' : kstate) (l1 l2 : list Z) : Prop := {
  wt_core : core0 b bd idle k';
  wt_frame : core_only k k';
  wt_cur : k_current k' = k_current k;
  wt_threads : k_threads k' = <[t := set_th_stat RT_THREAD_SUSPEND th]> (k_threads k);
  wt_list : queue k h = l1 ++ l2;
  wt_position : wait_position (k_threads k) flag (th_current_priority th) l1 l2;
  wt_queue : queue k' h = l1 ++ t :: l2;
  wt_others : forall h', h' <> h -> queue k' h' = filter (fun x => x <> t) (queue k h');
  wt_timer : if 0 <? time
    then TmThread t ∈ k_timer_list k' /\ exists tm, k_timers k' = <[TmThread t := tm]> (k_timers k) /\
           tm_timeout_tick tm = u32 (k_tick k + time)
    else k_timers k' = k_timers k /\ k_timer_list k' = k_timer_list k
}.
Arguments wt_core {b bd idle h t th flag time k k' l1 l2} _.
Arguments wt_frame {b bd idle h t th flag time k k' l1 l2} _.
Arguments wt_cur {b bd idle h t th flag time k k' l1 l2} _.
Arguments wt_threads {b bd idle h t th flag time k k' l1 l2} _.
Arguments wt_list {b bd idle h t th flag time k k' l1 l2} _.
Arguments wt_position {b bd idle h t th flag time k k' l1 l2} _.
Arguments wt_queue {b bd idle h t th flag time k k' l1 l2} _.
Arguments wt_others {b bd idle h t th flag time k k' l1 l2} _.
Arguments wt_timer {b bd idle h t th flag time k k' l1 l2} _.

(** The thread [t] has been suspended into the list [h] for [time] ticks and another
    thread runs. *)
Record blocked (b bd idle : Z) (h : lhead) (t : Z) (th : rt_thread) (flag time : Z)
    (k k' : kstate) : Prop := {
  bl_core : core b bd idle k';
  bl_cur : k_current k' <> Some t;
  bl_only : core_only k k';
  bl_threads : k_threads k' = <[t := set_th_stat RT_THREAD_SUSPEND th]> (k_threads k);
  bl_list : exists l1 l2, queue k h = l1 ++ l2 /\ queue k' h = l1 ++ t :: l2 /\
    wait_position (k_threads k) flag (th_current_priority th) l1 l2;
  bl_others : forall h', h' <> h -> wait_list h' -> queue k' h' = queue k h';
  bl_timer : 0 < time -> TmThread t ∈ k_timer_list k' /\ exists tm, k_timers k' !! TmThread t = Some tm /\
    tm_timeout_tick tm = u32 (k_tick k + time)
}.
Arguments bl_core {b bd idle h t th flag time k k'} _.
Arguments bl_cur {b bd idle h t th flag time k k'} _.
Arguments bl_only {b bd idle h t th flag time k k'} _.
Arguments bl_threads {b bd idle h t th flag time k k'} _.
Arguments bl_list {b bd idle h t th flag time k k'} _.
Arguments bl_others {b bd idle h t th flag time k k'} _.
Arguments bl_timer {b bd idle h t th flag time k k'} _.

(** The thread [t] at the head of the list [h] has been made ready. *)
Record woke (b bd idle : Z) (h : lhead) (t : Z) (th : rt_thread) (l : list Z) (k k' : kstate) : Prop := {
  wk_susp : th_stat th = RT_THREAD_SUSPEND;
  wk_core : core b bd idle k';
  wk_only : core_only k k';
  wk_threads : k_threads k' = <[t := set_th_stat RT_THREAD_READY th]> (k_threads k);
  wk_queue : queue k' h = l;
  wk_others : forall h', h' <> h -> (forall p, h' <> LReady p) -> queue k' h' = queue k h';
  wk_frame : ipc_frame no_growth k k'
}.
Arguments wk_susp {b bd idle h t th l k k'} _.
Arguments wk_core {b bd idle h t th l k k'} _.
Arguments wk_only {b bd idle h t th l k k'} _.
Arguments wk_threads {b bd idle h t th l k k'} _.
Arguments wk_queue {b bd idle h t th l k k'} _.
Arguments wk_others {b bd idle h t th l k k'} _.
Arguments wk_frame {b bd idle h t th l k k'} _.

(** When a call that may wait is allowed to: in a thread other than the idle one, with
    the scheduler unlocked, and for less than half of the tick range. *)
Definition may_block (b bd idle : Z) (k : kstate) (t time : Z) : Prop :=
  t <> idle /\ k_lock_nest k = 0 /\ k_int_nest k = 0 /\ time < RT_TICK_HALF /\
  (0 < time -> startable bd (u32 (k_tick k + time - b))).

(** ** Lemmas *)

Lemma prio_insert_spec ths t prio l :
  (forall s, s ∈ l -> is_Some (ths !! s)) ->
  exists l1 l2, l = l1 ++ l2 /\ prio_insert ths t prio l = Some (l1 ++ t :: l2) /\
    wait_position ths RT_IPC_FLAG_PRIO prio l1 l2.
Proof.
  intros Hs. induction l as [|s l IH].
  - exists [], []. split; [done|]. split; [done|]. split; [set_solver|done].
  - destruct (Hs s) as [sth E]; [set_solver|]. simpl. rewrite E. simpl.
    destruct (Z.ltb_spec prio (th_current_priority sth)) as [Hlt|Hge].
    + exists [], (s :: l). split; [done|]. split; [done|]. split; [set_solver|].
      intros ? ? ? [= <- <-] ?. congruence.
    + destruct IH as (l1 & l2 & -> & Ei & H1 & H2); [intros; apply Hs; set_solver|].
      exists (s :: l1), l2. rewrite Ei. split; [done|]. split; [done|]. split; [|done].
      intros s' sth' Hin E'. apply elem_of_cons in Hin as [->|Hin]; [simplify_eq; lia|eauto].
Qed.

Lemma home_ok_wait h th : wait_list h -> th_stat th = RT_THREAD_SUSPEND -> home_ok h th.
Proof. by destruct h. Qed.

(** The threads of a waiting list are suspended. *)
Lemma wait_list_suspended k h t :
  sched_wf k -> wait_list h -> t ∈ queue k h ->
  exists th, k_threads k !! t = Some th /\ th_stat th = RT_THREAD_SUSPEND.
Proof.
  intros Hwf Hh Hin. destruct (wf_home k Hwf h t Hin) as (th & E & Hok). exists th.
  split; [done|]. by destruct h.
Qed.

Lemma wait_list_unready k h t th :
  sched_wf k -> wait_list h -> is_ready k t th -> t ∉ queue k h.
Proof.
  intros Hwf Hh Hr Hin. destruct (wait_list_suspended k h t Hwf Hh Hin) as (th' & E & Hs).
  by apply (is_ready_ne k t th t th').
Qed.

Lemma position_ext ths t th th' flag prio l1 l2 :
  t ∉ l1 ++ l2 -> ths !! t = Some th ->
  wait_position (<[t := th']> ths) flag prio l1 l2 -> wait_position ths flag prio l1 l2.
Proof.
  intros Ht E. unfold wait_position. case_match; [done|]. intros [H1 H2]. split.
  - intros s sth Hs Es. apply (H1 s); [done|]. rewrite lookup_insert_ne; [done|]. set_solver.
  - intros s sth l -> Es. apply (H2 s sth l); [done|]. rewrite lookup_insert_ne; [done|]. set_solver.
Qed.

Lemma position_insert ths t th' flag prio l1 l2 :
  t ∉ l1 ++ l2 -> wait_position ths flag prio l1 l2 ->
  wait_position (<[t := th']> ths) flag prio l1 l2.
Proof.
  intros Ht. unfold wait_position. case_match; [done|]. intros [H1 H2]. split.
  - intros s sth Hs Es. apply (H1 s); [done|]. rewrite lookup_insert_ne in Es; [done|]. set_solver.
  - intros s sth l -> Es. apply (H2 s sth l); [done|]. rewrite lookup_insert_ne in Es; [done|]. set_solver.
Qed.

(** [rt_ipc_list_suspend] of a ready thread. *)
Lemma rt_ipc_list_suspend_run b bd idle h t th flag k :
  core b bd idle k -> is_ready k t th -> t <> idle -> wait_list h -> ipc_flag flag ->
  let k1 := suspend_eff t th k in
  exists l1 l2, queue k h = l1 ++ l2 /\
    wait_position (k_threads k) flag (th_current_priority th) l1 l2 /\
    rt_ipc_list_suspend h t flag k = Some (RT_EOK, put_queue h (l1 ++ t :: l2) k1) /\
    relocated t (set_th_stat RT_THREAD_SUSPEND th) (Some h) k (put_queue h (l1 ++ t :: l2) k1).
Proof.
  intros Hc Hr Hi Hh Hf k1. pose proof Hc as [[[Hwf Hw] _ _] _].
  destruct (rt_thread_suspend_run k t th Hwf Hr) as [Er Hrel]. fold k1 in Er, Hrel.
  pose proof (wait_list_unready k h t th Hwf Hh Hr) as Hnt.
  assert (Hq : queue k1 h = queue k h).
  { unfold k1, suspend_eff. rewrite queue_ready_remove, (queue_ext k) by done. by apply filter_ne_id. }
  assert (Hun : forall h, t ∉ queue k1 h).
  { destruct Hrel as (_ & _ & Hh' & _). intros h' Hin. by apply Hh' in Hin. }
  assert (Hpos : exists l1 l2, queue k h = l1 ++ l2 /\
    wait_position (k_threads k) flag (th_current_priority th) l1 l2 /\
    (if flag =? RT_IPC_FLAG_FIFO then tlist_insert_before h t
     else if flag =? RT_IPC_FLAG_PRIO then tlist_insert_prio h t else mret tt) k1
    = Some (tt, put_queue h (l1 ++ t :: l2) k1)).
  { destruct Hf as [-> | ->]; cbn [Z.eqb RT_IPC_FLAG_FIFO RT_IPC_FLAG_PRIO Pos.eqb].
    - exists (queue k h), []. rewrite app_nil_r. split; [done|]. split; [done|].
      rewrite tlist_insert_before_run by done. by rewrite Hq.
    - destruct (prio_insert_spec (k_threads k1) t (th_current_priority th) (queue k1 h))
        as (l1 & l2 & El & Ei & Hp).
      { intros s Hs. destruct Hrel as (Et & _). rewrite Hq in Hs.
        destruct (wf_home k Hwf h s Hs) as (ths & Es & _). rewrite Et, lookup_insert.
        case_decide; by eauto. }
      exists l1, l2. rewrite <-Hq. split; [done|]. pose proof Hrel as (Et & _). split.
      + destruct Hr as [E _]. rewrite Et in Hp. eapply position_ext; [|exact E|exact Hp].
        by rewrite <-El, Hq.
      + unfold tlist_insert_prio. rewrite Et, lookup_insert_eq. cbn -[queued prio_insert].
        rewrite (proj2 (queued_false t k1) Hun). rewrite <-Et, Ei. done. }
  destruct Hpos as (l1 & l2 & El & Hp & Ei). exists l1, l2. split; [done|]. split; [done|]. split.
  - unfold rt_ipc_list_suspend. mstep_by Er. mstep_by Ei. done.
  - apply relocated_link; [done| |by rewrite Hq]. intros p. by apply wait_list_not_ready.
Qed.

Lemma relocated_core0 b bd idle k k' t th th0 home tm :
  core b bd idle k -> k_threads k !! t = Some th0 -> t <> idle ->
  k_timers k !! TmThread t = Some tm -> tm_active tm = false ->
  relocated t th home k k' -> thread_wf th ->
  (forall h, home = Some h -> home_ok h th) -> th_stat th <> RT_THREAD_READY ->
  core0 b bd idle k'.
Proof.
  intros [[Hk [thi Hi] Hs] _] E Hne Em Ha Hrel Hth Hh Hnr. split.
  - by eapply (relocated_inv b bd k k' t th th0 tm home).
  - exists thi. destruct Hrel as (Et & _). by eapply is_ready_other.
  - destruct Hrel as (_ & _ & _ & _ & _ & F). apply sched_only_fields in F as [-> _]. done.
Qed.

(** [k'] is [k] up to the timers. *)
Definition timers_only (k k' : kstate) : Prop :=
  k' = set_k_timers (k_timers k') (set_k_timer_list (k_timer_list k') (set_k_random_nr (k_random_nr k') k)).

Lemma timers_only_fields k k' : timers_only k k' ->
  k_threads k' = k_threads k /\ k_queues k' = k_queues k /\ k_current k' = k_current k /\
  k_lock_nest k' = k_lock_nest k /\ k_tick k' = k_tick k /\ k_mps k' = k_mps k /\ core_only k k'.
Proof. intros F. rewrite F. by destruct k. Qed.

(** The timer of a thread that has just been suspended is started, when its wait is
    limited. *)
Lemma wait_timer_run b bd idle k t th time :
  core0 b bd idle k -> k_threads k !! t = Some th -> th_stat th = RT_THREAD_SUSPEND ->
  TmThread t ∉ k_timer_list k -> time < RT_TICK_HALF ->
  (0 < time -> startable bd (u32 (k_tick k + time - b))) ->
  exists k', (if 0 <? time then start_thread_timer t time else mret tt) k = Some (tt, k') /\
    core0 b bd idle k' /\ timers_only k k' /\
    if 0 <? time
    then TmThread t ∈ k_timer_list k' /\ exists tm, k_timers k' = <[TmThread t := tm]> (k_timers k) /\
           tm_timeout_tick tm = u32 (k_tick k + time)
    else k' = k.
Proof.
  intros Hc E Hs Hnl Hlt Hst. destruct (Z.ltb_spec 0 time) as [Ht|Ht].
  - destruct (start_thread_timer_run b bd k t th time (c_inv Hc)) as
      (k' & Er & Hk & Hin & (tm & Em & Etm & _) & F); try done; [lia|by apply Hst|].
    destruct (timers_only_fields k k' F) as (S1 & _ & S3 & _).
    exists k'. split; [done|]. split; [|split; [done|by eauto]].
    destruct Hc as [_ [thi [Ei Hri]] Hsc]. split; [done| |by rewrite S3].
    exists thi. split; [by rewrite S1|done].
  - exists k. split; [done|]. split; [done|]. split; [by destruct k|done].
Qed.

(** Starting to wait in a list. *)
Lemma ipc_wait_run b bd idle h t th flag time k :
  core b bd idle k -> is_ready k t th -> t <> idle -> wait_list h -> ipc_flag flag ->
  time < RT_TICK_HALF -> (0 < time -> startable bd (u32 (k_tick k + time - b))) ->
  exists k' l1 l2, ipc_wait h t flag time k = Some (tt, k') /\
    waiting b bd idle h t th flag time k k' l1 l2.
Proof.
  intros Hc Hr Hi Hh Hf Hlt Hst. pose proof Hc as [[Hk _ _] _]. pose proof Hr as [E Hs].
  destruct (rt_ipc_list_suspend_run b bd idle h t th flag k Hc Hr Hi Hh Hf)
    as (l1 & l2 & El & Hp & Er & Hrel).
  set (ths := set_th_stat RT_THREAD_SUSPEND th) in *. set (k1 := put_queue h _ _) in *.
  destruct (timer_off b bd k t th Hk E) as (tm & Em & Ha & _); [by rewrite Hs..|].
  assert (Hths : thread_wf ths).
  { apply thread_wf_stat; [by apply (wf_thread k (proj1 Hk) t)|by rewrite Hs|auto]. }
  assert (Hc1 : core0 b bd idle k1).
  { eapply relocated_core0; try done. intros h' [= <-]. by apply home_ok_wait. }
  pose proof Hrel as (Et & _ & _ & _ & _ & F).
  destruct (sched_only_fields _ _ F) as (F1 & F2 & F3 & F4 & F5 & _).
  assert (Hq1 : queue k1 h = l1 ++ t :: l2) by apply queue_put_eq.
  assert (Hqo : forall h', h' <> h -> queue k1 h' = filter (fun x => x <> t) (queue k h')).
  { intros h' Hne. unfold k1. rewrite queue_put_ne by done. unfold suspend_eff.
    rewrite queue_ready_remove. by rewrite (queue_ext k). }
  destruct (wait_timer_run b bd idle k1 t ths time Hc1) as (k2 & Er2 & Hc2 & F' & Htm); try done.
  { rewrite Et. apply lookup_insert_eq. }
  { rewrite F5. by eapply ready_unlisted. }
  { rewrite F3. done. }
  destruct (timers_only_fields k1 k2 F') as (S1 & S2 & S3 & _ & _ & _ & S4).
  exists k2, l1, l2. split; [unfold ipc_wait; mstep_by Er; exact Er2|]. split; try done.
  - etrans; [|exact S4]. by eapply relocated_core.
  - by rewrite S3.
  - by rewrite S1.
  - by rewrite (queue_ext k1).
  - intros h' Hne. rewrite (queue_ext k1) by done. by apply Hqo.
  - destruct (0 <? time).
    + destruct Htm as (Hin & tm2 & Em2 & Etm). split; [done|]. exists tm2. split; [congruence|]. by rewrite Etm, F3.
    + by subst k2.
Qed.

(** [ipc_wait] and the switch to another thread. *)
Lemma ipc_wait_block b bd idle h t th flag time k {A} f (rest : M (wait A)) :
  core b bd idle k -> k_current k = Some t -> is_ready k t th -> t <> idle -> k_lock_nest k = 0 ->
  wait_list h -> ipc_flag flag ->
  time < RT_TICK_HALF -> (0 < time -> startable bd (u32 (k_tick k + time - b))) ->
  exists k' l1 l2 p u, (ipc_wait h t flag time;; schedule_then t f rest) k =
      Some (Wait f, switch_to p u k') /\ waiting b bd idle h t th flag time k k' l1 l2 /\
    core b bd idle (switch_to p u k') /\ u <> t.
Proof.
  intros Hc Ec Hr Hi H0 Hh Hf Hlt Hst.
  destruct (ipc_wait_run b bd idle h t th flag time k) as (k' & l1 & l2 & Er & Hw); try done.
  destruct (schedule_then_wait b bd idle k' t (set_th_stat RT_THREAD_SUSPEND th) f rest (wt_core Hw))
    as (p & u & Es & Hcu & Hu); try done.
  - by rewrite (wt_cur Hw).
  - rewrite (wt_threads Hw). apply lookup_insert_eq.
  - by rewrite (wt_frame Hw).
  - exists k', l1, l2, p, u. split; [by mstep_by Er|done].
Qed.

(** ** Resuming *)

(** The first thread of a list that is not empty becomes ready. *)
Lemma rt_ipc_list_resume_core b bd idle h t l k :
  core b bd idle k -> wait_list h -> queue k h = t :: l ->
  exists th k', k_threads k !! t = Some th /\ th_stat th = RT_THREAD_SUSPEND /\
    rt_ipc_list_resume h k = Some (RT_EOK, k') /\ core b bd idle k' /\ core_only k k' /\
    k_threads k' = <[t := set_th_stat RT_THREAD_READY th]> (k_threads k) /\ queue k' h = l /\
    (forall h', h' <> h -> (forall p, h' <> LReady p) -> queue k' h' = queue k h') /\
    k_current k' = k_current k.
Proof.
  intros Hc Hh Hq. pose proof Hc as [[[Hwf Hw] _ _] _].
  assert (Hin : t ∈ queue k h) by (rewrite Hq; set_solver).
  destruct (wait_list_suspended k h t Hwf Hh Hin) as (th & E & Hs).
  destruct (rt_thread_resume_core b bd idle k t th Hc E Hs) as (k' & Er & Hc' & F & Et & Eq & Ec).
  exists th, k'. split; [done|]. split; [done|]. split.
  { unfold rt_ipc_list_resume, list_first. erewrite bind_run; [|by rewrite Hq]. by mstep_by Er. }
  split; [done|]. split; [done|]. split; [done|]. split; [|split; [|done]].
  - rewrite Eq by (intros p; by apply wait_list_not_ready). rewrite Hq.
    pose proof (wf_nodup k Hwf h) as Hn. rewrite Hq in Hn. apply list.NoDup_cons in Hn as [Hn _].
    rewrite filter_cons_False by tauto. by apply filter_ne_id.
  - intros h' Hne Hnr. rewrite Eq by done. apply filter_ne_id. intros Hin'. by destruct Hne; eapply wf_unique.
Qed.

(** The control block of a thread whose wait was cancelled. *)
Lemma resume_all_loop_core b bd idle h l : forall k,
  core b bd idle k -> wait_list h -> queue k h = l ->
  exists k', resume_all_loop (length l) h k = Some (tt, k') /\ core b bd idle k' /\ core_only k k' /\
    queue k' h = [] /\ k_current k' = k_current k /\
    (forall h', h' <> h -> (forall p, h' <> LReady p) -> queue k' h' = queue k h') /\
    (forall t, t ∈ l -> exists th, k_threads k !! t = Some th /\
       k_threads k' !! t = Some (set_th_stat RT_THREAD_READY (set_th_error (- RT_ERROR) th))) /\
    (forall t, t ∉ l -> k_threads k' !! t = k_threads k !! t).
Proof.
  induction l as [|t l IH]; intros k Hc Hh Hq; cbn [length resume_all_loop].
  - exists k. unfold list_isempty. mstep. rewrite Hq. do 2 (split; [done|]). split; [reflexivity|].
    split; [done|]. split; [done|]. split; [done|]. split; [set_solver|done].
  - pose proof Hc as [[[Hwf Hw] _ _] _].
    assert (Hin : t ∈ queue k h) by (rewrite Hq; set_solver).
    destruct (wait_list_suspended k h t Hwf Hh Hin) as (th & E & Hs).
    set (the := set_th_error (- RT_ERROR) th). set (k1 := put_th t the k).
    assert (Hc1 : core b bd idle k1).
    { apply put_th_core with th; try done. exact (wf_thread k Hwf t th E). }
    destruct (rt_thread_resume_core b bd idle k1 t the Hc1) as (k2 & Er & Hc2 & F & Et & Eq & Ec).
    { cbn. apply lookup_insert_eq. }
    { done. }
    pose proof (wf_nodup k Hwf h) as Hn. rewrite Hq in Hn. apply list.NoDup_cons in Hn as [Hn _].
    assert (Hq2 : queue k2 h = l).
    { rewrite Eq by (intros p; by apply wait_list_not_ready). change (queue k1 h) with (queue k h).
      rewrite Hq, filter_cons_False by tauto. by apply filter_ne_id. }
    destruct (IH k2 Hc2 Hh Hq2) as (k' & Er' & Hc' & F' & Hq' & Ec' & Ho & Hl & Hnl).
    exists k'. split.
    { unfold list_isempty at 1. mstep. rewrite Hq. unfold list_first at 1.
      erewrite bind_run; [|by rewrite Hq]. mstep. fold the. fold k1. mstep_by Er. exact Er'. }
    split; [done|]. split; [do 2 (etrans; [|eassumption]); by destruct k|]. split; [done|].
    split; [by rewrite Ec', Ec|]. split; [|split].
    + intros h' Hne Hnr. rewrite Ho, Eq by done. change (queue k1 h') with (queue k h').
      apply filter_ne_id. intros Hin'. by destruct Hne; eapply wf_unique.
    + intros u Hu. destruct (decide (u = t)) as [->|Hne].
      * exists th. split; [done|]. rewrite Hnl by done. rewrite Et. apply lookup_insert_eq.
      * destruct (Hl u) as (thu & Eu & Eu'); [set_solver|]. exists thu. split; [|done].
        rewrite Et in Eu. cbn in Eu. by rewrite !lookup_insert_ne in Eu.
    + intros u Hu. rewrite Hnl by set_solver. rewrite Et. cbn.
      rewrite !lookup_insert_ne by set_solver. done.
Qed.

(** [rt_ipc_list_resume_all] returns, and every thread of the list is ready with
    the error [-RT_ERROR]. *)
Lemma rt_ipc_list_resume_all_core b bd idle h k :
  core b bd idle k -> wait_list h ->
  exists k', rt_ipc_list_resume_all h k = Some (RT_EOK, k') /\ core b bd idle k' /\ core_only k k' /\
    queue k' h = [] /\ k_current k' = k_current k /\
    (forall h', h' <> h -> (forall p, h' <> LReady p) -> queue k' h' = queue k h') /\
    (forall t, t ∈ queue k h -> exists th, k_threads k !! t = Some th /\
       k_threads k' !! t = Some (set_th_stat RT_THREAD_READY (set_th_error (- RT_ERROR) th))) /\
    (forall t, t ∉ queue k h -> k_threads k' !! t = k_threads k !! t).
Proof.
  intros Hc Hh. destruct (resume_all_loop_core b bd idle h _ k Hc Hh eq_refl) as (k' & Er & H).
  exists k'. split; [|exact H]. unfold rt_ipc_list_resume_all. mstep. by mstep_by Er.
Qed.

(** ** Frames *)

Lemma ipc_frame_resume b bd idle h t l th k k' :
  core b bd idle k -> wait_list h -> queue k h = t :: l -> k_threads k !! t = Some th ->
  k_threads k' = <[t := set_th_stat RT_THREAD_READY th]> (k_threads k) -> queue k' h = l ->
  (forall h', h' <> h -> (forall p, h' <> LReady p) -> queue k' h' = queue k h') ->
  ipc_frame no_growth k k'.
Proof.
  intros Hc Hh Hq E Et Hq' Ho. apply ipc_frame_thread with t th (set_th_stat RT_THREAD_READY th); try done.
  - by left.
  - intros h' x Hh' Hin. left. destruct (decide (h' = h)) as [->|Hne].
    + rewrite Hq. rewrite Hq' in Hin. set_solver.
    + rewrite <-Ho; [done|done|]. intros p. by apply wait_list_not_ready.
Qed.

Lemma ipc_frame_waiting b bd idle h t th flag time k k' l1 l2 :
  core b bd idle k -> is_ready k t th -> wait_list h ->
  waiting b bd idle h t th flag time k k' l1 l2 -> ipc_frame (joins (Some h) t) k k'.
Proof.
  intros Hc [E Hs] Hh Hw.
  apply ipc_frame_thread with t th (set_th_stat RT_THREAD_SUSPEND th); try done.
  - apply (wt_threads Hw).
  - by left.
  - right. by exists (Some h).
  - intros h' x Hh' Hin. destruct (decide (h' = h)) as [->|Hne].
    + rewrite (wt_queue Hw) in Hin. rewrite (wt_list Hw). unfold joins. set_solver.
    + left. rewrite (wt_others Hw) in Hin by done. by apply list_elem_of_filter in Hin as [_ Hin].
Qed.

Lemma ipc_frame_resume_all h k k' :
  wait_list h -> queue k' h = [] ->
  (forall h', h' <> h -> (forall p, h' <> LReady p) -> queue k' h' = queue k h') ->
  (forall t, t ∈ queue k h -> exists th, k_threads k !! t = Some th /\
     k_threads k' !! t = Some (set_th_stat RT_THREAD_READY (set_th_error (- RT_ERROR) th))) ->
  (forall t, t ∉ queue k h -> k_threads k' !! t = k_threads k !! t) ->
  ipc_frame no_growth k k'.
Proof.
  intros Hh Hq Ho Hin Hnin.
  assert (Hth : forall t th, k_threads k !! t = Some th -> exists th', k_threads k' !! t = Some th' /\
    th_event_set th' = th_event_set th /\ th_event_info th' = th_event_info th /\
    (th_stat th <> RT_THREAD_INIT -> th_stat th' <> RT_THREAD_INIT)).
  { intros t th E. destruct (decide (t ∈ queue k h)) as [Ht|Ht].
    - destruct (Hin t Ht) as (th0 & E0 & E'). assert (th0 = th) as -> by congruence. by eexists.
    - exists th. rewrite Hnin by done. done. }
  split.
  - intros h' t Hh' Ht. left. destruct (decide (h' = h)) as [->|Hne].
    + rewrite Hq in Ht. by apply not_elem_of_nil in Ht.
    + rewrite <-Ho; [done|done|]. intros p. by apply wait_list_not_ready.
  - intros h' t th' Hh' Ht _ E'. destruct (k_threads k !! t) as [th|] eqn:E.
    + destruct (Hth t th E) as (th0 & E0 & ? & ? & _). exists th. split; [done|].
      assert (th0 = th') as -> by congruence. done.
    + destruct (decide (t ∈ queue k h)) as [Ht'|Ht'].
      * destruct (Hin t Ht') as (? & ? & _). congruence.
      * rewrite Hnin in E' by done. congruence.
  - intros t th E Hs. destruct (Hth t th E) as (th' & E' & _ & _ & Hs'). eauto.
  - intros t (th' & E' & Hs'). left. destruct (decide (t ∈ queue k h)) as [Ht|Ht].
    + destruct (Hin t Ht) as (th & _ & E). exfalso. apply READY_not_SUSPEND. rewrite <-Hs'. by simplify_eq.
    + exists th'. by rewrite <-Hnin.
Qed.

(** ** Resuming and scheduling *)

Lemma rt_ipc_list_resume_woke b bd idle h t l k :
  core b bd idle k -> wait_list h -> queue k h = t :: l ->
  exists th k', k_threads k !! t = Some th /\ rt_ipc_list_resume h k = Some (RT_EOK, k') /\
    k_current k' = k_current k /\ woke b bd idle h t th l k k'.
Proof.
  intros Hc Hh Hq. destruct (rt_ipc_list_resume_core b bd idle h t l k Hc Hh Hq)
    as (th & k' & E & Hs & Er & Hc' & F & Et & Eq & Eo & Ec).
  exists th, k'. split; [done|]. split; [done|]. split; [done|]. split; try done.
  by eapply ipc_frame_resume.
Qed.

(** [rt_schedule] while the current thread is ready. *)
Lemma rt_schedule_ready b bd idle k :
  core b bd idle k -> exists k', rt_schedule k = Some (tt, k') /\ core b bd idle k' /\ core_only k k' /\
    k_threads k' = k_threads k /\ k_queues k' = k_queues k /\ k_timers k' = k_timers k /\
    k_timer_list k' = k_timer_list k /\ ipc_frame no_growth k k'.
Proof.
  intros Hc. destruct (rt_schedule_core b bd idle k (c_core0 Hc)) as (k' & Er & Hc' & Hsw & _).
  { right. apply Hc. }
  exists k'. split; [done|]. split; [done|]. destruct Hsw as [->|(p & t & ->)].
  - split; [reflexivity|]. do 4 (split; [done|]). reflexivity.
  - split; [apply switch_core|]. do 4 (split; [done|]). apply ipc_frame_switch.
Qed.

(** Resuming the first thread of a list, then scheduling. *)
Lemma resume_schedule_woke b bd idle h t l k :
  core b bd idle k -> wait_list h -> queue k h = t :: l ->
  exists th k', k_threads k !! t = Some th /\
    (rt_ipc_list_resume h;; rt_schedule) k = Some (tt, k') /\ woke b bd idle h t th l k k'.
Proof.
  intros Hc Hh Hq. destruct (rt_ipc_list_resume_woke b bd idle h t l k Hc Hh Hq)
    as (th & k1 & E & Er1 & _ & [W1 W2 W3 W4 W5 W6 W7]).
  destruct (rt_schedule_ready b bd idle k1 W2) as (k' & Er & Hc' & F & Et & Eq & _ & _ & If).
  exists th, k'. split; [done|]. split; [by mstep_by Er1|]. split; try done.
  - by etrans.
  - congruence.
  - by rewrite (queue_ext k1).
  - intros h' Hne Hnr. rewrite (queue_ext k1) by done. by apply W6.
  - by etrans.
Qed.

(** ** Critical sections *)

Lemma set_lock_core b bd idle v k : core b bd idle k -> core b bd idle (set_k_lock_nest v k).
Proof.
  intros [[[Hwf Hw] Hi Hs] Hcur]. split; [split; [split|..]|]; try done;
    [by apply (sched_wf_ext k)|by apply (timer_wf_ext b bd k)].
Qed.

(** [rt_exit_critical] behind [rt_enter_critical]: the threads and lists stay. *)
Lemma exit_critical_core b bd idle n k :
  core b bd idle k -> 0 <= n < 32767 -> k_lock_nest k = n + 1 ->
  exists k', rt_exit_critical k = Some (tt, k') /\ core b bd idle k' /\ core_only (set_k_lock_nest n k) k' /\
    k_threads k' = k_threads k /\ k_queues k' = k_queues k.
Proof.
  intros Hc Hn El. unfold rt_exit_critical. mstep. mstep. cbn [k_lock_nest set_k_lock_nest]. rewrite El.
  assert (Ei : i16 (n + 1 - 1) = n) by mlia. rewrite Ei. destruct (Z.leb_spec n 0).
  - mstep. assert (n = 0) as -> by lia.
    destruct (rt_schedule_ready b bd idle (set_k_lock_nest 0 (set_k_lock_nest 0 k))) as (k' & Er & Hc' & F & Et & Eq & _).
    { by do 2 apply set_lock_core. }
    by exists k'.
  - exists (set_k_lock_nest n k). split; [done|]. split; [by apply set_lock_core|done].
Qed.

(** The context checks of rtdebug.h pass in a thread. *)
Lemma in_thread_context t k :
  k_current k = Some t -> k_int_nest k = 0 -> RT_DEBUG_IN_THREAD_CONTEXT k = Some (tt, k).
Proof.
  intros Ec Hi. unfold RT_DEBUG_IN_THREAD_CONTEXT, RT_DEBUG_NOT_IN_INTERRUPT. mstep. rewrite Ec.
  rewrite bool_decide_true by eauto. do 2 mstep. by rewrite Hi.
Qed.

Lemma not_in_interrupt_run k : k_int_nest k = 0 -> RT_DEBUG_NOT_IN_INTERRUPT k = Some (tt, k).
Proof. intros H. unfold RT_DEBUG_NOT_IN_INTERRUPT. mstep. by rewrite H. Qed.

(** The state after [thread->error = e]. *)
Lemma set_error_core b bd idle k t th e :
  core b bd idle k -> is_ready k t th ->
  core b bd idle (put_th t (set_th_error e th) k) /\
  is_ready (put_th t (set_th_error e th) k) t (set_th_error e th).
Proof.
  intros Hc [E Hs]. split.
  - apply put_th_core with th; try done. exact (wf_thread k (proj1 (c_inv (c_core0 Hc))) t th E).
  - split; [cbn; apply lookup_insert_eq|done].
Qed.

Lemma wake_first_core b bd idle h k :
  core b bd idle k -> wait_list h ->
  exists k', wake_first h k = Some (tt, k') /\ core b bd idle k' /\ core_only k k' /\
    ipc_frame no_growth k k' /\
    (forall h', h' <> h -> (forall p, h' <> LReady p) -> queue k' h' = queue k h') /\
    match queue k h with
    | [] => k' = k
    | w :: ws => exists th, k_threads k !! w = Some th /\ woke b bd idle h w th ws k k'
    end.
Proof.
  intros Hc Hh. unfold wake_first, list_isempty. mstep. destruct (queue k h) as [|w ws] eqn:Eq; cbn [negb].
  - exists k. split; [done|]. split; [done|]. split; [reflexivity|]. split; [reflexivity|done].
  - destruct (resume_schedule_woke b bd idle h w ws k Hc Hh Eq) as (th & k' & E & Er & Hw).
    exists k'. split; [exact Er|]. split; [apply Hw|]. split; [apply Hw|]. split; [apply Hw|].
    split; [apply Hw|]. by exists th.
Qed.

(** The time left after a wait that took less than half of the tick range. *)
Lemma time_left_range timeout start now :
  0 < timeout < RT_TICK_HALF -> u32 (now - start) <= RT_TICK_HALF ->
  time_left timeout start now = Z.max 0 (timeout - u32 (now - start)).
Proof.
  intros H Hd. unfold time_left. destruct (Z.ltb_spec 0 timeout); [|lia]. cbv zeta.
  assert (E : i32 (timeout - u32 (now - start)) = timeout - u32 (now - start))
    by (unfold RT_TICK_HALF in *; mlia).
  rewrite E. destruct (Z.ltb_spec (timeout - u32 (now - start)) 0); lia.
Qed.

(** A thread that notes something in its control block and then waits. *)
Lemma put_wait_block b bd idle h t th th' flag time k {A} f (rest : M (wait A)) :
  core b bd idle k -> k_current k = Some t -> is_ready k t th -> wait_list h -> ipc_flag flag ->
  may_block b bd idle k t time -> thread_wf th' -> th_stat th' = th_stat th ->
  th_current_priority th' = th_current_priority th ->
  exists k', (ipc_wait h t flag time;; schedule_then t f rest) (put_th t th' k) = Some (Wait f, k') /\
    blocked b bd idle h t th' flag time k k' /\ ipc_frame (joins (Some h) t) k k'.
Proof.
  intros Hc Ec Hr Hh Hf (Hi & H0 & Hint & Hlt & Hst) Hth' Hs Hp. pose proof Hr as [E Hs0].
  set (k0 := put_th t th' k).
  assert (Hc0 : core b bd idle k0) by (by apply put_th_core with th).
  assert (Hr0 : is_ready k0 t th') by (split; [cbn; apply lookup_insert_eq|congruence]).
  destruct (ipc_wait_block b bd idle h t th' flag time k0 f rest) as (k1 & l1 & l2 & p & u & Er & Hw & Hcu & Hu); try done.
  assert (Hl : queue k h = l1 ++ l2) by apply (wt_list Hw).
  assert (Et : k_threads k1 = <[t := set_th_stat RT_THREAD_SUSPEND th']> (k_threads k)).
  { rewrite (wt_threads Hw). cbn. by rewrite insert_insert_eq. }
  assert (Hnt : forall h', wait_list h' -> t ∉ queue k h').
  { intros h' Hh'. eapply wait_list_unready; [apply Hc|done|done]. }
  assert (Ho : forall h', h' <> h -> wait_list h' -> queue k1 h' = queue k h').
  { intros h' Hne Hh'. rewrite (wt_others Hw) by done. apply filter_ne_id. by apply Hnt. }
  exists (switch_to p u k1). split; [exact Er|]. split.
  - split; try done.
    + cbn. congruence.
    + etrans; [|apply switch_core]. etrans; [|apply (wt_frame Hw)]. by destruct k.
    + exists l1, l2. split; [done|]. split; [by rewrite (queue_ext k1), (wt_queue Hw)|].
      eapply position_ext; [|exact E|exact (wt_position Hw)]. rewrite <-Hl. by apply Hnt.
    + intros Hpt. pose proof (wt_timer Hw) as Htm. rewrite (proj2 (Z.ltb_lt 0 time) Hpt) in Htm.
      destruct Htm as (Hin & tm & Em & Htt). split; [done|]. exists tm. cbn. rewrite Em, lookup_insert_eq. done.
  - etrans; [|apply ipc_frame_switch]. eapply ipc_frame_thread; [exact E|exact Et|right|..].
    + intros h' Hh' Hne. destruct (decide (h' = h)) as [->|Hd]; [by destruct Hne|]. rewrite Ho by done. by apply Hnt.
    + intros _. done.
    + right. by exists (Some h).
    + intros h' x Hh' Hin. destruct (decide (h' = h)) as [->|Hne].
      * rewrite (wt_queue Hw) in Hin. rewrite Hl. unfold joins. set_solver.
      * left. by rewrite Ho in Hin.
Qed.
