(* ===== verification/Sem.v ===== *)
(** * Semaphores (src/src/ipc.c)

    A 16-bit count and the list of the threads that wait for it.  The invariant of
    a semaphore says that no thread waits while the count is positive; the
    theorems give the effect of each operation on the count, the list and the
    threads, as a refinement of a counting semaphore with a queue. *)
From S2P Require Import Prelude KService Kernel Object Scheduler Timer Thread Frame Ipc.

Definition get_sem (a : Z) : M rt_semaphore := fun k => s ← k_sems k !! a; Some (s, k).
Definition put_sem (a : Z) (s : rt_semaphore) (k : kstate) : kstate :=
  set_k_sems (<[a := s]> (k_sems k)) k.
Definition mod_sem (a : Z) (f : rt_semaphore -> rt_semaphore) : M unit :=
  s ← get_sem a; kmod (put_sem a (f s)).

(** [rt_sem_init]. *)
Definition rt_sem_init (a : Z) (name : list Z) (value flag : Z) : M Z :=
  rt_object_init (OSem a) name;;
  rt_ipc_object_init (OSem a);;
  kmod (put_sem a (Sem (u8 flag) (u16 value)));;
  mret RT_EOK.

(** [rt_sem_detach]. *)
Definition rt_sem_detach (a : Z) : M Z :=
  rt_ipc_list_resume_all (LSuspend (OSem a));;
  rt_object_detach (OSem a);;
  mret RT_EOK.

(** [rt_sem_take] after the wait: the error of the thread, if any. *)
Definition rt_sem_take_resume (t : Z) : M Z :=
  th ← get_thread t;
  if negb (th_error th =? RT_EOK) then mret (th_error th) else mret RT_EOK.

(** [rt_sem_take]. *)
Definition rt_sem_take (a time : Z) : M (wait Z) :=
  s ← get_sem a;
  if 0 <? sem_value s then
    mod_sem a (set_sem_value (u16 (sem_value s - 1)));;
    mret (Ret RT_EOK)
  else if time =? 0 then mret (Ret (- RT_ETIMEOUT))
  else
    RT_DEBUG_IN_THREAD_CONTEXT;;
    cur ← rt_thread_self;
    t ← deref cur;
    mod_thread t (set_th_error RT_EOK);;
    ipc_wait (LSuspend (OSem a)) t (sem_flag s) time;;
    schedule_then t FSemTake (r ← rt_sem_take_resume t; mret (Ret r)).

(** [rt_sem_trytake]. *)
Definition rt_sem_trytake (a : Z) : M (wait Z) := rt_sem_take a 0.

(** [rt_sem_release]. *)
Definition rt_sem_release (a : Z) : M Z :=
  s ← get_sem a;
  e ← list_isempty (LSuspend (OSem a));
  (if negb e then
     rt_ipc_list_resume (LSuspend (OSem a));;
     rt_schedule
   else mod_sem a (set_sem_value (u16 (sem_value s + 1))));;
  mret RT_EOK.

(** [rt_sem_control]. *)
Definition rt_sem_control (a cmd arg : Z) : M Z :=
  if cmd =? RT_IPC_CMD_RESET then
    rt_ipc_list_resume_all (LSuspend (OSem a));;
    mod_sem a (set_sem_value (u16 (u32 arg)));;
    rt_schedule;;
    mret RT_EOK
  else mret (- RT_ERROR).

(** ** Specification *)

(** A counting semaphore: the count and the threads that wait, first served first. *)
Record csem := CSem { cs_count : Z; cs_waiters : list Z }.

Inductive csem_take (t : Z) (wait : bool) (pos : list Z -> list Z -> Prop) :
    csem -> csem -> option Z -> Prop :=
  | take_now n ws : 0 < n -> csem_take t wait pos (CSem n ws) (CSem (n - 1) ws) (Some RT_EOK)
  | take_refused ws : wait = false ->
      csem_take t wait pos (CSem 0 ws) (CSem 0 ws) (Some (- RT_ETIMEOUT))
  | take_blocks l1 l2 : wait = true -> pos l1 l2 ->
      csem_take t wait pos (CSem 0 (l1 ++ l2)) (CSem 0 (l1 ++ t :: l2)) None.

(** A release serves the first waiter or counts up; [woken] is the thread served. *)
Inductive csem_release : csem -> csem -> option Z -> Prop :=
  | release_serves w ws n : csem_release (CSem n (w :: ws)) (CSem n ws) (Some w)
  | release_counts n : csem_release (CSem n []) (CSem (u16 (n + 1)) []) None.

(** The semaphore of the kernel state seen as a counting semaphore. *)
Definition sem_abs (k : kstate) (a : Z) : option csem :=
  s ← k_sems k !! a; Some (CSem (sem_value s) (queue k (LSuspend (OSem a)))).

(** ** Invariant *)

Definition sem_ok (k : kstate) (a : Z) (s : rt_semaphore) : Prop :=
  0 <= sem_value s < 65536 /\ ipc_flag (sem_flag s) /\
  (0 < sem_value s -> queue k (LSuspend (OSem a)) = []).
Definition sems_ok (k : kstate) : Prop := forall a s, k_sems k !! a = Some s -> sem_ok k a s.

(** Nothing but the semaphores and the threads has changed. *)
Definition sem_only (k k' : kstate) : Prop := k' = set_k_sems (k_sems k') (with_core k' k).

(** ** Lemmas *)

Lemma get_sem_run a s k : k_sems k !! a = Some s -> get_sem a k = Some (s, k).
Proof. intros E. unfold get_sem. by rewrite E. Qed.

Lemma mod_sem_run a s f k :
  k_sems k !! a = Some s -> mod_sem a f k = Some (tt, put_sem a (f s) k).
Proof. intros E. unfold mod_sem. by rewrite (bind_run _ _ _ _ _ (get_sem_run _ _ _ E)). Qed.

Lemma core_put_sem b bd idle a s k : core b bd idle k -> core b bd idle (put_sem a s k).
Proof.
  intros [[[Hwf Hw] Hi Hs] Hcur]. split; [split; [split|..]|]; try done;
    [by apply (sched_wf_ext k)|by apply (timer_wf_ext b bd k)].
Qed.

(** A new semaphore with no waiting thread. *)
Lemma rt_sem_init_run a name value flag k :
  valid_name name -> registered (OSem a) k = false ->
  rt_sem_init a name value flag k = Some (RT_EOK,
    put_sem a (Sem (u8 flag) (u16 value)) (put_queue (LSuspend (OSem a)) [] (object_added (OSem a) name k))).
Proof. intros Hn Hr. unfold rt_sem_init. mstep_by (rt_object_init_run (OSem a) name k Hn Hr). done. Qed.

(** A semaphore whose list does not grow. *)
Lemma sem_ok_frame g k k' a s :
  sem_ok k a s -> ipc_frame g k k' -> (forall t, ~ g (Some (LSuspend (OSem a))) t) -> sem_ok k' a s.
Proof.
  intros (H1 & H2 & H3) Hf Hg. split; [done|]. split; [done|]. intros Hv.
  destruct (queue k' (LSuspend (OSem a))) as [|t l] eqn:Eq; [done|].
  destruct (if_lists _ _ _ Hf (LSuspend (OSem a)) t I) as [Hin|Hin]; [rewrite Eq; set_solver| |].
  - rewrite H3 in Hin by done. by apply not_elem_of_nil in Hin.
  - by destruct (Hg t).
Qed.

(** Other semaphores under an operation that lets no list grow. *)
Lemma sems_ok_frame g k k' a s' :
  sems_ok k -> ipc_frame g k k' -> (forall x t, x <> a -> ~ g (Some (LSuspend (OSem x))) t) ->
  k_sems k' = <[a := s']> (k_sems k) -> sem_ok k' a s' -> sems_ok k'.
Proof.
  intros Hok Hf Hg Es Ha x s. rewrite Es, lookup_insert. case_decide as Hd; [by intros [= <-]; subst|].
  intros Ex. eapply sem_ok_frame; eauto.
Qed.

(** What the semaphores promise to the other components. *)
Definition sem_list (h : lhead) : Prop := exists a, h = LSuspend (OSem a).
#[export] Instance sems_wait_object : WaitObject sem_list k_sems sems_ok.
Proof.
  intros g k k' Hok Hf Hg Es x s. rewrite Es. intros Ex. eapply sem_ok_frame; [by apply Hok|done|].
  intros t. apply Hg. by exists x.
Qed.
#[export] Instance sems_stable : Stable sems_ok.
Proof. exact (wait_object_stable sem_list k_sems sems_ok os_sems). Qed.

Lemma core_only_sem k k' : core_only k k' -> sem_only k k'.
Proof. unfold core_only, sem_only. intros F. rewrite F. done. Qed.

Lemma sem_only_put k k1 k' a s :
  core_only k k1 -> core_only (put_sem a s k1) k' -> sem_only k k'.
Proof.
  unfold core_only, sem_only. destruct k, k1, k'. cbn. intros F1 F2.
  injection F1. injection F2. intros. by subst.
Qed.

(** The branch of [rt_sem_take] that waits. *)
Lemma rt_sem_take_block b bd idle a s time k t th :
  core b bd idle k -> k_current k = Some t -> is_ready k t th ->
  k_sems k !! a = Some s -> sem_value s = 0 -> ipc_flag (sem_flag s) -> time <> 0 ->
  may_block b bd idle k t time ->
  let the := set_th_error RT_EOK th in
  exists k1 l1 l2 p u, rt_sem_take a time k = Some (Wait FSemTake, switch_to p u k1) /\
    core b bd idle (switch_to p u k1) /\ u <> t /\
    waiting b bd idle (LSuspend (OSem a)) t the (sem_flag s) time (put_th t the k) k1 l1 l2.
Proof.
  intros Hc Ec Hr Es Hv Hf Ht (Hi & H0 & Hint & Hlt & Hst) the.
  destruct (set_error_core b bd idle k t th RT_EOK Hc Hr) as [Hc1 Hr1]. fold the in Hc1, Hr1.
  set (k0 := put_th t the k) in *.
  destruct (ipc_wait_block b bd idle (LSuspend (OSem a)) t the (sem_flag s) time k0 FSemTake
    (r ← rt_sem_take_resume t; mret (Ret r))) as (k1 & l1 & l2 & p & u & Er & Hw & Hcu & Hu); try done.
  exists k1, l1, l2, p, u. split; [|done]. destruct Hr as [E _].
  unfold rt_sem_take. rewrite (bind_run _ _ _ _ _ (get_sem_run _ _ _ Es)), Hv. cbn [Z.ltb Z.compare].
  destruct (Z.eqb_spec time 0); [done|]. mstep_by (in_thread_context t k Ec Hint). mstep. rewrite Ec.
  do 2 mstep. exact Er.
Qed.

(** What [rt_sem_take] does, as a counting semaphore. *)
Lemma rt_sem_take_run b bd idle a s time k t th :
  core b bd idle k -> k_current k = Some t -> is_ready k t th ->
  k_sems k !! a = Some s -> sem_ok k a s ->
  (sem_value s = 0 -> time <> 0 -> may_block b bd idle k t time) ->
  exists r k' c c' o, rt_sem_take a time k = Some (r, k') /\ core b bd idle k' /\
    sem_abs k a = Some c /\ sem_abs k' a = Some c' /\
    csem_take t (negb (time =? 0)) (wait_position (k_threads k) (sem_flag s) (th_current_priority th)) c c' o /\
    match o with
    | Some e => r = Ret e /\ k' = put_sem a (Sem (sem_flag s) (cs_count c')) k
    | None => r = Wait FSemTake /\ k_current k' <> Some t /\ k_sems k' = k_sems k /\
        k_threads k' = <[t := set_th_stat RT_THREAD_SUSPEND (set_th_error RT_EOK th)]> (k_threads k) /\
        (0 < time -> TmThread t ∈ k_timer_list k' /\ exists tm, k_timers k' !! TmThread t = Some tm /\
           tm_timeout_tick tm = u32 (k_tick k + time))
    end /\
    ipc_frame (grows r (Some (LSuspend (OSem a))) t) k k' /\ sem_only k k'.
Proof.
  intros Hc Ec Hr Es (Hv & Hf & Hq) Hb. pose proof Hr as [E Hs].
  destruct (decide (0 < sem_value s)) as [Hpos|Hz].
  - exists (Ret RT_EOK), (put_sem a (Sem (sem_flag s) (sem_value s - 1)) k),
      (CSem (sem_value s) (queue k (LSuspend (OSem a)))), (CSem (sem_value s - 1) (queue k (LSuspend (OSem a)))), (Some RT_EOK).
    split.
    { unfold rt_sem_take. rewrite (bind_run _ _ _ _ _ (get_sem_run _ _ _ Es)).
      rewrite (proj2 (Z.ltb_lt _ _) Hpos). mstep_by (mod_sem_run a s (set_sem_value (u16 (sem_value s - 1))) k Es).
      unfold set_sem_value. rewrite u16_id by lia. done. }
    split; [by apply core_put_sem|]. unfold sem_abs. rewrite Es. split; [done|].
    split; [cbn; by rewrite lookup_insert_eq|]. split; [by constructor|]. split; [done|].
    split; [by apply ipc_frame_same|]. by destruct k.
  - assert (sem_value s = 0) as Hv0 by lia. destruct (Z.eqb_spec time 0) as [->|Ht].
    + exists (Ret (- RT_ETIMEOUT)), k, (CSem 0 (queue k (LSuspend (OSem a)))),
        (CSem 0 (queue k (LSuspend (OSem a)))), (Some (- RT_ETIMEOUT)).
      split; [unfold rt_sem_take; by rewrite (bind_run _ _ _ _ _ (get_sem_run _ _ _ Es)), Hv0|].
      split; [done|]. unfold sem_abs. rewrite Es. cbn [option_bind mbind]. rewrite Hv0.
      split; [done|]. split; [done|]. split; [by constructor|]. split.
      { split; [done|]. unfold put_sem. cbn. rewrite insert_id; [by destruct k|].
        rewrite Es. destruct s; cbn in *; by subst. }
      split; [reflexivity|]. apply core_only_sem. reflexivity.
    + destruct (rt_sem_take_block b bd idle a s time k t th Hc Ec Hr Es Hv0 Hf Ht (Hb Hv0 Ht))
        as (k1 & l1 & l2 & p & u & Er & Hcu & Hu & Hw). set (the := set_th_error RT_EOK th) in *.
      assert (Hsem : k_sems k1 = k_sems k) by (rewrite (wt_frame Hw); done).
      assert (Hl : queue k (LSuspend (OSem a)) = l1 ++ l2) by apply (wt_list Hw).
      exists (Wait FSemTake), (switch_to p u k1), (CSem 0 (l1 ++ l2)), (CSem 0 (l1 ++ t :: l2)), None.
      split; [done|]. split; [done|]. unfold sem_abs. cbn [k_sems switch_to set_k_current set_k_current_priority].
      rewrite Hsem, Es. cbn [option_bind mbind]. rewrite Hv0, Hl. split; [done|].
      split; [by rewrite (queue_ext k1), (wt_queue Hw)|]. split; [|split; [|split]].
      * constructor; [done|]. pose proof (wt_position Hw) as Hp.
        eapply position_ext; [|exact E|exact Hp]. rewrite <-Hl. eapply wait_list_unready; try done.
        apply Hc.
      * split; [done|]. split; [cbn; congruence|]. split; [done|]. split.
        { cbn. rewrite (wt_threads Hw). cbn. by rewrite insert_insert_eq. }
        intros Hpt. pose proof (wt_timer Hw) as Htm.
        rewrite (proj2 (Z.ltb_lt 0 time) Hpt) in Htm. destruct Htm as (Hin & tm & Em & Et).
        split; [done|]. exists tm. cbn. rewrite Em, lookup_insert_eq. done.
      * etrans; [|apply ipc_frame_switch]. etrans; [by apply (ipc_frame_put_th _ k t th the)|].
        eapply ipc_frame_waiting; [|..|exact Hw]; [by apply set_error_core|exact (proj2 (set_error_core _ _ _ k t th RT_EOK Hc Hr))|done].
      * apply core_only_sem. etrans; [|apply switch_core]. etrans; [|apply (wt_frame Hw)].
        by destruct k.
Qed.

Lemma rt_sem_take_inv b bd idle a s time k t th :
  core b bd idle k -> sems_ok k -> k_current k = Some t -> is_ready k t th ->
  k_sems k !! a = Some s ->
  (sem_value s = 0 -> time <> 0 -> may_block b bd idle k t time) ->
  exists r k', rt_sem_take a time k = Some (r, k') /\ core b bd idle k' /\ sems_ok k' /\
    ipc_frame (grows r (Some (LSuspend (OSem a))) t) k k' /\ sem_only k k' /\
    (exists s', k_sems k' = <[a := s']> (k_sems k)) /\ (forall f, r = Wait f -> f = FSemTake /\ time <> 0).
Proof.
  intros Hc Hok Ec Hr Es Hb. pose proof (Hok a s Es) as Ha.
  destruct (rt_sem_take_run b bd idle a s time k t th Hc Ec Hr Es Ha Hb)
    as (r & k' & c & c' & o & Er & Hc' & Hab & Hab' & Hst & Ho & Hf & Hon).
  exists r, k'. split; [done|]. split; [done|]. split; [|split; [done|split; [done|]]].
  2: { destruct o as [e|]; [destruct Ho as [-> ->]; split; [by eexists|done]|].
    destruct Ho as (-> & _ & Ekk & _). split; [exists s; by rewrite insert_id|].
    intros f [= <-]. split; [done|]. inversion Hst as [| |? ? ? Hnz]; subst. by destruct (Z.eqb_spec time 0). }
  destruct Ha as (Hv & Hfl & Hq). unfold sem_abs in Hab, Hab'. rewrite Es in Hab. cbn in Hab.
  injection Hab as <-. destruct o as [e|].
  - destruct Ho as [-> ->]. eapply (sems_ok_frame _ k _ a); [done|exact Hf|by intros x y Hx []|done|].
    change (queue (put_sem _ _ k)) with (queue k) in *. inversion Hst; subst; cbn in *.
    + split; [cbn; lia|]. split; [done|]. intros _. by apply Hq.
    + split; [cbn; lia|]. split; [done|]. cbn. lia.
  - destruct Ho as (-> & _ & Ekk & _). rewrite <-(insert_id _ _ _ Es) in Ekk.
    eapply (sems_ok_frame _ k k' a s); [done|exact Hf|by intros x y Hx [[= ->] _]|done|].
    split; [done|]. split; [done|]. inversion Hst; subst. lia.
Qed.

(** C6. [rt_sem_take] implements the take of a counting semaphore: with a positive count
    it returns [RT_EOK] and only the count changes; with the count 0 it refuses a call
    that does not want to wait, and otherwise suspends the caller at the place in
    the queue its flag prescribes, starts the timer for the time given, and lets
    another thread run. *)
Theorem rt_sem_take_refines idle a s time k t th :
  core (k_tick k) RT_TICK_HALF idle k -> sems_ok k -> k_current k = Some t -> is_ready k t th ->
  k_sems k !! a = Some s ->
  (sem_value s = 0 -> time <> 0 -> may_block (k_tick k) RT_TICK_HALF idle k t time) ->
  exists r k' c c' o, rt_sem_take a time k = Some (r, k') /\
    core (k_tick k') RT_TICK_HALF idle k' /\ sems_ok k' /\
    sem_abs k a = Some c /\ sem_abs k' a = Some c' /\
    csem_take t (negb (time =? 0)) (wait_position (k_threads k) (sem_flag s) (th_current_priority th)) c c' o /\
    match o with
    | Some e => r = Ret e /\ k' = put_sem a (Sem (sem_flag s) (cs_count c')) k
    | None => r = Wait FSemTake /\ k_current k' <> Some t /\ k_sems k' = k_sems k /\
        k_threads k' = <[t := set_th_stat RT_THREAD_SUSPEND (set_th_error RT_EOK th)]> (k_threads k) /\
        (0 < time -> TmThread t ∈ k_timer_list k' /\ exists tm, k_timers k' !! TmThread t = Some tm /\
           tm_timeout_tick tm = u32 (k_tick k + time))
    end.
Proof.
  intros Hc Hok Ec Hr Es Hb.
  destruct (rt_sem_take_run _ _ idle a s time k t th Hc Ec Hr Es (Hok a s Es) Hb)
    as (r & k' & c & c' & o & Er & Hc' & Hab & Hab' & Hst & Ho & Hf & Hon).
  destruct (rt_sem_take_inv _ _ idle a s time k t th Hc Hok Ec Hr Es Hb) as (r2 & k2 & Er2 & _ & Hok' & _).
  assert (k2 = k') as -> by congruence. exists r, k', c, c', o.
  assert (k_tick k' = k_tick k) as -> by (unfold sem_only in Hon; by rewrite Hon). done.
Qed.

Lemma rt_sem_release_run b bd idle a s k :
  core b bd idle k -> sems_ok k -> k_sems k !! a = Some s ->
  exists k' c c' o, rt_sem_release a k = Some (RT_EOK, k') /\ core b bd idle k' /\ sems_ok k' /\
    sem_abs k a = Some c /\ sem_abs k' a = Some c' /\ csem_release c c' o /\
    match o with
    | Some w => exists th, k_threads k !! w = Some th /\ th_stat th = RT_THREAD_SUSPEND /\
        k_threads k' = <[w := set_th_stat RT_THREAD_READY th]> (k_threads k)
    | None => k_threads k' = k_threads k /\ k_current k' = k_current k
    end /\ ipc_frame no_growth k k' /\ sem_only k k' /\ exists s', k_sems k' = <[a := s']> (k_sems k).
Proof.
  intros Hc Hok Es. pose proof (Hok a s Es) as (Hv & Hf & Hq).
  unfold rt_sem_release. rewrite (bind_run _ _ _ _ _ (get_sem_run _ _ _ Es)). unfold list_isempty. mstep.
  destruct (queue k (LSuspend (OSem a))) as [|w ws] eqn:Eq; cbn [negb].
  - set (k' := put_sem a (set_sem_value (u16 (sem_value s + 1)) s) k).
    exists k', (CSem (sem_value s) []), (CSem (u16 (sem_value s + 1)) []), None.
    split; [by mstep_by (mod_sem_run a s (set_sem_value (u16 (sem_value s + 1))) k Es)|].
    split; [by apply core_put_sem|]. split; [|split; [|split; [|split; [by constructor|]]]].
    + eapply (sems_ok_frame no_growth k _ a); [done|by apply ipc_frame_same|by intros ? ? ? []|done|].
      split; [cbn; apply u16_range|]. done.
    + unfold sem_abs. rewrite Es. cbn. by rewrite Eq.
    + unfold sem_abs, k'. cbn. rewrite lookup_insert_eq. cbn. by rewrite (queue_ext k), Eq.
    + split; [done|]. split; [by apply ipc_frame_same|]. split; [unfold k'; by destruct k|by eexists].
  - destruct (resume_schedule_woke b bd idle (LSuspend (OSem a)) w ws k Hc I Eq) as (th & k' & E & Er & Hw).
    assert (Esm : k_sems k' = k_sems k) by (rewrite (wk_only Hw); done).
    exists k', (CSem (sem_value s) (w :: ws)), (CSem (sem_value s) ws), (Some w).
    split; [mstep_by Er; done|]. split; [apply Hw|]. split; [|split; [|split; [|split; [by constructor|]]]].
    + eapply (wait_object_keep sem_list k_sems sems_ok k); [done|apply Hw|done].
    + unfold sem_abs. rewrite Es. cbn. by rewrite Eq.
    + unfold sem_abs. rewrite Esm, Es. cbn. by rewrite (wk_queue Hw).
    + split; [exists th; split; [done|]; split; [apply Hw|apply Hw]|]. split; [apply Hw|].
      split; [apply core_only_sem, Hw|]. exists s. by rewrite insert_id.
Qed.

(** C7. [rt_sem_release] implements the release of a counting semaphore: the first
    waiting thread, if there is one, becomes ready and takes the unit released, so the
    count stays; otherwise the 16-bit count goes up by one. *)
Theorem rt_sem_release_refines b bd idle a s k :
  core b bd idle k -> sems_ok k -> k_sems k !! a = Some s ->
  exists k' c c' o, rt_sem_release a k = Some (RT_EOK, k') /\ core b bd idle k' /\ sems_ok k' /\
    sem_abs k a = Some c /\ sem_abs k' a = Some c' /\ csem_release c c' o /\
    match o with
    | Some w => exists th, k_threads k !! w = Some th /\ th_stat th = RT_THREAD_SUSPEND /\
        k_threads k' = <[w := set_th_stat RT_THREAD_READY th]> (k_threads k)
    | None => k_threads k' = k_threads k /\ k_current k' = k_current k
    end.
Proof.
  intros Hc Hok Es. destruct (rt_sem_release_run b bd idle a s k Hc Hok Es)
    as (k' & c & c' & o & H1 & H2 & H3 & H4 & H5 & H6 & H7 & _).
  by exists k', c, c', o.
Qed.

(** [rt_sem_control] with the reset command: all waiting threads leave with an error and
    the count is the new value. *)
Lemma rt_sem_control_reset b bd idle a s arg k :
  core b bd idle k -> sems_ok k -> k_sems k !! a = Some s ->
  exists k', rt_sem_control a RT_IPC_CMD_RESET arg k = Some (RT_EOK, k') /\ core b bd idle k' /\ sems_ok k' /\
    sem_abs k' a = Some (CSem (u16 (u32 arg)) []) /\
    (forall t, t ∈ queue k (LSuspend (OSem a)) -> exists th, k_threads k !! t = Some th /\
       k_threads k' !! t = Some (set_th_stat RT_THREAD_READY (set_th_error (- RT_ERROR) th))) /\
    ipc_frame no_growth k k' /\ sem_only k k' /\ exists s', k_sems k' = <[a := s']> (k_sems k).
Proof.
  intros Hc Hok Es. pose proof (Hok a s Es) as (Hv & Hf & Hq).
  destruct (rt_ipc_list_resume_all_core b bd idle (LSuspend (OSem a)) k Hc I)
    as (k1 & Er1 & Hc1 & F1 & Hq1 & Ec1 & Ho1 & Hin1 & Hnin1).
  assert (Es1 : k_sems k1 !! a = Some s) by (by rewrite F1).
  set (k2 := put_sem a (set_sem_value (u16 (u32 arg)) s) k1).
  assert (Hc2 : core b bd idle k2) by (by apply core_put_sem).
  destruct (rt_schedule_ready b bd idle k2 Hc2) as (k' & Er & Hc' & F & Et & Eq & _ & _ & If).
  assert (Ifr : ipc_frame no_growth k k').
  { etrans; [|exact If]. etrans; [by apply (ipc_frame_resume_all (LSuspend (OSem a)) k k1)|].
    by apply ipc_frame_same. }
  assert (Esm : k_sems k' = k_sems k2) by (rewrite F; done).
  assert (E1 : k_sems k1 = k_sems k) by (rewrite F1; done).
  assert (Hqe : queue k' (LSuspend (OSem a)) = []) by (by rewrite (queue_ext k2)).
  exists k'. split.
  { unfold rt_sem_control. cbn [Z.eqb RT_IPC_CMD_RESET Pos.eqb]. mstep_by Er1.
    mstep_by (mod_sem_run a s (set_sem_value (u16 (u32 arg))) k1 Es1). fold k2. by mstep_by Er. }
  split; [done|]. split; [|split; [|split; [|split; [done|]]]].
  - eapply (sems_ok_frame no_growth k _ a); [done|exact Ifr|by intros ? ? ? []|by rewrite Esm; cbn; rewrite E1|].
    split; [cbn; apply u16_range|]. split; [done|]. by intros _.
  - unfold sem_abs. rewrite Esm. cbn. rewrite lookup_insert_eq. cbn. by rewrite Hqe.
  - intros t Ht. rewrite Et. by apply Hin1.
  - split; [by eapply sem_only_put|]. exists (set_sem_value (u16 (u32 arg)) s). rewrite Esm. cbn. by rewrite E1.
Qed.
