(* ===== verification/MutexLock.v ===== *)
(** * Mutexes (src/src/ipc.c)

    A lock with an owner that may take it again, the threads that wait for it, and
    priority inheritance: a thread that has to wait lends its priority to the owner,
    which gets its own back at the last release. *)
From S2P Require Import Prelude KService Kernel Object Scheduler Timer Thread Frame Ipc.

Definition get_mutex (a : Z) : M rt_mutex := fun k => m ← k_mutexes k !! a; Some (m, k).
Definition put_mutex (a : Z) (m : rt_mutex) (k : kstate) : kstate :=
  set_k_mutexes (<[a := m]> (k_mutexes k)) k.
Definition mod_mutex (a : Z) (f : rt_mutex -> rt_mutex) : M unit :=
  m ← get_mutex a; kmod (put_mutex a (f m)).

(** [rt_mutex_init]. *)
Definition rt_mutex_init (a : Z) (name : list Z) (flag : Z) : M Z :=
  rt_object_init (OMutex a) name;;
  rt_ipc_object_init (OMutex a);;
  kmod (put_mutex a (Mutex (u8 flag) 1 255 0 None));;
  mret RT_EOK.

(** [rt_mutex_detach]. *)
Definition rt_mutex_detach (a : Z) : M Z :=
  rt_ipc_list_resume_all (LSuspend (OMutex a));;
  rt_object_detach (OMutex a);;
  mret RT_EOK.

(** [rt_mutex_take] after the wait. *)
Definition rt_mutex_take_resume (t : Z) : M Z :=
  th ← get_thread t;
  if negb (th_error th =? RT_EOK) then mret (th_error th) else mret RT_EOK.

(** The thread [t] becomes the owner. *)
Definition mutex_acquire (t : Z) (prio : Z) (m : rt_mutex) : rt_mutex :=
  set_mx_hold (u8 (mx_hold m + 1)) (set_mx_original_priority prio (set_mx_owner (Some t) m)).

(** The part of [rt_mutex_take] for a mutex that another thread owns. *)
Definition mutex_wait (a t : Z) (m : rt_mutex) (time : Z) : M (wait Z) :=
  th ← get_thread t;
  o ← deref (mx_owner m);
  oth ← get_thread o;
  (if th_current_priority th <? th_current_priority oth
   then rt_thread_control o (RT_THREAD_CTRL_CHANGE_PRIORITY (th_current_priority th));; mret tt
   else mret tt);;
  ipc_wait (LSuspend (OMutex a)) t (mx_flag m) time;;
  schedule_then t FMutexTake (r ← rt_mutex_take_resume t; mret (Ret r)).

(** [rt_mutex_take]. *)
Definition rt_mutex_take (a time : Z) : M (wait Z) :=
  RT_DEBUG_IN_THREAD_CONTEXT;;
  cur ← rt_thread_self;
  t ← deref cur;
  mod_thread t (set_th_error RT_EOK);;
  m ← get_mutex a;
  if bool_decide (mx_owner m = Some t) then
    mod_mutex a (set_mx_hold (u8 (mx_hold m + 1)));;
    mret (Ret RT_EOK)
  else if 0 <? mx_value m then
    th ← get_thread t;
    mod_mutex a (fun m => mutex_acquire t (th_current_priority th) (set_mx_value (u16 (mx_value m - 1)) m));;
    mret (Ret RT_EOK)
  else if time =? 0 then
    mod_thread t (set_th_error (- RT_ETIMEOUT));;
    mret (Ret (- RT_ETIMEOUT))
  else mutex_wait a t m time.

(** The part of [rt_mutex_release] for the last release: the priority of the owner is
    restored, and the mutex goes to the first waiting thread or becomes free; says
    whether to schedule. *)
Definition mutex_unlock (a o : Z) : M bool :=
  m ← get_mutex a;
  oth ← get_thread o;
  (if negb (mx_original_priority m =? th_current_priority oth)
   then rt_thread_control o (RT_THREAD_CTRL_CHANGE_PRIORITY (mx_original_priority m));; mret tt
   else mret tt);;
  e ← list_isempty (LSuspend (OMutex a));
  if negb e then
    w ← list_first (LSuspend (OMutex a));
    wth ← get_thread w;
    mod_mutex a (mutex_acquire w (th_current_priority wth));;
    rt_ipc_list_resume (LSuspend (OMutex a));;
    mret true
  else
    mod_mutex a (fun m => set_mx_original_priority 255 (set_mx_owner None
                            (set_mx_value (u16 (mx_value m + 1)) m)));;
    mret false.

(** [rt_mutex_release]. *)
Definition rt_mutex_release (a : Z) : M Z :=
  RT_DEBUG_IN_THREAD_CONTEXT;;
  cur ← rt_thread_self;
  t ← deref cur;
  m ← get_mutex a;
  if negb (bool_decide (mx_owner m = Some t)) then
    mod_thread t (set_th_error (- RT_ERROR));;
    mret (- RT_ERROR)
  else
    mod_mutex a (set_mx_hold (u8 (mx_hold m - 1)));;
    need_schedule ← (if u8 (mx_hold m - 1) =? 0 then mutex_unlock a t else mret false);
    (if need_schedule : bool then rt_schedule else mret tt);;
    mret RT_EOK.

(** [rt_mutex_control]. *)
Definition rt_mutex_control (a cmd arg : Z) : M Z := mret (- RT_ERROR).

(** ** Specification *)

(** A recursive lock: the owner with the number of its takes, and the waiting threads. *)
Record rlock := RLock { rl_owner : option (Z * Z); rl_waiters : list Z }.

Inductive rlock_take (t : Z) (wait : bool) (pos : list Z -> list Z -> Prop) :
    rlock -> rlock -> option Z -> Prop :=
  | take_free ws : rlock_take t wait pos (RLock None ws) (RLock (Some (t, 1)) ws) (Some RT_EOK)
  | take_again n ws : rlock_take t wait pos (RLock (Some (t, n)) ws) (RLock (Some (t, n + 1)) ws) (Some RT_EOK)
  | take_busy o n ws : o <> t -> wait = false ->
      rlock_take t wait pos (RLock (Some (o, n)) ws) (RLock (Some (o, n)) ws) (Some (- RT_ETIMEOUT))
  | take_waits o n l1 l2 : o <> t -> wait = true -> pos l1 l2 ->
      rlock_take t wait pos (RLock (Some (o, n)) (l1 ++ l2)) (RLock (Some (o, n)) (l1 ++ t :: l2)) None.

Inductive rlock_release (t : Z) : rlock -> rlock -> Z -> Prop :=
  | release_foreign o ws : (forall n, o <> Some (t, n)) -> rlock_release t (RLock o ws) (RLock o ws) (- RT_ERROR)
  | release_nested n ws : 1 < n ->
      rlock_release t (RLock (Some (t, n)) ws) (RLock (Some (t, n - 1)) ws) RT_EOK
  | release_hands w ws : rlock_release t (RLock (Some (t, 1)) (w :: ws)) (RLock (Some (w, 1)) ws) RT_EOK
  | release_frees : rlock_release t (RLock (Some (t, 1)) []) (RLock None []) RT_EOK.

Definition mutex_abs (k : kstate) (a : Z) : option rlock :=
  m ← k_mutexes k !! a;
  Some (RLock ((fun o => (o, mx_hold m)) <$> mx_owner m) (queue k (LSuspend (OMutex a)))).

(** ** Invariant *)

Definition mutex_ok (k : kstate) (a : Z) (m : rt_mutex) : Prop :=
  ipc_flag (mx_flag m) /\
  match mx_owner m with
  | None => mx_value m = 1 /\ mx_hold m = 0 /\ queue k (LSuspend (OMutex a)) = []
  | Some o => mx_value m = 0 /\ 1 <= mx_hold m < 256 /\
      0 <= mx_original_priority m < RT_THREAD_PRIORITY_MAX /\
      exists th, k_threads k !! o = Some th /\ th_stat th <> RT_THREAD_INIT
  end.
Definition mutexes_ok (k : kstate) : Prop := forall a m, k_mutexes k !! a = Some m -> mutex_ok k a m.

(** Nothing but the mutexes and the threads has changed. *)
Definition mutex_only (k k' : kstate) : Prop := k' = set_k_mutexes (k_mutexes k') (with_core k' k).

(** ** Lemmas *)

Lemma get_mutex_run a m k : k_mutexes k !! a = Some m -> get_mutex a k = Some (m, k).
Proof. intros E. unfold get_mutex. by rewrite E. Qed.

Lemma mod_mutex_run a m f k :
  k_mutexes k !! a = Some m -> mod_mutex a f k = Some (tt, put_mutex a (f m) k).
Proof. intros E. unfold mod_mutex. by rewrite (bind_run _ _ _ _ _ (get_mutex_run _ _ _ E)). Qed.

Lemma core_put_mutex b bd idle a m k : core b bd idle k -> core b bd idle (put_mutex a m k).
Proof.
  intros [[[Hwf Hw] Hi Hs] Hcur]. split; [split; [split|..]|]; try done;
    [by apply (sched_wf_ext k)|by apply (timer_wf_ext b bd k)].
Qed.

Lemma mutex_only_put k k1 k' a m :
  core_only k k1 -> core_only (put_mutex a m k1) k' -> mutex_only k k'.
Proof.
  unfold core_only, mutex_only. destruct k, k1, k'. cbn. intros F1 F2.
  injection F1. injection F2. intros. by subst.
Qed.

Lemma core_only_mutex k k' : core_only k k' -> mutex_only k k'.
Proof. unfold core_only, mutex_only. intros F. rewrite F. done. Qed.

(** The invariant of a mutex the operation is not about. *)
Lemma mutex_ok_frame g k k' a m :
  mutex_ok k a m -> ipc_frame g k k' -> (forall t, ~ g (Some (LSuspend (OMutex a))) t) -> mutex_ok k' a m.
Proof.
  intros (Hf & Ho) If Hg. split; [done|]. destruct (mx_owner m) as [o|].
  - destruct Ho as (H1 & H2 & H3 & th & E & Hs). do 3 (split; [done|]). by eapply (if_dom _ _ _ If).
  - destruct Ho as (H1 & H2 & H3). do 2 (split; [done|]).
    destruct (queue k' (LSuspend (OMutex a))) as [|t l] eqn:Eq; [done|].
    destruct (if_lists _ _ _ If (LSuspend (OMutex a)) t I) as [Hin|Hin]; [rewrite Eq; set_solver| |by destruct (Hg t)].
    rewrite H3 in Hin. by apply not_elem_of_nil in Hin.
Qed.

Lemma mutexes_ok_frame g k k' a m' :
  mutexes_ok k -> ipc_frame g k k' -> (forall x t, x <> a -> ~ g (Some (LSuspend (OMutex x))) t) ->
  k_mutexes k' = <[a := m']> (k_mutexes k) -> mutex_ok k' a m' -> mutexes_ok k'.
Proof.
  intros Hok Hf Hg Em Ha x m. rewrite Em, lookup_insert. case_decide as Hd; [by intros [= <-]; subst|].
  intros Ex. eapply mutex_ok_frame; eauto.
Qed.

(** What the mutexes promise to the other components. *)
Definition mutex_list (h : lhead) : Prop := exists a, h = LSuspend (OMutex a).
#[export] Instance mutexes_wait_object : WaitObject mutex_list k_mutexes mutexes_ok.
Proof.
  intros g k k' Hok If Hg Ek x m. rewrite Ek. intros Ex. eapply mutex_ok_frame; [by apply Hok|done|].
  intros t. apply Hg. by exists x.
Qed.
#[export] Instance mutexes_stable : Stable mutexes_ok.
Proof. exact (wait_object_stable mutex_list k_mutexes mutexes_ok os_mutexes). Qed.

Lemma ipc_frame_prio g b bd idle k k' o oth prio :
  core b bd idle k -> k_threads k !! o = Some oth ->
  k_threads k' = <[o := set_prio prio oth]> (k_threads k) ->
  (forall h, (forall p, h <> LReady p) -> queue k' h = queue k h) -> ipc_frame g k k'.
Proof.
  intros Hc E Et Eq. apply ipc_frame_thread with o oth (set_prio prio oth); try done; [by left|by left|].
  intros h x Hh Hin. left. rewrite <-Eq; [done|]. intros p. by apply wait_list_not_ready.
Qed.

(** Lending a priority to the owner, or giving the owner its own back. *)
Lemma lend_run (c : bool) b bd idle k o oth prio :
  core b bd idle k -> k_threads k !! o = Some oth -> th_stat oth <> RT_THREAD_INIT ->
  0 <= prio < RT_THREAD_PRIORITY_MAX ->
  let oth' := if c then set_prio prio oth else oth in
  exists k', (if c then rt_thread_control o (RT_THREAD_CTRL_CHANGE_PRIORITY prio);; mret tt else mret tt) k
      = Some (tt, k') /\ core b bd idle k' /\ core_only k k' /\
    k_threads k' = <[o := oth']> (k_threads k) /\ k_current k' = k_current k /\
    (forall h, wait_list h -> queue k' h = queue k h) /\ (forall g, ipc_frame g k k').
Proof.
  intros Hc E Hs Hp oth'. destruct c; subst oth'.
  - destruct (change_priority_core b bd idle k o oth prio Hc E Hs Hp) as (k' & Er & Hc' & F & Et & Eq & Ec & _).
    exists k'. split.
    { unfold rt_thread_control. erewrite bind_run; [|by mstep_by Er]. done. }
    split; [done|]. split; [done|]. split; [done|]. split; [done|]. split.
    + intros h Hh. apply Eq. intros p. by apply wait_list_not_ready.
    + intros g. by eapply ipc_frame_prio.
  - exists k. split; [done|]. split; [done|]. split; [reflexivity|].
    split; [by rewrite insert_id|]. split; [done|]. split; [done|]. reflexivity.
Qed.

(** The branch of [rt_mutex_take] that waits: the caller is suspended at its place in
    the list and the owner has at least its priority. *)
Lemma mutex_wait_run b bd idle a m time k t th o oth :
  core b bd idle k -> k_current k = Some t -> is_ready k t th ->
  k_mutexes k !! a = Some m -> mx_owner m = Some o -> o <> t -> ipc_flag (mx_flag m) ->
  k_threads k !! o = Some oth -> th_stat oth <> RT_THREAD_INIT -> may_block b bd idle k t time ->
  exists k' l1 l2 oth', mutex_wait a t m time k = Some (Wait FMutexTake, k') /\ core b bd idle k' /\
    k_current k' <> Some t /\ core_only k k' /\ ipc_frame (joins (Some (LSuspend (OMutex a))) t) k k' /\
    queue k (LSuspend (OMutex a)) = l1 ++ l2 /\ queue k' (LSuspend (OMutex a)) = l1 ++ t :: l2 /\
    k_threads k' = <[t := set_th_stat RT_THREAD_SUSPEND th]> (<[o := oth']> (k_threads k)) /\
    th_current_priority oth' = Z.min (th_current_priority oth) (th_current_priority th) /\
    wait_position (<[o := oth']> (k_threads k)) (mx_flag m) (th_current_priority th) l1 l2 /\
    (0 < time -> TmThread t ∈ k_timer_list k').
Proof.
  intros Hc Ec Hr Em Eo Hne Hf E Hs (Hi & H0 & Hint & Hlt & Hst). pose proof Hr as [Et _].
  pose proof (wf_thread k (proj1 (c_inv (c_core0 Hc))) t th Et) as (Hpt & _).
  destruct (lend_run (th_current_priority th <? th_current_priority oth) b bd idle k o oth
    (th_current_priority th) Hc E Hs Hpt) as (k1 & Er1 & Hc1 & F1 & Eth1 & Ec1 & Eq1 & If1).
  set (oth' := if _ <? _ then _ else oth) in Eth1.
  assert (Hr1 : is_ready k1 t th) by (eapply is_ready_other; eauto).
  assert (Efs : k_lock_nest k1 = 0 /\ k_tick k1 = k_tick k) by (rewrite F1; done). destruct Efs as [El1 Etk].
  destruct (ipc_wait_block b bd idle (LSuspend (OMutex a)) t th (mx_flag m) time k1 FMutexTake
    (r ← rt_mutex_take_resume t; mret (Ret r))) as (k2 & l1 & l2 & p & u & Er & Hw & Hcu & Hu); try done.
  { by rewrite Ec1. }
  { rewrite Etk. done. }
  exists (switch_to p u k2), l1, l2, oth'. split.
  { unfold mutex_wait. mstep. rewrite Eo. do 2 mstep. mstep_by Er1. exact Er. }
  split; [done|]. split; [cbn; congruence|].
  split; [etrans; [exact F1|]; etrans; [apply (wt_frame Hw)|apply switch_core]|].
  split; [etrans; [apply If1|]; etrans; [|apply ipc_frame_switch]; by eapply ipc_frame_waiting|].
  split; [rewrite <-Eq1 by done; apply (wt_list Hw)|].
  split; [by rewrite (queue_ext k2), (wt_queue Hw)|].
  split; [cbn; by rewrite (wt_threads Hw), Eth1|]. split; [|split].
  - unfold oth'. destruct (Z.ltb_spec (th_current_priority th) (th_current_priority oth)) as [Hl|Hl]; [|lia].
    cbn. assert (u8 (th_current_priority th) = th_current_priority th) as ->
      by (unfold RT_THREAD_PRIORITY_MAX in *; mlia). lia.
  - pose proof (wt_position Hw) as Hp. by rewrite Eth1 in Hp.
  - intros Hpt'. pose proof (wt_timer Hw) as Htm. rewrite (proj2 (Z.ltb_lt 0 time) Hpt') in Htm. apply Htm.
Qed.

Lemma rt_mutex_take_enter b bd idle a m time k t th :
  core b bd idle k -> k_current k = Some t -> is_ready k t th -> k_int_nest k = 0 ->
  k_mutexes k !! a = Some m ->
  let the := set_th_error RT_EOK th in
  let k0 := put_th t the k in
  rt_mutex_take a time k =
    (if bool_decide (mx_owner m = Some t)
     then Some (Ret RT_EOK, put_mutex a (set_mx_hold (u8 (mx_hold m + 1)) m) k0)
     else if 0 <? mx_value m
     then Some (Ret RT_EOK, put_mutex a (mutex_acquire t (th_current_priority th)
                                           (set_mx_value (u16 (mx_value m - 1)) m)) k0)
     else if time =? 0
     then Some (Ret (- RT_ETIMEOUT), put_th t (set_th_error (- RT_ETIMEOUT) th) k)
     else mutex_wait a t m time k0).
Proof.
  intros Hc Ec [E Hs] Hint Em the k0. unfold rt_mutex_take.
  mstep_by (in_thread_context t k Ec Hint). mstep. rewrite Ec. do 2 mstep. fold the. fold k0.
  assert (Em0 : k_mutexes k0 !! a = Some m) by done.
  rewrite (bind_run _ _ _ _ _ (get_mutex_run a m k0 Em0)).
  destruct (bool_decide (mx_owner m = Some t)).
  { by mstep_by (mod_mutex_run a m (set_mx_hold (u8 (mx_hold m + 1))) k0 Em0). }
  destruct (0 <? mx_value m).
  { mstep. by erewrite bind_run; [|by apply (mod_mutex_run a m)]. }
  destruct (time =? 0); [|done]. mstep. unfold k0. by rewrite put_th_put_th.
Qed.

(** What [rt_mutex_take] does, as a recursive lock. *)
Lemma rt_mutex_take_run b bd idle a m time k t th :
  core b bd idle k -> mutexes_ok k -> k_current k = Some t -> is_ready k t th -> k_int_nest k = 0 ->
  k_mutexes k !! a = Some m -> (mx_owner m = Some t -> mx_hold m < 255) ->
  (mx_owner m <> None -> mx_owner m <> Some t -> time <> 0 -> may_block b bd idle k t time) ->
  exists r k' c c' o, rt_mutex_take a time k = Some (r, k') /\ core b bd idle k' /\ mutexes_ok k' /\
    mutex_abs k a = Some c /\ mutex_abs k' a = Some c' /\
    rlock_take t (negb (time =? 0)) (wait_position (k_threads k') (mx_flag m) (th_current_priority th)) c c' o /\
    match o with
    | Some e => r = Ret e /\ k_threads k' = <[t := set_th_error (if e =? RT_EOK then RT_EOK else - RT_ETIMEOUT) th]> (k_threads k)
    | None => r = Wait FMutexTake /\ k_current k' <> Some t /\
        exists ow oth oth', mx_owner m = Some ow /\ k_threads k !! ow = Some oth /\
          k_threads k' = <[t := set_th_stat RT_THREAD_SUSPEND (set_th_error RT_EOK th)]>
                           (<[ow := oth']> (k_threads k)) /\
          th_current_priority oth' = Z.min (th_current_priority oth) (th_current_priority th)
    end /\
    ipc_frame (grows r (Some (LSuspend (OMutex a))) t) k k' /\ mutex_only k k'.
Proof.
  intros Hc Hok Ec Hr Hint Em Hh Hb. pose proof Hr as [E Hs]. pose proof (Hok a m Em) as [Hf Hm].
  pose proof (wf_thread k (proj1 (c_inv (c_core0 Hc))) t th E) as (Hpt & _).
  destruct (set_error_core b bd idle k t th RT_EOK Hc Hr) as [Hc0 Hr0].
  rewrite (rt_mutex_take_enter b bd idle a m time k t th Hc Ec Hr Hint Em).
  set (the := set_th_error RT_EOK th) in *. set (k0 := put_th t the k) in *.
  assert (If0 : forall g, ipc_frame g k k0) by (intros g; by apply (ipc_frame_put_th g k t th the)).
  assert (F0 : core_only k k0) by (by destruct k).
  assert (Hput : forall m' c', mutex_ok k0 a m' ->
    Some c' = Some (RLock ((fun o => (o, mx_hold m')) <$> mx_owner m') (queue k (LSuspend (OMutex a)))) ->
    mutexes_ok (put_mutex a m' k0) /\ mutex_abs (put_mutex a m' k0) a = Some c' /\
    ipc_frame (no_growth) k (put_mutex a m' k0) /\ mutex_only k (put_mutex a m' k0)).
  { intros m' c' Hm' ->. split.
    - eapply (mutexes_ok_frame no_growth k _ a m'); [done| |by intros ? ? ? []|done|exact Hm'].
      etrans; [apply If0|by apply ipc_frame_same].
    - split; [unfold mutex_abs; cbn; by rewrite lookup_insert_eq|].
      split; [etrans; [apply If0|by apply ipc_frame_same]|].
      eapply (mutex_only_put k k0 _ a m'); [done|reflexivity]. }
  assert (Habs : mutex_abs k a = Some (RLock ((fun o => (o, mx_hold m)) <$> mx_owner m) (queue k (LSuspend (OMutex a))))).
  { unfold mutex_abs. by rewrite Em. }
  destruct (mx_owner m) as [o|] eqn:Eo.
  - destruct Hm as (Hv & Hhold & Hop & oth & Eoth & Hso). destruct (decide (o = t)) as [->|Hne].
    + rewrite bool_decide_true by done. set (m' := set_mx_hold (u8 (mx_hold m + 1)) m).
      assert (Hu : mx_hold m' = mx_hold m + 1) by (cbn; specialize (Hh eq_refl); mlia).
      destruct (Hput m' (RLock (Some (t, mx_hold m + 1)) (queue k (LSuspend (OMutex a)))))
        as (P1 & P2 & P3 & P4).
      { split; [done|]. cbn [mx_owner m' set_mx_hold]. rewrite Eo, Hu. specialize (Hh eq_refl).
        split; [done|]. split; [lia|]. split; [done|]. exists the. split; [cbn; apply lookup_insert_eq|].
        cbn. by rewrite Hs. }
      { rewrite Hu. cbn [mx_owner m' set_mx_hold]. by rewrite Eo. }
      eexists _, _, _, _, (Some RT_EOK). split; [done|]. split; [by apply core_put_mutex|].
      split; [done|]. split; [exact Habs|]. split; [exact P2|]. split; [constructor|]. done.
    + rewrite bool_decide_false by congruence. rewrite Hv. cbn [Z.ltb Z.compare].
      destruct (Z.eqb_spec time 0) as [->|Ht].
      * eexists _, _, _, _, (Some (- RT_ETIMEOUT)). split; [done|]. split; [by apply set_error_core|].
        set (k1 := put_th t (set_th_error (- RT_ETIMEOUT) th) k).
        assert (If1 : forall g, ipc_frame g k k1) by (intros g; by apply (ipc_frame_put_th g k t th)).
        split; [eapply (wait_object_keep mutex_list k_mutexes mutexes_ok k); [done|apply If1|done]|].
        split; [exact Habs|]. split; [exact Habs|]. split; [by constructor|]. split; [done|].
        split; [apply If1|]. apply core_only_mutex. by destruct k.
      * destruct (mutex_wait_run b bd idle a m time k0 t the o oth) as
          (k' & l1 & l2 & oth' & Er & Hc' & Hnc & F & If & Hl & Hl' & Et & Hpr & Hpos & _); try done.
        { cbn. by rewrite lookup_insert_ne. }
        { apply Hb; [done|congruence|done]. }
        assert (Hmk : k_mutexes k' = k_mutexes k) by (rewrite F; done).
        assert (Hnt : t ∉ l1 ++ l2).
        { rewrite <-Hl. eapply wait_list_unready; [|done|exact Hr0]. apply Hc0. }
        assert (Et' : k_threads k' = <[t := set_th_stat RT_THREAD_SUSPEND the]> (<[o := oth']> (k_threads k))).
        { rewrite Et. cbn. rewrite (insert_insert_ne (k_threads k) o t) by done. by rewrite insert_insert_eq. }
        change (queue k0 (LSuspend (OMutex a))) with (queue k (LSuspend (OMutex a))) in Hl.
        assert (Ifk : ipc_frame (joins (Some (LSuspend (OMutex a))) t) k k') by (etrans; [apply If0|exact If]).
        eexists _, k', (RLock (Some (o, mx_hold m)) (l1 ++ l2)), (RLock (Some (o, mx_hold m)) (l1 ++ t :: l2)), None.
        split; [exact Er|]. split; [done|]. split; [|split; [|split; [|split; [|split; [|split]]]]].
        -- rewrite <-(insert_id _ _ _ Em) in Hmk. eapply (mutexes_ok_frame _ k k' a m); [done|exact Ifk|by intros x y Hx [[= ->] _]|done|].
           split; [done|]. rewrite Eo. do 3 (split; [done|]). by eapply (if_dom _ _ _ Ifk).
        -- rewrite Habs, Hl. done.
        -- unfold mutex_abs. rewrite Hmk, Em. cbn. by rewrite Eo, Hl'.
        -- constructor; [done|done|]. rewrite Et.
           by apply position_insert.
        -- split; [done|]. split; [done|]. exists o, oth, oth'. done.
        -- done.
        -- apply core_only_mutex. by etrans.
  - destruct Hm as (Hv & Hhold & Hq). rewrite bool_decide_false by done. rewrite Hv. cbn [Z.ltb Z.compare].
    set (m' := mutex_acquire _ _ _).
    assert (Hu : mx_hold m' = 1) by (cbn; by rewrite Hhold).
    destruct (Hput m' (RLock (Some (t, 1)) (queue k (LSuspend (OMutex a))))) as (P1 & P2 & P3 & P4).
    { split; [done|]. cbn [mx_owner m' mutex_acquire set_mx_hold set_mx_owner set_mx_original_priority].
      rewrite Hu. split; [done|]. split; [lia|]. split; [done|]. exists the.
      split; [cbn; apply lookup_insert_eq|]. cbn. by rewrite Hs. }
    { by rewrite Hu. }
    eexists _, _, _, _, (Some RT_EOK). split; [done|]. split; [by apply core_put_mutex|].
    split; [done|]. split; [exact Habs|]. split; [exact P2|]. split; [constructor|]. done.
Qed.

(** The last release. *)
Lemma mutex_unlock_run b bd idle a m k t th :
  core b bd idle k -> k_mutexes k !! a = Some m -> mx_hold m = 0 -> mx_value m = 0 ->
  k_threads k !! t = Some th -> th_stat th <> RT_THREAD_INIT ->
  0 <= mx_original_priority m < RT_THREAD_PRIORITY_MAX ->
  exists need k' m', mutex_unlock a t k = Some (need, k') /\ core b bd idle k' /\
    k_mutexes k' = <[a := m']> (k_mutexes k) /\ mx_flag m' = mx_flag m /\ mutex_only k k' /\ ipc_frame no_growth k k' /\
    match queue k (LSuspend (OMutex a)) with
    | [] => need = false /\ m' = Mutex (mx_flag m) 1 255 0 None /\ queue k' (LSuspend (OMutex a)) = []
    | w :: ws => need = true /\ queue k' (LSuspend (OMutex a)) = ws /\
        exists wth, k_threads k' !! w = Some wth /\ th_stat wth = RT_THREAD_READY /\
          m' = Mutex (mx_flag m) 0 (th_current_priority wth) 1 (Some w)
    end /\
    exists th', k_threads k' !! t = Some th' /\
      (t ∉ queue k (LSuspend (OMutex a)) -> th_current_priority th' = mx_original_priority m).
Proof.
  intros Hc Em Hh Hv E Hs Hop.
  destruct (lend_run (negb (mx_original_priority m =? th_current_priority th)) b bd idle k t th
    (mx_original_priority m) Hc E Hs Hop) as (k1 & Er1 & Hc1 & F1 & Et1 & Ec1 & Eq1 & If1).
  set (th' := if negb _ then _ else th) in Et1.
  assert (Hprio : th_current_priority th' = mx_original_priority m).
  { unfold th'. destruct (Z.eqb_spec (mx_original_priority m) (th_current_priority th)); [done|].
    cbn. unfold RT_THREAD_PRIORITY_MAX in *. mlia. }
  assert (Em1 : k_mutexes k1 = k_mutexes k) by (rewrite F1; done).
  assert (Ema : k_mutexes k1 !! a = Some m) by (by rewrite Em1).
  assert (Eth1 : k_threads k1 !! t = Some th') by (rewrite Et1; apply lookup_insert_eq).
  unfold mutex_unlock. rewrite (bind_run _ _ _ _ _ (get_mutex_run _ _ _ Em)). mstep. mstep_by Er1.
  unfold list_isempty. mstep. rewrite Eq1 by done.
  destruct (queue k (LSuspend (OMutex a))) as [|w ws] eqn:Eq; cbn [negb].
  - erewrite bind_run; [|by apply (mod_mutex_run a m)]. eexists false, _, _. split; [done|].
    split; [by apply core_put_mutex|]. split; [cbn; by rewrite Em1|]. split; [done|].
    split; [eapply mutex_only_put; [exact F1|reflexivity]|].
    split; [etrans; [apply If1|by apply ipc_frame_same]|]. split.
    + split; [done|]. split; [|by rewrite (queue_ext k1), Eq1]. clear -Hv Hh. destruct m; cbn in *; by subst.
    + exists th'. done.
  - assert (Hq1 : queue k1 (LSuspend (OMutex a)) = w :: ws) by (by rewrite Eq1).
    assert (Hsus : exists wth, k_threads k1 !! w = Some wth /\ th_stat wth = RT_THREAD_SUSPEND).
    { apply (wait_list_suspended k1 (LSuspend (OMutex a)) w); [apply Hc1|done|rewrite Hq1; set_solver]. }
    destruct Hsus as (wth & Ew & Hsw). unfold list_first at 1. erewrite bind_run; [|by rewrite Hq1]. mstep.
    mstep_by (mod_mutex_run a m (mutex_acquire w (th_current_priority wth)) k1 Ema).
    set (m' := mutex_acquire w (th_current_priority wth) m). set (k2 := put_mutex a m' k1).
    destruct (rt_ipc_list_resume_woke b bd idle (LSuspend (OMutex a)) w ws k2) as (wth' & k' & Ew' & Er & _ & Hw).
    { by apply core_put_mutex. }
    { done. }
    { done. }
    assert (wth' = wth) as -> by (cbn in Ew'; congruence).
    exists true, k', m'. split; [by mstep_by Er|]. split; [apply Hw|].
    assert (Emk : k_mutexes k' = k_mutexes k2) by (rewrite (wk_only Hw); done).
    split; [rewrite Emk; cbn; by rewrite Em1|]. split; [done|].
    split; [eapply mutex_only_put; [exact F1|apply (wk_only Hw)]|].
    split; [etrans; [apply If1|]; etrans; [|apply (wk_frame Hw)]; by apply ipc_frame_same|]. split.
    + split; [done|]. split; [apply (wk_queue Hw)|]. exists (set_th_stat RT_THREAD_READY wth).
      split; [rewrite (wk_threads Hw); apply lookup_insert_eq|]. split; [done|].
      unfold m', mutex_acquire, set_mx_hold, set_mx_original_priority, set_mx_owner. cbn. by rewrite Hh, Hv.
    + destruct (decide (w = t)) as [->|Hne].
      * exists (set_th_stat RT_THREAD_READY wth). split; [rewrite (wk_threads Hw); apply lookup_insert_eq|].
        intros Hn. set_solver.
      * exists th'. split; [|done]. rewrite (wk_threads Hw), lookup_insert_ne by done. exact Eth1.
Qed.

Lemma rt_mutex_release_run b bd idle a m k t th :
  core b bd idle k -> mutexes_ok k -> k_current k = Some t -> is_ready k t th -> k_int_nest k = 0 ->
  k_mutexes k !! a = Some m ->
  exists r k' c c', rt_mutex_release a k = Some (r, k') /\ core b bd idle k' /\ mutexes_ok k' /\
    mutex_abs k a = Some c /\ mutex_abs k' a = Some c' /\ rlock_release t c c' r /\
    (rl_owner c = Some (t, 1) -> exists th', k_threads k' !! t = Some th' /\
       th_current_priority th' = mx_original_priority m) /\
    (forall w ws, rl_owner c = Some (t, 1) -> rl_waiters c = w :: ws ->
       exists wth, is_ready k' w wth) /\
    ipc_frame no_growth k k' /\ mutex_only k k'.
Proof.
  intros Hc Hok Ec Hr Hint Em. pose proof Hr as [E Hs]. pose proof (Hok a m Em) as [Hf Hm].
  assert (Habs : mutex_abs k a = Some (RLock ((fun o => (o, mx_hold m)) <$> mx_owner m) (queue k (LSuspend (OMutex a))))).
  { unfold mutex_abs. by rewrite Em. }
  unfold rt_mutex_release. mstep_by (in_thread_context t k Ec Hint). mstep. rewrite Ec. mstep.
  rewrite (bind_run _ _ _ _ _ (get_mutex_run _ _ _ Em)).
  destruct (decide (mx_owner m = Some t)) as [Eo|Hno].
  - rewrite bool_decide_true by done. cbn [negb]. rewrite Eo in Hm, Habs.
    destruct Hm as (Hv & Hh & Hop & th0 & E0 & Hs0). assert (th0 = th) as -> by congruence.
    assert (Hu : u8 (mx_hold m - 1) = mx_hold m - 1) by mlia.
    set (m1 := set_mx_hold (u8 (mx_hold m - 1)) m). set (k1 := put_mutex a m1 k).
    mstep_by (mod_mutex_run a m (set_mx_hold (u8 (mx_hold m - 1))) k Em). fold m1. fold k1.
    assert (Hc1 : core b bd idle k1) by (by apply core_put_mutex).
    rewrite Hu. destruct (Z.eqb_spec (mx_hold m - 1) 0) as [Hz|Hz].
    + assert (Hn : t ∉ queue k (LSuspend (OMutex a))) by (eapply wait_list_unready; [apply Hc|done|done]).
      destruct (mutex_unlock_run b bd idle a m1 k1 t th) as
        (need & k2 & m' & Er & Hc2 & Emk & Hfm & Hon & If & Hcase & th' & Eth' & Hpr); try done.
      { cbn. apply lookup_insert_eq. }
      { cbn. lia. }
      mstep_by Er.
      assert (Hsch : exists k', ((if need then rt_schedule else mret tt);; mret RT_EOK) k2 = Some (RT_EOK, k') /\
        core b bd idle k' /\ core_only k2 k' /\ k_threads k' = k_threads k2 /\ k_queues k' = k_queues k2 /\
        ipc_frame no_growth k2 k').
      { destruct need; [|exists k2; split; [done|]; split; [done|]; split; [reflexivity|]; done].
        destruct (rt_schedule_ready b bd idle k2 Hc2) as (k' & Es & Hc' & F & Et & Eq & _ & _ & Ifs).
        exists k'. split; [by mstep_by Es|done]. }
      destruct Hsch as (k' & Es & Hc' & F & Et & Eq & Ifs).
      assert (Ifk : ipc_frame no_growth k k').
      { etrans; [|exact Ifs]. etrans; [|exact If]. by apply ipc_frame_same. }
      assert (Emk' : k_mutexes k' = <[a := m']> (k_mutexes k)).
      { rewrite F. cbn. rewrite Emk. cbn. by rewrite insert_insert_eq. }
      assert (Honk : mutex_only k k').
      { unfold mutex_only in Hon |- *. unfold core_only in F. revert Hon F. clear.
        destruct k, k2, k'. cbn. intros Hon F. injection Hon. injection F. intros. by subst. }
      change (queue k1 (LSuspend (OMutex a))) with (queue k (LSuspend (OMutex a))) in *.
      assert (Hmok : mutex_ok k' a m').
      { split; [by rewrite Hfm|]. destruct (queue k (LSuspend (OMutex a))) as [|w ws].
        - destruct Hcase as (_ & -> & Hq). cbn. by rewrite (queue_ext k2).
        - destruct Hcase as (_ & Hq & wth & Ew & Hsw & ->). cbn. split; [done|]. split; [lia|].
          split; [apply (wf_thread k2 (proj1 (c_inv (c_core0 Hc2))) w wth Ew)|].
          exists wth. split; [by rewrite Et|]. by rewrite Hsw. }
      eexists RT_EOK, k', _, (RLock ((fun o => (o, mx_hold m')) <$> mx_owner m') (queue k' (LSuspend (OMutex a)))).
      split; [exact Es|]. split; [done|].
      split; [by eapply (mutexes_ok_frame no_growth k k' a m'); [..|by intros ? ? ? []| |]|].
      split; [exact Habs|]. split; [unfold mutex_abs; by rewrite Emk', lookup_insert_eq|].
      assert (Hh1 : mx_hold m = 1) by lia. rewrite Hh1 in *. cbn [rl_owner rl_waiters fmap option_fmap option_map].
      split; [|split; [|split; [|done]]].
      * destruct (queue k (LSuspend (OMutex a))) as [|w ws].
        -- destruct Hcase as (_ & -> & Hq). rewrite (queue_ext k2), Hq by done. constructor.
        -- destruct Hcase as (_ & Hq & wth & _ & _ & ->). rewrite (queue_ext k2), Hq by done. constructor.
      * intros _. exists th'. split; [by rewrite Et|by apply Hpr].
      * intros w ws _ Hws. rewrite Hws in Hcase. destruct Hcase as (_ & _ & wth & Ew & Hsw & _).
        exists wth. split; [by rewrite Et|done].
    + erewrite bind_run; [|reflexivity]. erewrite bind_run; [|reflexivity].
      exists RT_EOK, k1, (RLock (Some (t, mx_hold m)) (queue k (LSuspend (OMutex a)))),
        (RLock (Some (t, mx_hold m - 1)) (queue k (LSuspend (OMutex a)))).
      split; [done|]. split; [done|]. split; [|split; [|split; [|split; [|split; [|split; [|split]]]]]].
      * eapply (mutexes_ok_frame no_growth k k1 a m1); [done|by apply ipc_frame_same|by intros ? ? ? []|done|].
        split; [done|]. cbn. rewrite Eo, Hu. do 2 (split; [lia|]). split; [done|]. eauto.
      * exact Habs.
      * unfold mutex_abs, k1. cbn. rewrite lookup_insert_eq. cbn. by rewrite Eo, Hu.
      * constructor. lia.
      * intros [= He]. lia.
      * intros ? ? [= He]. lia.
      * by apply ipc_frame_same.
      * eapply (mutex_only_put k k _ a m1); reflexivity.
  - rewrite bool_decide_false by done. cbn [negb]. mstep.
    exists (- RT_ERROR), (put_th t (set_th_error (- RT_ERROR) th) k). do 2 eexists. split; [done|].
    destruct (set_error_core b bd idle k t th (- RT_ERROR) Hc Hr) as [Hc0 _]. split; [done|].
    assert (If0 : forall g, ipc_frame g k (put_th t (set_th_error (- RT_ERROR) th) k))
      by (intros g; by apply (ipc_frame_put_th g k t th)).
    split; [eapply (wait_object_keep mutex_list k_mutexes mutexes_ok k); [done|apply If0|done]|].
    split; [exact Habs|]. split; [exact Habs|].
    assert (Hfo : forall n, (fun o => (o, mx_hold m)) <$> mx_owner m <> Some (t, n)).
    { intros n. destruct (mx_owner m); cbn; [|done]. intros [= -> _]. by apply Hno. }
    split; [by constructor|]. cbn. split; [intros He; by destruct (Hfo 1)|].
    split; [intros ? ? He; by destruct (Hfo 1)|]. split; [apply If0|]. apply core_only_mutex. by destruct k.
Qed.

(** C8. [rt_mutex_take] implements a recursive lock: it gives a free mutex to the caller,
    counts a further take of the owner, refuses a busy mutex when the caller does not
    want to wait, and otherwise suspends the caller at its place in the list; the owner
    of a mutex a thread waits for then runs at no lower priority than that thread. *)
Theorem rt_mutex_take_refines idle a m time k t th :
  core (k_tick k) RT_TICK_HALF idle k -> mutexes_ok k -> k_current k = Some t -> is_ready k t th ->
  k_int_nest k = 0 -> k_mutexes k !! a = Some m -> (mx_owner m = Some t -> mx_hold m < 255) ->
  (mx_owner m <> None -> mx_owner m <> Some t -> time <> 0 ->
     may_block (k_tick k) RT_TICK_HALF idle k t time) ->
  exists r k' c c' o, rt_mutex_take a time k = Some (r, k') /\
    core (k_tick k') RT_TICK_HALF idle k' /\ mutexes_ok k' /\
    mutex_abs k a = Some c /\ mutex_abs k' a = Some c' /\
    rlock_take t (negb (time =? 0)) (wait_position (k_threads k') (mx_flag m) (th_current_priority th)) c c' o /\
    match o with
    | Some e => r = Ret e
    | None => r = Wait FMutexTake /\ k_current k' <> Some t /\
        exists ow oth oth', mx_owner m = Some ow /\ k_threads k !! ow = Some oth /\
          k_threads k' = <[t := set_th_stat RT_THREAD_SUSPEND (set_th_error RT_EOK th)]>
                           (<[ow := oth']> (k_threads k)) /\
          th_current_priority oth' = Z.min (th_current_priority oth) (th_current_priority th)
    end.
Proof.
  intros Hc Hok Ec Hr Hint Em Hh Hb.
  destruct (rt_mutex_take_run _ _ idle a m time k t th Hc Hok Ec Hr Hint Em Hh Hb)
    as (r & k' & c & c' & o & Er & Hc' & Hok' & Ha & Ha' & Ht & Ho & _ & Hon).
  exists r, k', c, c', o. assert (k_tick k' = k_tick k) as -> by (unfold mutex_only in Hon; by rewrite Hon).
  do 6 (split; [done|]). destruct o; tauto.
Qed.

(** C9. [rt_mutex_release] by a thread that is not the owner changes nothing of the mutex
    and fails; a nested release lowers the count; the last release gives the caller the
    priority it had at its first take back and hands the mutex to the first waiting
    thread, which becomes ready as the owner, or frees it. *)
Theorem rt_mutex_release_refines b bd idle a m k t th :
  core b bd idle k -> mutexes_ok k -> k_current k = Some t -> is_ready k t th -> k_int_nest k = 0 ->
  k_mutexes k !! a = Some m ->
  exists r k' c c', rt_mutex_release a k = Some (r, k') /\ core b bd idle k' /\ mutexes_ok k' /\
    mutex_abs k a = Some c /\ mutex_abs k' a = Some c' /\ rlock_release t c c' r /\
    (rl_owner c = Some (t, 1) -> exists th', k_threads k' !! t = Some th' /\
       th_current_priority th' = mx_original_priority m) /\
    (forall w ws, rl_owner c = Some (t, 1) -> rl_waiters c = w :: ws ->
       exists wth, is_ready k' w wth).
Proof.
  intros Hc Hok Ec Hr Hint Em. destruct (rt_mutex_release_run b bd idle a m k t th Hc Hok Ec Hr Hint Em)
    as (r & k' & c & c' & H). exists r, k', c, c'. tauto.
Qed.

(** The count of takes of the owner has 8 bits: after 256 nested takes it is 0 while
    the mutex is still owned, and the next release leaves it owned with the count 255. *)
Example mutex_hold_wraps (m : rt_mutex) (t : Z) :
  mx_hold m = 255 -> mx_hold (set_mx_hold (u8 (mx_hold m + 1)) m) = 0.
Proof. by intros ->. Qed.
