(* ===== verification/EventSet.v ===== *)
(** * Events (src/src/ipc.c)

    A set of 32 event bits; a thread waits for all or for one of some bits and may
    take the bits away when it gets them.  The invariant of an event object says that
    no thread waits for what is already there. *)
From S2P Require Import Prelude KService Kernel Object Scheduler Timer Thread Frame Ipc.

Definition get_event (a : Z) : M rt_event := fun k => e ← k_events k !! a; Some (e, k).
Definition put_event (a : Z) (e : rt_event) (k : kstate) : kstate :=
  set_k_events (<[a := e]> (k_events k)) k.
Definition mod_event (a : Z) (f : rt_event -> rt_event) : M unit :=
  e ← get_event a; kmod (put_event a (f e)).

(** [rt_event_init]. *)
Definition rt_event_init (a : Z) (name : list Z) (flag : Z) : M Z :=
  rt_object_init (OEvent a) name;;
  rt_ipc_object_init (OEvent a);;
  kmod (put_event a (Event (u8 flag) 0));;
  mret RT_EOK.

(** [rt_event_detach]. *)
Definition rt_event_detach (a : Z) : M Z :=
  rt_ipc_list_resume_all (LSuspend (OEvent a));;
  rt_object_detach (OEvent a);;
  mret RT_EOK.

Definition has_flag (info flag : Z) : bool := negb (Z.land info flag =? 0).

(** The test of [rt_event_send] on a waiting thread; an OR wait notes what it got. *)
Definition event_check (a t : Z) : M bool :=
  th ← get_thread t;
  e ← get_event a;
  if has_flag (th_event_info th) RT_EVENT_FLAG_AND then
    mret (Z.land (th_event_set th) (ev_set e) =? th_event_set th)
  else if has_flag (th_event_info th) RT_EVENT_FLAG_OR then
    if negb (Z.land (th_event_set th) (ev_set e) =? 0) then
      mod_thread t (set_th_event_set (Z.land (th_event_set th) (ev_set e)));;
      mret true
    else mret false
  else mret false.

(** The loop of [rt_event_send] over the waiting threads; says whether to schedule. *)
Fixpoint event_scan (a : Z) (l : list Z) : M bool :=
  match l with
  | [] => mret false
  | t :: l' =>
      ok ← event_check a t;
      if ok : bool then
        th ← get_thread t;
        (if has_flag (th_event_info th) RT_EVENT_FLAG_CLEAR
         then mod_event a (fun e => set_ev_set (Z.land (ev_set e) (u32 (Z.lnot (th_event_set th)))) e)
         else mret tt);;
        rt_thread_resume t;;
        event_scan a l';;
        mret true
      else event_scan a l'
  end.

(** [rt_event_send]. *)
Definition rt_event_send (a set : Z) : M Z :=
  if set =? 0 then mret (- RT_ERROR)
  else
    mod_event a (fun e => set_ev_set (Z.lor (ev_set e) set) e);;
    l ← kget (fun k => queue k (LSuspend (OEvent a)));
    need_schedule ← event_scan a l;
    (if need_schedule : bool then rt_schedule else mret tt);;
    mret RT_EOK.

(** [rt_event_recv] after the wait: the error of the thread, or the events it got. *)
Definition rt_event_recv_resume (t : Z) : M (Z * option Z) :=
  th ← get_thread t;
  if negb (th_error th =? RT_EOK) then mret (th_error th, None)
  else mret (th_error th, Some (th_event_set th)).

(** The test of [rt_event_recv]; one of the two flags must be given. *)
Definition recv_check (opt set evs : Z) : option bool :=
  if has_flag opt RT_EVENT_FLAG_AND then Some (Z.land evs set =? set)
  else if has_flag opt RT_EVENT_FLAG_OR then Some (negb (Z.land evs set =? 0))
  else None.

(** [rt_event_recv]; the second result is what is stored through [recved]. *)
Definition rt_event_recv (a set opt timeout : Z) : M (wait (Z * option Z)) :=
  RT_DEBUG_IN_THREAD_CONTEXT;;
  if set =? 0 then mret (Ret (- RT_ERROR, None))
  else
    cur ← rt_thread_self;
    t ← deref cur;
    mod_thread t (set_th_error RT_EOK);;
    e ← get_event a;
    ok ← deref (recv_check opt set (ev_set e));
    if ok : bool then
      (if has_flag opt RT_EVENT_FLAG_CLEAR
       then mod_event a (fun e => set_ev_set (Z.land (ev_set e) (u32 (Z.lnot set))) e)
       else mret tt);;
      mret (Ret (RT_EOK, Some (Z.land (ev_set e) set)))
    else if timeout =? 0 then
      mod_thread t (set_th_error (- RT_ETIMEOUT));;
      mret (Ret (- RT_ETIMEOUT, None))
    else
      mod_thread t (fun th => set_th_event_info opt (set_th_event_set set th));;
      ipc_wait (LSuspend (OEvent a)) t (ev_flag e) timeout;;
      schedule_then t FEventRecv (r ← rt_event_recv_resume t; mret (Ret r)).

(** [rt_event_control]. *)
Definition rt_event_control (a cmd arg : Z) : M Z :=
  if cmd =? RT_IPC_CMD_RESET then
    rt_ipc_list_resume_all (LSuspend (OEvent a));;
    mod_event a (set_ev_set 0);;
    rt_schedule;;
    mret RT_EOK
  else mret (- RT_ERROR).

(** ** Specification *)

(** Whether the set [evs] satisfies a wait. *)
Definition ev_match (info set evs : Z) : bool :=
  if has_flag info RT_EVENT_FLAG_AND then Z.land set evs =? set
  else if has_flag info RT_EVENT_FLAG_OR then negb (Z.land set evs =? 0) else false.
Definition satisfied (th : rt_thread) (evs : Z) : bool := ev_match (th_event_info th) (th_event_set th) evs.

Definition subset (x y : Z) : Prop := Z.land x y = x.

(** The events a satisfied wait takes out of the set [evs], and what is left of the set: the wait
    may ask for them to be cleared. *)
Definition takes (th : rt_thread) (evs : Z) : Z :=
  if has_flag (th_event_info th) RT_EVENT_FLAG_AND then th_event_set th else Z.land (th_event_set th) evs.
Definition leaves (th : rt_thread) (evs : Z) : Z :=
  if has_flag (th_event_info th) RT_EVENT_FLAG_CLEAR then Z.ldiff evs (takes th evs) else evs.
(** The set [evs] offered to waiting threads one after the other: what is left of it, the threads
    that are woken with what they got, and the threads that go on waiting. *)
Fixpoint deliver (threads : gmap Z rt_thread) (evs : Z) (l : list Z) : Z * list (Z * Z) * list Z :=
  match l with
  | [] => (evs, [], [])
  | t :: l =>
      match threads !! t with
      | None => deliver threads evs l
      | Some th =>
          if satisfied th evs then
            let '(evs', woken, rest) := deliver threads (leaves th evs) l in (evs', (t, takes th evs) :: woken, rest)
          else let '(evs', woken, rest) := deliver threads evs l in (evs', woken, t :: rest)
      end
  end.

(** What a thread gets that waited as [th], out of the set [evs]. *)
Definition delivered (th : rt_thread) (evs got : Z) : Prop :=
  subset got evs /\ subset got (th_event_set th) /\
  (has_flag (th_event_info th) RT_EVENT_FLAG_AND = true -> got = th_event_set th) /\
  (has_flag (th_event_info th) RT_EVENT_FLAG_AND = false -> got <> 0).

(** No thread waits for what is there. *)
Definition no_missed (k : kstate) (a evs : Z) : Prop := forall t th,
  t ∈ queue k (LSuspend (OEvent a)) -> k_threads k !! t = Some th -> satisfied th evs = false.

Definition event_ok (k : kstate) (a : Z) (e : rt_event) : Prop :=
  0 <= ev_set e < 4294967296 /\ ipc_flag (ev_flag e) /\ no_missed k a (ev_set e).
Definition events_ok (k : kstate) : Prop := forall a e, k_events k !! a = Some e -> event_ok k a e.

(** Nothing but the events and the threads has changed. *)
Definition event_only (k k' : kstate) : Prop := k' = set_k_events (k_events k') (with_core k' k).

(** The threads of [l] after a scan: woken with what they got, or still waiting. *)
Definition scanned_thread (k k' : kstate) (evs : Z) (rest : list Z) (t : Z) : Prop :=
  exists th, k_threads k !! t = Some th /\
    ((t ∈ rest /\ k_threads k' !! t = Some th) \/
     (t ∉ rest /\ exists got, delivered th evs got /\
        k_threads k' !! t = Some (set_th_stat RT_THREAD_READY (set_th_event_set got th)))).

(** The control block of a thread that waits for events. *)
Definition event_waiter (opt set : Z) (th : rt_thread) : rt_thread :=
  set_th_event_info opt (set_th_event_set set (set_th_error RT_EOK th)).

(** ** Lemmas *)

Lemma get_event_run a e k : k_events k !! a = Some e -> get_event a k = Some (e, k).
Proof. intros E. unfold get_event. by rewrite E. Qed.

Lemma mod_event_run a e f k :
  k_events k !! a = Some e -> mod_event a f k = Some (tt, put_event a (f e) k).
Proof. intros E. unfold mod_event. by rewrite (bind_run _ _ _ _ _ (get_event_run _ _ _ E)). Qed.

Lemma core_put_event b bd idle a e k : core b bd idle k -> core b bd idle (put_event a e k).
Proof.
  intros [[[Hwf Hw] Hi Hs] Hcur]. split; [split; [split|..]|]; try done;
    [by apply (sched_wf_ext k)|by apply (timer_wf_ext b bd k)].
Qed.

Lemma event_only_put k k1 k' a e :
  core_only k k1 -> core_only (put_event a e k1) k' -> event_only k k'.
Proof.
  unfold core_only, event_only. destruct k, k1, k'. cbn. intros F1 F2.
  injection F1. injection F2. intros. by subst.
Qed.

Lemma core_only_event k k' : core_only k k' -> event_only k k'.
Proof. unfold core_only, event_only. intros F. rewrite F. done. Qed.

#[export] Instance event_only_trans : Transitive event_only.
Proof. unfold event_only. intros k k1 k2 E1 ->. rewrite E1. done. Qed.

Lemma subset_refl x : subset x x.
Proof. apply Z.land_diag. Qed.
Lemma subset_trans x y z : subset x y -> subset y z -> subset x z.
Proof. unfold subset. intros H1 H2. by rewrite <-H1, <-Z.land_assoc, H2, H1. Qed.
Lemma subset_land_l x y : subset (Z.land x y) x.
Proof. unfold subset. rewrite (Z.land_comm x y), <-Z.land_assoc, Z.land_diag. done. Qed.
Lemma subset_land_r x y : subset (Z.land x y) y.
Proof. unfold subset. by rewrite <-Z.land_assoc, Z.land_diag. Qed.

(** A smaller set satisfies no more waits. *)
Lemma ev_match_mono info set e1 e2 :
  subset e1 e2 -> ev_match info set e1 = true -> ev_match info set e2 = true.
Proof.
  intros Hs. unfold ev_match. destruct (has_flag info RT_EVENT_FLAG_AND).
  - rewrite !Z.eqb_eq. intros H. by apply (subset_trans set e1 e2).
  - destruct (has_flag info RT_EVENT_FLAG_OR); [|done]. rewrite !negb_true_iff, !Z.eqb_neq.
    intros H H2. apply H. rewrite <-Hs, (Z.land_comm e1), Z.land_assoc, H2. apply Z.land_0_l.
Qed.

Lemma satisfied_mono th e1 e2 : subset e1 e2 -> satisfied th e2 = false -> satisfied th e1 = false.
Proof.
  intros Hs H2. destruct (satisfied th e1) eqn:E; [|done].
  apply (ev_match_mono _ _ _ _ Hs) in E. unfold satisfied in H2. congruence.
Qed.

(** The test of the loop on one waiting thread. *)
Lemma event_check_run b bd idle a e k t th :
  core b bd idle k -> k_threads k !! t = Some th -> k_events k !! a = Some e ->
  event_check a t k =
      Some (satisfied th (ev_set e), if satisfied th (ev_set e) then put_th t (set_th_event_set (takes th (ev_set e)) th) k else k) /\
    (satisfied th (ev_set e) = true -> delivered th (ev_set e) (takes th (ev_set e))).
Proof.
  intros Hc E Ee. unfold event_check. mstep. rewrite (bind_run _ _ _ _ _ (get_event_run _ _ _ Ee)).
  unfold satisfied, ev_match, delivered, takes. destruct (has_flag (th_event_info th) RT_EVENT_FLAG_AND) eqn:Ha.
  - destruct (Z.eqb_spec (Z.land (th_event_set th) (ev_set e)) (th_event_set th)) as [H|H].
    + split; [|by auto using subset_refl]. rewrite put_th_id; [done|]. rewrite E. by destruct th.
    + done.
  - destruct (has_flag (th_event_info th) RT_EVENT_FLAG_OR) eqn:Ho; [|done].
    destruct (Z.eqb_spec (Z.land (th_event_set th) (ev_set e)) 0) as [H|H]; cbn [negb]; [done|].
    split; [by mstep|]. intros _. split; [apply subset_land_r|]. split; [apply subset_land_l|done].
Qed.

(** [event->set &= ~x] in 32 bits. *)
Lemma clear_ldiff x y : 0 <= x < 4294967296 -> Z.land x (u32 (Z.lnot y)) = Z.ldiff x y.
Proof.
  intros Hx. apply Z.bits_inj'. intros i Hi. rewrite Z.land_spec, Z.ldiff_spec.
  destruct (decide (i < 32)) as [Hlt|Hge]; [by rewrite testbit_u32, Z.lnot_spec by lia|]. by rewrite (testbit_above x) by lia.
Qed.
Lemma deliver_ext th1 th2 l : forall evs, (forall t, t ∈ l -> th1 !! t = th2 !! t) -> deliver th1 evs l = deliver th2 evs l.
Proof.
  induction l as [|t l IH]; intros evs H; cbn; [done|]. rewrite H by (by left). assert (Hl : forall x, x ∈ l -> th1 !! x = th2 !! x) by (intros; apply H; by right).
  destruct (th2 !! t) as [th|]; [destruct (satisfied th evs)|]; by rewrite IH.
Qed.

Lemma clear_run (c : bool) b bd idle a e k x :
  core b bd idle k -> k_events k !! a = Some e -> 0 <= ev_set e < 4294967296 ->
  let e' := if c then set_ev_set (Z.land (ev_set e) (u32 (Z.lnot x))) e else e in
  exists k', (if c then mod_event a (fun e => set_ev_set (Z.land (ev_set e) (u32 (Z.lnot x))) e) else mret tt) k
      = Some (tt, k') /\ k' = put_event a e' k /\ core b bd idle k' /\
    subset (ev_set e') (ev_set e) /\ 0 <= ev_set e' < 4294967296 /\ ev_flag e' = ev_flag e.
Proof.
  intros Hc Ee Hr e'. destruct c; subst e'.
  - rewrite (mod_event_run a e) by done. eexists. split; [done|]. split; [done|].
    split; [by apply core_put_event|]. cbn. split; [apply subset_land_l|]. split; [|done].
    by apply land_range.
  - exists k. split; [done|]. unfold put_event. rewrite insert_id by done. split; [by destruct k|].
    split; [done|]. split; [apply subset_refl|done].
Qed.

(** A satisfied thread leaves the list: the state before the rest of the loop. *)
Lemma event_wake_run b bd idle a e k t th pre l got :
  core b bd idle k -> k_events k !! a = Some e -> 0 <= ev_set e < 4294967296 ->
  queue k (LSuspend (OEvent a)) = pre ++ t :: l -> k_threads k !! t = Some th ->
  let th1 := set_th_event_set got th in
  exists k' e', (th ← get_thread t;
      (if has_flag (th_event_info th) RT_EVENT_FLAG_CLEAR
       then mod_event a (fun e => set_ev_set (Z.land (ev_set e) (u32 (Z.lnot (th_event_set th)))) e)
       else mret tt);;
      rt_thread_resume t) (put_th t th1 k) = Some (RT_EOK, k') /\
    core b bd idle k' /\ event_only k k' /\ k_events k' = <[a := e']> (k_events k) /\
    ev_flag e' = ev_flag e /\ 0 <= ev_set e' < 4294967296 /\ subset (ev_set e') (ev_set e) /\
    ev_set e' = (if has_flag (th_event_info th) RT_EVENT_FLAG_CLEAR then Z.ldiff (ev_set e) got else ev_set e) /\
    queue k' (LSuspend (OEvent a)) = pre ++ l /\
    k_threads k' = <[t := set_th_stat RT_THREAD_READY th1]> (k_threads k) /\
    k_current k' = k_current k /\ ipc_frame no_growth k k'.
Proof.
  intros Hc Ee Hr Hq E th1. pose proof (proj1 (c_inv (c_core0 Hc))) as Hwf. set (h := LSuspend (OEvent a)) in *.
  destruct (wait_list_suspended k h t Hwf I) as (th0 & E0 & Hs); [rewrite Hq; set_solver|].
  assert (th0 = th) as -> by congruence. set (k1 := put_th t th1 k).
  assert (Hc1 : core b bd idle k1) by (apply put_th_core with th; try done; exact (wf_thread k Hwf t th E)).
  assert (E1 : k_threads k1 !! t = Some th1) by (cbn; apply lookup_insert_eq).
  destruct (clear_run (has_flag (th_event_info th1) RT_EVENT_FLAG_CLEAR) b bd idle a e k1 (th_event_set th1) Hc1 Ee Hr)
    as (k2 & Er2 & Ek2 & Hc2 & Hsub & Hr' & Hfl). set (e' := if has_flag _ _ then _ else e) in *.
  destruct (rt_thread_resume_core b bd idle k2 t th1 Hc2) as (k' & Er & Hc' & F & Et & Eq & Ec);
    [by rewrite Ek2|done|].
  assert (Hnd : t ∉ pre /\ t ∉ l).
  { pose proof (wf_nodup k Hwf h) as Hn. rewrite Hq, list.NoDup_app, list.NoDup_cons in Hn. set_solver. }
  assert (Hqh : forall h', (forall p, h' <> LReady p) -> queue k' h' = filter (fun x => x <> t) (queue k h')).
  { intros h' Hh'. rewrite Eq by done. by rewrite Ek2. }
  assert (Ett : k_threads k' = <[t := set_th_stat RT_THREAD_READY th1]> (k_threads k)).
  { rewrite Et, Ek2. cbn. by rewrite insert_insert_eq. }
  exists k', e'. split; [mstep; mstep_by Er2; exact Er|]. split; [done|].
  split; [eapply (event_only_put k k1 k' a e'); [by destruct k|by rewrite <-Ek2]|].
  split; [rewrite F, Ek2; done|]. do 3 (split; [done|]).
  split; [unfold e'; change (th_event_info th1) with (th_event_info th); destruct (has_flag _ _); [cbn; by rewrite clear_ldiff|done]|]. split; [|split; [done|split; [by rewrite Ec, Ek2|]]].
  - rewrite Hqh, Hq by done. rewrite list.filter_app, filter_cons_False by tauto.
    by rewrite !filter_ne_id by tauto.
  - eapply ipc_frame_thread; [exact E|exact Ett|right| |done|].
    + intros h' Hh' _. rewrite Hqh, list_elem_of_filter; [tauto|]. intros p. by apply wait_list_not_ready.
    + done.
    + intros h' x Hh'. rewrite Hqh, list_elem_of_filter; [tauto|]. intros p. by apply wait_list_not_ready.
Qed.

Lemma wake_seq {A B C D} (m : M A) (n : A -> M B) (r : M C) (f : M D) v k k' :
  (x ← m; n x;; r) k = Some (v, k') -> (x ← m; n x;; r;; f) k = f k'.
Proof.
  unfold mbind, M_bind. destruct (m k) as [[x k1]|]; [|done]. destruct (n x k1) as [[? k2]|]; [|done].
  by intros ->.
Qed.

Lemma event_scan_run b bd idle a l : forall pre k e,
  core b bd idle k -> k_events k !! a = Some e -> 0 <= ev_set e < 4294967296 ->
  queue k (LSuspend (OEvent a)) = pre ++ l ->
  (forall t th, t ∈ pre -> k_threads k !! t = Some th -> satisfied th (ev_set e) = false) ->
  exists need k' e' rest, event_scan a l k = Some (need, k') /\ core b bd idle k' /\ event_only k k' /\
    k_events k' = <[a := e']> (k_events k) /\ ev_flag e' = ev_flag e /\
    0 <= ev_set e' < 4294967296 /\ subset (ev_set e') (ev_set e) /\
    queue k' (LSuspend (OEvent a)) = pre ++ rest /\ rest `sublist_of` l /\ no_missed k' a (ev_set e') /\
    (forall t, t ∈ l -> scanned_thread k k' (ev_set e) rest t) /\
    (forall t, t ∉ l -> k_threads k' !! t = k_threads k !! t) /\
    k_current k' = k_current k /\ ipc_frame no_growth k k' /\
    exists woken, deliver (k_threads k) (ev_set e) l = (ev_set e', woken, rest) /\
      forall t g, (t, g) ∈ woken -> exists th, k_threads k !! t = Some th /\ t ∈ l /\
        k_threads k' !! t = Some (set_th_stat RT_THREAD_READY (set_th_event_set g th)).
Proof.
  induction l as [|t l IH]; intros pre k e Hc Ee Hr Hq Hpre; cbn [event_scan].
  - exists false, k, e, []. split; [done|]. split; [done|]. split; [apply core_only_event; reflexivity|].
    split; [by rewrite insert_id|]. do 2 (split; [done|]). split; [apply subset_refl|]. split; [done|].
    split; [done|]. split; [|split; [set_solver|]].
    + intros x thx Hx Ex. apply (Hpre x); [|done]. rewrite Hq in Hx. set_solver.
    + split; [done|]. split; [done|]. split; [reflexivity|]. exists []. split; [done|]. intros t g Hin. by apply elem_of_nil in Hin.
  - pose proof (proj1 (c_inv (c_core0 Hc))) as Hwf.
    assert (Hnd : t ∉ pre /\ t ∉ l).
    { pose proof (wf_nodup k Hwf (LSuspend (OEvent a))) as Hn. rewrite Hq, list.NoDup_app, list.NoDup_cons in Hn. set_solver. }
    destruct (wait_list_suspended k (LSuspend (OEvent a)) t Hwf I) as (th & E & Hs); [rewrite Hq; set_solver|].
    destruct (event_check_run b bd idle a e k t th Hc E Ee) as (Ech & Hdel). set (got := takes th (ev_set e)) in *.
    rewrite (bind_run _ _ _ _ _ Ech). destruct (satisfied th (ev_set e)) eqn:Hsat.
    + destruct (event_wake_run b bd idle a e k t th pre l got Hc Ee Hr Hq E) as
        (k1 & e1 & Er1 & Hc1 & Hon1 & Ee1 & Hf1 & Hr1 & Hs1 & Hv1 & Hq1 & Et1 & Ec1 & If1).
      set (th1 := set_th_event_set got th) in *.
      destruct (IH pre k1 e1) as (need & k' & e' & rest & Er & Hc' & Hon & Ee' & Hf & Hr' & Hsub & Hq' & Hrest & Hnm & Hin & Hnin & Ec & If & woken & Hdl & Hwk).
      { done. }
      { rewrite Ee1. apply lookup_insert_eq. }
      { done. }
      { done. }
      { intros x thx Hx Ex. rewrite Et1, lookup_insert_ne in Ex by set_solver.
        eapply satisfied_mono; [exact Hs1|]. by apply (Hpre x). }
      exists true, k', e', rest. split.
      { rewrite (wake_seq _ _ _ (event_scan a l;; mret true) _ _ _ Er1). by mstep_by Er. }
      split; [done|]. split; [by etrans|]. split; [by rewrite Ee', Ee1, insert_insert_eq|].
      split; [by rewrite Hf|]. split; [done|]. split; [exact (subset_trans _ _ _ Hsub Hs1)|]. split; [done|].
      split; [by apply sublist_cons|]. split; [done|]. split; [|split; [|split; [congruence|split; [by etrans|]]]].
      * intros x Hx. destruct (decide (x = t)) as [->|Hne].
        -- exists th. split; [done|]. right. split; [intros Hxr; apply (elem_of_sublist _ _ _ Hxr) in Hrest; tauto|].
           exists got. split; [by apply Hdel|]. rewrite Hnin by tauto. rewrite Et1. apply lookup_insert_eq.
        -- destruct (Hin x) as (thx & Ex & Hcase); [set_solver|]. exists thx.
           rewrite Et1, lookup_insert_ne in Ex by done. split; [done|].
           destruct Hcase as [|(Hnr & g & Hd & Eg)]; [by left|right]. split; [done|]. exists g. split; [|done].
           destruct Hd as (D1 & D2 & D3). split; [exact (subset_trans _ _ _ D1 Hs1)|done].
      * intros x Hx. rewrite Hnin by set_solver. rewrite Et1, lookup_insert_ne by set_solver. done.
      * exists ((t, got) :: woken). split.
        -- cbn [deliver]. rewrite E, Hsat.
           rewrite (deliver_ext (k_threads k) (k_threads k1)) by (intros x Hx; rewrite Et1, lookup_insert_ne by (intros <-; tauto); done).
           unfold leaves. fold got. by rewrite <-Hv1, Hdl.
        -- intros x g [[= -> ->]|Hx]%elem_of_cons.
           ++ exists th. split; [done|]. split; [by left|]. rewrite Hnin by tauto. rewrite Et1. apply lookup_insert_eq.
           ++ destruct (Hwk x g Hx) as (thx & Ex & Hxl & Ex'). exists thx. rewrite Et1, lookup_insert_ne in Ex by (intros <-; tauto). split; [done|]. split; [by right|done].
    + destruct (IH (pre ++ [t]) k e) as (need & k' & e' & rest & Er & Hc' & Hon & Ee' & Hf & Hr' & Hsub & Hq' & Hrest & Hnm & Hin & Hnin & Ec & If & woken & Hdl & Hwk); try done.
      { by rewrite <-app_assoc. }
      { intros x thx Hx Ex. apply elem_of_app in Hx as [Hx|Hx]; [by apply (Hpre x)|].
        apply list_elem_of_singleton in Hx as ->. congruence. }
      exists need, k', e', (t :: rest). split; [done|]. do 6 (split; [done|]).
      split; [by rewrite Hq', <-app_assoc|]. split; [by apply sublist_skip|]. split; [done|].
      split; [|split; [|do 2 (split; [done|])]].
      * intros x Hx. destruct (decide (x = t)) as [->|Hne].
        -- exists th. split; [done|]. left. split; [set_solver|]. rewrite Hnin by tauto. done.
        -- destruct (Hin x) as (thx & Ex & Hcase); [set_solver|]. exists thx. split; [done|].
           destruct Hcase as [[? ?]|(Hnr & Hg)]; [left; split; [set_solver|done]|right; split; [set_solver|done]].
      * intros x Hx. apply Hnin. set_solver.
      * exists woken. split; [cbn [deliver]; by rewrite E, Hsat, Hdl|]. intros x g Hx. destruct (Hwk x g Hx) as (thx & Ex & Hxl & Ex'). exists thx. split; [done|]. split; [by right|done].
Qed.

(** ** The operations *)

Lemma event_ok_frame g k k' a e :
  event_ok k a e -> ipc_frame g k k' -> (forall t, ~ g (Some (LSuspend (OEvent a))) t) -> event_ok k' a e.
Proof.
  intros (H1 & H2 & H3) If Hg. split; [done|]. split; [done|]. intros t th' Hin E'.
  destruct (if_event _ _ _ If (LSuspend (OEvent a)) t th' I Hin (Hg t) E') as (th & E & Es & Ei).
  unfold satisfied. rewrite Es, Ei. apply (H3 t th); [|done].
  destruct (if_lists _ _ _ If (LSuspend (OEvent a)) t I Hin); [done|by destruct (Hg t)].
Qed.

Lemma events_ok_frame g k k' a e' :
  events_ok k -> ipc_frame g k k' -> (forall x t, x <> a -> ~ g (Some (LSuspend (OEvent x))) t) ->
  k_events k' = <[a := e']> (k_events k) -> event_ok k' a e' -> events_ok k'.
Proof.
  intros Hok Hf Hg Em Ha x e. rewrite Em, lookup_insert. case_decide as Hd; [by intros [= <-]; subst|].
  intros Ex. eapply event_ok_frame; eauto.
Qed.

(** What the events promise to the other components. *)
Definition event_list (h : lhead) : Prop := exists a, h = LSuspend (OEvent a).
#[export] Instance events_wait_object : WaitObject event_list k_events events_ok.
Proof.
  intros g k k' Hok If Hg Ek x e. rewrite Ek. intros Ex. eapply event_ok_frame; [by apply Hok|done|].
  intros t. apply Hg. by exists x.
Qed.
#[export] Instance events_stable : Stable events_ok.
Proof. exact (wait_object_stable event_list k_events events_ok os_events). Qed.

Lemma rt_event_send_run b bd idle a e set k :
  core b bd idle k -> events_ok k -> k_events k !! a = Some e -> 0 < set < 4294967296 ->
  exists k' e' rest, rt_event_send a set k = Some (RT_EOK, k') /\ core b bd idle k' /\ events_ok k' /\
    k_events k' = <[a := e']> (k_events k) /\ subset (ev_set e') (Z.lor (ev_set e) set) /\
    queue k' (LSuspend (OEvent a)) = rest /\ rest `sublist_of` queue k (LSuspend (OEvent a)) /\
    (forall t, t ∈ queue k (LSuspend (OEvent a)) -> scanned_thread k k' (Z.lor (ev_set e) set) rest t) /\
    (forall t, t ∉ queue k (LSuspend (OEvent a)) -> k_threads k' !! t = k_threads k !! t) /\
    no_missed k' a (ev_set e') /\ ipc_frame no_growth k k' /\ event_only k k' /\ ev_flag e' = ev_flag e /\
    exists woken, deliver (k_threads k) (Z.lor (ev_set e) set) (queue k (LSuspend (OEvent a))) = (ev_set e', woken, rest) /\
      forall t g, (t, g) ∈ woken -> exists th, k_threads k !! t = Some th /\ t ∈ queue k (LSuspend (OEvent a)) /\
        k_threads k' !! t = Some (set_th_stat RT_THREAD_READY (set_th_event_set g th)).
Proof.
  intros Hc Hok Ee Hset. pose proof (Hok a e Ee) as (Hr & Hfl & _).
  set (e1 := set_ev_set (Z.lor (ev_set e) set) e). set (k1 := put_event a e1 k).
  assert (Hr1 : 0 <= ev_set e1 < 4294967296) by (apply lor_range; lia).
  destruct (event_scan_run b bd idle a (queue k (LSuspend (OEvent a))) [] k1 e1) as
    (need & k2 & e' & rest & Er & Hc2 & Hon & Ee2 & Hf & Hr' & Hsub & Hq & Hrest & Hnm & Hin & Hnin & Ec & If & woken & Hdl & Hwk).
  { by apply core_put_event. }
  { cbn. apply lookup_insert_eq. }
  { done. }
  { done. }
  { set_solver. }
  assert (Hsch : exists k', ((if need then rt_schedule else mret tt);; mret RT_EOK) k2 = Some (RT_EOK, k') /\
    core b bd idle k' /\ core_only k2 k' /\ k_threads k' = k_threads k2 /\ k_queues k' = k_queues k2 /\
    ipc_frame no_growth k2 k').
  { destruct need; [|exists k2; split; [done|]; split; [done|]; split; [reflexivity|]; done].
    destruct (rt_schedule_ready b bd idle k2 Hc2) as (k' & Es & Hc' & F & Et & Eq & _ & _ & Ifs).
    exists k'. split; [by mstep_by Es|done]. }
  destruct Hsch as (k' & Es & Hc' & F & Et & Eq & Ifs).
  assert (Ifk : ipc_frame no_growth k k').
  { etrans; [|exact Ifs]. etrans; [|exact If]. by apply ipc_frame_same. }
  assert (Ee' : k_events k' = <[a := e']> (k_events k)).
  { rewrite F. cbn. rewrite Ee2. cbn. by rewrite insert_insert_eq. }
  assert (Hnm' : no_missed k' a (ev_set e')).
  { intros t th. rewrite (queue_ext k2) by done. rewrite Et. apply Hnm. }
  exists k', e', rest. split.
  { unfold rt_event_send. destruct (Z.eqb_spec set 0); [lia|].
    mstep_by (mod_event_run a e (fun e => set_ev_set (Z.lor (ev_set e) set) e) k Ee). fold e1. fold k1. mstep.
    change (queue k1 (LSuspend (OEvent a))) with (queue k (LSuspend (OEvent a))). mstep_by Er. exact Es. }
  split; [done|]. split; [|split; [done|split; [done|split; [|split; [done|split; [|split; [|split; [done|split; [done|split; [|split; [done|]]]]]]]]]]].
  - eapply (events_ok_frame no_growth k k' a e'); [done|done|by intros ? ? ? []|done|].
    split; [done|]. split; [by rewrite Hf|done].
  - by rewrite (queue_ext k2).
  - intros t Ht. destruct (Hin t Ht) as (th & E & Hcase). exists th. rewrite Et. done.
  - intros t Ht. rewrite Et. by apply Hnin.
  - etrans; [|by apply core_only_event]. etrans; [|exact Hon]. eapply (event_only_put k k _ a e1); reflexivity.
  - exists woken. split; [exact Hdl|]. intros t g Hin'. rewrite Et. by apply Hwk.
Qed.

(** No bit of a set gets lost: it is left, or a thread has got it that asked to clear it. *)
Lemma deliver_conserves threads i l : forall evs evs' woken rest,
  deliver threads evs l = (evs', woken, rest) -> Z.testbit evs i = true -> 0 <= i ->
  Z.testbit evs' i = true \/ exists t g th, (t, g) ∈ woken /\ threads !! t = Some th /\ has_flag (th_event_info th) RT_EVENT_FLAG_CLEAR = true /\ Z.testbit g i = true.
Proof.
  induction l as [|t l IH]; intros evs evs' woken rest H Hb Hi; cbn [deliver] in H; [injection H as <- <- <-; by left|].
  destruct (threads !! t) as [th|] eqn:E; [|by eapply IH]. destruct (satisfied th evs).
  - destruct (deliver threads (leaves th evs) l) as [[evs1 woken1] rest1] eqn:Ed. injection H as <- <- <-.
    destruct (Z.testbit (leaves th evs) i) eqn:Hl.
    + destruct (IH _ _ _ _ Ed Hl Hi) as [?|(x & g & thx & Hx & Hrest)]; [by left|right]. exists x, g, thx. split; [by right|done].
    + right. exists t, (takes th evs), th. split; [by left|]. split; [done|]. unfold leaves in Hl. destruct (has_flag (th_event_info th) RT_EVENT_FLAG_CLEAR); [|congruence].
      split; [done|]. rewrite Z.ldiff_spec, Hb in Hl. by destruct (Z.testbit (takes th evs) i).
  - destruct (deliver threads evs l) as [[evs1 woken1] rest1] eqn:Ed. injection H as <- <- <-. by eapply IH.
Qed.
Lemma deliver_all threads t l : forall evs evs' woken rest, deliver threads evs l = (evs', woken, rest) -> t ∈ l -> is_Some (threads !! t) -> t ∈ rest \/ t ∈ woken.*1.
Proof.
  induction l as [|x l IH]; intros evs evs' woken rest H Hin Hs; cbn [deliver] in H; [by apply elem_of_nil in Hin|].
  destruct (threads !! x) as [th|] eqn:E.
  - destruct (satisfied th evs).
    + destruct (deliver threads (leaves th evs) l) as [[evs1 woken1] rest1] eqn:Ed. injection H as <- <- <-. cbn. rewrite elem_of_cons.
      apply elem_of_cons in Hin as [->|Hin]; [auto|]. destruct (IH _ _ _ _ Ed Hin Hs); auto.
    + destruct (deliver threads evs l) as [[evs1 woken1] rest1] eqn:Ed. injection H as <- <- <-. rewrite elem_of_cons.
      apply elem_of_cons in Hin as [->|Hin]; [auto|]. destruct (IH _ _ _ _ Ed Hin Hs); auto.
  - apply elem_of_cons in Hin as [->|Hin]; [by destruct Hs; congruence|by eapply IH].
Qed.

(** C10. [rt_event_send] adds the bits to the set and offers it to the waiting threads once, in their
    order ([deliver]): a thread whose wait the set satisfies is made ready with the events it gets,
    all it asked for when it waits for all of them and those that are there when it waits for one,
    and they are taken out of the set when it asked for that; the others go on waiting in their
    order. The event object then has exactly the set that is left over, no other thread has
    changed, every bit that was there or was sent is still in the set or has been given to a
    thread that clears it, and no thread waits for bits that are there. *)
Theorem rt_event_send_delivers b bd idle a e set k :
  core b bd idle k -> events_ok k -> k_events k !! a = Some e -> 0 < set < 4294967296 ->
  let evs := Z.lor (ev_set e) set in
  let '(evs', woken, rest) := deliver (k_threads k) evs (queue k (LSuspend (OEvent a))) in
  exists k', rt_event_send a set k = Some (RT_EOK, k') /\ core b bd idle k' /\ events_ok k' /\
    k_events k' = <[a := set_ev_set evs' e]> (k_events k) /\
    queue k' (LSuspend (OEvent a)) = rest /\ rest `sublist_of` queue k (LSuspend (OEvent a)) /\
    (forall t g, (t, g) ∈ woken -> exists th, k_threads k !! t = Some th /\ delivered th evs g /\
      k_threads k' !! t = Some (set_th_stat RT_THREAD_READY (set_th_event_set g th))) /\
    (forall t, t ∉ woken.*1 -> k_threads k' !! t = k_threads k !! t) /\
    (forall i, 0 <= i -> Z.testbit (ev_set e) i || Z.testbit set i = true -> Z.testbit evs' i = true \/
      exists t g th, (t, g) ∈ woken /\ k_threads k !! t = Some th /\ has_flag (th_event_info th) RT_EVENT_FLAG_CLEAR = true /\ Z.testbit g i = true) /\
    no_missed k' a evs'.
Proof.
  intros Hc Hok Ee Hset evs. destruct (rt_event_send_run b bd idle a e set k Hc Hok Ee Hset)
    as (k' & e' & rest & Er & Hc' & Hok' & Ee' & _ & Hq & Hsub & Hin & Hnin & Hnm & _ & _ & Hfl & woken & Hd & Hwk).
  fold evs in Hd. rewrite Hd. exists k'. pose proof (proj1 (c_inv (c_core0 Hc))) as Hwf.
  assert (Ee1 : e' = set_ev_set (ev_set e') e) by (destruct e, e'; cbn in *; by subst). rewrite <-Ee1.
  assert (Hnd : forall t g, (t, g) ∈ woken -> t ∉ rest).
  { intros t g Hg Hr. destruct (Hwk t g Hg) as (th & E & Hl & E'). destruct (Hin t Hl) as (th0 & E0 & [[_ E1]|[? _]]); [|done].
    destruct (wait_list_suspended k (LSuspend (OEvent a)) t Hwf I Hl) as (th2 & E2 & Hs2).
    rewrite E1 in E'. injection E' as E'. rewrite E in E0, E2. injection E0 as <-. injection E2 as <-. rewrite E' in Hs2. cbn in Hs2. done. }
  split; [done|]. split; [done|]. split; [done|]. split; [done|]. split; [done|]. split; [done|]. split; [|split; [|split; [|done]]].
  - intros t g Hg. destruct (Hwk t g Hg) as (th & E & Hl & E'). exists th. split; [done|]. split; [|done].
    destruct (Hin t Hl) as (th0 & E0 & [[Hr _]|(_ & g0 & Hdel & E1)]); [by destruct (Hnd t g Hg)|].
    rewrite E in E0. injection E0 as <-. rewrite E1 in E'. injection E' as <-. done.
  - intros t Ht. destruct (decide (t ∈ queue k (LSuspend (OEvent a)))) as [Hl|Hl]; [|by apply Hnin].
    destruct (Hin t Hl) as (th0 & E0 & [[_ E1]|[Hr _]]); [by rewrite E0|]. destruct (deliver_all _ t _ _ _ _ _ Hd Hl); [by eexists|done|done].
  - intros i Hi Hb. eapply deliver_conserves; [exact Hd|unfold evs; by rewrite Z.lor_spec|done].
Qed.

(** The test of [rt_event_recv] is the one of [rt_event_send]. *)
Lemma recv_check_match opt set evs ok : recv_check opt set evs = Some ok -> ev_match opt set evs = ok.
Proof.
  unfold recv_check, ev_match. rewrite (Z.land_comm evs set).
  destruct (has_flag opt RT_EVENT_FLAG_AND); [by intros [= <-]|].
  destruct (has_flag opt RT_EVENT_FLAG_OR); [by intros [= <-]|done].
Qed.

Lemma rt_event_recv_enter a e set opt timeout k t th ok :
  k_current k = Some t -> k_threads k !! t = Some th -> k_int_nest k = 0 -> set <> 0 ->
  k_events k !! a = Some e -> recv_check opt set (ev_set e) = Some ok ->
  let k0 := put_th t (set_th_error RT_EOK th) k in
  rt_event_recv a set opt timeout k =
    (if ok then
       ((if has_flag opt RT_EVENT_FLAG_CLEAR
         then mod_event a (fun e => set_ev_set (Z.land (ev_set e) (u32 (Z.lnot set))) e) else mret tt);;
        mret (Ret (RT_EOK, Some (Z.land (ev_set e) set)))) k0
     else if timeout =? 0 then Some (Ret (- RT_ETIMEOUT, None), put_th t (set_th_error (- RT_ETIMEOUT) th) k)
     else (ipc_wait (LSuspend (OEvent a)) t (ev_flag e) timeout;;
           schedule_then t FEventRecv (r ← rt_event_recv_resume t; mret (Ret r)))
          (put_th t (event_waiter opt set th) k)).
Proof.
  intros Ec E Hint Hset Ee Hck k0. unfold rt_event_recv. mstep_by (in_thread_context t k Ec Hint).
  destruct (Z.eqb_spec set 0); [done|]. mstep. rewrite Ec. do 2 mstep. fold k0.
  assert (Ee0 : k_events k0 !! a = Some e) by done.
  rewrite (bind_run _ _ _ _ _ (get_event_run a e k0 Ee0)), Hck. mstep. destruct ok; [done|].
  destruct (timeout =? 0); mstep; unfold k0; by rewrite put_th_put_th.
Qed.

Lemma rt_event_recv_run b bd idle a e set opt timeout k t th ok :
  core b bd idle k -> events_ok k -> k_current k = Some t -> is_ready k t th -> k_int_nest k = 0 ->
  k_events k !! a = Some e -> set <> 0 -> recv_check opt set (ev_set e) = Some ok ->
  (ok = false -> timeout <> 0 -> may_block b bd idle k t timeout) ->
  exists r k', rt_event_recv a set opt timeout k = Some (r, k') /\ core b bd idle k' /\ events_ok k' /\
    ipc_frame (grows r (Some (LSuspend (OEvent a))) t) k k' /\ event_only k k' /\
    (if ok then r = Ret (RT_EOK, Some (Z.land (ev_set e) set)) /\
        k_events k' = <[a := set_ev_set (if has_flag opt RT_EVENT_FLAG_CLEAR
           then Z.land (ev_set e) (u32 (Z.lnot set)) else ev_set e) e]> (k_events k)
     else if timeout =? 0 then r = Ret (- RT_ETIMEOUT, None) /\ k_events k' = k_events k
     else r = Wait FEventRecv /\ k_events k' = k_events k /\ k_current k' <> Some t /\
       k_threads k' = <[t := set_th_stat RT_THREAD_SUSPEND (event_waiter opt set th)]> (k_threads k) /\
       exists l1 l2, queue k (LSuspend (OEvent a)) = l1 ++ l2 /\
         queue k' (LSuspend (OEvent a)) = l1 ++ t :: l2 /\
         wait_position (k_threads k) (ev_flag e) (th_current_priority th) l1 l2).
Proof.
  intros Hc Hok Ec Hr Hint Ee Hset Hck Hb. pose proof Hr as [E Hs]. pose proof (Hok a e Ee) as (Hev & Hfl & Hnm).
  rewrite (rt_event_recv_enter a e set opt timeout k t th ok Ec E Hint Hset Ee Hck).
  pose proof (wf_thread k (proj1 (c_inv (c_core0 Hc))) t th E) as Hth.
  assert (Hnt : t ∉ queue k (LSuspend (OEvent a))) by (eapply wait_list_unready; [apply Hc|done|done]).
  destruct ok.
  - set (k0 := put_th t (set_th_error RT_EOK th) k).
    destruct (set_error_core b bd idle k t th RT_EOK Hc Hr) as [Hc0 _]. fold k0 in Hc0.
    destruct (clear_run (has_flag opt RT_EVENT_FLAG_CLEAR) b bd idle a e k0 set Hc0 Ee Hev)
      as (k' & Er & Ek & Hc' & Hsub & Hr' & Hf). set (e' := if has_flag _ _ then _ else e) in *.
    assert (If : forall g, ipc_frame g k k').
    { intros g. etrans; [by apply (ipc_frame_put_th g k t th (set_th_error RT_EOK th))|].
      rewrite Ek. by apply ipc_frame_same. }
    exists (Ret (RT_EOK, Some (Z.land (ev_set e) set))), k'. split; [by mstep_by Er|]. split; [done|].
    assert (Ee' : k_events k' = <[a := e']> (k_events k)) by (by rewrite Ek).
    split; [|split; [apply If|split; [|split; [done|]]]].
    + eapply (events_ok_frame no_growth k k' a e'); [done|apply If|by intros ? ? ? []|done|].
      split; [done|]. split; [by rewrite Hf|]. intros x thx Hx Ex. rewrite Ek in Hx, Ex.
      change (queue (put_event a e' k0)) with (queue k) in Hx. cbn in Ex.
      rewrite lookup_insert_ne in Ex by (intros <-; done).
      eapply satisfied_mono; [exact Hsub|]. by apply (Hnm x).
    + rewrite Ek. eapply (event_only_put k k0 _ a e'); [by destruct k|reflexivity].
    + rewrite Ee'. unfold e'. destruct (has_flag opt RT_EVENT_FLAG_CLEAR); [done|]. f_equal. by destruct e.
  - destruct (Z.eqb_spec timeout 0) as [->|Ht].
    + set (k' := put_th t (set_th_error (- RT_ETIMEOUT) th) k).
      assert (If : forall g, ipc_frame g k k') by (intros g; by apply (ipc_frame_put_th g k t th)).
      eexists _, k'. split; [done|]. split; [by apply set_error_core|].
      split; [eapply (wait_object_keep event_list k_events events_ok k); [done|apply If|done]|].
      split; [apply If|]. split; [apply core_only_event; by destruct k|done].
    + destruct (Hb eq_refl Ht) as (Hi & H0 & _ & Hlt & Hst). set (thw := event_waiter opt set th).
      set (k0 := put_th t thw k).
      assert (Hc0 : core b bd idle k0) by (by apply put_th_core with th).
      assert (Hr0 : is_ready k0 t thw) by (split; [cbn; apply lookup_insert_eq|done]).
      destruct (ipc_wait_block b bd idle (LSuspend (OEvent a)) t thw (ev_flag e) timeout k0 FEventRecv
        (r ← rt_event_recv_resume t; mret (Ret r))) as (k1 & l1 & l2 & p & u & Er & Hw & Hcu & Hu); try done.
      assert (Hev1 : k_events k1 = k_events k) by (rewrite (wt_frame Hw); done).
      assert (Hl : queue k (LSuspend (OEvent a)) = l1 ++ l2) by apply (wt_list Hw).
      assert (Et1 : k_threads k1 = <[t := set_th_stat RT_THREAD_SUSPEND thw]> (k_threads k)).
      { rewrite (wt_threads Hw). cbn. by rewrite insert_insert_eq. }
      assert (If : ipc_frame (joins (Some (LSuspend (OEvent a))) t) k (switch_to p u k1)).
      { etrans; [|apply ipc_frame_switch]. eapply ipc_frame_thread; [exact E|exact Et1|right|done|right; by exists (Some (LSuspend (OEvent a)))|].
        - intros h Hh Hne. rewrite (wt_others Hw), list_elem_of_filter by (by intros ->; destruct Hne). tauto.
        - intros h x Hh Hin. destruct (decide (h = LSuspend (OEvent a))) as [->|Hne].
          + rewrite (wt_queue Hw) in Hin. rewrite Hl.
            unfold joins. set_solver.
          + left. rewrite (wt_others Hw) in Hin by done. by apply list_elem_of_filter in Hin as [_ Hin]. }
      exists (Wait FEventRecv), (switch_to p u k1). split; [exact Er|]. split; [done|].
      split; [|split; [done|split; [apply core_only_event; etrans; [|apply switch_core]; etrans; [|apply (wt_frame Hw)]; by destruct k|]]].
      * assert (Hev' : k_events (switch_to p u k1) = <[a := e]> (k_events k)) by (rewrite insert_id by done; done).
        eapply (events_ok_frame _ k _ a e); [done|exact If|by intros x y Hx [[= ->] _]|done|].
        split; [done|]. split; [done|]. intros x thx Hx Ex. rewrite (queue_ext k1), (wt_queue Hw) in Hx by done.
        cbn in Ex. rewrite Et1, lookup_insert in Ex. case_decide as Hd.
        -- injection Ex as <-. unfold satisfied. cbn. by apply recv_check_match.
        -- apply (Hnm x); [|done]. rewrite Hl. set_solver.
      * split; [done|]. split; [done|]. split; [cbn; congruence|]. split; [done|].
        exists l1, l2. split; [done|]. split; [by rewrite (queue_ext k1), (wt_queue Hw)|].
        eapply position_ext; [|exact E|exact (wt_position Hw)]. by rewrite <-Hl.
Qed.

(** [rt_event_recv] returns the requested bits that are there when the test
    succeeds, taking them away with the CLEAR option; when it fails it refuses a call
    without waiting time, and otherwise records what the caller waits for and
    suspends it; in every case no thread waits for bits that are there. *)
Theorem rt_event_recv_spec idle a e set opt timeout k t th ok :
  core (k_tick k) RT_TICK_HALF idle k -> events_ok k -> k_current k = Some t -> is_ready k t th ->
  k_int_nest k = 0 -> k_events k !! a = Some e -> set <> 0 -> recv_check opt set (ev_set e) = Some ok ->
  (ok = false -> timeout <> 0 -> may_block (k_tick k) RT_TICK_HALF idle k t timeout) ->
  exists r k', rt_event_recv a set opt timeout k = Some (r, k') /\
    core (k_tick k') RT_TICK_HALF idle k' /\ events_ok k' /\
    (if ok then r = Ret (RT_EOK, Some (Z.land (ev_set e) set)) /\
        k_events k' = <[a := set_ev_set (if has_flag opt RT_EVENT_FLAG_CLEAR
           then Z.land (ev_set e) (u32 (Z.lnot set)) else ev_set e) e]> (k_events k)
     else if timeout =? 0 then r = Ret (- RT_ETIMEOUT, None) /\ k_events k' = k_events k
     else r = Wait FEventRecv /\ k_events k' = k_events k /\ k_current k' <> Some t /\
       k_threads k' = <[t := set_th_stat RT_THREAD_SUSPEND (event_waiter opt set th)]> (k_threads k) /\
       exists l1 l2, queue k (LSuspend (OEvent a)) = l1 ++ l2 /\
         queue k' (LSuspend (OEvent a)) = l1 ++ t :: l2 /\
         wait_position (k_threads k) (ev_flag e) (th_current_priority th) l1 l2).
Proof.
  intros Hc Hok Ec Hr Hint Ee Hset Hck Hb.
  destruct (rt_event_recv_run _ _ idle a e set opt timeout k t th ok Hc Hok Ec Hr Hint Ee Hset Hck Hb)
    as (r & k' & Er & Hc' & Hok' & _ & Hon & Hcase).
  exists r, k'. assert (k_tick k' = k_tick k) as -> by (unfold event_only in Hon; by rewrite Hon). done.
Qed.
