(* ===== verification/Mailbox.v ===== *)
(** * Mailboxes (src/src/ipc.c)

    A ring of 32-bit mails with the threads that wait for a mail and the threads that
    wait for room.  The theorems show that the ring is a bounded queue: mails come
    out in the order they were put in, none is lost or doubled. *)
From S2P Require Import Prelude KService Kernel Object Scheduler Timer Thread Frame Ipc.

Definition get_mb (a : Z) : M rt_mailbox := fun k => b ← k_mbs k !! a; Some (b, k).
Definition put_mb (a : Z) (b : rt_mailbox) (k : kstate) : kstate := set_k_mbs (<[a := b]> (k_mbs k)) k.
Definition mod_mb (a : Z) (f : rt_mailbox -> rt_mailbox) : M unit :=
  b ← get_mb a; kmod (put_mb a (f b)).

(** [rt_mb_init]: [pool] is the contents of the buffer at the address [msgpool]. *)
Definition rt_mb_init (a : Z) (name : list Z) (msgpool : Z) (pool : list Z) (size flag : Z) : M Z :=
  rt_object_init (OMb a) name;;
  rt_ipc_object_init (OMb a);;
  kmod (put_mb a (Mailbox (u8 flag) msgpool pool (u16 size) 0 0 0));;
  list_head_init (LSender (OMb a));;
  mret RT_EOK.

(** [rt_mb_detach]. *)
Definition rt_mb_detach (a : Z) : M Z :=
  rt_ipc_list_resume_all (LSuspend (OMb a));;
  rt_ipc_list_resume_all (LSender (OMb a));;
  rt_object_detach (OMb a);;
  mret RT_EOK.

(** The offset after [off]. *)
Definition next_offset (b : rt_mailbox) (off : Z) : Z :=
  let off' := u16 (off + 1) in if mb_size b <=? off' then 0 else off'.

(** Storing a mail; an index outside the buffer is invalid. *)
Definition mb_put (value : Z) (b : rt_mailbox) : option rt_mailbox :=
  if (mb_in_offset b <? Z.of_nat (length (mb_msg_pool b))) then
    Some (Mailbox (mb_flag b) (mb_pool_addr b) (<[Z.to_nat (mb_in_offset b) := value]> (mb_msg_pool b)) (mb_size b)
      (u16 (mb_entry b + 1)) (next_offset b (mb_in_offset b)) (mb_out_offset b))
  else None.

(** Taking the next mail out. *)
Definition mb_get (b : rt_mailbox) : option (Z * rt_mailbox) :=
  v ← mb_msg_pool b !! Z.to_nat (mb_out_offset b);
  Some (v, Mailbox (mb_flag b) (mb_pool_addr b) (mb_msg_pool b) (mb_size b) (u16 (mb_entry b - 1)) (mb_in_offset b)
             (next_offset b (mb_out_offset b))).

(** The end of [rt_mb_send_wait]: the mail is stored and a receiver woken. *)
Definition mb_send_finish (a value : Z) : M Z :=
  b ← get_mb a;
  b' ← deref (mb_put value b);
  kmod (put_mb a b');;
  wake_first (LSuspend (OMb a));;
  mret RT_EOK.

(** [rt_mb_send_wait] from its loop on; [fuel] bounds the iterations that do not switch
    to another thread. *)
Fixpoint mb_send_loop (fuel : nat) (a value timeout : Z) : M (wait Z) :=
  b ← get_mb a;
  if mb_entry b =? mb_size b then
    match fuel with
    | O => stuck
    | S fuel' =>
        cur ← rt_thread_self;
        t ← deref cur;
        mod_thread t (set_th_error RT_EOK);;
        if timeout =? 0 then mret (Ret (- RT_EFULL))
        else
          RT_DEBUG_IN_THREAD_CONTEXT;;
          start ← kget k_tick;
          ipc_wait (LSender (OMb a)) t (mb_flag b) timeout;;
          schedule_then t (FMbSend a value timeout start)
            (th ← get_thread t;
             if negb (th_error th =? RT_EOK) then mret (Ret (th_error th))
             else
               now ← kget k_tick;
               mb_send_loop fuel' a value (time_left timeout start now))
    end
  else r ← mb_send_finish a value; mret (Ret r).

(** [rt_mb_send_wait] after a wait of the thread [t]. *)
Definition rt_mb_send_resume (t a value timeout start : Z) : M (wait Z) :=
  th ← get_thread t;
  if negb (th_error th =? RT_EOK) then mret (Ret (th_error th))
  else
    now ← kget k_tick;
    mb_send_loop 2 a value (time_left timeout start now).

(** [rt_mb_send_wait]. *)
Definition rt_mb_send_wait (a value timeout : Z) : M (wait Z) :=
  b ← get_mb a;
  if (mb_entry b =? mb_size b) && (timeout =? 0) then mret (Ret (- RT_EFULL))
  else mb_send_loop 2 a value timeout.

(** [rt_mb_send]. *)
Definition rt_mb_send (a value : Z) : M (wait Z) := rt_mb_send_wait a value 0.

(** The end of [rt_mb_recv]: the mail is taken and a sender woken. *)
Definition mb_recv_finish (a : Z) : M (Z * option Z) :=
  b ← get_mb a;
  r ← deref (mb_get b);
  kmod (put_mb a r.2);;
  wake_first (LSender (OMb a));;
  mret (RT_EOK, Some r.1).

(** [rt_mb_recv] from its loop on. *)
Fixpoint mb_recv_loop (fuel : nat) (a timeout : Z) : M (wait (Z * option Z)) :=
  b ← get_mb a;
  if mb_entry b =? 0 then
    match fuel with
    | O => stuck
    | S fuel' =>
        cur ← rt_thread_self;
        t ← deref cur;
        mod_thread t (set_th_error RT_EOK);;
        if timeout =? 0 then
          mod_thread t (set_th_error (- RT_ETIMEOUT));;
          mret (Ret (- RT_ETIMEOUT, None))
        else
          RT_DEBUG_IN_THREAD_CONTEXT;;
          start ← kget k_tick;
          ipc_wait (LSuspend (OMb a)) t (mb_flag b) timeout;;
          schedule_then t (FMbRecv a timeout start)
            (th ← get_thread t;
             if negb (th_error th =? RT_EOK) then mret (Ret (th_error th, None))
             else
               now ← kget k_tick;
               mb_recv_loop fuel' a (time_left timeout start now))
    end
  else r ← mb_recv_finish a; mret (Ret r).

(** [rt_mb_recv] after a wait. *)
Definition rt_mb_recv_resume (t a timeout start : Z) : M (wait (Z * option Z)) :=
  th ← get_thread t;
  if negb (th_error th =? RT_EOK) then mret (Ret (th_error th, None))
  else
    now ← kget k_tick;
    mb_recv_loop 2 a (time_left timeout start now).

(** [rt_mb_recv]; the second result is the mail. *)
Definition rt_mb_recv (a timeout : Z) : M (wait (Z * option Z)) :=
  b ← get_mb a;
  if (mb_entry b =? 0) && (timeout =? 0) then mret (Ret (- RT_ETIMEOUT, None))
  else mb_recv_loop 2 a timeout.

(** [rt_mb_control]. *)
Definition rt_mb_control (a cmd arg : Z) : M Z :=
  if cmd =? RT_IPC_CMD_RESET then
    rt_ipc_list_resume_all (LSuspend (OMb a));;
    rt_ipc_list_resume_all (LSender (OMb a));;
    mod_mb a (fun b => set_mb_out_offset 0 (set_mb_in_offset 0 (set_mb_entry 0 b)));;
    rt_schedule;;
    mret RT_EOK
  else mret (- RT_ERROR).

(** ** Invariant and abstraction *)

(** The ring: offsets inside the buffer, the input [entry] places after the output. *)
Record ring_ok (b : rt_mailbox) : Prop := {
  rg_size : 0 < mb_size b < 65536;
  rg_pool : Z.of_nat (length (mb_msg_pool b)) = mb_size b;
  rg_entry : 0 <= mb_entry b <= mb_size b;
  rg_out : 0 <= mb_out_offset b < mb_size b;
  rg_in : mb_in_offset b = (mb_out_offset b + mb_entry b) mod mb_size b;
  rg_flag : ipc_flag (mb_flag b)
}.

(** The mails in the ring, the oldest first. *)
Definition mails (b : rt_mailbox) : list Z :=
  ring_view 0 (mb_msg_pool b) (mb_size b) (mb_out_offset b) (mb_entry b).

Definition mbs_ok (k : kstate) : Prop := forall a b, k_mbs k !! a = Some b -> ring_ok b.

(** Nothing but the mailboxes and the threads has changed. *)
Definition mb_only (k k' : kstate) : Prop := k' = set_k_mbs (k_mbs k') (with_core k' k).

(** ** The ring *)

Lemma next_offset_mod b off :
  0 < mb_size b < 65536 -> 0 <= off < mb_size b -> next_offset b off = (off + 1) mod mb_size b.
Proof.
  intros Hs Ho. unfold next_offset. rewrite u16_id by lia.
  destruct (Z.leb_spec (mb_size b) (off + 1)).
  - assert (off + 1 = mb_size b) as -> by lia. by rewrite Z.mod_same by lia.
  - by rewrite Z.mod_small by lia.
Qed.

(** Storing a mail in a mailbox that is not full appends it to the mails. *)
Lemma mb_put_run b v :
  ring_ok b -> mb_entry b < mb_size b ->
  exists b', mb_put v b = Some b' /\ ring_ok b' /\ mails b' = mails b ++ [v] /\
    mb_entry b' = mb_entry b + 1 /\ mb_size b' = mb_size b /\ mb_flag b' = mb_flag b.
Proof.
  intros [H1 H2 H3 H4 H5 H6] He.
  assert (Hin : 0 <= mb_in_offset b < mb_size b) by (rewrite H5; apply Z.mod_pos_bound; lia).
  unfold mb_put. destruct (Z.ltb_spec (mb_in_offset b) (Z.of_nat (length (mb_msg_pool b)))); [|lia].
  rewrite u16_id by lia. rewrite next_offset_mod by lia. eexists. split; [done|].
  split; [|split; [|done]].
  - split; cbn; try done; [by rewrite length_insert|lia|]. rewrite H5. rewrite Zplus_mod_idemp_l. f_equal. lia.
  - unfold mails. cbn. rewrite H5. by apply ring_view_put; lia.
Qed.

(** Taking a mail out of a mailbox that is not empty gives the oldest one. *)
Lemma mb_get_run b :
  ring_ok b -> 0 < mb_entry b ->
  exists v b', mb_get b = Some (v, b') /\ ring_ok b' /\ mails b = v :: mails b' /\
    mb_entry b' = mb_entry b - 1 /\ mb_size b' = mb_size b /\ mb_flag b' = mb_flag b.
Proof.
  intros [H1 H2 H3 H4 H5 H6] He. unfold mb_get.
  destruct (mb_msg_pool b !! Z.to_nat (mb_out_offset b)) as [v|] eqn:Ev; [|apply lookup_ge_None in Ev; lia].
  cbn. rewrite u16_id by lia. rewrite next_offset_mod by lia. do 2 eexists. split; [done|].
  split; [|split; [|done]].
  - split; cbn; try done; [lia|apply Z.mod_pos_bound; lia|]. rewrite H5, Zplus_mod_idemp_l. f_equal. lia.
  - unfold mails. cbn. rewrite ring_view_mod by lia. apply ring_view_get; [lia|]. by rewrite Z.mod_small by lia.
Qed.

(** ** The operations *)

Lemma get_mb_run a b k : k_mbs k !! a = Some b -> get_mb a k = Some (b, k).
Proof. intros E. unfold get_mb. by rewrite E. Qed.

Lemma core_put_mb b bd idle a m k : core b bd idle k -> core b bd idle (put_mb a m k).
Proof.
  intros [[[Hwf Hw] Hi Hs] Hcur]. split; [split; [split|..]|]; try done;
    [by apply (sched_wf_ext k)|by apply (timer_wf_ext b bd k)].
Qed.

Lemma mb_only_put k k1 k' a m :
  core_only k k1 -> core_only (put_mb a m k1) k' -> mb_only k k'.
Proof.
  unfold core_only, mb_only. destruct k, k1, k'. cbn. intros F1 F2.
  injection F1. injection F2. intros. by subst.
Qed.

Lemma core_only_mb k k' : core_only k k' -> mb_only k k'.
Proof. unfold core_only, mb_only. intros F. rewrite F. done. Qed.

Lemma mbs_ok_put k k' a m' :
  mbs_ok k -> k_mbs k' = <[a := m']> (k_mbs k) -> ring_ok m' -> mbs_ok k'.
Proof.
  intros Hok E Hm x m. rewrite E, lookup_insert. case_decide; [by intros [= <-]|apply Hok].
Qed.

(** No invariant of the mailboxes is about who waits. *)
#[export] Instance mbs_wait_object : WaitObject (fun _ => False) k_mbs mbs_ok.
Proof. intros g k k' Hok _ _ Em x m. rewrite Em. apply Hok. Qed.
#[export] Instance mbs_stable : Stable mbs_ok.
Proof. exact (wait_object_stable _ k_mbs mbs_ok os_mbs). Qed.

(** The end of a send: the mail is the last one and the first receiver is woken. *)
Lemma mb_send_finish_run b bd idle a m v k :
  core b bd idle k -> mbs_ok k -> k_mbs k !! a = Some m -> mb_entry m < mb_size m ->
  exists k' m', mb_send_finish a v k = Some (RT_EOK, k') /\ core b bd idle k' /\ mbs_ok k' /\
    k_mbs k' = <[a := m']> (k_mbs k) /\ mails m' = mails m ++ [v] /\ mb_only k k' /\
    ipc_frame no_growth k k' /\
    match queue k (LSuspend (OMb a)) with
    | [] => k_threads k' = k_threads k
    | w :: ws => queue k' (LSuspend (OMb a)) = ws /\ exists th, is_ready k' w th
    end.
Proof.
  intros Hc Hok Em He. pose proof (Hok a m Em) as Hm.
  destruct (mb_put_run m v Hm He) as (m' & Ep & Hm' & Hmails & _).
  set (k1 := put_mb a m' k). assert (Hc1 : core b bd idle k1) by (by apply core_put_mb).
  destruct (wake_first_core b bd idle (LSuspend (OMb a)) k1 Hc1 I) as (k' & Er & Hc' & F & If & _ & Hw).
  assert (Emk : k_mbs k' = <[a := m']> (k_mbs k)) by (rewrite F; done).
  exists k', m'. split.
  { unfold mb_send_finish. rewrite (bind_run _ _ _ _ _ (get_mb_run _ _ _ Em)), Ep. do 2 mstep.
    fold k1. by mstep_by Er. }
  split; [done|]. split; [by eapply mbs_ok_put|]. split; [done|]. split; [done|].
  split; [eapply (mb_only_put k k); [reflexivity|exact F]|].
  split; [etrans; [|exact If]; by apply ipc_frame_same|].
  change (queue k1 (LSuspend (OMb a))) with (queue k (LSuspend (OMb a))) in Hw.
  destruct (queue k (LSuspend (OMb a))) as [|w ws]; [by rewrite Hw|].
  destruct Hw as (th & E & Hw). split; [apply (wk_queue Hw)|]. exists (set_th_stat RT_THREAD_READY th).
  split; [rewrite (wk_threads Hw); apply lookup_insert_eq|done].
Qed.

(** The end of a receive: the oldest mail and the first sender woken. *)
Lemma mb_recv_finish_run b bd idle a m k :
  core b bd idle k -> mbs_ok k -> k_mbs k !! a = Some m -> 0 < mb_entry m ->
  exists k' m' v, mb_recv_finish a k = Some ((RT_EOK, Some v), k') /\ core b bd idle k' /\ mbs_ok k' /\
    k_mbs k' = <[a := m']> (k_mbs k) /\ mails m = v :: mails m' /\ mb_only k k' /\
    ipc_frame no_growth k k' /\
    match queue k (LSender (OMb a)) with
    | [] => k_threads k' = k_threads k
    | w :: ws => queue k' (LSender (OMb a)) = ws /\ exists th, is_ready k' w th
    end.
Proof.
  intros Hc Hok Em He. pose proof (Hok a m Em) as Hm.
  destruct (mb_get_run m Hm He) as (v & m' & Ep & Hm' & Hmails & _).
  set (k1 := put_mb a m' k). assert (Hc1 : core b bd idle k1) by (by apply core_put_mb).
  destruct (wake_first_core b bd idle (LSender (OMb a)) k1 Hc1 I) as (k' & Er & Hc' & F & If & _ & Hw).
  assert (Emk : k_mbs k' = <[a := m']> (k_mbs k)) by (rewrite F; done).
  exists k', m', v. split.
  { unfold mb_recv_finish. rewrite (bind_run _ _ _ _ _ (get_mb_run _ _ _ Em)), Ep. do 2 mstep.
    fold k1. by mstep_by Er. }
  split; [done|]. split; [by eapply mbs_ok_put|]. split; [done|]. split; [done|].
  split; [eapply (mb_only_put k k); [reflexivity|exact F]|].
  split; [etrans; [|exact If]; by apply ipc_frame_same|].
  change (queue k1 (LSender (OMb a))) with (queue k (LSender (OMb a))) in Hw.
  destruct (queue k (LSender (OMb a))) as [|w ws]; [by rewrite Hw|].
  destruct Hw as (th & E & Hw). split; [apply (wk_queue Hw)|]. exists (set_th_stat RT_THREAD_READY th).
  split; [rewrite (wk_threads Hw); apply lookup_insert_eq|done].
Qed.

(** Sending from the loop on: one pass either stores the mail, gives up, or blocks. *)
Lemma mb_send_loop_run b bd idle a m v timeout k t th n :
  core b bd idle k -> mbs_ok k -> k_mbs k !! a = Some m -> k_current k = Some t -> is_ready k t th ->
  (mb_entry m = mb_size m -> timeout <> 0 -> may_block b bd idle k t timeout) ->
  exists r k', mb_send_loop (S n) a v timeout k = Some (r, k') /\ core b bd idle k' /\ mbs_ok k' /\
    mb_only k k' /\ ipc_frame (grows r (Some (LSender (OMb a))) t) k k' /\
    if mb_entry m =? mb_size m then
      k_mbs k' = k_mbs k /\
      if timeout =? 0 then r = Ret (- RT_EFULL)
      else r = Wait (FMbSend a v timeout (k_tick k)) /\
        blocked b bd idle (LSender (OMb a)) t (set_th_error RT_EOK th) (mb_flag m) timeout k k'
    else r = Ret RT_EOK /\ exists m', k_mbs k' = <[a := m']> (k_mbs k) /\ mails m' = mails m ++ [v].
Proof.
  intros Hc Hok Em Ec Hr Hb. pose proof Hr as [E Hs]. cbn [mb_send_loop].
  rewrite (bind_run _ _ _ _ _ (get_mb_run _ _ _ Em)). pose proof (Hok a m Em) as Hm.
  destruct (Z.eqb_spec (mb_entry m) (mb_size m)) as [Hf|Hf].
  - mstep. rewrite Ec. do 2 mstep. destruct (set_error_core b bd idle k t th RT_EOK Hc Hr) as [Hc0 Hr0].
    destruct (Z.eqb_spec timeout 0) as [->|Ht].
    + eexists _, _. split; [done|]. split; [done|]. split; [done|].
      split; [apply core_only_mb; by destruct k|]. split; [by apply (ipc_frame_put_th _ k t th)|done].
    + pose proof (Hb Hf Ht) as (Hi & H0 & Hint & Hlt & Hst).
      destruct (put_wait_block b bd idle (LSender (OMb a)) t th (set_th_error RT_EOK th) (mb_flag m) timeout k
        (FMbSend a v timeout (k_tick k))
        (th ← get_thread t;
         if negb (th_error th =? RT_EOK) then mret (Ret (th_error th))
         else now ← kget k_tick; mb_send_loop n a v (time_left timeout (k_tick k) now)))
        as (k' & Er & Hbl & If); try done.
      { apply Hm. }
      { exact (wf_thread k (proj1 (c_inv (c_core0 Hc))) t th E). }
      exists (Wait (FMbSend a v timeout (k_tick k))), k'. split.
      { mstep_by (in_thread_context t (put_th t (set_th_error RT_EOK th) k) Ec Hint). mstep. exact Er. }
      assert (Emk : k_mbs k' = k_mbs k) by (rewrite (bl_only Hbl); done).
      split; [apply Hbl|]. split; [intros x mx; rewrite Emk; apply Hok|].
      split; [apply core_only_mb, Hbl|]. done.
  - destruct (mb_send_finish_run b bd idle a m v k Hc Hok Em) as (k' & m' & Er & Hc' & Hok' & Emk & Hma & Hon & If & _).
    { destruct Hm. lia. }
    exists (Ret RT_EOK), k'. split; [by mstep_by Er|]. split; [done|]. split; [done|]. split; [done|].
    split; [by apply ipc_frame_none|]. split; [done|]. by exists m'.
Qed.

Lemma mb_recv_loop_run b bd idle a m timeout k t th n :
  core b bd idle k -> mbs_ok k -> k_mbs k !! a = Some m -> k_current k = Some t -> is_ready k t th ->
  (mb_entry m = 0 -> timeout <> 0 -> may_block b bd idle k t timeout) ->
  exists r k', mb_recv_loop (S n) a timeout k = Some (r, k') /\ core b bd idle k' /\ mbs_ok k' /\
    mb_only k k' /\ ipc_frame (grows r (Some (LSuspend (OMb a))) t) k k' /\
    if mb_entry m =? 0 then
      k_mbs k' = k_mbs k /\
      if timeout =? 0 then r = Ret (- RT_ETIMEOUT, None)
      else r = Wait (FMbRecv a timeout (k_tick k)) /\
        blocked b bd idle (LSuspend (OMb a)) t (set_th_error RT_EOK th) (mb_flag m) timeout k k'
    else exists v m', r = Ret (RT_EOK, Some v) /\ k_mbs k' = <[a := m']> (k_mbs k) /\ mails m = v :: mails m'.
Proof.
  intros Hc Hok Em Ec Hr Hb. pose proof Hr as [E Hs]. cbn [mb_recv_loop].
  rewrite (bind_run _ _ _ _ _ (get_mb_run _ _ _ Em)). pose proof (Hok a m Em) as Hm.
  destruct (Z.eqb_spec (mb_entry m) 0) as [Hf|Hf].
  - mstep. rewrite Ec. do 2 mstep.
    destruct (Z.eqb_spec timeout 0) as [->|Ht].
    + mstep. rewrite put_th_put_th. eexists _, _. split; [done|].
      split; [by apply (set_error_core b bd idle k t th (- RT_ETIMEOUT))|]. split; [done|].
      split; [apply core_only_mb; by destruct k|]. split; [by apply (ipc_frame_put_th _ k t th)|done].
    + pose proof (Hb Hf Ht) as (Hi & H0 & Hint & Hlt & Hst).
      destruct (put_wait_block b bd idle (LSuspend (OMb a)) t th (set_th_error RT_EOK th) (mb_flag m) timeout k
        (FMbRecv a timeout (k_tick k))
        (th ← get_thread t;
         if negb (th_error th =? RT_EOK) then mret (Ret (th_error th, None))
         else now ← kget k_tick; mb_recv_loop n a (time_left timeout (k_tick k) now)))
        as (k' & Er & Hbl & If); try done.
      { apply Hm. }
      { exact (wf_thread k (proj1 (c_inv (c_core0 Hc))) t th E). }
      exists (Wait (FMbRecv a timeout (k_tick k))), k'. split.
      { mstep_by (in_thread_context t (put_th t (set_th_error RT_EOK th) k) Ec Hint). mstep. exact Er. }
      assert (Emk : k_mbs k' = k_mbs k) by (rewrite (bl_only Hbl); done).
      split; [apply Hbl|]. split; [intros x mx; rewrite Emk; apply Hok|].
      split; [apply core_only_mb, Hbl|]. done.
  - destruct (mb_recv_finish_run b bd idle a m k Hc Hok Em) as (k' & m' & v & Er & Hc' & Hok' & Emk & Hma & Hon & If & _).
    { destruct Hm. lia. }
    exists (Ret (RT_EOK, Some v)), k'. split; [by mstep_by Er|]. split; [done|]. split; [done|]. split; [done|].
    split; [by apply ipc_frame_none|]. by exists v, m'.
Qed.

Lemma length_mails m : ring_ok m -> Z.of_nat (length (mails m)) = mb_entry m.
Proof. intros Hm. unfold mails. rewrite length_ring_view. destruct Hm. lia. Qed.

(** A send that does not wait, in a thread or in an interrupt handler. *)
Lemma rt_mb_send_run b bd idle a m v k :
  core b bd idle k -> mbs_ok k -> k_mbs k !! a = Some m ->
  exists r k', rt_mb_send a v k = Some (Ret r, k') /\ core b bd idle k' /\ mbs_ok k' /\
    if mb_entry m =? mb_size m then r = - RT_EFULL /\ k' = k
    else r = RT_EOK /\ exists m', k_mbs k' = <[a := m']> (k_mbs k) /\ mails m' = mails m ++ [v].
Proof.
  intros Hc Hok Em. unfold rt_mb_send, rt_mb_send_wait. rewrite (bind_run _ _ _ _ _ (get_mb_run _ _ _ Em)).
  pose proof (Hok a m Em) as Hm. destruct (Z.eqb_spec (mb_entry m) (mb_size m)) as [Hf|Hf]; cbn [andb Z.eqb].
  - by exists (- RT_EFULL), k.
  - destruct (mb_send_finish_run b bd idle a m v k Hc Hok Em) as (k' & m' & Er & Hc' & Hok' & Emk & Hma & _).
    { destruct Hm. lia. }
    exists RT_EOK, k'. cbn [mb_send_loop]. rewrite (bind_run _ _ _ _ _ (get_mb_run _ _ _ Em)).
    rewrite (proj2 (Z.eqb_neq _ _) Hf). split; [by mstep_by Er|]. split; [done|]. split; [done|]. split; [done|].
    by exists m'.
Qed.

(** A receive that finds a mail. *)
Lemma rt_mb_recv_run b bd idle a m timeout k :
  core b bd idle k -> mbs_ok k -> k_mbs k !! a = Some m -> mails m <> [] ->
  exists v k' m', rt_mb_recv a timeout k = Some (Ret (RT_EOK, Some v), k') /\ core b bd idle k' /\ mbs_ok k' /\
    k_mbs k' = <[a := m']> (k_mbs k) /\ mails m = v :: mails m'.
Proof.
  intros Hc Hok Em Hne. pose proof (length_mails m (Hok a m Em)) as Hl.
  assert (Hp : 0 < mb_entry m) by (destruct (mails m); [done|cbn in Hl; lia]).
  unfold rt_mb_recv. rewrite (bind_run _ _ _ _ _ (get_mb_run _ _ _ Em)).
  destruct (Z.eqb_spec (mb_entry m) 0) as [|Hz]; [lia|]. cbn [andb mb_recv_loop].
  rewrite (bind_run _ _ _ _ _ (get_mb_run _ _ _ Em)), (proj2 (Z.eqb_neq _ _) Hz).
  destruct (mb_recv_finish_run b bd idle a m k Hc Hok Em Hp) as (k' & m' & v & Er & Hc' & Hok' & Emk & Hma & _).
  exists v, k', m'. split; [by mstep_by Er|]. done.
Qed.

(** C11. [rt_mb_send_wait] refines the send of a bounded queue: with room it appends the
    mail and returns [RT_EOK]; when the mailbox is full it changes nothing and returns
    [-RT_EFULL] if no waiting is wanted, and otherwise suspends the caller among the
    waiting senders. *)
Theorem rt_mb_send_wait_refines idle a m v timeout k t th :
  core (k_tick k) RT_TICK_HALF idle k -> mbs_ok k -> k_mbs k !! a = Some m ->
  k_current k = Some t -> is_ready k t th ->
  (mb_entry m = mb_size m -> timeout <> 0 -> may_block (k_tick k) RT_TICK_HALF idle k t timeout) ->
  exists r k', rt_mb_send_wait a v timeout k = Some (r, k') /\
    core (k_tick k') RT_TICK_HALF idle k' /\ mbs_ok k' /\
    if Z.of_nat (length (mails m)) =? mb_size m then
      k_mbs k' = k_mbs k /\
      if timeout =? 0 then r = Ret (- RT_EFULL) /\ k' = k
      else r = Wait (FMbSend a v timeout (k_tick k)) /\
        blocked (k_tick k) RT_TICK_HALF idle (LSender (OMb a)) t (set_th_error RT_EOK th)
          (mb_flag m) timeout k k'
    else r = Ret RT_EOK /\ exists m', k_mbs k' = <[a := m']> (k_mbs k) /\ mails m' = mails m ++ [v].
Proof.
  intros Hc Hok Em Ec Hr Hb. rewrite length_mails by eauto. unfold rt_mb_send_wait.
  rewrite (bind_run _ _ _ _ _ (get_mb_run _ _ _ Em)).
  destruct (Z.eqb_spec (mb_entry m) (mb_size m)) as [Hf|Hf]; cbn [andb];
    [destruct (Z.eqb_spec timeout 0) as [->|Ht]|]; [by exists (Ret (- RT_EFULL)), k| |];
    destruct (mb_send_loop_run _ _ idle a m v timeout k t th 1 Hc Hok Em Ec Hr Hb)
      as (r & k' & Er & Hc' & Hok' & Hon & _ & Hcase);
    assert (Htk : k_tick k' = k_tick k) by (unfold mb_only in Hon; by rewrite Hon); exists r, k'; rewrite Htk.
  - rewrite (proj2 (Z.eqb_eq _ _) Hf), (proj2 (Z.eqb_neq _ _) Ht) in Hcase. tauto.
  - rewrite (proj2 (Z.eqb_neq _ _) Hf) in Hcase. tauto.
Qed.

(** C12. [rt_mb_recv] refines the receive of a bounded queue: it takes the oldest mail
    out and returns it; when there is none it changes nothing and returns
    [-RT_ETIMEOUT] if no waiting is wanted, and otherwise suspends the caller among
    the waiting receivers. *)
Theorem rt_mb_recv_refines idle a m timeout k t th :
  core (k_tick k) RT_TICK_HALF idle k -> mbs_ok k -> k_mbs k !! a = Some m ->
  k_current k = Some t -> is_ready k t th ->
  (mb_entry m = 0 -> timeout <> 0 -> may_block (k_tick k) RT_TICK_HALF idle k t timeout) ->
  exists r k', rt_mb_recv a timeout k = Some (r, k') /\
    core (k_tick k') RT_TICK_HALF idle k' /\ mbs_ok k' /\
    match mails m with
    | [] =>
        k_mbs k' = k_mbs k /\
        if timeout =? 0 then r = Ret (- RT_ETIMEOUT, None) /\ k' = k
        else r = Wait (FMbRecv a timeout (k_tick k)) /\
          blocked (k_tick k) RT_TICK_HALF idle (LSuspend (OMb a)) t (set_th_error RT_EOK th)
            (mb_flag m) timeout k k'
    | v :: l => r = Ret (RT_EOK, Some v) /\ exists m', k_mbs k' = <[a := m']> (k_mbs k) /\ mails m' = l
    end.
Proof.
  intros Hc Hok Em Ec Hr Hb. pose proof (length_mails m (Hok a m Em)) as Hlen. unfold rt_mb_recv.
  rewrite (bind_run _ _ _ _ _ (get_mb_run _ _ _ Em)).
  destruct (Z.eqb_spec (mb_entry m) 0) as [Hf|Hf]; cbn [andb];
    [destruct (Z.eqb_spec timeout 0) as [->|Ht]|].
  - exists (Ret (- RT_ETIMEOUT, None)), k. split; [done|]. split; [done|]. split; [done|].
    rewrite Hf in Hlen. destruct (mails m); [done|cbn in Hlen; lia].
  - destruct (mb_recv_loop_run _ _ idle a m timeout k t th 1 Hc Hok Em Ec Hr Hb)
      as (r & k' & Er & Hc' & Hok' & Hon & _ & Hcase).
    assert (Htk : k_tick k' = k_tick k) by (unfold mb_only in Hon; by rewrite Hon). exists r, k'. rewrite Htk.
    rewrite (proj2 (Z.eqb_eq _ _) Hf), (proj2 (Z.eqb_neq _ _) Ht) in Hcase. rewrite Hf in Hlen.
    destruct (mails m); [tauto|cbn in Hlen; lia].
  - destruct (mb_recv_loop_run _ _ idle a m timeout k t th 1 Hc Hok Em Ec Hr Hb)
      as (r & k' & Er & Hc' & Hok' & Hon & _ & Hcase).
    assert (Htk : k_tick k' = k_tick k) by (unfold mb_only in Hon; by rewrite Hon). exists r, k'. rewrite Htk.
    rewrite (proj2 (Z.eqb_neq _ _) Hf) in Hcase. destruct Hcase as (v & m' & -> & E' & ->). by eauto 10.
Qed.
