(* ===== verification/MsgQueue.v ===== *)
(** * Message queues (src/src/ipc.c)

    Messages of bounded size are kept in the slots of a pool.  Each slot starts with a
    link: the slots in use form the list from [msg_queue_head] to [msg_queue_tail],
    the others the list of [msg_queue_free].  The functions that send and receive
    copy the message with interrupts enabled, so they are sequences of atomic steps
    between which a slot is in neither list; the invariant [mq_shape] names the slots
    in flight.  The theorems show that the queue is a bounded queue of messages, with
    urgent messages put in front. *)
From S2P Require Import Prelude KService Kernel Object Scheduler Timer Thread Frame Ipc.

Definition get_mq (a : Z) : M rt_messagequeue := fun k => q ← k_mqs k !! a; Some (q, k).
Definition put_mq (a : Z) (q : rt_messagequeue) (k : kstate) : kstate :=
  set_k_mqs (<[a := q]> (k_mqs k)) k.
(** An atomic step on a message queue; [None] is an access through an invalid link. *)
Definition mq_step {A} (a : Z) (f : rt_messagequeue -> option (A * rt_messagequeue)) : M A :=
  q ← get_mq a;
  r ← deref (f q);
  kmod (put_mq a r.2);;
  mret r.1.

(** ** Steps on the pool *)

(** [head->next = free; free = head] for a slot. *)
Definition mq_release (s : Z) (q : rt_messagequeue) : rt_messagequeue :=
  set_mq_free (Some s) (set_mq_next (<[s := mq_free q]> (mq_next q)) q).

(** The address of a slot. *)
Definition slot_addr (pool msg_size i : Z) : Z := pool + i * (msg_size + 4).

(** The loop of [rt_mq_init] over the slots [i], ..., [i + n - 1]. *)
Fixpoint mq_init_slots (pool : Z) (i : Z) (n : nat) (q : rt_messagequeue) : rt_messagequeue :=
  match n with
  | O => q
  | S n' => mq_init_slots pool (i + 1) n' (mq_release (slot_addr pool (mq_msg_size q) i) q)
  end.

(** [rt_mq_init]; [raw] is what the pool holds at the bodies of the slots. *)
Definition rt_mq_init (a : Z) (name : list Z) (pool msg_size pool_size flag : Z)
    (raw : gmap Z (list Z)) : M Z :=
  rt_object_init (OMq a) name;;
  rt_ipc_object_init (OMq a);;
  let size := u16 (RT_ALIGN (u32 msg_size) 4) in
  let max := u16 (u32 pool_size / (size + 4)) in
  kmod (put_mq a (mq_init_slots pool 0 (Z.to_nat max)
    (MsgQueue (u8 flag) pool size max 0 ∅ raw None None None)));;
  mret RT_EOK.

(** [rt_mq_detach]. *)
Definition rt_mq_detach (a : Z) : M Z :=
  rt_ipc_list_resume_all (LSuspend (OMq a));;
  rt_object_detach (OMq a);;
  mret RT_EOK.

(** The first free slot leaves the free list; no slot when the pool is exhausted. *)
Definition mq_take_free (q : rt_messagequeue) : option (option Z * rt_messagequeue) :=
  match mq_free q with
  | None => Some (None, q)
  | Some s => n ← mq_next q !! s; Some (Some s, set_mq_free n q)
  end.

(** [rt_memcpy(msg + 1, buffer, size)]. *)
Definition mq_fill (s : Z) (buf : list Z) (q : rt_messagequeue) : option (unit * rt_messagequeue) :=
  old ← mq_body q !! s;
  if (length buf <=? length old)%nat
  then Some (tt, set_mq_body (<[s := buf ++ drop (length buf) old]> (mq_body q)) q) else None.

(** [msg->next = RT_NULL]. *)
Definition mq_clear_next (s : Z) (q : rt_messagequeue) : option (unit * rt_messagequeue) :=
  Some (tt, set_mq_next (<[s := None]> (mq_next q)) q).

(** Linking a slot at the end of the queue. *)
Definition mq_link_tail (s : Z) (q : rt_messagequeue) : option (unit * rt_messagequeue) :=
  let q1 := match mq_tail q with
            | Some tl => set_mq_next (<[tl := Some s]> (mq_next q)) q
            | None => q
            end in
  let q2 := set_mq_tail (Some s) q1 in
  let q3 := match mq_head q2 with None => set_mq_head (Some s) q2 | Some _ => q2 end in
  Some (tt, set_mq_entry (u16 (mq_entry q3 + 1)) q3).

(** Linking a slot at the front of the queue. *)
Definition mq_link_head (s : Z) (q : rt_messagequeue) : option (unit * rt_messagequeue) :=
  let q1 := set_mq_head (Some s) (set_mq_next (<[s := mq_head q]> (mq_next q)) q) in
  let q2 := match mq_tail q1 with None => set_mq_tail (Some s) q1 | Some _ => q1 end in
  Some (tt, set_mq_entry (u16 (mq_entry q2 + 1)) q2).

(** The first slot leaves the queue. *)
Definition mq_unlink_head (q : rt_messagequeue) : option (Z * rt_messagequeue) :=
  s ← mq_head q;
  n ← mq_next q !! s;
  let q1 := set_mq_head n q in
  let q2 := if bool_decide (mq_tail q = Some s) then set_mq_tail None q1 else q1 in
  Some (s, q2).
Definition mq_pop (q : rt_messagequeue) : option (Z * rt_messagequeue) :=
  r ← mq_unlink_head q; Some (r.1, set_mq_entry (u16 (mq_entry r.2 - 1)) r.2).

(** The part of the body copied to a buffer of the given size. *)
Definition mq_copy (s size : Z) (q : rt_messagequeue) : option (list Z * rt_messagequeue) :=
  body ← mq_body q !! s;
  Some (take (Z.to_nat (if mq_msg_size q <? size then mq_msg_size q else size)) body, q).

(** ** Operations *)

(** [rt_mq_send]: the buffer [buf] has [length buf] bytes. *)
Definition rt_mq_send (a : Z) (buf : list Z) : M Z :=
  rt_assert (negb (Z.of_nat (length buf) =? 0));;
  q ← get_mq a;
  if mq_msg_size q <? Z.of_nat (length buf) then mret (- RT_ERROR)
  else
    msg ← mq_step a mq_take_free;
    match msg with
    | None => mret (- RT_EFULL)
    | Some s =>
        mq_step a (mq_clear_next s);;
        mq_step a (mq_fill s buf);;
        mq_step a (mq_link_tail s);;
        wake_first (LSuspend (OMq a));;
        mret RT_EOK
    end.

(** [rt_mq_urgent]. *)
Definition rt_mq_urgent (a : Z) (buf : list Z) : M Z :=
  rt_assert (negb (Z.of_nat (length buf) =? 0));;
  q ← get_mq a;
  if mq_msg_size q <? Z.of_nat (length buf) then mret (- RT_ERROR)
  else
    msg ← mq_step a mq_take_free;
    match msg with
    | None => mret (- RT_EFULL)
    | Some s =>
        mq_step a (mq_fill s buf);;
        mq_step a (mq_link_head s);;
        wake_first (LSuspend (OMq a));;
        mret RT_EOK
    end.

(** The end of [rt_mq_recv]: the first message is copied and its slot freed. *)
Definition mq_recv_finish (a size : Z) : M (Z * option (list Z)) :=
  s ← mq_step a mq_pop;
  d ← mq_step a (mq_copy s size);
  mq_step a (fun q => Some (tt, mq_release s q));;
  mret (RT_EOK, Some d).

(** [rt_mq_recv] from its loop on. *)
Fixpoint mq_recv_loop (fuel : nat) (a size timeout : Z) : M (wait (Z * option (list Z))) :=
  q ← get_mq a;
  if mq_entry q =? 0 then
    match fuel with
    | O => stuck
    | S fuel' =>
        RT_DEBUG_IN_THREAD_CONTEXT;;
        cur ← rt_thread_self;
        t ← deref cur;
        mod_thread t (set_th_error RT_EOK);;
        if timeout =? 0 then
          mod_thread t (set_th_error (- RT_ETIMEOUT));;
          mret (Ret (- RT_ETIMEOUT, None))
        else
          start ← kget k_tick;
          ipc_wait (LSuspend (OMq a)) t (mq_flag q) timeout;;
          schedule_then t (FMqRecv a size timeout start)
            (th ← get_thread t;
             if negb (th_error th =? RT_EOK) then mret (Ret (th_error th, None))
             else
               now ← kget k_tick;
               mq_recv_loop fuel' a size (time_left timeout start now))
    end
  else r ← mq_recv_finish a size; mret (Ret r).

(** [rt_mq_recv] after a wait. *)
Definition rt_mq_recv_resume (t a size timeout start : Z) : M (wait (Z * option (list Z))) :=
  th ← get_thread t;
  if negb (th_error th =? RT_EOK) then mret (Ret (th_error th, None))
  else
    now ← kget k_tick;
    mq_recv_loop 2 a size (time_left timeout start now).

(** [rt_mq_recv]; the second result is what is copied to the buffer. *)
Definition rt_mq_recv (a size timeout : Z) : M (wait (Z * option (list Z))) :=
  rt_assert (negb (size =? 0));;
  q ← get_mq a;
  if (mq_entry q =? 0) && (timeout =? 0) then mret (Ret (- RT_ETIMEOUT, None))
  else mq_recv_loop 2 a size timeout.

(** The loop of [rt_mq_control] that frees all messages; [fuel] bounds the iterations. *)
Fixpoint mq_flush (fuel : nat) (q : rt_messagequeue) : option rt_messagequeue :=
  match mq_head q with
  | None => Some q
  | Some _ =>
      match fuel with
      | O => None
      | S fuel' => r ← mq_unlink_head q; mq_flush fuel' (mq_release r.1 r.2)
      end
  end.

(** [rt_mq_control]: at most as many messages as slots. *)
Definition rt_mq_control (a cmd arg : Z) : M Z :=
  if cmd =? RT_IPC_CMD_RESET then
    rt_ipc_list_resume_all (LSuspend (OMq a));;
    mq_step a (fun q => q' ← mq_flush (Z.to_nat (mq_max_msgs q)) q; Some (tt, set_mq_entry 0 q'));;
    rt_schedule;;
    mret RT_EOK
  else mret (- RT_ERROR).

(** ** Invariant and abstraction *)

(** The slots from [h] along the links are [l]. *)
Fixpoint chain (nx : gmap Z (option Z)) (h : option Z) (l : list Z) : Prop :=
  match l with
  | [] => h = None
  | s :: l' => h = Some s /\ exists n, nx !! s = Some n /\ chain nx n l'
  end.

(** The queue holds the slots [qs], the free list [fs]; [fl] are in flight. *)
Record mq_shape (q : rt_messagequeue) (qs fs fl : list Z) : Prop := {
  ms_queue : chain (mq_next q) (mq_head q) qs;
  ms_free : chain (mq_next q) (mq_free q) fs;
  ms_tail : mq_tail q = list.last qs;
  ms_nodup : NoDup (qs ++ fs ++ fl);
  ms_entry : mq_entry q = Z.of_nat (length qs);
  ms_count : Z.of_nat (length (qs ++ fs ++ fl)) = mq_max_msgs q;
  ms_max : 0 <= mq_max_msgs q < 65536;
  ms_link : forall s, s ∈ qs ++ fs ++ fl -> is_Some (mq_next q !! s);
  ms_body : forall s, s ∈ qs ++ fs ++ fl -> exists d, mq_body q !! s = Some d /\
    Z.of_nat (length d) = mq_msg_size q;
  ms_flag : ipc_flag (mq_flag q)
}.

(** The messages in the queue, the next one first. *)
Definition messages (q : rt_messagequeue) (qs : list Z) : list (list Z) :=
  (fun s => default [] (mq_body q !! s)) <$> qs.

(** The queue at rest, with its messages. *)
Definition mq_abs (q : rt_messagequeue) (l : list (list Z)) : Prop :=
  exists qs fs, mq_shape q qs fs [] /\ messages q qs = l.

Definition mqs_ok (k : kstate) : Prop := forall a q, k_mqs k !! a = Some q -> exists l, mq_abs q l.

(** Nothing but the message queues and the threads has changed. *)
Definition mq_only (k k' : kstate) : Prop := k' = set_k_mqs (k_mqs k') (with_core k' k).

(** What a send to either end does: [l'] is the new sequence of messages. *)
Record sent (b bd idle : Z) (a : Z) (q : rt_messagequeue) (l' : list Z -> list (list Z))
    (buf : list Z) (k k' : kstate) : Prop := {
  se_core : core b bd idle k';
  se_queue : exists q' d, k_mqs k' = <[a := q']> (k_mqs k) /\ mq_abs q' (l' d) /\
    mq_msg_size q' = mq_msg_size q /\
    take (length buf) d = buf /\ Z.of_nat (length d) = mq_msg_size q;
  se_only : mq_only k k';
  se_frame : ipc_frame no_growth k k';
  se_wake : match queue k (LSuspend (OMq a)) with
    | [] => k_threads k' = k_threads k
    | w :: ws => queue k' (LSuspend (OMq a)) = ws /\ exists th, is_ready k' w th
    end
}.

(** ** The steps keep the shape *)

Lemma chain_ext nx nx' h l :
  (forall s, s ∈ l -> nx' !! s = nx !! s) -> chain nx h l -> chain nx' h l.
Proof.
  revert h. induction l as [|s l IH]; [done|]. intros h Hs [-> (n & E & Hc)]. split; [done|].
  exists n. rewrite Hs by set_solver. split; [done|]. apply IH; [|done]. intros. apply Hs. set_solver.
Qed.

Lemma chain_insert nx h l s n : s ∉ l -> chain nx h l -> chain (<[s := n]> nx) h l.
Proof. intros Hs. apply chain_ext. intros x Hx. rewrite lookup_insert_ne; [done|]. by intros ->. Qed.

Lemma chain_snoc nx h l tl s :
  chain nx h (l ++ [tl]) -> s ∉ l ++ [tl] -> NoDup (l ++ [tl]) -> nx !! s = Some None ->
  chain (<[tl := Some s]> nx) h (l ++ [tl; s]).
Proof.
  revert h. induction l as [|x l IH]; cbn [app]; intros h Hc Hs Hn Es.
  - destruct Hc as [-> _]. split; [done|]. exists (Some s). rewrite lookup_insert_eq. split; [done|].
    split; [done|]. exists None. rewrite lookup_insert_ne; [done|]. set_solver.
  - destruct Hc as [-> (n & E & Hc)]. apply list.NoDup_cons in Hn as [Hx Hn]. split; [done|]. exists n.
    rewrite lookup_insert_ne by set_solver. split; [done|]. apply IH; [done|set_solver|done|done].
Qed.

Lemma chain_unique nx h l1 l2 : chain nx h l1 -> chain nx h l2 -> l1 = l2.
Proof.
  revert h l2. induction l1 as [|s l1 IH]; intros h [|s' l2]; cbn; try done.
  - by intros -> [? _].
  - by intros [-> _] ?.
  - intros [-> (n & E & H1)] [[= <-] (n' & E' & H2)]. simplify_eq. f_equal. by eapply IH.
Qed.

(** The order in which slots are in flight does not matter. *)
Lemma mq_shape_perm q qs fs fl fl' : fl ≡ₚ fl' -> mq_shape q qs fs fl -> mq_shape q qs fs fl'.
Proof.
  intros Hp [H1 H2 H3 H4 H5 H6 H7 H8 H9 H10]. split; try done.
  - by rewrite <-Hp.
  - by rewrite <-Hp.
  - intros s. rewrite <-Hp. apply H8.
  - intros s. rewrite <-Hp. apply H9.
Qed.

Lemma nodup_parts (qs fs fl : list Z) s :
  NoDup (qs ++ fs ++ s :: fl) -> s ∉ qs /\ s ∉ fs /\ s ∉ fl /\ NoDup (qs ++ fs ++ fl) /\ NoDup qs.
Proof. rewrite !list.NoDup_app, list.NoDup_cons. set_solver. Qed.

Lemma shape_take_free q qs fs fl :
  mq_shape q qs fs fl ->
  exists r q', mq_take_free q = Some (r, q') /\
    match fs with
    | [] => r = None /\ q' = q
    | s :: fs' => r = Some s /\ mq_shape q' qs fs' (s :: fl) /\ messages q' qs = messages q qs
    end /\ mq_msg_size q' = mq_msg_size q.
Proof.
  intros [H1 H2 H3 H4 H5 H6 H7 H8 H9 H10]. unfold mq_take_free. destruct fs as [|s fs].
  - cbn in H2. rewrite H2. eauto 10.
  - destruct H2 as [E2 (n & En & H2)]. rewrite E2, En. do 2 eexists. split; [done|]. split; [|done]. split; [done|].
    assert (Hp : qs ++ (s :: fs) ++ fl ≡ₚ qs ++ fs ++ s :: fl) by (cbn; by rewrite Permutation_middle).
    split; [|done]. split; cbn; try done.
    + by rewrite <-Hp.
    + by rewrite <-Hp.
    + intros x. rewrite <-Hp. apply H8.
    + intros x. rewrite <-Hp. apply H9.
Qed.

(** A step that changes only the link or the body of a slot in flight. *)
Lemma shape_fill q qs fs fl s buf :
  mq_shape q qs fs (s :: fl) -> Z.of_nat (length buf) <= mq_msg_size q ->
  exists q' d, mq_fill s buf q = Some (tt, q') /\ mq_shape q' qs fs (s :: fl) /\
    messages q' qs = messages q qs /\ mq_body q' !! s = Some d /\
    (exists old, mq_body q !! s = Some old /\ d = buf ++ drop (length buf) old) /\
    mq_next q' = mq_next q /\ mq_msg_size q' = mq_msg_size q.
Proof.
  intros [H1 H2 H3 H4 H5 H6 H7 H8 H9 H10] Hb. destruct (nodup_parts _ _ _ _ H4) as (N1 & N2 & N3 & _).
  destruct (H9 s) as (old & Eo & Hl); [set_solver|]. unfold mq_fill. rewrite Eo. cbn.
  destruct (Nat.leb_spec (length buf) (length old)) as [Hle|]; [|lia].
  do 2 eexists. split; [done|]. split; [split; cbn; try done|split; [|split; [apply lookup_insert_eq|eauto]]].
  - intros x Hx. rewrite lookup_insert. case_decide; [|by apply H9]. eexists. split; [done|].
    rewrite length_app, length_drop. lia.
  - unfold messages. apply list_fmap_ext. intros i x Hx. cbn.
    rewrite lookup_insert_ne; [done|]. intros ->. by apply list_elem_of_lookup_2 in Hx.
Qed.

Lemma shape_clear q qs fs fl s :
  mq_shape q qs fs (s :: fl) ->
  exists q', mq_clear_next s q = Some (tt, q') /\ mq_shape q' qs fs (s :: fl) /\
    messages q' qs = messages q qs /\ mq_next q' !! s = Some None /\ mq_body q' = mq_body q /\
    mq_msg_size q' = mq_msg_size q.
Proof.
  intros [H1 H2 H3 H4 H5 H6 H7 H8 H9 H10]. destruct (nodup_parts _ _ _ _ H4) as (N1 & N2 & N3 & _).
  eexists. split; [done|]. split; [split; cbn; try done|].
  - by apply chain_insert.
  - by apply chain_insert.
  - intros x Hx. rewrite lookup_insert. case_decide; [done|]. by apply H8.
  - cbn. rewrite lookup_insert_eq. done.
Qed.

Lemma shape_members q qs fs fl s :
  mq_shape q qs fs (s :: fl) ->
  (forall x, x ∈ (qs ++ [s]) ++ fs ++ fl <-> x ∈ qs ++ fs ++ s :: fl) /\
  NoDup ((qs ++ [s]) ++ fs ++ fl) /\ Z.of_nat (length ((qs ++ [s]) ++ fs ++ fl)) = mq_max_msgs q /\
  Z.of_nat (length qs) + 1 < 65536.
Proof.
  intros Hs. assert (Hp : (qs ++ [s]) ++ fs ++ fl ≡ₚ qs ++ fs ++ s :: fl).
  { rewrite <-app_assoc. apply Permutation_app_head. cbn. by rewrite Permutation_middle. }
  split; [intros x; by rewrite Hp|]. split; [rewrite Hp; apply Hs|]. split; [rewrite Hp; apply Hs|].
  pose proof (ms_count _ _ _ _ Hs) as H. pose proof (ms_max _ _ _ _ Hs).
  rewrite !length_app in H. cbn in H. lia.
Qed.

(** A slot whose link is null goes to the end of the queue. *)
Lemma shape_link_tail q qs fs fl s d :
  mq_shape q qs fs (s :: fl) -> mq_next q !! s = Some None -> mq_body q !! s = Some d ->
  exists q', mq_link_tail s q = Some (tt, q') /\ mq_shape q' (qs ++ [s]) fs fl /\
    messages q' (qs ++ [s]) = messages q qs ++ [d] /\ mq_msg_size q' = mq_msg_size q.
Proof.
  intros Hsh Es Ed. destruct (shape_members q qs fs fl s Hsh) as (Hm & Hn & Hcnt & Hlen).
  destruct Hsh as [H1 H2 H3 H4 H5 H6 H7 H8 H9 H10].
  destruct (nodup_parts _ _ _ _ H4) as (N1 & N2 & N3 & _ & Nq).
  destruct qs as [|x qs' _] using rev_ind.
  - cbn in H3, H1. eexists. split; [done|]. unfold mq_link_tail. rewrite H3. cbn. rewrite H1. cbn.
    split; [|by rewrite Ed]. split; cbn; try done.
    + split; [done|]. exists None. done.
    + rewrite H5. rewrite u16_id by (cbn; lia). done.
    + intros y Hy. apply H8. by apply Hm.
    + intros y Hy. apply H9. by apply Hm.
  - rewrite list.last_snoc in H3. eexists. split; [done|]. unfold mq_link_tail. rewrite H3. cbn.
    assert (Hh : exists h, mq_head q = Some h).
    { destruct qs'; cbn in H1; destruct H1 as [E _]; eauto. } destruct Hh as [h Eh]. rewrite Eh. cbn.
    assert (Hxf : x ∉ fs) by (rewrite !list.NoDup_app in H4; set_solver).
    split; [|split; [|done]].
    + split; cbn; try done.
      * rewrite <-app_assoc. by apply chain_snoc.
      * by apply chain_insert.
      * by rewrite list.last_snoc.
      * rewrite H5, u16_id by lia. rewrite (length_app _ [s]). cbn. lia.
      * intros y Hy. rewrite lookup_insert. case_decide; [done|]. apply H8. by apply Hm.
      * intros y Hy. apply H9. by apply Hm.
    + unfold messages. rewrite fmap_app. cbn. by rewrite Ed.
Qed.

(** A slot goes to the front of the queue. *)
Lemma shape_link_head q qs fs fl s d :
  mq_shape q qs fs (s :: fl) -> mq_body q !! s = Some d ->
  exists q', mq_link_head s q = Some (tt, q') /\ mq_shape q' (s :: qs) fs fl /\
    messages q' (s :: qs) = d :: messages q qs /\ mq_msg_size q' = mq_msg_size q.
Proof.
  intros Hsh Ed. destruct (shape_members q qs fs fl s Hsh) as (Hm & Hn & Hcnt & Hlen).
  destruct Hsh as [H1 H2 H3 H4 H5 H6 H7 H8 H9 H10].
  destruct (nodup_parts _ _ _ _ H4) as (N1 & N2 & N3 & _ & Nq).
  assert (Hp : (s :: qs) ++ fs ++ fl ≡ₚ (qs ++ [s]) ++ fs ++ fl).
  { apply Permutation_app_tail. by rewrite Permutation_cons_append. }
  assert (Hch : chain (<[s := mq_head q]> (mq_next q)) (Some s) (s :: qs)).
  { split; [done|]. exists (mq_head q). rewrite lookup_insert_eq. split; [done|]. by apply chain_insert. }
  assert (Hmsg : (fun s => default [] (mq_body q !! s)) <$> (s :: qs) = d :: messages q qs) by (cbn; by rewrite Ed).
  eexists. split; [done|]. unfold mq_link_head. cbn. destruct (mq_tail q) as [tl|] eqn:Etl.
  all: split; [|split; [exact Hmsg|done]]; split; cbn [mq_next mq_head mq_free mq_tail mq_entry mq_max_msgs mq_body
    mq_msg_size mq_flag set_mq_entry set_mq_tail set_mq_head set_mq_next]; try done;
    try (rewrite Hp; done); try (by apply chain_insert);
    try (rewrite H5, u16_id by lia; cbn; lia);
    try (intros y; rewrite Hp, Hm; apply H9);
    try (intros y; rewrite Hp, Hm; intros Hy; rewrite lookup_insert; case_decide; [done|]; by apply H8).
  - rewrite Etl, H3. by destruct qs.
  - destruct qs as [|y qs]; [done|]. cbn in H3. destruct (list.last (y :: qs)) eqn:El; [done|].
    by apply last_None in El.
Qed.

Lemma shape_unlink_head q s qs fs fl :
  mq_shape q (s :: qs) fs fl ->
  exists q', mq_unlink_head q = Some (s, q') /\
    chain (mq_next q') (mq_head q') qs /\ mq_tail q' = list.last qs /\ mq_next q' = mq_next q /\
    mq_free q' = mq_free q /\ mq_body q' = mq_body q /\ mq_entry q' = mq_entry q /\
    mq_max_msgs q' = mq_max_msgs q /\ mq_msg_size q' = mq_msg_size q /\ mq_flag q' = mq_flag q.
Proof.
  intros [H1 H2 H3 H4 H5 H6 H7 H8 H9 H10]. destruct H1 as [Eh (n & En & H1)].
  unfold mq_unlink_head. rewrite Eh. cbn. rewrite En. cbn. eexists. split; [done|].
  assert (Ht : (if bool_decide (mq_tail q = Some s) then None else mq_tail q) = list.last qs).
  { rewrite H3. destruct qs as [|y qs]; [by rewrite bool_decide_true|].
    rewrite bool_decide_false; [done|]. change (list.last (s :: y :: qs)) with (list.last (y :: qs)).
    intros El. apply last_Some_elem_of in El. rewrite <-app_comm_cons, list.NoDup_cons in H4. set_solver. }
  destruct (bool_decide (mq_tail q = Some s)); by rewrite <-Ht.
Qed.

Lemma shape_pop q s qs fs fl :
  mq_shape q (s :: qs) fs fl ->
  exists q', mq_pop q = Some (s, q') /\ mq_shape q' qs fs (s :: fl) /\
    mq_body q' = mq_body q /\ mq_msg_size q' = mq_msg_size q.
Proof.
  intros Hsh. destruct (shape_unlink_head q s qs fs fl Hsh) as (q1 & E1 & C1 & C2 & C3 & C4 & C5 & C6 & C7 & C8 & C9).
  destruct Hsh as [H1 H2 H3 H4 H5 H6 H7 H8 H9 H10].
  assert (Hp : (s :: qs) ++ fs ++ fl ≡ₚ qs ++ fs ++ s :: fl).
  { cbn. rewrite !app_assoc. by rewrite Permutation_middle. }
  unfold mq_pop. rewrite E1. cbn. eexists. split; [done|]. split; [|done]. split; cbn; rewrite ?C3, ?C4, ?C5, ?C6, ?C7, ?C8, ?C9; try done.
  - by rewrite <-C3.
  - by rewrite <-Hp.
  - rewrite H5, u16_id by (cbn in *; rewrite !length_app in H6; cbn in H6; lia). cbn. lia.
  - by rewrite <-Hp.
  - intros x. rewrite <-Hp. apply H8.
  - intros x. rewrite <-Hp. apply H9.
Qed.

Lemma shape_release q qs fs fl s :
  mq_shape q qs fs (s :: fl) ->
  mq_shape (mq_release s q) qs (s :: fs) fl /\ messages (mq_release s q) qs = messages q qs.
Proof.
  intros [H1 H2 H3 H4 H5 H6 H7 H8 H9 H10]. destruct (nodup_parts _ _ _ _ H4) as (N1 & N2 & N3 & _ & _).
  assert (Hp : qs ++ (s :: fs) ++ fl ≡ₚ qs ++ fs ++ s :: fl) by (cbn; by rewrite Permutation_middle).
  split; [|done]. split; cbn; try done.
  - by apply chain_insert.
  - split; [done|]. exists (mq_free q). rewrite lookup_insert_eq. split; [done|]. by apply chain_insert.
  - by rewrite <-Hp in H4.
  - by rewrite <-Hp in H6.
  - intros x. rewrite Hp. intros Hx. rewrite lookup_insert. case_decide; [done|]. by apply H8.
  - intros x. rewrite Hp. apply H9.
Qed.

(** ** The operations *)

Lemma get_mq_run a q k : k_mqs k !! a = Some q -> get_mq a k = Some (q, k).
Proof. intros E. unfold get_mq. by rewrite E. Qed.

Lemma mq_step_run {A} a (f : rt_messagequeue -> option (A * rt_messagequeue)) q r q' k :
  k_mqs k !! a = Some q -> f q = Some (r, q') -> mq_step a f k = Some (r, put_mq a q' k).
Proof.
  intros E Ef. unfold mq_step. rewrite (bind_run _ _ _ _ _ (get_mq_run _ _ _ E)), Ef. do 2 mstep. done.
Qed.

Lemma put_mq_put_mq a q q' k : put_mq a q' (put_mq a q k) = put_mq a q' k.
Proof. unfold put_mq. cbn. by rewrite insert_insert_eq. Qed.

Lemma mq_step_next {A B} a (f : rt_messagequeue -> option (A * rt_messagequeue)) (g : A -> M B) q r q' k :
  f q = Some (r, q') -> (x ← mq_step a f; g x) (put_mq a q k) = g r (put_mq a q' k).
Proof.
  intros Ef. erewrite bind_run; [|eapply mq_step_run; [cbn; apply lookup_insert_eq|exact Ef]].
  by rewrite put_mq_put_mq.
Qed.

Lemma put_mq_id a q k : k_mqs k !! a = Some q -> put_mq a q k = k.
Proof. intros E. unfold put_mq. rewrite insert_id by done. by destruct k. Qed.

Lemma core_put_mq b bd idle a q k : core b bd idle k -> core b bd idle (put_mq a q k).
Proof.
  intros [[[Hwf Hw] Hi Hs] Hcur]. split; [split; [split|..]|]; try done;
    [by apply (sched_wf_ext k)|by apply (timer_wf_ext b bd k)].
Qed.

Lemma mq_only_put k k1 k' a q :
  core_only k k1 -> core_only (put_mq a q k1) k' -> mq_only k k'.
Proof.
  unfold core_only, mq_only. destruct k, k1, k'. cbn. intros F1 F2.
  injection F1. injection F2. intros. by subst.
Qed.

Lemma core_only_mq k k' : core_only k k' -> mq_only k k'.
Proof. unfold core_only, mq_only. intros F. rewrite F. done. Qed.

Lemma mqs_ok_put k k' a q' l :
  mqs_ok k -> k_mqs k' = <[a := q']> (k_mqs k) -> mq_abs q' l -> mqs_ok k'.
Proof.
  intros Hok E Hq x q. rewrite E, lookup_insert. case_decide; [intros [= <-]; by exists l|apply Hok].
Qed.

(** No invariant of the message queues is about who waits. *)
#[export] Instance mqs_wait_object : WaitObject (fun _ => False) k_mqs mqs_ok.
Proof. intros g k k' Hok _ _ Em x m. rewrite Em. apply Hok. Qed.
#[export] Instance mqs_stable : Stable mqs_ok.
Proof. exact (wait_object_stable _ k_mqs mqs_ok os_mqs). Qed.

Lemma mq_abs_entry q l : mq_abs q l -> mq_entry q = Z.of_nat (length l).
Proof. intros (qs & fs & Hs & <-). unfold messages. rewrite length_fmap. apply Hs. Qed.

(** The queue has room exactly when the free list is not empty. *)
Lemma mq_abs_room q qs fs l :
  mq_shape q qs fs [] -> messages q qs = l -> fs = [] <-> Z.of_nat (length l) = mq_max_msgs q.
Proof.
  intros Hs <-. pose proof (ms_count _ _ _ _ Hs) as Hc. rewrite app_nil_r, length_app in Hc.
  unfold messages. rewrite length_fmap. destruct fs; cbn in *; split; intros; try done; lia.
Qed.

(** The wake-up after the new message is linked. *)
Lemma sent_wake b bd idle a q q' d l' buf k :
  core b bd idle k -> mq_abs q' (l' d) -> mq_msg_size q' = mq_msg_size q ->
  take (length buf) d = buf -> Z.of_nat (length d) = mq_msg_size q ->
  exists k', (wake_first (LSuspend (OMq a));; mret RT_EOK) (put_mq a q' k) = Some (RT_EOK, k') /\
    sent b bd idle a q l' buf k k'.
Proof.
  intros Hc Ha Hsz Hd Hl. set (k1 := put_mq a q' k).
  assert (Hc1 : core b bd idle k1) by (by apply core_put_mq).
  destruct (wake_first_core b bd idle (LSuspend (OMq a)) k1 Hc1 I) as (k' & Er & Hc' & F & If & _ & Hw).
  exists k'. split; [by mstep_by Er|]. split; [done|..].
  - exists q', d. split; [rewrite F; done|done].
  - eapply (mq_only_put k k); [reflexivity|exact F].
  - etrans; [|exact If]. by apply ipc_frame_same.
  - change (queue k1 (LSuspend (OMq a))) with (queue k (LSuspend (OMq a))) in Hw.
    destruct (queue k (LSuspend (OMq a))) as [|w ws]; [by rewrite Hw|].
    destruct Hw as (th & E & Hw). split; [apply (wk_queue Hw)|]. exists (set_th_stat RT_THREAD_READY th).
    split; [rewrite (wk_threads Hw); apply lookup_insert_eq|done].
Qed.

Lemma rt_mq_send_run b bd idle a q l buf k :
  core b bd idle k -> k_mqs k !! a = Some q -> mq_abs q l -> buf <> [] ->
  exists r k', rt_mq_send a buf k = Some (r, k') /\
    if mq_msg_size q <? Z.of_nat (length buf) then r = - RT_ERROR /\ k' = k
    else if Z.of_nat (length l) =? mq_max_msgs q then r = - RT_EFULL /\ k' = k
    else r = RT_EOK /\ sent b bd idle a q (fun d => l ++ [d]) buf k k'.
Proof.
  intros Hc Eq (qs & fs & Hs & Hm) Hb. unfold rt_mq_send. rewrite (bind_run _ _ _ tt k) by (by destruct buf).
  rewrite (bind_run _ _ _ _ _ (get_mq_run _ _ _ Eq)).
  destruct (Z.ltb_spec (mq_msg_size q) (Z.of_nat (length buf))) as [Hbig|Hfit]; [by do 2 eexists|].
  destruct (shape_take_free q qs fs [] Hs) as (r & q1 & E1 & H1 & Hz1). pose proof (mq_abs_room q qs fs l Hs Hm) as Hroom.
  rewrite (bind_run _ _ _ _ _ (mq_step_run a mq_take_free q r q1 k Eq E1)).
  destruct fs as [|s fs].
  - destruct H1 as [-> ->]. rewrite (proj2 (Z.eqb_eq _ _) (proj1 Hroom eq_refl)), put_mq_id by done. by do 2 eexists.
  - destruct H1 as (-> & Hs1 & Hm1).
    destruct (Z.eqb_spec (Z.of_nat (length l)) (mq_max_msgs q)) as [Hf|Hf]; [by apply Hroom in Hf|].
    destruct (shape_clear q1 qs fs [] s Hs1) as (q2 & E2 & Hs2 & Hm2 & En2 & Eb2 & Hz2).
    destruct (shape_fill q2 qs fs [] s buf Hs2) as (q3 & d & E3 & Hs3 & Hm3 & Ed3 & (old & Eo & Hd) & En3 & Hz3);
      [congruence|].
    destruct (shape_link_tail q3 qs fs [] s d Hs3) as (q4 & E4 & Hs4 & Hm4 & Hz4); [congruence|done|].
    rewrite (mq_step_next a _ _ q1 tt q2 k E2), (mq_step_next a _ _ q2 tt q3 k E3), (mq_step_next a _ _ q3 tt q4 k E4).
    destruct (sent_wake b bd idle a q q4 d (fun d => l ++ [d]) buf k) as (k' & Er & Hse).
    { done. }
    { exists (qs ++ [s]), fs. split; [done|]. rewrite Hm4. congruence. }
    { congruence. }
    { rewrite Hd. by rewrite take_app_length. }
    { destruct (ms_body _ _ _ _ Hs3 s) as (d' & Ed' & Hl); [set_solver|]. congruence. }
    by do 2 eexists.
Qed.

Lemma rt_mq_urgent_run b bd idle a q l buf k :
  core b bd idle k -> k_mqs k !! a = Some q -> mq_abs q l -> buf <> [] ->
  exists r k', rt_mq_urgent a buf k = Some (r, k') /\
    if mq_msg_size q <? Z.of_nat (length buf) then r = - RT_ERROR /\ k' = k
    else if Z.of_nat (length l) =? mq_max_msgs q then r = - RT_EFULL /\ k' = k
    else r = RT_EOK /\ sent b bd idle a q (fun d => d :: l) buf k k'.
Proof.
  intros Hc Eq (qs & fs & Hs & Hm) Hb. unfold rt_mq_urgent. rewrite (bind_run _ _ _ tt k) by (by destruct buf).
  rewrite (bind_run _ _ _ _ _ (get_mq_run _ _ _ Eq)).
  destruct (Z.ltb_spec (mq_msg_size q) (Z.of_nat (length buf))) as [Hbig|Hfit]; [by do 2 eexists|].
  destruct (shape_take_free q qs fs [] Hs) as (r & q1 & E1 & H1 & Hz1). pose proof (mq_abs_room q qs fs l Hs Hm) as Hroom.
  rewrite (bind_run _ _ _ _ _ (mq_step_run a mq_take_free q r q1 k Eq E1)).
  destruct fs as [|s fs].
  - destruct H1 as [-> ->]. rewrite (proj2 (Z.eqb_eq _ _) (proj1 Hroom eq_refl)), put_mq_id by done. by do 2 eexists.
  - destruct H1 as (-> & Hs1 & Hm1).
    destruct (Z.eqb_spec (Z.of_nat (length l)) (mq_max_msgs q)) as [Hf|Hf]; [by apply Hroom in Hf|].
    destruct (shape_fill q1 qs fs [] s buf Hs1) as (q3 & d & E3 & Hs3 & Hm3 & Ed3 & (old & Eo & Hd) & En3 & Hz3);
      [congruence|].
    destruct (shape_link_head q3 qs fs [] s d Hs3) as (q4 & E4 & Hs4 & Hm4 & Hz4); [done|].
    rewrite (mq_step_next a _ _ q1 tt q3 k E3), (mq_step_next a _ _ q3 tt q4 k E4).
    destruct (sent_wake b bd idle a q q4 d (fun d => d :: l) buf k) as (k' & Er & Hse).
    { done. }
    { exists (s :: qs), fs. split; [done|]. rewrite Hm4. congruence. }
    { congruence. }
    { rewrite Hd. by rewrite take_app_length. }
    { destruct (ms_body _ _ _ _ Hs3 s) as (d' & Ed' & Hl); [set_solver|]. congruence. }
    by do 2 eexists.
Qed.

Lemma mq_recv_finish_run a q d l size k :
  k_mqs k !! a = Some q -> mq_abs q (d :: l) ->
  exists q', mq_recv_finish a size k =
      Some ((RT_EOK, Some (take (Z.to_nat (Z.min size (mq_msg_size q))) d)), put_mq a q' k) /\ mq_abs q' l.
Proof.
  intros Eq (qs & fs & Hs & Hm). destruct qs as [|s qs]; [done|]. cbn in Hm. injection Hm as Hd Hl.
  destruct (shape_pop q s qs fs [] Hs) as (q1 & E1 & Hs1 & Eb1 & Hz1).
  destruct (ms_body _ _ _ _ Hs s) as (d' & Ed & _); [set_solver|]. rewrite Ed in Hd. cbn in Hd. subst d'.
  destruct (shape_release q1 qs fs [] s Hs1) as [Hs2 Hm2].
  exists (mq_release s q1). split.
  - unfold mq_recv_finish. rewrite (bind_run _ _ _ _ _ (mq_step_run a mq_pop q s q1 k Eq E1)).
    rewrite (mq_step_next a (mq_copy s size) _ q1 (take (Z.to_nat (Z.min size (mq_msg_size q))) d) q1 k).
    { by rewrite (mq_step_next a _ _ q1 tt (mq_release s q1) k). }
    unfold mq_copy. rewrite Eb1, Ed, Hz1. cbn. do 4 f_equal.
    destruct (Z.ltb_spec (mq_msg_size q) size); lia.
  - exists qs, (s :: fs). split; [done|]. rewrite Hm2. unfold messages in *. by rewrite Eb1.
Qed.

Lemma mq_recv_loop_run b bd idle a q l size timeout k t th n :
  core b bd idle k -> mqs_ok k -> k_mqs k !! a = Some q -> mq_abs q l ->
  k_current k = Some t -> is_ready k t th -> (l = [] -> k_int_nest k = 0) ->
  (l = [] -> timeout <> 0 -> may_block b bd idle k t timeout) ->
  exists r k', mq_recv_loop (S n) a size timeout k = Some (r, k') /\ core b bd idle k' /\ mqs_ok k' /\
    mq_only k k' /\ ipc_frame (grows r (Some (LSuspend (OMq a))) t) k k' /\
    match l with
    | [] =>
        k_mqs k' = k_mqs k /\
        if timeout =? 0 then r = Ret (- RT_ETIMEOUT, None)
        else r = Wait (FMqRecv a size timeout (k_tick k)) /\
          blocked b bd idle (LSuspend (OMq a)) t (set_th_error RT_EOK th) (mq_flag q) timeout k k'
    | d :: l' => r = Ret (RT_EOK, Some (take (Z.to_nat (Z.min size (mq_msg_size q))) d)) /\
        exists q', k' = put_mq a q' k /\ mq_abs q' l'
    end.
Proof.
  intros Hc Hok Eq Ha Ec Hr Hin Hb. pose proof Hr as [E Hs]. cbn [mq_recv_loop].
  rewrite (bind_run _ _ _ _ _ (get_mq_run _ _ _ Eq)). rewrite (mq_abs_entry q l Ha).
  destruct l as [|d l].
  - change (Z.of_nat (length []) =? 0) with true. cbv iota. specialize (Hin eq_refl). mstep_by (in_thread_context t k Ec Hin).
    mstep. rewrite Ec. do 2 mstep. destruct (Z.eqb_spec timeout 0) as [->|Ht].
    + mstep. rewrite put_th_put_th. eexists _, _. split; [done|].
      split; [by apply (set_error_core b bd idle k t th (- RT_ETIMEOUT))|]. split; [done|].
      split; [apply core_only_mq; by destruct k|]. split; [by apply (ipc_frame_put_th _ k t th)|done].
    + destruct (put_wait_block b bd idle (LSuspend (OMq a)) t th (set_th_error RT_EOK th) (mq_flag q) timeout k
        (FMqRecv a size timeout (k_tick k))
        (th ← get_thread t;
         if negb (th_error th =? RT_EOK) then mret (Ret (th_error th, None))
         else now ← kget k_tick; mq_recv_loop n a size (time_left timeout (k_tick k) now)))
        as (k' & Er & Hbl & If); try done.
      { destruct Ha as (qs & fs & Hsh & _). apply Hsh. }
      { by apply Hb. }
      { exact (wf_thread k (proj1 (c_inv (c_core0 Hc))) t th E). }
      exists (Wait (FMqRecv a size timeout (k_tick k))), k'. split; [mstep; exact Er|].
      assert (Emk : k_mqs k' = k_mqs k) by (rewrite (bl_only Hbl); done).
      split; [apply Hbl|]. split; [intros x mx; rewrite Emk; apply Hok|].
      split; [apply core_only_mq, Hbl|]. done.
  - destruct (Z.eqb_spec (Z.of_nat (length (d :: l))) 0) as [Hz|_]; [cbn in Hz; lia|].
    destruct (mq_recv_finish_run a q d l size k Eq Ha) as (q' & Er & Ha').
    eexists _, _. split; [by mstep_by Er|]. split; [by apply core_put_mq|].
    split; [by eapply mqs_ok_put|]. split; [eapply (mq_only_put k k); reflexivity|].
    split; [by apply ipc_frame_same|]. split; [done|]. by exists q'.
Qed.

(** C13. [rt_mq_send] refines the send of a bounded queue of messages: a message that is
    too long is refused, a full queue refuses every message, and otherwise the message is
    appended (its bytes first in a slot of the full size), the other messages keep their
    order, and the first waiting receiver becomes ready. *)
Theorem rt_mq_send_refines b bd idle a q l buf k :
  core b bd idle k -> k_mqs k !! a = Some q -> mq_abs q l -> buf <> [] ->
  exists r k', rt_mq_send a buf k = Some (r, k') /\
    if mq_msg_size q <? Z.of_nat (length buf) then r = - RT_ERROR /\ k' = k
    else if Z.of_nat (length l) =? mq_max_msgs q then r = - RT_EFULL /\ k' = k
    else r = RT_EOK /\ sent b bd idle a q (fun d => l ++ [d]) buf k k'.
Proof. apply rt_mq_send_run. Qed.

(** [rt_mq_urgent] does the same but puts the message in front of all others. *)
Theorem rt_mq_urgent_refines b bd idle a q l buf k :
  core b bd idle k -> k_mqs k !! a = Some q -> mq_abs q l -> buf <> [] ->
  exists r k', rt_mq_urgent a buf k = Some (r, k') /\
    if mq_msg_size q <? Z.of_nat (length buf) then r = - RT_ERROR /\ k' = k
    else if Z.of_nat (length l) =? mq_max_msgs q then r = - RT_EFULL /\ k' = k
    else r = RT_EOK /\ sent b bd idle a q (fun d => d :: l) buf k k'.
Proof. apply rt_mq_urgent_run. Qed.

(** C14. [rt_mq_recv] takes the first message out, copies as much of it as fits, and frees
    its slot; without a message it returns [-RT_ETIMEOUT] when no waiting is wanted and
    otherwise suspends the caller among the waiting receivers. *)
Theorem rt_mq_recv_refines idle a q l size timeout k t th :
  core (k_tick k) RT_TICK_HALF idle k -> mqs_ok k -> k_mqs k !! a = Some q -> mq_abs q l ->
  k_current k = Some t -> is_ready k t th -> size <> 0 -> (l = [] -> k_int_nest k = 0) ->
  (l = [] -> timeout <> 0 -> may_block (k_tick k) RT_TICK_HALF idle k t timeout) ->
  exists r k', rt_mq_recv a size timeout k = Some (r, k') /\
    core (k_tick k') RT_TICK_HALF idle k' /\ mqs_ok k' /\
    match l with
    | [] =>
        k_mqs k' = k_mqs k /\
        if timeout =? 0 then r = Ret (- RT_ETIMEOUT, None) /\ k' = k
        else r = Wait (FMqRecv a size timeout (k_tick k)) /\
          blocked (k_tick k) RT_TICK_HALF idle (LSuspend (OMq a)) t (set_th_error RT_EOK th)
            (mq_flag q) timeout k k'
    | d :: l' => r = Ret (RT_EOK, Some (take (Z.to_nat (Z.min size (mq_msg_size q))) d)) /\
        exists q', k' = put_mq a q' k /\ mq_abs q' l'
    end.
Proof.
  intros Hc Hok Eq Ha Ec Hr Hsz Hin Hb. unfold rt_mq_recv.
  rewrite (bind_run _ _ _ tt k) by (by destruct (Z.eqb_spec size 0)).
  rewrite (bind_run _ _ _ _ _ (get_mq_run _ _ _ Eq)), (mq_abs_entry q l Ha).
  destruct (mq_recv_loop_run _ _ idle a q l size timeout k t th 1 Hc Hok Eq Ha Ec Hr Hin Hb)
    as (r & k' & Er & Hc' & Hok' & Hon & _ & Hcase).
  assert (Htk : k_tick k' = k_tick k) by (unfold mq_only in Hon; by rewrite Hon).
  destruct l as [|d l].
  - change (Z.of_nat (length []) =? 0) with true. cbn [andb]. destruct (Z.eqb_spec timeout 0) as [->|Ht]; [by exists (Ret (- RT_ETIMEOUT, None)), k|].
    exists r, k'. by rewrite Htk.
  - destruct (Z.eqb_spec (Z.of_nat (length (d :: l))) 0) as [Hz|_]; [cbn in Hz; lia|].
    exists r, k'. by rewrite Htk.
Qed.

(** ** Initialisation and reset *)

Lemma slot_addr_inj pool size i j : 0 <= size -> slot_addr pool size i = slot_addr pool size j -> i = j.
Proof. unfold slot_addr. intros. nia. Qed.

(** After the slots [0], ..., [i - 1] the free list holds them, the last one first. *)
Lemma mq_init_slots_chain pool n : forall i q,
  0 <= i -> 0 <= mq_msg_size q -> chain (mq_next q) (mq_free q) (slot_addr pool (mq_msg_size q) <$> reverse (seqZ 0 i)) ->
  let q' := mq_init_slots pool i n q in
  chain (mq_next q') (mq_free q') (slot_addr pool (mq_msg_size q) <$> reverse (seqZ 0 (i + Z.of_nat n))) /\
  q' = set_mq_free (mq_free q') (set_mq_next (mq_next q') q).
Proof.
  induction n as [|n IH]; intros i q Hi Hz Hc; cbn [mq_init_slots].
  - rewrite Z.add_0_r. split; [done|]. by destruct q.
  - set (s := slot_addr pool (mq_msg_size q) i).
    destruct (IH (i + 1) (mq_release s q)) as [H1 H2]; [lia|done| |].
    + change (mq_msg_size (mq_release s q)) with (mq_msg_size q).
      rewrite seqZ_app by lia. change (seqZ (0 + i) 1) with [0 + i]. rewrite reverse_app. cbn.
      split; [done|]. exists (mq_free q). rewrite lookup_insert_eq. split; [done|].
      apply chain_insert; [|done]. intros Hin. apply list_elem_of_fmap in Hin as (j & Ej & Hj).
      rewrite elem_of_reverse, elem_of_seqZ in Hj. apply slot_addr_inj in Ej; lia.
    + change (mq_msg_size (mq_release s q)) with (mq_msg_size q) in *.
      replace (i + 1 + Z.of_nat n) with (i + Z.of_nat (S n)) in H1 by lia. split; [exact H1|].
      rewrite H2. done.
Qed.

Lemma chain_links nx h l s : chain nx h l -> s ∈ l -> is_Some (nx !! s).
Proof.
  revert h. induction l as [|x l IH]; intros h; [set_solver|]. intros [-> (n & E & Hc)] Hin.
  apply elem_of_cons in Hin as [->|Hin]; [eauto|by eapply IH].
Qed.

(** The slots of a new pool are all free. *)
Lemma mq_init_slots_abs pool q0 :
  0 <= mq_msg_size q0 -> 0 <= mq_max_msgs q0 < 65536 -> mq_next q0 = ∅ -> mq_free q0 = None ->
  mq_head q0 = None -> mq_tail q0 = None -> mq_entry q0 = 0 -> ipc_flag (mq_flag q0) ->
  (forall i, 0 <= i < mq_max_msgs q0 -> exists d, mq_body q0 !! slot_addr pool (mq_msg_size q0) i = Some d /\
     Z.of_nat (length d) = mq_msg_size q0) ->
  let q := mq_init_slots pool 0 (Z.to_nat (mq_max_msgs q0)) q0 in
  mq_abs q [] /\ q = set_mq_free (mq_free q) (set_mq_next (mq_next q) q0).
Proof.
  intros Hsz Hmx Hnx Hfr Hh Ht He Hf Hraw q.
  destruct (mq_init_slots_chain pool (Z.to_nat (mq_max_msgs q0)) 0 q0) as [H1 H2]; [lia|done|by rewrite Hfr|].
  fold q in H1, H2. split; [|done]. rewrite Z.add_0_l, Z2Nat.id in H1 by lia.
  set (mx := mq_max_msgs q0) in *. set (sz := mq_msg_size q0) in *.
  set (fs := slot_addr pool sz <$> reverse (seqZ 0 mx)) in H1.
  assert (Hfs : forall s, s ∈ fs -> exists i, 0 <= i < mx /\ s = slot_addr pool sz i).
  { intros s Hs. apply list_elem_of_fmap in Hs as (i & -> & Hi). rewrite elem_of_reverse, elem_of_seqZ in Hi.
    exists i. split; [lia|done]. }
  assert (Hfld : mq_head q = None /\ mq_tail q = None /\ mq_entry q = 0 /\ mq_max_msgs q = mx /\
    mq_body q = mq_body q0 /\ mq_msg_size q = sz /\ mq_flag q = mq_flag q0) by (rewrite H2; done).
  destruct Hfld as (F1 & F2 & F3 & F4 & F5 & F6 & F7).
  exists [], fs. split; [|done].
  split; cbn [app list.last length]; rewrite ?app_nil_r, ?F1, ?F2, ?F3, ?F4, ?F5, ?F6, ?F7; try done.
  - unfold fs. apply NoDup_fmap_2_strong; [|rewrite reverse_Permutation; apply NoDup_seqZ].
    intros x y _ _. by apply slot_addr_inj.
  - unfold fs. rewrite length_fmap, length_reverse, length_seqZ. lia.
  - intros s Hs. by eapply chain_links.
  - intros s Hs. destruct (Hfs s Hs) as (i & Hi & ->). by apply Hraw.
Qed.

(** [rt_mq_init] makes an empty message queue: the message size is rounded up to a
    multiple of 4, and all the slots that fit in the pool are free. *)
Theorem rt_mq_init_empty a name pool msg_size pool_size flag raw k :
  valid_name name -> registered (OMq a) k = false ->
  0 <= msg_size < 65533 -> 0 <= pool_size < 4294967296 -> ipc_flag (u8 flag) ->
  pool_size / (4 * ((msg_size + 3) / 4) + 4) < 65536 ->
  (forall i, 0 <= i < pool_size / (4 * ((msg_size + 3) / 4) + 4) ->
     exists d, raw !! slot_addr pool (4 * ((msg_size + 3) / 4)) i = Some d /\
       Z.of_nat (length d) = 4 * ((msg_size + 3) / 4)) ->
  exists k' q, rt_mq_init a name pool msg_size pool_size flag raw k = Some (RT_EOK, k') /\
    k_mqs k' !! a = Some q /\ mq_abs q [] /\
    mq_msg_size q = 4 * ((msg_size + 3) / 4) /\
    mq_max_msgs q = pool_size / (4 * ((msg_size + 3) / 4) + 4).
Proof.
  intros Hnm Hrg Hm Hp Hf Hmax Hraw. unfold rt_mq_init, rt_ipc_object_init, list_head_init, kmod.
  mstep_by (rt_object_init_run (OMq a) name k Hnm Hrg). cbv zeta. assert (Hal : u16 (RT_ALIGN (u32 msg_size) 4) = 4 * ((msg_size + 3) / 4)).
  { rewrite (u32_id msg_size) by lia. rewrite RT_ALIGN_4 by lia. mlia. }
  rewrite Hal. set (sz := 4 * ((msg_size + 3) / 4)) in *. assert (Hsz : 0 <= sz) by (unfold sz; mlia).
  rewrite (u32_id pool_size) by lia.
  assert (Hq : 0 <= pool_size / (sz + 4)) by (apply Z.div_pos; lia). rewrite (u16_id (pool_size / (sz + 4))) by lia.
  set (mx := pool_size / (sz + 4)) in *. set (q0 := MsgQueue (u8 flag) pool sz mx 0 ∅ raw None None None).
  destruct (mq_init_slots_abs pool q0) as [H1 H2]; try done.
  eexists _, _. split; [done|]. split; [cbn; apply lookup_insert_eq|]. split; [exact H1|].
  change (mq_max_msgs q0) with mx in H2. by rewrite H2.
Qed.
