(* ===== verification/System.v ===== *)
(** * The running system

    The components put together: the threads of a system call the kernel, are suspended
    inside a call and go on with it when they run again; the tick interrupt and the
    handlers of other interrupts come in between.  A state is the kernel with, for every
    thread that is inside a call, the place where it waits.  The theorems of the
    components are combined into one invariant of all reachable states, and into the
    totality of every step: no assertion of the kernel fails and nothing is dereferenced
    that does not exist, whatever the threads and interrupts do in whatever order, as
    long as each call is one its documentation allows. *)
From S2P Require Import Prelude KService Kernel Object Scheduler Timer Thread Frame Clock Ipc.
From S2P Require Import Sem MutexLock EventSet Mailbox MsgQueue.

(** ** Calls *)

(** The calls a thread or an interrupt handler makes. *)
Inductive call :=
  | CYield
  | CSleep (tick : Z)
  | CSemTake (a time : Z)
  | CSemRelease (a : Z)
  | CSemReset (a value : Z)
  | CMutexTake (a time : Z)
  | CMutexRelease (a : Z)
  | CEventSend (a set : Z)
  | CEventRecv (a set opt timeout : Z)
  | CMbSend (a value timeout : Z)
  | CMbRecv (a timeout : Z)
  | CMqSend (a : Z) (buf : list Z)
  | CMqUrgent (a : Z) (buf : list Z)
  | CMqRecv (a size timeout : Z).

(** What a call returns: its code, with the event set, the mail or the message. *)
Inductive rval :=
  | VCode (r : Z)
  | VWord (r : Z * option Z)
  | VMsg (r : Z * option (list Z)).

(** The result of a call that may wait, seen as an [rval]. *)
Definition wait_map {A B} (f : A -> B) (r : wait A) : wait B :=
  match r with Ret x => Ret (f x) | Wait fr => Wait fr end.
Definition returns {A} (f : A -> rval) (m : M A) : M (wait rval) := r ← m; mret (Ret (f r)).
Definition may_wait {A} (f : A -> rval) (m : M (wait A)) : M (wait rval) := r ← m; mret (wait_map f r).

Definition exec_call (c : call) : M (wait rval) :=
  match c with
  | CYield => returns VCode rt_thread_yield
  | CSleep tick => may_wait VCode (rt_thread_sleep tick)
  | CSemTake a time => may_wait VCode (rt_sem_take a time)
  | CSemRelease a => returns VCode (rt_sem_release a)
  | CSemReset a value => returns VCode (rt_sem_control a RT_IPC_CMD_RESET value)
  | CMutexTake a time => may_wait VCode (rt_mutex_take a time)
  | CMutexRelease a => returns VCode (rt_mutex_release a)
  | CEventSend a set => returns VCode (rt_event_send a set)
  | CEventRecv a set opt timeout => may_wait VWord (rt_event_recv a set opt timeout)
  | CMbSend a value timeout => may_wait VCode (rt_mb_send_wait a value timeout)
  | CMbRecv a timeout => may_wait VWord (rt_mb_recv a timeout)
  | CMqSend a buf => returns VCode (rt_mq_send a buf)
  | CMqUrgent a buf => returns VCode (rt_mq_urgent a buf)
  | CMqRecv a size timeout => may_wait VMsg (rt_mq_recv a size timeout)
  end.

(** The rest of the call the thread [t] was suspended in.  No call of the system waits for a
    memory block, a completion or a data queue. *)
Definition resume_call (t : Z) (f : frame) : M (wait rval) :=
  match f with
  | FSleep => returns VCode (rt_thread_sleep_resume t)
  | FSemTake => returns VCode (rt_sem_take_resume t)
  | FMutexTake => returns VCode (rt_mutex_take_resume t)
  | FEventRecv => returns VWord (rt_event_recv_resume t)
  | FMbSend a value timeout start => may_wait VCode (rt_mb_send_resume t a value timeout start)
  | FMbRecv a timeout start => may_wait VWord (rt_mb_recv_resume t a timeout start)
  | FMqRecv a size timeout start => may_wait VMsg (rt_mq_recv_resume t a size timeout start)
  | FMpAlloc _ | FCompletion _ | FDqPush _ _ _ _ | FDqPop _ _ | FDqPopped _ _ _ | FPipeRead _ _ | FPipeWrite _ _ _ => stuck
  end.

(** The calls of an interrupt handler, one after the other; it cannot wait. *)
Fixpoint run_calls (cs : list call) : M unit :=
  match cs with
  | [] => mret tt
  | c :: cs' => r ← exec_call c; match r with Ret _ => run_calls cs' | Wait _ => stuck end
  end.
Definition irq_handler (cs : list call) : M unit :=
  rt_interrupt_enter;; run_calls cs;; rt_interrupt_leave.

(** ** Steps *)

(** The kernel, and the calls the threads are inside of. *)
Record sys := Sys { s_k : kstate; s_frames : gmap Z frame }.

Inductive event :=
  | EvCall (c : call)          (* the current thread makes a call *)
  | EvResume                   (* the current thread goes on with its call *)
  | EvTick                     (* the tick interrupt *)
  | EvIrq (cs : list call).    (* another interrupt *)

(** The frames after a piece of a call of the thread [t]. *)
Definition set_frame (t : Z) (r : wait rval) (fs : gmap Z frame) : gmap Z frame :=
  match r with Ret _ => delete t fs | Wait f => <[t := f]> fs end.

Section Steps.
Context (user_cb : Z -> Z -> M unit).

(** The step of an event: the thread that is current when the call is made is the one that
    makes it.  A thread inside a call makes no other, and one that is not has none to go on
    with. *)
Definition sys_step (e : event) (s : sys) : option sys :=
  match e with
  | EvCall c =>
      t ← k_current (s_k s);
      match s_frames s !! t with
      | Some _ => None
      | None => p ← exec_call c (s_k s); Some (Sys p.2 (set_frame t p.1 (s_frames s)))
      end
  | EvResume =>
      t ← k_current (s_k s);
      f ← s_frames s !! t;
      p ← resume_call t f (s_k s);
      Some (Sys p.2 (set_frame t p.1 (s_frames s)))
  | EvTick => p ← SysTick_Handler user_cb (s_k s); Some (Sys p.2 (s_frames s))
  | EvIrq cs => p ← irq_handler cs (s_k s); Some (Sys p.2 (s_frames s))
  end.

End Steps.

(** ** What a caller has to respect *)

Section Rules.
Context (idle : Z).

(** A wait that the thread [t] may ask for: the idle thread never waits, and a time is less
    than half of the tick range. *)
Definition time_ok (t time : Z) : Prop := time = 0 \/ (t <> idle /\ time < RT_TICK_HALF).

Definition call_allowed (k : kstate) (t : Z) (c : call) : Prop :=
  match c with
  | CYield => True
  | CSleep tick => t <> idle /\ 0 <= tick < RT_TICK_HALF
  | CSemTake a time => is_Some (k_sems k !! a) /\ time_ok t time
  | CSemRelease a | CSemReset a _ => is_Some (k_sems k !! a)
  | CMutexTake a time => time_ok t time /\
      exists m, k_mutexes k !! a = Some m /\ (mx_owner m = Some t -> mx_hold m < 255)
  | CMutexRelease a => is_Some (k_mutexes k !! a)
  | CEventSend a set => is_Some (k_events k !! a) /\ 0 < set < 4294967296
  | CEventRecv a set opt timeout => is_Some (k_events k !! a) /\ time_ok t timeout /\ set <> 0 /\
      (has_flag opt RT_EVENT_FLAG_AND || has_flag opt RT_EVENT_FLAG_OR = true)
  | CMbSend a _ timeout | CMbRecv a timeout => is_Some (k_mbs k !! a) /\ time_ok t timeout
  | CMqSend a buf | CMqUrgent a buf => is_Some (k_mqs k !! a) /\ buf <> []
  | CMqRecv a size timeout => is_Some (k_mqs k !! a) /\ size <> 0 /\ time_ok t timeout
  end.

(** The calls of an interrupt handler: none that waits or that needs a thread. *)
Definition irq_allowed (k : kstate) (c : call) : Prop :=
  match c with
  | CSemTake a time => is_Some (k_sems k !! a) /\ time = 0
  | CSemRelease a | CSemReset a _ => is_Some (k_sems k !! a)
  | CEventSend a set => is_Some (k_events k !! a) /\ 0 < set < 4294967296
  | CMbSend a _ timeout | CMbRecv a timeout => is_Some (k_mbs k !! a) /\ timeout = 0
  | CMqSend a buf | CMqUrgent a buf => is_Some (k_mqs k !! a) /\ buf <> []
  | CMqRecv a size timeout => is_Some (k_mqs k !! a) /\ size <> 0 /\ timeout = 0
  | _ => False
  end.

(** A thread that waits with a time must not be kept from running for half of the tick
    range: the time left is computed in 32 bits. *)
Definition frame_fresh (k : kstate) (f : frame) : Prop :=
  match f with
  | FMbSend _ _ timeout start | FMbRecv _ timeout start | FMqRecv _ _ timeout start =>
      0 < timeout -> u32 (k_tick k - start) <= RT_TICK_HALF
  | _ => True
  end.

Definition allowed (e : event) (s : sys) : Prop :=
  match e with
  | EvCall c => exists t, k_current (s_k s) = Some t /\ s_frames s !! t = None /\ call_allowed (s_k s) t c
  | EvResume => exists t f, k_current (s_k s) = Some t /\ s_frames s !! t = Some f /\ frame_fresh (s_k s) f
  | EvTick => True
  | EvIrq cs => Forall (irq_allowed (s_k s)) cs
  end.

(** ** The invariant *)

(** The kernel between two steps: the invariant of every component, the scheduler not
    locked and [n] interrupts in service. *)
Record kernel_ok (n : Z) (k : kstate) : Prop := {
  ko_core : core (k_tick k) RT_TICK_HALF idle k;
  ko_sems : sems_ok k;
  ko_mutexes : mutexes_ok k;
  ko_events : events_ok k;
  ko_mbs : mbs_ok k;
  ko_mqs : mqs_ok k;
  ko_lock : k_lock_nest k = 0;
  ko_int : k_int_nest k = n
}.

(** The objects of [k] are still there. *)
Record has (k k' : kstate) : Prop := {
  ha_sems : forall a, is_Some (k_sems k !! a) -> is_Some (k_sems k' !! a);
  ha_events : forall a, is_Some (k_events k !! a) -> is_Some (k_events k' !! a);
  ha_mbs : forall a, is_Some (k_mbs k !! a) -> is_Some (k_mbs k' !! a);
  ha_mqs : forall a, is_Some (k_mqs k !! a) -> is_Some (k_mqs k' !! a)
}.

(** Where a thread waits that is in the call [f]. *)
Definition waits_in (f : frame) (o : option lhead) : Prop :=
  match f with
  | FSleep => o = None
  | FSemTake => exists a, o = Some (LSuspend (OSem a))
  | FMutexTake => exists a, o = Some (LSuspend (OMutex a))
  | FEventRecv => exists a, o = Some (LSuspend (OEvent a))
  | FMbSend a _ _ _ => o = Some (LSender (OMb a))
  | FMbRecv a _ _ => o = Some (LSuspend (OMb a))
  | FMqRecv a _ _ _ => o = Some (LSuspend (OMq a))
  | FMpAlloc _ | FCompletion _ | FDqPush _ _ _ _ | FDqPop _ _ | FDqPopped _ _ _ | FPipeRead _ _ | FPipeWrite _ _ _ => False
  end.

(** A call that can be gone on with. *)
Definition frame_ok (k : kstate) (t : Z) (f : frame) : Prop :=
  t <> idle /\
  match f with
  | FMbSend a _ timeout _ | FMbRecv a timeout _ => is_Some (k_mbs k !! a) /\ timeout < RT_TICK_HALF
  | FMqRecv a _ timeout _ => is_Some (k_mqs k !! a) /\ timeout < RT_TICK_HALF
  | FMpAlloc _ | FCompletion _ | FDqPush _ _ _ _ | FDqPop _ _ | FDqPopped _ _ _ | FPipeRead _ _ | FPipeWrite _ _ _ => False
  | _ => True
  end.

Record sys_inv (s : sys) : Prop := {
  si_ok : kernel_ok 0 (s_k s);
  si_frames : forall t f, s_frames s !! t = Some f -> frame_ok (s_k s) t f;
  (** a thread that waits is inside a call *)
  si_susp : forall t, suspended (s_k s) t -> is_Some (s_frames s !! t);
  (** and a thread in a list is in a call that waits in that list *)
  si_lists : forall h t, wait_list h -> t ∈ queue (s_k s) h ->
    exists f, s_frames s !! t = Some f /\ waits_in f (Some h)
}.

(** What a call of the thread [t] with the result [r] does. *)
Record served {A} (n t : Z) (r : wait A) (k k' : kstate) : Prop := {
  sv_ok : kernel_ok n k';
  sv_has : has k k';
  sv_frame : exists o, ipc_frame (grows r o t) k k' /\
    match r with Wait f => n = 0 /\ waits_in f o /\ frame_ok k' t f | Ret _ => True end
}.

End Rules.

(** The states the system can get to. *)
Inductive reachable (user_cb : Z -> Z -> M unit) (idle : Z) (s0 : sys) : sys -> Prop :=
  | reach_init : reachable user_cb idle s0 s0
  | reach_step s e s' : reachable user_cb idle s0 s -> allowed idle e s ->
      sys_step user_cb e s = Some s' -> reachable user_cb idle s0 s'.

(** What a timeout function of the application has to respect. *)
Record cb_serves (user_cb : Z -> Z -> M unit) : Prop := {
  cs_ok : cb_ok user_cb;
  cs_frame : forall b bd idle f p k k', core b bd idle k -> user_cb f p k = Some (tt, k') ->
    ipc_frame no_growth k k' /\ has k k' /\ k_lock_nest k' = k_lock_nest k;
  cs_sems : cb_keeps user_cb sems_ok;
  cs_mutexes : cb_keeps user_cb mutexes_ok;
  cs_events : cb_keeps user_cb events_ok;
  cs_mbs : cb_keeps user_cb mbs_ok;
  cs_mqs : cb_keeps user_cb mqs_ok
}.

(** ** The components together *)

#[export] Instance has_refl : Reflexive has.
Proof. by intros k. Qed.
#[export] Instance has_trans : Transitive has.
Proof. intros k k1 k2 [A1 B1 C1 D1] [A2 B2 C2 D2]. split; auto. Qed.

(** A map that differs from another at most by an insertion. *)
Lemma is_Some_insert {V} (m m' : gmap Z V) a v :
  m' = m \/ m' = <[a := v]> m -> forall x, is_Some (m !! x) -> is_Some (m' !! x).
Proof. intros [->| ->] x Hx; [done|]. rewrite lookup_insert_is_Some. destruct (decide (a = x)); auto. Qed.

Section Serve.
Context (idle : Z).
#[local] Abbreviation kernel_ok := (kernel_ok idle).
#[local] Abbreviation served := (served idle).

(** A component's invariant is kept: it is shown by the operation, or the operation does
    not touch the component. *)
Definition kept {A} (mine : lhead -> Prop) (store : kstate -> A) (ok : kstate -> Prop)
    (g : growth) (k k' : kstate) : Prop :=
  ok k' \/ ((forall h t, mine h -> ~ g (Some h) t) /\ store k' = store k).

Lemma kept_ok {A} mine (store : kstate -> A) ok `{!WaitObject mine store ok} g k k' :
  ok k -> ipc_frame g k k' -> kept mine store ok g k k' -> ok k'.
Proof. intros Hok If [|[Hg Hs]]; [done|]. by eapply wait_object_frame. Qed.

Lemma kernel_ok_step n g k k' :
  kernel_ok n k -> core (k_tick k) RT_TICK_HALF idle k' -> ipc_frame g k k' ->
  k_tick k' = k_tick k -> k_lock_nest k' = k_lock_nest k -> k_int_nest k' = k_int_nest k ->
  kept sem_list k_sems sems_ok g k k' -> kept mutex_list k_mutexes mutexes_ok g k k' ->
  kept event_list k_events events_ok g k k' -> kept (fun _ => False) k_mbs mbs_ok g k k' ->
  kept (fun _ => False) k_mqs mqs_ok g k k' -> kernel_ok n k'.
Proof.
  intros [Hc H1 H2 H3 H4 H5 H6 H7] Hc' If Et El Ei K1 K2 K3 K4 K5.
  split; [by rewrite Et|..|by rewrite El|by rewrite Ei];
    [exact (kept_ok _ _ _ g k k' H1 If K1)|exact (kept_ok _ _ _ g k k' H2 If K2)
    |exact (kept_ok _ _ _ g k k' H3 If K3)|exact (kept_ok _ _ _ g k k' H4 If K4)
    |exact (kept_ok _ _ _ g k k' H5 If K5)].
Qed.

(** The operations of one component: the others are not touched, and no list of theirs
    gets a thread. *)
Ltac untouched Hg F :=
  right; split; [intros h t Hmine Hj; apply Hg in Hj; (done || (destruct Hmine as [? ->]; destruct Hj; naive_solver))
                |by rewrite F].
Ltac one_component F Hg :=
  lazymatch goal with Hk : kernel_ok _ _, If : ipc_frame _ _ _ |- _ =>
    split; [eapply kernel_ok_step;
             [exact Hk|assumption|exact If|by rewrite F|by rewrite F|by rewrite F|first [by left|untouched Hg F]..]
           |split; intros a'; first [assumption|by rewrite F|idtac]] end.

Lemma sem_step n g k k' a s' :
  kernel_ok n k -> core (k_tick k) RT_TICK_HALF idle k' -> sems_ok k' -> sem_only k k' ->
  ipc_frame g k k' -> (forall h t, g (Some h) t -> sem_list h) ->
  (k_sems k' = k_sems k \/ k_sems k' = <[a := s']> (k_sems k)) -> kernel_ok n k' /\ has k k'.
Proof. intros Hk Hc Hok F If Hg E. one_component F Hg. by eapply is_Some_insert. Qed.

Lemma mutex_step n g k k' :
  kernel_ok n k -> core (k_tick k) RT_TICK_HALF idle k' -> mutexes_ok k' -> mutex_only k k' ->
  ipc_frame g k k' -> (forall h t, g (Some h) t -> mutex_list h) -> kernel_ok n k' /\ has k k'.
Proof. intros Hk Hc Hok F If Hg. one_component F Hg. Qed.

Lemma event_step n g k k' a e' :
  kernel_ok n k -> core (k_tick k) RT_TICK_HALF idle k' -> events_ok k' -> event_only k k' ->
  ipc_frame g k k' -> (forall h t, g (Some h) t -> event_list h) ->
  (k_events k' = k_events k \/ k_events k' = <[a := e']> (k_events k)) -> kernel_ok n k' /\ has k k'.
Proof. intros Hk Hc Hok F If Hg E. one_component F Hg. by eapply is_Some_insert. Qed.

(** The lists of mailboxes and message queues. *)
Definition mail_list (h : lhead) : Prop :=
  exists a, h = LSender (OMb a) \/ h = LSuspend (OMb a) \/ h = LSuspend (OMq a).

Lemma mb_step n g k k' a m' :
  kernel_ok n k -> core (k_tick k) RT_TICK_HALF idle k' -> mbs_ok k' -> mb_only k k' ->
  ipc_frame g k k' -> (forall h t, g (Some h) t -> mail_list h) ->
  (k_mbs k' = k_mbs k \/ k_mbs k' = <[a := m']> (k_mbs k)) -> kernel_ok n k' /\ has k k'.
Proof. intros Hk Hc Hok F If Hg E. one_component F Hg. by eapply is_Some_insert. Qed.

Lemma mq_step_ok n g k k' a q' :
  kernel_ok n k -> core (k_tick k) RT_TICK_HALF idle k' -> mqs_ok k' -> mq_only k k' ->
  ipc_frame g k k' -> (forall h t, g (Some h) t -> mail_list h) ->
  (k_mqs k' = k_mqs k \/ k_mqs k' = <[a := q']> (k_mqs k)) -> kernel_ok n k' /\ has k k'.
Proof. intros Hk Hc Hok F If Hg E. one_component F Hg. by eapply is_Some_insert. Qed.

(** An operation on threads only. *)
Lemma core_step n g k k' :
  kernel_ok n k -> core (k_tick k) RT_TICK_HALF idle k' -> core_only k k' ->
  ipc_frame g k k' -> (forall h t, ~ g (Some h) t) -> kernel_ok n k' /\ has k k'.
Proof. intros Hk Hc F If Hg. one_component F Hg. Qed.

(** ** The calls *)

(** A wait that may be asked for with [n] interrupts in service. *)
Definition wait_ok (n t time : Z) : Prop := time = 0 \/ (n = 0 /\ t <> idle /\ time < RT_TICK_HALF).

Lemma wait_ok_block n k t time :
  kernel_ok n k -> wait_ok n t time -> time <> 0 -> may_block (k_tick k) RT_TICK_HALF idle k t time.
Proof.
  intros Hk [->|(-> & Hi & Ht)] Hnz; [done|]. split; [done|]. split; [apply Hk|]. split; [apply Hk|]. split; [done|].
  intros Hp. apply startable_time; [done| |lia]. apply (tw_tick _ _ _ (proj2 (c_inv (c_core0 (ko_core _ _ _ Hk))))).
Qed.

Lemma wait_ok_idle n t time : wait_ok n t time -> time <> 0 -> t <> idle.
Proof. intros [->|(_ & Hi & _)] Hnz; done. Qed.
Lemma wait_ok_thread n t time : wait_ok n t time -> time <> 0 -> n = 0.
Proof. intros [->|(Hn & _ & _)] Hnz; done. Qed.
Lemma wait_ok_lt n t time : wait_ok n t time -> time < RT_TICK_HALF.
Proof. intros [->|(_ & _ & Hi)]; [done|done]. Qed.

(** A call that returns. *)
Lemma served_ret {A} n t (x : A) k k' :
  kernel_ok n k' /\ has k k' -> ipc_frame no_growth k k' -> served n t (Ret x) k k'.
Proof. intros [Hk Hh] If. split; [done|done|]. by exists None. Qed.

(** A call that may wait, in the list [h]. *)
Lemma served_wait {A} n t (r : wait A) h k k' :
  kernel_ok n k' /\ has k k' -> ipc_frame (grows r (Some h) t) k k' ->
  (forall f, r = Wait f -> n = 0 /\ waits_in f (Some h) /\ frame_ok idle k' t f) -> served n t r k k'.
Proof.
  intros [Hk Hh] If Hf. split; [done|done|]. exists (Some h). split; [done|]. destruct r; [done|by apply Hf].
Qed.

Lemma no_growth_in {P : lhead -> Prop} h t : no_growth (Some h) t -> P h.
Proof. intros []. Qed.
Lemma grows_in {A} (r : wait A) h t h' t' (P : lhead -> Prop) : P h -> grows r (Some h) t (Some h') t' -> P h'.
Proof. intros HP. destruct r; [intros []|]. by intros [[= ->] _]. Qed.

Lemma returns_run {A} (f : A -> rval) m x k k' : m k = Some (x, k') -> returns f m k = Some (Ret (f x), k').
Proof. intros E. unfold returns. by mstep_by E. Qed.
Lemma may_wait_run {A} (f : A -> rval) m r k k' :
  m k = Some (r, k') -> may_wait f m k = Some (wait_map f r, k').
Proof. intros E. unfold may_wait. by mstep_by E. Qed.
Lemma served_map {A B} (f : A -> B) n t r k k' : served n t r k k' -> served n t (wait_map f r) k k'.
Proof. intros [H1 H2 H3]. split; [done|done|]. by destruct r. Qed.

(** The current thread of a kernel that is in order. *)
Lemma kernel_current n k : kernel_ok n k -> exists t th, k_current k = Some t /\ is_ready k t th.
Proof. intros Hk. apply (c_cur (ko_core _ _ _ Hk)). Qed.

Section Calls.
Context (n : Z) (k : kstate) (t : Z) (th : rt_thread).
Context (Hk : kernel_ok n k) (Ec : k_current k = Some t) (Hr : is_ready k t th).

Lemma serve_yield : exists r k', rt_thread_yield k = Some (r, k') /\ served n t (Ret r) k k'.
Proof.
  destruct (rt_thread_yield_core _ _ _ k t th (ko_core _ _ _ Hk) Ec Hr) as (k' & Er & Hc & F & Et & _ & _ & Eq & _).
  exists RT_EOK, k'. split; [done|]. assert (If : ipc_frame no_growth k k').
  { apply ipc_frame_lists; [done|]. intros h Hh. rewrite Eq, decide_False; [done|]. by apply wait_list_not_ready. }
  apply served_ret; [|done]. eapply core_step; [done..|by intros h x []].
Qed.

Lemma serve_sleep tick :
  n = 0 -> t <> idle -> 0 <= tick < RT_TICK_HALF ->
  exists r k', rt_thread_sleep tick k = Some (r, k') /\ served n t r k k'.
Proof.
  intros Hn Hi Ht. destruct (rt_thread_sleep_run idle k t th tick (ko_core _ _ _ Hk) Ec Hr Hi (ko_lock _ _ _ Hk) Ht)
    as (k' & u & tm & Er & Hc & _ & _ & E' & _ & _ & _ & _ & _ & Etk & F & Et & Eq).
  exists (Wait FSleep), k'. split; [done|]. rewrite Etk in Hc.
  assert (If : ipc_frame (joins None t) k k').
  { destruct Hr as [E Hs]. apply ipc_frame_thread with t th (set_th_stat RT_THREAD_SUSPEND th); try done; [by left| |].
    - right. by exists None.
    - intros h x _. rewrite Eq, list_elem_of_filter. tauto. }
  destruct (core_step n _ k k' Hk Hc F If) as [Hk' Hh]; [by intros h x [[=] _]|].
  split; [done|done|]. exists None. done.
Qed.

Lemma serve_sem_take a time :
  is_Some (k_sems k !! a) -> wait_ok n t time ->
  exists r k', rt_sem_take a time k = Some (r, k') /\ served n t r k k'.
Proof.
  intros [s Es] Hw.
  destruct (rt_sem_take_inv _ _ idle a s time k t th (ko_core _ _ _ Hk) (ko_sems _ _ _ Hk) Ec Hr Es)
    as (r & k' & Er & Hc & Hok & If & F & [s' Es'] & Hf); [intros _; by apply wait_ok_block with n|].
  exists r, k'. split; [done|]. eapply served_wait; [|exact If|].
  - eapply sem_step; [done..|exact If| |by right]. intros h x. apply grows_in. by exists a.
  - intros f ->. destruct (Hf f eq_refl) as [-> Hnz]. split; [by eapply wait_ok_thread|].
    split; [by exists a|]. split; [by eapply wait_ok_idle|done].
Qed.

Lemma serve_sem_release a :
  is_Some (k_sems k !! a) -> exists r k', rt_sem_release a k = Some (r, k') /\ served n t (Ret r) k k'.
Proof.
  intros [s Es]. destruct (rt_sem_release_run _ _ idle a s k (ko_core _ _ _ Hk) (ko_sems _ _ _ Hk) Es)
    as (k' & c & c' & o & Er & Hc & Hok & _ & _ & _ & _ & If & F & s' & Es').
  exists RT_EOK, k'. split; [done|]. apply served_ret; [|done].
  eapply sem_step; [done..|exact If|by intros h x []|by right].
Qed.

Lemma serve_sem_reset a v :
  is_Some (k_sems k !! a) ->
  exists r k', rt_sem_control a RT_IPC_CMD_RESET v k = Some (r, k') /\ served n t (Ret r) k k'.
Proof.
  intros [s Es]. destruct (rt_sem_control_reset _ _ idle a s v k (ko_core _ _ _ Hk) (ko_sems _ _ _ Hk) Es)
    as (k' & Er & Hc & Hok & _ & _ & If & F & s' & Es').
  exists RT_EOK, k'. split; [done|]. apply served_ret; [|done].
  eapply sem_step; [done..|exact If|by intros h x []|by right].
Qed.

Lemma serve_mutex_take a m time :
  n = 0 -> k_mutexes k !! a = Some m -> (mx_owner m = Some t -> mx_hold m < 255) -> wait_ok n t time ->
  exists r k', rt_mutex_take a time k = Some (r, k') /\ served n t r k k'.
Proof.
  intros Hn Em Hh Hw.
  destruct (rt_mutex_take_run _ _ idle a m time k t th (ko_core _ _ _ Hk) (ko_mutexes _ _ _ Hk) Ec Hr
    ltac:(rewrite <-Hn; apply Hk) Em Hh) as (r & k' & c & c' & o & Er & Hc & Hok & _ & _ & Hst & Ho & If & F);
    [intros _ _; by apply wait_ok_block with n|].
  exists r, k'. split; [done|]. eapply served_wait; [|exact If|].
  - eapply mutex_step; [done..|exact If|]. intros h x. apply grows_in. by exists a.
  - intros f ->. destruct o as [e|]; [by destruct Ho|]. destruct Ho as ([= ->] & _). split; [done|]. split; [by exists a|].
    split; [|done]. eapply wait_ok_idle; [done|]. inversion Hst as [| | |? ? ? ? ? ? ? Hnz]; subst.
    by destruct (Z.eqb_spec time 0).
Qed.

Lemma serve_mutex_release a :
  n = 0 -> is_Some (k_mutexes k !! a) ->
  exists r k', rt_mutex_release a k = Some (r, k') /\ served n t (Ret r) k k'.
Proof.
  intros Hn [m Em].
  destruct (rt_mutex_release_run _ _ idle a m k t th (ko_core _ _ _ Hk) (ko_mutexes _ _ _ Hk) Ec Hr
    ltac:(rewrite <-Hn; apply Hk) Em) as (r & k' & c & c' & Er & Hc & Hok & _ & _ & _ & _ & _ & If & F).
  exists r, k'. split; [done|]. apply served_ret; [|done].
  eapply mutex_step; [done..|exact If|by intros h x []].
Qed.

Lemma serve_event_send a set :
  is_Some (k_events k !! a) -> 0 < set < 4294967296 ->
  exists r k', rt_event_send a set k = Some (r, k') /\ served n t (Ret r) k k'.
Proof.
  intros [e Ee] Hs. destruct (rt_event_send_run _ _ idle a e set k (ko_core _ _ _ Hk) (ko_events _ _ _ Hk) Ee Hs)
    as (k' & e' & rest & Er & Hc & Hok & Ee' & _ & _ & _ & _ & _ & _ & If & F & _).
  exists RT_EOK, k'. split; [done|]. apply served_ret; [|done].
  eapply event_step; [done..|exact If|by intros h x []|by right].
Qed.

Lemma serve_event_recv a set opt timeout :
  n = 0 -> is_Some (k_events k !! a) -> wait_ok n t timeout -> set <> 0 ->
  has_flag opt RT_EVENT_FLAG_AND || has_flag opt RT_EVENT_FLAG_OR = true ->
  exists r k', rt_event_recv a set opt timeout k = Some (r, k') /\ served n t r k k'.
Proof.
  intros Hn [e Ee] Hw Hs Ho.
  assert (exists ok, recv_check opt set (ev_set e) = Some ok) as [ok Hck].
  { unfold recv_check. destruct (has_flag opt RT_EVENT_FLAG_AND); [by eexists|]. cbn in Ho. rewrite Ho. by eexists. }
  destruct (rt_event_recv_run _ _ idle a e set opt timeout k t th ok (ko_core _ _ _ Hk) (ko_events _ _ _ Hk) Ec Hr
    ltac:(rewrite <-Hn; apply Hk) Ee Hs Hck) as (r & k' & Er & Hc & Hok & If & F & Hcase);
    [intros _; by apply wait_ok_block with n|].
  exists r, k'. split; [done|]. eapply served_wait; [|exact If|].
  - assert (exists e', k_events k' = k_events k \/ k_events k' = <[a := e']> (k_events k)) as [e' Ee'].
    { destruct ok; [destruct Hcase as [_ ->]; by eauto|]. exists e.
      destruct (timeout =? 0); [destruct Hcase as [_ ->]|destruct Hcase as (_ & -> & _)]; auto. }
    eapply event_step; [done..|exact If| |exact Ee']. intros h x. apply grows_in. by exists a.
  - intros f ->. destruct ok; [by destruct Hcase|]. destruct (Z.eqb_spec timeout 0) as [|Hnz]; [by destruct Hcase|].
    destruct Hcase as ([= ->] & _). split; [done|]. split; [by exists a|]. split; [by eapply wait_ok_idle|done].
Qed.

Lemma serve_nothing {A} (x : A) : served n t (Ret x) k k.
Proof. by apply served_ret. Qed.

Lemma serve_mb_send_loop a v timeout :
  is_Some (k_mbs k !! a) -> wait_ok n t timeout ->
  exists r k', mb_send_loop 2 a v timeout k = Some (r, k') /\ served n t r k k'.
Proof.
  intros [m Em] Hw.
  destruct (mb_send_loop_run _ _ idle a m v timeout k t th 1 (ko_core _ _ _ Hk) (ko_mbs _ _ _ Hk) Em Ec Hr)
    as (r & k' & Er & Hc & Hok & F & If & Hcase); [intros _; by apply wait_ok_block with n|].
  exists r, k'. split; [done|]. eapply served_wait; [|exact If|].
  - assert (exists m', k_mbs k' = k_mbs k \/ k_mbs k' = <[a := m']> (k_mbs k)) as [m' Em'].
    { destruct (mb_entry m =? mb_size m); [exists m; left; apply Hcase|]. destruct Hcase as (_ & m' & -> & _). by eauto. }
    eapply mb_step; [done..|exact If| |exact Em']. intros h x. apply grows_in. by exists a; left.
  - intros f ->. destruct (mb_entry m =? mb_size m); [|by destruct Hcase]. destruct Hcase as [Em' Hcase].
    destruct (Z.eqb_spec timeout 0) as [|Hnz]; [done|]. destruct Hcase as [[= ->] _].
    split; [by eapply wait_ok_thread|]. split; [done|]. split; [by eapply wait_ok_idle|]. rewrite Em', Em. split; [done|by eapply wait_ok_lt].
Qed.

Lemma serve_mb_send a v timeout :
  is_Some (k_mbs k !! a) -> wait_ok n t timeout ->
  exists r k', rt_mb_send_wait a v timeout k = Some (r, k') /\ served n t r k k'.
Proof.
  intros Hm Hw. pose proof Hm as [m Em]. unfold rt_mb_send_wait. rewrite (bind_run _ _ _ _ _ (get_mb_run _ _ _ Em)).
  destruct (_ && _); [|by apply serve_mb_send_loop]. do 2 eexists. split; [done|apply serve_nothing].
Qed.

Lemma serve_mb_recv_loop a timeout :
  is_Some (k_mbs k !! a) -> wait_ok n t timeout ->
  exists r k', mb_recv_loop 2 a timeout k = Some (r, k') /\ served n t r k k'.
Proof.
  intros [m Em] Hw.
  destruct (mb_recv_loop_run _ _ idle a m timeout k t th 1 (ko_core _ _ _ Hk) (ko_mbs _ _ _ Hk) Em Ec Hr)
    as (r & k' & Er & Hc & Hok & F & If & Hcase); [intros _; by apply wait_ok_block with n|].
  exists r, k'. split; [done|]. eapply served_wait; [|exact If|].
  - assert (exists m', k_mbs k' = k_mbs k \/ k_mbs k' = <[a := m']> (k_mbs k)) as [m' Em'].
    { destruct (mb_entry m =? 0); [exists m; left; apply Hcase|]. destruct Hcase as (v & m' & _ & -> & _). by eauto. }
    eapply mb_step; [done..|exact If| |exact Em']. intros h x. apply grows_in. by exists a; right; left.
  - intros f ->. destruct (mb_entry m =? 0); [|by destruct Hcase as (? & ? & ? & _)]. destruct Hcase as [Em' Hcase].
    destruct (Z.eqb_spec timeout 0) as [|Hnz]; [done|]. destruct Hcase as [[= ->] _].
    split; [by eapply wait_ok_thread|]. split; [done|]. split; [by eapply wait_ok_idle|]. rewrite Em', Em. split; [done|by eapply wait_ok_lt].
Qed.

Lemma serve_mb_recv a timeout :
  is_Some (k_mbs k !! a) -> wait_ok n t timeout ->
  exists r k', rt_mb_recv a timeout k = Some (r, k') /\ served n t r k k'.
Proof.
  intros Hm Hw. pose proof Hm as [m Em]. unfold rt_mb_recv. rewrite (bind_run _ _ _ _ _ (get_mb_run _ _ _ Em)).
  destruct (_ && _); [|by apply serve_mb_recv_loop]. do 2 eexists. split; [done|apply serve_nothing].
Qed.

(** What a send of a message to either end does to the system. *)
Lemma serve_sent a q l' buf k' :
  k_mqs k !! a = Some q -> sent (k_tick k) RT_TICK_HALF idle a q l' buf k k' -> served n t (Ret RT_EOK) k k'.
Proof.
  intros Eq [Hc (q' & d & Eq' & Ha & _) F If _]. apply served_ret; [|done].
  eapply (mq_step_ok n no_growth k k' a q'); [done|done| |done|done|by intros h x []|by right].
  eapply mqs_ok_put; [apply Hk|exact Eq'|exact Ha].
Qed.

Lemma serve_mq_send a buf :
  is_Some (k_mqs k !! a) -> buf <> [] -> exists r k', rt_mq_send a buf k = Some (r, k') /\ served n t (Ret r) k k'.
Proof.
  intros [q Eq] Hb. destruct (ko_mqs _ _ _ Hk a q Eq) as [l Ha].
  destruct (rt_mq_send_run _ _ idle a q l buf k (ko_core _ _ _ Hk) Eq Ha Hb) as (r & k' & Er & Hcase).
  exists r, k'. split; [done|]. destruct (_ <? _); [|destruct (_ =? _)]; destruct Hcase as [-> Hs];
    [subst k'; apply serve_nothing..|by eapply serve_sent].
Qed.

Lemma serve_mq_urgent a buf :
  is_Some (k_mqs k !! a) -> buf <> [] -> exists r k', rt_mq_urgent a buf k = Some (r, k') /\ served n t (Ret r) k k'.
Proof.
  intros [q Eq] Hb. destruct (ko_mqs _ _ _ Hk a q Eq) as [l Ha].
  destruct (rt_mq_urgent_run _ _ idle a q l buf k (ko_core _ _ _ Hk) Eq Ha Hb) as (r & k' & Er & Hcase).
  exists r, k'. split; [done|]. destruct (_ <? _); [|destruct (_ =? _)]; destruct Hcase as [-> Hs];
    [subst k'; apply serve_nothing..|by eapply serve_sent].
Qed.

(** With [n] interrupts in service only when there is a message. *)
Lemma serve_mq_recv_loop a q size timeout :
  k_mqs k !! a = Some q -> n = 0 \/ mq_entry q <> 0 -> wait_ok n t timeout ->
  exists r k', mq_recv_loop 2 a size timeout k = Some (r, k') /\ served n t r k k'.
Proof.
  intros Eq Hn Hw. destruct (ko_mqs _ _ _ Hk a q Eq) as [l Ha]. pose proof (mq_abs_entry q l Ha) as He.
  destruct (mq_recv_loop_run _ _ idle a q l size timeout k t th 1 (ko_core _ _ _ Hk) (ko_mqs _ _ _ Hk) Eq Ha Ec Hr)
    as (r & k' & Er & Hc & Hok & F & If & Hcase); [|intros _; by apply wait_ok_block with n|].
  { intros ->. destruct Hn as [<-|Hn]; [apply Hk|]. by rewrite He in Hn. }
  exists r, k'. split; [done|]. eapply served_wait; [|exact If|].
  - assert (exists q', k_mqs k' = k_mqs k \/ k_mqs k' = <[a := q']> (k_mqs k)) as [q' Eq'].
    { destruct l; [exists q; left; apply Hcase|]. destruct Hcase as (_ & q' & -> & _). by eauto. }
    eapply mq_step_ok; [done..|exact If| |exact Eq']. intros h x. apply grows_in. by exists a; right; right.
  - intros f ->. destruct l; [|by destruct Hcase]. destruct Hcase as [Eq' Hcase].
    destruct (Z.eqb_spec timeout 0) as [|Hnz]; [done|]. destruct Hcase as [[= ->] _].
    split; [by eapply wait_ok_thread|]. split; [done|]. split; [by eapply wait_ok_idle|]. rewrite Eq', Eq. split; [done|by eapply wait_ok_lt].
Qed.

Lemma serve_mq_recv a size timeout :
  is_Some (k_mqs k !! a) -> size <> 0 -> n = 0 \/ timeout = 0 -> wait_ok n t timeout ->
  exists r k', rt_mq_recv a size timeout k = Some (r, k') /\ served n t r k k'.
Proof.
  intros [q Eq] Hs Hn Hw. unfold rt_mq_recv. rewrite (bind_run _ _ _ tt k) by (by destruct (Z.eqb_spec size 0)).
  rewrite (bind_run _ _ _ _ _ (get_mq_run _ _ _ Eq)). destruct (_ && _) eqn:Eb.
  - do 2 eexists. split; [done|apply serve_nothing].
  - apply serve_mq_recv_loop with q; [done| |done]. destruct Hn as [| ->]; [by left|right].
    intros E. by rewrite E in Eb.
Qed.

Lemma serve_returns {A} (f : A -> rval) (m : M A) :
  (exists r k', m k = Some (r, k') /\ served n t (Ret r) k k') ->
  exists r k', returns f m k = Some (r, k') /\ served n t r k k'.
Proof.
  intros (r & k' & Er & Hs). exists (Ret (f r)), k'. split; [by apply returns_run|].
  exact (served_map f n t (Ret r) k k' Hs).
Qed.
Lemma serve_may_wait {A} (f : A -> rval) (m : M (wait A)) :
  (exists r k', m k = Some (r, k') /\ served n t r k k') ->
  exists r k', may_wait f m k = Some (r, k') /\ served n t r k k'.
Proof.
  intros (r & k' & Er & Hs). exists (wait_map f r), k'. split; [by apply may_wait_run|by apply served_map].
Qed.

Lemma time_ok_wait time : n = 0 -> time_ok idle t time -> wait_ok n t time.
Proof. intros Hn [->|[Hi Ht]]; [by left|by right]. Qed.
Lemma wait_ok_0 : wait_ok n t 0.
Proof. by left. Qed.
#[local] Hint Resolve serve_yield serve_sleep serve_sem_take serve_sem_release serve_sem_reset
  serve_mutex_take serve_mutex_release serve_event_send serve_event_recv serve_mb_send serve_mb_recv
  serve_mq_send serve_mq_urgent serve_mq_recv time_ok_wait wait_ok_0 : serve.

(** The table of calls, from a thread. *)
Lemma serve_call c :
  n = 0 -> call_allowed idle k t c -> exists r k', exec_call c k = Some (r, k') /\ served n t r k k'.
Proof.
  intros Hn. destruct c; cbn [call_allowed exec_call]; intros Ha; destruct_and?;
    try (match goal with H : exists _, _ |- _ => destruct H as (? & ? & ?) end);
    first [apply serve_returns|apply serve_may_wait]; eauto with serve.
Qed.

(** And from an interrupt handler. *)
Lemma serve_irq_call c :
  irq_allowed k c -> exists r k', exec_call c k = Some (r, k') /\ served n t r k k'.
Proof.
  destruct c; cbn [irq_allowed exec_call]; intros Ha; destruct_and?; subst; try done;
    first [apply serve_returns|apply serve_may_wait]; eauto with serve.
Qed.

(** ** Going on with a call *)

Lemma serve_sleep_resume : exists r k', rt_thread_sleep_resume t k = Some (r, k') /\ served n t (Ret r) k k'.
Proof.
  pose proof Hr as [E Hs]. unfold rt_thread_sleep_resume. mstep. destruct (_ =? _).
  - mstep. do 2 eexists. split; [done|].
    assert (If : ipc_frame no_growth k (put_th t (set_th_error RT_EOK th) k)) by (by apply (ipc_frame_put_th _ k t th)).
    apply served_ret; [|done]. eapply core_step; [done| |by destruct k|exact If|by intros h x []].
    by apply (set_error_core _ _ idle k t th RT_EOK (ko_core _ _ _ Hk)).
  - do 2 eexists. split; [done|apply serve_nothing].
Qed.

(** A resumption that reads the thread's control block and is done. *)
Lemma serve_get_thread {A} (g : rt_thread -> A) (m : M A) :
  (th ← get_thread t; mret (g th)) k = m k -> exists r k', m k = Some (r, k') /\ served n t (Ret r) k k'.
Proof.
  intros <-. pose proof Hr as [E Hs]. mstep. do 2 eexists. split; [done|apply serve_nothing].
Qed.

Lemma time_left_lt timeout start :
  timeout < RT_TICK_HALF -> (0 < timeout -> u32 (k_tick k - start) <= RT_TICK_HALF) ->
  time_left timeout start (k_tick k) < RT_TICK_HALF.
Proof.
  intros Ht Hf. destruct (Z.ltb_spec 0 timeout) as [Hp|Hp].
  - rewrite time_left_range by auto. pose proof (u32_range (k_tick k - start)). unfold RT_TICK_HALF in *. lia.
  - unfold time_left. destruct (Z.ltb_spec 0 timeout); [lia|done].
Qed.

(** A resumption that looks at the object again. *)
Lemma serve_again {A} timeout start (e : Z -> A) (loop : Z -> M (wait A)) :
  n = 0 -> t <> idle -> timeout < RT_TICK_HALF -> (0 < timeout -> u32 (k_tick k - start) <= RT_TICK_HALF) ->
  (forall time, wait_ok n t time -> exists r k', loop time k = Some (r, k') /\ served n t r k k') ->
  exists r k', (th ← get_thread t; if negb (th_error th =? RT_EOK) then mret (Ret (e (th_error th)))
                else now ← kget k_tick; loop (time_left timeout start now)) k = Some (r, k') /\
    served n t r k k'.
Proof.
  intros Hn Hi Ht Hf Hloop. pose proof Hr as [E Hs]. mstep. destruct (negb _).
  - do 2 eexists. split; [done|apply serve_nothing].
  - mstep. apply Hloop. right. split; [done|]. split; [done|by apply time_left_lt].
Qed.

Lemma serve_resume f :
  n = 0 -> frame_ok idle k t f -> frame_fresh k f ->
  exists r k', resume_call t f k = Some (r, k') /\ served n t r k k'.
Proof.
  pose proof Hr as [E Hs]. intros Hn [Hi Hf] Hfr. destruct f; cbn [resume_call]; try done;
    first [apply serve_returns|apply serve_may_wait].
  - apply serve_sleep_resume.
  - apply (serve_get_thread (fun th => if negb (th_error th =? RT_EOK) then th_error th else RT_EOK)).
    unfold rt_sem_take_resume. do 2 mstep. by destruct (negb _).
  - apply (serve_get_thread (fun th => if negb (th_error th =? RT_EOK) then th_error th else RT_EOK)).
    unfold rt_mutex_take_resume. do 2 mstep. by destruct (negb _).
  - apply (serve_get_thread (fun th => if negb (th_error th =? RT_EOK) then (th_error th, None)
                                       else (th_error th, Some (th_event_set th)))).
    unfold rt_event_recv_resume. do 2 mstep. by destruct (negb _).
  - apply (serve_again _ _ (fun e => e)); [done|done|apply Hf|done|]. intros. apply serve_mb_send_loop; [apply Hf|done].
  - apply (serve_again _ _ (fun e => (e, None))); [done|done|apply Hf|done|]. intros. apply serve_mb_recv_loop; [apply Hf|done].
  - apply (serve_again _ _ (fun e => (e, None))); [done|done|apply Hf|done|]. intros.
    destruct Hf as [[q Eq] _]. apply serve_mq_recv_loop with q; auto.
Qed.

End Calls.

(** ** Interrupts *)

Lemma irq_allowed_has k k' c : has k k' -> irq_allowed k c -> irq_allowed k' c.
Proof. intros [H1 H2 H3 H4]. destruct c; cbn; naive_solver. Qed.

Lemma serve_calls n cs : forall k,
  kernel_ok n k -> n <> 0 -> Forall (irq_allowed k) cs ->
  exists k', run_calls cs k = Some (tt, k') /\ kernel_ok n k' /\ has k k' /\ ipc_frame no_growth k k'.
Proof.
  induction cs as [|c cs IH]; intros k Hk Hn Hall; [by exists k|]. apply list.Forall_cons in Hall as [Hc Hall].
  destruct (kernel_current n k Hk) as (t & th & Ec & Hr).
  destruct (serve_irq_call n k t th Hk Ec Hr c Hc) as (r & k1 & Er & [Hk1 Hh1 (o & If1 & Hw)]).
  destruct r as [x|f]; [|by destruct Hw]. destruct (IH k1 Hk1 Hn) as (k' & Er' & Hk' & Hh' & If').
  { eapply list.Forall_impl; [exact Hall|]. intros c'. by apply irq_allowed_has. }
  exists k'. cbn [run_calls]. split; [by mstep_by Er|]. split; [done|]. split; by etrans.
Qed.

Lemma kernel_ok_int n m k : kernel_ok n k -> kernel_ok m (set_k_int_nest m k).
Proof. intros [Hc H1 H2 H3 H4 H5 H6 H7]. split; try done. by apply core_set_int. Qed.

Lemma serve_irq cs k :
  kernel_ok 0 k -> Forall (irq_allowed k) cs ->
  exists k', irq_handler cs k = Some (tt, k') /\ kernel_ok 0 k' /\ has k k' /\ ipc_frame no_growth k k'.
Proof.
  intros Hk Hall. set (k1 := set_k_int_nest (u8 (k_int_nest k + 1)) k).
  assert (E1 : u8 (k_int_nest k + 1) = 1) by (by rewrite (ko_int _ _ _ Hk)).
  destruct (serve_calls 1 cs k1) as (k2 & Er & Hk2 & Hh & If); [|done|done|].
  { unfold k1. rewrite E1. by apply kernel_ok_int with 0. }
  exists (set_k_int_nest (u8 (k_int_nest k2 - 1)) k2). split.
  { unfold irq_handler, rt_interrupt_enter, rt_interrupt_leave. mstep. fold k1. by mstep_by Er. }
  assert (E2 : u8 (k_int_nest k2 - 1) = 0) by (by rewrite (ko_int _ _ _ Hk2)). rewrite E2.
  split; [by apply kernel_ok_int with 1|]. split; [by destruct Hh|].
  etrans; [by apply (ipc_frame_same _ k k1)|]. etrans; [exact If|by apply ipc_frame_same].
Qed.

(** What the tick interrupt keeps, from the state [k0] on. *)
Definition since (k0 k : kstate) : Prop :=
  (sems_ok k /\ mutexes_ok k /\ events_ok k /\ mbs_ok k /\ mqs_ok k) /\
  ipc_frame no_growth k0 k /\ has k0 k /\ k_lock_nest k = k_lock_nest k0.

#[local] Instance since_stable k0 : Stable (since k0).
Proof.
  intros k k' ((H1 & H2 & H3 & H4 & H5) & If & Hh & El) Hq. pose proof Hq as [If' [O1 O2 O3 O4 O5 O6 O7]].
  split; [by split_and!; eapply stable_step|]. split; [by etrans|]. split; [|by rewrite O7].
  destruct Hh. split; intros a; rewrite ?O1, ?O3, ?O4, ?O5; auto.
Qed.

Lemma since_keeps user_cb k0 : cb_serves user_cb -> cb_keeps user_cb (since k0).
Proof.
  intros [_ Hf C1 C2 C3 C4 C5] b bd i f p k k' Hc ((H1 & H2 & H3 & H4 & H5) & If & Hh & El) Er.
  destruct (Hf b bd i f p k k' Hc Er) as (If' & Hh' & El').
  split; [split_and!; [by eapply C1|by eapply C2|by eapply C3|by eapply C4|by eapply C5]|].
  split; [by etrans|]. split; [by etrans|congruence].
Qed.

Lemma serve_tick user_cb k :
  cb_serves user_cb -> kernel_ok 0 k ->
  exists k', SysTick_Handler user_cb k = Some (tt, k') /\ kernel_ok 0 k' /\ has k k' /\ ipc_frame no_growth k k'.
Proof.
  intros Hcb Hk. destruct (SysTick_Handler_run user_cb idle k (cs_ok _ Hcb) (ko_core _ _ _ Hk)) as (k' & Er & Hc & Ht).
  destruct (ti_keeps _ _ _ Ht (since k) _ (since_keeps user_cb k Hcb)) as ((H1 & H2 & H3 & H4 & H5) & If & Hh & El).
  { split; [|done]. by destruct Hk. }
  exists k'. split; [done|]. split; [|done]. split; try done.
  - rewrite El. apply Hk.
  - rewrite (ti_int _ _ _ Ht); rewrite (ko_int _ _ _ Hk); lia.
Qed.

(** ** The invariant of the system *)

Lemma frame_ok_has k k' t f : has k k' -> frame_ok idle k t f -> frame_ok idle k' t f.
Proof. intros [_ _ H3 H4] [Hi Hf]. split; [done|]. destruct f; naive_solver. Qed.

(** A step that suspends nobody. *)
Lemma sys_inv_quiet s k' :
  sys_inv idle s -> kernel_ok 0 k' -> has (s_k s) k' -> ipc_frame no_growth (s_k s) k' ->
  sys_inv idle (Sys k' (s_frames s)).
Proof.
  intros [H1 H2 H3 H4] Hk Hh If. split; cbn; [done|..].
  - intros t f E. eapply frame_ok_has; [done|by apply H2].
  - intros t Ht. apply H3. by destruct (if_susp _ _ _ If t Ht) as [|[o []]].
  - intros h t Hh' Ht. apply H4; [done|]. by destruct (if_lists _ _ _ If h t Hh' Ht) as [|[]].
Qed.

(** The current thread waits nowhere. *)
Lemma current_not_waiting n k t th :
  kernel_ok n k -> is_ready k t th -> ~ suspended k t /\ forall h, wait_list h -> t ∉ queue k h.
Proof.
  intros Hk [E Hs]. split.
  - intros (th' & E' & Hs'). apply READY_not_SUSPEND. congruence.
  - intros h Hh. eapply wait_list_unready; [apply (c_inv (c_core0 (ko_core _ _ _ Hk)))|done|done].
Qed.

(** A piece of a call of the current thread. *)
Lemma sys_inv_call s t th r k' :
  sys_inv idle s -> is_ready (s_k s) t th -> served 0 t r (s_k s) k' ->
  sys_inv idle (Sys k' (set_frame t r (s_frames s))).
Proof.
  intros [H1 H2 H3 H4] Hr [Hk Hh (o & If & Hw)]. destruct (current_not_waiting 0 _ t th H1 Hr) as [Hns Hnq].
  assert (Hne : forall x, x <> t -> set_frame t r (s_frames s) !! x = s_frames s !! x).
  { intros x Hx. destruct r; cbn; [by apply lookup_delete_ne|by apply lookup_insert_ne]. }
  split; cbn; [done|..].
  - intros x f E. destruct (decide (x = t)) as [->|Hx].
    + destruct r as [v|f']; cbn in E; [by rewrite lookup_delete_eq in E|].
      rewrite lookup_insert_eq in E. injection E as <-. apply Hw.
    + rewrite Hne in E by done. eapply frame_ok_has; [done|by apply H2].
  - intros x Hx. destruct (if_susp _ _ _ If x Hx) as [Hs|[o' Hg]].
    + rewrite Hne; [by apply H3|]. by intros ->.
    + destruct r as [v|f]; [done|]. destruct Hg as [_ ->]. cbn. rewrite lookup_insert_eq. by eexists.
  - intros h x Hl Hx. destruct (if_lists _ _ _ If h x Hl Hx) as [Hq|Hg].
    + rewrite Hne; [by apply H4|]. intros ->. by apply (Hnq h Hl).
    + destruct r as [v|f]; [done|]. destruct Hg as [<- ->]. cbn. rewrite lookup_insert_eq. exists f.
      split; [done|apply Hw].
Qed.

Lemma sys_step_run user_cb s e :
  cb_serves user_cb -> sys_inv idle s -> allowed idle e s ->
  exists s', sys_step user_cb e s = Some s' /\ sys_inv idle s'.
Proof.
  intros Hcb Hs. pose proof Hs as [Hk Hf _ _]. destruct e as [c| | |cs]; cbn [allowed sys_step].
  - intros (t & Ec & Ef & Ha). destruct (kernel_current _ _ Hk) as (t' & th & Ec' & Hr).
    assert (t' = t) as -> by congruence. rewrite Ec. cbn. rewrite Ef.
    destruct (serve_call 0 _ t th Hk Ec Hr c eq_refl Ha) as (r & k' & Er & Hsv). rewrite Er. cbn.
    eexists. split; [done|by eapply sys_inv_call].
  - intros (t & f & Ec & Ef & Hfr). destruct (kernel_current _ _ Hk) as (t' & th & Ec' & Hr).
    assert (t' = t) as -> by congruence. rewrite Ec. cbn. rewrite Ef. cbn.
    destruct (serve_resume 0 _ t th Hk Ec Hr f eq_refl (Hf t f Ef) Hfr) as (r & k' & Er & Hsv). rewrite Er. cbn.
    eexists. split; [done|by eapply sys_inv_call].
  - intros _. destruct (serve_tick user_cb _ Hcb Hk) as (k' & -> & Hk' & Hh & If). cbn.
    eexists. split; [done|by apply sys_inv_quiet].
  - intros Ha. destruct (serve_irq cs _ Hk Ha) as (k' & -> & Hk' & Hh & If). cbn.
    eexists. split; [done|by apply sys_inv_quiet].
Qed.

End Serve.

(** C1. every step the rules allow is taken: whatever call the current thread makes or goes
    on with, and whatever interrupt comes, the kernel returns from it (no assertion fails,
    no object is missing, no loop is left unfinished), and the invariants of all
    components hold again, with every waiting thread inside the call that waits for what
    its list stands for. *)
Theorem sys_step_total user_cb idle s e :
  cb_serves user_cb -> sys_inv idle s -> allowed idle e s ->
  exists s', sys_step user_cb e s = Some s' /\ sys_inv idle s'.
Proof. apply sys_step_run. Qed.

(** C2. in every state the system can get to, by any interleaving of calls, resumptions,
    ticks and interrupts, no wake-up has been lost: no thread waits for a semaphore that has
    a count, for a mutex nobody owns or for events that have already come; the current
    thread is ready and waits nowhere; and the scheduler is unlocked, outside any
    interrupt. *)
Theorem reachable_no_lost_wakeup user_cb idle s0 s :
  cb_serves user_cb -> sys_inv idle s0 -> reachable user_cb idle s0 s ->
  (forall a sm, k_sems (s_k s) !! a = Some sm -> 0 < sem_value sm -> queue (s_k s) (LSuspend (OSem a)) = []) /\
  (forall a m, k_mutexes (s_k s) !! a = Some m -> mx_owner m = None -> queue (s_k s) (LSuspend (OMutex a)) = []) /\
  (forall a e t th, k_events (s_k s) !! a = Some e -> t ∈ queue (s_k s) (LSuspend (OEvent a)) ->
     k_threads (s_k s) !! t = Some th -> satisfied th (ev_set e) = false) /\
  (exists t th, k_current (s_k s) = Some t /\ is_ready (s_k s) t th /\
     forall h, wait_list h -> t ∉ queue (s_k s) h) /\
  k_lock_nest (s_k s) = 0 /\ k_int_nest (s_k s) = 0.
Proof.
  intros Hcb H0 Hreach. assert (Hs : sys_inv idle s).
  { induction Hreach as [|s e s' _ IH Ha Er]; [done|].
    destruct (sys_step_run idle user_cb s e Hcb IH Ha) as (s2 & Er2 & Hs2). congruence. }
  pose proof (si_ok _ _ Hs) as Hk. split_and!.
  - intros a sm E. apply (ko_sems _ _ _ Hk a sm E).
  - intros a m E Ho. pose proof (ko_mutexes _ _ _ Hk a m E) as [_ Hm]. rewrite Ho in Hm. apply Hm.
  - intros a e t th E. destruct (ko_events _ _ _ Hk a e E) as (_ & _ & Hn). apply Hn.
  - destruct (kernel_current idle _ _ Hk) as (t & th & Ec & Hr). exists t, th. split; [done|]. split; [done|].
    by apply (current_not_waiting idle 0 _ t th Hk Hr).
  - apply Hk.
  - apply Hk.
Qed.
