(* ===== verification/Mempool.v ===== *)
(** * Memory pools (src/src/mempool.c)

    A pool hands out blocks of one size.  The word before each block links the free
    blocks, and names the pool while the block is in use.  Threads may wait for a block;
    each is put at the front of the list of the pool, which is also where [rt_mp_free]
    looks for the thread to wake. *)
From S2P Require Import Prelude KService Kernel Object Scheduler Timer Thread Frame Ipc.

Definition get_mp (a : Z) : M rt_mempool := fun k => p ← k_mps k !! a; Some (p, k).
Definition put_mp (a : Z) (p : rt_mempool) (k : kstate) : kstate :=
  set_k_mps (<[a := p]> (k_mps k)) k.
(** An atomic step on a pool; [None] is an access through an invalid pointer. *)
Definition mp_step {A} (a : Z) (f : rt_mempool -> option (A * rt_mempool)) : M A :=
  p ← get_mp a;
  r ← deref (f p);
  kmod (put_mp a r.2);;
  mret r.1.

(** The address of a block with its link. *)
Definition block_addr (start block_size i : Z) : Z := start + i * (block_size + 4).

(** The loop of [rt_mp_init]: each block links to the next, the last to none. *)
Fixpoint mp_init_links (start block_size i : Z) (n : nat) : gmap Z (option Z + Z) :=
  match n with
  | O => ∅
  | S n' =>
      <[block_addr start block_size i :=
          inl (if (0 <? n')%nat then Some (block_addr start block_size (i + 1)) else None)]>
        (mp_init_links start block_size (i + 1) n')
  end.

(** [rt_mp_init]; a pool too small for a block makes the code write before the pool. *)
Definition rt_mp_init (a : Z) (name : list Z) (start size block_size : Z) : M Z :=
  rt_object_init (OMp a) name;;
  let psize := RT_ALIGN_DOWN size 4 in
  let bsize := RT_ALIGN block_size 4 in
  let total := psize / u32 (bsize + 4) in
  list_head_init (LSuspend (OMp a));;
  (if total =? 0 then stuck else mret tt);;
  kmod (put_mp a (MemPool start psize bsize (Some start) total total
    (mp_init_links start bsize 0 (Z.to_nat total)) 0));;
  mret RT_EOK.

(** The loop of [rt_mp_detach] over the waiting threads; [fuel] bounds the iterations. *)
Fixpoint mp_wake_all (fuel : nat) (a : Z) : M unit :=
  e ← list_isempty (LSuspend (OMp a));
  if e : bool then mret tt
  else
    match fuel with
    | O => stuck
    | S fuel' =>
        t ← list_first (LSuspend (OMp a));
        mod_thread t (set_th_error (- RT_ERROR));;
        rt_thread_resume t;;
        mp_step a (fun p => Some (tt, set_mp_suspend_count (u32 (mp_suspend_count p - 1)) p));;
        mp_wake_all fuel' a
    end.

(** [rt_mp_detach]. *)
Definition rt_mp_detach (a : Z) : M Z :=
  n ← kget (fun k => length (queue k (LSuspend (OMp a))));
  mp_wake_all n a;;
  rt_object_detach (OMp a);;
  mret RT_EOK.

(** The first free block leaves the list and is marked with its pool. *)
Definition mp_take (a : Z) (p : rt_mempool) : option (Z * rt_mempool) :=
  b ← mp_block_list p;
  w ← mp_link p !! b;
  match w with
  | inl next => Some (b, set_mp_link (<[b := inr a]> (mp_link p))
                           (set_mp_block_list next (set_mp_free (u32 (mp_free p - 1)) p)))
  | inr _ => None
  end.

(** [rt_mp_alloc] after the wait. *)
Definition rt_mp_alloc_resume (t a : Z) : M (option Z) :=
  th ← get_thread t;
  if negb (th_error th =? RT_EOK) then mret None
  else b ← mp_step a (mp_take a); mret (Some (b + 4)).

(** [rt_mp_alloc]: [None] stands for [RT_NULL]. *)
Definition rt_mp_alloc (a time : Z) : M (wait (option Z)) :=
  p ← get_mp a;
  if negb (mp_free p =? 0) then
    b ← mp_step a (mp_take a); mret (Ret (Some (b + 4)))
  else if time =? 0 then mret (Ret None)
  else
    RT_DEBUG_NOT_IN_INTERRUPT;;
    cur ← rt_thread_self;
    t ← deref cur;
    rt_thread_suspend t;;
    tlist_insert_after (LSuspend (OMp a)) t;;
    mp_step a (fun p => Some (tt, set_mp_suspend_count (u32 (mp_suspend_count p + 1)) p));;
    (if 0 <? time then start_thread_timer t time else mret tt);;
    schedule_then t (FMpAlloc a) (r ← rt_mp_alloc_resume t a; mret (Ret r)).

(** The pool named by the word before a block. *)
Definition pool_of (b : Z) (k : kstate) : option Z :=
  x ← list_find (fun x : Z * rt_mempool => is_Some (mp_link x.2 !! b)) (map_to_list (k_mps k));
  w ← mp_link x.2.2 !! b;
  match w with inr a => Some a | inl _ => None end.

(** The block goes to the front of the free blocks. *)
Definition mp_give (b : Z) (p : rt_mempool) : option (unit * rt_mempool) :=
  _ ← mp_link p !! b;
  Some (tt, set_mp_block_list (Some b)
              (set_mp_link (<[b := inl (mp_block_list p)]> (mp_link p))
                 (set_mp_free (u32 (mp_free p + 1)) p))).

(** [rt_mp_free]. *)
Definition rt_mp_free (block : Z) : M unit :=
  let b := block - 4 in
  o ← kget (pool_of b);
  a ← deref o;
  mp_step a (mp_give b);;
  p ← get_mp a;
  if 0 <? mp_suspend_count p then
    t ← list_first (LSuspend (OMp a));
    mod_thread t (set_th_error RT_EOK);;
    rt_thread_resume t;;
    mp_step a (fun p => Some (tt, set_mp_suspend_count (u32 (mp_suspend_count p - 1)) p));;
    rt_schedule
  else mret tt.

(** ** Invariant *)

(** The free blocks from [h] along the links are [l]. *)
Fixpoint free_chain (lk : gmap Z (option Z + Z)) (h : option Z) (l : list Z) : Prop :=
  match l with
  | [] => h = None
  | b :: l' => h = Some b /\ exists n, lk !! b = Some (inl n) /\ free_chain lk n l'
  end.

(** The blocks of a pool, at their places. *)
Definition pool_blocks (p : rt_mempool) : list Z :=
  block_addr (mp_start p) (mp_block_size p) <$> seqZ 0 (mp_total p).

(** The blocks [free] are free, in that order, and [used] are in use. *)
Record mp_ok (a : Z) (p : rt_mempool) (free used : list Z) : Prop := {
  po_chain : free_chain (mp_link p) (mp_block_list p) free;
  po_used : forall b, b ∈ used -> mp_link p !! b = Some (inr a);
  po_blocks : free ++ used ≡ₚ pool_blocks p;
  po_dom : forall b w, mp_link p !! b = Some w -> b ∈ pool_blocks p;
  po_free : mp_free p = Z.of_nat (length free);
  po_size : 0 <= mp_block_size p /\ 0 <= mp_total p < 4294967296
}.

(** ** Blocks *)

Lemma free_chain_frame lk b w h l :
  b ∉ l -> free_chain lk h l -> free_chain (<[b := w]> lk) h l.
Proof.
  revert h. induction l as [|c l IH]; intros h Hb H; [done|].
  destruct H as (-> & n & Hn & H). split; [done|]. exists n.
  rewrite lookup_insert_ne by set_solver. split; [done|]. apply IH; [set_solver|done].
Qed.

Lemma pool_blocks_nodup p : 0 <= mp_block_size p -> NoDup (pool_blocks p).
Proof.
  intros Hb. unfold pool_blocks. apply NoDup_fmap_2_strong; [|apply NoDup_seqZ].
  intros x y _ _. unfold block_addr. nia.
Qed.

(** Two blocks of a pool are a block with its link apart. *)
Lemma pool_blocks_apart p x y : 0 <= mp_block_size p ->
  x ∈ pool_blocks p -> y ∈ pool_blocks p -> x <> y ->
  x + 4 + mp_block_size p <= y \/ y + 4 + mp_block_size p <= x.
Proof.
  intros Hb Hx Hy Hne. unfold pool_blocks in *.
  apply list_elem_of_fmap in Hx as (i & -> & _). apply list_elem_of_fmap in Hy as (j & -> & _).
  unfold block_addr in *. destruct (Z.lt_total i j) as [?|[->|?]]; [left|done|right]; nia.
Qed.

Lemma mp_take_run a p b fl used :
  mp_ok a p (b :: fl) used ->
  exists p', mp_take a p = Some (b, p') /\ mp_ok a p' fl (b :: used) /\
    pool_blocks p' = pool_blocks p /\ mp_suspend_count p' = mp_suspend_count p /\
    mp_block_size p' = mp_block_size p.
Proof.
  intros [(Hh & n & Hn & Hc) Hu Hb Hd Hf Hs].
  assert (Hnd : NoDup ((b :: fl) ++ used)) by (rewrite Hb; apply pool_blocks_nodup, Hs).
  simpl in Hnd. apply list.NoDup_cons in Hnd as [Hnb _].
  unfold mp_take. rewrite Hh. simpl. rewrite Hn. eexists. split; [done|]. split; [|done].
  split; simpl; try done.
  - apply free_chain_frame; [set_solver|done].
  - intros x Hx. apply elem_of_cons in Hx as [->|Hx]; [apply lookup_insert_eq|].
    rewrite lookup_insert_ne by set_solver. by apply Hu.
  - rewrite <- Hb. simpl. by rewrite <- Permutation_middle.
  - intros x w. rewrite lookup_insert. case_decide as E; [subst x; intros _|apply Hd]. by eapply Hd.
  - rewrite Hf. simpl. rewrite u32_id; [lia|]. apply Permutation_length in Hb.
    unfold pool_blocks in Hb. rewrite length_fmap, length_seqZ in Hb. len.
Qed.

Lemma mp_give_run a p b fl u1 u2 :
  mp_ok a p fl (u1 ++ b :: u2) ->
  exists p', mp_give b p = Some (tt, p') /\ mp_ok a p' (b :: fl) (u1 ++ u2) /\
    pool_blocks p' = pool_blocks p /\ mp_suspend_count p' = mp_suspend_count p.
Proof.
  intros [Hc Hu Hb Hd Hf Hs].
  assert (Hnd : NoDup (fl ++ u1 ++ b :: u2)) by (rewrite Hb; apply pool_blocks_nodup, Hs).
  assert (Hb2 : b ∉ fl ++ u1 ++ u2).
  { rewrite (assoc (++)) in Hnd. rewrite <- Permutation_middle in Hnd.
    apply list.NoDup_cons in Hnd as [Hnb _]. by rewrite (assoc (++)). }
  unfold mp_give. rewrite Hu by set_solver. simpl. eexists. split; [done|]. split; [|done].
  split; simpl; try done.
  - split; [done|]. exists (mp_block_list p). rewrite lookup_insert_eq. split; [done|].
    apply free_chain_frame; [set_solver|done].
  - intros x Hx. rewrite lookup_insert_ne by (intros ->; set_solver). apply Hu. set_solver.
  - change (pool_blocks _) with (pool_blocks p). rewrite <- Hb.
    rewrite <- Permutation_middle. by rewrite (Permutation_middle fl (u1 ++ u2) b).
  - intros x w. rewrite lookup_insert. case_decide as E; [subst x; intros _|apply Hd].
    eapply Hd, Hu. set_solver.
  - rewrite Hf. rewrite u32_id; [len|]. apply Permutation_length in Hb.
    unfold pool_blocks in Hb. rewrite length_fmap, length_seqZ in Hb. len.
Qed.

Lemma mp_step_run {A} a f p r p' k :
  k_mps k !! a = Some p -> f p = Some (r, p') -> @mp_step A a f k = Some (r, put_mp a p' k).
Proof.
  intros E Ef. unfold mp_step, get_mp, deref, mbind, M_bind. rewrite E. simpl. rewrite Ef. done.
Qed.

Lemma core0_put_mp b bd idle a p k : core0 b bd idle k -> core0 b bd idle (put_mp a p k).
Proof.
  intros [[Hwf Hw] Hi Hs]. split; [split|..]; try done;
    [by apply (sched_wf_ext k)|by apply (timer_wf_ext b bd k)].
Qed.
Lemma core_put_mp b bd idle a p k : core b bd idle k -> core b bd idle (put_mp a p k).
Proof. intros [H0 Hc]. split; [by apply core0_put_mp|done]. Qed.

(** With a free block, the block at the head of the free list is given out. *)
Lemma rt_mp_alloc_now a p b fl used time k :
  k_mps k !! a = Some p -> mp_ok a p (b :: fl) used ->
  exists p', rt_mp_alloc a time k = Some (Ret (Some (b + 4)), put_mp a p' k) /\
    mp_ok a p' fl (b :: used) /\ mp_suspend_count p' = mp_suspend_count p.
Proof.
  intros E H. destruct (mp_take_run a p b fl used H) as (p' & Ht & Hok & _ & Hc & _).
  exists p'. split; [|done]. unfold rt_mp_alloc, get_mp, mbind at 1, M_bind at 1. rewrite E. simpl.
  rewrite (po_free _ _ _ _ H). simpl.
  by rewrite (bind_run _ _ _ _ _ (mp_step_run a _ p b p' k E Ht)).
Qed.

(** Pools keep their blocks in different places. *)
Definition mps_apart (k : kstate) : Prop := forall a a' p p' b,
  k_mps k !! a = Some p -> k_mps k !! a' = Some p' ->
  is_Some (mp_link p !! b) -> is_Some (mp_link p' !! b) -> a = a'.

Lemma pool_of_run k a p b :
  mps_apart k -> k_mps k !! a = Some p -> mp_link p !! b = Some (inr a) -> pool_of b k = Some a.
Proof.
  intros Hd E Hb. unfold pool_of.
  destruct (list_find (fun x : Z * rt_mempool => is_Some (mp_link x.2 !! b)) (map_to_list (k_mps k)))
    as [[i [a' p']]|] eqn:Ef; simpl.
  - apply list_find_Some in Ef as (Ei & Hs & _). simpl in Hs.
    apply list_elem_of_lookup_2, elem_of_map_to_list in Ei.
    assert (a' = a) as -> by (eapply Hd; [done|done|done|by eexists]).
    rewrite E in Ei. injection Ei as <-. rewrite Hb. done.
  - exfalso. apply list_find_None in Ef. rewrite list.Forall_forall in Ef.
    apply (Ef (a, p)); [by apply elem_of_map_to_list|]. by eexists.
Qed.

(** The thread [t] at the head of a waiting list is resumed with the error [e]. *)
Lemma resume_with_error b bd idle h t l k e :
  core b bd idle k -> wait_list h -> queue k h = t :: l ->
  exists th k', k_threads k !! t = Some th /\
    (mod_thread t (set_th_error e);; rt_thread_resume t) k = Some (RT_EOK, k') /\
    core b bd idle k' /\ core_only k k' /\ queue k' h = l /\
    k_threads k' = <[t := set_th_stat RT_THREAD_READY (set_th_error e th)]> (k_threads k).
Proof.
  intros Hc Hh Hq. pose proof Hc as [[[Hwf Hw] _ _] _].
  destruct (wait_list_suspended k h t Hwf Hh) as (th & E & Hs); [rewrite Hq; set_solver|].
  set (the := set_th_error e th). set (k1 := put_th t the k).
  assert (Hc1 : core b bd idle k1).
  { apply put_th_core with th; try done. exact (wf_thread k Hwf t th E). }
  destruct (rt_thread_resume_core b bd idle k1 t the Hc1) as (k2 & Er & Hc2 & F & Et & Eq & _);
    [cbn; apply lookup_insert_eq|done|].
  pose proof (wf_nodup k Hwf h) as Hn. rewrite Hq in Hn. apply list.NoDup_cons in Hn as [Hn _].
  exists th, k2. split; [done|]. split; [mstep; fold the; fold k1; exact Er|]. split; [done|].
  split; [etrans; [|exact F]; by destruct k|]. split.
  - rewrite Eq by (intros p; by apply wait_list_not_ready). change (queue k1 h) with (queue k h).
    rewrite Hq, filter_cons_False by tauto. by apply filter_ne_id.
  - rewrite Et. cbn. by rewrite insert_insert_eq.
Qed.

(** [rt_mp_free] puts the block at the front of the free blocks and, when the count of
    waiting threads is right, wakes the thread at the head of the list without error. *)
Theorem rt_mp_free_refines b bd idle a p fl u1 blk u2 k :
  core b bd idle k -> mps_apart k -> k_mps k !! a = Some p -> mp_ok a p fl (u1 ++ blk :: u2) ->
  mp_suspend_count p = Z.of_nat (length (queue k (LSuspend (OMp a)))) -> mp_suspend_count p < 4294967296 ->
  exists k' p', rt_mp_free (blk + 4) k = Some (tt, k') /\ core b bd idle k' /\
    k_mps k' = <[a := p']> (k_mps k) /\ mp_ok a p' (blk :: fl) (u1 ++ u2) /\
    mp_suspend_count p' = Z.of_nat (length (queue k' (LSuspend (OMp a)))) /\
    match queue k (LSuspend (OMp a)) with
    | [] => k_threads k' = k_threads k
    | w :: ws => queue k' (LSuspend (OMp a)) = ws /\ exists th, k_threads k !! w = Some th /\
        k_threads k' = <[w := set_th_stat RT_THREAD_READY (set_th_error RT_EOK th)]> (k_threads k)
    end.
Proof.
  intros Hc Hd E Hok Hcnt Hlt.
  destruct (mp_give_run a p blk fl u1 u2 Hok) as (p1 & Hg & Hok1 & _ & Hc1).
  set (k1 := put_mp a p1 k). assert (Hck1 : core b bd idle k1) by by apply core_put_mp.
  assert (E1 : k_mps k1 !! a = Some p1) by apply lookup_insert_eq.
  assert (Hpo : kget (pool_of (blk + 4 - 4)) k = Some (Some a, k)).
  { assert (Hu : mp_link p !! blk = Some (inr a)) by (apply (po_used _ _ _ _ Hok); set_solver).
    unfold kget. by rewrite Z.add_simpl_r, (pool_of_run k a p blk). }
  unfold rt_mp_free. mstep_by Hpo. mstep. rewrite Z.add_simpl_r.
  mstep_by (mp_step_run a (mp_give blk) p tt p1 k E Hg). fold k1.
  assert (Hget : get_mp a k1 = Some (p1, k1)) by (unfold get_mp; by rewrite E1).
  mstep_by Hget. rewrite Hc1, Hcnt. destruct (queue k (LSuspend (OMp a))) as [|w ws] eqn:Eq.
  - exists k1, p1. split; [done|]. split; [done|]. split; [done|]. split; [done|].
    rewrite Hc1, Hcnt. change (queue k1) with (queue k). by rewrite Eq.
  - destruct (Z.ltb_spec 0 (Z.of_nat (length (w :: ws)))); [|simpl in *; lia].
    destruct (resume_with_error b bd idle (LSuspend (OMp a)) w ws k1 RT_EOK Hck1 I Eq)
      as (th & k2 & Et & Er & Hc2 & F2 & Hq2 & Eth2).
    assert (E2 : k_mps k2 !! a = Some p1) by (rewrite F2; done).
    set (p2 := set_mp_suspend_count (u32 (mp_suspend_count p1 - 1)) p1). set (k3 := put_mp a p2 k2).
    assert (Hc3 : core b bd idle k3) by by apply core_put_mp.
    destruct (rt_schedule_ready b bd idle k3 Hc3) as (k4 & Er4 & Hc4 & F4 & Et4 & Eq4 & _).
    exists k4, p2. split.
    { unfold list_first at 1. erewrite bind_run; [|change (queue k1) with (queue k); by rewrite Eq].
      unfold mbind in Er |- *. unfold M_bind in Er |- *. cbv beta in Er |- *.
      destruct (mod_thread w (set_th_error RT_EOK) k1) as [[[] k1']|]; [|done]. rewrite Er.
      assert (Hst : mp_step a (fun p => Some (tt, set_mp_suspend_count (u32 (mp_suspend_count p - 1)) p)) k2
        = Some (tt, k3)) by (by apply (mp_step_run a _ p1)).
      rewrite Hst. exact Er4. }
    split; [done|]. split; [rewrite F4; cbn; rewrite F2; cbn; by rewrite insert_insert_eq|].
    split; [by destruct Hok1|]. rewrite (queue_ext k3) by done. change (queue k3) with (queue k2). rewrite Hq2.
    split; [cbn; rewrite Hc1, Hcnt; len; rewrite u32_id; len|]. split; [done|].
    exists th. split; [exact Et|]. rewrite Et4. exact Eth2.
Qed.

(** A thread is suspended and put at the front of a list. *)
Lemma front_suspend_run b bd idle h t th k :
  core b bd idle k -> is_ready k t th -> t <> idle -> wait_list h ->
  let k0 := suspend_eff t th k in
  let k1 := put_queue h (t :: queue k h) k0 in
  rt_thread_suspend t k = Some (RT_EOK, k0) /\ tlist_insert_after h t k0 = Some (tt, k1) /\
  core0 b bd idle k1 /\ relocated t (set_th_stat RT_THREAD_SUSPEND th) (Some h) k k1 /\
  TmThread t ∉ k_timer_list k.
Proof.
  intros Hc Hr Hi Hh k0 k1. pose proof Hc as [[Hk _ _] _].
  pose proof Hk as [Hwf Hw]. pose proof Hr as [Eth Hs].
  destruct (rt_thread_suspend_run k t th Hwf Hr) as [Er Hrel0]. fold k0 in Er, Hrel0.
  assert (Hq0 : queue k0 h = queue k h).
  { unfold k0, suspend_eff. rewrite queue_ready_remove, (queue_ext k) by done. apply filter_ne_id.
    by apply (wait_list_unready k h t th). }
  assert (Hun : forall h', t ∉ queue k0 h').
  { destruct Hrel0 as (_ & _ & Hh' & _). intros h' Hin. by apply Hh' in Hin. }
  pose proof (tlist_insert_after_run h t k0 Hun) as Ei. rewrite Hq0 in Ei.
  set (ths := set_th_stat RT_THREAD_SUSPEND th).
  assert (Hrel : relocated t ths (Some h) k k1).
  { apply (relocated_link t ths h [] (queue k h)); [done| |done]. intros p. by apply wait_list_not_ready. }
  destruct (timer_off b bd k t th Hk Eth) as (tm & Em & Ha & _); [by rewrite Hs..|].
  assert (Hths : thread_wf ths).
  { apply thread_wf_stat; [by apply (wf_thread k Hwf t)|by rewrite Hs|auto]. }
  split; [done|]. split; [done|]. split; [|split; [done|by eapply ready_unlisted]].
  eapply relocated_core0; try done. intros h' [= <-]. by apply home_ok_wait.
Qed.

(** The branch of [rt_mp_alloc] that waits: at the front of the list of the pool. *)
Lemma rt_mp_alloc_wait b bd idle a p used time k t th :
  core b bd idle k -> k_current k = Some t -> is_ready k t th -> k_mps k !! a = Some p ->
  mp_ok a p [] used -> time <> 0 -> may_block b bd idle k t time ->
  exists k', rt_mp_alloc a time k = Some (Wait (FMpAlloc a), k') /\ core b bd idle k' /\
    k_current k' <> Some t /\ queue k' (LSuspend (OMp a)) = t :: queue k (LSuspend (OMp a)) /\
    k_mps k' = <[a := set_mp_suspend_count (u32 (mp_suspend_count p + 1)) p]> (k_mps k) /\
    k_threads k' = <[t := set_th_stat RT_THREAD_SUSPEND th]> (k_threads k) /\
    (0 < time -> TmThread t ∈ k_timer_list k' /\ exists tm, k_timers k' !! TmThread t = Some tm /\
       tm_timeout_tick tm = u32 (k_tick k + time)) /\ k_tick k' = k_tick k.
Proof.
  intros Hc Ec Hr E Hok Ht0 (Hi & H0 & Hint & Hlt & Hst). set (h := LSuspend (OMp a)).
  destruct (front_suspend_run b bd idle h t th k Hc Hr Hi I) as (Er & Ei & Hc1 & Hrel & Hnl).
  set (ths := set_th_stat RT_THREAD_SUSPEND th) in *. set (k0 := suspend_eff t th k) in *.
  set (k1 := put_queue h (t :: queue k h) k0) in *.
  pose proof Hrel as (Et & _ & _ & _ & _ & F).
  destruct (sched_only_fields _ _ F) as (F1 & F2 & F3 & F4 & F5 & _).
  pose proof (relocated_core _ _ _ _ _ Hrel) as Fc.
  assert (E1 : k_mps k1 !! a = Some p) by (rewrite Fc; done).
  set (p2 := set_mp_suspend_count (u32 (mp_suspend_count p + 1)) p). set (k2 := put_mp a p2 k1).
  assert (Hst2 : mp_step a (fun p => Some (tt, set_mp_suspend_count (u32 (mp_suspend_count p + 1)) p)) k1
    = Some (tt, k2)) by by apply (mp_step_run a _ p).
  assert (Hc2 : core0 b bd idle k2) by by apply core0_put_mp.
  assert (P : k_threads k2 = k_threads k1 /\ k_queues k2 = k_queues k1 /\ k_current k2 = k_current k1 /\
    k_timer_list k2 = k_timer_list k1 /\ k_tick k2 = k_tick k1 /\ k_mps k2 = <[a := p2]> (k_mps k1) /\
    k_lock_nest k2 = k_lock_nest k1) by done.
  destruct P as (P1 & P2 & P3 & P4 & P5 & P6 & P7).
  destruct (wait_timer_run b bd idle k2 t ths time Hc2) as (k3 & Er3 & Hc3 & F3' & Htm); try done.
  { rewrite P1, Et. apply lookup_insert_eq. }
  { by rewrite P4, F5. }
  { by rewrite P5, F3. }
  destruct (timers_only_fields k2 k3 F3') as (S1 & S2 & S3 & S5 & S6 & S4 & _).
  assert (Hcur3 : k_current k3 = Some t) by (by rewrite S3, P3, F1).
  destruct (schedule_then_wait b bd idle k3 t ths (FMpAlloc a) (r ← rt_mp_alloc_resume t a; mret (Ret r)) Hc3 Hcur3)
    as (pr & u & Es & Hcu & Hu); [rewrite S1, P1, Et; apply lookup_insert_eq|done| |].
  { rewrite S5, P7, Fc. done. }
  exists (switch_to pr u k3). split.
  { unfold rt_mp_alloc. assert (Hget : get_mp a k = Some (p, k)) by (unfold get_mp; by rewrite E).
    mstep_by Hget. rewrite (po_free _ _ _ _ Hok).
    change (negb (Z.of_nat (length (@nil Z)) =? 0)) with false. cbv iota.
    destruct (Z.eqb_spec time 0); [done|].
    assert (Hni : RT_DEBUG_NOT_IN_INTERRUPT k = Some (tt, k)).
    { unfold RT_DEBUG_NOT_IN_INTERRUPT. mstep. by rewrite Hint. }
    mstep_by Hni. mstep. rewrite Ec. mstep. mstep_by Er. mstep_by Ei. mstep_by Hst2. mstep_by Er3. exact Es. }
  split; [done|]. split; [cbn; congruence|]. split.
  { rewrite (queue_ext k1); [apply queue_put_eq|]. change (k_queues k3 = k_queues k1). by rewrite S2. }
  split; [change (k_mps k3 = <[a := p2]> (k_mps k)); by rewrite S4, P6, Fc|].
  split; [change (k_threads k3 = <[t := ths]> (k_threads k)); by rewrite S1, P1, Et|].
  split; [|change (k_tick k3 = k_tick k); by rewrite S6, P5, F3].
  intros Hp. rewrite (proj2 (Z.ltb_lt 0 time) Hp) in Htm. destruct Htm as (Hin & tm3 & Em3 & Etm).
  split; [done|]. exists tm3. rewrite <- F3, <- P5. split; [|done].
  change (k_timers k3 !! TmThread t = Some tm3). rewrite Em3. apply lookup_insert_eq.
Qed.

(** [rt_mp_alloc] hands out a free block, which is apart from all blocks in use, or
    refuses, or lets the caller wait, as the pool and the time given say. *)
Theorem rt_mp_alloc_spec idle a p free used time k t th :
  core (k_tick k) RT_TICK_HALF idle k -> k_current k = Some t -> is_ready k t th ->
  k_mps k !! a = Some p -> mp_ok a p free used ->
  (free = [] -> time <> 0 -> may_block (k_tick k) RT_TICK_HALF idle k t time) ->
  exists r k', rt_mp_alloc a time k = Some (r, k') /\ core (k_tick k') RT_TICK_HALF idle k' /\
    match free with
    | b :: fl => r = Ret (Some (b + 4)) /\ (exists p', k' = put_mp a p' k /\ mp_ok a p' fl (b :: used)) /\
        forall c, c ∈ used -> b + 4 + mp_block_size p <= c \/ c + 4 + mp_block_size p <= b
    | [] =>
        if time =? 0 then r = Ret None /\ k' = k
        else r = Wait (FMpAlloc a) /\ k_current k' <> Some t /\
          queue k' (LSuspend (OMp a)) = t :: queue k (LSuspend (OMp a)) /\
          k_threads k' = <[t := set_th_stat RT_THREAD_SUSPEND th]> (k_threads k)
    end.
Proof.
  intros Hc Ec Hr E Hok Hb. destruct free as [|b fl].
  - destruct (Z.eqb_spec time 0) as [->|Ht].
    + exists (Ret None), k. split; [|done]. unfold rt_mp_alloc, get_mp, mbind, M_bind. rewrite E. simpl.
      by rewrite (po_free _ _ _ _ Hok).
    + destruct (rt_mp_alloc_wait _ _ idle a p used time k t th Hc Ec Hr E Hok Ht (Hb eq_refl Ht))
        as (k' & Er & Hc' & Hcu & Hq & Hmp & Eth & _ & Etk).
      exists (Wait (FMpAlloc a)), k'. rewrite Etk. done.
  - destruct (rt_mp_alloc_now a p b fl used time k E Hok) as (p' & Er & Hok' & _).
    exists (Ret (Some (b + 4))), (put_mp a p' k). split; [done|]. split; [by apply core_put_mp|].
    split; [done|]. split; [by exists p'|]. intros c Hcu. destruct Hok as [_ _ Hbl _ _ Hsz].
    apply pool_blocks_apart; [apply Hsz|rewrite <- Hbl; set_solver|rewrite <- Hbl; set_solver|].
    intros ->. assert (Hnd : NoDup ((c :: fl) ++ used)) by (rewrite Hbl; apply pool_blocks_nodup, Hsz).
    apply list.NoDup_cons in Hnd as [Hnb _]. set_solver.
Qed.

(** The links of a new pool run through its blocks in order. *)
Lemma mp_init_links_lookup start bs n : forall i x w, 0 <= bs ->
  mp_init_links start bs i n !! x = Some w -> x ∈ block_addr start bs <$> seqZ i (Z.of_nat n).
Proof.
  induction n as [|n IH]; intros i x w Hb; simpl; [by rewrite lookup_empty|].
  rewrite seqZ_cons by lia. replace (Z.pred (Z.of_nat (S n))) with (Z.of_nat n) by lia.
  replace (Z.succ i) with (i + 1) by lia. rewrite lookup_insert. case_decide as Hd.
  - intros _. subst x. rewrite fmap_cons. left.
  - intros H. rewrite fmap_cons. right. by eapply IH.
Qed.

Lemma mp_init_links_chain start bs n : forall i, 0 <= bs ->
  free_chain (mp_init_links start bs i n)
    (if (0 <? n)%nat then Some (block_addr start bs i) else None)
    (block_addr start bs <$> seqZ i (Z.of_nat n)).
Proof.
  induction n as [|n IH]; intros i Hb; [done|].
  rewrite seqZ_cons by lia. replace (Z.pred (Z.of_nat (S n))) with (Z.of_nat n) by lia.
  replace (Z.succ i) with (i + 1) by lia. rewrite fmap_cons. split; [done|]. simpl.
  eexists. rewrite lookup_insert_eq. split; [done|]. apply free_chain_frame; [|by apply IH].
  intros Hin. apply list_elem_of_fmap in Hin as (j & Hj & Hj2). apply elem_of_seqZ in Hj2.
  unfold block_addr in Hj. nia.
Qed.

(** A new pool is in order, with all blocks free. *)
Lemma fresh_pool_ok a start psize bs total :
  0 <= bs -> 0 < total < 4294967296 ->
  let p := MemPool start psize bs (Some start) total total (mp_init_links start bs 0 (Z.to_nat total)) 0 in
  mp_ok a p (pool_blocks p) [].
Proof.
  intros Hb Ht p. split; cbn -[mp_init_links].
  - pose proof (mp_init_links_chain start bs (Z.to_nat total) 0 ltac:(lia)) as Hc.
    destruct (Nat.ltb_spec 0 (Z.to_nat total)); [|lia]. rewrite Z2Nat.id in Hc by lia.
    unfold block_addr at 1 in Hc. by rewrite Z.mul_0_l, Z.add_0_r in Hc.
  - intros x Hx. by apply not_elem_of_nil in Hx.
  - by rewrite app_nil_r.
  - intros x w Hx. apply mp_init_links_lookup in Hx; [|lia]. by rewrite Z2Nat.id in Hx by lia.
  - unfold pool_blocks. cbn. rewrite length_fmap, length_seqZ. lia.
  - lia.
Qed.

(** [rt_mp_init] cuts the memory into as many blocks as fit with their links, all free
    and linked in the order of their addresses. *)
Theorem rt_mp_init_ok a name start size block_size k :
  valid_name name -> registered (OMp a) k = false ->
  0 <= size < 4294967296 -> 0 <= block_size -> RT_ALIGN block_size 4 + 4 <= size - size mod 4 ->
  block_size < 4294967288 ->
  exists k' p, rt_mp_init a name start size block_size k = Some (RT_EOK, k') /\ k_mps k' !! a = Some p /\ mp_ok a p (pool_blocks p) [] /\
    mp_block_size p = RT_ALIGN block_size 4 /\ block_size <= mp_block_size p < block_size + 4 /\
    mp_total p = (size - size mod 4) / (mp_block_size p + 4) /\ 0 < mp_total p /\
    queue k' (LSuspend (OMp a)) = [] /\ mp_suspend_count p = 0.
Proof.
  intros Hnm Hrg Hs Hb Hfit Hb2. unfold rt_mp_init, mbind, M_bind.
  rewrite (rt_object_init_run (OMp a) name k Hnm Hrg). set (k1 := object_added (OMp a) name k).
  rewrite RT_ALIGN_DOWN_4 by lia. set (bs := RT_ALIGN block_size 4) in *.
  assert (Hbs : block_size <= bs < block_size + 4)
    by (unfold bs; rewrite RT_ALIGN_4 by lia; Z.div_mod_to_equations; lia).
  clearbody bs. rewrite (u32_id (bs + 4)) by lia. cbn -[mp_init_links queue].
  set (total := (size - size mod 4) / (bs + 4)).
  assert (Ht : 0 <= total < 4294967296) by (unfold total; split; [apply Z.div_pos|apply Z.div_lt_upper_bound];
    Z.div_mod_to_equations; nia).
  assert (Hn : 0 < total) by (apply Z.div_str_pos; lia).
  destruct (Z.eqb_spec total 0); cbn -[mp_init_links queue]; [lia|]. eexists _, _. split; [done|].
  cbn -[mp_init_links queue]. rewrite lookup_insert_eq. split; [done|].
  split; [|split; [done|split; [done|split; [done|split; [cbn; lia|split; [|done]]]]]].
  - apply fresh_pool_ok; lia.
  - rewrite (queue_ext (put_queue (LSuspend (OMp a)) [] k1)) by done. apply queue_put_eq.
Qed.
