(* ===== verification/Mem.v ===== *)
(** * The system heap (src/src/mem.c)

    The allocator of the board ([RT_USING_SMALL_MEM]): the heap is tiled by blocks,
    each with a header that links it to the next and the previous one.  Addresses
    inside the heap are offsets from [heap_ptr], as in the code.  This file has the heap
    itself: what the functions of mem.c do before they take the semaphore [heap_sem]
    ([malloc_prepare], [free_check]), while they hold it ([malloc_locked], [free_locked],
    [realloc_locked]), and, as a reference, the whole effect of a call that nothing
    interrupts ([heap_malloc] and so on).  Heap.v has the functions themselves.

    [None] is a failed assertion or an access to a header that is not there. *)
From S2P Require Import Prelude KService Kernel.

Definition HEAP_MAGIC : Z := 7840.
Definition MIN_SIZE : Z := 12.
Definition MIN_SIZE_ALIGNED : Z := RT_ALIGN MIN_SIZE 4.
Definition SIZEOF_STRUCT_MEM : Z := RT_ALIGN 12 4.

(** [struct heap_mem]. *)
Record heap_mem := HeapMem { hm_magic : Z; hm_used : Z; hm_next : Z; hm_prev : Z }.
Definition set_hm_magic (v : Z) (m : heap_mem) := HeapMem v (hm_used m) (hm_next m) (hm_prev m).
Definition set_hm_used (v : Z) (m : heap_mem) := HeapMem (hm_magic m) v (hm_next m) (hm_prev m).
Definition set_hm_next (v : Z) (m : heap_mem) := HeapMem (hm_magic m) (hm_used m) v (hm_prev m).
Definition set_hm_prev (v : Z) (m : heap_mem) := HeapMem (hm_magic m) (hm_used m) (hm_next m) v.

(** The static variables of mem.c; the headers are kept by offset, the bytes of the
    heap by address. *)
Record heap := Heap {
  h_ptr : Z;        (**r heap_ptr *)
  h_size : Z;       (**r mem_size_aligned *)
  h_end : Z;        (**r heap_end, as an offset *)
  h_blk : gmap Z heap_mem;
  h_lfree : Z;      (**r lfree, as an offset *)
  h_used : Z;       (**r used_mem *)
  h_max : Z;        (**r max_mem *)
  h_mem : gmap Z Z  (**r contents *)
}.
Definition set_h_blk (v : gmap Z heap_mem) (h : heap) : heap :=
  Heap (h_ptr h) (h_size h) (h_end h) v (h_lfree h) (h_used h) (h_max h) (h_mem h).
Definition set_h_lfree (v : Z) (h : heap) : heap :=
  Heap (h_ptr h) (h_size h) (h_end h) (h_blk h) v (h_used h) (h_max h) (h_mem h).
Definition set_h_used (v : Z) (h : heap) : heap :=
  Heap (h_ptr h) (h_size h) (h_end h) (h_blk h) (h_lfree h) v (h_max h) (h_mem h).
Definition set_h_max (v : Z) (h : heap) : heap :=
  Heap (h_ptr h) (h_size h) (h_end h) (h_blk h) (h_lfree h) (h_used h) v (h_mem h).
Definition set_h_mem (v : gmap Z Z) (h : heap) : heap :=
  Heap (h_ptr h) (h_size h) (h_end h) (h_blk h) (h_lfree h) (h_used h) (h_max h) v.

(** Changing a header; a header that is not there is an invalid access. *)
Definition mod_blk (o : Z) (f : heap_mem -> heap_mem) (h : heap) : option heap :=
  m ← h_blk h !! o; Some (set_h_blk (<[o := f m]> (h_blk h)) h).

(** [plug_holes]: a free block is joined with a free block after and before it. *)
Definition plug_forward (o : Z) (h : heap) : option heap :=
  mem ← h_blk h !! o;
  let n := hm_next mem in
  nmem ← h_blk h !! n;
  if negb (o =? n) && (hm_used nmem =? 0) && negb (n =? h_end h) then
    let h1 := if h_lfree h =? n then set_h_lfree o h else h in
    h2 ← mod_blk o (set_hm_next (hm_next nmem)) h1;
    mod_blk (hm_next nmem) (set_hm_prev o) h2
  else Some h.
Definition plug_backward (o : Z) (h : heap) : option heap :=
  mem ← h_blk h !! o;
  let p := hm_prev mem in
  pmem ← h_blk h !! p;
  if negb (p =? o) && (hm_used pmem =? 0) then
    let h1 := if h_lfree h =? o then set_h_lfree p h else h in
    h2 ← mod_blk p (set_hm_next (hm_next mem)) h1;
    mod_blk (hm_next mem) (set_hm_prev p) h2
  else Some h.
Definition plug_holes (o : Z) (h : heap) : option heap :=
  mem ← h_blk h !! o;
  if (0 <=? o) && (o <? h_end h) && (hm_used mem =? 0) then
    h1 ← plug_forward o h; plug_backward o h1
  else None.

(** The test of [rt_system_heap_init] on the aligned addresses. *)
Definition heap_range_ok (begin_addr end_addr : Z) : bool :=
  let begin_align := RT_ALIGN begin_addr 4 in
  let end_align := RT_ALIGN_DOWN end_addr 4 in
  (2 * SIZEOF_STRUCT_MEM <? end_align) &&
  (begin_align <=? u32 (end_align - 2 * SIZEOF_STRUCT_MEM)).
(** [rt_system_heap_init] on the heap; [h0] is the state of the static variables before. *)
Definition heap_init (begin_addr end_addr : Z) (h0 : heap) : heap :=
  let begin_align := RT_ALIGN begin_addr 4 in
  let end_align := RT_ALIGN_DOWN end_addr 4 in
  if heap_range_ok begin_addr end_addr then
    let size := u32 (end_align - begin_align - 2 * SIZEOF_STRUCT_MEM) in
    let e := u32 (size + SIZEOF_STRUCT_MEM) in
    Heap begin_align size e
      (<[e := HeapMem HEAP_MAGIC 1 e e]> (<[0 := HeapMem HEAP_MAGIC 0 e 0]> ∅))
      0 (h_used h0) (h_max h0) (h_mem h0)
  else h0.

(** The first block from [ptr] on that is free and large enough; [fuel] bounds the
    iterations of the loop of [rt_malloc]. *)
Fixpoint malloc_search (fuel : nat) (ptr size : Z) (h : heap) : option (option Z) :=
  if ptr <? u32 (h_size h - size) then
    match fuel with
    | O => None
    | S fuel' =>
        mem ← h_blk h !! ptr;
        if (hm_used mem =? 0) && (size <=? u32 (hm_next mem - u32 (ptr + SIZEOF_STRUCT_MEM)))
        then Some (Some ptr)
        else malloc_search fuel' (hm_next mem) size h
    end
  else Some None.

(** [used_mem += n; if (max_mem < used_mem) max_mem = used_mem]. *)
Definition count_used (n : Z) (h : heap) : heap :=
  let h1 := set_h_used (u32 (h_used h + n)) h in
  if h_max h1 <? h_used h1 then set_h_max (h_used h1) h1 else h1.

(** The block after a new remainder points back to it, unless it is the end. *)
Definition relink_next (s o2 : Z) (h : heap) : option heap :=
  if negb (s =? u32 (h_size h + SIZEOF_STRUCT_MEM)) then mod_blk s (set_hm_prev o2) h else Some h.

(** The block at [ptr] is taken: split when the rest can hold a block of its own. *)
Definition malloc_take (ptr size : Z) (h : heap) : option heap :=
  mem ← h_blk h !! ptr;
  if size + SIZEOF_STRUCT_MEM + MIN_SIZE_ALIGNED <=? u32 (hm_next mem - u32 (ptr + SIZEOF_STRUCT_MEM)) then
    let ptr2 := u32 (ptr + SIZEOF_STRUCT_MEM + size) in
    (** the magic field of the remainder is not written *)
    let magic2 := match h_blk h !! ptr2 with Some m => hm_magic m | None => 0 end in
    let h1 := set_h_blk (<[ptr2 := HeapMem magic2 0 (hm_next mem) ptr]> (h_blk h)) h in
    h2 ← mod_blk ptr (fun m => set_hm_used 1 (set_hm_next ptr2 m)) h1;
    h3 ← relink_next (hm_next mem) ptr2 h2;
    Some (count_used (size + SIZEOF_STRUCT_MEM) h3)
  else
    h1 ← mod_blk ptr (set_hm_used 1) h;
    Some (count_used (u32 (hm_next mem - ptr)) h1).

(** The loop that moves [lfree] to the next free block. *)
Fixpoint lfree_search (fuel : nat) (h : heap) : option heap :=
  mem ← h_blk h !! h_lfree h;
  if negb (hm_used mem =? 0) && negb (h_lfree h =? h_end h) then
    match fuel with
    | O => None
    | S fuel' => lfree_search fuel' (set_h_lfree (hm_next mem) h)
    end
  else Some h.

(** Blocks are at least 24 bytes apart: more than enough iterations to pass all of them. *)
Definition heap_fuel (h : heap) : nat := Z.to_nat (h_size h / 12 + 2).

(** [rt_malloc] before it takes the semaphore: [None] when it returns [RT_NULL] at once,
    else the size of the block it looks for. *)
Definition malloc_prepare (size : Z) (h : heap) : option Z :=
  if size =? 0 then None
  else
    let size := RT_ALIGN size 4 in
    if h_size h <? size then None
    else Some (if size <? MIN_SIZE_ALIGNED then MIN_SIZE_ALIGNED else size).

(** [rt_malloc] between taking and releasing the semaphore, with the assertions on the
    result; 0 stands for [RT_NULL]. *)
Definition malloc_locked (size : Z) (h : heap) : option (Z * heap) :=
  found ← malloc_search (heap_fuel h) (h_lfree h) size h;
  match found with
  | None => Some (0, h)
  | Some ptr =>
      h1 ← malloc_take ptr size h;
      h2 ← mod_blk ptr (set_hm_magic HEAP_MAGIC) h1;
      h3 ← (if ptr =? h_lfree h2 then lfree_search (heap_fuel h2) h2 else Some h2);
      if (u32 (h_ptr h3 + ptr) + SIZEOF_STRUCT_MEM + size <=? u32 (h_ptr h3 + h_end h3)) &&
         (u32 (h_ptr h3 + ptr + SIZEOF_STRUCT_MEM) mod 4 =? 0) &&
         (Z.land (u32 (h_ptr h3 + ptr)) 3 =? 0)
      then Some (u32 (h_ptr h3 + ptr + SIZEOF_STRUCT_MEM), h3) else None
  end.

(** The whole of [rt_malloc] on the heap. *)
Definition heap_malloc (size : Z) (h : heap) : option (Z * heap) :=
  match malloc_prepare size h with
  | None => Some (0, h)
  | Some size => malloc_locked size h
  end.

(** [rt_free]: the assertions on the address, and what is done under the semaphore. *)
Definition free_check (rmem : Z) (h : heap) : bool :=
  (Z.land rmem 3 =? 0) && (h_ptr h <=? rmem) && (rmem <? u32 (h_ptr h + h_end h)).
Definition free_locked (rmem : Z) (h : heap) : option heap :=
  let o := rmem - SIZEOF_STRUCT_MEM - h_ptr h in
  mem ← h_blk h !! o;
  if negb (hm_used mem =? 0) && (hm_magic mem =? HEAP_MAGIC) then
    h1 ← mod_blk o (fun m => set_hm_magic 0 (set_hm_used 0 m)) h;
    let h2 := if o <? h_lfree h1 then set_h_lfree o h1 else h1 in
    let h3 := set_h_used (u32 (h_used h2 - u32 (hm_next mem - o))) h2 in
    plug_holes o h3
  else None.

(** The whole of [rt_free] on the heap. *)
Definition heap_free (rmem : Z) (h : heap) : option heap :=
  if rmem =? 0 then Some h
  else if negb (free_check rmem h) then None
  else free_locked rmem h.

(** [rt_memcpy] and [rt_memset] on the contents. *)
Definition mem_copy (dst src : Z) (n : nat) (h : heap) : heap :=
  set_h_mem (foldl (fun m i => partial_alter (fun _ => m !! (src + i)) (dst + i) m)
    (h_mem h) (seqZ 0 (Z.of_nat n))) h.
Definition mem_zero (dst : Z) (n : nat) (h : heap) : heap :=
  set_h_mem (foldl (fun m i => <[dst + i := 0]> m) (h_mem h) (seqZ 0 (Z.of_nat n))) h.

(** The part of [rt_realloc] that makes a block smaller. *)
Definition realloc_shrink (ptr size newsize : Z) (h : heap) : option heap :=
  mem ← h_blk h !! ptr;
  let h0 := set_h_used (u32 (h_used h - (size - newsize))) h in
  let ptr2 := u32 (ptr + SIZEOF_STRUCT_MEM + newsize) in
  let h1 := set_h_blk (<[ptr2 := HeapMem HEAP_MAGIC 0 (hm_next mem) ptr]> (h_blk h0)) h0 in
  h2 ← mod_blk ptr (set_hm_next ptr2) h1;
  h3 ← relink_next (hm_next mem) ptr2 h2;
  plug_holes ptr2 h3.

(** What [rt_realloc] does under the semaphore: it has its result, or the block of [size]
    bytes has to move. *)
Inductive realloc_out := RDone (p : Z) | RMove (size : Z).
Definition realloc_locked (rmem newsize : Z) (h : heap) : option (realloc_out * heap) :=
  if (rmem <? h_ptr h) || (u32 (h_ptr h + h_end h) <=? rmem) then Some (RDone rmem, h)
  else
    let ptr := rmem - SIZEOF_STRUCT_MEM - h_ptr h in
    mem ← h_blk h !! ptr;
    let size := u32 (hm_next mem - ptr - SIZEOF_STRUCT_MEM) in
    if size =? newsize then Some (RDone rmem, h)
    else if u32 (newsize + SIZEOF_STRUCT_MEM + MIN_SIZE) <? size then
      h' ← realloc_shrink ptr size newsize h; Some (RDone rmem, h')
    else Some (RMove size, h).

(** The copy of the contents into the new block. *)
Definition realloc_copy (nmem rmem size newsize : Z) (h : heap) : heap :=
  mem_copy nmem rmem (Z.to_nat (if size <? newsize then size else newsize)) h.

(** The whole of [rt_realloc] on the heap. *)
Definition heap_realloc (rmem newsize : Z) (h : heap) : option (Z * heap) :=
  let newsize := RT_ALIGN newsize 4 in
  if h_size h <? newsize then Some (0, h)
  else if rmem =? 0 then heap_malloc newsize h
  else
    r ← realloc_locked rmem newsize h;
    match r with
    | (RDone p, h1) => Some (p, h1)
    | (RMove size, h1) =>
        n ← heap_malloc newsize h1;
        if n.1 =? 0 then Some (0, n.2)
        else h2 ← heap_free rmem (realloc_copy n.1 rmem size newsize n.2); Some (n.1, h2)
    end.

(** The whole of [rt_calloc] on the heap. *)
Definition heap_calloc (count size : Z) (h : heap) : option (Z * heap) :=
  r ← heap_malloc (u32 (count * size)) h;
  if r.1 =? 0 then Some r else Some (r.1, mem_zero r.1 (Z.to_nat (u32 (count * size))) r.2).

(** [rt_memory_info]: the total, the bytes in use, and the most that were. *)
Definition rt_memory_info (h : heap) : Z * Z * Z := (h_size h, h_used h, h_max h).

(** ** The invariant *)

(** A block: its offset, the offset of the next one, and whether it is used. *)
Record blk := Blk { b_off : Z; b_next : Z; b_used : bool }.

Definition header_of (b : blk) (prev : Z) (m : heap_mem) : Prop :=
  hm_used m = (if b_used b then 1 else 0) /\ hm_next m = b_next b /\ hm_prev m = prev /\
  (b_used b = true -> hm_magic m = HEAP_MAGIC).

(** The blocks [bs] lie next to each other from [o] to [e], their headers linked. *)
Fixpoint tiles (hs : gmap Z heap_mem) (prev o e : Z) (bs : list blk) : Prop :=
  match bs with
  | [] => o = e
  | b :: bs' => b_off b = o /\ o + 24 <= b_next b /\ b_next b mod 4 = 0 /\
      (exists m, hs !! o = Some m /\ header_of b prev m) /\ tiles hs o (b_next b) e bs'
  end.

(** The entry at the end of the heap is marked used. *)
Definition end_ok (hs : gmap Z heap_mem) (e : Z) : Prop :=
  exists m, hs !! e = Some m /\ hm_used m = 1.

(** No two free blocks next to each other. *)
Fixpoint coalesced (bs : list blk) : Prop :=
  match bs with
  | b :: (c :: _) as bs' => (b_used b = true \/ b_used c = true) /\ coalesced bs'
  | _ => True
  end.

Definition used_bytes (bs : list blk) : Z :=
  foldr (fun b n => (if b_used b then b_next b - b_off b else 0) + n) 0 bs.

(** The offset of the first free block, the end of the heap when there is none. *)
Fixpoint first_free (e : Z) (bs : list blk) : Z :=
  match bs with
  | [] => e
  | b :: bs' => if b_used b then first_free e bs' else b_off b
  end.

(** The heap is tiled by the blocks [bs]. *)
Record heap_wf (h : heap) (bs : list blk) : Prop := {
  hw_size : 12 <= h_size h /\ h_size h mod 4 = 0;
  hw_ptr : 0 < h_ptr h /\ h_ptr h mod 4 = 0 /\ h_ptr h + h_size h + 24 < 4294967296;
  hw_end : h_end h = h_size h + 12;
  hw_tiles : tiles (h_blk h) 0 0 (h_end h) bs;
  hw_last : end_ok (h_blk h) (h_end h);
  hw_coalesced : coalesced bs;
  hw_used : h_used h = used_bytes bs;
  hw_max : h_used h <= h_max h;
  hw_lfree : h_lfree h = first_free (h_end h) bs
}.

(** What the clients of the heap see: the regions they hold, as (address, size). *)
Definition region (h : heap) (b : blk) : Z * Z :=
  (h_ptr h + b_off b + SIZEOF_STRUCT_MEM, b_next b - b_off b - SIZEOF_STRUCT_MEM).
Definition live (h : heap) (bs : list blk) : list (Z * Z) :=
  region h <$> filter (fun b => b_used b = true) bs.

(** The size a request is rounded to. *)
Definition request (size : Z) : Z := Z.max 12 (RT_ALIGN size 4).

(** The reference search: the first free block below [lim] with room for [n] bytes. *)
Definition fits (n : Z) (b : blk) : bool :=
  negb (b_used b) && (n <=? b_next b - (b_off b + SIZEOF_STRUCT_MEM)).
Fixpoint first_fit (lim n : Z) (bs : list blk) : option blk :=
  match bs with
  | [] => None
  | b :: bs' => if b_off b <? lim then if fits n b then Some b else first_fit lim n bs' else None
  end.

(** ** Lemmas on the tiling *)

Lemma tiles_le hs bs : forall p o e, tiles hs p o e bs -> o + 24 * Z.of_nat (length bs) <= e.
Proof.
  induction bs as [|b bs IH]; simpl; intros p o e H; [lia|].
  destruct H as (? & ? & ? & ? & H). apply IH in H. lia.
Qed.

Lemma tiles_frame hs hs' bs : forall p o e,
  (forall x, o <= x < e -> hs' !! x = hs !! x) -> tiles hs p o e bs -> tiles hs' p o e bs.
Proof.
  induction bs as [|b bs IH]; simpl; intros p o e Hf H; [done|].
  destruct H as (? & ? & ? & ? & H). pose proof (tiles_le _ _ _ _ _ H).
  rewrite Hf by lia. do 4 (split; [done|]). eapply IH, H. intros x Hx. apply Hf. lia.
Qed.

(** The offset a prefix leaves as the previous block of what follows it. *)
Definition last_off (p : Z) (bs : list blk) : Z := default p (b_off <$> list.last bs).

Lemma last_off_cons p b bs : last_off p (b :: bs) = last_off (b_off b) bs.
Proof. unfold last_off. rewrite list.last_cons. by destruct (list.last bs). Qed.

Lemma tiles_app hs l1 l2 : forall p o e,
  tiles hs p o e (l1 ++ l2) <->
  exists m, tiles hs p o m l1 /\ tiles hs (last_off p l1) m e l2.
Proof.
  induction l1 as [|b l1 IH]; simpl; intros p o e.
  - split; [by exists o|]. by intros (m & -> & H).
  - split.
    + intros (Ho & ? & ? & ? & H). apply IH in H as (m & Ha & Hb). exists m.
      rewrite last_off_cons, Ho. by split_and!.
    + intros (m & (Ho & ? & ? & ? & Ha) & Hb). rewrite last_off_cons, Ho in Hb.
      split_and!; [done..|]. apply IH. by exists m.
Qed.

(** What is known of the header at the start of a suffix of the heap. *)
Lemma tail_lookup hs p o e bs :
  tiles hs p o e bs -> end_ok hs e -> exists m, hs !! o = Some m.
Proof.
  destruct bs as [|b bs]; simpl.
  - intros -> (m & H & _). by exists m.
  - intros (_ & _ & _ & (m & H & _) & _) _. by exists m.
Qed.

(** Writing the [prev] field of the first header of a suffix. *)
Lemma tail_relink hs p p' o e bs m :
  tiles hs p o e bs -> end_ok hs e -> hs !! o = Some m ->
  tiles (<[o := set_hm_prev p' m]> hs) p' o e bs /\ end_ok (<[o := set_hm_prev p' m]> hs) e.
Proof.
  destruct bs as [|b bs]; simpl.
  - intros -> (m' & H & Hu) Hm. assert (m' = m) as -> by congruence. split; [done|]. eexists. by rewrite lookup_insert_eq.
  - intros (Ho & Hs & H4 & (m' & Hm' & Hh) & Ht) (me & He & Hu) Hm. assert (m' = m) as -> by congruence.
    pose proof (tiles_le _ _ _ _ _ Ht). split.
    + split_and!; [done..| |].
      * exists (set_hm_prev p' m). rewrite lookup_insert_eq. split; [done|].
        destruct Hh as (? & ? & ? & ?). by repeat split.
      * eapply tiles_frame, Ht. intros x Hx. apply lookup_insert_ne. lia.
    + exists me. rewrite lookup_insert_ne by lia. done.
Qed.

(** A block in the middle of the heap, with what is before and after it. *)
Lemma tiles_middle hs e pre b post :
  tiles hs 0 0 e (pre ++ b :: post) ->
  tiles hs 0 0 (b_off b) pre /\ 0 <= b_off b /\ b_off b + 24 <= b_next b <= e /\
  b_next b mod 4 = 0 /\
  (exists m, hs !! b_off b = Some m /\ header_of b (last_off 0 pre) m) /\
  tiles hs (b_off b) (b_next b) e post.
Proof.
  intros H. apply tiles_app in H as (m & Hp & Ho & Hn & H4 & Hm & Ht).
  rewrite Ho. pose proof (tiles_le _ _ _ _ _ Hp). pose proof (tiles_le _ _ _ _ _ Ht).
  split_and!; try done; lia.
Qed.

Lemma tiles_build hs e pre b post :
  tiles hs 0 0 (b_off b) pre -> b_off b + 24 <= b_next b -> b_next b mod 4 = 0 ->
  (exists m, hs !! b_off b = Some m /\ header_of b (last_off 0 pre) m) ->
  tiles hs (b_off b) (b_next b) e post -> tiles hs 0 0 e (pre ++ b :: post).
Proof. intros. apply tiles_app. exists (b_off b). by split_and!. Qed.

Lemma tiles_off_mod4 hs bs : forall p o e b,
  tiles hs p o e bs -> o mod 4 = 0 -> b ∈ bs -> b_off b mod 4 = 0.
Proof.
  induction bs as [|c bs IH]; simpl; intros p o e b H Ho Hb; [by apply not_elem_of_nil in Hb|].
  destruct H as (Hc & ? & H4 & ? & H). apply elem_of_cons in Hb as [->|Hb]; [by rewrite Hc|].
  by eapply IH.
Qed.

Lemma tiles_off hs bs : forall p o e b, tiles hs p o e bs -> b ∈ bs -> o <= b_off b < e.
Proof.
  induction bs as [|c bs IH]; simpl; intros p o e b H Hb; [by apply not_elem_of_nil in Hb|].
  destruct H as (Hc & ? & H4 & ? & H). pose proof (tiles_le _ _ _ _ _ H).
  apply elem_of_cons in Hb as [->|Hb]; [lia|]. apply (IH _ _ _ _ H) in Hb. lia.
Qed.

Lemma used_bytes_app l1 l2 : used_bytes (l1 ++ l2) = used_bytes l1 + used_bytes l2.
Proof. induction l1 as [|b l1 IH]; simpl; [lia|]. fold used_bytes. unfold used_bytes in *. lia. Qed.

Lemma used_bytes_le hs bs : forall p o e, tiles hs p o e bs -> 0 <= used_bytes bs <= e - o.
Proof.
  induction bs as [|b bs IH]; simpl; intros p o e H; [unfold used_bytes; simpl; lia|].
  destruct H as (Hb & ? & ? & ? & H). apply IH in H. unfold used_bytes in *. simpl.
  destruct (b_used b); lia.
Qed.

Lemma first_free_app_used e l1 l2 :
  Forall (fun b => b_used b = true) l1 -> first_free e (l1 ++ l2) = first_free e l2.
Proof. induction 1 as [|b l1 Hb _ IH]; simpl; [done|]. by rewrite Hb. Qed.

(** The first free block splits the blocks into used ones and the rest. *)
Lemma first_free_split hs bs : forall p o e, tiles hs p o e bs ->
  exists pre post, bs = pre ++ post /\ Forall (fun b => b_used b = true) pre /\
    tiles hs (last_off p pre) (first_free e bs) e post /\
    first_free e bs = first_free e post.
Proof.
  induction bs as [|b bs IH]; simpl; intros p o e H.
  - exists [], []. by split_and!.
  - destruct H as (Ho & Hn & H4 & Hm & H). destruct (b_used b) eqn:Eu.
    + destruct (IH _ _ _ H) as (pre & post & -> & Hf & Ht & Hff). exists (b :: pre), post.
      rewrite last_off_cons, Ho. split_and!; [done|by constructor|done..].
    + exists [], (b :: bs). simpl. rewrite Eu, Ho. by split_and!.
Qed.

Lemma coalesced_app_l l1 l2 : coalesced (l1 ++ l2) -> coalesced l1.
Proof.
  induction l1 as [|b [|c l1] IH]; simpl; [done..|]. intros [? H]. split; [done|]. by apply IH.
Qed.
Lemma coalesced_app_r l1 l2 : coalesced (l1 ++ l2) -> coalesced l2.
Proof.
  induction l1 as [|b l1 IH]; [done|]. intros H. apply IH.
  change ((b :: l1) ++ l2) with (b :: (l1 ++ l2)) in H. simpl in H.
  destruct (l1 ++ l2); [done|]. apply H.
Qed.
Lemma coalesced_join l1 b l2 :
  coalesced (l1 ++ [b]) -> coalesced (b :: l2) -> coalesced (l1 ++ b :: l2).
Proof.
  induction l1 as [|c [|d l1] IH]; [done|simpl; tauto|].
  intros [? H] H2. split; [done|]. by apply IH.
Qed.

Lemma coalesced_replace_last l b c :
  coalesced (l ++ [b]) -> (b_used c = true \/ b_used c = b_used b) -> coalesced (l ++ [c]).
Proof.
  intros H Hc. induction l as [|d l IH]; [done|].
  destruct l as [|d' l]; simpl in *.
  - split; [|done]. destruct H as [H _]. destruct Hc as [Hc|Hc]; rewrite Hc; tauto.
  - destruct H as [? H]. split; [done|]. by apply IH.
Qed.
Lemma coalesced_replace_head l b c :
  coalesced (b :: l) -> (b_used c = true \/ b_used c = b_used b) -> coalesced (c :: l).
Proof.
  destruct l as [|d l]; simpl; [done|]. intros [H ?] Hc. split; [|done].
  destruct Hc as [Hc|Hc]; rewrite Hc; tauto.
Qed.

(** ** The searches *)

Lemma first_fit_Some lim n bs b : first_fit lim n bs = Some b ->
  exists pre post, bs = pre ++ b :: post /\ fits n b = true /\ b_off b < lim /\
    Forall (fun c => fits n c = false) pre.
Proof.
  induction bs as [|c bs IH]; simpl; [done|].
  destruct (Z.ltb_spec (b_off c) lim); [|done]. destruct (fits n c) eqn:Ef.
  - intros [= ->]. exists [], bs. by split_and!.
  - intros Hb. destruct (IH Hb) as (pre & post & -> & ? & ? & ?).
    exists (c :: pre), post. split_and!; [done..|]. by constructor.
Qed.

Lemma first_fit_None hs lim n bs : forall p o e, tiles hs p o e bs ->
  first_fit lim n bs = None -> forall b, b ∈ bs -> b_off b < lim -> fits n b = false.
Proof.
  induction bs as [|c bs IH]; intros p o e H Hn b Hb Hl; [by apply not_elem_of_nil in Hb|].
  simpl in H, Hn. destruct H as (Ho & Hs & _ & _ & H). apply elem_of_cons in Hb as [->|Hb].
  - destruct (Z.ltb_spec (b_off c) lim); [|lia]. by destruct (fits n c).
  - pose proof (tiles_off _ _ _ _ _ _ H Hb).
    destruct (Z.ltb_spec (b_off c) lim); [|lia]. destruct (fits n c); [done|]. by eapply IH.
Qed.

(** Used blocks are passed over. *)
Lemma first_fit_skip hs lim n pre post : forall p o e, tiles hs p o e (pre ++ post) ->
  Forall (fun b => b_used b = true) pre ->
  first_fit lim n (pre ++ post) = first_fit lim n post.
Proof.
  induction pre as [|c pre IH]; [done|]. intros p o e H Hu. simpl in *.
  destruct H as (Ho & Hs & _ & _ & H). inversion Hu as [|? ? Hc Hu']; subst.
  unfold fits at 1. rewrite Hc. simpl. destruct (Z.ltb_spec (b_off c) lim); [by eapply IH|].
  destruct post as [|d post]; [done|]. simpl.
  assert (Hd : b_next c <= b_off d < e) by (eapply tiles_off; [done|set_solver]).
  destruct (Z.ltb_spec (b_off d) lim); [lia|done].
Qed.

Lemma malloc_search_fit h n bs : forall p o fuel,
  tiles (h_blk h) p o (h_end h) bs -> h_end h = h_size h + 12 -> h_size h + 24 < 4294967296 ->
  0 <= o -> 0 <= n <= h_size h -> (length bs <= fuel)%nat ->
  malloc_search fuel o n h = Some (b_off <$> first_fit (h_size h - n) n bs).
Proof.
  induction bs as [|b bs IH]; intros p o fuel H He Hb Ho Hn Hf.
  - simpl in H. subst o. destruct fuel; simpl; rewrite u32_id by lia; by zcases; try lia.
  - destruct fuel as [|fuel]; [simpl in Hf; lia|].
    simpl in H. destruct H as (Hoff & Hs & H4 & (m & Hm & Hu & Hnx & _) & H).
    pose proof (tiles_le _ _ _ _ _ H).
    simpl. rewrite (u32_id (h_size h - n)) by lia. rewrite Hoff.
    destruct (Z.ltb_spec o (h_size h - n)); [|done]. rewrite Hm. simpl.
    change SIZEOF_STRUCT_MEM with 12. rewrite Hnx, !u32_id by (try rewrite u32_id; lia).
    rewrite Hu. unfold fits. change SIZEOF_STRUCT_MEM with 12. rewrite Hoff.
    replace (((if b_used b then 1 else 0) =? 0)) with (negb (b_used b)) by by destruct (b_used b).
    destruct (negb (b_used b) && (n <=? b_next b - (o + 12))).
    + simpl. by rewrite Hoff.
    + apply (IH o); [done..|lia|lia|simpl in Hf; lia].
Qed.

Lemma lfree_search_run bs : forall h p fuel,
  tiles (h_blk h) p (h_lfree h) (h_end h) bs -> end_ok (h_blk h) (h_end h) ->
  (length bs <= fuel)%nat ->
  lfree_search fuel h = Some (set_h_lfree (first_free (h_end h) bs) h).
Proof.
  induction bs as [|b bs IH]; intros h p fuel H Hl Hf.
  - simpl in H. destruct Hl as (m & Hm & Hu).
    destruct fuel; simpl; rewrite H, Hm; simpl; rewrite Z.eqb_refl, andb_false_r; by destruct h; simpl in *; subst.
  - destruct fuel as [|fuel]; [simpl in Hf; lia|].
    simpl in H. destruct H as (Hoff & Hs & H4 & (m & Hm & Hu & Hnx & _) & H).
    pose proof (tiles_le _ _ _ _ _ H). simpl. rewrite Hm. simpl. rewrite Hu.
    destruct (Z.eqb_spec (h_lfree h) (h_end h)); [lia|].
    destruct (b_used b); simpl.
    + rewrite (IH (set_h_lfree (hm_next m) h) (h_lfree h)); simpl;
        [done|by rewrite Hnx|done|simpl in Hf; lia].
    + rewrite Hoff. by destruct h.
Qed.

(** ** Taking a block *)

(** The blocks that replace [b] when [n] bytes of it are allocated. *)
Definition taken (n : Z) (b : blk) : list blk :=
  if n + 24 <=? b_next b - (b_off b + 12)
  then [Blk (b_off b) (b_off b + 12 + n) true; Blk (b_off b + 12 + n) (b_next b) false]
  else [Blk (b_off b) (b_next b) true].

Lemma mod_blk_run h o f m :
  h_blk h !! o = Some m -> mod_blk o f h = Some (set_h_blk (<[o := f m]> (h_blk h)) h).
Proof. intros H. unfold mod_blk. by rewrite H. Qed.

Lemma set_h_blk_count v k h : set_h_blk v (count_used k h) = count_used k (set_h_blk v h).
Proof. unfold count_used. simpl. by destruct (h_max h <? u32 (h_used h + k)). Qed.

Lemma count_used_proj k h :
  h_blk (count_used k h) = h_blk h /\ h_ptr (count_used k h) = h_ptr h /\
  h_size (count_used k h) = h_size h /\ h_end (count_used k h) = h_end h /\
  h_lfree (count_used k h) = h_lfree h /\ h_mem (count_used k h) = h_mem h /\
  h_used (count_used k h) = u32 (h_used h + k) /\
  h_max (count_used k h) = Z.max (h_max h) (u32 (h_used h + k)).
Proof.
  unfold count_used. simpl. destruct (Z.ltb_spec (h_max h) (u32 (h_used h + k))); simpl;
    split_and!; try done; lia.
Qed.

(** The write of a header before a suffix of the heap leaves the suffix alone. *)
Lemma tail_frame hs o m p s e bs : o < s -> tiles hs p s e bs -> end_ok hs e ->
  tiles (<[o := m]> hs) p s e bs /\ end_ok (<[o := m]> hs) e.
Proof.
  intros Hlt H (me & He & Hu). pose proof (tiles_le _ _ _ _ _ H). split.
  - eapply tiles_frame, H. intros x Hx. apply lookup_insert_ne. lia.
  - exists me. by rewrite lookup_insert_ne by lia.
Qed.
Lemma tiles_frame_above hs o m bs p s e : e <= o -> tiles hs p s e bs -> tiles (<[o := m]> hs) p s e bs.
Proof. intros Hlt H. eapply tiles_frame, H. intros x Hx. apply lookup_insert_ne. lia. Qed.

Lemma relink_next_run h o2 p s post :
  tiles (h_blk h) p s (h_end h) post -> end_ok (h_blk h) (h_end h) ->
  h_end h = h_size h + 12 -> 0 <= h_size h -> h_size h + 24 < 4294967296 ->
  exists hs, relink_next s o2 h = Some (set_h_blk hs h) /\
    tiles hs o2 s (h_end h) post /\ end_ok hs (h_end h) /\
    (forall x, x < s -> hs !! x = h_blk h !! x).
Proof.
  intros H Hl He H0 Hb. unfold relink_next. change SIZEOF_STRUCT_MEM with 12.
  rewrite u32_id by lia. pose proof (tiles_le _ _ _ _ _ H).
  destruct (Z.eqb_spec s (h_size h + 12)) as [E|E]; simpl.
  - exists (h_blk h). split_and!; try done; [by destruct h|].
    destruct post; [simpl in *; lia|]. simpl in *. lia.
  - destruct (tail_lookup _ _ _ _ _ H Hl) as (mn & Hmn).
    rewrite (mod_blk_run _ _ _ mn) by done. eexists. split; [done|].
    destruct (tail_relink _ _ o2 _ _ _ _ H Hl Hmn) as [Ht1 Ht2].
    split_and!; try done. intros x Hx. apply lookup_insert_ne. lia.
Qed.

(** A block is cut in two at [o2]: both headers, what is before and what is after. *)
Lemma carve h pre b post o2 m f m2 :
  tiles (h_blk h) 0 0 (h_end h) (pre ++ b :: post) -> end_ok (h_blk h) (h_end h) ->
  h_end h = h_size h + 12 -> 0 <= h_size h -> h_size h + 24 < 4294967296 ->
  h_blk h !! b_off b = Some m -> b_off b < o2 < b_next b ->
  exists hs,
    (h2 ← mod_blk (b_off b) f (set_h_blk (<[o2 := m2]> (h_blk h)) h);
     relink_next (b_next b) o2 h2) = Some (set_h_blk hs h) /\
    hs !! b_off b = Some (f m) /\ hs !! o2 = Some m2 /\ tiles hs 0 0 (b_off b) pre /\
    tiles hs o2 (b_next b) (h_end h) post /\ end_ok hs (h_end h).
Proof.
  intros H Hl He H0 Hb Hm Ho2.
  apply tiles_middle in H as (Hpre & Ho & Hs & H4 & _ & Hpost).
  rewrite (mod_blk_run _ _ _ m) by (simpl; rewrite lookup_insert_ne by lia; done). simpl.
  destruct (tail_frame (h_blk h) o2 m2 (b_off b) (b_next b) (h_end h) post) as [Ha1 Ha2]; [lia|done..|].
  destruct (tail_frame (<[o2 := m2]> (h_blk h)) (b_off b) (f m) (b_off b) (b_next b) (h_end h) post)
    as [Hb1 Hb2]; [lia|done..|].
  edestruct (relink_next_run (set_h_blk (<[b_off b := f m]> (<[o2 := m2]> (h_blk h)))
    (set_h_blk (<[o2 := m2]> (h_blk h)) h))) as (hs & -> & Ht & Hel & Hfr); [done..|].
  simpl in *. exists hs. split_and!; try done.
  - rewrite Hfr by lia. apply lookup_insert_eq.
  - rewrite Hfr by lia. rewrite lookup_insert_ne by lia. apply lookup_insert_eq.
  - eapply tiles_frame; [|apply Hpre]. intros x Hx. rewrite Hfr by lia.
    by rewrite !lookup_insert_ne by lia.
Qed.

Lemma malloc_take_split h n pre b post :
  tiles (h_blk h) 0 0 (h_end h) (pre ++ b :: post) -> end_ok (h_blk h) (h_end h) ->
  h_end h = h_size h + 12 -> 0 <= h_size h -> h_size h + 24 < 4294967296 -> b_off b mod 4 = 0 ->
  12 <= n -> n mod 4 = 0 -> n + 24 <= b_next b - (b_off b + 12) ->
  exists hs m, malloc_take (b_off b) n h = Some (count_used (n + 12) (set_h_blk hs h)) /\
    hs !! b_off b = Some m /\
    tiles (<[b_off b := set_hm_magic HEAP_MAGIC m]> hs) 0 0 (h_end h)
      (pre ++ [Blk (b_off b) (b_off b + 12 + n) true;
               Blk (b_off b + 12 + n) (b_next b) false] ++ post) /\
    end_ok (<[b_off b := set_hm_magic HEAP_MAGIC m]> hs) (h_end h).
Proof.
  intros H Hl He H0 Hb Ho4 Hn Hn4 Hfit. pose proof H as Hmid.
  apply tiles_middle in Hmid as (_ & Ho & Hs & H4 & (m & Hm & Hu & Hnx & Hpv & _) & Hpost).
  pose proof (tiles_le _ _ _ _ _ Hpost) as Hle.
  unfold malloc_take. rewrite Hm. simpl. rewrite Hnx.
  change SIZEOF_STRUCT_MEM with 12. change MIN_SIZE_ALIGNED with 12.
  rewrite (u32_id (b_off b + 12)), (u32_id (b_next b - _)), (u32_id (b_off b + 12 + n)) by lia.
  destruct (Z.leb_spec (n + 12 + 12) (b_next b - (b_off b + 12))); [|lia].
  set (o2 := b_off b + 12 + n) in *.
  set (m2 := HeapMem (match h_blk h !! o2 with Some m => hm_magic m | None => 0 end) 0 (b_next b) (b_off b)).
  destruct (carve h pre b post o2 m (fun m => set_hm_used 1 (set_hm_next o2 m)) m2)
    as (hs & Hrun & Hso & Hso2 & Hp1 & Hp2 & Hel); [done..|lia|].
  destruct (mod_blk (b_off b) _ _) as [h2|]; [|done]. simpl in *. rewrite Hrun. simpl.
  eexists hs, _. split; [done|]. split; [done|].
  destruct (tail_frame hs (b_off b) (set_hm_magic HEAP_MAGIC (set_hm_used 1 (set_hm_next o2 m))) o2 (b_next b) (h_end h) post)
    as [Hq1 Hq2]; [lia|done..|].
  split; [|done]. apply tiles_build; simpl.
  - by apply tiles_frame_above.
  - lia.
  - unfold o2. Z.div_mod_to_equations; lia.
  - eexists. by rewrite lookup_insert_eq.
  - split_and!; [done|lia|done| |done]. exists m2. by rewrite lookup_insert_ne by lia.
Qed.

(** A near fit: the whole block is taken. *)
Lemma malloc_take_whole h n pre b post :
  tiles (h_blk h) 0 0 (h_end h) (pre ++ b :: post) -> end_ok (h_blk h) (h_end h) ->
  h_end h = h_size h + 12 -> h_size h + 24 < 4294967296 ->
  b_next b - (b_off b + 12) < n + 24 ->
  exists hs m, malloc_take (b_off b) n h
      = Some (count_used (b_next b - b_off b) (set_h_blk hs h)) /\
    hs !! b_off b = Some m /\
    tiles (<[b_off b := set_hm_magic HEAP_MAGIC m]> hs) 0 0 (h_end h)
      (pre ++ [Blk (b_off b) (b_next b) true] ++ post) /\
    end_ok (<[b_off b := set_hm_magic HEAP_MAGIC m]> hs) (h_end h).
Proof.
  intros H Hl He Hb Hfit.
  apply tiles_middle in H as (Hpre & Ho & Hs & H4 & (m & Hm & Hu & Hnx & Hpv & _) & Hpost).
  unfold malloc_take. rewrite Hm. simpl. rewrite Hnx.
  change SIZEOF_STRUCT_MEM with 12. change MIN_SIZE_ALIGNED with 12.
  rewrite (u32_id (b_off b + 12)), !u32_id by lia.
  destruct (Z.leb_spec (n + 12 + 12) (b_next b - (b_off b + 12))); [lia|].
  rewrite (mod_blk_run _ _ _ m) by done. simpl.
  rewrite (u32_id (b_next b - b_off b)) by lia. eexists _, _. split; [done|]. rewrite lookup_insert_eq. split; [done|]. rewrite insert_insert_eq.
  destruct (tail_frame (h_blk h) (b_off b) (set_hm_magic HEAP_MAGIC (set_hm_used 1 m))
    (b_off b) (b_next b) (h_end h) post) as [Hq1 Hq2]; [lia|done..|].
  split; [|done]. apply tiles_build; simpl; [by apply tiles_frame_above|lia|done| |done].
  eexists. by rewrite lookup_insert_eq.
Qed.

Lemma malloc_take_run h n pre b post :
  tiles (h_blk h) 0 0 (h_end h) (pre ++ b :: post) -> end_ok (h_blk h) (h_end h) ->
  h_end h = h_size h + 12 -> 0 <= h_size h -> h_size h + 24 < 4294967296 ->
  12 <= n -> n mod 4 = 0 -> b_used b = false ->
  exists hs, (h1 ← malloc_take (b_off b) n h; mod_blk (b_off b) (set_hm_magic HEAP_MAGIC) h1)
      = Some (count_used (used_bytes (taken n b)) (set_h_blk hs h)) /\
    tiles hs 0 0 (h_end h) (pre ++ taken n b ++ post) /\ end_ok hs (h_end h).
Proof.
  intros H Hl He H0 Hb Hn Hn4 Hfree.
  assert (Ho4 : b_off b mod 4 = 0) by (eapply tiles_off_mod4; [done..|set_solver]).
  assert (Hk : exists hs m, malloc_take (b_off b) n h
      = Some (count_used (used_bytes (taken n b)) (set_h_blk hs h)) /\
    hs !! b_off b = Some m /\
    tiles (<[b_off b := set_hm_magic HEAP_MAGIC m]> hs) 0 0 (h_end h) (pre ++ taken n b ++ post) /\
    end_ok (<[b_off b := set_hm_magic HEAP_MAGIC m]> hs) (h_end h)).
  { unfold taken, used_bytes. destruct (Z.leb_spec (n + 24) (b_next b - (b_off b + 12))); simpl.
    - replace (b_off b + 12 + n - b_off b + (0 + 0)) with (n + 12) by lia.
      by apply malloc_take_split.
    - rewrite Z.add_0_r. by apply malloc_take_whole. }
  destruct Hk as (hs & m & -> & Hm & Ht & Hel). simpl.
  destruct (count_used_proj (used_bytes (taken n b)) (set_h_blk hs h)) as (Hblk & _).
  rewrite (mod_blk_run _ _ _ m) by by rewrite Hblk. rewrite Hblk, set_h_blk_count.
  eexists. split; [done|]. done.
Qed.

(** The list of blocks after an allocation keeps the heap coalesced. *)
Lemma coalesced_taken n pre b post :
  b_used b = false -> coalesced (pre ++ b :: post) -> coalesced (pre ++ taken n b ++ post).
Proof.
  intros Hb H. pose proof (coalesced_app_r _ _ H) as Hr.
  assert (Hl : coalesced (pre ++ [b])).
  { apply (coalesced_app_l _ post). by rewrite <- (assoc (++)). }
  unfold taken. destruct (_ <=? _); simpl; apply coalesced_join;
    try (by eapply coalesced_replace_last; [done|by left]).
  - split; [by left|]. eapply coalesced_replace_head; [done|by right].
  - eapply coalesced_replace_head; [done|by left].
Qed.

Lemma RT_ALIGN_request size : 0 < size <= 4294967292 ->
  0 < RT_ALIGN size 4 /\ RT_ALIGN size 4 mod 4 = 0 /\ size <= RT_ALIGN size 4 < size + 4 /\
  12 <= request size /\ request size mod 4 = 0 /\
  (if RT_ALIGN size 4 <? MIN_SIZE_ALIGNED then MIN_SIZE_ALIGNED else RT_ALIGN size 4) = request size.
Proof.
  intros Hs. unfold request. rewrite RT_ALIGN_4 by lia. change MIN_SIZE_ALIGNED with 12.
  assert (Hm : (size + (- size) mod 4) `mod` 4 = 0) by (Z.div_mod_to_equations; lia).
  destruct (Z.ltb_spec (size + (- size) mod 4) 12);
    [rewrite Z.max_l by lia|rewrite Z.max_r by lia];
    (split_and!; try done; Z.div_mod_to_equations; lia).
Qed.

Lemma first_free_below hs pre post e c : forall p o m, tiles hs p o m pre ->
  c ∈ pre -> b_used c = false -> first_free e (pre ++ post) < m.
Proof.
  induction pre as [|d pre IH]; intros p o m H Hc Hu; [by apply not_elem_of_nil in Hc|].
  simpl in *. destruct H as (Hd & Hs & _ & _ & Hp). pose proof (tiles_le _ _ _ _ _ Hp).
  destruct (b_used d) eqn:Eud; [|lia].
  apply elem_of_cons in Hc as [->|Hc]; [congruence|]. by apply (IH _ _ _ Hp).
Qed.

Lemma first_free_pre_used hs e pre b post :
  tiles hs 0 0 e (pre ++ b :: post) -> b_off b = first_free e (pre ++ b :: post) ->
  Forall (fun c => b_used c = true) pre.
Proof.
  intros H E. apply list.Forall_forall. intros c Hc. destruct (b_used c) eqn:Euc; [done|].
  apply tiles_middle in H as (Hp & _).
  pose proof (first_free_below _ _ (b :: post) e _ _ _ _ Hp Hc Euc). lia.
Qed.

(** Moving [lfree] on when the block it named was taken. *)
Lemma lfree_move h bs pre n b post :
  heap_wf h bs -> bs = pre ++ b :: post -> b_used b = false ->
  forall h2, tiles (h_blk h2) 0 0 (h_end h2) (pre ++ taken n b ++ post) ->
  end_ok (h_blk h2) (h_end h2) -> h_lfree h2 = h_lfree h -> h_size h2 = h_size h -> h_end h2 = h_end h ->
  (if b_off b =? h_lfree h2 then lfree_search (heap_fuel h2) h2 else Some h2)
    = Some (set_h_lfree (first_free (h_end h2) (pre ++ taken n b ++ post)) h2).
Proof.
  intros Hwf -> Hfree h2 Ht2 Hel Hlf Hsz He. pose proof (hw_tiles _ _ Hwf) as Ht.
  pose proof (hw_size _ _ Hwf). pose proof (hw_end _ _ Hwf).
  rewrite Hlf, (hw_lfree _ _ Hwf).
  destruct (Z.eqb_spec (b_off b) (first_free (h_end h) (pre ++ b :: post))) as [E|E].
  - pose proof (first_free_pre_used _ _ _ _ _ Ht E) as Hpre.
    rewrite first_free_app_used by done.
    apply tiles_app in Ht2 as (m & Hp & Hrest).
    assert (Hm : m = b_off b).
    { unfold taken in Hrest. destruct (_ <=? _) in Hrest; simpl in Hrest; by destruct Hrest. }
    subst m. apply (lfree_search_run _ _ (last_off 0 pre)).
    + by rewrite Hlf, (hw_lfree _ _ Hwf), <- E.
    + done.
    + pose proof (tiles_le _ _ _ _ _ Hp). pose proof (tiles_le _ _ _ _ _ Hrest).
      unfold heap_fuel. Z.div_mod_to_equations; lia.
  - f_equal. replace (first_free (h_end h2) (pre ++ taken n b ++ post)) with (h_lfree h2);
      [by destruct h2|].
    rewrite Hlf, He, (hw_lfree _ _ Hwf). clear -E Hfree. induction pre as [|d pre IH]; simpl in *; [by rewrite Hfree in E|].
    destruct (b_used d); [by apply IH|done].
Qed.

Lemma land3_mod4 x : Z.land x 3 = x mod 4.
Proof. change 3 with (Z.ones 2). rewrite Z.land_ones by lia. done. Qed.

Lemma heap_fuel_enough h bs : heap_wf h bs -> (length bs <= heap_fuel h)%nat.
Proof.
  intros H. pose proof (tiles_le _ _ _ _ _ (hw_tiles _ _ H)). pose proof (hw_end _ _ H).
  pose proof (hw_size _ _ H). unfold heap_fuel. Z.div_mod_to_equations; lia.
Qed.

(** The search of [rt_malloc] from [lfree] is the reference search over all blocks. *)
Lemma heap_malloc_search h bs n : heap_wf h bs -> 0 <= n <= h_size h ->
  malloc_search (heap_fuel h) (h_lfree h) n h
    = Some (b_off <$> first_fit (h_size h - n) n bs).
Proof.
  intros H Hn. pose proof (hw_tiles _ _ H) as Ht. pose proof (heap_fuel_enough _ _ H) as Hf.
  destruct (first_free_split _ _ _ _ _ Ht) as (u & v & -> & Hu & Hv & Hff).
  rewrite (first_fit_skip _ _ _ _ _ _ _ _ Ht Hu).
  pose proof (hw_size _ _ H). pose proof (hw_ptr _ _ H). pose proof (hw_end _ _ H).
  rewrite (hw_lfree _ _ H). eapply malloc_search_fit; [done|done|lia| |lia|].
  - apply tiles_app in Ht as (m & Hm & Hm2). pose proof (tiles_le _ _ _ _ _ Hm).
    assert (Hst : first_free (h_end h) (u ++ v) = m); [|lia].
    rewrite first_free_app_used by done. destruct v as [|b v]; simpl in *; [congruence|].
    destruct Hv as (Hb & _). rewrite first_free_app_used in Hb by done.
    destruct Hm2 as (Hb2 & _). simpl in Hb. congruence.
  - rewrite length_app in Hf. lia.
Qed.

(** The heap after [rt_malloc] has taken the block [b]. *)
Definition after_malloc (h : heap) (bs' : list blk) (h' : heap) : Prop :=
  heap_wf h' bs' /\ h_ptr h' = h_ptr h /\ h_size h' = h_size h /\ h_mem h' = h_mem h.

Lemma heap_malloc_run h bs size :
  heap_wf h bs -> 0 < size <= 4294967292 -> request size <= h_size h ->
  match first_fit (h_size h - request size) (request size) bs with
  | None => heap_malloc size h = Some (0, h)
  | Some b => exists pre post h', bs = pre ++ b :: post /\
      heap_malloc size h = Some (h_ptr h + b_off b + 12, h') /\
      after_malloc h (pre ++ taken (request size) b ++ post) h'
  end.
Proof.
  intros H Hs Hle. destruct (RT_ALIGN_request size Hs) as (Ha & Ha4 & Hal & Hr & Hr4 & Hif).
  pose proof (hw_size _ _ H) as Hsz. pose proof (hw_ptr _ _ H) as Hp. pose proof (hw_end _ _ H) as He.
  pose proof (hw_tiles _ _ H) as Ht.
  unfold heap_malloc, malloc_prepare. destruct (Z.eqb_spec size 0); [lia|].
  destruct (Z.ltb_spec (h_size h) (RT_ALIGN size 4)); [unfold request in Hle; lia|].
  rewrite Hif. unfold malloc_locked. rewrite (heap_malloc_search _ bs) by (done || lia). simpl.
  destruct (first_fit _ _ bs) as [b|] eqn:Ef; simpl; [|done].
  destruct (first_fit_Some _ _ _ _ Ef) as (pre & post & -> & Hfit & Hlim & _).
  unfold fits in Hfit. apply andb_true_iff in Hfit as [Hu Hfit]. apply negb_true_iff in Hu.
  apply Z.leb_le in Hfit. change SIZEOF_STRUCT_MEM with 12 in *.
  destruct (malloc_take_run h (request size) pre b post) as (hs & Hrun & Ht2 & Hel);
    [done|apply H|done|lia|lia|done..|].
  destruct (malloc_take _ _ _) as [h1|]; [|done]. simpl in Hrun. simpl. rewrite Hrun. simpl.
  set (k := used_bytes (taken (request size) b)) in *.
  destruct (count_used_proj k (set_h_blk hs h)) as (P1 & P2 & P3 & P4 & P5 & P6 & P7 & P8).
  simpl in P1, P2, P3, P4, P5, P6, P7, P8.
  set (h2 := count_used k (set_h_blk hs h)) in *.
  rewrite (lfree_move h _ pre (request size) b post H eq_refl Hu h2) by (rewrite ?P1, ?P4; done).
  simpl. rewrite P2, P4.
  apply tiles_middle in Ht as (_ & Ho & Hb & Hn4 & _ & _).
  assert (Ho4 : b_off b mod 4 = 0).
  { eapply (tiles_off_mod4 _ _ _ _ _ b (hw_tiles _ _ H)); [done|set_solver]. }
  rewrite !(u32_id (h_ptr h + b_off b)), (u32_id (h_ptr h + h_end h)), !(u32_id (h_ptr h + b_off b + 12)) by lia.
  rewrite land3_mod4.
  replace ((h_ptr h + b_off b + 12) mod 4 =? 0) with true by (symmetry; apply Z.eqb_eq; Z.div_mod_to_equations; lia).
  replace ((h_ptr h + b_off b) mod 4 =? 0) with true by (symmetry; apply Z.eqb_eq; Z.div_mod_to_equations; lia).
  destruct (Z.leb_spec (h_ptr h + b_off b + 12 + request size) (h_ptr h + h_end h)); [|lia]. simpl.
  exists pre, post. eexists. split; [done|]. split; [done|].
  pose proof (used_bytes_le _ _ _ _ _ Ht2) as Hub.
  assert (Hub2 : used_bytes (pre ++ taken (request size) b ++ post) = h_used h + k).
  { rewrite (hw_used _ _ H), !used_bytes_app. simpl. rewrite Hu. unfold k. lia. }
  rewrite u32_id in P7, P8 by lia.
  unfold after_malloc. simpl. split_and!; [|done..]. split; simpl; rewrite ?P1, ?P2, ?P3, ?P4.
  - done.
  - done.
  - done.
  - done.
  - done.
  - apply coalesced_taken; [done|apply H].
  - by rewrite P7.
  - rewrite P7, P8. lia.
  - done.
Qed.

(** ** Freeing a block *)

(** Two neighbours become one free block. *)
Definition joined (x y : blk) : blk := Blk (b_off x) (b_next y) false.
Definition join_after (b : blk) (post : list blk) : list blk :=
  match post with
  | c :: post' => if b_used c then b :: post else joined b c :: post'
  | [] => [b]
  end.
Definition join_before (pre l : list blk) : list blk :=
  match list.last pre, l with
  | Some a, b :: l' => if b_used a then pre ++ l else removelast pre ++ joined a b :: l'
  | _, _ => pre ++ l
  end.
(** The blocks after the block [b] between [pre] and [post] is freed. *)
Definition freed (pre : list blk) (b : blk) (post : list blk) : list blk :=
  join_before pre (join_after (Blk (b_off b) (b_next b) false) post).

(** The two writes of [plug_holes] that join the neighbours [x] and [y]. *)
Lemma join_tiles h pre x y post mx :
  tiles (h_blk h) 0 0 (h_end h) (pre ++ x :: y :: post) -> end_ok (h_blk h) (h_end h) ->
  b_used x = false -> h_blk h !! b_off x = Some mx ->
  exists hs, (h2 ← mod_blk (b_off x) (set_hm_next (b_next y)) h;
              mod_blk (b_next y) (set_hm_prev (b_off x)) h2) = Some (set_h_blk hs h) /\
    tiles hs 0 0 (h_end h) (pre ++ joined x y :: post) /\ end_ok hs (h_end h).
Proof.
  intros H Hl Hx Hmx.
  apply tiles_middle in H as (Hpre & Ho & Hs & H4 & (m & Hm & Hu & Hnx & Hpv & _) & Hy).
  simplify_eq. simpl in Hy. destruct Hy as (Hyo & Hys & Hy4 & _ & Hpost).
  rewrite (mod_blk_run _ _ _ m) by done. simpl. rewrite Hx in Hu.
  destruct (tail_frame (h_blk h) (b_off x) (set_hm_next (b_next y) m) (b_next x) (b_next y) (h_end h) post)
    as [Ha1 Ha2]; [lia|done..|].
  destruct (tail_lookup _ _ _ _ _ Ha1 Ha2) as (mn & Hmn).
  rewrite (mod_blk_run _ _ _ mn) by done. eexists. split; [done|]. simpl.
  destruct (tail_relink _ _ (b_off x) _ _ _ _ Ha1 Ha2 Hmn) as [Hb1 Hb2].
  split; [|done]. apply tiles_build; simpl; [|lia|done| |done].
  - by apply tiles_frame_above, tiles_frame_above; [lia|lia|].
  - eexists. rewrite lookup_insert_ne, lookup_insert_eq by lia. split; [done|].
    unfold header_of. simpl. done.
Qed.

(** [lfree] is not the second of two free blocks. *)
Lemma first_free_not_second hs e pre x y post :
  tiles hs 0 0 e (pre ++ x :: y :: post) -> b_used x = false ->
  first_free e (pre ++ x :: y :: post) <> b_off y.
Proof.
  intros H Hx. change (x :: y :: post) with ([x] ++ y :: post) in *. rewrite (assoc (++)) in *.
  apply tiles_middle in H as (Hp & _).
  assert (first_free e ((pre ++ [x]) ++ y :: post) < b_off y); [|lia].
  eapply first_free_below; [done| |done]. set_solver.
Qed.

Lemma first_free_joined e pre x y post :
  b_used x = false -> first_free e (pre ++ x :: y :: post) = first_free e (pre ++ joined x y :: post).
Proof. intros Hx. induction pre as [|d pre IH]; simpl; [by rewrite Hx|]. by rewrite IH. Qed.

Lemma plug_forward_run h pre b post :
  tiles (h_blk h) 0 0 (h_end h) (pre ++ b :: post) -> end_ok (h_blk h) (h_end h) ->
  b_used b = false -> h_lfree h = first_free (h_end h) (pre ++ b :: post) ->
  exists hs, plug_forward (b_off b) h = Some (set_h_blk hs h) /\
    tiles hs 0 0 (h_end h) (pre ++ join_after b post) /\ end_ok hs (h_end h) /\
    first_free (h_end h) (pre ++ join_after b post) = h_lfree h.
Proof.
  intros H Hl Hb Hlf. pose proof H as Hmid.
  apply tiles_middle in Hmid as (Hpre & Ho & Hs & H4 & (m & Hm & Hu & Hnx & Hpv & _) & Hpost).
  assert (Hnone : Some h = Some (set_h_blk (h_blk h) h)) by by destruct h.
  unfold plug_forward. rewrite Hm. simpl. rewrite Hnx. destruct post as [|c post]; simpl in *.
  - destruct Hl as (me & Hme & Hue). rewrite Hpost, Hme. simpl. rewrite Hue, andb_false_r.
    exists (h_blk h). split_and!; try done. by exists me.
  - destruct Hpost as (Hco & Hcs & Hc4 & (mc & Hmc & Hcu & Hcn & _) & Hpost).
    pose proof (tiles_le _ _ _ _ _ Hpost). rewrite Hmc. simpl. rewrite Hcu, Hcn.
    destruct (b_used c) eqn:Euc; simpl.
    + rewrite andb_false_r. by exists (h_blk h).
    + destruct (Z.eqb_spec (b_off b) (b_next b)); [lia|].
      destruct (Z.eqb_spec (b_next b) (h_end h)); [lia|]. simpl.
      destruct (Z.eqb_spec (h_lfree h) (b_next b)) as [E|_].
      { exfalso. rewrite Hlf, <- Hco in E. by eapply first_free_not_second. }
      destruct (join_tiles h pre b c post m) as (hs & Hrun & Ht & He); [done..|].
      exists hs. split_and!; try done. by rewrite <- first_free_joined.
Qed.

Lemma plug_backward_run h pre b post :
  tiles (h_blk h) 0 0 (h_end h) (pre ++ b :: post) -> end_ok (h_blk h) (h_end h) ->
  b_used b = false -> h_lfree h = first_free (h_end h) (pre ++ b :: post) ->
  exists hs, plug_backward (b_off b) h = Some (set_h_blk hs h) /\
    tiles hs 0 0 (h_end h) (join_before pre (b :: post)) /\ end_ok hs (h_end h) /\
    first_free (h_end h) (join_before pre (b :: post)) = h_lfree h.
Proof.
  intros H Hl Hb Hlf. pose proof H as Hmid.
  apply tiles_middle in Hmid as (Hpre & Ho & Hs & H4 & (m & Hm & Hu & Hnx & Hpv & _) & Hpost).
  assert (Hnone : Some h = Some (set_h_blk (h_blk h) h)) by by destruct h.
  unfold plug_backward. rewrite Hm. simpl. rewrite Hpv, Hnx. unfold join_before.
  destruct pre as [|a pre _] using rev_ind.
  - unfold last_off. simpl in Hpre. rewrite <- Hpre in Hm |- *. simpl. rewrite Hm. simpl.
    by exists (h_blk h).
  - unfold last_off. rewrite list.last_snoc, removelast_last. simpl.
    rewrite <- (assoc (++)) in *. simpl in *.
    apply tiles_app in Hpre as (o & Hp & Hao & Has & _ & (ma & Hma & Hua & Hna & _) & Hab).
    simpl in Hab. rewrite Hao, Hma. simpl. rewrite Hua.
    destruct (Z.eqb_spec o (b_off b)); [lia|]. destruct (b_used a) eqn:Eua; simpl.
    + exists (h_blk h). by rewrite <- (assoc (++)).
    + destruct (Z.eqb_spec (h_lfree h) (b_off b)) as [E|_].
      { exfalso. rewrite Hlf in E. by eapply first_free_not_second. }
      rewrite <- Hao in *.
      destruct (join_tiles h pre a b post ma) as (hs & Hrun & Ht & He); [done..|].
      exists hs. split_and!; try done. by rewrite <- first_free_joined.
Qed.

Lemma join_after_head b post : exists c post', join_after b post = c :: post' /\ b_off c = b_off b /\
  (b_used b = false -> b_used c = false).
Proof.
  destruct post as [|c post]; simpl; [by eexists _, _|].
  destruct (b_used c); by eexists _, _.
Qed.

Lemma plug_holes_run h pre b post :
  tiles (h_blk h) 0 0 (h_end h) (pre ++ b :: post) -> end_ok (h_blk h) (h_end h) ->
  b_used b = false -> h_lfree h = first_free (h_end h) (pre ++ b :: post) ->
  exists hs, plug_holes (b_off b) h = Some (set_h_blk hs h) /\
    tiles hs 0 0 (h_end h) (join_before pre (join_after b post)) /\ end_ok hs (h_end h) /\
    first_free (h_end h) (join_before pre (join_after b post)) = h_lfree h.
Proof.
  intros H Hl Hb Hlf. pose proof H as Hmid.
  apply tiles_middle in Hmid as (_ & Ho & Hs & _ & (m & Hm & Hu & _) & _).
  unfold plug_holes. rewrite Hm. simpl. rewrite Hu, Hb.
  destruct (Z.leb_spec 0 (b_off b)); [|lia]. destruct (Z.ltb_spec (b_off b) (h_end h)); [|lia]. simpl.
  destruct (plug_forward_run _ _ _ _ H Hl Hb Hlf) as (hs & -> & Ht & He & Hff). simpl.
  destruct (join_after_head b post) as (c & post' & Hj & Hco & Hcu). rewrite Hj in *.
  rewrite <- Hco.
  destruct (plug_backward_run (set_h_blk hs h) pre c post') as (hs' & Hrun & Ht' & He' & Hff');
    [done|done|by apply Hcu|by simpl|].
  exists hs'. by split_and!.
Qed.

(** What freeing does to the list of blocks. *)
Lemma coalesced_cons_used b l : b_used b = true -> coalesced l -> coalesced (b :: l).
Proof. destruct l; simpl; [done|]. intros; split; [by left|done]. Qed.
Lemma coalesced_join_after b post :
  coalesced post -> coalesced (join_after b post).
Proof.
  destruct post as [|c post]; [done|]. unfold join_after. destruct (b_used c) eqn:Ec.
  - intros H. simpl. split; [by right|done].
  - intros H. eapply coalesced_replace_head; [done|]. right. by rewrite Ec.
Qed.
Lemma coalesced_freed pre b post : coalesced (pre ++ b :: post) -> coalesced (freed pre b post).
Proof.
  intros H. pose proof (coalesced_app_r _ _ H) as Hr. pose proof (coalesced_app_l _ _ H) as Hp.
  unfold freed. set (b' := Blk _ _ _).
  assert (Hj : coalesced (join_after b' post)).
  { apply coalesced_join_after. by apply (coalesced_app_r [b]). }
  destruct (join_after_head b' post) as (c & post' & Hc & Hco & Hcu). rewrite Hc in *.
  unfold join_before. destruct pre as [|a pre _] using rev_ind; [done|].
  rewrite list.last_snoc, removelast_last. destruct (b_used a) eqn:Eua.
  - rewrite <- (assoc (++)). simpl. apply coalesced_join; [done|]. by apply coalesced_cons_used.
  - apply coalesced_join; (eapply coalesced_replace_last || eapply coalesced_replace_head);
      [done| |done|]; right; simpl; [by rewrite Eua|by rewrite Hcu].
Qed.

Lemma live_app h l1 l2 : live h (l1 ++ l2) = live h l1 ++ live h l2.
Proof. unfold live. by rewrite list.filter_app, fmap_app. Qed.
Lemma live_free h b l : b_used b = false -> live h (b :: l) = live h l.
Proof. intros Hb. unfold live. by rewrite filter_cons_False by congruence. Qed.
Lemma live_used h b l : b_used b = true -> live h (b :: l) = region h b :: live h l.
Proof. intros Hb. unfold live. by rewrite filter_cons_True by congruence. Qed.

(** Freeing and merging leave the used blocks as they are. *)
Lemma freed_used pre b post :
  filter (fun c => b_used c = true) (freed pre b post) = filter (fun c => b_used c = true) (pre ++ post).
Proof.
  unfold freed. set (b' := Blk _ _ _).
  assert (Hj : forall p : list blk, filter (fun c => b_used c = true) (p ++ join_after b' post) =
    filter (fun c => b_used c = true) (p ++ post)).
  { intros p. rewrite !list.filter_app. f_equal. destruct post as [|c post]; simpl.
    - by rewrite filter_cons_False.
    - destruct (b_used c) eqn:Ec.
      + by rewrite filter_cons_False.
      + rewrite !filter_cons_False; [done|congruence|done]. }
  destruct (join_after_head b' post) as (c & post' & Hc & Hco & Hcu). rewrite Hc in *.
  unfold join_before. destruct pre as [|a pre _] using rev_ind; [apply (Hj [])|].
  rewrite list.last_snoc, removelast_last. destruct (b_used a) eqn:Eua; [apply Hj|].
  rewrite <- Hj, !list.filter_app, !(filter_cons_False _ a), !(filter_cons_False _ c),
    (filter_cons_False _ (joined a c)), filter_nil, app_nil_r by (simpl; rewrite ?Eua, ?Hcu; done).
  done.
Qed.

Lemma used_bytes_filter bs : used_bytes (filter (fun c => b_used c = true) bs) = used_bytes bs.
Proof.
  induction bs as [|b bs IH]; [done|]. destruct (b_used b) eqn:E.
  - rewrite filter_cons_True by done. unfold used_bytes in *. simpl. by rewrite IH.
  - rewrite filter_cons_False by congruence. rewrite IH. unfold used_bytes. simpl. by rewrite E.
Qed.

Lemma first_free_min hs e pre b post : tiles hs 0 0 e (pre ++ b :: post) -> b_used b = true ->
  first_free e (pre ++ Blk (b_off b) (b_next b) false :: post) =
    (if b_off b <? first_free e (pre ++ b :: post) then b_off b else first_free e (pre ++ b :: post)).
Proof.
  intros H Hb. apply tiles_app in H as (m & Hp & Hbo & Hs & _ & _ & Hpost). rewrite Hbo.
  clear Hbo. revert Hp. generalize 0 at 1 as p. generalize 0 as o.
  induction pre as [|d pre IH]; intros o p Hp; simpl in *.
  - rewrite Hb. subst o. destruct (Z.ltb_spec m (first_free e post)) as [|Hlt]; [done|]. exfalso.
    destruct (first_free_split _ _ _ _ _ Hpost) as (u & v & -> & Hu & Hv & _).
    apply tiles_app in Hpost as (k & Hk & Hk2). pose proof (tiles_le _ _ _ _ _ Hk).
    pose proof (tiles_le _ _ _ _ _ Hk2). rewrite first_free_app_used in * by done.
    destruct v as [|c v]; simpl in *; [lia|]. destruct Hk2 as (Hc & _).
    destruct Hv as (Hv & _). destruct (b_used c); lia.
  - destruct Hp as (Hd & Hs' & _ & _ & Hp). pose proof (tiles_le _ _ _ _ _ Hp).
    destruct (b_used d); [by eapply IH|]. destruct (Z.ltb_spec m (b_off d)); [lia|done].
Qed.

Lemma heap_free_run h pre b post :
  heap_wf h (pre ++ b :: post) -> b_used b = true ->
  exists h', heap_free (h_ptr h + b_off b + 12) h = Some h' /\
    after_malloc h (freed pre b post) h'.
Proof.
  intros H Hb. pose proof (hw_size _ _ H) as Hsz. pose proof (hw_ptr _ _ H) as Hp.
  pose proof (hw_end _ _ H) as He. pose proof (hw_tiles _ _ H) as Ht. pose proof Ht as Hmid.
  apply tiles_middle in Hmid as (Hpre & Ho & Hs & H4 & (m & Hm & Hu & Hnx & Hpv & Hmg) & Hpost).
  assert (Ho4 : b_off b mod 4 = 0) by (eapply (tiles_off_mod4 _ _ _ _ _ b Ht); [done|set_solver]).
  unfold heap_free, free_check, free_locked. destruct (Z.eqb_spec (h_ptr h + b_off b + 12) 0); [lia|].
  rewrite land3_mod4, (u32_id (h_ptr h + h_end h)) by lia.
  replace ((h_ptr h + b_off b + 12) mod 4 =? 0) with true by (symmetry; apply Z.eqb_eq; Z.div_mod_to_equations; lia).
  destruct (Z.leb_spec (h_ptr h) (h_ptr h + b_off b + 12)); [|lia].
  destruct (Z.ltb_spec (h_ptr h + b_off b + 12) (h_ptr h + h_end h)); [|lia]. simpl.
  change SIZEOF_STRUCT_MEM with 12.
  replace (h_ptr h + b_off b + 12 - 12 - h_ptr h) with (b_off b) by lia.
  rewrite Hm. simpl. rewrite Hu, Hb, (Hmg Hb). simpl. rewrite (mod_blk_run _ _ _ m) by done. simpl.
  rewrite Hnx, (hw_lfree _ _ H), (u32_id (b_next b - b_off b)) by lia.
  pose proof (used_bytes_le _ _ _ _ _ Ht) as Hub. rewrite <- (hw_used _ _ H) in Hub.
  assert (Hpay : used_bytes (freed pre b post) = h_used h - (b_next b - b_off b)).
  { rewrite <- used_bytes_filter, freed_used, used_bytes_filter, used_bytes_app, (hw_used _ _ H), used_bytes_app.
    simpl. rewrite Hb. unfold used_bytes. lia. }
  set (b' := Blk (b_off b) (b_next b) false).
  set (hs := <[b_off b := set_hm_magic 0 (set_hm_used 0 m)]> (h_blk h)).
  destruct (tail_frame (h_blk h) (b_off b) (set_hm_magic 0 (set_hm_used 0 m)) (b_off b) (b_next b) (h_end h) post)
    as [Hq1 Hq2]; [lia|done|apply H|].
  assert (Ht' : tiles hs 0 0 (h_end h) (pre ++ b' :: post)).
  { apply tiles_build; simpl; [by apply tiles_frame_above|lia|done| |done].
    eexists. unfold hs. rewrite lookup_insert_eq. split; [done|]. unfold header_of. simpl. done. }
  match goal with |- exists h', plug_holes _ ?X = _ /\ _ => set (h3 := X) end.
  assert (E3 : h3 = set_h_used (u32 (h_used h - (b_next b - b_off b)))
    (set_h_lfree (first_free (h_end h) (pre ++ b' :: post)) (set_h_blk hs h))).
  { unfold h3, b'. rewrite (first_free_min _ _ _ _ _ Ht Hb), <- (hw_lfree _ _ H).
    fold hs. by destruct (b_off b <? h_lfree h); destruct h. }
  rewrite E3. clear h3 E3.
  edestruct (plug_holes_run (set_h_used (u32 (h_used h - (b_next b - b_off b)))
    (set_h_lfree (first_free (h_end h) (pre ++ b' :: post)) (set_h_blk hs h))) pre b' post)
    as (hs' & Hrun & Ht'' & Hel & Hff); [done..|].
  simpl in *. rewrite Hrun. eexists. split; [done|].
  assert (0 <= used_bytes (freed pre b post)) by apply (used_bytes_le _ _ _ _ _ Ht'').
  unfold after_malloc. simpl. split_and!; try done. rewrite u32_id by lia. split; simpl; try done.
  - by apply coalesced_freed, H.
  - pose proof (hw_max _ _ H). lia.
Qed.

(** ** What the clients of the heap rely on *)

Definition apart (r s : Z * Z) : Prop := r.1 + r.2 <= s.1 \/ s.1 + s.2 <= r.1.

(** The regions of two different blocks do not overlap, and lie inside the heap. *)
Lemma regions_apart h bs pre b post : heap_wf h bs -> bs = pre ++ b :: post ->
  Forall (apart (region h b)) (live h (pre ++ post)) /\
  h_ptr h + SIZEOF_STRUCT_MEM <= (region h b).1 /\ 12 <= (region h b).2 /\
  (region h b).1 + (region h b).2 <= h_ptr h + h_end h.
Proof.
  intros H ->. pose proof (hw_tiles _ _ H) as Ht.
  apply tiles_middle in Ht as (Hpre & Ho & Hs & _ & _ & Hpost).
  unfold region. change SIZEOF_STRUCT_MEM with 12. simpl. split; [|lia].
  rewrite live_app. apply Forall_app. unfold live. split; apply Forall_fmap, list.Forall_forall;
    intros c Hc; apply list_elem_of_filter in Hc as [_ Hc]; unfold apart, region; simpl;
    change SIZEOF_STRUCT_MEM with 12.
  - right. apply list_elem_of_split in Hc as (u & v & ->).
    apply tiles_app in Hpre as (k & _ & Hk & _ & _ & _ & Hv).
    pose proof (tiles_le _ _ _ _ _ Hv). lia.
  - left. pose proof (tiles_off _ _ _ _ _ _ Hpost Hc). lia.
Qed.

Lemma live_region h bs r : r ∈ live h bs ->
  exists pre b post, bs = pre ++ b :: post /\ b_used b = true /\ r = region h b.
Proof.
  unfold live. intros Hr. apply list_elem_of_fmap in Hr as (b & -> & Hb).
  apply list_elem_of_filter in Hb as [Hu Hb]. apply list_elem_of_split in Hb as (pre & post & ->).
  by exists pre, b, post.
Qed.

Lemma live_ptr h h' bs : h_ptr h' = h_ptr h -> live h' bs = live h bs.
Proof. intros E. unfold live. apply list_fmap_ext. intros ? b _. unfold region. by rewrite E. Qed.

Lemma live_taken h n pre b post : b_used b = false ->
  exists next, live h (pre ++ taken n b ++ post) ≡ₚ region h (Blk (b_off b) next true) :: live h (pre ++ b :: post) /\
    pre ++ taken n b ++ post = pre ++ Blk (b_off b) next true :: tail (taken n b) ++ post /\
    live h (pre ++ tail (taken n b) ++ post) = live h (pre ++ b :: post) /\
    (n <= b_next b - (b_off b + 12) -> n <= next - b_off b - 12).
Proof.
  intros Hb. unfold taken. destruct (Z.leb_spec (n + 24) (b_next b - (b_off b + 12)));
    eexists; (split_and!; [|done| |simpl; lia]); simpl;
    rewrite !live_app, ?(live_used _ (Blk (b_off b) _ true)), ?(live_free _ (Blk _ _ false)), (live_free _ b) by done;
    try done; by rewrite Permutation_middle.
Qed.

(** The successful case of [rt_malloc], in terms of regions. *)
Lemma heap_malloc_live h bs size b pre post h' :
  b_used b = false -> request size <= b_next b - (b_off b + 12) -> 0 < size <= 4294967292 ->
  bs = pre ++ b :: post -> heap_wf h bs ->
  after_malloc h (pre ++ taken (request size) b ++ post) h' ->
  exists len, size <= len /\ h_ptr h + b_off b + 12 + len <= h_ptr h + h_end h /\
    live h' (pre ++ taken (request size) b ++ post) ≡ₚ (h_ptr h + b_off b + 12, len) :: live h bs /\
    Forall (apart (h_ptr h + b_off b + 12, len)) (live h bs).
Proof.
  intros Hu Hfit Hs -> H (Hwf' & Hp & Hsz & _).
  destruct (live_taken h (request size) pre b post Hu) as (next & Hl & Heq & Hl2 & Hn).
  destruct (regions_apart _ _ _ _ _ Hwf' Heq) as (Ha & _ & _ & He').
  rewrite (live_ptr h h' _ Hp) in *. unfold region in *. rewrite Hp in *. simpl in *.
  change SIZEOF_STRUCT_MEM with 12 in *. rewrite (live_ptr h h' _ Hp), Hl2 in Ha.
  exists (next - b_off b - 12). destruct (RT_ALIGN_request size Hs) as (? & ? & ? & ? & ? & ?).
  pose proof (hw_end _ _ Hwf'). pose proof (hw_end _ _ H). specialize (Hn Hfit).
  split_and!; [|lia|by rewrite Hl|done]. unfold request in *. lia.
Qed.

(** Both outcomes of [rt_malloc]. *)
Lemma heap_malloc_cases h bs size : heap_wf h bs -> 0 < size <= 4294967292 ->
  (heap_malloc size h = Some (0, h) /\
   forall b, b ∈ bs -> b_used b = false -> b_off b + request size < h_size h ->
     b_next b - b_off b - SIZEOF_STRUCT_MEM < request size) \/
  exists pre b post h' len, bs = pre ++ b :: post /\ b_used b = false /\
    heap_malloc size h = Some (h_ptr h + b_off b + 12, h') /\
    after_malloc h (pre ++ taken (request size) b ++ post) h' /\
    size <= len /\ 0 <= b_off b /\ b_off b mod 4 = 0 /\
    h_ptr h + b_off b + 12 + len <= h_ptr h + h_end h /\
    live h' (pre ++ taken (request size) b ++ post) ≡ₚ (h_ptr h + b_off b + 12, len) :: live h bs /\
    Forall (apart (h_ptr h + b_off b + 12, len)) (live h bs).
Proof.
  intros H Hs. destruct (RT_ALIGN_request size Hs) as (Ha & Ha4 & Hal & Hr & Hr4 & Hif).
  pose proof (hw_size _ _ H) as Hsz. pose proof (hw_tiles _ _ H) as Ht.
  destruct (decide (request size <= h_size h)) as [Hle|Hgt].
  - pose proof (heap_malloc_run h bs size H Hs Hle) as Hrun.
    destruct (first_fit _ _ bs) as [b|] eqn:Ef; [right|left].
    + destruct Hrun as (pre & post & h' & -> & Hrun & Haf).
      destruct (first_fit_Some _ _ _ _ Ef) as (_ & _ & _ & Hfit & _ & _).
      unfold fits in Hfit. apply andb_true_iff in Hfit as [Hu Hfit]. apply negb_true_iff in Hu.
      apply Z.leb_le in Hfit.
      pose proof (tiles_off_mod4 _ _ _ _ _ b Ht eq_refl ltac:(set_solver)) as Ho4.
      pose proof (tiles_off _ _ _ _ _ b Ht ltac:(set_solver)) as Ho.
      destruct (heap_malloc_live h _ size b pre post h' Hu Hfit Hs eq_refl H Haf) as (len & ? & ? & ? & ?).
      exists pre, b, post, h', len. split_and!; try done; lia.
    + split; [done|]. intros b Hb Hu Hlt.
      pose proof (first_fit_None _ _ _ _ _ _ _ Ht Ef b Hb ltac:(lia)) as Hf.
      unfold fits in Hf. rewrite Hu in Hf. apply Z.leb_gt in Hf. lia.
  - left. split.
    + unfold heap_malloc, malloc_prepare. destruct (Z.eqb_spec size 0); [done|].
      destruct (Z.ltb_spec (h_size h) (RT_ALIGN size 4)); [done|]. unfold request in Hgt. lia.
    + intros b Hb Hu Hlt. pose proof (tiles_off _ _ _ _ _ b Ht Hb). lia.
Qed.

Lemma freed_live h pre b post : b_used b = true ->
  live h (pre ++ b :: post) ≡ₚ region h b :: live h (freed pre b post).
Proof.
  intros Hu. unfold live at 2. rewrite freed_used. fold (live h (pre ++ post)).
  rewrite !live_app, live_used by done. by rewrite <- Permutation_middle.
Qed.

(** The allocation either fails, and then there is no block below the search limit that is
    free and large enough, or returns an aligned region inside the heap, large enough and
    apart from every region in use, and adds exactly that region to the ones in use. *)
Lemma heap_malloc_refines h bs size :
  heap_wf h bs -> 0 < size <= 4294967292 ->
  exists p h' bs', heap_malloc size h = Some (p, h') /\ heap_wf h' bs' /\
    ((p = 0 /\ h' = h /\ bs' = bs /\
      forall b, b ∈ bs -> b_used b = false -> b_off b + request size < h_size h ->
        b_next b - b_off b - SIZEOF_STRUCT_MEM < request size) \/
     (p mod 4 = 0 /\ exists len, size <= len /\ 0 < h_ptr h <= p /\ p + len <= h_ptr h + h_end h /\
      live h' bs' ≡ₚ (p, len) :: live h bs /\ Forall (apart (p, len)) (live h bs))).
Proof.
  intros H Hs. pose proof (hw_ptr _ _ H) as Hp.
  destruct (heap_malloc_cases h bs size H Hs) as [[Hm Hno]|(pre & b & post & h' & len & -> & _ & Hm & Haf & Hl & Ho & Ho4 & He & Hlive & Hap)].
  - exists 0, h, bs. split_and!; try done. by left.
  - eexists _, h', _. split_and!; [done|apply Haf|]. right. split; [Z.div_mod_to_equations; lia|].
    exists len. split_and!; try done; lia.
Qed.

(** Freeing a region in use removes exactly that region. *)
Lemma heap_free_refines h bs p len :
  heap_wf h bs -> (p, len) ∈ live h bs ->
  exists h' bs', heap_free p h = Some h' /\ heap_wf h' bs' /\
    live h bs ≡ₚ (p, len) :: live h' bs' /\ h_ptr h' = h_ptr h /\ h_mem h' = h_mem h.
Proof.
  intros H Hin. apply live_region in Hin as (pre & b & post & -> & Hu & Hr).
  unfold region in Hr. simplify_eq.
  destruct (heap_free_run h pre b post H Hu) as (h' & Hrun & Hwf' & Hp & _ & Hm).
  exists h', (freed pre b post). split_and!; try done.
  rewrite (live_ptr h h' _ Hp). by apply freed_live.
Qed.

(** Freeing the block just taken restores the blocks. *)
Lemma freed_taken n pre b post : b_used b = false -> coalesced (pre ++ b :: post) ->
  exists c rest, taken n b = c :: rest /\ b_off c = b_off b /\ b_used c = true /\
    freed pre c (rest ++ post) = pre ++ b :: post.
Proof.
  intros Hb H. assert (Eb : Blk (b_off b) (b_next b) false = b) by (destruct b; simpl in *; by subst).
  assert (Hpre : forall l, join_before pre (b :: l) = pre ++ b :: l).
  { intros l. unfold join_before. destruct pre as [|a pre _] using rev_ind; [done|].
    rewrite list.last_snoc. destruct (b_used a) eqn:Ea; [done|].
    rewrite <- (assoc (++)) in H. apply coalesced_app_r in H. simpl in H.
    rewrite Ea, Hb in H. naive_solver. }
  unfold taken. destruct (_ <=? _); eexists _, _; (split; [done|]); simpl; (split_and!; [done..|]);
    unfold freed; simpl.
  - unfold joined. simpl. rewrite Eb. apply Hpre.
  - rewrite Eb. unfold join_after. destruct post as [|c post]; [apply Hpre|].
    apply coalesced_app_r in H. simpl in H. rewrite Hb in H.
    destruct (b_used c); [apply Hpre|naive_solver].
Qed.

(** A block that is allocated and freed again leaves the heap as it was: same blocks, same
    lowest free block, same count. *)
Lemma heap_malloc_free_roundtrip h bs size p h' :
  heap_wf h bs -> 0 < size <= 4294967292 -> heap_malloc size h = Some (p, h') -> p <> 0 ->
  exists h'', heap_free p h' = Some h'' /\ heap_wf h'' bs /\
    h_lfree h'' = h_lfree h /\ h_used h'' = h_used h.
Proof.
  intros H Hs Hm Hp0.
  destruct (heap_malloc_cases h bs size H Hs) as [[Hm' _]|(pre & b & post & h1 & len & -> & Hu & Hm' & Haf & _)];
    [by simplify_eq|]. simplify_eq. destruct Haf as (Hwf & Hpt & Hsz & _).
  destruct (freed_taken (request size) pre b post Hu (hw_coalesced _ _ H)) as (c & rest & Et & Ec & Ecu & Ef2).
  rewrite Et in Hwf. simpl in Hwf.
  destruct (heap_free_run h' pre c (rest ++ post) Hwf Ecu) as (h2 & Hf & Hwf2 & Hp2 & Hs2 & _).
  rewrite Ef2 in Hwf2. rewrite Ec, Hpt in Hf. exists h2. split_and!; try done.
  - rewrite (hw_lfree _ _ Hwf2), (hw_lfree _ _ H). f_equal.
    rewrite (hw_end _ _ Hwf2), (hw_end _ _ H). lia.
  - by rewrite (hw_used _ _ Hwf2), (hw_used _ _ H).
Qed.

(** The heap given at start-up is one free block. *)
Lemma heap_init_wf begin_addr end_addr h0 :
  0 < begin_addr -> end_addr < 4294967296 -> begin_addr + 48 <= end_addr ->
  h_used h0 = 0 -> 0 <= h_max h0 ->
  let h := heap_init begin_addr end_addr h0 in
  heap_wf h [Blk 0 (h_end h) false] /\ begin_addr <= h_ptr h /\ h_ptr h + h_end h + 12 <= end_addr /\
  end_addr - begin_addr < h_size h + 32.
Proof.
  intros Hb He Hlt Hu Hm. unfold heap_init, heap_range_ok.
  rewrite RT_ALIGN_4, RT_ALIGN_DOWN_4 by lia. change SIZEOF_STRUCT_MEM with 12.
  set (b4 := begin_addr + (- begin_addr) mod 4). set (e4 := end_addr - end_addr mod 4).
  assert (Hb4 : begin_addr <= b4 < begin_addr + 4 /\ b4 mod 4 = 0) by (unfold b4; Z.div_mod_to_equations; lia).
  assert (He4 : end_addr - 4 < e4 <= end_addr /\ e4 mod 4 = 0) by (unfold e4; Z.div_mod_to_equations; lia).
  clearbody b4 e4. rewrite (u32_id (e4 - _)), (u32_id (e4 - b4 - _)), u32_id by lia.
  destruct (Z.ltb_spec (2 * 12) e4); [|lia]. destruct (Z.leb_spec b4 (e4 - 2 * 12)); [|lia]. simpl.
  split; [|lia]. split; simpl; try done; try lia.
  - split; [lia|]. Z.div_mod_to_equations; lia.
  - split_and!; try done; [lia|Z.div_mod_to_equations; lia|].
    eexists. rewrite lookup_insert_ne, lookup_insert_eq by lia. split; [done|].
    unfold header_of. simpl. done.
  - eexists. by rewrite lookup_insert_eq.
Qed.

(** *** Contents: [rt_calloc] and [rt_realloc] *)

Lemma mem_zero_lookup dst n h a :
  h_mem (mem_zero dst n h) !! a =
    (if (dst <=? a) && (a <? dst + Z.of_nat n) then Some 0 else h_mem h !! a).
Proof.
  unfold mem_zero. simpl. induction n as [|n IH].
  - simpl. zcases; simpl; try done; lia.
  - rewrite seqZ_S, foldl_app. simpl. rewrite lookup_insert, IH.
    case_decide; zcases; simpl; try done; lia.
Qed.

Lemma mem_copy_lookup dst src n h i :
  dst + Z.of_nat n <= src \/ src + Z.of_nat n <= dst -> 0 <= i < Z.of_nat n ->
  h_mem (mem_copy dst src n h) !! (dst + i) = h_mem h !! (src + i).
Proof.
  intros Hd. unfold mem_copy. simpl.
  set (step := fun (m : gmap Z Z) (i : Z) => partial_alter (fun _ => m !! (src + i)) (dst + i) m).
  assert (Hout : forall k a, (a < dst \/ dst + Z.of_nat k <= a) ->
    foldl step (h_mem h) (seqZ 0 (Z.of_nat k)) !! a = h_mem h !! a).
  { induction k as [|k IH]; intros a Ha; [done|].
    rewrite seqZ_S, foldl_app. simpl. unfold step at 1.
    rewrite lookup_partial_alter_ne by lia. apply IH. lia. }
  assert (Hin : forall k j, (k <= n)%nat -> 0 <= j < Z.of_nat k ->
    foldl step (h_mem h) (seqZ 0 (Z.of_nat k)) !! (dst + j) = h_mem h !! (src + j)).
  { induction k as [|k IH]; intros j Hk Hj; [lia|].
    rewrite seqZ_S, foldl_app. simpl. unfold step at 1.
    destruct (decide (j = Z.of_nat k)) as [->|Hne].
    - rewrite lookup_partial_alter_eq. apply Hout. lia.
    - rewrite lookup_partial_alter_ne by lia. apply IH; lia. }
  intros Hi. by apply Hin.
Qed.

(** [rt_calloc] of an array whose size does not overflow returns zeroed bytes. *)
Lemma heap_calloc_zeroed h bs count size p h' :
  heap_wf h bs -> 0 < count * size <= 4294967292 ->
  heap_calloc count size h = Some (p, h') -> p <> 0 ->
  exists bs' len, heap_wf h' bs' /\ count * size <= len /\ (p, len) ∈ live h' bs' /\
    forall i, 0 <= i < count * size -> h_mem h' !! (p + i) = Some 0.
Proof.
  intros H Hs Hc Hp0. unfold heap_calloc in Hc. rewrite u32_id in Hc by lia.
  destruct (heap_malloc_cases h bs _ H Hs) as [[Hm' _]|(pre & b & post & h1 & len & -> & Hu & Hm' & Haf & Hlen & _ & _ & _ & Hlive & _)];
    rewrite Hm' in Hc; simpl in Hc; [by simplify_eq|].
  destruct (Z.eqb_spec (h_ptr h + b_off b + 12) 0); [by simplify_eq|]. simplify_eq.
  exists (pre ++ taken (request (count * size)) b ++ post), len.
  destruct Haf as ([] & _). split_and!; [by split|done| |].
  - rewrite (live_ptr h1) by done. rewrite Hlive. by left.
  - intros i Hi. rewrite mem_zero_lookup. by zcases; simpl; try lia.
Qed.

(** [rt_realloc] finds that a block in use is too small. *)
Lemma realloc_locked_grow h bs p len ns :
  heap_wf h bs -> (p, len) ∈ live h bs -> len < ns <= h_size h ->
  realloc_locked p ns h = Some (RMove len, h) /\ p <> 0.
Proof.
  intros H Hin Hlt. apply live_region in Hin as (pre & b & post & Hbs & Hu & Hr).
  pose proof (hw_size _ _ H) as Hsz. pose proof (hw_ptr _ _ H) as Hp. pose proof (hw_end _ _ H) as He.
  pose proof (hw_tiles _ _ H) as Ht. rewrite Hbs in Ht.
  apply tiles_middle in Ht as (_ & Ho & Hn & _ & (m & Hm & _ & Hnx & _) & _).
  unfold region in Hr. change SIZEOF_STRUCT_MEM with 12 in Hr. injection Hr as -> ->.
  split; [|lia]. unfold realloc_locked. rewrite (u32_id (h_ptr h + h_end h)) by lia.
  destruct (Z.ltb_spec (h_ptr h + b_off b + 12) (h_ptr h)); [lia|].
  destruct (Z.leb_spec (h_ptr h + h_end h) (h_ptr h + b_off b + 12)); [lia|].
  cbv beta iota delta [orb]. change SIZEOF_STRUCT_MEM with 12. change MIN_SIZE with 12.
  replace (h_ptr h + b_off b + 12 - 12 - h_ptr h) with (b_off b) by lia.
  rewrite Hm. cbn [mbind option_bind]. rewrite Hnx, (u32_id (b_next b - b_off b - 12)), (u32_id (ns + 12 + 12)) by lia.
  destruct (Z.eqb_spec (b_next b - b_off b - 12) ns); [lia|].
  by destruct (Z.ltb_spec (ns + 12 + 12) (b_next b - b_off b - 12)); [lia|].
Qed.

Lemma heap_wf_contents h bs v : heap_wf h bs -> heap_wf (set_h_mem v h) bs.
Proof. by intros []. Qed.

(** Growing a block: the block keeps its place in memory when there is no room, and
    otherwise moves with its contents, the old region given back. *)
Lemma heap_realloc_grow h bs p len newsize :
  heap_wf h bs -> (p, len) ∈ live h bs -> 0 < newsize <= 4294967292 -> len < newsize ->
  exists q h' bs', heap_realloc p newsize h = Some (q, h') /\ heap_wf h' bs' /\
    ((q = 0 /\ h' = h /\ bs' = bs) \/
     exists len', newsize <= len' /\ (q, len') :: live h bs ≡ₚ (p, len) :: live h' bs' /\
       forall i, 0 <= i < len -> h_mem h' !! (q + i) = h_mem h !! (p + i)).
Proof.
  intros H Hin Hs Hlt. destruct (RT_ALIGN_request newsize Hs) as (Ha & Ha4 & Hal & _).
  unfold heap_realloc. set (ns := RT_ALIGN newsize 4) in *.
  destruct (Z.ltb_spec (h_size h) ns) as [|Hsz]; [exists 0, h, bs; split_and!; try done; by left|].
  destruct (realloc_locked_grow h bs p len ns H Hin) as [Hlk Hp0]; [lia|].
  destruct (Z.eqb_spec p 0); [done|]. rewrite Hlk. cbn [mbind option_bind].
  pose proof (hw_size _ _ H). pose proof (hw_ptr _ _ H). pose proof (hw_end _ _ H).
  assert (Hns : 0 < ns <= 4294967292) by lia.
  destruct (heap_malloc_cases h bs ns H Hns) as [[Hm _]|(pre & b & post & h1 & l' & Hbs1 & Hu & Hm & Haf & Hl & Hob & _ & _ & Hlive & Hap)];
    rewrite Hm; simpl; [exists 0, h, bs; split_and!; try done; by left|].
  destruct (Z.eqb_spec (h_ptr h + b_off b + 12) 0); [lia|].
  destruct Haf as (Hwf1 & Hp1 & Hs1 & Hmem1). set (q := h_ptr h + b_off b + 12) in *.
  unfold realloc_copy. replace (len <? ns) with true by (symmetry; apply Z.ltb_lt; lia).
  destruct (heap_free_refines (mem_copy q p (Z.to_nat len) h1) (pre ++ taken (request ns) b ++ post) p len)
    as (h2 & bs2 & Hf & Hwf2 & Hlive2 & Hp2 & Hmem2); [by apply heap_wf_contents| |].
  { rewrite (live_ptr h1) by done. rewrite Hlive. by right. }
  rewrite Hf. simpl. eexists q, h2, bs2. split; [done|]. split; [done|]. right. exists l'.
  split; [lia|]. split; [rewrite (live_ptr h1) in Hlive2 by done; by rewrite <- Hlive2|].
  intros i Hi. rewrite Hmem2, mem_copy_lookup, Hmem1; [done| |lia].
  rewrite list.Forall_forall in Hap. specialize (Hap _ Hin). unfold apart in Hap. simpl in Hap. lia.
Qed.

(** ** A heap of 1 KiB, and what the limits of the code look like on it *)

Definition heap0 : heap := Heap 0 0 0 ∅ 0 0 0 ∅.
Definition ram : heap := heap_init 536870912 536871936 heap0.

(** The invariant of a concrete heap, by evaluation. *)
Ltac tiles_eval :=
  lazymatch goal with
  | |- tiles _ _ _ _ [] => vm_compute; reflexivity
  | |- tiles _ _ _ _ (_ :: _) =>
      split; [vm_compute; reflexivity|]; split; [vm_compute; done|]; split; [vm_compute; reflexivity|];
      split; [eexists; split; [vm_compute; reflexivity|repeat split; vm_compute; done]|]; tiles_eval
  end.
Ltac heap_wf_eval :=
  split; [vm_compute; done|vm_compute; done|vm_compute; done|tiles_eval
         |eexists; split; vm_compute; reflexivity|vm_compute; auto 20|vm_compute; done
         |vm_compute; done|vm_compute; done].

Lemma ram_wf : heap_wf ram [Blk 0 1012 false].
Proof. heap_wf_eval. Qed.

(** The heap after a first allocation of 100 bytes. *)
Definition ram1 : heap := match heap_malloc 100 ram with Some (_, h) => h | None => ram end.
Lemma ram1_wf : heap_wf ram1 [Blk 0 112 true; Blk 112 1012 false].
Proof. heap_wf_eval. Qed.

(** A size within three bytes of 2^32 is rounded up to 0 and served by the smallest block. *)
Example heap_malloc_size_wraps : exists h', heap_malloc 4294967295 ram = Some (536870924, h') /\
  live h' [Blk 0 24 true; Blk 24 1012 false] = [(536870924, 12)] /\ h_used h' = 24.
Proof. eexists. split; [|split]; vm_compute; reflexivity. Qed.

(** The bound of the search leaves out a block that fits exactly and ends the heap. *)
Example heap_malloc_exact_fit_missed : h_size ram = 1000 /\ heap_malloc 1000 ram = Some (0, ram) /\
  exists h', heap_malloc 996 ram = Some (536870924, h').
Proof. split; [|split; [|eexists]]; vm_compute; reflexivity. Qed.

(** Two blocks are allocated and the first is made smaller: the 376 bytes between them are
    free, but [lfree] stays above them.  With the rest of the heap allocated, a request
    for 100 bytes fails. *)
Definition shrink_lfree : option (Z * option heap_mem * Z) :=
  a ← heap_malloc 400 ram; b ← heap_malloc 100 a.2; c ← heap_realloc a.1 12 b.2;
  d ← heap_malloc 460 c.2; e ← heap_malloc 100 d.2;
  Some (h_lfree c.2, h_blk e.2 !! 24, e.1).
Example heap_realloc_shrink_lfree :
  shrink_lfree = Some (524, Some (HeapMem HEAP_MAGIC 0 412 0), 0).
Proof. vm_compute. reflexivity. Qed.
