(* ===== verification/Heap.v ===== *)
(** * The functions of the system heap (src/src/mem.c)

    [rt_malloc], [rt_free], [rt_realloc] and [rt_calloc] with the semaphore [heap_sem]
    that keeps them apart, over the state of the kernel and of the heap.  A call can be
    switched out where it waits for the semaphore, and where its release of the semaphore
    lets another thread run; what it has left to do is then a value of [hframe]. *)
From S2P Require Import Prelude KService Kernel Object Scheduler Timer Thread Frame Ipc Sem Mem.

(** The kernel and the heap. *)
Record hstate := HState { hs_kernel : kstate; hs_heap : heap }.

Definition HM (A : Type) : Type := hstate -> option (A * hstate).
#[export] Instance HM_ret : MRet HM := fun A a s => Some (a, s).
#[export] Instance HM_bind : MBind HM := fun A B f m s =>
  match m s with Some (a, s') => f a s' | None => None end.

(** A kernel call, and an operation on the heap. *)
Definition kern {A} (m : M A) : HM A := fun s =>
  match m (hs_kernel s) with Some (a, k) => Some (a, HState k (hs_heap s)) | None => None end.
Definition on_heap {A} (f : heap -> option (A * heap)) : HM A := fun s =>
  match f (hs_heap s) with Some (a, h) => Some (a, HState (hs_kernel s) h) | None => None end.
Definition heap_get {A} (f : heap -> A) : HM A := fun s => Some (f (hs_heap s), s).
Definition heap_mod (f : heap -> heap) : HM unit := fun s => Some (tt, HState (hs_kernel s) (f (hs_heap s))).

Definition RT_WAITING_FOREVER : Z := -1.

(** What is done while the semaphore is held. *)
Inductive locked := LMalloc (size : Z) | LFree (rmem : Z) | LRealloc (rmem newsize : Z).

(** What a function does with the address [v] it got: return it, clear the block
    ([rt_calloc]), allocate the new block ([rt_realloc]), copy into the new block and free
    the old one, or return the new block after that. *)
Inductive after :=
  | AReturn | AZero (n : Z) | AMove (rmem size newsize : Z)
  | ACopy (rmem size newsize : Z) | AFreed (p : Z).

(** Where a call was switched out: before it got the semaphore, or when it released it. *)
Inductive hframe := HTake (l : locked) (c : after) | HAfter (c : after) (v : Z).
Inductive hwait := HRet (v : Z) | HWait (f : hframe).

(** The work of [l], for a function that goes on with [c]: with what it goes on then, and
    the address it got. *)
Definition locked_work (l : locked) (c : after) (h : heap) : option ((after * Z) * heap) :=
  match l with
  | LMalloc size => r ← malloc_locked size h; Some ((c, r.1), r.2)
  | LFree rmem => h' ← free_locked rmem h; Some ((c, 0), h')
  | LRealloc rmem newsize =>
      r ← realloc_locked rmem newsize h;
      Some (match r.1 with RDone p => (c, p) | RMove size => (AMove rmem size newsize, 0) end, r.2)
  end.

Section Heap.
Context (heap_sem : Z).

(** [rt_system_heap_init]. *)
Definition rt_system_heap_init (begin_addr end_addr : Z) : HM unit :=
  kern RT_DEBUG_NOT_IN_INTERRUPT;;
  if heap_range_ok begin_addr end_addr then
    heap_mod (heap_init begin_addr end_addr);;
    kern (rt_sem_init heap_sem [104; 101; 97; 112; 0] 1 RT_IPC_FLAG_FIFO);;
    mret tt
  else mret tt.

(** The functions are composed from their parts, given what follows them. *)
Section Call.
Context (finish : after -> Z -> HM hwait).

(** With the semaphore taken: the work, the release, and the rest of the function as soon
    as the thread runs. *)
Definition run_locked (l : locked) (c : after) : HM hwait :=
  cur ← kern (kget k_current);
  r ← on_heap (locked_work l c);
  kern (rt_sem_release heap_sem);;
  cur' ← kern (kget k_current);
  if bool_decide (cur = cur') then finish r.1 r.2 else mret (HWait (HAfter r.1 r.2)).

(** [rt_sem_take (&heap_sem, RT_WAITING_FOREVER)]; its result is not looked at. *)
Definition enter (l : locked) (c : after) : HM hwait :=
  w ← kern (rt_sem_take heap_sem RT_WAITING_FOREVER);
  match w with
  | Ret _ => run_locked l c
  | Wait _ => mret (HWait (HTake l c))
  end.

Definition malloc_call (size : Z) (c : after) : HM hwait :=
  kern RT_DEBUG_NOT_IN_INTERRUPT;;
  n ← heap_get (malloc_prepare size);
  match n with None => finish c 0 | Some n => enter (LMalloc n) c end.

Definition free_call (rmem : Z) (c : after) : HM hwait :=
  kern RT_DEBUG_NOT_IN_INTERRUPT;;
  if rmem =? 0 then finish c 0
  else
    ok ← heap_get (free_check rmem);
    kern (rt_assert ok);;
    enter (LFree rmem) c.

Definition finish_with (c : after) (v : Z) : HM hwait :=
  match c with
  | AReturn => mret (HRet v)
  | AZero n => (if v =? 0 then mret tt else heap_mod (mem_zero v (Z.to_nat n)));; mret (HRet v)
  | AMove rmem size newsize => malloc_call newsize (ACopy rmem size newsize)
  | ACopy rmem size newsize =>
      if v =? 0 then mret (HRet 0)
      else heap_mod (realloc_copy v rmem size newsize);; free_call rmem (AFreed v)
  | AFreed p => mret (HRet p)
  end.
End Call.

(** A call goes through at most three of the functions: [rt_realloc], [rt_malloc] and
    [rt_free] inside it. *)
Definition finish : after -> Z -> HM hwait :=
  finish_with (finish_with (finish_with (fun _ _ _ => None))).

(** [rt_malloc]: 0 stands for [RT_NULL]. *)
Definition rt_malloc (size : Z) : HM hwait := malloc_call finish size AReturn.
(** [rt_free]. *)
Definition rt_free (rmem : Z) : HM hwait := free_call finish rmem AReturn.
(** [rt_calloc]. *)
Definition rt_calloc (count size : Z) : HM hwait :=
  kern RT_DEBUG_NOT_IN_INTERRUPT;;
  malloc_call finish (u32 (count * size)) (AZero (u32 (count * size))).
(** [rt_realloc]. *)
Definition rt_realloc (rmem newsize : Z) : HM hwait :=
  kern RT_DEBUG_NOT_IN_INTERRUPT;;
  let newsize := RT_ALIGN newsize 4 in
  size ← heap_get h_size;
  if size <? newsize then mret (HRet 0)
  else if rmem =? 0 then malloc_call finish newsize AReturn
  else enter finish (LRealloc rmem newsize) AReturn.

(** A call that was switched out goes on. *)
Definition heap_resume (f : hframe) : HM hwait :=
  match f with
  | HTake l c => run_locked finish l c
  | HAfter c v => finish c v
  end.

(** ** The calls that nothing interrupts *)

(** Nobody holds the heap, and the caller is not an interrupt handler. *)
Definition heap_idle (k : kstate) : Prop :=
  k_int_nest k = 0 /\ queue k (LSuspend (OSem heap_sem)) = [] /\
  exists s, k_sems k !! heap_sem = Some s /\ sem_value s = 1.

(** The semaphore is taken and given back. *)
Lemma heap_lock_cycle k : heap_idle k -> exists k1,
  rt_sem_take heap_sem RT_WAITING_FOREVER k = Some (Ret RT_EOK, k1) /\ k_current k1 = k_current k /\
  rt_sem_release heap_sem k1 = Some (RT_EOK, k).
Proof.
  intros (_ & Hq & s & Es & Hv). exists (put_sem heap_sem (set_sem_value 0 s) k). split; [|split; [done|]].
  - unfold rt_sem_take. rewrite (bind_run _ _ _ _ _ (get_sem_run _ _ _ Es)), Hv. cbn [Z.ltb Z.compare].
    by mstep_by (mod_sem_run heap_sem s (set_sem_value (u16 (1 - 1))) k Es).
  - set (s1 := set_sem_value 0 s). set (k1 := put_sem heap_sem s1 k).
    assert (E1 : k_sems k1 !! heap_sem = Some s1) by apply lookup_insert_eq.
    unfold rt_sem_release. rewrite (bind_run _ _ _ _ _ (get_sem_run _ _ _ E1)). unfold list_isempty. mstep.
    rewrite (queue_ext k) by done. rewrite Hq. cbn [negb].
    mstep_by (mod_sem_run heap_sem s1 (set_sem_value (u16 (sem_value s1 + 1))) k1 E1).
    unfold k1, put_sem. cbn. rewrite insert_insert_eq.
    replace (set_sem_value _ s1) with s by (unfold s1; destruct s; cbn in *; by subst).
    rewrite insert_id by done. by destruct k.
Qed.

Lemma not_in_interrupt k : k_int_nest k = 0 -> RT_DEBUG_NOT_IN_INTERRUPT k = Some (tt, k).
Proof. intros E. unfold RT_DEBUG_NOT_IN_INTERRUPT. mstep. by rewrite E. Qed.

Lemma hbind_run {A B} (m : HM A) (f : A -> HM B) s a s' :
  m s = Some (a, s') -> (m ≫= f) s = f a s'.
Proof. intros E. unfold mbind, HM_bind. by rewrite E. Qed.
Lemma hbind_stuck {A B} (m : HM A) (f : A -> HM B) s : m s = None -> (m ≫= f) s = None.
Proof. intros E. unfold mbind, HM_bind. by rewrite E. Qed.
Lemma kern_run {A} (m : M A) k h a k' : m k = Some (a, k') -> kern m (HState k h) = Some (a, HState k' h).
Proof. intros E. unfold kern. cbn. by rewrite E. Qed.

(** Under an idle heap a critical section is its work. *)
Lemma enter_idle fin l c k h : heap_idle k ->
  enter fin l c (HState k h) =
  match locked_work l c h with Some ((c', v), h') => fin c' v (HState k h') | None => None end.
Proof.
  intros Hi. destruct (heap_lock_cycle k Hi) as (k1 & Ht & Ec & Hr).
  unfold enter. rewrite (hbind_run _ _ _ _ _ (kern_run _ _ h _ _ Ht)). unfold run_locked.
  rewrite (hbind_run _ _ _ _ _ (kern_run (kget k_current) k1 h _ k1 eq_refl)).
  destruct (locked_work l c h) as [[[c' v] h']|] eqn:Ew.
  - erewrite hbind_run; [|unfold on_heap; cbn; by rewrite Ew].
    rewrite (hbind_run _ _ _ _ _ (kern_run _ _ h' _ _ Hr)).
    rewrite (hbind_run _ _ _ _ _ (kern_run (kget k_current) k h' _ k eq_refl)).
    by rewrite bool_decide_true.
  - apply hbind_stuck. unfold on_heap. cbn. by rewrite Ew.
Qed.

Lemma malloc_call_idle fin size c k h : heap_idle k ->
  malloc_call fin size c (HState k h) =
  match heap_malloc size h with Some (p, h') => fin c p (HState k h') | None => None end.
Proof.
  intros Hi. unfold malloc_call, heap_malloc.
  rewrite (hbind_run _ _ _ _ _ (kern_run _ _ h _ _ (not_in_interrupt k (proj1 Hi)))).
  erewrite hbind_run by reflexivity. cbn [hs_heap]. destruct (malloc_prepare size h) as [n|]; [|done].
  rewrite enter_idle by done. cbn. by destruct (malloc_locked n h) as [[p h']|].
Qed.

Lemma free_call_idle fin rmem c k h : heap_idle k ->
  free_call fin rmem c (HState k h) =
  match heap_free rmem h with Some h' => fin c 0 (HState k h') | None => None end.
Proof.
  intros Hi. unfold free_call, heap_free.
  rewrite (hbind_run _ _ _ _ _ (kern_run _ _ h _ _ (not_in_interrupt k (proj1 Hi)))).
  destruct (rmem =? 0); [done|]. erewrite hbind_run by reflexivity. cbn [hs_heap].
  destruct (free_check rmem h); cbn [negb]; [|done].
  rewrite (hbind_run _ _ _ _ _ (kern_run _ _ h _ _ (eq_refl : rt_assert true k = Some (tt, k)))).
  rewrite enter_idle by done. cbn. by destruct (free_locked rmem h).
Qed.

(** The result of an operation on the heap as the result of a call. *)
Definition returned (k : kstate) (r : option (Z * heap)) : option (hwait * hstate) :=
  match r with Some (p, h) => Some (HRet p, HState k h) | None => None end.

Lemma rt_malloc_idle k h size : heap_idle k ->
  rt_malloc size (HState k h) = returned k (heap_malloc size h).
Proof. apply malloc_call_idle. Qed.

Lemma rt_free_idle k h rmem : heap_idle k ->
  rt_free rmem (HState k h) = match heap_free rmem h with Some h' => Some (HRet 0, HState k h') | None => None end.
Proof. apply free_call_idle. Qed.

Lemma rt_calloc_idle k h count size : heap_idle k ->
  rt_calloc count size (HState k h) = returned k (heap_calloc count size h).
Proof.
  intros Hi. unfold rt_calloc, heap_calloc.
  rewrite (hbind_run _ _ _ _ _ (kern_run _ _ h _ _ (not_in_interrupt k (proj1 Hi)))), malloc_call_idle by done.
  destruct (heap_malloc _ h) as [[p h']|]; [|done]. cbn. by destruct (p =? 0).
Qed.

Lemma rt_realloc_idle k h rmem newsize : heap_idle k ->
  rt_realloc rmem newsize (HState k h) = returned k (heap_realloc rmem newsize h).
Proof.
  intros Hi. unfold rt_realloc, heap_realloc.
  rewrite (hbind_run _ _ _ _ _ (kern_run _ _ h _ _ (not_in_interrupt k (proj1 Hi)))).
  erewrite hbind_run by reflexivity. cbn [hs_heap]. destruct (_ <? _); [done|].
  destruct (rmem =? 0); [by apply malloc_call_idle|]. rewrite enter_idle by done. cbn [locked_work].
  destruct (realloc_locked rmem _ h) as [[[p|size] h1]|]; cbn; [done| |done].
  rewrite malloc_call_idle by done. destruct (heap_malloc _ h1) as [[p h2]|]; cbn; [|done].
  destruct (p =? 0); [done|]. erewrite hbind_run by reflexivity. cbn [hs_kernel hs_heap].
  rewrite free_call_idle by done. by destruct (heap_free _ _).
Qed.

(** C24. When nobody holds the heap, the functions of mem.c do on the heap what the
    sequential reference does and leave the kernel as it was: the semaphore is taken and
    given back on every path, also when the request fails. *)
Theorem heap_calls_sequential k h : heap_idle k ->
  (forall size, rt_malloc size (HState k h) = returned k (heap_malloc size h)) /\
  (forall rmem, rt_free rmem (HState k h) =
     match heap_free rmem h with Some h' => Some (HRet 0, HState k h') | None => None end) /\
  (forall count size, rt_calloc count size (HState k h) = returned k (heap_calloc count size h)) /\
  (forall rmem newsize, rt_realloc rmem newsize (HState k h) = returned k (heap_realloc rmem newsize h)).
Proof.
  intros Hi. split_and!; intros;
    auto using rt_malloc_idle, rt_free_idle, rt_calloc_idle, rt_realloc_idle.
Qed.

(** C15. [rt_malloc] either fails, and then there is no block below the search limit that is
    free and large enough, or returns an aligned region inside the heap, large enough and
    apart from every region in use, and adds exactly that region to the ones in use.  The
    kernel is as before. *)
Theorem rt_malloc_refines k h bs size :
  heap_idle k -> heap_wf h bs -> 0 < size <= 4294967292 ->
  exists p h' bs', rt_malloc size (HState k h) = Some (HRet p, HState k h') /\ heap_wf h' bs' /\
    ((p = 0 /\ h' = h /\ bs' = bs /\
      forall b, b ∈ bs -> b_used b = false -> b_off b + request size < h_size h ->
        b_next b - b_off b - SIZEOF_STRUCT_MEM < request size) \/
     (p mod 4 = 0 /\ exists len, size <= len /\ 0 < h_ptr h <= p /\ p + len <= h_ptr h + h_end h /\
      live h' bs' ≡ₚ (p, len) :: live h bs /\ Forall (apart (p, len)) (live h bs))).
Proof.
  intros Hi H Hs. destruct (heap_malloc_refines h bs size H Hs) as (p & h' & bs' & Hm & Hr).
  exists p, h', bs'. by rewrite rt_malloc_idle, Hm.
Qed.

(** C16. [rt_free] of a region in use removes exactly that region, and leaves the contents of
    the others and the kernel alone. *)
Theorem rt_free_refines k h bs p len :
  heap_idle k -> heap_wf h bs -> (p, len) ∈ live h bs ->
  exists h' bs', rt_free p (HState k h) = Some (HRet 0, HState k h') /\ heap_wf h' bs' /\
    live h bs ≡ₚ (p, len) :: live h' bs' /\ h_ptr h' = h_ptr h /\ h_mem h' = h_mem h.
Proof.
  intros Hi H Hin. destruct (heap_free_refines h bs p len H Hin) as (h' & bs' & Hf & Hr).
  exists h', bs'. by rewrite rt_free_idle, Hf.
Qed.

(** A block that is allocated and freed again leaves the heap as it was: same blocks, same
    lowest free block, same count. *)
Theorem rt_malloc_free_roundtrip k h bs size p h' :
  heap_idle k -> heap_wf h bs -> 0 < size <= 4294967292 ->
  rt_malloc size (HState k h) = Some (HRet p, HState k h') -> p <> 0 ->
  exists h'', rt_free p (HState k h') = Some (HRet 0, HState k h'') /\ heap_wf h'' bs /\
    h_lfree h'' = h_lfree h /\ h_used h'' = h_used h.
Proof.
  intros Hi H Hs Hm Hp. rewrite rt_malloc_idle in Hm by done.
  destruct (heap_malloc size h) as [[q h1]|] eqn:Em; cbn in Hm; simplify_eq.
  destruct (heap_malloc_free_roundtrip h bs size p h' H Hs Em Hp) as (h'' & Hf & Hr).
  exists h''. by rewrite rt_free_idle, Hf.
Qed.

(** [rt_calloc] of an array whose size does not overflow fails or returns a new region of
    zeroed bytes. *)
Theorem rt_calloc_zeroed k h bs count size :
  heap_idle k -> heap_wf h bs -> 0 < count * size <= 4294967292 ->
  exists p h', rt_calloc count size (HState k h) = Some (HRet p, HState k h') /\
    (p = 0 \/ exists bs' len, heap_wf h' bs' /\ count * size <= len /\ (p, len) ∈ live h' bs' /\
      forall i, 0 <= i < count * size -> h_mem h' !! (p + i) = Some 0).
Proof.
  intros Hi H Hs. rewrite rt_calloc_idle by done.
  destruct (heap_malloc_refines h bs (count * size) H Hs) as (p & h1 & bs1 & Hm & _).
  destruct (heap_calloc count size h) as [[q h']|] eqn:Ec.
  - exists q, h'. split; [done|]. destruct (decide (q = 0)); [by left|]. right. by eapply heap_calloc_zeroed.
  - unfold heap_calloc in Ec. rewrite u32_id, Hm in Ec by lia. cbn in Ec. by destruct (p =? 0).
Qed.

(** Growing a block with [rt_realloc]: when there is no room the block and the heap stay as
    they are; otherwise the contents move to a larger region and the old one is given
    back. *)
Theorem rt_realloc_grow k h bs p len newsize :
  heap_idle k -> heap_wf h bs -> (p, len) ∈ live h bs -> 0 < newsize <= 4294967292 -> len < newsize ->
  exists q h' bs', rt_realloc p newsize (HState k h) = Some (HRet q, HState k h') /\ heap_wf h' bs' /\
    ((q = 0 /\ h' = h /\ bs' = bs) \/
     exists len', newsize <= len' /\ (q, len') :: live h bs ≡ₚ (p, len) :: live h' bs' /\
       forall i, 0 <= i < len -> h_mem h' !! (q + i) = h_mem h !! (p + i)).
Proof.
  intros Hi H Hin Hs Hlt. destruct (heap_realloc_grow h bs p len newsize H Hin Hs Hlt) as (q & h' & bs' & Hr & Hc).
  exists q, h', bs'. by rewrite rt_realloc_idle, Hr.
Qed.

(** [rt_system_heap_init] makes the memory between the two addresses, but for at most 32
    bytes, one free block, and the heap is ready for the first call. *)
Theorem rt_system_heap_init_wf begin_addr end_addr k h0 :
  0 < begin_addr -> end_addr < 4294967296 -> begin_addr + 48 <= end_addr ->
  h_used h0 = 0 -> 0 <= h_max h0 -> k_int_nest k = 0 -> registered (OSem heap_sem) k = false ->
  exists k' h, rt_system_heap_init begin_addr end_addr (HState k h0) = Some (tt, HState k' h) /\
    heap_idle k' /\ heap_wf h [Blk 0 (h_end h) false] /\
    begin_addr <= h_ptr h /\ h_ptr h + h_end h + 12 <= end_addr /\ end_addr - begin_addr < h_size h + 32.
Proof.
  intros Hb He Hlt Hu Hm Hn Hr.
  pose proof (heap_init_wf begin_addr end_addr h0 Hb He Hlt Hu Hm) as Hwf. cbv zeta in Hwf.
  assert (Hok : heap_range_ok begin_addr end_addr = true).
  { destruct (heap_range_ok begin_addr end_addr) eqn:E; [done|]. unfold heap_init in Hwf. rewrite E in Hwf.
    destruct Hwf as (Hwf & _). pose proof (hw_ptr _ _ Hwf). exfalso.
    unfold heap_range_ok in E. rewrite RT_ALIGN_4, RT_ALIGN_DOWN_4 in E by lia.
    change SIZEOF_STRUCT_MEM with 12 in E. rewrite u32_id in E by (Z.div_mod_to_equations; lia).
    apply andb_false_iff in E as [E|E]; [apply Z.ltb_ge in E|apply Z.leb_gt in E]; Z.div_mod_to_equations; lia. }
  eexists _, (heap_init begin_addr end_addr h0). split; [|split; [|exact Hwf]].
  - unfold rt_system_heap_init. rewrite (hbind_run _ _ _ _ _ (kern_run _ _ h0 _ _ (not_in_interrupt k Hn))), Hok.
    erewrite hbind_run by reflexivity. erewrite hbind_run; [reflexivity|]. apply kern_run.
    apply rt_sem_init_run; [by eexists|exact Hr].
  - split; [done|]. split; [by rewrite (queue_ext (put_queue (LSuspend (OSem heap_sem)) [] k)), queue_put_eq|].
    eexists. split; [apply lookup_insert_eq|done].
Qed.

(** ** Calls that wait for the heap *)

Lemma enter_waits fin l c idle k h t th s :
  core (k_tick k) RT_TICK_HALF idle k -> sems_ok k -> k_current k = Some t -> is_ready k t th ->
  k_sems k !! heap_sem = Some s -> sem_value s = 0 ->
  may_block (k_tick k) RT_TICK_HALF idle k t RT_WAITING_FOREVER ->
  exists k', enter fin l c (HState k h) = Some (HWait (HTake l c), HState k' h) /\
    core (k_tick k') RT_TICK_HALF idle k' /\ sems_ok k' /\ k_current k' <> Some t /\
    t ∈ queue k' (LSuspend (OSem heap_sem)) /\ k_sems k' = k_sems k.
Proof.
  intros Hc Hok Ec Hr Es Hv Hb.
  destruct (rt_sem_take_run _ _ idle heap_sem s RT_WAITING_FOREVER k t th Hc Ec Hr Es (Hok _ _ Es) (fun _ _ => Hb))
    as (r & k' & cs & cs' & o & Er & Hc' & Hab & Hab' & Hst & Ho & _ & Hon).
  destruct (rt_sem_take_inv _ _ idle heap_sem s RT_WAITING_FOREVER k t th Hc Hok Ec Hr Es (fun _ _ => Hb))
    as (r2 & k2 & Er2 & _ & Hok' & _). rewrite Er in Er2. injection Er2 as <- <-.
  unfold sem_abs in Hab, Hab'. rewrite Es in Hab. cbn in Hab. injection Hab as <-.
  exists k'. inversion Hst; subst; [lia|done|]. destruct Ho as (-> & Hcur & Eks & _).
  rewrite Eks, Es in Hab'. cbn in Hab'. injection Hab' as _ Eq.
  split; [by unfold enter; rewrite (hbind_run _ _ _ _ _ (kern_run _ _ h _ _ Er))|].
  replace (k_tick k') with (k_tick k) by (unfold sem_only in Hon; by rewrite Hon).
  do 3 (split; [done|]). split; [|done]. rewrite Eq. set_solver.
Qed.

(** The semaphore has been handed to a thread and nobody else waits for it. *)
Lemma run_locked_handed fin l c k h s :
  k_sems k !! heap_sem = Some s -> sem_value s = 0 -> queue k (LSuspend (OSem heap_sem)) = [] ->
  run_locked fin l c (HState k h) =
  match locked_work l c h with
  | Some ((c', v), h') => fin c' v (HState (put_sem heap_sem (set_sem_value 1 s) k) h')
  | None => None
  end.
Proof.
  intros Es Hv Hq.
  assert (Hr : rt_sem_release heap_sem k = Some (RT_EOK, put_sem heap_sem (set_sem_value 1 s) k)).
  { unfold rt_sem_release. rewrite (bind_run _ _ _ _ _ (get_sem_run _ _ _ Es)). unfold list_isempty. mstep.
    rewrite Hq, Hv. cbn [negb]. by mstep_by (mod_sem_run heap_sem s (set_sem_value (u16 (0 + 1))) k Es). }
  unfold run_locked. rewrite (hbind_run _ _ _ _ _ (kern_run (kget k_current) k h _ k eq_refl)).
  destruct (locked_work l c h) as [[[c' v] h']|] eqn:Ew.
  - erewrite hbind_run; [|unfold on_heap; cbn; by rewrite Ew].
    rewrite (hbind_run _ _ _ _ _ (kern_run _ _ h' _ _ Hr)).
    erewrite hbind_run by reflexivity. by rewrite bool_decide_true.
  - apply hbind_stuck. unfold on_heap. cbn. by rewrite Ew.
Qed.

(** The heap is used by one call at a time: while another call holds the semaphore,
    [rt_malloc] suspends its caller and does not touch the heap; when the semaphore has
    been handed to it, it allocates from the heap as it is then and gives the semaphore
    back. *)
Theorem rt_malloc_excluded idle k h t th s size n :
  core (k_tick k) RT_TICK_HALF idle k -> sems_ok k -> k_current k = Some t -> is_ready k t th ->
  k_sems k !! heap_sem = Some s -> sem_value s = 0 ->
  may_block (k_tick k) RT_TICK_HALF idle k t RT_WAITING_FOREVER -> malloc_prepare size h = Some n ->
  (exists k', rt_malloc size (HState k h) = Some (HWait (HTake (LMalloc n) AReturn), HState k' h) /\
     core (k_tick k') RT_TICK_HALF idle k' /\ sems_ok k' /\ k_current k' <> Some t /\
     t ∈ queue k' (LSuspend (OSem heap_sem)) /\ k_sems k' = k_sems k) /\
  (forall k2 h2 s2, k_sems k2 !! heap_sem = Some s2 -> sem_value s2 = 0 ->
     queue k2 (LSuspend (OSem heap_sem)) = [] ->
     heap_resume (HTake (LMalloc n) AReturn) (HState k2 h2) =
     returned (put_sem heap_sem (set_sem_value 1 s2) k2) (malloc_locked n h2)).
Proof.
  intros Hc Hok Ec Hr Es Hv Hb Hp. split.
  - unfold rt_malloc, malloc_call.
    rewrite (hbind_run _ _ _ _ _ (kern_run _ _ h _ _ (not_in_interrupt k ltac:(apply Hb)))).
    erewrite hbind_run by reflexivity. cbn [hs_heap]. rewrite Hp. by eapply enter_waits.
  - intros k2 h2 s2 E2 V2 Q2. cbn [heap_resume]. rewrite (run_locked_handed _ _ _ _ _ s2) by done. cbn [locked_work].
    by destruct (malloc_locked n h2) as [[p h3]|].
Qed.
End Heap.
