(* ===== verification/Dynamic.v ===== *)
(** * Objects on the heap (src/src/object.c, ipc.c, mempool.c, timer.c, thread.c, idle.c)

    [rt_object_allocate] and [rt_object_delete], the [_create] and [_delete] functions of
    all kinds of objects built on them, and the idle thread, which gives back the memory of
    the threads that have been deleted or have ended.  Such a function is a sequence of
    atomic sections of the kernel and of calls of the heap, in each of which it can be
    switched out: it is a value of [prog], and [exec] runs it over the state of the kernel
    and of the heap until it returns or is switched out.

    The theorems show how the kernel and the heap keep together: every control block, stack
    and buffer that the kernel has allocated is a region of the heap in use, no two of them
    are the same, and none is lost when a creation fails half way. *)
From S2P Require Import Prelude KService Kernel Object Scheduler Timer Thread Frame Ipc.
From S2P Require Import Sem MutexLock EventSet Mailbox MsgQueue Mempool Mem Heap System.

(** ** Programs of atomic sections and heap calls *)

Inductive prog (A : Type) : Type :=
  | PRet (a : A)
  | PKern (B : Type) (m : M B) (f : B -> prog A)   (**r with interrupts disabled *)
  | PMalloc (size : Z) (f : Z -> prog A)           (**r [rt_malloc], 0 for [RT_NULL] *)
  | PFree (p : Z) (f : prog A).                    (**r [rt_free] *)
Arguments PRet {A} a.
Arguments PKern {A B} m f.
Arguments PMalloc {A} size f.
Arguments PFree {A} p f.

#[export] Instance prog_ret : MRet prog := @PRet.
#[export] Instance prog_bind : MBind prog := fun A B f =>
  fix bind p :=
    match p with
    | PRet a => f a
    | PKern m g => PKern m (fun b => bind (g b))
    | PMalloc n g => PMalloc n (fun v => bind (g v))
    | PFree q g => PFree q (bind g)
    end.

Definition atomic {A} (m : M A) : prog A := PKern m PRet.
Definition malloc (size : Z) : prog Z := PMalloc size PRet.
Definition free (p : Z) : prog unit := PFree p (PRet tt).

(** The result of running a program: it has returned, or its thread was switched out in a
    call of the heap. *)
Inductive outcome (A : Type) : Type := Done (a : A) | Switched (f : hframe) (rest : Z -> prog A).
Arguments Done {A} a.
Arguments Switched {A} f rest.

Section Exec.
Context (heap_sem : Z).

Fixpoint exec {A} (p : prog A) : HM (outcome A) :=
  match p with
  | PRet a => mret (Done a)
  | PKern m f => b ← kern m; exec (f b)
  | PMalloc n f =>
      w ← rt_malloc heap_sem n;
      match w with HRet v => exec (f v) | HWait fr => mret (Switched fr f) end
  | PFree q f =>
      w ← rt_free heap_sem q;
      match w with HRet _ => exec f | HWait fr => mret (Switched fr (fun _ => f)) end
  end.

(** A program goes on in the call it was switched out of. *)
Definition exec_resume {A} (fr : hframe) (rest : Z -> prog A) : HM (outcome A) :=
  w ← heap_resume heap_sem fr;
  match w with HRet v => exec (rest v) | HWait fr' => mret (Switched fr' rest) end.
End Exec.

(** ** Allocation of objects *)

(** [object_size] of the entries of [rt_object_container]: the sizes of the control blocks
    on the target, with the switches of rtconfig.h.  No device is allocated in this way. *)
Definition object_size (c : Z) : Z :=
  match c with
  | 0 => 128 | 1 => 32 | 2 => 36 | 3 => 32 | 4 => 48 | 5 => 52 | 6 => 56 | 8 => 44 | _ => 0
  end.

(** The address of the control block of an object; the timer inside a thread has none of
    its own. *)
Definition obj_addr (o : oid) : option Z :=
  match o with
  | OThread a | OTimer (TmUser a) | OSem a | OMutex a | OEvent a | OMb a | OMq a | OMp a
  | ODev a => Some a
  | OTimer (TmThread _) => None
  end.

(** The header and the link into the container of a new object. *)
Definition object_register (o : oid) (name : list Z) : M unit :=
  nm ← deref (rt_strncpy name RT_NAME_MAX);
  kmod (fun k => set_k_objs (<[o := Kobj nm (obj_class o)]> (k_objs k)) k);;
  object_link o.

(** [rt_object_allocate] of an object of the kind [mk]. *)
Definition rt_object_allocate (mk : Z -> oid) (name : list Z) : prog Z :=
  atomic RT_DEBUG_NOT_IN_INTERRUPT;;
  a ← malloc (object_size (obj_class (mk 0)));
  if a =? 0 then mret 0
  else atomic (object_register (mk a) name);; mret a.

(** The control block of an object ceases to exist. *)
Definition forget (o : oid) (k : kstate) : kstate :=
  let k1 := set_k_objs (delete o (k_objs k)) k in
  match o with
  | OThread t => set_k_objs (delete (OTimer (TmThread t)) (k_objs k1))
                   (set_k_threads (delete t (k_threads k)) (set_k_timers (delete (TmThread t) (k_timers k)) k1))
  | OTimer x => set_k_timers (delete x (k_timers k)) k1
  | OSem a => set_k_sems (delete a (k_sems k)) k1
  | OMutex a => set_k_mutexes (delete a (k_mutexes k)) k1
  | OEvent a => set_k_events (delete a (k_events k)) k1
  | OMb a => set_k_mbs (delete a (k_mbs k)) k1
  | OMq a => set_k_mqs (delete a (k_mqs k)) k1
  | OMp a => set_k_mps (delete a (k_mps k)) k1
  | ODev a => set_k_devs (delete a (k_devs k)) k1
  end.

(** [rt_object_delete]. *)
Definition rt_object_delete (o : oid) : prog unit :=
  atomic (sys ← rt_object_is_systemobject o; rt_assert (negb sys));;
  atomic (rt_object_detach o);;
  a ← atomic (deref (obj_addr o));
  atomic (kmod (forget o));;
  free a.

(** ** The [_create] and [_delete] functions

    [raw] and [words] are what the memory got from the heap held before, [words] by address
    where the slots of a buffer depend on it. *)

(** [rt_sem_create], [rt_sem_delete]. *)
Definition rt_sem_create (name : list Z) (value flag : Z) : prog Z :=
  atomic RT_DEBUG_NOT_IN_INTERRUPT;;
  sem ← rt_object_allocate OSem name;
  if sem =? 0 then mret 0
  else
    atomic (rt_ipc_object_init (OSem sem);;
            kmod (put_sem sem (Sem (u8 flag) (u16 value))));;
    mret sem.
Definition rt_sem_delete (sem : Z) : prog Z :=
  atomic RT_DEBUG_NOT_IN_INTERRUPT;;
  atomic (rt_ipc_list_resume_all (LSuspend (OSem sem)));;
  rt_object_delete (OSem sem);;
  mret RT_EOK.

(** [rt_mutex_create], [rt_mutex_delete]. *)
Definition rt_mutex_create (name : list Z) (flag : Z) : prog Z :=
  atomic RT_DEBUG_NOT_IN_INTERRUPT;;
  mutex ← rt_object_allocate OMutex name;
  if mutex =? 0 then mret 0
  else
    atomic (rt_ipc_object_init (OMutex mutex);;
            kmod (put_mutex mutex (Mutex (u8 flag) 1 255 0 None)));;
    mret mutex.
Definition rt_mutex_delete (mutex : Z) : prog Z :=
  atomic RT_DEBUG_NOT_IN_INTERRUPT;;
  atomic (rt_ipc_list_resume_all (LSuspend (OMutex mutex)));;
  rt_object_delete (OMutex mutex);;
  mret RT_EOK.

(** [rt_event_create], [rt_event_delete]. *)
Definition rt_event_create (name : list Z) (flag : Z) : prog Z :=
  atomic RT_DEBUG_NOT_IN_INTERRUPT;;
  event ← rt_object_allocate OEvent name;
  if event =? 0 then mret 0
  else
    atomic (rt_ipc_object_init (OEvent event);;
            kmod (put_event event (Event (u8 flag) 0)));;
    mret event.
Definition rt_event_delete (event : Z) : prog Z :=
  atomic RT_DEBUG_NOT_IN_INTERRUPT;;
  atomic (rt_ipc_list_resume_all (LSuspend (OEvent event)));;
  rt_object_delete (OEvent event);;
  mret RT_EOK.

(** [rt_mb_create], [rt_mb_delete]. *)
Definition rt_mb_create (name : list Z) (size flag : Z) (raw : rt_mailbox) (words : list Z) : prog Z :=
  atomic RT_DEBUG_NOT_IN_INTERRUPT;;
  mb ← rt_object_allocate OMb name;
  if mb =? 0 then mret 0
  else
    atomic (kmod (put_mb mb (set_mb_flag (u8 flag) raw));;
            rt_ipc_object_init (OMb mb);;
            mod_mb mb (set_mb_size (u16 size)));;
    pool ← malloc (u32 (u16 size * 4));
    atomic (mod_mb mb (set_mb_pool_addr pool));;
    if pool =? 0 then rt_object_delete (OMb mb);; mret 0
    else
      atomic (mod_mb mb (fun b => set_mb_msg_pool words
                 (set_mb_entry 0 (set_mb_in_offset 0 (set_mb_out_offset 0 b))));;
              list_head_init (LSender (OMb mb)));;
      mret mb.
Definition rt_mb_delete (mb : Z) : prog Z :=
  atomic RT_DEBUG_NOT_IN_INTERRUPT;;
  atomic (rt_ipc_list_resume_all (LSuspend (OMb mb)));;
  atomic (rt_ipc_list_resume_all (LSender (OMb mb)));;
  b ← atomic (get_mb mb);
  free (mb_pool_addr b);;
  rt_object_delete (OMb mb);;
  mret RT_EOK.

(** [rt_mq_delete], [rt_mq_create]. *)
Definition rt_mq_delete (mq : Z) : prog Z :=
  atomic RT_DEBUG_NOT_IN_INTERRUPT;;
  atomic (rt_ipc_list_resume_all (LSuspend (OMq mq)));;
  q ← atomic (get_mq mq);
  free (mq_pool_addr q);;
  rt_object_delete (OMq mq);;
  mret RT_EOK.
Definition rt_mq_create (name : list Z) (msg_size max_msgs flag : Z) (raw : rt_messagequeue)
    (words : Z -> gmap Z (list Z)) : prog Z :=
  atomic RT_DEBUG_NOT_IN_INTERRUPT;;
  mq ← rt_object_allocate OMq name;
  if mq =? 0 then mret 0
  else
    let size := u16 (RT_ALIGN (u32 msg_size) 4) in
    atomic (kmod (put_mq mq (set_mq_flag (u8 flag) raw));;
            rt_ipc_object_init (OMq mq);;
            mq_step mq (fun q => Some (tt, set_mq_max_msgs (u16 max_msgs) (set_mq_msg_size size q))));;
    pool ← malloc (u32 ((size + 4) * u16 max_msgs));
    atomic (mq_step mq (fun q => Some (tt, set_mq_pool_addr pool q)));;
    if pool =? 0 then rt_mq_delete mq;; mret 0
    else
      atomic (mq_step mq (fun q => Some (tt,
        set_mq_entry 0 (mq_init_slots pool 0 (Z.to_nat (u16 max_msgs))
          (set_mq_next ∅ (set_mq_body (words pool)
            (set_mq_head None (set_mq_tail None (set_mq_free None q)))))))));;
      mret mq.

(** [rt_mp_create], [rt_mp_delete]. *)
Definition rt_mp_create (name : list Z) (block_count block_size : Z) (raw : rt_mempool) : prog Z :=
  atomic RT_DEBUG_NOT_IN_INTERRUPT;;
  mp ← rt_object_allocate OMp name;
  if mp =? 0 then mret 0
  else
    let bsize := RT_ALIGN block_size 4 in
    let size := u32 (u32 (bsize + 4) * block_count) in
    atomic (kmod (put_mp mp (set_mp_size size (set_mp_block_size bsize raw))));;
    start ← malloc size;
    atomic (mp_step mp (fun p => Some (tt, set_mp_start start p)));;
    if start =? 0 then rt_object_delete (OMp mp);; mret 0
    else
      atomic (list_head_init (LSuspend (OMp mp));;
              mp_step mp (fun p => Some (tt, MemPool start (mp_size p) (mp_block_size p) (Some start)
                block_count block_count (mp_init_links start bsize 0 (Z.to_nat block_count)) 0)));;
      mret mp.
Definition rt_mp_delete (mp : Z) : prog Z :=
  atomic RT_DEBUG_NOT_IN_INTERRUPT;;
  n ← atomic (kget (fun k => length (queue k (LSuspend (OMp mp)))));
  atomic (mp_wake_all n mp);;
  p ← atomic (get_mp mp);
  free (mp_start p);;
  rt_object_delete (OMp mp);;
  mret RT_EOK.

(** [rt_timer_create], [rt_timer_delete]. *)
Definition rt_timer_create (name : list Z) (f : timeout_fn) (time flag : Z) : prog Z :=
  timer ← rt_object_allocate (fun a => OTimer (TmUser a)) name;
  if timer =? 0 then mret 0
  else atomic (rt_timer_init_ (TmUser timer) f time flag);; mret timer.
Definition rt_timer_delete (timer : Z) : prog Z :=
  atomic (rt_timer_remove (TmUser timer));;
  rt_object_delete (OTimer (TmUser timer));;
  mret (- RT_EOK).

(** [rt_thread_create]; [rt_thread_delete] is in Thread.v. *)
Definition rt_thread_create (raw : rt_thread) (name : list Z)
    (entry parameter stack_size priority tick : Z) : prog Z :=
  thread ← rt_object_allocate OThread name;
  if thread =? 0 then mret 0
  else
    stack_start ← malloc stack_size;
    if stack_start =? 0 then rt_object_delete (OThread thread);; mret 0
    else
      atomic (rt_thread_init_ thread raw name entry parameter stack_start stack_size priority tick);;
      mret thread.

(** ** The idle thread *)

Section Idle.
(** The functions the application has set as [thread->cleanup]. *)
Context (cleanup_fn : Z -> Z -> M unit).

(** The part of a turn of [rt_thread_idle_excute] with interrupts disabled: the thread
    taken from the defunct list whose memory is to be given back; [None] when the function
    returns. *)
Definition idle_take : M (option Z) :=
  e ← list_isempty LDefunct;
  if e : bool then mret None
  else
    t ← list_first LDefunct;
    tlist_remove t;;
    th ← get_thread t;
    match th_cleanup th with Some f => cleanup_fn f t | None => mret tt end;;
    sys ← rt_object_is_systemobject (OThread t);
    mret (if sys : bool then None else Some t).

(** [rt_thread_idle_excute]; [fuel] bounds the turns of its loop. *)
Fixpoint rt_thread_idle_excute (fuel : nat) : prog unit :=
  e ← atomic (list_isempty LDefunct);
  if e : bool then mret tt
  else
    match fuel with
    | O => atomic stuck
    | S fuel' =>
        atomic RT_DEBUG_NOT_IN_INTERRUPT;;
        o ← atomic idle_take;
        match o with
        | None => mret tt
        | Some t =>
            th ← atomic (get_thread t);
            free (th_stack_addr th);;
            rt_object_delete (OThread t);;
            rt_thread_idle_excute fuel'
        end
    end.

(** [rt_thread_idle_init]: the idle thread has the lowest priority. *)
Definition rt_thread_idle_init (idle : Z) (raw : rt_thread) (entry stack : Z) : M Z :=
  rt_thread_init idle raw [116; 105; 100; 108; 101; 0] entry 0 stack 256 (RT_THREAD_PRIORITY_MAX - 1) 32;;
  rt_thread_startup idle.
End Idle.

(** ** What the kernel owns *)

(** The blocks of the heap that belong to an object: its control block, and its stack or
    buffer. *)
Definition blocks_of (k : kstate) (o : oid) : list Z :=
  match o with
  | OThread t => t :: match k_threads k !! t with Some th => [th_stack_addr th] | None => [] end
  | OTimer (TmThread _) => []
  | OTimer (TmUser a) | OSem a | OMutex a | OEvent a | ODev a => [a]
  | OMb a => a :: match k_mbs k !! a with Some b => [mb_pool_addr b] | None => [] end
  | OMq a => a :: match k_mqs k !! a with Some q => [mq_pool_addr q] | None => [] end
  | OMp a => a :: match k_mps k !! a with Some p => [mp_start p] | None => [] end
  end.

(** An object that [rt_object_allocate] made. *)
Definition dynamic (k : kstate) (o : oid) : Prop :=
  exists ob, k_objs k !! o = Some ob /\ Z.land (o_type ob) RT_Object_Class_Static = 0.

(** There is a control block. *)
Definition stored (k : kstate) (o : oid) : Prop :=
  match o with
  | OThread t => is_Some (k_threads k !! t)
  | OTimer x => is_Some (k_timers k !! x)
  | OSem a => is_Some (k_sems k !! a)
  | OMutex a => is_Some (k_mutexes k !! a)
  | OEvent a => is_Some (k_events k !! a)
  | OMb a => is_Some (k_mbs k !! a)
  | OMq a => is_Some (k_mqs k !! a)
  | OMp a => is_Some (k_mps k !! a)
  | ODev a => is_Some (k_devs k !! a)
  end.

(** Nothing is known of the object. *)
Record unused (k : kstate) (o : oid) : Prop := {
  un_stored : ~ stored k o;
  un_linked : registered o k = false;
  un_suspend : queue k (LSuspend o) = [];
  un_sender : queue k (LSender o) = []
}.

(** The kinds of objects that threads and timers are not. *)
Definition simple (o : oid) : Prop := match o with OThread _ | OTimer _ => False | _ => True end.

Definition outside (h : heap) (a : Z) : Prop := a < h_ptr h \/ h_ptr h + h_end h <= a.

(** The kernel and the heap agree: the blocks of the objects on the heap are regions in
    use, each of one object, large enough for its control block; the other objects are
    outside of the heap. *)
Record mem_ok (k : kstate) (h : heap) (bs : list blk) : Prop := {
  mo_heap : heap_wf h bs;
  mo_live : forall o b, dynamic k o -> b ∈ blocks_of k o -> b ∈ (live h bs).*1;
  mo_size : forall o a len, dynamic k o -> obj_addr o = Some a -> (a, len) ∈ live h bs ->
    object_size (obj_class o) <= len;
  mo_apart : forall o1 o2 b, dynamic k o1 -> dynamic k o2 -> b ∈ blocks_of k o1 -> b ∈ blocks_of k o2 -> o1 = o2;
  mo_nodup : forall o, dynamic k o -> NoDup (blocks_of k o);
  mo_static : forall o a, is_Some (k_objs k !! o) -> ~ dynamic k o -> obj_addr o = Some a -> outside h a;
  mo_known : forall o, k_objs k !! o = None -> unused k o;
  mo_timer : forall t, is_Some (k_objs k !! OTimer (TmThread t)) -> is_Some (k_objs k !! OThread t);
  mo_embedded : forall t, ~ dynamic k (OTimer (TmThread t));
  mo_suspend : forall o, ~ simple o -> queue k (LSuspend o) = [];
  mo_sender : forall o, (forall a, o <> OMb a) -> queue k (LSender o) = []
}.

(** The regions [rs] were added to the heap. *)
Record grown (h : heap) (bs : list blk) (rs : list (Z * Z)) (h' : heap) (bs' : list blk) : Prop := {
  gr_heap : heap_wf h' bs';
  gr_live : live h' bs' ≡ₚ rs ++ live h bs;
  gr_range : h_ptr h' = h_ptr h /\ h_end h' = h_end h
}.

(** ** Running programs *)

Lemma exec_bind {A B} hs (p : prog A) (f : A -> prog B) s :
  exec hs (p ≫= f) s =
  match exec hs p s with
  | Some (Done a, s') => exec hs (f a) s'
  | Some (Switched fr rest, s') => Some (Switched fr (fun v => rest v ≫= f), s')
  | None => None
  end.
Proof.
  revert s. induction p as [a|C m g IH|n g IH|q g IH]; intros s; [done|..].
  - change (exec hs (PKern m g ≫= f)) with (b ← kern m; exec hs (g b ≫= f)). cbn [exec].
    destruct (kern m s) as [[b s']|] eqn:E.
    + rewrite !(hbind_run _ _ _ _ _ E). apply IH.
    + by rewrite !hbind_stuck.
  - change (exec hs (PMalloc n g ≫= f)) with (w ← rt_malloc hs n;
      match w with HRet v => exec hs (g v ≫= f) | HWait fr => mret (Switched fr (fun v => g v ≫= f)) end).
    cbn [exec]. destruct (rt_malloc hs n s) as [[[v|fr] s']|] eqn:E.
    + rewrite !(hbind_run _ _ _ _ _ E). apply IH.
    + by rewrite !(hbind_run _ _ _ _ _ E).
    + by rewrite !hbind_stuck.
  - change (exec hs (PFree q g ≫= f)) with (w ← rt_free hs q;
      match w with HRet _ => exec hs (g ≫= f) | HWait fr => mret (Switched fr (fun _ => g ≫= f)) end).
    cbn [exec]. destruct (rt_free hs q s) as [[[v|fr] s']|] eqn:E.
    + rewrite !(hbind_run _ _ _ _ _ E). apply IH.
    + by rewrite !(hbind_run _ _ _ _ _ E).
    + by rewrite !hbind_stuck.
Qed.

Lemma exec_then {A B} hs (p : prog A) (f : A -> prog B) s a s' :
  exec hs p s = Some (Done a, s') -> exec hs (p ≫= f) s = exec hs (f a) s'.
Proof. intros E. by rewrite exec_bind, E. Qed.

Lemma exec_atomic {A} hs (m : M A) k h a k' :
  m k = Some (a, k') -> exec hs (atomic m) (HState k h) = Some (Done a, HState k' h).
Proof. intros E. cbn [exec atomic]. by rewrite (hbind_run _ _ _ _ _ (kern_run _ _ h _ _ E)). Qed.

Lemma exec_malloc hs n k h p h' : heap_idle hs k -> heap_malloc n h = Some (p, h') ->
  exec hs (malloc n) (HState k h) = Some (Done p, HState k h').
Proof.
  intros Hi E. cbn [exec malloc]. erewrite hbind_run; [|by rewrite rt_malloc_idle, E]. done.
Qed.

Lemma exec_free hs p k h h' : heap_idle hs k -> heap_free p h = Some h' ->
  exec hs (free p) (HState k h) = Some (Done tt, HState k h').
Proof. intros Hi E. cbn [exec free]. erewrite hbind_run; [|by rewrite rt_free_idle, E]. done. Qed.

(** One more section of a program. *)
Ltac pstep E := erewrite exec_then; [|exact E].
Ltac pstep_by tac := erewrite exec_then; [|solve [tac]].

(** ** Regions *)

Lemma tiles_nodup hs bs : forall p o e, tiles hs p o e bs -> NoDup (b_off <$> bs).
Proof.
  induction bs as [|b bs IH]; intros p o e H; [constructor|]. destruct H as (Ho & Hn & _ & _ & H).
  cbn. constructor; [|by eapply IH]. intros Hin. apply list_elem_of_fmap in Hin as (c & Ec & Hc).
  pose proof (tiles_off _ _ _ _ _ _ H Hc). lia.
Qed.

Lemma live_nodup h bs : heap_wf h bs -> NoDup (live h bs).*1.
Proof.
  intros H. unfold live. rewrite <-list_fmap_compose.
  pose proof (tiles_nodup _ _ _ _ _ (hw_tiles _ _ H)) as Hn. clear H.
  induction bs as [|b bs IH]; [constructor|]. cbn in Hn. apply list.NoDup_cons in Hn as [Hb Hn].
  rewrite filter_cons. case_decide; [|by apply IH]. cbn. constructor; [|by apply IH].
  intros Hin. apply list_elem_of_fmap in Hin as (c & Ec & Hc). apply list_elem_of_filter in Hc as [_ Hc].
  cbn in Ec. apply Hb. apply list_elem_of_fmap. exists c. split; [lia|done].
Qed.

(** A region in use lies inside the heap. *)
Lemma live_inside h bs p : heap_wf h bs -> p ∈ (live h bs).*1 -> ~ outside h p.
Proof.
  intros H Hp. apply list_elem_of_fmap in Hp as (r & -> & Hin).
  apply live_region in Hin as (pre & b & post & -> & _ & ->).
  destruct (regions_apart h _ pre b post H eq_refl) as (_ & H1 & H2 & H3).
  unfold outside. change SIZEOF_STRUCT_MEM with 12 in *. lia.
Qed.

Lemma grown_refl h bs : heap_wf h bs -> grown h bs [] h bs.
Proof. intros H. by split. Qed.
Lemma grown_app h bs rs h1 bs1 rs' h2 bs2 :
  grown h bs rs h1 bs1 -> grown h1 bs1 rs' h2 bs2 -> grown h bs (rs' ++ rs) h2 bs2.
Proof.
  intros [_ L1 [P1 E1]] [W2 L2 [P2 E2]]. split; [done| |by rewrite P2, E2].
  by rewrite L2, L1, (assoc_L (++)).
Qed.
Lemma grown_perm h bs rs rs' h' bs' : rs ≡ₚ rs' -> grown h bs rs h' bs' -> grown h bs rs' h' bs'.
Proof. intros Hp [W L R]. split; [done| |done]. by rewrite L, Hp. Qed.

(** Regions that come and go. *)
Lemma grown_back h bs rs h1 bs1 h2 bs2 :
  grown h bs rs h1 bs1 -> heap_wf h bs -> grown h2 bs2 rs h1 bs1 -> heap_wf h2 bs2 -> grown h bs [] h2 bs2.
Proof.
  intros [_ L1 [P1 E1]] W [_ L2 [P2 E2]] W2. split; [done| |split; congruence].
  rewrite L1 in L2. by apply Permutation_app_inv_l in L2.
Qed.

Lemma grown_new h bs rs h' bs' p : grown h bs rs h' bs' -> p ∈ rs.*1 ->
  p ∉ (live h bs).*1 /\ ~ outside h p.
Proof.
  intros [W L [P E]] Hp. pose proof (live_nodup _ _ W) as Hd. rewrite L, fmap_app in Hd.
  apply list.NoDup_app in Hd as (_ & Hd & _). split; [by apply Hd|].
  unfold outside. rewrite <-P, <-E. apply (live_inside h' bs'); [done|]. rewrite L, fmap_app. set_solver.
Qed.

(** A request is met with a new region, or not at all. *)
Lemma heap_malloc_grown h bs n : heap_wf h bs -> 0 <= n <= 4294967292 ->
  heap_malloc n h = Some (0, h) \/
  exists p len h' bs', heap_malloc n h = Some (p, h') /\ p <> 0 /\ n <= len /\ grown h bs [(p, len)] h' bs'.
Proof.
  intros H Hn. destruct (decide (n = 0)) as [->|Hz]; [by left|]. destruct (heap_malloc_cases h bs n H ltac:(lia))
    as [[E _]|(pre & b & post & h' & len & -> & Hu & E & Haf & Hl & Ho & _ & He & Hlive & Hap)]; [by left|right].
  pose proof (hw_ptr _ _ H) as (Hp & _). pose proof (hw_end _ _ H) as Hend.
  destruct Haf as (Hwf & Hp' & Hs' & _). pose proof (hw_end _ _ Hwf) as Hend'.
  eexists _, len, h', _. split; [done|]. split; [lia|]. split; [done|]. split; [done..|lia].
Qed.

(** A region in use is given back. *)
Lemma heap_free_shrinks h bs p : heap_wf h bs -> p ∈ (live h bs).*1 ->
  exists len h' bs', heap_free p h = Some h' /\ heap_wf h' bs' /\ grown h' bs' [(p, len)] h bs.
Proof.
  intros H Hp. apply list_elem_of_fmap in Hp as (r & -> & Hin).
  apply live_region in Hin as (pre & b & post & -> & Hu & ->).
  destruct (heap_free_run h pre b post H Hu) as (h' & E & Hwf & Ep & Es & _).
  pose proof (hw_end _ _ H). pose proof (hw_end _ _ Hwf).
  pose proof (freed_live h pre b post Hu) as Hlive. rewrite <-(live_ptr h h' (freed pre b post) Ep) in Hlive.
  exists (region h b).2, h', (freed pre b post). split; [exact E|]. split; [done|]. split; [done|exact Hlive|lia].
Qed.

(** ** Objects come and go *)

Lemma dynamic_known k o : dynamic k o -> is_Some (k_objs k !! o).
Proof. intros (ob & E & _). eauto. Qed.

(** A new object with the regions [rs]. *)
Lemma mem_ok_add k h bs k' h' bs' o a len rs :
  mem_ok k h bs -> grown h bs ((a, len) :: rs) h' bs' -> obj_addr o = Some a -> object_size (obj_class o) <= len ->
  dynamic k' o -> blocks_of k' o = a :: rs.*1 ->
  (forall o', o' <> o -> is_Some (obj_addr o') -> k_objs k' !! o' = k_objs k !! o') ->
  (forall o', o' <> o -> blocks_of k' o' = blocks_of k o') ->
  (forall o', k_objs k' !! o' = None -> unused k' o') ->
  (forall t, is_Some (k_objs k' !! OTimer (TmThread t)) -> is_Some (k_objs k' !! OThread t)) ->
  (forall t, ~ dynamic k' (OTimer (TmThread t))) -> (forall q, queue k' q = queue k q) -> mem_ok k' h' bs'.
Proof.
  intros H G Ea Hsz Hd Eb Eo Ebo Hun Htm Hem Eq. pose proof G as [W L [P E]].
  assert (Hdyn : forall o', o' <> o -> dynamic k' o' -> dynamic k o').
  { intros o' Hne (ob & Eob & Hob). exists ob. split; [|done]. rewrite <-Eo; [done|done|].
    destruct o' as [| [t|] | | | | | | |]; try by eexists. exfalso. apply (Hem t). by exists ob. }
  assert (Hnew : forall b o', o' <> o -> dynamic k' o' -> b ∈ blocks_of k' o' -> b ∈ (live h bs).*1).
  { intros b o' Hne Hd' Hb. rewrite Ebo in Hb by done. eapply (mo_live k h bs H); [by apply Hdyn|done]. }
  assert (Hold : forall b, b ∈ blocks_of k' o -> b ∉ (live h bs).*1 /\ ~ outside h b).
  { intros b. rewrite Eb. apply (grown_new _ _ _ _ _ b G). }
  pose proof (live_nodup _ _ W) as Hnd. rewrite L, fmap_app in Hnd.
  split; try done.
  - intros o' b Hd' Hb. rewrite L, fmap_app. destruct (decide (o' = o)) as [->|Hne].
    + rewrite Eb in Hb. apply elem_of_app. by left.
    + apply elem_of_app. right. by eapply Hnew.
  - intros o' a' len' Hd' Ea' Hin. rewrite L in Hin. apply elem_of_app in Hin as [Hin|Hin].
    + destruct (decide (o' = o)) as [->|Hne].
      * assert (a' = a) as -> by congruence. apply elem_of_cons in Hin as [[= ->]|Hin]; [done|exfalso].
        cbn in Hnd. apply list.NoDup_cons in Hnd as [Hnd _]. apply Hnd. apply elem_of_app. left.
        apply list_elem_of_fmap. by exists (a, len').
      * exfalso. destruct (grown_new _ _ _ _ _ a' G) as [Hn _]; [apply list_elem_of_fmap; by exists (a', len')|].
        apply Hn. apply (Hnew a' o' Hne Hd'). destruct o' as [| [|] | | | | | | |]; cbn in *; simplify_eq; set_solver.
    + destruct (decide (o' = o)) as [->|Hne].
      * exfalso. destruct (Hold a) as [Hn _]; [rewrite Eb; set_solver|]. apply Hn.
        assert (a' = a) as -> by congruence. apply list_elem_of_fmap. by exists (a, len').
      * eapply (mo_size k h bs H); [by apply Hdyn|done|done].
  - intros o1 o2 b H1 H2 Hb1 Hb2. destruct (decide (o1 = o)) as [->|N1], (decide (o2 = o)) as [->|N2]; [done|..].
    + by destruct (Hold b Hb1) as [[] _]; eapply Hnew.
    + by destruct (Hold b Hb2) as [[] _]; eapply Hnew.
    + rewrite Ebo in Hb1, Hb2 by done. eapply (mo_apart k h bs H); eauto.
  - intros o' Hd'. destruct (decide (o' = o)) as [->|Hne].
    + rewrite Eb. rewrite list.NoDup_app in Hnd. apply Hnd.
    + rewrite Ebo by done. apply (mo_nodup k h bs H). by apply Hdyn.
  - intros o' a' Hk Hnd' Ea'. destruct (decide (o' = o)) as [->|Hne]; [done|].
    unfold outside. rewrite P, E. apply (mo_static k h bs H o'); [|intros (ob & Eob & Hob)|done].
    + rewrite <-Eo; [done|done|by rewrite Ea'].
    + apply Hnd'. exists ob. split; [|done]. rewrite Eo; [done|done|by rewrite Ea'].
  - intros o'. rewrite Eq. apply H.
  - intros o'. rewrite Eq. apply H.
Qed.

(** The object [o] with the regions [rs] is gone. *)
Lemma mem_ok_remove k h bs k' h' bs' o rs :
  mem_ok k h bs -> heap_wf h' bs' -> grown h' bs' rs h bs -> dynamic k o -> blocks_of k o ≡ₚ rs.*1 ->
  k_objs k' !! o = None ->
  (forall o', o' <> o -> is_Some (obj_addr o') -> k_objs k' !! o' = k_objs k !! o') ->
  (forall o', o' <> o -> blocks_of k' o' = blocks_of k o') ->
  (forall o', k_objs k' !! o' = None -> unused k' o') ->
  (forall t, is_Some (k_objs k' !! OTimer (TmThread t)) -> is_Some (k_objs k' !! OThread t)) ->
  (forall t, ~ dynamic k' (OTimer (TmThread t))) -> (forall q, queue k' q = queue k q) -> mem_ok k' h' bs'.
Proof.
  intros H W' [W L [P E]] Hd Eb Eno Eo Ebo Hun Htm Hem Eq.
  assert (Hne : forall o', is_Some (k_objs k' !! o') -> o' <> o) by (intros o' [? Ho] ->; congruence).
  assert (Hdyn : forall o', dynamic k' o' -> dynamic k o').
  { intros o' Hd'. pose proof (Hne o' (dynamic_known _ _ Hd')) as Hn. destruct Hd' as (ob & Eob & Hob).
    exists ob. split; [|done]. rewrite <-Eo; [done|done|].
    destruct o' as [| [t|] | | | | | | |]; try by eexists. exfalso. apply (Hem t). by exists ob. }
  assert (Hbl : forall o' b, dynamic k' o' -> b ∈ blocks_of k' o' -> b ∈ blocks_of k o').
  { intros o' b Hd' Hb. rewrite <-Ebo; [done|]. by apply Hne, dynamic_known. }
  split; try done.
  - intros o' b Hd' Hb. apply Hbl in Hb; [|done].
    pose proof (mo_live k h bs H o' b (Hdyn o' Hd') Hb) as Hin. rewrite L, fmap_app in Hin.
    apply elem_of_app in Hin as [Hin|Hin]; [exfalso|done].
    apply (Hne o'); [by apply dynamic_known|]. eapply (mo_apart k h bs H); [by apply Hdyn|exact Hd|exact Hb|].
    by rewrite Eb.
  - intros o' a len Hd' Ea Hin. eapply (mo_size k h bs H); [by apply Hdyn|done|]. rewrite L. apply elem_of_app. by right.
  - intros o1 o2 b H1 H2 Hb1 Hb2. eapply (mo_apart k h bs H); eauto.
  - intros o' Hd'. rewrite Ebo by (by apply Hne, dynamic_known). apply (mo_nodup k h bs H). by apply Hdyn.
  - intros o' a Hk Hn Ea. unfold outside. rewrite <-P, <-E.
    assert (Hx : k_objs k' !! o' = k_objs k !! o') by (apply Eo; [by apply Hne|by rewrite Ea]).
    apply (mo_static k h bs H o'); [by rewrite <-Hx|intros (ob & Eob & Hob)|done].
    apply Hn. exists ob. by rewrite Hx.
  - intros o'. rewrite Eq. apply H.
  - intros o'. rewrite Eq. apply H.
Qed.

(** Neither the objects nor what they own has changed. *)
Lemma mem_ok_same k h bs k' :
  mem_ok k h bs -> k_objs k' = k_objs k -> (forall o, blocks_of k' o = blocks_of k o) ->
  (forall o, unused k o -> unused k' o) -> (forall q, wait_list q -> queue k q = [] -> queue k' q = []) ->
  mem_ok k' h bs.
Proof.
  intros [H1 H2 H3 H4 H5 H6 H7 H8 H9 H10 H11] Eo Eb Hun Hq. unfold dynamic in *.
  assert (Hs : forall o b, b ∈ blocks_of k' o -> b ∈ blocks_of k o) by (intros o b; by rewrite Eb).
  split; unfold dynamic in *; rewrite ?Eo; eauto.
  - intros o Hd. rewrite Eb. auto.
  - intros o Hs'. apply Hq; [done|auto].
  - intros o Hs'. apply Hq; [done|auto].
Qed.

(** An address that the heap has just given out is not the address of an object. *)
Lemma fresh_object k h bs rs h' bs' o a :
  mem_ok k h bs -> grown h bs rs h' bs' -> a ∈ rs.*1 -> obj_addr o = Some a -> k_objs k !! o = None.
Proof.
  intros H G Ha Eo. destruct (grown_new _ _ _ _ _ a G Ha) as [Hn Ho].
  destruct (k_objs k !! o) as [ob|] eqn:E; [exfalso|done].
  destruct (decide (Z.land (o_type ob) RT_Object_Class_Static = 0)) as [Hz|Hz].
  - apply Hn, (mo_live k h bs H o); [by exists ob|].
    destruct o as [| [|] | | | | | | |]; cbn in *; simplify_eq; set_solver.
  - apply Ho, (mo_static k h bs H o); [by eexists| |done]. intros (ob' & E' & Hz'). congruence.
Qed.

(** ** The kernel side of a creation *)

(** The state after an object was entered into the container. *)
Definition enlisted (o : oid) (name : list Z) (k : kstate) : kstate :=
  put_objects (obj_class o) (o :: objects k (obj_class o))
    (set_k_objs (<[o := Kobj (default [] (rt_strncpy name RT_NAME_MAX)) (obj_class o)]> (k_objs k)) k).

Lemma object_register_run o name k :
  valid_name name -> registered o k = false -> object_register o name k = Some (tt, enlisted o name k).
Proof.
  intros [nm E] Hr. unfold object_register, enlisted. rewrite E. cbn [default deref]. mstep. mstep.
  unfold object_link. change (registered o (set_k_objs _ k)) with (registered o k). by rewrite Hr.
Qed.

Lemma registered_put (o o' : oid) l k :
  registered o' (put_objects (obj_class o) l k) =
  if decide (obj_class o' = obj_class o) then bool_decide (o' ∈ l) else registered o' k.
Proof.
  unfold registered, objects, put_objects. cbn. case_decide as E.
  - by rewrite E, lookup_insert_eq.
  - by rewrite lookup_insert_ne.
Qed.

Lemma registered_enlisted o o' name k : o' <> o -> registered o' (enlisted o name k) = registered o' k.
Proof.
  intros Hne. unfold enlisted. rewrite registered_put. case_decide as E; [|done].
  unfold registered. rewrite E. apply bool_decide_ext. set_solver.
Qed.

Lemma dynamic_class o k nm : k_objs k !! o = Some (Kobj nm (obj_class o)) -> dynamic k o.
Proof. intros E. eexists. split; [exact E|]. by destruct o as [| [|] | | | | | | |]. Qed.

(** [rt_object_allocate] fails and changes nothing, or gives a new object in a region of its
    own. *)
Lemma rt_object_allocate_run hs mk name k h bs :
  heap_idle hs k -> mem_ok k h bs -> valid_name name -> (forall a, obj_addr (mk a) = Some a) ->
  0 < object_size (obj_class (mk 0)) <= 4294967292 ->
  exec hs (rt_object_allocate mk name) (HState k h) = Some (Done 0, HState k h) \/
  exists a len h' bs', a <> 0 /\ object_size (obj_class (mk 0)) <= len /\ grown h bs [(a, len)] h' bs' /\
    k_objs k !! mk a = None /\
    exec hs (rt_object_allocate mk name) (HState k h) = Some (Done a, HState (enlisted (mk a) name k) h').
Proof.
  intros Hi Hm Hn Ha Hs. unfold rt_object_allocate.
  pstep (exec_atomic hs _ k h _ _ (not_in_interrupt k (proj1 Hi))).
  assert (Hs0 : 0 <= object_size (obj_class (mk 0)) <= 4294967292) by lia.
  destruct (heap_malloc_grown h bs _ (mo_heap _ _ _ Hm) Hs0) as [E|(a & len & h' & bs' & E & H0 & Hl & G)];
    pstep (exec_malloc hs _ k h _ _ Hi E); [by left|right].
  pose proof (fresh_object k h bs _ _ _ (mk a) a Hm G ltac:(cbn; set_solver) (Ha a)) as Hf.
  exists a, len, h', bs'. split_and!; try done. destruct (Z.eqb_spec a 0) as [|_]; [done|].
  pstep (exec_atomic hs _ k h' _ _ (object_register_run (mk a) name k Hn (un_linked _ _ (mo_known _ _ _ Hm _ Hf)))).
  done.
Qed.

(** The threads, their lists, the timers and the scheduler are the same. *)
Record same_core (k k' : kstate) : Prop := {
  sc_threads : k_threads k' = k_threads k;
  sc_queue : forall q, queue k' q = queue k q;
  sc_group : k_group k' = k_group k;
  sc_current : k_current k' = k_current k;
  sc_tick : k_tick k' = k_tick k;
  sc_timers : k_timers k' = k_timers k;
  sc_list : k_timer_list k' = k_timer_list k;
  sc_lock : k_lock_nest k' = k_lock_nest k;
  sc_int : k_int_nest k' = k_int_nest k
}.

Lemma same_core_core b bd idle k k' : same_core k k' -> core b bd idle k -> core b bd idle k'.
Proof.
  intros [E1 E2 E3 E4 E5 E6 E7 _ _] [[[[H1 H2 H3 H4 [H5 H5'] H6] Hw] Hi Hs] Hc].
  unfold is_ready in *. rewrite <-E1 in *. rewrite <-E4 in *.
  split; [split; [split; [split|by apply (timer_wf_ext b bd k)]|..]|]; try done.
  - intros q t. rewrite E2. apply H1.
  - intros q. by rewrite E2.
  - intros q1 q2 t. rewrite !E2. apply H3.
  - intros t th. rewrite E2. apply H4.
  - split; [by rewrite E3|]. intros p. rewrite E2, E3. apply H5'.
Qed.

Lemma same_core_ok idle n k k' :
  kernel_ok idle n k -> same_core k k' ->
  sems_ok k' \/ k_sems k' = k_sems k -> mutexes_ok k' \/ k_mutexes k' = k_mutexes k ->
  events_ok k' \/ k_events k' = k_events k -> mbs_ok k' \/ k_mbs k' = k_mbs k ->
  mqs_ok k' \/ k_mqs k' = k_mqs k -> kernel_ok idle n k'.
Proof.
  intros Hk Hs O1 O2 O3 O4 O5. apply (kernel_ok_step idle n no_growth k); [done|..].
  - apply (same_core_core _ _ _ k k' Hs), Hk.
  - apply ipc_frame_lists; [apply Hs|]. intros q _. apply Hs.
  - apply Hs.
  - apply Hs.
  - apply Hs.
  - destruct O1 as [?|E]; [by left|right; split; [by intros ? ? _ []|done]].
  - destruct O2 as [?|E]; [by left|right; split; [by intros ? ? _ []|done]].
  - destruct O3 as [?|E]; [by left|right; split; [by intros ? ? _ []|done]].
  - destruct O4 as [?|E]; [by left|right; split; [by intros ? ? _ []|done]].
  - destruct O5 as [?|E]; [by left|right; split; [by intros ? ? _ []|done]].
Qed.

Lemma heap_idle_same hs k k' :
  heap_idle hs k -> k_int_nest k' = k_int_nest k ->
  queue k' (LSuspend (OSem hs)) = queue k (LSuspend (OSem hs)) -> k_sems k' !! hs = k_sems k !! hs -> heap_idle hs k'.
Proof. unfold heap_idle. by intros (H1 & H2 & H3) -> -> ->. Qed.

(** The memory side of a creation whose kernel side gave [k']. *)
Lemma created_mem_ok k h bs o name a len rs k' h' bs' :
  mem_ok k h bs -> grown h bs ((a, len) :: rs) h' bs' -> obj_addr o = Some a -> object_size (obj_class o) <= len ->
  k_objs k' = k_objs (enlisted o name k) -> k_container k' = k_container (enlisted o name k) ->
  (forall q, queue k' q = queue k q) -> blocks_of k' o = a :: rs.*1 ->
  (forall o', o' <> o -> blocks_of k' o' = blocks_of k o') ->
  (forall o', o' <> o -> stored k' o' -> stored k o') -> mem_ok k' h' bs'.
Proof.
  intros Hm G Ea Hs Eo Ec Eq Eb Ebo Hst.
  assert (Hl : forall o', o' <> o -> k_objs k' !! o' = k_objs k !! o') by (intros; rewrite Eo; by apply lookup_insert_ne).
  assert (Ho : k_objs k' !! o = Some (Kobj (default [] (rt_strncpy name RT_NAME_MAX)) (obj_class o)))
    by (rewrite Eo; apply lookup_insert_eq).
  assert (Hem : forall t, OTimer (TmThread t) <> o) by (intros t <-; done).
  apply (mem_ok_add k h bs k' h' bs' o a len rs); try done.
  - by eapply dynamic_class.
  - by intros o' Hne _; apply Hl.
  - intros o' Hn. assert (o' <> o) as Hne by (intros ->; congruence). rewrite Hl in Hn by done.
    destruct (mo_known _ _ _ Hm o' Hn) as [U1 U2 U3 U4].
    split; [by intros ?%Hst|..|by rewrite Eq|by rewrite Eq].
    rewrite <-U2, <-(registered_enlisted o o' name k Hne). unfold registered, objects. by rewrite Ec.
  - intros t Ht. rewrite Hl in Ht by done. apply (mo_timer _ _ _ Hm) in Ht.
    destruct (decide (OThread t = o)) as [->|Hne]; [by rewrite Ho|by rewrite Hl].
  - intros t (ob & E & Hz). apply (mo_embedded _ _ _ Hm t). exists ob. by rewrite <-Hl.
Qed.

(** ** Objects of one block *)

(** The kernel in order, the heap free for use, and the two in agreement. *)
Record dyn_ok (idle hs : Z) (k : kstate) (h : heap) (bs : list blk) : Prop := {
  dy_kernel : kernel_ok idle 0 k;
  dy_idle : heap_idle hs k;
  dy_mem : mem_ok k h bs;
  dy_sem : is_Some (k_objs k !! OSem hs) /\ ~ dynamic k (OSem hs)
}.

(** What a creation that returned [a] has done: the object is new, in the container under
    its name, and owns the regions [(a, len) :: rs] that the heap has given out. *)
Record created (idle hs : Z) (mk : Z -> oid) (name : list Z) (a len : Z) (rs : list (Z * Z))
    (k : kstate) (h : heap) (bs : list blk) (k' : kstate) (h' : heap) (bs' : list blk) : Prop := {
  cr_null : a <> 0;
  cr_ok : dyn_ok idle hs k' h' bs';
  cr_len : object_size (obj_class (mk 0)) <= len;
  cr_grown : grown h bs ((a, len) :: rs) h' bs';
  cr_new : k_objs k !! mk a = None;
  cr_linked : registered (mk a) k' = true;
  cr_name : k_objs k' !! mk a = Some (Kobj (default [] (rt_strncpy name RT_NAME_MAX)) (obj_class (mk a)));
  cr_lists : forall q, queue k' q = queue k q
}.

(** Storing the control block of a new object changes nothing else. *)
Record stores (o : oid) (k k' : kstate) : Prop := {
  st_core : same_core k k';
  st_objs : k_objs k' = k_objs k;
  st_container : k_container k' = k_container k;
  st_blocks : forall o', o' <> o -> blocks_of k' o' = blocks_of k o';
  st_stored : forall o', o' <> o -> stored k' o' -> stored k o';
  st_sems : forall s, o <> OSem s -> k_sems k' !! s = k_sems k !! s
}.

Lemma queue_put_nil q k : queue k q = [] -> forall q', queue (put_queue q [] k) q' = queue k q'.
Proof. intros E q'. rewrite queue_put. case_decide; [by subst|done]. Qed.

Lemma created_intro idle hs mk name a len rs k h bs k' h' bs' :
  dyn_ok idle hs k h bs -> a <> 0 -> obj_addr (mk a) = Some a -> obj_class (mk a) = obj_class (mk 0) ->
  object_size (obj_class (mk 0)) <= len -> grown h bs ((a, len) :: rs) h' bs' -> k_objs k !! mk a = None ->
  stores (mk a) (enlisted (mk a) name k) k' -> blocks_of k' (mk a) = a :: rs.*1 -> kernel_ok idle 0 k' ->
  created idle hs mk name a len rs k h bs k' h' bs'.
Proof.
  intros [Hk Hi Hm [Hs Hsd]] Ha Eo Ec Hl G Hn [S1 S2 S3 S4 S5 S6] Eb Hk'.
  assert (Hne : OSem hs <> mk a) by (intros E; rewrite E in Hs; destruct Hs; congruence).
  split; try done.
  - split; [done|..].
    + apply (heap_idle_same hs k); [done|apply S1|by rewrite (sc_queue _ _ S1)|by apply S6].
    + eapply (created_mem_ok k h bs (mk a) name a len rs k'); try done; [by rewrite Ec|]. intros q. apply S1.
    + unfold dynamic. rewrite S2. cbn. by rewrite lookup_insert_ne.
  - unfold registered, objects. rewrite S3. cbn. rewrite lookup_insert_eq. apply bool_decide_true. set_solver.
  - rewrite S2. apply lookup_insert_eq.
  - apply S1.
Qed.

(** The functions that create an object of one block with a list of waiting threads. *)
Lemma create_ipc_run idle hs mk name (ini : Z -> M unit) put k h bs :
  dyn_ok idle hs k h bs -> valid_name name ->
  (forall a, obj_addr (mk a) = Some a) -> (forall a, obj_class (mk a) = obj_class (mk 0)) ->
  0 < object_size (obj_class (mk 0)) <= 4294967292 ->
  (forall a k1, ini a k1 = Some (tt, put a (put_queue (LSuspend (mk a)) [] k1))) ->
  (forall a k1, queue k1 (LSuspend (mk a)) = [] -> stores (mk a) k1 (put a (put_queue (LSuspend (mk a)) [] k1))) ->
  (forall a k1, blocks_of (put a k1) (mk a) = [a]) ->
  (forall a, k_objs k !! mk a = None -> queue k (LSuspend (mk a)) = [] ->
     kernel_ok idle 0 (put a (put_queue (LSuspend (mk a)) [] (enlisted (mk a) name k)))) ->
  let p := (atomic RT_DEBUG_NOT_IN_INTERRUPT;; a ← rt_object_allocate mk name;
            if a =? 0 then mret 0 else atomic (ini a);; mret a) in
  exec hs p (HState k h) = Some (Done 0, HState k h) \/
  exists a len h' bs', let k' := put a (put_queue (LSuspend (mk a)) [] (enlisted (mk a) name k)) in
    exec hs p (HState k h) = Some (Done a, HState k' h') /\ created idle hs mk name a len [] k h bs k' h' bs'.
Proof.
  intros Hd Hn Ha Hc Hs Hini Hst Hbl Hk p. pose proof Hd as [_ Hi Hm _]. unfold p.
  pstep (exec_atomic hs _ k h _ _ (not_in_interrupt k (proj1 Hi))).
  destruct (rt_object_allocate_run hs mk name k h bs Hi Hm Hn Ha Hs) as [E|(a & len & h' & bs' & H0 & Hl & G & Hf & E)];
    pstep E; [by left|right]. destruct (Z.eqb_spec a 0) as [|_]; [done|].
  exists a, len, h', bs'. cbv zeta. pstep (exec_atomic hs _ _ h' _ _ (Hini a (enlisted (mk a) name k))). split; [done|].
  pose proof (un_suspend _ _ (mo_known _ _ _ Hm _ Hf)) as Hq.
  eapply created_intro; try done; auto.
Qed.

(** ** Objects are deleted *)

Definition detached (o : oid) (k : kstate) : kstate :=
  put_objects (obj_class o) (filter (fun x => x <> o) (objects k (obj_class o))) k.

Lemma registered_detached o o' k :
  registered o' (detached o k) = if decide (o' = o) then false else registered o' k.
Proof.
  unfold detached. rewrite registered_put. unfold registered.
  case_decide as E1; case_decide as E2; subst; try done; [apply bool_decide_false|rewrite E1; apply bool_decide_ext];
    rewrite list_elem_of_filter; tauto.
Qed.

(** The control block of [o] is the only one that goes. *)
Record forgets (o : oid) (k k' : kstate) : Prop := {
  fo_objs : k_objs k' !! o = None;
  fo_others : forall o', o' <> o -> is_Some (obj_addr o') -> k_objs k' !! o' = k_objs k !! o';
  fo_container : k_container k' = k_container k;
  fo_blocks : forall o', o' <> o -> blocks_of k' o' = blocks_of k o';
  fo_stored : forall o', stored k' o' -> o' <> o /\ stored k o';
  fo_queue : forall q, queue k' q = queue k q;
  fo_int : k_int_nest k' = k_int_nest k;
  fo_sems : forall s, o <> OSem s -> k_sems k' !! s = k_sems k !! s
}.

Ltac other_key := rewrite lookup_delete_ne by (intros ->; congruence).

Lemma forget_forgets o k : is_Some (obj_addr o) -> forgets o k (forget o k).
Proof.
  intros Ho. split.
  - destruct o as [| [|] | | | | | | |]; cbn; try apply lookup_delete_eq.
    rewrite lookup_delete_ne by done. apply lookup_delete_eq.
  - intros o' Hne Ho'. destruct o as [| [|] | | | | | | |]; cbn; rewrite ?lookup_delete_ne; try done.
    intros <-. by destruct Ho'.
  - by destruct o as [| [|] | | | | | | |].
  - intros o' Hne. destruct o as [| [|] | | | | | | |], o' as [| [|] | | | | | | |]; cbn; try done; by other_key.
  - intros o' Hst. split.
    + intros ->. destruct o as [| [|] | | | | | | |]; cbn in Hst; rewrite ?lookup_delete_eq in Hst; by destruct Hst.
    + destruct o as [| [|] | | | | | | |], o' as [| [|] | | | | | | |]; cbn in *; try done;
        by apply lookup_delete_is_Some in Hst as [_ ?].
  - by destruct o as [| [|] | | | | | | |].
  - by destruct o as [| [|] | | | | | | |].
  - intros s Hs. destruct o as [| [|] | | | | | | |]; cbn; try done. by other_key.
Qed.

Lemma forget_core o k : simple o -> same_core k (forget o k).
Proof. intros Ho. by destruct o. Qed.

(** The invariants do not need the object. *)
Lemma forget_ok idle n o k : simple o -> kernel_ok idle n k -> kernel_ok idle n (forget o k).
Proof.
  intros Ho Hk. apply (same_core_ok idle n k); [done|by apply forget_core|..]; destruct o; try done; cbn; auto; left;
    intros x v Ex; cbn in Ex; apply lookup_delete_Some in Ex as [_ Ex].
  - by apply (ko_sems _ _ _ Hk).
  - by apply (ko_mutexes _ _ _ Hk).
  - by apply (ko_events _ _ _ Hk).
  - by apply (ko_mbs _ _ _ Hk) in Ex.
  - by apply (ko_mqs _ _ _ Hk) in Ex.
Qed.

(** [rt_object_delete] of an object on the heap: its control block goes back to the heap. *)
Lemma rt_object_delete_run hs o a k h bs :
  heap_idle hs k -> dynamic k o -> o <> OSem hs -> obj_addr o = Some a -> heap_wf h bs -> a ∈ (live h bs).*1 ->
  exists len h' bs', exec hs (rt_object_delete o) (HState k h) = Some (Done tt, HState (forget o (detached o k)) h') /\
    heap_idle hs (forget o (detached o k)) /\ heap_wf h' bs' /\ grown h' bs' [(a, len)] h bs.
Proof.
  intros Hi (ob & Eo & Hz) Hne Ea W Ha.
  destruct (heap_free_shrinks h bs a W Ha) as (len & h' & bs' & E & W' & G). exists len, h', bs'.
  pose proof (forget_forgets o (detached o k) ltac:(by rewrite Ea)) as F.
  assert (Hi' : heap_idle hs (forget o (detached o k))).
  { apply (heap_idle_same hs k); [done|apply (fo_int _ _ _ F)|apply (fo_queue _ _ _ F)|by apply (fo_sems _ _ _ F)]. }
  split; [|done]. unfold rt_object_delete.
  erewrite exec_then; [|apply (exec_atomic hs _ k h tt k)].
  2:{ unfold rt_object_is_systemobject. erewrite bind_run; [|by rewrite Eo]. rewrite Hz. done. }
  erewrite exec_then; [|by apply (exec_atomic hs (rt_object_detach o) k h tt (detached o k))].
  erewrite exec_then; [|by apply (exec_atomic hs _ (detached o k) h a (detached o k)); rewrite Ea].
  erewrite exec_then; [|by apply (exec_atomic hs _ _ h tt (forget o (detached o k)))].
  by apply exec_free.
Qed.

Lemma forgotten_mem_ok k h bs o rs h' bs' :
  mem_ok k h bs -> heap_wf h' bs' -> grown h' bs' rs h bs -> dynamic k o -> blocks_of k o ≡ₚ rs.*1 ->
  is_Some (obj_addr o) -> queue k (LSuspend o) = [] -> queue k (LSender o) = [] ->
  (forall t, o = OThread t -> registered (OTimer (TmThread t)) k = false) ->
  mem_ok (forget o (detached o k)) h' bs'.
Proof.
  intros Hm W G Hd Hb Ha Hq1 Hq2 Ht. pose proof (forget_forgets o (detached o k) Ha) as [F1 F2 F3 F4 F5 F6 _ _].
  assert (Hreg : forall o', registered o' (forget o (detached o k)) = if decide (o' = o) then false else registered o' k).
  { intros o'. unfold registered at 1, objects. rewrite F3. apply registered_detached. }
  assert (Hemb : forall t, k_objs (forget o (detached o k)) !! OTimer (TmThread t) =
    if decide (o = OThread t) then None else k_objs k !! OTimer (TmThread t)).
  { intros t. destruct o as [u|x| | | | | | |]; [|rewrite decide_False by done..];
      [| |cbn; by rewrite lookup_delete_ne..].
    - case_decide as E; cbn; [injection E as ->; apply lookup_delete_eq|].
      rewrite !lookup_delete_ne; [done|done|]. intros [= ->]. done.
    - destruct x; [by destruct Ha|]. cbn. by rewrite lookup_delete_ne. }
  apply (mem_ok_remove k h bs _ h' bs' o rs); try done.
  - intros o' Hn. destruct (decide (o' = o)) as [->|Hne].
    { split; [by intros [? _]%F5|rewrite Hreg; by rewrite decide_True|by rewrite F6..]. }
    destruct (decide (k_objs k !! o' = None)) as [Hk|Hk].
    + destruct (mo_known _ _ _ Hm o' Hk) as [U1 U2 U3 U4].
      split; [intros [_ ?]%F5; by apply U1|by rewrite Hreg, decide_False|by rewrite F6..].
    + destruct (obj_addr o') as [a'|] eqn:Ea'.
      { rewrite F2 in Hn; [done|done|by rewrite Ea']. }
      destruct o' as [| [t|] | | | | | | |]; try done. rewrite Hemb in Hn. case_decide as E; [subst o|done].
      split; [|by rewrite Hreg, decide_False, (Ht t)|rewrite F6..].
      * cbn. rewrite lookup_delete_eq. by intros [].
      * apply (mo_suspend _ _ _ Hm). by intros [].
      * apply (mo_sender _ _ _ Hm). by intros a.
  - intros t Hs. rewrite Hemb in Hs. case_decide as E; [by destruct Hs|]. apply (mo_timer _ _ _ Hm) in Hs.
    rewrite F2; [done|congruence|done].
  - intros t (ob & E & Hz). rewrite Hemb in E. case_decide; [done|]. apply (mo_embedded _ _ _ Hm t). by exists ob.
Qed.

(** ** Waking the threads of an object *)

(** No timer comes or goes. *)
Definition same_timers (k k' : kstate) : Prop := forall x, is_Some (k_timers k' !! x) <-> is_Some (k_timers k !! x).
Definition keeps_timers {A} (m : M A) : Prop := forall k a k', m k = Some (a, k') -> same_timers k k'.

Lemma keeps_timers_ret {A} (a : A) : keeps_timers (mret a).
Proof. intros k a' k' E. by injection E as _ <-. Qed.
Lemma keeps_timers_stuck {A} : keeps_timers (@stuck A).
Proof. done. Qed.
Lemma keeps_timers_bind {A B} (m : M A) (f : A -> M B) :
  keeps_timers m -> (forall a, keeps_timers (f a)) -> keeps_timers (m ≫= f).
Proof.
  intros Hm Hf k b k' E. unfold mbind, M_bind in E. destruct (m k) as [[a k1]|] eqn:Em; [|done].
  intros x. rewrite (Hf a k1 b k' E x). exact (Hm k a k1 Em x).
Qed.
Lemma keeps_timers_get {A} (f : kstate -> option A) : keeps_timers (fun k => a ← f k; Some (a, k)).
Proof. intros k a k' E. destruct (f k); [|done]. by injection E as _ <-. Qed.
Lemma keeps_timers_kget {A} (f : kstate -> A) : keeps_timers (kget f).
Proof. intros k a k' E. by injection E as _ <-. Qed.
Lemma keeps_timers_kmod f : (forall k, k_timers (f k) = k_timers k) -> keeps_timers (kmod f).
Proof. intros H k a k' E x. injection E as _ <-. by rewrite H. Qed.
Lemma keeps_timers_mod t f : keeps_timers (mod_timer t f).
Proof.
  intros k a k' E. unfold mod_timer, get_timer, put_timer, mbind, M_bind, kmod in E.
  destruct (k_timers k !! t) as [tm|] eqn:Et; [|done]. injection E as _ <-. intros x. cbn.
  destruct (decide (x = t)) as [->|Hne]; [by rewrite lookup_insert_eq, Et|by rewrite lookup_insert_ne].
Qed.
Lemma keeps_timers_insert h t : keeps_timers (tlist_insert_before h t).
Proof. intros k a k' E. unfold tlist_insert_before in E. destruct (queued t k); [done|]. by injection E as _ <-. Qed.
Lemma keeps_timers_head p : keeps_timers (ready_head p).
Proof. unfold ready_head. case_match; [apply keeps_timers_ret|done]. Qed.
#[local] Hint Resolve keeps_timers_ret keeps_timers_stuck keeps_timers_bind keeps_timers_get keeps_timers_kget
  keeps_timers_mod keeps_timers_insert keeps_timers_head : ktimers.
#[local] Hint Extern 1 (keeps_timers (kmod _)) => (by apply keeps_timers_kmod) : ktimers.
#[local] Hint Extern 1 (keeps_timers (get_thread _)) => apply keeps_timers_get : ktimers.
#[local] Hint Extern 1 (keeps_timers (get_timer _)) => apply keeps_timers_get : ktimers.

Lemma keeps_timers_mod_thread t f : keeps_timers (mod_thread t f).
Proof. apply keeps_timers_bind; auto with ktimers. intros th. by apply keeps_timers_kmod. Qed.
#[local] Hint Resolve keeps_timers_mod_thread : ktimers.

(** Through the steps of an operation. *)
Ltac keeps_timers_steps :=
  repeat first [progress auto with ktimers | apply keeps_timers_bind; intros | case_match].

Lemma keeps_timers_stop x : keeps_timers (rt_timer_stop x).
Proof. unfold rt_timer_stop, rt_timer_remove. keeps_timers_steps. Qed.
#[local] Hint Resolve keeps_timers_stop : ktimers.
Lemma keeps_timers_resume t : keeps_timers (rt_thread_resume t).
Proof. unfold rt_thread_resume, tlist_remove, rt_schedule_insert_thread. keeps_timers_steps. Qed.

Lemma keeps_timers_list_first h : keeps_timers (list_first h).
Proof. intros k a k' E. unfold list_first in E. destruct (queue k h); [done|]. by injection E as _ <-. Qed.
#[local] Hint Resolve keeps_timers_resume keeps_timers_list_first : ktimers.

Lemma keeps_timers_resume_all h : keeps_timers (rt_ipc_list_resume_all h).
Proof.
  apply keeps_timers_bind; auto with ktimers. intros n. apply keeps_timers_bind; auto with ktimers.
  induction n as [|n IH]; cbn [resume_all_loop]; (apply keeps_timers_bind; [apply keeps_timers_kget|intros e]);
    destruct e; keeps_timers_steps.
Qed.

(** The threads of the list [q] are ready, with the error [-RT_ERROR]. *)
Record cancelled (q : lhead) (k k' : kstate) : Prop := {
  ca_queue : queue k' q = [];
  ca_lists : forall q', q' <> q -> (forall p, q' <> LReady p) -> queue k' q' = queue k q';
  ca_woken : forall t, t ∈ queue k q -> exists th, k_threads k !! t = Some th /\
    k_threads k' !! t = Some (set_th_stat RT_THREAD_READY (set_th_error (- RT_ERROR) th));
  ca_threads : forall t, t ∉ queue k q -> k_threads k' !! t = k_threads k !! t;
  ca_only : core_only k k';
  ca_current : k_current k' = k_current k;
  ca_timers : same_timers k k'
}.

Lemma resume_all_cancelled idle n q k :
  kernel_ok idle n k -> wait_list q ->
  exists k', rt_ipc_list_resume_all q k = Some (RT_EOK, k') /\ kernel_ok idle n k' /\ cancelled q k k'.
Proof.
  intros Hk Hq. destruct (rt_ipc_list_resume_all_core _ _ _ q k (ko_core _ _ _ Hk) Hq)
    as (k' & Er & Hc & Fo & Eq & Ec & Eo & Ein & Eout).
  exists k'. split; [done|]. split; [|split; try done; by eapply keeps_timers_resume_all].
  pose proof (ipc_frame_resume_all q k k' Hq Eq Eo Ein Eout) as If.
  by destruct (core_step idle n no_growth k k' Hk Hc Fo If ltac:(by intros ? ? [])) as [? _].
Qed.

Lemma cancelled_thread q k k' t : cancelled q k k' ->
  th_stack_addr <$> k_threads k' !! t = th_stack_addr <$> k_threads k !! t.
Proof.
  intros C. destruct (decide (t ∈ queue k q)) as [Hin|Hin].
  - destruct (ca_woken _ _ _ C t Hin) as (th & -> & ->). done.
  - by rewrite (ca_threads _ _ _ C t Hin).
Qed.

Lemma cancelled_mem_ok q k k' h bs : wait_list q -> cancelled q k k' -> mem_ok k h bs -> mem_ok k' h bs.
Proof.
  intros Hwl C Hm. pose proof (ca_only _ _ _ C) as Fo. unfold core_only in Fo.
  assert (Hq : forall q', wait_list q' -> queue k q' = [] -> queue k' q' = []).
  { intros q' Hw E. destruct (decide (q' = q)) as [->|Hne]; [apply (ca_queue _ _ _ C)|].
    rewrite (ca_lists _ _ _ C); [done|done|]. intros p. by apply wait_list_not_ready. }
  assert (Hth : forall t, is_Some (k_threads k' !! t) -> is_Some (k_threads k !! t)).
  { intros t. rewrite <-!(fmap_is_Some th_stack_addr). by rewrite (cancelled_thread q k k' t C). }
  apply (mem_ok_same k); [done|by rewrite Fo| | |done].
  - intros o. destruct o as [t| [|] | | | | | | |]; try (by rewrite Fo).
    pose proof (cancelled_thread q k k' t C) as E. cbn.
    destruct (k_threads k' !! t), (k_threads k !! t); cbn in E; congruence.
  - intros o [U1 U2 U3 U4]. split; [|by rewrite Fo|by apply Hq..]. intros Hs. apply U1.
    destruct o as [t|x| | | | | | |]; cbn in *; [by apply Hth|by apply (ca_timers _ _ _ C)|by rewrite Fo in Hs..].
Qed.

Lemma dyn_ok_not_sem idle hs k h bs o : dyn_ok idle hs k h bs -> dynamic k o -> o <> OSem hs.
Proof. intros Hd Ho ->. by destruct (dy_sem _ _ _ _ _ Hd). Qed.

Lemma dyn_ok_cancelled idle hs k h bs q k' :
  dyn_ok idle hs k h bs -> wait_list q -> q <> LSuspend (OSem hs) -> kernel_ok idle 0 k' -> cancelled q k k' ->
  dyn_ok idle hs k' h bs.
Proof.
  intros [Hk Hi Hm Hs] Hq Hne Hk' C. pose proof (ca_only _ _ _ C) as Fo. unfold core_only in Fo. split; [done|..].
  - apply (heap_idle_same hs k); [done|by rewrite Fo|by apply (ca_lists _ _ _ C)|by rewrite Fo].
  - by eapply cancelled_mem_ok.
  - unfold dynamic. by rewrite Fo.
Qed.

Lemma dynamic_cancelled q k k' o : cancelled q k k' -> dynamic k o -> dynamic k' o.
Proof. intros C. pose proof (ca_only _ _ _ C) as Fo. unfold core_only in Fo. unfold dynamic. by rewrite Fo. Qed.

(** What a deletion has done: the object is gone, the regions [rs] are the heap's again, and
    the threads that waited for the object are ready with the error [-RT_ERROR]. *)
Record deleted (idle hs : Z) (o : oid) (rs : list (Z * Z)) (k : kstate) (h : heap) (bs : list blk)
    (k' : kstate) (h' : heap) (bs' : list blk) : Prop := {
  de_ok : dyn_ok idle hs k' h' bs';
  de_regions : grown h' bs' rs h bs;
  de_gone : k_objs k' !! o = None /\ registered o k' = false /\ ~ stored k' o;
  de_others : forall o', o' <> o -> is_Some (obj_addr o') -> k_objs k' !! o' = k_objs k !! o';
  de_woken : forall t, t ∈ queue k (LSuspend o) \/ t ∈ queue k (LSender o) -> exists th, k_threads k !! t = Some th /\
    k_threads k' !! t = Some (set_th_stat RT_THREAD_READY (set_th_error (- RT_ERROR) th));
  de_threads : forall t, t ∉ queue k (LSuspend o) -> t ∉ queue k (LSender o) -> k_threads k' !! t = k_threads k !! t;
  de_current : k_current k' = k_current k
}.

Lemma dyn_ok_forgotten idle hs k h bs o rs h' bs' :
  dyn_ok idle hs k h bs -> simple o -> heap_wf h' bs' -> grown h' bs' rs h bs -> dynamic k o ->
  blocks_of k o ≡ₚ rs.*1 -> queue k (LSuspend o) = [] -> queue k (LSender o) = [] ->
  dyn_ok idle hs (forget o (detached o k)) h' bs'.
Proof.
  intros Hd Hs W G Hdy Hb Hq1 Hq2. pose proof (dyn_ok_not_sem _ _ _ _ _ _ Hd Hdy) as Hne.
  pose proof Hd as [Hk Hi Hm [Hks Hns]]. assert (Ha : is_Some (obj_addr o)) by (by destruct o as [| [|] | | | | | | |]).
  pose proof (forget_forgets o (detached o k) Ha) as F. split.
  - apply forget_ok; [done|]. apply (same_core_ok idle 0 k); auto. by destruct o.
  - apply (heap_idle_same hs k); [done|apply (fo_int _ _ _ F)|apply (fo_queue _ _ _ F)|by apply (fo_sems _ _ _ F)].
  - eapply forgotten_mem_ok; try done. by intros t ->.
  - unfold dynamic. by rewrite (fo_others _ _ _ F).
Qed.

(** The last part of a deletion, from the state [k1] where nobody waits any more. *)
Lemma deleted_intro idle hs o rs k k1 h bs h' bs' :
  dyn_ok idle hs k1 h bs -> simple o -> dynamic k1 o -> heap_wf h' bs' -> grown h' bs' rs h bs ->
  blocks_of k1 o ≡ₚ rs.*1 -> queue k1 (LSuspend o) = [] -> queue k1 (LSender o) = [] ->
  k_objs k1 = k_objs k -> k_current k1 = k_current k ->
  (forall t, t ∈ queue k (LSuspend o) \/ t ∈ queue k (LSender o) -> exists th, k_threads k !! t = Some th /\
    k_threads k1 !! t = Some (set_th_stat RT_THREAD_READY (set_th_error (- RT_ERROR) th))) ->
  (forall t, t ∉ queue k (LSuspend o) -> t ∉ queue k (LSender o) -> k_threads k1 !! t = k_threads k !! t) ->
  deleted idle hs o rs k h bs (forget o (detached o k1)) h' bs'.
Proof.
  intros Hd Hs Hdy W G Hb Hq1 Hq2 Eo Ec Hw Ht.
  assert (Ha : is_Some (obj_addr o)) by (by destruct o as [| [|] | | | | | | |]).
  pose proof (forget_forgets o (detached o k1) Ha) as F. split; try done.
  - by eapply dyn_ok_forgotten.
  - split; [apply F|]. split; [|by intros [? _]%(fo_stored _ _ _ F)].
    unfold registered, objects. rewrite (fo_container _ _ _ F).
    change (registered o (detached o k1) = false). by rewrite registered_detached, decide_True.
  - intros o' Ho' Ha'. rewrite (fo_others _ _ _ F) by done. cbn. by rewrite Eo.
  - intros t Hin. destruct (Hw t Hin) as (th & E0 & E1). exists th. split; [done|]. by destruct o.
  - intros t H1 H2. rewrite <-(Ht t H1 H2). by destruct o.
  - rewrite <-Ec. by destruct o.
Qed.

Lemma cancel_run idle hs q k h bs :
  dyn_ok idle hs k h bs -> wait_list q -> q <> LSuspend (OSem hs) ->
  exists k1, rt_ipc_list_resume_all q k = Some (RT_EOK, k1) /\ dyn_ok idle hs k1 h bs /\ cancelled q k k1.
Proof.
  intros Hd Hq Hne. destruct (resume_all_cancelled idle 0 q k (dy_kernel _ _ _ _ _ Hd) Hq) as (k1 & Er & Hk1 & C).
  exists k1. split; [done|]. split; [|done]. by eapply (dyn_ok_cancelled idle hs k h bs q).
Qed.

(** The functions that delete an object of one block with a list of waiting threads. *)
Lemma delete_ipc_run idle hs o a k h bs :
  dyn_ok idle hs k h bs -> dynamic k o -> simple o -> obj_addr o = Some a ->
  (forall k1, blocks_of k1 o = [a]) -> (forall b, o <> OMb b) ->
  exists len k' h' bs',
    exec hs (atomic RT_DEBUG_NOT_IN_INTERRUPT;; atomic (rt_ipc_list_resume_all (LSuspend o));;
             rt_object_delete o;; mret RT_EOK) (HState k h) = Some (Done RT_EOK, HState k' h') /\
    deleted idle hs o [(a, len)] k h bs k' h' bs'.
Proof.
  intros Hd Hdy Hs Ea Hb Hmb. pose proof (dyn_ok_not_sem _ _ _ _ _ _ Hd Hdy) as Hne. pose proof Hd as [Hk Hi Hm _].
  destruct (cancel_run idle hs (LSuspend o) k h bs Hd I ltac:(congruence)) as (k1 & Er & Hd1 & C).
  pose proof (dynamic_cancelled _ _ _ _ C Hdy) as Hdy1. pose proof Hd1 as [_ Hi1 Hm1 _].
  destruct (rt_object_delete_run hs o a k1 h bs Hi1 Hdy1 Hne Ea (mo_heap _ _ _ Hm1)) as (len & h' & bs' & E & _ & W & G).
  { apply (mo_live _ _ _ Hm1 o); [done|]. rewrite Hb. set_solver. }
  pose proof (mo_sender _ _ _ Hm o Hmb) as Hsd.
  pose proof (ca_only _ _ _ C) as Fo. unfold core_only in Fo.
  exists len, (forget o (detached o k1)), h', bs'. split.
  { pstep (exec_atomic hs _ k h _ _ (not_in_interrupt k (proj1 Hi))). pstep (exec_atomic hs _ k h _ _ Er). by pstep E. }
  apply deleted_intro; try done; [by rewrite Hb|apply C|by rewrite (ca_lists _ _ _ C)|by rewrite Fo|apply C|..].
  - intros t [Ht|Ht]; [by apply (ca_woken _ _ _ C)|]. rewrite Hsd in Ht. by apply not_elem_of_nil in Ht.
  - intros t Ht _. by apply (ca_threads _ _ _ C).
Qed.

(** ** Objects with a buffer *)

(** A creation that has failed half way has left nothing behind. *)
Record nothing_new (idle hs : Z) (k : kstate) (h : heap) (bs : list blk)
    (k' : kstate) (h' : heap) (bs' : list blk) : Prop := {
  nn_ok : dyn_ok idle hs k' h' bs';
  nn_regions : grown h bs [] h' bs';
  nn_objs : k_objs k' = k_objs k;
  nn_linked : forall o, registered o k' = registered o k;
  nn_stored : forall o, stored k' o -> stored k o;
  nn_threads : k_threads k' = k_threads k;
  nn_lists : forall q, queue k' q = queue k q
}.

Lemma mem_ok_heap k h bs h' bs' : mem_ok k h bs -> grown h bs [] h' bs' -> mem_ok k h' bs'.
Proof.
  intros [H1 H2 H3 H4 H5 H6 H7 H8 H9 H10 H11] [W L [P E]]. cbn in L.
  split; try done.
  - intros o b Hd Hb. rewrite L. by apply (H2 o).
  - intros o a len Hd Ea Hin. rewrite L in Hin. by apply (H3 o a).
  - unfold outside in *. by rewrite P, E.
Qed.

Lemma blocks_of_none k o a : ~ stored k o -> simple o -> obj_addr o = Some a -> blocks_of k o = [a].
Proof.
  intros Hn Hs Ea. destruct o as [| | | | | | | |]; cbn in *; simplify_eq; try done;
    case_match eqn:E; try done; by destruct Hn.
Qed.

Lemma forget_objs o k : simple o -> k_objs (forget o k) = delete o (k_objs k).
Proof. intros Hs. by destruct o. Qed.

(** The way back of a creation: the control block is given back. *)
Lemma undo_any idle hs o name a len k h bs h1 bs1 k2 :
  dyn_ok idle hs k h bs -> obj_addr o = Some a -> grown h bs [(a, len)] h1 bs1 -> k_objs k !! o = None ->
  stores o (enlisted o name k) k2 -> let k' := forget o (detached o k2) in kernel_ok idle 0 k' ->
  k_objs k' = k_objs k -> k_threads k' = k_threads k -> blocks_of k o = [a] -> blocks_of k' o = [a] ->
  exists h' bs', exec hs (rt_object_delete o) (HState k2 h1) = Some (Done tt, HState k' h') /\
    nothing_new idle hs k h bs k' h' bs'.
Proof.
  intros Hd Ea G Hn S k' Hk' Eo Et Hb Hb'. pose proof Hd as [Hk Hi Hm [Hks Hns]]. pose proof S as [S1 S2 S3 S4 S5 S6].
  assert (Hne : o <> OSem hs) by (intros ->; destruct Hks; congruence).
  assert (Ho : k_objs k2 !! o = Some (Kobj (default [] (rt_strncpy name RT_NAME_MAX)) (obj_class o)))
    by (rewrite S2; apply lookup_insert_eq).
  assert (Hi2 : heap_idle hs k2).
  { apply (heap_idle_same hs k); [done|apply S1|by rewrite (sc_queue _ _ S1)|by apply S6]. }
  destruct (rt_object_delete_run hs o a k2 h1 bs1 Hi2 (dynamic_class _ _ _ Ho) Hne Ea (gr_heap _ _ _ _ _ G))
    as (len' & h' & bs' & E & Hi' & W & G').
  { rewrite (gr_live _ _ _ _ _ G). cbn. set_solver. }
  pose proof (forget_forgets o (detached o k2) ltac:(by rewrite Ea)) as F.
  fold k' in E, Hi', F. exists h', bs'. split; [done|].
  assert (Hq : forall q, queue k' q = queue k q).
  { intros q. rewrite (fo_queue _ _ _ F). change (queue (detached o k2) q) with (queue k2 q). by rewrite (sc_queue _ _ S1). }
  assert (Hr : forall o', registered o' k' = registered o' k).
  { intros o'. unfold registered at 1, objects. rewrite (fo_container _ _ _ F).
    change (registered o' (detached o k2) = registered o' k). rewrite registered_detached. case_decide as E0.
    - subst o'. symmetry. apply (un_linked _ _ (mo_known _ _ _ Hm o Hn)).
    - rewrite <-(registered_enlisted o o' name k E0). unfold registered, objects. by rewrite S3. }
  assert (Hst : forall o', stored k' o' -> stored k o').
  { intros o' [Ho' Hs']%(fo_stored _ _ _ F). apply S5 in Hs'; [|done]. by destruct o' as [| [|] | | | | | | |]. }
  assert (Hg : grown h bs [] h' bs').
  { pose proof (mo_heap _ _ _ Hm) as Wh. eapply (grown_back h bs [(a, len)] h1 bs1); [done|done| |done].
    assert (len' = len) as ->; [|done].
    pose proof (live_nodup _ _ (gr_heap _ _ _ _ _ G)) as Hnd. pose proof (gr_live _ _ _ _ _ G) as L1.
    pose proof (gr_live _ _ _ _ _ G') as L2. rewrite L1 in L2, Hnd. cbn in L2, Hnd.
    assert (Hin : (a, len') ∈ (a, len) :: live h bs) by (rewrite L2; set_solver).
    apply elem_of_cons in Hin as [[= ->]|Hin]; [done|]. apply list.NoDup_cons in Hnd as [[] _].
    apply list_elem_of_fmap. by exists (a, len'). }
  split; try done. split; [done|done| |].
  - apply (mem_ok_heap k' h bs); [|done]. apply (mem_ok_same k); [done|done| | |by intros q _; rewrite Hq].
    + intros o'. destruct (decide (o' = o)) as [->|Ho'].
      * by rewrite Hb.
      * rewrite (fo_blocks _ _ _ F) by done. change (blocks_of (detached o k2) o') with (blocks_of k2 o').
        rewrite S4 by done. by destruct o' as [| [|] | | | | | | |].
    + intros o' [U1 U2 U3 U4]. split; [by intros ?%Hst|by rewrite Hr|by rewrite Hq..].
  - unfold dynamic. by rewrite Eo.
Qed.

Lemma undo_run idle hs o name a len k h bs h1 bs1 k2 :
  dyn_ok idle hs k h bs -> simple o -> obj_addr o = Some a -> grown h bs [(a, len)] h1 bs1 -> k_objs k !! o = None ->
  stores o (enlisted o name k) k2 -> kernel_ok idle 0 (forget o (detached o k2)) ->
  exists k' h' bs', exec hs (rt_object_delete o) (HState k2 h1) = Some (Done tt, HState k' h') /\
    nothing_new idle hs k h bs k' h' bs'.
Proof.
  intros Hd Hs Ea G Hn S Hk'. exists (forget o (detached o k2)). apply (undo_any idle hs o name a len k h bs h1 bs1 k2); try done.
  - rewrite forget_objs by done. cbn. rewrite (st_objs _ _ _ S). cbn. by rewrite delete_insert_id.
  - transitivity (k_threads k2); [|apply S]. by destruct o.
  - apply blocks_of_none; [|done..]. apply (un_stored _ _ (mo_known _ _ _ (dy_mem _ _ _ _ _ Hd) o Hn)).
  - apply blocks_of_none; [|done..]. intros [? _]%(fo_stored o (detached o k2)); [done|].
    apply forget_forgets. by rewrite Ea.
Qed.

(** The functions that create an object with a buffer, in terms of the states between their
    sections: [s1] after the first part of the control block is set, [s2] after the address
    of the buffer is, [s3] at the end. *)
Lemma create_buffer_run {X} idle hs mk name size (ini1 : Z -> M unit) (setp ini2 : Z -> Z -> M unit)
    (undo : Z -> prog X) (x : X) (s1 : Z -> kstate -> kstate) (s2 s3 : Z -> Z -> kstate -> kstate) k h bs :
  dyn_ok idle hs k h bs -> valid_name name ->
  (forall a, obj_addr (mk a) = Some a) -> (forall a, obj_class (mk a) = obj_class (mk 0)) -> (forall a, simple (mk a)) ->
  0 < object_size (obj_class (mk 0)) <= 4294967292 -> 0 <= size <= 4294967292 ->
  (forall a k1, ini1 a k1 = Some (tt, s1 a k1)) ->
  (forall a p k1, setp a p (s1 a k1) = Some (tt, s2 a p k1)) ->
  (forall a p k1, ini2 a p (s2 a p k1) = Some (tt, s3 a p k1)) ->
  (forall a k1, unused k1 (mk a) -> stores (mk a) (enlisted (mk a) name k1) (s1 a (enlisted (mk a) name k1))) ->
  (forall a p k1, unused k1 (mk a) -> stores (mk a) (enlisted (mk a) name k1) (s2 a p (enlisted (mk a) name k1))) ->
  (forall a p k1, unused k1 (mk a) -> stores (mk a) (enlisted (mk a) name k1) (s3 a p (enlisted (mk a) name k1))) ->
  (forall a p k1, blocks_of (s3 a p k1) (mk a) = [a; p]) ->
  (forall a, unused k (mk a) -> kernel_ok idle 0 (forget (mk a) (detached (mk a) (s2 a 0 (enlisted (mk a) name k))))) ->
  (forall a p, unused k (mk a) -> kernel_ok idle 0 (s3 a p (enlisted (mk a) name k))) ->
  (forall a h1 s', unused k (mk a) -> heap_idle hs (s2 a 0 (enlisted (mk a) name k)) ->
     exec hs (rt_object_delete (mk a)) (HState (s2 a 0 (enlisted (mk a) name k)) h1) = Some (Done tt, s') ->
     exec hs (undo a) (HState (s2 a 0 (enlisted (mk a) name k)) h1) = Some (Done x, s')) ->
  let p := (atomic RT_DEBUG_NOT_IN_INTERRUPT;; a ← rt_object_allocate mk name;
            if a =? 0 then mret 0
            else
              atomic (ini1 a);; pool ← malloc size; atomic (setp a pool);;
              if pool =? 0 then undo a;; mret 0 else atomic (ini2 a pool);; mret a) in
  (exists k' h' bs', exec hs p (HState k h) = Some (Done 0, HState k' h') /\ nothing_new idle hs k h bs k' h' bs') \/
  exists a len pool len2 h' bs', let k' := s3 a pool (enlisted (mk a) name k) in
    exec hs p (HState k h) = Some (Done a, HState k' h') /\ pool <> 0 /\ size <= len2 /\
    created idle hs mk name a len [(pool, len2)] k h bs k' h' bs'.
Proof.
  intros Hd Hn Ha Hc Hs Ho Hz Hi1 Hsp Hi2 T1 T2 T3 Hb Hko Hk Hu p. pose proof Hd as [Hke Hi Hm _]. unfold p.
  pstep (exec_atomic hs _ k h _ _ (not_in_interrupt k (proj1 Hi))).
  destruct (rt_object_allocate_run hs mk name k h bs Hi Hm Hn Ha Ho) as [E|(a & len & h1 & bs1 & H0 & Hl & G & Hf & E)]; pstep E.
  { left. exists k, h, bs. split; [done|]. split; try done. by apply grown_refl, Hm. }
  destruct (Z.eqb_spec a 0) as [|_]; [done|].
  pose proof (mo_known _ _ _ Hm _ Hf) as Hun. set (k1 := enlisted (mk a) name k) in *.
  assert (Hne : mk a <> OSem hs) by (intros E0; destruct (dy_sem _ _ _ _ _ Hd) as [[? ?] _]; congruence).
  assert (Hidle : forall k2, stores (mk a) k1 k2 -> heap_idle hs k2).
  { intros k2 S. apply (heap_idle_same hs k); [done|apply S|by rewrite (sc_queue _ _ (st_core _ _ _ S))|by apply (st_sems _ _ _ S)]. }
  pstep (exec_atomic hs _ k1 h1 _ _ (Hi1 a k1)).
  pose proof (Hidle _ (T1 a k Hun)) as Hix.
  destruct (heap_malloc_grown h1 bs1 size (gr_heap _ _ _ _ _ G) Hz) as [E2|(pool & len2 & h2 & bs2 & E2 & Hp0 & Hl2 & G2)];
    pstep (exec_malloc hs _ (s1 a k1) h1 _ _ Hix E2).
  - pstep (exec_atomic hs _ (s1 a k1) h1 _ _ (Hsp a 0 k1)).
    destruct (undo_run idle hs (mk a) name a len k h bs h1 bs1 (s2 a 0 k1) Hd (Hs a) (Ha a) G Hf (T2 a 0 k Hun) (Hko a Hun))
      as (k' & h' & bs' & Ed & N). left. exists k', h', bs'. split; [|done]. cbn [Z.eqb].
    pose proof (Hu a h1 _ Hun (Hidle _ (T2 a 0 k Hun)) Ed) as Eu. by pstep Eu.
  - pstep (exec_atomic hs _ (s1 a k1) h2 _ _ (Hsp a pool k1)).
    right. exists a, len, pool, len2, h2, bs2. cbv zeta. destruct (Z.eqb_spec pool 0) as [|_]; [done|].
    pstep (exec_atomic hs _ _ h2 _ _ (Hi2 a pool k1)). split; [done|]. split; [done|]. split; [done|].
    eapply (created_intro idle hs mk name a len [(pool, len2)] k h bs); try done; auto.
    eapply (grown_perm _ _ ([(pool, len2)] ++ [(a, len)])); [by apply Permutation_swap|]. by eapply grown_app.
Qed.

Ltac same_core_put Hq := split; try done; intros; by apply queue_put_nil.

(** The object [o] is the one that is stored: the others are where they were. *)
Ltac stored_elsewhere :=
  let o := fresh "o" in let Hne := fresh "Hne" in
  intros o Hne; destruct o as [| [|] | | | | | | |]; cbn; try done;
  rewrite lookup_insert_ne by (intros ->; by apply Hne); done.

Lemma stores_nil o q k : queue k q = [] -> stores o k (put_queue q [] k).
Proof. intros Hq. split; try done. same_core_put Hq. Qed.
Lemma stores_trans o k k1 k2 : stores o k k1 -> stores o k1 k2 -> stores o k k2.
Proof.
  intros [S1 S2 S3 S4 S5 S6] [T1 T2 T3 T4 T5 T6]. split; try congruence.
  - destruct S1, T1. split; congruence.
  - intros o' Ho. by rewrite T4, S4.
  - intros o' Ho Hs. by apply S5, T5.
  - intros s Hs. by rewrite T6, S6.
Qed.

(** The buffer, then the control block go back to the heap. *)
Lemma free_both_run hs o a pool k h bs :
  heap_idle hs k -> mem_ok k h bs -> o <> OSem hs -> dynamic k o -> obj_addr o = Some a -> blocks_of k o = [a; pool] ->
  exists len len2 h1 h' bs', exec hs (free pool) (HState k h) = Some (Done tt, HState k h1) /\
    exec hs (rt_object_delete o) (HState k h1) = Some (Done tt, HState (forget o (detached o k)) h') /\
    heap_idle hs (forget o (detached o k)) /\ heap_wf h' bs' /\ grown h' bs' [(a, len); (pool, len2)] h bs.
Proof.
  intros Hi Hm Hne Hdy Ea Hb.
  assert (Hla : a ∈ (live h bs).*1) by (apply (mo_live _ _ _ Hm o); [done|rewrite Hb; set_solver]).
  assert (Hlp : pool ∈ (live h bs).*1) by (apply (mo_live _ _ _ Hm o); [done|rewrite Hb; set_solver]).
  pose proof (mo_nodup _ _ _ Hm o Hdy) as Hnd. rewrite Hb in Hnd. apply list.NoDup_cons in Hnd as [Hnd _].
  destruct (heap_free_shrinks h bs pool (mo_heap _ _ _ Hm) Hlp) as (len2 & h1 & bs1 & E1 & W1 & G1).
  destruct (rt_object_delete_run hs o a k h1 bs1 Hi Hdy Hne Ea W1) as (len & h' & bs' & E2 & Hi' & W & G).
  { rewrite (gr_live _ _ _ _ _ G1) in Hla. cbn in Hla. apply elem_of_cons in Hla as [->|Hla]; [|done].
    destruct Hnd. set_solver. }
  exists len, len2, h1, h', bs'. split; [by apply exec_free|]. split; [done|]. split; [done|]. split; [done|].
  eapply (grown_perm _ _ ([(pool, len2)] ++ [(a, len)])); [by apply Permutation_swap|]. by eapply grown_app.
Qed.
