(* ===== verification/DynObjects.v ===== *)
(** * Creation and deletion of the kinds of objects
      (src/src/ipc.c, mempool.c, timer.c)

    The [_create] and [_delete] functions of Dynamic.v for each kind of object: a creation
    that succeeds gives an object in order, in memory of its own; one that fails has left
    nothing behind, also when the control block had been allocated and its buffer could not
    be; a deletion wakes the threads that wait and gives the memory back. *)
From S2P Require Import Prelude KService Kernel Object Scheduler Timer Thread Frame Ipc.
From S2P Require Import Sem MutexLock EventSet Mailbox MsgQueue Mempool Mem Heap System Dynamic.

(** ** Semaphores, mutexes and events *)

Lemma stores_sem a v k : queue k (LSuspend (OSem a)) = [] ->
  stores (OSem a) k (put_sem a v (put_queue (LSuspend (OSem a)) [] k)).
Proof.
  intros Hq. split; try done; [same_core_put Hq|stored_elsewhere|].
  intros s Hs. cbn. apply lookup_insert_ne. by intros ->.
Qed.
Lemma stores_mutex a v k : queue k (LSuspend (OMutex a)) = [] ->
  stores (OMutex a) k (put_mutex a v (put_queue (LSuspend (OMutex a)) [] k)).
Proof. intros Hq. split; try done; [same_core_put Hq|stored_elsewhere]. Qed.
Lemma stores_event a v k : queue k (LSuspend (OEvent a)) = [] ->
  stores (OEvent a) k (put_event a v (put_queue (LSuspend (OEvent a)) [] k)).
Proof. intros Hq. split; try done; [same_core_put Hq|stored_elsewhere]. Qed.

Lemma same_core_enlisted o name k k' : same_core (enlisted o name k) k' -> same_core k k'.
Proof. by intros []. Qed.

Lemma new_sem_ok idle a name value flag k :
  kernel_ok idle 0 k -> ipc_flag (u8 flag) -> queue k (LSuspend (OSem a)) = [] ->
  kernel_ok idle 0 (put_sem a (Sem (u8 flag) (u16 value)) (put_queue (LSuspend (OSem a)) [] (enlisted (OSem a) name k))).
Proof.
  intros Hk Hf Hq. pose proof (st_core _ _ _ (stores_sem a (Sem (u8 flag) (u16 value)) (enlisted (OSem a) name k) Hq)) as Hs.
  apply (same_core_ok idle 0 k); auto; [by eapply same_core_enlisted|]. left. intros x s Ex. cbn in Ex.
  unfold sem_ok. rewrite (sc_queue _ _ Hs). change (queue (enlisted _ _ k)) with (queue k).
  apply lookup_insert_Some in Ex as [[<- <-]|[_ Ex]]; [|by apply (ko_sems _ _ _ Hk)].
  split; [apply u16_range|done].
Qed.

Lemma new_mutex_ok idle a name flag k :
  kernel_ok idle 0 k -> ipc_flag (u8 flag) -> queue k (LSuspend (OMutex a)) = [] ->
  kernel_ok idle 0 (put_mutex a (Mutex (u8 flag) 1 255 0 None)
    (put_queue (LSuspend (OMutex a)) [] (enlisted (OMutex a) name k))).
Proof.
  intros Hk Hf Hq. pose proof (st_core _ _ _ (stores_mutex a (Mutex (u8 flag) 1 255 0 None) (enlisted (OMutex a) name k) Hq)) as Hs.
  apply (same_core_ok idle 0 k); auto; [by eapply same_core_enlisted|]. left. intros x s Ex. cbn in Ex.
  unfold mutex_ok. rewrite (sc_queue _ _ Hs). change (queue (enlisted _ _ k)) with (queue k).
  apply lookup_insert_Some in Ex as [[<- <-]|[_ Ex]]; [done|]. by apply (ko_mutexes _ _ _ Hk).
Qed.

Lemma new_event_ok idle a name flag k :
  kernel_ok idle 0 k -> ipc_flag (u8 flag) -> queue k (LSuspend (OEvent a)) = [] ->
  kernel_ok idle 0 (put_event a (Event (u8 flag) 0)
    (put_queue (LSuspend (OEvent a)) [] (enlisted (OEvent a) name k))).
Proof.
  intros Hk Hf Hq. pose proof (st_core _ _ _ (stores_event a (Event (u8 flag) 0) (enlisted (OEvent a) name k) Hq)) as Hs.
  apply (same_core_ok idle 0 k); auto; [by eapply same_core_enlisted|]. left. intros x s Ex. cbn in Ex.
  unfold event_ok, no_missed. rewrite (sc_queue _ _ Hs). change (queue (enlisted _ _ k)) with (queue k).
  apply lookup_insert_Some in Ex as [[<- <-]|[_ Ex]]; [|by apply (ko_events _ _ _ Hk)].
  split; [done|]. split; [done|]. rewrite Hq. intros t th Ht. by apply not_elem_of_nil in Ht.
Qed.

Section Create.
Context (idle hs : Z) (k : kstate) (h : heap) (bs : list blk) (name : list Z).
Context (Hd : dyn_ok idle hs k h bs) (Hn : valid_name name).

(** A creation that fails leaves everything as it was; one that succeeds has made the
    object [mk a], of which [P] holds. *)
Definition create_spec (p : prog Z) (mk : Z -> oid) (P : Z -> kstate -> Prop) : Prop :=
  exec hs p (HState k h) = Some (Done 0, HState k h) \/
  exists a len k' h' bs', exec hs p (HState k h) = Some (Done a, HState k' h') /\
    created idle hs mk name a len [] k h bs k' h' bs' /\ P a k'.

Lemma rt_sem_create_run value flag : ipc_flag (u8 flag) ->
  create_spec (rt_sem_create name value flag) OSem
    (fun a k' => k_sems k' = <[a := Sem (u8 flag) (u16 value)]> (k_sems k)).
Proof.
  intros Hf. destruct (create_ipc_run idle hs OSem name
    (fun a => rt_ipc_object_init (OSem a);; kmod (put_sem a (Sem (u8 flag) (u16 value))))
    (fun a => put_sem a (Sem (u8 flag) (u16 value))) k h bs Hd Hn) as [E|(a & len & h' & bs' & E & Hc)];
    try done; [..|by left|].
  - intros. by apply stores_sem.
  - intros. by apply new_sem_ok; [apply Hd|..].
  - right. exists a, len. eexists _, h', bs'. split; [exact E|]. by split.
Qed.

Lemma rt_mutex_create_run flag : ipc_flag (u8 flag) ->
  create_spec (rt_mutex_create name flag) OMutex
    (fun a k' => k_mutexes k' = <[a := Mutex (u8 flag) 1 255 0 None]> (k_mutexes k)).
Proof.
  intros Hf. destruct (create_ipc_run idle hs OMutex name
    (fun a => rt_ipc_object_init (OMutex a);; kmod (put_mutex a (Mutex (u8 flag) 1 255 0 None)))
    (fun a => put_mutex a (Mutex (u8 flag) 1 255 0 None)) k h bs Hd Hn) as [E|(a & len & h' & bs' & E & Hc)];
    try done; [..|by left|].
  - intros. by apply stores_mutex.
  - intros. by apply new_mutex_ok; [apply Hd|..].
  - right. exists a, len. eexists _, h', bs'. split; [exact E|]. by split.
Qed.

Lemma rt_event_create_run flag : ipc_flag (u8 flag) ->
  create_spec (rt_event_create name flag) OEvent
    (fun a k' => k_events k' = <[a := Event (u8 flag) 0]> (k_events k)).
Proof.
  intros Hf. destruct (create_ipc_run idle hs OEvent name
    (fun a => rt_ipc_object_init (OEvent a);; kmod (put_event a (Event (u8 flag) 0)))
    (fun a => put_event a (Event (u8 flag) 0)) k h bs Hd Hn) as [E|(a & len & h' & bs' & E & Hc)];
    try done; [..|by left|].
  - intros. by apply stores_event.
  - intros. by apply new_event_ok; [apply Hd|..].
  - right. exists a, len. eexists _, h', bs'. split; [exact E|]. by split.
Qed.
End Create.

Lemma mod_mb_put a f m k : mod_mb a f (put_mb a m k) = Some (tt, put_mb a (f m) k).
Proof.
  unfold mod_mb. rewrite (bind_run _ _ _ _ _ (get_mb_run a m _ (lookup_insert_eq _ _ _))). unfold kmod, put_mb. cbn.
  by rewrite insert_insert_eq.
Qed.

Lemma stores_put_mb a m k : stores (OMb a) k (put_mb a m k).
Proof. split; try done; stored_elsewhere. Qed.

(** ** Mailboxes *)

Section Mailboxes.
Context (idle hs : Z) (k : kstate) (h : heap) (bs : list blk).
Context (Hd : dyn_ok idle hs k h bs).

(** A creation that fails has left nothing behind; one that succeeds has made the object
    [mk a] with a buffer at [pool] of at least [size] bytes, of which [P] holds. *)
Definition create_buffer_spec (name : list Z) (p : prog Z) (mk : Z -> oid) (size : Z) (P : Z -> Z -> kstate -> Prop) : Prop :=
  (exists k' h' bs', exec hs p (HState k h) = Some (Done 0, HState k' h') /\ nothing_new idle hs k h bs k' h' bs') \/
  exists a len pool len2 k' h' bs', exec hs p (HState k h) = Some (Done a, HState k' h') /\
    created idle hs mk name a len [(pool, len2)] k h bs k' h' bs' /\ size <= len2 /\ P a pool k'.

Lemma new_mb_ok a m name :
  ring_ok m -> queue k (LSuspend (OMb a)) = [] -> queue k (LSender (OMb a)) = [] ->
  kernel_ok idle 0 (put_mb a m (put_queue (LSender (OMb a)) [] (put_queue (LSuspend (OMb a)) [] (enlisted (OMb a) name k)))).
Proof.
  intros Hr Hq1 Hq2. pose proof (dy_kernel _ _ _ _ _ Hd) as Hk. apply (same_core_ok idle 0 k); auto.
  - split; try done. intros q. transitivity (queue (put_queue (LSuspend (OMb a)) [] (enlisted (OMb a) name k)) q).
    + apply queue_put_nil. by rewrite queue_put_ne.
    + by apply (queue_put_nil (LSuspend (OMb a)) (enlisted (OMb a) name k)).
  - left. intros x b Ex. cbn in Ex. apply lookup_insert_Some in Ex as [[<- <-]|[_ Ex]]; [done|].
    by apply (ko_mbs _ _ _ Hk) in Ex.
Qed.

Lemma rt_mb_create_run name size flag raw words :
  valid_name name -> ipc_flag (u8 flag) -> 0 < size < 65536 -> Z.of_nat (length words) = size ->
  create_buffer_spec name (rt_mb_create name size flag raw words) OMb (4 * size) (fun a pool k' =>
    exists b, k_mbs k' = <[a := b]> (k_mbs k) /\ ring_ok b /\ mb_entry b = 0 /\ mb_size b = size /\ mb_pool_addr b = pool).
Proof.
  intros Hn Hf Hs Hw.
  set (m1 := set_mb_size (u16 size) (set_mb_flag (u8 flag) raw)).
  set (m3 := fun p => set_mb_msg_pool words (set_mb_entry 0 (set_mb_in_offset 0 (set_mb_out_offset 0 (set_mb_pool_addr p m1))))).
  assert (Hr : forall p, ring_ok (m3 p)) by (intros p; split; cbn; rewrite ?u16_id by lia; try done; lia).
  assert (Hz : u32 (u16 size * 4) = 4 * size) by (rewrite u16_id, u32_id by lia; lia).
  destruct (create_buffer_run idle hs OMb name (u32 (u16 size * 4))
    (fun a => kmod (put_mb a (set_mb_flag (u8 flag) raw));; rt_ipc_object_init (OMb a);; mod_mb a (set_mb_size (u16 size)))
    (fun a p => mod_mb a (set_mb_pool_addr p))
    (fun a p => mod_mb a (fun b => set_mb_msg_pool words (set_mb_entry 0 (set_mb_in_offset 0 (set_mb_out_offset 0 b))));;
                list_head_init (LSender (OMb a)))
    (fun a => rt_object_delete (OMb a)) tt
    (fun a k1 => put_mb a m1 (put_queue (LSuspend (OMb a)) [] k1))
    (fun a p k1 => put_mb a (set_mb_pool_addr p m1) (put_queue (LSuspend (OMb a)) [] k1))
    (fun a p k1 => put_mb a (m3 p) (put_queue (LSender (OMb a)) [] (put_queue (LSuspend (OMb a)) [] k1)))
    k h bs Hd Hn) as [(k' & h' & bs' & E & N)|(a & len & pool & len2 & h' & bs' & E & _ & Hl & C)]; try done; try lia.
  - intros a k1. unfold rt_ipc_object_init, list_head_init. do 2 mstep.
    change (put_queue ?q [] (put_mb a ?m k1)) with (put_mb a m (put_queue q [] k1)). apply mod_mb_put.
  - intros a p k1. apply mod_mb_put.
  - intros a p k1. by mstep_by (mod_mb_put a (fun b => set_mb_msg_pool words (set_mb_entry 0 (set_mb_in_offset 0
      (set_mb_out_offset 0 b)))) (set_mb_pool_addr p m1) (put_queue (LSuspend (OMb a)) [] k1)).
  - intros a k1 [_ _ U _]. eapply stores_trans; [by apply stores_nil|apply stores_put_mb].
  - intros a p k1 [_ _ U _]. eapply stores_trans; [by apply stores_nil|apply stores_put_mb].
  - intros a p k1 [_ _ U U']. eapply stores_trans; [by apply (stores_nil _ (LSuspend (OMb a)))|].
    eapply stores_trans; [|apply stores_put_mb]. apply stores_nil. by rewrite queue_put_ne.
  - intros a p k1. cbn. by rewrite lookup_insert_eq.
  - intros a [_ _ U _]. apply (same_core_ok idle 0 k); [apply Hd|..]; auto.
    + split; try done. by apply (queue_put_nil (LSuspend (OMb a)) (enlisted (OMb a) name k)).
    + left. intros y b Ey. cbn in Ey. rewrite delete_insert_eq in Ey. apply lookup_delete_Some in Ey as [_ Ey].
      by apply (ko_mbs _ _ _ (dy_kernel _ _ _ _ _ Hd)) in Ey.
  - intros a p [_ _ U U']. by apply new_mb_ok.
  - left. eauto 10.
  - right. exists a, len, pool, len2. eexists _, h', bs'. split; [exact E|]. split; [done|]. split; [lia|].
    exists (m3 pool). split; [done|]. split; [done|]. split; [done|]. split; [|done]. cbn. by rewrite u16_id by lia.
Qed.
End Mailboxes.

(** [rt_mb_delete] wakes the receivers and the senders that wait. *)
Lemma rt_mb_delete_run idle hs a b k h bs :
  dyn_ok idle hs k h bs -> dynamic k (OMb a) -> k_mbs k !! a = Some b ->
  exists len len2 k' h' bs', exec hs (rt_mb_delete a) (HState k h) = Some (Done RT_EOK, HState k' h') /\
    deleted idle hs (OMb a) [(a, len); (mb_pool_addr b, len2)] k h bs k' h' bs'.
Proof.
  intros Hd Hdy Eb. pose proof Hd as [Hk Hi Hm _].
  destruct (cancel_run idle hs (LSuspend (OMb a)) k h bs Hd I ltac:(done)) as (k1 & E1 & Hd1 & C1).
  destruct (cancel_run idle hs (LSender (OMb a)) k1 h bs Hd1 I ltac:(done)) as (k2 & E2 & Hd2 & C2).
  pose proof (dynamic_cancelled _ _ _ _ C2 (dynamic_cancelled _ _ _ _ C1 Hdy)) as Hdy2.
  pose proof (ca_only _ _ _ C1) as F1. pose proof (ca_only _ _ _ C2) as F2. unfold core_only in F1, F2.
  assert (Eb2 : k_mbs k2 !! a = Some b) by (rewrite F2; cbn; by rewrite F1).
  assert (Hb2 : blocks_of k2 (OMb a) = [a; mb_pool_addr b]) by (cbn; by rewrite Eb2).
  pose proof Hd2 as [_ Hi2 Hm2 _].
  destruct (free_both_run hs (OMb a) a (mb_pool_addr b) k2 h bs Hi2 Hm2 ltac:(done) Hdy2 eq_refl Hb2)
    as (len & len2 & h1 & h' & bs' & E3 & E4 & _ & W & G).
  exists len, len2, (forget (OMb a) (detached (OMb a) k2)), h', bs'. split.
  { unfold rt_mb_delete. pstep (exec_atomic hs _ k h _ _ (not_in_interrupt k (proj1 Hi))).
    pstep (exec_atomic hs _ k h _ _ E1). pstep (exec_atomic hs _ k1 h _ _ E2).
    pstep (exec_atomic hs _ k2 h _ _ (get_mb_run a b k2 Eb2)). pstep E3. by pstep E4. }
  pose proof (wf_unique k (proj1 (c_inv (c_core0 (ko_core _ _ _ Hk))))) as Hun.
  assert (Hs : queue k1 (LSender (OMb a)) = queue k (LSender (OMb a))) by (by apply (ca_lists _ _ _ C1)).
  apply deleted_intro; try done; [by rewrite Hb2|by rewrite (ca_lists _ _ _ C2), (ca_queue _ _ _ C1)|apply C2|..].
  - rewrite F2. cbn. by rewrite F1.
  - by rewrite (ca_current _ _ _ C2), (ca_current _ _ _ C1).
  - intros t [Ht|Ht].
    + destruct (ca_woken _ _ _ C1 t Ht) as (th & E & E'). exists th. split; [done|].
      rewrite (ca_threads _ _ _ C2); [done|]. rewrite Hs. intros Ht'. by pose proof (Hun _ _ _ Ht Ht').
    + rewrite <-Hs in Ht. destruct (ca_woken _ _ _ C2 t Ht) as (th & E & E'). exists th. split; [|done].
      rewrite <-(ca_threads _ _ _ C1); [done|]. intros Ht'. rewrite Hs in Ht. by pose proof (Hun _ _ _ Ht Ht').
  - intros t H1 H2. rewrite (ca_threads _ _ _ C2), (ca_threads _ _ _ C1); [done|done|by rewrite Hs].
Qed.

(** ** Message queues *)

Lemma mq_step_put {A} a f q (r : A) q' k : f q = Some (r, q') -> mq_step a f (put_mq a q k) = Some (r, put_mq a q' k).
Proof.
  intros E. erewrite mq_step_run; [|cbn; apply lookup_insert_eq|exact E]. by rewrite put_mq_put_mq.
Qed.
Lemma stores_put_mq a q k : stores (OMq a) k (put_mq a q k).
Proof. split; try done; stored_elsewhere. Qed.

(** Nobody waits: there is nothing to do. *)
Lemma resume_all_nil q k : queue k q = [] -> rt_ipc_list_resume_all q k = Some (RT_EOK, k).
Proof.
  intros E. unfold rt_ipc_list_resume_all. mstep. rewrite E. cbn [length resume_all_loop].
  unfold list_isempty. erewrite bind_run; [|mstep; by rewrite E]. done.
Qed.

(** The way back of [rt_mq_create] is [rt_mq_delete], of a queue with no buffer. *)
Lemma rt_mq_delete_undo hs a q k h s' :
  heap_idle hs k -> k_mqs k !! a = Some q -> mq_pool_addr q = 0 -> queue k (LSuspend (OMq a)) = [] ->
  exec hs (rt_object_delete (OMq a)) (HState k h) = Some (Done tt, s') ->
  exec hs (rt_mq_delete a) (HState k h) = Some (Done RT_EOK, s').
Proof.
  intros Hi Eq Ep Hq E. unfold rt_mq_delete.
  pstep (exec_atomic hs _ k h _ _ (not_in_interrupt k (proj1 Hi))).
  pstep (exec_atomic hs _ k h _ _ (resume_all_nil (LSuspend (OMq a)) k Hq)).
  pstep (exec_atomic hs _ k h _ _ (get_mq_run a q k Eq)). rewrite Ep.
  pstep (exec_free hs 0 k h h Hi eq_refl). by pstep E.
Qed.

Lemma mq_init_slots_entry pool n : forall i q,
  set_mq_entry 0 (mq_init_slots pool i n q) = mq_init_slots pool i n (set_mq_entry 0 q).
Proof. induction n as [|n IH]; intros i q; [done|]. cbn [mq_init_slots]. by rewrite IH. Qed.

Lemma new_mq_ok idle k a q name :
  kernel_ok idle 0 k -> (exists l, mq_abs q l) -> queue k (LSuspend (OMq a)) = [] ->
  kernel_ok idle 0 (put_mq a q (put_queue (LSuspend (OMq a)) [] (enlisted (OMq a) name k))).
Proof.
  intros Hk Hr Hq. apply (same_core_ok idle 0 k); auto.
  - split; try done. by apply (queue_put_nil (LSuspend (OMq a)) (enlisted (OMq a) name k)).
  - left. intros x b Ex. cbn in Ex. apply lookup_insert_Some in Ex as [[<- <-]|[_ Ex]]; [done|].
    by apply (ko_mqs _ _ _ Hk) in Ex.
Qed.

Lemma rt_mq_create_run idle hs k h bs name msg_size max_msgs flag raw words :
  dyn_ok idle hs k h bs -> valid_name name -> ipc_flag (u8 flag) ->
  0 <= msg_size < 65533 -> 0 <= max_msgs < 65536 ->
  (4 * ((msg_size + 3) / 4) + 4) * max_msgs <= 4294967292 ->
  (forall pool i, 0 <= i < max_msgs -> exists d, words pool !! slot_addr pool (4 * ((msg_size + 3) / 4)) i = Some d /\
     Z.of_nat (length d) = 4 * ((msg_size + 3) / 4)) ->
  create_buffer_spec idle hs k h bs name (rt_mq_create name msg_size max_msgs flag raw words) OMq
    ((4 * ((msg_size + 3) / 4) + 4) * max_msgs) (fun a pool k' =>
    exists q, k_mqs k' = <[a := q]> (k_mqs k) /\ mq_abs q [] /\ mq_msg_size q = 4 * ((msg_size + 3) / 4) /\
      mq_max_msgs q = max_msgs /\ mq_pool_addr q = pool).
Proof.
  intros Hd Hn Hf Hm Hx Hfit Hw. pose proof (dy_kernel _ _ _ _ _ Hd) as Hk.
  assert (Hal : u16 (RT_ALIGN (u32 msg_size) 4) = 4 * ((msg_size + 3) / 4)).
  { rewrite (u32_id msg_size) by lia. rewrite RT_ALIGN_4 by lia. mlia. }
  unfold rt_mq_create. rewrite Hal, (u16_id max_msgs) by lia.
  set (sz := 4 * ((msg_size + 3) / 4)) in *. assert (Hsz : 0 <= sz) by (unfold sz; mlia).
  assert (Hz : u32 ((sz + 4) * max_msgs) = (sz + 4) * max_msgs) by (apply u32_id; nia).
  set (q1 := set_mq_max_msgs max_msgs (set_mq_msg_size sz (set_mq_flag (u8 flag) raw))).
  set (q3 := fun p => set_mq_entry 0 (mq_init_slots p 0 (Z.to_nat max_msgs) (set_mq_next ∅ (set_mq_body (words p)
    (set_mq_head None (set_mq_tail None (set_mq_free None (set_mq_pool_addr p q1)))))))).
  assert (Hq3 : forall p, mq_abs (q3 p) [] /\ mq_msg_size (q3 p) = sz /\ mq_max_msgs (q3 p) = max_msgs /\ mq_pool_addr (q3 p) = p).
  { intros p. unfold q3. rewrite mq_init_slots_entry.
    match goal with |- context [mq_init_slots p 0 _ ?q] => destruct (mq_init_slots_abs p q) as [H1 H2]; try done end.
    { cbn. apply Hw. }
    cbn [mq_max_msgs set_mq_entry set_mq_next set_mq_body set_mq_head set_mq_tail set_mq_free set_mq_pool_addr q1 set_mq_max_msgs] in H1, H2.
    split; [exact H1|]. by rewrite H2. }
  destruct (create_buffer_run idle hs OMq name (u32 ((sz + 4) * max_msgs))
    (fun a => kmod (put_mq a (set_mq_flag (u8 flag) raw));; rt_ipc_object_init (OMq a);;
              mq_step a (fun q => Some (tt, set_mq_max_msgs max_msgs (set_mq_msg_size sz q))))
    (fun a p => mq_step a (fun q => Some (tt, set_mq_pool_addr p q)))
    (fun a p => mq_step a (fun q => Some (tt, set_mq_entry 0 (mq_init_slots p 0 (Z.to_nat max_msgs)
          (set_mq_next ∅ (set_mq_body (words p) (set_mq_head None (set_mq_tail None (set_mq_free None q)))))))))
    rt_mq_delete RT_EOK
    (fun a k1 => put_mq a q1 (put_queue (LSuspend (OMq a)) [] k1))
    (fun a p k1 => put_mq a (set_mq_pool_addr p q1) (put_queue (LSuspend (OMq a)) [] k1))
    (fun a p k1 => put_mq a (q3 p) (put_queue (LSuspend (OMq a)) [] k1))
    k h bs Hd Hn) as [(k' & h' & bs' & E & N)|(a & len & pool & len2 & h' & bs' & E & _ & Hl & C)]; try done; try lia.
  - intros a k1. unfold rt_ipc_object_init, list_head_init. do 2 mstep.
    change (put_queue ?q [] (put_mq a ?m k1)) with (put_mq a m (put_queue q [] k1)). by apply mq_step_put.
  - intros a p k1. by apply mq_step_put.
  - intros a p k1. by apply mq_step_put.
  - intros a k1 [_ _ U _]. eapply stores_trans; [by apply stores_nil|apply stores_put_mq].
  - intros a p k1 [_ _ U _]. eapply stores_trans; [by apply stores_nil|apply stores_put_mq].
  - intros a p k1 [_ _ U _]. eapply stores_trans; [by apply stores_nil|apply stores_put_mq].
  - intros a p k1. cbn -[q3]. rewrite lookup_insert_eq. by destruct (Hq3 p) as (_ & _ & _ & ->).
  - intros a [_ _ U _]. apply (same_core_ok idle 0 k); auto.
    + split; try done. by apply (queue_put_nil (LSuspend (OMq a)) (enlisted (OMq a) name k)).
    + left. intros y b Ey. cbn in Ey. rewrite delete_insert_eq in Ey. apply lookup_delete_Some in Ey as [_ Ey].
      by apply (ko_mqs _ _ _ Hk) in Ey.
  - intros a p [_ _ U _]. apply new_mq_ok; [done|exists []; apply Hq3|done].
  - intros a h1 s' [_ _ U _] Hi E. eapply rt_mq_delete_undo; [done|cbn; apply lookup_insert_eq|done| |done].
    transitivity (queue k (LSuspend (OMq a))); [by apply (queue_put_nil (LSuspend (OMq a)) (enlisted (OMq a) name k))|exact U].
  - left. eauto 10.
  - right. exists a, len, pool, len2. eexists _, h', bs'. split; [exact E|]. split; [done|]. split; [lia|].
    exists (q3 pool). split; [done|]. apply Hq3.
Qed.

Lemma rt_mq_delete_run idle hs a q k h bs :
  dyn_ok idle hs k h bs -> dynamic k (OMq a) -> k_mqs k !! a = Some q ->
  exists len len2 k' h' bs', exec hs (rt_mq_delete a) (HState k h) = Some (Done RT_EOK, HState k' h') /\
    deleted idle hs (OMq a) [(a, len); (mq_pool_addr q, len2)] k h bs k' h' bs'.
Proof.
  intros Hd Hdy Eq. pose proof Hd as [Hk Hi Hm _].
  destruct (cancel_run idle hs (LSuspend (OMq a)) k h bs Hd I ltac:(done)) as (k1 & E1 & Hd1 & C).
  pose proof (dynamic_cancelled _ _ _ _ C Hdy) as Hdy1. pose proof (ca_only _ _ _ C) as F. unfold core_only in F.
  assert (Eq1 : k_mqs k1 !! a = Some q) by (by rewrite F).
  assert (Hb : blocks_of k1 (OMq a) = [a; mq_pool_addr q]) by (cbn; by rewrite Eq1).
  pose proof Hd1 as [_ Hi1 Hm1 _].
  destruct (free_both_run hs (OMq a) a (mq_pool_addr q) k1 h bs Hi1 Hm1 ltac:(done) Hdy1 eq_refl Hb)
    as (len & len2 & h1 & h' & bs' & E3 & E4 & _ & W & G).
  exists len, len2, (forget (OMq a) (detached (OMq a) k1)), h', bs'. split.
  { unfold rt_mq_delete. pstep (exec_atomic hs _ k h _ _ (not_in_interrupt k (proj1 Hi))).
    pstep (exec_atomic hs _ k h _ _ E1). pstep (exec_atomic hs _ k1 h _ _ (get_mq_run a q k1 Eq1)). pstep E3. by pstep E4. }
  pose proof (mo_sender _ _ _ Hm (OMq a) ltac:(done)) as Hs.
  apply deleted_intro; try done; [by rewrite Hb|apply C|by rewrite (ca_lists _ _ _ C)|by rewrite F|apply C|..].
  - intros t [Ht|Ht]; [by apply (ca_woken _ _ _ C)|]. rewrite Hs in Ht. by apply not_elem_of_nil in Ht.
  - intros t Ht _. by apply (ca_threads _ _ _ C).
Qed.

(** ** Memory pools *)

Lemma mp_step_put {A} a f p (r : A) p' k : f p = Some (r, p') -> mp_step a f (put_mp a p k) = Some (r, put_mp a p' k).
Proof.
  intros E. erewrite mp_step_run; [|cbn; apply lookup_insert_eq|exact E]. unfold put_mp. cbn. by rewrite insert_insert_eq.
Qed.
Lemma stores_put_mp a p k : stores (OMp a) k (put_mp a p k).
Proof. split; try done; stored_elsewhere. Qed.

Lemma rt_mp_create_run idle hs k h bs name block_count block_size raw :
  dyn_ok idle hs k h bs -> valid_name name -> 0 <= block_size < 4294967288 -> 0 < block_count ->
  (RT_ALIGN block_size 4 + 4) * block_count <= 4294967292 ->
  create_buffer_spec idle hs k h bs name (rt_mp_create name block_count block_size raw) OMp
    ((RT_ALIGN block_size 4 + 4) * block_count) (fun a pool k' =>
    exists p, k_mps k' = <[a := p]> (k_mps k) /\ mp_ok a p (pool_blocks p) [] /\ mp_start p = pool /\
      mp_block_size p = RT_ALIGN block_size 4 /\ block_size <= mp_block_size p /\ mp_total p = block_count).
Proof.
  intros Hd Hn Hb Hc Hfit. pose proof (dy_kernel _ _ _ _ _ Hd) as Hk. unfold rt_mp_create.
  assert (Ha : block_size <= RT_ALIGN block_size 4 < block_size + 4)
    by (rewrite RT_ALIGN_4 by lia; Z.div_mod_to_equations; lia).
  set (bz := RT_ALIGN block_size 4) in *. clearbody bz.
  assert (Hcb : block_count < 4294967296) by nia.
  assert (Hz : u32 (u32 (bz + 4) * block_count) = (bz + 4) * block_count) by (rewrite (u32_id (bz + 4)) by lia; apply u32_id; nia).
  set (p1 := set_mp_size (u32 (u32 (bz + 4) * block_count)) (set_mp_block_size bz raw)).
  set (p3 := fun p => MemPool p (mp_size p1) (mp_block_size p1) (Some p) block_count block_count
    (mp_init_links p bz 0 (Z.to_nat block_count)) 0).
  destruct (create_buffer_run idle hs OMp name (u32 (u32 (bz + 4) * block_count))
    (fun a => kmod (put_mp a p1))
    (fun a p => mp_step a (fun m => Some (tt, set_mp_start p m)))
    (fun a p => list_head_init (LSuspend (OMp a));;
       mp_step a (fun m => Some (tt, MemPool p (mp_size m) (mp_block_size m) (Some p)
                block_count block_count (mp_init_links p bz 0 (Z.to_nat block_count)) 0)))
    (fun a => rt_object_delete (OMp a)) tt
    (fun a k1 => put_mp a p1 k1)
    (fun a p k1 => put_mp a (set_mp_start p p1) k1)
    (fun a p k1 => put_mp a (p3 p) (put_queue (LSuspend (OMp a)) [] k1))
    k h bs Hd Hn) as [(k' & h' & bs' & E & N)|(a & len & pool & len2 & h' & bs' & E & _ & Hl & C)]; try done; try lia.
  - rewrite Hz. nia.
  - intros a p k1. by apply mp_step_put.
  - intros a p k1. unfold list_head_init. mstep.
    change (put_queue ?q [] (put_mp a ?m k1)) with (put_mp a m (put_queue q [] k1)). by apply mp_step_put.
  - intros a k1 _. apply stores_put_mp.
  - intros a p k1 _. apply stores_put_mp.
  - intros a p k1 [_ _ U _]. eapply stores_trans; [by apply stores_nil|apply stores_put_mp].
  - intros a p k1. cbn -[p3]. by rewrite lookup_insert_eq.
  - intros a _. by apply (same_core_ok idle 0 k); auto.
  - intros a p [_ _ U _]. apply (same_core_ok idle 0 k); auto. split; try done.
    by apply (queue_put_nil (LSuspend (OMp a)) (enlisted (OMp a) name k)).
  - left. eauto 10.
  - right. exists a, len, pool, len2. eexists _, h', bs'. split; [exact E|]. split; [done|]. split; [lia|].
    exists (p3 pool). split; [done|]. split; [apply fresh_pool_ok; lia|]. split; [done|]. split; [done|]. split; [cbn; lia|done].
Qed.

(** ** All kinds of objects *)

(** C21. Creation of every kind of IPC object and of memory pools: when no call holds the heap
    and the kernel and the heap are in order, [rt_sem_create], [rt_mutex_create],
    [rt_event_create], [rt_mb_create], [rt_mq_create] and [rt_mp_create] return.  They give
    0 and leave no object, no entry in the container and no region of the heap behind, also
    when the control block was allocated and its buffer could not be; or they give the
    address of an object that is new, registered under its name, initialised and empty, in
    regions of the heap of its own that are large enough; the kernel and the heap stay in
    order. *)
Theorem object_create_atomic idle hs k h bs name flag :
  dyn_ok idle hs k h bs -> valid_name name -> ipc_flag (u8 flag) ->
  (forall value, create_spec idle hs k h bs name (rt_sem_create name value flag) OSem
     (fun a k' => k_sems k' = <[a := Sem (u8 flag) (u16 value)]> (k_sems k))) /\
  create_spec idle hs k h bs name (rt_mutex_create name flag) OMutex
    (fun a k' => k_mutexes k' = <[a := Mutex (u8 flag) 1 255 0 None]> (k_mutexes k)) /\
  create_spec idle hs k h bs name (rt_event_create name flag) OEvent
    (fun a k' => k_events k' = <[a := Event (u8 flag) 0]> (k_events k)) /\
  (forall size raw words, 0 < size < 65536 -> Z.of_nat (length words) = size ->
     create_buffer_spec idle hs k h bs name (rt_mb_create name size flag raw words) OMb (4 * size)
       (fun a pool k' => exists b, k_mbs k' = <[a := b]> (k_mbs k) /\ ring_ok b /\ mb_entry b = 0 /\
          mb_size b = size /\ mb_pool_addr b = pool)) /\
  (forall msg_size max_msgs raw words, let sz := 4 * ((msg_size + 3) / 4) in
     0 <= msg_size < 65533 -> 0 <= max_msgs < 65536 -> (sz + 4) * max_msgs <= 4294967292 ->
     (forall pool i, 0 <= i < max_msgs -> exists d, words pool !! slot_addr pool sz i = Some d /\ Z.of_nat (length d) = sz) ->
     create_buffer_spec idle hs k h bs name (rt_mq_create name msg_size max_msgs flag raw words) OMq ((sz + 4) * max_msgs)
       (fun a pool k' => exists q, k_mqs k' = <[a := q]> (k_mqs k) /\ mq_abs q [] /\ mq_msg_size q = sz /\
          mq_max_msgs q = max_msgs /\ mq_pool_addr q = pool)) /\
  (forall block_count block_size raw, let bz := RT_ALIGN block_size 4 in
     0 <= block_size < 4294967288 -> 0 < block_count -> (bz + 4) * block_count <= 4294967292 ->
     create_buffer_spec idle hs k h bs name (rt_mp_create name block_count block_size raw) OMp ((bz + 4) * block_count)
       (fun a pool k' => exists p, k_mps k' = <[a := p]> (k_mps k) /\ mp_ok a p (pool_blocks p) [] /\
          mp_start p = pool /\ mp_block_size p = bz /\ block_size <= mp_block_size p /\ mp_total p = block_count)).
Proof.
  intros Hd Hn Hf. split_and!.
  - intros value. by apply rt_sem_create_run.
  - by apply rt_mutex_create_run.
  - by apply rt_event_create_run.
  - intros size raw words Hs Hw. by apply rt_mb_create_run.
  - intros msg_size max_msgs raw words sz H1 H2 H3 H4. by apply rt_mq_create_run.
  - intros block_count block_size raw bz H1 H2 H3. by apply rt_mp_create_run.
Qed.

(** Deletion of the IPC objects on the heap: [rt_sem_delete], [rt_mutex_delete],
    [rt_event_delete], [rt_mb_delete] and [rt_mq_delete] of an object made by the
    corresponding [_create] function return [RT_EOK]; every thread that waits for the
    object, also to send, is ready with the error [-RT_ERROR], the others are as they were;
    the object is out of the container, the control block and the buffer, and nothing else,
    are back in the heap; the kernel and the heap stay in order. *)
Theorem object_delete_releases idle hs k h bs a :
  dyn_ok idle hs k h bs ->
  let gone p o rs := exists k' h' bs', exec hs p (HState k h) = Some (Done RT_EOK, HState k' h') /\
    deleted idle hs o rs k h bs k' h' bs' in
  (dynamic k (OSem a) -> exists len, gone (rt_sem_delete a) (OSem a) [(a, len)]) /\
  (dynamic k (OMutex a) -> exists len, gone (rt_mutex_delete a) (OMutex a) [(a, len)]) /\
  (dynamic k (OEvent a) -> exists len, gone (rt_event_delete a) (OEvent a) [(a, len)]) /\
  (dynamic k (OMb a) -> forall b, k_mbs k !! a = Some b -> exists len len2,
     gone (rt_mb_delete a) (OMb a) [(a, len); (mb_pool_addr b, len2)]) /\
  (dynamic k (OMq a) -> forall q, k_mqs k !! a = Some q -> exists len len2,
     gone (rt_mq_delete a) (OMq a) [(a, len); (mq_pool_addr q, len2)]).
Proof.
  intros Hd gone. split_and!; intros Hdy.
  - by apply (delete_ipc_run idle hs (OSem a) a).
  - by apply (delete_ipc_run idle hs (OMutex a) a).
  - by apply (delete_ipc_run idle hs (OEvent a) a).
  - intros b Eb. by apply rt_mb_delete_run.
  - intros q Eq. by apply rt_mq_delete_run.
Qed.
