(* ===== verification/Idle.v ===== *)
(** * Threads on the heap, and the idle thread (src/src/thread.c, idle.c)

    [rt_thread_create] takes the control block and the stack of a thread from the heap.  A
    thread that is deleted or ends is put into the list of closed threads, and the idle
    thread gives its stack and its control block back.  The theorems show that a thread is
    created whole or not at all, and that the idle thread gives back all that belongs to
    the closed threads, and nothing else. *)
From S2P Require Import Prelude KService Kernel Object Scheduler Timer Thread Frame Ipc.
From S2P Require Import Sem MutexLock EventSet Mailbox MsgQueue Mempool Mem Heap System Dynamic DynObjects.

(** ** Creation *)

(** The control block of a thread that is not started. *)
Definition new_thread (raw : rt_thread) (entry parameter stack_start stack_size priority tick : Z) : rt_thread :=
  {| th_stat := RT_THREAD_INIT; th_error := RT_EOK;
     th_current_priority := priority; th_init_priority := priority;
     th_number_mask := th_number_mask raw;
     th_event_set := th_event_set raw; th_event_info := th_event_info raw;
     th_init_tick := tick; th_remaining_tick := tick;
     th_entry := entry; th_parameter := parameter;
     th_stack_addr := stack_start; th_stack_size := u16 stack_size;
     th_cleanup := None; th_user_data := 0 |}.

(** The state with the thread [t], its timer and the timer's object. *)
Definition thread_made (t : Z) (th : rt_thread) (name : list Z) (k : kstate) : kstate :=
  let k1 := object_added (OTimer (TmThread t)) name (put_th t th k) in
  set_k_timers (<[TmThread t := Timer 0 (rt_thread_timeout_fn t) 0 0]> (k_timers k)) k1.

Lemma rt_thread_init_run t raw name entry parameter stack_start stack_size priority tick k :
  (forall h, t ∉ queue k h) -> 0 <= priority < RT_THREAD_PRIORITY_MAX -> valid_name name ->
  registered (OTimer (TmThread t)) k = false -> TmThread t ∉ k_timer_list k ->
  rt_thread_init_ t raw name entry parameter stack_start stack_size priority tick k =
    Some (RT_EOK, thread_made t (new_thread raw entry parameter stack_start stack_size priority tick) name k).
Proof.
  intros Hq Hp Hn Hr Hl. unfold rt_thread_init_. mstep.
  rewrite (proj2 (queued_false t k) Hq). mstep. destruct (Z.ltb_spec priority RT_THREAD_PRIORITY_MAX); [|lia].
  do 2 mstep. fold (new_thread raw entry parameter stack_start stack_size priority tick).
  unfold rt_timer_init. erewrite bind_run; [reflexivity|].
  erewrite bind_run; [|apply rt_object_init_run; [done|exact Hr]].
  unfold rt_timer_init_. by rewrite bool_decide_false.
Qed.

Lemma thread_made_core b bd idle k t th name :
  core b bd idle k -> k_threads k !! t = None -> thread_wf th -> th_stat th = RT_THREAD_INIT ->
  core b bd idle (thread_made t th name k).
Proof.
  intros [[[[H1 H2 H3 H4 H5 H6] [Q1 Q2 Q3 Q4 Q5 Q6 Q7 Q8]] Hi Hs] Hc] Hn Hwf Hst.
  assert (Hin : forall u thu, k_threads k !! u = Some thu -> (<[t := th]> (k_threads k)) !! u = Some thu)
    by (intros u thu E; rewrite lookup_insert_ne; [done|intros ->; by rewrite E in Hn]).
  assert (Hnl : TmThread t ∉ k_timer_list k).
  { intros Hl. destruct (Q6 t Hl) as (th' & E & _). congruence. }
  assert (Htm : forall x, x ∈ k_timer_list k -> (<[TmThread t := Timer 0 (rt_thread_timeout_fn t) 0 0]> (k_timers k)) !! x = k_timers k !! x)
    by (intros x Hx; apply lookup_insert_ne; intros <-; done).
  split; [split; [split|..]|].
  - split; try done.
    + intros h u Hu. destruct (H1 h u Hu) as (thu & E & Hh). exists thu. split; [by apply Hin|done].
    + intros u thu E Hr. cbn in E. rewrite lookup_insert in E. case_decide; [|by apply H4].
      simplify_eq. by rewrite Hst in Hr.
    + intros u thu E. cbn in E. rewrite lookup_insert in E. case_decide; [by simplify_eq|by eapply H6].
  - split; try done; cbn.
    + intros x Hx. rewrite Htm by done. by apply Q3.
    + eapply timers_sorted_ext; [|exact Q4]. exact Htm.
    + intros u thu E. rewrite lookup_insert in E. case_decide as Hd.
      * subst u. eexists. rewrite lookup_insert_eq. done.
      * rewrite lookup_insert_ne by congruence. by eapply Q5.
    + intros u Hu. destruct (Q6 u Hu) as (thu & E & Hsu). exists thu. split; [by apply Hin|done].
    + intros u thu tm E Etm Hsu Hac. rewrite lookup_insert in E. case_decide as Hd.
      * subst u. rewrite lookup_insert_eq in Etm. by simplify_eq.
      * rewrite lookup_insert_ne in Etm by congruence. by eapply Q7.
    + intros x tm Etm. rewrite lookup_insert in Etm. case_decide; [simplify_eq; by split|by eapply Q8].
  - destruct Hi as (thi & Ei & Hsi). exists thi. split; [by apply Hin|done].
  - done.
  - destruct Hc as (c & thc & Ec & Ecc & Hsc). exists c, thc. split; [done|]. split; [by apply Hin|done].
Qed.

Lemma thread_made_ok idle n k t th name :
  kernel_ok idle n k -> k_threads k !! t = None -> thread_wf th -> th_stat th = RT_THREAD_INIT ->
  kernel_ok idle n (thread_made t th name k).
Proof.
  intros Hk Hn Hwf Hst. pose proof (ko_core _ _ _ Hk) as Hc.
  apply (kernel_ok_step idle n no_growth k); try done; try (right; split; [by intros ? ? _ []|done]).
  - by apply thread_made_core.
  - split; try (by eauto).
    + intros h u thu Hh Hu _ E. exists thu. cbn in E. rewrite lookup_insert_ne in E; [done|]. intros <-.
      destruct (wf_home k (proj1 (c_inv (c_core0 Hc))) h t Hu) as (? & ? & _). congruence.
    + intros u thu E Hs. exists thu. cbn. rewrite lookup_insert_ne; [done|]. intros ->. congruence.
    + intros u (thu & E & Hs). left. exists thu. cbn in E. rewrite lookup_insert in E. case_decide; [|done].
      simplify_eq. by rewrite Hst in Hs.
Qed.

Lemma registered_added o o' name k : o' <> o -> registered o' (object_added o name k) = registered o' k.
Proof.
  intros Hne. unfold object_added. rewrite registered_put. case_decide as E; [|done].
  unfold registered. rewrite E. apply bool_decide_ext. set_solver.
Qed.

(** Nothing is known of the timer inside a thread that is not there. *)
Lemma unused_timer k h bs t : mem_ok k h bs -> k_objs k !! OThread t = None ->
  k_objs k !! OTimer (TmThread t) = None /\ unused k (OTimer (TmThread t)).
Proof.
  intros Hm Hn. assert (E : k_objs k !! OTimer (TmThread t) = None).
  { destruct (k_objs k !! OTimer (TmThread t)) eqn:E; [|done]. exfalso.
    destruct (mo_timer _ _ _ Hm t) as [? E']; [by rewrite E|congruence]. }
  split; [done|]. by apply (mo_known _ _ _ Hm).
Qed.

Lemma thread_made_mem k h bs a len stack len2 th name h' bs' :
  mem_ok k h bs -> grown h bs [(a, len); (stack, len2)] h' bs' -> 128 <= len -> k_objs k !! OThread a = None ->
  th_stack_addr th = stack -> mem_ok (thread_made a th name (enlisted (OThread a) name k)) h' bs'.
Proof.
  intros Hm G Hl Hn Es. destruct (unused_timer k h bs a Hm Hn) as [Hnt _].
  set (k3 := thread_made a th name (enlisted (OThread a) name k)).
  assert (Ho : forall o, o <> OThread a -> o <> OTimer (TmThread a) -> k_objs k3 !! o = k_objs k !! o)
    by (intros o H1 H2; cbn; by rewrite !lookup_insert_ne).
  apply (mem_ok_add k h bs k3 h' bs' (OThread a) a len [(stack, len2)]); try done.
  - eapply (dynamic_class (OThread a)). cbn. rewrite lookup_insert_ne by done. apply lookup_insert_eq.
  - cbn. by rewrite lookup_insert_eq, Es.
  - intros o' Hne [x Hx]. apply Ho; [done|]. by intros ->.
  - intros [u| [|] | | | | | | |] Hne; try done. cbn. by rewrite lookup_insert_ne by congruence.
  - intros o' Hnone. assert (o' <> OThread a) as H1.
    { intros ->. cbn in Hnone. by rewrite lookup_insert_ne, lookup_insert_eq in Hnone. }
    assert (o' <> OTimer (TmThread a)) as H2 by (intros ->; cbn in Hnone; by rewrite lookup_insert_eq in Hnone).
    rewrite Ho in Hnone by done. destruct (mo_known _ _ _ Hm o' Hnone) as [U1 U2 U3 U4]. split; [|..|done|done].
    + intros Hst. apply U1. destruct o' as [u|x| | | | | | |]; cbn in Hst; try done; by rewrite lookup_insert_ne in Hst by congruence.
    + rewrite <-U2, <-(registered_enlisted (OThread a) o' name k H1).
      apply (registered_added (OTimer (TmThread a)) o' name (put_th a th (enlisted (OThread a) name k)) H2).
  - intros t Ht. destruct (decide (t = a)) as [->|Hne].
    { cbn. rewrite lookup_insert_ne by done. by rewrite lookup_insert_eq. }
    rewrite Ho in Ht by congruence. rewrite Ho by congruence. by apply (mo_timer _ _ _ Hm).
  - intros t (ob & E & Hz). destruct (decide (t = a)) as [->|Hne].
    { cbn in E. rewrite lookup_insert_eq in E. by simplify_eq. }
    rewrite Ho in E by congruence. apply (mo_embedded _ _ _ Hm t). by exists ob.
Qed.

Section Create.
Context (idle hs : Z) (k : kstate) (h : heap) (bs : list blk).
Context (Hd : dyn_ok idle hs k h bs).

(** The way back of [rt_thread_create]. *)
Lemma thread_undo_run a len name h1 bs1 :
  grown h bs [(a, len)] h1 bs1 -> k_objs k !! OThread a = None ->
  exists k' h' bs', exec hs (rt_object_delete (OThread a)) (HState (enlisted (OThread a) name k) h1) =
      Some (Done tt, HState k' h') /\ nothing_new idle hs k h bs k' h' bs'.
Proof.
  intros G Hn. pose proof Hd as [Hk Hi Hm _]. destruct (unused_timer k h bs a Hm Hn) as [Hnt Hut].
  assert (Hth : k_threads k !! a = None).
  { apply eq_None_not_Some. apply (un_stored _ _ (mo_known _ _ _ Hm _ Hn)). }
  assert (Htm : k_timers k !! TmThread a = None) by (apply eq_None_not_Some; apply (un_stored _ _ Hut)).
  set (k1 := enlisted (OThread a) name k). exists (forget (OThread a) (detached (OThread a) k1)).
  assert (Et : k_threads (forget (OThread a) (detached (OThread a) k1)) = k_threads k) by (cbn; by apply delete_id).
  apply (undo_any idle hs (OThread a) name a len k h bs h1 bs1 k1); try done.
  - apply (same_core_ok idle 0 k); auto. split; try done. cbn. by apply delete_id.
  - cbn. rewrite delete_insert_id by done. by apply delete_id.
  - cbn. by rewrite Hth.
  - cbn. by rewrite lookup_delete_eq.
Qed.

Lemma rt_thread_create_run raw name entry parameter stack_size priority tick :
  valid_name name -> 0 <= stack_size <= 4294967292 -> 0 <= priority < RT_THREAD_PRIORITY_MAX ->
  create_buffer_spec idle hs k h bs name (rt_thread_create raw name entry parameter stack_size priority tick) OThread
    stack_size (fun a stack k' =>
      k_threads k' = <[a := new_thread raw entry parameter stack stack_size priority tick]> (k_threads k)).
Proof.
  intros Hn Hs Hp. pose proof Hd as [Hk Hi Hm [Hks Hns]]. pose proof (ko_core _ _ _ Hk) as Hc.
  unfold create_buffer_spec, rt_thread_create.
  destruct (rt_object_allocate_run hs OThread name k h bs Hi Hm Hn) as [E|(a & len & h1 & bs1 & H0 & Hl & G & Hf & E)]; try done.
  { pstep E. left. exists k, h, bs. split; [done|]. split; try done. by apply grown_refl, Hm. }
  pstep E. destruct (Z.eqb_spec a 0) as [|_]; [done|]. set (k1 := enlisted (OThread a) name k) in *.
  assert (Hi1 : heap_idle hs k1) by done.
  destruct (heap_malloc_grown h1 bs1 stack_size (gr_heap _ _ _ _ _ G) Hs) as [E2|(st & len2 & h2 & bs2 & E2 & Hp0 & Hl2 & G2)];
    pstep (exec_malloc hs _ k1 h1 _ _ Hi1 E2).
  { destruct (thread_undo_run a len name h1 bs1 G Hf) as (k' & h' & bs' & Ed & N). left. exists k', h', bs'.
    split; [|done]. cbn [Z.eqb]. by pstep Ed. }
  destruct (Z.eqb_spec st 0) as [|_]; [done|]. destruct (unused_timer k h bs a Hm Hf) as [_ Hut].
  assert (Hth : k_threads k !! a = None).
  { apply eq_None_not_Some. apply (un_stored _ _ (mo_known _ _ _ Hm _ Hf)). }
  set (th := new_thread raw entry parameter st stack_size priority tick).
  assert (Ei : rt_thread_init_ a raw name entry parameter st stack_size priority tick k1 = Some (RT_EOK, thread_made a th name k1)).
  { apply rt_thread_init_run; try done.
    - intros q Hq. destruct (wf_home k (proj1 (c_inv (c_core0 Hc))) q a Hq) as (? & ? & _). congruence.
    - rewrite <-(un_linked _ _ Hut). by apply registered_enlisted.
    - intros Hq. destruct (tw_waiting _ _ _ (proj2 (c_inv (c_core0 Hc))) a Hq) as (? & ? & _). congruence. }
  assert (Hwf : thread_wf th) by (split; [done|]; split; [done|]; split; [by left|by intros []]).
  assert (G' : grown h bs [(a, len); (st, len2)] h2 bs2).
  { eapply (grown_perm _ _ ([(st, len2)] ++ [(a, len)])); [by apply Permutation_swap|]. by eapply grown_app. }
  right. exists a, len, st, len2, (thread_made a th name k1), h2, bs2.
  pstep (exec_atomic hs _ k1 h2 _ _ Ei). split; [done|]. split; [|done].
  split; try done.
  - split; [|done|by eapply thread_made_mem|].
    + apply thread_made_ok; try done. by apply (same_core_ok idle 0 k); auto.
    + unfold dynamic. cbn. by rewrite !lookup_insert_ne.
  - change (registered (OThread a) (object_added (OTimer (TmThread a)) name (put_th a th k1)) = true).
    rewrite registered_added by done. unfold registered, objects. cbn. rewrite lookup_insert_eq.
    apply bool_decide_true. set_solver.
  - cbn. rewrite lookup_insert_ne by done. apply lookup_insert_eq.
Qed.
End Create.

(** ** A closed thread goes *)

(** The state after the closed thread [t] was taken from its list and deleted. *)
Definition thread_gone (t : Z) (k : kstate) : kstate := forget (OThread t) (detached (OThread t) (dequeue t k)).

Lemma queue_gone t k q : queue (thread_gone t k) q = filter (fun x => x <> t) (queue k q).
Proof. apply (queue_dequeue t k q). Qed.

Lemma thread_gone_core b bd idle k t th :
  core b bd idle k -> k_threads k !! t = Some th -> th_stat th = RT_THREAD_CLOSE -> core b bd idle (thread_gone t k).
Proof.
  intros [[[Hwf [Q1 Q2 Q3 Q4 Q5 Q6 Q7 Q8]] Hi Hs] Hc] E Hst. pose proof Hwf as [H1 H2 H3 H4 [H5 H5'] H6].
  assert (Hr : forall u thu, is_ready k u thu -> is_ready (thread_gone t k) u thu).
  { intros u thu [Eu Hu]. split; [|done]. cbn. rewrite lookup_delete_ne; [done|]. intros ->.
    assert (thu = th) as -> by congruence. by rewrite Hst in Hu. }
  assert (Hnl : forall x, x ∈ k_timer_list k -> x <> TmThread t).
  { intros x Hx ->. destruct (Q6 t Hx) as (th' & E' & Hs'). assert (th' = th) as -> by congruence. by rewrite Hst in Hs'. }
  assert (Htm : forall x, x <> TmThread t -> k_timers (thread_gone t k) !! x = k_timers k !! x)
    by (intros x Hx; cbn; by rewrite lookup_delete_ne).
  assert (Hne : forall u thu, k_threads (thread_gone t k) !! u = Some thu -> u <> t /\ k_threads k !! u = Some thu).
  { intros u thu Eu. cbn in Eu. apply lookup_delete_Some in Eu as [? ?]. auto. }
  split; [split; [split|..]|].
  - split.
    + intros q u Hu. rewrite queue_gone in Hu. apply list_elem_of_filter in Hu as [Hu Hin].
      destruct (H1 q u Hin) as (thu & Eu & Hh). exists thu. split; [|done]. cbn. by rewrite lookup_delete_ne.
    + intros q. rewrite queue_gone. by apply list.NoDup_filter.
    + intros q1 q2 u. rewrite !queue_gone, !list_elem_of_filter. intros [_ ?] [_ ?]. by eapply H3.
    + intros u thu [Hu Eu]%Hne Hs'. rewrite queue_gone. apply list_elem_of_filter. split; [done|]. by apply H4.
    + split; [done|]. intros p Hp. change (k_group (thread_gone t k)) with (k_group k).
      rewrite queue_gone, filter_ne_id; [by apply H5'|]. eapply wf_not_ready; [done|done|]. by rewrite Hst.
    + intros u thu [_ Eu]%Hne. by eapply H6.
  - split; try done.
    + intros x Hx. rewrite Htm by (by apply Hnl). by apply Q3.
    + eapply timers_sorted_ext; [|exact Q4]. intros x Hx. apply Htm. by apply Hnl.
    + intros u thu [Hu Eu]%Hne. rewrite Htm by congruence. by eapply Q5.
    + intros u Hu. destruct (Q6 u Hu) as (thu & Eu & Hsu). exists thu. split; [|done]. cbn. rewrite lookup_delete_ne; [done|].
      intros ->. by apply Hnl in Hu.
    + intros u thu tm [Hu Eu]%Hne Etm. rewrite Htm in Etm by congruence. by eapply Q7.
    + intros x tm Etm. cbn in Etm. apply lookup_delete_Some in Etm as [_ Etm]. by eapply Q8.
  - destruct Hi as (thi & Hri). exists thi. by apply Hr.
  - done.
  - destruct Hc as (c & thc & Ec & Hrc). exists c, thc. split; [done|]. by apply Hr.
Qed.

(** No mutex belongs to the thread [t]. *)
Definition owns_nothing (k : kstate) (t : Z) : Prop := forall a m, k_mutexes k !! a = Some m -> mx_owner m <> Some t.

Lemma thread_gone_ok idle n k t th :
  kernel_ok idle n k -> k_threads k !! t = Some th -> th_stat th = RT_THREAD_CLOSE -> owns_nothing k t ->
  kernel_ok idle n (thread_gone t k).
Proof.
  intros [Hc H1 H2 H3 H4 H5 H6 H7] E Hst Ho. split; try done.
  - by eapply thread_gone_core.
  - intros a s Es. destruct (H1 a s Es) as (? & ? & Hq). split; [done|]. split; [done|]. intros Hv.
    by rewrite queue_gone, Hq.
  - intros a m Em. destruct (H2 a m Em) as (Hf & Hm). split; [done|]. specialize (Ho a m Em).
    destruct (mx_owner m) as [o|].
    + destruct Hm as (? & ? & ? & tho & Eo & Hs). repeat (split; [done|]). exists tho. split; [|done]. cbn.
      rewrite lookup_delete_ne; [done|]. congruence.
    + destruct Hm as (? & ? & Hq). repeat (split; [done|]). by rewrite queue_gone, Hq.
  - intros a e Ee. destruct (H3 a e Ee) as (? & ? & Hn). split; [done|]. split; [done|]. intros u thu Hu Eu.
    rewrite queue_gone in Hu. apply list_elem_of_filter in Hu as [Hu Hin]. cbn in Eu. rewrite lookup_delete_ne in Eu by done.
    by eapply Hn.
Qed.

(** ** The loop of the idle thread *)

Section Loop.
Context (cleanup_fn : Z -> Z -> M unit).

(** A closed thread the idle thread can clean up: it is on the heap, its timer is out of the
    container, it holds no mutex, and its cleanup function, if any, leaves the kernel
    alone. *)
Record reclaimable (k : kstate) (t : Z) : Prop := {
  rc_thread : exists th, k_threads k !! t = Some th /\
    forall f, th_cleanup th = Some f -> forall k0, cleanup_fn f t k0 = Some (tt, k0);
  rc_dynamic : dynamic k (OThread t);
  rc_timer : registered (OTimer (TmThread t)) k = false;
  rc_mutex : owns_nothing k t
}.

Lemma idle_take_run k t l : queue k LDefunct = t :: l -> reclaimable k t ->
  idle_take cleanup_fn k = Some (Some t, dequeue t k).
Proof.
  intros Eq [(th & E & Hcl) (ob & Eo & Hz) _ _]. unfold idle_take, list_isempty, list_first.
  erewrite bind_run; [|reflexivity]. rewrite Eq. erewrite bind_run; [|by rewrite Eq].
  mstep_by (tlist_remove_run t k). erewrite bind_run; [|apply get_thread_run; exact E].
  erewrite bind_run with (k' := dequeue t k) (a := tt).
  - unfold rt_object_is_systemobject. erewrite bind_run; [|cbn; by rewrite Eo]. by rewrite Hz.
  - destruct (th_cleanup th) as [f|]; [by apply Hcl|done].
Qed.

Lemma dequeue_mem_ok k h bs t : mem_ok k h bs -> mem_ok (dequeue t k) h bs.
Proof.
  intros Hm. apply (mem_ok_same k); try done.
  - intros o [U1 U2 U3 U4]. split; [done|done|by rewrite queue_dequeue, U3|by rewrite queue_dequeue, U4].
  - intros q _ Hq. by rewrite queue_dequeue, Hq.
Qed.

(** A turn of the loop. *)
Lemma idle_turn idle hs k h bs t l th :
  dyn_ok idle hs k h bs -> queue k LDefunct = t :: l -> reclaimable k t -> k_threads k !! t = Some th ->
  exists len len2 h1 h' bs',
    exec hs (free (th_stack_addr th)) (HState (dequeue t k) h) = Some (Done tt, HState (dequeue t k) h1) /\
    exec hs (rt_object_delete (OThread t)) (HState (dequeue t k) h1) = Some (Done tt, HState (thread_gone t k) h') /\
    dyn_ok idle hs (thread_gone t k) h' bs' /\ grown h' bs' [(t, len); (th_stack_addr th, len2)] h bs.
Proof.
  intros Hd Eq Hr E. pose proof Hd as [Hk Hi Hm [Hks Hns]]. pose proof (ko_core _ _ _ Hk) as Hc.
  destruct (wf_home k (proj1 (c_inv (c_core0 Hc))) LDefunct t) as (th' & E' & Hst); [rewrite Eq; by left|].
  assert (th' = th) as -> by congruence. cbn in Hst.
  assert (Hi1 : heap_idle hs (dequeue t k)).
  { destruct Hi as (H1 & H2 & H3). split; [done|]. split; [by rewrite queue_dequeue, H2|done]. }
  pose proof (dequeue_mem_ok k h bs t Hm) as Hm1.
  assert (Hb : blocks_of (dequeue t k) (OThread t) = [t; th_stack_addr th]) by (cbn; by rewrite E).
  destruct (free_both_run hs (OThread t) t (th_stack_addr th) (dequeue t k) h bs Hi1 Hm1 ltac:(done) (rc_dynamic _ _ Hr)
    eq_refl Hb) as (len & len2 & h1 & h' & bs' & E1 & E2 & Hi' & W & G).
  exists len, len2, h1, h', bs'. split; [done|]. split; [done|]. split; [|done]. split.
  - by eapply thread_gone_ok; [..|apply Hr].
  - done.
  - eapply (forgotten_mem_ok (dequeue t k) h bs); try done.
    + apply Hr.
    + by rewrite Hb.
    + apply (mo_suspend _ _ _ Hm1). by intros [].
    + apply (mo_sender _ _ _ Hm1). done.
    + intros u [= <-]. apply Hr.
  - unfold dynamic. cbn. by rewrite !lookup_delete_ne.
Qed.

(** What goes for one thread leaves the others as they were. *)
Lemma reclaimable_gone k t u : t <> u -> reclaimable k u -> reclaimable (thread_gone t k) u.
Proof.
  intros Hne [(th & E & Hcl) (ob & Eo & Hz) Ht Hm]. split.
  - exists th. split; [|done]. cbn. by rewrite lookup_delete_ne.
  - exists ob. split; [|done]. cbn. by rewrite !lookup_delete_ne by congruence.
  - rewrite <-Ht. change (registered (OTimer (TmThread u)) (detached (OThread t) (dequeue t k)) = registered (OTimer (TmThread u)) k).
    by rewrite registered_detached, decide_False.
  - done.
Qed.
Lemma blocks_gone k t l : t ∉ l ->
  (l ≫= fun u => blocks_of (thread_gone t k) (OThread u)) = (l ≫= fun u => blocks_of k (OThread u)).
Proof.
  induction l as [|u l IH]; intros Hn; [done|]. rewrite !bind_cons, IH by set_solver. f_equal. cbn.
  by rewrite lookup_delete_ne by set_solver.
Qed.

Lemma idle_loop_run idle hs l : forall k h bs,
  dyn_ok idle hs k h bs -> queue k LDefunct = l -> (forall t, t ∈ l -> reclaimable k t) ->
  exists rs k' h' bs',
    exec hs (rt_thread_idle_excute cleanup_fn (length l)) (HState k h) = Some (Done tt, HState k' h') /\
    dyn_ok idle hs k' h' bs' /\ queue k' LDefunct = [] /\ grown h' bs' rs h bs /\
    rs.*1 ≡ₚ (l ≫= fun t => blocks_of k (OThread t)) /\
    forall t, k_threads k' !! t = if decide (t ∈ l) then None else k_threads k !! t.
Proof.
  induction l as [|t l IH]; intros k h bs Hd Eq Hr; cbn [length rt_thread_idle_excute].
  - exists [], k, h, bs. erewrite exec_then; [|by apply exec_atomic]. rewrite Eq. split; [done|]. split; [done|].
    split; [done|]. split; [by apply grown_refl, (dy_mem _ _ _ _ _ Hd)|]. split; [done|]. done.
  - pose proof (Hr t ltac:(by left)) as Hrt. pose proof (rc_thread _ _ Hrt) as (th & E & _).
    pose proof (wf_nodup k (proj1 (c_inv (c_core0 (ko_core _ _ _ (dy_kernel _ _ _ _ _ Hd))))) LDefunct) as Hnd.
    rewrite Eq in Hnd. apply list.NoDup_cons in Hnd as [Hnt Hnd].
    destruct (idle_turn idle hs k h bs t l th Hd Eq Hrt E) as (len & len2 & h1 & h2 & bs2 & E1 & E2 & Hd2 & G).
    assert (Eq2 : queue (thread_gone t k) LDefunct = l).
    { rewrite queue_gone, Eq, filter_cons_False by tauto. by apply filter_ne_id. }
    destruct (IH (thread_gone t k) h2 bs2 Hd2 Eq2) as (rs & k' & h' & bs' & E3 & Hd' & Eq' & G' & Hrs & Hth).
    { intros u Hu. apply reclaimable_gone; [by intros ->|]. apply Hr. by right. }
    exists ([(t, len); (th_stack_addr th, len2)] ++ rs), k', h', bs'. split.
    { erewrite exec_then; [|by apply exec_atomic]. rewrite Eq. cbv beta iota.
      pstep (exec_atomic hs _ k h _ _ (not_in_interrupt k (proj1 (dy_idle _ _ _ _ _ Hd)))).
      pstep (exec_atomic hs _ k h _ _ (idle_take_run k t l Eq Hrt)). cbv beta iota.
      pstep (exec_atomic hs _ (dequeue t k) h _ _ (get_thread_run t th (dequeue t k) E)). pstep E1. pstep E2. exact E3. }
    split; [done|]. split; [done|]. split; [by eapply grown_app|]. split.
    + rewrite bind_cons, fmap_app, Hrs, blocks_gone by done. cbn. by rewrite E.
    + intros u. rewrite Hth. cbn. destruct (decide (u = t)) as [->|Hne].
      * rewrite lookup_delete_eq, (decide_True (P := t ∈ t :: l)) by (by left). by case_decide.
      * rewrite lookup_delete_ne by done. apply decide_ext. rewrite elem_of_cons. tauto.
Qed.
End Loop.

(** [rt_thread_create] makes a thread whole or not at all: it returns 0 and leaves
    nothing behind when the control block or the stack cannot be allocated; else it returns
    a new thread with its timer, not started, registered under its name, with the entry,
    the priority and the time slice asked for and a stack of at least the size asked for,
    and the kernel and the heap stay in order. *)
Theorem rt_thread_create_whole idle hs k h bs raw name entry parameter stack_size priority tick :
  dyn_ok idle hs k h bs -> valid_name name -> 0 <= stack_size <= 4294967292 ->
  0 <= priority < RT_THREAD_PRIORITY_MAX ->
  create_buffer_spec idle hs k h bs name (rt_thread_create raw name entry parameter stack_size priority tick) OThread
    stack_size (fun a stack k' =>
      k_threads k' = <[a := new_thread raw entry parameter stack stack_size priority tick]> (k_threads k)).
Proof. intros Hd. by apply rt_thread_create_run. Qed.

(** C22. The idle thread cleans up: when the closed threads are on the heap, out of the timer
    container and without mutexes, as [rt_thread_delete] and [rt_thread_exit] leave a
    thread that holds no mutex, one call of [rt_thread_idle_excute] returns, after one turn
    of its loop for each; the list of closed threads is empty, their control blocks and
    stacks are back in the heap, each once, and nothing else is; the other threads are as
    they were, and the kernel and the heap stay in order. *)
Theorem rt_thread_idle_excute_cleans cleanup_fn idle hs k h bs :
  dyn_ok idle hs k h bs -> (forall t, t ∈ queue k LDefunct -> reclaimable cleanup_fn k t) ->
  exists rs k' h' bs',
    exec hs (rt_thread_idle_excute cleanup_fn (length (queue k LDefunct))) (HState k h) = Some (Done tt, HState k' h') /\
    dyn_ok idle hs k' h' bs' /\ queue k' LDefunct = [] /\ grown h' bs' rs h bs /\
    rs.*1 ≡ₚ (queue k LDefunct ≫= fun t => blocks_of k (OThread t)) /\
    forall t, k_threads k' !! t = if decide (t ∈ queue k LDefunct) then None else k_threads k !! t.
Proof. intros Hd Hr. by apply idle_loop_run. Qed.
