(* ===== verification/Completion.v ===== *)
(** * Completions (src/components/drivers/src/completion.c)

    A driver waits for an operation that an interrupt handler finishes: one thread waits, and
    [rt_completion_done] lets it go on or, when nobody waits, is remembered.  The theorems
    show what each function does to the three states a completion can be in. *)
From S2P Require Import Prelude KService Kernel Object Scheduler Timer Thread Frame Ipc.

Definition RT_COMPLETED : Z := 1.
Definition RT_UNCOMPLETED : Z := 0.

Definition get_cp (a : Z) : M rt_completion := fun k => c ← k_comps k !! a; Some (c, k).
Definition put_cp (a : Z) (c : rt_completion) (k : kstate) : kstate := set_k_comps (<[a := c]> (k_comps k)) k.
Definition set_cp_flag (a v : Z) : M unit := _ ← get_cp a; kmod (put_cp a (Completion v)).

(** [suspended_list], behind the flag. *)
Definition cp_list (a : Z) : lhead := LWait (a + 4).

(** [rt_completion_init]. *)
Definition rt_completion_init (a : Z) : M unit :=
  kmod (put_cp a (Completion RT_UNCOMPLETED));;
  list_head_init (cp_list a).

(** [rt_completion_wait] after the wait. *)
Definition rt_completion_wait_resume (t a : Z) : M Z :=
  th ← get_thread t;
  set_cp_flag a RT_UNCOMPLETED;;
  mret (th_error th).

(** [rt_completion_wait]. *)
Definition rt_completion_wait (a timeout : Z) : M (wait Z) :=
  cur ← rt_thread_self;
  c ← get_cp a;
  if negb (cp_flag c =? RT_COMPLETED) then
    e ← list_isempty (cp_list a);
    rt_assert e;;
    if timeout =? 0 then mret (Ret (- RT_ETIMEOUT))
    else
      t ← deref cur;
      mod_thread t (set_th_error RT_EOK);;
      rt_thread_suspend t;;
      tlist_insert_before (cp_list a) t;;
      RT_DEBUG_NOT_IN_INTERRUPT;;
      (if 0 <? timeout then start_thread_timer t timeout else mret tt);;
      schedule_then t (FCompletion a) (r ← rt_completion_wait_resume t a; mret (Ret r))
  else mret (Ret RT_EOK).

(** [rt_completion_done]. *)
Definition rt_completion_done (a : Z) : M unit :=
  c ← get_cp a;
  if cp_flag c =? RT_COMPLETED then mret tt
  else
    set_cp_flag a RT_COMPLETED;;
    e ← list_isempty (cp_list a);
    if negb e then
      t ← list_first (cp_list a);
      rt_thread_resume t;;
      rt_schedule
    else mret tt.

(** ** The states of a completion *)

(** Nothing has happened yet, the operation is done, or a thread waits for it. *)
Inductive cstate := CIdle | CDone | CWaited (t : Z).

(** The state of a control block with its list; at most one thread waits, and none for an
    operation that is done. *)
Definition cp_abs (k : kstate) (a : Z) : option cstate :=
  c ← k_comps k !! a;
  match queue k (cp_list a) with
  | [] => if cp_flag c =? RT_COMPLETED then Some CDone else if cp_flag c =? RT_UNCOMPLETED then Some CIdle else None
  | [t] => if cp_flag c =? RT_UNCOMPLETED then Some (CWaited t) else None
  | _ => None
  end.

(** ** Lemmas *)

Lemma get_cp_run a c k : k_comps k !! a = Some c -> get_cp a k = Some (c, k).
Proof. intros E. unfold get_cp. by rewrite E. Qed.
Lemma set_cp_flag_run a c v k : k_comps k !! a = Some c -> set_cp_flag a v k = Some (tt, put_cp a (Completion v) k).
Proof. intros E. unfold set_cp_flag. by rewrite (bind_run _ _ _ _ _ (get_cp_run _ _ _ E)). Qed.

Lemma put_cp_core b bd idle a c k : core b bd idle k -> core b bd idle (put_cp a c k).
Proof.
  intros [[[Hwf Hw] Hi Hs] Hcur]. split; [split; [split|..]|]; try done;
    [by apply (sched_wf_ext k)|by apply (timer_wf_ext b bd k)].
Qed.

Lemma cp_abs_inv k a s : cp_abs k a = Some s -> exists c, k_comps k !! a = Some c /\
  match s with
  | CIdle => cp_flag c = RT_UNCOMPLETED /\ queue k (cp_list a) = []
  | CDone => cp_flag c = RT_COMPLETED /\ queue k (cp_list a) = []
  | CWaited t => cp_flag c = RT_UNCOMPLETED /\ queue k (cp_list a) = [t]
  end.
Proof.
  unfold cp_abs. destruct (k_comps k !! a) as [c|]; [|done]. cbn. intros H. exists c. split; [done|].
  destruct (queue k (cp_list a)) as [|t [|? ?]]; [| |done].
  - destruct (Z.eqb_spec (cp_flag c) RT_COMPLETED); [by injection H as <-|].
    destruct (Z.eqb_spec (cp_flag c) RT_UNCOMPLETED); [by injection H as <-|done].
  - destruct (Z.eqb_spec (cp_flag c) RT_UNCOMPLETED); [by injection H as <-|done].
Qed.

Lemma cp_abs_done k a c : k_comps k !! a = Some c -> cp_flag c = RT_COMPLETED -> queue k (cp_list a) = [] ->
  cp_abs k a = Some CDone.
Proof. intros E Hf Hq. unfold cp_abs. rewrite E, Hq. cbn. by rewrite Hf. Qed.

(** ** Waiting *)

(** The sequence of calls with which the drivers' objects suspend a thread is the one of the
    IPC objects, in order of arrival. *)
Lemma fifo_wait_ipc {A} h t time (f : unit -> M A) k :
  (rt_thread_suspend t;; tlist_insert_before h t;;
   (if 0 <? time then start_thread_timer t time else mret tt) ≫= f) k =
  (ipc_wait h t RT_IPC_FLAG_FIFO time ≫= f) k.
Proof.
  unfold ipc_wait, rt_ipc_list_suspend, mbind, M_bind, mret, M_ret. cbn.
  destruct (rt_thread_suspend t k) as [[r k1]|]; [|done].
  by destruct (tlist_insert_before h t k1) as [[[] k2]|].
Qed.

(** Resuming the first thread of a list is [rt_ipc_list_resume]. *)
Lemma fifo_wake_ipc {A} h (m : M A) k :
  (t ← list_first h; rt_thread_resume t;; m) k = (rt_ipc_list_resume h;; m) k.
Proof.
  unfold rt_ipc_list_resume, mbind, M_bind, mret, M_ret. destruct (list_first h k) as [[t k1]|]; [|done].
  by destruct (rt_thread_resume t k1) as [[r k2]|].
Qed.

(** [RT_DEBUG_NOT_IN_INTERRUPT] changes nothing after a thread has been put into a list. *)
Lemma not_in_interrupt_between {A} h t th (m : M A) k :
  sched_wf k -> is_ready k t th -> k_int_nest k = 0 ->
  (rt_thread_suspend t;; tlist_insert_before h t;; RT_DEBUG_NOT_IN_INTERRUPT;; m) k =
  (rt_thread_suspend t;; tlist_insert_before h t;; m) k.
Proof.
  intros Hwf Hr Hint. destruct (rt_thread_suspend_run k t th Hwf Hr) as [Eu Hrel].
  mstep_by Eu. symmetry. mstep_by Eu. symmetry. destruct Hrel as (_ & _ & Hh & _ & _ & F).
  assert (Ei := tlist_insert_before_run h t (suspend_eff t th k)).
  rewrite !(bind_run _ _ _ _ _ (Ei ltac:(intros h' Hin; by apply Hh in Hin))).
  erewrite bind_run; [reflexivity|]. unfold RT_DEBUG_NOT_IN_INTERRUPT. mstep.
  cbn [k_int_nest put_queue set_k_queues]. unfold sched_only in F. rewrite F. cbn. by rewrite Hint.
Qed.

(** A thread that notes something in its control block and then waits in a list of a driver. *)
Lemma fifo_block b bd idle h t th time k {A} f (rest : M (wait A)) :
  core b bd idle k -> k_current k = Some t -> is_ready k t th -> wait_list h -> may_block b bd idle k t time ->
  let th0 := set_th_error RT_EOK th in
  exists k', (rt_thread_suspend t;; tlist_insert_before h t;;
      (if 0 <? time then start_thread_timer t time else mret tt);; schedule_then t f rest) (put_th t th0 k) =
      Some (Wait f, k') /\
    blocked b bd idle h t th0 RT_IPC_FLAG_FIFO time k k' /\ ipc_frame (joins (Some h) t) k k'.
Proof.
  intros Hc Ec Hr Hh Hb th0. rewrite fifo_wait_ipc. apply put_wait_block with th; try done; [by left|].
  exact (wf_thread k (proj1 (c_inv (c_core0 Hc))) t th (proj1 Hr)).
Qed.

(** ** The operations *)

(** [rt_completion_wait] while nothing has happened yet. *)
Lemma rt_completion_wait_block b bd idle a timeout k t th :
  core b bd idle k -> cp_abs k a = Some CIdle -> k_current k = Some t -> is_ready k t th -> timeout <> 0 ->
  may_block b bd idle k t timeout ->
  exists k', rt_completion_wait a timeout k = Some (Wait (FCompletion a), k') /\ cp_abs k' a = Some (CWaited t) /\
    blocked b bd idle (cp_list a) t (set_th_error RT_EOK th) RT_IPC_FLAG_FIFO timeout k k'.
Proof.
  intros Hc Ha Ec Hr Ht Hb. destruct (cp_abs_inv _ _ _ Ha) as (c & E & Hf & Hq).
  destruct (set_error_core b bd idle k t th RT_EOK Hc Hr) as [Hc0 Hr0].
  destruct (fifo_block b bd idle (cp_list a) t th timeout k (FCompletion a)
    (r ← rt_completion_wait_resume t a; mret (Ret r)) Hc Ec Hr I Hb) as (k' & Er & Hbl & _).
  exists k'. split; [|split; [|done]].
  - unfold rt_completion_wait, rt_thread_self, list_isempty. mstep. mstep_by (get_cp_run _ _ _ E). rewrite Hf. cbn [negb Z.eqb RT_UNCOMPLETED RT_COMPLETED].
    mstep. rewrite Hq. mstep. destruct (Z.eqb_spec timeout 0); [done|]. rewrite Ec. mstep.
    mstep_by (mod_thread_run t th (set_th_error RT_EOK) k (proj1 Hr)).
    rewrite (not_in_interrupt_between _ _ (set_th_error RT_EOK th)); [exact Er|apply Hc0|done|apply Hb].
  - destruct (bl_list Hbl) as (l1 & l2 & El & El' & _). rewrite Hq in El. symmetry in El. apply app_nil in El as [-> ->].
    assert (Ek : k_comps k' = k_comps k) by (by rewrite (bl_only Hbl)).
    unfold cp_abs. rewrite Ek, E. cbn [mbind option_bind]. rewrite El'. cbn. by rewrite Hf.
Qed.

(** [rt_completion_done] for the thread that waits. *)
Lemma rt_completion_done_wake b bd idle a k t :
  core b bd idle k -> cp_abs k a = Some (CWaited t) ->
  exists th k', k_threads k !! t = Some th /\ rt_completion_done a k = Some (tt, k') /\ cp_abs k' a = Some CDone /\
    woke b bd idle (cp_list a) t th [] (put_cp a (Completion RT_COMPLETED) k) k'.
Proof.
  intros Hc Ha. destruct (cp_abs_inv _ _ _ Ha) as (c & E & Hf & Hq).
  set (k1 := put_cp a (Completion RT_COMPLETED) k). pose proof (put_cp_core b bd idle a (Completion RT_COMPLETED) k Hc) as Hc1. fold k1 in Hc1.
  destruct (resume_schedule_woke b bd idle (cp_list a) t [] k1 Hc1 I Hq) as (th & k' & Eth & Er & Hw).
  exists th, k'. split; [done|]. split; [|split; [|done]].
  - unfold rt_completion_done. mstep_by (get_cp_run _ _ _ E). rewrite Hf. cbn [Z.eqb RT_UNCOMPLETED RT_COMPLETED].
    mstep_by (set_cp_flag_run a c RT_COMPLETED k E). fold k1. unfold list_isempty. mstep.
    change (queue k1 (cp_list a)) with (queue k (cp_list a)). rewrite Hq. cbn [negb]. rewrite <-Er.
    apply fifo_wake_ipc.
  - apply cp_abs_done with (Completion RT_COMPLETED); [|done|apply (wk_queue Hw)].
    rewrite (wk_only Hw). cbn. apply lookup_insert_eq.
Qed.

(** ** Properties *)

(** [rt_completion_wait] on every state of a completion: when the operation is done it
    returns at once, when it is not it returns [-RT_ETIMEOUT] for a zero timeout and otherwise
    suspends the caller, alone in the list, with its timer armed; a second waiter violates an
    assertion. *)
Theorem rt_completion_wait_spec b bd idle a timeout k t th s :
  core b bd idle k -> cp_abs k a = Some s -> k_current k = Some t -> is_ready k t th ->
  (timeout <> 0 -> may_block b bd idle k t timeout) ->
  match s with
  | CDone => rt_completion_wait a timeout k = Some (Ret RT_EOK, k)
  | CWaited _ => rt_completion_wait a timeout k = None
  | CIdle =>
      if timeout =? 0 then rt_completion_wait a timeout k = Some (Ret (- RT_ETIMEOUT), k)
      else exists k', rt_completion_wait a timeout k = Some (Wait (FCompletion a), k') /\
        cp_abs k' a = Some (CWaited t) /\
        blocked b bd idle (cp_list a) t (set_th_error RT_EOK th) RT_IPC_FLAG_FIFO timeout k k'
  end.
Proof.
  intros Hc Ha Ec Hr Hb. destruct (cp_abs_inv _ _ _ Ha) as (c & E & Hs). destruct s as [| |u].
  - destruct (Z.eqb_spec timeout 0) as [->|Hne]; [|by eapply rt_completion_wait_block; eauto]. destruct Hs as [Hf Hq].
    unfold rt_completion_wait, rt_thread_self, list_isempty. mstep. mstep_by (get_cp_run _ _ _ E). rewrite Hf.
    cbn [negb Z.eqb RT_UNCOMPLETED RT_COMPLETED]. mstep. rewrite Hq. by mstep.
  - destruct Hs as [Hf Hq]. unfold rt_completion_wait, rt_thread_self. mstep. mstep_by (get_cp_run _ _ _ E). by rewrite Hf.
  - destruct Hs as [Hf Hq]. unfold rt_completion_wait, rt_thread_self, list_isempty. mstep. mstep_by (get_cp_run _ _ _ E).
    rewrite Hf. cbn [negb Z.eqb RT_UNCOMPLETED RT_COMPLETED]. mstep. by rewrite Hq.
Qed.

(** [rt_completion_done] never blocks and always leaves the operation done: it is remembered
    when nobody waits, and makes the waiting thread ready otherwise. *)
Theorem rt_completion_done_spec b bd idle a k s :
  core b bd idle k -> cp_abs k a = Some s ->
  exists k', rt_completion_done a k = Some (tt, k') /\ core b bd idle k' /\ cp_abs k' a = Some CDone /\
    match s with
    | CIdle => k' = put_cp a (Completion RT_COMPLETED) k
    | CDone => k' = k
    | CWaited t => exists th, k_threads k !! t = Some th /\
        woke b bd idle (cp_list a) t th [] (put_cp a (Completion RT_COMPLETED) k) k'
    end.
Proof.
  intros Hc Ha. destruct (cp_abs_inv _ _ _ Ha) as (c & E & Hs). destruct s as [| |u].
  - destruct Hs as [Hf Hq]. exists (put_cp a (Completion RT_COMPLETED) k). split; [|split; [by apply put_cp_core|split; [|done]]].
    + unfold rt_completion_done, list_isempty. mstep_by (get_cp_run _ _ _ E). rewrite Hf. cbn [Z.eqb RT_UNCOMPLETED RT_COMPLETED].
      mstep_by (set_cp_flag_run a c RT_COMPLETED k E). mstep.
      change (queue (put_cp a (Completion RT_COMPLETED) k) (cp_list a)) with (queue k (cp_list a)). by rewrite Hq.
    + by apply cp_abs_done with (Completion RT_COMPLETED); [apply lookup_insert_eq| |].
  - destruct Hs as [Hf Hq]. exists k. split; [|done]. unfold rt_completion_done. mstep_by (get_cp_run _ _ _ E). by rewrite Hf.
  - destruct (rt_completion_done_wake b bd idle a k u Hc Ha) as (th & k' & Eth & Er & Ha' & Hw).
    exists k'. split; [done|]. split; [apply Hw|]. split; [done|]. by exists th.
Qed.

(** The handshake: a thread that began to wait for a completion goes on with [RT_EOK] after
    [rt_completion_done], whatever runs before and after it, and leaves the completion as it
    was before the wait. *)
Theorem rt_completion_handshake b bd idle a timeout k k1 k2 k4 t th :
  core b bd idle k -> cp_abs k a = Some CIdle -> k_current k = Some t -> is_ready k t th -> timeout <> 0 ->
  may_block b bd idle k t timeout -> rt_completion_wait a timeout k = Some (Wait (FCompletion a), k1) ->
  core b bd idle k2 -> k_threads k2 !! t = k_threads k1 !! t -> cp_abs k2 a = cp_abs k1 a ->
  exists k3, rt_completion_done a k2 = Some (tt, k3) /\ (exists th3, is_ready k3 t th3) /\
    (k_threads k4 !! t = k_threads k3 !! t -> cp_abs k4 a = cp_abs k3 a ->
     exists k5, rt_completion_wait_resume t a k4 = Some (RT_EOK, k5) /\ cp_abs k5 a = Some CIdle).
Proof.
  intros Hc Ha Ec Hr Ht Hb Ew Hc2 Et2 Ea2.
  destruct (rt_completion_wait_block b bd idle a timeout k t th Hc Ha Ec Hr Ht Hb) as (k1' & Ew' & Ha1 & Hbl).
  rewrite Ew in Ew'. injection Ew' as <-. rewrite Ha1 in Ea2. rewrite (bl_threads Hbl), lookup_insert_eq in Et2.
  destruct (rt_completion_done_wake b bd idle a k2 t Hc2 Ea2) as (th2 & k3 & E2 & Ed & Ha3 & Hw).
  exists k3. split; [done|]. assert (E3 := wk_threads Hw). split.
  { eexists. split; [rewrite E3; apply lookup_insert_eq|done]. }
  intros Et4 Ea4. rewrite E3, lookup_insert_eq in Et4. rewrite Ha3 in Ea4. destruct (cp_abs_inv _ _ _ Ea4) as (c & E & Hf & Hq).
  exists (put_cp a (Completion RT_UNCOMPLETED) k4). split.
  - unfold rt_completion_wait_resume. mstep. mstep_by (set_cp_flag_run a c RT_UNCOMPLETED k4 E). simplify_eq. done.
  - unfold cp_abs. cbn. rewrite lookup_insert_eq. cbn [mbind option_bind].
    change (queue (put_cp a (Completion RT_UNCOMPLETED) k4) (cp_list a)) with (queue k4 (cp_list a)). by rewrite Hq.
Qed.
