(* ===== verification/DataQueue.v ===== *)
(** * Data queues (src/components/drivers/src/dataqueue.c)

    A queue of addresses and sizes between a driver and its clients, with the threads that
    wait for room and the threads that wait for data, and a callback.  The theorems show that
    the indices, which count up without end in 16 bits, make a bounded queue of it. *)
From S2P Require Import Prelude KService Kernel Object Scheduler Timer Thread Frame Ipc.
From S2P Require Import Mailbox Dynamic Completion.

Definition RT_DATAQUEUE_EVENT_POP : Z := 1.
Definition RT_DATAQUEUE_EVENT_PUSH : Z := 2.
Definition RT_DATAQUEUE_EVENT_LWM : Z := 3.

(** [sizeof (struct rt_data_item)]. *)
Definition data_item_size : Z := 8.

Definition get_dq (a : Z) : M rt_data_queue := fun k => q ← k_dqs k !! a; Some (q, k).
Definition put_dq (a : Z) (q : rt_data_queue) (k : kstate) : kstate := set_k_dqs (<[a := q]> (k_dqs k)) k.

Definition set_dq_waiting_lwm (v : bool) (q : rt_data_queue) : rt_data_queue :=
  DataQueue (dq_size q) (dq_lwm q) v (dq_get_index q) (dq_put_index q) (dq_items q) (dq_evt_notify q).
Definition set_dq_items (v : option (list (Z * Z))) (q : rt_data_queue) : rt_data_queue :=
  DataQueue (dq_size q) (dq_lwm q) (dq_waiting_lwm q) (dq_get_index q) (dq_put_index q) v (dq_evt_notify q).

(** [suspended_push_list] and [suspended_pop_list], by their offsets. *)
Definition dq_push_list (a : Z) : lhead := LWait (a + 16).
Definition dq_pop_list (a : Z) : lhead := LWait (a + 24).

(** [rt_data_queue_init]; [raw] are the items in the new memory. *)
Definition rt_data_queue_init (a size lwm : Z) (evt_notify : option Z) (raw : list (Z * Z)) : prog Z :=
  atomic (kmod (put_dq a (DataQueue (u16 size) (u16 lwm) false 0 0 None evt_notify));;
          list_head_init (dq_push_list a);;
          list_head_init (dq_pop_list a));;
  p ← malloc (u32 (data_item_size * u16 size));
  q ← atomic (get_dq a);
  atomic (kmod (put_dq a (set_dq_items (if p =? 0 then None else Some raw) q)));;
  if p =? 0 then mret (- RT_ENOMEM) else mret RT_EOK.

(** The index in the items of a position. *)
Definition dq_slot (q : rt_data_queue) (i : Z) : nat := Z.to_nat (Z.land i (u16 (dq_size q - 1))).

(** Storing an item at [put_index]; without memory or outside of it there is no result. *)
Definition dq_put (ptr size : Z) (q : rt_data_queue) : option rt_data_queue :=
  items ← dq_items q;
  if bool_decide (dq_slot q (dq_put_index q) < length items)%nat then
    Some (DataQueue (dq_size q) (dq_lwm q) (dq_waiting_lwm q) (dq_get_index q) (u16 (dq_put_index q + 1))
            (Some (<[dq_slot q (dq_put_index q) := (ptr, size)]> items)) (dq_evt_notify q))
  else None.

(** Reading the item at [get_index]. *)
Definition dq_first (q : rt_data_queue) : option (Z * Z) :=
  items ← dq_items q; items !! dq_slot q (dq_get_index q).

(** [get_index += 1]. *)
Definition dq_advance (q : rt_data_queue) : rt_data_queue :=
  DataQueue (dq_size q) (dq_lwm q) (dq_waiting_lwm q) (u16 (dq_get_index q + 1)) (dq_put_index q)
    (dq_items q) (dq_evt_notify q).

(** The indices are promoted to [int] before they are compared. *)
Definition dq_full (q : rt_data_queue) : bool := dq_put_index q - dq_get_index q =? dq_size q.
Definition dq_empty (q : rt_data_queue) : bool := dq_get_index q =? dq_put_index q.
Definition dq_low (q : rt_data_queue) : bool :=
  dq_waiting_lwm q && (dq_put_index q - dq_get_index q <=? dq_lwm q).

(** [rt_data_queue_peak]: the error code and the item. *)
Definition rt_data_queue_peak (a : Z) : M (Z * option (Z * Z)) :=
  q ← get_dq a;
  if dq_empty q then mret (- RT_EEMPTY, None)
  else v ← deref (dq_first q); mret (RT_EOK, Some v).

(** [rt_data_queue_reset]: both lists are emptied as [rt_ipc_list_resume_all] empties one. *)
Definition rt_data_queue_reset (a : Z) : M unit :=
  rt_enter_critical;;
  n ← kget (fun k => length (queue k (dq_pop_list a)));
  resume_all_loop n (dq_pop_list a);;
  m ← kget (fun k => length (queue k (dq_push_list a)));
  resume_all_loop m (dq_push_list a);;
  rt_exit_critical;;
  rt_schedule.

(** The result of [rt_data_queue_pop]: the error code, the item, and whether interrupts have
    been enabled again on the way out. *)
Definition popped : Type := Z * option (Z * Z) * bool.

Section Operations.
(** The callback at an address, with its two arguments. *)
Context (callback : Z -> Z -> Z -> M unit).

Definition evt_notify (a event : Z) : M unit :=
  q ← get_dq a;
  match dq_evt_notify q with None => mret tt | Some f => callback f a event end.

(** The end of [rt_data_queue_push]: the item is stored and a waiting thread woken. *)
Definition dq_push_finish (a ptr size : Z) : M Z :=
  q ← get_dq a;
  q' ← deref (dq_put ptr size q);
  kmod (put_dq a q');;
  e ← list_isempty (dq_pop_list a);
  if negb e then
    t ← list_first (dq_pop_list a);
    rt_thread_resume t;;
    rt_schedule;;
    mret RT_EOK
  else
    evt_notify a RT_DATAQUEUE_EVENT_PUSH;;
    mret RT_EOK.

(** [rt_data_queue_push] from its loop on; [fuel] bounds the iterations that do not switch
    to another thread. *)
Fixpoint dq_push_loop (fuel : nat) (a ptr size timeout : Z) : M (wait Z) :=
  q ← get_dq a;
  if dq_full q then
    match fuel with
    | O => stuck
    | S fuel' =>
        kmod (put_dq a (set_dq_waiting_lwm true q));;
        if timeout =? 0 then mret (Ret (- RT_ETIMEOUT))
        else
          RT_DEBUG_NOT_IN_INTERRUPT;;
          cur ← rt_thread_self;
          t ← deref cur;
          mod_thread t (set_th_error RT_EOK);;
          rt_thread_suspend t;;
          tlist_insert_before (dq_push_list a) t;;
          (if 0 <? timeout then start_thread_timer t timeout else mret tt);;
          schedule_then t (FDqPush a ptr size timeout)
            (th ← get_thread t;
             if negb (th_error th =? RT_EOK) then mret (Ret (th_error th))
             else dq_push_loop fuel' a ptr size timeout)
    end
  else r ← dq_push_finish a ptr size; mret (Ret r).

(** [rt_data_queue_push]. *)
Definition rt_data_queue_push (a ptr size timeout : Z) : M (wait Z) := dq_push_loop 2 a ptr size timeout.

(** [rt_data_queue_push] after a wait of the thread [t]. *)
Definition rt_data_queue_push_resume (t a ptr size timeout : Z) : M (wait Z) :=
  th ← get_thread t;
  if negb (th_error th =? RT_EOK) then mret (Ret (th_error th))
  else dq_push_loop 2 a ptr size timeout.

(** What [rt_data_queue_pop] does last when it has reached the low water mark. *)
Definition rt_data_queue_pop_lwm (a : Z) (v : Z * Z) (irq : bool) : M (wait popped) :=
  evt_notify a RT_DATAQUEUE_EVENT_LWM;;
  mret (Ret (RT_EOK, Some v, irq)).

(** The end of [rt_data_queue_pop]: the item is taken, and at the low water mark a thread that
    waits for room is woken, which may run first unless this is an interrupt handler. *)
Definition dq_pop_finish (a : Z) : M (wait popped) :=
  q ← get_dq a;
  v ← deref (dq_first q);
  let q' := dq_advance q in
  if dq_low q' then
    kmod (put_dq a (set_dq_waiting_lwm false q'));;
    e ← list_isempty (dq_push_list a);
    if negb e then
      cur ← rt_thread_self;
      t ← list_first (dq_push_list a);
      rt_thread_resume t;;
      rt_schedule;;
      now ← rt_thread_self;
      nest ← kget k_int_nest;
      if bool_decide (now = cur) || negb (nest =? 0) then rt_data_queue_pop_lwm a v true
      else mret (Wait (FDqPopped a v.1 v.2))
    else rt_data_queue_pop_lwm a v false
  else
    kmod (put_dq a q');;
    evt_notify a RT_DATAQUEUE_EVENT_POP;;
    mret (Ret (RT_EOK, Some v, true)).

(** [rt_data_queue_pop] from its loop on. *)
Fixpoint dq_pop_loop (fuel : nat) (a timeout : Z) : M (wait popped) :=
  q ← get_dq a;
  if dq_empty q then
    match fuel with
    | O => stuck
    | S fuel' =>
        if timeout =? 0 then mret (Ret (- RT_ETIMEOUT, None, true))
        else
          RT_DEBUG_NOT_IN_INTERRUPT;;
          cur ← rt_thread_self;
          t ← deref cur;
          mod_thread t (set_th_error RT_EOK);;
          rt_thread_suspend t;;
          tlist_insert_before (dq_pop_list a) t;;
          (if 0 <? timeout then start_thread_timer t timeout else mret tt);;
          schedule_then t (FDqPop a timeout)
            (th ← get_thread t;
             if negb (th_error th =? RT_EOK) then mret (Ret (th_error th, None, true))
             else dq_pop_loop fuel' a timeout)
    end
  else dq_pop_finish a.

(** [rt_data_queue_pop]. *)
Definition rt_data_queue_pop (a timeout : Z) : M (wait popped) := dq_pop_loop 2 a timeout.

(** [rt_data_queue_pop] after a wait for data, and after the wake-up of a thread. *)
Definition rt_data_queue_pop_resume (t a timeout : Z) : M (wait popped) :=
  th ← get_thread t;
  if negb (th_error th =? RT_EOK) then mret (Ret (th_error th, None, true))
  else dq_pop_loop 2 a timeout.
End Operations.

(** ** Invariant and abstraction *)

(** The number of items: the difference of the indices in 16 bits. *)
Definition dq_count (q : rt_data_queue) : Z := u16 (dq_put_index q - dq_get_index q).

(** The size is a power of two, and there are at most as many items. *)
Record dq_ok (q : rt_data_queue) : Prop := {
  dk_size : exists n, 0 <= n <= 15 /\ dq_size q = 2 ^ n;
  dk_get : 0 <= dq_get_index q < 65536;
  dk_put : 0 <= dq_put_index q < 65536;
  dk_count : dq_count q <= dq_size q;
  dk_items : exists l, dq_items q = Some l /\ Z.of_nat (length l) = dq_size q
}.

(** The items, the oldest first. *)
Definition dq_contents (q : rt_data_queue) : list (Z * Z) :=
  ring_view (0, 0) (default [] (dq_items q)) (dq_size q) (dq_get_index q) (dq_count q).

(** What neither a push nor a pop changes. *)
Definition dq_conf (q : rt_data_queue) : Z * Z * option Z := (dq_size q, dq_lwm q, dq_evt_notify q).

(** ** The ring *)

Lemma dq_size_range q : dq_ok q -> 0 < dq_size q <= 32768.
Proof.
  intros [(n & Hn & ->) _ _ _ _]. split; [by apply Z.pow_pos_nonneg; lia|].
  change 32768 with (2 ^ 15). apply Z.pow_le_mono_r; lia.
Qed.

Lemma dq_slot_mod q i : dq_ok q -> dq_slot q i = Z.to_nat (i mod dq_size q).
Proof.
  intros Hq. pose proof (dq_size_range q Hq) as Hs. destruct Hq as [(n & Hn & E) _ _ _ _].
  unfold dq_slot. rewrite u16_id by lia. rewrite E. replace (2 ^ n - 1) with (Z.ones n).
  - by rewrite Z.land_ones by lia.
  - rewrite Z.ones_equiv. lia.
Qed.

(** The size divides the range of the indices. *)
Lemma dq_mod_u16 q x : dq_ok q -> u16 x mod dq_size q = x mod dq_size q.
Proof.
  intros Hq. pose proof (dq_size_range q Hq) as Hs. destruct Hq as [(n & Hn & E) _ _ _ _]. unfold u16.
  symmetry. apply Znumtheory.Zmod_div_mod; [lia|lia|]. exists (2 ^ (16 - n)). rewrite E, <-Z.pow_add_r by lia.
  by replace (16 - n + n) with 16 by lia.
Qed.

Lemma dq_put_mod q : dq_ok q -> dq_put_index q mod dq_size q = (dq_get_index q + dq_count q) mod dq_size q.
Proof.
  intros Hq. unfold dq_count. rewrite <-Zplus_mod_idemp_r, dq_mod_u16, Zplus_mod_idemp_r by done. f_equal. lia.
Qed.

Lemma dq_count_range q : dq_ok q -> 0 <= dq_count q <= dq_size q.
Proof. intros Hq. split; [apply u16_range|apply Hq]. Qed.

Lemma length_dq_contents q : dq_ok q -> Z.of_nat (length (dq_contents q)) = dq_count q.
Proof. intros Hq. unfold dq_contents. rewrite length_ring_view. pose proof (dq_count_range q Hq). lia. Qed.

(** Storing an item in a queue that is not full appends it to the contents. *)
Lemma dq_put_run q ptr size :
  dq_ok q -> dq_count q < dq_size q ->
  exists q', dq_put ptr size q = Some q' /\ dq_ok q' /\ dq_contents q' = dq_contents q ++ [(ptr, size)] /\
    dq_conf q' = dq_conf q.
Proof.
  intros Hq Hlt. pose proof (dq_size_range q Hq) as Hs. pose proof (dq_count_range q Hq) as Hcr.
  pose proof (dq_slot_mod q (dq_put_index q) Hq) as Hsl. rewrite (dq_put_mod q Hq) in Hsl.
  pose proof Hq as [Hn Hg Hp Hcnt (l & El & Hl)]. unfold dq_put. rewrite El. cbn [mbind option_bind].
  pose proof (Z.mod_pos_bound (dq_get_index q + dq_count q) (dq_size q)) as Hb.
  rewrite bool_decide_true by (rewrite Hsl; lia). rewrite Hsl. eexists. split; [done|].
  set (q' := DataQueue _ _ _ _ _ _ _).
  assert (Hc' : dq_count q' = dq_count q + 1) by (unfold dq_count in *; subst q'; cbn [dq_put_index dq_get_index] in *; mlia).
  split; [|split; [|done]].
  - split; cbn; try done; [apply u16_range|lia|]. eexists. split; [done|]. by rewrite length_insert.
  - unfold dq_contents. rewrite Hc', El. cbn. by apply ring_view_put; lia.
Qed.

(** The item at [get_index] of a queue that is not empty is the oldest one. *)
Lemma dq_first_run q :
  dq_ok q -> 0 < dq_count q ->
  exists v, dq_first q = Some v /\ dq_ok (dq_advance q) /\ dq_contents q = v :: dq_contents (dq_advance q).
Proof.
  intros Hq Hlt. pose proof (dq_size_range q Hq) as Hs. pose proof (dq_count_range q Hq) as Hcr.
  pose proof (dq_slot_mod q (dq_get_index q) Hq) as Hsl. pose proof Hq as [Hn Hg Hp Hcnt (l & El & Hl)].
  unfold dq_first. rewrite El, Hsl. cbn [mbind option_bind].
  pose proof (Z.mod_pos_bound (dq_get_index q) (dq_size q)) as Hb.
  destruct (lookup_lt_is_Some_2 l (Z.to_nat (dq_get_index q mod dq_size q))) as [v Ev]; [lia|].
  assert (Hc' : dq_count (dq_advance q) = dq_count q - 1) by (unfold dq_count in *; unfold dq_advance; cbn [dq_put_index dq_get_index] in *; mlia).
  exists v. split; [done|]. split.
  - split; cbn; try done; [apply u16_range|lia|]. by exists l.
  - unfold dq_contents. rewrite Hc', El. cbn [dq_advance dq_items dq_size dq_get_index default]. rewrite El.
    rewrite <-(ring_view_mod _ _ _ (u16 _)), dq_mod_u16, ring_view_mod by done. by apply ring_view_get.
Qed.

Lemma dq_empty_count q : dq_ok q -> dq_empty q = (dq_count q =? 0).
Proof.
  intros [_ Hg Hp _ _]. unfold dq_empty, dq_count, u16.
  destruct (Z.eqb_spec (dq_get_index q) (dq_put_index q)), (Z.eqb_spec ((dq_put_index q - dq_get_index q) mod 65536) 0); mlia.
Qed.

Lemma dq_full_count q : dq_ok q -> (dq_count q = dq_size q -> dq_get_index q <= dq_put_index q) ->
  dq_full q = (dq_count q =? dq_size q).
Proof.
  intros Hq Hw. pose proof (dq_size_range q Hq). destruct Hq as [_ Hg Hp _ _]. unfold dq_full, dq_count, u16 in *.
  destruct (Z.eqb_spec (dq_put_index q - dq_get_index q) (dq_size q)),
    (Z.eqb_spec ((dq_put_index q - dq_get_index q) mod 65536) (dq_size q)); mlia.
Qed.

(** ** Running the operations *)

Lemma get_dq_run a q k : k_dqs k !! a = Some q -> get_dq a k = Some (q, k).
Proof. intros E. unfold get_dq. by rewrite E. Qed.

Lemma put_dq_core b bd idle a q k : core b bd idle k -> core b bd idle (put_dq a q k).
Proof.
  intros [[[Hwf Hw] Hi Hs] Hcur]. split; [split; [split|..]|]; try done;
    [by apply (sched_wf_ext k)|by apply (timer_wf_ext b bd k)].
Qed.

Section Runs.
Context (callback : Z -> Z -> Z -> M unit) (b bd idle : Z).

(** Pushing into a queue that is full. *)
Lemma dq_push_full_run n a q ptr size timeout k t th :
  core b bd idle k -> k_dqs k !! a = Some q -> dq_full q = true ->
  k_current k = Some t -> is_ready k t th -> (timeout <> 0 -> may_block b bd idle k t timeout) ->
  let kw := put_dq a (set_dq_waiting_lwm true q) k in
  if timeout =? 0 then dq_push_loop callback (S n) a ptr size timeout k = Some (Ret (- RT_ETIMEOUT), kw)
  else exists k', dq_push_loop callback (S n) a ptr size timeout k = Some (Wait (FDqPush a ptr size timeout), k') /\
    blocked b bd idle (dq_push_list a) t (set_th_error RT_EOK th) RT_IPC_FLAG_FIFO timeout kw k'.
Proof.
  intros Hc E Hf Ec Hr Hb kw. cbn [dq_push_loop]. mstep_by (get_dq_run _ _ _ E). rewrite Hf. mstep. fold kw.
  destruct (Z.eqb_spec timeout 0) as [->|Ht]; [done|]. specialize (Hb Ht).
  destruct (fifo_block b bd idle (dq_push_list a) t th timeout kw (FDqPush a ptr size timeout)
    (th0 ← get_thread t; if negb (th_error th0 =? RT_EOK) then mret (Ret (th_error th0))
      else dq_push_loop callback n a ptr size timeout)) as (k' & Er & Hbl & _); try done; [by apply put_dq_core|].
  exists k'. split; [|done]. mstep_by (not_in_interrupt_run kw (proj1 (proj2 (proj2 Hb)))).
  unfold rt_thread_self. mstep. change (k_current kw) with (k_current k). rewrite Ec. mstep.
  by mstep_by (mod_thread_run t th (set_th_error RT_EOK) kw (proj1 Hr)).
Qed.

(** The end of a push. *)
Lemma dq_push_finish_run a q ptr size k :
  core b bd idle k -> k_dqs k !! a = Some q -> dq_ok q -> dq_count q < dq_size q ->
  exists q' k', dq_ok q' /\ dq_contents q' = dq_contents q ++ [(ptr, size)] /\ dq_conf q' = dq_conf q /\ core b bd idle k' /\
    k_dqs k' = <[a := q']> (k_dqs k) /\
    match queue k (dq_pop_list a) with
    | [] => k' = put_dq a q' k /\
        dq_push_finish callback a ptr size k = (evt_notify callback a RT_DATAQUEUE_EVENT_PUSH;; mret RT_EOK) k'
    | w :: ws => dq_push_finish callback a ptr size k = Some (RT_EOK, k') /\
        exists th, woke b bd idle (dq_pop_list a) w th ws (put_dq a q' k) k'
    end.
Proof.
  intros Hc E Hq Hlt. destruct (dq_put_run q ptr size Hq Hlt) as (q' & Ep & Hq' & Hct & Hcf).
  set (k1 := put_dq a q' k). pose proof (put_dq_core b bd idle a q' k Hc) as Hc1. fold k1 in Hc1.
  unfold dq_push_finish. mstep_by (get_dq_run _ _ _ E). rewrite Ep. mstep. mstep. fold k1.
  unfold list_isempty. mstep. change (queue k1 (dq_pop_list a)) with (queue k (dq_pop_list a)).
  destruct (queue k (dq_pop_list a)) as [|w ws] eqn:Ew; cbn [negb]; [by exists q', k1|].
  destruct (resume_schedule_woke b bd idle (dq_pop_list a) w ws k1 Hc1 I Ew) as (th & k' & Eth & Er & Hw).
  exists q', k'. do 3 (split; [done|]). split; [apply Hw|]. split; [by rewrite (wk_only Hw)|].
  split; [|by exists th]. rewrite (fifo_wake_ipc _ (rt_schedule;; mret RT_EOK)), <-bind_assoc. by mstep_by Er.
Qed.

(** Pushing into a queue with room. *)
Lemma dq_push_room_run n a q ptr size timeout k :
  core b bd idle k -> k_dqs k !! a = Some q -> dq_ok q -> dq_full q = false -> dq_count q < dq_size q ->
  exists q' k', dq_ok q' /\ dq_contents q' = dq_contents q ++ [(ptr, size)] /\ dq_conf q' = dq_conf q /\ core b bd idle k' /\
    k_dqs k' = <[a := q']> (k_dqs k) /\
    match queue k (dq_pop_list a) with
    | [] => k' = put_dq a q' k /\
        dq_push_loop callback n a ptr size timeout k =
          (evt_notify callback a RT_DATAQUEUE_EVENT_PUSH;; mret (Ret RT_EOK)) k'
    | w :: ws => dq_push_loop callback n a ptr size timeout k = Some (Ret RT_EOK, k') /\
        exists th, woke b bd idle (dq_pop_list a) w th ws (put_dq a q' k) k'
    end.
Proof.
  intros Hc E Hq Hf Hlt. destruct (dq_push_finish_run a q ptr size k Hc E Hq Hlt) as (q' & k' & Hq' & Hct & Hcf & Hc' & Ek & Hm).
  exists q', k'. do 5 (split; [done|]).
  assert (Hl : dq_push_loop callback n a ptr size timeout k = (dq_push_finish callback a ptr size ≫= fun r => mret (Ret r)) k).
  { destruct n; cbn [dq_push_loop]; mstep_by (get_dq_run _ _ _ E); by rewrite Hf. }
  rewrite Hl. destruct (queue k (dq_pop_list a)) as [|w ws]; destruct Hm as [Hm1 Hm2].
  - split; [done|]. unfold mbind at 1, M_bind at 1. rewrite Hm2. apply bind_assoc.
  - split; [|done]. by mstep_by Hm1.
Qed.

(** Popping from a queue that is empty. *)
Lemma dq_pop_empty_run n a q timeout k t th :
  core b bd idle k -> k_dqs k !! a = Some q -> dq_empty q = true ->
  k_current k = Some t -> is_ready k t th -> (timeout <> 0 -> may_block b bd idle k t timeout) ->
  if timeout =? 0 then dq_pop_loop callback (S n) a timeout k = Some (Ret (- RT_ETIMEOUT, None, true), k)
  else exists k', dq_pop_loop callback (S n) a timeout k = Some (Wait (FDqPop a timeout), k') /\
    blocked b bd idle (dq_pop_list a) t (set_th_error RT_EOK th) RT_IPC_FLAG_FIFO timeout k k'.
Proof.
  intros Hc E Hf Ec Hr Hb. cbn [dq_pop_loop]. mstep_by (get_dq_run _ _ _ E). rewrite Hf.
  destruct (Z.eqb_spec timeout 0) as [->|Ht]; [done|]. specialize (Hb Ht).
  destruct (fifo_block b bd idle (dq_pop_list a) t th timeout k (FDqPop a timeout)
    (th0 ← get_thread t; if negb (th_error th0 =? RT_EOK) then mret (Ret (th_error th0, None, true))
      else dq_pop_loop callback n a timeout) Hc Ec Hr I Hb) as (k' & Er & Hbl & _).
  exists k'. split; [|done]. mstep_by (not_in_interrupt_run k (proj1 (proj2 (proj2 Hb)))).
  unfold rt_thread_self. mstep. rewrite Ec. mstep.
  by mstep_by (mod_thread_run t th (set_th_error RT_EOK) k (proj1 Hr)).
Qed.

(** What is left of a pop that has woken a thread: unless that one runs first, the callback is
    told and the item returned, with the interrupts enabled. *)
Definition pop_woken (a : Z) (v : Z * Z) (cur : option Z) (k : kstate) : option (wait popped * kstate) :=
  if bool_decide (k_current k = cur) || negb (k_int_nest k =? 0) then
    (evt_notify callback a RT_DATAQUEUE_EVENT_LWM;; mret (Ret (RT_EOK, Some v, true))) k
  else Some (Wait (FDqPopped a v.1 v.2), k).

(** The end of a pop. *)
Lemma dq_pop_finish_run a q k :
  core b bd idle k -> k_dqs k !! a = Some q -> dq_ok q -> 0 < dq_count q ->
  exists v q' k', dq_ok q' /\ dq_contents q = v :: dq_contents q' /\ dq_conf q' = dq_conf q /\ core b bd idle k' /\
    k_dqs k' = <[a := q']> (k_dqs k) /\ dq_waiting_lwm q' = dq_waiting_lwm q && negb (dq_low (dq_advance q)) /\
    if dq_low (dq_advance q) then
      match queue k (dq_push_list a) with
      | [] => k' = put_dq a q' k /\ dq_pop_finish callback a k = rt_data_queue_pop_lwm callback a v false k'
      | w :: ws => dq_pop_finish callback a k = pop_woken a v (k_current k) k' /\
          exists th, woke b bd idle (dq_push_list a) w th ws (put_dq a q' k) k'
      end
    else k' = put_dq a q' k /\
      dq_pop_finish callback a k =
        (evt_notify callback a RT_DATAQUEUE_EVENT_POP;; mret (Ret (RT_EOK, Some v, true))) k'.
Proof.
  intros Hc E Hq Hlt. destruct (dq_first_run q Hq Hlt) as (v & Ev & Hq' & Hct).
  unfold dq_pop_finish. mstep_by (get_dq_run _ _ _ E). rewrite Ev. mstep.
  destruct (dq_low (dq_advance q)).
  2:{ exists v, (dq_advance q), (put_dq a (dq_advance q) k). do 3 (split; [done|]). split; [by apply put_dq_core|].
      split; [done|]. split; [cbn; by rewrite andb_true_r|]. split; [done|]. by mstep. }
  set (q' := set_dq_waiting_lwm false (dq_advance q)). set (k1 := put_dq a q' k).
  pose proof (put_dq_core b bd idle a q' k Hc) as Hc1. fold k1 in Hc1. mstep. fold k1.
  assert (Hq1 : dq_ok q') by (by destruct Hq'; split).
  unfold list_isempty. mstep. change (queue k1 (dq_push_list a)) with (queue k (dq_push_list a)).
  destruct (queue k (dq_push_list a)) as [|w ws] eqn:Ew; cbn [negb]; [exists v, q', k1; by rewrite andb_false_r|].
  destruct (resume_schedule_woke b bd idle (dq_push_list a) w ws k1 Hc1 I Ew) as (th & k' & Eth & Er & Hw).
  exists v, q', k'. do 3 (split; [done|]). split; [apply Hw|]. split; [by rewrite (wk_only Hw)|]. split; [by rewrite andb_false_r|].
  split; [|by exists th]. unfold rt_thread_self. mstep.
  rewrite (fifo_wake_ipc _ (rt_schedule;; _)), <-bind_assoc. mstep_by Er. do 2 mstep. unfold pop_woken.
  change (k_current k1) with (k_current k). by destruct (bool_decide _ || _).
Qed.
End Runs.

(** ** Properties *)

(** [rt_data_queue_push] refines the put of a bounded queue, the indices wrapping around
    in 16 bits: with room the item becomes the last one, and the first thread that waits for
    data is made ready or, if there is none, the callback told; a full queue stays as it is
    except that it is to be woken at the low water mark, and the caller is refused or waits.
    A queue that is full while [put_index] has wrapped around and [get_index] has not is
    excluded: it is not recognised as full. *)
Theorem rt_data_queue_push_refines callback b bd idle a q ptr size timeout k t th :
  core b bd idle k -> k_dqs k !! a = Some q -> dq_ok q -> k_current k = Some t -> is_ready k t th ->
  (dq_count q = dq_size q -> dq_get_index q <= dq_put_index q) ->
  (dq_count q = dq_size q -> timeout <> 0 -> may_block b bd idle k t timeout) ->
  if Z.of_nat (length (dq_contents q)) =? dq_size q then
    let kw := put_dq a (set_dq_waiting_lwm true q) k in
    if timeout =? 0 then rt_data_queue_push callback a ptr size timeout k = Some (Ret (- RT_ETIMEOUT), kw)
    else exists k', rt_data_queue_push callback a ptr size timeout k = Some (Wait (FDqPush a ptr size timeout), k') /\
      blocked b bd idle (dq_push_list a) t (set_th_error RT_EOK th) RT_IPC_FLAG_FIFO timeout kw k'
  else exists q' k', dq_ok q' /\ dq_contents q' = dq_contents q ++ [(ptr, size)] /\ dq_conf q' = dq_conf q /\ core b bd idle k' /\
    k_dqs k' = <[a := q']> (k_dqs k) /\
    match queue k (dq_pop_list a) with
    | [] => k' = put_dq a q' k /\
        rt_data_queue_push callback a ptr size timeout k =
          (evt_notify callback a RT_DATAQUEUE_EVENT_PUSH;; mret (Ret RT_EOK)) k'
    | w :: ws => rt_data_queue_push callback a ptr size timeout k = Some (Ret RT_EOK, k') /\
        exists th, woke b bd idle (dq_pop_list a) w th ws (put_dq a q' k) k'
    end.
Proof.
  intros Hc E Hq Ec Hr Hw Hb. rewrite length_dq_contents by done. pose proof (dq_full_count q Hq Hw) as Hf.
  destruct (Z.eqb_spec (dq_count q) (dq_size q)) as [Hn|Hn].
  - by apply dq_push_full_run; auto.
  - apply dq_push_room_run; try done. pose proof (dq_count_range q Hq). lia.
Qed.

(** The low water mark in terms of the number of items: the indices are compared as [int]s, so
    a [put_index] that has wrapped around before [get_index] counts 65536 too few. *)
Lemma dq_low_count q l : dq_ok (dq_advance q) -> dq_contents (dq_advance q) = l ->
  dq_low (dq_advance q) = dq_waiting_lwm q &&
    (Z.of_nat (length l) - (if dq_put_index q <? u16 (dq_get_index q + 1) then 65536 else 0) <=? dq_lwm q).
Proof.
  intros Hq <-. rewrite length_dq_contents by done. destruct Hq as [_ Hg Hp _ _]. unfold dq_low, dq_count, dq_advance in *. cbn in *.
  do 2 f_equal. unfold u16 in *. zcases; mlia.
Qed.

(** C26. [rt_data_queue_pop] refines the get of a bounded queue: it takes out the oldest item. When
    a push has found the queue full before, and at most as many items are left as the low water
    mark says, that note is cleared and the first thread made ready that waits for room, and the
    callback is told of the mark; otherwise the callback is told of the pop. The same happens
    above the mark while [put_index] has wrapped around and [get_index] has not: the difference
    is 65536 too small then. On an empty queue the caller is refused or waits. Interrupts are
    enabled again on every way out except one: at the mark with nobody waiting. *)
Theorem rt_data_queue_pop_refines callback b bd idle a q timeout k t th :
  core b bd idle k -> k_dqs k !! a = Some q -> dq_ok q -> k_current k = Some t -> is_ready k t th ->
  (dq_count q = 0 -> timeout <> 0 -> may_block b bd idle k t timeout) ->
  match dq_contents q with
  | [] =>
      if timeout =? 0 then rt_data_queue_pop callback a timeout k = Some (Ret (- RT_ETIMEOUT, None, true), k)
      else exists k', rt_data_queue_pop callback a timeout k = Some (Wait (FDqPop a timeout), k') /\
        blocked b bd idle (dq_pop_list a) t (set_th_error RT_EOK th) RT_IPC_FLAG_FIFO timeout k k'
  | v :: l => exists q' k', dq_ok q' /\ dq_contents q' = l /\ dq_conf q' = dq_conf q /\ core b bd idle k' /\ k_dqs k' = <[a := q']> (k_dqs k) /\
      let low := dq_waiting_lwm q && (Z.of_nat (length l) - (if dq_put_index q <? u16 (dq_get_index q + 1) then 65536 else 0) <=? dq_lwm q) in
      dq_waiting_lwm q' = dq_waiting_lwm q && negb low /\
      if low then
        match queue k (dq_push_list a) with
        | [] => k' = put_dq a q' k /\ rt_data_queue_pop callback a timeout k =
            (evt_notify callback a RT_DATAQUEUE_EVENT_LWM;; mret (Ret (RT_EOK, Some v, false))) k'
        | w :: ws => rt_data_queue_pop callback a timeout k = pop_woken callback a v (Some t) k' /\
            exists th, woke b bd idle (dq_push_list a) w th ws (put_dq a q' k) k'
        end
      else k' = put_dq a q' k /\
        rt_data_queue_pop callback a timeout k =
          (evt_notify callback a RT_DATAQUEUE_EVENT_POP;; mret (Ret (RT_EOK, Some v, true))) k'
  end.
Proof.
  intros Hc E Hq Ec Hr Hb. pose proof (length_dq_contents q Hq) as Hlen. pose proof (dq_empty_count q Hq) as He.
  destruct (Z.eqb_spec (dq_count q) 0) as [Hn|Hn].
  - rewrite Hn in Hlen. destruct (dq_contents q); [|cbn in Hlen; lia]. apply dq_pop_empty_run with (n := 1%nat) (q := q); auto.
  - pose proof (dq_count_range q Hq). destruct (dq_pop_finish_run callback b bd idle a q k Hc E Hq ltac:(lia))
      as (v & q' & k' & Hq' & Hct & Hm). rewrite Hct. exists q', k'. split; [done|]. split; [done|]. rewrite Ec in Hm.
    destruct (dq_first_run q Hq ltac:(lia)) as (v' & _ & Hqa & Hct'). rewrite Hct in Hct'. injection Hct' as <- Hct'.
    rewrite (dq_low_count q _ Hqa (eq_sym Hct')) in Hm.
    assert (Hl : rt_data_queue_pop callback a timeout k = dq_pop_finish callback a k).
    { unfold rt_data_queue_pop. cbn [dq_pop_loop]. mstep_by (get_dq_run _ _ _ E). by rewrite He. }
    by rewrite Hl.
Qed.

(** [rt_data_queue_reset] ends: both waiting lists are empty, every thread of them is ready
    with the error [-RT_ERROR], every other thread and the data are as they were, and the
    scheduler is locked as often as before. *)
Theorem rt_data_queue_reset_spec b bd idle a k :
  core b bd idle k -> 0 <= k_lock_nest k < 32767 ->
  exists k', rt_data_queue_reset a k = Some (tt, k') /\ core b bd idle k' /\ core_only k k' /\
    queue k' (dq_pop_list a) = [] /\ queue k' (dq_push_list a) = [] /\
    (forall t, t ∈ queue k (dq_pop_list a) \/ t ∈ queue k (dq_push_list a) -> exists th,
       k_threads k !! t = Some th /\
       k_threads k' !! t = Some (set_th_stat RT_THREAD_READY (set_th_error (- RT_ERROR) th))) /\
    (forall t, t ∉ queue k (dq_pop_list a) -> t ∉ queue k (dq_push_list a) -> k_threads k' !! t = k_threads k !! t).
Proof.
  intros Hc Hn. set (k0 := set_k_lock_nest (i16 (k_lock_nest k + 1)) k).
  assert (Hc0 : core b bd idle k0) by (by apply set_lock_core).
  assert (Hne : dq_pop_list a <> dq_push_list a) by (unfold dq_pop_list, dq_push_list; injection 1; lia).
  destruct (resume_all_loop_core b bd idle (dq_pop_list a) _ k0 Hc0 I eq_refl) as (k1 & E1 & Hc1 & F1 & Q1 & _ & O1 & L1 & N1).
  destruct (resume_all_loop_core b bd idle (dq_push_list a) _ k1 Hc1 I eq_refl) as (k2 & E2 & Hc2 & F2 & Q2 & _ & O2 & L2 & N2).
  assert (Qp : queue k1 (dq_push_list a) = queue k (dq_push_list a)) by (by rewrite O1).
  rewrite Qp in L2, N2. change (queue k0) with (queue k) in *. change (k_threads k0) with (k_threads k) in *.
  destruct (exit_critical_core b bd idle (k_lock_nest k) k2 Hc2 Hn) as (k3 & E3 & Hc3 & F3 & T3 & Q3).
  { rewrite F2. cbn. rewrite F1. cbn. mlia. }
  destruct (rt_schedule_ready b bd idle k3 Hc3) as (k' & E4 & Hc4 & F4 & T4 & Q4 & _).
  assert (Hdis : forall t, t ∈ queue k (dq_pop_list a) -> t ∉ queue k (dq_push_list a)).
  { intros t H1 H2. apply Hne. eapply wf_unique; [apply Hc|exact H1|exact H2]. }
  assert (Hth : forall t, k_threads k' !! t = k_threads k2 !! t) by (intros; by rewrite T4, T3).
  exists k'. split.
  { unfold rt_data_queue_reset, rt_enter_critical. mstep. fold k0. mstep. mstep_by E1. mstep. mstep_by E2. by mstep_by E3. }
  split; [done|]. split.
  { etrans; [|exact F4]. unfold core_only in *. rewrite F3, F2, F1. by destruct k. }
  split; [|split; [|split]].
  - rewrite (queue_ext k2) by congruence. by rewrite O2.
  - by rewrite (queue_ext k2) by congruence.
  - intros t [Ht|Ht]; rewrite Hth.
    + destruct (L1 t Ht) as (th & Et & Et'). exists th. split; [done|]. rewrite N2; auto.
    + destruct (L2 t Ht) as (th & Et & Et'). exists th. split; [|done]. rewrite <-Et. symmetry. apply N1. intros H1. by apply (Hdis t).
  - intros t H1 H2. by rewrite Hth, N2, N1.
Qed.
