(* ===== verification/Device.v ===== *)
(** * Devices (src/src/device.c, src/src/kservice.c)

    The registry of the devices and the functions through which the rest of the system uses
    them.  The functions of the drivers are the parameter [drv]; what this layer relies on is
    the class [DriverOk].  The theorems show that a name stands for one device, and that the
    users of a device are counted: the driver is opened for each and closed after the last. *)
From S2P Require Import Prelude KService Kernel Object Scheduler Timer Thread Frame Ipc.

Definition RT_DEVICE_FLAG_STANDALONE : Z := 0x008.
Definition RT_DEVICE_FLAG_ACTIVATED : Z := 0x010.
Definition RT_DEVICE_OFLAG_CLOSE : Z := 0x000.
Definition RT_DEVICE_OFLAG_OPEN : Z := 0x008.
Definition RT_Object_Class_Device : Z := 7.

Definition get_dev (d : Z) : M rt_device := fun k => v ← k_devs k !! d; Some (v, k).
Definition put_dev (d : Z) (v : rt_device) (k : kstate) : kstate := set_k_devs (<[d := v]> (k_devs k)) k.
Definition mod_dev (d : Z) (f : rt_device -> rt_device) : M unit := v ← get_dev d; kmod (put_dev d (f v)).

(** ** errno *)

(** [rt_get_errno]. *)
Definition rt_get_errno : M Z :=
  n ← kget k_int_nest;
  if negb (n =? 0) then kget k_errno
  else
    tid ← rt_thread_self;
    match tid with
    | None => kget k_errno
    | Some t => th ← get_thread t; mret (th_error th)
    end.

(** [rt_set_errno]. *)
Definition rt_set_errno (error : Z) : M unit :=
  n ← kget k_int_nest;
  if negb (n =? 0) then kmod (set_k_errno error)
  else
    tid ← rt_thread_self;
    match tid with
    | None => kmod (set_k_errno error)
    | Some t => mod_thread t (set_th_error error)
    end.

(** ** The registry *)

(** [rt_device_find]. *)
Definition rt_device_find (name : list Z) : M (option oid) :=
  cur ← rt_thread_self;
  (if bool_decide (is_Some cur) then rt_enter_critical else mret tt);;
  objs ← kget k_objs;
  l ← kget (fun k => objects k RT_Object_Class_Device);
  r ← deref (find_by_name objs name l);
  (if bool_decide (is_Some cur) then rt_exit_critical else mret tt);;
  mret r.

(** [rt_device_register]; [dev] is the device the driver has filled in at the address [d],
    0 for [RT_NULL]. *)
Definition rt_device_register (d : Z) (dev : rt_device) (name : list Z) (flags : Z) : M Z :=
  if d =? 0 then mret (- RT_ERROR)
  else
    r ← rt_device_find name;
    match r with
    | Some _ => mret (- RT_ERROR)
    | None =>
        rt_object_init (ODev d) name;;
        kmod (put_dev d (set_dv_ref_count 0 (set_dv_flag (u16 flags) dev)));;
        mret RT_EOK
    end.

(** [rt_device_unregister]. *)
Definition rt_device_unregister (d : Z) : M Z :=
  rt_object_detach (ODev d);;
  mret RT_EOK.

(** ** The functions of the drivers *)

(** By the number of the function; the results are those of the C functions. *)
Record driver := Driver {
  drv_init : Z -> Z -> M Z;                       (**r function, device *)
  drv_open : Z -> Z -> Z -> M Z;                  (**r function, device, oflag *)
  drv_close : Z -> Z -> M Z;
  drv_read : Z -> Z -> Z -> Z -> Z -> M (wait (Z * list Z));
      (**r function, device, pos, buffer, size: the size read and what was stored *)
  drv_write : Z -> Z -> Z -> Z -> list Z -> Z -> M (wait Z);
      (**r function, device, pos, buffer and its contents, size *)
  drv_control : Z -> Z -> Z -> Z -> M Z           (**r function, device, cmd, arg *)
}.

Definition activated (v : rt_device) : bool := negb (Z.land (dv_flag v) RT_DEVICE_FLAG_ACTIVATED =? 0).
Definition standalone (v : rt_device) : bool := negb (Z.land (dv_flag v) RT_DEVICE_FLAG_STANDALONE =? 0).
Definition opened (v : rt_device) : bool := negb (Z.land (dv_open_flag v) RT_DEVICE_OFLAG_OPEN =? 0).

(** [flag |= RT_DEVICE_FLAG_ACTIVATED]. *)
Definition activate (d : Z) : M unit :=
  mod_dev d (fun v => set_dv_flag (u16 (Z.lor (dv_flag v) RT_DEVICE_FLAG_ACTIVATED)) v).

Section Operations.
Context (drv : driver).

(** The body of the loop of [rt_device_init_all], for the device of a node. *)
Definition init_one (o : oid) : M unit :=
  match o with
  | ODev d =>
      v ← get_dev d;
      match dv_init v with
      | Some f =>
          if negb (activated v) then
            r ← drv_init drv f d;
            if negb (r =? RT_EOK) then mret tt else activate d
          else mret tt
      | None => mret tt
      end
  | _ => stuck
  end.

(** [node->next]: the object after [o] in the list; a node that was taken out is its own. *)
Fixpoint next_object (o : oid) (l : list oid) : option oid :=
  match l with
  | [] => Some o
  | x :: l' => if bool_decide (x = o) then head l' else next_object o l'
  end.

(** The loop of [rt_device_init_all]; [fuel] bounds the iterations. *)
Fixpoint init_all_loop (fuel : nat) (node : option oid) : M unit :=
  match node with
  | None => mret tt
  | Some o =>
      match fuel with
      | O => stuck
      | S fuel' =>
          init_one o;;
          n ← kget (fun k => next_object o (objects k RT_Object_Class_Device));
          init_all_loop fuel' n
      end
  end.

(** [rt_device_init_all]. *)
Definition rt_device_init_all : M Z :=
  l ← kget (fun k => objects k RT_Object_Class_Device);
  init_all_loop (length l) (head l);;
  mret RT_EOK.

(** [rt_device_init]. *)
Definition rt_device_init (d : Z) : M Z :=
  v ← get_dev d;
  match dv_init v with
  | Some f =>
      if negb (activated v) then
        r ← drv_init drv f d;
        if negb (r =? RT_EOK) then mret r else activate d;; mret r
      else mret RT_EOK
  | None => mret RT_EOK
  end.

(** The first part of [rt_device_open]: the device is initialised; the result is the one of
    the driver. *)
Definition open_init (d : Z) : M Z :=
  v ← get_dev d;
  if negb (activated v) then
    r ← match dv_init v with Some f => drv_init drv f d | None => mret RT_EOK end;
    if negb (r =? RT_EOK) then mret r else activate d;; mret RT_EOK
  else mret RT_EOK.

(** [rt_device_open]. *)
Definition rt_device_open (d oflag : Z) : M Z :=
  r ← open_init d;
  if negb (r =? RT_EOK) then mret r
  else
    v ← get_dev d;
    if standalone v && opened v then mret (- RT_EBUSY)
    else
      mod_dev d (fun v => set_dv_ref_count (u8 (dv_ref_count v + 1)) v);;
      v1 ← get_dev d;
      rt_assert (negb (dv_ref_count v1 =? 0));;
      result ← match dv_open v1 with Some f => drv_open drv f d (u16 oflag) | None => mret RT_EOK end;
      (if (result =? RT_EOK) || (result =? - RT_ENOSYS)
       then mod_dev d (set_dv_open_flag (u16 (Z.lor (u16 oflag) RT_DEVICE_OFLAG_OPEN)))
       else mret tt);;
      mret result.

(** [rt_device_close]. *)
Definition rt_device_close (d : Z) : M Z :=
  v ← get_dev d;
  if dv_ref_count v =? 0 then mret (- RT_ERROR)
  else
    mod_dev d (fun v => set_dv_ref_count (u8 (dv_ref_count v - 1)) v);;
    v1 ← get_dev d;
    if negb (dv_ref_count v1 =? 0) then mret RT_EOK
    else
      result ← match dv_close v1 with Some f => drv_close drv f d | None => mret RT_EOK end;
      (if (result =? RT_EOK) || (result =? - RT_ENOSYS)
       then mod_dev d (set_dv_open_flag RT_DEVICE_OFLAG_CLOSE) else mret tt);;
      mret result.

(** [rt_device_read] and [rt_device_write]; the driver may suspend the caller. *)
Definition rt_device_read (d pos buffer size : Z) : M (wait (Z * list Z)) :=
  v ← get_dev d;
  if dv_ref_count v =? 0 then rt_set_errno (- RT_ERROR);; mret (Ret (0, []))
  else
    match dv_read v with
    | Some f => drv_read drv f d pos buffer size
    | None => rt_set_errno (- RT_ENOSYS);; mret (Ret (0, []))
    end.
Definition rt_device_write (d pos buffer : Z) (data : list Z) (size : Z) : M (wait Z) :=
  v ← get_dev d;
  if dv_ref_count v =? 0 then rt_set_errno (- RT_ERROR);; mret (Ret 0)
  else
    match dv_write v with
    | Some f => drv_write drv f d pos buffer data size
    | None => rt_set_errno (- RT_ENOSYS);; mret (Ret 0)
    end.

(** [rt_device_control]. *)
Definition rt_device_control (d cmd arg : Z) : M Z :=
  v ← get_dev d;
  match dv_control v with
  | Some f => drv_control drv f d (u8 cmd) arg
  | None => mret RT_EOK
  end.
End Operations.

(** [rt_device_set_rx_indicate], [rt_device_set_tx_complete]. *)
Definition rt_device_set_rx_indicate (d : Z) (rx_ind : option Z) : M Z :=
  mod_dev d (set_dv_rx_indicate rx_ind);; mret RT_EOK.
Definition rt_device_set_tx_complete (d : Z) (tx_done : option Z) : M Z :=
  mod_dev d (set_dv_tx_complete tx_done);; mret RT_EOK.

(** ** What the drivers promise *)

(** The fields of a device that belong to this layer. *)
Definition same_generic (v v' : rt_device) : Prop :=
  dv_ref_count v' = dv_ref_count v /\ dv_open_flag v' = dv_open_flag v /\ dv_init v' = dv_init v /\
  dv_open v' = dv_open v /\ dv_close v' = dv_close v /\ (activated v = true -> activated v' = true) /\
  standalone v' = standalone v.

(** What this layer does to a device itself. *)
Definition generic_change (v v' : rt_device) : Prop :=
  (exists n, v' = set_dv_ref_count n v) \/ (exists o, v' = set_dv_open_flag o v) \/
  v' = set_dv_flag (u16 (Z.lor (dv_flag v) RT_DEVICE_FLAG_ACTIVATED)) v.

(** A function of the driver of [d] touches no other device and not the registry; [valid] says
    which devices the driver can serve. *)
Record dev_kept (valid : kstate -> Z -> Prop) (d : Z) (k k' : kstate) : Prop := {
  kp_valid : forall d', valid k d' -> valid k' d';
  kp_container : k_container k' = k_container k;
  kp_others : forall d', d' <> d -> k_devs k' !! d' = k_devs k !! d';
  kp_self : forall v, k_devs k !! d = Some v -> exists v', k_devs k' !! d = Some v' /\ same_generic v v'
}.

(** They return; a device they could not initialise is not marked as active. *)
Class DriverOk (drv : driver) (valid : kstate -> Z -> Prop) : Prop := {
  valid_change k d v v' d' : valid k d' -> k_devs k !! d = Some v -> generic_change v v' -> valid (put_dev d v' k) d';
  init_ok f d k : is_Some (k_devs k !! d) -> valid k d ->
    exists r k', drv_init drv f d k = Some (r, k') /\ dev_kept valid d k k' /\
    (r <> RT_EOK -> activated <$> k_devs k' !! d = activated <$> k_devs k !! d);
  open_ok f d o k : is_Some (k_devs k !! d) -> valid k d ->
    exists r k', drv_open drv f d o k = Some (r, k') /\ dev_kept valid d k k';
  close_ok f d k : is_Some (k_devs k !! d) -> valid k d ->
    exists r k', drv_close drv f d k = Some (r, k') /\ dev_kept valid d k k'
}.

(** A driver whose hardware does not fail. *)
Definition faultless (drv : driver) (valid : kstate -> Z -> Prop) : Prop :=
  (forall f d k r k', valid k d -> drv_init drv f d k = Some (r, k') -> r = RT_EOK) /\
  (forall f d o k r k', valid k d -> drv_open drv f d o k = Some (r, k') -> r = RT_EOK) /\
  (forall f d k r k', valid k d -> drv_close drv f d k = Some (r, k') -> r = RT_EOK).

(** ** Lemmas *)

Lemma get_dev_run d v k : k_devs k !! d = Some v -> get_dev d k = Some (v, k).
Proof. intros E. unfold get_dev. by rewrite E. Qed.

Lemma mod_dev_run d v f k : k_devs k !! d = Some v -> mod_dev d f k = Some (tt, put_dev d (f v) k).
Proof. intros E. unfold mod_dev. by rewrite (bind_run _ _ _ _ _ (get_dev_run _ _ _ E)). Qed.

Lemma lookup_put_dev d v k : k_devs (put_dev d v k) !! d = Some v.
Proof. cbn. apply lookup_insert_eq. Qed.

#[export] Instance dev_kept_refl valid d : Reflexive (dev_kept valid d).
Proof. intros k. split; [done|done|done|]. intros v E. exists v. by repeat split. Qed.

(** A bit that was set stays set in 16 bits. *)
Lemma flag_set x n : 0 <= n < 16 -> negb (Z.land (u16 (Z.lor x (2 ^ n))) (2 ^ n) =? 0) = true.
Proof.
  intros Hn. apply negb_true_iff, Z.eqb_neq. intros H. apply (f_equal (fun y => Z.testbit y n)) in H.
  rewrite Z.land_spec, Z.bits_0 in H. unfold u16 in H. change 65536 with (2 ^ 16) in H.
  rewrite Z.mod_pow2_bits_low, Z.lor_spec, Z.pow2_bits_true, orb_true_r in H by lia. done.
Qed.

(** The other bits of the flags are kept. *)
Lemma flag_other x m n : 0 <= m < 16 -> 0 <= n -> m <> n ->
  Z.land (u16 (Z.lor x (2 ^ n))) (2 ^ m) = Z.land x (2 ^ m).
Proof.
  intros Hm Hn Hne. apply Z.bits_inj'. intros i Hi. rewrite !Z.land_spec. destruct (decide (i = m)) as [->|Hd].
  - f_equal. unfold u16. change 65536 with (2 ^ 16). rewrite Z.mod_pow2_bits_low, Z.lor_spec, Z.pow2_bits_false by lia.
    by rewrite orb_false_r.
  - rewrite Z.pow2_bits_false by lia. by rewrite !andb_false_r.
Qed.

(** An optional function of the driver that behaves. *)
Lemma optional_run valid (call : Z -> M Z) (o : option Z) d k :
  (forall f, exists r k', call f k = Some (r, k') /\ dev_kept valid d k k') ->
  exists r k', (match o with Some f => call f | None => mret RT_EOK end) k = Some (r, k') /\ dev_kept valid d k k'.
Proof. intros H. destruct o as [f|]; [apply H|]. exists RT_EOK, k. split; [done|reflexivity]. Qed.

Section Runs.
Context (drv : driver) (valid : kstate -> Z -> Prop) `{!DriverOk drv valid}.

(** Initialising on the way to opening. *)
Lemma open_init_run d v k :
  k_devs k !! d = Some v -> valid k d ->
  exists r k' v', open_init drv d k = Some (r, k') /\ k_devs k' !! d = Some v' /\
    k_container k' = k_container k /\ (forall d', d' <> d -> k_devs k' !! d' = k_devs k !! d') /\
    dv_ref_count v' = dv_ref_count v /\ dv_open_flag v' = dv_open_flag v /\ standalone v' = standalone v /\
    (activated v = true -> r = RT_EOK) /\ activated v' = (r =? RT_EOK) /\ (faultless drv valid -> r = RT_EOK) /\
    (forall d', valid k d' -> valid k' d').
Proof.
  intros E Hval. unfold open_init. rewrite (bind_run _ _ _ _ _ (get_dev_run _ _ _ E)).
  destruct (activated v) eqn:Ea; cbn [negb]; [by exists RT_EOK, k, v|].
  assert (Hopt : exists r k1, (match dv_init v with Some f => drv_init drv f d | None => mret RT_EOK end) k = Some (r, k1) /\
    dev_kept valid d k k1 /\ (r <> RT_EOK -> activated <$> k_devs k1 !! d = activated <$> k_devs k !! d)).
  { destruct (dv_init v) as [f|]; [apply init_ok; [by rewrite E|done]|]. exists RT_EOK, k. split; [done|]. by split. }
  destruct Hopt as (r & k1 & Er & Hk & Hact).
  destruct (kp_self _ _ _ _ Hk v E) as (v1 & E1 & Hr & Ho & _ & _ & _ & _ & Hs).
  assert (Hfl : faultless drv valid -> r = RT_EOK).
  { intros (H1 & _). destruct (dv_init v) as [f|]; [by eapply H1|by injection Er]. }
  rewrite (bind_run _ _ _ _ _ Er). destruct (Z.eqb_spec r RT_EOK) as [->|Hne]; cbn [negb].
  - set (v2 := set_dv_flag (u16 (Z.lor (dv_flag v1) RT_DEVICE_FLAG_ACTIVATED)) v1).
    exists RT_EOK, (put_dev d v2 k1), v2. split; [unfold activate; by rewrite (bind_run _ _ _ _ _ (mod_dev_run _ _ _ _ E1))|].
    split; [apply lookup_put_dev|]. split; [apply Hk|]. split; [intros d' Hd; cbn; rewrite lookup_insert_ne by done; by apply Hk|].
    split; [done|]. split; [done|]. split; [|split; [done|split; [|split; [done|]]]].
    + rewrite <-Hs. unfold standalone, v2. cbn [dv_flag set_dv_flag]. f_equal. f_equal. by apply (flag_other (dv_flag v1) 3 4).
    + by apply (flag_set (dv_flag v1) 4).
    + intros d' Hd'. apply valid_change with v1; [by apply Hk|done|by right; right].
  - exists r, k1, v1. split; [done|]. split; [done|]. split; [apply Hk|]. split; [apply Hk|]. do 3 (split; [done|]).
    split; [done|]. split; [|split; [done|apply Hk]]. specialize (Hact Hne). rewrite E1, E in Hact. injection Hact as ->. rewrite Ea. symmetry. by apply Z.eqb_neq.
Qed.

(** What [rt_device_open] has done to the device, by its result. *)
Definition open_outcome (oflag r : Z) (v v' : rt_device) : Prop :=
  (activated v' = false /\ r <> RT_EOK /\ dv_ref_count v' = dv_ref_count v /\ dv_open_flag v' = dv_open_flag v) \/
  (activated v' = true /\ standalone v = true /\ opened v = true /\ r = - RT_EBUSY /\
     dv_ref_count v' = dv_ref_count v /\ dv_open_flag v' = dv_open_flag v) \/
  (activated v' = true /\ standalone v && opened v = false /\ dv_ref_count v' = dv_ref_count v + 1 /\
     dv_open_flag v' = if (r =? RT_EOK) || (r =? - RT_ENOSYS) then u16 (Z.lor (u16 oflag) RT_DEVICE_OFLAG_OPEN) else dv_open_flag v).

Lemma rt_device_open_run d oflag v k :
  k_devs k !! d = Some v -> valid k d -> 0 <= dv_ref_count v < 255 ->
  exists r k' v', rt_device_open drv d oflag k = Some (r, k') /\ k_devs k' !! d = Some v' /\
    k_container k' = k_container k /\ (forall d', d' <> d -> k_devs k' !! d' = k_devs k !! d') /\
    standalone v' = standalone v /\ (forall d', valid k d' -> valid k' d') /\ open_outcome oflag r v v' /\
    (faultless drv valid -> standalone v = false -> r = RT_EOK /\ dv_ref_count v' = dv_ref_count v + 1 /\ opened v' = true).
Proof.
  intros E Hval Hrc.
  destruct (open_init_run d v k E Hval) as (r0 & k0 & v0 & Er0 & E0 & C0 & O0 & Hr0 & Ho0 & Hs0 & _ & Ha0 & Hf0 & V0).
  unfold rt_device_open. rewrite (bind_run _ _ _ _ _ Er0). destruct (Z.eqb_spec r0 RT_EOK) as [->|Hne]; cbn [negb].
  2:{ exists r0, k0, v0. do 6 (split; [done|]). split; [left; done|]. intros Hfl. by destruct Hne; apply Hf0. }
  rewrite (bind_run _ _ _ _ _ (get_dev_run _ _ _ E0)). unfold opened at 1. rewrite Hs0, Ho0. fold (opened v).
  destruct (standalone v && opened v) eqn:Eb.
  { exists (- RT_EBUSY), k0, v0. do 6 (split; [done|]). apply andb_true_iff in Eb as [Hst Hop]. split; [right; left; done|congruence]. }
  mstep_by (mod_dev_run d v0 (fun v => set_dv_ref_count (u8 (dv_ref_count v + 1)) v) k0 E0).
  set (v1 := set_dv_ref_count (u8 (dv_ref_count v0 + 1)) v0). set (k1 := put_dev d v1 k0).
  assert (E1 : k_devs k1 !! d = Some v1) by apply lookup_put_dev.
  assert (Hc1 : dv_ref_count v1 = dv_ref_count v + 1) by (cbn; rewrite Hr0; mlia).
  mstep_by (get_dev_run d v1 k1 E1). erewrite bind_run; [|apply rt_assert_run; by destruct (Z.eqb_spec (dv_ref_count v1) 0); [lia|]].
  assert (V1 : forall d', valid k d' -> valid k1 d').
  { intros d' Hd'. apply valid_change with v0; [by apply V0|done|left; by eexists]. }
  destruct (optional_run valid (fun f => drv_open drv f d (u16 oflag)) (dv_open v1) d k1) as (r & k2 & Er & Hk).
  { intros f. apply open_ok; [by rewrite E1|by apply V1]. }
  destruct (kp_self _ _ _ _ Hk v1 E1) as (v2 & E2 & Hr2 & Ho2 & _ & _ & _ & Ha2 & Hs2).
  assert (Hfl : faultless drv valid -> r = RT_EOK).
  { intros (_ & H1 & _). destruct (dv_open v1) as [f|]; [by eapply H1; [apply V1|]|by injection Er]. }
  assert (O2 : forall d', d' <> d -> k_devs k2 !! d' = k_devs k !! d').
  { intros d' Hd. rewrite (kp_others _ _ _ _ Hk d' Hd). cbn. rewrite lookup_insert_ne by done. by apply O0. }
  assert (C2 : k_container k2 = k_container k) by (rewrite (kp_container _ _ _ _ Hk); exact C0).
  assert (Ha : activated v2 = true) by (apply Ha2; exact Ha0).
  assert (Hs : standalone v2 = standalone v) by (rewrite Hs2; exact Hs0).
  rewrite (bind_run _ _ _ _ _ Er). destruct ((r =? RT_EOK) || (r =? - RT_ENOSYS)) eqn:Eok.
  - set (v3 := set_dv_open_flag (u16 (Z.lor (u16 oflag) RT_DEVICE_OFLAG_OPEN)) v2).
    mstep_by (mod_dev_run d v2 (set_dv_open_flag (u16 (Z.lor (u16 oflag) RT_DEVICE_OFLAG_OPEN))) k2 E2). fold v3.
    exists r, (put_dev d v3 k2), v3. split; [done|]. split; [apply lookup_put_dev|]. split; [done|].
    split; [intros d' Hd; cbn; rewrite lookup_insert_ne by done; by apply O2|]. split; [done|]. split; [|split].
    + intros d' Hd'. apply valid_change with v2; [by apply Hk, V1|done|right; left; by eexists].
    + right; right. rewrite Eok. split; [done|]. split; [done|]. split; [cbn; congruence|done].
    + intros Hf _. split; [by apply Hfl|]. split; [cbn; congruence|]. by apply (flag_set (u16 oflag) 3).
  - mstep. exists r, k2, v2. split; [done|]. split; [done|]. split; [done|]. split; [done|]. split; [done|]. split; [by intros d' Hd'; apply Hk, V1|]. split.
    + right; right. rewrite Eok. split; [done|]. split; [done|]. split; [congruence|]. rewrite Ho2. exact Ho0.
    + intros Hf. rewrite (Hfl Hf) in Eok. done.
Qed.

(** [rt_device_close] of a device in use. *)
Lemma rt_device_close_run d v k :
  k_devs k !! d = Some v -> valid k d -> 0 < dv_ref_count v < 256 ->
  exists r k' v', rt_device_close drv d k = Some (r, k') /\ k_devs k' !! d = Some v' /\
    k_container k' = k_container k /\ (forall d', d' <> d -> k_devs k' !! d' = k_devs k !! d') /\
    standalone v' = standalone v /\ dv_ref_count v' = dv_ref_count v - 1 /\ (faultless drv valid -> r = RT_EOK) /\
    (forall d', valid k d' -> valid k' d') /\
    if dv_ref_count v =? 1 then
      dv_open_flag v' = if (r =? RT_EOK) || (r =? - RT_ENOSYS) then RT_DEVICE_OFLAG_CLOSE else dv_open_flag v
    else r = RT_EOK /\ k' = put_dev d (set_dv_ref_count (dv_ref_count v - 1) v) k.
Proof.
  intros E Hval Hrc. unfold rt_device_close. rewrite (bind_run _ _ _ _ _ (get_dev_run _ _ _ E)).
  destruct (Z.eqb_spec (dv_ref_count v) 0); [lia|].
  mstep_by (mod_dev_run d v (fun v => set_dv_ref_count (u8 (dv_ref_count v - 1)) v) k E).
  assert (Eu : u8 (dv_ref_count v - 1) = dv_ref_count v - 1) by mlia. rewrite Eu.
  set (v1 := set_dv_ref_count (dv_ref_count v - 1) v). set (k1 := put_dev d v1 k).
  assert (E1 : k_devs k1 !! d = Some v1) by apply lookup_put_dev.
  assert (O1 : forall d', d' <> d -> k_devs k1 !! d' = k_devs k !! d') by (intros; cbn; by rewrite lookup_insert_ne).
  assert (V1 : forall d', valid k d' -> valid k1 d').
  { intros d' Hd'. apply valid_change with v; [done|done|left; by eexists]. }
  mstep_by (get_dev_run d v1 k1 E1). change (dv_ref_count v1) with (dv_ref_count v - 1).
  destruct (Z.eqb_spec (dv_ref_count v - 1) 0), (Z.eqb_spec (dv_ref_count v) 1); try lia; cbn [negb]; [|by exists RT_EOK, k1, v1].
  destruct (optional_run valid (fun f => drv_close drv f d) (dv_close v1) d k1) as (r & k2 & Er & Hk).
  { intros f. apply close_ok; [by rewrite E1|by apply V1]. }
  destruct (kp_self _ _ _ _ Hk v1 E1) as (v2 & E2 & Hr2 & Ho2 & _ & _ & _ & _ & Hs2).
  assert (Hfl : faultless drv valid -> r = RT_EOK).
  { intros (_ & _ & H1). destruct (dv_close v1) as [f|]; [by eapply H1; [apply V1|]|by injection Er]. }
  assert (O2 : forall d', d' <> d -> k_devs k2 !! d' = k_devs k !! d').
  { intros d' Hd. rewrite (kp_others _ _ _ _ Hk d' Hd). by apply O1. }
  pose proof (kp_container _ _ _ _ Hk) as C2. rewrite (bind_run _ _ _ _ _ Er). destruct ((r =? RT_EOK) || (r =? - RT_ENOSYS)) eqn:Eok.
  - mstep_by (mod_dev_run d v2 (set_dv_open_flag RT_DEVICE_OFLAG_CLOSE) k2 E2).
    eexists r, _, _. split; [done|]. split; [apply lookup_put_dev|]. split; [done|].
    split; [intros d' Hd; cbn; rewrite lookup_insert_ne by done; by apply O2|]. do 3 (split; [done|]). split; [|by rewrite Eok].
    intros d' Hd'. apply valid_change with v2; [by apply Hk, V1|done|right; left; by eexists].
  - mstep. exists r, k2, v2. do 7 (split; [done|]). split; [by intros d' Hd'; apply Hk, V1|]. by rewrite Eok.
Qed.

(** ** The users of a device *)

(** The device [d], which can be shared, has [n] users and is open when there are any. *)
Definition dev_users (k : kstate) (d n : Z) : Prop :=
  exists v, k_devs k !! d = Some v /\ dv_ref_count v = n /\ 0 <= n < 256 /\ standalone v = false /\
    opened v = (0 <? n).

Lemma opened_closed v : dv_open_flag v = RT_DEVICE_OFLAG_CLOSE -> opened v = false.
Proof. intros H. unfold opened. by rewrite H. Qed.
End Runs.

Inductive dev_call := DOpen (oflag : Z) | DClose.

Definition dev_do (drv : driver) (d : Z) (c : dev_call) : M Z :=
  match c with DOpen oflag => rt_device_open drv d oflag | DClose => rt_device_close drv d end.
Fixpoint dev_calls (drv : driver) (d : Z) (cs : list dev_call) : M (list Z) :=
  match cs with
  | [] => mret []
  | c :: cs' => r ← dev_do drv d c; rs ← dev_calls drv d cs'; mret (r :: rs)
  end.

(** The specification: a count of users that is at most 255. *)
Definition spec_call (n : Z) (c : dev_call) : option (Z * Z) :=
  match c with
  | DOpen _ => if n <? 255 then Some (RT_EOK, n + 1) else None
  | DClose => if n =? 0 then Some (- RT_ERROR, 0) else Some (RT_EOK, n - 1)
  end.
Fixpoint spec_calls (n : Z) (cs : list dev_call) : option (list Z * Z) :=
  match cs with
  | [] => Some ([], n)
  | c :: cs' => p ← spec_call n c; q ← spec_calls p.2 cs'; Some (p.1 :: q.1, q.2)
  end.

Lemma dev_do_spec drv valid `{!DriverOk drv valid} d n c k r n' :
  faultless drv valid -> valid k d -> dev_users k d n -> spec_call n c = Some (r, n') ->
  exists k', dev_do drv d c k = Some (r, k') /\ valid k' d /\ dev_users k' d n'.
Proof.
  intros Hf Hval (v & E & Hn & Hr & Hs & Ho) Hc. destruct c as [oflag|]; cbn in Hc.
  - destruct (Z.ltb_spec n 255); [|done]. injection Hc as <- <-.
    destruct (rt_device_open_run drv valid d oflag v k E Hval ltac:(lia)) as (r & k' & v' & Er & E' & _ & _ & Hs' & V' & _ & Hgo).
    destruct (Hgo Hf Hs) as (-> & Hc' & Ho'). exists k'. split; [done|]. split; [by apply V'|]. exists v'. split; [done|]. split; [lia|].
    split; [lia|]. split; [congruence|]. rewrite Ho'. symmetry. apply Z.ltb_lt. lia.
  - destruct (Z.eqb_spec n 0) as [->|Hne]; injection Hc as <- <-.
    + exists k. split; [|split; [done|exists v; done]]. cbn [dev_do]. unfold rt_device_close. rewrite (bind_run _ _ _ _ _ (get_dev_run _ _ _ E)). by rewrite Hn.
    + destruct (rt_device_close_run drv valid d v k E Hval ltac:(lia)) as (r & k' & v' & Er & E' & _ & _ & Hs' & Hc' & Hf' & V' & Hcase).
      rewrite (Hf' Hf) in *. exists k'. split; [done|]. split; [by apply V'|]. exists v'. split; [done|]. split; [lia|]. split; [lia|]. split; [congruence|].
      destruct (Z.eqb_spec (dv_ref_count v) 1).
      * rewrite opened_closed by done. symmetry. apply Z.ltb_ge. lia.
      * destruct Hcase as [_ ->]. rewrite lookup_put_dev in E'. injection E' as <-. change (opened v = (0 <? n - 1)). rewrite Ho.
        destruct (Z.ltb_spec 0 n), (Z.ltb_spec 0 (n - 1)); lia || done.
Qed.

(** C27. Devices are used in sessions: for every sequence of [rt_device_open] and
    [rt_device_close], in any order, with at most 255 users at a time and a driver that does
    not fail, every open succeeds, a close fails exactly when nobody uses the device, and the
    device is open exactly while the number of opens exceeds the number of successful closes. *)
Theorem device_sessions drv valid `{!DriverOk drv valid} d n cs k rs n' :
  faultless drv valid -> valid k d -> dev_users k d n -> spec_calls n cs = Some (rs, n') ->
  exists k', dev_calls drv d cs k = Some (rs, k') /\ valid k' d /\ dev_users k' d n'.
Proof.
  intros Hf. revert n k rs n'. induction cs as [|c cs IH]; intros n k rs n' Hval Hu Hc; cbn in Hc.
  - injection Hc as <- <-. by exists k.
  - destruct (spec_call n c) as [[r n1]|] eqn:E1; [|done]. cbn in Hc.
    destruct (spec_calls n1 cs) as [[rs1 n2]|] eqn:E2; [|done]. cbn in Hc. injection Hc as <- <-.
    destruct (dev_do_spec drv valid d n c k r n1 Hf Hval Hu E1) as (k1 & Er1 & Hv1 & Hu1).
    destruct (IH n1 k1 rs1 n2 Hv1 Hu1 E2) as (k2 & Er2 & Hu2). exists k2. split; [|done].
    cbn [dev_calls]. rewrite (bind_run _ _ _ _ _ Er1). by rewrite (bind_run _ _ _ _ _ Er2).
Qed.

(** [rt_device_open] on every branch, whatever the driver returns: a failed initialisation
    and a busy device count no user; otherwise the user is counted, even when the driver's
    open fails and the device is not marked as open. *)
Theorem rt_device_open_spec drv valid `{!DriverOk drv valid} d oflag v k :
  k_devs k !! d = Some v -> valid k d -> 0 <= dv_ref_count v < 255 ->
  exists r k' v', rt_device_open drv d oflag k = Some (r, k') /\ k_devs k' !! d = Some v' /\
    (forall d', d' <> d -> k_devs k' !! d' = k_devs k !! d') /\ open_outcome oflag r v v'.
Proof.
  intros E Hval Hr. destruct (rt_device_open_run drv valid d oflag v k E Hval Hr) as (r & k' & v' & H1 & H2 & _ & H3 & _ & _ & H4 & _). by eauto 10.
Qed.

(** ** Names *)

Definition bytes (s : list Z) : Prop := Forall (fun c => 0 <= c < 256) s.

(** Two names are compared by what is stored of them. *)
Lemma strncmp_stored n : forall s t a b, bytes s -> bytes t ->
  rt_strncpy s n = Some a -> rt_strncpy t n = Some b ->
  exists r, rt_strncmp a t n = Some r /\ (r = 0 <-> a = b).
Proof.
  induction n as [|n IH]; intros s t a b Hs Ht Ea Eb.
  - destruct s, t; injection Ea as <-; injection Eb as <-; by exists 0.
  - destruct s as [|c s]; [done|]. destruct t as [|e t]; [done|]. apply list.Forall_cons in Hs as [Hc Hs], Ht as [He Ht].
    assert (Hb : exists b', b = e :: b' /\ (e <> 0 -> rt_strncpy t n = Some b') /\ (e = 0 -> b' = replicate n 0)).
    { cbn in Eb. destruct (Z.eqb_spec e 0) as [->|Hne]; [injection Eb as <-; eexists; split; [done|]; split; [congruence|done]|].
      destruct (rt_strncpy t n) as [b'|] eqn:E; [|done]. injection Eb as <-. eexists. split; [done|]. split; [done|congruence]. }
    assert (Ha : exists a', a = c :: a' /\ (c <> 0 -> rt_strncpy s n = Some a') /\ (c = 0 -> a' = replicate n 0)).
    { cbn in Ea. destruct (Z.eqb_spec c 0) as [->|Hne]; [injection Ea as <-; eexists; split; [done|]; split; [congruence|done]|].
      destruct (rt_strncpy s n) as [a'|] eqn:E; [|done]. injection Ea as <-. eexists. split; [done|]. split; [done|congruence]. }
    destruct Ha as (a' & -> & Ha1 & Ha2), Hb as (b' & -> & Hb1 & Hb2). cbn [rt_strncmp].
    destruct (Z.eqb_spec (i8 (c - e)) 0) as [Hi|Hi]; cbn [negb orb].
    + assert (c = e) as -> by mlia. destruct (Z.eqb_spec e 0) as [->|Hne].
      * exists 0. split; [done|]. rewrite Ha2, Hb2 by done. done.
      * destruct (IH s t a' b' Hs Ht (Ha1 Hne) (Hb1 Hne)) as (r & Er & Hr). exists r. split; [done|]. rewrite Hr.
        split; [by intros ->|by injection 1].
    + exists (u32 (i8 (c - e))). split; [done|]. split; [intros H; destruct Hi; mlia|]. injection 1 as ->. destruct Hi. by rewrite Z.sub_diag.
Qed.

(** The registry: the devices have names, and no two the same. *)
Definition devices (k : kstate) : list oid := objects k RT_Object_Class_Device.
Definition stored (name : list Z) : list Z := default [] (rt_strncpy name RT_NAME_MAX).
Definition named (k : kstate) (o : oid) (nm : list Z) : Prop := exists ob, k_objs k !! o = Some ob /\ o_name ob = nm.

Record registry_ok (k : kstate) : Prop := {
  rg_named : forall o, o ∈ devices k -> exists s, bytes s /\ valid_name s /\ named k o (stored s);
  rg_unique : forall o o' nm, o ∈ devices k -> o' ∈ devices k -> named k o nm -> named k o' nm -> o = o'
}.

Lemma valid_stored s : valid_name s -> rt_strncpy s RT_NAME_MAX = Some (stored s).
Proof. intros [a E]. unfold stored. by rewrite E. Qed.

(** The search finds the device that has the name. *)
Lemma find_by_name_run k name l :
  bytes name -> valid_name name ->
  (forall o, o ∈ l -> exists s, bytes s /\ valid_name s /\ named k o (stored s)) ->
  exists r, find_by_name (k_objs k) name l = Some r /\
    match r with
    | Some o => o ∈ l /\ named k o (stored name)
    | None => forall o, o ∈ l -> ~ named k o (stored name)
    end.
Proof.
  intros Hb Hv. induction l as [|o l IH]; intros Hl; cbn [find_by_name].
  - exists None. split; [done|]. intros o Ho. by apply not_elem_of_nil in Ho.
  - destruct (Hl o) as (s & Hsb & Hsv & ob & E & Hn); [set_solver|]. rewrite E. cbn [mbind option_bind].
    destruct (strncmp_stored RT_NAME_MAX s name (stored s) (stored name)) as (r & Er & Hr); try done; [by apply valid_stored..|].
    rewrite Hn, Er. cbn [mbind option_bind]. destruct (Z.eqb_spec r 0) as [Hz|Hz].
    + exists (Some o). split; [done|]. split; [set_solver|]. exists ob. split; [done|]. rewrite Hn. by apply Hr.
    + destruct IH as (r' & Er' & Hr'); [intros; apply Hl; set_solver|]. exists r'. split; [done|]. destruct r' as [o'|].
      * destruct Hr' as [H1 H2]. split; [set_solver|done].
      * intros o' Ho'. apply elem_of_cons in Ho' as [->|Ho']; [|by apply Hr'].
        intros (ob' & E' & Hn'). apply Hz, Hr. congruence.
Qed.

Lemma registry_ok_same k k' : k_objs k' = k_objs k -> k_container k' = k_container k -> registry_ok k -> registry_ok k'.
Proof.
  intros Eo Ec [H1 H2]. unfold devices, objects, named in *. split; unfold devices, objects, named; rewrite Eo, Ec; done.
Qed.

Lemma rt_device_find_run b bd idle k name :
  core b bd idle k -> 0 <= k_lock_nest k < 32767 -> registry_ok k -> bytes name -> valid_name name ->
  exists r k', rt_device_find name k = Some (r, k') /\ core b bd idle k' /\ core_only k k' /\
    match r with
    | Some o => o ∈ devices k /\ named k o (stored name)
    | None => forall o, o ∈ devices k -> ~ named k o (stored name)
    end.
Proof.
  intros Hc Hl Hg Hb Hv. destruct (find_by_name_run k name (devices k) Hb Hv (rg_named k Hg)) as (r & Er & Hr).
  set (k0 := set_k_lock_nest (i16 (k_lock_nest k + 1)) k).
  destruct (exit_critical_core b bd idle (k_lock_nest k) k0) as (k' & Ex & Hc' & F & _); [by apply set_lock_core|done|cbn; mlia|].
  exists r, k'. split; [|split; [done|split; [|done]]].
  - unfold rt_device_find, rt_thread_self. mstep. rewrite bool_decide_true by apply Hc. unfold rt_enter_critical. mstep. fold k0.
    do 2 mstep. change (objects k0) with (objects k). change (k_objs k0) with (k_objs k). fold (devices k). rewrite Er. mstep. by mstep_by Ex.
  - unfold core_only in *. rewrite F. by destruct k.
Qed.

Lemma put_dev_core b bd idle d v k : core b bd idle k -> core b bd idle (put_dev d v k).
Proof.
  intros [[[Hwf Hw] Hi Hs] Hcur]. split; [split; [split|..]|]; try done;
    [by apply (sched_wf_ext k)|by apply (timer_wf_ext b bd k)].
Qed.
Lemma object_added_core b bd idle o name k : core b bd idle k -> core b bd idle (object_added o name k).
Proof.
  intros [[[Hwf Hw] Hi Hs] Hcur]. split; [split; [split|..]|]; try done;
    [by apply (sched_wf_ext k)|by apply (timer_wf_ext b bd k)].
Qed.

(** A new device under a name that is free. *)
Lemma registry_ok_added d name k :
  registry_ok k -> bytes name -> valid_name name -> ODev d ∉ devices k ->
  (forall o, o ∈ devices k -> ~ named k o (stored name)) -> registry_ok (object_added (ODev d) name k).
Proof.
  intros [H1 H2] Hb Hv Hnew Hfree.
  assert (Hd : devices (object_added (ODev d) name k) = ODev d :: devices k).
  { unfold devices, object_added, objects, put_objects. cbn. by rewrite lookup_insert_eq. }
  assert (Hself : forall nm, named (object_added (ODev d) name k) (ODev d) nm <-> nm = stored name).
  { intros nm. unfold named, object_added. cbn. rewrite lookup_insert_eq. split; [by intros (ob & [= <-] & <-)|intros ->; by eexists]. }
  assert (Hold : forall o nm, o ∈ devices k -> named (object_added (ODev d) name k) o nm <-> named k o nm).
  { intros o nm Ho. unfold named, object_added. cbn. rewrite lookup_insert_ne by (intros <-; done). done. }
  split.
  - intros o. rewrite Hd. intros Ho. apply elem_of_cons in Ho as [->|Ho].
    + exists name. split; [done|]. split; [done|]. by apply Hself.
    + destruct (H1 o Ho) as (s & ? & ? & ?). exists s. split; [done|]. split; [done|]. by apply Hold.
  - intros o o' nm. rewrite Hd. intros Ho Ho' Hn Hn'. apply elem_of_cons in Ho as [->|Ho], Ho' as [->|Ho'].
    + done.
    + apply Hself in Hn as ->. apply Hold in Hn'; [|done]. by destruct (Hfree o').
    + apply Hself in Hn' as ->. apply Hold in Hn; [|done]. by destruct (Hfree o).
    + apply Hold in Hn, Hn'; [|done..]. by eapply H2.
Qed.

(** [rt_device_register] keeps the names of the devices different: a name in use, up to the
    eight bytes that are stored, is refused and nothing is registered; otherwise the device is
    registered, closed, and [rt_device_find] finds it under its name. *)
Theorem rt_device_register_find b bd idle d dev name flags k :
  core b bd idle k -> 0 <= k_lock_nest k < 32767 -> registry_ok k -> bytes name -> valid_name name ->
  d <> 0 -> ODev d ∉ devices k ->
  exists r k', rt_device_register d dev name flags k = Some (r, k') /\ core b bd idle k' /\ registry_ok k' /\
    if bool_decide (r = RT_EOK) then
      (forall o, o ∈ devices k -> ~ named k o (stored name)) /\ devices k' = ODev d :: devices k /\
      k_devs k' = <[d := set_dv_ref_count 0 (set_dv_flag (u16 flags) dev)]> (k_devs k) /\
      exists k'', rt_device_find name k' = Some (Some (ODev d), k'')
    else r = - RT_ERROR /\ (exists o, o ∈ devices k /\ named k o (stored name)) /\
      k_devs k' = k_devs k /\ k_container k' = k_container k.
Proof.
  intros Hc Hl Hg Hb Hv Hd Hnew.
  destruct (rt_device_find_run b bd idle k name Hc Hl Hg Hb Hv) as (r & k1 & Er & Hc1 & F & Hr).
  assert (Eo : k_objs k1 = k_objs k) by (by rewrite F). assert (Ec : k_container k1 = k_container k) by (by rewrite F).
  assert (Ed : devices k1 = devices k) by (unfold devices, objects; by rewrite Ec).
  assert (Hg1 : registry_ok k1) by (by apply (registry_ok_same k)).
  unfold rt_device_register. destruct (Z.eqb_spec d 0); [done|]. mstep_by Er. destruct r as [o|].
  - exists (- RT_ERROR), k1. split; [done|]. split; [done|]. split; [done|]. rewrite bool_decide_false by done.
    split; [done|]. split; [by exists o|]. split; [by rewrite F|done].
  - assert (Hfree : forall o, o ∈ devices k1 -> ~ named k1 o (stored name)).
    { intros o. rewrite Ed. unfold named. rewrite Eo. apply Hr. }
    assert (Hnew1 : ODev d ∉ devices k1) by (by rewrite Ed).
    set (k2 := object_added (ODev d) name k1). set (v := set_dv_ref_count 0 (set_dv_flag (u16 flags) dev)).
    assert (Hg2 : registry_ok (put_dev d v k2)) by (apply (registry_ok_same k2); [done|done|by apply registry_ok_added]).
    assert (Hc2 : core b bd idle (put_dev d v k2)) by (by apply put_dev_core, object_added_core).
    assert (Hdev : devices (put_dev d v k2) = ODev d :: devices k).
    { rewrite <-Ed. unfold devices, objects. cbn. by rewrite lookup_insert_eq. }
    exists RT_EOK, (put_dev d v k2). split; [|split; [done|split; [done|]]].
    + mstep_by (rt_object_init_run (ODev d) name k1 Hv ltac:(by apply bool_decide_false)). by mstep.
    + rewrite bool_decide_true by done. split; [done|]. split; [done|]. split; [unfold put_dev, k2, object_added; cbn; by rewrite F|].
      destruct (rt_device_find_run b bd idle (put_dev d v k2) name Hc2) as (r & k3 & Er3 & _ & _ & Hr3); [cbn; by rewrite F|done..|].
      exists k3. rewrite Er3. destruct r as [o|].
      * destruct Hr3 as [H1 H2]. do 2 f_equal. f_equal. eapply (rg_unique _ Hg2); [done| |exact H2|]; [rewrite Hdev; set_solver|].
        eexists. split; [apply lookup_insert_eq|done].
      * destruct (Hr3 (ODev d)); [rewrite Hdev; set_solver|]. eexists. split; [apply lookup_insert_eq|done].
Qed.

(** ** Initialising all devices *)

Lemma next_object_after o l1 l2 : o ∉ l1 -> next_object o (l1 ++ o :: l2) = head l2.
Proof.
  induction l1 as [|x l1 IH]; intros Hn; cbn; [by rewrite bool_decide_true|].
  rewrite bool_decide_false by set_solver. apply IH. set_solver.
Qed.

(** What initialising has done to the device [d]. *)
Definition initialised (drv : driver) (valid : kstate -> Z -> Prop) (d : Z) (k k' : kstate) : Prop :=
  exists v v', k_devs k !! d = Some v /\ k_devs k' !! d = Some v' /\ dv_init v' = dv_init v /\
    (dv_init v = None \/ activated v = true -> v' = v) /\
    (faultless drv valid -> is_Some (dv_init v) -> activated v' = true).

Lemma init_one_run drv valid `{!DriverOk drv valid} d v k :
  k_devs k !! d = Some v -> valid k d ->
  exists k', init_one drv (ODev d) k = Some (tt, k') /\ k_container k' = k_container k /\
    (forall d', d' <> d -> k_devs k' !! d' = k_devs k !! d') /\ (forall d', valid k d' -> valid k' d') /\
    initialised drv valid d k k'.
Proof.
  intros E Hval. unfold init_one. rewrite (bind_run _ _ _ _ _ (get_dev_run _ _ _ E)).
  destruct (dv_init v) as [f|] eqn:Ei.
  2:{ exists k. do 4 (split; [done|]). exists v, v. do 4 (split; [done|]). rewrite Ei. by intros _ [? ?]. }
  destruct (activated v) eqn:Ea; cbn [negb]; [exists k; do 4 (split; [done|]); by exists v, v|].
  destruct (init_ok f d k) as (r & k1 & Er & Hk & _); [by rewrite E|done|].
  destruct (kp_self _ _ _ _ Hk v E) as (v1 & E1 & _ & _ & Hi & _).
  rewrite (bind_run _ _ _ _ _ Er). destruct (Z.eqb_spec r RT_EOK) as [->|Hne]; cbn [negb].
  - unfold activate. rewrite (mod_dev_run _ _ _ _ E1).
    eexists. split; [done|]. split; [apply Hk|]. split; [intros d' Hd; cbn; rewrite lookup_insert_ne by done; by apply Hk|].
    split; [intros d' Hd'; apply valid_change with v1; [by apply Hk|done|by right; right]|].
    eexists v, _. split; [done|]. split; [apply lookup_put_dev|]. split; [done|]. split; [intros [?|?]; congruence|].
    intros _ _. by apply (flag_set (dv_flag v1) 4).
  - exists k1. split; [done|]. split; [apply Hk|]. split; [apply Hk|]. split; [apply Hk|]. exists v, v1. do 3 (split; [done|]).
    split; [intros [?|?]; congruence|]. intros (Hf & _). by destruct Hne; eapply Hf; [exact Hval|].
Qed.

Lemma init_all_loop_run drv valid `{!DriverOk drv valid} l2 : forall l1 k,
  devices k = l1 ++ l2 -> NoDup (l1 ++ l2) ->
  (forall o, o ∈ l2 -> exists d, o = ODev d /\ is_Some (k_devs k !! d) /\ valid k d) ->
  exists k', init_all_loop drv (length l2) (head l2) k = Some (tt, k') /\ k_container k' = k_container k /\
    (forall d, ODev d ∉ l2 -> k_devs k' !! d = k_devs k !! d) /\
    (forall d, ODev d ∈ l2 -> initialised drv valid d k k').
Proof.
  induction l2 as [|o l2 IH]; intros l1 k Hl Hn Hd; cbn [init_all_loop head length].
  - exists k. split; [done|]. split; [done|]. split; [done|]. intros d Hin. by apply not_elem_of_nil in Hin.
  - destruct (Hd o) as (d & -> & [v E] & Hval); [set_solver|].
    destruct (init_one_run drv valid d v k E Hval) as (k1 & Er & Ec & Eo & V1 & Hi). mstep_by Er. mstep.
    assert (Hd1 : devices k1 = l1 ++ ODev d :: l2) by (rewrite <-Hl; unfold devices, objects; by rewrite Ec).
    apply list.NoDup_app in Hn as Hn'. destruct Hn' as (_ & Hdis & Hn2). apply list.NoDup_cons in Hn2 as [Hnd _].
    fold (devices k1). rewrite Hd1, next_object_after by (intros Hin; apply (Hdis _ Hin); set_solver).
    destruct (IH (l1 ++ [ODev d]) k1) as (k' & Er' & Ec' & Eo' & Hi').
    { by rewrite Hd1, <-app_assoc. } { by rewrite <-app_assoc. }
    { intros o Ho. destruct (Hd o) as (d' & -> & Hs & Hv'); [set_solver|]. exists d'. split; [done|].
      split; [|by apply V1]. rewrite Eo; [done|]. by intros ->. }
    exists k'. split; [done|]. split; [congruence|]. split.
    + intros d' Hd'. rewrite Eo' by set_solver. apply Eo. intros ->. set_solver.
    + intros d' Hd'. apply elem_of_cons in Hd' as [[= ->]|Hin].
      * unfold initialised in *. by rewrite Eo'.
      * destruct (Hi' d' Hin) as (w & w' & Ew & Hw). exists w, w'. split; [|done]. rewrite <-Ew. symmetry. apply Eo. by intros ->.
Qed.

(** [rt_device_init_all] goes through the whole list of devices and ends; every registered
    device is dealt with: those that were active or have no function for it
    are as they were, and with drivers that do not fail all others are active. *)
Theorem rt_device_init_all_spec drv valid `{!DriverOk drv valid} k :
  NoDup (devices k) -> (forall o, o ∈ devices k -> exists d, o = ODev d /\ is_Some (k_devs k !! d) /\ valid k d) ->
  exists k', rt_device_init_all drv k = Some (RT_EOK, k') /\ devices k' = devices k /\
    (forall d, ODev d ∉ devices k -> k_devs k' !! d = k_devs k !! d) /\
    (forall d, ODev d ∈ devices k -> initialised drv valid d k k').
Proof.
  intros Hn Hd. destruct (init_all_loop_run drv valid (devices k) [] k eq_refl Hn Hd) as (k' & Er & Ec & Eo & Hi).
  exists k'. split; [|split; [unfold devices, objects; by rewrite Ec|done]].
  unfold rt_device_init_all. mstep. fold (devices k). by mstep_by Er.
Qed.
