(* ===== verification/Serial.v ===== *)
(** * Serial devices (src/components/drivers/serial/serial.c)

    The driver of serial lines on top of the hardware operations of a UART: received characters
    wait in a ring of their own, characters are sent one by one or, with DMA, as buffers that
    wait in a data queue.  The theorems show that the driver keeps the promises of [DriverOk],
    that what is read is what came in, and that buffers are sent in the order of the writes. *)
From S2P Require Import Prelude KService Kernel Object Scheduler Timer Thread Frame Ipc.
From S2P Require Import Mem Heap Dynamic Completion DataQueue Device.

Definition RT_SERIAL_RB_BUFSZ : Z := 2048.
Definition RT_DEVICE_FLAG_SUSPENDED : Z := 0x020.
Definition RT_DEVICE_FLAG_STREAM : Z := 0x040.
Definition RT_DEVICE_FLAG_INT_RX : Z := 0x100.
Definition RT_DEVICE_FLAG_INT_TX : Z := 0x400.
Definition RT_DEVICE_FLAG_DMA_TX : Z := 0x800.
Definition RT_DEVICE_CTRL_RESUME : Z := 1.
Definition RT_DEVICE_CTRL_SUSPEND : Z := 2.
Definition RT_DEVICE_CTRL_CONFIG : Z := 3.
Definition RT_DEVICE_CTRL_SET_INT : Z := 0x10.
Definition RT_DEVICE_CTRL_CLR_INT : Z := 0x11.
Definition RT_SERIAL_RX_INT : Z := 1.
Definition RT_SERIAL_TX_INT : Z := 2.
Definition RT_SERIAL_TX_DATAQUEUE_SIZE : Z := 2048.
Definition RT_SERIAL_TX_DATAQUEUE_LWM : Z := 30.

(** [dev->flag & flag]. *)
Definition has_flag (v : rt_device) (flag : Z) : bool := negb (Z.land (dv_flag v) flag =? 0).

(** ** The ring of characters *)

Definition serial_ringbuffer_init (rb : serial_rb) : serial_rb :=
  SerialRb (replicate (length (sb_buffer rb)) 0) 0 0.

(** The index behind [i]. *)
Definition sb_next (i : Z) : Z := Z.land (i + 1) (RT_SERIAL_RB_BUFSZ - 1).

(** [buffer[put_index] = ch]; outside of the buffer there is no result. *)
Definition sb_store (rb : serial_rb) (ch : Z) : option (list Z) :=
  if bool_decide (Z.to_nat (sb_put rb) < length (sb_buffer rb))%nat
  then Some (<[Z.to_nat (sb_put rb) := u8 ch]> (sb_buffer rb)) else None.

Definition serial_ringbuffer_putc (rb : serial_rb) (ch : Z) : option serial_rb :=
  buf ← sb_store rb ch;
  let put := sb_next (sb_put rb) in
  Some (SerialRb buf put (if put =? sb_get rb then sb_next (sb_get rb) else sb_get rb)).

Definition serial_ringbuffer_putchar (rb : serial_rb) (ch : Z) : option (Z * serial_rb) :=
  let next_index := sb_next (sb_put rb) in
  if negb (next_index =? sb_get rb) then
    buf ← sb_store rb ch; Some (1, SerialRb buf next_index (sb_get rb))
  else Some (-1, rb).

Definition serial_ringbuffer_getc (rb : serial_rb) : option (Z * serial_rb) :=
  if negb (sb_get rb =? sb_put rb) then
    ch ← sb_buffer rb !! Z.to_nat (sb_get rb);
    Some (ch, SerialRb (sb_buffer rb) (sb_put rb) (sb_next (sb_get rb)))
  else Some (-1, rb).

Definition serial_ringbuffer_size (rb : serial_rb) : Z :=
  u32 (Z.land (sb_put rb - sb_get rb) (RT_SERIAL_RB_BUFSZ - 1)).

(** ** The device *)

Definition get_sr (d : Z) : M rt_serial := fun k => s ← k_serials k !! d; Some (s, k).
Definition put_sr (d : Z) (s : rt_serial) (k : kstate) : kstate := set_k_serials (<[d := s]> (k_serials k)) k.
Definition mod_sr (d : Z) (f : rt_serial -> rt_serial) : M unit := s ← get_sr d; kmod (put_sr d (f s)).

(** A call of an operation of the hardware. *)
Definition uart_do (d : Z) (c : uart_call) : M unit := mod_sr d (fun s => set_sr_calls (sr_calls s ++ [c]) s).

(** [ops->getc]. *)
Definition uart_getc (d : Z) : M Z :=
  s ← get_sr d;
  match sr_line s with
  | [] => mret (-1)
  | c :: l => kmod (put_sr d (set_sr_line l s));; mret c
  end.

(** [&serial->tx_dq], by its offset. *)
Definition tx_dq (d : Z) : Z := d + 88.

(** [rt_serial_init] before the data queue; the result is the one of [configure]. *)
Definition serial_configure (d : Z) : M Z :=
  v ← get_dev d;
  s ← get_sr d;
  r ← match sr_configure s with Some r => uart_do d UConfigure;; mret r | None => mret RT_EOK end;
  if negb (r =? RT_EOK) then mret r
  else
    (if has_flag v RT_DEVICE_FLAG_INT_RX then
       s ← get_sr d;
       rb ← deref (sr_rx s);
       kmod (put_sr d (set_sr_rx (Some (serial_ringbuffer_init rb)) s))
     else mret tt);;
    mret r.

(** [rt_serial_init]; [raw] is the contents of the memory for the data queue. *)
Definition rt_serial_init (d : Z) (raw : list (Z * Z)) : prog Z :=
  v ← atomic (get_dev d);
  if negb (activated v) then
    r ← atomic (serial_configure d);
    if negb (r =? RT_EOK) then mret r
    else
      (if has_flag v RT_DEVICE_FLAG_DMA_TX then
         atomic (mod_sr d (set_sr_dma_flag false));;
         rt_data_queue_init (tx_dq d) RT_SERIAL_TX_DATAQUEUE_SIZE RT_SERIAL_TX_DATAQUEUE_LWM None raw;;
         mret tt
       else mret tt);;
      atomic (activate d);;
      mret r
  else mret RT_EOK.

(** [int_flags] of [rt_serial_open] and [rt_serial_close]. *)
Definition int_flags (v : rt_device) : Z :=
  let f := if has_flag v RT_DEVICE_FLAG_INT_RX then RT_SERIAL_RX_INT else 0 in
  if has_flag v RT_DEVICE_FLAG_INT_TX then Z.lor f RT_SERIAL_TX_INT else f.

Definition rt_serial_open (d oflag : Z) : M Z :=
  v ← get_dev d;
  (if negb (int_flags v =? 0) then uart_do d (UControl RT_DEVICE_CTRL_SET_INT (int_flags v)) else mret tt);;
  mret RT_EOK.

Definition rt_serial_close (d : Z) : M Z :=
  v ← get_dev d;
  (if negb (int_flags v =? 0) then uart_do d (UControl RT_DEVICE_CTRL_CLR_INT (int_flags v)) else mret tt);;
  mret RT_EOK.

(** The loops of [rt_serial_read]: the bytes stored at the buffer, in interrupt mode until the
    ring is empty. *)
Fixpoint read_ring (n : nat) (d : Z) : M (list Z) :=
  match n with
  | O => mret []
  | S n' =>
      s ← get_sr d;
      rb ← deref (sr_rx s);
      p ← deref (serial_ringbuffer_getc rb);
      kmod (put_sr d (set_sr_rx (Some p.2) s));;
      if p.1 =? -1 then mret [] else r ← read_ring n' d; mret (Z.land p.1 0xff :: r)
  end.
Fixpoint read_polling (n : nat) (d : Z) : M (list Z) :=
  match n with
  | O => mret []
  | S n' => ch ← uart_getc d; r ← read_polling n' d; mret (u8 ch :: r)
  end.

(** [rt_serial_read]: the number of bytes and the bytes. *)
Definition rt_serial_read (d pos buffer size : Z) : M (Z * list Z) :=
  if size =? 0 then mret (0, [])
  else
    v ← get_dev d;
    r ← (if has_flag v RT_DEVICE_FLAG_INT_RX then read_ring (Z.to_nat size) d else read_polling (Z.to_nat size) d);
    (if bool_decide (r = []) then rt_set_errno (- RT_EEMPTY) else mret tt);;
    mret (Z.of_nat (length r), r).

(** The loops of [rt_serial_write]: the number of bytes taken. *)
Fixpoint write_ring (d : Z) (data : list Z) : M Z :=
  match data with
  | [] => mret 0
  | c :: data' =>
      s ← get_sr d;
      rb ← deref (sr_tx s);
      p ← deref (serial_ringbuffer_putchar rb c);
      kmod (put_sr d (set_sr_tx (Some p.2) s));;
      if negb (p.1 =? -1) then n ← write_ring d data'; mret (n + 1) else mret 0
  end.
Fixpoint write_polling (d : Z) (stream : bool) (data : list Z) : M Z :=
  match data with
  | [] => mret 0
  | c :: data' =>
      (if (c =? 10) && stream then uart_do d (UPutc 13) else mret tt);;
      uart_do d (UPutc c);;
      n ← write_polling d stream data';
      mret (n + 1)
  end.

(** The rest of [rt_serial_write] in DMA mode, behind the push that returned [result]. *)
Definition serial_dma_start (d buffer size result : Z) : M Z :=
  if result =? RT_EOK then
    s ← get_sr d;
    (if negb (sr_dma_flag s) then
       mod_sr d (set_sr_dma_flag true);;
       uart_do d (UDma buffer size)
     else mret tt);;
    mret size
  else
    rt_set_errno result;;
    mret 0.

Section Callbacks.
Context (callback : Z -> Z -> Z -> M unit).  (**r of the data queue *)
Context (indicate : Z -> Z -> Z -> M Z).     (**r [rx_indicate] and [tx_complete]: function, device, argument *)

(** [rt_serial_write] of the first [size] bytes of [data], which are at the address [buffer]. *)
Definition rt_serial_write (d pos buffer : Z) (data : list Z) (size : Z) : M (wait Z) :=
  if size =? 0 then mret (Ret 0)
  else
    v ← get_dev d;
    data ← deref (if bool_decide (Z.to_nat size <= length data)%nat then Some (take (Z.to_nat size) data) else None);
    if has_flag v RT_DEVICE_FLAG_INT_TX then
      n ← write_ring d data;
      (if n =? 0 then rt_set_errno (- RT_EFULL) else mret tt);;
      mret (Ret n)
    else if has_flag v RT_DEVICE_FLAG_DMA_TX then
      rt_assert (negb (has_flag v RT_DEVICE_FLAG_STREAM));;
      w ← rt_data_queue_push callback (tx_dq d) buffer size 20;
      match w with
      | Ret result => n ← serial_dma_start d buffer size result; mret (Ret n)
      | Wait f => mret (Wait f)
      end
    else
      n ← write_polling d (has_flag v RT_DEVICE_FLAG_STREAM) data;
      (if n =? 0 then rt_set_errno (- RT_EFULL) else mret tt);;
      mret (Ret n).

(** [rt_serial_control]. *)
Definition rt_serial_control (d cmd : Z) (args : Z) : M Z :=
  (if cmd =? RT_DEVICE_CTRL_SUSPEND then
     mod_dev d (fun v => set_dv_flag (u16 (Z.lor (dv_flag v) RT_DEVICE_FLAG_SUSPENDED)) v)
   else if cmd =? RT_DEVICE_CTRL_RESUME then
     mod_dev d (fun v => set_dv_flag (u16 (Z.land (dv_flag v) (Z.lnot RT_DEVICE_FLAG_SUSPENDED))) v)
   else if cmd =? RT_DEVICE_CTRL_CONFIG then uart_do d UConfigure
   else mret tt);;
  mret RT_EOK.

(** The loop of [rt_hw_serial_isr]; [fuel] bounds the iterations. *)
Fixpoint isr_loop (fuel : nat) (d : Z) : M unit :=
  ch ← uart_getc d;
  if ch =? -1 then mret tt
  else
    match fuel with
    | O => stuck
    | S fuel' =>
        s ← get_sr d;
        rb ← deref (sr_rx s);
        rb' ← deref (serial_ringbuffer_putc rb ch);
        kmod (put_sr d (set_sr_rx (Some rb') s));;
        isr_loop fuel' d
    end.

(** [rt_hw_serial_isr]. *)
Definition rt_hw_serial_isr (d : Z) : M unit :=
  v ← get_dev d;
  rt_assert (has_flag v RT_DEVICE_FLAG_INT_RX);;
  s ← get_sr d;
  isr_loop (length (sr_line s)) d;;
  v ← get_dev d;
  match dv_rx_indicate v with
  | Some f =>
      s ← get_sr d;
      rb ← deref (sr_rx s);
      indicate f d (serial_ringbuffer_size rb);;
      mret tt
  | None => mret tt
  end.

(** [rt_hw_serial_dma_tx_isr]; [last_data_ptr] has no value when the queue was empty. *)
Definition rt_hw_serial_dma_tx_isr (d : Z) : M unit :=
  w ← rt_data_queue_pop callback (tx_dq d) 0;
  p ← match w with Ret p => mret p | Wait _ => stuck end;
  n ← rt_data_queue_peak (tx_dq d);
  match n.2 with
  | Some item => uart_do d (UDma item.1 item.2)
  | None => mod_sr d (set_sr_dma_flag false)
  end;;
  v ← get_dev d;
  match dv_tx_complete v with
  | Some f => item ← deref (p.1.2 : option (Z * Z)); indicate f d item.1;; mret tt
  | None => mret tt
  end.
End Callbacks.

(** [rt_hw_serial_register]; [raw] is the device in memory before, the functions of the driver
    have the numbers 1 to 6. *)
Definition rt_hw_serial_register (d : Z) (raw : rt_device) (name : list Z) (flag data : Z) : M Z :=
  rt_device_register d
    (Device 0 (dv_flag raw) (dv_open_flag raw) (dv_ref_count raw) None None
       (Some 1) (Some 2) (Some 3) (Some 4) (Some 5) (Some 6) data) name flag.

(** ** The ring of characters as a sequence *)

Record sb_ok (rb : serial_rb) : Prop := {
  so_len : Z.of_nat (length (sb_buffer rb)) = RT_SERIAL_RB_BUFSZ;
  so_put : 0 <= sb_put rb < RT_SERIAL_RB_BUFSZ;
  so_get : 0 <= sb_get rb < RT_SERIAL_RB_BUFSZ;
  so_bytes : Forall (fun c => 0 <= c < 256) (sb_buffer rb)
}.
Definition sb_count (rb : serial_rb) : Z := (sb_put rb - sb_get rb) mod RT_SERIAL_RB_BUFSZ.
(** The characters, the oldest first. *)
Definition sb_contents (rb : serial_rb) : list Z :=
  ring_view 0 (sb_buffer rb) RT_SERIAL_RB_BUFSZ (sb_get rb) (sb_count rb).

(** What a ring of 2047 characters keeps. *)
Definition newest (l : list Z) : list Z := drop (length l - 2047) l.

Lemma sb_next_mod i : sb_next i = (i + 1) mod RT_SERIAL_RB_BUFSZ.
Proof. unfold sb_next. change (RT_SERIAL_RB_BUFSZ - 1) with (Z.ones 11). by rewrite Z.land_ones. Qed.

Lemma sb_count_range rb : 0 <= sb_count rb < RT_SERIAL_RB_BUFSZ.
Proof. by apply Z.mod_pos_bound. Qed.

Lemma length_sb_contents rb : Z.of_nat (length (sb_contents rb)) = sb_count rb.
Proof. unfold sb_contents. rewrite length_ring_view. pose proof (sb_count_range rb). lia. Qed.

Lemma serial_ringbuffer_size_run rb : serial_ringbuffer_size rb = Z.of_nat (length (sb_contents rb)).
Proof.
  rewrite length_sb_contents. unfold serial_ringbuffer_size, sb_count. change (RT_SERIAL_RB_BUFSZ - 1) with (Z.ones 11).
  rewrite Z.land_ones by done. unfold u32. apply Z.mod_small. pose proof (Z.mod_pos_bound (sb_put rb - sb_get rb) 2048). unfold RT_SERIAL_RB_BUFSZ. cbn. lia.
Qed.

(** The buffer with one more character. *)
Lemma sb_store_run rb ch :
  sb_ok rb -> exists buf, sb_store rb ch = Some buf /\ Z.of_nat (length buf) = RT_SERIAL_RB_BUFSZ /\
    Forall (fun c => 0 <= c < 256) buf /\
    ring_view 0 buf RT_SERIAL_RB_BUFSZ (sb_get rb) (sb_count rb + 1) = sb_contents rb ++ [u8 ch].
Proof.
  intros [Hl Hp Hg Hb]. unfold sb_store. rewrite bool_decide_true by lia. eexists. split; [done|].
  split; [by rewrite length_insert|]. split.
  - apply Forall_insert; [done|]. unfold u8. apply Z.mod_pos_bound. lia.
  - unfold sb_contents. rewrite <-ring_view_put; [|done|apply sb_count_range]. do 3 f_equal. unfold sb_count.
    rewrite Zplus_mod_idemp_r. replace (sb_get rb + (sb_put rb - sb_get rb)) with (sb_put rb) by lia. by rewrite Z.mod_small.
Qed.

(** One place is never used: [put_index] reaches [get_index] from behind only when the ring
    has become empty. *)
Lemma sb_next_full rb : sb_ok rb -> (sb_next (sb_put rb) =? sb_get rb) = (sb_count rb =? 2047).
Proof.
  intros [_ Hp Hg _]. rewrite sb_next_mod. unfold sb_count. unfold RT_SERIAL_RB_BUFSZ in *.
  destruct (Z.eqb_spec ((sb_put rb + 1) mod 2048) (sb_get rb)), (Z.eqb_spec ((sb_put rb - sb_get rb) mod 2048) 2047); mlia.
Qed.

Lemma newest_snoc l c : (length l <= 2047)%nat ->
  newest (l ++ [c]) = if bool_decide (length l = 2047%nat) then drop 1 (l ++ [c]) else l ++ [c].
Proof.
  intros Hl. unfold newest. rewrite length_app. cbn [length]. case_bool_decide as H.
  - by replace (length l + 1 - 2047)%nat with 1%nat by lia.
  - by replace (length l + 1 - 2047)%nat with 0%nat by lia.
Qed.

(** A received character is the newest one; when there are too many the oldest is lost. *)
Lemma serial_ringbuffer_putc_run rb ch :
  sb_ok rb -> exists rb', serial_ringbuffer_putc rb ch = Some rb' /\ sb_ok rb' /\
    sb_contents rb' = newest (sb_contents rb ++ [u8 ch]).
Proof.
  intros Hok. destruct (sb_store_run rb ch Hok) as (buf & Es & Hl & Hb & Hv). pose proof (sb_count_range rb) as Hc.
  pose proof (length_sb_contents rb) as Hlen. unfold serial_ringbuffer_putc. rewrite Es. cbn [mbind option_bind].
  rewrite sb_next_full by done. eexists. split; [done|]. pose proof Hok as [_ Hp Hg _]. unfold RT_SERIAL_RB_BUFSZ in *.
  rewrite newest_snoc by lia. rewrite !sb_next_mod. unfold RT_SERIAL_RB_BUFSZ in *.
  destruct (Z.eqb_spec (sb_count rb) 2047) as [Hf|Hf].
  - split; [split; cbn; try done; by apply Z.mod_pos_bound|]. rewrite bool_decide_true by lia. rewrite <-Hv.
    assert (Hcnt : sb_count (SerialRb buf ((sb_put rb + 1) mod 2048) ((sb_get rb + 1) mod 2048)) = 2047).
    { unfold sb_count, RT_SERIAL_RB_BUFSZ in *. cbn. mlia. }
    unfold sb_contents. rewrite Hcnt. cbn [sb_buffer sb_get]. unfold RT_SERIAL_RB_BUFSZ. rewrite ring_view_mod, Hf.
    destruct (lookup_lt_is_Some_2 buf (Z.to_nat (sb_get rb mod 2048))) as [v Ev].
    { pose proof (Z.mod_pos_bound (sb_get rb) 2048). lia. }
    by rewrite (ring_view_get _ _ _ (sb_get rb) (2047 + 1) v).
  - split; [split; cbn; try done; by apply Z.mod_pos_bound|]. rewrite bool_decide_false by lia. rewrite <-Hv.
    unfold sb_contents. cbn [sb_buffer sb_get]. f_equal. unfold sb_count, RT_SERIAL_RB_BUFSZ in *. cbn. mlia.
Qed.

(** Reading takes the oldest character. *)
Lemma serial_ringbuffer_getc_run rb :
  sb_ok rb -> exists ch rb', serial_ringbuffer_getc rb = Some (ch, rb') /\ sb_ok rb' /\
    match sb_contents rb with
    | [] => ch = -1 /\ rb' = rb
    | c :: l => ch = c /\ 0 <= c < 256 /\ sb_contents rb' = l
    end.
Proof.
  intros Hok. pose proof Hok as [Hl Hp Hg Hb]. pose proof (length_sb_contents rb) as Hlen. unfold serial_ringbuffer_getc.
  destruct (Z.eqb_spec (sb_get rb) (sb_put rb)) as [He|He]; cbn [negb].
  - exists (-1), rb. split; [done|]. split; [done|]. assert (sb_count rb = 0) as Hz by (unfold sb_count; by rewrite He, Z.sub_diag).
    destruct (sb_contents rb); [done|cbn in Hlen; lia].
  - assert (Hc : 0 < sb_count rb). { unfold sb_count, RT_SERIAL_RB_BUFSZ in *. mlia. }
    destruct (lookup_lt_is_Some_2 (sb_buffer rb) (Z.to_nat (sb_get rb))) as [c Ec]; [lia|]. rewrite Ec. cbn [mbind option_bind].
    rewrite sb_next_mod. eexists _, _. split; [done|]. split; [split; cbn; try done; by apply Z.mod_pos_bound|].
    unfold sb_contents at 1. rewrite (ring_view_get _ _ _ _ _ c); [|done|by rewrite Z.mod_small].
    split; [done|]. split; [exact (proj1 (Forall_lookup _ _) Hb _ _ Ec)|]. unfold sb_contents. cbn [sb_buffer sb_get].
    rewrite ring_view_mod. f_equal. unfold sb_count, RT_SERIAL_RB_BUFSZ in *. cbn. mlia.
Qed.

Lemma newest_app a b : newest (newest a ++ b) = newest (a ++ b).
Proof.
  unfold newest. destruct (decide (length a <= 2047)%nat) as [Ha|Ha].
  - replace (length a - 2047)%nat with 0%nat by lia. done.
  - rewrite !length_app, length_drop. replace (length a - (length a - 2047) + length b - 2047)%nat with (length b) by lia.
    replace (length a + length b - 2047)%nat with (length a - 2047 + length b)%nat by lia.
    rewrite <-drop_drop. f_equal. by rewrite drop_app_le by lia.
Qed.

(** ** Running the driver *)

Lemma get_sr_run d s k : k_serials k !! d = Some s -> get_sr d k = Some (s, k).
Proof. intros E. unfold get_sr. by rewrite E. Qed.
Lemma mod_sr_run d s f k : k_serials k !! d = Some s -> mod_sr d f k = Some (tt, put_sr d (f s) k).
Proof. intros E. unfold mod_sr. by rewrite (bind_run _ _ _ _ _ (get_sr_run _ _ _ E)). Qed.
Lemma lookup_put_sr d s k : k_serials (put_sr d s k) !! d = Some s.
Proof. cbn. apply lookup_insert_eq. Qed.
Lemma put_sr_put_sr d s s' k : put_sr d s' (put_sr d s k) = put_sr d s' k.
Proof. unfold put_sr. cbn. by rewrite insert_insert_eq. Qed.
Lemma put_sr_id d s k : k_serials k !! d = Some s -> put_sr d s k = k.
Proof. intros E. unfold put_sr. rewrite insert_id by done. by destruct k. Qed.
Lemma uart_do_run d s c k : k_serials k !! d = Some s -> uart_do d c k = Some (tt, put_sr d (set_sr_calls (sr_calls s ++ [c]) s) k).
Proof. intros E. unfold uart_do. exact (mod_sr_run d s _ k E). Qed.

(** A receive ring that is well formed. *)
Definition rx_ring (s : rt_serial) (c : list Z) : Prop := exists rb, sr_rx s = Some rb /\ sb_ok rb /\ sb_contents rb = c.

(** Reading from the ring. *)
Lemma read_ring_run n : forall d s c k,
  k_serials k !! d = Some s -> rx_ring s c ->
  exists s', read_ring n d k = Some (take n c, put_sr d s' k) /\ rx_ring s' (drop n c) /\
    s' = set_sr_rx (sr_rx s') s.
Proof.
  induction n as [|n IH]; intros d s c k E (rb & Erb & Hok & <-); cbn [read_ring].
  - exists s. rewrite put_sr_id by done. split; [done|]. split; [by exists rb|by destruct s].
  - rewrite (bind_run _ _ _ _ _ (get_sr_run _ _ _ E)), Erb. mstep.
    destruct (serial_ringbuffer_getc_run rb Hok) as (ch & rb' & Eg & Hok' & Hc). rewrite Eg. mstep. mstep. cbn [fst snd].
    set (s1 := set_sr_rx (Some rb') s). destruct (sb_contents rb) as [|c l] eqn:Econt.
    + destruct Hc as [-> ->]. exists s1. split; [done|]. split; [by exists rb|done].
    + destruct Hc as (-> & Hb & Hl). destruct (Z.eqb_spec c (-1)); [lia|].
      destruct (IH d s1 l (put_sr d s1 k) (lookup_put_sr _ _ _)) as (s' & Er & Hr & Es); [by exists rb'|].
      exists s'. rewrite (bind_run _ _ _ _ _ Er). rewrite put_sr_put_sr. split; [|split; [done|by rewrite Es]].
      unfold mret, M_ret. cbn [take]. do 3 f_equal. change 255 with (Z.ones 8). rewrite Z.land_ones by done. by apply Z.mod_small.
Qed.

(** Receiving: the characters of the line go to the ring. *)
Lemma isr_loop_run l : forall d s c k,
  k_serials k !! d = Some s -> sr_line s = l -> Forall (fun x => 0 <= x < 256) l -> rx_ring s c ->
  exists s', isr_loop (length l) d k = Some (tt, put_sr d s' k) /\ rx_ring s' (newest (c ++ l)) /\
    s' = set_sr_line [] (set_sr_rx (sr_rx s') s).
Proof.
  induction l as [|x l IH]; intros d s c k E El Hl (rb & Erb & Hok & <-); cbn [isr_loop length].
  - exists s. unfold uart_getc. erewrite bind_run; [|rewrite (bind_run _ _ _ _ _ (get_sr_run _ _ _ E)), El; reflexivity].
    rewrite put_sr_id by done. split; [done|]. split; [|destruct s; cbn in *; by subst]. exists rb. split; [done|]. split; [done|].
    rewrite app_nil_r. unfold newest. pose proof (length_sb_contents rb). pose proof (sb_count_range rb). unfold RT_SERIAL_RB_BUFSZ in *.
    by replace (length (sb_contents rb) - 2047)%nat with 0%nat by lia.
  - apply list.Forall_cons in Hl as [Hx Hl]. set (s0 := set_sr_line l s).
    assert (Eg : uart_getc d k = Some (x, put_sr d s0 k)).
    { unfold uart_getc. rewrite (bind_run _ _ _ _ _ (get_sr_run _ _ _ E)), El. done. }
    rewrite (bind_run _ _ _ _ _ Eg). destruct (Z.eqb_spec x (-1)); [lia|].
    rewrite (bind_run _ _ _ _ _ (get_sr_run _ _ _ (lookup_put_sr d s0 k))). cbn [sr_rx s0 set_sr_line]. rewrite Erb. mstep.
    destruct (serial_ringbuffer_putc_run rb x Hok) as (rb' & Ep & Hok' & Hc). rewrite Ep. mstep. mstep. rewrite put_sr_put_sr.
    set (s1 := set_sr_rx (Some rb') s0).
    destruct (IH d s1 (sb_contents rb') (put_sr d s1 k) (lookup_put_sr _ _ _) eq_refl Hl) as (s' & Er & Hr & Es); [by exists rb'|].
    exists s'. rewrite put_sr_put_sr in Er. split; [exact Er|]. split; [|by rewrite Es; destruct s].
    rewrite Hc, newest_app, <-app_assoc in Hr. cbn in Hr. unfold u8 in Hr. by rewrite Z.mod_small in Hr.
Qed.

(** ** The driver behind the device layer *)

(** [rt_serial_init] of a device that does not use DMA, as one function. *)
Definition serial_init (d : Z) : M Z :=
  v ← get_dev d;
  if negb (activated v) then
    r ← serial_configure d;
    if negb (r =? RT_EOK) then mret r
    else
      (if has_flag v RT_DEVICE_FLAG_DMA_TX then stuck else mret tt);;
      activate d;;
      mret r
  else mret RT_EOK.

Definition serial_driver (callback : Z -> Z -> Z -> M unit) : driver :=
  Driver (fun _ d => serial_init d) (fun _ d o => rt_serial_open d o) (fun _ d => rt_serial_close d)
    (fun _ d pos buffer size => r ← rt_serial_read d pos buffer size; mret (Ret r))
    (fun _ d pos buffer data size => rt_serial_write callback d pos buffer data size)
    (fun _ d cmd arg => rt_serial_control d cmd arg).

(** The devices it can serve without the heap; [Q] is about what [configure] returns. *)
Definition serial_valid (Q : option Z -> Prop) (k : kstate) (d : Z) : Prop :=
  exists v s, k_devs k !! d = Some v /\ has_flag v RT_DEVICE_FLAG_DMA_TX = false /\
    k_serials k !! d = Some s /\ is_Some (sr_rx s) /\ Q (sr_configure s).

Lemma serial_valid_ext Q k k' :
  k_devs k' = k_devs k -> (forall d s, k_serials k !! d = Some s -> is_Some (sr_rx s) -> exists s', k_serials k' !! d = Some s' /\
    is_Some (sr_rx s') /\ sr_configure s' = sr_configure s) ->
  forall d, serial_valid Q k d -> serial_valid Q k' d.
Proof.
  intros Ed Hs d (v & s & E & Hf & Es & Hr & HQ). destruct (Hs d s Es Hr) as (s' & Es' & Hr' & Hc).
  exists v, s'. rewrite Ed. split; [done|]. split; [done|]. split; [done|]. split; [done|]. by rewrite Hc.
Qed.

(** Changing the serial part of a device. *)
Lemma put_sr_valid Q d s s' k :
  k_serials k !! d = Some s -> (is_Some (sr_rx s) -> is_Some (sr_rx s')) -> sr_configure s' = sr_configure s ->
  forall d', serial_valid Q k d' -> serial_valid Q (put_sr d s' k) d'.
Proof.
  intros E Hr Hc. apply serial_valid_ext; [done|]. intros d' s0 E0 Hr0. destruct (decide (d' = d)) as [->|Hne].
  - exists s'. split; [apply lookup_put_sr|]. assert (s0 = s) as -> by congruence. auto.
  - exists s0. split; [|done]. cbn. by rewrite lookup_insert_ne.
Qed.

Lemma put_sr_kept Q d s s' k :
  k_serials k !! d = Some s -> (is_Some (sr_rx s) -> is_Some (sr_rx s')) -> sr_configure s' = sr_configure s ->
  dev_kept (serial_valid Q) d k (put_sr d s' k).
Proof. intros E Hr Hc. split; [by apply put_sr_valid with s|done|done|]. intros v Ev. exists v. by repeat split. Qed.

Lemma generic_change_flags v v' m : generic_change v v' -> 0 <= m < 16 -> m <> 4 ->
  Z.land (dv_flag v') (2 ^ m) = Z.land (dv_flag v) (2 ^ m).
Proof. intros [[n ->]|[[o ->]| ->]] Hm Hne; [done|done|]. by apply (flag_other (dv_flag v) m 4). Qed.

Lemma serial_valid_change Q k d v v' d' :
  serial_valid Q k d' -> k_devs k !! d = Some v -> generic_change v v' -> serial_valid Q (put_dev d v' k) d'.
Proof.
  intros (w & s & E & Hf & Hs) Ev Hch. unfold serial_valid. destruct (decide (d' = d)) as [->|Hne].
  - exists v', s. split; [apply lookup_put_dev|]. split; [|done]. assert (w = v) as -> by congruence.
    unfold has_flag in *. change RT_DEVICE_FLAG_DMA_TX with (2 ^ 11) in *. by rewrite (generic_change_flags v v' 11 Hch).
  - exists w, s. split; [|done]. cbn. by rewrite lookup_insert_ne.
Qed.

(** Configuring a device. *)
Lemma serial_configure_run Q d v k :
  k_devs k !! d = Some v -> serial_valid Q k d ->
  exists r k', serial_configure d k = Some (r, k') /\ k_devs k' = k_devs k /\ dev_kept (serial_valid Q) d k k' /\
    exists s, k_serials k !! d = Some s /\ r = default RT_EOK (sr_configure s).
Proof.
  intros E (v0 & s & E0 & _ & Es & [rb Erb] & _). unfold serial_configure.
  rewrite (bind_run _ _ _ _ _ (get_dev_run _ _ _ E)), (bind_run _ _ _ _ _ (get_sr_run _ _ _ Es)).
  assert (Hc : exists s1, (match sr_configure s with Some r => uart_do d UConfigure;; mret r | None => mret RT_EOK end) k =
    Some (default RT_EOK (sr_configure s), put_sr d s1 k) /\ sr_rx s1 = sr_rx s /\ sr_configure s1 = sr_configure s).
  { destruct (sr_configure s) as [r|] eqn:Ec.
    - rewrite (bind_run _ _ _ _ _ (uart_do_run d s UConfigure k Es)). eexists. by split.
    - exists s. by rewrite put_sr_id. }
  destruct Hc as (s1 & Ec & Hr1 & Hc1). rewrite (bind_run _ _ _ _ _ Ec). set (r := default RT_EOK (sr_configure s)).
  assert (K1 : dev_kept (serial_valid Q) d k (put_sr d s1 k)) by (apply put_sr_kept with s; [done|by rewrite Hr1|done]).
  destruct (negb (r =? RT_EOK)).
  - exists r, (put_sr d s1 k). split; [done|]. split; [done|]. split; [done|]. by exists s.
  - destruct (has_flag v RT_DEVICE_FLAG_INT_RX).
    + assert (E1 : k_serials (put_sr d s1 k) !! d = Some s1) by apply lookup_put_sr.
      erewrite bind_run; [|rewrite (bind_run _ _ _ _ _ (get_sr_run _ _ _ E1)), Hr1, Erb; reflexivity].
      eexists r, _. split; [done|]. rewrite put_sr_put_sr. split; [done|]. split; [|by exists s].
      apply put_sr_kept with s; [done|by eexists|done].
    + mstep. exists r, (put_sr d s1 k). split; [done|]. split; [done|]. split; [done|]. by exists s.
Qed.

(** Telling the hardware about its interrupts. *)
Lemma control_kept Q d v s cmd k :
  k_devs k !! d = Some v -> k_serials k !! d = Some s ->
  exists k', (v ← get_dev d;
      (if negb (int_flags v =? 0) then uart_do d (UControl cmd (int_flags v)) else mret tt);; mret RT_EOK) k = Some (RT_EOK, k') /\
    dev_kept (serial_valid Q) d k k'.
Proof.
  intros E Es. rewrite (bind_run _ _ _ _ _ (get_dev_run _ _ _ E)). destruct (negb (int_flags v =? 0)).
  - rewrite (bind_run _ _ _ _ _ (uart_do_run d s _ k Es)). eexists. split; [done|]. by apply put_sr_kept with s.
  - mstep. exists k. split; [done|reflexivity].
Qed.

#[export] Instance serial_driver_ok callback Q : DriverOk (serial_driver callback) (serial_valid Q).
Proof.
  split.
  - intros. by eapply serial_valid_change.
  - intros f d k [v E] Hv. cbn [drv_init serial_driver]. unfold serial_init. rewrite (bind_run _ _ _ _ _ (get_dev_run _ _ _ E)).
    destruct (activated v) eqn:Ea; cbn [negb]; [exists RT_EOK, k; split; [done|]; by split|].
    destruct (serial_configure_run Q d v k E Hv) as (r & k1 & Er & Ed & Hk & s & Es & _).
    rewrite (bind_run _ _ _ _ _ Er). destruct (Z.eqb_spec r RT_EOK) as [->|Hne]; cbn [negb]; [|exists r, k1; split; [done|]; split; [done|by rewrite Ed]].
    assert (Hf : has_flag v RT_DEVICE_FLAG_DMA_TX = false) by (destruct Hv as (v0 & ? & E0 & ? & _); by assert (v = v0) as -> by congruence).
    rewrite Hf. mstep. assert (E1 : k_devs k1 !! d = Some v) by (by rewrite Ed).
    unfold activate. rewrite (bind_run _ _ _ _ _ (mod_dev_run _ _ _ _ E1)). eexists RT_EOK, _. split; [done|]. split; [|done].
    split.
    + intros d' Hd'. apply serial_valid_change with v; [by apply Hk|done|by right; right].
    + exact (kp_container _ _ _ _ Hk).
    + intros d' Hd. cbn. rewrite lookup_insert_ne by done. by rewrite Ed.
    + intros w Ew. assert (w = v) as -> by congruence. eexists. split; [apply lookup_put_dev|]. split; [done|]. do 4 (split; [done|]).
      split; [intros _; by apply (flag_set (dv_flag v) 4)|]. unfold standalone. cbn [dv_flag set_dv_flag]. f_equal. f_equal. by apply (flag_other (dv_flag v) 3 4).
  - intros f d o k [v E] (v0 & s & _ & _ & Es & _). exists RT_EOK. by eapply control_kept.
  - intros f d k [v E] (v0 & s & _ & _ & Es & _). exists RT_EOK. by eapply control_kept.
Qed.

(** A line whose configuration is accepted does not fail. *)
Definition configures (c : option Z) : Prop := default RT_EOK c = RT_EOK.
Lemma serial_faultless callback : faultless (serial_driver callback) (serial_valid configures).
Proof.
  split; [|split].
  - intros f d k r k' Hv Er. cbn [drv_init serial_driver] in Er. pose proof Hv as (v & s & E & Hf & Es & _ & HQ).
    unfold serial_init in Er. rewrite (bind_run _ _ _ _ _ (get_dev_run _ _ _ E)) in Er.
    destruct (activated v); cbn [negb] in Er; [by injection Er|].
    destruct (serial_configure_run configures d v k E Hv) as (r1 & k1 & Er1 & Ed & _ & s1 & Es1 & Hr1).
    rewrite (bind_run _ _ _ _ _ Er1) in Er. assert (s1 = s) as -> by congruence. rewrite HQ in Hr1. subst r1. cbn in Er. rewrite Hf in Er.
    assert (E1 : k_devs k1 !! d = Some v) by (by rewrite Ed).
    unfold activate in Er. rewrite (bind_run (mret tt) _ k1 tt k1 eq_refl), (bind_run _ _ _ _ _ (mod_dev_run _ _ _ _ E1)) in Er. by injection Er.
  - intros f d o k r k' (v & s & E & _ & Es & _) Er.
    destruct (control_kept configures d v s RT_DEVICE_CTRL_SET_INT k E Es) as (k1 & Ek & _). cbn in Er, Ek. unfold rt_serial_open in Er. congruence.
  - intros f d k r k' (v & s & E & _ & Es & _) Er.
    destruct (control_kept configures d v s RT_DEVICE_CTRL_CLR_INT k E Es) as (k1 & Ek & _). cbn in Er, Ek. unfold rt_serial_close in Er. congruence.
Qed.

(** [rt_serial_init] does not use the heap when DMA is not asked for. *)
Lemma rt_serial_init_run heap_sem d raw v hs :
  k_devs (hs_kernel hs) !! d = Some v -> has_flag v RT_DEVICE_FLAG_DMA_TX = false ->
  exec heap_sem (rt_serial_init d raw) hs = (r ← kern (serial_init d); mret (Done r)) hs.
Proof.
  intros E Hf. destruct hs as [k h]. cbn [hs_kernel] in E. unfold rt_serial_init, serial_init.
  unfold mbind, HM_bind, M_bind, prog_bind, mret, M_ret, HM_ret, prog_ret, atomic. cbn [exec].
  unfold kern, mbind, HM_bind. cbn [hs_kernel hs_heap]. rewrite !(get_dev_run _ _ _ E). destruct (activated v); cbn [negb exec]; [done|].
  unfold kern, mbind, HM_bind. cbn [hs_kernel hs_heap]. destruct (serial_configure d k) as [[r k1]|]; [|done].
  destruct (negb (r =? RT_EOK)); [done|]. rewrite Hf. cbn [exec]. unfold kern, mbind, HM_bind. cbn [hs_kernel hs_heap].
  by destruct (activate d k1) as [[[] k2]|].
Qed.

(** ** What comes in is read *)

(** [rt_set_errno] notes the error with the running thread, or globally. *)
Definition runs (k : kstate) : Prop := exists t th, k_current k = Some t /\ k_threads k !! t = Some th.
Lemma rt_set_errno_run e k :
  runs k -> exists k', rt_set_errno e k = Some (tt, k') /\ runs k' /\ k_devs k' = k_devs k /\ k_serials k' = k_serials k.
Proof.
  intros (t & th & Ec & E). unfold rt_set_errno. mstep. destruct (negb (k_int_nest k =? 0)).
  - eexists. split; [done|]. split; [|done]. by exists t, th.
  - unfold rt_thread_self. mstep. rewrite Ec, (mod_thread_run _ _ _ _ E). eexists. split; [done|]. split; [|done].
    exists t, (set_th_error e th). split; [done|]. cbn. apply lookup_insert_eq.
Qed.

(** The device [d] is open, receives by interrupts and holds the characters [c]. *)
Definition line_ok (k : kstate) (d : Z) (c : list Z) : Prop :=
  runs k /\ exists v s, k_devs k !! d = Some v /\ has_flag v RT_DEVICE_FLAG_INT_RX = true /\ dv_ref_count v <> 0 /\
    is_Some (dv_read v) /\ dv_rx_indicate v = None /\ k_serials k !! d = Some s /\ rx_ring s c /\ sr_line s = [].

(** What happens on a line: characters come in and raise the interrupt, or a client reads. *)
Inductive line_event := LReceive (bs : list Z) | LRead (size : Z).

Section Line.
Context (callback : Z -> Z -> Z -> M unit) (indicate : Z -> Z -> Z -> M Z).

Fixpoint line_run (d : Z) (evs : list line_event) : M (list Z) :=
  match evs with
  | [] => mret []
  | LReceive bs :: evs' =>
      mod_sr d (set_sr_line bs);;
      rt_hw_serial_isr indicate d;;
      line_run d evs'
  | LRead size :: evs' =>
      w ← rt_device_read (serial_driver callback) d 0 0 size;
      match w with
      | Ret r => out ← line_run d evs'; mret (r.2 ++ out)
      | Wait _ => stuck
      end
  end.

(** The specification: a queue that keeps the newest 2047 characters. *)
Fixpoint line_spec (c : list Z) (evs : list line_event) : list Z * list Z :=
  match evs with
  | [] => ([], c)
  | LReceive bs :: evs' => line_spec (newest (c ++ bs)) evs'
  | LRead size :: evs' =>
      let p := line_spec (drop (Z.to_nat size) c) evs' in (take (Z.to_nat size) c ++ p.1, p.2)
  end.

(** What came in; and that it was never more than the ring can hold. *)
Definition received (evs : list line_event) : list Z :=
  evs ≫= fun e => match e with LReceive bs => bs | LRead _ => [] end.
Fixpoint line_fits (c : list Z) (evs : list line_event) : Prop :=
  match evs with
  | [] => True
  | LReceive bs :: evs' => (length (c ++ bs) <= 2047)%nat /\ line_fits (c ++ bs) evs'
  | LRead size :: evs' => line_fits (drop (Z.to_nat size) c) evs'
  end.
Definition line_event_ok (e : line_event) : Prop :=
  match e with LReceive bs => Forall (fun x => 0 <= x < 256) bs | LRead size => 0 <= size end.

Lemma newest_fits l : (length l <= 2047)%nat -> newest l = l.
Proof. intros H. unfold newest. by replace (length l - 2047)%nat with 0%nat by lia. Qed.

Lemma line_spec_lossless evs : forall c, line_fits c evs -> c ++ received evs = (line_spec c evs).1 ++ (line_spec c evs).2.
Proof.
  induction evs as [|[bs|size] evs IH]; intros c Hf; cbn.
  - by rewrite app_nil_r.
  - destruct Hf as [H1 H2]. rewrite newest_fits by done. rewrite <-IH by done. by rewrite app_assoc.
  - rewrite <-app_assoc, <-IH by done. by rewrite app_assoc, take_drop.
Qed.

Lemma line_receive_run d c bs k :
  line_ok k d c -> Forall (fun x => 0 <= x < 256) bs ->
  exists k', (mod_sr d (set_sr_line bs);; rt_hw_serial_isr indicate d) k = Some (tt, k') /\ line_ok k' d (newest (c ++ bs)).
Proof.
  intros (Hrun & v & s & E & Hf & Hrc & Hrd & Hri & Es & Hrx & Hl) Hb.
  rewrite (bind_run _ _ _ _ _ (mod_sr_run d s (set_sr_line bs) k Es)). set (s0 := set_sr_line bs s). set (k0 := put_sr d s0 k).
  assert (E0 : k_serials k0 !! d = Some s0) by apply lookup_put_sr.
  destruct (isr_loop_run bs d s0 c k0 E0 eq_refl Hb) as (s' & Er & Hr' & Es'); [exact Hrx|].
  unfold k0 in Er. rewrite put_sr_put_sr in Er. exists (put_sr d s' k). split.
  - unfold rt_hw_serial_isr. rewrite (bind_run _ _ _ _ _ (get_dev_run d v k0 E)). erewrite bind_run; [|by apply rt_assert_run].
    rewrite (bind_run _ _ _ _ _ (get_sr_run _ _ _ E0)). change (sr_line s0) with bs. rewrite (bind_run _ _ _ _ _ Er).
    rewrite (bind_run _ _ _ _ _ (get_dev_run d v (put_sr d s' k) E)). by rewrite Hri.
  - split; [done|]. exists v, s'. do 5 (split; [done|]). split; [apply lookup_put_sr|]. split; [done|]. by rewrite Es'.
Qed.

Lemma line_read_run d c size k :
  line_ok k d c -> 0 <= size ->
  exists k', rt_device_read (serial_driver callback) d 0 0 size k =
      Some (Ret (Z.of_nat (length (take (Z.to_nat size) c)), take (Z.to_nat size) c), k') /\
    line_ok k' d (drop (Z.to_nat size) c).
Proof.
  intros (Hrun & v & s & E & Hf & Hrc & [f Hrd] & Hri & Es & Hrx & Hl) Hs. unfold rt_device_read.
  rewrite (bind_run _ _ _ _ _ (get_dev_run _ _ _ E)). destruct (Z.eqb_spec (dv_ref_count v) 0); [done|]. rewrite Hrd.
  cbn [drv_read serial_driver]. unfold rt_serial_read. destruct (Z.eqb_spec size 0) as [->|Hne].
  { exists k. split; [done|]. split; [done|]. exists v, s. rewrite Hrd. by eauto 15. }
  rewrite bind_assoc, (bind_run _ _ _ _ _ (get_dev_run _ _ _ E)), Hf.
  destruct (read_ring_run (Z.to_nat size) d s c k Es Hrx) as (s' & Er & Hr' & Es').
  rewrite bind_assoc, (bind_run _ _ _ _ _ Er). set (k1 := put_sr d s' k). set (out := take (Z.to_nat size) c).
  assert (H2 : exists k', (if bool_decide (out = []) then rt_set_errno (- RT_EEMPTY) else mret tt) k1 = Some (tt, k') /\
    runs k' /\ k_devs k' = k_devs k1 /\ k_serials k' = k_serials k1).
  { case_bool_decide; [by apply rt_set_errno_run|by exists k1]. }
  destruct H2 as (k' & Ek & Hrun' & Ed & Esr). exists k'. split; [rewrite bind_assoc; by rewrite (bind_run _ _ _ _ _ Ek)|].
  split; [done|]. exists v, s'. rewrite Ed, Esr. split; [done|]. split; [done|]. split; [done|]. rewrite Hrd. split; [by eexists|]. split; [done|].
  split; [apply lookup_put_sr|]. split; [done|]. by rewrite Es'.
Qed.

(** C28. A serial line through the device layer: whatever comes in by interrupts and whatever is read
    with [rt_device_read], in any order, the clients get what a queue of the newest 2047
    characters gives; and as long as no more than that is unread, nothing is lost, doubled or
    reordered. *)
Theorem serial_line_stream d evs : forall c k,
  line_ok k d c -> Forall line_event_ok evs ->
  exists k', line_run d evs k = Some ((line_spec c evs).1, k') /\ line_ok k' d (line_spec c evs).2 /\
    (line_fits c evs -> c ++ received evs = (line_spec c evs).1 ++ (line_spec c evs).2).
Proof.
  intros c k Hok Hev. assert (H : exists k', line_run d evs k = Some ((line_spec c evs).1, k') /\ line_ok k' d (line_spec c evs).2).
  2:{ destruct H as (k' & H1 & H2). exists k'. split; [done|]. split; [done|]. apply line_spec_lossless. }
  revert c k Hok Hev. induction evs as [|[bs|size] evs IH]; intros c k Hok Hev; cbn [line_run line_spec].
  - by exists k.
  - apply list.Forall_cons in Hev as [Hb Hev]. destruct (line_receive_run d c bs k Hok Hb) as (k1 & E1 & Hok1).
    rewrite <-bind_assoc, (bind_run _ _ _ _ _ E1). by apply IH.
  - apply list.Forall_cons in Hev as [Hb Hev]. destruct (line_read_run d c size k Hok Hb) as (k1 & E1 & Hok1).
    rewrite (bind_run _ _ _ _ _ E1). destruct (IH _ k1 Hok1 Hev) as (k' & E2 & Hok2).
    exists k'. rewrite (bind_run _ _ _ _ _ E2). by split.
Qed.
End Line.

(** ** What is written goes out *)

(** The buffers handed to the DMA controller. *)
Definition dmas (cs : list uart_call) : list (Z * Z) :=
  omap (fun c => match c with UDma b n => Some (b, n) | _ => None end) cs.

Lemma dmas_snoc cs b n : dmas (cs ++ [UDma b n]) = dmas cs ++ [(b, n)].
Proof. unfold dmas. by rewrite omap_app. Qed.

(** The buffers written so far are the ones handed over, followed by those that wait behind
    the one in transfer; the queue holds [m] of them and has room for [n]. *)
Definition dma_ok (b bd idle : Z) (k : kstate) (d n m : Z) (w : list (Z * Z)) : Prop :=
  core b bd idle k /\ exists v s q, k_devs k !! d = Some v /\ k_serials k !! d = Some s /\ k_dqs k !! tx_dq d = Some q /\
    has_flag v RT_DEVICE_FLAG_INT_TX = false /\ has_flag v RT_DEVICE_FLAG_DMA_TX = true /\
    has_flag v RT_DEVICE_FLAG_STREAM = false /\ dv_tx_complete v = None /\
    dq_ok q /\ dq_evt_notify q = None /\ Z.of_nat (length (dq_contents q)) = m /\ dq_size q = n + m /\
    queue k (dq_push_list (tx_dq d)) = [] /\ queue k (dq_pop_list (tx_dq d)) = [] /\
    sr_dma_flag s = negb (bool_decide (dq_contents q = [])) /\ dmas (sr_calls s) ++ tail (dq_contents q) = w.

Section Dma.
Context (callback : Z -> Z -> Z -> M unit) (indicate : Z -> Z -> Z -> M Z) (b bd idle : Z).

(** The client writes a buffer, or the transfer of one ends. *)
Inductive dma_event := DWrite (buffer : Z) (data : list Z) | DDone.

Fixpoint dma_run (d : Z) (evs : list dma_event) : M (list Z) :=
  match evs with
  | [] => mret []
  | DWrite buffer data :: evs' =>
      w ← rt_serial_write callback d 0 buffer data (Z.of_nat (length data));
      match w with
      | Ret r => rs ← dma_run d evs'; mret (r :: rs)
      | Wait _ => stuck
      end
  | DDone :: evs' => rt_hw_serial_dma_tx_isr callback indicate d;; dma_run d evs'
  end.

(** The specification, with the number of free places and whether a transfer is on: the buffers
    written and the results. *)
Fixpoint dma_spec (n m : Z) (evs : list dma_event) : option (list (Z * Z) * list Z) :=
  match evs with
  | [] => Some ([], [])
  | DWrite buffer data :: evs' =>
      if (0 <? n) && negb (bool_decide (data = [])) then
        p ← dma_spec (n - 1) (m + 1) evs';
        Some ((buffer, Z.of_nat (length data)) :: p.1, Z.of_nat (length data) :: p.2)
      else None
  | DDone :: evs' => if 0 <? m then dma_spec (n + 1) (m - 1) evs' else None
  end.

Lemma put_sr_core d s k : core b bd idle k -> core b bd idle (put_sr d s k).
Proof.
  intros [[[Hwf Hw] Hi Hs] Hcur]. split; [split; [split|..]|]; try done;
    [by apply (sched_wf_ext k)|by apply (timer_wf_ext b bd k)].
Qed.

(** Starting the transfer behind a push. *)
Lemma serial_dma_start_run d buffer size s k :
  k_serials k !! d = Some s ->
  serial_dma_start d buffer size RT_EOK k =
    Some (size, if sr_dma_flag s then k
                else put_sr d (set_sr_calls (sr_calls s ++ [UDma buffer size]) (set_sr_dma_flag true s)) k).
Proof.
  intros E. unfold serial_dma_start. cbn [Z.eqb RT_EOK]. rewrite (bind_run _ _ _ _ _ (get_sr_run _ _ _ E)).
  destruct (sr_dma_flag s); cbn [negb]; [done|]. rewrite bind_assoc, (bind_run _ _ _ _ _ (mod_sr_run d s (set_sr_dma_flag true) k E)).
  rewrite (bind_run _ _ _ _ _ (uart_do_run d _ _ _ (lookup_put_sr d _ k))). by rewrite put_sr_put_sr.
Qed.

Lemma dma_write_run d n m w buffer data k :
  dma_ok b bd idle k d n m w -> 0 < n -> data <> [] ->
  exists k', rt_serial_write callback d 0 buffer data (Z.of_nat (length data)) k = Some (Ret (Z.of_nat (length data)), k') /\
    dma_ok b bd idle k' d (n - 1) (m + 1) (w ++ [(buffer, Z.of_nat (length data))]).
Proof.
  intros (Hc & v & s & q & Ev & Es & Eq & F1 & F2 & F3 & F4 & Hq & Hnt & Hm0 & Hn & Q1 & Q2 & Hfl & Hw) Hpos Hd.
  set (sz := Z.of_nat (length data)). rewrite length_dq_contents in Hm0 by done.
  assert (Hfull : dq_full q = false) by (rewrite dq_full_count by (done || lia); apply Z.eqb_neq; lia).
  destruct (dq_push_room_run callback b bd idle 2 (tx_dq d) q buffer sz 20 k Hc Eq Hq Hfull ltac:(lia))
    as (q' & k1 & Hq' & Hct & Hcf & Hc1 & Ek1 & Hm).
  rewrite Q2 in Hm. destruct Hm as [Ek Er]. injection Hcf as Hcs _ Hcn.
  assert (Eq1 : k_dqs k1 !! tx_dq d = Some q') by (rewrite Ek1; apply lookup_insert_eq).
  assert (Er1 : dq_push_loop callback 2 (tx_dq d) buffer sz 20 k = Some (Ret RT_EOK, k1)).
  { rewrite Er. unfold evt_notify. rewrite bind_assoc, (bind_run _ _ _ _ _ (get_dq_run _ _ _ Eq1)). by rewrite Hcn, Hnt. }
  assert (Es1 : k_serials k1 !! d = Some s) by (by rewrite Ek).
  set (k2 := if sr_dma_flag s then k1 else put_sr d (set_sr_calls (sr_calls s ++ [UDma buffer sz]) (set_sr_dma_flag true s)) k1).
  exists k2. split.
  - unfold rt_serial_write. destruct (Z.eqb_spec sz 0) as [Hz|Hz]; [by destruct data|].
    rewrite (bind_run _ _ _ _ _ (get_dev_run _ _ _ Ev)). rewrite bool_decide_true by lia. mstep. rewrite F1, F2, F3. mstep.
    unfold rt_data_queue_push. rewrite (bind_run _ _ _ _ _ Er1). fold sz. by rewrite (bind_run _ _ _ _ _ (serial_dma_start_run d buffer sz s k1 Es1)).
  - assert (Hlen : Z.of_nat (length (dq_contents q')) = m + 1).
    { rewrite Hct, length_app. pose proof (length_dq_contents q Hq). cbn. lia. }
    assert (Hcore : core b bd idle k2) by (unfold k2; destruct (sr_dma_flag s); [done|by apply put_sr_core]).
    assert (Hl2 : forall h, queue k2 h = queue k h) by (intros h; unfold k2; destruct (sr_dma_flag s); by rewrite Ek).
    assert (Hd2 : k_devs k2 = k_devs k) by (unfold k2; destruct (sr_dma_flag s); by rewrite Ek).
    assert (Hq2 : k_dqs k2 = k_dqs k1) by (unfold k2; by destruct (sr_dma_flag s)).
    assert (Hs2 : exists s', k_serials k2 !! d = Some s' /\ sr_dma_flag s' = true /\
      dmas (sr_calls s') ++ tail (dq_contents q') = w ++ [(buffer, sz)]).
    { unfold k2. rewrite Hfl, Hct. destruct (dq_contents q) as [|x l]; cbn [negb app tail].
      - rewrite bool_decide_true by done. eexists. split; [apply lookup_put_sr|]. split; [done|]. cbn [sr_calls set_sr_calls set_sr_dma_flag].
        rewrite dmas_snoc, app_nil_r. cbn in Hw. by rewrite app_nil_r in Hw; rewrite Hw.
      - rewrite bool_decide_false by done. exists s. split; [done|]. split; [by rewrite Hfl|]. cbn in Hw. by rewrite app_assoc, Hw. }
    destruct Hs2 as (s' & Es' & Hf' & Hw').
    split; [done|]. exists v, s', q'. rewrite !Hl2, Hd2, Hq2, Hf'. do 7 (split; [done|]). split; [done|]. split; [congruence|].
    split; [done|]. split; [lia|]. do 2 (split; [done|]). split; [|done]. rewrite Hct. symmetry. apply negb_true_iff, bool_decide_eq_false. by destruct (dq_contents q).
Qed.

(** The end of a transfer. *)
Lemma dma_done_run d n m w k :
  dma_ok b bd idle k d n m w -> 0 < m ->
  exists k', rt_hw_serial_dma_tx_isr callback indicate d k = Some (tt, k') /\ dma_ok b bd idle k' d (n + 1) (m - 1) w.
Proof.
  intros (Hc & v & s & q & Ev & Es & Eq & F1 & F2 & F3 & F4 & Hq & Hnt & Hm0 & Hn & Q1 & Q2 & Hfl & Hw) Hpos.
  destruct (dq_contents q) as [|x l] eqn:Hx; [cbn in Hm0; lia|]. pose proof (length_dq_contents q Hq) as Hlen. rewrite Hx in Hlen. cbn [length] in Hlen, Hm0.
  destruct (dq_pop_finish_run callback b bd idle (tx_dq d) q k Hc Eq Hq ltac:(lia)) as (y & q' & k1 & Hq' & Hct & Hcf & Hc1 & Ek1 & _ & Hm).
  rewrite Hx in Hct. injection Hct as <- ->. rewrite Q1 in Hm. injection Hcf as Hcs _ Hcn.
  assert (Eq1 : k_dqs k1 !! tx_dq d = Some q') by (rewrite Ek1; apply lookup_insert_eq).
  assert (Hen : evt_notify callback (tx_dq d) RT_DATAQUEUE_EVENT_LWM k1 = Some (tt, k1) /\ evt_notify callback (tx_dq d) RT_DATAQUEUE_EVENT_POP k1 = Some (tt, k1)).
  { unfold evt_notify. rewrite !(bind_run _ _ _ _ _ (get_dq_run _ _ _ Eq1)). by rewrite Hcn, Hnt. }
  assert (Hpop : k1 = put_dq (tx_dq d) q' k /\ exists irq, rt_data_queue_pop callback (tx_dq d) 0 k = Some (Ret (RT_EOK, Some x, irq), k1)).
  { unfold rt_data_queue_pop. cbn [dq_pop_loop]. rewrite (bind_run _ _ _ _ _ (get_dq_run _ _ _ Eq)).
    rewrite (dq_empty_count q Hq). destruct (Z.eqb_spec (dq_count q) 0); [lia|].
    destruct (dq_low (dq_advance q)); destruct Hm as [-> ->]; (split; [done|]); eexists.
    - unfold rt_data_queue_pop_lwm. by rewrite (bind_run _ _ _ _ _ (proj1 Hen)).
    - by rewrite (bind_run _ _ _ _ _ (proj2 Hen)). }
  destruct Hpop as (-> & irq & Er). set (k1 := put_dq (tx_dq d) q' k) in *.
  assert (Es1 : k_serials k1 !! d = Some s) by done. assert (Ev1 : k_devs k1 !! d = Some v) by done.
  pose proof (length_dq_contents q' Hq') as Hlen'. cbn [tail] in Hw.
  unfold rt_hw_serial_dma_tx_isr. rewrite (bind_run _ _ _ _ _ Er). mstep.
  assert (Hpk : exists e, rt_data_queue_peak (tx_dq d) k1 = Some ((e, head (dq_contents q')), k1)).
  { unfold rt_data_queue_peak. rewrite (bind_run _ _ _ _ _ (get_dq_run _ _ _ Eq1)), (dq_empty_count q' Hq').
    destruct (Z.eqb_spec (dq_count q') 0) as [Hz|Hz].
    - exists (- RT_EEMPTY). destruct (dq_contents q'); [done|cbn in Hlen'; lia].
    - pose proof (dq_count_range q' Hq'). destruct (dq_first_run q' Hq' ltac:(lia)) as (y & Ey & _ & Hy). exists RT_EOK.
      rewrite Ey. mstep. by rewrite Hy. }
  destruct Hpk as [e Epk]. rewrite (bind_run _ _ _ _ _ Epk). cbn [fst snd].
  assert (Hs2 : exists s', (match head (dq_contents q') with Some item => uart_do d (UDma item.1 item.2)
      | None => mod_sr d (set_sr_dma_flag false) end) k1 = Some (tt, put_sr d s' k1) /\
    sr_dma_flag s' = negb (bool_decide (dq_contents q' = [])) /\ dmas (sr_calls s') ++ tail (dq_contents q') = w).
  { destruct (dq_contents q') as [|[p z] l']; cbn [head].
    - rewrite (mod_sr_run d s _ k1 Es1). eexists. split; [done|]. by rewrite bool_decide_true.
    - rewrite (uart_do_run d s _ k1 Es1). eexists. split; [done|]. rewrite bool_decide_false by done. split; [exact Hfl|].
      cbn [sr_calls set_sr_calls fst snd tail]. rewrite dmas_snoc, <-app_assoc. exact Hw. }
  destruct Hs2 as (s' & Ems & Hf' & Hw'). rewrite (bind_run _ _ _ _ _ Ems).
  rewrite (bind_run _ _ _ _ _ (get_dev_run d v (put_sr d s' k1) Ev1)), F4. exists (put_sr d s' k1). split; [done|].
  split; [by apply put_sr_core|]. exists v, s', q'. split; [done|]. split; [apply lookup_put_sr|]. do 6 (split; [done|]).
  split; [congruence|]. split; [lia|]. split; [lia|]. done.
Qed.

(** DMA transmission: for every sequence of writes and ends of transfers in which a write finds
    room in the data queue and transfers end only when one is on, every write is accepted, and
    the buffers handed to the controller, followed by those that wait, are the buffers
    written, in order and each once. *)
Theorem serial_dma_in_order d evs : forall n m w k ws rs,
  dma_ok b bd idle k d n m w -> dma_spec n m evs = Some (ws, rs) ->
  exists k' n' m', dma_run d evs k = Some (rs, k') /\ dma_ok b bd idle k' d n' m' (w ++ ws).
Proof.
  induction evs as [|[buffer data|] evs IH]; intros n m w k ws rs Hok Hs; cbn in Hs.
  - injection Hs as <- <-. exists k, n, m. rewrite app_nil_r. by split.
  - destruct ((0 <? n) && negb (bool_decide (data = []))) eqn:Eg; [|done]. apply andb_true_iff in Eg as [Hn Hd].
    apply Z.ltb_lt in Hn. apply negb_true_iff, bool_decide_eq_false in Hd.
    destruct (dma_spec (n - 1) (m + 1) evs) as [[ws1 rs1]|] eqn:E1; [|done]. cbn in Hs. injection Hs as <- <-.
    destruct (dma_write_run d n m w buffer data k Hok Hn Hd) as (k1 & Er & Hok1).
    destruct (IH _ _ _ k1 ws1 rs1 Hok1 E1) as (k' & n' & m' & Er' & Hok'). exists k', n', m'.
    rewrite <-app_assoc in Hok'. split; [|done]. cbn [dma_run]. rewrite (bind_run _ _ _ _ _ Er). by rewrite (bind_run _ _ _ _ _ Er').
  - destruct (Z.ltb_spec 0 m) as [Hm|]; [|done]. destruct (dma_done_run d n m w k Hok Hm) as (k1 & Er & Hok1).
    destruct (IH _ _ _ k1 ws rs Hok1 Hs) as (k' & n' & m' & Er' & Hok'). exists k', n', m'. split; [|done].
    cbn [dma_run]. by rewrite (bind_run _ _ _ _ _ Er).
Qed.
End Dma.

(** ** Writing without buffers *)

(** The characters that go to the line: in stream mode a carriage return before each line
    feed. *)
Definition putcs (stream : bool) (data : list Z) : list uart_call :=
  data ≫= fun c => if (c =? 10) && stream then [UPutc 13; UPutc c] else [UPutc c].

Lemma write_polling_run d stream data : forall s k, k_serials k !! d = Some s ->
  write_polling d stream data k =
    Some (Z.of_nat (length data), put_sr d (set_sr_calls (sr_calls s ++ putcs stream data) s) k).
Proof.
  induction data as [|c data IH]; intros s k E; cbn [write_polling].
  - unfold putcs. cbn. rewrite app_nil_r, put_sr_id; [done|]. rewrite E. by destruct s.
  - assert (H1 : exists s1, (if (c =? 10) && stream then uart_do d (UPutc 13) else mret tt) k = Some (tt, put_sr d s1 k) /\
      s1 = set_sr_calls (sr_calls s ++ (if (c =? 10) && stream then [UPutc 13] else [])) s).
    { destruct ((c =? 10) && stream); [rewrite (uart_do_run d s _ k E); by eexists|].
      exists s. rewrite app_nil_r, put_sr_id by done. split; [done|]. by destruct s. }
    destruct H1 as (s1 & E1 & ->). rewrite (bind_run _ _ _ _ _ E1).
    rewrite (bind_run _ _ _ _ _ (uart_do_run d _ _ _ (lookup_put_sr d _ k))), put_sr_put_sr.
    rewrite (bind_run _ _ _ _ _ (IH _ _ (lookup_put_sr d _ k))), put_sr_put_sr. unfold mret, M_ret. f_equal. f_equal; [cbn; lia|].
    f_equal. cbn [sr_calls set_sr_calls]. unfold putcs. cbn [mbind list_bind].
    destruct ((c =? 10) && stream); by rewrite <-!app_assoc.
Qed.

(** In polling mode [rt_serial_write] sends every character of the buffer, in order and in
    stream mode with a carriage return before each line feed, and returns their number. *)
Theorem rt_serial_write_polling callback d pos buffer data v s k :
  data <> [] -> k_devs k !! d = Some v -> k_serials k !! d = Some s ->
  has_flag v RT_DEVICE_FLAG_INT_TX = false -> has_flag v RT_DEVICE_FLAG_DMA_TX = false ->
  rt_serial_write callback d pos buffer data (Z.of_nat (length data)) k =
    Some (Ret (Z.of_nat (length data)),
      put_sr d (set_sr_calls (sr_calls s ++ putcs (has_flag v RT_DEVICE_FLAG_STREAM) data) s) k).
Proof.
  intros Hd E Es F1 F2. unfold rt_serial_write. destruct (Z.eqb_spec (Z.of_nat (length data)) 0) as [Hz|Hz]; [by destruct data|].
  rewrite (bind_run _ _ _ _ _ (get_dev_run _ _ _ E)). rewrite bool_decide_true by lia. mstep. rewrite F1, F2.
  rewrite Nat2Z.id, firstn_all. rewrite (bind_run _ _ _ _ _ (write_polling_run d _ data s k Es)).
  destruct (Z.eqb_spec (Z.of_nat (length data)) 0); [done|]. by mstep.
Qed.
