(* ===== verification/Pipe.v ===== *)
(** * Pipes (src/components/drivers/src/pipe.c)

    A device that is a ring buffer with the threads that wait for data and the threads that wait
    for room.  The theorems show that a pipe is a bounded stream of bytes, and that a thread
    that waits for data is woken by a write and gets what was written. *)
From S2P Require Import Prelude RingBuffer KService Kernel Object Scheduler Timer Thread Frame Ipc.
From S2P Require Import Mem Heap Dynamic Completion Device.

Definition RT_PIPE_FLAG_BLOCK_RD : Z := 0x01.
Definition RT_PIPE_FLAG_BLOCK_WR : Z := 0x02.
Definition RT_PIPE_FLAG_FORCE_WR : Z := 0x04.
Definition PIPE_CTRL_GET_SPACE : Z := 0x14.
Definition RT_DEVICE_FLAG_RDWR : Z := 0x003.
Definition RT_Device_Class_Pipe : Z := 15.
(** [sizeof (struct rt_pipe_device)]. *)
Definition pipe_device_size : Z := 108.

Definition get_pipe (d : Z) : M rt_pipe := fun k => p ← k_pipes k !! d; Some (p, k).
Definition put_pipe (d : Z) (p : rt_pipe) (k : kstate) : kstate := set_k_pipes (<[d := p]> (k_pipes k)) k.
Definition set_pp_rb (rb : rt_ringbuffer) (p : rt_pipe) : rt_pipe := Pipe rb (pp_addr p) (pp_flag p).
Definition pipe_flag (p : rt_pipe) (flag : Z) : bool := negb (Z.land (pp_flag p) flag =? 0).

(** [suspended_read_list] and [suspended_write_list], by their offsets. *)
Definition pipe_read_list (d : Z) : lhead := LWait (d + 84).
Definition pipe_write_list (d : Z) : lhead := LWait (d + 92).

(** [_rt_pipe_resume_writer]. *)
Definition rt_pipe_resume_writer (d : Z) : M unit :=
  e ← list_isempty (pipe_write_list d);
  if negb e then
    p ← get_pipe d;
    rt_assert (pipe_flag p RT_PIPE_FLAG_BLOCK_WR);;
    t ← list_first (pipe_write_list d);
    rt_thread_resume t;;
    rt_schedule
  else mret tt.

(** [rt_ringbuffer_get] on the buffer of a pipe; the length is cut to 16 bits. *)
Definition pipe_get (d size : Z) : M (Z * list Z) :=
  p ← get_pipe d;
  r ← deref (rt_ringbuffer_get (pp_rb p) (u16 size));
  kmod (put_pipe d (set_pp_rb r.2 p));;
  mret r.1.

(** The loop of [rt_pipe_read] for a thread [t] that may wait; [fuel] bounds the iterations that
    do not switch to another thread. *)
Fixpoint pipe_read_loop (fuel : nat) (t d size : Z) : M (wait (Z * list Z)) :=
  match fuel with
  | O => stuck
  | S fuel' =>
      r ← pipe_get d size;
      if r.1 =? 0 then
        rt_thread_suspend t;;
        tlist_insert_before (pipe_read_list d) t;;
        schedule_then t (FPipeRead d size) (pipe_read_loop fuel' t d size)
      else
        rt_pipe_resume_writer d;;
        mret (Ret r)
  end.

(** [rt_pipe_read]: the number of bytes and the bytes. *)
Definition rt_pipe_read (d pos buffer size : Z) : M (wait (Z * list Z)) :=
  p ← get_pipe d;
  if negb (pipe_flag p RT_PIPE_FLAG_BLOCK_RD) then
    r ← pipe_get d size;
    (if negb (r.1 =? 0) then rt_pipe_resume_writer d else mret tt);;
    mret (Ret r)
  else
    cur ← rt_thread_self;
    RT_DEBUG_NOT_IN_INTERRUPT;;
    t ← deref cur;
    pipe_read_loop 2 t d size.

(** [rt_pipe_read] after a wait. *)
Definition rt_pipe_read_resume (t d size : Z) : M (wait (Z * list Z)) := pipe_read_loop 2 t d size.

Section Callbacks.
Context (indicate : Z -> Z -> Z -> M Z).  (**r [rx_indicate]: function, device, size *)

(** [_rt_pipe_resume_reader]. *)
Definition rt_pipe_resume_reader (d : Z) : M unit :=
  v ← get_dev d;
  match dv_rx_indicate v with
  | Some f => p ← get_pipe d; indicate f d (rt_ringbuffer_data_len (pp_rb p));; mret tt
  | None => mret tt
  end;;
  e ← list_isempty (pipe_read_list d);
  if negb e then
    p ← get_pipe d;
    rt_assert (pipe_flag p RT_PIPE_FLAG_BLOCK_RD);;
    t ← list_first (pipe_read_list d);
    rt_thread_resume t;;
    rt_schedule
  else mret tt.

(** [rt_ringbuffer_put] or [rt_ringbuffer_put_force] on the buffer of a pipe. *)
Definition pipe_put (force : bool) (d : Z) (data : list Z) (size : Z) : M Z :=
  p ← get_pipe d;
  r ← deref ((if force then rt_ringbuffer_put_force else rt_ringbuffer_put) (pp_rb p) data (u16 size));
  kmod (put_pipe d (set_pp_rb r.2 p));;
  mret r.1.

(** The loop of [rt_pipe_write] for a thread that may wait. *)
Fixpoint pipe_write_loop (fuel : nat) (t d : Z) (data : list Z) (size : Z) : M (wait Z) :=
  match fuel with
  | O => stuck
  | S fuel' =>
      n ← pipe_put false d data size;
      if n =? 0 then
        rt_thread_suspend t;;
        tlist_insert_before (pipe_write_list d) t;;
        schedule_then t (FPipeWrite d data size) (pipe_write_loop fuel' t d data size)
      else
        rt_pipe_resume_reader d;;
        mret (Ret n)
  end.

(** [rt_pipe_write]. *)
Definition rt_pipe_write (d pos buffer : Z) (data : list Z) (size : Z) : M (wait Z) :=
  p ← get_pipe d;
  if pipe_flag p RT_PIPE_FLAG_FORCE_WR || negb (pipe_flag p RT_PIPE_FLAG_BLOCK_WR) then
    n ← pipe_put (pipe_flag p RT_PIPE_FLAG_FORCE_WR) d data size;
    rt_pipe_resume_reader d;;
    mret (Ret n)
  else
    cur ← rt_thread_self;
    RT_DEBUG_NOT_IN_INTERRUPT;;
    t ← deref cur;
    pipe_write_loop 2 t d data size.

(** [rt_pipe_write] after a wait. *)
Definition rt_pipe_write_resume (t d : Z) (data : list Z) (size : Z) : M (wait Z) := pipe_write_loop 2 t d data size.
End Callbacks.

(** [rt_pipe_control]: the error code and what is stored at [args], 0 for [RT_NULL]. *)
Definition rt_pipe_control (d cmd args : Z) : M (Z * option Z) :=
  if (cmd =? PIPE_CTRL_GET_SPACE) && negb (args =? 0) then
    p ← get_pipe d; mret (RT_EOK, Some (u32 (rt_ringbuffer_space_len (pp_rb p))))
  else mret (RT_EOK, None).

(** [rt_pipe_init]: [raw] is the device in memory before, [pool] the contents of the buffer at
    the address [buf]; the functions of the driver have the numbers 7 to 9. *)
Definition rt_pipe_init (d : Z) (raw : rt_device) (name : list Z) (flag buf : Z) (pool : list Z) (size : Z) : M Z :=
  rt_assert (negb (d =? 0));;
  rt_assert (negb (buf =? 0));;
  list_head_init (pipe_read_list d);;
  list_head_init (pipe_write_list d);;
  rb ← deref (rt_ringbuffer_init pool (i16 size));
  kmod (put_pipe d (Pipe rb buf flag));;
  rt_device_register d
    (Device RT_Device_Class_Pipe (dv_flag raw) (dv_open_flag raw) (dv_ref_count raw) (dv_rx_indicate raw) (dv_tx_complete raw)
       None None None (Some 7) (Some 8) (Some 9) (dv_user_data raw)) name RT_DEVICE_FLAG_RDWR.

(** [rt_pipe_detach]. *)
Definition rt_pipe_detach (d : Z) : M Z := rt_device_unregister d.

(** [rt_pipe_create]: [zeros] is the device [rt_calloc] has cleared, [pool] the contents of the
    memory for the buffer. *)
Definition zeros : rt_device := Device 0 0 0 0 None None None None None None None None 0.
Definition rt_pipe_create (name : list Z) (flag size : Z) (pool : list Z) : prog Z :=
  let size := RT_ALIGN size 4 in
  pipe ← malloc pipe_device_size;
  if pipe =? 0 then mret (- RT_ENOMEM)
  else
    rb_memptr ← malloc size;
    if rb_memptr =? 0 then free pipe;; mret (- RT_ENOMEM)
    else atomic (rt_pipe_init pipe zeros name flag rb_memptr pool size).

(** [rt_pipe_destroy]. *)
Definition rt_pipe_destroy (d : Z) : prog unit :=
  if d =? 0 then mret tt
  else
    atomic (rt_pipe_detach d);;
    p ← atomic (get_pipe d);
    free (pp_addr p);;
    free d.

(** ** Lemmas *)

Lemma get_pipe_run d p k : k_pipes k !! d = Some p -> get_pipe d k = Some (p, k).
Proof. intros E. unfold get_pipe. by rewrite E. Qed.
Lemma put_pipe_id d p k : k_pipes k !! d = Some p -> put_pipe d p k = k.
Proof. intros E. unfold put_pipe. rewrite insert_id by done. by destruct k. Qed.
Lemma put_pipe_core b bd idle d p k : core b bd idle k -> core b bd idle (put_pipe d p k).
Proof.
  intros [[[Hwf Hw] Hi Hs] Hcur]. split; [split; [split|..]|]; try done;
    [by apply (sched_wf_ext k)|by apply (timer_wf_ext b bd k)].
Qed.

(** Taking bytes out of the buffer. *)
Lemma pipe_get_run d p c size k :
  k_pipes k !! d = Some p -> rb_ok (pp_rb p) c -> 0 <= size < 65536 ->
  let n := Z.min size (Z.of_nat (length c)) in
  exists rb', pipe_get d size k = Some ((n, take (Z.to_nat n) c), put_pipe d (set_pp_rb rb' p) k) /\
    rb_ok rb' (drop (Z.to_nat n) c).
Proof.
  intros E Hok Hs n. destruct (rt_ringbuffer_get_refines (pp_rb p) c size Hok Hs) as (rb' & Er & Hok' & _).
  exists rb'. split; [|done]. unfold pipe_get. rewrite (bind_run _ _ _ _ _ (get_pipe_run _ _ _ E)), u16_id, Er by done. mstep. by mstep.
Qed.
Lemma pipe_get_empty d p size k : k_pipes k !! d = Some p -> rb_ok (pp_rb p) [] -> pipe_get d size k = Some ((0, []), k).
Proof.
  intros E Hok. destruct (data_len_spec _ _ Hok) as (Hd & _). unfold pipe_get. rewrite (bind_run _ _ _ _ _ (get_pipe_run _ _ _ E)).
  unfold rt_ringbuffer_get. rewrite Hd. cbn [length Z.of_nat Z.eqb]. mstep. mstep. cbn [fst snd].
  rewrite put_pipe_id; [done|]. rewrite E. by destruct p.
Qed.

(** Putting bytes into the buffer. *)
Lemma pipe_put_run d p c data k :
  k_pipes k !! d = Some p -> rb_ok (pp_rb p) c -> Z.of_nat (length data) < 65536 ->
  let n := Z.min (Z.of_nat (length data)) (buffer_size (pp_rb p) - Z.of_nat (length c)) in
  exists rb', pipe_put false d data (Z.of_nat (length data)) k = Some (n, put_pipe d (set_pp_rb rb' p) k) /\
    rb_ok rb' (c ++ take (Z.to_nat n) data) /\ buffer_size rb' = buffer_size (pp_rb p).
Proof.
  intros E Hok Hs n. destruct (rt_ringbuffer_put_refines (pp_rb p) c data (Z.of_nat (length data)) Hok) as (rb' & Er & Hok' & Hsz); [lia|lia|].
  exists rb'. split; [|done]. unfold pipe_put. rewrite (bind_run _ _ _ _ _ (get_pipe_run _ _ _ E)), u16_id, Er by lia. mstep. by mstep.
Qed.
Lemma pipe_put_full d p c data size k :
  k_pipes k !! d = Some p -> rb_ok (pp_rb p) c -> Z.of_nat (length c) = buffer_size (pp_rb p) ->
  pipe_put false d data size k = Some (0, k).
Proof.
  intros E Hok Hf. destruct (data_len_spec _ _ Hok) as (Hd & Hle & _). unfold pipe_put. rewrite (bind_run _ _ _ _ _ (get_pipe_run _ _ _ E)).
  unfold rt_ringbuffer_put, rt_ringbuffer_space_len. rewrite Hd, Hf, Z.sub_diag. cbn [u16 Z.eqb]. change (u16 0 =? 0) with true. cbv iota. mstep. mstep. cbn [fst snd].
  rewrite put_pipe_id; [done|]. rewrite E. by destruct p.
Qed.

(** What becomes of the first thread of a list. *)
Definition first_woken (b bd idle : Z) (h : lhead) (k k' : kstate) : Prop :=
  match queue k h with [] => k' = k | w :: ws => exists th, k_threads k !! w = Some th /\ woke b bd idle h w th ws k k' end.

Lemma first_woken_core b bd idle h k k' : core b bd idle k -> first_woken b bd idle h k k' -> core b bd idle k' /\ core_only k k'.
Proof. intros Hc. unfold first_woken. destruct (queue k h) as [|w ws]; [by intros ->|]. intros (th & _ & Hw). split; apply Hw. Qed.

Lemma wake_waiting_run b bd idle h (m : M rt_pipe) p (f : rt_pipe -> bool) k :
  core b bd idle k -> wait_list h -> m k = Some (p, k) -> (queue k h <> [] -> f p = true) ->
  exists k', (e ← list_isempty h;
    if negb e then p ← m; rt_assert (f p);; t ← list_first h; rt_thread_resume t;; rt_schedule else mret tt) k = Some (tt, k') /\
    first_woken b bd idle h k k'.
Proof.
  intros Hc Hh Em Hf. unfold list_isempty, first_woken. mstep. destruct (queue k h) as [|w ws] eqn:Eq; cbn [negb]; [by exists k|].
  rewrite (bind_run _ _ _ _ _ Em). erewrite bind_run; [|by apply rt_assert_run, Hf].
  destruct (resume_schedule_woke b bd idle h w ws k Hc Hh Eq) as (th & k' & E & Er & Hw).
  exists k'. split; [rewrite <-Er; apply fifo_wake_ipc|by exists th].
Qed.

Lemma resume_writer_run b bd idle d p k :
  core b bd idle k -> k_pipes k !! d = Some p -> (queue k (pipe_write_list d) <> [] -> pipe_flag p RT_PIPE_FLAG_BLOCK_WR = true) ->
  exists k', rt_pipe_resume_writer d k = Some (tt, k') /\ first_woken b bd idle (pipe_write_list d) k k'.
Proof.
  intros Hc E Hf. by apply (wake_waiting_run b bd idle (pipe_write_list d) (get_pipe d) p (fun p => pipe_flag p RT_PIPE_FLAG_BLOCK_WR)); [|done|apply get_pipe_run|].
Qed.

Lemma resume_reader_run indicate b bd idle d p v k :
  core b bd idle k -> k_pipes k !! d = Some p -> k_devs k !! d = Some v -> dv_rx_indicate v = None ->
  (queue k (pipe_read_list d) <> [] -> pipe_flag p RT_PIPE_FLAG_BLOCK_RD = true) ->
  exists k', rt_pipe_resume_reader indicate d k = Some (tt, k') /\ first_woken b bd idle (pipe_read_list d) k k'.
Proof.
  intros Hc E Ev Hi Hf. unfold rt_pipe_resume_reader. rewrite (bind_run _ _ _ _ _ (get_dev_run _ _ _ Ev)), Hi. mstep.
  by apply (wake_waiting_run b bd idle (pipe_read_list d) (get_pipe d) p (fun p => pipe_flag p RT_PIPE_FLAG_BLOCK_RD)); [|done|apply get_pipe_run|].
Qed.

(** A thread that waits in a list of a pipe, for as long as it takes. *)
Lemma pipe_block b bd idle h t th k {A} f (rest : M (wait A)) :
  core b bd idle k -> k_current k = Some t -> is_ready k t th -> wait_list h -> may_block b bd idle k t (-1) ->
  exists k', (rt_thread_suspend t;; tlist_insert_before h t;; schedule_then t f rest) k = Some (Wait f, k') /\
    blocked b bd idle h t th RT_IPC_FLAG_FIFO (-1) k k'.
Proof.
  intros Hc Ec Hr Hh Hb. destruct (put_wait_block b bd idle h t th th RT_IPC_FLAG_FIFO (-1) k f rest) as (k' & Er & Hbl & _); try done.
  { by left. } { exact (wf_thread k (proj1 (c_inv (c_core0 Hc))) t th (proj1 Hr)). }
  exists k'. split; [|done]. rewrite put_th_id in Er by apply Hr. rewrite <-Er, <-fifo_wait_ipc. done.
Qed.

(** ** Properties *)

(** [rt_pipe_read] refines the read of a bounded stream: it takes the oldest bytes, as many as
    asked for and there are, and wakes the first thread that waits for room; an empty pipe
    gives nothing or, with [RT_PIPE_FLAG_BLOCK_RD], suspends the caller behind the other
    readers. *)
Lemma rt_pipe_read_run b bd idle d pos buffer size p c k t th :
  core b bd idle k -> k_pipes k !! d = Some p -> rb_ok (pp_rb p) c -> 0 < size < 65536 ->
  k_current k = Some t -> is_ready k t th ->
  (queue k (pipe_write_list d) <> [] -> pipe_flag p RT_PIPE_FLAG_BLOCK_WR = true) ->
  (pipe_flag p RT_PIPE_FLAG_BLOCK_RD = true -> may_block b bd idle k t (-1)) ->
  match c with
  | [] =>
      if pipe_flag p RT_PIPE_FLAG_BLOCK_RD then
        exists k', rt_pipe_read d pos buffer size k = Some (Wait (FPipeRead d size), k') /\
          blocked b bd idle (pipe_read_list d) t th RT_IPC_FLAG_FIFO (-1) k k'
      else rt_pipe_read d pos buffer size k = Some (Ret (0, []), k)
  | _ =>
      let n := Z.min size (Z.of_nat (length c)) in
      exists rb' k', rt_pipe_read d pos buffer size k = Some (Ret (n, take (Z.to_nat n) c), k') /\
        rb_ok rb' (drop (Z.to_nat n) c) /\
        first_woken b bd idle (pipe_write_list d) (put_pipe d (set_pp_rb rb' p) k) k'
  end.
Proof.
  intros Hc E Hok Hs Ec Hr Hw Hb. destruct c as [|x c'].
  - unfold rt_pipe_read. rewrite (bind_run _ _ _ _ _ (get_pipe_run _ _ _ E)). pose proof (pipe_get_empty d p size k E Hok) as Hg.
    destruct (pipe_flag p RT_PIPE_FLAG_BLOCK_RD); cbn [negb].
    + specialize (Hb eq_refl). unfold rt_thread_self. mstep. mstep_by (not_in_interrupt_run k (proj1 (proj2 (proj2 Hb)))). rewrite Ec. mstep.
      cbn [pipe_read_loop]. rewrite (bind_run _ _ _ _ _ Hg). by apply pipe_block.
    + rewrite (bind_run _ _ _ _ _ Hg). by mstep.
  - set (c := x :: c') in *. intros n. destruct (pipe_get_run d p c size k E Hok ltac:(lia)) as (rb' & Hg & Hok').
    set (k1 := put_pipe d (set_pp_rb rb' p) k) in *. assert (Hn : n <> 0) by (unfold n, c; cbn [length]; lia).
    assert (E1 : k_pipes k1 !! d = Some (set_pp_rb rb' p)) by (cbn; apply lookup_insert_eq).
    destruct (resume_writer_run b bd idle d (set_pp_rb rb' p) k1) as (k' & Er & Hfw); [by apply put_pipe_core|done|done|].
    exists rb', k'. split; [|done]. unfold rt_pipe_read. rewrite (bind_run _ _ _ _ _ (get_pipe_run _ _ _ E)).
    destruct (pipe_flag p RT_PIPE_FLAG_BLOCK_RD); cbn [negb].
    + specialize (Hb eq_refl). unfold rt_thread_self. mstep. mstep_by (not_in_interrupt_run k (proj1 (proj2 (proj2 Hb)))). rewrite Ec. mstep.
      cbn [pipe_read_loop]. rewrite (bind_run _ _ _ _ _ Hg). cbn [fst]. fold n. destruct (Z.eqb_spec n 0); [done|]. by mstep_by Er.
    + rewrite (bind_run _ _ _ _ _ Hg). cbn [fst]. fold n. destruct (Z.eqb_spec n 0); [done|]. cbn [negb]. by mstep_by Er.
Qed.

(** [rt_pipe_write] without [RT_PIPE_FLAG_FORCE_WR] refines the write of a bounded stream: as many
    bytes as there is room for are appended and the first thread that waits for data is woken;
    a full pipe takes nothing or, with [RT_PIPE_FLAG_BLOCK_WR], suspends the caller behind the
    other writers. *)
Lemma rt_pipe_write_run indicate b bd idle d pos buffer data p v c k t th :
  core b bd idle k -> k_pipes k !! d = Some p -> rb_ok (pp_rb p) c -> data <> [] -> Z.of_nat (length data) < 65536 ->
  k_devs k !! d = Some v -> dv_rx_indicate v = None -> pipe_flag p RT_PIPE_FLAG_FORCE_WR = false ->
  k_current k = Some t -> is_ready k t th ->
  (queue k (pipe_read_list d) <> [] -> pipe_flag p RT_PIPE_FLAG_BLOCK_RD = true) ->
  (pipe_flag p RT_PIPE_FLAG_BLOCK_WR = true -> may_block b bd idle k t (-1)) ->
  let size := Z.of_nat (length data) in
  if Z.of_nat (length c) =? buffer_size (pp_rb p) then
    if pipe_flag p RT_PIPE_FLAG_BLOCK_WR then
      exists k', rt_pipe_write indicate d pos buffer data size k = Some (Wait (FPipeWrite d data size), k') /\
        blocked b bd idle (pipe_write_list d) t th RT_IPC_FLAG_FIFO (-1) k k'
    else exists k', rt_pipe_write indicate d pos buffer data size k = Some (Ret 0, k') /\
      first_woken b bd idle (pipe_read_list d) k k'
  else
    let n := Z.min size (buffer_size (pp_rb p) - Z.of_nat (length c)) in
    exists rb' k', rt_pipe_write indicate d pos buffer data size k = Some (Ret n, k') /\ 0 < n /\
      rb_ok rb' (c ++ take (Z.to_nat n) data) /\ buffer_size rb' = buffer_size (pp_rb p) /\
      first_woken b bd idle (pipe_read_list d) (put_pipe d (set_pp_rb rb' p) k) k'.
Proof.
  intros Hc E Hok Hd Hs Ev Hi Hfo Ec Hr Hrd Hb size. assert (Hsz : 0 < size) by (unfold size; destruct data; [done|cbn; lia]).
  destruct (data_len_spec _ _ Hok) as (_ & Hle & _). unfold rt_pipe_write. rewrite (bind_run _ _ _ _ _ (get_pipe_run _ _ _ E)), Hfo. cbn [orb].
  destruct (Z.eqb_spec (Z.of_nat (length c)) (buffer_size (pp_rb p))) as [Hf|Hf].
  - pose proof (pipe_put_full d p c data size k E Hok Hf) as Hp. destruct (pipe_flag p RT_PIPE_FLAG_BLOCK_WR); cbn [negb].
    + specialize (Hb eq_refl). unfold rt_thread_self. mstep. mstep_by (not_in_interrupt_run k (proj1 (proj2 (proj2 Hb)))). rewrite Ec. mstep.
      cbn [pipe_write_loop]. rewrite (bind_run _ _ _ _ _ Hp). by apply pipe_block.
    + rewrite (bind_run _ _ _ _ _ Hp). destruct (resume_reader_run indicate b bd idle d p v k Hc E Ev Hi Hrd) as (k' & Er & Hw).
      exists k'. split; [by mstep_by Er|done].
  - set (n := Z.min size (buffer_size (pp_rb p) - Z.of_nat (length c))). destruct (pipe_put_run d p c data k E Hok Hs) as (rb' & Hp & Hok' & Hbs). fold size in Hp. fold size n in Hok'.
    set (k1 := put_pipe d (set_pp_rb rb' p) k) in *. assert (Hn : 0 < n) by (unfold n; lia).
    assert (E1 : k_pipes k1 !! d = Some (set_pp_rb rb' p)) by (cbn; apply lookup_insert_eq).
    destruct (resume_reader_run indicate b bd idle d (set_pp_rb rb' p) v k1) as (k' & Er & Hw); [by apply put_pipe_core|done..|].
    exists rb', k'. split; [|done]. destruct (pipe_flag p RT_PIPE_FLAG_BLOCK_WR); cbn [negb].
    + specialize (Hb eq_refl). unfold rt_thread_self. mstep. mstep_by (not_in_interrupt_run k (proj1 (proj2 (proj2 Hb)))). rewrite Ec. mstep.
      cbn [pipe_write_loop]. rewrite (bind_run _ _ _ _ _ Hp). fold size n. destruct (Z.eqb_spec n 0); [lia|]. by mstep_by Er.
    + rewrite (bind_run _ _ _ _ _ Hp). fold size n. by mstep_by Er.
Qed.

(** A reader that goes on after its wait. *)
Lemma rt_pipe_read_resume_run b bd idle t d size p c k :
  core b bd idle k -> k_pipes k !! d = Some p -> rb_ok (pp_rb p) c -> c <> [] -> 0 < size < 65536 ->
  (queue k (pipe_write_list d) <> [] -> pipe_flag p RT_PIPE_FLAG_BLOCK_WR = true) ->
  let n := Z.min size (Z.of_nat (length c)) in
  exists rb' k', rt_pipe_read_resume t d size k = Some (Ret (n, take (Z.to_nat n) c), k') /\ rb_ok rb' (drop (Z.to_nat n) c) /\
    first_woken b bd idle (pipe_write_list d) (put_pipe d (set_pp_rb rb' p) k) k'.
Proof.
  intros Hc E Hok Hne Hs Hw n. destruct (pipe_get_run d p c size k E Hok ltac:(lia)) as (rb' & Hg & Hok').
  set (k1 := put_pipe d (set_pp_rb rb' p) k) in *. assert (Hn : n <> 0) by (unfold n; destruct c; [done|cbn [length]; lia]).
  assert (E1 : k_pipes k1 !! d = Some (set_pp_rb rb' p)) by (cbn; apply lookup_insert_eq).
  destruct (resume_writer_run b bd idle d (set_pp_rb rb' p) k1) as (k' & Er & Hfw); [by apply put_pipe_core|done|done|].
  exists rb', k'. split; [|done]. unfold rt_pipe_read_resume. cbn [pipe_read_loop]. rewrite (bind_run _ _ _ _ _ Hg). cbn [fst]. fold n.
  destruct (Z.eqb_spec n 0); [done|]. by mstep_by Er.
Qed.

(** C29. A reader and a writer meet: a thread that reads from an empty pipe with
    [RT_PIPE_FLAG_BLOCK_RD] is suspended; the next write, by whatever thread and whenever it
    comes, stores its bytes and makes the reader ready; and when the reader runs again, with
    the pipe as the write left it, its call returns the first of the bytes written. *)
Theorem pipe_handshake indicate b bd idle d buffer size p k t th k2 u thu data v k4 :
  (* the read *)
  core b bd idle k -> k_pipes k !! d = Some p -> rb_ok (pp_rb p) [] -> 0 < size < 65536 ->
  k_current k = Some t -> is_ready k t th -> queue k (pipe_write_list d) = [] -> queue k (pipe_read_list d) = [] ->
  pipe_flag p RT_PIPE_FLAG_BLOCK_RD = true -> pipe_flag p RT_PIPE_FLAG_FORCE_WR = false -> may_block b bd idle k t (-1) ->
  exists k1, rt_pipe_read d 0 buffer size k = Some (Wait (FPipeRead d size), k1) /\ k_current k1 <> Some t /\
    queue k1 (pipe_read_list d) = [t] /\
    (* the write *)
    (core b bd idle k2 -> k_pipes k2 !! d = k_pipes k1 !! d -> queue k2 (pipe_read_list d) = [t] ->
     k_devs k2 !! d = Some v -> dv_rx_indicate v = None -> k_current k2 = Some u -> is_ready k2 u thu ->
     (pipe_flag p RT_PIPE_FLAG_BLOCK_WR = true -> may_block b bd idle k2 u (-1)) ->
     data <> [] -> Z.of_nat (length data) < 65536 ->
     exists n k3, rt_pipe_write indicate d 0 0 data (Z.of_nat (length data)) k2 = Some (Ret n, k3) /\
       n = Z.min (Z.of_nat (length data)) (buffer_size (pp_rb p)) /\ (exists th3, is_ready k3 t th3) /\
       (* the reader goes on *)
       (core b bd idle k4 -> k_pipes k4 !! d = k_pipes k3 !! d -> queue k4 (pipe_write_list d) = [] ->
        exists k5, rt_pipe_read_resume t d size k4 =
          Some (Ret (Z.min size n, take (Z.to_nat (Z.min size n)) data), k5))).
Proof.
  intros Hc E Hok Hs Ec Hr Q1 Q2 Hrd Hfo Hb.
  pose proof (rt_pipe_read_run b bd idle d 0 buffer size p [] k t th Hc E Hok Hs Ec Hr) as H. rewrite Hrd in H.
  destruct H as (k1 & Er & Hbl); [by rewrite Q1|done|]. exists k1. split; [done|]. split; [apply Hbl|].
  destruct (bl_list Hbl) as (l1 & l2 & El & El' & _). rewrite Q2 in El. symmetry in El. apply app_nil in El as [-> ->].
  split; [exact El'|]. intros Hc2 Ep2 Q3 Ev Hi Ec2 Hr2 Hb2 Hd Hl.
  assert (E2 : k_pipes k2 !! d = Some p) by (rewrite Ep2; by rewrite (bl_only Hbl)).
  pose proof (rt_pipe_write_run indicate b bd idle d 0 0 data p v [] k2 u thu Hc2 E2 Hok Hd Hl Ev Hi Hfo Ec2 Hr2) as H.
  cbv zeta in H. pose proof Hok as (Hbs & _). destruct (Z.eqb_spec (Z.of_nat (length (@nil Z))) (buffer_size (pp_rb p))) as [Hz|_]; [cbn in Hz; lia|].
  destruct H as (rb' & k3 & Ew & Hn & Hok' & Hsz & Hfw); [done|done|]. cbn [length Z.of_nat app] in Ew, Hn, Hok'. rewrite Z.sub_0_r in Ew, Hn, Hok'.
  eexists _, k3. split; [exact Ew|]. split; [done|]. set (n := Z.min _ _) in *.
  unfold first_woken in Hfw. change (queue (put_pipe d (set_pp_rb rb' p) k2) (pipe_read_list d)) with (queue k2 (pipe_read_list d)) in Hfw.
  rewrite Q3 in Hfw. destruct Hfw as (th3 & Et3 & Hw). split.
  { exists (set_th_stat RT_THREAD_READY th3). split; [rewrite (wk_threads Hw); apply lookup_insert_eq|done]. }
  intros Hc4 Ep4 Q4. assert (E4 : k_pipes k4 !! d = Some (set_pp_rb rb' p)).
  { rewrite Ep4, (wk_only Hw). cbn. apply lookup_insert_eq. }
  assert (Hlen : Z.of_nat (length (take (Z.to_nat n) data)) = n) by (rewrite length_take; unfold n in *; lia).
  destruct (rt_pipe_read_resume_run b bd idle t d size (set_pp_rb rb' p) (take (Z.to_nat n) data) k4 Hc4 E4 Hok') as (rb5 & k5 & Er5 & _).
  { intros H0. rewrite H0 in Hlen. cbn in Hlen. lia. } { done. } { by rewrite Q4. }
  rewrite Hlen, take_take in Er5. replace (Z.to_nat (Z.min size n) `min` Z.to_nat n)%nat with (Z.to_nat (Z.min size n)) in Er5 by lia.
  by exists k5.
Qed.
