(* ===== verification/MemFunc.v ===== *)
(** * Memory functions (memory and string routines of src/src/kservice.c)

    [rt_memset], [rt_memcpy] and [rt_memmove] on a memory of bytes, with the loops over whole
    words that the code uses for aligned blocks, and what is left of the string functions.  The
    theorems show that the fast paths do what a loop over bytes does. *)
From S2P Require Import Prelude KService.

(** ** Memory

    The bytes that may be accessed, by address; an access elsewhere gives [None].  Words are
    stored with the lowest byte first. *)
Notation mem := (gmap Z Z).

Definition store8 (m : mem) (a v : Z) : option mem :=
  match m !! a with Some _ => Some (<[a := u8 v]> m) | None => None end.
Definition load32 (m : mem) (a : Z) : option Z :=
  b0 ← m !! a; b1 ← m !! (a + 1); b2 ← m !! (a + 2); b3 ← m !! (a + 3);
  Some (b0 + 256 * b1 + 65536 * b2 + 16777216 * b3).
Definition store32 (m : mem) (a v : Z) : option mem :=
  m1 ← store8 m a v; m2 ← store8 m1 (a + 1) (v / 256);
  m3 ← store8 m2 (a + 2) (v / 65536); store8 m3 (a + 3) (v / 16777216).

(** [X & (sizeof(rt_int32_t) - 1)] of an address. *)
Definition UNALIGNED (a : Z) : bool := negb (Z.land a 3 =? 0).

(** ** rt_memset *)

(** [while (count--) *m++ = d]. *)
Fixpoint set_bytes (m : mem) (a : Z) (count : nat) (d : Z) : option mem :=
  match count with
  | O => Some m
  | S n => m' ← store8 m a d; set_bytes m' (a + 1) n d
  end.

(** [while (count >= LBLOCKSIZE) *aligned_addr++ = buffer], and the same loop with four words a
    turn: the memory, the address and the count behind the loop. *)
Fixpoint set_words (fuel : nat) (m : mem) (a count buffer : Z) : option (mem * Z * Z) :=
  if 4 <=? count then
    match fuel with
    | O => None
    | S f => m' ← store32 m a buffer; set_words f m' (a + 4) (count - 4) buffer
    end
  else Some (m, a, count).
Fixpoint set_blocks (fuel : nat) (m : mem) (a count buffer : Z) : option (mem * Z * Z) :=
  if 16 <=? count then
    match fuel with
    | O => None
    | S f =>
        m1 ← store32 m a buffer; m2 ← store32 m1 (a + 4) buffer;
        m3 ← store32 m2 (a + 8) buffer; m4 ← store32 m3 (a + 12) buffer;
        set_blocks f m4 (a + 16) (count - 16) buffer
    end
  else Some (m, a, count).

Definition rt_memset (m : mem) (s c count : Z) : option (Z * mem) :=
  let d := Z.land c 0xff in
  let fuel := Z.to_nat count in
  if negb (count <? 4) && negb (UNALIGNED s) then
    let buffer := Z.lor (u32 (Z.shiftl d 8)) d in
    let buffer := Z.lor buffer (u32 (Z.shiftl buffer 16)) in
    p ← set_blocks fuel m s count buffer;
    let '(m1, a1, n1) := p in
    q ← set_words fuel m1 a1 n1 buffer;
    let '(m2, a2, n2) := q in
    m3 ← set_bytes m2 a2 (Z.to_nat n2) d; Some (s, m3)
  else m1 ← set_bytes m s fuel d; Some (s, m1).

(** ** rt_memcpy *)

(** [while (len--) *dst_ptr++ = *src_ptr++]. *)
Fixpoint copy_bytes (m : mem) (dst src : Z) (len : nat) : option mem :=
  match len with
  | O => Some m
  | S n => v ← m !! src; m' ← store8 m dst v; copy_bytes m' (dst + 1) (src + 1) n
  end.
(** [*aligned_dst++ = *aligned_src++]. *)
Definition copy_word (m : mem) (dst src : Z) : option mem := v ← load32 m src; store32 m dst v.
Fixpoint copy_words (fuel : nat) (m : mem) (dst src len : Z) : option (mem * Z * Z * Z) :=
  if 4 <=? len then
    match fuel with
    | O => None
    | S f => m' ← copy_word m dst src; copy_words f m' (dst + 4) (src + 4) (len - 4)
    end
  else Some (m, dst, src, len).
Fixpoint copy_blocks (fuel : nat) (m : mem) (dst src len : Z) : option (mem * Z * Z * Z) :=
  if 16 <=? len then
    match fuel with
    | O => None
    | S f =>
        m1 ← copy_word m dst src; m2 ← copy_word m1 (dst + 4) (src + 4);
        m3 ← copy_word m2 (dst + 8) (src + 8); m4 ← copy_word m3 (dst + 12) (src + 12);
        copy_blocks f m4 (dst + 16) (src + 16) (len - 16)
    end
  else Some (m, dst, src, len).

(** [len] is an [int], compared with unsigned block sizes; the last loop counts it down to
    zero, through the negative numbers if it must. *)
Definition rt_memcpy (m : mem) (dst src count : Z) : option (Z * mem) :=
  let len := u32 count in
  let fuel := Z.to_nat len in
  if negb (len <? 16) && negb (UNALIGNED src || UNALIGNED dst) then
    p ← copy_blocks fuel m dst src len;
    let '(m1, d1, s1, n1) := p in
    q ← copy_words fuel m1 d1 s1 n1;
    let '(m2, d2, s2, n2) := q in
    m3 ← copy_bytes m2 d2 s2 (Z.to_nat n2); Some (dst, m3)
  else m1 ← copy_bytes m dst src fuel; Some (dst, m1).

(** ** rt_memmove *)

(** [while (n--) *(--tmp) = *(--s)]. *)
Fixpoint copy_down (m : mem) (tmp s : Z) (n : nat) : option mem :=
  match n with
  | O => Some m
  | S n' => v ← m !! (s - 1); m' ← store8 m (tmp - 1) v; copy_down m' (tmp - 1) (s - 1) n'
  end.

Definition rt_memmove (m : mem) (dest src n : Z) : option (Z * mem) :=
  if (src <? dest) && (dest <? u32 (src + n)) then
    m1 ← copy_down m (dest + n) (src + n) (Z.to_nat n); Some (dest, m1)
  else m1 ← copy_bytes m dest src (Z.to_nat n); Some (dest, m1).

(** ** Strings *)

(** The letters A to Z in small. *)
Definition lower (c : Z) : Z := if (65 <=? c) && (c <=? 90) then c + 32 else c.

Fixpoint rt_strcasecmp (a b : list Z) : option Z :=
  match a, b with
  | x :: a', y :: b' =>
      let ca := lower (Z.land x 0xff) in
      let cb := lower (Z.land y 0xff) in
      if (ca =? cb) && negb (ca =? 0) then rt_strcasecmp a' b' else Some (u32 (ca - cb))
  | _, _ => None
  end.

(** ** What the memory holds afterwards *)

(** The addresses from [a] on, [n] of them, may be accessed. *)
Definition mapped (m : mem) (a n : Z) : Prop := forall x, a <= x < a + n -> is_Some (m !! x).
Definition bytes_ok (m : mem) : Prop := map_Forall (fun _ v => 0 <= v < 256) m.

(** [m] is [m0] with [n] bytes at [s] set to [v]; [m] is [m0] with the [n] bytes at [dst] taken
    from [src]; the same for the last [k] of [n] bytes. *)
Definition filled (m0 m : mem) (s n v : Z) : Prop :=
  forall x, m !! x = if (s <=? x) && (x <? s + n) then Some v else m0 !! x.
Definition copied (m0 m : mem) (dst src n : Z) : Prop :=
  forall x, m !! x = if (dst <=? x) && (x <? dst + n) then m0 !! (src + (x - dst)) else m0 !! x.

Lemma store8_run m a v : is_Some (m !! a) -> store8 m a v = Some (<[a := u8 v]> m).
Proof. unfold store8. by intros [? ->]. Qed.

Lemma mapped_sub m a n b k : mapped m a n -> a <= b -> b + k <= a + n -> mapped m b k.
Proof. intros H H1 H2 x Hx. apply H. lia. Qed.

(** Lookup in a memory one byte of which has been stored. *)
Ltac at_byte x a := destruct (decide (x = a)) as [->|]; [rewrite lookup_insert_eq|rewrite lookup_insert_ne by done].
(** The comparisons with the bounds of a block. *)
Ltac in_block := zcases; cbn [andb]; try lia.

(** ** Filling *)

Lemma store8_filled m0 m s n v :
  filled m0 m s n v -> 0 <= n -> is_Some (m0 !! (s + n)) -> 0 <= v < 256 ->
  exists m', store8 m (s + n) v = Some m' /\ filled m0 m' s (n + 1) v.
Proof.
  intros Hf Hn Hs Hv. eexists. split.
  - apply store8_run. rewrite Hf. in_block. done.
  - intros x. at_byte x (s + n); [rewrite u8_id by done|rewrite Hf]; in_block; done.
Qed.

Lemma store32_filled m0 m s n v w :
  filled m0 m s n v -> 0 <= n -> mapped m0 (s + n) 4 -> 0 <= v < 256 -> w = v * 16843009 ->
  exists m', store32 m (s + n) w = Some m' /\ filled m0 m' s (n + 4) v.
Proof.
  intros Hf Hn Hm Hv ->. unfold store32.
  assert (Hb : forall m j, filled m0 m s (n + j) v -> 0 <= j < 4 -> forall u, u mod 256 = v ->
    exists m', store8 m (s + n + j) u = Some m' /\ filled m0 m' s (n + (j + 1)) v).
  { intros m1 j H1 Hj u Hu. destruct (store8_filled m0 m1 s (n + j) v H1) as (m' & E & H'); [lia|apply Hm; lia|done|].
    exists m'. rewrite Z.add_assoc, <-(Z.add_assoc s). split; [|done]. unfold store8 in *.
    change (u8 u) with (u mod 256). by rewrite Hu, <-(u8_id v Hv). }
  destruct (Hb m 0) with (u := v * 16843009) as (m1 & E1 & H1); [by rewrite Z.add_0_r|lia|Z.div_mod_to_equations; lia|].
  rewrite Z.add_0_r in E1. rewrite E1.
  destruct (Hb m1 1 H1 ltac:(lia) (v * 16843009 / 256)) as (m2 & E2 & H2); [Z.div_mod_to_equations; lia|]. cbn. rewrite E2.
  destruct (Hb m2 2 H2 ltac:(lia) (v * 16843009 / 65536)) as (m3 & E3 & H3); [Z.div_mod_to_equations; lia|]. cbn. rewrite E3.
  destruct (Hb m3 3 H3 ltac:(lia) (v * 16843009 / 16777216)) as (m4 & E4 & H4); [Z.div_mod_to_equations; lia|]. cbn.
  exists m4. done.
Qed.

Lemma set_bytes_filled m0 s v count : forall m n,
  filled m0 m s n v -> 0 <= n -> mapped m0 (s + n) (Z.of_nat count) -> 0 <= v < 256 ->
  exists m', set_bytes m (s + n) count v = Some m' /\ filled m0 m' s (n + Z.of_nat count) v.
Proof.
  induction count as [|c IH]; intros m n Hf Hn Hm Hv; [exists m; by rewrite Z.add_0_r|].
  destruct (store8_filled m0 m s n v Hf Hn (Hm (s + n) ltac:(lia)) Hv) as (m1 & E & H1).
  destruct (IH m1 (n + 1) H1) as (m' & E' & H'); [lia|eapply mapped_sub; [exact Hm|lia..]|done|].
  exists m'. cbn [set_bytes]. rewrite E. cbn. rewrite <-Z.add_assoc, E'. split; [done|]. by replace (n + Z.of_nat (S c)) with (n + 1 + Z.of_nat c) by lia.
Qed.

Lemma set_words_filled m0 s v w fuel : forall m n count,
  filled m0 m s n v -> 0 <= n -> mapped m0 (s + n) count -> 0 <= v < 256 -> w = v * 16843009 -> 0 <= count <= Z.of_nat fuel ->
  exists m' k, set_words fuel m (s + n) count w = Some (m', s + (n + k), count - k) /\ 0 <= k <= count /\ filled m0 m' s (n + k) v.
Proof.
  induction fuel as [|f IH]; intros m n count Hf Hn Hm Hv Hw Hc; cbn [set_words]; destruct (Z.leb_spec 4 count) as [H4|H4]; try lia.
  1,3: exists m, 0; rewrite Z.add_0_r, Z.sub_0_r; split; [done|split; [lia|done]].
  destruct (store32_filled m0 m s n v w Hf Hn) as (m1 & E & H1); [by eapply mapped_sub; [exact Hm|lia..]|done..|].
  destruct (IH m1 (n + 4) (count - 4) H1) as (m' & k & E' & Hk & H'); [lia|eapply mapped_sub; [exact Hm|lia..]|done|done|lia|].
  exists m', (4 + k). rewrite E. cbn. rewrite <-Z.add_assoc, E'. rewrite !Z.add_assoc in *. split; [do 2 f_equal; lia|]. split; [lia|done].
Qed.

Lemma set_blocks_filled m0 s v w fuel : forall m n count,
  filled m0 m s n v -> 0 <= n -> mapped m0 (s + n) count -> 0 <= v < 256 -> w = v * 16843009 -> 0 <= count <= Z.of_nat fuel ->
  exists m' k, set_blocks fuel m (s + n) count w = Some (m', s + (n + k), count - k) /\ 0 <= k <= count /\ filled m0 m' s (n + k) v.
Proof.
  induction fuel as [|f IH]; intros m n count Hf Hn Hm Hv Hw Hc; cbn [set_blocks]; destruct (Z.leb_spec 16 count) as [H4|H4]; try lia.
  1,3: exists m, 0; rewrite Z.add_0_r, Z.sub_0_r; split; [done|split; [lia|done]].
  assert (Hb : forall m j, filled m0 m s (n + j) v -> 0 <= j <= 12 ->
    exists m', store32 m (s + n + j) w = Some m' /\ filled m0 m' s (n + (j + 4)) v).
  { intros m1 j H1 Hj. destruct (store32_filled m0 m1 s (n + j) v w H1) as (m' & E & H'); [lia|eapply mapped_sub; [exact Hm|lia..]|done..|].
    exists m'. rewrite !Z.add_assoc in *. done. }
  destruct (Hb m 0) as (m1 & E1 & H1); [by rewrite Z.add_0_r|lia|]. rewrite Z.add_0_r in E1. rewrite E1.
  destruct (Hb m1 4 H1 ltac:(lia)) as (m2 & E2 & H2). cbn. rewrite E2.
  destruct (Hb m2 8 H2 ltac:(lia)) as (m3 & E3 & H3). cbn. rewrite E3.
  destruct (Hb m3 12 H3 ltac:(lia)) as (m4 & E4 & H4'). cbn. rewrite E4.
  destruct (IH m4 (n + 16) (count - 16) H4') as (m' & k & E' & Hk & H'); [lia|eapply mapped_sub; [exact Hm|lia..]|done|done|lia|].
  exists m', (16 + k). cbn. rewrite <-Z.add_assoc, E'. rewrite !Z.add_assoc in *. split; [do 2 f_equal; lia|]. split; [lia|done].
Qed.

(** The word of four equal bytes. *)
Lemma memset_buffer d : 0 <= d < 256 ->
  let b := Z.lor (u32 (Z.shiftl d 8)) d in Z.lor b (u32 (Z.shiftl b 16)) = d * 16843009.
Proof.
  intros Hd.
  assert (H : forallb (fun i => let b := Z.lor (u32 (Z.shiftl (Z.of_nat i) 8)) (Z.of_nat i) in
    Z.lor b (u32 (Z.shiftl b 16)) =? Z.of_nat i * 16843009) (seq 0 256) = true) by (vm_compute; reflexivity).
  rewrite forallb_forall in H. specialize (H (Z.to_nat d)). rewrite Z2Nat.id in H by lia.
  apply Z.eqb_eq, H, in_seq. lia.
Qed.

Lemma rt_memset_run m s c count :
  0 <= count -> mapped m s count ->
  exists m', rt_memset m s c count = Some (s, m') /\ filled m m' s count (u8 c).
Proof.
  intros Hc Hm. unfold rt_memset. assert (Hd : Z.land c 0xff = u8 c) by (apply (Z.land_ones c 8); lia).
  rewrite Hd. pose proof (u8_range c) as Hv. assert (H0 : filled m m s 0 (u8 c)) by (intros x; in_block; done).
  destruct (_ && _).
  - cbv zeta. rewrite (memset_buffer _ Hv).
    destruct (set_blocks_filled m s (u8 c) (u8 c * 16843009) (Z.to_nat count) m 0 count H0) as (m1 & k1 & E1 & Hk1 & H1);
      [lia|by rewrite Z.add_0_r|done|reflexivity|lia|]. rewrite Z.add_0_r in E1. rewrite E1. cbn [mbind option_bind].
    destruct (set_words_filled m s (u8 c) (u8 c * 16843009) (Z.to_nat count) m1 (0 + k1) (count - k1) H1) as (m2 & k2 & E2 & Hk2 & H2);
      [lia|eapply mapped_sub; [exact Hm|lia..]|done|reflexivity|lia|]. rewrite E2. cbn [mbind option_bind].
    destruct (set_bytes_filled m s (u8 c) (Z.to_nat (count - k1 - k2)) m2 _ H2) as (m3 & E3 & H3);
      [lia|eapply mapped_sub; [exact Hm|lia..]|done|]. rewrite E3. exists m3. split; [done|].
    rewrite Z2Nat.id in H3 by lia. by replace count with (0 + k1 + k2 + (count - k1 - k2)) by lia.
  - destruct (set_bytes_filled m s (u8 c) (Z.to_nat count) m 0 H0) as (m1 & E1 & H1);
      [lia|rewrite Z2Nat.id by lia; by rewrite Z.add_0_r|done|]. rewrite Z.add_0_r in E1. rewrite E1. exists m1. rewrite Z2Nat.id in H1 by lia. done.
Qed.

(** ** Copying *)

(** A byte behind the part that has been copied is still the one that was there. *)
Lemma copied_src m0 m dst src n x :
  copied m0 m dst src n -> 0 <= n -> dst <= src \/ x < dst -> src + n <= x -> m !! x = m0 !! x.
Proof. intros Hc Hn Ho Hx. rewrite Hc. in_block; done. Qed.

Lemma copied_step m0 m dst src n b v :
  copied m0 m dst src n -> 0 <= n -> m0 !! (src + n) = Some b -> is_Some (m0 !! (dst + n)) -> u8 v = b ->
  exists m', store8 m (dst + n) v = Some m' /\ copied m0 m' dst src (n + 1).
Proof.
  intros Hc Hn Hb Hs Hv. eexists. split.
  - apply store8_run. rewrite Hc. in_block. done.
  - intros x. at_byte x (dst + n); [rewrite Hv, <-Hb|rewrite Hc]; in_block; try done. f_equal. lia.
Qed.

(** Which copies go forward: the bytes still to be read are not overwritten. *)
Definition forward (dst src n : Z) : Prop := dst <= src \/ src + n <= dst.

Lemma copy_byte_run m0 m dst src n :
  copied m0 m dst src n -> 0 <= n -> bytes_ok m0 -> mapped m0 (src + n) 1 -> mapped m0 (dst + n) 1 -> forward dst src (n + 1) ->
  exists v m', m !! (src + n) = Some v /\ store8 m (dst + n) v = Some m' /\ copied m0 m' dst src (n + 1).
Proof.
  intros Hc Hn Hb Hs Hd Hf. destruct (Hs (src + n) ltac:(lia)) as [b Eb]. exists b.
  destruct (copied_step m0 m dst src n b b Hc Hn Eb (Hd (dst + n) ltac:(lia))) as (m' & E & H); [by apply u8_id, (Hb _ _ Eb)|].
  exists m'. split; [|done]. unfold forward in Hf. by rewrite (copied_src m0 m dst src n) by (done || lia).
Qed.

Lemma copy_bytes_copied m0 dst src count : forall m n,
  copied m0 m dst src n -> 0 <= n -> bytes_ok m0 -> mapped m0 (src + n) (Z.of_nat count) -> mapped m0 (dst + n) (Z.of_nat count) ->
  forward dst src (n + Z.of_nat count) ->
  exists m', copy_bytes m (dst + n) (src + n) count = Some m' /\ copied m0 m' dst src (n + Z.of_nat count).
Proof.
  induction count as [|c IH]; intros m n Hc Hn Hb Hs Hd Hf; [exists m; by rewrite Z.add_0_r|].
  destruct (copy_byte_run m0 m dst src n) as (v & m1 & E1 & E2 & H1);
    [done|done|done|eapply mapped_sub; [exact Hs|lia..]|eapply mapped_sub; [exact Hd|lia..]|unfold forward in *; lia|].
  destruct (IH m1 (n + 1) H1) as (m' & E' & H'); [lia|done|eapply mapped_sub; [exact Hs|lia..]|eapply mapped_sub; [exact Hd|lia..]|unfold forward in *; lia|].
  exists m'. cbn [copy_bytes]. rewrite E1. cbn. rewrite E2. cbn. rewrite <-!Z.add_assoc, E'. split; [done|]. by replace (n + Z.of_nat (S c)) with (n + 1 + Z.of_nat c) by lia.
Qed.

Lemma copy_word_copied m0 m dst src n :
  copied m0 m dst src n -> 0 <= n -> bytes_ok m0 -> mapped m0 (src + n) 4 -> mapped m0 (dst + n) 4 -> forward dst src (n + 4) ->
  exists m', copy_word m (dst + n) (src + n) = Some m' /\ copied m0 m' dst src (n + 4).
Proof.
  intros Hc Hn Hb Hs Hd Hf. unfold copy_word, load32.
  assert (Hl : forall j, 0 <= j < 4 -> exists b, m0 !! (src + (n + j)) = Some b /\ m !! (src + n + j) = Some b /\ 0 <= b < 256).
  { intros j Hj. destruct (Hs (src + n + j) ltac:(lia)) as [b Eb]. exists b. rewrite Z.add_assoc. split; [done|].
    split; [|by apply (Hb _ _ Eb)]. unfold forward in Hf. by rewrite (copied_src m0 m dst src n) by (done || lia). }
  destruct (Hl 0 ltac:(lia)) as (b0 & F0 & E0 & R0), (Hl 1 ltac:(lia)) as (b1 & F1 & E1 & R1),
    (Hl 2 ltac:(lia)) as (b2 & F2 & E2 & R2), (Hl 3 ltac:(lia)) as (b3 & F3 & E3 & R3).
  rewrite !Z.add_0_r in *. rewrite E0, E1, E2, E3. cbn [mbind option_bind]. set (w := b0 + _ + _ + _). unfold store32.
  assert (Hst : forall m j b u, copied m0 m dst src (n + j) -> 0 <= j < 4 -> m0 !! (src + (n + j)) = Some b -> u8 u = b ->
    exists m', store8 m (dst + n + j) u = Some m' /\ copied m0 m' dst src (n + (j + 1))).
  { intros m1 j b u H1 Hj Eb Hu. destruct (copied_step m0 m1 dst src (n + j) b u H1) as (m' & E & H'); [lia|done|apply Hd; lia|done|].
    exists m'. by rewrite Z.add_assoc, <-(Z.add_assoc dst). }
  destruct (Hst m 0 b0 w) as (m1 & G1 & H1); [by rewrite Z.add_0_r|lia|by rewrite Z.add_0_r|unfold w; mlia|]. rewrite Z.add_0_r in G1. rewrite G1.
  destruct (Hst m1 1 b1 (w / 256) H1) as (m2 & G2 & H2); [lia|done|unfold w; mlia|]. cbn. rewrite G2.
  destruct (Hst m2 2 b2 (w / 65536) H2) as (m3 & G3 & H3); [lia|done|unfold w; mlia|]. cbn. rewrite G3.
  destruct (Hst m3 3 b3 (w / 16777216) H3) as (m4 & G4 & H4); [lia|done|unfold w; mlia|]. cbn. by exists m4.
Qed.

Lemma copy_words_copied m0 dst src fuel : forall m n len,
  copied m0 m dst src n -> 0 <= n -> bytes_ok m0 -> mapped m0 (src + n) len -> mapped m0 (dst + n) len -> forward dst src (n + len) ->
  0 <= len <= Z.of_nat fuel ->
  exists m' k, copy_words fuel m (dst + n) (src + n) len = Some (m', dst + (n + k), src + (n + k), len - k) /\
    0 <= k <= len /\ copied m0 m' dst src (n + k).
Proof.
  induction fuel as [|f IH]; intros m n len Hc Hn Hb Hs Hd Hf Hl; cbn [copy_words]; destruct (Z.leb_spec 4 len) as [H4|H4]; try lia.
  1,3: exists m, 0; rewrite Z.add_0_r, Z.sub_0_r; split; [done|split; [lia|done]].
  destruct (copy_word_copied m0 m dst src n) as (m1 & E & H1);
    [done|done|done|eapply mapped_sub; [exact Hs|lia..]|eapply mapped_sub; [exact Hd|lia..]|unfold forward in *; lia|].
  destruct (IH m1 (n + 4) (len - 4) H1) as (m' & k & E' & Hk & H');
    [lia|done|eapply mapped_sub; [exact Hs|lia..]|eapply mapped_sub; [exact Hd|lia..]|unfold forward in *; lia|lia|].
  exists m', (4 + k). rewrite E. cbn. rewrite <-!Z.add_assoc, E'. rewrite !Z.add_assoc in *. split; [do 2 f_equal; lia|]. split; [lia|done].
Qed.

Lemma copy_blocks_copied m0 dst src fuel : forall m n len,
  copied m0 m dst src n -> 0 <= n -> bytes_ok m0 -> mapped m0 (src + n) len -> mapped m0 (dst + n) len -> forward dst src (n + len) ->
  0 <= len <= Z.of_nat fuel ->
  exists m' k, copy_blocks fuel m (dst + n) (src + n) len = Some (m', dst + (n + k), src + (n + k), len - k) /\
    0 <= k <= len /\ copied m0 m' dst src (n + k).
Proof.
  induction fuel as [|f IH]; intros m n len Hc Hn Hb Hs Hd Hf Hl; cbn [copy_blocks]; destruct (Z.leb_spec 16 len) as [H4|H4]; try lia.
  1,3: exists m, 0; rewrite Z.add_0_r, Z.sub_0_r; split; [done|split; [lia|done]].
  assert (Hst : forall m j, copied m0 m dst src (n + j) -> 0 <= j <= 12 ->
    exists m', copy_word m (dst + n + j) (src + n + j) = Some m' /\ copied m0 m' dst src (n + (j + 4))).
  { intros m1 j H1 Hj. destruct (copy_word_copied m0 m1 dst src (n + j)) as (m' & E & H');
      [done|lia|done|eapply mapped_sub; [exact Hs|lia..]|eapply mapped_sub; [exact Hd|lia..]|unfold forward in *; lia|].
    exists m'. by rewrite Z.add_assoc, <-(Z.add_assoc dst), <-(Z.add_assoc src). }
  destruct (Hst m 0) as (m1 & E1 & H1); [by rewrite Z.add_0_r|lia|]. rewrite !Z.add_0_r in E1. rewrite E1.
  destruct (Hst m1 4 H1 ltac:(lia)) as (m2 & E2 & H2). cbn. rewrite E2.
  destruct (Hst m2 8 H2 ltac:(lia)) as (m3 & E3 & H3). cbn. rewrite E3.
  destruct (Hst m3 12 H3 ltac:(lia)) as (m4 & E4 & H4'). cbn. rewrite E4.
  destruct (IH m4 (n + 16) (len - 16) H4') as (m' & k & E' & Hk & H');
    [lia|done|eapply mapped_sub; [exact Hs|lia..]|eapply mapped_sub; [exact Hd|lia..]|unfold forward in *; lia|lia|].
  exists m', (16 + k). cbn. rewrite <-!Z.add_assoc, E'. rewrite !Z.add_assoc in *. split; [do 2 f_equal; lia|]. split; [lia|done].
Qed.

Lemma copied_0 m dst src : copied m m dst src 0.
Proof. intros x. in_block; done. Qed.

Lemma rt_memcpy_run m dst src n :
  0 <= n < 4294967296 -> bytes_ok m -> mapped m src n -> mapped m dst n -> forward dst src n ->
  exists m', rt_memcpy m dst src n = Some (dst, m') /\ copied m m' dst src n.
Proof.
  intros Hn Hb Hs Hd Hf. unfold rt_memcpy. rewrite (u32_id n Hn). cbv zeta. pose proof (copied_0 m dst src) as H0.
  destruct (_ && _).
  - destruct (copy_blocks_copied m dst src (Z.to_nat n) m 0 n H0) as (m1 & k1 & E1 & Hk1 & H1);
      [lia|done|by rewrite Z.add_0_r|by rewrite Z.add_0_r|done|lia|]. rewrite !Z.add_0_r in E1. rewrite E1. cbn [mbind option_bind].
    destruct (copy_words_copied m dst src (Z.to_nat n) m1 (0 + k1) (n - k1) H1) as (m2 & k2 & E2 & Hk2 & H2);
      [lia|done|eapply mapped_sub; [exact Hs|lia..]|eapply mapped_sub; [exact Hd|lia..]|unfold forward in *; lia|lia|]. rewrite E2. cbn [mbind option_bind].
    destruct (copy_bytes_copied m dst src (Z.to_nat (n - k1 - k2)) m2 _ H2) as (m3 & E3 & H3);
      [lia|done|eapply mapped_sub; [exact Hs|lia..]|eapply mapped_sub; [exact Hd|lia..]|unfold forward in *; lia|]. rewrite E3. exists m3. split; [done|].
    rewrite Z2Nat.id in H3 by lia. by replace n with (0 + k1 + k2 + (n - k1 - k2)) by lia.
  - destruct (copy_bytes_copied m dst src (Z.to_nat n) m 0 H0) as (m1 & E1 & H1);
      [lia|done|rewrite Z2Nat.id by lia; by rewrite Z.add_0_r..|rewrite Z2Nat.id by lia; done|]. rewrite !Z.add_0_r in E1. rewrite E1. exists m1.
    rewrite Z2Nat.id in H1 by lia. done.
Qed.

(** Copying from the end: the bytes at [dst + k] and above have been copied. *)
Definition copied_from (m0 m : mem) (dst src n k : Z) : Prop :=
  forall x, m !! x = if (dst + k <=? x) && (x <? dst + n) then m0 !! (src + (x - dst)) else m0 !! x.

Lemma copy_down_copied m0 dst src n k : forall m,
  copied_from m0 m dst src n (Z.of_nat k) -> bytes_ok m0 -> Z.of_nat k <= n -> mapped m0 src n -> mapped m0 dst n -> src <= dst ->
  exists m', copy_down m (dst + Z.of_nat k) (src + Z.of_nat k) k = Some m' /\ copied m0 m' dst src n.
Proof.
  induction k as [|k IH]; intros m Hc Hb Hk Hs Hd Hle.
  - exists m. split; [done|]. intros x. rewrite Hc. by rewrite Z.add_0_r.
  - destruct (Hs (src + Z.of_nat k) ltac:(lia)) as [b Eb]. cbn [copy_down].
    replace (src + Z.of_nat (S k) - 1) with (src + Z.of_nat k) by lia. replace (dst + Z.of_nat (S k) - 1) with (dst + Z.of_nat k) by lia.
    assert (El : m !! (src + Z.of_nat k) = Some b) by (rewrite Hc; in_block; done). rewrite El. cbn.
    assert (Es : is_Some (m !! (dst + Z.of_nat k))) by (rewrite Hc; in_block; apply Hd; lia).
    rewrite (store8_run _ _ _ Es). cbn. apply IH; try done; [|lia]. intros x.
    at_byte x (dst + Z.of_nat k); [rewrite u8_id, <-Eb by apply (Hb _ _ Eb)|rewrite Hc]; in_block; try done. f_equal. lia.
Qed.

Lemma rt_memmove_run m dst src n :
  0 <= n -> bytes_ok m -> mapped m src n -> mapped m dst n -> 0 <= src -> src + n < 4294967296 ->
  exists m', rt_memmove m dst src n = Some (dst, m') /\ copied m m' dst src n.
Proof.
  intros Hn Hb Hs Hd H0 Hw. unfold rt_memmove. rewrite (u32_id (src + n)) by lia.
  destruct (Z.ltb_spec src dst) as [H1|H1], (Z.ltb_spec dst (src + n)) as [H2|H2]; cbn [andb].
  1:{ destruct (copy_down_copied m dst src n (Z.to_nat n) m) as (m' & E & H); try done; [|lia..|].
      { intros x. in_block; done. } rewrite Z2Nat.id in E by lia. rewrite E. by exists m'. }
  all: destruct (copy_bytes_copied m dst src (Z.to_nat n) m 0 (copied_0 _ _ _)) as (m1 & E1 & H3);
      [lia|done|rewrite Z2Nat.id by lia; by rewrite Z.add_0_r..|unfold forward; lia|]; rewrite !Z.add_0_r in E1; rewrite E1; exists m1;
    rewrite Z2Nat.id in H3 by lia; done.
Qed.

(** ** The theorems *)

(** C32. The memory functions do what loops over bytes do, on their paths over whole words too:
    for memory that may be accessed, [rt_memset] sets exactly the bytes of the block,
    [rt_memmove] copies a block to every place, also to one that overlaps it, and [rt_memcpy]
    does so when the destination does not begin inside the source behind its start; no other
    byte is touched and no byte outside of the blocks is read. *)
Theorem mem_functions_spec m dst src n c :
  0 <= n -> bytes_ok m -> mapped m dst n -> mapped m src n -> 0 <= src -> src + n < 4294967296 ->
  (exists m', rt_memset m dst c n = Some (dst, m') /\ filled m m' dst n (u8 c)) /\
  (exists m', rt_memmove m dst src n = Some (dst, m') /\ copied m m' dst src n) /\
  (dst <= src \/ src + n <= dst ->
   exists m', rt_memcpy m dst src n = Some (dst, m') /\ copied m m' dst src n).
Proof.
  intros Hn Hb Hd Hs H0 Hw. split; [by apply rt_memset_run|]. split; [by apply rt_memmove_run|].
  intros Hf. apply rt_memcpy_run; done || lia.
Qed.

(** A memory of ten bytes, all of them on one word boundary and the next. *)
Definition mem10 : mem := list_to_map (imap (fun i v => (Z.of_nat i + 8, v)) [1; 2; 3; 4; 5; 6; 7; 8; 9; 10]).

(** [n] addresses checked one by one. *)
Lemma mapped_check m a n :
  forallb (fun i => bool_decide (is_Some (m !! (a + Z.of_nat i)))) (seq 0 (Z.to_nat n)) = true -> mapped m a n.
Proof.
  intros H x Hx. rewrite forallb_forall in H. specialize (H (Z.to_nat (x - a))).
  rewrite bool_decide_eq_true in H. replace (a + Z.of_nat (Z.to_nat (x - a))) with x in H by lia.
  apply H, in_seq. lia.
Qed.

Lemma mem_functions_spec_witness :
  exists m', rt_memmove mem10 10 8 6 = Some (10, m') /\ copied mem10 m' 10 8 6 /\ m' !! 15 = Some 6.
Proof.
  destruct (mem_functions_spec mem10 10 8 6 0) as (_ & (m' & E & H) & _).
  - lia.
  - apply (bool_decide_unpack _). vm_compute. exact I.
  - apply mapped_check. vm_compute. reflexivity.
  - apply mapped_check. vm_compute. reflexivity.
  - lia.
  - lia.
  - exists m'. split; [exact E|]. split; [exact H|]. rewrite (H 15). reflexivity.
Defined.

(** [rt_memcpy] to a place inside the source is not [rt_memmove]. *)
Example memcpy_overlap :
  ((fun p => p.2 !! 15) <$> rt_memmove mem10 10 8 6, (fun p => p.2 !! 15) <$> rt_memcpy mem10 10 8 6) =
  (Some (Some 6), Some (Some 2)).
Proof. vm_compute. reflexivity. Qed.

(** ** Strings *)

Lemma lower_zero c : 0 <= c -> lower c = 0 -> c = 0.
Proof. unfold lower. destruct (_ && _) eqn:E; lia. Qed.
Lemma lower_range c : 0 <= c < 256 -> 0 <= lower c < 256.
Proof. unfold lower. destruct (_ && _) eqn:E; lia. Qed.

(** Strings are equal for [rt_strcasecmp] when they are equal but for the case of letters. *)
Theorem rt_strcasecmp_spec a : forall b,
  Forall (fun c => 0 <= c < 256) a -> Forall (fun c => 0 <= c < 256) b -> 0 ∈ a -> 0 ∈ b ->
  exists r, rt_strcasecmp a b = Some r /\ (r = 0 <-> lower <$> cstring a = lower <$> cstring b).
Proof.
  induction a as [|x a IH]; intros [|y b] Ha Hb Hza Hzb; try by apply not_elem_of_nil in Hza || apply not_elem_of_nil in Hzb.
  apply list.Forall_cons in Ha as [Hx Ha]. apply list.Forall_cons in Hb as [Hy Hb]. cbn [rt_strcasecmp].
  change 0xff with (Z.ones 8). rewrite !Z.land_ones by lia. change (2 ^ 8) with 256. rewrite !Z.mod_small by lia.
  pose proof (lower_range x Hx). pose proof (lower_range y Hy). pose proof (lower_zero x). pose proof (lower_zero y).
  assert (lower 0 = 0) by done. cbn [cstring].
  destruct (Z.eqb_spec (lower x) (lower y)) as [E|E]; cbn [andb].
  - destruct (Z.eqb_spec (lower x) 0) as [E0|E0]; cbn [negb].
    + exists 0. rewrite E, Z.sub_diag. split; [done|]. assert (x = 0) by lia. assert (y = 0) by lia. subst. done.
    + assert (x <> 0) by congruence. assert (y <> 0) by congruence.
      apply elem_of_cons in Hza as [|Hza]; [congruence|]. apply elem_of_cons in Hzb as [|Hzb]; [congruence|].
      destruct (IH b Ha Hb Hza Hzb) as (r & Er & Hr). exists r. split; [done|].
      destruct (Z.eqb_spec x 0), (Z.eqb_spec y 0); try done. rewrite Hr. cbn. split; intros G; [by rewrite E, G|by injection G].
  - exists (u32 (lower x - lower y)). split; [done|]. split.
    + intros G. unfold u32 in G. Z.div_mod_to_equations. lia.
    + destruct (Z.eqb_spec x 0), (Z.eqb_spec y 0); cbn; try done; intros G; try congruence. 
Qed.

(** What [rt_memcmp] of a string and the beginning of another one finds. *)
Lemma rt_memcmp_prefix s2 : forall s1, (length s2 <= length s1)%nat ->
  exists r, forall t1 t2, rt_memcmp (s1 ++ t1) (s2 ++ t2) (length s2) = Some r /\ (r = 0 <-> s2 `prefix_of` s1).
Proof.
  induction s2 as [|y s2 IH]; intros s1 Hl.
  - exists 0. intros t1 t2. split; [by destruct (s1 ++ t1)|]. split; [intros _; apply prefix_nil|done].
  - destruct s1 as [|x s1]; cbn in Hl; [lia|]. destruct (Z.eqb_spec (x - y) 0) as [E|E].
    + destruct (IH s1 ltac:(lia)) as (r & H). exists r. intros t1 t2. destruct (H t1 t2) as [E1 Hr]. split.
      * cbn [app length rt_memcmp]. by rewrite (proj2 (Z.eqb_eq _ _) E).
      * rewrite Hr. assert (x = y) by lia. subst. split; [apply prefix_cons|apply prefix_cons_inv_2].
    + exists (x - y). intros t1 t2. split; [cbn [app length rt_memcmp]; by rewrite (proj2 (Z.eqb_neq _ _) E)|].
      split; [done|]. intros G. apply prefix_cons_inv_1 in G. lia.
Qed.

(** The first place at or behind [off] where [s2] occurs. *)
Definition first_at (s1 s2 : list Z) (off : Z) (r : option Z) : Prop :=
  match r with
  | Some i => off <= i /\ s2 `prefix_of` drop (Z.to_nat (i - off)) s1 /\
      forall j, off <= j < i -> ~ s2 `prefix_of` drop (Z.to_nat (j - off)) s1
  | None => forall j, off <= j -> ~ s2 `prefix_of` drop (Z.to_nat (j - off)) s1
  end.

Lemma strstr_loop_spec s2 t2 fuel : forall s1 t1 off,
  s2 <> [] -> (length s1 < fuel)%nat ->
  exists r, strstr_loop fuel (s1 ++ t1) (s2 ++ t2) (Z.of_nat (length s1)) (Z.of_nat (length s2)) off = Some r /\ first_at s1 s2 off r.
Proof.
  induction fuel as [|f IH]; intros s1 t1 off H2 Hf; [lia|]. cbn [strstr_loop].
  destruct (Z.ltb_spec (Z.of_nat (length s1)) (Z.of_nat (length s2))) as [Hl|Hl].
  - exists None. split; [done|]. intros j Hj Hp. apply prefix_length in Hp. rewrite length_drop in Hp. lia.
  - destruct (rt_memcmp_prefix s2 s1 ltac:(lia)) as (r & Hr). destruct (Hr t1 t2) as [Er Hp]. rewrite Nat2Z.id, Er. cbn.
    destruct (Z.eqb_spec r 0) as [E0|E0].
    + exists (Some off). split; [done|]. split; [lia|]. rewrite Z.sub_diag. split; [by apply Hp|lia].
    + destruct s1 as [|x s1]; [destruct s2; cbn in *; done || lia|]. cbn [tail app length] in *.
      destruct (IH s1 t1 (off + 1) H2 ltac:(lia)) as (q & Eq & Hq). exists q.
      replace (Z.of_nat (S (length s1)) - 1) with (Z.of_nat (length s1)) by lia. split; [done|].
      assert (Hs : forall j, off + 1 <= j -> drop (Z.to_nat (j - off)) (x :: s1) = drop (Z.to_nat (j - (off + 1))) s1).
      { intros j Hj. by replace (Z.to_nat (j - off)) with (S (Z.to_nat (j - (off + 1)))) by lia. }
      assert (Hn : ~ s2 `prefix_of` drop (Z.to_nat (off - off)) (x :: s1)) by (rewrite Z.sub_diag; cbn; tauto).
      destruct q as [i|]; cbn in Hq |- *.
      * destruct Hq as (Hi & Hpi & Hm). split; [lia|]. rewrite Hs by lia. split; [done|]. intros j Hj.
        destruct (decide (j = off)) as [->|]; [done|]. rewrite Hs by lia. apply Hm. lia.
      * intros j Hj. destruct (decide (j = off)) as [->|]; [done|]. rewrite Hs by lia. apply Hq. lia.
Qed.

Lemma cstring_split s : 0 ∈ s -> exists t, s = cstring s ++ 0 :: t.
Proof.
  induction s as [|c s IH]; [by intros ?%not_elem_of_nil|]. intros H. cbn [cstring].
  destruct (Z.eqb_spec c 0) as [->|Hc]; [by exists s|]. apply elem_of_cons in H as [|H]; [congruence|].
  destruct (IH H) as (t & E). exists t. cbn. by rewrite <-E.
Qed.

Lemma rt_strlen_cstring s : 0 ∈ s -> rt_strlen s = Some (Z.of_nat (length (cstring s))).
Proof.
  induction s as [|c s IH]; [by intros ?%not_elem_of_nil|]. intros H. cbn [cstring rt_strlen].
  destruct (Z.eqb_spec c 0) as [->|Hc]; [done|]. apply elem_of_cons in H as [|H]; [congruence|].
  rewrite (IH H). cbn. f_equal. lia.
Qed.

(** [rt_strstr] returns the first place where the second string occurs in the first one, and
    nothing when there is none. *)
Theorem rt_strstr_spec s1 s2 : 0 ∈ s1 -> 0 ∈ s2 ->
  exists r, rt_strstr s1 s2 = Some r /\ first_at (cstring s1) (cstring s2) 0 r.
Proof.
  intros H1 H2. unfold rt_strstr. rewrite (rt_strlen_cstring s1 H1), (rt_strlen_cstring s2 H2). cbn [mbind option_bind].
  destruct (Z.eqb_spec (Z.of_nat (length (cstring s2))) 0) as [E|E].
  - exists (Some 0). split; [done|]. destruct (cstring s2); [|done]. split; [lia|]. split; [apply prefix_nil|lia].
  - destruct (cstring_split s1 H1) as (t1 & E1), (cstring_split s2 H2) as (t2 & E2).
    destruct (strstr_loop_spec (cstring s2) (0 :: t2) (S (Z.to_nat (Z.of_nat (length (cstring s1))))) (cstring s1) (0 :: t1) 0) as (r & Er & Hr).
    { intros G. by rewrite G in E. } { lia. } exists r. by rewrite <-E1, <-E2 in Er.
Qed.
