(* ===== verification/FinshVm.v ===== *)
(** * The virtual machine of the FinSH shell
      (src/components/finsh/finsh_vm.c, finsh_ops.c and finsh.h)

    A stack machine with 48 operations on bytes, words and double words, whose registers point
    into a stack of 64 unions and a text segment of 128 bytes.  An access outside of the stack,
    the text or the mapped memory, a division by zero and a call of an operation that does not
    exist have no result. *)
From S2P Require Import Prelude MemFunc.

Definition FINSH_STACK_MAX : Z := 64.
Definition FINSH_TEXT_MAX : Z := 128.

(** The members of [union finsh_value]: [char] is unsigned on ARM, [short] and [long] are signed. *)
Inductive width := Byte | Word | Dword.
#[export] Instance width_eq_dec : EqDecision width.
Proof. solve_decision. Defined.

Definition bytes (w : width) : Z := match w with Byte => 1 | Word => 2 | Dword => 4 end.
Definition bits (w : width) : Z := match w with Byte => 256 | Word => 65536 | Dword => 4294967296 end.
(** Reading a member of a union that holds [x], and storing [v] to one: the bytes above stay. *)
Definition get (w : width) (x : Z) : Z := match w with Byte => u8 x | Word => i16 x | Dword => i32 x end.
Definition put (w : width) (x v : Z) : Z := x - x mod bits w + v mod bits w.

(** The registers and the segments; the compiler has a program counter of its own. *)
Record finsh := Finsh {
  f_stack : list Z; f_sp : Z; f_text : list Z; f_pc : Z; f_mem : mem;
  f_cpc : Z; f_errno : Z }.
Definition set_f_stack (l : list Z) (s : finsh) : finsh := Finsh l (f_sp s) (f_text s) (f_pc s) (f_mem s) (f_cpc s) (f_errno s).
Definition set_f_sp (p : Z) (s : finsh) : finsh := Finsh (f_stack s) p (f_text s) (f_pc s) (f_mem s) (f_cpc s) (f_errno s).
Definition set_f_text (l : list Z) (s : finsh) : finsh := Finsh (f_stack s) (f_sp s) l (f_pc s) (f_mem s) (f_cpc s) (f_errno s).
Definition set_f_pc (p : Z) (s : finsh) : finsh := Finsh (f_stack s) (f_sp s) (f_text s) p (f_mem s) (f_cpc s) (f_errno s).
Definition set_f_mem (m : mem) (s : finsh) : finsh := Finsh (f_stack s) (f_sp s) (f_text s) (f_pc s) m (f_cpc s) (f_errno s).
Definition set_f_cpc (p : Z) (s : finsh) : finsh := Finsh (f_stack s) (f_sp s) (f_text s) (f_pc s) (f_mem s) p (f_errno s).
Definition finsh_error_set (e : Z) (s : finsh) : finsh := Finsh (f_stack s) (f_sp s) (f_text s) (f_pc s) (f_mem s) (f_cpc s) e.

(** The slot [i] of the stack, and writing the member of width [w] of it. *)
Definition slot (s : finsh) (i : Z) : option Z := if 0 <=? i then f_stack s !! Z.to_nat i else None.
Definition put_slot (w : width) (i v : Z) (s : finsh) : option finsh :=
  x ← slot s i; Some (set_f_stack (<[Z.to_nat i := put w x v]> (f_stack s)) s).

(** Bytes of the text segment. *)
Definition fetch (s : finsh) (p : Z) : option Z := if 0 <=? p then f_text s !! Z.to_nat p else None.
Definition FINSH_GET16 (s : finsh) (p : Z) : option Z :=
  b0 ← fetch s p; b1 ← fetch s (p + 1); Some (Z.lor b0 (Z.shiftl b1 8)).
Definition FINSH_GET32 (s : finsh) (p : Z) : option Z :=
  b0 ← fetch s p; b1 ← fetch s (p + 1); b2 ← fetch s (p + 2); b3 ← fetch s (p + 3);
  Some (Z.lor (Z.lor (Z.lor b0 (Z.shiftl b1 8)) (Z.shiftl b2 16)) (Z.shiftl b3 24)).

(** What a pointer to a [char], a [short] or a [long] points to. *)
Definition load (w : width) (m : mem) (a : Z) : option Z :=
  match w with
  | Byte => m !! a
  | Word => b0 ← m !! a; b1 ← m !! (a + 1); Some (b0 + 256 * b1)
  | Dword => load32 m a
  end.
Definition store (w : width) (m : mem) (a v : Z) : option mem :=
  match w with
  | Byte => store8 m a v
  | Word => m1 ← store8 m a v; store8 m1 (a + 1) (v / 256)
  | Dword => store32 m a v
  end.

(** ** Operators

    On numbers of type [int], to which the members are promoted.  Overflow wraps when the result
    is stored; what the language leaves undefined otherwise has no result. *)
Inductive binop := Add | Sub | Div | Mod | Mul | And | Or | Xor | Shl | Shr.
Definition c_op (o : binop) (x y : Z) : option Z :=
  match o with
  | Add => Some (x + y)
  | Sub => Some (x - y)
  | Mul => Some (x * y)
  | Div => if (y =? 0) || ((x =? - 2147483648) && (y =? - 1)) then None else Some (Z.quot x y)
  | Mod => if (y =? 0) || ((x =? - 2147483648) && (y =? - 1)) then None else Some (Z.rem x y)
  | And => Some (Z.land x y)
  | Or => Some (Z.lor x y)
  | Xor => Some (Z.lxor x y)
  | Shl => if (0 <=? y) && (y <? 32) then Some (Z.shiftl x y) else None
  | Shr => if (0 <=? y) && (y <? 32) then Some (Z.shiftr x y) else None
  end.

(** ** Operations *)

(** [OP_BIN_BYTE], [OP_BIN_WORD], [OP_BIN_DWORD]. *)
Definition OP_BIN (w : width) (o : binop) (s : finsh) : option finsh :=
  a ← slot s (f_sp s - 2);
  b ← slot s (f_sp s - 1);
  r ← c_op o (get w a) (get w b);
  s1 ← put_slot w (f_sp s - 2) r s;
  Some (set_f_sp (f_sp s - 1) s1).

Definition OP_no_op (s : finsh) : option finsh := Some s.
Definition OP_add_byte := OP_BIN Byte Add.
Definition OP_add_word := OP_BIN Word Add.
Definition OP_add_dword := OP_BIN Dword Add.
Definition OP_sub_byte := OP_BIN Byte Sub.
Definition OP_sub_word := OP_BIN Word Sub.
Definition OP_sub_dword := OP_BIN Dword Sub.
Definition OP_div_byte := OP_BIN Byte Div.
Definition OP_div_word := OP_BIN Word Div.
Definition OP_div_dword := OP_BIN Dword Div.
Definition OP_mod_byte := OP_BIN Byte Mod.
Definition OP_mod_word := OP_BIN Word Mod.
Definition OP_mod_dword := OP_BIN Dword Mod.
Definition OP_mul_byte := OP_BIN Byte Mul.
Definition OP_mul_word := OP_BIN Word Mul.
Definition OP_mul_dword := OP_BIN Dword Mul.
Definition OP_and_byte := OP_BIN Byte And.
Definition OP_and_word := OP_BIN Word And.
Definition OP_and_dword := OP_BIN Dword And.
Definition OP_or_byte := OP_BIN Byte Or.
Definition OP_or_word := OP_BIN Word Or.
Definition OP_or_dword := OP_BIN Dword Or.
Definition OP_xor_byte := OP_BIN Byte Xor.
Definition OP_xor_word := OP_BIN Word Xor.
Definition OP_xor_dword := OP_BIN Dword Xor.
Definition OP_shl_byte := OP_BIN Byte Shl.
Definition OP_shl_word := OP_BIN Word Shl.
Definition OP_shl_dword := OP_BIN Dword Shl.
Definition OP_shr_byte := OP_BIN Byte Shr.
Definition OP_shr_word := OP_BIN Word Shr.
Definition OP_shr_dword := OP_BIN Dword Shr.

Definition bw (w : width) (s : finsh) : option finsh :=
  a ← slot s (f_sp s - 1); put_slot w (f_sp s - 1) (Z.lnot (get w a)) s.
Definition OP_bw_byte := bw Byte.
Definition OP_bw_word := bw Word.
Definition OP_bw_dword := bw Dword.

(** Storing to the slot at the stack pointer, which moves up; the program counter skips [n] bytes. *)
Definition push (w : width) (v n : Z) (s : finsh) : option finsh :=
  s1 ← put_slot w (f_sp s) v s; Some (set_f_pc (f_pc s + n) (set_f_sp (f_sp s + 1) s1)).
Definition OP_ld_byte (s : finsh) : option finsh := v ← fetch s (f_pc s); push Byte v 1 s.
Definition OP_ld_word (s : finsh) : option finsh := v ← FINSH_GET16 s (f_pc s); push Word v 2 s.
Definition OP_ld_dword (s : finsh) : option finsh := v ← FINSH_GET32 s (f_pc s); push Dword v 4 s.

Definition ld_value (w : width) (s : finsh) : option finsh :=
  a ← FINSH_GET32 s (f_pc s); v ← load w (f_mem s) a; push w v 4 s.
Definition OP_ld_value_byte := ld_value Byte.
Definition OP_ld_value_word := ld_value Word.
Definition OP_ld_value_dword := ld_value Dword.

Definition ld_value_stack (w : width) (s : finsh) : option finsh :=
  a ← slot s (f_sp s - 1); v ← load w (f_mem s) (u32 a); put_slot w (f_sp s - 1) v s.
Definition OP_ld_value_byte_stack := ld_value_stack Byte.
Definition OP_ld_value_word_stack := ld_value_stack Word.
Definition OP_ld_value_dword_stack := ld_value_stack Dword.

Definition st (w : width) (s : finsh) : option finsh :=
  a ← slot s (f_sp s - 2);
  v ← slot s (f_sp s - 1);
  m ← store w (f_mem s) (u32 a) v;
  Some (set_f_sp (f_sp s - 1) (set_f_mem m s)).
Definition OP_st_byte := st Byte.
Definition OP_st_word := st Word.
Definition OP_st_dword := st Dword.

Definition OP_pop (s : finsh) : option finsh := Some (set_f_sp (f_sp s - 1) s).

Section Machine.
(** The functions of the firmware, by their addresses: the result and the memory they leave. *)
Context (call : Z -> list Z -> mem -> option (Z * mem)).

(** The loop that takes the parameters from the stack, the last one first. *)
Fixpoint pop_parameters (n : nat) (s : finsh) (parameterv : list Z) : option (list Z * finsh) :=
  match n with
  | O => Some (parameterv, s)
  | S n' => x ← slot s (f_sp s); pop_parameters n' (set_f_sp (f_sp s - 1) s) (u32 x :: parameterv)
  end.

(** [parameterv] has room for 16; a function without parameters is called with a zero. *)
Definition OP_call (s : finsh) : option finsh :=
  parameters ← fetch s (f_pc s);
  if 16 <? parameters then None
  else
    let s := set_f_sp (f_sp s - 1) (set_f_pc (f_pc s + 1) s) in
    q ← pop_parameters (Z.to_nat parameters) s [];
    let '(parameterv, s) := q in
    f ← slot s (f_sp s);
    r ← call (u32 f) (if parameters =? 0 then [0] else parameterv) (f_mem s);
    s1 ← put_slot Dword (f_sp s) r.1 (set_f_mem r.2 s);
    Some (set_f_sp (f_sp s + 1) s1).

Definition op_table : list (finsh -> option finsh) :=
  [ OP_no_op;
    OP_add_byte; OP_add_word; OP_add_dword;
    OP_sub_byte; OP_sub_word; OP_sub_dword;
    OP_div_byte; OP_div_word; OP_div_dword;
    OP_mod_byte; OP_mod_word; OP_mod_dword;
    OP_mul_byte; OP_mul_word; OP_mul_dword;
    OP_and_byte; OP_and_word; OP_and_dword;
    OP_or_byte; OP_or_word; OP_or_dword;
    OP_xor_byte; OP_xor_word; OP_xor_dword;
    OP_bw_byte; OP_bw_word; OP_bw_dword;
    OP_shl_byte; OP_shl_word; OP_shl_dword;
    OP_shr_byte; OP_shr_word; OP_shr_dword;
    OP_ld_byte; OP_ld_word; OP_ld_dword;
    OP_ld_value_byte; OP_ld_value_word; OP_ld_value_dword;
    OP_st_byte; OP_st_word; OP_st_dword;
    OP_pop;
    OP_call;
    OP_ld_value_byte_stack; OP_ld_value_word_stack; OP_ld_value_dword_stack ].

(** One turn of the loop. *)
Definition vm_step (s : finsh) : option finsh :=
  op ← fetch s (f_pc s);
  f ← op_table !! Z.to_nat op;
  f (set_f_pc (f_pc s + 1) s).

Inductive outcome := Halted (s : finsh) | Fault | Running.
Fixpoint vm_loop (fuel : nat) (s : finsh) : outcome :=
  match fuel with
  | O => Running
  | S f =>
      if (0 <=? f_pc s) && (f_pc s <? FINSH_TEXT_MAX) then
        match vm_step s with Some s' => vm_loop f s' | None => Fault end
      else Halted s
  end.
(** A turn moves the program counter up, so that 129 turns are enough ([finsh_vm_run_ends]). *)
Definition finsh_vm_run (s : finsh) : outcome := vm_loop 129 (set_f_pc 0 (set_f_sp 0 s)).
End Machine.

(** ** The machine stops *)

(** An operation leaves the program counter where it is or moves it up. *)
Definition pc_up (f : finsh -> option finsh) : Prop := forall s s', f s = Some s' -> f_pc s <= f_pc s'.

Ltac op_cases :=
  repeat match goal with
  | H : None = Some _ |- _ => discriminate H
  | H : Some _ = Some _ |- _ => injection H as H; subst
  | H : mbind _ ?x = Some _ |- _ => let E := fresh "E" in destruct x eqn:E; cbn [mbind option_bind] in H
  | H : (if ?b then _ else _) = Some _ |- _ => destruct b
  | H : (let '(_, _) := ?p in _) = Some _ |- _ => destruct p
  end.

Lemma put_slot_pc w i v s s' : put_slot w i v s = Some s' -> f_pc s' = f_pc s.
Proof. unfold put_slot. intros H. op_cases. done. Qed.
Lemma push_pc w v n s s' : push w v n s = Some s' -> f_pc s' = f_pc s + n.
Proof. unfold push. intros H. op_cases. done. Qed.
Lemma pop_parameters_pc n : forall s l l' s', pop_parameters n s l = Some (l', s') -> f_pc s' = f_pc s.
Proof.
  induction n as [|n IH]; intros s l l' s' H; cbn in H; [by injection H as _ <-|]. op_cases. by apply IH in H.
Qed.

Lemma OP_BIN_up w o : pc_up (OP_BIN w o).
Proof. intros s s' H. unfold OP_BIN in H. op_cases. cbn. match goal with H : put_slot _ _ _ _ = Some _ |- _ => apply put_slot_pc in H; lia end. Qed.
Lemma bw_up w : pc_up (bw w).
Proof. intros s s' H. unfold bw in H. op_cases. apply put_slot_pc in H. lia. Qed.
Lemma ld_value_up w : pc_up (ld_value w).
Proof. intros s s' H. unfold ld_value in H. op_cases. apply push_pc in H. lia. Qed.
Lemma ld_value_stack_up w : pc_up (ld_value_stack w).
Proof. intros s s' H. unfold ld_value_stack in H. op_cases. apply put_slot_pc in H. lia. Qed.
Lemma st_up w : pc_up (st w).
Proof. intros s s' H. unfold st in H. op_cases. cbn. lia. Qed.
Lemma ld_up : pc_up OP_ld_byte /\ pc_up OP_ld_word /\ pc_up OP_ld_dword.
Proof.
  repeat split; intros s s' H; unfold OP_ld_byte, OP_ld_word, OP_ld_dword in H; op_cases; apply push_pc in H; lia.
Qed.
Lemma OP_call_up call : pc_up (OP_call call).
Proof.
  intros s s' H. unfold OP_call in H. op_cases. cbn.
  match goal with H : put_slot _ _ _ _ = Some _ |- _ => apply put_slot_pc in H; cbn in H end.
  match goal with H : pop_parameters _ _ _ = Some _ |- _ => apply pop_parameters_pc in H; cbn in H end. lia.
Qed.

Lemma op_table_up call : Forall pc_up (op_table call).
Proof.
  destruct ld_up as (L1 & L2 & L3). repeat (apply list.Forall_cons; split); [..|done].
  all: try first [apply OP_BIN_up|apply bw_up|apply ld_value_up|apply ld_value_stack_up|apply st_up|done|apply OP_call_up].
  - intros s s' [= <-]. lia.
  - intros s s' [= <-]. cbn. lia.
Qed.

Lemma vm_step_up call s s' : vm_step call s = Some s' -> f_pc s < f_pc s'.
Proof.
  intros H. unfold vm_step in H. op_cases. pose proof (op_table_up call) as Hup. rewrite list.Forall_forall in Hup.
  match goal with H : op_table _ !! _ = Some _ |- _ => apply list_elem_of_lookup_2 in H; apply Hup in H end.
  match goal with H : pc_up _, E : _ = Some s' |- _ => apply H in E; cbn in E end. lia.
Qed.

Lemma vm_loop_ends call fuel : forall s, (0 < fuel)%nat -> FINSH_TEXT_MAX - f_pc s < Z.of_nat fuel -> vm_loop call fuel s <> Running.
Proof.
  induction fuel as [|f IH]; intros s Hf0 Hf; [lia|]. cbn [vm_loop].
  destruct (Z.leb_spec 0 (f_pc s)), (Z.ltb_spec (f_pc s) FINSH_TEXT_MAX); cbn [andb]; try done.
  destruct (vm_step call s) as [s'|] eqn:E; [|done]. apply vm_step_up in E. apply IH; lia.
Qed.

(** ** Code in the text segment *)

Definition code_at (text : list Z) (p : Z) (c : list Z) : Prop :=
  exists pre suf, text = pre ++ c ++ suf /\ Z.of_nat (length pre) = p.

Lemma code_at_app text p c1 c2 : code_at text p (c1 ++ c2) -> code_at text p c1 /\ code_at text (p + Z.of_nat (length c1)) c2.
Proof.
  intros (pre & suf & -> & <-). split; [exists pre, (c2 ++ suf)|exists (pre ++ c1), suf]; rewrite <-!app_assoc; [done|].
  rewrite length_app. split; [done|lia].
Qed.
Lemma code_at_fetch s p b c : code_at (f_text s) p (b :: c) -> fetch s p = Some b /\ code_at (f_text s) (p + 1) c.
Proof.
  intros H. apply (code_at_app _ _ [b] c) in H as [H1 H2]. split; [|done]. destruct H1 as (pre & suf & E & <-). unfold fetch.
  destruct (Z.leb_spec 0 (Z.of_nat (length pre))); [|lia]. rewrite E, Nat2Z.id. by apply list_lookup_middle.
Qed.

(** The bytes of a number of width [w], the lowest one first. *)
Definition le (w : width) (x : Z) : list Z :=
  match w with
  | Byte => [u8 x]
  | Word => [u8 x; u8 (x / 256)]
  | Dword => [u8 x; u8 (x / 256); u8 (x / 65536); u8 (x / 16777216)]
  end.

Lemma lor_shiftl_add a b n : 0 <= n -> 0 <= a < 2 ^ n -> Z.lor a (Z.shiftl b n) = a + b * 2 ^ n.
Proof.
  intros Hn Ha. rewrite <-Z.shiftl_mul_pow2 by done. assert (Z.land a (Z.shiftl b n) = 0) as E.
  { apply Z.bits_inj'. intros i Hi. rewrite Z.land_spec, Z.bits_0, Z.shiftl_spec by done.
    destruct (Z.lt_ge_cases i n); [rewrite (Z.testbit_neg_r b) by lia; by rewrite andb_false_r|].
    rewrite <-(Z.mod_small a (2 ^ n)) by done. by rewrite Z.mod_pow2_bits_high by lia. }
  by rewrite Z.add_nocarry_lxor, Z.lxor_lor by done.
Qed.

Lemma GET16_le s p x : code_at (f_text s) p (le Word x) -> FINSH_GET16 s p = Some (x mod 65536).
Proof.
  intros H. apply code_at_fetch in H as [E0 H]. apply code_at_fetch in H as [E1 _].
  unfold FINSH_GET16. rewrite E0, E1. cbn [mbind option_bind]. f_equal.
  rewrite lor_shiftl_add by (unfold u8; try lia; apply Z.mod_pos_bound; lia). unfold u8. Z.div_mod_to_equations; lia.
Qed.
Lemma GET32_le s p x : code_at (f_text s) p (le Dword x) -> FINSH_GET32 s p = Some (u32 x).
Proof.
  intros H. apply code_at_fetch in H as [E0 H]. apply code_at_fetch in H as [E1 H]. apply code_at_fetch in H as [E2 H].
  apply code_at_fetch in H as [E3 _]. 
  replace (p + 1 + 1 + 1) with (p + 3) in E3 by lia. replace (p + 1 + 1) with (p + 2) in E2 by lia.
  unfold FINSH_GET32. rewrite E0, E1, E2, E3. cbn [mbind option_bind]. f_equal.
  pose proof (u8_range x). pose proof (u8_range (x / 256)). pose proof (u8_range (x / 65536)).
  rewrite (lor_shiftl_add (u8 x)) by (change (2 ^ 8) with 256; lia). change (2 ^ 8) with 256.
  rewrite (lor_shiftl_add (_ + _)) by (change (2 ^ 16) with 65536; lia). change (2 ^ 16) with 65536.
  rewrite lor_shiftl_add by (change (2 ^ 24) with 16777216; lia). unfold u8, u32. Z.div_mod_to_equations; lia.
Qed.

(** ** Slots *)

Lemma slot_some s i : 0 <= i < Z.of_nat (length (f_stack s)) -> exists x, slot s i = Some x.
Proof. intros Hi. unfold slot. destruct (Z.leb_spec 0 i); [|lia]. apply lookup_lt_is_Some_2. lia. Qed.
Lemma slot_range s i x : slot s i = Some x -> 0 <= i < Z.of_nat (length (f_stack s)).
Proof. unfold slot. destruct (Z.leb_spec 0 i); [|done]. intros E%lookup_lt_Some. lia. Qed.

Lemma put_slot_run w i v x s : slot s i = Some x -> exists l, put_slot w i v s = Some (set_f_stack l s) /\
  length l = length (f_stack s) /\ slot (set_f_stack l s) i = Some (put w x v) /\ forall j, j <> i -> slot (set_f_stack l s) j = slot s j.
Proof.
  intros E. pose proof (slot_range _ _ _ E) as Hi. unfold put_slot. rewrite E. cbn [mbind option_bind]. eexists. split; [done|].
  split; [by rewrite length_insert|]. unfold slot in *. cbn [f_stack set_f_stack]. destruct (Z.leb_spec 0 i); [|lia]. split.
  - rewrite list_lookup_insert_eq; [done|lia].
  - intros j Hj. destruct (Z.leb_spec 0 j); [|done]. by rewrite list_lookup_insert_ne by lia.
Qed.

Lemma bits_pos w : 0 < bits w.
Proof. by destruct w. Qed.
Lemma put_mod w x v : put w x v mod bits w = v mod bits w.
Proof. unfold put. destruct w; cbn; Z.div_mod_to_equations; lia. Qed.
Lemma get_mod w x y : x mod bits w = y mod bits w -> get w x = get w y.
Proof. destruct w; cbn; unfold u8, i16, i32; intros E; Z.div_mod_to_equations; lia. Qed.
Lemma mod_bits_le w w' x y : bits w <= bits w' -> x mod bits w' = y mod bits w' -> x mod bits w = y mod bits w.
Proof. destruct w, w'; cbn; intros Hb E; try lia; Z.div_mod_to_equations; lia. Qed.

(** ** Effects

    What a piece of code does: the program counter moves by [n], the stack pointer becomes [sp],
    the memory [m]; the slots below [k] stay. *)
Record eff (s s' : finsh) (n sp : Z) (m : mem) (k : Z) : Prop := {
  ef_text : f_text s' = f_text s;
  ef_len : length (f_stack s') = length (f_stack s);
  ef_pc : f_pc s' = f_pc s + n;
  ef_sp : f_sp s' = sp;
  ef_mem : f_mem s' = m;
  ef_below : forall i, i < k -> slot s' i = slot s i;
  ef_errno : f_errno s' = f_errno s }.

Lemma eff_trans s s1 s2 n1 n2 sp1 sp2 m1 m2 k1 k2 k :
  eff s s1 n1 sp1 m1 k1 -> eff s1 s2 n2 sp2 m2 k2 -> k <= k1 -> k <= k2 -> eff s s2 (n1 + n2) sp2 m2 k.
Proof.
  intros [] [] H1 H2. split; try congruence; [lia|]. intros i Hi. by rewrite ef_below1, ef_below0 by lia.
Qed.

Section Steps.
Context (call : Z -> list Z -> mem -> option (Z * mem)).

(** The machine comes from [s] to [s']; it fails within the next [n] bytes of code. *)
Definition runs : relation finsh := rtc (fun s s' => vm_step call s = Some s').
Definition fails (s : finsh) (n : Z) : Prop := exists s', runs s s' /\ f_pc s' < f_pc s + n /\ vm_step call s' = None.

Lemma runs_up s s' : runs s s' -> f_pc s <= f_pc s'.
Proof. induction 1 as [|s s1 s' H _ IH]; [lia|]. apply vm_step_up in H. lia. Qed.
Lemma runs_step s s' : vm_step call s = Some s' -> runs s s'.
Proof. intros H. by apply rtc_once. Qed.
Lemma runs_fails s s1 n k : runs s s1 -> fails s1 n -> f_pc s1 + n <= f_pc s + k -> fails s k.
Proof. intros H (s' & H' & Hp & E) Hk. exists s'. split; [by etrans|]. split; [lia|done]. Qed.
Lemma step_fails s n : vm_step call s = None -> 0 < n -> fails s n.
Proof. intros E Hn. exists s. split; [apply rtc_refl|]. split; [lia|done]. Qed.

(** The loop of the machine. *)
Lemma vm_loop_runs s s' : runs s s' -> 0 <= f_pc s -> f_pc s' <= FINSH_TEXT_MAX -> forall fuel,
  (0 < fuel)%nat -> FINSH_TEXT_MAX - f_pc s < Z.of_nat fuel ->
  exists fuel', (0 < fuel')%nat /\ FINSH_TEXT_MAX - f_pc s' < Z.of_nat fuel' /\ vm_loop call fuel s = vm_loop call fuel' s'.
Proof.
  induction 1 as [s|s s1 s' H Hr IH]; intros H0 Hp fuel Hf0 Hf; [by exists fuel|]. pose proof (vm_step_up _ _ _ H) as Hup.
  pose proof (runs_up _ _ Hr) as Hup'. destruct fuel as [|f]; [lia|]. cbn [vm_loop].
  destruct (Z.leb_spec 0 (f_pc s)); [|lia]. destruct (Z.ltb_spec (f_pc s) FINSH_TEXT_MAX); [|lia]. cbn [andb]. rewrite H. apply IH; lia.
Qed.
Lemma vm_loop_fails s n fuel : fails s n -> 0 <= f_pc s -> f_pc s + n <= FINSH_TEXT_MAX -> FINSH_TEXT_MAX - f_pc s < Z.of_nat fuel ->
  (0 < fuel)%nat -> vm_loop call fuel s = Fault.
Proof.
  intros (s' & Hr & Hp & E) H0 Hn Hf Hf0. destruct (vm_loop_runs s s' Hr H0 ltac:(lia) fuel Hf0 Hf) as (f' & F0 & F1 & ->).
  pose proof (runs_up _ _ Hr). destruct f' as [|f']; [lia|]. cbn [vm_loop].
  destruct (Z.leb_spec 0 (f_pc s')); [|lia]. destruct (Z.ltb_spec (f_pc s') FINSH_TEXT_MAX); [|lia]. cbn [andb]. by rewrite E.
Qed.

(** The operation [op] is the next one. *)
Definition next_op (s : finsh) (op : Z) (f : finsh -> option finsh) : Prop :=
  fetch s (f_pc s) = Some op /\ op_table call !! Z.to_nat op = Some f.
Lemma vm_step_op s op f : next_op s op f -> vm_step call s = f (set_f_pc (f_pc s + 1) s).
Proof. intros [E1 E2]. unfold vm_step. rewrite E1. cbn [mbind option_bind]. by rewrite E2. Qed.

Lemma step_bin s op w o x y : next_op s op (OP_BIN w o) -> slot s (f_sp s - 2) = Some x -> slot s (f_sp s - 1) = Some y ->
  match c_op o (get w x) (get w y) with
  | Some r => exists s', vm_step call s = Some s' /\ eff s s' 1 (f_sp s - 1) (f_mem s) (f_sp s - 2) /\
      exists z, slot s' (f_sp s - 2) = Some z /\ z mod bits w = r mod bits w
  | None => vm_step call s = None
  end.
Proof.
  intros Hop Ex Ey. rewrite (vm_step_op s op _ Hop). unfold OP_BIN. set (s1 := set_f_pc _ s).
  change (f_sp s1) with (f_sp s). change (slot s1) with (slot s). rewrite Ex, Ey. cbn [mbind option_bind].
  destruct (c_op o (get w x) (get w y)) as [r|]; [|done]. cbn [mbind option_bind].
  destruct (put_slot_run w (f_sp s - 2) r x s1 Ex) as (l & -> & Hl & Hs & Ho). cbn [mbind option_bind].
  eexists. split; [done|]. split; [split; try done; intros i Hi; by apply Ho; lia|]. eexists. split; [exact Hs|apply put_mod].
Qed.

Lemma step_bw s op w x : next_op s op (bw w) -> slot s (f_sp s - 1) = Some x ->
  exists s', vm_step call s = Some s' /\ eff s s' 1 (f_sp s) (f_mem s) (f_sp s - 1) /\
    exists z, slot s' (f_sp s - 1) = Some z /\ z mod bits w = Z.lnot (get w x) mod bits w.
Proof.
  intros Hop Ex. rewrite (vm_step_op s op _ Hop). unfold bw. set (s1 := set_f_pc _ s).
  change (f_sp s1) with (f_sp s). change (slot s1) with (slot s). rewrite Ex. cbn [mbind option_bind].
  destruct (put_slot_run w (f_sp s - 1) (Z.lnot (get w x)) x s1 Ex) as (l & -> & Hl & Hs & Ho).
  eexists. split; [done|]. split; [split; try done; intros i Hi; by apply Ho; lia|]. eexists. split; [exact Hs|apply put_mod].
Qed.

Lemma push_run w v n s s0 : f_sp s = f_sp s0 -> f_stack s = f_stack s0 -> 0 <= f_sp s0 < Z.of_nat (length (f_stack s0)) ->
  f_text s = f_text s0 -> f_mem s = f_mem s0 -> f_errno s = f_errno s0 ->
  exists s', push w v n s = Some s' /\ eff s0 s' (f_pc s + n - f_pc s0) (f_sp s0 + 1) (f_mem s0) (f_sp s0) /\
    exists z, slot s' (f_sp s0) = Some z /\ z mod bits w = v mod bits w.
Proof.
  intros E1 E2 Hsp E3 E4 E5. destruct (slot_some s (f_sp s)) as [x Ex]; [by rewrite E1, E2|].
  assert (Eslot : slot s = slot s0) by (unfold slot; by rewrite E2).
  unfold push. destruct (put_slot_run w (f_sp s) v x s Ex) as (l & -> & Hl & Hs & Ho). cbn [mbind option_bind].
  eexists. split; [done|]. split; [|eexists; rewrite <-E1; split; [exact Hs|apply put_mod]].
  split; try (by cbn; congruence); [cbn; lia|]. intros i Hi. rewrite <-Eslot. apply Ho. lia.
Qed.

Lemma step_ld s w v : code_at (f_text s) (f_pc s) (match w with Byte => 0x22 | Word => 0x23 | Dword => 0x24 end :: le w v) ->
  0 <= f_sp s < Z.of_nat (length (f_stack s)) ->
  exists s', vm_step call s = Some s' /\ eff s s' (1 + bytes w) (f_sp s + 1) (f_mem s) (f_sp s) /\
    exists z, slot s' (f_sp s) = Some z /\ z mod bits w = v mod bits w.
Proof.
  intros H Hsp. apply code_at_fetch in H as [Ef H].
  destruct w.
  - rewrite (vm_step_op s 34 OP_ld_byte) by done. unfold OP_ld_byte. apply code_at_fetch in H as [E _].
    change (fetch (set_f_pc (f_pc s + 1) s)) with (fetch s). cbn [f_pc set_f_pc]. rewrite E. cbn [mbind option_bind].
    destruct (push_run Byte (u8 v) 1 (set_f_pc (f_pc s + 1) s) s) as (s' & -> & He & z & Hz & Hm); try done.
    exists s'. split; [done|]. split; [|exists z; split; [done|rewrite Hm; unfold u8; cbn; Z.div_mod_to_equations; lia]].
    replace (1 + bytes Byte) with (f_pc (set_f_pc (f_pc s + 1) s) + 1 - f_pc s) by (cbn; lia). done.
  - rewrite (vm_step_op s 35 OP_ld_word) by done. unfold OP_ld_word. change (FINSH_GET16 (set_f_pc (f_pc s + 1) s)) with (FINSH_GET16 s). cbn [f_pc set_f_pc].
    rewrite (GET16_le s _ v H). cbn [mbind option_bind].
    destruct (push_run Word (v mod 65536) 2 (set_f_pc (f_pc s + 1) s) s) as (s' & -> & He & z & Hz & Hm); try done.
    exists s'. split; [done|]. split; [|exists z; split; [done|rewrite Hm; cbn; Z.div_mod_to_equations; lia]].
    replace (1 + bytes Word) with (f_pc (set_f_pc (f_pc s + 1) s) + 2 - f_pc s) by (cbn; lia). done.
  - rewrite (vm_step_op s 36 OP_ld_dword) by done. unfold OP_ld_dword. change (FINSH_GET32 (set_f_pc (f_pc s + 1) s)) with (FINSH_GET32 s). cbn [f_pc set_f_pc].
    rewrite (GET32_le s _ v H). cbn [mbind option_bind].
    destruct (push_run Dword (u32 v) 4 (set_f_pc (f_pc s + 1) s) s) as (s' & -> & He & z & Hz & Hm); try done.
    exists s'. split; [done|]. split; [|exists z; split; [done|rewrite Hm; unfold u32; cbn; Z.div_mod_to_equations; lia]].
    replace (1 + bytes Dword) with (f_pc (set_f_pc (f_pc s + 1) s) + 4 - f_pc s) by (cbn; lia). done.
Qed.

Lemma step_ld_value s w a :
  code_at (f_text s) (f_pc s) (match w with Byte => 0x25 | Word => 0x26 | Dword => 0x27 end :: le Dword a) ->
  0 <= f_sp s < Z.of_nat (length (f_stack s)) ->
  match load w (f_mem s) (u32 a) with
  | Some v => exists s', vm_step call s = Some s' /\ eff s s' 5 (f_sp s + 1) (f_mem s) (f_sp s) /\
      exists z, slot s' (f_sp s) = Some z /\ z mod bits w = v mod bits w
  | None => vm_step call s = None
  end.
Proof.
  intros H Hsp. apply code_at_fetch in H as [Ef H].
  rewrite (vm_step_op s (match w with Byte => 37 | Word => 38 | Dword => 39 end) (ld_value w)) by (by destruct w).
  unfold ld_value. change (FINSH_GET32 (set_f_pc (f_pc s + 1) s)) with (FINSH_GET32 s). cbn [f_pc set_f_pc f_mem].
  rewrite (GET32_le s _ a H). cbn [mbind option_bind]. destruct (load w (f_mem s) (u32 a)) as [v|]; [|done]. cbn [mbind option_bind].
  destruct (push_run w v 4 (set_f_pc (f_pc s + 1) s) s) as (s' & -> & He & Hz); try done. exists s'. split; [done|]. split; [|done].
  replace 5 with (f_pc (set_f_pc (f_pc s + 1) s) + 4 - f_pc s) by (cbn; lia). done.
Qed.

Lemma step_ld_value_stack s op w x : next_op s op (ld_value_stack w) -> slot s (f_sp s - 1) = Some x ->
  match load w (f_mem s) (u32 x) with
  | Some v => exists s', vm_step call s = Some s' /\ eff s s' 1 (f_sp s) (f_mem s) (f_sp s - 1) /\
      exists z, slot s' (f_sp s - 1) = Some z /\ z mod bits w = v mod bits w
  | None => vm_step call s = None
  end.
Proof.
  intros Hop Ex. rewrite (vm_step_op s op _ Hop). unfold ld_value_stack. set (s1 := set_f_pc _ s).
  change (f_sp s1) with (f_sp s). change (slot s1) with (slot s). change (f_mem s1) with (f_mem s). rewrite Ex. cbn [mbind option_bind].
  destruct (load w (f_mem s) (u32 x)) as [v|]; [|done]. cbn [mbind option_bind].
  destruct (put_slot_run w (f_sp s - 1) v x s1 Ex) as (l & -> & Hl & Hs & Ho).
  eexists. split; [done|]. split; [split; try done; intros i Hi; by apply Ho; lia|]. eexists. split; [exact Hs|apply put_mod].
Qed.

Lemma step_st s op w x y : next_op s op (st w) -> slot s (f_sp s - 2) = Some x -> slot s (f_sp s - 1) = Some y ->
  match store w (f_mem s) (u32 x) y with
  | Some m => exists s', vm_step call s = Some s' /\ eff s s' 1 (f_sp s - 1) m (f_sp s)
  | None => vm_step call s = None
  end.
Proof.
  intros Hop Ex Ey. rewrite (vm_step_op s op _ Hop). unfold st. set (s1 := set_f_pc _ s).
  change (f_sp s1) with (f_sp s). change (slot s1) with (slot s). change (f_mem s1) with (f_mem s). rewrite Ex, Ey. cbn [mbind option_bind].
  destruct (store w (f_mem s) (u32 x) y) as [m|]; [|done]. eexists. split; [reflexivity|]. by split.
Qed.

Lemma step_pop s : fetch s (f_pc s) = Some 0x2B -> exists s', vm_step call s = Some s' /\ eff s s' 1 (f_sp s - 1) (f_mem s) (f_sp s).
Proof. intros E. rewrite (vm_step_op s 43 OP_pop) by done. eexists. split; [done|]. by split. Qed.

Lemma step_no_op s : fetch s (f_pc s) = Some 0 -> vm_step call s = Some (set_f_pc (f_pc s + 1) s).
Proof. intros E. by rewrite (vm_step_op s 0 OP_no_op). Qed.

(** The loop of the call takes the slots below the stack pointer in their order. *)
Lemma pop_parameters_run n : forall s vs acc, length vs = n ->
  (forall i v, vs !! i = Some v -> exists x, slot s (f_sp s - Z.of_nat n + 1 + Z.of_nat i) = Some x /\ u32 x = v) ->
  pop_parameters n s acc = Some (vs ++ acc, set_f_sp (f_sp s - Z.of_nat n) s).
Proof.
  induction n as [|n IH]; intros s vs acc Hl Hs.
  - destruct vs; [|done]. cbn. rewrite Z.sub_0_r. by destruct s.
  - destruct vs as [|v vs' _] using rev_ind; [done|]. rewrite length_app in Hl. cbn in Hl.
    destruct (Hs (length vs') v) as (x & Ex & Ev); [by apply list_lookup_middle|].
    replace (f_sp s - Z.of_nat (S n) + 1 + Z.of_nat (length vs')) with (f_sp s) in Ex by lia.
    cbn [pop_parameters]. rewrite Ex. cbn [mbind option_bind]. rewrite (IH _ vs'); [|lia|].
    + rewrite <-app_assoc, Ev. do 2 f_equal. unfold set_f_sp. cbn [f_stack f_sp f_text f_pc f_mem f_cpc f_errno]. f_equal. lia.
    + intros i w Ew. destruct (Hs i w) as (y & Ey & Eyw); [by apply lookup_app_l_Some|]. exists y. split; [|done].
      change (slot (set_f_sp (f_sp s - 1) s)) with (slot s). cbn [f_sp set_f_sp]. rewrite <-Ey. f_equal. lia.
Qed.

Lemma step_call s vs x : code_at (f_text s) (f_pc s) [0x2C; Z.of_nat (length vs)] -> (length vs <= 16)%nat ->
  slot s (f_sp s - 1 - Z.of_nat (length vs)) = Some x ->
  (forall i v, vs !! i = Some v -> exists y, slot s (f_sp s - Z.of_nat (length vs) + Z.of_nat i) = Some y /\ u32 y = v) ->
  match call (u32 x) (if Z.of_nat (length vs) =? 0 then [0] else vs) (f_mem s) with
  | Some (r, m) => exists s', vm_step call s = Some s' /\ eff s s' 2 (f_sp s - Z.of_nat (length vs)) m (f_sp s - 1 - Z.of_nat (length vs)) /\
      exists z, slot s' (f_sp s - 1 - Z.of_nat (length vs)) = Some z /\ z mod bits Dword = r mod bits Dword
  | None => vm_step call s = None
  end.
Proof.
  intros H Hn Ex Hvs. apply code_at_fetch in H as [E0 H]. apply code_at_fetch in H as [E1 _].
  rewrite (vm_step_op s 44 (OP_call call)) by done. unfold OP_call. change (fetch (set_f_pc (f_pc s + 1) s)) with (fetch s). cbn [f_pc set_f_pc].
  rewrite E1. cbn [mbind option_bind]. destruct (Z.ltb_spec 16 (Z.of_nat (length vs))); [lia|]. rewrite Nat2Z.id.
  set (s1 := set_f_sp _ _). rewrite (pop_parameters_run (length vs) s1 vs []); [|done|].
  2:{ intros i v Ev. destruct (Hvs i v Ev) as (y & Ey & Eyv). exists y. split; [|done]. rewrite <-Ey. change (slot s1) with (slot s). f_equal. cbn. lia. }
  cbn [mbind option_bind]. rewrite app_nil_r. set (s2 := set_f_sp _ s1). change (slot s2) with (slot s). cbn [f_sp s2 s1 set_f_sp]. cbn [set_f_pc f_sp]. rewrite Ex. cbn [mbind option_bind].
  change (f_mem s2) with (f_mem s). destruct (call _ _ (f_mem s)) as [[r m]|]; [|done]. cbn [mbind option_bind fst snd].
  destruct (put_slot_run Dword (f_sp s - 1 - Z.of_nat (length vs)) r x (set_f_mem m s2) Ex) as (l & E & Hl & Hs & Ho). rewrite E. cbn [mbind option_bind].
  eexists. split; [done|]. split; [split; try done|eexists; split; [exact Hs|apply put_mod]].
  - cbn. lia.
  - cbn. lia.
  - intros i Hi. by apply Ho; lia.
Qed.
End Steps.
