(* ===== verification/FinshCompiler.v ===== *)
(** * The compiler of the FinSH shell
      (src/components/finsh/finsh_compiler.c, finsh_node.h, finsh_ops.h and finsh_var.h)

    Syntax trees are checked and translated to the code of the machine of FinshVm.v.  The theorems
    compare the machine, running what the compiler makes of the tree of an expression, with an
    evaluator of expressions ([eval]). *)
From S2P Require Import Prelude MemFunc FinshVm.

(** ** Numbers of the operations (finsh_ops.h) *)

Definition FINSH_OP_OF (base : Z) (w : width) : Z := base + match w with Byte => 0 | Word => 1 | Dword => 2 end.
Definition FINSH_OP_BIN (o : binop) : width -> Z :=
  FINSH_OP_OF match o with
              | Add => 0x01 | Sub => 0x04 | Div => 0x07 | Mod => 0x0A | Mul => 0x0D
              | And => 0x10 | Or => 0x13 | Xor => 0x16 | Shl => 0x1C | Shr => 0x1F
              end.
Definition FINSH_OP_BITWISE : width -> Z := FINSH_OP_OF 0x19.
Definition FINSH_OP_LD : width -> Z := FINSH_OP_OF 0x22.
Definition FINSH_OP_LD_VALUE : width -> Z := FINSH_OP_OF 0x25.
Definition FINSH_OP_ST : width -> Z := FINSH_OP_OF 0x28.
Definition FINSH_OP_POP : Z := 0x2B.
Definition FINSH_OP_SYSCALL : Z := 0x2C.
Definition FINSH_OP_LD_VALUE_STACK : width -> Z := FINSH_OP_OF 0x2D.

(** ** Nodes and symbols *)

Inductive node_type :=
| FINSH_NODE_UNKNOWN
| FINSH_NODE_ID
| FINSH_NODE_VALUE_CHAR
| FINSH_NODE_VALUE_INT
| FINSH_NODE_VALUE_LONG
| FINSH_NODE_VALUE_STRING
| FINSH_NODE_VALUE_NULL
| FINSH_NODE_SYS (o : binop)
| FINSH_NODE_SYS_BITWISE
| FINSH_NODE_SYS_FUNC
| FINSH_NODE_SYS_ASSIGN
| FINSH_NODE_SYS_CAST
| FINSH_NODE_SYS_PREINC
| FINSH_NODE_SYS_PREDEC
| FINSH_NODE_SYS_INC
| FINSH_NODE_SYS_DEC
| FINSH_NODE_SYS_GETVALUE
| FINSH_NODE_SYS_GETADDR
| FINSH_NODE_SYS_NULL.

Inductive finsh_type :=
| finsh_type_unknown | finsh_type_void | finsh_type_voidp
| finsh_type_char | finsh_type_uchar | finsh_type_charp
| finsh_type_short | finsh_type_ushort | finsh_type_shortp
| finsh_type_int | finsh_type_uint | finsh_type_intp
| finsh_type_long | finsh_type_ulong | finsh_type_longp.
#[export] Instance finsh_type_eq_dec : EqDecision finsh_type.
Proof. solve_decision. Defined.

Definition FINSH_DATA_TYPE_VOID : Z := 0.
Definition FINSH_DATA_TYPE_BYTE : Z := 1.
Definition FINSH_DATA_TYPE_WORD : Z := 2.
Definition FINSH_DATA_TYPE_DWORD : Z := 3.
Definition FINSH_IDTYPE_VAR : Z := 1.
Definition FINSH_IDTYPE_SYSVAR : Z := 2.
Definition FINSH_IDTYPE_SYSCALL : Z := 4.
Definition FINSH_IDTYPE_ADDRESS : Z := 8.
Definition FINSH_ERROR_UNKNOWN_TYPE : Z := 3.
Definition FINSH_ERROR_UNKNOWN_NODE : Z := 8.

(** A variable of the table [global_variable]; its value is in the memory, behind the name and
    the type.  Symbols of the firmware, with the address of their entry in the table of symbols. *)
Record finsh_var := Var { fv_name : list Z; fv_type : finsh_type }.
Record finsh_sysvar := Sysvar { sv_name : list Z; sv_type : finsh_type; sv_var : Z; sv_entry : Z }.
Record finsh_syscall := Syscall { sc_name : list Z; sc_func : Z; sc_entry : Z }.

Inductive ident :=
| id_null
| id_var (i : nat)
| id_sysvar (v : finsh_sysvar)
| id_syscall (c : finsh_syscall).

(** [value] is the bit pattern of the union. *)
Record finsh_node := Node {
  nd_type : node_type; nd_data : Z; nd_idtype : Z; nd_value : Z; nd_id : ident }.
Definition set_nd_data (d : Z) (n : finsh_node) : finsh_node := Node (nd_type n) d (nd_idtype n) (nd_value n) (nd_id n).
Definition set_nd_idtype (d : Z) (n : finsh_node) : finsh_node := Node (nd_type n) (nd_data n) d (nd_value n) (nd_id n).

(** A pointer to a node: what it points to, its child and its sibling. *)
Inductive tree := NULL | T (n : finsh_node) (child sibling : tree).

Definition has (x bit : Z) : bool := negb (Z.land x bit =? 0).

Local Notation "f >; g" := (fun s => s' ← f s; g s') (at level 60, right associativity).

Section Compiler.
(** The table of variables and its address; an entry takes 24 bytes, its value begins at 20. *)
Context (global_variable : list finsh_var) (variables : Z).

Definition var_value (i : nat) : Z := variables + 24 * Z.of_nat i + 20.
(** [&(node->id.var->value)]: the pointer of the union [id], taken for one to a variable. *)
Definition id_value (x : ident) : Z :=
  match x with
  | id_null => 20
  | id_var i => var_value i
  | id_sysvar v => sv_entry v + 20
  | id_syscall c => sc_entry c + 20
  end.

(** ** Type check *)

(** The [switch] over the type of a variable; [None] for the default case. *)
Definition type_data (t : finsh_type) : option Z :=
  match t with
  | finsh_type_void => Some FINSH_DATA_TYPE_VOID
  | finsh_type_char | finsh_type_uchar => Some FINSH_DATA_TYPE_BYTE
  | finsh_type_short | finsh_type_ushort => Some FINSH_DATA_TYPE_WORD
  | finsh_type_int | finsh_type_uint | finsh_type_long | finsh_type_ulong => Some FINSH_DATA_TYPE_DWORD
  | finsh_type_charp | finsh_type_voidp | finsh_type_shortp | finsh_type_intp | finsh_type_longp => Some FINSH_DATA_TYPE_DWORD
  | finsh_type_unknown => None
  end.

(** The type of the variable that an identifier stands for. *)
Definition var_type (i : nat) : finsh_type :=
  match global_variable !! i with Some v => fv_type v | None => finsh_type_unknown end.

(** The end of the check of a node without a child; the error that is set. *)
Definition leaf_data (n : finsh_node) : finsh_node * option Z :=
  let typed t := match type_data t with
                 | Some d => (set_nd_data d n, None)
                 | None => (n, Some FINSH_ERROR_UNKNOWN_TYPE)
                 end in
  match nd_type n with
  | FINSH_NODE_ID =>
      if has (nd_idtype n) FINSH_IDTYPE_VAR then
        match nd_id n with id_var i => typed (var_type i) | _ => (n, None) end
      else if has (nd_idtype n) FINSH_IDTYPE_SYSVAR then
        match nd_id n with id_sysvar v => typed (sv_type v) | _ => (n, None) end
      else (n, None)
  | FINSH_NODE_VALUE_CHAR => (set_nd_data FINSH_DATA_TYPE_BYTE n, None)
  | FINSH_NODE_VALUE_INT | FINSH_NODE_VALUE_LONG | FINSH_NODE_VALUE_STRING | FINSH_NODE_VALUE_NULL =>
      (set_nd_data FINSH_DATA_TYPE_DWORD n, None)
  | _ => (n, None)
  end.

(** The attribute that the child of a node is checked with. *)
Definition child_attribute (t : node_type) (is_addr : Z) : Z :=
  match t with
  | FINSH_NODE_SYS_ASSIGN | FINSH_NODE_SYS_PREINC | FINSH_NODE_SYS_PREDEC | FINSH_NODE_SYS_GETADDR => FINSH_IDTYPE_ADDRESS
  | FINSH_NODE_SYS_GETVALUE => if negb (is_addr =? 0) then 0 else is_addr
  | _ => is_addr
  end.

(** The tree with its attributes set, and [global_errno]. *)
Fixpoint finsh_type_check (t : tree) (is_addr errno : Z) : tree * Z :=
  match t with
  | NULL => (NULL, errno)
  | T n child sibling =>
      let '(child, errno) := finsh_type_check child (child_attribute (nd_type n) is_addr) errno in
      let '(sibling, errno) := finsh_type_check sibling 0 errno in
      let n := if negb (nd_idtype n =? FINSH_IDTYPE_SYSCALL) then set_nd_idtype (Z.lor (nd_idtype n) is_addr) n else n in
      match child with
      | T c _ _ => (T (set_nd_data (nd_data c) n) child sibling, errno)
      | NULL => let '(n, e) := leaf_data n in (T n child sibling, default errno e)
      end
  end.

(** ** Code *)

(** [finsh_code_byte], [finsh_code_word] and [finsh_code_dword]; outside of the text segment
    there is no result. *)
Definition finsh_code_byte (x : Z) (s : finsh) : option finsh :=
  if (0 <=? f_cpc s) && (f_cpc s <? Z.of_nat (length (f_text s))) then
    Some (set_f_cpc (f_cpc s + 1) (set_f_text (<[Z.to_nat (f_cpc s) := u8 x]> (f_text s)) s))
  else None.
Definition finsh_code_word (x : Z) (s : finsh) : option finsh :=
  s ← finsh_code_byte (Z.land x 0xff) s; finsh_code_byte (Z.shiftr x 8) s.
Definition finsh_code_dword (x : Z) (s : finsh) : option finsh :=
  let x := u32 x in
  s ← finsh_code_byte (Z.land x 0xff) s; s ← finsh_code_byte (Z.land (Z.shiftr x 8) 0xff) s;
  s ← finsh_code_byte (Z.land (Z.shiftr x 16) 0xff) s; finsh_code_byte (Z.shiftr x 24) s.
(** The constant 1 in a given width. *)
Definition finsh_code_one (w : width) : finsh -> option finsh :=
  match w with Byte => finsh_code_byte 1 | Word => finsh_code_word 1 | Dword => finsh_code_dword 1 end.

Definition nothing (s : finsh) : option finsh := Some s.
Definition error (e : Z) (s : finsh) : option finsh := Some (finsh_error_set e s).

Definition width_of_data (d : Z) : option width :=
  if d =? FINSH_DATA_TYPE_BYTE then Some Byte
  else if d =? FINSH_DATA_TYPE_WORD then Some Word
  else if d =? FINSH_DATA_TYPE_DWORD then Some Dword
  else None.
(** The cases of [finsh_compile] for the type of a variable: there is none for [void] and for
    pointers to it. *)
Definition width_of_type (t : finsh_type) : option width :=
  match t with
  | finsh_type_char | finsh_type_uchar => Some Byte
  | finsh_type_short | finsh_type_ushort => Some Word
  | finsh_type_int | finsh_type_uint | finsh_type_long | finsh_type_ulong
  | finsh_type_charp | finsh_type_shortp | finsh_type_intp | finsh_type_longp => Some Dword
  | finsh_type_unknown | finsh_type_void | finsh_type_voidp => None
  end.

(** Loading a variable at [a], or its address. *)
Definition code_variable (n : finsh_node) (t : finsh_type) (a : Z) : finsh -> option finsh :=
  match width_of_type t with
  | None => nothing
  | Some w =>
      (if has (nd_idtype n) FINSH_IDTYPE_ADDRESS then finsh_code_byte (FINSH_OP_LD Dword)
       else finsh_code_byte (FINSH_OP_LD_VALUE w)) >; finsh_code_dword a
  end.

(** An operation in the width of the data type of the node. *)
Definition code_op (op : width -> Z) (d : Z) : finsh -> option finsh :=
  match width_of_data d with Some w => finsh_code_byte (op w) | None => nothing end.

(** Storing, and loading the value again. *)
Definition code_assign (d : Z) : finsh -> option finsh :=
  match width_of_data d with
  | Some w => finsh_code_byte (FINSH_OP_ST w) >; finsh_code_byte (FINSH_OP_LD_VALUE_STACK w)
  | None => error FINSH_ERROR_UNKNOWN_TYPE
  end.

(** [++x] and [--x]: the value is loaded again as a double word in every case. *)
Definition code_pre (o : binop) (d a : Z) : finsh -> option finsh :=
  match width_of_data d with
  | Some w =>
      finsh_code_byte (FINSH_OP_LD_VALUE w) >; finsh_code_dword a >;
      finsh_code_byte (FINSH_OP_LD w) >; finsh_code_one w >;
      finsh_code_byte (FINSH_OP_BIN o w) >;
      finsh_code_byte (FINSH_OP_ST w) >;
      finsh_code_byte (FINSH_OP_LD_VALUE_STACK Dword)
  | None => nothing
  end.
(** [x++] and [x--]. *)
Definition code_post (o : binop) (d a : Z) : finsh -> option finsh :=
  match width_of_data d with
  | Some w =>
      finsh_code_byte (FINSH_OP_LD Dword) >; finsh_code_dword a >;
      finsh_code_byte (FINSH_OP_LD_VALUE w) >; finsh_code_dword a >;
      finsh_code_byte (FINSH_OP_LD w) >; finsh_code_one w >;
      finsh_code_byte (FINSH_OP_BIN o w) >;
      finsh_code_byte (FINSH_OP_ST w) >;
      finsh_code_byte FINSH_OP_POP
  | None => nothing
  end.

(** The address of the variable whose node [child] points to. *)
Definition id_child (child : tree) : option Z :=
  match child with
  | T c _ _ => match nd_type c with FINSH_NODE_ID => Some (id_value (nd_id c)) | _ => None end
  | NULL => None
  end.
(** The number of nodes in a list of siblings. *)
Fixpoint siblings (t : tree) : Z := match t with NULL => 0 | T _ _ s => 1 + siblings s end.

(** The [switch] of [finsh_compile]: the code of a node behind that of its child. *)
Definition compile_node (n : finsh_node) (child : tree) : finsh -> option finsh :=
  match nd_type n with
  | FINSH_NODE_ID =>
      if has (nd_idtype n) FINSH_IDTYPE_SYSCALL then
        match nd_id n with
        | id_syscall c => finsh_code_byte (FINSH_OP_LD Dword) >; finsh_code_dword (sc_func c)
        | _ => fun _ => None
        end
      else if has (nd_idtype n) FINSH_IDTYPE_SYSVAR then
        match nd_id n with id_sysvar v => code_variable n (sv_type v) (sv_var v) | _ => nothing end
      else
        match nd_id n with id_var i => code_variable n (var_type i) (var_value i) | _ => nothing end
  | FINSH_NODE_VALUE_CHAR => finsh_code_byte (FINSH_OP_LD Byte) >; finsh_code_byte (u8 (nd_value n))
  | FINSH_NODE_VALUE_INT | FINSH_NODE_VALUE_LONG => finsh_code_byte (FINSH_OP_LD Dword) >; finsh_code_dword (nd_value n)
  | FINSH_NODE_VALUE_NULL | FINSH_NODE_VALUE_STRING => finsh_code_byte (FINSH_OP_LD Dword) >; finsh_code_dword (nd_value n)
  | FINSH_NODE_SYS o => code_op (FINSH_OP_BIN o) (nd_data n)
  | FINSH_NODE_SYS_BITWISE => code_op FINSH_OP_BITWISE (nd_data n)
  | FINSH_NODE_SYS_FUNC =>
      match child with
      | NULL => nothing
      | T _ _ s => finsh_code_byte FINSH_OP_SYSCALL >; finsh_code_byte (siblings s)
      end
  | FINSH_NODE_SYS_ASSIGN =>
      match child with
      | NULL => fun _ => None
      | T c _ _ =>
          match nd_type c with
          | FINSH_NODE_ID => code_assign (nd_data c)
          | FINSH_NODE_SYS_GETVALUE => code_assign (Z.land (nd_data c) 0x0F)
          | _ => nothing
          end
      end
  | FINSH_NODE_SYS_PREINC => match id_child child with Some a => code_pre Add (nd_data n) a | None => nothing end
  | FINSH_NODE_SYS_PREDEC => match id_child child with Some a => code_pre Sub (nd_data n) a | None => nothing end
  | FINSH_NODE_SYS_INC => match id_child child with Some a => code_post Add (nd_data n) a | None => nothing end
  | FINSH_NODE_SYS_DEC => match id_child child with Some a => code_post Sub (nd_data n) a | None => nothing end
  | FINSH_NODE_SYS_NULL => finsh_code_dword 0
  | FINSH_NODE_SYS_GETVALUE =>
      if has (nd_idtype n) FINSH_IDTYPE_ADDRESS then nothing else code_op FINSH_OP_LD_VALUE_STACK (nd_data n)
  | FINSH_NODE_SYS_GETADDR => nothing
  | FINSH_NODE_UNKNOWN | FINSH_NODE_SYS_CAST => error FINSH_ERROR_UNKNOWN_NODE
  end.

Fixpoint finsh_compile (t : tree) (s : finsh) : option finsh :=
  match t with
  | NULL => Some s
  | T n child sibling =>
      s ← finsh_compile child s;
      s ← compile_node n child s;
      finsh_compile sibling s
  end.

(** The loop of [finsh_compiler_run] over the statements. *)
Fixpoint compile_statements (t : tree) (s : finsh) : option finsh :=
  match t with
  | NULL => Some s
  | T n child sibling =>
      s ← finsh_compile (T n child NULL) s;
      s ← (match sibling with NULL => Some s | T _ _ _ => finsh_code_byte FINSH_OP_POP s end);
      compile_statements sibling s
  end.
Definition finsh_compiler_run (t : tree) (s : finsh) : option finsh :=
  let '(t, errno) := finsh_type_check t 0 (f_errno s) in
  let s := finsh_error_set errno s in
  let s := set_f_text (replicate (length (f_text s)) 0) s in
  let s := set_f_stack (<[0%nat := 0]> (f_stack s)) s in
  compile_statements t (set_f_cpc 0 s).
End Compiler.

(** ** Expressions *)

(** A variable of the shell or of the firmware. *)
Inductive place := p_var (i : nat) | p_sys (v : finsh_sysvar).
Inductive updown := Up | Down.
Definition updown_op (u : updown) : binop := match u with Up => Add | Down => Sub end.

Inductive expr :=
| EChar (c : Z) | EInt (z : Z) | ELong (z : Z) | EString (p : Z) | ENull
| EId (x : place)
| EBin (o : binop) (a b : expr)
| ENot (a : expr)
| EAssign (x : place) (a : expr)
| EPre (u : updown) (i : nat)
| EPost (u : updown) (i : nat)
| EDeref (a : expr)
| EStore (a b : expr)
| EAddr (x : place)
| ECall (f : finsh_syscall) (args : exprs)
with exprs := ENil | ECons (e : expr) (es : exprs).

Scheme expr_mut := Induction for expr Sort Prop
with exprs_mut := Induction for exprs Sort Prop.
Combined Scheme expr_exprs_ind from expr_mut, exprs_mut.

(** *** Their trees, as the parser builds them *)

Definition leaf (t : node_type) (v : Z) : finsh_node := Node t 0 0 v id_null.
Definition id_node (x : place) : finsh_node :=
  match x with
  | p_var i => Node FINSH_NODE_ID 0 FINSH_IDTYPE_VAR 0 (id_var i)
  | p_sys v => Node FINSH_NODE_ID 0 FINSH_IDTYPE_SYSVAR 0 (id_sysvar v)
  end.
Definition call_node (f : finsh_syscall) : finsh_node := Node FINSH_NODE_ID 0 FINSH_IDTYPE_SYSCALL 0 (id_syscall f).
Definition pre_type (u : updown) : node_type := match u with Up => FINSH_NODE_SYS_PREINC | Down => FINSH_NODE_SYS_PREDEC end.
Definition post_type (u : updown) : node_type := match u with Up => FINSH_NODE_SYS_INC | Down => FINSH_NODE_SYS_DEC end.

Fixpoint tree_of (e : expr) (sibling : tree) : tree :=
  match e with
  | EChar c => T (leaf FINSH_NODE_VALUE_CHAR (u8 c)) NULL sibling
  | EInt z => T (leaf FINSH_NODE_VALUE_INT (u32 z)) NULL sibling
  | ELong z => T (leaf FINSH_NODE_VALUE_LONG (u32 z)) NULL sibling
  | EString p => T (leaf FINSH_NODE_VALUE_STRING (u32 p)) NULL sibling
  | ENull => T (leaf FINSH_NODE_VALUE_NULL 0) NULL sibling
  | EId x => T (id_node x) NULL sibling
  | EBin o a b => T (leaf (FINSH_NODE_SYS o) 0) (tree_of a (tree_of b NULL)) sibling
  | ENot a => T (leaf FINSH_NODE_SYS_BITWISE 0) (tree_of a NULL) sibling
  | EAssign x a => T (leaf FINSH_NODE_SYS_ASSIGN 0) (T (id_node x) NULL (tree_of a NULL)) sibling
  | EPre u i => T (leaf (pre_type u) 0) (T (id_node (p_var i)) NULL NULL) sibling
  | EPost u i => T (leaf (post_type u) 0) (T (id_node (p_var i)) NULL NULL) sibling
  | EDeref a => T (leaf FINSH_NODE_SYS_GETVALUE 0) (tree_of a NULL) sibling
  | EStore a b =>
      T (leaf FINSH_NODE_SYS_ASSIGN 0) (T (leaf FINSH_NODE_SYS_GETVALUE 0) (tree_of a NULL) (tree_of b NULL)) sibling
  | EAddr x => T (leaf FINSH_NODE_SYS_GETADDR 0) (T (id_node x) NULL NULL) sibling
  | ECall f args => T (leaf FINSH_NODE_SYS_FUNC 0) (T (call_node f) NULL (trees_of args)) sibling
  end
with trees_of (es : exprs) : tree :=
  match es with ENil => NULL | ECons e es => tree_of e (trees_of es) end.
(** The list of trees that the parser makes of a line. *)
Fixpoint statements (es : list expr) : tree := match es with [] => NULL | e :: es => tree_of e (statements es) end.

Section Language.
Context (global_variable : list finsh_var) (variables : Z).
Notation var_type := (var_type global_variable).
Notation var_value := (var_value variables).

Definition place_type (x : place) : finsh_type := match x with p_var i => var_type i | p_sys v => sv_type v end.
Definition place_addr (x : place) : Z := match x with p_var i => var_value i | p_sys v => sv_var v end.

(** *** Types

    The data type the compiler gives to an expression, and the width of the value it leaves on
    the stack: the bytes above it are what the slot held before. *)
Fixpoint data_of (e : expr) : Z :=
  match e with
  | EChar _ => FINSH_DATA_TYPE_BYTE
  | EInt _ | ELong _ | EString _ | ENull => FINSH_DATA_TYPE_DWORD
  | EId x | EAssign x _ | EAddr x => default 0 (type_data (place_type x))
  | EPre _ i | EPost _ i => default 0 (type_data (var_type i))
  | EBin _ a _ | ENot a | EDeref a | EStore a _ => data_of a
  | ECall _ _ => FINSH_DATA_TYPE_VOID
  end.
(** The width of the operations of a node with an operand of that data type in front. *)
Definition op_width (e : expr) : width := default Dword (width_of_data (data_of e)).
Definition place_width (x : place) : width := default Dword (width_of_type (place_type x)).
Definition width_of (e : expr) : width :=
  match e with
  | EChar _ => Byte
  | EInt _ | ELong _ | EString _ | ENull | EAddr _ | ECall _ _ => Dword
  | EId x | EAssign x _ => place_width x
  | EPre _ i | EPost _ i => place_width (p_var i)
  | EBin _ a _ | ENot a | EDeref a | EStore a _ => op_width a
  end.

Definition typed_place (x : place) : bool := bool_decide (is_Some (width_of_type (place_type x))).
Definition has_op (e : expr) : bool := bool_decide (is_Some (width_of_data (data_of e))).
(** The value of [e] fills [w]. *)
Definition fills (w : width) (e : expr) : bool := bits w <=? bits (width_of e).

Fixpoint length_exprs (es : exprs) : nat := match es with ENil => O | ECons _ es => S (length_exprs es) end.

(** An expression is well typed when variables have a type with values, the operations have a
    width and every operand fills the width it is used in. *)
Fixpoint well_typed (e : expr) : bool :=
  match e with
  | EChar _ | EInt _ | ELong _ | EString _ | ENull => true
  | EId x | EAddr x => typed_place x
  | EBin _ a b => well_typed a && well_typed b && has_op a && fills (op_width a) a && fills (op_width a) b
  | ENot a => well_typed a && has_op a && fills (op_width a) a
  | EAssign x a => typed_place x && well_typed a && fills (place_width x) a
  | EPre _ i | EPost _ i => typed_place (p_var i)
  | EDeref a => well_typed a && has_op a && fills Dword a
  | EStore a b => well_typed a && well_typed b && has_op a && fills Dword a && fills (op_width a) b
  | ECall _ args => well_typed_args args && (length_exprs args <=? 16)%nat
  end
with well_typed_args (es : exprs) : bool :=
  match es with ENil => true | ECons e es => well_typed e && fills Dword e && well_typed_args es end.

(** *** Values

    A value is the bit pattern of its width.  [++x] reads the whole union of the variable. *)
Section Eval.
Context (call : Z -> list Z -> mem -> option (Z * mem)).

Definition apply_op (w : width) (o : binop) (x y : Z) : option Z :=
  r ← c_op o (get w x) (get w y); Some (r mod bits w).
Definition update (u : updown) (w : width) (a : Z) (m : mem) : option (Z * Z * mem) :=
  v ← load w m a; r ← apply_op w (updown_op u) v 1; m' ← store w m a r; Some (v mod bits w, r, m').

Fixpoint eval (m : mem) (e : expr) : option (Z * mem) :=
  match e with
  | EChar c => Some (u8 c, m)
  | EInt z | ELong z | EString z => Some (u32 z, m)
  | ENull => Some (0, m)
  | EId x => v ← load (place_width x) m (u32 (place_addr x)); Some (v mod bits (place_width x), m)
  | EBin o a b =>
      p ← eval m a; let '(x, m) := p in
      q ← eval m b; let '(y, m) := q in
      r ← apply_op (op_width a) o x y; Some (r, m)
  | ENot a => p ← eval m a; Some (Z.lnot (get (op_width a) p.1) mod bits (op_width a), p.2)
  | EAssign x a =>
      p ← eval m a; let '(y, m) := p in
      m ← store (place_width x) m (u32 (place_addr x)) y; Some (y mod bits (place_width x), m)
  | EPre u i =>
      q ← update u (place_width (p_var i)) (u32 (var_value i)) m; let '(_, r, m) := q in
      _ ← load Dword m (u32 (var_value i)); Some (r, m)
  | EPost u i =>
      q ← update u (place_width (p_var i)) (u32 (var_value i)) m; let '(v, _, m) := q in Some (v, m)
  | EDeref a => p ← eval m a; v ← load (op_width a) p.2 p.1; Some (v mod bits (op_width a), p.2)
  | EStore a b =>
      p ← eval m a; let '(x, m) := p in
      q ← eval m b; let '(y, m) := q in
      m ← store (op_width a) m x y; Some (y mod bits (op_width a), m)
  | EAddr x => Some (u32 (place_addr x), m)
  | ECall f args =>
      p ← eval_args m args; let '(vs, m) := p in
      q ← call (u32 (sc_func f)) (if Z.of_nat (length vs) =? 0 then [0] else vs) m; Some (u32 q.1, q.2)
  end
with eval_args (m : mem) (es : exprs) : option (list Z * mem) :=
  match es with
  | ENil => Some ([], m)
  | ECons e es =>
      p ← eval m e; let '(v, m) := p in
      q ← eval_args m es; let '(vs, m) := q in Some (v :: vs, m)
  end.
End Eval.

(** The slots an expression needs. *)
Fixpoint depth (e : expr) : Z :=
  match e with
  | EChar _ | EInt _ | ELong _ | EString _ | ENull | EId _ | EAddr _ => 1
  | EBin _ a b | EStore a b => Z.max (depth a) (1 + depth b)
  | ENot a | EDeref a => depth a
  | EAssign _ a => 1 + depth a
  | EPre _ _ => 3
  | EPost _ _ => 4
  | ECall _ args => 1 + depth_args args
  end
with depth_args (es : exprs) : Z :=
  match es with ENil => 0 | ECons e es => Z.max (depth e) (1 + depth_args es) end.

(** *** Code *)

Definition code_address (x : place) : list Z := FINSH_OP_LD Dword :: le Dword (place_addr x).
Definition code_value (x : place) : list Z := FINSH_OP_LD_VALUE (place_width x) :: le Dword (place_addr x).
Definition code_update (u : updown) (i : nat) : list Z :=
  let w := place_width (p_var i) in
  code_value (p_var i) ++ (FINSH_OP_LD w :: le w 1) ++ [FINSH_OP_BIN (updown_op u) w] ++ [FINSH_OP_ST w].

Fixpoint code (e : expr) : list Z :=
  match e with
  | EChar c => FINSH_OP_LD Byte :: le Byte c
  | EInt z | ELong z | EString z => FINSH_OP_LD Dword :: le Dword z
  | ENull => FINSH_OP_LD Dword :: le Dword 0
  | EId x => code_value x
  | EBin o a b => code a ++ code b ++ [FINSH_OP_BIN o (op_width a)]
  | ENot a => code a ++ [FINSH_OP_BITWISE (op_width a)]
  | EAssign x a => code_address x ++ code a ++ [FINSH_OP_ST (place_width x)] ++ [FINSH_OP_LD_VALUE_STACK (place_width x)]
  | EPre u i => code_address (p_var i) ++ code_update u i ++ [FINSH_OP_LD_VALUE_STACK Dword]
  | EPost u i => code_value (p_var i) ++ code_address (p_var i) ++ code_update u i ++ [FINSH_OP_POP]
  | EDeref a => code a ++ [FINSH_OP_LD_VALUE_STACK (op_width a)]
  | EStore a b => code a ++ code b ++ [FINSH_OP_ST (op_width a)] ++ [FINSH_OP_LD_VALUE_STACK (op_width a)]
  | EAddr x => code_address x
  | ECall f args => (FINSH_OP_LD Dword :: le Dword (sc_func f)) ++ code_args args ++ [FINSH_OP_SYSCALL; Z.of_nat (length_exprs args)]
  end
with code_args (es : exprs) : list Z :=
  match es with ENil => [] | ECons e es => code e ++ code_args es end.

(** ** The check gives a tree its data types *)

Definition typed_leaf (t : node_type) (d v : Z) : finsh_node := Node t d 0 v id_null.
Definition typed_id (attr : Z) (x : place) : finsh_node :=
  set_nd_data (default 0 (type_data (place_type x))) (set_nd_idtype (Z.lor (nd_idtype (id_node x)) attr) (id_node x)).

Fixpoint typed_tree (e : expr) (sibling : tree) : tree :=
  match e with
  | EChar c => T (typed_leaf FINSH_NODE_VALUE_CHAR 1 (u8 c)) NULL sibling
  | EInt z => T (typed_leaf FINSH_NODE_VALUE_INT 3 (u32 z)) NULL sibling
  | ELong z => T (typed_leaf FINSH_NODE_VALUE_LONG 3 (u32 z)) NULL sibling
  | EString p => T (typed_leaf FINSH_NODE_VALUE_STRING 3 (u32 p)) NULL sibling
  | ENull => T (typed_leaf FINSH_NODE_VALUE_NULL 3 0) NULL sibling
  | EId x => T (typed_id 0 x) NULL sibling
  | EBin o a b => T (typed_leaf (FINSH_NODE_SYS o) (data_of e) 0) (typed_tree a (typed_tree b NULL)) sibling
  | ENot a => T (typed_leaf FINSH_NODE_SYS_BITWISE (data_of e) 0) (typed_tree a NULL) sibling
  | EAssign x a => T (typed_leaf FINSH_NODE_SYS_ASSIGN (data_of e) 0) (T (typed_id 8 x) NULL (typed_tree a NULL)) sibling
  | EPre u i => T (typed_leaf (pre_type u) (data_of e) 0) (T (typed_id 8 (p_var i)) NULL NULL) sibling
  | EPost u i => T (typed_leaf (post_type u) (data_of e) 0) (T (typed_id 0 (p_var i)) NULL NULL) sibling
  | EDeref a => T (typed_leaf FINSH_NODE_SYS_GETVALUE (data_of e) 0) (typed_tree a NULL) sibling
  | EStore a b =>
      T (typed_leaf FINSH_NODE_SYS_ASSIGN (data_of e) 0)
        (T (Node FINSH_NODE_SYS_GETVALUE (data_of a) 8 0 id_null) (typed_tree a NULL) (typed_tree b NULL)) sibling
  | EAddr x => T (typed_leaf FINSH_NODE_SYS_GETADDR (data_of e) 0) (T (typed_id 8 x) NULL NULL) sibling
  | ECall f args => T (typed_leaf FINSH_NODE_SYS_FUNC 0 0) (T (call_node f) NULL (typed_trees args)) sibling
  end
with typed_trees (es : exprs) : tree :=
  match es with ENil => NULL | ECons e es => typed_tree e (typed_trees es) end.

Notation check := (finsh_type_check global_variable).
Lemma check_T n child sibling is_addr errno : check (T n child sibling) is_addr errno =
  (let '(child, errno) := check child (child_attribute (nd_type n) is_addr) errno in
   let '(sibling, errno) := check sibling 0 errno in
   let n := if negb (nd_idtype n =? FINSH_IDTYPE_SYSCALL) then set_nd_idtype (Z.lor (nd_idtype n) is_addr) n else n in
   match child with
   | T c _ _ => (T (set_nd_data (nd_data c) n) child sibling, errno)
   | NULL => let '(n, e) := leaf_data global_variable n in (T n child sibling, default errno e)
   end).
Proof. done. Qed.

Lemma typed_root e s : exists n c, typed_tree e s = T n c s /\ nd_data n = data_of e.
Proof. destruct e; eexists _, _; split; (reflexivity || by destruct x). Qed.

Lemma typed_place_data x : typed_place x = true -> is_Some (type_data (place_type x)).
Proof. unfold typed_place. intros H%bool_decide_eq_true. destruct (place_type x); cbn in *; by destruct H. Qed.

(** Identifiers, with the attribute of their context. *)
Lemma check_id x sibling attr errno : attr = 0 \/ attr = 8 -> typed_place x = true ->
  check (T (id_node x) NULL sibling) attr errno =
  let '(s, e) := check sibling 0 errno in (T (typed_id attr x) NULL s, e).
Proof.
  intros Ha Hx. apply typed_place_data in Hx as [d Hd]. unfold typed_id. rewrite Hd. cbn [finsh_type_check].
  destruct (check sibling 0 errno) as [s e]. destruct x as [i|v]; cbn in Hd; destruct Ha as [-> | ->];
    cbn; rewrite Hd; done.
Qed.

Lemma check_call f sibling is_addr errno : check (T (call_node f) NULL sibling) is_addr errno =
  let '(s, e) := check sibling 0 errno in (T (call_node f) NULL s, e).
Proof. rewrite check_T. cbn [finsh_type_check]. by destruct (check sibling 0 errno). Qed.

Lemma type_check_run :
  (forall e, well_typed e = true -> forall sibling errno, check (tree_of e sibling) 0 errno =
    let '(s, e') := check sibling 0 errno in (typed_tree e s, e')) /\
  (forall es, well_typed_args es = true -> forall errno, check (trees_of es) 0 errno = (typed_trees es, errno)).
Proof.
  apply expr_exprs_ind; cbn [well_typed well_typed_args tree_of trees_of typed_tree typed_trees data_of].
  1-5: intros; cbn; destruct (check sibling 0 errno); done.
  - intros x Hx sib errno. by rewrite check_id by auto.
  - intros o a IHa b IHb Hw sib errno. rewrite !andb_true_iff in Hw. destruct Hw as ((((Ha & Hb) & _) & _) & _).
    rewrite check_T; cbn [leaf nd_type child_attribute]. rewrite IHa, IHb by done. cbn [finsh_type_check].
    destruct (check sib 0 errno) as [s e]. cbn [nd_idtype]. destruct (typed_root a (typed_tree b NULL)) as (n & c & -> & <-). done.
  - intros a IHa Hw sib errno. rewrite !andb_true_iff in Hw. destruct Hw as ((Ha & _) & _).
    rewrite check_T; cbn [leaf nd_type child_attribute]. rewrite IHa by done. cbn [finsh_type_check].
    destruct (check sib 0 errno) as [s e]. destruct (typed_root a NULL) as (n & c & -> & <-). done.
  - intros x a IHa Hw sib errno. rewrite !andb_true_iff in Hw. destruct Hw as ((Hx & Ha) & _).
    rewrite check_T; cbn [leaf nd_type child_attribute]. rewrite check_id, IHa by auto. cbn [finsh_type_check].
    destruct (check sib 0 errno) as [s e]. by destruct x.
  - intros u i Hx sib errno. destruct u; rewrite check_T; cbn [leaf nd_type pre_type child_attribute]; rewrite (check_id (p_var i)) by auto; cbn [finsh_type_check];
      by destruct (check sib 0 errno).
  - intros u i Hx sib errno. destruct u; rewrite check_T; cbn [leaf nd_type post_type child_attribute]; rewrite (check_id (p_var i)) by auto; cbn [finsh_type_check];
      by destruct (check sib 0 errno).
  - intros a IHa Hw sib errno. rewrite !andb_true_iff in Hw. destruct Hw as ((Ha & _) & _).
    rewrite check_T; cbn [leaf nd_type child_attribute]. change (if negb _ then 0 else _) with 0. rewrite IHa by done. cbn [finsh_type_check].
    destruct (check sib 0 errno) as [s e]. destruct (typed_root a NULL) as (n & c & -> & <-). done.
  - intros a IHa b IHb Hw sib errno. rewrite !andb_true_iff in Hw. destruct Hw as ((((Ha & Hb) & _) & _) & _).
    rewrite check_T; cbn [leaf nd_type child_attribute]. rewrite (check_T (leaf FINSH_NODE_SYS_GETVALUE 0)); cbn [leaf nd_type child_attribute]. change (if negb _ then 0 else _) with 0. rewrite IHa by done. cbn [finsh_type_check]. rewrite IHb by done. cbn [finsh_type_check].
    destruct (typed_root a NULL) as (n & c & -> & <-). destruct (check sib 0 errno) as [s e]. done.
  - intros x Hx sib errno. rewrite check_T; cbn [leaf nd_type child_attribute]. rewrite check_id by auto. cbn [finsh_type_check].
    destruct (check sib 0 errno) as [s e]. by destruct x.
  - intros f args IHargs Hw sib errno. rewrite andb_true_iff in Hw. destruct Hw as [Hargs _].
    rewrite check_T, check_call, IHargs by done.
    destruct (check sib 0 errno) as [s e]. done.
  - done.
  - intros e IHe es IHes Hw errno. rewrite !andb_true_iff in Hw. destruct Hw as ((He & _) & Hes). rewrite IHe, IHes by done. done.
Qed.

(** ** The code of a tree *)

Fixpoint emit (l : list Z) (s : finsh) : option finsh :=
  match l with [] => Some s | b :: l => s ← finsh_code_byte b s; emit l s end.
Lemma emit_app l1 : forall l2 s, emit (l1 ++ l2) s = (s ← emit l1 s; emit l2 s).
Proof. induction l1 as [|b l1 IH]; intros l2 s; [done|]. cbn. destruct (finsh_code_byte b s); [apply IH|done]. Qed.
Lemma emit_1 b s : emit [b] s = finsh_code_byte b s.
Proof. cbn. by destruct (finsh_code_byte b s). Qed.
(** A part of the compiler appends the bytes [l]. *)
Definition emits (f : finsh -> option finsh) (l : list Z) : Prop := forall s, f s = emit l s.
Lemma emits_seq f g l1 l2 : emits f l1 -> emits g l2 -> emits (f >; g) (l1 ++ l2).
Proof. intros H1 H2 s. rewrite emit_app, H1. destruct (emit l1 s); [apply H2|done]. Qed.
Lemma emits_byte b : emits (finsh_code_byte b) [b].
Proof. intros s. by rewrite emit_1. Qed.
Lemma emits_nothing : emits nothing [].
Proof. done. Qed.

Lemma code_byte_u8 x y s : u8 x = u8 y -> finsh_code_byte x s = finsh_code_byte y s.
Proof. unfold finsh_code_byte. by intros ->. Qed.
Lemma land_255 x : Z.land x 0xff = x mod 256.
Proof. change 255 with (Z.ones 8). by rewrite Z.land_ones. Qed.
Lemma u8_mod x : u8 (x mod 256) = u8 x.
Proof. unfold u8. by rewrite Z.mod_mod. Qed.
Lemma u8_div_mod x k j M : 0 < k -> k * (256 * j) = M -> u8 ((x mod M) / k) = u8 (x / k).
Proof.
  intros Hk <-. unfold u8. destruct (Z.eq_dec (k * (256 * j)) 0) as [E|E]; [by rewrite E, Zmod_0_r|].
  pose proof (Z.div_mod x (k * (256 * j)) E) as Hx. set (q := x / (k * (256 * j))) in *. set (r := x mod (k * (256 * j))) in *.
  rewrite Hx. replace (k * (256 * j) * q + r) with ((256 * j * q) * k + r) by ring. rewrite Z.div_add_l by lia.
  replace (256 * j * q + r / k) with (r / k + (j * q) * 256) by ring. by rewrite Z.mod_add.
Qed.
Lemma u8_u32_div x k j : 0 < k -> k * (256 * j) = 4294967296 -> u8 (u32 x / k) = u8 (x / k).
Proof. apply u8_div_mod. Qed.
Lemma emits_word x : emits (finsh_code_word x) (le Word x).
Proof.
  intros s.  unfold finsh_code_word. cbn [emit le]. rewrite land_255, Z.shiftr_div_pow2 by lia. change (2 ^ 8) with 256.
  rewrite (code_byte_u8 (x mod 256) (u8 x)) by done. destruct (finsh_code_byte (u8 x) s) as [s1|]; [|done]. cbn [mbind option_bind].
  rewrite (code_byte_u8 (x / 256) (u8 (x / 256))) by (unfold u8; by rewrite Z.mod_mod). by destruct (finsh_code_byte _ s1).
Qed.
Lemma emits_dword x : emits (finsh_code_dword x) (le Dword x).
Proof.
  intros s.  unfold finsh_code_dword. cbn [emit le]. rewrite !land_255, !Z.shiftr_div_pow2 by lia.
  change (2 ^ 8) with 256. change (2 ^ 16) with 65536. change (2 ^ 24) with 16777216.
  rewrite (code_byte_u8 (u32 x mod 256) (u8 x)) by (rewrite u8_mod; unfold u8, u32; Z.div_mod_to_equations; lia).
  destruct (finsh_code_byte (u8 x) s) as [s1|]; [|done]. cbn [mbind option_bind].
  rewrite (code_byte_u8 ((u32 x / 256) mod 256) (u8 (x / 256))) by (rewrite u8_mod, (u8_u32_div x 256 65536) by lia; unfold u8; by rewrite Z.mod_mod).
  destruct (finsh_code_byte _ s1) as [s2|]; [|done]. cbn [mbind option_bind].
  rewrite (code_byte_u8 ((u32 x / 65536) mod 256) (u8 (x / 65536))) by (rewrite u8_mod, (u8_u32_div x 65536 256) by lia; unfold u8; by rewrite Z.mod_mod).
  destruct (finsh_code_byte _ s2) as [s3|]; [|done]. cbn [mbind option_bind].
  rewrite (code_byte_u8 (u32 x / 16777216) (u8 (x / 16777216))) by (rewrite (u8_u32_div x 16777216 1) by lia; unfold u8; by rewrite Z.mod_mod).
  by destruct (finsh_code_byte _ s3).
Qed.
Lemma emits_one w : emits (finsh_code_one w) (le w 1).
Proof. destruct w; [apply emits_byte|apply emits_word|apply emits_dword]. Qed.

Lemma le_u32 x : le Dword (u32 x) = le Dword x.
Proof.
  cbn. rewrite (u8_u32_div x 256 65536), (u8_u32_div x 65536 256), (u8_u32_div x 16777216 1) by lia.
  f_equal. unfold u8, u32. Z.div_mod_to_equations; lia.
Qed.

Lemma place_width_some x : typed_place x = true -> width_of_type (place_type x) = Some (place_width x).
Proof. unfold typed_place, place_width. intros [w Hw]%bool_decide_eq_true. by rewrite Hw. Qed.
Lemma place_data_width x : typed_place x = true -> width_of_data (default 0 (type_data (place_type x))) = Some (place_width x).
Proof. intros H%place_width_some. by destruct (place_type x); cbn in *; congruence || (injection H as <-). Qed.
Lemma op_width_some e : has_op e = true -> width_of_data (data_of e) = Some (op_width e).
Proof. unfold has_op, op_width. intros [w Hw]%bool_decide_eq_true. by rewrite Hw. Qed.

Notation compile := (finsh_compile global_variable variables).
Notation cnode := (compile_node global_variable variables).

Create HintDb emits.
#[local] Hint Resolve emits_seq emits_byte emits_word emits_dword emits_one emits_nothing : emits.

Lemma emits_id attr x : attr = 0 \/ attr = 8 -> typed_place x = true ->
  emits (cnode (typed_id attr x) NULL) (if attr =? 0 then code_value x else code_address x).
Proof.
  intros Ha Hx. apply place_width_some in Hx. unfold code_value, code_address.
  destruct x as [i|v]; cbn [place_type] in Hx; unfold compile_node, code_variable; destruct Ha as [-> | ->]; cbn; rewrite Hx;
    (apply (emits_seq _ _ [_]); [apply emits_byte|apply emits_dword]).
Qed.
Lemma emits_call f : emits (cnode (call_node f) NULL) (FINSH_OP_LD Dword :: le Dword (sc_func f)).
Proof. apply (emits_seq _ _ [_]); eauto with emits. Qed.

Lemma emits_assign d w : width_of_data d = Some w -> emits (code_assign d) ([FINSH_OP_ST w] ++ [FINSH_OP_LD_VALUE_STACK w]).
Proof. unfold code_assign. intros ->. auto with emits. Qed.
Lemma emits_op op d w : width_of_data d = Some w -> emits (code_op op d) [op w].
Proof. unfold code_op. intros ->. auto with emits. Qed.
Lemma emits_eq f l l' : emits f l -> l = l' -> emits f l'.
Proof. by intros ? <-. Qed.
Lemma emits_pre u i : typed_place (p_var i) = true ->
  emits (code_pre (updown_op u) (default 0 (type_data (var_type i))) (var_value i)) (code_update u i ++ [FINSH_OP_LD_VALUE_STACK Dword]).
Proof.
  intros Hx. pose proof (place_data_width _ Hx) as Hw. cbn [place_type] in Hw. unfold code_pre. rewrite Hw.
  eapply emits_eq; [eauto 12 with emits|]. unfold code_update, code_value. rewrite <-!app_assoc. done.
Qed.
Lemma emits_post u i : typed_place (p_var i) = true ->
  emits (code_post (updown_op u) (default 0 (type_data (var_type i))) (var_value i)) (code_address (p_var i) ++ code_update u i ++ [FINSH_OP_POP]).
Proof.
  intros Hx. pose proof (place_data_width _ Hx) as Hw. cbn [place_type] in Hw. unfold code_post. rewrite Hw.
  eapply emits_eq; [eauto 16 with emits|]. unfold code_update, code_value, code_address. rewrite <-!app_assoc. done.
Qed.

(** Nodes in a tree. *)
Lemma emits_T n child l1 l2 sibling s : emits (compile child) l1 -> emits (cnode n child) l2 ->
  compile (T n child sibling) s = (s ← emit (l1 ++ l2) s; compile sibling s).
Proof.
  intros H1 H2. cbn [finsh_compile]. rewrite emit_app, H1. destruct (emit l1 s) as [s1|]; [|done]. cbn [mbind option_bind]. by rewrite H2.
Qed.
Lemma emits_T_alone n child l1 l2 : emits (compile child) l1 -> emits (cnode n child) l2 -> emits (compile (T n child NULL)) (l1 ++ l2).
Proof. intros H1 H2 s. rewrite (emits_T _ _ l1 l2) by done. by destruct (emit (l1 ++ l2) s). Qed.
Lemma emits_NULL : emits (compile NULL) [].
Proof. done. Qed.
#[local] Hint Resolve emits_NULL : emits.

Lemma emits_then t l sib l2 : (forall s, compile t s = (s ← emit l s; compile sib s)) -> emits (compile sib) l2 -> emits (compile t) (l ++ l2).
Proof. intros H1 H2 s. rewrite H1, emit_app. destruct (emit l s); [apply H2|done]. Qed.

Lemma siblings_args es : siblings (typed_trees es) = Z.of_nat (length_exprs es).
Proof. induction es as [|e es IH]; [done|]. cbn [typed_trees length_exprs]. destruct (typed_root e (typed_trees es)) as (n & c & -> & _). cbn [siblings]. rewrite IH. lia. Qed.

Lemma compile_run :
  (forall e, well_typed e = true -> forall sibling s, compile (typed_tree e sibling) s = (s ← emit (code e) s; compile sibling s)) /\
  (forall es, well_typed_args es = true -> emits (compile (typed_trees es)) (code_args es)).
Proof.
  assert (Halone : forall e, (forall sibling s, compile (typed_tree e sibling) s = (s ← emit (code e) s; compile sibling s)) ->
    emits (compile (typed_tree e NULL)) (code e)).
  { intros e H s. rewrite H. by destruct (emit (code e) s). }
  apply expr_exprs_ind; cbn [well_typed well_typed_args typed_tree typed_trees data_of code code_args].
  - intros c _ sib s. apply (emits_T _ _ []); [done|]. apply (emits_seq _ _ [_] [_]); eauto with emits.
    intros s'. cbn [nd_value typed_leaf]. rewrite emit_1. apply code_byte_u8. unfold u8. rewrite !Z.mod_mod by lia. done.
  - intros z _ sib s. apply (emits_T _ _ []); [done|]. rewrite <-le_u32. apply (emits_seq _ _ [_]); eauto with emits.
  - intros z _ sib s. apply (emits_T _ _ []); [done|]. rewrite <-le_u32. apply (emits_seq _ _ [_]); eauto with emits.
  - intros z _ sib s. apply (emits_T _ _ []); [done|]. rewrite <-le_u32. apply (emits_seq _ _ [_]); eauto with emits.
  - intros _ sib s. apply (emits_T _ _ []); [done|]. apply (emits_seq _ _ [_]); eauto with emits.
  - intros x Hx sib s. apply (emits_T _ _ []); [done|]. apply (emits_id 0 x); auto.
  - intros o a IHa b IHb Hw sib s. rewrite !andb_true_iff in Hw. destruct Hw as ((((Ha & Hb) & Ho) & _) & _). rewrite app_assoc.
    apply emits_T; [apply (emits_then _ _ (typed_tree b NULL)); auto|]. by apply (emits_op (FINSH_OP_BIN o)), op_width_some.
  - intros a IHa Hw sib s. rewrite !andb_true_iff in Hw. destruct Hw as ((Ha & Ho) & _).
    apply emits_T; [auto|]. by apply (emits_op FINSH_OP_BITWISE), op_width_some.
  - intros x a IHa Hw sib s. rewrite !andb_true_iff in Hw. destruct Hw as ((Hx & Ha) & _). rewrite app_assoc.
    apply emits_T; [apply (emits_then _ _ (typed_tree a NULL)); [|auto]; intros s'; apply (emits_T _ _ []); [done|apply (emits_id 8 x); auto]|].
    destruct x; by apply emits_assign, place_data_width.
  - intros u i Hx sib s. apply emits_T; [apply (emits_T_alone _ _ []); [done|apply (emits_id 8 (p_var i)); auto]|]. destruct u; [exact (emits_pre Up i Hx)|exact (emits_pre Down i Hx)].
  - intros u i Hx sib s. apply emits_T; [apply (emits_T_alone _ _ []); [done|apply (emits_id 0 (p_var i)); auto]|]. destruct u; [exact (emits_post Up i Hx)|exact (emits_post Down i Hx)].
  - intros a IHa Hw sib s. rewrite !andb_true_iff in Hw. destruct Hw as ((Ha & Ho) & _).
    apply emits_T; [auto|]. by apply (emits_op FINSH_OP_LD_VALUE_STACK), op_width_some.
  - intros a IHa b IHb Hw sib s. rewrite !andb_true_iff in Hw. destruct Hw as ((((Ha & Hb) & Ho) & _) & _). rewrite app_assoc.
    apply emits_T; [apply (emits_then _ _ (typed_tree b NULL)); [|auto]; intros s'; rewrite <-(app_nil_r (code a)); apply emits_T; [auto|apply emits_nothing]|].
    apply op_width_some in Ho. apply emits_assign. cbn [nd_data]. rewrite <-Ho. f_equal.
    unfold width_of_data in Ho.
    repeat match type of Ho with (if ?x =? ?y then _ else _) = _ => destruct (Z.eqb_spec x y) as [E|_]; [by rewrite E|] end. done.
  - intros x Hx sib s. rewrite <-(app_nil_r (code_address x)). apply emits_T; [|apply emits_nothing].
    apply (emits_T_alone _ _ []); [done|apply (emits_id 8 x); auto].
  - intros f args IHargs Hw sib s. rewrite andb_true_iff in Hw. destruct Hw as [Hargs _]. rewrite app_assoc. apply emits_T.
    + apply (emits_then _ _ (typed_trees args)); [|auto]. intros s'. apply (emits_T _ _ []); [done|apply emits_call].
    + cbn [compile_node typed_leaf nd_type]. rewrite siblings_args. apply (emits_seq _ _ [_] [_]); eauto with emits.
  - intros _. done.
  - intros e IHe es IHes Hw. rewrite !andb_true_iff in Hw. destruct Hw as ((He & _) & Hes). apply (emits_then _ _ (typed_trees es)); auto.
Qed.
End Language.
