(* ===== verification/FinshExec.v ===== *)
(** * What the code of the FinSH compiler does
      (src/components/finsh: finsh_compiler.c on the machine of finsh_vm.c)

    The machine, running the code of a well-typed expression, computes the value that the
    evaluator of FinshCompiler.v gives, and fails exactly when there is none; a line of
    statements leaves the value of the last one at the bottom of the stack. *)
From S2P Require Import Prelude MemFunc FinshVm FinshCompiler.

Section Language.
Context (global_variable : list finsh_var) (variables : Z).
Local Notation var_type := (var_type global_variable).
Local Notation var_value := (var_value variables).
Local Notation place_type := (place_type global_variable).
Local Notation place_addr := (place_addr variables).
Local Notation place_width := (place_width global_variable).
Local Notation typed_place := (typed_place global_variable).
Local Notation data_of := (data_of global_variable).
Local Notation op_width := (op_width global_variable).
Local Notation width_of := (width_of global_variable).
Local Notation fills := (fills global_variable).
Local Notation well_typed := (well_typed global_variable).
Local Notation well_typed_args := (well_typed_args global_variable).
Local Notation eval := (eval global_variable variables).
Local Notation eval_args := (eval_args global_variable variables).
Local Notation code := (code global_variable variables).
Local Notation code_args := (code_args global_variable variables).
Local Notation code_address := (code_address variables).
Local Notation code_value := (code_value global_variable variables).
Local Notation code_update := (code_update global_variable variables).

(** ** The machine computes the value of an expression *)

Lemma store_mod w m a x y : x mod bits w = y mod bits w -> store w m a x = store w m a y.
Proof.
  intros E.
  assert (H : forall k j, 0 < k -> k * (256 * j) = bits w -> u8 (x / k) = u8 (y / k)).
  { intros k j Hk Hj. by rewrite <-(u8_div_mod x k j _ Hk Hj), <-(u8_div_mod y k j _ Hk Hj), E. }
  assert (H1 : u8 x = u8 y) by (rewrite <-(Z.div_1_r x), <-(Z.div_1_r y); apply (H 1 (bits w / 256)); destruct w; (lia || done)).
  destruct w; cbn in *; unfold store32, store8.
  - by rewrite H1.
  - by rewrite H1, (H 256 1) by lia.
  - by rewrite H1, (H 256 65536), (H 65536 256), (H 16777216 1) by lia.
Qed.

Lemma store8_some m a v m' : store8 m a v = Some m' -> m' = <[a := u8 v]> m.
Proof. unfold store8. destruct (m !! a); [by intros [= <-]|done]. Qed.

(** What has been stored is loaded again. *)
Lemma store_load w m a v m' : store w m a v = Some m' -> exists u, load w m' a = Some u /\ u mod bits w = v mod bits w.
Proof.
  destruct w; cbn; unfold store32, load32; intros H; repeat match goal with
  | H : mbind _ ?x = Some _ |- _ => let E := fresh "E" in destruct x eqn:E; cbn [mbind option_bind] in H; [|done]
  end; repeat match goal with H : store8 _ _ _ = Some _ |- _ => apply store8_some in H; subst end.
  - rewrite lookup_insert_eq. exists (u8 v). split; [done|]. unfold u8. by rewrite Z.mod_mod.
  - rewrite (lookup_insert_ne _ (a + 1) a), !lookup_insert_eq by lia. eexists. split; [done|]. unfold u8. Z.div_mod_to_equations; lia.
  - rewrite !(lookup_insert_ne _ (a + 3) a), !(lookup_insert_ne _ (a + 2) a), !(lookup_insert_ne _ (a + 1) a), !(lookup_insert_ne _ (a + 3) (a + 1)),
      !(lookup_insert_ne _ (a + 2) (a + 1)), !(lookup_insert_ne _ (a + 3) (a + 2)), !lookup_insert_eq by lia.
    eexists. split; [done|]. unfold u8. Z.div_mod_to_equations; lia.
Qed.

(** The lower bytes of a double word. *)
Lemma load_low w m a x y : load Dword m a = Some x -> load w m a = Some y -> x mod bits w = y mod bits w.
Proof.
  cbn [load]. unfold load32. destruct (m !! a) as [b0|] eqn:E0; [|done]. cbn [mbind option_bind]. destruct (m !! (a + 1)) as [b1|] eqn:E1; [|done]. cbn [mbind option_bind].
  destruct (m !! (a + 2)) as [b2|] eqn:E2; [|done]. cbn [mbind option_bind]. destruct (m !! (a + 3)) as [b3|] eqn:E3; [|done]. intros [= <-].
  destruct w; cbn [load]; unfold load32; rewrite E0, ?E1, ?E2, ?E3; cbn [mbind option_bind bits]; intros [= <-]; Z.div_mod_to_equations; lia.
Qed.

Lemma mod_low w W z v : bits w <= bits W -> z mod bits W = v -> z mod bits w = v mod bits w.
Proof. intros Hw <-. destruct w, W; cbn in *; try lia; Z.div_mod_to_equations; lia. Qed.
Lemma fills_le w e : fills w e = true -> bits w <= bits (width_of e).
Proof. unfold fills. lia. Qed.

Section Exec.
Context (call : Z -> list Z -> mem -> option (Z * mem)).
Notation step := (vm_step call).

(** From [s] the next [n] bytes of code leave the value [v] of width [w] on the stack, and the memory [m]. *)
Definition after (s s' : finsh) (n : Z) (w : width) (v : Z) (m : mem) : Prop :=
  eff s s' n (f_sp s + 1) m (f_sp s) /\ exists z, slot s' (f_sp s) = Some z /\ z mod bits w = v.
(** What follows in [s1], of the code that began in [s]. *)
Definition finishes (s s1 : finsh) (n : Z) (w : width) (r : option (Z * mem)) : Prop :=
  match r with
  | Some (v, m) => exists s', runs call s1 s' /\ after s s' n w v m
  | None => fails call s1 (f_pc s + n - f_pc s1)
  end.

Lemma finishes_done s s1 n w v m : after s s1 n w v m -> finishes s s1 n w (Some (v, m)).
Proof. intros H. exists s1. split; [apply rtc_refl|done]. Qed.
Lemma finishes_step s s1 s2 n w r : step s1 = Some s2 -> finishes s s2 n w r -> finishes s s1 n w r.
Proof.
  intros E H. apply runs_step in E. destruct r as [[v m]|]; cbn in *; [destruct H as (s' & H & Ha); exists s'; split; [by etrans|done]|].
  eapply runs_fails; [exact E|exact H|lia].
Qed.
Lemma finishes_fault s s1 n w : step s1 = None -> f_pc s1 < f_pc s + n -> finishes s s1 n w None.
Proof. intros E H. apply step_fails; [done|lia]. Qed.
Lemma finishes_bind s s1 n n1 w w1 r (k : Z * mem -> option (Z * mem)) : finishes s1 s1 n1 w1 r -> f_pc s1 + n1 <= f_pc s + n ->
  (forall s2 v m, after s1 s2 n1 w1 v m -> finishes s s2 n w (k (v, m))) -> finishes s s1 n w (r ≫= k).
Proof.
  intros H Hn Hk. destruct r as [[v m]|]; cbn [mbind option_bind].
  - destruct H as (s2 & Hr & Ha). specialize (Hk s2 v m Ha). destruct (k (v, m)) as [[v' m']|]; cbn in *.
    + destruct Hk as (s' & Hr' & Ha'). exists s'. split; [by etrans|done].
    + eapply runs_fails; [exact Hr|exact Hk|lia].
  - cbn in *. eapply runs_fails; [apply rtc_refl|exact H|lia].
Qed.

(** A state in which the code of an expression can run. *)
Record ready (s : finsh) (c : list Z) (d : Z) : Prop := {
  rd_code : code_at (f_text s) (f_pc s) c;
  rd_stack : length (f_stack s) = 64%nat;
  rd_sp : 0 <= f_sp s;
  rd_depth : f_sp s + d <= 64 }.

Lemma ready_after s s1 c1 c2 d1 d2 sp m k : ready s (c1 ++ c2) d1 -> eff s s1 (Z.of_nat (length c1)) sp m k ->
  0 <= sp -> sp + d2 <= 64 -> ready s1 c2 d2.
Proof.
  intros [Hc Hl Hs Hd] [] H1 H2. apply code_at_app in Hc as [_ Hc]. split; [by rewrite ef_text, ef_pc|lia..].
Qed.
Lemma ready_weaken s c1 c2 d1 d2 : ready s (c1 ++ c2) d1 -> d2 <= d1 -> ready s c1 d2.
Proof. intros [Hc Hl Hs Hd] H. apply code_at_app in Hc as [Hc _]. split; (done || lia). Qed.

Lemma ready_op s op f c d : ready s (op :: c) d -> op_table call !! Z.to_nat op = Some f -> next_op call s op f.
Proof. intros [Hc _ _ _] E. apply code_at_fetch in Hc as [Hc _]. by split. Qed.

Lemma op_at o w : op_table call !! Z.to_nat (FINSH_OP_BIN o w) = Some (OP_BIN w o).
Proof. by destruct o, w. Qed.
Lemma bw_at w : op_table call !! Z.to_nat (FINSH_OP_BITWISE w) = Some (bw w).
Proof. by destruct w. Qed.
Lemma st_at w : op_table call !! Z.to_nat (FINSH_OP_ST w) = Some (st w).
Proof. by destruct w. Qed.
Lemma ld_stack_at w : op_table call !! Z.to_nat (FINSH_OP_LD_VALUE_STACK w) = Some (ld_value_stack w).
Proof. by destruct w. Qed.

(** *** The instructions *)

Lemma run_ld s w v d : ready s (FINSH_OP_LD w :: le w v) d -> 1 <= d ->
  exists s', step s = Some s' /\ after s s' (1 + Z.of_nat (length (le w v))) w (v mod bits w) (f_mem s).
Proof.
  intros [Hc Hl Hs Hd] H. destruct (step_ld call s w v) as (s' & E & He & Hz); [by destruct w|lia|]. exists s'. split; [done|]. split; [|done].
  by destruct w.
Qed.
Lemma run_ld_value s x d : ready s (code_value x) d -> 1 <= d ->
  match load (place_width x) (f_mem s) (u32 (place_addr x)) with
  | Some v => exists s', step s = Some s' /\ after s s' (Z.of_nat (length (code_value x))) (place_width x) (v mod bits (place_width x)) (f_mem s)
  | None => step s = None
  end.
Proof.
  intros [Hc Hl Hs Hd] H. pose proof (step_ld_value call s (place_width x) (place_addr x)) as Hst.
  unfold FinshCompiler.code_value in Hc. specialize (Hst ltac:(by destruct (place_width x)) ltac:(lia)). destruct (load _ _ _) as [v|]; [|done].
  destruct Hst as (s' & E & He & Hz). exists s'. done.
Qed.
Lemma run_ld_address s x d : ready s (code_address x) d -> 1 <= d ->
  exists s', step s = Some s' /\ after s s' (Z.of_nat (length (code_address x))) Dword (u32 (place_addr x)) (f_mem s).
Proof. intros H Hd. destruct (run_ld s Dword (place_addr x) d H Hd) as (s' & E & Ha). by exists s'. Qed.
(** *** Running a piece of code

    [conf s s1 n m zs]: the first [n] bytes of the code that begins in [s] have led to [s1], with
    the memory [m] and the slots [zs] on top of the stack of [s]. *)
Record conf (s s1 : finsh) (n : Z) (m : mem) (zs : list Z) : Prop := {
  cf_eff : eff s s1 n (f_sp s + Z.of_nat (length zs)) m (f_sp s);
  cf_slots : forall i z, zs !! i = Some z -> slot s1 (f_sp s + Z.of_nat i) = Some z }.

Lemma eff_weaken s s' n sp m k k' : eff s s' n sp m k -> k' <= k -> eff s s' n sp m k'.
Proof. intros [] H. split; try done. intros i Hi. apply ef_below. lia. Qed.
Lemma conf_start s : conf s s 0 (f_mem s) [].
Proof. split; [|done]. split; try done; cbn; lia. Qed.
Lemma conf_top s s1 n m zs z : conf s s1 n m (zs ++ [z]) -> f_sp s1 - 1 = f_sp s + Z.of_nat (length zs) /\ slot s1 (f_sp s1 - 1) = Some z.
Proof.
  intros [He Hs]. assert (E : f_sp s1 - 1 = f_sp s + Z.of_nat (length zs)) by (rewrite (ef_sp _ _ _ _ _ _ He), length_app; cbn; lia).
  split; [done|]. rewrite E. apply Hs. by apply list_lookup_middle.
Qed.
Lemma conf_top2 s s1 n m zs x y : conf s s1 n m (zs ++ [x; y]) ->
  f_sp s1 - 2 = f_sp s + Z.of_nat (length zs) /\ slot s1 (f_sp s1 - 2) = Some x /\ slot s1 (f_sp s1 - 1) = Some y.
Proof.
  intros [He Hs]. assert (E : f_sp s1 - 2 = f_sp s + Z.of_nat (length zs)) by (rewrite (ef_sp _ _ _ _ _ _ He), length_app; cbn; lia).
  split; [done|]. rewrite E. split; [apply Hs; by apply list_lookup_middle|].
  replace (f_sp s1 - 1) with (f_sp s + Z.of_nat (S (length zs))) by lia. apply Hs. rewrite lookup_app_r by lia. by replace (S (length zs) - length zs)%nat with 1%nat by lia.
Qed.

(** The next piece leaves the slots [zs] and puts [ys] on them. *)
Lemma conf_next s s1 s2 n n' m m' zs ys xs k : conf s s1 n m (zs ++ xs) -> eff s1 s2 n' k m' (f_sp s + Z.of_nat (length zs)) ->
  k = f_sp s + Z.of_nat (length zs) + Z.of_nat (length ys) ->
  (forall i y, ys !! i = Some y -> slot s2 (f_sp s + Z.of_nat (length zs) + Z.of_nat i) = Some y) -> conf s s2 (n + n') m' (zs ++ ys).
Proof.
  intros [He Hs] He' -> Hy. split.
  - rewrite length_app, Nat2Z.inj_add, Z.add_assoc. eapply eff_trans; [exact He|exact He'|lia|lia].
  - intros i z E. destruct (decide (i < length zs)%nat) as [Hi|Hi].
    + rewrite (ef_below _ _ _ _ _ _ He') by lia. apply Hs. rewrite lookup_app_l by lia. by rewrite lookup_app_l in E by lia.
    + rewrite lookup_app_r in E by lia. apply Hy in E. rewrite <-E. f_equal. lia.
Qed.
Lemma conf_next1 s s1 s2 n n' m m' zs xs y k : conf s s1 n m (zs ++ xs) -> eff s1 s2 n' k m' (f_sp s + Z.of_nat (length zs)) ->
  k = f_sp s + Z.of_nat (length zs) + 1 -> slot s2 (f_sp s + Z.of_nat (length zs)) = Some y -> conf s s2 (n + n') m' (zs ++ [y]).
Proof.
  intros H He -> Hy. eapply conf_next; [exact H|exact He|done|]. intros [|i] z E; [|done]. injection E as <-. by rewrite Z.add_0_r.
Qed.

Lemma conf_code s s1 n m zs c : conf s s1 n m zs -> code_at (f_text s) (f_pc s + n) c -> code_at (f_text s1) (f_pc s1) c.
Proof. intros [He _] H. by rewrite (ef_text _ _ _ _ _ _ He), (ef_pc _ _ _ _ _ _ He). Qed.
Lemma conf_op s s1 n m zs op f : conf s s1 n m zs -> code_at (f_text s) (f_pc s + n) [op] -> op_table call !! Z.to_nat op = Some f -> next_op call s1 op f.
Proof. intros H Hc E. eapply conf_code in Hc; [|exact H]. apply code_at_fetch in Hc as [Hc _]. by split. Qed.
Lemma conf_mem s s1 n m zs : conf s s1 n m zs -> f_mem s1 = m.
Proof. intros [He _]. apply He. Qed.
Lemma conf_pc s s1 n m zs : conf s s1 n m zs -> f_pc s1 = f_pc s + n.
Proof. intros [He _]. apply He. Qed.

Section Pieces.
Context (s : finsh) (N : Z) (W : width).

Lemma conf_ready s1 n m zs c d : length (f_stack s) = 64%nat -> 0 <= f_sp s -> conf s s1 n m zs -> code_at (f_text s) (f_pc s + n) c -> f_sp s + Z.of_nat (length zs) + d <= 64 -> ready s1 c d.
Proof.
  intros Hstack Hsp H Hc Hd. pose proof (conf_code _ _ _ _ _ _ H Hc). destruct H as [He _]. split; [done|rewrite (ef_len _ _ _ _ _ _ He); done|..]; rewrite (ef_sp _ _ _ _ _ _ He); lia.
Qed.

Lemma piece_done s1 m z v : conf s s1 N m [z] -> z mod bits W = v -> finishes s s1 N W (Some (v, m)).
Proof.
  intros [He Hs] Hz. apply finishes_done. split; [done|]. exists z. split; [|done]. specialize (Hs 0%nat z eq_refl). by rewrite Z.add_0_r in Hs.
Qed.

Lemma piece_ld s1 n m zs w v R : length (f_stack s) = 64%nat -> 0 <= f_sp s -> conf s s1 n m zs -> code_at (f_text s) (f_pc s + n) (FINSH_OP_LD w :: le w v) -> f_sp s + Z.of_nat (length zs) < 64 ->
  (forall s2 z, conf s s2 (n + Z.of_nat (length (FINSH_OP_LD w :: le w v))) m (zs ++ [z]) -> z mod bits w = v mod bits w -> finishes s s2 N W R) -> finishes s s1 N W R.
Proof.
  intros Hstack Hsp H Hc Hd HR. destruct (run_ld s1 w v 1) as (s2 & E & He & z & Hz & Hm); [by eapply conf_ready; [done|done|exact H|exact Hc|lia]|lia|].
  rewrite (conf_mem _ _ _ _ _ H) in He. assert (Esp : f_sp s1 = f_sp s + Z.of_nat (length zs)) by apply H. rewrite Esp in *.
  eapply finishes_step; [exact E|]. apply (HR s2 z); [|done]. rewrite <-(app_nil_r zs) in H. eapply conf_next1; [exact H| |done|done].
  replace (Z.of_nat _) with (1 + Z.of_nat (length (le w v))) by (cbn [length]; lia). exact He.
Qed.

Lemma piece_ld_value s1 n m zs x R : length (f_stack s) = 64%nat -> 0 <= f_sp s -> conf s s1 n m zs -> code_at (f_text s) (f_pc s + n) (code_value x) -> f_sp s + Z.of_nat (length zs) < 64 -> n < N ->
  match load (place_width x) m (u32 (place_addr x)) with
  | Some v => forall s2 z, conf s s2 (n + Z.of_nat (length (code_value x))) m (zs ++ [z]) -> z mod bits (place_width x) = v mod bits (place_width x) -> finishes s s2 N W R
  | None => R = None
  end -> finishes s s1 N W R.
Proof.
  intros Hstack Hsp H Hc Hd Hn HR. pose proof (run_ld_value s1 x 1 ltac:(eapply conf_ready; [done|done|exact H|exact Hc|lia]) ltac:(lia)) as Hrun.
  rewrite (conf_mem _ _ _ _ _ H) in Hrun. destruct (load _ _ _) as [v|].
  - destruct Hrun as (s2 & E & He & z & Hz & Hm). assert (Esp : f_sp s1 = f_sp s + Z.of_nat (length zs)) by apply H. rewrite Esp in *.
    eapply finishes_step; [exact E|]. apply (HR s2 z); [|done]. rewrite <-(app_nil_r zs) in H. eapply conf_next1; [exact H|exact He|done|done].
  - subst R. apply finishes_fault; [done|]. rewrite (conf_pc _ _ _ _ _ H). lia.
Qed.

Lemma piece_bin s1 n m zs o w x y R : conf s s1 n m (zs ++ [x; y]) -> code_at (f_text s) (f_pc s + n) [FINSH_OP_BIN o w] -> n < N ->
  match c_op o (get w x) (get w y) with
  | Some r => forall s2 z, conf s s2 (n + 1) m (zs ++ [z]) -> z mod bits w = r mod bits w -> finishes s s2 N W R
  | None => R = None
  end -> finishes s s1 N W R.
Proof.
  intros H Hc Hn HR. destruct (conf_top2 _ _ _ _ _ _ _ H) as (Esp & Hx & Hy).
  pose proof (step_bin call s1 _ w o x y (conf_op _ _ _ _ _ _ _ H Hc (op_at o w)) Hx Hy) as Hst. rewrite (conf_mem _ _ _ _ _ H) in Hst.
  destruct (c_op o _ _) as [r|].
  - destruct Hst as (s2 & E & He & z & Hz & Hm). rewrite Esp in *. eapply finishes_step; [exact E|]. apply (HR s2 z); [|done].
    eapply conf_next1; [exact H|exact He|lia|done].
  - subst R. apply finishes_fault; [done|]. rewrite (conf_pc _ _ _ _ _ H). lia.
Qed.

Lemma piece_bw s1 n m zs w x R : conf s s1 n m (zs ++ [x]) -> code_at (f_text s) (f_pc s + n) [FINSH_OP_BITWISE w] ->
  (forall s2 z, conf s s2 (n + 1) m (zs ++ [z]) -> z mod bits w = Z.lnot (get w x) mod bits w -> finishes s s2 N W R) -> finishes s s1 N W R.
Proof.
  intros H Hc HR. destruct (conf_top _ _ _ _ _ _ H) as (Esp & Hx).
  destruct (step_bw call s1 _ w x (conf_op _ _ _ _ _ _ _ H Hc (bw_at w)) Hx) as (s2 & E & He & z & Hz & Hm). rewrite (conf_mem _ _ _ _ _ H), Esp in *.
  eapply finishes_step; [exact E|]. apply (HR s2 z); [|done]. eapply conf_next1; [exact H|exact He|lia|done].
Qed.

Lemma piece_ld_stack s1 n m zs w x R : conf s s1 n m (zs ++ [x]) -> code_at (f_text s) (f_pc s + n) [FINSH_OP_LD_VALUE_STACK w] -> n < N ->
  match load w m (u32 x) with
  | Some v => forall s2 z, conf s s2 (n + 1) m (zs ++ [z]) -> z mod bits w = v mod bits w -> finishes s s2 N W R
  | None => R = None
  end -> finishes s s1 N W R.
Proof.
  intros H Hc Hn HR. destruct (conf_top _ _ _ _ _ _ H) as (Esp & Hx).
  pose proof (step_ld_value_stack call s1 _ w x (conf_op _ _ _ _ _ _ _ H Hc (ld_stack_at w)) Hx) as Hst. rewrite (conf_mem _ _ _ _ _ H) in Hst.
  destruct (load w m (u32 x)) as [v|].
  - destruct Hst as (s2 & E & He & z & Hz & Hm). rewrite Esp in *. eapply finishes_step; [exact E|]. apply (HR s2 z); [|done].
    eapply conf_next1; [exact H|exact He|lia|done].
  - subst R. apply finishes_fault; [done|]. rewrite (conf_pc _ _ _ _ _ H). lia.
Qed.

Lemma piece_st s1 n m zs w x y R : conf s s1 n m (zs ++ [x; y]) -> code_at (f_text s) (f_pc s + n) [FINSH_OP_ST w] -> n < N ->
  match store w m (u32 x) y with
  | Some m' => forall s2, conf s s2 (n + 1) m' (zs ++ [x]) -> finishes s s2 N W R
  | None => R = None
  end -> finishes s s1 N W R.
Proof.
  intros H Hc Hn HR. destruct (conf_top2 _ _ _ _ _ _ _ H) as (Esp & Hx & Hy).
  pose proof (step_st call s1 _ w x y (conf_op _ _ _ _ _ _ _ H Hc (st_at w)) Hx Hy) as Hst. rewrite (conf_mem _ _ _ _ _ H) in Hst.
  destruct (store w m (u32 x) y) as [m'|].
  - destruct Hst as (s2 & E & He). eapply finishes_step; [exact E|]. apply (HR s2).
    eapply conf_next1; [exact H|apply (eff_weaken _ _ _ _ _ _ _ He); lia|lia|].
    rewrite <-Esp, (ef_below _ _ _ _ _ _ He) by lia. done.
  - subst R. apply finishes_fault; [done|]. rewrite (conf_pc _ _ _ _ _ H). lia.
Qed.

Lemma piece_pop s1 n m zs x R : conf s s1 n m (zs ++ [x]) -> code_at (f_text s) (f_pc s + n) [FINSH_OP_POP] ->
  (forall s2, conf s s2 (n + 1) m zs -> finishes s s2 N W R) -> finishes s s1 N W R.
Proof.
  intros H Hc HR. destruct (conf_top _ _ _ _ _ _ H) as (Esp & Hx). pose proof (conf_code _ _ _ _ _ _ H Hc) as Hc1. apply code_at_fetch in Hc1 as [Hc1 _].
  destruct (step_pop call s1 Hc1) as (s2 & E & He). rewrite (conf_mem _ _ _ _ _ H) in He. eapply finishes_step; [exact E|]. apply HR.
  rewrite <-(app_nil_r zs). eapply conf_next; [exact H|apply (eff_weaken _ _ _ _ _ _ _ He); lia|cbn; lia|done].
Qed.
End Pieces.
(** *** The expressions *)

Lemma depth_pos : (forall e, 1 <= depth e) /\ (forall es, 0 <= depth_args es).
Proof. apply expr_exprs_ind; cbn; lia. Qed.

Definition exec_ok (e : expr) : Prop := forall s, ready s (code e) (depth e) ->
  finishes s s (Z.of_nat (length (code e))) (width_of e) (eval call (f_mem s) e).

Lemma conf_eq s s1 n n' m zs : conf s s1 n m zs -> n = n' -> conf s s1 n' m zs.
Proof. by intros H <-. Qed.

(** An operand. *)
Lemma piece_expr s N W s1 n m zs e K : length (f_stack s) = 64%nat -> 0 <= f_sp s -> exec_ok e -> conf s s1 n m zs ->
  code_at (f_text s) (f_pc s + n) (code e) -> f_sp s + Z.of_nat (length zs) + depth e <= 64 -> n + Z.of_nat (length (code e)) <= N ->
  (forall s2 z x m', conf s s2 (n + Z.of_nat (length (code e))) m' (zs ++ [z]) -> z mod bits (width_of e) = x -> finishes s s2 N W (K (x, m'))) ->
  finishes s s1 N W (eval call m e ≫= K).
Proof.
  intros Hst Hsp He H Hc Hd Hn HK. assert (Esp : f_sp s1 = f_sp s + Z.of_nat (length zs)) by apply H.
  pose proof (He s1 (conf_ready s _ _ _ _ _ _ Hst Hsp H Hc Hd)) as Hf. rewrite (conf_mem _ _ _ _ _ H) in Hf.
  eapply finishes_bind; [exact Hf|rewrite (conf_pc _ _ _ _ _ H); lia|]. intros s2 x m' [Ha (z & Hz & Hm)]. rewrite Esp in *.
  apply (HK s2 z); [|done]. rewrite <-(app_nil_r zs) in H. eapply conf_next1; [exact H|exact Ha|done|done].
Qed.

Lemma code_at_eq t p p' c : code_at t p c -> p = p' -> code_at t p' c.
Proof. by intros H <-. Qed.
(** The side conditions of the pieces: the code is there, the slots and the bytes suffice. *)
Ltac code_bytes := cbn [FinshCompiler.code FinshCompiler.code_args]; unfold FinshCompiler.code_address, FinshCompiler.code_value in *; rewrite ?length_app, ?Nat2Z.inj_add in *; cbn [length app le FinshCompiler.place_addr] in *.
Ltac piece_side :=
  match goal with
  | |- code_at _ _ ?c => match goal with C : code_at _ _ c |- _ => apply (code_at_eq _ _ _ _ C); code_bytes; lia end
  | _ => assumption
  | _ => code_bytes; lia
  end.
Ltac split_code H := repeat let C := fresh "C" in apply code_at_app in H as [C H].
Ltac enter := let Hc := fresh "Hc" in
  intros s [Hc Hl Hsp Hd]; cbn [FinshCompiler.eval FinshCompiler.eval_args FinshCompiler.width_of FinshCompiler.code FinshCompiler.code_args depth] in *; split_code Hc; pose proof (conf_start s) as H0;
  pose proof (proj1 depth_pos) as Hpos.

Lemma exec_bin o a b : exec_ok a -> exec_ok b -> bits (op_width a) <= bits (width_of a) -> bits (op_width a) <= bits (width_of b) ->
  exec_ok (EBin o a b).
Proof.
  intros IHa IHb Wa Wb. enter. pose proof (Hpos a) as Da. pose proof (Hpos b) as Db. set (w := op_width a) in *.
  apply (piece_expr _ _ _ _ _ _ _ _ _ Hl Hsp IHa H0); try piece_side. intros s1 z1 x m1 H1 Hz1.
  apply (piece_expr _ _ _ _ _ _ _ _ _ Hl Hsp IHb H1); try piece_side. intros s2 z2 y m2 H2 Hz2.
  unfold apply_op. rewrite <-(get_mod w z1 x (mod_low _ _ _ _ Wa Hz1)), <-(get_mod w z2 y (mod_low _ _ _ _ Wb Hz2)).
  apply (piece_bin _ _ _ _ _ _ [] o w _ _ _ H2); try piece_side. destruct (c_op o (get w z1) (get w z2)) as [r|]; [|done].
  intros s3 z H3 Hz. eapply piece_done; [|exact Hz]. eapply conf_eq; [exact H3|piece_side].
Qed.

Lemma exec_const w v e : code e = FINSH_OP_LD w :: le w v -> depth e = 1 -> width_of e = w -> (forall m, eval call m e = Some (v mod bits w, m)) -> exec_ok e.
Proof.
  intros Ec Ed Ew Ev s [Hc Hl Hsp Hd]. rewrite Ev, Ec, Ew in *. rewrite Ed in *. pose proof (conf_start s) as H0.
  apply (piece_ld _ _ _ _ _ _ [] w v _ Hl Hsp H0); [by rewrite Z.add_0_r|cbn; lia|]. intros s1 z H1 Hz. by eapply piece_done.
Qed.
Lemma exec_id x : exec_ok (EId x).
Proof.
  enter. apply (piece_ld_value _ _ _ _ _ _ [] x _ Hl Hsp H0); [by rewrite Z.add_0_r|cbn; lia|cbn; lia|].
  destruct (load _ _ _) as [v|]; [|done]. intros s1 z H1 Hz. by eapply piece_done.
Qed.
Lemma exec_not a : exec_ok a -> bits (op_width a) <= bits (width_of a) -> exec_ok (ENot a).
Proof.
  intros IHa Wa. enter. set (w := op_width a) in *. pose proof (Hpos a) as Da.
  apply (piece_expr _ _ _ _ _ _ _ _ _ Hl Hsp IHa H0); try piece_side. intros s1 z1 x m1 H1 Hz1.
  apply (piece_bw _ _ _ _ _ _ [] w _ _ H1); try piece_side. intros s2 z H2 Hz. cbn [fst snd].
  eapply piece_done; [eapply conf_eq; [exact H2|piece_side]|]. by rewrite Hz, (get_mod w z1 x (mod_low _ _ _ _ Wa Hz1)).
Qed.

(** A value that fills a double word is one. *)
Lemma fills_dword a z x : bits Dword <= bits (width_of a) -> z mod bits (width_of a) = x -> u32 z = x.
Proof. intros H. destruct (width_of a); cbn in *; (lia || done). Qed.
(** Storing, and loading again. *)
Lemma piece_assign s N W s1 n m w a y v : conf s s1 n m [a; y] -> code_at (f_text s) (f_pc s + n) [FINSH_OP_ST w] ->
  code_at (f_text s) (f_pc s + n + 1) [FINSH_OP_LD_VALUE_STACK w] -> N = n + 2 -> W = w -> y mod bits w = v mod bits w ->
  finishes s s1 N W (m' ← store w m (u32 a) v; Some (v mod bits w, m')).
Proof.
  intros H Hc1 Hc2 -> -> Hy. apply (piece_st _ _ _ _ _ _ [] w a y _ H Hc1); [lia|]. rewrite (store_mod _ _ _ _ _ Hy).
  destruct (store w m (u32 a) v) as [m'|] eqn:E; [|done]. intros s2 H2. cbn [mbind option_bind]. destruct (store_load _ _ _ _ _ E) as (u & Hu & Hm).
  apply (piece_ld_stack _ _ _ _ _ _ [] w a _ H2); [by rewrite Z.add_assoc|lia|]. rewrite Hu. intros s3 z H3 Hz.
  eapply piece_done; [eapply conf_eq; [exact H3|lia]|]. by rewrite Hz, Hm.
Qed.

Lemma exec_assign x a : exec_ok a -> bits (place_width x) <= bits (width_of a) -> exec_ok (EAssign x a).
Proof.
  intros IHa Wa. enter. pose proof (Hpos a) as Da. unfold FinshCompiler.code_address in C.
  apply (piece_ld _ _ _ _ _ _ [] Dword (place_addr x) _ Hl Hsp H0); try piece_side. intros s1 z1 H1 Hz1.
  apply (piece_expr _ _ _ _ _ _ _ _ _ Hl Hsp IHa H1); try piece_side. intros s2 z2 y m2 H2 Hz2.
  change (u32 z1 = u32 (place_addr x)) in Hz1. rewrite <-Hz1.
  eapply (piece_assign _ _ _ _ _ _ _ _ z2 y H2); try piece_side; [done|by apply (mod_low _ _ _ _ Wa Hz2)].
Qed.

Lemma exec_store a b : exec_ok a -> exec_ok b -> bits Dword <= bits (width_of a) -> bits (op_width a) <= bits (width_of b) -> exec_ok (EStore a b).
Proof.
  intros IHa IHb Wa Wb. enter. pose proof (Hpos a) as Da. pose proof (Hpos b) as Db. set (w := op_width a) in *.
  apply (piece_expr _ _ _ _ _ _ _ _ _ Hl Hsp IHa H0); try piece_side. intros s1 z1 x m1 H1 Hz1.
  apply (piece_expr _ _ _ _ _ _ _ _ _ Hl Hsp IHb H1); try piece_side. intros s2 z2 y m2 H2 Hz2.
  rewrite <-(fills_dword a z1 x Wa Hz1).
  eapply (piece_assign _ _ _ _ _ _ _ _ z2 y H2); try piece_side; [done|by apply (mod_low _ _ _ _ Wb Hz2)].
Qed.

Lemma exec_deref a : exec_ok a -> bits Dword <= bits (width_of a) -> exec_ok (EDeref a).
Proof.
  intros IHa Wa. enter. pose proof (Hpos a) as Da. set (w := op_width a) in *.
  apply (piece_expr _ _ _ _ _ _ _ _ _ Hl Hsp IHa H0); try piece_side. intros s1 z1 x m1 H1 Hz1. cbn [fst snd].
  apply (piece_ld_stack _ _ _ _ _ _ [] w z1 _ H1); try piece_side. rewrite (fills_dword a z1 x Wa Hz1).
  destruct (load w m1 x) as [v|]; [|done]. intros s2 z H2 Hz. cbn [mbind option_bind].
  eapply piece_done; [eapply conf_eq; [exact H2|piece_side]|done].
Qed.

(** Loading, adding or subtracting one, and storing to the address on top of the stack. *)
Lemma piece_update s N W s1 n m zs a u i R : let w := place_width (p_var i) in
  length (f_stack s) = 64%nat -> 0 <= f_sp s -> conf s s1 n m (zs ++ [a]) -> u32 a = u32 (var_value i) ->
  code_at (f_text s) (f_pc s + n) (code_update u i) -> f_sp s + Z.of_nat (length zs) + 3 <= 64 -> n + Z.of_nat (length (code_update u i)) <= N ->
  match update u w (u32 (var_value i)) m with
  | Some (v, r, m') => forall s2, conf s s2 (n + Z.of_nat (length (code_update u i))) m' (zs ++ [a]) -> finishes s s2 N W R
  | None => R = None
  end -> finishes s s1 N W R.
Proof.
  intros w Hl Hsp H Ha Hc Hd Hn HR. unfold FinshCompiler.code_update in *. fold w in Hc, Hn, HR. split_code Hc. unfold update in HR.
  assert (Hw : 0 < Z.of_nat (length (le w 1))) by (destruct w; cbn; lia).
  apply (piece_ld_value _ _ _ _ _ _ _ (p_var i) _ Hl Hsp H); [piece_side|code_bytes; lia|code_bytes; lia|]. cbn [FinshCompiler.place_addr].
  fold w. destruct (load w m (u32 (var_value i))) as [v|]; [|done]. cbn [mbind option_bind] in HR. intros s2 z H2 Hz.
  apply (piece_ld _ _ _ _ _ _ _ w 1 _ Hl Hsp H2); [piece_side|code_bytes; lia|]. intros s3 y H3 Hy. rewrite <-app_assoc in H3.
  apply (piece_bin _ _ _ _ _ _ _ (updown_op u) w _ _ _ H3); [piece_side|code_bytes; lia|]. unfold apply_op in HR.
  rewrite (get_mod w z v), (get_mod w y 1) by done. destruct (c_op _ _ _) as [r|]; [|done]. cbn [mbind option_bind] in HR. intros s4 q H4 Hq.
  rewrite <-app_assoc in H4. apply (piece_st _ _ _ _ _ _ _ w a q _ H4); [piece_side|code_bytes; lia|]. rewrite Ha.
  rewrite (store_mod w m _ q (r mod bits w)) by (rewrite Z.mod_mod by (pose proof (bits_pos w); lia); done).
  destruct (store w m _ _) as [m'|]; [|done]. intros s5 H5. apply HR. eapply conf_eq; [exact H5|]. code_bytes. lia.
Qed.

Lemma exec_pre u i : exec_ok (EPre u i).
Proof.
  enter. set (w := place_width (p_var i)) in *. unfold FinshCompiler.code_address in C.
  apply (piece_ld _ _ _ _ _ _ [] Dword (place_addr (p_var i)) _ Hl Hsp H0); try piece_side. intros s1 z1 H1 Hz1. cbn [FinshCompiler.place_addr] in *.
  change (u32 z1 = u32 (var_value i)) in Hz1. apply (piece_update _ _ _ _ _ _ [] z1 u i _ Hl Hsp H1 Hz1); [piece_side|cbn; lia|code_bytes; lia|].
  fold w. destruct (update u w (u32 (var_value i)) (f_mem s)) as [[[v r] m]|] eqn:Eu; [|done]. cbn [mbind option_bind]. intros s2 H2.
  apply (piece_ld_stack _ _ _ _ _ _ [] Dword z1 _ H2); [piece_side|code_bytes; lia|]. rewrite Hz1.
  assert (Hr : forall x, load Dword m (u32 (var_value i)) = Some x -> x mod bits w = r).
  { intros x Hx. unfold update, apply_op in Eu. destruct (load w (f_mem s) _) as [v'|]; [|done]. cbn [mbind option_bind] in Eu.
    destruct (c_op _ _ _) as [r'|]; [|done]. cbn [mbind option_bind] in Eu. destruct (store w _ _ _) as [m'|] eqn:Es; [|done]. injection Eu as <- <- <-.
    apply store_load in Es as (y & Ey & Hy). rewrite Z.mod_mod in Hy by (pose proof (bits_pos w); lia). rewrite <-Hy. by eapply load_low. }
  destruct (load Dword m _) as [x|] eqn:Ex; [|done]. intros s3 z H3 Hz. cbn [mbind option_bind].
  eapply piece_done; [eapply conf_eq; [exact H3|code_bytes; lia]|]. fold w. rewrite <-(Hr x) by done.
  eapply mod_bits_le; [|exact Hz]. destruct w; cbn; lia.
Qed.

Lemma exec_post u i : exec_ok (EPost u i).
Proof.
  enter. set (w := place_width (p_var i)) in *. unfold FinshCompiler.code_address in C0.
  apply (piece_ld_value _ _ _ _ _ _ [] (p_var i) _ Hl Hsp H0); [piece_side|cbn; lia|code_bytes; lia|].
  cbn [FinshCompiler.place_addr]. fold w.
  destruct (load w (f_mem s) (u32 (var_value i))) as [v|] eqn:Ev; [|by unfold update; rewrite Ev]. intros s1 z1 H1 Hz1.
  apply (piece_ld _ _ _ _ _ _ _ Dword (place_addr (p_var i)) _ Hl Hsp H1); [piece_side|cbn; lia|]. intros s2 z2 H2 Hz2. cbn [FinshCompiler.place_addr] in *.
  apply (piece_update _ _ _ _ _ _ _ z2 u i _ Hl Hsp H2 Hz2); [piece_side|cbn; lia|code_bytes; lia|].
  fold w. destruct (update u w (u32 (var_value i)) (f_mem s)) as [[[v' r] m]|] eqn:Eu; [|done]. cbn [mbind option_bind]. intros s3 H3.
  apply (piece_pop _ _ _ _ _ _ _ z2 _ H3); [piece_side|]. intros s4 H4.
  eapply piece_done; [eapply conf_eq; [exact H4|code_bytes; lia]|]. fold w. rewrite Hz1.
  unfold update in Eu. rewrite Ev in Eu. cbn [mbind option_bind] in Eu. destruct (apply_op _ _ _ _); [|done]. cbn [mbind option_bind] in Eu.
  destruct (store _ _ _ _); [|done]. by injection Eu as <- _ _.
Qed.

Lemma eval_args_cons m e es : eval_args call m (ECons e es) =
  (p ← eval call m e; let '(v, m) := p in q ← eval_args call m es; let '(vs, m) := q in Some (v :: vs, m)).
Proof. done. Qed.
Lemma eval_call m f args : eval call m (ECall f args) =
  (p ← eval_args call m args; let '(vs, m) := p in
   q ← call (u32 (sc_func f)) (if Z.of_nat (length vs) =? 0 then [0] else vs) m; Some (u32 q.1, q.2)).
Proof. done. Qed.

(** Arguments: their values are put on the stack one after the other. *)
Definition args_ok (es : exprs) : Prop := forall s N W s1 n m zs K, length (f_stack s) = 64%nat -> 0 <= f_sp s -> conf s s1 n m zs ->
  code_at (f_text s) (f_pc s + n) (code_args es) -> f_sp s + Z.of_nat (length zs) + depth_args es <= 64 -> n + Z.of_nat (length (code_args es)) <= N ->
  (forall s2 ys vs m', conf s s2 (n + Z.of_nat (length (code_args es))) m' (zs ++ ys) -> Forall2 (fun z v => u32 z = v) ys vs ->
     length ys = length_exprs es -> finishes s s2 N W (K (vs, m'))) ->
  finishes s s1 N W (eval_args call m es ≫= K).

Lemma args_nil : args_ok ENil.
Proof.
  intros s N W s1 n m zs K Hl Hsp H Hc Hd Hn HK. cbn [FinshCompiler.eval_args FinshCompiler.eval mbind option_bind]. apply (HK s1 [] []); [|done|done].
  rewrite app_nil_r. eapply conf_eq; [exact H|cbn; lia].
Qed.
Lemma args_cons e es : exec_ok e -> bits Dword <= bits (width_of e) -> args_ok es -> args_ok (ECons e es).
Proof.
  intros IHe We IHes s N W s1 n m zs K Hl Hsp H Hc Hd Hn HK. rewrite eval_args_cons. change (code_args (ECons e es)) with (code e ++ code_args es) in *. cbn [depth_args] in Hd. split_code Hc.
  pose proof (proj1 depth_pos e) as De. pose proof (proj2 depth_pos es) as Des. rewrite length_app, Nat2Z.inj_add in *.
  rewrite option_bind_assoc. apply (piece_expr _ _ _ _ _ _ _ _ _ Hl Hsp IHe H); [done|lia|lia|]. intros s2 z x m1 H2 Hz. unfold compose. cbv beta iota.
  rewrite option_bind_assoc. apply (IHes _ _ _ _ _ _ _ _ Hl Hsp H2); [by rewrite Z.add_assoc|rewrite length_app; cbn; lia|lia|].
  intros s3 ys vs m' H3 Hys Hlen. unfold compose. cbn [mbind option_bind]. rewrite <-app_assoc in H3. apply (HK s3 (z :: ys) (x :: vs)); [|constructor|cbn; by rewrite Hlen].
  - eapply conf_eq; [exact H3|lia].
  - by apply (fills_dword e).
  - done.
Qed.

Lemma exec_call f args : args_ok args -> (length_exprs args <= 16)%nat -> exec_ok (ECall f args).
Proof.
  intros IHargs Hn. intros s [Hc Hl Hsp Hd]. rewrite eval_call. pose proof (conf_start s) as H0. cbn [depth] in Hd.
  change (width_of (ECall f args)) with Dword.
  change (code (ECall f args)) with ((FINSH_OP_LD Dword :: le Dword (sc_func f)) ++ code_args args ++ [FINSH_OP_SYSCALL; Z.of_nat (length_exprs args)]) in *. split_code Hc. pose proof (proj2 depth_pos args) as Dargs.
  apply (piece_ld _ _ _ _ _ _ [] Dword (sc_func f) _ Hl Hsp H0); try piece_side. intros s1 z1 H1 Hz1.
  change (u32 z1 = u32 (sc_func f)) in Hz1.
  apply (IHargs _ _ _ _ _ _ _ _ Hl Hsp H1); try piece_side. intros s2 ys vs m2 H2 Hys Hlen. rewrite <-Hz1.
  pose proof (Forall2_length Hys) as Hlen2. assert (Hvs : length_exprs args = length vs) by lia.
  set (n := 0 + _ + _) in H2. assert (Hc2 : code_at (f_text s) (f_pc s + n) [FINSH_OP_SYSCALL; Z.of_nat (length vs)]).
  { rewrite <-Hvs. unfold n. piece_side. }
  assert (Esp : f_sp s2 = f_sp s + 1 + Z.of_nat (length vs)) by (destruct H2 as [He _]; rewrite (ef_sp _ _ _ _ _ _ He); cbn; lia).
  pose proof (cf_slots _ _ _ _ _ H2) as Hs. pose proof (step_call call s2 vs z1 (conf_code _ _ _ _ _ _ H2 Hc2) ltac:(lia)) as Hst.
  rewrite (conf_mem _ _ _ _ _ H2), Esp in Hst. replace (f_sp s + 1 + Z.of_nat (length vs) - 1 - Z.of_nat (length vs)) with (f_sp s) in Hst by lia.
  replace (f_sp s + 1 + Z.of_nat (length vs) - Z.of_nat (length vs)) with (f_sp s + 1) in Hst by lia.
  specialize (Hst ltac:(specialize (Hs 0%nat z1 eq_refl); by rewrite Z.add_0_r in Hs)). cbv beta iota.
  assert (Hargs : forall i v, vs !! i = Some v -> exists y, slot s2 (f_sp s + 1 + Z.of_nat i) = Some y /\ u32 y = v).
  { intros i v Ev. destruct (Forall2_lookup_r _ _ _ _ _ Hys Ev) as (y & Ey & Hy). exists y. split; [|done].
    rewrite <-(Hs (S i) y Ey). f_equal. lia. }
  specialize (Hst Hargs). destruct (call (u32 z1) _ m2) as [[r m']|]; cbn [mbind option_bind fst snd].
  - destruct Hst as (s3 & E & He3 & z & Hz & Hm). eapply finishes_step; [exact E|].
    assert (H3 : conf s s3 (n + 2) m' ([] ++ [z])).
    { eapply (conf_next1 _ _ _ _ _ _ _ [] ([z1] ++ ys)); [exact H2|cbn [length]; rewrite Z.add_0_r; exact He3|cbn; lia|cbn [length]; by rewrite Z.add_0_r]. }
    eapply piece_done; [eapply conf_eq; [exact H3|unfold n; piece_side]|]. exact Hm.
  - apply finishes_fault; [done|]. rewrite (conf_pc _ _ _ _ _ H2). unfold n. piece_side.
Qed.

(** The code of a well-typed expression computes its value, or fails when there is none. *)
Lemma exec_run : (forall e, well_typed e = true -> exec_ok e) /\ (forall es, well_typed_args es = true -> args_ok es).
Proof.
  apply expr_exprs_ind; cbn [FinshCompiler.well_typed FinshCompiler.well_typed_args]; intros; rewrite ?andb_true_iff in *; destruct_and?;
    repeat match goal with H : fills _ _ = true |- _ => apply fills_le in H end.
  - apply (exec_const Byte c); try done.
  - by apply (exec_const Dword z).
  - by apply (exec_const Dword z).
  - by apply (exec_const Dword p).
  - by apply (exec_const Dword 0).
  - apply exec_id.
  - apply exec_bin; auto.
  - apply exec_not; auto.
  - apply exec_assign; auto.
  - apply exec_pre.
  - apply exec_post.
  - apply exec_deref; auto.
  - apply exec_store; auto.
  - apply (exec_const Dword (place_addr x)); done.
  - apply exec_call; [auto|]. by apply Nat.leb_le.
  - apply args_nil.
  - apply args_cons; auto.
Qed.

(** ** Lines of statements *)

(** The trees of a line behind the check. *)
Fixpoint typed_statements (es : list expr) : tree :=
  match es with [] => NULL | e :: es => typed_tree global_variable e (typed_statements es) end.
Fixpoint code_statements (es : list expr) : list Z :=
  match es with
  | [] => []
  | e :: es => code e ++ match es with [] => [] | _ => [FINSH_OP_POP] end ++ code_statements es
  end.
(** The value of the last statement. *)
Fixpoint eval_statements (m : mem) (es : list expr) : option (Z * mem) :=
  match es with
  | [] => None
  | [e] => eval call m e
  | e :: es => p ← eval call m e; eval_statements p.2 es
  end.
Fixpoint last_width (es : list expr) : width := match es with [] => Dword | [e] => width_of e | _ :: es => last_width es end.

Lemma check_statements es errno : forallb well_typed es = true ->
  finsh_type_check global_variable (statements es) 0 errno = (typed_statements es, errno).
Proof.
  revert errno. induction es as [|e es IH]; intros errno H; [done|]. cbn in H. apply andb_true_iff in H as [He Hes].
  cbn [statements typed_statements]. rewrite (proj1 (type_check_run global_variable) e He), IH by done. done.
Qed.

Lemma emits_statements es : forallb well_typed es = true -> emits (compile_statements global_variable variables (typed_statements es)) (code_statements es).
Proof.
  induction es as [|e es IH]; intros H; [done|]. cbn in H. apply andb_true_iff in H as [He Hes]. specialize (IH Hes).
  cbn [typed_statements code_statements]. pose proof (proj1 (compile_run global_variable variables) e He NULL) as Hc.
  destruct (typed_root global_variable e (typed_statements es)) as (n & c & E & _).
  assert (En : typed_tree global_variable e NULL = T n c NULL).
  { destruct e; cbn in E |- *; by injection E as <- <-. }
  rewrite E. cbn [compile_statements]. rewrite En in Hc. intros s. rewrite Hc, emit_app.
  destruct (emit (code e) s) as [s1|]; [|done]. cbn [mbind option_bind]. cbn [finsh_compile]. cbn [mbind option_bind]. rewrite emit_app.
  destruct es as [|e' es]; [exact (IH s1)|]. destruct (typed_root global_variable e' (typed_statements es)) as (n' & c' & E' & _).
  cbn [typed_statements] in IH |- *. rewrite E' in IH |- *. rewrite emit_1. destruct (finsh_code_byte FINSH_OP_POP s1); [apply IH|done].
Qed.

(** *** Writing to the text segment *)

Definition byte (x : Z) : Prop := 0 <= x < 256.

Lemma emit_fits l : forall pre rest suf s, Forall byte l -> f_text s = pre ++ rest ++ suf -> length rest = length l -> f_cpc s = Z.of_nat (length pre) ->
  emit l s = Some (set_f_cpc (f_cpc s + Z.of_nat (length l)) (set_f_text (pre ++ l ++ suf) s)).
Proof.
  induction l as [|b l IH]; intros pre rest suf s Hb Ht Hr Hp.
  - destruct rest; [|done]. cbn [app] in Ht. cbn. rewrite Z.add_0_r, <-Ht. by destruct s.
  - destruct rest as [|r rest]; [done|]. apply list.Forall_cons in Hb as [Hb Hbs]. cbn [emit]. unfold finsh_code_byte.
    rewrite Ht, Hp, !length_app. cbn [length]. destruct (Z.leb_spec 0 (Z.of_nat (length pre))); [|lia].
    destruct (Z.ltb_spec (Z.of_nat (length pre)) (Z.of_nat (length pre + (S (length rest) + length suf)))); [|lia]. cbn [andb mbind option_bind].
    rewrite Nat2Z.id. cbn [app]. rewrite insert_app_r_alt, Nat.sub_diag, u8_id by (done || lia).
    rewrite (IH (pre ++ [b]) rest suf); cbn [f_text f_cpc set_f_text set_f_cpc]; [|done|by rewrite <-app_assoc|cbn in Hr; lia|rewrite length_app; cbn; lia].
    rewrite <-app_assoc. cbn [app]. unfold set_f_cpc, set_f_text. cbn. do 2 f_equal. lia.
Qed.

(** What does not fit is not written: the pointer of the compiler leaves the segment. *)
Lemma emit_overruns l : forall s, 0 <= f_cpc s <= Z.of_nat (length (f_text s)) -> Z.of_nat (length (f_text s)) < f_cpc s + Z.of_nat (length l) -> emit l s = None.
Proof.
  induction l as [|b l IH]; intros s Hp Hl; [cbn in Hl; lia|]. cbn [emit]. unfold finsh_code_byte.
  destruct (Z.leb_spec 0 (f_cpc s)); [|lia]. destruct (Z.ltb_spec (f_cpc s) (Z.of_nat (length (f_text s)))); cbn [andb mbind option_bind]; [|done].
  apply IH; cbn [f_cpc f_text set_f_cpc set_f_text]; rewrite length_insert; cbn [length] in Hl; lia.
Qed.

Lemma le_bytes w x : Forall byte (le w x).
Proof. destruct w; cbn; repeat (apply list.Forall_cons; split); try apply u8_range; done. Qed.
Lemma op_byte w b : 0 <= b < 254 -> byte (FINSH_OP_OF b w).
Proof. unfold byte, FINSH_OP_OF. destruct w; lia. Qed.
Lemma code_is_bytes :
  (forall e, well_typed e = true -> Forall byte (code e)) /\ (forall es, well_typed_args es = true -> Forall byte (code_args es)).
Proof.
  assert (Hop : forall b w l, 0 <= b < 254 -> Forall byte l -> Forall byte (FINSH_OP_OF b w :: l)) by (intros; constructor; [by apply op_byte|done]).
  assert (Hbin : forall o w, Forall byte [FINSH_OP_BIN o w]) by (intros [] w; apply Hop; (lia || done)).
  assert (Hld : forall w v, Forall byte (FINSH_OP_LD w :: le w v)) by (intros; apply Hop; [lia|apply le_bytes]).
  assert (Hvalue : forall x, Forall byte (code_value x)) by (intros; apply Hop; [lia|apply le_bytes]).
  assert (Haddr : forall x, Forall byte (code_address x)) by (intros; apply Hop; [lia|apply le_bytes]).
  assert (Hst : forall w, Forall byte [FINSH_OP_ST w]) by (intros; apply Hop; (lia || done)).
  assert (Hlds : forall w, Forall byte [FINSH_OP_LD_VALUE_STACK w]) by (intros; apply Hop; (lia || done)).
  assert (Hup : forall u i, Forall byte (code_update u i)) by (intros; unfold FinshCompiler.code_update; rewrite !Forall_app; auto).
  apply expr_exprs_ind; intros;
    match goal with
    | H : well_typed _ = true |- _ => cbn [FinshCompiler.well_typed] in H
    | H : well_typed_args _ = true |- _ => cbn [FinshCompiler.well_typed_args] in H
    end; rewrite ?andb_true_iff in *; destruct_and?.
  all: match goal with |- Forall _ (FinshCompiler.code _ _ (ECall ?f ?es)) => change (Forall byte ((FINSH_OP_LD Dword :: le Dword (sc_func f)) ++ code_args es ++ [FINSH_OP_SYSCALL; Z.of_nat (length_exprs es)]))
    | |- Forall _ (FinshCompiler.code_args _ _ (ECons ?e ?es)) => change (Forall byte (code e ++ code_args es)) | _ => cbn [FinshCompiler.code] end.
  all: try first [apply (Hld Byte)|apply (Hld Dword)|apply Hvalue|apply Haddr].
  - rewrite !Forall_app. auto.
  - rewrite !Forall_app. split; [auto|]. apply Hop; (lia || done).
  - rewrite !Forall_app. auto.
  - rewrite !Forall_app. auto.
  - rewrite !Forall_app. split; [auto|]. split; [auto|]. split; [auto|]. repeat constructor; unfold FINSH_OP_POP; lia.
  - rewrite !Forall_app. auto.
  - rewrite !Forall_app. auto.
  - rewrite !Forall_app. split; [auto|]. split; [auto|]. apply list.Forall_cons. split; [unfold byte, FINSH_OP_SYSCALL; lia|].
    apply list.Forall_cons. split; [|done]. match goal with H : (_ <=? 16)%nat = true |- _ => apply Nat.leb_le in H end. unfold byte. lia.
  - done.
  - rewrite Forall_app. auto.
Qed.

Lemma statements_bytes es : forallb well_typed es = true -> Forall byte (code_statements es).
Proof.
  induction es as [|e es IH]; intros H; [done|]. cbn in H. apply andb_true_iff in H as [He Hes]. cbn [code_statements].
  rewrite !Forall_app. split; [by apply code_is_bytes|]. split; [|auto]. destruct es; [done|]. repeat constructor; unfold FINSH_OP_POP; lia.
Qed.

(** *** Running a line *)

Lemma statements_run s es : es <> [] -> forallb well_typed es = true -> Forall (fun e => f_sp s + depth e <= 64) es ->
  length (f_stack s) = 64%nat -> 0 <= f_sp s -> forall s1 n m, conf s s1 n m [] -> code_at (f_text s) (f_pc s + n) (code_statements es) ->
  finishes s s1 (n + Z.of_nat (length (code_statements es))) (last_width es) (eval_statements m es).
Proof.
  intros Hne Hw Hd Hl Hsp. induction es as [|e es IH]; [done|]. intros s1 n m H Hc. cbn in Hw. apply andb_true_iff in Hw as [We Wes].
  apply list.Forall_cons in Hd as [De Des]. pose proof (proj1 exec_run e We) as He. cbn [code_statements] in Hc |- *. apply code_at_app in Hc as [Ce Hc].
  destruct es as [|e' es].
  - cbn [app code_statements eval_statements last_width]. rewrite app_nil_r.
    replace (eval call m e) with (eval call m e ≫= Some) by (by destruct (eval call m e)).
    apply (piece_expr _ _ _ _ _ _ _ _ _ Hl Hsp He H); [done|cbn; lia|lia|]. intros s2 z x m' H2 Hz. by eapply piece_done.
  - change (eval_statements m (e :: e' :: es)) with (eval call m e ≫= (fun p => eval_statements p.2 (e' :: es))).
    change (last_width (e :: e' :: es)) with (last_width (e' :: es)). apply code_at_app in Hc as [Cp Cs]. rewrite !length_app, !Nat2Z.inj_add.
    apply (piece_expr _ _ _ _ _ _ _ _ _ Hl Hsp He H); [done|cbn; lia|lia|]. intros s2 z x m' H2 Hz.
    apply (piece_pop _ _ _ _ _ _ [] z _ H2); [by rewrite Z.add_assoc|]. intros s3 H3. cbn [snd].
    specialize (IH ltac:(done) Wes Des s3 _ m' H3 ltac:(eapply code_at_eq; [exact Cs|cbn; lia])).
    match goal with |- finishes _ _ ?n _ _ => match type of IH with finishes _ _ ?k _ _ => replace n with k by (cbn [length]; lia) end end. exact IH.
Qed.

(** The rest of the text segment holds no operations. *)
Lemma no_ops_run k : forall s, (forall i, f_pc s <= i < f_pc s + Z.of_nat k -> fetch s i = Some 0) ->
  runs call s (set_f_pc (f_pc s + Z.of_nat k) s).
Proof.
  induction k as [|k IH]; intros s H; [rewrite Z.add_0_r; destruct s; apply rtc_refl|].
  eapply rtc_l; [apply step_no_op, H; lia|]. set (s1 := set_f_pc _ s).
  replace (set_f_pc (f_pc s + Z.of_nat (S k)) s) with (set_f_pc (f_pc s1 + Z.of_nat k) s1) by (unfold s1, set_f_pc; cbn; f_equal; lia).
  apply IH. intros i Hi. apply H. cbn in Hi. lia.
Qed.

(** A line in the text segment: the machine halts with the value at the bottom of the stack. *)
Lemma line_run s es : es <> [] -> forallb well_typed es = true -> Forall (fun e => depth e <= 64) es -> length (f_stack s) = 64%nat ->
  f_text s = code_statements es ++ replicate (128 - length (code_statements es)) 0 -> (length (code_statements es) <= 128)%nat ->
  match eval_statements (f_mem s) es with
  | Some (v, m) => exists s2 z, finsh_vm_run call s = Halted s2 /\ slot s2 0 = Some z /\ z mod bits (last_width es) = v /\
      f_mem s2 = m /\ f_errno s2 = f_errno s /\ f_text s2 = f_text s /\ length (f_stack s2) = 64%nat
  | None => finsh_vm_run call s = Fault
  end.
Proof.
  intros Hne Hw Hd Hl Ht Hn. unfold finsh_vm_run. set (s0 := set_f_pc 0 (set_f_sp 0 s)). set (c := code_statements es) in *.
  pose proof (statements_run s0 es Hne Hw Hd Hl ltac:(cbn; lia) s0 0 (f_mem s0) (conf_start s0)) as Hrun. change (f_mem s0) with (f_mem s) in Hrun.
  specialize (Hrun ltac:(exists [], (replicate (128 - length c) 0); split; [exact Ht|done])). fold c in Hrun.
  destruct (eval_statements (f_mem s) es) as [[v m]|].
  - destruct Hrun as (s1 & Hr & He & z & Hz & Hm). change (f_sp s0) with 0 in *. pose proof (ef_pc _ _ _ _ _ _ He) as Epc. change (f_pc s0) with 0 in Epc.
    pose proof (ef_text _ _ _ _ _ _ He) as Et. change (f_text s0) with (f_text s) in Et.
    pose proof (no_ops_run (128 - length c) s1) as Hno. specialize (Hno ltac:(
      intros i Hi; unfold fetch; rewrite Et, Ht; destruct (Z.leb_spec 0 i); [|lia]; rewrite lookup_app_r by lia; apply lookup_replicate_2; lia)).
    set (s2 := set_f_pc _ s1) in Hno.
    assert (Hend : f_pc s2 = 128) by (cbn; lia).
    destruct (vm_loop_runs call s0 s2 ltac:(etrans; [exact Hr|exact Hno]) ltac:(cbn; lia) ltac:(rewrite Hend; unfold FINSH_TEXT_MAX; lia) 129 ltac:(lia) ltac:(cbn; unfold FINSH_TEXT_MAX; lia))
      as (f' & F0 & F1 & E).
    exists s2, z. split; [|split; [exact Hz|split; [exact Hm|split; [apply He|split; [apply He|split; [exact Et|rewrite <-Hl; apply He]]]]]].
    rewrite E. destruct f' as [|f']; [lia|]. cbn [vm_loop]. rewrite Hend. done.
  - apply (vm_loop_fails call s0 (Z.of_nat (length c))); [|cbn; lia|cbn; unfold FINSH_TEXT_MAX; lia|cbn; unfold FINSH_TEXT_MAX; lia|lia].
    cbn in Hrun. rewrite Z.sub_0_r in Hrun. exact Hrun.
Qed.

(** *** Compiling a line *)

Lemma compiler_run es s : forallb well_typed es = true -> length (f_text s) = 128%nat ->
  finsh_compiler_run global_variable variables (statements es) s =
  if (length (code_statements es) <=? 128)%nat then
    Some (set_f_cpc (Z.of_nat (length (code_statements es))) (set_f_text (code_statements es ++ replicate (128 - length (code_statements es)) 0)
      (set_f_stack (<[0%nat := 0]> (f_stack s)) s)))
  else None.
Proof.
  intros Hw Ht. unfold finsh_compiler_run. rewrite check_statements by done. rewrite (emits_statements es Hw). set (c := code_statements es).
  change (f_text (finsh_error_set (f_errno s) s)) with (f_text s). rewrite Ht.
  destruct (Nat.leb_spec (length c) 128) as [Hl|Hl].
  - rewrite (emit_fits c [] (replicate (length c) 0) (replicate (128 - length c) 0)); [|by apply statements_bytes| |by rewrite length_replicate|done].
    + done.
    + cbn [f_text set_f_cpc set_f_stack set_f_text finsh_error_set app]. rewrite <-replicate_add. f_equal. lia.
  - apply emit_overruns; cbn [f_text f_cpc set_f_cpc set_f_stack set_f_text finsh_error_set]; rewrite length_replicate; lia.
Qed.

(** *** Well-typed lines do not fail *)

Fixpoint places (e : expr) : list place :=
  match e with
  | EChar _ | EInt _ | ELong _ | EString _ | ENull | EAddr _ => []
  | EId x => [x]
  | EBin _ a b | EStore a b => places a ++ places b
  | ENot a | EDeref a => places a
  | EAssign x a => x :: places a
  | EPre _ i | EPost _ i => [p_var i]
  | ECall _ _ => []
  end.
(** Operations that always have a result. *)
Definition total_op (o : binop) : bool := match o with Add | Sub | Mul | And | Or | Xor => true | Div | Mod | Shl | Shr => false end.
Fixpoint arithmetic (e : expr) : bool :=
  match e with
  | EChar _ | EInt _ | ELong _ | EString _ | ENull | EAddr _ | EId _ | EPre _ _ | EPost _ _ => true
  | EBin o a b => total_op o && arithmetic a && arithmetic b
  | ENot a | EAssign _ a => arithmetic a
  | EDeref _ | EStore _ _ | ECall _ _ => false
  end.
Definition place_mapped (m : mem) (x : place) : Prop := mapped m (u32 (place_addr x)) 4.

Lemma load_mapped w m a : mapped m a 4 -> exists v, load w m a = Some v.
Proof.
  intros H. destruct (H a ltac:(lia)) as [b0 E0]. destruct (H (a + 1) ltac:(lia)) as [b1 E1].
  destruct (H (a + 2) ltac:(lia)) as [b2 E2]. destruct (H (a + 3) ltac:(lia)) as [b3 E3].
  destruct w; cbn [load]; unfold load32; rewrite E0, ?E1, ?E2, ?E3; cbn [mbind option_bind]; by eexists.
Qed.
Lemma store8_mapped m a v : is_Some (m !! a) -> exists m', store8 m a v = Some m' /\ forall b, is_Some (m !! b) -> is_Some (m' !! b).
Proof.
  intros H. rewrite store8_run by done. eexists. split; [done|]. intros b Hb. destruct (decide (a = b)) as [->|Hn]; [by rewrite lookup_insert_eq|by rewrite lookup_insert_ne].
Qed.
Lemma store_mapped w m a v : mapped m a 4 -> exists m', store w m a v = Some m' /\ forall b, is_Some (m !! b) -> is_Some (m' !! b).
Proof.
  intros H. destruct (store8_mapped m a v (H a ltac:(lia))) as (m0 & E0 & D0). destruct w; cbn [store]; [by exists m0|..].
  all: unfold store32; rewrite E0; cbn [mbind option_bind].
  all: destruct (store8_mapped m0 (a + 1) (v / 256) ltac:(apply D0, H; lia)) as (m1 & E1 & D1).
  - exists m1. split; [done|]. auto.
  - rewrite E1. cbn [mbind option_bind]. destruct (store8_mapped m1 (a + 2) (v / 65536) ltac:(apply D1, D0, H; lia)) as (m2 & E2 & D2). rewrite E2. cbn [mbind option_bind].
    destruct (store8_mapped m2 (a + 3) (v / 16777216) ltac:(apply D2, D1, D0, H; lia)) as (m3 & E3 & D3). rewrite E3. exists m3. split; [done|]. auto.
Qed.

(** The value of an arithmetic expression exists and is one of its width. *)
Definition value_ok (m : mem) (w : width) (r : option (Z * mem)) : Prop :=
  exists v m', r = Some (v, m') /\ 0 <= v < bits w /\ forall b, is_Some (m !! b) -> is_Some (m' !! b).

Lemma total_op_some o w x y : total_op o = true -> exists r, apply_op w o x y = Some r /\ 0 <= r < bits w.
Proof.
  intros H. unfold apply_op. pose proof (Z.mod_pos_bound) as Hm. pose proof (bits_pos w).
  destruct o; try done; cbn [c_op mbind option_bind]; eexists; (split; [done|]); apply Hm; done.
Qed.
Lemma update_ok u w m a : mapped m a 4 -> exists v r m', update u w a m = Some (v, r, m') /\ 0 <= v < bits w /\ 0 <= r < bits w /\
  forall b, is_Some (m !! b) -> is_Some (m' !! b).
Proof.
  intros H. unfold update. destruct (load_mapped w m a H) as [v Ev]. rewrite Ev. cbn [mbind option_bind].
  destruct (total_op_some (updown_op u) w v 1) as (r & Er & Hr); [by destruct u|]. rewrite Er. cbn [mbind option_bind].
  destruct (store_mapped w m a r H) as (m' & Es & Hd). rewrite Es. cbn [mbind option_bind]. eexists _, _, _. split; [done|].
  split; [apply Z.mod_pos_bound, bits_pos|done].
Qed.
Lemma arithmetic_value e : arithmetic e = true -> forall m, Forall (place_mapped m) (places e) -> value_ok m (width_of e) (eval call m e).
Proof.
  assert (Hk : forall v (w : width) (m : mem), value_ok m w (Some (v mod bits w, m))) by (intros v w m; exists (v mod bits w), m; split; [done|split; [apply Z.mod_pos_bound, bits_pos|done]]).
  induction e; cbn [arithmetic places]; intros Ha m Hp; try done; cbn [FinshCompiler.eval FinshCompiler.width_of].
  - apply (Hk c Byte).
  - apply (Hk z Dword).
  - apply (Hk z Dword).
  - apply (Hk p Dword).
  - apply (Hk 0 Dword).
  - apply list.Forall_cons in Hp as [Hp _]. destruct (load_mapped (place_width x) m _ Hp) as [v ->]. apply Hk.
  - rewrite !andb_true_iff in Ha. destruct Ha as [[Ho Ha] Hb]. apply Forall_app in Hp as [Hpa Hpb].
    destruct (IHe1 Ha m Hpa) as (x & m1 & -> & _ & D1). cbn [mbind option_bind].
    destruct (IHe2 Hb m1) as (y & m2 & -> & _ & D2). { eapply list.Forall_impl; [exact Hpb|]. intros q Hq b Hb'. auto. }
    cbn [mbind option_bind]. destruct (total_op_some o (op_width e1) x y Ho) as (r & -> & Hr). exists r, m2. split; [done|]. split; [done|auto].
  - destruct (IHe Ha m Hp) as (x & m1 & -> & _ & D1). eexists _, _. split; [done|]. split; [apply Z.mod_pos_bound, bits_pos|done].
  - apply list.Forall_cons in Hp as [Hx Hp]. destruct (IHe Ha m Hp) as (y & m1 & -> & _ & D1). cbn [mbind option_bind].
    destruct (store_mapped (place_width x) m1 (u32 (place_addr x)) y) as (m2 & -> & D2). { intros b Hb. auto. }
    eexists _, _. split; [done|]. split; [apply Z.mod_pos_bound, bits_pos|auto].
  - apply list.Forall_cons in Hp as [Hp _]. destruct (update_ok u (place_width (p_var i)) m (u32 (var_value i)) Hp) as (v & r & m' & -> & _ & Hr & D). cbn [mbind option_bind].
    destruct (load_mapped Dword m' (u32 (var_value i))) as [q ->]. { intros b Hb. apply D, Hp, Hb. } by exists r, m'.
  - apply list.Forall_cons in Hp as [Hp _]. destruct (update_ok u (place_width (p_var i)) m (u32 (var_value i)) Hp) as (v & r & m' & -> & Hv & _ & D). by exists v, m'.
  - apply (Hk (place_addr x) Dword).
Qed.

(** The code of an expression is longer than its stack is deep: what fits into the text segment
    fits into the stack. *)
Lemma depth_code : (forall e, 2 * depth e <= Z.of_nat (length (code e))) /\ (forall es, 2 * depth_args es <= Z.of_nat (length (code_args es))).
Proof.
  apply expr_exprs_ind; intros; try (cbn; lia).
  all: repeat match goal with H : 2 * depth ?a <= _ |- _ => lazymatch goal with _ : 1 <= depth a |- _ => fail | _ => pose proof (proj1 depth_pos a) end end.
  - cbn [FinshCompiler.code depth]. rewrite !length_app. cbn [length]. lia.
  - cbn [FinshCompiler.code depth]. rewrite !length_app. cbn [length]. lia.
  - cbn [FinshCompiler.code depth]. rewrite !length_app. cbn [length FinshCompiler.code_address le]. lia.
  - cbn [FinshCompiler.code depth]. rewrite !length_app. cbn [length]. lia.
  - cbn [FinshCompiler.code depth]. rewrite !length_app. cbn [length]. lia.
  - change (code (ECall f args)) with ((FINSH_OP_LD Dword :: le Dword (sc_func f)) ++ code_args args ++ [FINSH_OP_SYSCALL; Z.of_nat (length_exprs args)]).
    rewrite !length_app. cbn [length depth le]. lia.
  - change (code_args (ECons e es)) with (code e ++ code_args es). rewrite length_app. cbn [depth_args]. lia.
Qed.
Lemma depth_statements es : (length (code_statements es) <= 128)%nat -> Forall (fun e => depth e <= 64) es.
Proof.
  induction es as [|e es IH]; intros H; [done|]. cbn [code_statements] in H. rewrite !length_app in H. pose proof (proj1 depth_code e).
  apply list.Forall_cons. split; [lia|]. apply IH. lia.
Qed.

Lemma statements_value es : es <> [] -> forallb arithmetic es = true -> forall m, Forall (fun e => Forall (place_mapped m) (places e)) es ->
  value_ok m (last_width es) (eval_statements m es).
Proof.
  intros Hne Ha. induction es as [|e es IH]; [done|]. intros m Hp. cbn in Ha. apply andb_true_iff in Ha as [Ha Has]. apply list.Forall_cons in Hp as [Hp Hps].
  pose proof (arithmetic_value e Ha m Hp) as Hv. destruct es as [|e' es]; [done|].
  change (eval_statements m (e :: e' :: es)) with (eval call m e ≫= (fun p => eval_statements p.2 (e' :: es))).
  change (last_width (e :: e' :: es)) with (last_width (e' :: es)). destruct Hv as (x & m1 & -> & _ & D). cbn [mbind option_bind snd].
  destruct (IH ltac:(done) Has m1) as (v & m2 & -> & Hv & D2).
  { eapply list.Forall_impl; [exact Hps|]. intros q Hq. eapply list.Forall_impl; [exact Hq|]. intros p Hm b Hb. auto. }
  exists v, m2. split; [done|]. split; [done|auto].
Qed.
End Exec.
End Language.

(** ** The theorems *)

(** The compiler and the machine: a line of well-typed statements whose code fits into the
    text segment is compiled without an error, and the machine, running it, halts with the value
    of the last statement, as the evaluator gives it, at the bottom of its stack and with the
    evaluator's memory; it fails when the evaluator has no value (a division by zero, an access
    to memory that is not there, a function that does not return). Code that does not fit is
    written beyond the segment. *)
Lemma line_correct global_variable variables call es s :
  es <> [] -> forallb (well_typed global_variable) es = true -> length (f_stack s) = 64%nat -> length (f_text s) = 128%nat ->
  if (length (code_statements global_variable variables es) <=? 128)%nat then
    exists s1, finsh_compiler_run global_variable variables (statements es) s = Some s1 /\ f_errno s1 = f_errno s /\
      match eval_statements global_variable variables call (f_mem s) es with
      | Some (v, m) => exists s2 z, finsh_vm_run call s1 = Halted s2 /\ slot s2 0 = Some z /\
          z mod bits (last_width global_variable es) = v /\ f_mem s2 = m /\ f_errno s2 = f_errno s /\
          length (f_text s2) = 128%nat /\ length (f_stack s2) = 64%nat
      | None => finsh_vm_run call s1 = Fault
      end
  else finsh_compiler_run global_variable variables (statements es) s = None.
Proof.
  intros Hne Hw Hl Ht. rewrite (compiler_run _ _ es s Hw Ht). destruct (Nat.leb_spec (length (code_statements global_variable variables es)) 128) as [Hn|Hn]; [|done].
  eexists. split; [reflexivity|]. split; [done|].
  match goal with |- match _ with Some _ => _ | None => finsh_vm_run call ?s' = _ end =>
    pose proof (line_run global_variable variables call s' es Hne Hw (depth_statements _ _ _ Hn) ltac:(cbn; by rewrite length_insert) eq_refl Hn) as Hrun end.
  cbn [f_mem set_f_cpc set_f_text set_f_stack] in Hrun. destruct (eval_statements _ _ _ _ _) as [[v m]|]; [|exact Hrun].
  destruct Hrun as (s2 & z & E & Hz & Hm & Hmem & He & Htx & Hst). exists s2, z. repeat (split; [done|]). split; [|done].
  rewrite Htx. cbn. rewrite length_app, length_replicate. lia.
Qed.

(** C19. Typing: well-typed statements without pointers, calls, divisions and shifts, whose
    variables are in the memory and whose code fits into the 128 bytes of the text segment, do not
    fail: the machine halts, and the value it leaves is one of the width of the last statement; no
    memory goes away. Longer code does fail: nothing keeps the compiler inside of the segment
    ([finsh_text_overrun]). *)
Theorem finsh_typed_safe global_variable variables call es s :
  es <> [] -> forallb (well_typed global_variable) es = true -> forallb arithmetic es = true ->
  Forall (fun e => Forall (place_mapped variables (f_mem s)) (places e)) es ->
  length (f_stack s) = 64%nat -> length (f_text s) = 128%nat -> (length (code_statements global_variable variables es) <= 128)%nat ->
  exists s1 s2 v z, finsh_compiler_run global_variable variables (statements es) s = Some s1 /\ finsh_vm_run call s1 = Halted s2 /\
    eval_statements global_variable variables call (f_mem s) es = Some (v, f_mem s2) /\ 0 <= v < bits (last_width global_variable es) /\
    slot s2 0 = Some z /\ z mod bits (last_width global_variable es) = v /\ forall a, is_Some (f_mem s !! a) -> is_Some (f_mem s2 !! a).
Proof.
  intros Hne Hw Ha Hp Hl Ht Hn. destruct (statements_value global_variable variables call es Hne Ha (f_mem s) Hp) as (v & m & Ev & Hv & Hd).
  eexists. rewrite (compiler_run _ _ es s Hw Ht). destruct (Nat.leb_spec (length (code_statements global_variable variables es)) 128); [|lia].
  match goal with |- exists s2 v z, Some ?s' = Some _ /\ _ =>
    pose proof (line_run global_variable variables call s' es Hne Hw (depth_statements _ _ _ Hn) ltac:(cbn; by rewrite length_insert) eq_refl Hn) as Hrun end.
  cbn [f_mem set_f_cpc set_f_text set_f_stack] in Hrun. rewrite Ev in Hrun. destruct Hrun as (s2 & z & E & Hz & Hm & Hmem & _).
  exists s2, v, z. split; [reflexivity|]. split; [exact E|]. rewrite Hmem. done.
Qed.

(** The machine stops whatever is in its text segment: its program counter only goes up. *)
Lemma finsh_vm_run_ends call s : finsh_vm_run call s <> Running.
Proof. apply vm_loop_ends; [lia|cbn; unfold FINSH_TEXT_MAX; lia]. Qed.

(** ** Examples

    Variables [int x], [char c], [char *p] and [void *q] at address 4096, and a stack that holds
    what an earlier line has left. *)
Definition vars4 : list finsh_var := [Var [120] finsh_type_int; Var [99] finsh_type_char; Var [112] finsh_type_charp; Var [113] finsh_type_voidp].
Definition mem4 : mem := list_to_map (map (fun a => (a, 0)) (seqZ 4096 96)).
Definition finsh4 : finsh := Finsh (replicate 64 2863311530) 0 (replicate 128 0) 0 mem4 0 0.
Definition func5 : finsh_syscall := Syscall [102] 32768 512.
(** A function that returns its first argument. *)
Definition first_arg (f : Z) (vs : list Z) (m : mem) : option (Z * mem) := match vs with v :: _ => Some (v, m) | [] => None end.
(** The bottom of the stack behind a line, [None] when the line is not compiled or fails. *)
Definition bottom (t : tree) (s : finsh) : option Z :=
  s1 ← finsh_compiler_run vars4 4096 t s;
  match finsh_vm_run first_arg s1 with Halted s2 => slot s2 0 | _ => None end.

(** [x = 5; x++ + x * 2] *)
Definition line1 : list expr := [EAssign (p_var 0) (EInt 5); EBin Add (EPost Up 0) (EBin Mul (EId (p_var 0)) (EInt 2))].

Lemma finsh_typed_safe_witness :
  exists s1 s2 v z, finsh_compiler_run vars4 4096 (statements line1) finsh4 = Some s1 /\ finsh_vm_run first_arg s1 = Halted s2 /\
    0 <= v < 4294967296 /\ slot s2 0 = Some z.
Proof.
  destruct (finsh_typed_safe vars4 4096 first_arg line1 finsh4) as (s1 & s2 & v & z & E1 & E2 & _ & Hv & Hz & _).
  - discriminate.
  - reflexivity.
  - reflexivity.
  - assert (H : forall i, (i < 4)%nat -> place_mapped 4096 mem4 (p_var i)).
    { intros i Hi a Ha. unfold place_addr, var_value in Ha. rewrite u32_id in Ha by lia. unfold mem4. apply not_eq_None_Some. intros E%not_elem_of_list_to_map_2.
      apply E. apply list_elem_of_fmap. exists (a, 0). split; [done|]. apply list_elem_of_In, in_map_iff. exists a. split; [done|]. apply list_elem_of_In, elem_of_seqZ. lia. }
    repeat constructor; apply H; lia.
  - reflexivity.
  - reflexivity.
  - vm_compute. lia.
  - exists s1, s2, v, z. exact (conj E1 (conj E2 (conj Hv Hz))).
Defined.

(** [f(1) + 1], where [f] returns its argument, is 1: no addition is made. *)
Example finsh_call_not_added : bottom (statements [EBin Add (ECall func5 (ECons (EInt 1) ENil)) (EInt 1)]) finsh4 = Some 1.
Proof. vm_compute. reflexivity. Qed.
(** [f('A')] passes the upper bytes of what the slot held before. *)
Example finsh_char_argument : bottom (statements [ECall func5 (ECons (EChar 65) ENil)]) finsh4 = Some 0xAAAAAA41.
Proof. vm_compute. reflexivity. Qed.
(** [c = 'A'] leaves the upper bytes of the address of [c] above the value. *)
Example finsh_char_assigned : bottom (statements [EAssign (p_var 1) (EChar 65)]) finsh4 = Some 0x1041.
Proof. vm_compute. reflexivity. Qed.
(** [p = &c; c = 'A'; *p] loads four bytes through a pointer to one; here the next one is 1. *)
Example finsh_char_pointer :
  bottom (statements [EAssign (p_var 2) (EAddr (p_var 1)); EAssign (p_var 1) (EChar 65); EDeref (EId (p_var 2))])
    (set_f_mem (<[4096 + 24 + 21 := 1]> mem4) finsh4) = Some 0x0141.
Proof. vm_compute. reflexivity. Qed.
(** [q = 0] with a [void *]: no address is loaded, the machine stores below its stack. *)
Example finsh_void_pointer : bottom (statements [EAssign (p_var 3) (EInt 0)]) finsh4 = None.
Proof. vm_compute. reflexivity. Qed.
(** Six statements [x++]: 12 nodes, a line of 24 characters, and 143 bytes of code. *)
Example finsh_text_overrun : finsh_compiler_run vars4 4096 (statements (replicate 6 (EPost Up 0))) finsh4 = None /\
  length (code_statements vars4 4096 (replicate 6 (EPost Up 0))) = 143%nat.
Proof. split; vm_compute; reflexivity. Qed.
(** [++v] with a variable of the firmware: what is 20 bytes behind its entry in the table of
    symbols, plus one, is stored to it. *)
Definition sysvar5 : finsh_sysvar := Sysvar [118] finsh_type_int 4096 4100.
Example finsh_sysvar_incremented :
  match finsh_compiler_run vars4 4096 (T (leaf FINSH_NODE_SYS_PREINC 0) (T (id_node (p_sys sysvar5)) NULL NULL) NULL)
          (set_f_mem (<[4096 := 7]> (<[4120 := 99]> mem4)) finsh4) with
  | Some s1 => match finsh_vm_run first_arg s1 with Halted s2 => f_mem s2 !! 4096 | _ => None end
  | None => None
  end = Some 100.
Proof. vm_compute. reflexivity. Qed.
