(* ===== verification/FinshToken.v ===== *)
(** * The tokens of the FinSH shell
      (src/components/finsh/finsh_token.c and finsh_token.h)

    The scanner: it reads a line character by character and makes tokens of it.  The theorem
    says that it gives back the tokens of a line that was printed with blanks between them. *)
From S2P Require Import Prelude.

Inductive finsh_token_type :=
| finsh_token_type_none
| finsh_token_type_left_paren
| finsh_token_type_right_paren
| finsh_token_type_comma
| finsh_token_type_semicolon
| finsh_token_type_mul
| finsh_token_type_add
| finsh_token_type_inc
| finsh_token_type_sub
| finsh_token_type_dec
| finsh_token_type_div
| finsh_token_type_mod
| finsh_token_type_assign
| finsh_token_type_and
| finsh_token_type_or
| finsh_token_type_xor
| finsh_token_type_bitwise
| finsh_token_type_shl
| finsh_token_type_shr
| finsh_token_type_void
| finsh_token_type_char
| finsh_token_type_short
| finsh_token_type_int
| finsh_token_type_long
| finsh_token_type_unsigned
| finsh_token_type_value_char
| finsh_token_type_value_int
| finsh_token_type_value_long
| finsh_token_type_value_string
| finsh_token_type_value_null
| finsh_token_type_identifier
| finsh_token_type_bad
| finsh_token_type_eof.
#[export] Instance finsh_token_type_eq_dec : EqDecision finsh_token_type.
Proof. solve_decision. Defined.

Definition FINSH_ERROR_EXPECT_CHAR : Z := 9.
Definition FINSH_ERROR_UNEXPECT_END : Z := 10.
Definition FINSH_ERROR_UNKNOWN_TOKEN : Z := 11.
Definition FINSH_STRING_MAX : Z := 128.

(** [struct finsh_token], with [global_errno].  [tk_value] is the bit pattern of the union,
    [tk_line] the line without the zero behind it. *)
Record finsh_token := Token {
  tk_eof : bool; tk_replay : bool; tk_position : Z; tk_current : finsh_token_type;
  tk_value : Z; tk_string : list Z; tk_line : list Z; tk_errno : Z }.
Definition set_tk_eof (b : bool) (t : finsh_token) : finsh_token := Token b (tk_replay t) (tk_position t) (tk_current t) (tk_value t) (tk_string t) (tk_line t) (tk_errno t).
Definition set_tk_replay (b : bool) (t : finsh_token) : finsh_token := Token (tk_eof t) b (tk_position t) (tk_current t) (tk_value t) (tk_string t) (tk_line t) (tk_errno t).
Definition set_tk_position (p : Z) (t : finsh_token) : finsh_token := Token (tk_eof t) (tk_replay t) p (tk_current t) (tk_value t) (tk_string t) (tk_line t) (tk_errno t).
Definition set_tk_current (c : finsh_token_type) (t : finsh_token) : finsh_token := Token (tk_eof t) (tk_replay t) (tk_position t) c (tk_value t) (tk_string t) (tk_line t) (tk_errno t).
Definition set_tk_value (v : Z) (t : finsh_token) : finsh_token := Token (tk_eof t) (tk_replay t) (tk_position t) (tk_current t) v (tk_string t) (tk_line t) (tk_errno t).
Definition set_tk_string (s : list Z) (t : finsh_token) : finsh_token := Token (tk_eof t) (tk_replay t) (tk_position t) (tk_current t) (tk_value t) s (tk_line t) (tk_errno t).
Definition set_tk_errno (e : Z) (t : finsh_token) : finsh_token := Token (tk_eof t) (tk_replay t) (tk_position t) (tk_current t) (tk_value t) (tk_string t) (tk_line t) e.

(** ** Characters *)

Definition is_digit (ch : Z) : bool := (48 <=? ch) && (ch <=? 57).
(** [((ch | 0x20) - 'a') < 26u]: a comparison of unsigned numbers. *)
Definition is_alpha (ch : Z) : bool := u32 (Z.lor ch 32 - 97) <? 26.
Definition is_separator (ch : Z) : bool :=
  negb (((97 <=? ch) && (ch <=? 122)) || ((65 <=? ch) && (ch <=? 90)) || ((48 <=? ch) && (ch <=? 57)) || (ch =? 95)).

(** The character at [p], the zero at the end included. *)
Definition char_at (t : finsh_token) (p : Z) : Z := default 0 (tk_line t !! Z.to_nat p).

Definition token_next_char (t : finsh_token) : Z * finsh_token :=
  if tk_eof t then (0, t)
  else if (tk_position t =? Z.of_nat (length (tk_line t))) || (char_at t (tk_position t) =? 10) then
    (0, set_tk_position 0 (set_tk_eof true t))
  else (char_at t (tk_position t), set_tk_position (tk_position t + 1) t).
Definition token_prev_char (t : finsh_token) : finsh_token :=
  if tk_eof t then t
  else if tk_position t =? 0 then t
  else set_tk_position (tk_position t - 1) t.

(** A loop that reads characters as long as [p] holds for them, and handles each with [f]: the
    character that ends it and what [f] has made.  [fuel] bounds its turns. *)
Fixpoint read_while {A} (fuel : nat) (p : Z -> finsh_token -> bool) (f : A -> Z -> option A) (a : A) (ch : Z) (t : finsh_token) : option (A * Z * finsh_token) :=
  if p ch t then
    match fuel with
    | O => None
    | S fuel => a ← f a ch; let '(ch, t) := token_next_char t in read_while fuel p f a ch t
    end
  else Some (a, ch, t).
(** Every turn reads a character of the line. *)
Definition turns (t : finsh_token) : nat := S (length (tk_line t)).

(** [while ((ch = token_next_char(self)) == ' ' || ...)]. *)
Definition is_space (ch : Z) : bool := (ch =? 32) || (ch =? 9) || (ch =? 13).
Definition token_trim_space (t : finsh_token) : option finsh_token :=
  let '(ch, t) := token_next_char t in
  r ← read_while (turns t) (fun ch _ => is_space ch) (fun _ _ => Some tt) tt ch t;
  Some (token_prev_char r.2).

(** [*p++ = ch] in the buffer of 128 bytes. *)
Definition put_string (q : list Z * nat) (ch : Z) : option (list Z * nat) :=
  if (q.2 <? 128)%nat then Some (<[q.2 := ch]> q.1, S q.2) else None.
Definition end_string (q : list Z * nat) : option (list Z) :=
  if (q.2 <? 128)%nat then Some (<[q.2 := 0]> q.1) else None.

(** A word at the place: it is stored in [string], which becomes empty when there is none. *)
Definition token_get_string (t : finsh_token) : option finsh_token :=
  let '(ch, t) := token_next_char t in
  if tk_eof t then Some t
  else
    let t := set_tk_string (<[0%nat := 0]> (tk_string t)) t in
    if is_digit ch then Some (token_prev_char t)
    else
      r ← read_while (turns t) (fun ch t => negb (is_separator ch) && negb (tk_eof t)) put_string (tk_string t, O) ch t;
      let '(q, _, t) := r in
      let t := token_prev_char (set_tk_eof false t) in
      s ← end_string q;
      Some (set_tk_string s t).

(** ** Literals *)

(** The number behind a backslash and an [x], or of octal digits, in a string. *)
Definition token_proc_escape (t : finsh_token) : option (Z * finsh_token) :=
  let '(ch, t) := token_next_char t in
  if ch =? 110 then Some (10, t)
  else if ch =? 116 then Some (9, t)
  else if ch =? 118 then Some (11, t)
  else if ch =? 98 then Some (8, t)
  else if ch =? 114 then Some (13, t)
  else if ch =? 102 then Some (12, t)
  else if ch =? 97 then Some (7, t)
  else if ch =? 120 then
    let '(ch, t) := token_next_char t in
    r ← read_while (turns t) (fun ch _ => u32 (ch - 48) <? 16) (fun result ch => Some (result * 16 + ch - 48)) 0 ch t;
    let '(result, _, t) := r in Some (u8 result, token_prev_char t)
  else if u32 (ch - 48) <? 8 then
    r ← read_while (turns t) (fun ch _ => u32 (ch - 48) <? 8) (fun result ch => Some (result * 8 + ch - 48)) 0 ch t;
    let '(result, _, t) := r in Some (u8 result, token_prev_char t)
  else Some (0, t).

(** A character literal.  The digits of an octal escape are skipped, at most three of them fit
    into [buf]; [atoi] is given the empty string behind them and is 0. *)
Definition token_proc_char (t : finsh_token) : option (Z * finsh_token) :=
  let '(ch, t) := token_next_char t in
  r ← (if ch =? 92 then
         let '(ch, t) := token_next_char t in
         if ch =? 110 then Some (10, t)
         else if ch =? 116 then Some (9, t)
         else if ch =? 118 then Some (11, t)
         else if ch =? 98 then Some (8, t)
         else if ch =? 114 then Some (13, t)
         else if ch =? 92 then Some (92, t)
         else if ch =? 39 then Some (39, t)
         else
           r ← read_while (turns t) (fun ch _ => is_digit ch) (fun n _ => if (n <? 3)%nat then Some (S n) else None) O ch t;
           let '(_, _, t) := r in Some (0, token_prev_char t)
       else Some (ch, t));
  let '(ch, t) := r in
  let '(q, t) := token_next_char t in
  Some (ch, if negb (q =? 39) then set_tk_errno FINSH_ERROR_EXPECT_CHAR (token_prev_char t) else t).

(** A string literal, into the buffer of 128 bytes; what is too long stays there without a zero. *)
Fixpoint proc_string_loop (fuel : nat) (q : list Z * nat) (t : finsh_token) : option finsh_token :=
  if (q.2 <? 128)%nat then
    match fuel with
    | O => None
    | S fuel =>
        let '(ch, t) := token_next_char t in
        if tk_eof t then Some (set_tk_errno FINSH_ERROR_UNEXPECT_END (set_tk_string q.1 t))
        else if ch =? 92 then
          r ← token_proc_escape t; let '(ch, t) := r in
          q ← put_string q ch; proc_string_loop fuel q t
        else if ch =? 34 then Some (set_tk_string (<[q.2 := 0]> q.1) t)
        else q ← put_string q ch; proc_string_loop fuel q t
    end
  else Some (set_tk_string q.1 t).
Definition token_proc_string (t : finsh_token) : option finsh_token := proc_string_loop 129 (tk_string t, O) t.

(** The digits of [string] in a base that is a power of two; of the two words of [bn] the lower
    one is the result. *)
Definition bn_step (shift : Z) (bn : Z * Z) (ch : Z) : Z * Z :=
  let t := if (97 <=? ch) && (ch <=? 102) then ch - 97 + 10
           else if (65 <=? ch) && (ch <=? 70) then ch - 65 + 10
           else ch - 48 in
  let v0 := bn.1 in
  let t1 := Z.shiftr v0 (32 - shift) in
  let v1 := bn.2 in
  (u32 (Z.lor (u32 (Z.shiftl v0 shift)) (u32 t)), u32 (Z.lor (u32 (Z.shiftl v1 shift)) t1)).
Definition token_spec_number (string : list Z) (b : Z) : Z :=
  let shift := if b =? 16 then 4 else if b =? 8 then 3 else 1 in
  (foldl (bn_step shift) (0, 0) string).1.

(** [*p++ = ch] in [char buf[128]], which needs room for a zero. *)
Definition put_buf (buf : list Z) (ch : Z) : option (list Z) :=
  if (length buf <? 127)%nat then Some (buf ++ [ch]) else None.

(** (0|0x|0X|0b|0B)number+(l|L).  The value is a [long]: above its range the language leaves the
    result open, and the model wraps around, as the code of the compilers for ARM does. *)
Definition token_proc_number (t : finsh_token) : option finsh_token :=
  let '(ch, t) := token_next_char t in
  r ← (if ch =? 48 then
         let '(ch, t) := token_next_char t in
         r ← (if (ch =? 120) || (ch =? 88) then
                let '(ch, t) := token_next_char t in
                r ← read_while (turns t) (fun ch _ => is_digit ch || is_alpha ch) put_buf [] ch t; Some (16, r)
              else if (ch =? 98) || (ch =? 66) then
                let '(ch, t) := token_next_char t in
                r ← read_while (turns t) (fun ch _ => (ch =? 48) || (ch =? 49)) put_buf [] ch t; Some (2, r)
              else
                r ← read_while (turns t) (fun ch _ => is_digit ch) put_buf [] ch t; Some (8, r));
         let '(b, (buf, ch, t)) := r in Some (token_spec_number buf b, ch, t)
       else
         read_while (turns t) (fun ch _ => is_digit ch) (fun value ch => Some (u32 (value * 10 + (ch - 48)))) 0 ch t);
  let '(value, ch, t) := r in
  let t := set_tk_current finsh_token_type_value_int (set_tk_value value t) in
  Some (if (ch =? 108) || (ch =? 76) then set_tk_current finsh_token_type_value_long t else token_prev_char t).

(** ** Tokens *)

Definition finsh_name_table : list (list Z * finsh_token_type) :=
  [ ([118; 111; 105; 100], finsh_token_type_void);
    ([99; 104; 97; 114], finsh_token_type_char);
    ([115; 104; 111; 114; 116], finsh_token_type_short);
    ([105; 110; 116], finsh_token_type_int);
    ([108; 111; 110; 103], finsh_token_type_long);
    ([117; 110; 115; 105; 103; 110; 101; 100], finsh_token_type_unsigned);
    ([78; 85; 76; 76], finsh_token_type_value_null);
    ([110; 117; 108; 108], finsh_token_type_value_null) ].
Fixpoint match_name (table : list (list Z * finsh_token_type)) (str : list Z) : option finsh_token_type :=
  match table with
  | [] => None
  | (name, type) :: table => if bool_decide (name = str) then Some type else match_name table str
  end.
Definition token_match_name (str : list Z) : option finsh_token_type := match_name finsh_name_table str.

(** An operator whose character may be followed by the same one. *)
Definition token_double (c : Z) (double single : finsh_token_type) (t : finsh_token) : finsh_token :=
  let '(ch, t) := token_next_char t in
  if ch =? c then set_tk_current double t else set_tk_current single (token_prev_char t).

Definition token_operator (t : finsh_token) : option finsh_token :=
  let '(ch, t) := token_next_char t in
  if ch =? 40 then Some (set_tk_current finsh_token_type_left_paren t)
  else if ch =? 41 then Some (set_tk_current finsh_token_type_right_paren t)
  else if ch =? 44 then Some (set_tk_current finsh_token_type_comma t)
  else if ch =? 59 then Some (set_tk_current finsh_token_type_semicolon t)
  else if ch =? 38 then Some (set_tk_current finsh_token_type_and t)
  else if ch =? 42 then Some (set_tk_current finsh_token_type_mul t)
  else if ch =? 43 then Some (token_double 43 finsh_token_type_inc finsh_token_type_add t)
  else if ch =? 45 then Some (token_double 45 finsh_token_type_dec finsh_token_type_sub t)
  else if ch =? 47 then Some (token_double 47 finsh_token_type_eof finsh_token_type_div t)
  else if ch =? 60 then Some (token_double 60 finsh_token_type_shl finsh_token_type_bad t)
  else if ch =? 62 then Some (token_double 62 finsh_token_type_shr finsh_token_type_bad t)
  else if ch =? 124 then Some (set_tk_current finsh_token_type_or t)
  else if ch =? 37 then Some (set_tk_current finsh_token_type_mod t)
  else if ch =? 126 then Some (set_tk_current finsh_token_type_bitwise t)
  else if ch =? 94 then Some (set_tk_current finsh_token_type_xor t)
  else if ch =? 61 then Some (set_tk_current finsh_token_type_assign t)
  else if ch =? 39 then
    r ← token_proc_char t; let '(c, t) := r in
    Some (set_tk_current finsh_token_type_value_char (set_tk_value (tk_value t - tk_value t mod 256 + u8 c) t))
  else if ch =? 34 then
    t ← token_proc_string t; Some (set_tk_current finsh_token_type_value_string t)
  else if is_digit ch then token_proc_number (token_prev_char t)
  else Some (set_tk_current finsh_token_type_bad (set_tk_errno FINSH_ERROR_UNKNOWN_TOKEN t)).

Definition token_run (t : finsh_token) : option finsh_token :=
  t ← token_trim_space t;
  t ← token_get_string t;
  if tk_eof t then Some (set_tk_current finsh_token_type_eof t)
  else
    match tk_string t with
    | 0 :: _ => token_operator t
    | _ =>
        match token_match_name (cstring (tk_string t)) with
        | Some type => Some (set_tk_current type t)
        | None => Some (set_tk_current finsh_token_type_identifier t)
        end
    end.

Definition finsh_token_init (line : list Z) (errno : Z) : finsh_token :=
  Token false false 0 finsh_token_type_none 0 (replicate (Z.to_nat FINSH_STRING_MAX) 0) (cstring line) errno.
Definition finsh_token_token (t : finsh_token) : option (finsh_token_type * finsh_token) :=
  t ← (if tk_replay t then Some (set_tk_replay false t) else token_run t);
  Some (tk_current t, t).

(** ** Lines that are printed *)

Inductive tok :=
| KId (name : list Z)
| KInt (z : Z)
| KLong (z : Z)
| KChar (c : Z)
| KOp (t : finsh_token_type).

(** Decimal digits. *)
Fixpoint decimal_digits (fuel : nat) (n : Z) : list Z :=
  match fuel with
  | O => []
  | S f => if n <? 10 then [48 + n] else decimal_digits f (n / 10) ++ [48 + n mod 10]
  end.
Definition decimal (n : Z) : list Z := decimal_digits 10 n.

(** Operators and keywords. *)
Definition op_text (t : finsh_token_type) : option (list Z) :=
  match t with
  | finsh_token_type_left_paren => Some [40]
  | finsh_token_type_right_paren => Some [41]
  | finsh_token_type_comma => Some [44]
  | finsh_token_type_semicolon => Some [59]
  | finsh_token_type_mul => Some [42]
  | finsh_token_type_add => Some [43]
  | finsh_token_type_inc => Some [43; 43]
  | finsh_token_type_sub => Some [45]
  | finsh_token_type_dec => Some [45; 45]
  | finsh_token_type_div => Some [47]
  | finsh_token_type_mod => Some [37]
  | finsh_token_type_assign => Some [61]
  | finsh_token_type_and => Some [38]
  | finsh_token_type_or => Some [124]
  | finsh_token_type_xor => Some [94]
  | finsh_token_type_bitwise => Some [126]
  | finsh_token_type_shl => Some [60; 60]
  | finsh_token_type_shr => Some [62; 62]
  | finsh_token_type_void => Some [118; 111; 105; 100]
  | finsh_token_type_char => Some [99; 104; 97; 114]
  | finsh_token_type_short => Some [115; 104; 111; 114; 116]
  | finsh_token_type_int => Some [105; 110; 116]
  | finsh_token_type_long => Some [108; 111; 110; 103]
  | finsh_token_type_unsigned => Some [117; 110; 115; 105; 103; 110; 101; 100]
  | finsh_token_type_value_null => Some [78; 85; 76; 76]
  | _ => None
  end.
Definition tok_text (k : tok) : list Z :=
  match k with
  | KId name => name
  | KInt z => decimal z
  | KLong z => decimal z ++ [76]
  | KChar c => [39; c; 39]
  | KOp t => default [] (op_text t)
  end.
Definition tok_type (k : tok) : finsh_token_type :=
  match k with
  | KId _ => finsh_token_type_identifier
  | KInt _ => finsh_token_type_value_int
  | KLong _ => finsh_token_type_value_long
  | KChar _ => finsh_token_type_value_char
  | KOp t => t
  end.
(** What the parser reads besides the type. *)
Definition tok_payload (k : tok) (t : finsh_token) : Prop :=
  match k with
  | KId name => cstring (tk_string t) = name /\ (length name < 128)%nat
  | KInt z | KLong z => tk_value t = z
  | KChar c => u8 (tk_value t) = c
  | KOp _ => True
  end.

Definition word_char (c : Z) : bool := negb (is_separator c).
Definition tok_ok (k : tok) : bool :=
  match k with
  | KId name =>
      forallb word_char name && negb (match name with [] => true | c :: _ => is_digit c end) &&
      (length name <? 128)%nat && bool_decide (token_match_name name = None)
  | KInt z | KLong z => (0 <=? z) && (z <? 4294967296)
  | KChar c => (0 <? c) && (c <? 256) && negb (c =? 10) && negb (c =? 92)
  | KOp t => bool_decide (is_Some (op_text t))
  end.

(** The tokens with a blank behind each of them. *)
Fixpoint print_line (ks : list tok) : list Z :=
  match ks with [] => [] | k :: ks => tok_text k ++ 32 :: print_line ks end.

(** The scanner gives the tokens [ks], and no error. *)
Fixpoint delivers (t : finsh_token) (ks : list tok) : Prop :=
  match ks with
  | [] => exists t1, finsh_token_token t = Some (finsh_token_type_eof, t1) /\ tk_errno t1 = tk_errno t
  | k :: ks => exists t1, finsh_token_token t = Some (tok_type k, t1) /\ tok_payload k t1 /\ tk_errno t1 = tk_errno t /\
      tk_replay t1 = false /\ tk_current t1 = tok_type k /\ delivers t1 ks
  end.

(** ** Reading characters *)

(** The scanner stands behind [pre] and before [rest]. *)
Record at_place (t : finsh_token) (pre rest : list Z) : Prop := {
  ap_eof : tk_eof t = false;
  ap_line : tk_line t = pre ++ rest;
  ap_position : tk_position t = Z.of_nat (length pre) }.
Definition move (p : list Z) (t : finsh_token) : finsh_token := set_tk_position (Z.of_nat (length p)) t.

Lemma move_id t pre rest : at_place t pre rest -> move pre t = t.
Proof. intros [_ _ H]. unfold move. rewrite <-H. by destruct t. Qed.
Lemma at_move t pre rest pre' rest' : at_place t pre rest -> pre ++ rest = pre' ++ rest' -> at_place (move pre' t) pre' rest'.
Proof. intros [] E. split; [done| |done]. cbn. by rewrite <-E. Qed.

Lemma next_char t pre c rest : at_place t pre (c :: rest) -> c <> 10 -> token_next_char t = (c, move (pre ++ [c]) t).
Proof.
  intros [He Hl Hp] Hc. unfold token_next_char, char_at. rewrite He, Hp, Hl, length_app, Nat2Z.id. cbn [length].
  destruct (Z.eqb_spec (Z.of_nat (length pre)) (Z.of_nat (length pre + S (length rest)))); [lia|]. cbn [orb].
  rewrite list_lookup_middle by done. change (default 0 (Some c)) with c. destruct (Z.eqb_spec c 10); [done|]. unfold move. do 2 f_equal. rewrite length_app. cbn [length]. lia.
Qed.
Lemma prev_char t pre c rest : at_place t (pre ++ [c]) rest -> token_prev_char t = move pre t.
Proof.
  intros [He Hl Hp]. unfold token_prev_char. rewrite He, Hp, length_app. cbn [length]. destruct (Z.eqb_spec (Z.of_nat (length pre + 1)) 0); [lia|].
  unfold move. f_equal. lia.
Qed.
Lemma at_next t pre c rest : at_place t pre (c :: rest) -> at_place (move (pre ++ [c]) t) (pre ++ [c]) rest.
Proof. intros H. eapply at_move; [exact H|]. by rewrite <-app_assoc. Qed.
Lemma move_move p q t : move p (move q t) = move p t.
Proof. done. Qed.

Fixpoint fold_option {A} (f : A -> Z -> option A) (a : A) (l : list Z) : option A :=
  match l with [] => Some a | c :: l => a ← f a c; fold_option f a l end.

Lemma read_while_run {A} (p : Z -> finsh_token -> bool) (f : A -> Z -> option A) c rest : c <> 10 ->
  forall w fuel a a' ch t pre, at_place t pre (w ++ c :: rest) -> Forall (fun x => x <> 10) w ->
  Forall (fun x => forall q, tk_eof q = false -> p x q = true) (ch :: w) -> (forall q, tk_eof q = false -> p c q = false) ->
  (length w < fuel)%nat -> fold_option f a (ch :: w) = Some a' ->
  read_while fuel p f a ch t = Some (a', c, move (pre ++ w ++ [c]) t).
Proof.
  intros Hc. induction w as [|x w IH]; intros fuel a a' ch t pre H Hw Hp Hpc Hf Ha; (destruct fuel as [|fuel]; [lia|]); apply list.Forall_cons in Hp as [Hch Hp];
    cbn [read_while fold_option] in *; rewrite (Hch t (ap_eof _ _ _ H)); destruct (f a ch) as [a1|] eqn:E; try done; cbn [mbind option_bind] in *.
  - injection Ha as <-. rewrite (next_char t pre c rest H Hc). destruct fuel; cbn [read_while]; rewrite Hpc by apply H; done.
  - apply list.Forall_cons in Hw as [Hx Hw]. cbn [app] in H. rewrite (next_char t pre x _ H Hx). pose proof (at_next _ _ _ _ H) as H1.
    rewrite (IH fuel a1 a' x (move (pre ++ [x]) t) (pre ++ [x]) H1 Hw Hp Hpc ltac:(cbn in Hf; lia) Ha). by rewrite <-app_assoc.
Qed.
Lemma read_while_none {A} fuel (p : Z -> finsh_token -> bool) (f : A -> Z -> option A) a ch t : p ch t = false -> read_while fuel p f a ch t = Some (a, ch, t).
Proof. intros H. destruct fuel; cbn; by rewrite H. Qed.

(** ** Blanks and words *)

Definition nonblank (c : Z) : Prop := c <> 10 /\ is_space c = false.

(** Blanks before a token are skipped. *)
Lemma trim_run t pre sp c rest : at_place t pre (sp ++ c :: rest) -> sp = [] \/ sp = [32] -> nonblank c ->
  token_trim_space t = Some (move (pre ++ sp) t) /\ at_place (move (pre ++ sp) t) (pre ++ sp) (c :: rest).
Proof.
  intros H Hsp [Hc Hs]. assert (Hat : at_place (move (pre ++ sp) t) (pre ++ sp) (c :: rest)) by (eapply at_move; [exact H|by rewrite <-app_assoc]).
  split; [|done]. unfold token_trim_space. destruct Hsp as [-> | ->].
  - cbn [app] in H. rewrite (next_char t pre c rest H Hc). rewrite read_while_none by done. cbn [mbind option_bind snd].
    rewrite (prev_char _ pre c rest (at_next _ _ _ _ H)). by rewrite app_nil_r.
  - cbn [app] in H. rewrite (next_char t pre 32 _ H) by done.
    rewrite (read_while_run _ _ c rest Hc [] _ tt tt 32 (move (pre ++ [32]) t) (pre ++ [32])); [|exact (at_next _ _ _ _ H)|done|by repeat constructor|done|unfold turns; cbn; lia|done].
    cbn [mbind option_bind snd app]. rewrite move_move.
    rewrite (prev_char _ (pre ++ [32]) c rest); [by rewrite move_move|]. rewrite <-(move_move _ (pre ++ [32]) t). apply at_next. by apply (at_next _ _ _ _ H).
Qed.

(** A word is stored. *)
Lemma put_string_fold w : forall a r b, (length a + length w < 128)%nat -> length r = length w ->
  fold_option put_string (a ++ r ++ b, length a) w = Some (a ++ w ++ b, (length a + length w)%nat).
Proof.
  induction w as [|c w IH]; intros a r b H Hr; (destruct r as [|x r]; [try done|try done]); cbn [fold_option length app].
  - by rewrite Nat.add_0_r.
  - unfold put_string at 2. cbn [fst snd]. cbn [length] in H. destruct (Nat.ltb_spec (length a) 128); [|lia]. cbn [mbind option_bind].
    rewrite insert_app_r_alt, Nat.sub_diag by lia. cbn [list_insert insert].
    replace (S (length a)) with (length (a ++ [c])) by (rewrite length_app; cbn; lia).
    replace (a ++ c :: r ++ b) with ((a ++ [c]) ++ r ++ b) by (by rewrite <-app_assoc).
    rewrite IH by (rewrite ?length_app; cbn in *; lia). rewrite <-!app_assoc, length_app. cbn [app length]. do 2 f_equal. lia.
Qed.

Lemma cstring_word w l : Forall (fun c => c <> 0) w -> cstring (w ++ 0 :: l) = w.
Proof. induction 1 as [|c w Hc _ IH]; [done|]. cbn. destruct (Z.eqb_spec c 0); [done|]. by rewrite IH. Qed.

Lemma word_char_not c : word_char c = true -> c <> 10 /\ c <> 0 /\ is_space c = false.
Proof. unfold word_char, is_separator, is_space. lia. Qed.

(** There is no word at the place: [string] becomes empty. *)
Lemma get_string_none t pre c rest : at_place t pre (c :: rest) -> c <> 10 -> length (tk_string t) = 128%nat -> word_char c = false \/ is_digit c = true ->
  exists s, length s = 127%nat /\ token_get_string t = Some (set_tk_string (0 :: s) t).
Proof.
  intros H Hc Hl Hw. destruct (tk_string t) as [|b0 s] eqn:Es; [done|]. exists s. split; [cbn in Hl; lia|].
  unfold token_get_string. rewrite (next_char t pre c rest H Hc). pose proof (at_next _ _ _ _ H) as H1. rewrite (ap_eof _ _ _ H1).
  change (tk_string (move (pre ++ [c]) t)) with (tk_string t). rewrite Es. cbn [list_insert insert].
  set (t1 := set_tk_string (0 :: s) (move (pre ++ [c]) t)). assert (Ht1 : at_place t1 (pre ++ [c]) rest) by (destruct H1; by split).
  assert (Eprev : token_prev_char t1 = set_tk_string (0 :: s) t).
  { rewrite (prev_char _ pre c rest Ht1). unfold t1, move, set_tk_string, set_tk_position. cbn. destruct H as [_ _ Hp]. rewrite <-Hp. done. }
  destruct (is_digit c) eqn:Ed; [by rewrite Eprev|]. destruct Hw as [Hw|Hw]; [|done].
  rewrite read_while_none by (unfold word_char in Hw; by rewrite Hw). cbn [mbind option_bind].
  assert (Ee : set_tk_eof false t1 = t1) by (rewrite <-(ap_eof _ _ _ Ht1); by destruct t1). rewrite Ee, Eprev. done.
Qed.

Lemma get_string_word t pre w c rest : at_place t pre (w ++ c :: rest) -> c <> 10 -> word_char c = false -> length (tk_string t) = 128%nat ->
  w <> [] -> forallb word_char w = true -> match w with x :: _ => is_digit x = false | [] => True end -> (length w < 128)%nat ->
  exists s, length s = 128%nat /\ cstring s = w /\ (exists x l, s = x :: l /\ x <> 0) /\
    token_get_string t = Some (set_tk_string s (move (pre ++ w) t)).
Proof.
  intros H Hc Hcw Hl Hne Hw Hd Hlw. destruct w as [|x w]; [done|]. rewrite forallb_forall in Hw.
  assert (Hall : forall y, y ∈ x :: w -> word_char y = true /\ y <> 10 /\ y <> 0).
  { intros y Hy. specialize (Hw y ltac:(by apply list_elem_of_In)). pose proof (word_char_not y Hw) as (? & ? & _). done. }
  destruct (Hall x ltac:(left)) as (Hxw & Hx10 & Hx0). cbn [app] in H.
  unfold token_get_string. rewrite (next_char t pre x _ H Hx10). pose proof (at_next _ _ _ _ H) as H1. rewrite (ap_eof _ _ _ H1). rewrite Hd.
  change (tk_string (move (pre ++ [x]) t)) with (tk_string t). set (buf := <[0%nat := 0]> (tk_string t)).
  assert (Hlb : length buf = 128%nat) by (unfold buf; by rewrite length_insert).
  set (t1 := set_tk_string buf (move (pre ++ [x]) t)). assert (Ht1 : at_place t1 (pre ++ [x]) (w ++ c :: rest)) by (destruct H1; by split).
  change (tk_string t1) with buf.
  set (n := length (x :: w)) in *. pose proof (put_string_fold (x :: w) [] (take n buf) (drop n buf) ltac:(cbn in *; lia) ltac:(rewrite length_take; unfold n in *; lia)) as Hfold.
  cbn [app length] in Hfold. rewrite take_drop in Hfold.
  rewrite (read_while_run _ put_string c rest Hc w _ (buf, O) (x :: w ++ drop n buf, (0 + S (length w))%nat) x t1 (pre ++ [x]) Ht1); [| | | | |exact Hfold].
  2:{ rewrite list.Forall_forall. intros y Hy. by apply (Hall y); right. }
  2:{ rewrite list.Forall_forall. intros y Hy q Hq. destruct (Hall y Hy) as (Hyw & _). unfold word_char in Hyw. by rewrite Hq, Hyw. }
  2:{ intros q Hq. unfold word_char in Hcw. by rewrite Hcw. }
  2:{ unfold turns. rewrite (ap_line _ _ _ Ht1), !length_app. lia. }
  cbn [mbind option_bind]. unfold end_string. cbn [fst snd]. destruct (Nat.ltb_spec (0 + S (length w)) 128) as [_|Hn]; [|unfold n in *; cbn in *; lia]. cbn [mbind option_bind].
  assert (Hcut : exists l, <[(0 + S (length w))%nat := 0]> (x :: w ++ drop n buf) = (x :: w) ++ 0 :: l /\ length ((x :: w) ++ 0 :: l) = 128%nat).
  { destruct (drop n buf) as [|y l] eqn:E; [apply (f_equal length) in E; rewrite length_drop in E; cbn [length] in E; lia|]. exists l.
    change (x :: w ++ y :: l) with ((x :: w) ++ y :: l). rewrite insert_app_r_alt by (cbn; lia). cbn [length Nat.add]. rewrite Nat.sub_diag. split; [done|].
    apply (f_equal length) in E. rewrite length_drop in E. rewrite length_app. cbn [length] in *. unfold n in *. cbn [length] in *. lia. }
  destruct Hcut as (l & -> & Hlen). exists ((x :: w) ++ 0 :: l). split; [done|]. split.
  { apply cstring_word. rewrite list.Forall_forall. intros y Hy. by apply (Hall y). }
  split; [by exists x, (w ++ 0 :: l)|]. f_equal. set (t2 := move _ t1).
  assert (Ht2 : at_place t2 ((pre ++ x :: w) ++ [c]) rest).
  { rewrite <-app_assoc. unfold t2. replace ((pre ++ [x]) ++ w ++ [c]) with (pre ++ (x :: w) ++ [c]) by (by rewrite <-app_assoc). eapply at_move; [exact Ht1|]. by rewrite <-!app_assoc. }
  assert (Ee : set_tk_eof false t2 = t2) by (rewrite <-(ap_eof _ _ _ Ht2); by destruct t2). rewrite Ee. rewrite (prev_char _ _ _ _ Ht2). done.
Qed.

(** ** Numbers *)

Definition dec_value (v : Z) (ds : list Z) : Z := foldl (fun v ch => v * 10 + (ch - 48)) v ds.

Lemma decimal_digits_ok fuel : forall n, 0 <= n < 10 ^ Z.of_nat fuel ->
  forallb is_digit (decimal_digits fuel n) = true /\ dec_value 0 (decimal_digits fuel n) = n /\
  (0 < n -> exists c ds, decimal_digits fuel n = c :: ds /\ c <> 48).
Proof.
  induction fuel as [|f IH]; intros n Hn; [cbn in Hn; assert (n = 0) as -> by lia; done|].
  rewrite Nat2Z.inj_succ, Z.pow_succ_r in Hn by lia. cbn [decimal_digits]. destruct (Z.ltb_spec n 10) as [H|H].
  - split; [cbn; unfold is_digit; lia|]. split; [unfold dec_value; cbn [foldl]; lia|]. intros Hp. exists (48 + n), []. split; [done|lia].
  - destruct (IH (n / 10)) as (H1 & H2 & H3); [Z.div_mod_to_equations; lia|]. split; [|split].
    + rewrite forallb_app, H1. cbn. unfold is_digit. Z.div_mod_to_equations; lia.
    + unfold dec_value in *. rewrite foldl_app, H2. cbn [foldl]. Z.div_mod_to_equations; lia.
    + intros _. destruct H3 as (c & ds & -> & Hc); [Z.div_mod_to_equations; lia|]. by exists c, (ds ++ [48 + n mod 10]).
Qed.

Lemma dec_value_fold ds : forall v, fold_option (fun value ch => Some (u32 (value * 10 + (ch - 48)))) (u32 v) ds = Some (u32 (dec_value v ds)).
Proof.
  induction ds as [|d ds IH]; intros v; [done|]. cbn [fold_option mbind option_bind]. unfold dec_value. cbn [foldl].
  replace (u32 (u32 v * 10 + (d - 48))) with (u32 (v * 10 + (d - 48))) by (unfold u32; Z.div_mod_to_equations; lia). apply IH.
Qed.

(** A number, behind its first digits; [c] is the character behind it. *)
Lemma number_run t pre z c rest : at_place t pre (decimal z ++ c :: rest) -> 0 <= z < 4294967296 -> c = 32 \/ c = 76 ->
  token_proc_number t = Some (if c =? 76 then set_tk_current finsh_token_type_value_long (set_tk_current finsh_token_type_value_int (set_tk_value z (move (pre ++ decimal z ++ [c]) t)))
                              else token_prev_char (set_tk_current finsh_token_type_value_int (set_tk_value z (move (pre ++ decimal z ++ [c]) t)))).
Proof.
  intros H Hz Hc. assert (Hc10 : c <> 10) by lia. assert (Hcd : is_digit c = false) by (destruct Hc as [-> | ->]; done).
  unfold token_proc_number. destruct (decimal_digits_ok 10 z) as (Hd & Hv & Hh); [change (10 ^ Z.of_nat 10) with 10000000000; lia|]. fold (decimal z) in *.
  destruct (Z.eq_dec z 0) as [->|Hz0].
  - change (decimal 0) with [48] in *. cbn [app] in H. rewrite (next_char t pre 48 _ H) by done. pose proof (at_next _ _ _ _ H) as H1.
    change (48 =? 48) with true. cbv iota. rewrite (next_char _ _ c rest H1 Hc10). rewrite move_move.
    destruct ((c =? 120) || (c =? 88)) eqn:E1; [lia|]. destruct ((c =? 98) || (c =? 66)) eqn:E2; [lia|].
    rewrite read_while_none by done. cbn [mbind option_bind]. change (token_spec_number [] 8) with 0.
    rewrite <-app_assoc. destruct Hc as [-> | ->]; done.
  - destruct Hh as (d & ds & E & Hd48); [lia|]. rewrite E in *. cbn [app] in H. rewrite forallb_forall in Hd.
    assert (Hdig : forall y, y ∈ d :: ds -> is_digit y = true) by (intros y Hy; apply Hd; by apply list_elem_of_In).
    assert (Hd10 : d <> 10) by (pose proof (Hdig d ltac:(left)) as Hx; unfold is_digit in Hx; lia).
    rewrite (next_char t pre d _ H Hd10). pose proof (at_next _ _ _ _ H) as H1. destruct (Z.eqb_spec d 48); [done|].
    rewrite (read_while_run _ _ c rest Hc10 ds _ 0 z d _ (pre ++ [d]) H1).
    + cbn [mbind option_bind]. rewrite move_move, <-app_assoc. cbn [app]. destruct Hc as [-> | ->]; done.
    + rewrite list.Forall_forall. intros y Hy. pose proof (Hdig y ltac:(by right)) as Hx. unfold is_digit in Hx. lia.
    + rewrite list.Forall_forall. intros y Hy q _. by apply Hdig.
    + done.
    + unfold turns. cbn. rewrite (ap_line _ _ _ H), length_app. cbn [length]. rewrite length_app. lia.
    + pose proof (dec_value_fold (d :: ds) 0) as Hf. rewrite Hv, (u32_id z Hz) in Hf. exact Hf.
Qed.

(** ** Tokens *)

(** The scanner behind a token: its fields, and its place before the blank. *)
Definition scanned (t : finsh_token) (k : tok) (rest : list Z) (t1 : finsh_token) : Prop :=
  tk_current t1 = tok_type k /\ tok_payload k t1 /\ tk_errno t1 = tk_errno t /\ tk_replay t1 = tk_replay t /\
  length (tk_string t1) = 128%nat /\ exists pre, at_place t1 pre (32 :: rest).

Lemma at_fields t t1 pre rest : at_place t pre rest -> tk_eof t1 = tk_eof t -> tk_line t1 = tk_line t -> tk_position t1 = tk_position t -> at_place t1 pre rest.
Proof. intros [] H1 H2 H3. split; congruence. Qed.

Lemma double_run t pre c double single x rest : at_place t pre (x :: rest) -> x <> 10 ->
  token_double c double single t = if x =? c then set_tk_current double (move (pre ++ [x]) t) else set_tk_current single t.
Proof.
  intros H Hx. unfold token_double. rewrite (next_char t pre x rest H Hx). destruct (x =? c); [done|].
  rewrite (prev_char _ pre x rest (at_next _ _ _ _ H)), move_move. by rewrite (move_id t pre _ H).
Qed.

(** Operators: what is not a keyword. *)
Definition is_keyword (t : finsh_token_type) : bool := match op_text t with Some (c :: _) => word_char c | _ => false end.
Lemma op_run t pre k rest : at_place t pre (default [] (op_text k) ++ 32 :: rest) -> is_Some (op_text k) -> is_keyword k = false -> length (tk_string t) = 128%nat ->
  exists t1, token_operator t = Some t1 /\ scanned t (KOp k) rest t1.
Proof.
  intros H Ho Hk Hl. destruct k; try (by destruct Ho); try done; cbn [op_text default app] in H; unfold token_operator;
    rewrite (next_char t pre _ _ H) by done; pose proof (at_next _ _ _ _ H) as H1; cbn -[token_double].
  all: try (rewrite (double_run _ _ _ _ _ _ _ H1) by done; cbn -[move]).
  all: eexists; (split; [reflexivity|]); (split; [done|]); (split; [done|]); (split; [done|]); (split; [done|]); (split; [exact Hl|]).
  all: first [eexists; (eapply at_fields; [exact H1|done|done|done]) | eexists; (eapply at_fields; [exact (at_next _ _ _ _ H1)|done|done|done])].
Qed.

Lemma operator_digit t ch t' : token_next_char t = (ch, t') -> is_digit ch = true -> token_operator t = token_proc_number (token_prev_char t').
Proof.
  intros E Hd. unfold token_operator. rewrite E, Hd. unfold is_digit in Hd.
  repeat match goal with |- context [ch =? ?n] => destruct (Z.eqb_spec ch n); [lia|] end. done.
Qed.

Lemma char_run t pre c rest : at_place t pre ([39; c; 39] ++ 32 :: rest) -> tok_ok (KChar c) = true -> length (tk_string t) = 128%nat ->
  exists t1, token_operator t = Some t1 /\ scanned t (KChar c) rest t1.
Proof.
  intros H Hok Hl. cbn [tok_ok] in Hok. cbn [app] in H. unfold token_operator. rewrite (next_char t pre 39 _ H) by done. pose proof (at_next _ _ _ _ H) as H1.
  change (39 =? 39) with true. cbn -[move token_proc_char]. unfold token_proc_char.
  rewrite (next_char _ _ c _ H1) by lia. pose proof (at_next _ _ _ _ H1) as H2. destruct (Z.eqb_spec c 92); [lia|]. cbn [mbind option_bind].
  rewrite (next_char _ _ 39 _ H2) by done. pose proof (at_next _ _ _ _ H2) as H3. change (negb (39 =? 39)) with false. cbv iota beta.
  eexists. split; [reflexivity|]. split; [done|]. split; [|split; [done|split; [done|split; [exact Hl|eexists; eapply at_fields; [exact H3|done|done|done]]]]].
  cbn. unfold u8. Z.div_mod_to_equations; lia.
Qed.

Lemma literal_run t pre z c rest k : at_place t pre (decimal z ++ c) -> tok_ok k = true -> length (tk_string t) = 128%nat ->
  k = KInt z /\ c = 32 :: rest \/ k = KLong z /\ c = 76 :: 32 :: rest ->
  exists t1, token_operator t = Some t1 /\ scanned t k rest t1.
Proof.
  intros H Hok Hl Hk. assert (Hz : 0 <= z < 4294967296) by (destruct Hk as [[-> _]|[-> _]]; cbn [tok_ok] in Hok; lia).
  destruct (decimal_digits_ok 10 z) as (Hd & _ & Hh); [change (10 ^ Z.of_nat 10) with 10000000000; lia|]. fold (decimal z) in *.
  assert (Hhead : exists d ds, decimal z = d :: ds /\ is_digit d = true).
  { destruct (decimal z) as [|d ds] eqn:E; [|exists d, ds; split; [done|cbn in Hd; by apply andb_true_iff in Hd as [? _]]].
    exfalso. destruct (Z.eq_dec z 0) as [->|Hn]; [done|]. destruct Hh as (? & ? & ? & _); [lia|done]. }
  destruct Hhead as (d & ds & E & Hdd). assert (Hat : at_place t pre (d :: ds ++ c)) by (by rewrite E in H).
  assert (Hd10 : d <> 10) by (unfold is_digit in Hdd; lia).
  rewrite (operator_digit t d _ (next_char t pre d _ Hat Hd10) Hdd), (prev_char _ pre d _ (at_next _ _ _ _ Hat)), move_move, (move_id t pre _ H).
  destruct Hk as [[-> ->]|[-> ->]].
  - rewrite (number_run t pre z 32 rest H Hz) by auto. change (32 =? 76) with false. cbv iota. eexists. split; [reflexivity|].
    set (t2 := set_tk_current _ _). assert (H2 : at_place t2 ((pre ++ decimal z) ++ [32]) rest).
    { eapply at_fields; [eapply (at_move _ _ _ ((pre ++ decimal z) ++ [32]) rest H); by rewrite <-!app_assoc| | |]; try done. cbn. by rewrite <-app_assoc. }
    rewrite (prev_char _ _ _ _ H2). split; [done|]. split; [done|]. split; [done|]. split; [done|]. split; [exact Hl|]. eexists. eapply at_move; [exact H2|by rewrite <-!app_assoc].
  - rewrite (number_run t pre z 76 (32 :: rest) H Hz) by auto. change (76 =? 76) with true. cbv iota. eexists. split; [reflexivity|].
    split; [done|]. split; [done|]. split; [done|]. split; [done|]. split; [exact Hl|]. exists (pre ++ decimal z ++ [76]).
    eapply at_fields; [eapply (at_move _ _ _ (pre ++ decimal z ++ [76]) (32 :: rest) H); by rewrite <-!app_assoc| | |]; done.
Qed.

(** Words: names and keywords. *)
Lemma word_run t pre sp w rest k : at_place t pre (sp ++ w ++ 32 :: rest) -> sp = [] \/ sp = [32] -> length (tk_string t) = 128%nat -> w <> [] ->
  forallb word_char w = true -> match w with x :: _ => is_digit x = false | [] => True end -> (length w < 128)%nat ->
  default finsh_token_type_identifier (token_match_name w) = tok_type k -> (forall s, cstring s = w -> tok_payload k (set_tk_string s t)) ->
  (forall a b, tk_string a = tk_string b -> tok_payload k a -> tok_payload k b) ->
  exists t1, token_run t = Some t1 /\ scanned t k rest t1.
Proof.
  intros H Hsp Hl Hne Hw Hd Hlw Hty Hpay Hcong. destruct w as [|x w]; [done|].
  assert (Hx : word_char x = true) by (cbn in Hw; by apply andb_true_iff in Hw as [? _]). pose proof (word_char_not x Hx) as (Hx1 & Hx2 & Hx3).
  unfold token_run. destruct (trim_run t pre sp x (w ++ 32 :: rest) H Hsp (conj Hx1 Hx3)) as [-> H1]. cbn [mbind option_bind].
  destruct (get_string_word (move (pre ++ sp) t) (pre ++ sp) (x :: w) 32 rest H1 ltac:(done) ltac:(done) Hl ltac:(done) Hw Hd Hlw) as (s & Hs & Hc & (y & l & Es & Hy) & ->).
  cbn [mbind option_bind]. rewrite move_move. assert (H2 : at_place (move ((pre ++ sp) ++ x :: w) t) ((pre ++ sp) ++ x :: w) (32 :: rest)).
  { eapply at_move; [exact H|]. by rewrite <-!app_assoc. }
  set (t2 := set_tk_string s _). assert (Ee : tk_eof t2 = false) by apply H2. rewrite Ee. change (tk_string t2) with s. rewrite Hc.
  assert (E : match s with 0 :: _ => token_operator t2 | _ => match token_match_name (x :: w) with Some type => Some (set_tk_current type t2) | None => Some (set_tk_current finsh_token_type_identifier t2) end end =
    Some (set_tk_current (tok_type k) t2)).
  { rewrite Es. rewrite <-Hty. destruct (token_match_name (x :: w)); cbn [default]; by destruct y. }
  rewrite E. eexists. split; [reflexivity|]. split; [done|]. split; [by apply (Hcong (set_tk_string s t)); [done|apply Hpay]|].
  split; [done|]. split; [done|]. split; [exact Hs|]. eexists. eapply at_fields; [exact H2|done|done|done].
Qed.

(** What begins with a character of no word. *)
Lemma tok_other_run t pre sp c l k rest : at_place t pre (sp ++ c :: l) -> sp = [] \/ sp = [32] -> length (tk_string t) = 128%nat -> nonblank c ->
  word_char c = false \/ is_digit c = true ->
  (forall t' pre', at_place t' pre' (c :: l) -> length (tk_string t') = 128%nat -> exists t1, token_operator t' = Some t1 /\ scanned t' k rest t1) ->
  exists t1, token_run t = Some t1 /\ scanned t k rest t1.
Proof.
  intros H Hsp Hl Hc Hw Hop. unfold token_run. destruct (trim_run t pre sp c l H Hsp Hc) as [-> H1]. cbn [mbind option_bind].
  destruct (get_string_none (move (pre ++ sp) t) (pre ++ sp) c l H1 (proj1 Hc) Hl Hw) as (s & Hs & ->). cbn [mbind option_bind].
  set (t2 := set_tk_string (0 :: s) _). assert (Ee : tk_eof t2 = false) by apply H1. rewrite Ee. change (tk_string t2) with (0 :: s). cbv iota.
  destruct (Hop t2 (pre ++ sp)) as (t3 & E & Hsc); [eapply at_fields; [exact H1|done|done|done]|cbn; by rewrite Hs|]. exists t3. split; [done|].
  destruct Hsc as (? & ? & ? & ? & ? & ?). split; [done|]. done.
Qed.

Lemma tok_run t pre sp k rest : at_place t pre (sp ++ tok_text k ++ 32 :: rest) -> sp = [] \/ sp = [32] -> length (tk_string t) = 128%nat -> tok_ok k = true ->
  exists t1, token_run t = Some t1 /\ scanned t k rest t1.
Proof.
  intros H Hsp Hl Hok. destruct k as [name|z|z|c|o]; cbn [tok_text] in H.
  - cbn [tok_ok] in Hok. rewrite !andb_true_iff, negb_true_iff, bool_decide_eq_true, Nat.ltb_lt in Hok. destruct Hok as [[[Hw Hd] Hn] Hm].
    apply (word_run t pre sp name); try done.
    + by intros ->.
    + by destruct name.
    + by rewrite Hm.
    + intros a b E [Ha1 Ha2]. split; [by rewrite <-E|done].
  - destruct (decimal_digits_ok 10 z) as (Hd & _ & Hh); [cbn [tok_ok] in Hok; change (10 ^ Z.of_nat 10) with 10000000000; lia|]. fold (decimal z) in *.
    destruct (decimal z) as [|d ds] eqn:E.
    { exfalso. cbn [tok_ok] in Hok. destruct (Z.eq_dec z 0) as [->|Hn]; [done|]. destruct Hh as (? & ? & ? & _); [lia|done]. }
    cbn in Hd. apply andb_true_iff in Hd as [Hd _]. apply (tok_other_run t pre sp d (ds ++ 32 :: rest)); [exact H|done|done|unfold nonblank, is_space, is_digit in *; lia|by right|].
    intros t' pre' H' Hl'. apply (literal_run t' pre' z (32 :: rest) rest); [by rewrite E|done|done|by left].
  - rewrite <-app_assoc in H. destruct (decimal_digits_ok 10 z) as (Hd & _ & Hh); [cbn [tok_ok] in Hok; change (10 ^ Z.of_nat 10) with 10000000000; lia|]. fold (decimal z) in *.
    destruct (decimal z) as [|d ds] eqn:E.
    { exfalso. cbn [tok_ok] in Hok. destruct (Z.eq_dec z 0) as [->|Hn]; [done|]. destruct Hh as (? & ? & ? & _); [lia|done]. }
    cbn in Hd. apply andb_true_iff in Hd as [Hd _]. apply (tok_other_run t pre sp d (ds ++ 76 :: 32 :: rest)); [exact H|done|done|unfold nonblank, is_space, is_digit in *; lia|by right|].
    intros t' pre' H' Hl'. apply (literal_run t' pre' z (76 :: 32 :: rest) rest); [by rewrite E|done|done|by right].
  - apply (tok_other_run t pre sp 39 (c :: 39 :: 32 :: rest)); [exact H|done|done|done|by left|]. intros t' pre' H' Hl'. by apply (char_run t' pre').
  - cbn [tok_ok] in Hok. apply bool_decide_eq_true in Hok. destruct (is_keyword o) eqn:Ek.
    + destruct o; try (by destruct Hok); try done; apply (word_run t pre sp _ _ _ H); try done; cbn; lia.
    + destruct o; try (by destruct Hok); try done; cbn [op_text default app] in H;
        (eapply (tok_other_run t pre sp); [exact H|done|done|done|by left|]); intros t' pre' H' Hl'; by apply (op_run t' pre').
Qed.

Lemma eof_run t pre sp : at_place t pre sp -> sp = [] \/ sp = [32] -> exists t1, token_run t = Some t1 /\ tk_current t1 = finsh_token_type_eof /\ tk_errno t1 = tk_errno t.
Proof.
  intros H Hsp. assert (Hend : forall p, at_place p (pre ++ sp) [] -> token_next_char p = (0, set_tk_position 0 (set_tk_eof true p))).
  { intros p [He Hl Hp]. unfold token_next_char. rewrite He, Hl, Hp, app_nil_r, Z.eqb_refl. done. }
  unfold token_run, token_trim_space. destruct Hsp as [-> | ->].
  - rewrite (Hend t) by (by rewrite app_nil_r). rewrite read_while_none by done. cbn [mbind option_bind snd]. eexists. split; [reflexivity|done].
  - rewrite (next_char t pre 32 [] H) by done. pose proof (at_next _ _ _ _ H) as H1. unfold turns. cbn [read_while]. change (is_space 32) with true. cbv iota. cbn [mbind option_bind].
    rewrite (Hend _ H1). rewrite read_while_none by done. cbn [mbind option_bind snd]. eexists. split; [reflexivity|done].
Qed.

Lemma delivers_line ks : forallb tok_ok ks = true -> forall t pre sp, at_place t pre (sp ++ print_line ks) -> sp = [] \/ sp = [32] ->
  length (tk_string t) = 128%nat -> tk_replay t = false -> delivers t ks.
Proof.
  induction ks as [|k ks IH]; intros Hok t pre sp H Hsp Hl Hr; cbn [delivers print_line] in *.
  - rewrite app_nil_r in H. destruct (eof_run t pre sp H Hsp) as (t1 & E & Hc & He). unfold finsh_token_token. rewrite Hr, E. cbn [mbind option_bind]. rewrite Hc. by exists t1.
  - cbn in Hok. apply andb_true_iff in Hok as [Hk Hok]. destruct (tok_run t pre sp k (print_line ks) H Hsp Hl Hk) as (t1 & E & Hc & Hp & He & Hrep & Hl1 & pre1 & Hat).
    exists t1. unfold finsh_token_token. rewrite Hr, E. cbn [mbind option_bind]. rewrite Hc. split; [done|]. split; [done|]. split; [done|]. split; [congruence|].
    split; [done|]. apply (IH Hok t1 pre1 [32] Hat); [by right|done|congruence].
Qed.

Lemma print_line_cstring ks : forallb tok_ok ks = true -> cstring (print_line ks) = print_line ks.
Proof.
  assert (Happ : forall a b, Forall (fun c => c <> 0) a -> cstring (a ++ b) = a ++ cstring b).
  { intros a b Ha. induction Ha as [|c a Hc _ IH]; [done|]. cbn. destruct (Z.eqb_spec c 0); [done|]. by rewrite IH. }
  induction ks as [|k ks IH]; intros H; [done|]. cbn in H. apply andb_true_iff in H as [Hk H]. cbn [print_line]. rewrite Happ; [cbn; by rewrite IH|].
  assert (Hdec : forall z, 0 <= z < 4294967296 -> Forall (fun c => c <> 0) (decimal z)).
  { intros z Hz. destruct (decimal_digits_ok 10 z) as (Hd & _); [change (10 ^ Z.of_nat 10) with 10000000000; lia|]. rewrite forallb_forall in Hd.
    rewrite list.Forall_forall. intros c Hc. specialize (Hd c ltac:(by apply list_elem_of_In)). unfold is_digit in Hd. lia. }
  destruct k as [name|z|z|c|o]; cbn [tok_ok tok_text] in *.
  - rewrite !andb_true_iff in Hk. destruct Hk as [[[Hw _] _] _]. rewrite forallb_forall in Hw. rewrite list.Forall_forall. intros c Hc.
    apply list_elem_of_In in Hc. by destruct (word_char_not c (Hw c Hc)) as (_ & ? & _).
  - apply Hdec. lia.
  - apply Forall_app. split; [apply Hdec; lia|by repeat constructor].
  - repeat constructor; lia.
  - apply bool_decide_eq_true in Hk. destruct o; try (by destruct Hk); by repeat constructor.
Qed.

(** C34. The scanner gives back the tokens of a printed line: names that are no keywords, numbers
    below [2^32] with and without an [L], characters, operators and keywords, with blanks behind
    them; then it reports the end of the line. *)
Theorem finsh_token_roundtrip ks errno : forallb tok_ok ks = true -> delivers (finsh_token_init (print_line ks) errno) ks.
Proof.
  intros H. apply (delivers_line ks H _ [] []); [|by left|done|done]. split; [done|cbn; by apply print_line_cstring|done].
Qed.

(** [int x1 = 'A' + 70000L << 3 ;] *)
Definition toks9 : list tok :=
  [KOp finsh_token_type_int; KId [120; 49]; KOp finsh_token_type_assign; KChar 65; KOp finsh_token_type_add; KLong 70000;
   KOp finsh_token_type_shl; KInt 3; KOp finsh_token_type_semicolon].
Lemma finsh_token_roundtrip_witness : delivers (finsh_token_init (print_line toks9) 0) toks9.
Proof. apply (finsh_token_roundtrip toks9 0). vm_compute. reflexivity. Defined.

(** The character that follows a token: [n] tokens on. *)
Fixpoint scan (n : nat) (t : finsh_token) : option (finsh_token_type * finsh_token) :=
  match n with O => None | S O => finsh_token_token t | S n => r ← finsh_token_token t; scan n r.2 end.
(** A line that ends with a name starts again at its beginning. *)
Example finsh_token_restarts : fst <$> scan 3 (finsh_token_init [120] 0) = Some finsh_token_type_identifier.
Proof. vm_compute. reflexivity. Qed.
(** ['\113'], the letter K in octal, is the character 0. *)
Example finsh_octal_char : (fun r => (r.1, u8 (tk_value r.2))) <$> scan 1 (finsh_token_init [39; 92; 49; 49; 51; 39; 59] 0) = Some (finsh_token_type_value_char, 0).
Proof. vm_compute. reflexivity. Qed.
(** A backslash or a quotation mark behind a backslash is a zero in a string. *)
Example finsh_string_backslash :
  (fun r => take 4 (tk_string r.2)) <$> scan 1 (finsh_token_init [34; 97; 92; 92; 98; 34; 59] 0) = Some [97; 0; 98; 0].
Proof. vm_compute. reflexivity. Qed.
(** [0x1G] is a number: every letter is taken for a digit of base 16. *)
Example finsh_hex_letters : (fun r => (r.1, tk_value r.2)) <$> scan 1 (finsh_token_init [48; 120; 49; 71; 59] 0) = Some (finsh_token_type_value_int, 23).
Proof. vm_compute. reflexivity. Qed.
