(* ===== verification/FinshHeap.v ===== *)
(** * The heap of the FinSH shell (src/components/finsh/finsh_heap.c)

    String literals live in a heap of 128 bytes: blocks with a header of a length and a pointer,
    in a list of free blocks and a list of allocated ones, both in the order of the addresses.
    The definitions work on the bytes of the memory.  The abstract state is the list of blocks
    that the heap is divided into ([rep]); the operations on the lists are proved on chains of
    headers ([hdrs], [chain]), and the theorem says that an allocation is first fit on the
    blocks, behind a collection of what no variable points to when that is necessary.  The
    invariant holds that the last block is free: it is why [finsh_block_insert], which leaves the
    link of a block behind the last one as it was, never does so for the free list. *)
From stdpp Require Import sorting functions.
From S2P Require Import Prelude MemFunc FinshVm FinshCompiler.

Definition FINSH_HEAP_MAX : Z := 128.
Definition HEAP_ALIGNMENT : Z := 4.
Definition FINSH_VARIABLE_MAX : nat := 8.

(** [sizeof(struct finsh_block_header)], its fields, and the heads of the two lists. *)
Definition HEADER : Z := 8.
Definition block_length (m : mem) (h : Z) : option Z := load32 m h.
Definition block_next (m : mem) (h : Z) : option Z := load32 m (h + 4).
Definition set_block_length (m : mem) (h l : Z) : option mem := store32 m h l.
Definition set_block_next (m : mem) (h n : Z) : option mem := store32 m (h + 4) n.
Record fheap := Fheap { fh_mem : mem; free_list : Z; allocate_list : Z }.

Definition finsh_block_get_header (data : Z) : Z := data - HEADER.
Definition finsh_block_get_data (header : Z) : Z := header + HEADER.
Definition HEAP_ALIGN_SIZE (size : Z) : Z := Z.land (u32 (size + HEAP_ALIGNMENT - 1)) (u32 (Z.lnot (HEAP_ALIGNMENT - 1))).

(** The heap has room for 16 headers: the lists are not longer. *)
Definition walk : nat := 17.

(** ** Lists of blocks: the head of the list and the memory behind the operation *)

(** [for (node = *list; node; node = node->next)] with its two [break]s. *)
Fixpoint insert_point (fuel : nat) (m : mem) (node header : Z) : option Z :=
  match fuel with
  | O => None
  | S fuel =>
      next ← block_next m node;
      if header <? next then Some node
      else if next =? 0 then Some node
      else insert_point fuel m next header
  end.
Definition finsh_block_insert (m : mem) (list header : Z) : option (Z * mem) :=
  if list =? 0 then Some (header, m)
  else if header <? list then m ← set_block_next m header list; Some (header, m)
  else
    node ← insert_point walk m list header;
    next ← block_next m node;
    m ← (if negb (next =? 0) then set_block_next m header next else Some m);
    m ← set_block_next m node header;
    Some (list, m).

Fixpoint remove_from (fuel : nat) (m : mem) (node header : Z) : option mem :=
  if node =? 0 then Some m
  else
    match fuel with
    | O => None
    | S fuel =>
        next ← block_next m node;
        if next =? header then n ← block_next m header; set_block_next m node n
        else remove_from fuel m next header
    end.
Definition finsh_block_remove (m : mem) (list header : Z) : option (Z * mem) :=
  if list =? header then
    next ← block_next m header;
    m ← set_block_next m header 0;
    Some (next, m)
  else m ← remove_from walk m list header; Some (list, m).

Definition finsh_block_split (m : mem) (header size : Z) : option mem :=
  let next := header + HEADER + size in
  l ← block_length m header;
  m ← set_block_length m next (u32 (l - HEADER - size));
  m ← set_block_length m header size;
  n ← block_next m header;
  m ← set_block_next m next n;
  set_block_next m header next.

(** [for (prev_node = *list; prev_node; prev_node = prev_node->next)]. *)
Fixpoint find_prev (fuel : nat) (m : mem) (node header : Z) : option Z :=
  if node =? 0 then Some 0
  else
    match fuel with
    | O => None
    | S fuel =>
        next ← block_next m node;
        if next =? header then Some node else find_prev fuel m next header
    end.
(** The block [a] ends where [b] begins. *)
Definition close_to (m : mem) (a b : Z) : option bool :=
  l ← block_length m a; Some (u32 (a + l + HEADER) =? b).
Definition finsh_block_merge (m : mem) (list header : Z) : option mem :=
  next_node ← block_next m header;
  prev_node ← (if list =? header then Some 0 else find_prev walk m list header);
  close_prev ← (if prev_node =? 0 then Some false else close_to m prev_node header);
  close_next ← (if next_node =? 0 then Some false else close_to m header next_node);
  if (close_prev : bool) then
    lp ← block_length m prev_node; lh ← block_length m header;
    if (close_next : bool) then
      ln ← block_length m next_node; nn ← block_next m next_node;
      m ← set_block_length m prev_node (u32 (lp + (lh + ln + 2 * HEADER)));
      set_block_next m prev_node nn
    else
      m ← set_block_length m prev_node (u32 (lp + (lh + HEADER)));
      n ← block_next m header;
      set_block_next m prev_node n
  else if (close_next : bool) then
    lh ← block_length m header; ln ← block_length m next_node;
    m ← set_block_length m header (u32 (lh + (ln + HEADER)));
    nn ← block_next m next_node;
    set_block_next m header nn
  else Some m.

(** ** The operations *)

Definition finsh_heap_free (ptr : Z) (s : fheap) : option fheap :=
  let header := finsh_block_get_header ptr in
  r ← finsh_block_remove (fh_mem s) (allocate_list s) header; let '(alloc, m) := r in
  r ← finsh_block_insert m (free_list s) header; let '(free, m) := r in
  m ← finsh_block_merge m free header;
  Some (Fheap m free alloc).

(** The first block whose length is not refused by [small]. *)
Fixpoint first_fit (fuel : nat) (small : Z -> bool) (m : mem) (header : Z) : option Z :=
  if header =? 0 then Some 0
  else
    match fuel with
    | O => None
    | S fuel =>
        l ← block_length m header;
        if small l then n ← block_next m header; first_fit fuel small m n else Some header
    end.

Section Heap.
(** The heap, the table of variables and its address. *)
Context (finsh_heap : Z) (global_variable : list finsh_var) (variables : Z).

Definition finsh_heap_init (m : mem) : option fheap :=
  m ← set_bytes m finsh_heap (Z.to_nat FINSH_HEAP_MAX) 0;
  m ← set_block_length m finsh_heap (FINSH_HEAP_MAX - HEADER);
  m ← set_block_next m finsh_heap 0;
  Some (Fheap m finsh_heap 0).

(** The inner loop of the collector: a variable with a type has the address of the data. *)
Fixpoint pointed (m : mem) (vars : list finsh_var) (i : nat) (data : Z) : option bool :=
  match vars with
  | [] => Some false
  | v :: vars =>
      if bool_decide (fv_type v <> finsh_type_unknown) then
        p ← load32 m (var_value variables i);
        if p =? data then Some true else pointed m vars (S i) data
      else pointed m vars (S i) data
  end.
Fixpoint gc_loop (fuel : nat) (header : Z) (s : fheap) : option fheap :=
  if header =? 0 then Some s
  else
    match fuel with
    | O => None
    | S fuel =>
        used ← pointed (fh_mem s) global_variable 0 (finsh_block_get_data header);
        next ← block_next (fh_mem s) header;
        s ← (if (used : bool) then Some s else finsh_heap_free (finsh_block_get_data header) s);
        gc_loop fuel next s
    end.
Definition finsh_heap_gc (s : fheap) : option fheap := gc_loop walk (allocate_list s) s.

Definition finsh_heap_allocate (size : Z) (s : fheap) : option (Z * fheap) :=
  let size := HEAP_ALIGN_SIZE size in
  header ← first_fit walk (fun l => l <=? u32 (size + HEADER)) (fh_mem s) (free_list s);
  r ← (if header =? 0 then
         s ← finsh_heap_gc s;
         header ← first_fit walk (fun l => l <? u32 (size + HEADER)) (fh_mem s) (free_list s);
         Some (header, s)
       else Some (header, s));
  let '(header, s) := r in
  if header =? 0 then Some (0, s)
  else
    m ← finsh_block_split (fh_mem s) header size;
    r ← finsh_block_remove m (free_list s) header; let '(free, m) := r in
    m ← set_block_next m header 0;
    r ← finsh_block_insert m (allocate_list s) header; let '(alloc, m) := r in
    m ← set_bytes m (finsh_block_get_data header) (Z.to_nat size) 0;
    Some (finsh_block_get_data header, Fheap m free alloc).
End Heap.

(** ** Blocks

    The heap as what it is divided into: in the order of the addresses, the length of every block
    and whether it is allocated. *)
Notation block := (Z * bool)%type.
Fixpoint extent (bs : list block) : Z := match bs with [] => 0 | (l, _) :: bs => HEADER + l + extent bs end.
(** Address, length and state of the blocks of a heap at [a]. *)
Fixpoint layout (a : Z) (bs : list block) : list (Z * Z * bool) :=
  match bs with [] => [] | (l, u) :: bs => (a, l, u) :: layout (a + HEADER + l) bs end.
(** The addresses of the blocks of one state. *)
Fixpoint headers (used : bool) (a : Z) (bs : list block) : list Z :=
  match bs with
  | [] => []
  | (l, u) :: bs => if Bool.eqb u used then a :: headers used (a + HEADER + l) bs else headers used (a + HEADER + l) bs
  end.

(** No two free blocks are neighbours. *)
Fixpoint merged (bs : list block) : Prop :=
  match bs with
  | (_, false) :: ((_, false) :: _) => False
  | _ :: bs => merged bs
  | [] => True
  end.
(** A free block and the list behind it. *)
Definition join (l : Z) (bs : list block) : list block :=
  match bs with (l2, false) :: bs => (l + (l2 + HEADER), false) :: bs | _ => (l, false) :: bs end.
Fixpoint coalesce (bs : list block) : list block :=
  match bs with
  | [] => []
  | (l, true) :: bs => (l, true) :: coalesce bs
  | (l, false) :: bs => join l (coalesce bs)
  end.

(** The first free block that fits is split; the address of its data. *)
Fixpoint place_block (fits : Z -> bool) (size a : Z) (bs : list block) : option (Z * list block) :=
  match bs with
  | [] => None
  | (l, false) :: bs' => 
      if fits l then Some (finsh_block_get_data a, (size, true) :: (l - HEADER - size, false) :: bs')
      else '(p, r) ← place_block fits size (a + HEADER + l) bs'; Some (p, (l, false) :: r)
  | (l, true) :: bs' => '(p, r) ← place_block fits size (a + HEADER + l) bs'; Some (p, (l, true) :: r)
  end.
(** The allocated blocks whose data nothing points to become free. *)
Fixpoint sweep (live : Z -> bool) (a : Z) (bs : list block) : list block :=
  match bs with
  | [] => []
  | (l, u) :: bs => (l, u && live (finsh_block_get_data a)) :: sweep live (a + HEADER + l) bs
  end.
(** What [finsh_heap_allocate] promises: first fit, behind a collection when the heap is full; a
    block that is used up to its last byte is only taken behind the collection. *)
Definition allocate_spec (live : Z -> bool) (size a : Z) (bs : list block) : option Z * list block :=
  match place_block (fun l => size + HEADER <? l) size a bs with
  | Some (p, bs) => (Some p, bs)
  | None =>
      let bs := coalesce (sweep live a bs) in
      match place_block (fun l => size + HEADER <=? l) size a bs with
      | Some (p, bs) => (Some p, bs)
      | None => (None, bs)
      end
  end.

Lemma extent_app bs1 bs2 : extent (bs1 ++ bs2) = extent bs1 + extent bs2.
Proof. induction bs1 as [|[l u] bs1 IH]; cbn; [done|]. lia. Qed.
Lemma layout_app bs1 bs2 : forall a, layout a (bs1 ++ bs2) = layout a bs1 ++ layout (a + extent bs1) bs2.
Proof. induction bs1 as [|[l u] bs1 IH]; intros a; cbn; [by rewrite Z.add_0_r|]. rewrite IH. do 3 f_equal. lia. Qed.
Lemma headers_app v bs1 bs2 : forall a, headers v a (bs1 ++ bs2) = headers v a bs1 ++ headers v (a + extent bs1) bs2.
Proof.
  induction bs1 as [|[l u] bs1 IH]; intros a; cbn; [by rewrite Z.add_0_r|].
  rewrite IH. replace (a + HEADER + l + extent bs1) with (a + (HEADER + l + extent bs1)) by lia. by destruct (Bool.eqb u v).
Qed.

Definition lengths_ok (bs : list block) : Prop := Forall (fun b => 0 <= b.1) bs.
Lemma extent_pos bs : lengths_ok bs -> 0 <= extent bs.
Proof. unfold lengths_ok. induction 1 as [|[l u] bs H Hs IH]; cbn in *; unfold HEADER; lia. Qed.

(** Where a block of the layout is. *)
Lemma layout_in bs : forall a x l u, lengths_ok bs -> (x, l, u) ∈ layout a bs -> a <= x /\ 0 <= l /\ x + HEADER + l <= a + extent bs.
Proof.
  induction bs as [|[l0 u0] bs IH]; intros a x l u Hok Hin; cbn in *; [by apply elem_of_nil in Hin|].
  inversion_clear Hok as [|? ? H Hs]. cbn in H. pose proof (extent_pos bs Hs). unfold HEADER in *. apply elem_of_cons in Hin as [[= -> -> ->]|Hin]; [lia|].
  apply IH in Hin; [|done]. lia.
Qed.
Lemma layout_headers bs : forall a x u, x ∈ headers u a bs <-> exists l, (x, l, u) ∈ layout a bs.
Proof.
  induction bs as [|[l0 u0] bs IH]; intros a x u; cbn; [split; [intros []%elem_of_nil|by intros (? & []%elem_of_nil)]|].
  destruct (Bool.eqb u0 u) eqn:E.
  - apply Bool.eqb_prop in E as ->. rewrite elem_of_cons, IH. split.
    + intros [->|(l & H)]; [exists l0|exists l]; rewrite elem_of_cons; auto.
    + intros (l & H). apply elem_of_cons in H as [[= -> ->]|H]; [auto|right; by exists l].
  - apply Bool.eqb_false_iff in E. rewrite IH. split; intros (l & H); exists l; [rewrite elem_of_cons; auto|].
    apply elem_of_cons in H as [[= -> -> ->]|H]; done.
Qed.
Lemma headers_in bs a x u : lengths_ok bs -> x ∈ headers u a bs -> a <= x /\ x + HEADER <= a + extent bs.
Proof. intros Hok (l & H)%layout_headers. apply layout_in in H; [|done]. lia. Qed.

(** Two blocks of a heap do not overlap. *)
Lemma layout_apart bs : forall a x l u y k v, lengths_ok bs -> (x, l, u) ∈ layout a bs -> (y, k, v) ∈ layout a bs ->
  (x = y /\ l = k /\ u = v) \/ x + HEADER + l <= y \/ y + HEADER + k <= x.
Proof.
  induction bs as [|[l0 u0] bs IH]; intros a x l u y k v Hok Hx Hy; cbn in *; [by apply elem_of_nil in Hx|].
  inversion_clear Hok as [|? ? H Hs]. apply elem_of_cons in Hx as [[= -> -> ->]|Hx]; apply elem_of_cons in Hy as [[= -> -> ->]|Hy]; [by left| | |by eapply IH].
  - apply layout_in in Hy; [|done]. lia.
  - apply layout_in in Hx; [|done]. lia.
Qed.

(** ** Merging *)

Lemma join_app l bs1 bs2 : bs1 <> [] -> join l bs1 ++ bs2 = join l (bs1 ++ bs2).
Proof. by destruct bs1 as [|[k []] bs1]. Qed.
Lemma join_join l k bs : join l (join k bs) = join (l + (k + HEADER)) bs.
Proof. destruct bs as [|[j []] bs]; cbn; try done. do 2 f_equal. lia. Qed.
Lemma coalesce_used bs1 l bs2 : coalesce (bs1 ++ (l, true) :: bs2) = coalesce bs1 ++ (l, true) :: coalesce bs2.
Proof.
  induction bs1 as [|[k []] bs1 IH]; cbn; [done|by rewrite IH|]. rewrite IH. destruct (coalesce bs1) as [|[j []] r]; done.
Qed.
Lemma coalesce_join l bs : coalesce (join l bs) = join l (coalesce bs).
Proof. destruct bs as [|[k []] bs]; cbn; try done. by rewrite join_join. Qed.
Lemma coalesce_idem bs : coalesce (coalesce bs) = coalesce bs.
Proof. induction bs as [|[l []] bs IH]; cbn; [done|by rewrite IH|]. by rewrite coalesce_join, IH. Qed.
Lemma coalesce_app_r bs1 bs2 : coalesce (bs1 ++ coalesce bs2) = coalesce (bs1 ++ bs2).
Proof. induction bs1 as [|[l []] bs1 IH]; cbn; [apply coalesce_idem|by rewrite IH|by rewrite IH]. Qed.
Lemma coalesce_app_l bs1 bs2 : coalesce (coalesce bs1 ++ bs2) = coalesce (bs1 ++ bs2).
Proof.
  induction bs1 as [|[l []] bs1 IH]; cbn; [done|by rewrite IH|]. rewrite <-IH.
  destruct (coalesce bs1) as [|[k []] r]; cbn; try done. by rewrite join_join.
Qed.
Lemma extent_join l bs : extent (join l bs) = HEADER + l + extent bs.
Proof. destruct bs as [|[k []] bs]; cbn; lia. Qed.
Lemma extent_coalesce bs : extent (coalesce bs) = extent bs.
Proof. induction bs as [|[l []] bs IH]; cbn; [done|lia|]. rewrite extent_join. lia. Qed.
Lemma lengths_join l bs : 0 <= l -> lengths_ok bs -> lengths_ok (join l bs).
Proof.
  unfold lengths_ok. intros H Hs. destruct bs as [|[k []] bs]; cbn [join].
  - by apply Forall_singleton.
  - by constructor.
  - inversion_clear Hs as [|? ? Hk Hs']. cbn in Hk. constructor; [cbn; unfold HEADER; lia|done].
Qed.
Lemma lengths_coalesce bs : lengths_ok bs -> lengths_ok (coalesce bs).
Proof. unfold lengths_ok. induction 1 as [|[l []] bs H Hs IH]; cbn; [done|by constructor|by apply lengths_join]. Qed.
Lemma merged_join l bs : merged bs -> merged (join l bs).
Proof. destruct bs as [|[k []] bs]; [done..|]. by destruct bs as [|[j []] bs]. Qed.
Lemma merged_coalesce bs : merged (coalesce bs).
Proof. induction bs as [|[l []] bs IH]; cbn; [done..|by apply merged_join]. Qed.
Lemma merged_cons b bs : merged (b :: bs) -> merged bs.
Proof. destruct b as [l []], bs as [|[k []] bs]; cbn; done. Qed.
Lemma coalesce_merged bs : merged bs -> coalesce bs = bs.
Proof.
  induction bs as [|[l []] bs IH]; intros H; cbn; [done|rewrite IH by done; done|].
  rewrite IH by (by eapply merged_cons). by destruct bs as [|[k []] bs].
Qed.
(** The allocated blocks are where they were. *)
Lemma headers_join l bs a : headers true a (join l bs) = headers true (a + HEADER + l) bs.
Proof. destruct bs as [|[k []] bs]; cbn; try done. f_equal. lia. Qed.
Lemma headers_coalesce bs : forall a, headers true a (coalesce bs) = headers true a bs.
Proof. induction bs as [|[l []] bs IH]; intros a; cbn; [done|by rewrite IH|]. by rewrite headers_join, IH. Qed.
Lemma layout_join l bs a x k : (x, k, true) ∈ layout a (join l bs) <-> (x, k, true) ∈ layout (a + HEADER + l) bs.
Proof.
  destruct bs as [|[j []] bs]; cbn; rewrite ?elem_of_cons; [naive_solver..|].
  replace (a + HEADER + (l + (j + HEADER))) with (a + HEADER + l + HEADER + j) by lia. naive_solver.
Qed.
Lemma layout_coalesce bs : forall a x k, (x, k, true) ∈ layout a (coalesce bs) <-> (x, k, true) ∈ layout a bs.
Proof.
  induction bs as [|[l []] bs IH]; intros a x k; cbn; rewrite ?layout_join, ?elem_of_cons, ?IH; naive_solver.
Qed.
(** The last block is free. *)
Definition last_free (bs : list block) : Prop := exists bs' l, bs = bs' ++ [(l, false)].
Lemma join_last l bs bs' k : bs = bs' ++ [(k, false)] -> last_free (join l bs).
Proof.
  intros ->. destruct bs' as [|[j []] bs']; cbn.
  - by exists [], (l + (k + HEADER)).
  - by exists ((l, false) :: (j, true) :: bs'), k.
  - by exists ((l + (j + HEADER), false) :: bs'), k.
Qed.
Lemma last_free_cons b bs : bs <> [] -> last_free (b :: bs) -> last_free bs.
Proof. intros Hne (bs' & l & E). destruct bs' as [|c bs']; injection E; [by intros ->|]. intros -> ->. by exists bs', l. Qed.
Lemma coalesce_last bs : last_free bs -> last_free (coalesce bs).
Proof.
  intros (bs' & l & ->). induction bs' as [|[k []] bs' IH]; cbn; [by exists [], l| |].
  - destruct IH as (r & j & ->). by exists ((k, true) :: r), j.
  - destruct IH as (r & j & E). by eapply join_last.
Qed.

(** ** Headers in the memory *)

Lemma load32_some m a : mapped m a 4 -> exists v, load32 m a = Some v.
Proof.
  intros H. destruct (H a ltac:(lia)) as [b0 E0]. destruct (H (a + 1) ltac:(lia)) as [b1 E1].
  destruct (H (a + 2) ltac:(lia)) as [b2 E2]. destruct (H (a + 3) ltac:(lia)) as [b3 E3]. unfold load32. rewrite E0, E1, E2, E3. by eexists.
Qed.
Lemma load32_mapped m a v : load32 m a = Some v -> mapped m a 4.
Proof.
  unfold load32. intros H x Hx. destruct (m !! a) eqn:E0; [|done]. destruct (m !! (a + 1)) eqn:E1; [|done].
  destruct (m !! (a + 2)) eqn:E2; [|done]. destruct (m !! (a + 3)) eqn:E3; [|done].
  assert (x = a \/ x = a + 1 \/ x = a + 2 \/ x = a + 3) as [-> | [-> | [-> | ->]]] by lia; by eexists.
Qed.
Lemma load32_same m m' a : (forall x, a <= x < a + 4 -> m' !! x = m !! x) -> load32 m' a = load32 m a.
Proof. intros H. unfold load32. by rewrite !H by lia. Qed.
Lemma store32_run m a v : mapped m a 4 -> 0 <= v < 4294967296 ->
  exists m', store32 m a v = Some m' /\ load32 m' a = Some v /\ (forall x, x < a \/ a + 4 <= x -> m' !! x = m !! x) /\ mapped m' a 4.
Proof.
  intros H Hv. unfold store32.
  rewrite store8_run by (apply H; lia). cbn [mbind option_bind]. rewrite store8_run by (rewrite lookup_insert_ne by lia; apply H; lia). cbn [mbind option_bind].
  rewrite store8_run by (rewrite !lookup_insert_ne by lia; apply H; lia). cbn [mbind option_bind]. rewrite store8_run by (rewrite !lookup_insert_ne by lia; apply H; lia).
  eexists. split; [done|]. assert (E : load32 (<[a+3:=u8 (v / 16777216)]> (<[a+2:=u8 (v / 65536)]> (<[a+1:=u8 (v / 256)]> (<[a:=u8 v]> m)))) a = Some v).
  { unfold load32. rewrite !(lookup_insert_ne _ (a + 3) a), !(lookup_insert_ne _ (a + 2) a), !(lookup_insert_ne _ (a + 1) a), !(lookup_insert_ne _ (a + 3) (a + 1)),
      !(lookup_insert_ne _ (a + 2) (a + 1)), !(lookup_insert_ne _ (a + 3) (a + 2)), !lookup_insert_eq by lia.
    cbn [mbind option_bind]. f_equal. unfold u8. Z.div_mod_to_equations; lia. }
  split; [exact E|]. split; [|by eapply load32_mapped]. intros x Hx. by rewrite !lookup_insert_ne by lia.
Qed.

(** The headers at the addresses of [A] have the lengths [L] and the links [N]. *)
Definition hdrs (A : list Z) (m : mem) (L N : Z -> Z) : Prop :=
  forall a, a ∈ A -> block_length m a = Some (L a) /\ block_next m a = Some (N a).
Definition apart (A : list Z) : Prop := forall a b, a ∈ A -> b ∈ A -> a = b \/ a + HEADER <= b \/ b + HEADER <= a.
(** Nothing but headers has changed. *)
Definition kept (A : list Z) (m m' : mem) : Prop :=
  forall x, (forall a, a ∈ A -> x < a \/ a + HEADER <= x) -> m' !! x = m !! x.

Lemma kept_refl A m : kept A m m.
Proof. by intros x _. Qed.
Lemma kept_trans A m1 m2 m3 : kept A m1 m2 -> kept A m2 m3 -> kept A m1 m3.
Proof. intros H1 H2 x Hx. by rewrite H2, H1. Qed.
Lemma kept_sub A B m m' : (forall a, a ∈ A -> exists b, b ∈ B /\ b <= a /\ a + HEADER <= b + HEADER) -> kept A m m' -> kept B m m'.
Proof. intros H Hk x Hx. apply Hk. intros a Ha. destruct (H a Ha) as (b & Hb & ?). destruct (Hx b Hb); lia. Qed.
Lemma hdrs_sub A B m L N : hdrs A m L N -> (forall b, b ∈ B -> b ∈ A) -> hdrs B m L N.
Proof. intros H Hs b Hb. auto. Qed.

Section Headers.
Context (A : list Z) (HA : apart A).

Lemma set_length_run m L N a l : hdrs A m L N -> a ∈ A -> 0 <= l < 4294967296 ->
  exists m', set_block_length m a l = Some m' /\ hdrs A m' (<[a := l]> L) N /\ kept A m m'.
Proof using HA.
  intros H Ha Hl. destruct (H a Ha) as [E1 E2]. destruct (store32_run m a l (load32_mapped _ _ _ E1) Hl) as (m' & E & Hv & Hf & _).
  exists m'. split; [done|]. split.
  - intros b Hb. destruct (H b Hb) as [F1 F2]. destruct (decide (a = b)) as [<-|Hne].
    + rewrite fn_lookup_insert. split; [done|]. unfold block_next. rewrite <-F2. apply load32_same. intros x Hx. apply Hf. lia.
    + rewrite fn_lookup_insert_ne by done. destruct (HA a b Ha Hb) as [?|Hab]; [done|]. unfold HEADER in Hab.
      split; [rewrite <-F1|rewrite <-F2]; apply load32_same; intros x Hx; apply Hf; lia.
  - intros x Hx. apply Hf. destruct (Hx a Ha); unfold HEADER in *; lia.
Qed.
Lemma set_next_run m L N a n : hdrs A m L N -> a ∈ A -> 0 <= n < 4294967296 ->
  exists m', set_block_next m a n = Some m' /\ hdrs A m' L (<[a := n]> N) /\ kept A m m'.
Proof using HA.
  intros H Ha Hn. destruct (H a Ha) as [E1 E2]. destruct (store32_run m (a + 4) n (load32_mapped _ _ _ E2) Hn) as (m' & E & Hv & Hf & _).
  exists m'. split; [done|]. split.
  - intros b Hb. destruct (H b Hb) as [F1 F2]. destruct (decide (a = b)) as [<-|Hne].
    + rewrite fn_lookup_insert. split; [|done]. unfold block_length. rewrite <-F1. apply load32_same. intros x Hx. apply Hf. lia.
    + rewrite fn_lookup_insert_ne by done. destruct (HA a b Ha Hb) as [?|Hab]; [done|]. unfold HEADER in Hab.
      split; [rewrite <-F1|rewrite <-F2]; apply load32_same; intros x Hx; apply Hf; lia.
  - intros x Hx. apply Hf. destruct (Hx a Ha); unfold HEADER in *; lia.
Qed.

(** ** Chains *)

(** The list that starts at [head] has the elements [l]. *)
Fixpoint chain (N : Z -> Z) (head : Z) (l : list Z) : Prop :=
  match l with [] => head = 0 | a :: l => head = a /\ chain N (N a) l end.
(** In the order of the addresses, of blocks of [A]. *)
Definition ascending (l : list Z) : Prop := StronglySorted Z.lt l /\ Forall (fun a => a ∈ A /\ 0 < a < 4294967296) l.

Lemma chain_change N a n head l : a ∉ l -> chain N head l -> chain (<[a := n]> N) head l.
Proof.
  revert head. induction l as [|b l IH]; intros head Ha; cbn; [done|]. apply not_elem_of_cons in Ha as [Hne Ha].
  intros [-> H]. split; [done|]. rewrite fn_lookup_insert_ne by done. auto.
Qed.
Lemma chain_same N N' head l : (forall a, a ∈ l -> N' a = N a) -> chain N head l -> chain N' head l.
Proof.
  revert head. induction l as [|b l IH]; intros head Ha; cbn; [done|]. intros [-> H]. split; [done|]. rewrite Ha by (rewrite elem_of_cons; auto).
  apply IH; [|done]. intros a H1. apply Ha. rewrite elem_of_cons. auto.
Qed.
Lemma ascending_cons a l : ascending (a :: l) <-> (a ∈ A /\ 0 < a < 4294967296) /\ Forall (Z.lt a) l /\ ascending l.
Proof.
  unfold ascending. rewrite list.Forall_cons. split.
  - intros [H1 [H2 H3]]. apply StronglySorted_inv in H1 as [H1 H4]. done.
  - intros (H1 & H2 & H3 & H4). split; [by constructor|done].
Qed.
Lemma ascending_app l1 l2 : ascending (l1 ++ l2) <-> ascending l1 /\ ascending l2 /\ forall x y, x ∈ l1 -> y ∈ l2 -> x < y.
Proof.
  induction l1 as [|a l1 IH]; cbn.
  - split; [intros H; repeat split; try apply H; try constructor; intros x y Hx; by apply elem_of_nil in Hx|by intros (_ & H & _)].
  - rewrite !ascending_cons, Forall_app, IH. split.
    + intros (H1 & [H2 H3] & H4 & H5 & H6). split; [done|]. split; [done|]. intros x y [->|Hx]%elem_of_cons Hy; [|by apply H6]. by apply (proj1 (list.Forall_forall _ _) H3).
    + intros ((H1 & H2 & H3) & H4 & H5). split; [done|]. split; [split; [done|]|split; [done|]; split; [done|]]; [apply list.Forall_forall; intros y Hy; apply H5; [by left|done]|]. intros x y Hx Hy. apply H5; [by right|done].
Qed.
Lemma chain_head N head l : chain N head l -> head = hd 0 l.
Proof. destruct l as [|a l]; cbn; [done|by intros [-> _]]. Qed.

(** From [head] along the links over [l] to [a]. *)
Fixpoint segment (N : Z -> Z) (head : Z) (l : list Z) (a : Z) : Prop :=
  match l with [] => head = a | b :: l => head = b /\ segment N (N b) l a end.
Lemma chain_segment N l1 a l2 : forall head, chain N head (l1 ++ a :: l2) <-> segment N head l1 a /\ chain N (N a) l2.
Proof. induction l1 as [|b l1 IH]; intros head; cbn; [done|]. rewrite IH. naive_solver. Qed.
Lemma segment_same N N' l a : forall head, (forall x, x ∈ l -> N' x = N x) -> segment N head l a -> segment N' head l a.
Proof.
  induction l as [|b l IH]; intros head H; cbn; [done|]. intros [-> Hs]. split; [done|]. rewrite H by (by left). apply IH; [|done]. intros x Hx. apply H. by right.
Qed.
Lemma segment_snoc N l a b : forall head, segment N head (l ++ [a]) b <-> segment N head l a /\ N a = b.
Proof. induction l as [|c l IH]; intros head; cbn; [naive_solver|]. rewrite IH. naive_solver. Qed.

(** Blocks on a list. *)
Definition listed (l : list Z) : Prop := forall a, a ∈ l -> a ∈ A /\ 0 < a < 4294967296.
Lemma listed_app l1 l2 : listed (l1 ++ l2) <-> listed l1 /\ listed l2.
Proof. unfold listed. setoid_rewrite elem_of_app. naive_solver. Qed.
Lemma ascending_listed l : ascending l -> listed l.
Proof. intros [_ H] a Ha. by apply (proj1 (list.Forall_forall _ _) H). Qed.

(** The lists around a block of an ascending list. *)
Lemma ascending_around l1 h l2 : ascending (l1 ++ h :: l2) ->
  ascending (l1 ++ l2) /\ (h ∈ A /\ 0 < h < 4294967296) /\ (forall x, x ∈ l1 -> x < h) /\ (forall x, x ∈ l2 -> h < x) /\ h ∉ l1 /\ h ∉ l2.
Proof.
  intros (H1 & H2 & H3)%ascending_app. apply ascending_cons in H2 as (Hh & H4 & H5).
  assert (Hlt : forall x, x ∈ l1 -> x < h) by (intros x Hx; apply H3; [done|by left]).
  assert (Hgt : forall x, x ∈ l2 -> h < x) by (intros x Hx; by apply (proj1 (list.Forall_forall _ _) H4)).
  split; [apply ascending_app; split; [done|]; split; [done|]; intros x y Hx Hy; apply H3; [done|by right]|].
  split; [done|]. split; [done|]. split; [done|]. split; intros Hx; [specialize (Hlt h Hx)|specialize (Hgt h Hx)]; lia.
Qed.

Lemma insert_point_run m L N h l2 a l : forall fuel node, hdrs A m L N -> chain N node (l ++ a :: l2) -> listed (l ++ a :: l2) ->
  (forall x, x ∈ l -> x < h) -> (forall x, x ∈ l2 -> h < x) -> (length l < fuel)%nat -> a < h -> insert_point fuel m node h = Some a.
Proof using HA.
  induction l as [|b l IH]; intros [|fuel] node H Hc Hin Hlt Hgt Hf Ha; cbn in Hf; try lia; cbn in Hc; destruct Hc as [-> Hc]; cbn [insert_point].
  - destruct (H a) as [_ ->]; [apply Hin; by left|]. cbn [mbind option_bind]. destruct (Z.ltb_spec h (N a)) as [|Hn]; [done|].
    destruct l2 as [|c l2]; cbn in Hc; [by rewrite Hc|]. destruct Hc as [Hc _]. specialize (Hgt c ltac:(by left)). lia.
  - destruct (H b) as [_ ->]; [apply Hin; by left|]. cbn [mbind option_bind].
    assert (Hn : N b <= h /\ 0 < N b).
    { destruct (Hin (N b)) as [_ ?]; [|split; [|lia]]; destruct l as [|c l]; cbn in Hc; destruct Hc as [-> _]; [right; by left..|lia|].
      specialize (Hlt c ltac:(right; by left)). lia. }
    destruct (Z.ltb_spec h (N b)); [lia|]. destruct (Z.eqb_spec (N b) 0); [lia|].
    apply IH; auto; [intros x Hx; apply Hin; by right|intros x Hx; apply Hlt; by right|lia].
Qed.

Lemma finsh_block_insert_run m L N list l1 h l2 :
  hdrs A m L N -> chain N list (l1 ++ l2) -> ascending (l1 ++ h :: l2) -> (length l1 < walk)%nat -> (l2 = [] -> N h = 0) ->
  exists list' m' N', finsh_block_insert m list h = Some (list', m') /\ hdrs A m' L N' /\ kept A m m' /\
    chain N' list' (l1 ++ h :: l2) /\ forall x, x ∉ l1 ++ [h] -> N' x = N x.
Proof using HA.
  intros H Hc Hs Hlen Hlast. destruct (ascending_around _ _ _ Hs) as (Hs' & [HhA Hh] & Hlt & Hgt & Hh1 & Hh2). pose proof (ascending_listed _ Hs') as Hin. unfold finsh_block_insert.
  destruct l1 as [|l0 l1' _] using rev_ind; cbn [app] in *.
  - destruct l2 as [|b l2].
    + cbn in Hc. subst list. cbn. exists h, m, N. split; [done|]. split; [done|]. split; [apply kept_refl|]. split; [|done]. split; [done|]. by apply Hlast.
    + destruct Hc as [-> Hc]. specialize (Hgt b ltac:(by left)). destruct (Hin b) as [_ Hb]; [by left|].
      destruct (Z.eqb_spec b 0); [lia|]. destruct (Z.ltb_spec h b); [|lia].
      destruct (set_next_run m L N h b H HhA ltac:(lia)) as (m' & -> & H' & Hk). cbn [mbind option_bind].
      exists h, m', (<[h := b]> N). split; [done|]. split; [done|]. split; [done|]. split.
      * cbn. rewrite fn_lookup_insert. split; [done|]. split; [done|]. apply not_elem_of_cons in Hh2 as [Hne Hh2]. rewrite fn_lookup_insert_ne by done. by apply chain_change.
      * intros x Hx. rewrite fn_lookup_insert_ne; [done|]. intros ->. apply Hx. by left.
  - rename l0 into a, l1' into l. 
    rewrite <-app_assoc in Hc, Hin. cbn [app] in Hc, Hin. rewrite length_app in Hlen. cbn in Hlen.
    assert (Ha : a < h) by (apply Hlt; apply elem_of_app; right; by left). destruct (Hin a) as [HaA Ha0]; [apply elem_of_app; right; by left|].
    assert (Hhd : 0 < list < h).
    { destruct l as [|b l]; destruct Hc as [-> _]; [lia|]. destruct (Hin b) as [_ Hb]; [by left|]. specialize (Hlt b ltac:(by left)). lia. }
    destruct (Z.eqb_spec list 0); [lia|]. destruct (Z.ltb_spec h list); [lia|].
    rewrite (insert_point_run m L N h l2 a l) by (try done; try lia; intros x Hx; apply Hlt, elem_of_app; by left). cbn [mbind option_bind].
    destruct (H a HaA) as [_ ->]. cbn [mbind option_bind].
    apply chain_segment in Hc as [Hseg Hc]. pose proof (chain_head _ _ _ Hc) as Ehd.
    assert (H1 : exists m1, (if negb (N a =? 0) then set_block_next m h (N a) else Some m) = Some m1 /\ hdrs A m1 L (<[h := N a]> N) /\ kept A m m1).
    { destruct (Z.eqb_spec (N a) 0) as [E|E]; cbn [negb].
      - exists m. split; [done|]. split; [|apply kept_refl]. destruct l2 as [|b l2]; [|cbn in Ehd; destruct (Hin b) as [_ ?]; [apply elem_of_app; right; right; by left|lia]].
        intros x Hx. destruct (H x Hx) as [-> ->]. split; [done|]. destruct (decide (h = x)) as [<-|]; [by rewrite fn_lookup_insert, E, Hlast|by rewrite fn_lookup_insert_ne].
      - apply set_next_run; [done|done|]. destruct l2 as [|b l2]; [done|]. cbn in Ehd. destruct (Hin b) as [_ ?]; [apply elem_of_app; right; right; by left|lia]. }
    destruct H1 as (m1 & -> & H1 & Hk1). cbn [mbind option_bind]. destruct (set_next_run m1 L _ a h H1 HaA ltac:(lia)) as (m2 & -> & H2 & Hk2). cbn [mbind option_bind].
    exists list, m2, (<[a := h]> (<[h := N a]> N)). split; [done|]. split; [done|]. split; [by eapply kept_trans|].
    assert (Hal : a ∉ l) by (rewrite <-app_assoc in Hs; intros Hx; apply ascending_around in Hs as (_ & _ & _ & _ & Hx' & _); done).
    assert (Hal2 : a ∉ l2) by (intros Hx; specialize (Hgt a Hx); lia).
    split.
    + rewrite <-app_assoc. cbn [app]. apply chain_segment. rewrite fn_lookup_insert. split; [|cbn; split; [done|]].
      * eapply segment_same; [|done]. intros x Hx. rewrite !fn_lookup_insert_ne; [done|..]; intros ->; [|done]. apply Hh1, elem_of_app. by left.
      * rewrite fn_lookup_insert_ne, fn_lookup_insert by lia. apply chain_change; [done|]. by apply chain_change.
    + intros x Hx. rewrite !fn_lookup_insert_ne; [done|..]; intros ->; apply Hx; rewrite !elem_of_app, !list_elem_of_singleton; auto.
Qed.

Lemma remove_from_run m L N h l2 a l : forall fuel node, hdrs A m L N -> chain N node (l ++ a :: h :: l2) -> listed (l ++ a :: h :: l2) ->
  h ∉ l ++ [a] -> (length l < fuel)%nat -> remove_from fuel m node h = set_block_next m a (N h).
Proof using HA.
  induction l as [|b l IH]; intros [|fuel] node H Hc Hin Hh Hf; cbn in Hf; try lia; cbn in Hc; destruct Hc as [-> Hc]; cbn [remove_from].
  - destruct (Hin a) as [HaA Ha]; [by left|]. destruct (Hin h) as [HhA _]; [right; by left|]. destruct (Z.eqb_spec a 0); [lia|].
    destruct (H a HaA) as [_ ->]. cbn [mbind option_bind]. destruct Hc as [-> _]. rewrite Z.eqb_refl. destruct (H h HhA) as [_ ->]. done.
  - destruct (Hin b) as [HbA Hb]; [by left|]. destruct (Z.eqb_spec b 0); [lia|]. destruct (H b HbA) as [_ ->]. cbn [mbind option_bind].
    assert (Hn : N b <> h).
    { intros E. apply Hh. rewrite <-E. destruct l as [|c l]; cbn in Hc; destruct Hc as [-> _]; right; by left. }
    destruct (Z.eqb_spec (N b) h); [done|]. apply IH; auto; [intros x Hx; apply Hin; by right| |lia]. intros Hx. apply Hh. by right.
Qed.

Lemma finsh_block_remove_run m L N list l1 h l2 :
  hdrs A m L N -> chain N list (l1 ++ h :: l2) -> ascending (l1 ++ h :: l2) -> (length l1 < walk)%nat ->
  exists list' m' N', finsh_block_remove m list h = Some (list', m') /\ hdrs A m' L N' /\ kept A m m' /\
    chain N' list' (l1 ++ l2) /\ forall x, x ∉ l1 ++ [h] -> N' x = N x.
Proof using HA.
  intros H Hc Hs Hlen. destruct (ascending_around _ _ _ Hs) as (Hs' & [HhA Hh] & Hlt & Hgt & Hh1 & Hh2). pose proof (ascending_listed _ Hs) as Hin. unfold finsh_block_remove.
  pose proof Hc as Hc0. apply chain_segment in Hc as [Hseg Hc]. pose proof (chain_head _ _ _ Hc) as Ehd.
  assert (Hn : 0 <= N h < 4294967296).
  { rewrite Ehd. destruct l2 as [|b l2]; cbn; [lia|]. destruct (Hin b) as [_ ?]; [apply elem_of_app; right; right; by left|lia]. }
  destruct l1 as [|a l _] using rev_ind; cbn [app] in *.
  - cbn in Hseg. subst list. rewrite Z.eqb_refl. destruct (H h HhA) as [_ ->]. cbn [mbind option_bind].
    destruct (set_next_run m L N h 0 H HhA ltac:(lia)) as (m' & -> & H' & Hk). cbn [mbind option_bind].
    exists (N h), m', (<[h := 0]> N). split; [done|]. split; [done|]. split; [done|]. split; [by apply chain_change|].
    intros x Hx. rewrite fn_lookup_insert_ne; [done|]. intros ->. apply Hx. by left.
  - rewrite <-app_assoc in Hc0, Hin. cbn [app] in Hc0, Hin. rewrite length_app in Hlen. cbn in Hlen.
    assert (Ha : a < h) by (apply Hlt; apply elem_of_app; right; by left). destruct (Hin a) as [HaA Ha0]; [apply elem_of_app; right; by left|].
    destruct (Z.eqb_spec list h) as [E|_].
    { exfalso. destruct l as [|b l]; destruct Hseg as [E' _]; [lia|]. apply Hh1. rewrite <-E, E'. by left. }
    rewrite (remove_from_run m L N h l2 a l) by (done || lia). destruct (set_next_run m L N a (N h) H HaA Hn) as (m' & -> & H' & Hk). cbn [mbind option_bind].
    exists list, m', (<[a := N h]> N). split; [done|]. split; [done|]. split; [done|]. apply segment_snoc in Hseg as [Hseg _].
    assert (Hal : a ∉ l) by (rewrite <-app_assoc in Hs; apply ascending_around in Hs as (_ & _ & _ & _ & Hx' & _); done).
    assert (Hal2 : a ∉ l2) by (intros Hx; specialize (Hgt a Hx); lia).
    split.
    + rewrite <-app_assoc. cbn [app]. apply chain_segment. rewrite fn_lookup_insert. split; [|by apply chain_change].
      eapply segment_same; [|done]. intros x Hx. rewrite fn_lookup_insert_ne; [done|]. by intros ->.
    + intros x Hx. rewrite fn_lookup_insert_ne; [done|]. intros ->. apply Hx. rewrite !elem_of_app, !list_elem_of_singleton. auto.
Qed.

Lemma find_prev_run m L N h l2 a l : forall fuel node, hdrs A m L N -> chain N node (l ++ a :: h :: l2) -> listed (l ++ a :: h :: l2) ->
  h ∉ l ++ [a] -> (length l < fuel)%nat -> find_prev fuel m node h = Some a.
Proof using HA.
  induction l as [|b l IH]; intros [|fuel] node H Hc Hin Hh Hf; cbn in Hf; try lia; cbn in Hc; destruct Hc as [-> Hc]; cbn [find_prev].
  - destruct (Hin a) as [HaA Ha]; [by left|]. destruct (Z.eqb_spec a 0); [lia|]. destruct (H a HaA) as [_ ->]. cbn [mbind option_bind].
    destruct Hc as [-> _]. by rewrite Z.eqb_refl.
  - destruct (Hin b) as [HbA Hb]; [by left|]. destruct (Z.eqb_spec b 0); [lia|]. destruct (H b HbA) as [_ ->]. cbn [mbind option_bind].
    assert (Hn : N b <> h).
    { intros E. apply Hh. rewrite <-E. destruct l as [|c l]; cbn in Hc; destruct Hc as [-> _]; right; by left. }
    destruct (Z.eqb_spec (N b) h); [done|]. apply IH; auto; [intros x Hx; apply Hin; by right| |lia]. intros Hx. apply Hh. by right.
Qed.

(** Whether the block [h] begins where the block in front of it in the list ends. *)
Definition closes (L : Z -> Z) (a b : Z) : bool := u32 (a + L a + HEADER) =? b.
Definition close_front (L : Z -> Z) (l1 : list Z) (h : Z) : bool := match list.last l1 with Some a => closes L a h | None => false end.
Definition close_behind (L : Z -> Z) (h : Z) (l2 : list Z) : bool := match l2 with b :: _ => closes L h b | [] => false end.

(** What a merge makes of the list and of the lengths. *)
Definition merged_list (front behind : bool) (l1 : list Z) (h : Z) (l2 : list Z) : list Z :=
  (if front then l1 else l1 ++ [h]) ++ (if behind then tail l2 else l2).
Definition merged_block (front : bool) (l1 : list Z) (h : Z) : Z := if front then default 0 (list.last l1) else h.
Definition merged_length (front behind : bool) (L : Z -> Z) (l1 : list Z) (h : Z) (l2 : list Z) : Z :=
  (if front then L (default 0 (list.last l1)) + HEADER else 0) + L h + (if behind then L (hd 0 l2) + HEADER else 0).

(** A block of a list gets a length and a link to the end [r] of the list. *)
Lemma absorb_run m L N list l a l2 r n x len :
  hdrs A m L N -> chain N list (l ++ a :: l2) -> a ∈ A -> a ∉ l -> a ∉ r -> chain N n r -> listed r -> u32 x = len ->
  exists m1 m', set_block_length m a (u32 x) = Some m1 /\ hdrs A m1 (<[a := len]> L) N /\ set_block_next m1 a n = Some m' /\
    hdrs A m' (<[a := len]> L) (<[a := n]> N) /\ kept A m m' /\ chain (<[a := n]> N) list (l ++ a :: r).
Proof using HA.
  intros H Hc HaA Hal Har Hr Hin <-. destruct (set_length_run m L N a (u32 x) H HaA (u32_range x)) as (m1 & E1 & H1 & Hk1).
  assert (Hn : 0 <= n < 4294967296) by (rewrite (chain_head _ _ _ Hr); destruct r as [|b r]; cbn; [lia|destruct (Hin b); [by left|lia]]).
  destruct (set_next_run m1 _ N a n H1 HaA Hn) as (m' & E2 & H2 & Hk2). exists m1, m'. split_and!; try done; [by eapply kept_trans|].
  apply chain_segment in Hc as [Hseg _]. apply chain_segment. rewrite fn_lookup_insert. split; [|by apply chain_change].
  eapply segment_same; [|done]. intros y Hy. rewrite fn_lookup_insert_ne; [done|]. by intros ->.
Qed.

Lemma finsh_block_merge_run m L N list l1 h l2 :
  hdrs A m L N -> chain N list (l1 ++ h :: l2) -> ascending (l1 ++ h :: l2) -> (length l1 < walk)%nat ->
  let front := close_front L l1 h in
  let behind := close_behind L h l2 in
  let len := merged_length front behind L l1 h l2 in
  0 <= len < 4294967296 ->
  exists m' L' N', finsh_block_merge m list h = Some m' /\ hdrs A m' L' N' /\ kept A m m' /\ chain N' list (merged_list front behind l1 h l2) /\
    (forall x, x ∉ l1 ++ [h] -> N' x = N x) /\ L' (merged_block front l1 h) = len /\ (forall x, x <> merged_block front l1 h -> L' x = L x).
Proof using HA.
  intros H Hc Hs Hlen front behind len Hl. destruct (ascending_around _ _ _ Hs) as (Hs' & [HhA Hh] & Hlt & Hgt & Hh1 & Hh2). pose proof (ascending_listed _ Hs) as Hin. unfold finsh_block_merge.
  destruct (H h HhA) as [ELh ENh]. rewrite ENh. cbn [mbind option_bind].
  pose proof (proj1 (chain_segment _ _ _ _ _) Hc) as [Hseg Hc2]. pose proof (chain_head _ _ _ Hc2) as Ehd.
  assert (Eprev : (if list =? h then Some 0 else find_prev walk m list h) = Some (default 0 (list.last l1))).
  { destruct l1 as [|a l _] using rev_ind; cbn [app] in *; [cbn in Hseg; subst; by rewrite Z.eqb_refl|].
    rewrite last_snoc. cbn [from_option id]. rewrite <-app_assoc in Hc, Hin. cbn [app] in Hc, Hin. rewrite length_app in Hlen. cbn in Hlen.
    destruct (Z.eqb_spec list h) as [E|_]; [|apply (find_prev_run m L N h l2 a l); (done || lia)].
    exfalso. destruct l as [|b l]; destruct Hseg as [E' _]; [|apply Hh1; rewrite <-E, E'; by left]. apply Hh1. rewrite <-E, E'. by left. }
  rewrite Eprev. clear Eprev. cbn [mbind option_bind].
  assert (Efront : (if default 0 (list.last l1) =? 0 then Some false else close_to m (default 0 (list.last l1)) h) = Some front).
  { destruct l1 as [|a l _] using rev_ind; cbn [app] in *; [done|]. subst front. unfold close_front. rewrite last_snoc. cbn [from_option id].
    destruct (Hin a) as [HaA Ha]; [apply elem_of_app; left; apply elem_of_app; right; by left|]. destruct (Z.eqb_spec a 0); [lia|].
    unfold close_to. destruct (H a HaA) as [-> _]. done. }
  rewrite Efront. clear Efront. cbn [mbind option_bind].
  assert (Ebehind : (if N h =? 0 then Some false else close_to m h (N h)) = Some behind).
  { rewrite Ehd. destruct l2 as [|b l2]; [done|]. subst behind. cbn [hd]. destruct (Hin b) as [_ Hb]; [apply elem_of_app; right; right; by left|]. destruct (Z.eqb_spec b 0); [lia|].
    unfold close_to. rewrite ELh. done. }
  rewrite Ebehind. clear Ebehind. cbn [mbind option_bind].
  assert (Hl2 : listed l2) by (intros x Hx; apply Hin, elem_of_app; right; by right).
  assert (Hbehind : behind = true -> exists b r, l2 = b :: r /\ N h = b /\ block_length m b = Some (L b) /\ block_next m b = Some (N b) /\ chain N (N b) r /\ h ∉ r /\ listed r).
  { intros E. destruct l2 as [|b r]; [done|]. exists b, r. destruct Hc2 as [Hb Hc2]. destruct (H b) as [-> ->]; [apply Hl2; by left|]. split_and!; try done.
    - intros Hx. apply Hh2. by right.
    - intros x Hx. apply Hl2. by right. }
  assert (Hfront : front = true -> exists (l : Datatypes.list Z) a, l1 = l ++ [a] /\ block_length m a = Some (L a) /\ chain N list (l ++ a :: h :: l2) /\ a ∈ A /\ a ∉ l /\ forall r : Datatypes.list Z, (forall x, x ∈ r -> x ∈ l2) -> a ∉ r).
  { intros E. destruct l1 as [|a l _] using rev_ind; [done|]. exists l, a. rewrite <-app_assoc in Hs, Hc, Hin.
    destruct (Hin a) as [HaA _]; [apply elem_of_app; right; by left|]. destruct (H a HaA) as [-> _]. destruct (ascending_around _ _ _ Hs) as (_ & _ & _ & Ha & Hal & _).
    split_and!; try done. intros r Hr Hx. specialize (Hr _ Hx). specialize (Ha a ltac:(right; done)). lia. }
  assert (Hout : forall (M : Z -> Z) a n x, a ∈ l1 ++ [h] -> x ∉ l1 ++ [h] -> (<[a := n]> M) x = M x) by (intros M a n x Ha Hx; rewrite fn_lookup_insert_ne; [done|]; intros ->; done).
  subst len. unfold merged_list, merged_block, merged_length in *. destruct front.
  - destruct Hfront as (l & a & -> & ELa & Hca & HaA & Hal & Har); [done|]. rewrite last_snoc in *. cbn [from_option id] in *. rewrite ELa, ELh. cbn [mbind option_bind].
    assert (Hain : a ∈ (l ++ [a]) ++ [h]) by (rewrite !elem_of_app, !list_elem_of_singleton; auto). destruct behind.
    + destruct Hbehind as (b & r & -> & -> & ELb & ENb & Hr & Hhr & Hlr); [done|]. rewrite ELb, ENb. cbn [mbind option_bind tail hd] in *.
      destruct (absorb_run m L N list l a _ r (N b) (L a + (L h + L b + 2 * HEADER)) _ H Hca HaA Hal (Har r ltac:(intros; by right)) Hr Hlr eq_refl) as (m1 & m' & -> & _ & E & H' & Hk & Hc').
      cbn [mbind option_bind]. rewrite E. eexists m', _, _. split_and!; [done|exact H'|done|by rewrite <-app_assoc|by auto| |intros; by apply fn_lookup_insert_ne].
      rewrite fn_lookup_insert, u32_id; unfold HEADER in *; lia.
    + destruct (absorb_run m L N list l a _ l2 (N h) (L a + (L h + HEADER)) _ H Hca HaA Hal (Har l2 ltac:(done)) Hc2 Hl2 eq_refl) as (m1 & m' & -> & H1 & E & H' & Hk & Hc').
      cbn [mbind option_bind]. destruct (H1 h HhA) as [_ ->]. cbn [mbind option_bind]. rewrite E. eexists m', _, _. split_and!; [done|exact H'|done|by rewrite <-app_assoc|by auto| |intros; by apply fn_lookup_insert_ne].
      rewrite fn_lookup_insert, u32_id; unfold HEADER in *; lia.
  - destruct behind.
    + destruct Hbehind as (b & r & -> & -> & ELb & ENb & Hr & Hhr & Hlr); [done|]. rewrite ELb, ELh. cbn [mbind option_bind tail hd] in *.
      destruct (absorb_run m L N list l1 h _ r (N b) (L h + (L b + HEADER)) _ H Hc HhA Hh1 Hhr Hr Hlr eq_refl) as (m1 & m' & -> & H1 & E & H' & Hk & Hc').
      cbn [mbind option_bind]. destruct (H1 b) as [_ ->]; [apply Hl2; by left|]. cbn [mbind option_bind]. rewrite E.
      eexists m', _, _. split_and!; [done|exact H'|done|by rewrite <-app_assoc| | |intros; by apply fn_lookup_insert_ne].
      * intros x Hx. apply Hout; [rewrite elem_of_app, list_elem_of_singleton; auto|done].
      * rewrite fn_lookup_insert, u32_id; unfold HEADER in *; lia.
    + exists m, L, N. split_and!; [done|done|apply kept_refl|by rewrite <-app_assoc|done|lia|done].
Qed.
End Headers.

(** ** Blocks in the memory *)

(** The heap at [base] and its lists hold the blocks [bs]: lengths and links of the headers are
    [L] and [N]. *)
Definition addresses (base : Z) (bs : list block) : list Z := headers false base bs ++ headers true base bs.
Definition held (base : Z) (m : mem) (free alloc : Z) (bs : list block) (L N : Z -> Z) : Prop :=
  hdrs (addresses base bs) m L N /\ (forall a l u, (a, l, u) ∈ layout base bs -> L a = l) /\
  chain N free (headers false base bs) /\ chain N alloc (headers true base bs).
Definition shape (base : Z) (bs : list block) : Prop :=
  0 < base /\ base + FINSH_HEAP_MAX < 4294967296 /\ lengths_ok bs /\ extent bs = FINSH_HEAP_MAX /\ last_free bs.
Record rep (base : Z) (s : fheap) (bs : list block) : Prop := {
  rep_shape : shape base bs;
  rep_merged : merged bs;
  rep_mapped : mapped (fh_mem s) base FINSH_HEAP_MAX;
  rep_held : exists L N, held base (fh_mem s) (free_list s) (allocate_list s) bs L N }.

Lemma addresses_layout base bs a : a ∈ addresses base bs <-> exists l u, (a, l, u) ∈ layout base bs.
Proof.
  unfold addresses. rewrite elem_of_app, !layout_headers. split; [intros [[l H]|[l H]]; by eexists _, _|]. intros (l & [] & H); [right|left]; by exists l.
Qed.
Lemma addresses_apart base bs : lengths_ok bs -> apart (addresses base bs).
Proof.
  intros H a b (l & u & Ha)%addresses_layout (k & v & Hb)%addresses_layout. pose proof (layout_in bs base _ _ _ H Ha). pose proof (layout_in bs base _ _ _ H Hb).
  destruct (layout_apart bs base _ _ _ _ _ _ H Ha Hb) as [[-> _]|[?|?]]; [by left|right; lia..].
Qed.
Lemma headers_apart base bs a : lengths_ok bs -> a ∈ headers true base bs -> a ∈ headers false base bs -> False.
Proof.
  intros H (l & Ha)%layout_headers (k & Hb)%layout_headers. pose proof (layout_in bs base _ _ _ H Ha). pose proof (layout_in bs base _ _ _ H Hb).
  destruct (layout_apart bs base _ _ _ _ _ _ H Ha Hb) as [(_ & _ & ?)|?]; [done|unfold HEADER in *; lia].
Qed.
Lemma headers_ascending A u bs : forall a, lengths_ok bs -> 0 < a -> a + extent bs < 4294967296 -> (forall x, x ∈ headers u a bs -> x ∈ A) -> ascending A (headers u a bs).
Proof.
  induction bs as [|[l v] bs IH]; intros a Hok H0 H1 HA; cbn in *; [by split; constructor|]. inversion_clear Hok as [|? ? Hl Hok']. cbn in Hl.
  pose proof (extent_pos bs Hok'). assert (Hr : ascending A (headers u (a + HEADER + l) bs)).
  { apply IH; [done|unfold HEADER in *; lia..|]. intros x Hx. apply HA. destruct (Bool.eqb v u); [by right|done]. }
  destruct (Bool.eqb v u); [|done]. apply ascending_cons. split; [split; [apply HA; by left|unfold HEADER in *; lia]|].
  split; [|done]. apply list.Forall_forall. intros x Hx. apply headers_in in Hx; [|done]. unfold HEADER in *. lia.
Qed.
Lemma headers_length u bs : forall a, lengths_ok bs -> HEADER * Z.of_nat (length (headers u a bs)) <= extent bs.
Proof.
  induction bs as [|[l v] bs IH]; intros a Hok; cbn; [lia|]. inversion_clear Hok as [|? ? Hl Hok']. cbn in Hl. specialize (IH (a + HEADER + l) Hok').
  unfold HEADER in *. destruct (Bool.eqb v u); cbn [length]; lia.
Qed.
Lemma headers_few u base bs : lengths_ok bs -> extent bs = FINSH_HEAP_MAX -> (length (headers u base bs) < walk)%nat.
Proof. intros H E. pose proof (headers_length u bs base H). unfold walk, HEADER, FINSH_HEAP_MAX in *. lia. Qed.
Lemma last_free_headers a bs : last_free bs -> headers false a bs <> [].
Proof. intros (bs' & l & ->). rewrite headers_app. cbn. by destruct (headers false a bs'). Qed.

Lemma coalesce_shape base bs : shape base bs -> shape base (coalesce bs).
Proof. intros (H1 & H2 & H3 & H4 & H5). split_and!; try done; [by apply lengths_coalesce|by rewrite extent_coalesce|by apply coalesce_last]. Qed.
Lemma last_free_state bs1 l u v bs2 : bs2 <> [] -> last_free (bs1 ++ (l, u) :: bs2) -> last_free (bs1 ++ (l, v) :: bs2).
Proof.
  intros Hne (p & k & E). destruct bs2 as [|b bs2 _] using rev_ind; [done|]. exists (bs1 ++ (l, v) :: bs2), k. rewrite <-app_assoc. cbn.
  rewrite app_comm_cons, app_assoc in E. apply app_inj_tail in E as [_ ->]. done.
Qed.
Lemma last_free_used bs1 l bs2 : last_free (bs1 ++ (l, true) :: bs2) -> bs2 <> [] /\ last_free bs2.
Proof.
  intros (p & k & E). destruct bs2 as [|b bs2 _] using rev_ind; [by apply app_inj_tail in E as [_ ?]|].
  split; [by destruct bs2|]. rewrite app_comm_cons, app_assoc in E. apply app_inj_tail in E as [_ ->]. by exists bs2, k.
Qed.
Lemma shape_state base bs1 l bs2 : shape base (bs1 ++ (l, true) :: bs2) -> shape base (bs1 ++ (l, false) :: bs2).
Proof.
  intros (H1 & H2 & H3 & H4 & H5). split_and!; try done.
  - unfold lengths_ok in *. rewrite Forall_app, list.Forall_cons in *. done.
  - rewrite extent_app in *. done.
  - apply (last_free_state _ _ true); [by eapply last_free_used|done].
Qed.

(** What is not a header of a heap of blocks, and not in a free block, stays. *)
Definition outside (base : Z) (m m' : mem) : Prop := forall x, x < base \/ base + FINSH_HEAP_MAX <= x -> m' !! x = m !! x.
Definition same_data (base : Z) (bs : list block) (m m' : mem) : Prop :=
  outside base m m' /\ forall a l, (a, l, true) ∈ layout base bs -> forall x, a + HEADER <= x < a + HEADER + l -> m' !! x = m !! x.
Lemma same_data_refl base bs m : same_data base bs m m.
Proof. split; [intros x _|intros a l _ x _]; done. Qed.
Lemma same_data_trans base bs m1 m2 m3 : same_data base bs m1 m2 -> same_data base bs m2 m3 -> same_data base bs m1 m3.
Proof. intros [H1 H2] [H3 H4]. split; [intros x Hx; by rewrite H3, H1|]. intros a l Ha x Hx. by rewrite (H4 a l), (H2 a l). Qed.
Lemma same_data_sub base bs bs' m m' : (forall a l, (a, l, true) ∈ layout base bs' -> (a, l, true) ∈ layout base bs) -> same_data base bs m m' -> same_data base bs' m m'.
Proof. intros H [H1 H2]. split; [done|]. intros a l Ha. by apply H2, H. Qed.
Lemma kept_same_data base bs m m' : lengths_ok bs -> extent bs = FINSH_HEAP_MAX -> kept (addresses base bs) m m' -> same_data base bs m m'.
Proof.
  intros Hok He Hk. split.
  - intros x Hx. apply Hk. intros a (l & u & Ha)%addresses_layout. apply layout_in in Ha; [|done]. lia.
  - intros a l Ha x Hx. apply Hk. intros b (k & v & Hb)%addresses_layout. pose proof (layout_in bs base _ _ _ Hok Hb) as Hb0.
    destruct (layout_apart bs base _ _ _ _ _ _ Hok Ha Hb) as [(-> & _ & _)|?]; lia.
Qed.
Lemma kept_mapped base bs m m' L N : lengths_ok bs -> extent bs = FINSH_HEAP_MAX -> mapped m base FINSH_HEAP_MAX ->
  hdrs (addresses base bs) m' L N -> kept (addresses base bs) m m' -> mapped m' base FINSH_HEAP_MAX.
Proof.
  intros Hok He Hm H Hk x Hx. destruct (decide (Exists (fun a => a <= x < a + HEADER) (addresses base bs))) as [Hin|Hout].
  - apply list.Exists_exists in Hin as (a & Ha & Hxa). destruct (H a Ha) as [E1 E2]. unfold HEADER in Hxa.
    destruct (decide (x < a + 4)); [apply (load32_mapped _ _ _ E1); lia|apply (load32_mapped _ _ _ E2); lia].
  - rewrite Hk; [by apply Hm|]. intros a Ha. destruct (decide (x < a \/ a + HEADER <= x)); [done|]. exfalso. apply Hout, list.Exists_exists. exists a. split; [done|lia].
Qed.

(** ** Releasing a block *)

Lemma headers_mid u v base bs1 l bs2 : headers u base (bs1 ++ (l, v) :: bs2) =
  headers u base bs1 ++ (if Bool.eqb v u then [base + extent bs1] else []) ++ headers u (base + extent bs1 + HEADER + l) bs2.
Proof. rewrite headers_app. cbn [headers]. by destruct (Bool.eqb v u). Qed.
Lemma layout_mid base bs1 l v bs2 : layout base (bs1 ++ (l, v) :: bs2) =
  layout base bs1 ++ (base + extent bs1, l, v) :: layout (base + extent bs1 + HEADER + l) bs2.
Proof. by rewrite layout_app. Qed.
Lemma addresses_state base bs1 l u v bs2 a : a ∈ addresses base (bs1 ++ (l, u) :: bs2) <-> a ∈ addresses base (bs1 ++ (l, v) :: bs2).
Proof. unfold addresses. rewrite !headers_mid, !elem_of_app. destruct u, v; cbn; rewrite ?elem_of_nil; tauto. Qed.
Lemma state_ascending base bs u : shape base bs -> ascending (addresses base bs) (headers u base bs).
Proof.
  intros (H1 & H2 & H3 & H4 & H5). apply headers_ascending; [done|lia..|]. intros x Hx. unfold addresses. rewrite elem_of_app. destruct u; auto.
Qed.
Lemma ascending_sub A B l : (forall a, a ∈ l -> a ∈ B) -> ascending A l -> ascending B l.
Proof. intros H [H1 H2]. split; [done|]. apply list.Forall_forall. intros a Ha. split; [auto|]. by apply (proj1 (list.Forall_forall _ _) H2). Qed.
Lemma few_front u base bs1 l bs2 : shape base (bs1 ++ (l, u) :: bs2) -> forall v, (length (headers v base bs1) < walk)%nat.
Proof.
  intros (_ & _ & H3 & H4 & _) v. pose proof (headers_few v base _ H3 H4) as H. rewrite headers_mid, !length_app in H. lia.
Qed.

(** The block goes from one list to the other. *)
Lemma relist_run base s bs1 l bs2 : rep base s (bs1 ++ (l, true) :: bs2) ->
  let h := base + extent bs1 in
  exists alloc m1 free m2 L N, finsh_block_remove (fh_mem s) (allocate_list s) h = Some (alloc, m1) /\ finsh_block_insert m1 (free_list s) h = Some (free, m2) /\
    held base m2 free alloc (bs1 ++ (l, false) :: bs2) L N /\ kept (addresses base (bs1 ++ (l, false) :: bs2)) (fh_mem s) m2.
Proof.
  intros [Hs Hm Hmap (L & N & Hd & HL & Hf & Ha)] h. pose proof (shape_state _ _ _ _ Hs) as Hs2. set (bs := bs1 ++ (l, true) :: bs2) in *. set (bs' := bs1 ++ (l, false) :: bs2) in *.
  set (A := addresses base bs'). assert (HA : apart A) by apply addresses_apart, Hs2.
  assert (Hd0 : hdrs A (fh_mem s) L N) by (eapply hdrs_sub; [done|]; intros b Hb; by eapply addresses_state). clear Hd.
  assert (Hasc : ascending A (headers true base bs)).
  { eapply ascending_sub; [|by apply (state_ascending _ _ _ Hs)]. intros a Hin. eapply addresses_state. unfold addresses. rewrite elem_of_app. by right. }
  pose proof (state_ascending _ _ false Hs2) as Hasc2. fold A in Hasc2.
  pose proof (headers_apart base bs' h ltac:(apply Hs2)) as Hx1. pose proof (fun x => headers_apart base bs x ltac:(apply Hs)) as Hx2.
  assert (Hlast : headers false (h + HEADER + l) bs2 <> []) by (apply last_free_headers, (last_free_used bs1 l), Hs).
  unfold bs, bs' in Hasc, Hasc2, Hf, Ha, Hx1, Hx2 |- *. unfold held. rewrite !headers_mid in *. cbn [Bool.eqb app] in *. fold h in Hasc, Hasc2, Hf, Ha, Hx1, Hx2 |- *.
  destruct (finsh_block_remove_run A HA (fh_mem s) L N _ _ _ _ Hd0 Ha Hasc) as (alloc & m1 & N1 & E1 & H1 & Hk1 & Hc1 & Hn1); [by eapply few_front|].
  destruct (finsh_block_insert_run A HA m1 L N1 (free_list s) (headers false base bs1) h (headers false (h + HEADER + l) bs2) H1) as (free & m2 & N2 & E2 & H2 & Hk2 & Hc2 & Hn2); [..|done|by eapply few_front|done|].
  { eapply chain_same; [|exact Hf]. intros a Hin. apply Hn1. intros Hin2. apply (Hx2 a); [|done]. rewrite !elem_of_app, elem_of_cons in *. rewrite elem_of_nil in Hin2. tauto. }
  exists alloc, m1, free, m2, L, N2. split; [done|]. split; [done|]. split; [|by eapply kept_trans]. split; [done|]. split.
  - intros a k v Hin. rewrite layout_mid, elem_of_app, elem_of_cons in Hin. unfold bs in HL. rewrite layout_mid in HL. setoid_rewrite elem_of_app in HL. setoid_rewrite elem_of_cons in HL.
    destruct Hin as [Hin | [[= -> -> ->] | Hin]]; eauto.
  - split; [done|]. eapply chain_same; [|exact Hc1]. intros a Hin. apply Hn2. rewrite elem_of_app, list_elem_of_singleton. intros [Hin2 | ->].
    + apply (Hx2 a); rewrite !elem_of_app, ?elem_of_cons in *; tauto.
    + apply Hx1; [done|]. rewrite elem_of_app, elem_of_cons. auto.
Qed.

(** A free block in front of a position, and behind it. *)
Definition free_block (o : option Z) : list block := match o with Some l => [(l, false)] | None => [] end.
Definition free_extent (o : option Z) : Z := match o with Some l => l + HEADER | None => 0 end.

Lemma merged_app bs1 bs2 : merged (bs1 ++ bs2) -> merged bs1 /\ merged bs2.
Proof.
  induction bs1 as [|[l u] bs1 IH]; [done|]. intros H. destruct (IH (merged_cons _ _ H)) as [H1 H2]. split; [|done].
  destruct u, bs1 as [|[k []] bs1]; cbn in *; done.
Qed.
Lemma merged_glue p x y z q : merged (p ++ [(x, false)]) -> merged ((y, false) :: q) -> merged (p ++ (z, false) :: q).
Proof.
  induction p as [|[l u] p IH]; cbn [app]; [by destruct q as [|[k []] q]|]. intros H1 H2. pose proof (IH (merged_cons _ _ H1) H2) as H.
  destruct u, p as [|[k []] p]; cbn in *; done.
Qed.
Lemma merged_snoc p l : merged p -> (forall p' k, p <> p' ++ [(k, false)]) -> merged (p ++ [(l, false)]).
Proof.
  induction p as [|[k u] p IH]; intros Hm H; cbn [app]; [done|].
  assert (IH' : merged (p ++ [(l, false)])) by (apply IH; [by eapply merged_cons|]; intros p' j ->; by apply (H ((k, u) :: p') j)).
  destruct u; [by destruct p as [|[j []] p]|]. destruct p as [|[j []] p]; [by destruct (H [] k)|done|done].
Qed.

Lemma front_cases base bs1 L : merged bs1 -> 0 < base -> lengths_ok bs1 -> base + extent bs1 < 4294967296 -> (forall a l u, (a, l, u) ∈ layout base bs1 -> L a = l) ->
  exists p o, bs1 = p ++ free_block o /\ (forall x, merged (p ++ [(x, false)])) /\
    headers false base bs1 = headers false base p ++ (if o then [base + extent p] else []) /\
    close_front L (headers false base bs1) (base + extent bs1) = (if o then true else false) /\
    extent bs1 = extent p + free_extent o /\ (if o then L (base + extent p) else 0) = default 0 o.
Proof.
  intros Hm H0 Hok Hr HL. assert (H : (exists p l0, bs1 = p ++ [(l0, false)]) \/ bs1 = [] \/ (exists p k, bs1 = p ++ [(k, true)])).
  { destruct bs1 as [|[k []] p _] using rev_ind; [auto|right; right; by eexists _, _|left; by eexists _, _]. }
  destruct H as [(p & l0 & ->) | H].
  - exists p, (Some l0). cbn [free_block free_extent]. rewrite headers_app, layout_app, extent_app in *. cbn in *. rewrite Z.add_0_r in *.
    assert (E : L (base + extent p) = l0) by (eapply HL; rewrite elem_of_app; right; by left). split_and!; try done; [intros x; by apply (merged_glue _ l0 x)| |lia].
    unfold close_front. rewrite last_snoc. unfold closes. rewrite E. apply Z.eqb_eq. apply Forall_app in Hok as [Hok1 Hok2]. rewrite list.Forall_singleton in Hok2. pose proof (extent_pos p Hok1). cbn in Hok2.
    rewrite u32_id; unfold HEADER in *; lia.
  - exists bs1, None. cbn. rewrite app_nil_r. split_and!; try done; [|by rewrite app_nil_r| |lia].
    + intros x. apply merged_snoc; [done|]. intros p' k ->. destruct H as [H | (p & j & H)]; [by destruct p'|by apply app_inj_tail in H as [_ ?]].
    + destruct H as [-> | (p & k & ->)]; [done|]. unfold close_front. rewrite headers_app. cbn [headers Bool.eqb]. rewrite app_nil_r.
      destruct (list.last (headers false base p)) as [a|] eqn:E; [|done]. apply last_Some in E as (F & E). assert (Hin : a ∈ headers false base p) by (rewrite E, elem_of_app; right; by left).
      apply layout_headers in Hin as (j & Hin). unfold closes. rewrite layout_app in HL. rewrite (HL a j false) by (rewrite elem_of_app; by left).
      apply Forall_app in Hok as [Hok1 Hok2]. rewrite list.Forall_singleton in Hok2. cbn in Hok2. apply layout_in in Hin; [|done]. rewrite extent_app in *. cbn in *. apply Z.eqb_neq. rewrite u32_id; unfold HEADER in *; lia.
Qed.

Lemma behind_cases L h l bs2 : merged bs2 -> 0 < h -> 0 <= l -> lengths_ok bs2 -> h + HEADER + l + extent bs2 < 4294967296 -> L h = l ->
  (forall a k u, (a, k, u) ∈ layout (h + HEADER + l) bs2 -> L a = k) ->
  exists q o, bs2 = free_block o ++ q /\ (forall x, merged ((x, false) :: q)) /\
    headers false (h + HEADER + l) bs2 = (if o then [h + HEADER + l] else []) ++ headers false (h + HEADER + l + free_extent o) q /\
    close_behind L h (headers false (h + HEADER + l) bs2) = (if o then true else false) /\
    (if o then L (h + HEADER + l) else 0) = default 0 o.
Proof.
  intros Hm H0 Hl Hok Hr Eh HL. destruct bs2 as [|[k []] q].
  - exists [], None. by rewrite Z.add_0_r.
  - exists ((k, true) :: q), None. cbn [free_block free_extent app]. rewrite Z.add_0_r. split_and!; try done. cbn [headers Bool.eqb]. unfold close_behind.
    inversion_clear Hok as [|? ? Hk Hok']. cbn in Hk. destruct (headers false _ q) as [|a F] eqn:E; [done|]. assert (Hin : a ∈ headers false (h + HEADER + l + HEADER + k) q) by (rewrite E; by left).
    apply headers_in in Hin; [|done]. unfold closes. rewrite Eh. cbn in Hr. pose proof (extent_pos q Hok'). apply Z.eqb_neq. rewrite u32_id; unfold HEADER in *; lia.
  - exists q, (Some k). cbn [free_block free_extent app headers Bool.eqb]. inversion_clear Hok as [|? ? Hk Hok']. cbn in Hk, Hr. pose proof (extent_pos q Hok'). split_and!; try done.
    + f_equal. f_equal. lia.
    + cbn. unfold closes. rewrite Eh. apply Z.eqb_eq. rewrite u32_id; unfold HEADER in *; lia.
    + eapply HL. by left.
Qed.

(** The three blocks become one. *)
Lemma coalesce_three p o1 l o2 q : (forall x, merged (p ++ [(x, false)])) -> (forall x, merged ((x, false) :: q)) ->
  coalesce ((p ++ free_block o1) ++ (l, false) :: free_block o2 ++ q) = p ++ (free_extent o1 + l + free_extent o2, false) :: q.
Proof.
  intros Hp Hq. rewrite <-(coalesce_merged (p ++ _ :: q)) by (by apply (merged_glue _ 0 0)). rewrite <-app_assoc, <-(coalesce_app_r p), <-(coalesce_app_r p (_ :: q)). do 2 f_equal.
  destruct o1 as [l1|], o2 as [l2|]; cbn; rewrite ?join_join; f_equal; lia.
Qed.

Lemma heap_merge_run base m free alloc bs1 l bs2 L N :
  let bs := bs1 ++ (l, false) :: bs2 in
  shape base bs -> merged bs1 -> merged bs2 -> held base m free alloc bs L N ->
  exists m' L' N', finsh_block_merge m free (base + extent bs1) = Some m' /\ held base m' free alloc (coalesce bs) L' N' /\
    kept (addresses base bs) m m' /\ hdrs (addresses base bs) m' L' N'.
Proof.
  intros bs Hs Hm1 Hm2 (Hd & HL & Hf & Ha). pose proof Hs as (Hb & Hb2 & Hok & He & _). unfold FINSH_HEAP_MAX in *. set (h := base + extent bs1). assert (Hh : h = base + extent bs1) by done. assert (HE : HEADER = 8) by done.
  assert (HA : apart (addresses base bs)) by (by apply addresses_apart). assert (Hok1 : lengths_ok bs1 /\ 0 <= l /\ lengths_ok bs2) by (unfold bs, lengths_ok in Hok; rewrite Forall_app, list.Forall_cons in Hok; done).
  destruct Hok1 as (Hok1 & Hl & Hok2). pose proof (extent_pos _ Hok1) as Hx1. pose proof (extent_pos _ Hok2) as Hx2. unfold bs in He. rewrite extent_app in He. cbn [extent] in He.
  assert (HL1 : forall a k u, (a, k, u) ∈ layout base bs1 -> L a = k) by (intros a k u Hin; eapply HL; unfold bs; rewrite layout_mid, elem_of_app; by left).
  assert (HL2 : forall a k u, (a, k, u) ∈ layout (h + HEADER + l) bs2 -> L a = k) by (intros a k u Hin; eapply HL; unfold bs; rewrite layout_mid, elem_of_app; right; by right).
  assert (Eh : L h = l) by (eapply HL; unfold bs; rewrite layout_mid, elem_of_app; right; by left).
  pose proof (state_ascending _ _ false Hs) as Hasc. pose proof (headers_apart base bs) as Hx.
  destruct (front_cases base bs1 L Hm1 Hb Hok1 ltac:(lia) HL1) as (p & o1 & E1 & Hp & EF & Ecf & Eext & EL1).
  destruct (behind_cases L h l bs2 Hm2 ltac:(lia) Hl Hok2 ltac:(lia) Eh HL2) as (q & o2 & E2 & Hq & EB & Ecb & EL2).
  assert (Efree : headers false base bs = headers false base bs1 ++ h :: headers false (h + HEADER + l) bs2) by (unfold bs; by rewrite headers_mid).
  rewrite Efree in Hasc, Hf.
  set (F1 := headers false base bs1) in *. set (F2 := headers false (h + HEADER + l) bs2) in *. set (front := close_front L F1 h). set (behind := close_behind L h F2).
  set (len := free_extent o1 + l + free_extent o2). set (blk := base + extent p). assert (Hlen : 0 <= len <= 128 /\ blk + HEADER + len = h + HEADER + l + free_extent o2 /\ blk <= h /\ 0 <= extent p).
  { rewrite E1, E2 in *. apply Forall_app in Hok1 as [Hokp Ho1]. apply Forall_app in Hok2 as [Ho2 Hokq]. pose proof (extent_pos _ Hokp). pose proof (extent_pos _ Hokq). rewrite extent_app in Hx2, He. subst blk len.
    destruct o1 as [l1|], o2 as [l2|]; cbn in *; rewrite ?list.Forall_singleton in *; cbn in *; lia. }
  assert (Hparts : merged_length front behind L F1 h F2 = len /\ merged_block front F1 h = blk /\ merged_list front behind F1 h F2 = headers false base (coalesce bs) /\ coalesce bs = p ++ (len, false) :: q).
  { assert (Ec : coalesce bs = p ++ (len, false) :: q) by (unfold bs; rewrite E1, E2; by apply coalesce_three). rewrite Ec. split_and!; [| |rewrite headers_mid; cbn [Bool.eqb app]; fold blk; replace (blk + HEADER + len) with (h + HEADER + l + free_extent o2) by lia|done];
      subst front behind; unfold merged_length, merged_block, merged_list; fold h in Ecf; rewrite Ecf, ?Ecb, ?EF, ?EB; clear Ecf Ecb;
      destruct o1 as [l1|], o2 as [l2|]; cbn [from_option free_extent app tail hd id] in *; rewrite ?last_snoc, ?app_nil_r; cbn [from_option id]; rewrite <-?app_assoc; try done;
      (rewrite ?Eh, ?EL1, ?EL2; subst len; cbn [free_extent]; lia) || (replace blk with h by (subst blk; lia); done). }
  destruct Hparts as (Elen & Eblk & Elist & Ec).
  destruct (finsh_block_merge_run _ HA m L N free F1 h F2 Hd Hf Hasc ltac:(by eapply few_front)) as (m' & L' & N' & E & Hd' & Hk & Hc & HN & HLm & HLo); [fold front behind; rewrite Elen; lia|].
  fold front behind in Hc, HLm, HLo. rewrite Elist in Hc. rewrite Elen, Eblk in HLm. rewrite Eblk in HLo.
  exists m', L', N'. split; [done|]. split; [|done]. split; [|split; [|split; [done|]]].
  - eapply hdrs_sub; [done|]. intros b Hin. unfold addresses in Hin |- *. rewrite headers_coalesce, elem_of_app in Hin. rewrite elem_of_app. destruct Hin as [Hin|Hin]; [left|by right].
    rewrite Efree. rewrite <-Elist in Hin. unfold merged_list in Hin. destruct front, behind, F2 as [|f F2']; cbn [tail] in Hin; rewrite ?elem_of_app, ?elem_of_cons, ?elem_of_nil in *; tauto.
  - intros a k u Hin. rewrite Ec, layout_mid, elem_of_app, elem_of_cons in Hin. fold blk in Hin. destruct Hin as [Hin | [[= -> -> ->] | Hin]]; [|done|].
    + assert (Ha1 : (a, k, u) ∈ layout base bs1) by (rewrite E1, layout_app, elem_of_app; by left). rewrite HLo; [by eapply HL1|].
      rewrite E1 in Hok1. apply Forall_app in Hok1 as [Hokp _]. apply layout_in in Hin; [|done]. lia.
    + replace (blk + HEADER + len) with (h + HEADER + l + free_extent o2) in Hin by lia.
      assert (Ha2 : (a, k, u) ∈ layout (h + HEADER + l) bs2).
      { rewrite E2, layout_app, elem_of_app. right. replace (extent (free_block o2)) with (free_extent o2) by (destruct o2; cbn; lia). done. }
      rewrite HLo; [by eapply HL2|]. apply layout_in in Ha2; [|done]. lia.
  - rewrite headers_coalesce. eapply chain_same; [|exact Ha]. intros a Hin. apply HN. intros Hin2. apply (Hx a); [done..|]. rewrite Efree. rewrite !elem_of_app, elem_of_cons in *. rewrite elem_of_nil in Hin2. tauto.
Qed.

(** [finsh_heap_free] of the data of an allocated block. *)
Lemma finsh_heap_free_run base s bs1 l bs2 : rep base s (bs1 ++ (l, true) :: bs2) ->
  exists s', finsh_heap_free (finsh_block_get_data (base + extent bs1)) s = Some s' /\ rep base s' (coalesce (bs1 ++ (l, false) :: bs2)) /\
    same_data base (bs1 ++ (l, false) :: bs2) (fh_mem s) (fh_mem s').
Proof.
  intros Hr. pose proof Hr as [Hs Hm Hmap _]. pose proof (shape_state _ _ _ _ Hs) as Hs2. pose proof (merged_app _ _ Hm) as [Hm1 Hm2]. apply merged_cons in Hm2.
  destruct (relist_run base s bs1 l bs2 Hr) as (alloc & m1 & free & m2 & L & N & E1 & E2 & Hh & Hk).
  destruct (heap_merge_run base m2 free alloc bs1 l bs2 L N Hs2 Hm1 Hm2 Hh) as (m3 & L' & N' & E3 & Hh' & Hk' & Hd').
  unfold finsh_heap_free. replace (finsh_block_get_header _) with (base + extent bs1) by (unfold finsh_block_get_header, finsh_block_get_data; lia).
  rewrite E1. cbn [mbind option_bind]. rewrite E2. cbn [mbind option_bind]. rewrite E3. cbn [mbind option_bind].
  exists (Fheap m3 free alloc). split; [done|]. pose proof (kept_trans _ _ _ _ Hk Hk') as Hk2. destruct Hs2 as (Hb & Hb2 & Hok & He & Hlast). split.
  - split; cbn; [by apply coalesce_shape|apply merged_coalesce| |by eexists _, _]. eapply (kept_mapped base _ (fh_mem s)); [exact Hok|done|done|exact Hd'|done].
  - by apply kept_same_data.
Qed.

(** ** The collector *)

(** The links of the list of allocated blocks. *)
Lemma held_next base m free alloc bs L N u F h F' :
  held base m free alloc bs L N -> headers u base bs = F ++ h :: F' -> block_next m h = Some (hd 0 F').
Proof.
  intros (Hd & _ & Hf & Ha) E. destruct (Hd h) as [_ ->].
  { unfold addresses. rewrite elem_of_app. destruct u; [right|left]; rewrite E, elem_of_app; right; by left. }
  f_equal. destruct u; rewrite E in *; [apply chain_segment in Ha as [_ Hc]|apply chain_segment in Hf as [_ Hc]]; by apply chain_head in Hc.
Qed.
Lemma sweep_app live bs1 bs2 : forall a, sweep live a (bs1 ++ bs2) = sweep live a bs1 ++ sweep live (a + extent bs1) bs2.
Proof.
  induction bs1 as [|[l u] bs1 IH]; intros a; cbn; [by rewrite Z.add_0_r|]. rewrite IH. do 3 f_equal. lia.
Qed.
Lemma extent_sweep live bs : forall a, extent (sweep live a bs) = extent bs.
Proof. induction bs as [|[l u] bs IH]; intros a; cbn; [done|]. by rewrite IH. Qed.
(** What survives the collection was allocated. *)
Lemma layout_sweep live bs : forall a x k, (x, k, true) ∈ layout a (sweep live a bs) -> (x, k, true) ∈ layout a bs.
Proof.
  induction bs as [|[l u] bs IH]; intros a x k; cbn; [done|]. rewrite !elem_of_cons. intros [[= -> -> E]|H]; [|right; by apply IH].
  left. by destruct u.
Qed.

Section Collector.
Context (global_variable : list finsh_var) (variables base : Z) (live : Z -> bool) (m0 : mem).
(** The variables are not in the heap. *)
Context (Hlive : forall m d, outside base m0 m -> pointed variables m global_variable 0 d = Some (live d)).

Lemma gc_loop_run bs : forall kept s fuel,
  rep base s (coalesce (kept ++ bs)) -> outside base m0 (fh_mem s) -> (length (headers true (base + extent kept) bs) <= fuel)%nat ->
  let bs' := kept ++ sweep live (base + extent kept) bs in
  exists s', gc_loop global_variable variables fuel (hd 0 (headers true (base + extent kept) bs)) s = Some s' /\
    rep base s' (coalesce bs') /\ same_data base bs' (fh_mem s) (fh_mem s').
Proof using Hlive.
  induction bs as [|[l u] bs IH]; intros kept s fuel Hr Ho Hf bs'.
  - exists s. unfold bs'. cbn [headers hd sweep]. split; [|split; [done|apply same_data_refl]]. by destruct fuel.
  - assert (Enext : base + extent kept + HEADER + l = base + extent (kept ++ [(l, u)])) by (rewrite extent_app; cbn; lia). 
    assert (Hstep : forall v s fuel, rep base s (coalesce (kept ++ (l, v) :: bs)) -> outside base m0 (fh_mem s) -> (length (headers true (base + extent kept + HEADER + l) bs) <= fuel)%nat ->
      let bs' := kept ++ (l, v) :: sweep live (base + extent kept + HEADER + l) bs in
      exists s', gc_loop global_variable variables fuel (hd 0 (headers true (base + extent kept + HEADER + l) bs)) s = Some s' /\ rep base s' (coalesce bs') /\ same_data base bs' (fh_mem s) (fh_mem s')).
    { intros v s1 f1 H1 H2 H3. replace (base + extent kept + HEADER + l) with (base + extent (kept ++ [(l, v)])) in * by (rewrite extent_app; cbn; lia).
      destruct (IH (kept ++ [(l, v)]) s1 f1) as (s' & E & H4 & H5); [by rewrite <-app_assoc|done|done|]. rewrite <-app_assoc in H4, H5. by exists s'. }
    destruct u; [|by apply (Hstep false)]. cbn [headers Bool.eqb hd length] in Hf |- *. unfold bs'. cbn [sweep andb].
    set (h := base + extent kept) in *. destruct fuel as [|fuel]; [lia|]. cbn [gc_loop].
    pose proof Hr as [(Hb & Hb2 & Hok & He & _) _ _ (L & N & Hh)]. rewrite extent_coalesce in He.
    assert (Hn : block_next (fh_mem s) h = Some (hd 0 (headers true (h + HEADER + l) bs))).
    { eapply (held_next _ _ _ _ _ _ _ true); [exact Hh|]. rewrite headers_coalesce, headers_mid. done. }
    assert (Hpos : 0 <= extent kept).
    { rewrite coalesce_used in Hok. apply Forall_app in Hok as [Hok _]. apply extent_pos in Hok. by rewrite extent_coalesce in Hok. }
    destruct (Z.eqb_spec h 0); [subst h; lia|]. rewrite Hlive by done. cbn [mbind option_bind]. rewrite Hn. cbn [mbind option_bind].
    destruct (live (finsh_block_get_data h)) eqn:El; cbn [mbind option_bind].
    + apply (Hstep true); [done|done|lia].
    + rewrite coalesce_used in Hr. destruct (finsh_heap_free_run _ _ _ _ _ Hr) as (s1 & E & Hr1 & Hs1). rewrite extent_coalesce in E. fold h in E. rewrite E. cbn [mbind option_bind].
      assert (Ec : coalesce (coalesce kept ++ (l, false) :: coalesce bs) = coalesce (kept ++ (l, false) :: bs)).
      { rewrite coalesce_app_l. change ((l, false) :: coalesce bs) with ([(l, false)] ++ coalesce bs). rewrite app_assoc, coalesce_app_r, <-app_assoc. done. }
      rewrite Ec in Hr1. destruct Hs1 as [Hs1 Hs2]. destruct (Hstep false s1 fuel Hr1) as (s' & E' & Hr' & Hs'); [intros x Hx; by rewrite Hs1, Ho|lia|].
      exists s'. split; [done|]. split; [done|]. eapply same_data_trans; [|exact Hs']. split; [done|]. intros a k Hin. apply Hs2.
      assert (Hin' : (a, k, true) ∈ layout base (kept ++ (l, false) :: bs)).
      { rewrite layout_mid, elem_of_app, elem_of_cons in *. destruct Hin as [?|[?|Hin]]; auto. right. right. by eapply layout_sweep. }
      rewrite <-layout_coalesce, Ec, layout_coalesce. done.
Qed.
End Collector.

(** ** Allocation *)

Lemma split_shape base bs1 l bs2 size : shape base (bs1 ++ (l, false) :: bs2) -> 0 <= size -> size + HEADER <= l ->
  shape base (bs1 ++ (size, false) :: (l - HEADER - size, false) :: bs2).
Proof.
  intros (H1 & H2 & H3 & H4 & H5) Hsz Hl. unfold lengths_ok in *. rewrite Forall_app, list.Forall_cons in H3. cbn in H3. destruct H3 as (H6 & H7 & H8). split; [done|]. split; [done|]. split; [|split].
  - unfold lengths_ok. rewrite Forall_app, !list.Forall_cons. cbn. split_and!; try done; lia.
  - rewrite extent_app in *. cbn in *. lia.
  - destruct bs2 as [|b bs2]; [by exists (bs1 ++ [(size, false)]), (l - HEADER - size); rewrite <-app_assoc|].
    destruct H5 as (p & k & E). destruct (exists_last (l := b :: bs2) ltac:(done)) as (q & [j v] & Eq). rewrite Eq in *.
    rewrite app_comm_cons, app_assoc in E. apply app_inj_tail in E as [_ [= -> ->]]. exists (bs1 ++ (size, false) :: (l - HEADER - size, false) :: q), k. by rewrite <-app_assoc.
Qed.

Lemma split_run base m free alloc bs1 l bs2 size L N :
  let bs' := bs1 ++ (size, false) :: (l - HEADER - size, false) :: bs2 in
  shape base (bs1 ++ (l, false) :: bs2) -> mapped m base FINSH_HEAP_MAX -> held base m free alloc (bs1 ++ (l, false) :: bs2) L N -> 0 <= size -> size + HEADER <= l ->
  exists m' L' N', finsh_block_split m (base + extent bs1) size = Some m' /\ held base m' free alloc bs' L' N' /\ kept (addresses base bs') m m'.
Proof.
  intros bs' Hs Hmap (Hd & HL & Hf & Ha) Hsz Hl. pose proof (split_shape _ _ _ _ _ Hs Hsz Hl) as Hs2. fold bs' in Hs2. set (h := base + extent bs1). set (n := h + HEADER + size).
  assert (HE : HEADER = 8) by done. assert (Hin : (n, l - HEADER - size, false) ∈ layout base bs') by (unfold bs'; rewrite layout_mid, elem_of_app; right; right; by left).
  assert (Hinh : (h, size, false) ∈ layout base bs') by (unfold bs'; rewrite layout_mid, elem_of_app; right; by left).
  destruct Hs2 as (Hb & Hb2 & Hok & He & Hlast). pose proof (layout_in _ _ _ _ _ Hok Hin) as Hn. pose proof (layout_in _ _ _ _ _ Hok Hinh) as Hh. unfold FINSH_HEAP_MAX in *.
  set (A := addresses base bs'). assert (HA : apart A) by (by apply addresses_apart). assert (HnA : n ∈ A) by (apply addresses_layout; eauto). assert (HhA : h ∈ A) by (apply addresses_layout; eauto).
  assert (Hfold : forall u, headers u base bs' = headers u base bs1 ++ (if u then [] else [h; n]) ++ headers u (h + HEADER + l) bs2).
  { intros u. unfold bs'. rewrite headers_mid. fold h. cbn [headers]. fold n. replace (n + HEADER + (l - HEADER - size)) with (h + HEADER + l) by (subst n; lia). by destruct u. }
  assert (Hold : forall b, b ∈ A -> b = n \/ b ∈ addresses base (bs1 ++ (l, false) :: bs2)).
  { intros b Hb0. unfold A, addresses in Hb0 |- *. rewrite !Hfold, !headers_mid in *. fold h in Hb0 |- *. cbn [Bool.eqb app] in *. rewrite !elem_of_app, !elem_of_cons in *. tauto. }
  assert (Hasc : ascending A (headers false base bs')) by (by apply (state_ascending base bs' false)).
  destruct (load32_some m n) as [g Eg]; [eapply mapped_sub; [exact Hmap|lia..]|]. destruct (load32_some m (n + 4)) as [g' Eg']; [eapply mapped_sub; [exact Hmap|lia..]|].
  assert (H0 : hdrs A m (<[n := g]> L) (<[n := g']> N)).
  { intros b Hb0. destruct (decide (n = b)) as [<-|Hne]; [by rewrite !fn_lookup_insert|]. rewrite !fn_lookup_insert_ne by done. destruct (Hold b Hb0) as [->|?]; [done|auto]. }
  assert (Eh : L h = l) by (eapply HL; rewrite layout_mid, elem_of_app; right; by left). assert (Hne : n <> h) by (subst n; lia).
  rewrite headers_mid in Hf. cbn [Bool.eqb] in Hf. fold h in Hf. cbn [app] in Hf. pose proof (proj1 (chain_segment _ _ _ _ _) Hf) as [Hseg Hc]. pose proof (chain_head _ _ _ Hc) as Ehd.
  rewrite Hfold in Hasc. cbn [app] in Hasc. destruct (ascending_around _ _ _ _ Hasc) as (Hasc' & _ & _ & _ & Hh1 & Hh2). destruct (ascending_around _ _ _ _ Hasc') as (_ & _ & _ & _ & Hn1 & Hn2).
  assert (Hr : 0 <= N h < 4294967296).
  { rewrite Ehd. destruct (headers false (h + HEADER + l) bs2) as [|b F]; cbn; [lia|]. apply ascending_listed in Hasc. destruct (Hasc b) as [_ ?]; [rewrite elem_of_app; right; right; right; by left|lia]. }
  unfold finsh_block_split. fold n. destruct (H0 h HhA) as [E1 E2]. rewrite fn_lookup_insert_ne in E1, E2 by done. rewrite E1, Eh. cbn [mbind option_bind].
  destruct (set_length_run A HA m _ _ n (u32 (l - HEADER - size)) H0 HnA (u32_range _)) as (m1 & -> & H1 & Hk1). cbn [mbind option_bind].
  destruct (set_length_run A HA m1 _ _ h size H1 HhA ltac:(lia)) as (m2 & -> & H2 & Hk2). cbn [mbind option_bind].
  destruct (H2 h HhA) as [_ ->]. rewrite fn_lookup_insert_ne by done. cbn [mbind option_bind].
  destruct (set_next_run A HA m2 _ _ n (N h) H2 HnA Hr) as (m3 & -> & H3 & Hk3). cbn [mbind option_bind].
  destruct (set_next_run A HA m3 _ _ h n H3 HhA ltac:(lia)) as (m4 & -> & H4 & Hk4).
  eexists m4, _, _. split; [done|]. split; [|by eapply kept_trans, kept_trans, kept_trans]. split; [exact H4|]. split; [|split].
  - intros a k u Hin'. unfold bs' in Hin'. rewrite layout_mid in Hin'. cbn [layout] in Hin'. fold h n in Hin'. rewrite elem_of_app, !elem_of_cons in Hin'.
    assert (Hother : a <> h -> a <> n -> (a, k, u) ∈ layout base (bs1 ++ (l, false) :: bs2) -> (<[h := size]> (<[n := u32 (l - HEADER - size)]> (<[n := g]> L))) a = k).
    { intros N1 N2 Hin2. rewrite !fn_lookup_insert_ne by done. by eapply HL. }
    assert (Hok' : lengths_ok bs1 /\ lengths_ok bs2) by (unfold bs', lengths_ok in *; rewrite Forall_app, !list.Forall_cons in Hok; naive_solver).
    destruct Hin' as [Hin' | [[= -> -> ->] | [[= -> -> ->] | Hin']]].
    + pose proof (layout_in _ _ _ _ _ (proj1 Hok') Hin'). apply Hother; [lia..|]. rewrite layout_mid, elem_of_app. by left.
    + by rewrite fn_lookup_insert.
    + rewrite fn_lookup_insert_ne, fn_lookup_insert, u32_id by lia. done.
    + replace (n + HEADER + (l - HEADER - size)) with (h + HEADER + l) in Hin' by (subst n; lia). pose proof (layout_in _ _ _ _ _ (proj2 Hok') Hin'). apply Hother; [lia..|].
      rewrite layout_mid, elem_of_app. right. by right.
  - rewrite Hfold. cbn [app]. apply chain_segment. rewrite fn_lookup_insert. split; [|split; [done|]].
    + eapply segment_same; [|exact Hseg]. intros x Hx. rewrite !fn_lookup_insert_ne; [done|..]; intros ->; [apply Hn1|apply Hn1|apply Hh1]; done.
    + rewrite fn_lookup_insert_ne, fn_lookup_insert by done. apply chain_change; [intros Hx; apply Hh2; by right|]. apply chain_change; [done|]. by apply chain_change.
  - rewrite Hfold. rewrite headers_mid in Ha. cbn [Bool.eqb app] in Ha |- *. fold h in Ha.
    assert (Ho : forall x, x ∈ headers false base bs' -> x ∉ headers true base bs1 ++ headers true (h + HEADER + l) bs2).
    { intros x Hx Hx2. apply (headers_apart base bs' x Hok); [rewrite Hfold|]; done. }
    rewrite Hfold in Ho. repeat (apply chain_change; [apply Ho; rewrite !elem_of_app, !elem_of_cons; auto|]). done.
Qed.

Lemma used_shape base bs1 l bs2 : bs2 <> [] -> shape base (bs1 ++ (l, false) :: bs2) -> shape base (bs1 ++ (l, true) :: bs2).
Proof.
  intros Hne (H1 & H2 & H3 & H4 & H5). split_and!; try done.
  - unfold lengths_ok in *. rewrite Forall_app, list.Forall_cons in *. done.
  - rewrite extent_app in *. done.
  - by apply (last_free_state _ _ false).
Qed.

(** A free block, not the last one, goes to the list of allocated blocks. *)
Lemma take_run base m free alloc bs1 l bs2 L N : bs2 <> [] ->
  shape base (bs1 ++ (l, false) :: bs2) -> held base m free alloc (bs1 ++ (l, false) :: bs2) L N ->
  let h := base + extent bs1 in
  let A := addresses base (bs1 ++ (l, true) :: bs2) in
  exists free' m1 m2 alloc' m3 L' N', finsh_block_remove m free h = Some (free', m1) /\ set_block_next m1 h 0 = Some m2 /\
    finsh_block_insert m2 alloc h = Some (alloc', m3) /\ held base m3 free' alloc' (bs1 ++ (l, true) :: bs2) L' N' /\ kept A m m3.
Proof.
  intros Hne Hs (Hd & HL & Hf & Ha) h A. pose proof (used_shape _ _ _ _ Hne Hs) as Hs2. set (bs := bs1 ++ (l, false) :: bs2) in *. set (bs' := bs1 ++ (l, true) :: bs2) in *.
  assert (HA : apart A) by apply addresses_apart, Hs2.
  assert (Hd0 : hdrs A m L N) by (eapply hdrs_sub; [done|]; intros b Hb; by eapply addresses_state). clear Hd.
  assert (Hasc : ascending A (headers false base bs)).
  { eapply ascending_sub; [|by apply (state_ascending _ _ _ Hs)]. intros a Hin. eapply addresses_state. unfold addresses. rewrite elem_of_app. by left. }
  pose proof (state_ascending _ _ true Hs2) as Hasc2. fold A in Hasc2.
  pose proof (fun x => headers_apart base bs' x ltac:(apply Hs2)) as Hx1. pose proof (fun x => headers_apart base bs x ltac:(apply Hs)) as Hx2.
  assert (HhA : h ∈ A) by (apply addresses_layout; exists l, true; unfold bs'; rewrite layout_mid, elem_of_app; right; by left).
  unfold bs, bs' in Hasc, Hasc2, Hf, Ha, Hx1, Hx2 |- *. unfold held. rewrite !headers_mid in *. cbn [Bool.eqb app] in *. fold h in Hasc, Hasc2, Hf, Ha, Hx1, Hx2 |- *.
  destruct (finsh_block_remove_run A HA m L N _ _ _ _ Hd0 Hf Hasc) as (free' & m1 & N1 & E1 & H1 & Hk1 & Hc1 & Hn1); [by eapply few_front|].
  destruct (set_next_run A HA m1 L N1 h 0 H1 HhA ltac:(lia)) as (m2 & E2 & H2 & Hk2).
  set (T1 := headers true base bs1) in *. set (T2 := headers true (h + HEADER + l) bs2) in *. set (F1 := headers false base bs1) in *. set (F2 := headers false (h + HEADER + l) bs2) in *.
  assert (Hdis : forall a, a ∈ T1 ++ T2 -> a <> h /\ a ∉ F1 /\ a ∉ F2).
  { intros a Hin. specialize (Hx2 a Hin). rewrite !elem_of_app, !elem_of_cons in Hx2. split_and!; intros Hin2; apply Hx2; auto. }
  assert (Hdis2 : forall a, a ∈ F1 ++ F2 -> a <> h /\ a ∉ T1).
  { intros a Hin. specialize (Hx1 a). rewrite !elem_of_app, !elem_of_cons in Hx1. rewrite elem_of_app in Hin. split; intros Hin2; apply Hx1; auto. }
  destruct (finsh_block_insert_run A HA m2 L (<[h := 0]> N1) alloc T1 h T2 H2) as (alloc' & m3 & N2 & E3 & H3 & Hk3 & Hc3 & Hn3); [|done|by eapply few_front|by rewrite fn_lookup_insert|].
  { apply chain_change; [intros Hin; by apply (Hdis h) in Hin as [? _]|]. eapply chain_same; [|exact Ha]. intros a Hin. apply Hn1. rewrite elem_of_app, list_elem_of_singleton. apply Hdis in Hin. tauto. }
  exists free', m1, m2, alloc', m3, L, N2. split; [done|]. split; [done|]. split; [done|]. split; [|by eapply kept_trans, kept_trans]. split; [done|]. split.
  - intros a k v Hin. rewrite layout_mid, elem_of_app, elem_of_cons in Hin. unfold bs in HL. rewrite layout_mid in HL. setoid_rewrite elem_of_app in HL. setoid_rewrite elem_of_cons in HL.
    destruct Hin as [Hin | [[= -> -> ->] | Hin]]; eauto.
  - split; [|done]. eapply chain_same; [|exact Hc1]. intros a Hin. apply Hdis2 in Hin as [H4 H5]. rewrite Hn3 by (rewrite elem_of_app, list_elem_of_singleton; tauto). by rewrite fn_lookup_insert_ne.
Qed.

Lemma first_fit_run A m L N small h F2 F1 : forall fuel head, hdrs A m L N -> chain N head (F1 ++ h :: F2) -> listed A (F1 ++ h :: F2) ->
  (forall x, x ∈ F1 -> small (L x) = true) -> small (L h) = false -> (length F1 < fuel)%nat -> first_fit fuel small m head = Some h.
Proof.
  induction F1 as [|a F1 IH]; intros [|fuel] head Hd Hc Hin Hs Hh Hf; cbn in Hf; try lia; destruct Hc as [-> Hc]; cbn [first_fit].
  - destruct (Hin h) as [HhA ?]; [by left|]. destruct (Z.eqb_spec h 0); [lia|]. destruct (Hd h HhA) as [-> _]. cbn [mbind option_bind]. by rewrite Hh.
  - destruct (Hin a) as [HaA ?]; [by left|]. destruct (Z.eqb_spec a 0); [lia|]. destruct (Hd a HaA) as [-> ->]. cbn [mbind option_bind]. rewrite Hs by (by left).
    apply IH; auto; [intros x Hx; apply Hin; by right|intros x Hx; apply Hs; by right|lia].
Qed.
Lemma first_fit_none A m L N small F : forall fuel head, hdrs A m L N -> chain N head F -> listed A F ->
  (forall x, x ∈ F -> small (L x) = true) -> (length F <= fuel)%nat -> first_fit fuel small m head = Some 0.
Proof.
  induction F as [|a F IH]; intros fuel head Hd Hc Hin Hs Hf; [cbn in Hc; subst; by destruct fuel|]. destruct fuel as [|fuel]; cbn in Hf; [lia|]. destruct Hc as [-> Hc]; cbn [first_fit].
  destruct (Hin a) as [HaA ?]; [by left|]. destruct (Z.eqb_spec a 0); [lia|]. destruct (Hd a HaA) as [-> ->]. cbn [mbind option_bind]. rewrite Hs by (by left).
  apply IH; auto; [intros x Hx; apply Hin; by right|intros x Hx; apply Hs; by right|lia].
Qed.

Lemma place_some fits size p bs' bs : forall a, place_block fits size a bs = Some (p, bs') ->
  exists bs1 l bs2, bs = bs1 ++ (l, false) :: bs2 /\ fits l = true /\ p = finsh_block_get_data (a + extent bs1) /\
    bs' = bs1 ++ (size, true) :: (l - HEADER - size, false) :: bs2 /\ forall x k, (x, k, false) ∈ layout a bs1 -> fits k = false.
Proof.
  revert bs'. induction bs as [|[l u] bs IH]; intros bs' a H; cbn [place_block] in H; [done|].
  assert (Hstep : u = true \/ fits l = false -> ('(p, r) ← place_block fits size (a + HEADER + l) bs; Some (p, (l, u) :: r)) = Some (p, bs') ->
    exists bs1 l0 bs2, (l, u) :: bs = bs1 ++ (l0, false) :: bs2 /\ fits l0 = true /\ p = finsh_block_get_data (a + extent bs1) /\
      bs' = bs1 ++ (size, true) :: (l0 - HEADER - size, false) :: bs2 /\ forall x k, (x, k, false) ∈ layout a bs1 -> fits k = false).
  { intros Hu E. destruct (place_block fits size (a + HEADER + l) bs) as [[p' r]|] eqn:E1; [|done]. injection E as -> <-. destruct (IH _ _ E1) as (bs1 & l0 & bs2 & -> & H2 & -> & -> & H3).
    exists ((l, u) :: bs1), l0, bs2. split_and!; try done; [cbn; f_equal; lia|]. intros x k [[= -> -> <-]|Hin]%elem_of_cons; [by destruct Hu|by eapply H3]. }
  destruct u; [by apply Hstep; [left|]|]. destruct (fits l) eqn:E; [|by apply Hstep; [right|]]. injection H as <- <-.
  exists [], l, bs. cbn. split_and!; try done; [f_equal; lia|]. intros x k Hin. by apply elem_of_nil in Hin.
Qed.
Lemma place_none fits size bs : forall a, place_block fits size a bs = None -> forall x k, (x, k, false) ∈ layout a bs -> fits k = false.
Proof.
  induction bs as [|[l u] bs IH]; intros a H x k Hin; cbn [place_block layout] in *; [by apply elem_of_nil in Hin|].
  assert (Hp : place_block fits size (a + HEADER + l) bs = None /\ (u = false -> fits l = false)).
  { destruct u; [|destruct (fits l); [done|]]; by destruct (place_block fits size (a + HEADER + l) bs) as [[]|]. }
  destruct Hp as [Hp Hl]. apply elem_of_cons in Hin as [[= -> -> <-]|Hin]; [by apply Hl|by eapply IH].
Qed.

(** A free block that is large enough is split, and its front part is allocated and cleared. *)
Lemma allocate_block_run base s bs1 l bs2 size :
  let bs' := bs1 ++ (size, true) :: (l - HEADER - size, false) :: bs2 in
  let h := base + extent bs1 in
  rep base s (bs1 ++ (l, false) :: bs2) -> 0 <= size -> size + HEADER <= l ->
  exists s', (m ← finsh_block_split (fh_mem s) h size;
              r ← finsh_block_remove m (free_list s) h; let '(free, m) := r in
              m ← set_block_next m h 0;
              r ← finsh_block_insert m (allocate_list s) h; let '(alloc, m) := r in
              m ← set_bytes m (finsh_block_get_data h) (Z.to_nat size) 0;
              Some (finsh_block_get_data h, Fheap m free alloc)) = Some (finsh_block_get_data h, s') /\ rep base s' bs' /\
    (forall x, finsh_block_get_data h <= x < finsh_block_get_data h + size -> fh_mem s' !! x = Some 0) /\
    same_data base (bs1 ++ (l, false) :: bs2) (fh_mem s) (fh_mem s').
Proof.
  intros bs' h [Hs Hm Hmap (L & N & Hh)] Hsz Hl. assert (HE : HEADER = 8) by done.
  destruct (split_run _ _ _ _ _ _ _ _ _ _ Hs Hmap Hh Hsz Hl) as (m1 & L1 & N1 & E1 & Hh1 & Hk1). fold h in E1. pose proof (split_shape _ _ _ _ _ Hs Hsz Hl) as Hs1.
  destruct (take_run base m1 (free_list s) (allocate_list s) bs1 size ((l - HEADER - size, false) :: bs2) L1 N1 ltac:(done) Hs1 Hh1) as (free & m2 & m3 & alloc & m4 & L4 & N4 & E2 & E3 & E4 & Hh4 & Hk4). fold h in E2, E3, E4. fold bs' in Hh4, Hk4.
  pose proof (used_shape base bs1 size ((l - HEADER - size, false) :: bs2) ltac:(done) Hs1) as Hs4. fold bs' in Hs4. pose proof Hs4 as (Hb & Hb2 & Hok & He & _).
  assert (Hk : kept (addresses base bs') (fh_mem s) m4).
  { eapply kept_trans; [|exact Hk4]. eapply kept_sub; [|exact Hk1]. intros a Ha. exists a. split; [by eapply addresses_state|lia]. }
  assert (Hinh : (h, size, true) ∈ layout base bs') by (unfold bs'; rewrite layout_mid, elem_of_app; right; by left). pose proof (layout_in _ _ _ _ _ Hok Hinh) as Hxh.
  pose proof (kept_mapped base bs' (fh_mem s) m4 L4 N4 Hok He Hmap (proj1 Hh4) Hk) as Hmap4.
  destruct (set_bytes_filled m4 (finsh_block_get_data h) 0 (Z.to_nat size) m4 0) as (m5 & E5 & Hf5); [intros x; in_block; done|lia| |lia|].
  { unfold finsh_block_get_data. eapply mapped_sub; [exact Hmap4|unfold FINSH_HEAP_MAX in *; lia..]. }
  rewrite Z.add_0_r in E5. rewrite Z.add_0_l, Z2Nat.id in Hf5 by lia.
  assert (Hsame : forall x, x < h + HEADER \/ h + HEADER + size <= x -> m5 !! x = m4 !! x) by (intros x Hx; rewrite Hf5; unfold finsh_block_get_data; in_block; done).
  rewrite E1. cbn [mbind option_bind]. rewrite E2. cbn [mbind option_bind]. rewrite E3. cbn [mbind option_bind]. rewrite E4. cbn [mbind option_bind]. rewrite E5. cbn [mbind option_bind].
  exists (Fheap m5 free alloc). split; [done|]. cbn. split; [|split].
  - split; cbn; [done| | |].
    + unfold bs'. apply merged_app in Hm as [Hm1 Hm2]. clear -Hm1 Hm2. induction bs1 as [|[k u] bs1 IH]; cbn [app]; [by destruct bs2 as [|[j []] bs2]|].
      specialize (IH (merged_cons _ _ Hm1)). destruct u, bs1 as [|[j []] bs1]; cbn in *; done.
    + intros x Hx. rewrite Hf5. in_block; try (by eexists); apply Hmap4; lia.
    + exists L4, N4. destruct Hh4 as (Hd & Hrest). split; [|done]. intros b Hb0. destruct (Hd b Hb0) as [<- <-]. apply addresses_layout in Hb0 as (k & v & Hb0). pose proof (layout_in _ _ _ _ _ Hok Hb0).
      unfold block_length, block_next. assert (Hx : b + 8 <= h + HEADER \/ h + HEADER + size <= b) by (destruct (layout_apart _ _ _ _ _ _ _ _ Hok Hinh Hb0) as [(<- & _ & _)|?]; lia).
      split; apply load32_same; intros x Hxb; apply Hsame; lia.
  - intros x Hx. rewrite Hf5. in_block. done.
  - destruct (kept_same_data base bs' _ _ Hok He Hk) as [Ho Hu]. split.
    + intros x Hx. rewrite <-Ho by done. apply Hsame. unfold FINSH_HEAP_MAX in *. lia.
    + assert (Hok0 : lengths_ok (bs1 ++ (l, false) :: bs2)) by apply Hs. intros a k Hin x Hx. assert (Hin' : (a, k, true) ∈ layout base bs').
      { unfold bs'. rewrite layout_mid, elem_of_app, !elem_of_cons in *. cbn [layout]. fold h. rewrite elem_of_cons. replace (h + HEADER + size + HEADER + (l - HEADER - size)) with (h + HEADER + l) by lia.
        destruct Hin as [?|[[=]|?]]; auto. }
      rewrite <-(Hu a k Hin' x Hx). apply Hsame. assert (Hl0 : (h, l, false) ∈ layout base (bs1 ++ (l, false) :: bs2)) by (rewrite layout_mid, elem_of_app; right; by left).
      destruct (layout_apart _ _ _ _ _ _ _ _ Hok0 Hin Hl0) as [(_ & _ & [=])|?]; lia.
Qed.

Lemma find_run base s bs size fits small : rep base s bs -> (forall l, 0 <= l -> fits l = negb (small l)) ->
  first_fit walk small (fh_mem s) (free_list s) = Some (match place_block fits size base bs with Some (p, _) => finsh_block_get_header p | None => 0 end).
Proof.
  intros [Hs Hm Hmap (L & N & Hd & HL & Hf & Ha)] Hfits. pose proof Hs as (Hb & Hb2 & Hok & He & _). pose proof (headers_few false base _ Hok He) as Hfew.
  pose proof (ascending_listed _ _ (state_ascending _ _ false Hs)) as Hin.
  assert (Hsmall : forall bs0 x, (forall a k, (a, k, false) ∈ layout base bs0 -> (a, k, false) ∈ layout base bs /\ fits k = false) -> x ∈ headers false base bs0 -> small (L x) = true).
  { intros bs0 x H (k & Hx)%layout_headers. destruct (H x k Hx) as [Hx2 Hk]. rewrite (HL x k false Hx2). apply layout_in in Hx2; [|done]. rewrite Hfits in Hk by lia. by apply negb_false_iff. }
  destruct (place_block fits size base bs) as [[p bs']|] eqn:E.
  - apply place_some in E as (bs1 & l & bs2 & -> & Hl & -> & _ & Hnot). assert (HLh : (base + extent bs1, l, false) ∈ layout base (bs1 ++ (l, false) :: bs2)) by (rewrite layout_mid, elem_of_app; right; by left).
    rewrite headers_mid in Hf, Hin, Hfew. cbn [Bool.eqb app] in Hf, Hin, Hfew. rewrite length_app in Hfew.
    rewrite (first_fit_run _ _ L N small (base + extent bs1) _ _ _ _ Hd Hf Hin); [unfold finsh_block_get_header, finsh_block_get_data; f_equal; lia| | |lia].
    + intros x Hx. eapply Hsmall; [|exact Hx]. intros a k Hk. split; [rewrite layout_mid, elem_of_app; by left|by eapply Hnot].
    + rewrite (HL _ _ _ HLh). apply layout_in in HLh; [|done]. rewrite Hfits in Hl by lia. by apply negb_true_iff.
  - pose proof (place_none _ _ _ _ E) as Hnot. apply (first_fit_none _ _ L N small _ _ _ Hd Hf Hin); [|lia]. intros x Hx. eapply Hsmall; [|exact Hx]. intros a k Hk. split; [done|by eapply Hnot].
Qed.

(** ** The allocator *)

Lemma HEAP_ALIGN_SIZE_4 size : 0 <= size < 4294967280 -> HEAP_ALIGN_SIZE size = 4 * ((size + 3) / 4).
Proof. intros H. change (HEAP_ALIGN_SIZE size) with (RT_ALIGN size 4). rewrite RT_ALIGN_4 by lia. Z.div_mod_to_equations; lia. Qed.

(** After [finsh_heap_init] the heap is one free block. *)
Lemma finsh_heap_init_run base m : 0 < base -> base + FINSH_HEAP_MAX < 4294967296 -> mapped m base FINSH_HEAP_MAX ->
  exists s, finsh_heap_init base m = Some s /\ rep base s [(120, false)] /\ outside base m (fh_mem s).
Proof.
  intros Hb Hb2 Hm. unfold finsh_heap_init. destruct (set_bytes_filled m base 0 (Z.to_nat FINSH_HEAP_MAX) m 0) as (m1 & E1 & Hf); [intros x; in_block; done|lia|by rewrite Z.add_0_r|lia|].
  rewrite Z.add_0_r in E1. rewrite E1. cbn [mbind option_bind]. change (0 + Z.of_nat (Z.to_nat FINSH_HEAP_MAX)) with 128 in Hf. unfold FINSH_HEAP_MAX in *.
  assert (Hm1 : mapped m1 base 128) by (intros x Hx; rewrite Hf; in_block; by eexists).
  destruct (load32_some m1 base) as [g Eg]; [eapply mapped_sub; [exact Hm1|lia..]|]. destruct (load32_some m1 (base + 4)) as [g' Eg']; [eapply mapped_sub; [exact Hm1|lia..]|].
  assert (HA : apart [base]) by (intros a b ->%list_elem_of_singleton ->%list_elem_of_singleton; by left). assert (Hin : base ∈ [base]) by (by left).
  assert (H1 : hdrs [base] m1 (fun _ => g) (fun _ => g')) by (intros a ->%list_elem_of_singleton; done).
  destruct (set_length_run _ HA m1 _ _ base (128 - HEADER) H1 Hin ltac:(done)) as (m2 & -> & H2 & Hk2). cbn [mbind option_bind].
  destruct (set_next_run _ HA m2 _ _ base 0 H2 Hin ltac:(lia)) as (m3 & -> & H3 & Hk3). cbn [mbind option_bind]. pose proof (kept_trans _ _ _ _ Hk2 Hk3) as Hk.
  assert (Hs : shape base [(120, false)]) by (split_and!; [done|unfold FINSH_HEAP_MAX; lia|by apply list.Forall_singleton|done|by exists [], 120]).
  exists (Fheap m3 base 0). split; [done|]. split; [split; cbn; [done|done| |]|].
  - eapply (kept_mapped base [(120, false)] m1); [apply Hs..|done|exact H3|done].
  - eexists _, _. split; [exact H3|]. cbn. rewrite !fn_lookup_insert. split_and!; try done. intros a l u [= -> -> ->]%list_elem_of_singleton. by rewrite fn_lookup_insert.
  - intros x Hx. cbn. unfold FINSH_HEAP_MAX in Hx. rewrite Hk by (intros a ->%list_elem_of_singleton; unfold HEADER; lia). rewrite Hf. in_block; done.
Qed.

(** The variables have values in the memory, outside of the heap. *)
Definition variables_at (base : Z) (m : mem) (vars : list finsh_var) (variables : Z) : Prop :=
  forall i, (i < length vars)%nat -> mapped m (var_value variables i) 4 /\ (var_value variables i + 4 <= base \/ base + FINSH_HEAP_MAX <= var_value variables i).
(** A variable of the table that has a type holds the address [d]. *)
Definition referenced (vars : list finsh_var) (variables : Z) (m : mem) (d : Z) : bool :=
  existsb (fun i => match vars !! i with
                    | Some v => bool_decide (fv_type v <> finsh_type_unknown) && bool_decide (load32 m (var_value variables i) = Some d)
                    | None => false
                    end) (seq 0 (length vars)).
Lemma pointed_referenced base variables m m' d pre vars :
  outside base m m' -> variables_at base m (pre ++ vars) variables ->
  pointed variables m' vars (length pre) d =
    Some (existsb (fun i => match (pre ++ vars) !! i with
                            | Some v => bool_decide (fv_type v <> finsh_type_unknown) && bool_decide (load32 m (var_value variables i) = Some d)
                            | None => false
                            end) (seq (length pre) (length vars))).
Proof.
  intros Ho. revert pre. induction vars as [|v vars IH]; intros pre Hv; cbn [pointed length seq existsb]; [done|].
  destruct (Hv (length pre)) as [Hmap Hout]; [rewrite length_app; cbn; lia|]. destruct (load32_some _ _ Hmap) as [p E].
  assert (E' : load32 m' (var_value variables (length pre)) = Some p) by (rewrite <-E; apply load32_same; intros x Hx; apply Ho; lia).
  rewrite E', list_lookup_middle, E by done. specialize (IH (pre ++ [v])). rewrite length_app, Nat.add_1_r, <-app_assoc in IH. specialize (IH Hv).
  destruct (bool_decide (fv_type v <> finsh_type_unknown)); cbn [mbind option_bind andb orb]; [|done].
  destruct (Z.eqb_spec p d) as [->|Hne]; [by rewrite bool_decide_true|]. rewrite bool_decide_false by congruence. done.
Qed.
Lemma pointed_live base variables m m' d vars : outside base m m' -> variables_at base m vars variables ->
  pointed variables m' vars 0 d = Some (referenced vars variables m d).
Proof. intros Ho Hv. exact (pointed_referenced base variables m m' d [] vars Ho Hv). Qed.

(** The blocks after the collection, with the memory of those that stay. *)
Lemma finsh_heap_gc_run base s bs vars variables : rep base s bs -> variables_at base (fh_mem s) vars variables ->
  let live := referenced vars variables (fh_mem s) in
  exists s', finsh_heap_gc vars variables s = Some s' /\ rep base s' (coalesce (sweep live base bs)) /\ same_data base (sweep live base bs) (fh_mem s) (fh_mem s').
Proof.
  intros Hr Hv live. pose proof Hr as [(Hb & Hb2 & Hok & He & Hlast) Hm Hmap (L & N & Hh)]. unfold finsh_heap_gc. pose proof (headers_few true base _ Hok He) as Hfew.
  destruct (gc_loop_run vars variables base live (fh_mem s)) with (bs := bs) (kept := @nil block) (s := s) (fuel := walk) as (s' & E & Hr' & Hs').
  - intros m d Ho. by eapply pointed_live.
  - cbn [app]. by rewrite coalesce_merged.
  - by intros x _.
  - cbn [extent]. rewrite Z.add_0_r. lia.
  - cbn [extent app] in *. rewrite Z.add_0_r in *. exists s'. split; [|done]. destruct Hh as (_ & _ & _ & Ha). apply chain_head in Ha. by rewrite Ha.
Qed.

(** What [finsh_heap_allocate] does with the block it has found. *)
Lemma allocate_found base s bs fits size p bs' : rep base s bs -> place_block fits size base bs = Some (p, bs') -> 0 <= size -> (forall l, fits l = true -> size + HEADER <= l) ->
  let h := finsh_block_get_header p in
  h <> 0 /\ exists s', (m ← finsh_block_split (fh_mem s) h size;
              r ← finsh_block_remove m (free_list s) h; let '(free, m) := r in
              m ← set_block_next m h 0;
              r ← finsh_block_insert m (allocate_list s) h; let '(alloc, m) := r in
              m ← set_bytes m (finsh_block_get_data h) (Z.to_nat size) 0;
              Some (finsh_block_get_data h, Fheap m free alloc)) = Some (p, s') /\ rep base s' bs' /\ outside base (fh_mem s) (fh_mem s') /\
    (forall x, p <= x < p + size -> fh_mem s' !! x = Some 0) /\
    (forall a l, (a, l, true) ∈ layout base bs' -> Some p <> Some (finsh_block_get_data a) ->
      (a, l, true) ∈ layout base bs /\ forall x, a + HEADER <= x < a + HEADER + l -> fh_mem s' !! x = fh_mem s !! x).
Proof.
  intros Hr E Hsz Hfits h. apply place_some in E as (bs1 & l & bs2 & -> & Hl & -> & -> & _). apply Hfits in Hl.
  destruct (allocate_block_run _ _ _ _ _ _ Hr Hsz Hl) as (s' & E & Hr' & Hz & [Ho Hd]). pose proof Hr as [(Hb & _ & Hok & _) _ _ _].
  replace h with (base + extent bs1) in * by (unfold h, finsh_block_get_header, finsh_block_get_data; lia). split.
  - unfold lengths_ok in Hok. apply Forall_app in Hok as [Hok _]. pose proof (extent_pos _ Hok). lia.
  - exists s'. split; [done|]. split; [done|]. split; [done|]. split; [done|]. intros a k Hin Hne. assert (Hin' : (a, k, true) ∈ layout base (bs1 ++ (l, false) :: bs2)).
    { rewrite layout_mid, elem_of_app, elem_of_cons in *. cbn [layout] in Hin. rewrite elem_of_cons in Hin.
      replace (base + extent bs1 + HEADER + size + HEADER + (l - HEADER - size)) with (base + extent bs1 + HEADER + l) in Hin by lia. naive_solver. }
    split; [done|]. by apply Hd.
Qed.

(** C20. [finsh_heap_allocate] refines a first-fit allocator on the blocks the heap is divided into:
    it takes the first free block that is long enough for the size, rounded up to a multiple of 4,
    and for another header; when there is none, the blocks that no variable points to are collected
    and merged with their neighbours first, and then a block may be used up. The data are cleared,
    and nothing else changes: not the data of the other allocated blocks and not the memory around
    the heap. Without room the result is the null pointer. *)
Theorem finsh_heap_allocate_refines base s bs vars variables size :
  rep base s bs -> variables_at base (fh_mem s) vars variables -> 0 <= size < 4294967280 ->
  let sz := 4 * ((size + 3) / 4) in
  let '(r, bs') := allocate_spec (referenced vars variables (fh_mem s)) sz base bs in
  exists s', finsh_heap_allocate vars variables size s = Some (default 0 r, s') /\ rep base s' bs' /\ outside base (fh_mem s) (fh_mem s') /\
    (forall x, match r with Some p => p <= x < p + sz | None => False end -> fh_mem s' !! x = Some 0) /\
    (forall a l, (a, l, true) ∈ layout base bs' -> r <> Some (finsh_block_get_data a) -> forall x, a + HEADER <= x < a + HEADER + l -> fh_mem s' !! x = fh_mem s !! x).
Proof.
  intros Hr Hv Hsize sz. unfold allocate_spec, finsh_heap_allocate. rewrite HEAP_ALIGN_SIZE_4 by done. fold sz. assert (Hsz : 0 <= sz < 4294967284) by (subst sz; Z.div_mod_to_equations; lia).
  rewrite u32_id by (unfold HEADER; lia). set (live := referenced vars variables (fh_mem s)).
  rewrite (find_run base s bs sz (fun l => sz + HEADER <? l)) by (done || (intros; zcases; cbn; lia)). cbn [mbind option_bind].
  destruct (place_block _ sz base bs) as [[p bs']|] eqn:E.
  - destruct (allocate_found _ _ _ _ _ _ _ Hr E ltac:(lia)) as (Hne & s' & E' & H1 & H2 & H3 & H4); [intros l H; apply Z.ltb_lt in H; lia|].
    rewrite (proj2 (Z.eqb_neq _ 0) Hne). cbn [mbind option_bind]. rewrite (proj2 (Z.eqb_neq _ 0) Hne), E'. exists s'. split_and!; try done. intros a l Hin Hp. apply (H4 a l Hin Hp).
  - cbn [Z.eqb]. destruct (finsh_heap_gc_run _ _ _ _ _ Hr Hv) as (s1 & -> & Hr1 & [Ho1 Hd1]). fold live in Hr1, Hd1. cbn [mbind option_bind]. set (bs1 := coalesce (sweep live base bs)) in *.
    assert (Hd : forall a l, (a, l, true) ∈ layout base bs1 -> forall x, a + HEADER <= x < a + HEADER + l -> fh_mem s1 !! x = fh_mem s !! x) by (intros a l Hin; exact (Hd1 a l (proj1 (layout_coalesce _ _ _ _) Hin))).
    rewrite (find_run base s1 bs1 sz (fun l => sz + HEADER <=? l)) by (done || (intros; zcases; cbn; lia)). cbn [mbind option_bind].
    destruct (place_block _ sz base bs1) as [[p bs']|] eqn:E2; cbn [from_option id].
    + destruct (allocate_found _ _ _ _ _ _ _ Hr1 E2 ltac:(lia)) as (Hne & s' & E' & H1 & H2 & H3 & H4); [intros l H; apply Z.leb_le in H; lia|].
      rewrite (proj2 (Z.eqb_neq _ 0) Hne), E'. exists s'. split_and!; try done; [intros x Hx; by rewrite H2, Ho1|]. intros a l Hin Hp x Hx. destruct (H4 a l Hin Hp) as [Hin' H5]. by rewrite H5, (Hd a l).
    + exists s1. split_and!; try done. intros a l Hin _. by apply Hd.
Qed.

(** A heap at 2048 and the variables at 4096; the first variable, at 4116, may point to a string. *)
Definition mem8 : mem := list_to_map (map (fun a => (a, 0)) (seqZ 2048 128 ++ seqZ 4096 192)).
Definition vars8 : list finsh_var := Var [115] finsh_type_charp :: replicate 7 (Var [] finsh_type_unknown).
Lemma variables8 m : outside 2048 mem8 m -> variables_at 2048 m vars8 4096.
Proof.
  intros H i Hi. cbn in Hi. unfold var_value, FINSH_HEAP_MAX. split; [|lia]. intros x Hx. rewrite H by (unfold FINSH_HEAP_MAX; lia).
  apply (mapped_check mem8 4096 192); [vm_compute; done|lia].
Qed.

(** Of 60 bytes, and 60 bytes again: the first block is collected. *)
Lemma finsh_heap_allocate_refines_witness :
  exists s0 s1 s2, finsh_heap_init 2048 mem8 = Some s0 /\ finsh_heap_allocate vars8 4096 60 s0 = Some (2056, s1) /\
    finsh_heap_allocate vars8 4096 58 s1 = Some (2056, s2) /\ rep 2048 s2 [(60, true); (52, false)].
Proof.
  destruct (finsh_heap_init_run 2048 mem8) as (s0 & E0 & H0 & O0); [lia|vm_compute; done|apply mapped_check; vm_compute; done|].
  pose proof (finsh_heap_allocate_refines 2048 s0 _ vars8 4096 60 H0 (variables8 _ O0) ltac:(lia)) as (s1 & E1 & H1 & O1 & _).
  assert (O2 : outside 2048 mem8 (fh_mem s1)) by (intros x Hx; by rewrite O1, O0).
  pose proof (finsh_heap_allocate_refines 2048 s1 _ vars8 4096 58 H1 (variables8 _ O2) ltac:(lia)) as H2.
  change (4 * ((60 + 3) / 4)) with 60 in H1, H2. change (4 * ((58 + 3) / 4)) with 60 in H2. change (120 - HEADER - 60) with 52 in H1, H2. set (live := referenced vars8 4096 (fh_mem s1)) in H2.
  assert (El : live 2056 = false).
  { pose proof (pointed_live 2048 4096 mem8 _ 2056 vars8 O2 (variables8 _ (fun x _ => eq_refl))) as Ep.
    rewrite (pointed_live 2048 4096 (fh_mem s1) _ 2056 vars8 (fun x _ => eq_refl) (variables8 _ O2)) in Ep. apply (inj Some) in Ep. unfold live. etransitivity; [exact Ep|vm_compute; reflexivity]. }
  clearbody live. assert (Es : allocate_spec live 60 2048 [(60, true); (52, false)] = (Some 2056, [(60, true); (52, false)])).
  { unfold allocate_spec. cbn. change (finsh_block_get_data 2048) with 2056. rewrite El. reflexivity. }
  cbv zeta in H2. rewrite Es in H2. destruct H2 as (s2 & E2 & H2 & _). exists s0, s1, s2. split; [exact E0|]. split; [exact E1|]. split; [exact E2|exact H2].
Defined.
