(* ===== verification/FinshParser.v ===== *)
(** * The parser of the FinSH shell
      (src/components/finsh/finsh_parser.c, finsh_node.c, finsh_var.c and finsh_vm.c)

    The recursive descent over the tokens of FinshToken.v: it enters variables in their table,
    looks names up and makes the trees that FinshCompiler.v translates.  The theorem says that
    the parser follows the grammar that the comments of the source give, with its precedences,
    for all expressions without parentheses around an operand. *)
From S2P Require Import Prelude MemFunc FinshVm FinshCompiler FinshToken FinshHeap.

Definition FINSH_NAME_MAX : nat := 16.
Definition FINSH_NODE_MAX : nat := 16.
Definition FINSH_ERROR_OK : Z := 0.
Definition FINSH_ERROR_INVALID_TOKEN : Z := 1.
Definition FINSH_ERROR_EXPECT_TYPE : Z := 2.
Definition FINSH_ERROR_VARIABLE_EXIST : Z := 4.
Definition FINSH_ERROR_EXPECT_OPERATOR : Z := 5.
Definition FINSH_ERROR_MEMORY_FULL : Z := 6.
Definition FINSH_ERROR_UNKNOWN_SYMBOL : Z := 13.
Definition FINSH_ERROR_NULL_NODE : Z := 14.

(** [struct finsh_parser], with [global_errno] in the token, and what its functions keep in other
    globals: the types of the nodes of [global_node_table], the table of variables and the heap.
    A node that is taken from the table is all zero but for its type. *)
Record parser := Parser {
  ps_token : finsh_token; ps_root : tree; ps_nodes : list node_type; ps_vars : list finsh_var; ps_heap : fheap }.
Definition set_ps_token (t : finsh_token) (p : parser) : parser := Parser t (ps_root p) (ps_nodes p) (ps_vars p) (ps_heap p).
Definition set_ps_root (t : tree) (p : parser) : parser := Parser (ps_token p) t (ps_nodes p) (ps_vars p) (ps_heap p).
Definition set_ps_nodes (l : list node_type) (p : parser) : parser := Parser (ps_token p) (ps_root p) l (ps_vars p) (ps_heap p).
Definition set_ps_vars (l : list finsh_var) (p : parser) : parser := Parser (ps_token p) (ps_root p) (ps_nodes p) l (ps_heap p).
Definition set_ps_heap (h : fheap) (p : parser) : parser := Parser (ps_token p) (ps_root p) (ps_nodes p) (ps_vars p) h.

(** A function of the parser: what it returns and the state behind it; [None] when the code
    would go through a null pointer or read what is not there. *)
Definition P (A : Type) : Type := parser -> option (A * parser).
#[export] Instance P_ret : MRet P := fun A x p => Some (x, p).
#[export] Instance P_bind : MBind P := fun A B f m p => match m p with Some (x, p) => f x p | None => None end.
Definition undefined {A} : P A := fun _ => None.

Definition error_set (e : Z) : P unit := fun p => Some (tt, set_ps_token (set_tk_errno e (ps_token p)) p).
Definition token_replay : P unit := fun p => Some (tt, set_ps_token (set_tk_replay true (ps_token p)) p).
Definition next_token : P finsh_token_type := fun p =>
  match finsh_token_token (ps_token p) with Some (k, t) => Some (k, set_ps_token t p) | None => None end.
Definition check_token (token type : finsh_token_type) : P unit :=
  if bool_decide (token <> type) then error_set FINSH_ERROR_INVALID_TOKEN;; token_replay else mret tt.
Definition match_token (type : finsh_token_type) : P unit := token ← next_token; check_token token type.

(** ** Variables and symbols *)

(** [strncmp(a, b, FINSH_NAME_MAX) == 0]. *)
Definition same_name (a b : list Z) : bool := bool_decide (take FINSH_NAME_MAX a = take FINSH_NAME_MAX b).

(** The loop of [finsh_var_insert]: [None] when the name is there, otherwise the first entry
    without a type. *)
Fixpoint var_scan (name : list Z) (l : list finsh_var) (i : nat) (empty : option nat) : option (option nat) :=
  match l with
  | [] => Some empty
  | v :: l =>
      if same_name (fv_name v) name then None
      else var_scan name l (S i) (match empty with
                                  | None => if bool_decide (fv_type v = finsh_type_unknown) then Some i else None
                                  | Some _ => empty
                                  end)
  end.
Definition finsh_var_insert (name : list Z) (type : finsh_type) (l : list finsh_var) : Z * list finsh_var :=
  match var_scan name l 0 None with
  | Some (Some empty) => (Z.of_nat empty, <[empty := Var (take FINSH_NAME_MAX name) type]> l)
  | _ => (-1, l)
  end.
Fixpoint finsh_var_lookup (name : list Z) (l : list finsh_var) (i : nat) : option nat :=
  match l with
  | [] => None
  | v :: l => if same_name (fv_name v) name then Some i else finsh_var_lookup name l (S i)
  end.
(** The entry is cleared, its value in the memory at [variables] too. *)
Definition finsh_var_delete (variables : Z) (name : list Z) (l : list finsh_var) (m : mem) : option (Z * list finsh_var * mem) :=
  match finsh_var_lookup name l 0 with
  | None => Some (-1, l, m)
  | Some i => m ← store32 m (var_value variables i) 0; Some (0, <[i := Var [] finsh_type_unknown]> l, m)
  end.

Section Parser.
(** The symbols of the firmware: the tables that are linked, and the lists of those that are
    appended at run time, the last one first. *)
Context (sysvar_table global_sysvar_list : list finsh_sysvar) (syscall_table global_syscall_list : list finsh_syscall) (variables : Z).

(** [strcmp] in the table, [strncmp(..., name, strlen(name))] in the list. *)
Definition finsh_sysvar_lookup (name : list Z) : option finsh_sysvar :=
  match List.find (fun v => bool_decide (sv_name v = name)) sysvar_table with
  | Some v => Some v
  | None => List.find (fun v => bool_decide (take (length name) (sv_name v) = name)) global_sysvar_list
  end.
Definition finsh_syscall_lookup (name : list Z) : option finsh_syscall :=
  match List.find (fun c => bool_decide (sc_name c = name)) syscall_table with
  | Some c => Some c
  | None => List.find (fun c => bool_decide (take (length name) (sc_name c) = name)) global_syscall_list
  end.

(** ** Nodes *)

(** The loop of [finsh_node_allocate]: the first entry of type [FINSH_NODE_UNKNOWN] gets [type]. *)
Fixpoint node_fill (type : node_type) (l : list node_type) : option (list node_type) :=
  match l with
  | [] => None
  | FINSH_NODE_UNKNOWN :: l => Some (type :: l)
  | t :: l => l' ← node_fill type l; Some (t :: l')
  end.
Definition finsh_node_allocate (type : node_type) : P bool := fun p =>
  match node_fill type (ps_nodes p) with
  | Some l => Some (true, set_ps_nodes l p)
  | None => Some (false, p)
  end.

(** A node of a type whose fields are [n]; the error when there is none left. *)
Definition new_node (type : node_type) (n : finsh_node) : P tree :=
  ok ← finsh_node_allocate type;
  if (ok : bool) then mret (T n NULL NULL) else error_set FINSH_ERROR_MEMORY_FULL;; mret NULL.

(** The identifier that a name stands for, with its kind.  A name of 16 characters has no zero
    behind it in the buffer of the parser: [strcmp] reads on. *)
Definition symbol_lookup (l : list finsh_var) (id : list Z) : option (option (Z * ident)) :=
  match finsh_var_lookup id l 0 with
  | Some i => Some (Some (FINSH_IDTYPE_VAR, id_var i))
  | None =>
      if (length id <? FINSH_NAME_MAX)%nat then
        match finsh_sysvar_lookup id with
        | Some v => Some (Some (FINSH_IDTYPE_SYSVAR, id_sysvar v))
        | None =>
            match finsh_syscall_lookup id with
            | Some c => Some (Some (FINSH_IDTYPE_SYSCALL, id_syscall c))
            | None => Some None
            end
        end
      else None
  end.
Definition finsh_node_new_id (id : list Z) : P tree := fun p =>
  match symbol_lookup (ps_vars p) id with
  | None => None
  | Some (Some (type, symbol)) => new_node FINSH_NODE_ID (Node FINSH_NODE_ID 0 type 0 symbol) p
  | Some None => (error_set FINSH_ERROR_UNKNOWN_SYMBOL;; mret NULL) p
  end.
Definition finsh_node_new_char (c : Z) : P tree := new_node FINSH_NODE_VALUE_CHAR (leaf FINSH_NODE_VALUE_CHAR (u8 c)).
Definition finsh_node_new_int (i : Z) : P tree := new_node FINSH_NODE_VALUE_INT (leaf FINSH_NODE_VALUE_INT (u32 i)).
Definition finsh_node_new_long (l : Z) : P tree := new_node FINSH_NODE_VALUE_LONG (leaf FINSH_NODE_VALUE_LONG (u32 l)).
Definition finsh_node_new_ptr (ptr : Z) : P tree := new_node FINSH_NODE_VALUE_NULL (leaf FINSH_NODE_VALUE_NULL ptr).

(** [strncpy] of the whole string and the zero behind it. *)
Fixpoint put_bytes (m : mem) (a : Z) (l : list Z) : option mem :=
  match l with [] => Some m | c :: l => m ← store8 m a c; put_bytes m (a + 1) l end.
Definition finsh_node_new_string (s : list Z) : P tree := fun p =>
  match node_fill FINSH_NODE_VALUE_STRING (ps_nodes p) with
  | None => Some (NULL, set_ps_token (set_tk_errno FINSH_ERROR_MEMORY_FULL (ps_token p)) p)
  | Some l =>
      if bool_decide (0 ∈ s) then
        let str := cstring s in
        r ← finsh_heap_allocate (ps_vars p) variables (Z.of_nat (length str) + 1) (ps_heap p);
        let '(ptr, h) := r in
        m ← put_bytes (fh_mem h) ptr (str ++ [0]);
        Some (T (leaf FINSH_NODE_VALUE_STRING ptr) NULL NULL, set_ps_heap (Fheap m (free_list h) (allocate_list h)) (set_ps_nodes l p))
      else None
  end.

(** [finsh_node_sibling(node) = t], of a node and of the node [k] places on in a chain of siblings. *)
Definition set_sibling (node t : tree) : tree := match node with T n c _ => T n c t | NULL => NULL end.
Fixpoint set_sibling_at (k : nat) (chain t : tree) : option tree :=
  match chain with
  | NULL => None
  | T n c s => match k with O => Some (T n c t) | S k => s' ← set_sibling_at k s t; Some (T n c s') end
  end.
Definition is_null (t : tree) : bool := match t with NULL => true | T _ _ _ => false end.

Definition make_sys_node (type : node_type) (node1 node2 : tree) : P tree :=
  node ← finsh_node_allocate type;
  if negb (is_null node1) && node then mret (T (leaf type 0) (set_sibling node1 node2) NULL)
  else
    error_set FINSH_ERROR_NULL_NODE;;
    mret (if (node : bool) then T (leaf type 0) NULL NULL else NULL).

(** ** Types and names *)

Definition base_type (token : finsh_token_type) : option finsh_type :=
  match token with
  | finsh_token_type_void => Some finsh_type_void
  | finsh_token_type_char => Some finsh_type_char
  | finsh_token_type_short => Some finsh_type_short
  | finsh_token_type_int => Some finsh_type_int
  | finsh_token_type_long => Some finsh_type_long
  | _ => None
  end.
Definition is_base_type (token : finsh_token_type) : bool := bool_decide (is_Some (base_type token)).
(** The [switch] behind [unsigned]. *)
Definition unsigned_type (token : finsh_token_type) : option finsh_type :=
  match token with
  | finsh_token_type_char => Some finsh_type_uchar
  | finsh_token_type_short => Some finsh_type_ushort
  | finsh_token_type_int => Some finsh_type_uint
  | finsh_token_type_long => Some finsh_type_ulong
  | _ => None
  end.
Definition pointer_type (type : finsh_type) : finsh_type :=
  match type with
  | finsh_type_void => finsh_type_voidp
  | finsh_type_char | finsh_type_uchar => finsh_type_charp
  | finsh_type_short | finsh_type_ushort => finsh_type_shortp
  | finsh_type_int | finsh_type_uint => finsh_type_intp
  | finsh_type_long | finsh_type_ulong => finsh_type_longp
  | _ => finsh_type_voidp
  end.

(** The end of [proc_type]: a star, or the label [__return]. *)
Definition parse_pointer (type : finsh_type) : P finsh_type :=
  token ← next_token;
  if bool_decide (token = finsh_token_type_mul) then mret (pointer_type type)
  else token_replay;; mret type.
Definition unknown_type : P finsh_type := token_replay;; error_set FINSH_ERROR_UNKNOWN_TYPE;; mret finsh_type_unknown.
Definition proc_type : P finsh_type :=
  token ← next_token;
  match base_type token with
  | Some type => parse_pointer type
  | None =>
      if bool_decide (token = finsh_token_type_unsigned) then
        token ← next_token;
        if is_base_type token then
          match unsigned_type token with Some type => parse_pointer type | None => unknown_type end
        else token_replay;; error_set FINSH_ERROR_EXPECT_TYPE;; parse_pointer finsh_type_unknown
      else unknown_type
  end.

(** The name is copied whatever the token is. *)
Definition copy_name : P (list Z) := fun p => Some (take FINSH_NAME_MAX (cstring (tk_string (ps_token p))), p).
Definition proc_identifier : P (list Z) := match_token finsh_token_type_identifier;; copy_name.

(** ** Expressions

    The functions call each other: those that are parsed further in are arguments here. *)
Section Expressions.
Context (proc_assign_expr proc_cast_expr : P tree) (turns : nat).

(** The loop of a level of binary operators, behind the first operand and with the token that
    was read. *)
Fixpoint binary_loop (fuel : nat) (op : finsh_token_type -> option binop) (operand : P tree) (left : tree) (token : finsh_token_type) : P tree :=
  match op token with
  | None => token_replay;; mret left
  | Some o =>
      match fuel with
      | O => undefined
      | S fuel =>
          right ← operand;
          left ← (if is_null right then error_set FINSH_ERROR_EXPECT_OPERATOR;; mret left
                  else make_sys_node (FINSH_NODE_SYS o) left right);
          token ← next_token;
          binary_loop fuel op operand left token
      end
  end.
Definition binary_level (op : finsh_token_type -> option binop) (operand : P tree) : P tree :=
  left ← operand; token ← next_token; binary_loop turns op operand left token.

Definition mul_op (token : finsh_token_type) : option binop :=
  match token with finsh_token_type_mul => Some Mul | finsh_token_type_div => Some Div | finsh_token_type_mod => Some Mod | _ => None end.
Definition add_op (token : finsh_token_type) : option binop :=
  match token with finsh_token_type_sub => Some Sub | finsh_token_type_add => Some Add | _ => None end.
Definition shift_op (token : finsh_token_type) : option binop :=
  match token with finsh_token_type_shl => Some Shl | finsh_token_type_shr => Some Shr | _ => None end.
Definition and_op (token : finsh_token_type) : option binop := match token with finsh_token_type_and => Some And | _ => None end.
Definition xor_op (token : finsh_token_type) : option binop := match token with finsh_token_type_xor => Some Xor | _ => None end.
Definition or_op (token : finsh_token_type) : option binop := match token with finsh_token_type_or => Some Or | _ => None end.

Definition proc_multiplicative_expr : P tree := binary_level mul_op proc_cast_expr.
Definition proc_additive_expr : P tree := binary_level add_op proc_multiplicative_expr.
Definition proc_shift_expr : P tree := binary_level shift_op proc_additive_expr.
Definition proc_and_expr : P tree := binary_level and_op proc_shift_expr.
Definition proc_exclusive_or_expr : P tree := binary_level xor_op proc_and_expr.
Definition proc_inclusive_or_expr : P tree := binary_level or_op proc_exclusive_or_expr.

Definition proc_assign_body : P tree :=
  or ← proc_inclusive_or_expr;
  token ← next_token;
  if bool_decide (token = finsh_token_type_assign) then
    assign ← proc_assign_expr;
    make_sys_node FINSH_NODE_SYS_ASSIGN or assign
  else token_replay;; mret or.
Definition proc_expr : P tree := proc_assign_expr.

Definition proc_primary_expr : P tree :=
  token ← next_token;
  match token with
  | finsh_token_type_identifier => token_replay;; id ← proc_identifier; finsh_node_new_id id
  | finsh_token_type_left_paren => expr ← proc_expr; match_token finsh_token_type_right_paren;; mret expr
  | finsh_token_type_value_int => fun p => finsh_node_new_int (tk_value (ps_token p)) p
  | finsh_token_type_value_long => fun p => finsh_node_new_long (tk_value (ps_token p)) p
  | finsh_token_type_value_char => fun p => finsh_node_new_char (tk_value (ps_token p)) p
  | finsh_token_type_value_string => fun p => finsh_node_new_string (tk_string (ps_token p)) p
  | finsh_token_type_value_null => finsh_node_new_ptr 0
  | _ => error_set FINSH_ERROR_INVALID_TOKEN;; mret NULL
  end.

(** [assign] is [k] places behind [node]. *)
Fixpoint param_loop (fuel : nat) (node : tree) (k : nat) (token : finsh_token_type) : P tree :=
  if bool_decide (token = finsh_token_type_comma) then
    match fuel with
    | O => undefined
    | S fuel =>
        assign ← proc_assign_expr;
        match set_sibling_at k node assign with
        | None => undefined
        | Some node =>
            k ← (if is_null assign then error_set FINSH_ERROR_EXPECT_OPERATOR;; mret k else mret (S k));
            token ← next_token;
            param_loop fuel node k token
        end
    end
  else token_replay;; mret node.
Definition proc_param_list : P tree :=
  assign ← proc_assign_expr;
  if is_null assign then mret NULL
  else token ← next_token; param_loop turns assign O token.

Fixpoint postfix_loop (fuel : nat) (postfix : tree) (token : finsh_token_type) : P tree :=
  match token, fuel with
  | finsh_token_type_inc, S fuel => postfix ← make_sys_node FINSH_NODE_SYS_INC postfix NULL; token ← next_token; postfix_loop fuel postfix token
  | finsh_token_type_dec, S fuel => postfix ← make_sys_node FINSH_NODE_SYS_DEC postfix NULL; token ← next_token; postfix_loop fuel postfix token
  | finsh_token_type_left_paren, S fuel =>
      token ← next_token;
      param_list ← (if bool_decide (token <> finsh_token_type_right_paren) then
                      token_replay;; l ← proc_param_list; match_token finsh_token_type_right_paren;; mret l
                    else mret NULL);
      postfix ← make_sys_node FINSH_NODE_SYS_FUNC postfix param_list;
      token ← next_token;
      postfix_loop fuel postfix token
  | (finsh_token_type_inc | finsh_token_type_dec | finsh_token_type_left_paren), O => undefined
  | _, _ => token_replay;; mret postfix
  end.
Definition proc_postfix_expr : P tree :=
  postfix ← proc_primary_expr; token ← next_token; postfix_loop turns postfix token.

Definition proc_unary_expr : P tree :=
  token ← next_token;
  match token with
  | finsh_token_type_add => proc_cast_expr
  | finsh_token_type_inc => cast ← proc_cast_expr; make_sys_node FINSH_NODE_SYS_PREINC cast NULL
  | finsh_token_type_sub => cast ← proc_cast_expr; zero ← finsh_node_new_long 0; make_sys_node (FINSH_NODE_SYS Sub) zero cast
  | finsh_token_type_dec => cast ← proc_cast_expr; make_sys_node FINSH_NODE_SYS_PREDEC cast NULL
  | finsh_token_type_bitwise => cast ← proc_cast_expr; make_sys_node FINSH_NODE_SYS_BITWISE cast NULL
  | finsh_token_type_mul => cast ← proc_cast_expr; make_sys_node FINSH_NODE_SYS_GETVALUE cast NULL
  | finsh_token_type_and => cast ← proc_cast_expr; make_sys_node FINSH_NODE_SYS_GETADDR cast NULL
  | _ => token_replay;; proc_postfix_expr
  end.

(** [cast->data_type = type], the number of the type in its enumeration. *)
Definition type_number (type : finsh_type) : Z :=
  match type with
  | finsh_type_unknown => 0 | finsh_type_void => 1 | finsh_type_voidp => 2
  | finsh_type_char => 3 | finsh_type_uchar => 4 | finsh_type_charp => 5
  | finsh_type_short => 6 | finsh_type_ushort => 7 | finsh_type_shortp => 8
  | finsh_type_int => 9 | finsh_type_uint => 10 | finsh_type_intp => 11
  | finsh_type_long => 12 | finsh_type_ulong => 13 | finsh_type_longp => 14
  end.
Definition set_data_type (type : finsh_type) (t : tree) : tree :=
  match t with T n c s => T (set_nd_data (type_number type) n) c s | NULL => NULL end.
Definition proc_cast_body : P tree :=
  token ← next_token;
  if bool_decide (token = finsh_token_type_left_paren) then
    type ← proc_type;
    match_token finsh_token_type_right_paren;;
    cast ← proc_cast_expr;
    if is_null cast then token_replay;; proc_unary_expr
    else mret (set_data_type type cast)
  else token_replay;; proc_unary_expr.
End Expressions.

(** The recursion: [fuel] bounds its depth and the turns of a loop. *)
Fixpoint proc_assign_expr (fuel : nat) (p : parser) : option (tree * parser) :=
  match fuel with O => None | S f => proc_assign_body (proc_assign_expr f) (proc_cast_expr f) f p end
with proc_cast_expr (fuel : nat) (p : parser) : option (tree * parser) :=
  match fuel with O => None | S f => proc_cast_body (proc_assign_expr f) (proc_cast_expr f) f p end.

(** ** Statements *)

Definition proc_expr_statement (fuel : nat) : P tree :=
  token ← next_token;
  if bool_decide (token <> finsh_token_type_semicolon) then
    token_replay;;
    expr ← proc_expr (proc_assign_expr fuel);
    match_token finsh_token_type_semicolon;;
    mret expr
  else mret NULL.

(** A name and its entry in the table of variables. *)
Definition insert_var (id : list Z) (type : finsh_type) : P Z := fun p =>
  let '(r, l) := finsh_var_insert id type (ps_vars p) in Some (r, set_ps_vars l p).
Definition declare (type : finsh_type) : P (list Z) :=
  id ← proc_identifier;
  r ← insert_var id type;
  if r <? 0 then error_set FINSH_ERROR_VARIABLE_EXIST;; mret id else mret id.

(** The value behind [=]: a node is added to the chain at [node], whose last one is at [end]
    ([None] for a null pointer).  The token is the next one unless there is no value. *)
Definition decl_value (fuel : nat) (id : list Z) (node : tree) (end_ : option nat) : P (tree * option nat * finsh_token_type) :=
  assign ← proc_assign_expr fuel;
  if is_null assign then mret (node, end_, finsh_token_type_assign)
  else
    idnode ← finsh_node_new_id id;
    new ← make_sys_node FINSH_NODE_SYS_ASSIGN idnode assign;
    r ← (if is_null node then mret (new, if is_null new then None else Some O)
         else match end_ with
              | None => undefined
              | Some k =>
                  match set_sibling_at k node new with
                  | None => undefined
                  | Some node => mret (node, if is_null new then None else Some (S k))
                  end
              end);
    token ← next_token;
    mret (r, token).
Fixpoint decl_loop (fuel turns : nat) (type : finsh_type) (node : tree) (end_ : option nat) (token : finsh_token_type) : P (tree * finsh_token_type) :=
  if bool_decide (token = finsh_token_type_comma) then
    match turns with
    | O => undefined
    | S turns =>
        id ← declare type;
        token ← next_token;
        r ← (if bool_decide (token = finsh_token_type_assign) then decl_value fuel id node end_ else mret (node, end_, token));
        let '(node, end_, token) := r in
        decl_loop fuel turns type node end_ token
    end
  else mret (node, token).
Definition decl_rest (fuel : nat) (type : finsh_type) (node : tree) (end_ : option nat) (token : finsh_token_type) : P tree :=
  r ← decl_loop fuel fuel type node end_ token;
  let '(node, token) := r in
  check_token token finsh_token_type_semicolon;; mret node.
Definition proc_variable_decl (fuel : nat) : P tree :=
  type ← proc_type;
  id ← declare type;
  token ← next_token;
  match token with
  | finsh_token_type_comma => decl_rest fuel type NULL None token
  | finsh_token_type_assign =>
      r ← decl_value fuel id NULL None;
      let '(node, end_, token) := r in
      decl_rest fuel type node end_ token
  | finsh_token_type_semicolon => mret NULL
  | _ => error_set FINSH_ERROR_EXPECT_TYPE;; mret NULL
  end.

(** ** Lines *)

Definition get_root : P tree := fun p => Some (ps_root p, p).
Definition set_root (t : tree) : P unit := fun p => Some (tt, set_ps_root t p).
(** [node] is at the place [node] of the chain at the root; the statement becomes its sibling, or
    the root when there is none. *)
Definition attach (node : option nat) (statement : P tree) : P (option nat) :=
  root ← get_root;
  if is_null root then
    t ← statement;
    set_root t;; mret (if is_null t then None else Some O)
  else
    t ← statement;
    root ← get_root;
    match node with
    | None => undefined
    | Some k =>
        match set_sibling_at k root t with
        | None => undefined
        | Some root => set_root root;; mret (if is_null t then Some k else Some (S k))
        end
    end.
(** An expression that is not begun by a name: the token behind an empty one is skipped. *)
Definition other_statement (fuel : nat) : P tree :=
  root ← get_root;
  t ← proc_expr_statement fuel;
  if negb (is_null root) && is_null t then next_token;; mret t else mret t.

(** The turns of the loop over the statements. *)
Fixpoint run_loop (fuel turns : nat) (node : option nat) (token : finsh_token_type) : P unit :=
  if bool_decide (token = finsh_token_type_eof) || bool_decide (token = finsh_token_type_bad) then mret tt
  else
    match turns with
    | O => undefined
    | S turns =>
        token_replay;;
        node ← (if bool_decide (token = finsh_token_type_identifier) then attach node (proc_expr_statement fuel)
                else if is_base_type token || bool_decide (token = finsh_token_type_unsigned) then
                  attach node (proc_variable_decl fuel)
                else attach node (other_statement fuel));
        root ← get_root;
        if is_null root then mret tt
        else token ← next_token; run_loop fuel turns node token
    end.
(** Every token has a character. *)
Definition finsh_parser_run (string : list Z) : P unit := fun p =>
  let fuel := (2 + length string)%nat in
  (token ← next_token; run_loop fuel fuel None token)
    (set_ps_token (finsh_token_init string (tk_errno (ps_token p))) p).

(** ** The grammar

    [derives b ts e]: the tokens [ts] are the expression [e] at the level [b] of precedence: 1 for
    assignments, 2 to 7 for the binary operators, 8 for casts and unary operators, 9 for what a
    postfix operator or nothing follows.  These are the rules of the comments of finsh_parser.c for
    all the binary and unary operators, assignments, names, numbers, characters and calls.  The
    comments have more: parentheses around an expression, which the parser refuses
    ([finsh_parentheses_refused]), casts, strings, and ++, -- and calls behind expressions other
    than a name; assignments to other places than a name and what * is applied to. *)
Definition bin_op (t : finsh_token_type) : option (nat * binop) :=
  match t with
  | finsh_token_type_or => Some (2%nat, Or)
  | finsh_token_type_xor => Some (3%nat, Xor)
  | finsh_token_type_and => Some (4%nat, And)
  | finsh_token_type_shl => Some (5%nat, Shl)
  | finsh_token_type_shr => Some (5%nat, Shr)
  | finsh_token_type_add => Some (6%nat, Add)
  | finsh_token_type_sub => Some (6%nat, Sub)
  | finsh_token_type_mul => Some (7%nat, Mul)
  | finsh_token_type_div => Some (7%nat, Div)
  | finsh_token_type_mod => Some (7%nat, Mod)
  | _ => None
  end.
(** What may go on with an expression behind it. *)
Definition prec (t : finsh_token_type) : nat :=
  match t with
  | finsh_token_type_assign => 1
  | finsh_token_type_inc | finsh_token_type_dec | finsh_token_type_left_paren => 9
  | _ => match bin_op t with Some (b, _) => b | None => O end
  end.
Definition updown_tok (u : updown) : tok := KOp match u with Up => finsh_token_type_inc | Down => finsh_token_type_dec end.

Section Grammar.
Context (vars : list finsh_var).

(** What a name is: a place, a function. *)
Definition place_of (name : list Z) (x : place) : Prop :=
  exists type id, symbol_lookup vars (take FINSH_NAME_MAX name) = Some (Some (type, id)) /\ id_node x = Node FINSH_NODE_ID 0 type 0 id.
Definition function_of (name : list Z) (f : finsh_syscall) : Prop :=
  symbol_lookup vars (take FINSH_NAME_MAX name) = Some (Some (FINSH_IDTYPE_SYSCALL, id_syscall f)).

Inductive derives : nat -> list tok -> expr -> Prop :=
| d_int z : derives 9 [KInt z] (EInt z)
| d_long z : derives 9 [KLong z] (ELong z)
| d_char c : derives 9 [KChar c] (EChar c)
| d_null : derives 9 [KOp finsh_token_type_value_null] ENull
| d_id name x : place_of name x -> derives 9 [KId name] (EId x)
| d_post u name i : place_of name (p_var i) -> derives 9 [KId name; updown_tok u] (EPost u i)
| d_call0 name f : function_of name f ->
    derives 9 [KId name; KOp finsh_token_type_left_paren; KOp finsh_token_type_right_paren] (ECall f ENil)
| d_call name f ts a us es : function_of name f -> derives 1 ts a -> derives_more us es ->
    derives 9 (KId name :: KOp finsh_token_type_left_paren :: ts ++ us ++ [KOp finsh_token_type_right_paren]) (ECall f (ECons a es))
| d_plus ts a : derives 8 ts a -> derives 8 (KOp finsh_token_type_add :: ts) a
| d_minus ts a : derives 8 ts a -> derives 8 (KOp finsh_token_type_sub :: ts) (EBin Sub (ELong 0) a)
| d_not ts a : derives 8 ts a -> derives 8 (KOp finsh_token_type_bitwise :: ts) (ENot a)
| d_deref ts a : derives 8 ts a -> derives 8 (KOp finsh_token_type_mul :: ts) (EDeref a)
| d_addr name x : place_of name x -> derives 8 [KOp finsh_token_type_and; KId name] (EAddr x)
| d_pre u name i : place_of name (p_var i) -> derives 8 [updown_tok u; KId name] (EPre u i)
| d_up b ts a : (1 <= b <= 8)%nat -> derives (S b) ts a -> derives b ts a
| d_bin b t o ta a tc c : bin_op t = Some (b, o) -> derives b ta a -> derives (S b) tc c -> derives b (ta ++ KOp t :: tc) (EBin o a c)
| d_assign name x ts a : place_of name x -> derives 1 ts a -> derives 1 (KId name :: KOp finsh_token_type_assign :: ts) (EAssign x a)
| d_store ta a tc c : derives 8 ta a -> derives 1 tc c ->
    derives 1 (KOp finsh_token_type_mul :: ta ++ KOp finsh_token_type_assign :: tc) (EStore a c)
with derives_more : list tok -> exprs -> Prop :=
| d_nil : derives_more [] ENil
| d_cons ts a us es : derives 1 ts a -> derives_more us es -> derives_more (KOp finsh_token_type_comma :: ts ++ us) (ECons a es).
End Grammar.
Scheme derives_mut := Minimality for derives Sort Prop
with derives_more_mut := Minimality for derives_more Sort Prop.
Combined Scheme derives_ind2 from derives_mut, derives_more_mut.

(** ** Steps of the parser *)

Lemma bind_some {A B} (m : P A) (f : A -> P B) p x p' : m p = Some (x, p') -> (m ≫= f) p = f x p'.
Proof. intros H. unfold mbind, P_bind. by rewrite H. Qed.

Definition unknown (t : node_type) : bool := match t with FINSH_NODE_UNKNOWN => true | _ => false end.
Definition free (p : parser) : nat := length (List.filter unknown (ps_nodes p)).
(** [n] nodes were taken; nothing else was changed but the place in the line. *)
Record spent (p p' : parser) (n : nat) : Prop := {
  sp_root : ps_root p' = ps_root p;
  sp_vars : ps_vars p' = ps_vars p;
  sp_heap : ps_heap p' = ps_heap p;
  sp_errno : tk_errno (ps_token p') = tk_errno (ps_token p);
  sp_free : (free p' + n = free p)%nat }.
(** The scanner is before [ts]; it has just given [k]. *)
Definition on (p : parser) (ts : list tok) : Prop := delivers (ps_token p) ts.
Definition took (p : parser) (k : tok) (ts : list tok) : Prop :=
  tk_replay (ps_token p) = false /\ tk_current (ps_token p) = tok_type k /\ tok_payload k (ps_token p) /\ on p ts.

Lemma spent_app {p p1 p2 n m} : spent p p1 n -> spent p1 p2 m -> spent p p2 (n + m).
Proof. intros [] []. split; try congruence. lia. Qed.
Lemma spent_eq {p p' n m} : spent p p' n -> n = m -> spent p p' m.
Proof. by intros H <-. Qed.
Lemma spent_set_token p t : tk_errno t = tk_errno (ps_token p) -> spent p (set_ps_token t p) 0.
Proof. intros H. split; try done. Qed.

Lemma next_run p k ts : on p (k :: ts) -> exists p', next_token p = Some (tok_type k, p') /\ took p' k ts /\ spent p p' 0.
Proof.
  intros (t1 & E & Hp & He & Hr & Hc & Hd). exists (set_ps_token t1 p). unfold next_token. rewrite E. split; [done|]. split; [done|]. by apply spent_set_token.
Qed.
Lemma payload_replay k b t : tok_payload k (set_tk_replay b t) <-> tok_payload k t.
Proof. by destruct k. Qed.
Lemma replay_run p k ts : took p k ts -> exists p', token_replay p = Some (tt, p') /\ on p' (k :: ts) /\ spent p p' 0.
Proof.
  intros (Hr & Hc & Hp & Hd). exists (set_ps_token (set_tk_replay true (ps_token p)) p). split; [done|]. split; [|by apply spent_set_token].
  exists (ps_token p). unfold finsh_token_token. cbn. split; [|done]. rewrite Hc. do 3 f_equal. rewrite <-Hr. by destruct (ps_token p).
Qed.
Lemma match_run p k ts : on p (k :: ts) -> exists p', match_token (tok_type k) p = Some (tt, p') /\ took p' k ts /\ spent p p' 0.
Proof.
  intros H. destruct (next_run p k ts H) as (p1 & E & Ht & Hs). exists p1. unfold match_token. rewrite (bind_some _ _ _ _ _ E). unfold check_token.
  rewrite bool_decide_eq_false_2 by (intros Hn; by apply Hn). done.
Qed.
(** A token that is read and given back. *)
Lemma peek_run p k ts : on p (k :: ts) -> exists p1 p2, next_token p = Some (tok_type k, p1) /\ took p1 k ts /\ token_replay p1 = Some (tt, p2) /\
  on p2 (k :: ts) /\ spent p p1 0 /\ spent p1 p2 0.
Proof. intros H. destruct (next_run p k ts H) as (p1 & E & Ht & Hs). destruct (replay_run p1 k ts Ht) as (p2 & E2 & Ho & Hs2). by exists p1, p2. Qed.

Lemma node_fill_run type l : unknown type = false -> (0 < length (List.filter unknown l))%nat ->
  exists l', node_fill type l = Some l' /\ (length (List.filter unknown l') + 1 = length (List.filter unknown l))%nat.
Proof.
  intros Ht. induction l as [|t l IH]; intros H; [cbn in H; lia|]. destruct t; cbn [node_fill List.filter unknown length] in *;
    try (destruct (IH H) as (l' & -> & E); eexists; split; [reflexivity|]; cbn [List.filter unknown length]; done).
  eexists. split; [reflexivity|]. cbn [List.filter]. rewrite Ht. lia.
Qed.
Lemma allocate_run type p : unknown type = false -> (0 < free p)%nat ->
  exists p', finsh_node_allocate type p = Some (true, p') /\ ps_token p' = ps_token p /\ spent p p' 1.
Proof.
  intros Ht Hf. destruct (node_fill_run type (ps_nodes p) Ht Hf) as (l & E & Hl). exists (set_ps_nodes l p). unfold finsh_node_allocate. rewrite E.
  split; [done|]. split; [done|]. by split.
Qed.
Lemma new_node_run type n p : unknown type = false -> (0 < free p)%nat ->
  exists p', new_node type n p = Some (T n NULL NULL, p') /\ ps_token p' = ps_token p /\ spent p p' 1.
Proof.
  intros Ht Hf. destruct (allocate_run type p Ht Hf) as (p' & E & Hk & Hs). exists p'. unfold new_node. by rewrite (bind_some _ _ _ _ _ E).
Qed.
Lemma sys_node_run type a b p : unknown type = false -> a <> NULL -> (0 < free p)%nat ->
  exists p', make_sys_node type a b p = Some (T (leaf type 0) (set_sibling a b) NULL, p') /\ ps_token p' = ps_token p /\ spent p p' 1.
Proof.
  intros Ht Ha Hf. destruct (allocate_run type p Ht Hf) as (p' & E & Hk & Hs). exists p'. unfold make_sys_node. rewrite (bind_some _ _ _ _ _ E).
  by destruct a.
Qed.

(** ** Sizes of trees *)

Fixpoint tree_size (t : tree) : nat := match t with NULL => O | T _ c s => S (tree_size c + tree_size s) end.
Definition nodes (e : expr) : nat := tree_size (tree_of e NULL).
Lemma size_tree_of e s : tree_size (tree_of e s) = (nodes e + tree_size s)%nat.
Proof. unfold nodes. destruct e; cbn; lia. Qed.
Lemma sibling_tree_of e s : set_sibling (tree_of e NULL) s = tree_of e s.
Proof. by destruct e. Qed.
Lemma tree_of_not_null e s : tree_of e s <> NULL.
Proof. by destruct e. Qed.
Lemma tree_of_is_null e s : is_null (tree_of e s) = false.
Proof. by destruct e. Qed.

(** ** The parser follows the grammar *)

Section Follows.
Context (vars : list finsh_var).
Notation derives := (derives vars).
Notation derives_more := (derives_more vars).

(** What is behind a function of the parser that has read the tokens of [e]. *)
Definition parsed (p : parser) (e : expr) (k : tok) (rest : list tok) (r : option (tree * parser)) : Prop :=
  exists p', r = Some (tree_of e NULL, p') /\ on p' (k :: rest) /\ spent p p' (nodes e).
Definition before (p : parser) (ts : list tok) (e : expr) (k : tok) (rest : list tok) : Prop :=
  on p (ts ++ k :: rest) /\ ps_vars p = vars /\ (nodes e <= free p)%nat.
Definition yields (m : P tree) (ts : list tok) (e : expr) (b : nat) : Prop :=
  forall p k rest, before p ts e k rest -> (prec (tok_type k) < b)%nat -> parsed p e k rest (m p).

(** A function before an operand, before and in the loop of its level. *)
Definition loops (op : finsh_token_type -> option binop) (operand : P tree) (ts : list tok) (e : expr) (b : nat) : Prop :=
  forall p k rest turns, before p ts e k rest -> (prec (tok_type k) <= b)%nat -> (length ts <= turns)%nat ->
  exists p' turns', (turns <= turns' + length ts)%nat /\
    binary_level turns op operand p = binary_loop turns' op operand (tree_of e NULL) (tok_type k) p' /\
    took p' k rest /\ spent p p' (nodes e).
(** The operators of a level. *)
Definition ops_of (op : finsh_token_type -> option binop) (b : nat) : Prop :=
  forall t, match op t with Some o => bin_op t = Some (b, o) | None => forall o, bin_op t <> Some (b, o) end.

Lemma parsed_spent p p1 e k rest r : spent p p1 0 -> parsed p1 e k rest r -> parsed p e k rest r.
Proof. intros H (p' & E & Ho & Hs). exists p'. split; [done|]. split; [done|]. exact (spent_app H Hs). Qed.
Lemma bin_op_prec t b o : bin_op t = Some (b, o) -> prec t = b /\ (2 <= b <= 7)%nat.
Proof. destruct t; cbn; intros [= <- <-]; lia. Qed.

Lemma loop_first op operand ts e b : yields operand ts e (S b) -> loops op operand ts e b.
Proof.
  intros H p k rest turns Hb Hk Hl. destruct (H p k rest Hb ltac:(lia)) as (p1 & E1 & H1 & S1). destruct (next_run p1 k rest H1) as (p2 & E2 & H2 & S2).
  exists p2, turns. split; [lia|]. split; [unfold binary_level; rewrite (bind_some _ _ _ _ _ E1), (bind_some _ _ _ _ _ E2); done|].
  split; [done|]. apply (spent_eq (spent_app S1 S2)). lia.
Qed.
Lemma nodes_bin o a c : nodes (EBin o a c) = S (nodes a + nodes c).
Proof. unfold nodes at 1. cbn [tree_of tree_size]. rewrite !size_tree_of. cbn. lia. Qed.

Lemma loop_next op operand ta a b t o tc c : ops_of op b -> loops op operand ta a b -> bin_op t = Some (b, o) -> yields operand tc c (S b) ->
  loops op operand (ta ++ KOp t :: tc) (EBin o a c) b.
Proof.
  intros Hop Ha Ht Hc p k rest turns (Ho & Hv & Hn) Hk Hl. rewrite nodes_bin in *. rewrite length_app in *. cbn [length] in *.
  rewrite <-app_assoc in Ho. cbn [app] in Ho. destruct (bin_op_prec t b o Ht) as [Hp _].
  destruct (Ha p (KOp t) (tc ++ k :: rest) turns) as (p1 & turns1 & Hl1 & E1 & H1 & S1); [split; [done|split; [done|lia]]|cbn; lia|lia|].
  pose proof (sp_free _ _ _ S1) as F1. pose proof (sp_vars _ _ _ S1) as V1.
  destruct turns1 as [|turns1]; [lia|]. destruct (Hc p1 k rest) as (p2 & E2 & H2 & S2); [split; [apply H1|split; [congruence|lia]]|lia|].
  pose proof (sp_free _ _ _ S2) as F2.
  destruct (sys_node_run (FINSH_NODE_SYS o) (tree_of a NULL) (tree_of c NULL) p2 eq_refl (tree_of_not_null _ _) ltac:(lia)) as (p3 & E3 & K3 & S3).
  rewrite sibling_tree_of in E3.
  destruct (next_run p3 k rest) as (p4 & E4 & H4 & S4); [by unfold on; rewrite K3|].
  exists p4, turns1. split; [lia|]. split.
  - rewrite E1. cbn [binary_loop tok_type]. pose proof (Hop t) as Hopt. destruct (op t) as [o'|]; [|by apply Hopt in Ht]. rewrite Ht in Hopt. injection Hopt as <-.
    rewrite (bind_some _ _ _ _ _ E2), tree_of_is_null, (bind_some _ _ _ _ _ E3), (bind_some _ _ _ _ _ E4). done.
  - split; [done|]. apply (spent_eq (spent_app (spent_app (spent_app S1 S2) S3) S4)). lia.
Qed.

Lemma loop_ends op operand ts e b turns : (2 <= b)%nat -> ops_of op b -> loops op operand ts e b -> (length ts <= turns)%nat -> yields (binary_level turns op operand) ts e b.
Proof.
  intros Hb2 Hop H Hl p k rest Hb Hk. destruct (H p k rest turns Hb ltac:(lia) Hl) as (p1 & turns1 & _ & E1 & H1 & S1).
  destruct (replay_run p1 k rest H1) as (p2 & E2 & H2 & S2). exists p2. split; [|split; [done|apply (spent_eq (spent_app S1 S2)); lia]].
  rewrite E1. assert (En : op (tok_type k) = None).
  { pose proof (Hop (tok_type k)) as Hopk. destruct (op (tok_type k)) as [o|]; [|done]. apply bin_op_prec in Hopk. lia. }
  destruct turns1; cbn [binary_loop]; rewrite En, (bind_some _ _ _ _ _ E2); done.
Qed.

(** *** Names *)

Lemma id_run name type id p k rest : symbol_lookup vars (take FINSH_NAME_MAX name) = Some (Some (type, id)) -> on p (KId name :: k :: rest) -> ps_vars p = vars ->
  (0 < free p)%nat -> forall A, exists p', proc_primary_expr A p = Some (T (Node FINSH_NODE_ID 0 type 0 id) NULL NULL, p') /\ on p' (k :: rest) /\ spent p p' 1.
Proof.
  intros Hl Ho Hv Hf A. destruct (peek_run p (KId name) (k :: rest) Ho) as (p1 & p2 & E1 & _ & E2 & H2 & S1 & S2). cbn [tok_type] in E1.
  destruct (match_run p2 (KId name) (k :: rest) H2) as (p3 & E3 & (_ & _ & [Hpay _] & H3) & S3). cbn [tok_type] in E3.
  pose proof (spent_app (spent_app S1 S2) S3) as S03. pose proof (sp_free _ _ _ S03) as F3.
  destruct (new_node_run FINSH_NODE_ID (Node FINSH_NODE_ID 0 type 0 id) p3 eq_refl ltac:(lia)) as (p4 & E4 & K4 & S4). exists p4.
  split; [|split; [by unfold on; rewrite K4|exact (spent_app S03 S4)]].
  unfold proc_primary_expr. rewrite (bind_some _ _ _ _ _ E1). cbn [tok_type]. rewrite (bind_some _ _ _ _ _ E2).
  assert (E5 : proc_identifier p2 = Some (take FINSH_NAME_MAX name, p3)).
  { unfold proc_identifier. rewrite (bind_some _ _ _ _ _ E3). unfold copy_name. by rewrite Hpay. }
  rewrite (bind_some _ _ _ _ _ E5). unfold finsh_node_new_id. rewrite (sp_vars _ _ _ S03), Hv, Hl. done.
Qed.

(** *** Levels *)

(** A token that an operand without operators begins with. *)
Definition primary (k : tok) : bool :=
  match k with KId _ | KInt _ | KLong _ | KChar _ | KOp finsh_token_type_value_null => true | _ => false end.
Definition head_primary (ts : list tok) : Prop := match ts with k :: _ => primary k = true | [] => False end.

Definition op_of (b : nat) : finsh_token_type -> option binop :=
  (match b with 2 => or_op | 3 => xor_op | 4 => and_op | 5 => shift_op | 6 => add_op | _ => mul_op end)%nat.
Definition level (b f : nat) : P tree :=
  (match b with
  | 1 => proc_assign_expr f
  | 2 => proc_inclusive_or_expr (proc_cast_expr f) f
  | 3 => proc_exclusive_or_expr (proc_cast_expr f) f
  | 4 => proc_and_expr (proc_cast_expr f) f
  | 5 => proc_shift_expr (proc_cast_expr f) f
  | 6 => proc_additive_expr (proc_cast_expr f) f
  | 7 => proc_multiplicative_expr (proc_cast_expr f) f
  | 8 => proc_cast_expr f
  | 9 => proc_postfix_expr (proc_assign_expr f) f
  | _ => undefined
  end)%nat.
Definition binary (b : nat) : bool := (2 <=? b)%nat && (b <=? 7)%nat.
Lemma level_binary b f : binary b = true -> level b f = binary_level f (op_of b) (level (S b) f).
Proof. unfold binary. intros H. do 9 (destruct b as [|b]; [try done|]). done. Qed.
Lemma op_of_ops b : binary b = true -> ops_of (op_of b) b.
Proof.
  unfold binary. intros H t. do 9 (destruct b as [|b]; [try done; by destruct t|]). done.
Qed.

(** Fuel for the tokens at a level. *)
Definition bound (b : nat) (ts : list tok) (f : nat) : Prop :=
  (match b with 1 => length ts + 1 < f | 9 => length ts <= f | _ => length ts < f end)%nat.
Definition follows (b : nat) (ts : list tok) (e : expr) : Prop :=
  forall f, bound b ts f -> if binary b then loops (op_of b) (level (S b) f) ts e b else yields (level b f) ts e b.
Lemma follows_yields b ts e f : follows b ts e -> bound b ts f -> yields (level b f) ts e b.
Proof.
  intros H Hf. specialize (H f Hf). destruct (binary b) eqn:E; [|done]. rewrite (level_binary b f E).
  assert (Hl : (length ts < f)%nat) by (unfold binary in E; do 10 (destruct b as [|b]; [try done|]); done).
  apply loop_ends; [by apply andb_true_iff in E as [?%Nat.leb_le _]|by apply op_of_ops|done|lia].
Qed.

(** *** Unary operators *)

Lemma cast_skip A C f p k l : primary k = true -> on p (k :: l) ->
  exists p', proc_cast_body A C f p = proc_postfix_expr A f p' /\ on p' (k :: l) /\ spent p p' 0.
Proof.
  intros Hk Ho. destruct (peek_run p k l Ho) as (p1 & p2 & E1 & _ & E2 & H2 & S1 & S2).
  destruct (peek_run p2 k l H2) as (p3 & p4 & E3 & _ & E4 & H4 & S3 & S4). exists p4.
  split; [|split; [done|exact (spent_app (spent_app (spent_app S1 S2) S3) S4)]]. unfold proc_cast_body, proc_unary_expr. rewrite (bind_some _ _ _ _ _ E1).
  destruct k as [| | | |[]]; try done; cbn [tok_type]; (rewrite bool_decide_eq_false_2 by done); rewrite (bind_some _ _ _ _ _ E2), (bind_some _ _ _ _ _ E3); cbn [tok_type];
    by rewrite (bind_some _ _ _ _ _ E4).
Qed.
(** The branch of an operator in [proc_unary_expr]. *)
Definition unary_branch (C : P tree) (t : finsh_token_type) : option (P tree) :=
  match t with
  | finsh_token_type_add => Some C
  | finsh_token_type_inc => Some (cast ← C; make_sys_node FINSH_NODE_SYS_PREINC cast NULL)
  | finsh_token_type_sub => Some (cast ← C; zero ← finsh_node_new_long 0; make_sys_node (FINSH_NODE_SYS Sub) zero cast)
  | finsh_token_type_dec => Some (cast ← C; make_sys_node FINSH_NODE_SYS_PREDEC cast NULL)
  | finsh_token_type_bitwise => Some (cast ← C; make_sys_node FINSH_NODE_SYS_BITWISE cast NULL)
  | finsh_token_type_mul => Some (cast ← C; make_sys_node FINSH_NODE_SYS_GETVALUE cast NULL)
  | finsh_token_type_and => Some (cast ← C; make_sys_node FINSH_NODE_SYS_GETADDR cast NULL)
  | _ => None
  end.
Lemma cast_unary A C f p t m l : unary_branch C t = Some m -> on p (KOp t :: l) ->
  exists p', proc_cast_body A C f p = m p' /\ on p' l /\ spent p p' 0.
Proof.
  intros Hm Ho. destruct (peek_run p (KOp t) l Ho) as (p1 & p2 & E1 & _ & E2 & H2 & S1 & S2).
  destruct (next_run p2 (KOp t) l H2) as (p3 & E3 & (_ & _ & _ & H3) & S3). exists p3.
  split; [|split; [done|exact (spent_app (spent_app S1 S2) S3)]]. unfold proc_cast_body, proc_unary_expr. rewrite (bind_some _ _ _ _ _ E1). cbn [tok_type] in *.
  destruct t; try done; cbn in Hm; injection Hm as <-; (rewrite bool_decide_eq_false_2 by done); rewrite (bind_some _ _ _ _ _ E2), (bind_some _ _ _ _ _ E3); done.
Qed.

Lemma sys1_yields type C ts a e b : unknown type = false -> yields C ts a b -> tree_of e NULL = T (leaf type 0) (tree_of a NULL) NULL ->
  yields (cast ← C; make_sys_node type cast NULL) ts e b.
Proof.
  intros Ht Ha He p k rest (Ho & Hv & Hn) Hk. assert (En : nodes e = S (nodes a)) by (unfold nodes; rewrite He; cbn; lia).
  destruct (Ha p k rest) as (p1 & E1 & H1 & S1); [split; [done|split; [done|lia]]|done|]. pose proof (sp_free _ _ _ S1) as F1.
  destruct (sys_node_run type (tree_of a NULL) NULL p1 Ht (tree_of_not_null _ _) ltac:(lia)) as (p2 & E2 & K2 & S2). rewrite sibling_tree_of in E2.
  exists p2. rewrite He, (bind_some _ _ _ _ _ E1), E2. split; [done|]. split; [by unfold on; rewrite K2|]. apply (spent_eq (spent_app S1 S2)). lia.
Qed.
Lemma minus_yields C ts a b : yields C ts a b ->
  yields (cast ← C; zero ← finsh_node_new_long 0; make_sys_node (FINSH_NODE_SYS Sub) zero cast) ts (EBin Sub (ELong 0) a) b.
Proof.
  intros Ha p k rest (Ho & Hv & Hn) Hk. rewrite nodes_bin in *. change (nodes (ELong 0)) with 1%nat in *.
  destruct (Ha p k rest) as (p1 & E1 & H1 & S1); [split; [done|split; [done|lia]]|done|]. pose proof (sp_free _ _ _ S1) as F1.
  destruct (new_node_run FINSH_NODE_VALUE_LONG (leaf FINSH_NODE_VALUE_LONG (u32 0)) p1 eq_refl ltac:(lia)) as (p2 & E2 & K2 & S2). pose proof (sp_free _ _ _ S2) as F2.
  destruct (sys_node_run (FINSH_NODE_SYS Sub) (tree_of (ELong 0) NULL) (tree_of a NULL) p2 eq_refl (tree_of_not_null _ _) ltac:(lia)) as (p3 & E3 & K3 & S3).
  rewrite sibling_tree_of in E3. exists p3. rewrite (bind_some _ _ _ _ _ E1). unfold finsh_node_new_long. rewrite (bind_some _ _ _ _ _ E2). split; [exact E3|].
  split; [by unfold on; rewrite K3, K2|]. unfold parsed. rewrite nodes_bin. apply (spent_eq (spent_app (spent_app S1 S2) S3)). change (nodes (ELong 0)) with 1%nat. lia.
Qed.

Lemma follows_cast ts e : head_primary ts -> follows 9 ts e -> follows 8 ts e.
Proof.
  intros Hh H f Hf. destruct ts as [|k0 ts]; [done|]. destruct f as [|f]; [cbn in Hf; lia|]. intros p k rest (Ho & Hv & Hn) Hk.
  destruct (cast_skip (proc_assign_expr f) (proc_cast_expr f) f p k0 (ts ++ k :: rest) Hh Ho) as (p1 & E1 & H1 & S1).
  change (level 8 (S f) p) with (proc_cast_body (proc_assign_expr f) (proc_cast_expr f) f p). rewrite E1. apply (parsed_spent p p1 e k rest _ S1).
  apply (follows_yields 9 (k0 :: ts) e f H); [cbn in *; lia| |lia]. pose proof (sp_free _ _ _ S1). split; [done|]. split; [by rewrite (sp_vars _ _ _ S1)|lia].
Qed.
Lemma follows_unary t ts a e : follows 8 ts a -> (forall C, exists m, unary_branch C t = Some m /\ (yields C ts a 8 -> yields m ts e 8)) ->
  follows 8 (KOp t :: ts) e.
Proof.
  intros H Hm f Hf. destruct f as [|f]; [cbn in Hf; lia|]. intros p k rest (Ho & Hv & Hn) Hk. destruct (Hm (proc_cast_expr f)) as (m & Em & Hy).
  destruct (cast_unary (proc_assign_expr f) (proc_cast_expr f) f p t m (ts ++ k :: rest) Em Ho) as (p1 & E1 & H1 & S1).
  change (level 8 (S f) p) with (proc_cast_body (proc_assign_expr f) (proc_cast_expr f) f p). rewrite E1. apply (parsed_spent p p1 e k rest _ S1).
  apply Hy; [apply (follows_yields 8 ts a f H); cbn in *; lia| |done]. pose proof (sp_free _ _ _ S1). split; [done|]. split; [by rewrite (sp_vars _ _ _ S1)|lia].
Qed.

(** *** Going up a level *)

Lemma follows_assign_up ts e : follows 2 ts e -> follows 1 ts e.
Proof.
  intros H f Hf. destruct f as [|f]; [cbn in Hf; lia|]. intros p k rest Hb Hk.
  destruct (follows_yields 2 ts e f H ltac:(cbn in *; lia) p k rest Hb ltac:(lia)) as (p1 & E1 & H1 & S1).
  destruct (peek_run p1 k rest H1) as (p2 & p3 & E2 & _ & E3 & H3 & S2 & S3).
  change (level 1 (S f) p) with (proc_assign_body (proc_assign_expr f) (proc_cast_expr f) f p). unfold proc_assign_body. change (proc_inclusive_or_expr (proc_cast_expr f) f) with (level 2 f).
  exists p3. rewrite (bind_some _ _ _ _ _ E1), (bind_some _ _ _ _ _ E2). rewrite bool_decide_eq_false_2 by (intros E; rewrite E in Hk; cbn in Hk; lia).
  rewrite (bind_some _ _ _ _ _ E3). split; [done|]. split; [done|]. apply (spent_eq (spent_app (spent_app S1 S2) S3)). lia.
Qed.
Lemma follows_up b ts e : (1 <= b <= 8)%nat -> head_primary ts \/ (b < 8)%nat -> follows (S b) ts e -> follows b ts e.
Proof.
  intros Hb Hh H. destruct (Nat.eq_dec b 8%nat) as [->|H8]; [destruct Hh; [by apply follows_cast|lia]|].
  destruct (Nat.eq_dec b 1%nat) as [->|H1]; [by apply follows_assign_up|]. intros f Hf.
  assert (E : binary b = true) by (apply andb_true_iff; split; apply Nat.leb_le; lia). rewrite E. apply loop_first.
  apply (follows_yields (S b) ts e f H). do 9 (destruct b as [|b]; [try done; cbn in *; lia|]). lia.
Qed.
(** From the level of unary operators to that of the operands of an assignment. *)
Lemma follows_8_2 ts e : follows 8 ts e -> follows 2 ts e.
Proof. intros H. do 5 (apply follows_up; [lia|right; lia|]). apply follows_up; [lia|right; lia|exact H]. Qed.

Lemma follows_assign tl l tr r e : follows 2 tl l -> follows 1 tr r -> tree_of e NULL = T (leaf FINSH_NODE_SYS_ASSIGN 0) (tree_of l (tree_of r NULL)) NULL ->
  follows 1 (tl ++ KOp finsh_token_type_assign :: tr) e.
Proof.
  intros Hl Hr He f Hf. destruct f as [|f]; [cbn in Hf; lia|]. cbn [bound] in Hf. rewrite length_app in Hf. cbn [length] in Hf. intros p k rest (Ho & Hv & Hn) Hk.
  assert (En : nodes e = S (nodes l + nodes r)) by (unfold nodes; rewrite He; cbn [tree_size]; rewrite !size_tree_of; cbn; unfold nodes; lia).
  rewrite <-app_assoc in Ho. cbn [app] in Ho.
  destruct (follows_yields 2 tl l f Hl ltac:(cbn; lia) p (KOp finsh_token_type_assign) (tr ++ k :: rest)) as (p1 & E1 & H1 & S1); [split; [done|split; [done|lia]]|cbn; lia|].
  destruct (next_run p1 _ _ H1) as (p2 & E2 & (_ & _ & _ & H2) & S2). pose proof (spent_app S1 S2) as S12. pose proof (sp_free _ _ _ S12).
  destruct (follows_yields 1 tr r f Hr ltac:(cbn; lia) p2 k rest) as (p3 & E3 & H3 & S3); [split; [done|split; [by rewrite (sp_vars _ _ _ S12)|lia]]|done|].
  pose proof (spent_app S12 S3) as S13. pose proof (sp_free _ _ _ S13).
  destruct (sys_node_run FINSH_NODE_SYS_ASSIGN (tree_of l NULL) (tree_of r NULL) p3 eq_refl (tree_of_not_null _ _) ltac:(lia)) as (p4 & E4 & K4 & S4). rewrite sibling_tree_of in E4.
  exists p4. change (level 1 (S f) p) with (proc_assign_body (proc_assign_expr f) (proc_cast_expr f) f p). unfold proc_assign_body. change (proc_inclusive_or_expr (proc_cast_expr f) f) with (level 2 f).
  rewrite (bind_some _ _ _ _ _ E1), (bind_some _ _ _ _ _ E2). rewrite bool_decide_eq_true_2 by done. change (proc_assign_expr f) with (level 1 f).
  rewrite (bind_some _ _ _ _ _ E3), E4, He. split; [done|]. split; [by unfold on; rewrite K4|]. apply (spent_eq (spent_app S13 S4)). lia.
Qed.
Lemma follows_bin b t o ta a tc c : bin_op t = Some (b, o) -> follows b ta a -> follows (S b) tc c -> follows b (ta ++ KOp t :: tc) (EBin o a c).
Proof.
  intros Ht Ha Hc f Hf. destruct (bin_op_prec t b o Ht) as [_ Hb]. assert (E : binary b = true) by (apply andb_true_iff; split; apply Nat.leb_le; lia). rewrite E.
  assert (Hlen : (length ta + S (length tc) < f)%nat) by (do 8 (destruct b as [|b]; [try lia; cbn in Hf; rewrite length_app in Hf; exact Hf|]); lia).
  apply loop_next; [by apply op_of_ops| |done|].
  - specialize (Ha f). rewrite E in Ha. apply Ha. do 8 (destruct b as [|b]; [try lia; cbn; lia|]). lia.
  - apply (follows_yields (S b) tc c f Hc). do 8 (destruct b as [|b]; [try lia; cbn; lia|]). lia.
Qed.

(** *** Operands *)

Lemma postfix_ends A f g t p k rest : on p (k :: rest) -> (prec (tok_type k) < 9)%nat ->
  exists p', (token ← next_token; postfix_loop A f g t token) p = Some (t, p') /\ on p' (k :: rest) /\ spent p p' 0.
Proof.
  intros Ho Hk. destruct (peek_run p k rest Ho) as (p1 & p2 & E1 & _ & E2 & H2 & S1 & S2). exists p2. rewrite (bind_some _ _ _ _ _ E1).
  split; [|split; [done|exact (spent_app S1 S2)]]. assert (E : postfix_loop A f g t (tok_type k) = (token_replay;; mret t)).
  { destruct (tok_type k), g; cbn in Hk |- *; try done; lia. }
  by rewrite E, (bind_some _ _ _ _ _ E2).
Qed.

(** An operand of one token. *)
Lemma follows_one k0 e : primary k0 = true ->
  (forall A p l, on p (k0 :: l) -> ps_vars p = vars -> (nodes e <= free p)%nat -> l <> [] ->
     exists p', proc_primary_expr A p = Some (tree_of e NULL, p') /\ on p' l /\ spent p p' (nodes e)) ->
  follows 9 [k0] e.
Proof.
  intros Hk0 Hp f Hf p k rest (Ho & Hv & Hn) Hk. cbn [app] in Ho.
  destruct (Hp (proc_assign_expr f) p (k :: rest) Ho Hv Hn ltac:(done)) as (p1 & E1 & H1 & S1).
  destruct (postfix_ends (proc_assign_expr f) f f (tree_of e NULL) p1 k rest H1 Hk) as (p2 & E2 & H2 & S2).
  exists p2. change (level 9 f) with (proc_postfix_expr (proc_assign_expr f) f). unfold proc_postfix_expr. rewrite (bind_some _ _ _ _ _ E1), E2.
  split; [done|]. split; [done|]. apply (spent_eq (spent_app S1 S2)). lia.
Qed.
(** A literal: a new node of a value. *)
Lemma follows_literal k0 e type n : unknown type = false -> tree_of e NULL = T n NULL NULL -> primary k0 = true ->
  (forall A p p' l, took p' k0 l -> next_token p = Some (tok_type k0, p') -> proc_primary_expr A p = new_node type n p') -> follows 9 [k0] e.
Proof.
  intros Ht He Hk0 Hp. assert (En : nodes e = 1%nat) by (unfold nodes; by rewrite He). apply follows_one; [done|]. intros A p l Ho Hv Hn _.
  destruct (next_run p k0 l Ho) as (p1 & E1 & H1 & S1). pose proof (sp_free _ _ _ S1). rewrite (Hp A p p1 l H1 E1), He, En.
  destruct (new_node_run type n p1 Ht ltac:(lia)) as (p2 & E2 & K2 & S2). exists p2. split; [exact E2|]. split; [unfold on; rewrite K2; apply H1|].
  exact (spent_app S1 S2).
Qed.

Lemma follows_id name x : place_of vars name x -> follows 9 [KId name] (EId x).
Proof.
  intros (type & id & Hl & Hx). apply follows_one; [done|]. intros A p l Ho Hv Hn Hne. destruct l as [|k rest]; [done|].
  change (nodes (EId x)) with 1%nat in *. cbn [tree_of]. rewrite Hx. by apply (id_run name).
Qed.

(** A postfix operator behind a name. *)
Lemma follows_post u name i : place_of vars name (p_var i) -> follows 9 [KId name; updown_tok u] (EPost u i).
Proof.
  intros (type & id & Hl & Hx) f Hf p k rest (Ho & Hv & Hn) Hk. change (nodes (EPost u i)) with 2%nat in *. cbn [app] in Ho.
  destruct (id_run name type id p (updown_tok u) (k :: rest) Hl Ho Hv ltac:(lia) (proc_assign_expr f)) as (p1 & E1 & H1 & S1). rewrite <-Hx in E1.
  destruct (next_run p1 _ _ H1) as (p2 & E2 & (_ & _ & _ & H2) & S2). pose proof (spent_app S1 S2) as S12. pose proof (sp_free _ _ _ S12).
  destruct (sys_node_run (post_type u) (T (id_node (p_var i)) NULL NULL) NULL p2) as (p3 & E3 & K3 & S3); [by destruct u|done|lia|]. cbn [set_sibling] in E3.
  destruct f as [|f]; [cbn in Hf; lia|]. assert (H3 : on p3 (k :: rest)) by (unfold on; by rewrite K3).
  destruct (postfix_ends (proc_assign_expr (S f)) (S f) f (tree_of (EPost u i) NULL) p3 k rest H3 Hk) as (p4 & E4 & H4 & S4).
  exists p4. change (level 9 (S f)) with (proc_postfix_expr (proc_assign_expr (S f)) (S f)). unfold proc_postfix_expr. rewrite (bind_some _ _ _ _ _ E1), (bind_some _ _ _ _ _ E2).
  split; [|split; [done|exact (spent_app (spent_app S12 S3) S4)]].
  destruct u; cbn [updown_tok tok_type postfix_loop]; rewrite (bind_some _ _ _ _ _ E3); exact E4.
Qed.

(** *** Calls *)

Fixpoint app_exprs (a b : exprs) : exprs := match a with ENil => b | ECons e a => ECons e (app_exprs a b) end.
Lemma app_exprs_assoc a b c : app_exprs (app_exprs a b) c = app_exprs a (app_exprs b c).
Proof. induction a as [|e a IH]; [done|]. cbn. by rewrite IH. Qed.
Lemma app_exprs_nil a : app_exprs a ENil = a.
Proof. induction a as [|e a IH]; [done|]. cbn. by rewrite IH. Qed.
Lemma sibling_tree e s : exists n c, tree_of e s = T n c s /\ forall s', tree_of e s' = T n c s'.
Proof. destruct e; cbn; by eexists _, _. Qed.
(** The next argument becomes the sibling of the last one. *)
Lemma set_sibling_args a acc e : set_sibling_at (length_exprs acc) (trees_of (ECons a acc)) (tree_of e NULL) = Some (trees_of (app_exprs (ECons a acc) (ECons e ENil))).
Proof.
  revert a. induction acc as [|b acc IH]; intros a; cbn [trees_of app_exprs length_exprs].
  - destruct (sibling_tree a NULL) as (n & c & -> & H). cbn. by rewrite H.
  - destruct (sibling_tree a (tree_of b (trees_of acc))) as (n & c & -> & H). pose proof (IH b) as E. cbn [trees_of app_exprs] in E. cbn [set_sibling_at]. rewrite E. cbn. by rewrite H.
Qed.
Definition nodes_args (es : exprs) : nat := tree_size (trees_of es).
Lemma nodes_args_cons e es : nodes_args (ECons e es) = (nodes e + nodes_args es)%nat.
Proof. apply size_tree_of. Qed.

(** The loop over the arguments behind the first ones. *)
Definition args_follow (us : list tok) (es : exprs) : Prop :=
  forall f turns a acc p rest k l, us ++ KOp finsh_token_type_right_paren :: rest = k :: l -> took p k l -> ps_vars p = vars -> (nodes_args es <= free p)%nat ->
  (length us < f)%nat -> (length us <= turns)%nat ->
  exists p', param_loop (proc_assign_expr f) turns (trees_of (ECons a acc)) (length_exprs acc) (tok_type k) p = Some (trees_of (app_exprs (ECons a acc) es), p') /\
    on p' (KOp finsh_token_type_right_paren :: rest) /\ spent p p' (nodes_args es).

Lemma args_follow_nil : args_follow [] ENil.
Proof.
  intros f turns a acc p rest k l [= <- <-] Ht Hv Hn Hf Hl. destruct (replay_run p _ _ Ht) as (p1 & E1 & H1 & S1). exists p1. rewrite app_exprs_nil.
  split; [|done]. destruct turns; cbn [param_loop tok_type]; (rewrite bool_decide_eq_false_2 by done); by rewrite (bind_some _ _ _ _ _ E1).
Qed.
(** The token behind an argument. *)
Lemma more_head us es rest : derives_more us es -> exists k l, us ++ KOp finsh_token_type_right_paren :: rest = k :: l /\ prec (tok_type k) = O.
Proof. destruct 1; by eexists _, _. Qed.
Lemma args_follow_cons ts e us es : follows 1 ts e -> derives_more us es -> args_follow us es -> args_follow (KOp finsh_token_type_comma :: ts ++ us) (ECons e es).
Proof.
  intros He Hd Hes f turns a acc p rest k l E (_ & _ & _ & Ho) Hv Hn Hf Hl. cbn [app] in E. injection E as <- <-. rewrite nodes_args_cons in *. cbn [length] in *. rewrite length_app in *.
  rewrite <-app_assoc in Ho. destruct turns as [|turns]; [lia|]. destruct (more_head us es rest Hd) as (k & l & El & Hk). rewrite El in Ho.
  destruct (follows_yields 1 ts e f He ltac:(cbn; lia) p k l) as (p1 & E1 & H1 & S1); [split; [done|split; [done|lia]]|lia|].
  destruct (next_run p1 k l H1) as (p2 & E2 & H2 & S2). pose proof (spent_app S1 S2) as S12. pose proof (sp_free _ _ _ S12).
  destruct (Hes f turns a (app_exprs acc (ECons e ENil)) p2 rest k l El H2) as (p3 & E3 & H3 & S3); [by rewrite (sp_vars _ _ _ S12)|lia|lia|lia|].
  exists p3. split; [|split; [done|apply (spent_eq (spent_app S12 S3)); lia]].
  cbn [param_loop tok_type]. rewrite bool_decide_eq_true_2 by done. change (proc_assign_expr f) with (level 1 f). rewrite (bind_some _ _ _ _ _ E1).
  change (tree_of a (trees_of acc)) with (trees_of (ECons a acc)). rewrite set_sibling_args, tree_of_is_null. rewrite (bind_some (mret _) _ _ _ _ eq_refl), (bind_some _ _ _ _ _ E2).
  change (level 1 f) with (proc_assign_expr f).
  replace (S (length_exprs acc)) with (length_exprs (app_exprs acc (ECons e ENil))) by (clear; induction acc as [|x acc IH]; [done|cbn; by rewrite IH]).
  cbn [app_exprs] in E3 |- *. rewrite E3, app_exprs_assoc. done.
Qed.

Lemma call_name name fn p k rest : function_of vars name fn -> on p (KId name :: k :: rest) -> ps_vars p = vars -> (0 < free p)%nat ->
  forall A, exists p', proc_primary_expr A p = Some (T (call_node fn) NULL NULL, p') /\ on p' (k :: rest) /\ spent p p' 1.
Proof. intros H. by apply id_run. Qed.
Lemma nodes_call fn es : nodes (ECall fn es) = (2 + nodes_args es)%nat.
Proof. unfold nodes, nodes_args. cbn. lia. Qed.

(** The list of arguments in parentheses. *)
Definition arguments (A : P tree) (f : nat) : P tree :=
  token ← next_token;
  if bool_decide (token <> finsh_token_type_right_paren) then
    token_replay;; l ← proc_param_list A f; match_token finsh_token_type_right_paren;; mret l
  else mret NULL.
Lemma follows_call name fn ts es : function_of vars name fn ->
  (forall f p rest, (length ts + 2 <= f)%nat -> on p (ts ++ KOp finsh_token_type_right_paren :: rest) -> ps_vars p = vars -> (nodes_args es <= free p)%nat ->
     exists p', arguments (proc_assign_expr f) f p = Some (trees_of es, p') /\ on p' rest /\ spent p p' (nodes_args es)) ->
  follows 9 (KId name :: KOp finsh_token_type_left_paren :: ts ++ [KOp finsh_token_type_right_paren]) (ECall fn es).
Proof.
  intros Hfn Ha f Hf p k rest (Ho & Hv & Hn) Hk. rewrite nodes_call in *. cbn [bound] in Hf. cbn [length] in Hf. rewrite length_app in Hf. cbn [length app] in *. rewrite <-app_assoc in Ho. cbn [app] in Ho.
  destruct (call_name name fn p _ _ Hfn Ho Hv ltac:(lia) (proc_assign_expr f)) as (p1 & E1 & H1 & S1).
  destruct (next_run p1 _ _ H1) as (p2 & E2 & (_ & _ & _ & H2) & S2). pose proof (spent_app S1 S2) as S12. pose proof (sp_free _ _ _ S12).
  destruct (Ha f p2 (k :: rest)) as (p3 & E3 & H3 & S3); [lia|done|by rewrite (sp_vars _ _ _ S12)|lia|]. pose proof (spent_app S12 S3) as S13. pose proof (sp_free _ _ _ S13).
  destruct (sys_node_run FINSH_NODE_SYS_FUNC (T (call_node fn) NULL NULL) (trees_of es) p3) as (p4 & E4 & K4 & S4); [done|done|lia|]. cbn [set_sibling] in E4.
  destruct f as [|f]; [lia|]. assert (H4 : on p4 (k :: rest)) by (unfold on; by rewrite K4).
  destruct (postfix_ends (proc_assign_expr (S f)) (S f) f (tree_of (ECall fn es) NULL) p4 k rest H4 Hk) as (p5 & E5 & H5 & S5).
  exists p5. change (level 9 (S f)) with (proc_postfix_expr (proc_assign_expr (S f)) (S f)). unfold proc_postfix_expr. rewrite (bind_some _ _ _ _ _ E1), (bind_some _ _ _ _ _ E2).
  split; [|split; [done|rewrite nodes_call; apply (spent_eq (spent_app (spent_app S13 S4) S5)); lia]].
  cbn [tok_type postfix_loop]. unfold arguments in E3. unfold mbind, P_bind in E3 |- *. destruct (next_token p2) as [[tk p2']|]; [|done].
  match goal with |- match ?a with Some _ => _ | None => _ end = _ => match type of E3 with ?b = _ => change b with a in E3 end end.
  rewrite E3, E4. exact E5.
Qed.

Lemma args_none f p rest : on p (KOp finsh_token_type_right_paren :: rest) ->
  exists p', arguments (proc_assign_expr f) f p = Some (NULL, p') /\ on p' rest /\ spent p p' 0.
Proof.
  intros Ho. destruct (next_run p _ _ Ho) as (p1 & E1 & (_ & _ & _ & H1) & S1). exists p1. unfold arguments. by rewrite (bind_some _ _ _ _ _ E1).
Qed.
Lemma args_some ts e us es f p rest k0 ts0 : follows 1 ts e -> derives_more us es -> args_follow us es -> ts = k0 :: ts0 -> tok_type k0 <> finsh_token_type_right_paren ->
  (length (ts ++ us) + 2 <= f)%nat -> on p ((ts ++ us) ++ KOp finsh_token_type_right_paren :: rest) -> ps_vars p = vars -> (nodes_args (ECons e es) <= free p)%nat ->
  exists p', arguments (proc_assign_expr f) f p = Some (trees_of (ECons e es), p') /\ on p' rest /\ spent p p' (nodes_args (ECons e es)).
Proof.
  intros He Hd Hes Ek Hk0 Hf Ho Hv Hn. rewrite nodes_args_cons in *. rewrite length_app in Hf. rewrite <-app_assoc in Ho.
  destruct (more_head us es rest Hd) as (k & l & El & Hk). rewrite El in Ho. pose proof Ho as Ho'. rewrite Ek in Ho'. cbn [app] in Ho'.
  destruct (peek_run p _ _ Ho') as (p1 & p2 & E1 & _ & E2 & H2 & S1 & S2). pose proof (spent_app S1 S2) as S12. pose proof (sp_free _ _ _ S12). pose proof (sp_vars _ _ _ S12).
  change (k0 :: ts0 ++ k :: l) with ((k0 :: ts0) ++ k :: l) in H2. rewrite <-Ek in H2.
  destruct (follows_yields 1 ts e f He ltac:(cbn; lia) p2 k l) as (p3 & E3 & H3 & S3); [split; [done|split; [congruence|lia]]|lia|].
  destruct (next_run p3 k l H3) as (p4 & E4 & H4 & S4). pose proof (spent_app (spent_app S12 S3) S4) as S14. pose proof (sp_free _ _ _ S14). pose proof (sp_vars _ _ _ S14).
  destruct (Hes f f e ENil p4 rest k l El H4) as (p5 & E5 & Ho5 & S5); [congruence|lia|lia|lia|].
  destruct (match_run p5 _ _ Ho5) as (p6 & E6 & (_ & _ & _ & Ho6) & S6). exists p6.
  split; [|split; [done|apply (spent_eq (spent_app (spent_app S14 S5) S6)); lia]].
  unfold arguments. rewrite (bind_some _ _ _ _ _ E1). rewrite bool_decide_eq_true_2 by done. rewrite (bind_some _ _ _ _ _ E2).
  assert (El2 : proc_param_list (proc_assign_expr f) f p2 = Some (trees_of (ECons e es), p5)).
  { unfold proc_param_list. change (proc_assign_expr f) with (level 1 f). rewrite (bind_some _ _ _ _ _ E3), tree_of_is_null, (bind_some _ _ _ _ _ E4).
    change (level 1 f) with (proc_assign_expr f). exact E5. }
  rewrite (bind_some _ _ _ _ _ El2), (bind_some _ _ _ _ _ E6). done.
Qed.

(** *** All of the grammar *)

(** What an expression begins with. *)
Definition starts (k : tok) : bool :=
  primary k || match k with KOp t => bool_decide (is_Some (unary_branch (mret NULL) t)) | _ => false end.
Lemma derives_head b ts e : derives b ts e -> exists k l, ts = k :: l /\ starts k = true /\ (b = 9%nat -> primary k = true).
Proof.
  assert (Hu : forall t, starts (KOp t) = true -> forall l b, b = 8%nat -> exists k l', KOp t :: l = k :: l' /\ starts k = true /\ (b = 9%nat -> primary k = true)).
  { intros t Ht l b' ->. exists (KOp t), l. done. }
  assert (Hp : forall k l, primary k = true -> exists k' l', k :: l = k' :: l' /\ starts k' = true /\ (9%nat = 9%nat -> primary k' = true)).
  { intros k l Hk. exists k, l. split; [done|]. split; [|done]. unfold starts. by rewrite Hk. }
  induction 1; try (by apply Hp); try (by eapply Hu).
  - destruct u; by eapply Hu.
  - destruct IHderives as (k & l & -> & Hk & _). exists k, l. split; [done|]. split; [done|]. lia.
  - destruct IHderives1 as (k & l & -> & Hk & _). exists k, (l ++ KOp t :: tc). split; [done|]. split; [done|].
    intros ->. match goal with Hb : bin_op t = _ |- _ => apply bin_op_prec in Hb end. lia.
  - eexists _, _. split; [reflexivity|]. done.
  - eexists _, _. split; [reflexivity|]. done.
Qed.
Lemma derives_primary ts e : derives 9 ts e -> head_primary ts.
Proof. intros H. destruct (derives_head 9 ts e H) as (k & l & -> & _ & Hk). by apply Hk. Qed.
Lemma starts_not_paren k : starts k = true -> tok_type k <> finsh_token_type_right_paren /\ tok_type k <> finsh_token_type_semicolon.
Proof. by destruct k as [| | | |[]]. Qed.

Lemma follows_id_8 name x : place_of vars name x -> follows 8 [KId name] (EId x).
Proof. intros H. apply follows_cast; [done|]. by apply follows_id. Qed.

(** The parser follows every derivation. *)
Lemma derives_follows : (forall b ts e, derives b ts e -> follows b ts e) /\ (forall us es, derives_more us es -> args_follow us es).
Proof.
  apply derives_ind2.
  - intros z. apply (follows_literal (KInt z) (EInt z) FINSH_NODE_VALUE_INT (leaf FINSH_NODE_VALUE_INT (u32 z))); try done.
    intros A p p' l (_ & _ & Hp & _) E. unfold proc_primary_expr. rewrite (bind_some _ _ _ _ _ E). cbn [tok_type]. cbn in Hp. by rewrite Hp.
  - intros z. apply (follows_literal (KLong z) (ELong z) FINSH_NODE_VALUE_LONG (leaf FINSH_NODE_VALUE_LONG (u32 z))); try done.
    intros A p p' l (_ & _ & Hp & _) E. unfold proc_primary_expr. rewrite (bind_some _ _ _ _ _ E). cbn [tok_type]. cbn in Hp. by rewrite Hp.
  - intros c. apply (follows_literal (KChar c) (EChar c) FINSH_NODE_VALUE_CHAR (leaf FINSH_NODE_VALUE_CHAR (u8 c))); try done.
    intros A p p' l (_ & _ & Hp & _) E. unfold proc_primary_expr. rewrite (bind_some _ _ _ _ _ E). cbn [tok_type]. cbn in Hp. unfold finsh_node_new_char.
    rewrite <-Hp, (u8_id (u8 _)) by apply u8_range. done.
  - apply (follows_literal (KOp finsh_token_type_value_null) ENull FINSH_NODE_VALUE_NULL (leaf FINSH_NODE_VALUE_NULL 0)); try done.
    intros A p p' l _ E. unfold proc_primary_expr. by rewrite (bind_some _ _ _ _ _ E).
  - apply follows_id.
  - intros u name i. apply follows_post.
  - intros name fn H. apply (follows_call name fn [] ENil H). intros f p rest _ Ho _ _. by apply args_none.
  - intros name fn ts a us es H Hd Ha Hm Hus. rewrite app_assoc. apply (follows_call name fn (ts ++ us) (ECons a es) H). intros f p rest Hf Ho Hv Hn.
    destruct (derives_head 1 ts a Hd) as (k & l & Ek & Hk & _). apply starts_not_paren in Hk as [Hk _]. by apply (args_some ts a us es f p rest k l).
  - intros ts a _ Ha. apply (follows_unary _ ts a a Ha). intros C. by eexists.
  - intros ts a _ Ha. apply (follows_unary _ ts a _ Ha). intros C. eexists. split; [reflexivity|]. apply minus_yields.
  - intros ts a _ Ha. apply (follows_unary _ ts a _ Ha). intros C. eexists. split; [reflexivity|]. intros H. by apply (sys1_yields _ C ts a).
  - intros ts a _ Ha. apply (follows_unary _ ts a _ Ha). intros C. eexists. split; [reflexivity|]. intros H. by apply (sys1_yields _ C ts a).
  - intros name x Hx. apply (follows_unary _ [KId name] (EId x) _ (follows_id_8 name x Hx)). intros C. eexists. split; [reflexivity|]. intros H. by apply (sys1_yields _ C _ (EId x)).
  - intros u name i Hx. apply (follows_unary _ [KId name] (EId (p_var i)) _ (follows_id_8 name _ Hx)). intros C. destruct u; (eexists; split; [reflexivity|]; intros H; by apply (sys1_yields _ C _ (EId (p_var i)))).
  - intros b ts a Hb Hd Ha. apply follows_up; [done| |done]. destruct (Nat.eq_dec b 8%nat) as [->|]; [left; by eapply derives_primary|right; lia].
  - intros b t o ta a tc c Ht _ Ha _ Hc. by apply follows_bin.
  - intros name x ts a Hx _ Ha. apply (follows_assign [KId name] (EId x) ts a); [by apply follows_8_2, follows_id_8|done|done].
  - intros ta a tc c _ Ha _ Hc. apply (follows_assign (KOp finsh_token_type_mul :: ta) (EDeref a) tc c); [|done|done].
    apply follows_8_2. apply (follows_unary _ ta a _ Ha). intros C. eexists. split; [reflexivity|]. intros H. by apply (sys1_yields _ C ta a).
  - apply args_follow_nil.
  - intros ts a us es _ Ha Hm Hus. by apply args_follow_cons.
Qed.
End Follows.

(** ** Declarations and lines *)

(** The tokens of a type. *)
Inductive plain_type : list tok -> finsh_type -> Prop :=
| pt_base t type : base_type t = Some type -> plain_type [KOp t] type
| pt_unsigned t type : unsigned_type t = Some type -> plain_type [KOp finsh_token_type_unsigned; KOp t] type.
Inductive type_tokens : list tok -> finsh_type -> Prop :=
| tt_plain ts type : plain_type ts type -> type_tokens ts type
| tt_pointer ts type : plain_type ts type -> type_tokens (ts ++ [KOp finsh_token_type_mul]) (pointer_type type).

(** A line, and the variables before and behind it: expressions, and declarations of one variable
    with a value. *)
Inductive line_of : list finsh_var -> list tok -> list expr -> list finsh_var -> Prop :=
| l_nil vars : line_of vars [] [] vars
| l_expr vars ts e us es vars' : derives vars 1 ts e -> line_of vars us es vars' ->
    line_of vars (ts ++ KOp finsh_token_type_semicolon :: us) (e :: es) vars'
| l_decl vars tys type name i vars1 ts e us es vars' : type_tokens tys type ->
    finsh_var_insert (take FINSH_NAME_MAX name) type vars = (Z.of_nat i, vars1) -> derives vars1 1 ts e -> line_of vars1 us es vars' ->
    line_of vars (tys ++ KId name :: KOp finsh_token_type_assign :: ts ++ KOp finsh_token_type_semicolon :: us) (EAssign (p_var i) e :: es) vars'.

Lemma plain_type_run tys type p k rest : plain_type tys type -> on p (tys ++ k :: rest) ->
  exists p', proc_type p = parse_pointer type p' /\ on p' (k :: rest) /\ spent p p' 0.
Proof.
  destruct 1 as [t type Ht|t type Ht]; intros Ho; cbn [app] in Ho.
  - destruct (next_run p _ _ Ho) as (p1 & E1 & (_ & _ & _ & H1) & S1). exists p1. unfold proc_type. rewrite (bind_some _ _ _ _ _ E1). cbn [tok_type]. by rewrite Ht.
  - destruct (next_run p _ _ Ho) as (p1 & E1 & (_ & _ & _ & H1) & S1). destruct (next_run p1 _ _ H1) as (p2 & E2 & (_ & _ & _ & H2) & S2). exists p2.
    split; [|split; [done|exact (spent_app S1 S2)]]. unfold proc_type. rewrite (bind_some _ _ _ _ _ E1). cbn [tok_type base_type].
    rewrite bool_decide_eq_true_2 by done. rewrite (bind_some _ _ _ _ _ E2). cbn [tok_type]. rewrite Ht. by destruct t.
Qed.
Lemma type_run tys type p k rest : type_tokens tys type -> on p (tys ++ k :: rest) -> tok_type k <> finsh_token_type_mul ->
  exists p', proc_type p = Some (type, p') /\ on p' (k :: rest) /\ spent p p' 0.
Proof.
  destruct 1 as [tys type Ht|tys type Ht]; intros Ho Hk.
  - destruct (plain_type_run tys type p k rest Ht Ho) as (p1 & -> & H1 & S1). destruct (peek_run p1 k rest H1) as (p2 & p3 & E2 & _ & E3 & H3 & S2 & S3). exists p3.
    unfold parse_pointer. rewrite (bind_some _ _ _ _ _ E2). rewrite bool_decide_eq_false_2 by done. rewrite (bind_some _ _ _ _ _ E3).
    split; [done|]. split; [done|]. exact (spent_app (spent_app S1 S2) S3).
  - rewrite <-app_assoc in Ho. cbn [app] in Ho. destruct (plain_type_run tys type p _ _ Ht Ho) as (p1 & -> & H1 & S1).
    destruct (next_run p1 _ _ H1) as (p2 & E2 & (_ & _ & _ & H2) & S2). exists p2. unfold parse_pointer. rewrite (bind_some _ _ _ _ _ E2).
    split; [done|]. split; [done|]. exact (spent_app S1 S2).
Qed.
Lemma type_head tys type : type_tokens tys type -> exists t l, tys = KOp t :: l /\ (is_base_type t = true \/ t = finsh_token_type_unsigned).
Proof.
  assert (Hp : forall tys type, plain_type tys type -> exists t l, tys = KOp t :: l /\ (is_base_type t = true \/ t = finsh_token_type_unsigned)).
  { destruct 1 as [t ty H|t ty H]; eexists _, _; (split; [reflexivity|]); [left|by right]. unfold is_base_type. by rewrite H, bool_decide_eq_true. }
  destruct 1 as [? ? H|? ? H]; destruct (Hp _ _ H) as (t & l & -> & Ht); by eexists _, _.
Qed.

(** A variable that was entered is found. *)
Lemma var_scan_found name type l : forall i empty j, var_scan name l i empty = Some (Some j) -> empty = None ->
  (i <= j)%nat /\ (j < i + length l)%nat /\ forall n, finsh_var_lookup name (<[(j - i)%nat := Var (take FINSH_NAME_MAX name) type]> l) n = Some (n + (j - i))%nat.
Proof.
  induction l as [|v l IH]; intros i empty j E ->; cbn [var_scan] in E; [done|]. destruct (same_name (fv_name v) name) eqn:Es; [done|].
  case_bool_decide as Hv.
  - assert (Hj : forall l i, var_scan name l i (Some j) = var_scan name l i (Some j)) by done. clear Hj.
    assert (Hkeep : forall l i e r, var_scan name l i (Some e) = Some r -> r = Some e).
    { clear. induction l as [|w l IH]; intros i e r H; cbn in H; [by injection H|]. destruct (same_name _ _); [done|]. by apply IH in H. }
    apply Hkeep in E as [= ->]. split; [lia|]. split; [cbn; lia|]. intros n. rewrite Nat.sub_diag. cbn [insert list_insert finsh_var_lookup fv_name].
    unfold same_name. rewrite take_take, Nat.min_id, bool_decide_eq_true_2 by done. by rewrite Nat.add_0_r.
  - destruct (IH (S i) None j E eq_refl) as (Hi & Hj & Hf). split; [lia|]. split; [cbn; lia|]. intros n. replace (j - i)%nat with (S (j - S i)) by lia.
    cbn [insert list_insert finsh_var_lookup]. change (list_insert ?a ?b ?c) with (<[a := b]> c). rewrite Es, Hf. f_equal. lia.
Qed.
Lemma insert_place vars name type i vars1 : finsh_var_insert (take FINSH_NAME_MAX name) type vars = (Z.of_nat i, vars1) -> place_of vars1 name (p_var i).
Proof.
  unfold finsh_var_insert. destruct (var_scan _ _ _ _) as [[j|]|] eqn:E; intros [= Hi <-]; try lia. apply (inj Z.of_nat) in Hi as <-.
  destruct (var_scan_found _ type _ _ _ _ E eq_refl) as (_ & _ & Hf). rewrite Nat.sub_0_r in Hf. eexists _, _. unfold symbol_lookup. by rewrite Hf.
Qed.

Section Lines.
Notation parse_assign vars ts e f H := (follows_yields vars 1 ts e f (proj1 (derives_follows vars) 1%nat ts e H)).

Lemma semicolon_run p k us : tok_type k = finsh_token_type_semicolon -> on p (k :: us) ->
  exists p', match_token finsh_token_type_semicolon p = Some (tt, p') /\ on p' us /\ spent p p' 0.
Proof. intros <- H. destruct (match_run p k us H) as (p1 & E1 & (_ & _ & _ & H1) & S1). by exists p1. Qed.

Lemma expr_statement_run vars ts e us fuel p : derives vars 1 ts e -> on p (ts ++ KOp finsh_token_type_semicolon :: us) -> ps_vars p = vars -> (nodes e <= free p)%nat ->
  (length ts + 1 < fuel)%nat -> exists p', proc_expr_statement fuel p = Some (tree_of e NULL, p') /\ on p' us /\ spent p p' (nodes e).
Proof.
  intros Hd Ho Hv Hn Hf. destruct (derives_head vars 1 ts e Hd) as (k & l & Ek & Hk & _). apply starts_not_paren in Hk as [_ Hk].
  assert (Ho' : on p (k :: l ++ KOp finsh_token_type_semicolon :: us)) by (by rewrite Ek in Ho). destruct (peek_run p _ _ Ho') as (p1 & p2 & E1 & _ & E2 & H2 & S1 & S2).
  pose proof (spent_app S1 S2) as S12. pose proof (sp_free _ _ _ S12). rewrite app_comm_cons, <-Ek in H2.
  destruct (parse_assign vars ts e fuel Hd ltac:(cbn; lia) p2 (KOp finsh_token_type_semicolon) us) as (p3 & E3 & H3 & S3);
    [split; [done|split; [by rewrite (sp_vars _ _ _ S12)|lia]]|cbn; lia|].
  destruct (semicolon_run p3 (KOp finsh_token_type_semicolon) us eq_refl H3) as (p4 & E4 & H4 & S4). exists p4.
  unfold proc_expr_statement, proc_expr. rewrite (bind_some _ _ _ _ _ E1). rewrite bool_decide_eq_true_2 by done. rewrite (bind_some _ _ _ _ _ E2).
  change (proc_assign_expr fuel) with (level 1 fuel). rewrite (bind_some _ _ _ _ _ E3), (bind_some _ _ _ _ _ E4).
  split; [done|]. split; [done|]. apply (spent_eq (spent_app (spent_app S12 S3) S4)). lia.
Qed.

Lemma spent_vars p p' n l : spent p p' n -> spent (set_ps_vars l p) (set_ps_vars l p') n.
Proof. intros []. by split. Qed.

(** [= value;] behind a name that was declared. *)
Lemma decl_value_run vars name i ts e us fuel p : place_of vars name (p_var i) -> derives vars 1 ts e ->
  on p (ts ++ KOp finsh_token_type_semicolon :: us) -> ps_vars p = vars -> (2 + nodes e <= free p)%nat -> (length ts + 1 < fuel)%nat ->
  exists p', decl_value fuel (take FINSH_NAME_MAX name) NULL None p = Some ((tree_of (EAssign (p_var i) e) NULL, Some O, finsh_token_type_semicolon), p') /\
    took p' (KOp finsh_token_type_semicolon) us /\ spent p p' (2 + nodes e).
Proof.
  intros (type & id & Hl & Hx) Hd Ho Hv Hn Hf.
  destruct (parse_assign vars ts e fuel Hd ltac:(cbn; lia) p (KOp finsh_token_type_semicolon) us) as (p1 & E1 & H1 & S1); [split; [done|split; [done|lia]]|cbn; lia|].
  pose proof (sp_free _ _ _ S1). destruct (new_node_run FINSH_NODE_ID (id_node (p_var i)) p1 eq_refl ltac:(lia)) as (p2 & E2 & K2 & S2). pose proof (sp_free _ _ _ S2).
  destruct (sys_node_run FINSH_NODE_SYS_ASSIGN (tree_of (EId (p_var i)) NULL) (tree_of e NULL) p2 eq_refl (tree_of_not_null _ _) ltac:(lia)) as (p3 & E3 & K3 & S3).
  rewrite sibling_tree_of in E3. assert (H3 : on p3 (KOp finsh_token_type_semicolon :: us)) by (unfold on; by rewrite K3, K2).
  destruct (next_run p3 _ _ H3) as (p4 & E4 & H4 & S4). exists p4. unfold decl_value. change (proc_assign_expr fuel) with (level 1 fuel). rewrite (bind_some _ _ _ _ _ E1), tree_of_is_null.
  assert (E5 : finsh_node_new_id (take FINSH_NAME_MAX name) p1 = Some (tree_of (EId (p_var i)) NULL, p2)).
  { unfold finsh_node_new_id. rewrite (sp_vars _ _ _ S1), Hv, Hl. cbn [tree_of]. rewrite <-E2, Hx. done. }
  rewrite (bind_some _ _ _ _ _ E5), (bind_some _ _ _ _ _ E3). cbn [is_null]. rewrite (bind_some (mret _) _ _ _ _ eq_refl), (bind_some _ _ _ _ _ E4).
  split; [done|]. split; [done|]. apply (spent_eq (spent_app (spent_app (spent_app S1 S2) S3) S4)). lia.
Qed.

Lemma decl_run vars tys type name i vars1 ts e us fuel p : type_tokens tys type -> finsh_var_insert (take FINSH_NAME_MAX name) type vars = (Z.of_nat i, vars1) ->
  derives vars1 1 ts e -> on p (tys ++ KId name :: KOp finsh_token_type_assign :: ts ++ KOp finsh_token_type_semicolon :: us) -> ps_vars p = vars ->
  (2 + nodes e <= free p)%nat -> (length ts + 1 < fuel)%nat ->
  exists p', proc_variable_decl fuel p = Some (tree_of (EAssign (p_var i) e) NULL, p') /\ on p' us /\ spent (set_ps_vars vars1 p) p' (2 + nodes e).
Proof.
  intros Ht Hi Hd Ho Hv Hn Hf. destruct (type_run tys type p _ _ Ht Ho ltac:(done)) as (p1 & E1 & H1 & S1).
  destruct (match_run p1 _ _ H1) as (p2 & E2 & (_ & _ & [Hpay _] & H2) & S2). pose proof (spent_app S1 S2) as S12.
  assert (E3 : declare type p1 = Some (take FINSH_NAME_MAX name, set_ps_vars vars1 p2)).
  { unfold declare. assert (E : proc_identifier p1 = Some (take FINSH_NAME_MAX name, p2)) by (unfold proc_identifier; cbn [tok_type] in E2; rewrite (bind_some _ _ _ _ _ E2); unfold copy_name; by rewrite Hpay).
    rewrite (bind_some _ _ _ _ _ E). assert (E' : insert_var (take FINSH_NAME_MAX name) type p2 = Some (Z.of_nat i, set_ps_vars vars1 p2)).
    { unfold insert_var. by rewrite (sp_vars _ _ _ S12), Hv, Hi. }
    rewrite (bind_some _ _ _ _ _ E'). destruct (Z.ltb_spec (Z.of_nat i) 0); [lia|done]. }
  pose proof (spent_vars _ _ _ vars1 S12) as Sv. pose proof (sp_free _ _ _ S12). change (free p2) with (free (set_ps_vars vars1 p2)) in *.
  destruct (next_run (set_ps_vars vars1 p2) _ _ H2) as (p4 & E4 & (_ & _ & _ & H4) & S4). pose proof (sp_free _ _ _ S4).
  destruct (decl_value_run vars1 name i ts e us fuel p4 (insert_place _ _ _ _ _ Hi) Hd H4) as (p5 & E5 & H5' & S5); [by rewrite (sp_vars _ _ _ S4)|lia|done|].
  exists p5. unfold proc_variable_decl. rewrite (bind_some _ _ _ _ _ E1), (bind_some _ _ _ _ _ E3), (bind_some _ _ _ _ _ E4). cbn [tok_type].
  rewrite (bind_some _ _ _ _ _ E5). unfold decl_rest. cbn beta iota.
  assert (E6 : decl_loop fuel fuel type (tree_of (EAssign (p_var i) e) NULL) (Some 0%nat) finsh_token_type_semicolon p5 = Some ((tree_of (EAssign (p_var i) e) NULL, finsh_token_type_semicolon), p5)).
  { by destruct fuel. }
  rewrite (bind_some _ _ _ _ _ E6). split; [done|]. split; [apply H5'|]. apply (spent_eq (spent_app (spent_app Sv S4) S5)). lia.
Qed.

(** The chain of statements at the root, and the place of the last one. *)
Definition node_of (acc : list expr) : option nat := match acc with [] => None | _ :: l => Some (length l) end.
Lemma node_of_snoc acc e : node_of (acc ++ [e]) = Some (length acc).
Proof. destruct acc as [|a l]; [done|]. cbn. rewrite length_app. cbn. f_equal. lia. Qed.
Lemma set_sibling_statements l : forall a e, set_sibling_at (length l) (statements (a :: l)) (tree_of e NULL) = Some (statements ((a :: l) ++ [e])).
Proof.
  induction l as [|b l IH]; intros a e; cbn [statements app length].
  - destruct (sibling_tree a NULL) as (n & c & -> & H). cbn. by rewrite H.
  - destruct (sibling_tree a (tree_of b (statements l))) as (n & c & -> & H). pose proof (IH b e) as E. cbn [statements app] in E. cbn [set_sibling_at]. rewrite E. cbn. by rewrite H.
Qed.
Lemma statements_null acc : is_null (statements acc) = match acc with [] => true | _ => false end.
Proof. destruct acc as [|a l]; [done|]. apply tree_of_is_null. Qed.
Lemma attach_run acc statement p e p1 : statement p = Some (tree_of e NULL, p1) -> ps_root p1 = ps_root p -> ps_root p = statements acc ->
  attach (node_of acc) statement p = Some (node_of (acc ++ [e]), set_ps_root (statements (acc ++ [e])) p1).
Proof.
  intros E Hr Ha. rewrite node_of_snoc. unfold attach. rewrite (bind_some get_root _ _ _ _ eq_refl), Ha, statements_null. destruct acc as [|a l].
  - rewrite (bind_some _ _ _ _ _ E), (bind_some (set_root _) _ _ _ _ eq_refl), tree_of_is_null. done.
  - rewrite (bind_some _ _ _ _ _ E), (bind_some get_root _ _ _ _ eq_refl). cbn [node_of]. rewrite Hr, Ha, set_sibling_statements.
    rewrite (bind_some (set_root _) _ _ _ _ eq_refl), tree_of_is_null. done.
Qed.

(** The function for a statement that begins with a token. *)
Definition statement_of (fuel : nat) (token : finsh_token_type) : P tree :=
  if bool_decide (token = finsh_token_type_identifier) then proc_expr_statement fuel
  else if is_base_type token || bool_decide (token = finsh_token_type_unsigned) then proc_variable_decl fuel
  else other_statement fuel.
Lemma line_step fuel turns acc p k l e us vars n : on p (k :: l) -> tok_type k <> finsh_token_type_eof -> tok_type k <> finsh_token_type_bad -> ps_root p = statements acc ->
  (forall p0, on p0 (k :: l) -> spent p p0 0 ->
     exists p1, statement_of fuel (tok_type k) p0 = Some (tree_of e NULL, p1) /\ on p1 us /\ spent (set_ps_vars vars p0) p1 n) ->
  exists p1, (token ← next_token; run_loop fuel (S turns) (node_of acc) token) p = (token ← next_token; run_loop fuel turns (node_of (acc ++ [e])) token) p1 /\
    on p1 us /\ spent (set_ps_root (statements (acc ++ [e])) (set_ps_vars vars p)) p1 n.
Proof.
  intros Ho He Hb Hr Hst. destruct (peek_run p k l Ho) as (p1 & p2 & E1 & _ & E2 & H2 & S1 & S2). pose proof (spent_app S1 S2) as S12.
  destruct (Hst p2 H2 S12) as (p3 & E3 & H3 & S3). exists (set_ps_root (statements (acc ++ [e])) p3). split.
  - rewrite (bind_some _ _ _ _ _ E1). cbn [run_loop]. rewrite !bool_decide_eq_false_2 by done. cbn [orb]. rewrite (bind_some _ _ _ _ _ E2).
    assert (E4 : attach (node_of acc) (statement_of fuel (tok_type k)) p2 = Some (node_of (acc ++ [e]), set_ps_root (statements (acc ++ [e])) p3)).
    { apply attach_run; [done|by rewrite (sp_root _ _ _ S3)|by rewrite (sp_root _ _ _ S12)]. }
    assert (Eb : forall f : option nat -> P unit, ((if bool_decide (tok_type k = finsh_token_type_identifier) then attach (node_of acc) (proc_expr_statement fuel)
        else if is_base_type (tok_type k) || bool_decide (tok_type k = finsh_token_type_unsigned) then attach (node_of acc) (proc_variable_decl fuel)
        else attach (node_of acc) (other_statement fuel)) ≫= f) p2 = f (node_of (acc ++ [e])) (set_ps_root (statements (acc ++ [e])) p3)).
    { intros f. apply bind_some. rewrite <-E4. unfold statement_of. by repeat case_match. }
    rewrite Eb, (bind_some get_root _ _ _ _ eq_refl). cbn [ps_root set_ps_root]. rewrite statements_null. by destruct acc.
  - split; [exact H3|]. destruct S12, S3. split; cbn in *; try congruence. unfold free in *. cbn in *. lia.
Qed.

Lemma other_statement_run fuel p t p' : proc_expr_statement fuel p = Some (t, p') -> is_null t = false -> other_statement fuel p = Some (t, p').
Proof. intros E Ht. unfold other_statement. rewrite (bind_some get_root _ _ _ _ eq_refl), (bind_some _ _ _ _ _ E), Ht, andb_false_r. done. Qed.

Lemma lines_run vars us es vars' : line_of vars us es vars' -> forall fuel turns acc p, on p us -> ps_vars p = vars -> (tree_size (statements es) <= free p)%nat ->
  (length us + 1 < fuel)%nat -> (length es <= turns)%nat -> ps_root p = statements acc ->
  exists p', (token ← next_token; run_loop fuel turns (node_of acc) token) p = Some (tt, p') /\ ps_root p' = statements (acc ++ es) /\ ps_vars p' = vars' /\
    ps_heap p' = ps_heap p /\ tk_errno (ps_token p') = tk_errno (ps_token p).
Proof.
  induction 1 as [vars|vars ts e us es vars' Hd _ IH|vars tys type name i vars1 ts e us es vars' Ht Hi Hd _ IH]; intros fuel turns acc p Ho Hv Hn Hf Hl Hr.
  - destruct Ho as (t1 & E & He). exists (set_ps_token t1 p). rewrite app_nil_r. split; [|done]. unfold mbind, P_bind, next_token. rewrite E. by destruct turns.
  - destruct turns as [|turns]; [cbn in Hl; lia|]. cbn [statements] in Hn. rewrite size_tree_of in Hn. rewrite length_app in Hf. cbn [length] in *.
    destruct (derives_head vars 1 ts e Hd) as (k & l & Ek & Hk & _). assert (Ho' := Ho). rewrite Ek in Ho'. cbn [app] in Ho'.
    destruct (line_step fuel turns acc p k _ e us vars (nodes e) Ho') as (p1 & E1 & H1 & S1); [by destruct k as [| | | |[]]|by destruct k as [| | | |[]]|done| |].
    { intros p0 H0 S0. rewrite app_comm_cons, <-Ek in H0. pose proof (sp_free _ _ _ S0). assert (Hv0 : ps_vars p0 = vars) by (by rewrite (sp_vars _ _ _ S0)).
      destruct (expr_statement_run vars ts e us fuel p0 Hd H0 Hv0 ltac:(lia) ltac:(lia)) as (p1 & E1 & H1 & S1). exists p1.
      split; [|split; [done|destruct S1; split; cbn; (congruence || done)]]. unfold statement_of. case_bool_decide; [done|].
      assert (Eb : is_base_type (tok_type k) || bool_decide (tok_type k = finsh_token_type_unsigned) = false) by (by destruct k as [| | | |[]]).
      rewrite Eb. apply other_statement_run; [done|apply tree_of_is_null]. }
    pose proof (sp_free _ _ _ S1) as F1. change (free (set_ps_root _ (set_ps_vars _ p))) with (free p) in F1.
    destruct (IH fuel turns (acc ++ [e]) p1 H1) as (p2 & E2 & R2 & V2 & M2 & N2); [by rewrite (sp_vars _ _ _ S1)|lia|lia|lia|by rewrite (sp_root _ _ _ S1)|].
    exists p2. rewrite E1, E2. rewrite <-app_assoc in R2. split; [done|]. split; [done|]. split; [done|]. rewrite M2, N2, (sp_heap _ _ _ S1), (sp_errno _ _ _ S1). done.
  - destruct turns as [|turns]; [cbn in Hl; lia|]. cbn [statements] in Hn. rewrite size_tree_of in Hn.
    assert (En : nodes (EAssign (p_var i) e) = (2 + nodes e)%nat) by (unfold nodes; cbn; lia). rewrite En in Hn.
    rewrite length_app in Hf. cbn [length] in *. rewrite length_app in Hf. cbn [length] in Hf.
    destruct (type_head tys type Ht) as (t & l & Ek & Hk). assert (Ho' := Ho). rewrite Ek in Ho'. cbn [app] in Ho'.
    assert (Htok : t <> finsh_token_type_eof /\ t <> finsh_token_type_bad /\ t <> finsh_token_type_identifier).
    { destruct Hk as [Hk|Hk]; by destruct t. }
    destruct (line_step fuel turns acc p (KOp t) _ (EAssign (p_var i) e) us vars1 (2 + nodes e) Ho') as (p1 & E1 & H1 & S1); [apply Htok|apply Htok|done| |].
    { intros p0 H0 S0. rewrite app_comm_cons, <-Ek in H0. pose proof (sp_free _ _ _ S0). assert (Hv0 : ps_vars p0 = vars) by (by rewrite (sp_vars _ _ _ S0)).
      destruct (decl_run vars tys type name i vars1 ts e us fuel p0 Ht Hi Hd H0 Hv0 ltac:(lia) ltac:(lia)) as (p1 & E1 & H1 & S1). exists p1. split; [|done].
      unfold statement_of. cbn [tok_type]. rewrite bool_decide_eq_false_2 by apply Htok. destruct Hk as [-> | ->]; done. }
    pose proof (sp_free _ _ _ S1) as F1. change (free (set_ps_root _ (set_ps_vars _ p))) with (free p) in F1.
    destruct (IH fuel turns (acc ++ [EAssign (p_var i) e]) p1 H1) as (p2 & E2 & R2 & V2 & M2 & N2); [by rewrite (sp_vars _ _ _ S1)|lia|lia|lia|by rewrite (sp_root _ _ _ S1)|].
    exists p2. rewrite E1, E2. rewrite <-app_assoc in R2. split; [done|]. split; [done|]. split; [done|]. rewrite M2, N2, (sp_heap _ _ _ S1), (sp_errno _ _ _ S1). done.
Qed.

(** Every statement ends with a semicolon, every token with a blank. *)
Lemma line_length vars ts es vars' : line_of vars ts es vars' -> (length es <= length ts)%nat.
Proof. induction 1; [done| |]; repeat (rewrite length_app; cbn [length]); lia. Qed.
Lemma print_line_length ts : (length ts <= length (print_line ts))%nat.
Proof. induction ts as [|k ts IH]; [done|]. cbn [print_line]. rewrite length_app. cbn [length]. lia. Qed.
End Lines.
End Parser.

(** The parser and the grammar: of the text of a line of expressions and declarations with a
    value, whose trees fit into the nodes that are free, the parser makes the chain of their
    trees, with the precedences and associations of the grammar; it enters the variables that are
    declared, sets no error and leaves the heap as it is. *)
Lemma lines_parsed sysvars sysvar_list syscalls syscall_list variables vars ts es vars' p :
  line_of sysvars sysvar_list syscalls syscall_list vars ts es vars' -> forallb tok_ok ts = true -> ps_vars p = vars -> ps_root p = NULL ->
  (tree_size (statements es) <= free p)%nat ->
  exists p', finsh_parser_run sysvars sysvar_list syscalls syscall_list variables (print_line ts) p = Some (tt, p') /\
    ps_root p' = statements es /\ ps_vars p' = vars' /\ ps_heap p' = ps_heap p /\ tk_errno (ps_token p') = tk_errno (ps_token p).
Proof.
  intros Hline Hok Hv Hr Hn. unfold finsh_parser_run. pose proof (line_length _ _ _ _ _ _ _ _ Hline). pose proof (print_line_length ts).
  set (p0 := set_ps_token (finsh_token_init (print_line ts) (tk_errno (ps_token p))) p). set (fuel := (2 + length (print_line ts))%nat).
  destruct (lines_run _ _ _ _ variables _ _ _ _ Hline fuel fuel [] p0) as (p' & E & Hroot & Hvars & Hheap & Herr).
  - apply (delivers_line ts Hok _ [] []); [|by left|done|done]. split; [done|cbn; by apply print_line_cstring|done].
  - done.
  - done.
  - unfold fuel. lia.
  - unfold fuel. lia.
  - done.
  - exists p'. split; [exact E|]. by rewrite Hheap, Herr.
Qed.

(** C18. The parser and the grammar [derives], which has the binary and unary operators, assignments,
    names, numbers, characters and calls of the comments of the source, but not their rules for
    parentheses, casts, strings and postfix operators behind anything but a name: before the tokens
    of such an expression and a token that does not go on with it, [proc_assign_expr] makes the
    tree of the expression, with the precedences and the associations of the grammar. It takes as
    many nodes as the tree has, which must be free, stops before the token behind it and changes
    nothing else; fuel beyond the number of the tokens is enough. *)
Theorem finsh_parser_follows sysvars sysvar_list syscalls syscall_list variables ts e k rest fuel p :
  derives sysvars sysvar_list syscalls syscall_list (ps_vars p) 1 ts e -> delivers (ps_token p) (ts ++ k :: rest) -> prec (tok_type k) = O ->
  (nodes e <= free p)%nat -> (length ts + 1 < fuel)%nat ->
  exists p', proc_assign_expr sysvars sysvar_list syscalls syscall_list variables fuel p = Some (tree_of e NULL, p') /\
    delivers (ps_token p') (k :: rest) /\ spent p p' (nodes e).
Proof.
  intros Hd Ho Hk Hn Hf. destruct (proj1 (derives_follows _ _ _ _ variables (ps_vars p)) 1%nat ts e Hd fuel Hf p k rest) as (p' & H); [by split|lia|]. by exists p'.
Qed.

(** ** Examples

    The variable [int x] and the function [f] of the examples of FinshExec.v. *)
Definition vars6 : list finsh_var := Var [120] finsh_type_int :: replicate 7 (Var [] finsh_type_unknown).
Definition func6 : finsh_syscall := Syscall [102] 32768 512.
Definition heap6 : fheap := default (Fheap ∅ 0 0) (finsh_heap_init 2048 (list_to_map (map (fun a => (a, 7)) (seqZ 2048 128)))).
Definition parser6 : parser := Parser (finsh_token_init [] 0) NULL (replicate 16 FINSH_NODE_UNKNOWN) vars6 heap6.
(** The types of the statements of a line, the variables and the error. *)
Fixpoint roots (t : tree) : list node_type := match t with NULL => [] | T n _ s => nd_type n :: roots s end.
Definition parse6 (line : list Z) : option (list node_type * list (list Z) * Z) :=
  match finsh_parser_run [] [] [func6] [] 4096 line parser6 with
  | Some (_, p) => Some (roots (ps_root p), map fv_name (ps_vars p), tk_errno (ps_token p))
  | None => None
  end.

(** [int y = 5 ; x = y << 2 | f ( y , - x ) ;] *)
Definition toks6 : list tok :=
  [KOp finsh_token_type_int; KId [121]; KOp finsh_token_type_assign; KInt 5; KOp finsh_token_type_semicolon;
   KId [120]; KOp finsh_token_type_assign; KId [121]; KOp finsh_token_type_shl; KInt 2; KOp finsh_token_type_or;
   KId [102]; KOp finsh_token_type_left_paren; KId [121]; KOp finsh_token_type_comma;
   KOp finsh_token_type_sub; KId [120]; KOp finsh_token_type_right_paren; KOp finsh_token_type_semicolon].
Definition expr6 : expr :=
  EAssign (p_var 0) (EBin Or (EBin Shl (EId (p_var 1)) (EInt 2)) (ECall func6 (ECons (EId (p_var 1)) (ECons (EBin Sub (ELong 0) (EId (p_var 0))) ENil)))).
Definition exprs6 : list expr := [EAssign (p_var 1) (EInt 5); expr6].
Definition vars6' : list finsh_var := <[1%nat := Var [121] finsh_type_int]> vars6.

Lemma up_to {sysvars sysvar_list syscalls syscall_list vars} b ts e : (1 <= b <= 9)%nat ->
  derives sysvars sysvar_list syscalls syscall_list vars 9 ts e -> derives sysvars sysvar_list syscalls syscall_list vars b ts e.
Proof.
  intros Hb H. remember (9 - b)%nat as n eqn:En. revert b Hb En. induction n as [|n IH]; intros b Hb En; [by replace b with 9%nat by lia|].
  apply d_up; [lia|]. apply IH; lia.
Qed.
Lemma derives6 : derives [] [] [func6] [] vars6' 1 (take 13 (drop 5 toks6)) expr6.
Proof.
  assert (Hx : forall n i, symbol_lookup [] [] [func6] [] vars6' n = Some (Some (FINSH_IDTYPE_VAR, id_var i)) -> take 16 n = n -> place_of [] [] [func6] [] vars6' n (p_var i)).
  { intros n i H E. exists FINSH_IDTYPE_VAR, (id_var i). unfold FINSH_NAME_MAX. by rewrite E. }
  apply (d_assign [] [] [func6] [] vars6' [120] (p_var 0)); [by apply Hx|]. apply d_up; [lia|].
  apply (d_bin _ _ _ _ _ 2 finsh_token_type_or Or (take 3 (drop 7 toks6)) _ (take 7 (drop 11 toks6))); [done| |].
  - do 3 (apply d_up; [lia|]). apply (d_bin _ _ _ _ _ 5 finsh_token_type_shl Shl [KId [121]] _ [KInt 2]); [done| |apply up_to; [lia|apply d_int]].
    apply up_to; [lia|]. by apply d_id, Hx.
  - apply up_to; [lia|]. apply (d_call _ _ _ _ _ [102] func6 [KId [121]] (EId (p_var 1)) (take 3 (drop 14 toks6)) (ECons (EBin Sub (ELong 0) (EId (p_var 0))) ENil)); [done| |].
    + apply up_to; [lia|]. by apply d_id, Hx.
    + apply (d_cons _ _ _ _ _ [KOp finsh_token_type_sub; KId [120]] _ [] ENil); [|apply d_nil]. do 7 (apply d_up; [lia|]). apply d_minus, d_up; [lia|].
      by apply d_id, Hx.
Qed.
Lemma line6 : line_of [] [] [func6] [] vars6 toks6 exprs6 vars6'.
Proof.
  apply (l_decl [] [] [func6] [] vars6 [KOp finsh_token_type_int] finsh_type_int [121] 1 vars6' [KInt 5] (EInt 5) (drop 5 toks6) (drop 1 exprs6) vars6').
  - by apply tt_plain, pt_base.
  - reflexivity.
  - apply up_to; [lia|]. apply d_int.
  - by apply (l_expr [] [] [func6] [] vars6' (take 13 (drop 5 toks6)) _ [] []); [apply derives6|apply l_nil].
Qed.
Definition ts6 : list tok := take 13 (drop 5 toks6).
Definition parser6' : parser := set_ps_token (finsh_token_init (print_line (ts6 ++ [KOp finsh_token_type_semicolon])) 0) (set_ps_vars vars6' parser6).
Lemma finsh_parser_follows_witness :
  exists e p', proc_assign_expr [] [] [func6] [] 4096 16 parser6' = Some (tree_of e NULL, p') /\ nodes e = 12%nat /\ spent parser6' p' 12.
Proof.
  destruct (finsh_parser_follows [] [] [func6] [] 4096 ts6 expr6 (KOp finsh_token_type_semicolon) [] 16 parser6') as (p' & E & _ & Hs).
  - exact derives6.
  - apply (delivers_line (ts6 ++ [KOp finsh_token_type_semicolon]) eq_refl _ [] []); [split; reflexivity|by left|reflexivity|reflexivity].
  - reflexivity.
  - vm_compute. lia.
  - vm_compute. lia.
  - exists expr6, p'. exact (conj E (conj eq_refl Hs)).
Defined.

(** [int y = 1, z = 2; y;]: the statement behind the declaration takes the place of [z = 2]. *)
Example finsh_declaration_lost :
  parse6 [105;110;116;32;121;61;49;44;122;61;50;59;121;59] = Some ([FINSH_NODE_SYS_ASSIGN; FINSH_NODE_ID], [120] :: [121] :: [122] :: replicate 5 [], 0).
Proof. vm_compute. reflexivity. Qed.
(** [int y; y = 2;]: without a value there is no tree, and the rest of the line is not read. *)
Example finsh_line_dropped : parse6 [105;110;116;32;121;59;121;61;50;59] = Some ([], [120] :: [121] :: replicate 6 [], 0).
Proof. vm_compute. reflexivity. Qed.
(** [x++;;x;]: the statement behind an empty one is lost. *)
Example finsh_statement_skipped : parse6 [120;43;43;59;59;120;59] = Some ([FINSH_NODE_SYS_INC], [120] :: replicate 7 [], 0).
Proof. vm_compute. reflexivity. Qed.
(** [(1+2);]: the parenthesis is taken for that of a cast. *)
Example finsh_parentheses_refused : (fun r => r.2) <$> parse6 [40;49;43;50;41;59] = Some FINSH_ERROR_INVALID_TOKEN.
Proof. vm_compute. reflexivity. Qed.
(** [long_name_of_16c;]: a name of 16 characters that is no variable is compared without an end. *)
Example finsh_long_name : parse6 ([108;111;110;103;95;110;97;109;101;95;111;102;95;49;54;99] ++ [59]) = None.
Proof. vm_compute. reflexivity. Qed.
(** A line without a semicolon behind a name is read again and again. *)
Example finsh_line_repeated : parse6 [120] = None.
Proof. vm_compute. reflexivity. Qed.
(** [y] finds a variable [yy] of the list of those that were appended. *)
Example finsh_sysvar_prefix : finsh_sysvar_lookup [] [Sysvar [121; 121] finsh_type_int 4096 512] [121] = Some (Sysvar [121; 121] finsh_type_int 4096 512).
Proof. vm_compute. reflexivity. Qed.
