(* ===== verification/FinshLine.v ===== *)
(** * Lines of the FinSH shell
      (src/components/finsh/shell.c: [finsh_run_line]; finsh_init.c, finsh_error.c, finsh_parser.c)

    The scanner, the parser, the compiler and the machine put together.  The theorem says what
    the shell shows for the text of a line of statements. *)
From S2P Require Import Prelude MemFunc FinshVm FinshCompiler FinshExec FinshToken FinshHeap FinshParser.

(** The parser and the machine have the memory and [global_errno] in common. *)
Record shell := Shell { sh_parser : parser; sh_machine : finsh }.

(** What [finsh_run_line] prints: an error, or the bottom of the stack, behind the character that
    its lowest byte is when it can be printed. *)
Inductive output := Error (e : Z) | Value (c : option Z) (v : Z).

Definition finsh_error_init (p : parser) : parser := set_ps_token (set_tk_errno FINSH_ERROR_OK (ps_token p)) p.
Definition finsh_node_init (p : parser) : parser := set_ps_nodes (replicate FINSH_NODE_MAX FINSH_NODE_UNKNOWN) p.
(** The structure is cleared; [global_errno] is not in it. *)
Definition finsh_parser_init (p : parser) : parser :=
  set_ps_root NULL (set_ps_token (Token false false 0 finsh_token_type_none 0 (replicate (Z.to_nat FINSH_STRING_MAX) 0) [] (tk_errno (ps_token p))) p).
Definition finsh_flush (p : parser) : parser := finsh_error_init (finsh_node_init (finsh_parser_init p)).
Definition finsh_stack_bottom (s : finsh) : option Z := slot s 0.

(** The parser on the memory of the machine, and the machine behind the parser. *)
Definition with_memory (m : finsh) (p : parser) : parser :=
  set_ps_token (set_tk_errno (f_errno m) (ps_token p)) (set_ps_heap (Fheap (f_mem m) (free_list (ps_heap p)) (allocate_list (ps_heap p))) p).
Definition behind_parser (p : parser) (m : finsh) : finsh := finsh_error_set (tk_errno (ps_token p)) (set_f_mem (fh_mem (ps_heap p)) m).

Section Line.
Context (sysvar_table global_sysvar_list : list finsh_sysvar) (syscall_table global_syscall_list : list finsh_syscall) (finsh_heap variables : Z)
  (call : Z -> list Z -> mem -> option (Z * mem)).

(** [memset] of the table of variables; the memory of their values is cleared too. *)
Definition finsh_var_init (p : parser) : option parser :=
  let m := fh_mem (ps_heap p) in
  m ← foldr (fun i m => m ← m; store32 m (var_value variables i) 0) (Some m) (seq 0 FINSH_VARIABLE_MAX);
  Some (set_ps_vars (replicate FINSH_VARIABLE_MAX (Var [] finsh_type_unknown)) (set_ps_heap (Fheap m (free_list (ps_heap p)) (allocate_list (ps_heap p))) p)).
Definition finsh_init (s : shell) : option shell :=
  let p := finsh_node_init (finsh_parser_init (with_memory (sh_machine s) (sh_parser s))) in
  p ← finsh_var_init p;
  h ← finsh_heap_init finsh_heap (fh_mem (ps_heap p));
  let p := set_ps_heap h (finsh_error_init p) in
  Some (Shell p (behind_parser p (sh_machine s))).

Definition finsh_run_line (line : list Z) (s : shell) : option (output * shell) :=
  match finsh_parser_run sysvar_table global_sysvar_list syscall_table global_syscall_list variables line (with_memory (sh_machine s) (sh_parser s)) with
  | None => None
  | Some (_, p) =>
      let m := behind_parser p (sh_machine s) in
      m ← (if f_errno m =? 0 then finsh_compiler_run (ps_vars p) variables (ps_root p) m else Some m);
      r ← (if f_errno m =? 0 then
             match finsh_vm_run call m with
             | Halted m =>
                 v ← finsh_stack_bottom m;
                 let ch := u8 v in
                 Some (Value (if (0x20 <? ch) && (ch <? 0x7e) then Some ch else None) v, m)
             | _ => None
             end
           else Some (Error (f_errno m), m));
      let '(out, m) := r in
      let p := finsh_flush (set_ps_heap (Fheap (f_mem m) (free_list (ps_heap p)) (allocate_list (ps_heap p))) p) in
      Some (out, Shell p (behind_parser p m))
  end.
End Line.

(** Between two lines. *)
Record idle (s : shell) : Prop := {
  id_root : ps_root (sh_parser s) = NULL;
  id_nodes : ps_nodes (sh_parser s) = replicate FINSH_NODE_MAX FINSH_NODE_UNKNOWN;
  id_errno : f_errno (sh_machine s) = 0;
  id_stack : length (f_stack (sh_machine s)) = 64%nat;
  id_text : length (f_text (sh_machine s)) = 128%nat }.

Lemma run_line_parsed sysvars sysvar_list syscalls syscall_list variables ts es vars' s :
  idle s -> line_of sysvars sysvar_list syscalls syscall_list (ps_vars (sh_parser s)) ts es vars' -> forallb tok_ok ts = true ->
  (tree_size (statements es) <= FINSH_NODE_MAX)%nat ->
  exists p, finsh_parser_run sysvars sysvar_list syscalls syscall_list variables (print_line ts) (with_memory (sh_machine s) (sh_parser s)) = Some (tt, p) /\
    ps_root p = statements es /\ ps_vars p = vars' /\ fh_mem (ps_heap p) = f_mem (sh_machine s) /\ tk_errno (ps_token p) = 0.
Proof.
  intros [Hr Hn He _ _] Hl Hok Hsize. set (p0 := with_memory (sh_machine s) (sh_parser s)).
  assert (Hf : free p0 = FINSH_NODE_MAX) by (unfold free, p0; cbn; by rewrite Hn).
  destruct (lines_parsed _ _ _ _ variables _ ts es vars' p0 Hl Hok eq_refl Hr) as (p & E & H1 & H2 & H3 & H4); [by rewrite Hf|].
  exists p. rewrite H3, H4. done.
Qed.

Lemma idle_flush p m : length (f_stack m) = 64%nat -> length (f_text m) = 128%nat -> idle (Shell (finsh_flush p) (behind_parser (finsh_flush p) m)).
Proof. by split. Qed.

(** C17. A line of the shell: for the text of expressions (of the grammar [derives]) and
    declarations with a value, that the 16 nodes have room for and that are well typed, the number
    [finsh_run_line] shows has the value the evaluator gives to the last statement in the bytes of
    that statement's type; the bytes above are what the stack held there. In front of it stands
    the character of the lowest byte, when it lies between a blank and a tilde, both excluded. The
    memory is the evaluator's, the new variables are in the table, and the shell is ready for the
    next line. There is no result when the evaluator has none, and when the code is longer than
    the text segment. *)
Theorem finsh_run_line_correct sysvars sysvar_list syscalls syscall_list variables call ts es vars' s :
  idle s -> line_of sysvars sysvar_list syscalls syscall_list (ps_vars (sh_parser s)) ts es vars' -> es <> [] -> forallb tok_ok ts = true ->
  (tree_size (statements es) <= FINSH_NODE_MAX)%nat -> forallb (well_typed vars') es = true ->
  match eval_statements vars' variables call (f_mem (sh_machine s)) es with
  | Some (v, m) =>
      if (length (code_statements vars' variables es) <=? 128)%nat then
        let ch := v mod 256 in
        exists z s', finsh_run_line sysvars sysvar_list syscalls syscall_list variables call (print_line ts) s =
            Some (Value (if (0x20 <? ch) && (ch <? 0x7e) then Some ch else None) z, s') /\
          z mod bits (last_width vars' es) = v /\ f_mem (sh_machine s') = m /\ ps_vars (sh_parser s') = vars' /\ idle s'
      else finsh_run_line sysvars sysvar_list syscalls syscall_list variables call (print_line ts) s = None
  | None => finsh_run_line sysvars sysvar_list syscalls syscall_list variables call (print_line ts) s = None
  end.
Proof.
  intros Hid Hl Hne Hok Hsize Hw. destruct (run_line_parsed _ _ _ _ variables ts es vars' s Hid Hl Hok Hsize) as (p & Ep & Hroot & Hvars & Hmem & Herr).
  destruct Hid as [_ _ _ Hst Htx]. unfold finsh_run_line. rewrite Ep, Hroot, Hvars. set (m0 := behind_parser p (sh_machine s)).
  assert (E0 : f_errno m0 = 0) by done. assert (Em : f_mem m0 = f_mem (sh_machine s)) by done. rewrite E0, Z.eqb_refl, <-Em.
  pose proof (line_correct vars' variables call es m0 Hne Hw Hst Htx) as H. destruct (length (code_statements vars' variables es) <=? 128)%nat.
  - destruct H as (m1 & -> & He1 & H). rewrite E0 in He1. cbn [mbind option_bind]. rewrite He1, Z.eqb_refl. destruct (eval_statements _ _ _ _ _) as [[v m]|]; [|by rewrite H].
    destruct H as (m2 & z & -> & Hz & Hv & Hm & _ & Htx2 & Hst2). unfold finsh_stack_bottom. rewrite Hz. cbn [mbind option_bind].
    assert (Ech : u8 z = v mod 256) by (rewrite <-Hv; unfold u8; destruct (last_width vars' es); cbn [bits]; Z.div_mod_to_equations; lia).
    rewrite Ech. eexists z, _. split; [reflexivity|]. split; [done|]. split; [cbn; done|]. split; [cbn; done|]. by apply idle_flush.
  - rewrite H. by destruct (eval_statements _ _ _ _ _) as [[v m]|].
Qed.

(** The variable [int x] at address 4096 and a heap at 2048. *)
Definition mem7 : mem := list_to_map (map (fun a => (a, 0)) (seqZ 2048 128 ++ seqZ 4096 192)).
Definition shell7 : shell := Shell parser6 (Finsh (replicate 64 2863311530) 0 (replicate 128 0) 0 mem7 0 0).
(** A function that adds its arguments. *)
Definition add_args (f : Z) (vs : list Z) (m : mem) : option (Z * mem) := Some (foldr Z.add 0 vs, m).

(** [int y = 5 ; x = y << 2 | f ( y , - x ) ;] shows 21, without a character. *)
Lemma finsh_run_line_correct_witness :
  exists z s', finsh_run_line [] [] [func6] [] 4096 add_args (print_line toks6) shell7 = Some (Value None z, s') /\ z mod 4294967296 = 21 /\ idle s'.
Proof.
  pose proof (finsh_run_line_correct [] [] [func6] [] 4096 add_args toks6 exprs6 vars6' shell7) as H.
  assert (Hv : fst <$> eval_statements vars6' 4096 add_args (f_mem (sh_machine shell7)) exprs6 = Some 21) by (vm_compute; reflexivity).
  destruct (eval_statements vars6' 4096 add_args (f_mem (sh_machine shell7)) exprs6) as [[v m]|]; [|discriminate Hv]. injection Hv as Hv.
  assert (Hc : (length (code_statements vars6' 4096 exprs6) <=? 128)%nat = true) by (vm_compute; reflexivity). rewrite Hc in H.
  cbv zeta in H. rewrite Hv in H. destruct H as (z & s' & E & Hz & _ & _ & Hid).
  - split; reflexivity.
  - exact line6.
  - discriminate.
  - vm_compute. reflexivity.
  - vm_compute. lia.
  - vm_compute. reflexivity.
  - exists z, s'. exact (conj E (conj Hz Hid)).
Defined.

(** [int y; y = 2;] shows 0 and no error: what is behind the first semicolon is not run. *)
Example finsh_declaration_shows :
  (fun r => (r.1, f_mem (sh_machine r.2) !! 4140)) <$> finsh_run_line [] [] [func6] [] 4096 add_args [105;110;116;32;121;59;121;61;50;59] shell7 = Some (Value None 0, Some 0).
Proof. vm_compute. reflexivity. Qed.

(** A string between quotation marks. *)
Definition quoted (l : list Z) : list Z := 34 :: l ++ [34].
Definition semicolon : list Z := [59].
(** A function that gives the character its first argument points to. *)
Definition first_char (f : Z) (vs : list Z) (m : mem) : option (Z * mem) := c ← m !! default 0 (head vs); Some (c, m).
(** [f("1234567", "1234567", ..., "abcdefghijklmnopqrs");] with five strings in front of the last. *)
Definition call_line : list Z := [102; 40] ++ concat (replicate 5 (quoted [49; 50; 51; 52; 53; 54; 55] ++ [44])) ++ quoted (seqZ 97 19) ++ [41; 59].

(** The line shows the 1 of its first argument on a heap without other strings. Behind the line
    ["a";] it shows an m: the last string does not fit, the collection takes the strings of the
    line itself, which no variable points to, and the new string is written over the first one. *)
Example finsh_literal_overwritten :
  (s ← finsh_init 2048 4096 shell7; r ← finsh_run_line [] [] [func6] [] 4096 first_char call_line s; Some r.1) = Some (Value (Some 49) 49) /\
  (s ← finsh_init 2048 4096 shell7; r ← finsh_run_line [] [] [func6] [] 4096 first_char (quoted [97] ++ semicolon) s;
   r ← finsh_run_line [] [] [func6] [] 4096 first_char call_line r.2; Some r.1) = Some (Value (Some 109) 109).
Proof. vm_compute. done. Qed.

(** [char *s;], [s = "aaa...";] and ["bbb...";] with 60 characters each: the heap has no room for
    the second string while [s] points to the first, and it is written to the null pointer. *)
Example finsh_string_null :
  (s ← finsh_init 2048 4096 shell7; r ← finsh_run_line [] [] [func6] [] 4096 add_args [99; 104; 97; 114; 32; 42; 115; 59] s;
   r ← finsh_run_line [] [] [func6] [] 4096 add_args ([115; 61] ++ quoted (replicate 60 97) ++ semicolon) r.2;
   Some (r.1, bool_decide (is_Some (finsh_run_line [] [] [func6] [] 4096 add_args (quoted (replicate 60 98) ++ semicolon) r.2)))) = Some (Value None 2056, false).
Proof. vm_compute. reflexivity. Qed.
