(* ===== verification/Format.v ===== *)
(** * Formatted output ([rt_vsnprintf] of src/src/kservice.c)

    The interpreter of format strings.  The first part translates the code, with
    [RT_PRINTF_PRECISION] on and the options for long numbers and for the # flag off.  The
    second part is a grammar of directives with the text that the C standard gives for them,
    and the theorem that the code produces that text, cut to the size of the buffer. *)
From S2P Require Import Prelude KService MemFunc.

(** ** The output

    The array behind [buf] and the distance of [str] from its start.  [lim] is the distance of
    [end]: characters up to there are stored, characters behind it are only counted.  A store
    outside of the array gives [None]. *)
Record out := Out { o_mem : list Z; o_pos : Z }.

Definition ZEROPAD : Z := 1.
Definition SIGN : Z := 2.
Definition PLUS : Z := 4.
Definition SPACE : Z := 8.
Definition LEFT : Z := 16.
Definition SPECIAL : Z := 32.
Definition LARGE : Z := 64.
Definition has (flags f : Z) : bool := negb (Z.land flags f =? 0).

Definition store_at (i c : Z) (arr : list Z) : option (list Z) :=
  if (0 <=? i) && (i <? Z.of_nat (length arr)) then Some (<[Z.to_nat i := c]> arr) else None.

(** ** Reading the format *)

Definition isdigit (c : Z) : bool := u32 (c - 48) <? 10.

Fixpoint skip_atoi (s : list Z) (i : Z) : option (Z * list Z) :=
  match s with
  | [] => None
  | c :: s' => if isdigit c then skip_atoi s' (i32 (i * 10 + c - 48)) else Some (i, s)
  end.

(** [divide]: the last digit and the rest. *)
Definition divide (n base : Z) : Z * Z :=
  if base =? 10 then (u32 n mod 10, i32 (u32 n / 10)) else (u32 n mod 16, i32 (u32 n / 16)).

Definition small_digits : list Z := [48; 49; 50; 51; 52; 53; 54; 55; 56; 57; 97; 98; 99; 100; 101; 102].
Definition large_digits : list Z := [48; 49; 50; 51; 52; 53; 54; 55; 56; 57; 65; 66; 67; 68; 69; 70].

(** [while (num != 0) tmp[i++] = digits[divide(&num, base)]], for [tmp] of 16 characters. *)
Fixpoint digits_loop (fuel : nat) (digits : list Z) (num base : Z) (tmp : list Z) : option (list Z) :=
  if num =? 0 then Some tmp
  else match fuel with
  | O => None
  | S f =>
      if (length tmp <? 16)%nat then
        let '(d, num') := divide num base in
        c ← digits !! Z.to_nat d; digits_loop f digits num' base (tmp ++ [c])
      else None
  end.

(** The flags between the percent sign and the width, and what is left of the format. *)
Fixpoint flags_loop (s : list Z) (flags : Z) : option (Z * list Z) :=
  match s with
  | [] => None
  | c :: s' =>
      if c =? 45 then flags_loop s' (Z.lor flags LEFT)
      else if c =? 43 then flags_loop s' (Z.lor flags PLUS)
      else if c =? 32 then flags_loop s' (Z.lor flags SPACE)
      else if c =? 35 then flags_loop s' (Z.lor flags SPECIAL)
      else if c =? 48 then flags_loop s' (Z.lor flags ZEROPAD)
      else Some (flags, s)
  end.

(** [va_arg]: the arguments are words. *)
Definition va_arg (args : list Z) : option (Z * list Z) :=
  match args with [] => None | a :: args' => Some (a, args') end.

(** The width: the flags, the width, and what is left of the format and of the arguments. *)
Definition get_width (fmt args : list Z) (flags : Z) : option (Z * Z * list Z * list Z) :=
  match fmt with
  | [] => None
  | c :: fmt' =>
      if isdigit c then p ← skip_atoi fmt 0; Some (flags, p.1, p.2, args)
      else if c =? 42 then
        a ← va_arg args;
        let w := i32 a.1 in
        Some (if w <? 0 then (Z.lor flags LEFT, i32 (- w), fmt', a.2) else (flags, w, fmt', a.2))
      else Some (flags, -1, fmt, args)
  end.

Definition get_precision (fmt args : list Z) : option (Z * list Z * list Z) :=
  match fmt with
  | [] => None
  | c :: fmt' =>
      if c =? 46 then
        r ← match fmt' with
            | [] => None
            | c' :: fmt'' =>
                if isdigit c' then p ← skip_atoi fmt' 0; Some (p.1, p.2, args)
                else if c' =? 42 then a ← va_arg args; Some (i32 a.1, fmt'', a.2)
                else Some (-1, fmt', args)
            end;
        let '(p, f, a) := r in Some (if p <? 0 then 0 else p, f, a)
      else Some (-1, fmt, args)
  end.

Definition get_qualifier (fmt : list Z) : option (Z * list Z) :=
  match fmt with
  | [] => None
  | c :: fmt' => Some (if (c =? 104) || (c =? 108) then (c, fmt') else (0, fmt))
  end.

Section Output.
Context (lim : Z).
Context (strs : Z -> option (list Z)).  (**r the memory from an address on *)

(** [if (str <= end) *str = c; ++ str;] *)
Definition put (c : Z) (o : out) : option out :=
  if o_pos o <=? lim then arr ← store_at (o_pos o) c (o_mem o); Some (Out arr (o_pos o + 1))
  else Some (Out (o_mem o) (o_pos o + 1)).
Fixpoint puts (cs : list Z) (o : out) : option out :=
  match cs with [] => Some o | c :: cs' => o' ← put c o; puts cs' o' end.

(** [while (size-- > 0) put c]: the value of [size] behind the loop, and the output. *)
Fixpoint pad_loop (fuel : nat) (size c : Z) (o : out) : option (Z * out) :=
  if 0 <? size then
    match fuel with O => None | S f => o' ← put c o; pad_loop f (size - 1) c o' end
  else Some (size - 1, o).
Definition pad (size c : Z) (o : out) : option (Z * out) := pad_loop (Z.to_nat size) size c o.

(** ** print_number *)

(** The sign, zero for none, and the number without it. *)
Definition get_sign (num type : Z) : Z * Z :=
  if has type SIGN then
    if num <? 0 then (45, i32 (- num))
    else if has type PLUS then (43, num) else if has type SPACE then (32, num) else (0, num)
  else (0, num).

Definition print_number (num base s precision type : Z) (o : out) : option out :=
  let digits := if has type LARGE then large_digits else small_digits in
  let type := if has type LEFT then Z.land type (Z.lnot ZEROPAD) else type in
  let c := if has type ZEROPAD then 48 else 32 in
  let '(sign, num) := get_sign num type in
  tmp ← (if num =? 0 then Some [48] else digits_loop 16 digits num base []);
  let i := Z.of_nat (length tmp) in
  let precision := if precision <? i then i else precision in
  let size := s - precision in
  p ← (if negb (has type (Z.lor ZEROPAD LEFT)) then
         pad (if negb (sign =? 0) && (0 <? size) then size - 1 else size) 32 o
       else Some (size, o));
  let '(size, o) := p in
  p ← (if negb (sign =? 0) then
         o' ← put sign o; Some (if o_pos o <=? lim then size - 1 else size, o')
       else Some (size, o));
  let '(size, o) := p in
  p ← (if negb (has type LEFT) then pad size c o else Some (size, o));
  let '(size, o) := p in
  p ← pad (precision - i) 48 o;
  o ← puts (rev tmp) p.2;
  p ← pad size 32 o;
  Some p.2.

(** ** The conversions *)

(** [case 'c']: [while (--field_width > 0)], the character, and the loop again. *)
Definition print_char (flags field_width arg : Z) (o : out) : option out :=
  p ← (if negb (has flags LEFT) then q ← pad (field_width - 1) 32 o; Some (q.1 + 1, q.2)
       else Some (field_width, o));
  o ← put (u8 arg) p.2;
  p ← pad (p.1 - 1) 32 o;
  Some p.2.

(** [case 's']: [while (len < field_width--)]. *)
Definition print_string (flags field_width precision arg : Z) (o : out) : option out :=
  s ← (if arg =? 0 then Some [40; 78; 85; 76; 76; 41; 0] else strs arg);
  len ← rt_strlen s;
  let len := if (0 <? precision) && (precision <? len) then precision else len in
  p ← (if negb (has flags LEFT) then pad (field_width - len) 32 o else Some (field_width - len, o));
  o ← puts (take (Z.to_nat len) s) p.2;
  p ← pad p.1 32 o;
  Some p.2.

(** The number that an argument stands for. *)
Definition get_number (qualifier flags arg : Z) : Z :=
  if qualifier =? 104 then if has flags SIGN then i16 (u16 arg) else u16 arg
  else if has flags SIGN then i32 arg else u32 arg.

(** The switch over the conversion character, the first one of [fmt]: what is left of the format
    and of the arguments, and the output. *)
Definition convert (flags field_width precision qualifier : Z) (fmt args : list Z) (o : out) : option (list Z * list Z * out) :=
  let number base flags :=
    a ← va_arg args;
    o' ← print_number (i32 (get_number qualifier flags a.1)) base field_width precision flags o;
    Some (tail fmt, a.2, o') in
  match fmt with
  | [] => None
  | c :: fmt' =>
      if c =? 99 then a ← va_arg args; o' ← print_char flags field_width a.1 o; Some (fmt', a.2, o')
      else if c =? 115 then
        a ← va_arg args; o' ← print_string flags field_width precision a.1 o; Some (fmt', a.2, o')
      else if c =? 112 then
        a ← va_arg args;
        let '(field_width, flags) :=
          if field_width =? -1 then (8, Z.lor flags ZEROPAD) else (field_width, flags) in
        o' ← print_number (i32 a.1) 16 field_width precision flags o; Some (fmt', a.2, o')
      else if c =? 37 then o' ← put 37 o; Some (fmt', args, o')
      else if c =? 111 then number 8 flags
      else if c =? 88 then number 16 (Z.lor flags LARGE)
      else if c =? 120 then number 16 flags
      else if (c =? 100) || (c =? 105) then number 10 (Z.lor flags SIGN)
      else if c =? 117 then number 10 flags
      else
        o' ← put 37 o;
        if negb (c =? 0) then o'' ← put c o'; Some (fmt', args, o'') else Some (fmt, args, o')
  end.

(** One directive, from the character behind the percent sign. *)
Definition directive (fmt args : list Z) (o : out) : option (list Z * list Z * out) :=
  f ← flags_loop fmt 0;
  w ← get_width f.2 args f.1;
  let '(flags, field_width, fmt, args) := w in
  p ← get_precision fmt args;
  let '(precision, fmt, args) := p in
  q ← get_qualifier fmt;
  convert flags field_width precision q.1 q.2 args o.

Fixpoint fmt_loop (fuel : nat) (fmt args : list Z) (o : out) : option out :=
  match fmt with
  | [] => None
  | c :: fmt' =>
      if c =? 0 then Some o
      else match fuel with
      | O => None
      | S f =>
          if negb (c =? 37) then o' ← put c o; fmt_loop f fmt' args o'
          else r ← directive fmt' args o; let '(fmt1, args1, o1) := r in fmt_loop f fmt1 args1 o1
      end
  end.
End Output.

(** [rt_vsnprintf]: the result and the array at [buf]. *)
Definition rt_vsnprintf (strs : Z -> option (list Z)) (buf size : Z) (fmt args arr : list Z) : option (Z * list Z) :=
  let end_ := u32 (buf + size - 1) in
  let end_ := if end_ <? buf then 4294967295 else end_ in
  let lim := end_ - buf in
  o ← fmt_loop lim strs (length fmt) fmt args (Out arr 0);
  arr' ← store_at (if o_pos o <=? lim then o_pos o else lim) 0 (o_mem o);
  Some (i32 (o_pos o), arr').

Definition rt_snprintf (strs : Z -> option (list Z)) (buf size : Z) (fmt args arr : list Z) : option (Z * list Z) :=
  rt_vsnprintf strs buf size fmt args arr.
Definition rt_vsprintf (strs : Z -> option (list Z)) (buf : Z) (fmt args arr : list Z) : option (Z * list Z) :=
  rt_vsnprintf strs buf 4294967295 fmt args arr.
Definition rt_sprintf (strs : Z -> option (list Z)) (buf : Z) (fmt args arr : list Z) : option (Z * list Z) :=
  rt_vsprintf strs buf fmt args arr.

(** ** What the C standard says

    A directive: flags out of - + blank and 0, a width, a precision, h or l, and a conversion.
    The o conversion and the # flag are left out: see the examples at the end. *)
Inductive width := WNone | WNum (ds : list Z) | WStar.
Inductive prec := PNone | PNum (ds : list Z) | PStar.
Record dir := Dir { d_flags : list Z; d_width : width; d_prec : prec; d_qual : option Z; d_conv : Z }.
Inductive piece := Lit (c : Z) | Conv (d : dir).

Definition width_text (w : width) : list Z := match w with WNone => [] | WNum ds => ds | WStar => [42] end.
Definition prec_text (p : prec) : list Z := match p with PNone => [] | PNum ds => 46 :: ds | PStar => [46; 42] end.
Definition qual_text (q : option Z) : list Z := match q with None => [] | Some c => [c] end.
Definition dir_text (d : dir) : list Z :=
  d_flags d ++ width_text (d_width d) ++ prec_text (d_prec d) ++ qual_text (d_qual d) ++ [d_conv d].
Definition piece_text (p : piece) : list Z := match p with Lit c => [c] | Conv d => 37 :: dir_text d end.
Definition format_text (ps : list piece) : list Z := ps ≫= piece_text.

Definition is_dec (c : Z) : bool := (48 <=? c) && (c <=? 57).
(** The number that decimal digits stand for, behind digits that stand for [v]. *)
Definition decval (v : Z) (ds : list Z) : Z := foldl (fun a c => a * 10 + c - 48) v ds.

Definition flag_chars : list Z := [45; 43; 32; 48].
Definition conv_chars : list Z := [99; 115; 112; 37; 120; 88; 100; 105; 117].
Definition dir_ok (d : dir) : Prop :=
  Forall (fun c => c ∈ flag_chars) (d_flags d) /\
  match d_width d with
  | WNum ds => Forall (fun c => is_dec c = true) ds /\ decval 0 ds < 2147483648 /\ exists c ds', ds = c :: ds' /\ c <> 48
  | _ => True
  end /\
  match d_prec d with PNum ds => Forall (fun c => is_dec c = true) ds /\ decval 0 ds < 2147483648 | _ => True end /\
  match d_qual d with Some c => c = 104 \/ c = 108 | None => True end /\
  d_conv d ∈ conv_chars.
Definition piece_ok (p : piece) : Prop := match p with Lit c => c <> 0 /\ c <> 37 | Conv d => dir_ok d end.

(** Width, with whether it asks for the left, and precision; a negative precision counts as
    none. *)
Definition width_of (w : width) (args : list Z) : option (bool * Z * list Z) :=
  match w with
  | WNone => Some (false, 0, args)
  | WNum ds => Some (false, decval 0 ds, args)
  | WStar =>
      a ← va_arg args;
      let v := i32 a.1 in
      if v =? -2147483648 then None else Some (v <? 0, Z.abs v, a.2)
  end.
Definition prec_of (p : prec) (args : list Z) : option (option Z * list Z) :=
  match p with
  | PNone => Some (None, args)
  | PNum ds => Some (Some (decval 0 ds), args)
  | PStar => a ← va_arg args; Some (if i32 a.1 <? 0 then None else Some (i32 a.1), a.2)
  end.

(** A field: [n] fill characters around a text. *)
Definition fill (n c : Z) : list Z := replicate (Z.to_nat n) c.
Definition field (lft : bool) (width : Z) (t : list Z) : list Z :=
  let n := width - Z.of_nat (length t) in if lft then t ++ fill n 32 else fill n 32 ++ t.
Definition num_field (lft zero : bool) (width minimum : Z) (sign digits : list Z) : list Z :=
  let ds := fill (minimum - Z.of_nat (length digits)) 48 ++ digits in
  let n := width - Z.of_nat (length sign) - Z.of_nat (length ds) in
  if lft then sign ++ ds ++ fill n 32 else if zero then sign ++ fill n 48 ++ ds else fill n 32 ++ sign ++ ds.

(** The numeral of a number, highest digit first; numbers of 32 bits have at most ten digits. *)
Definition digit (large : bool) (v : Z) : Z := if v <? 10 then 48 + v else if large then 55 + v else 87 + v.
Fixpoint numeral (n : nat) (large : bool) (base v : Z) : list Z :=
  match n with
  | O => []
  | S n' => if v <? base then [digit large v] else numeral n' large base (v / base) ++ [digit large (v mod base)]
  end.

(** What the standard gives for a directive; [None] when arguments are missing, when it leaves
    the result open, or where the code departs from it: a precision of zero, and a precision
    together with the 0 flag.  Where the standard leaves the text to the implementation it is the
    text of the code: (NULL) for a string at the null pointer, and the digits of %p. *)
Section Render.
Context (strs : Z -> option (list Z)).

Definition dir_sign (signed plus space : bool) (v : Z) : list Z :=
  if signed then if v <? 0 then [45] else if plus then [43] else if space then [32] else [] else [].

(** The number an argument stands for: h asks for 16 bits. *)
Definition arg_value (q : option Z) (signed : bool) (arg : Z) : Z :=
  match q with
  | Some 104 => if signed then i16 arg else u16 arg
  | _ => if signed then i32 arg else u32 arg
  end.

Definition render_num (d : dir) (lft : bool) (width : Z) (p : option Z) (base : Z) (signed large : bool) (arg : Z) : option (list Z) :=
  let zero := bool_decide (48 ∈ d_flags d) && negb lft in
  let v := arg_value (d_qual d) signed arg in
  minimum ← match p with None => Some 1 | Some n => if (n =? 0) || zero then None else Some n end;
  Some (num_field lft zero width minimum
    (dir_sign signed (bool_decide (43 ∈ d_flags d)) (bool_decide (32 ∈ d_flags d)) v) (numeral 10 large base (Z.abs v))).

Definition render_conv (d : dir) (lft : bool) (width : Z) (p : option Z) (args : list Z) : option (list Z * list Z) :=
  if d_conv d =? 37 then
    if bool_decide (dir_text d = [37]) then Some ([37], args) else None
  else
    a ← va_arg args;
    t ← (if d_conv d =? 99 then Some (field lft width [u8 a.1])
         else if d_conv d =? 115 then
           s ← (if a.1 =? 0 then Some [40; 78; 85; 76; 76; 41; 0] else strs a.1);
           if bool_decide (0 ∈ s) && negb (bool_decide (p = Some 0)) then
             Some (field lft width (match p with None => cstring s | Some n => take (Z.to_nat n) (cstring s) end))
           else None
         else if d_conv d =? 112 then
           if bool_decide (p = None) then
             let none := match d_width d with WNone => true | _ => false end in
             Some (num_field lft ((bool_decide (48 ∈ d_flags d) || none) && negb lft) (if none then 8 else width) 1 []
               (numeral 10 false 16 (u32 a.1)))
           else None
         else if d_conv d =? 120 then render_num d lft width p 16 false false a.1
         else if d_conv d =? 88 then render_num d lft width p 16 false true a.1
         else if d_conv d =? 117 then render_num d lft width p 10 false false a.1
         else render_num d lft width p 10 true false a.1);
    Some (t, a.2).

Definition render_dir (d : dir) (args : list Z) : option (list Z * list Z) :=
  w ← width_of (d_width d) args;
  let '(lft, width, args) := w in
  p ← prec_of (d_prec d) args;
  render_conv d (bool_decide (45 ∈ d_flags d) || lft) width p.1 p.2.

Fixpoint render (ps : list piece) (args : list Z) : option (list Z) :=
  match ps with
  | [] => Some []
  | Lit c :: ps' => t ← render ps' args; Some (c :: t)
  | Conv d :: ps' => r ← render_dir d args; t ← render ps' r.2; Some (r.1 ++ t)
  end.
End Render.

(** ** Flags *)

Lemma has_testbit f i : 0 <= i -> has f (2 ^ i) = Z.testbit f i.
Proof.
  intros Hi. unfold has. destruct (Z.testbit f i) eqn:E.
  - apply negb_true_iff, Z.eqb_neq. intros H. apply (f_equal (fun x => Z.testbit x i)) in H.
    rewrite Z.land_spec, E, Z.pow2_bits_true, Z.bits_0 in H; done.
  - apply negb_false_iff, Z.eqb_eq. apply Z.bits_inj'. intros j Hj. rewrite Z.land_spec, Z.bits_0, Z.pow2_bits_eqb by done.
    destruct (Z.eqb_spec i j) as [<-|]; [by rewrite E|apply andb_false_r].
Qed.

Lemma has_lor f a b : has f (Z.lor a b) = has f a || has f b.
Proof.
  unfold has. rewrite Z.land_lor_distr_r. destruct (Z.eqb_spec (Z.land f a) 0) as [->|Ha]; [by rewrite Z.lor_0_l|].
  cbn [negb orb]. apply negb_true_iff, Z.eqb_neq. intros H. by apply Z.lor_eq_0_iff in H as [? _].
Qed.

(** The flags as bits. *)
Record flag_bits (f : Z) (lft plus space zero sign large : bool) : Prop := {
  fb_zero : has f ZEROPAD = zero; fb_sign : has f SIGN = sign; fb_plus : has f PLUS = plus;
  fb_space : has f SPACE = space; fb_left : has f LEFT = lft; fb_large : has f LARGE = large }.

Lemma has_or f g i : 0 <= i -> has (Z.lor f g) (2 ^ i) = has f (2 ^ i) || has g (2 ^ i).
Proof. intros Hi. rewrite !has_testbit by done. apply Z.lor_spec. Qed.

Lemma flag_bits_or f g lft plus space zero sign large :
  flag_bits f lft plus space zero sign large ->
  flag_bits (Z.lor f g) (lft || has g LEFT) (plus || has g PLUS) (space || has g SPACE) (zero || has g ZEROPAD)
    (sign || has g SIGN) (large || has g LARGE).
Proof.
  intros []. subst. split.
  - apply (has_or f g 0); lia. - apply (has_or f g 1); lia. - apply (has_or f g 2); lia.
  - apply (has_or f g 3); lia. - apply (has_or f g 4); lia. - apply (has_or f g 6); lia.
Qed.

(** Evaluates the bits of constant flags in a hypothesis. *)
Ltac flags_in H :=
  repeat match type of H with
    | context [has ?a ?b] => let v := eval vm_compute in (has a b) in change (has a b) with v in H
    end; cbn [orb] in H; rewrite ?orb_false_r, ?orb_true_r in H.

Lemma flag_bits_0 : flag_bits 0 false false false false false false.
Proof. by split. Qed.

(** The flag of a character. *)
Definition flag_of (c : Z) : Z := if c =? 45 then LEFT else if c =? 43 then PLUS else if c =? 32 then SPACE else ZEROPAD.

Lemma flags_loop_run fl c r : Forall (fun c => c ∈ flag_chars) fl -> c ∉ 35 :: flag_chars -> forall f b1 b2 b3 b4,
  flag_bits f b1 b2 b3 b4 false false ->
  exists f', flags_loop (fl ++ c :: r) f = Some (f', c :: r) /\
    flag_bits f' (b1 || bool_decide (45 ∈ fl)) (b2 || bool_decide (43 ∈ fl)) (b3 || bool_decide (32 ∈ fl))
      (b4 || bool_decide (48 ∈ fl)) false false.
Proof.
  intros Hf Hc. induction fl as [|x fl IH]; intros f b1 b2 b3 b4 Hb.
  - exists f. rewrite !bool_decide_false by apply not_elem_of_nil. rewrite !orb_false_r. split; [|done]. cbn [app flags_loop].
    unfold flag_chars in Hc. zcases; subst; try done; exfalso; apply Hc; set_solver.
  - apply list.Forall_cons in Hf as [Hx Hf]. specialize (IH Hf (Z.lor f (flag_of x))). pose proof (flag_bits_or f (flag_of x) _ _ _ _ _ _ Hb) as Hb'.
    assert (Hd : forall y, bool_decide (y ∈ x :: fl) = (y =? x) || bool_decide (y ∈ fl)).
    { intros y. destruct (Z.eqb_spec y x) as [->|Hn]; cbn; [apply bool_decide_true; set_solver|].
      apply bool_decide_ext. set_solver. }
    rewrite !Hd, !orb_assoc. cbn [app flags_loop].
    unfold flag_chars in Hx. rewrite !elem_of_cons, elem_of_nil in Hx.
    destruct Hx as [->|[->|[->|[->|[]]]]]; cbn in Hb', IH |- *; by apply IH.
Qed.

(** ** Numbers in the format *)

Lemma isdigit_dec c : 0 <= c < 4294967296 -> isdigit c = is_dec c.
Proof. intros Hc. unfold isdigit, is_dec, u32. zcases; cbn; try done; Z.div_mod_to_equations; lia. Qed.

Lemma decval_mono ds : forall v, 0 <= v -> Forall (fun c => is_dec c = true) ds -> v <= decval v ds.
Proof.
  induction ds as [|c ds IH]; intros v Hv Hd; [unfold decval; cbn; lia|]. apply list.Forall_cons in Hd as [Hc Hd].
  unfold is_dec in Hc. specialize (IH (v * 10 + c - 48)). unfold decval in *. cbn. etrans; [|apply IH]; [lia|lia|done].
Qed.

Lemma skip_atoi_run ds c r : forall v,
  Forall (fun c => is_dec c = true) ds -> 0 <= v -> decval v ds < 2147483648 -> 0 <= c < 4294967296 -> is_dec c = false ->
  skip_atoi (ds ++ c :: r) v = Some (decval v ds, c :: r).
Proof.
  induction ds as [|x ds IH]; intros v Hd Hv Hl Hc Hn; cbn [app skip_atoi].
  - by rewrite isdigit_dec, Hn by done.
  - apply list.Forall_cons in Hd as [Hx Hd]. pose proof Hx as Hx'. unfold is_dec in Hx'.
    rewrite isdigit_dec, Hx by lia. pose proof (decval_mono ds (v * 10 + x - 48) ltac:(lia) Hd) as Hm.
    unfold decval in Hm, Hl. cbn in Hm, Hl. replace (i32 (v * 10 + x - 48)) with (v * 10 + x - 48) by mlia.
    rewrite IH; try done. lia.
Qed.

(** The characters that may follow the width. *)
Definition next_chars : list Z := [46; 104; 108; 99; 115; 112; 37; 120; 88; 100; 105; 117].
Lemma next_cases c (P : Z -> Prop) : c ∈ next_chars -> Forall P next_chars -> P c.
Proof. intros Hc H. rewrite list.Forall_forall in H. by apply H. Qed.
Lemma next_facts c : c ∈ next_chars -> 0 <= c < 4294967296 /\ is_dec c = false /\ c <> 42 /\ c ∉ 35 :: flag_chars.
Proof. intros Hc. apply (next_cases c (fun c => _ /\ _ /\ _ /\ _) Hc). apply (bool_decide_unpack _). vm_compute. exact I. Qed.

Lemma get_width_run w args flags c r lft width args' :
  match w with
  | WNum ds => Forall (fun c => is_dec c = true) ds /\ decval 0 ds < 2147483648 /\ exists c ds', ds = c :: ds' /\ c <> 48
  | _ => True
  end ->
  c ∈ next_chars -> width_of w args = Some (lft, width, args') ->
  exists fw, get_width (width_text w ++ c :: r) args flags = Some (if lft then Z.lor flags LEFT else flags, fw, c :: r, args') /\
    fw = (match w with WNone => -1 | _ => width end) /\ 0 <= width < 2147483648.
Proof.
  intros Hw Hc Ew. destruct (next_facts c Hc) as (Hr & Hn & H42 & _). destruct w as [|ds|]; cbn [width_of width_text app get_width] in Ew |- *.
  - injection Ew as <- <- <-. rewrite isdigit_dec, Hn, (proj2 (Z.eqb_neq _ _) H42) by done. by eexists.
  - injection Ew as <- <- <-. destruct Hw as (Hd & Hl & x & ds' & -> & _). pose proof (decval_mono _ 0 ltac:(lia) Hd) as Hm.
    exists (decval 0 (x :: ds')). split; [|lia]. pose proof (skip_atoi_run (x :: ds') c r 0 Hd ltac:(lia) Hl Hr Hn) as Es.
    apply list.Forall_cons in Hd as [Hx _]. cbn [app] in *. unfold get_width. rewrite isdigit_dec, Hx by (unfold is_dec in Hx; lia). by rewrite Es.
  - destruct args as [|a args]; [done|]. cbn in Ew |- *. destruct (Z.eqb_spec (i32 a) (-2147483648)); [done|].
    injection Ew as <- <- <-. eexists. split; [|split; [reflexivity|unfold i32 in *; Z.div_mod_to_equations; lia]].
    destruct (Z.ltb_spec (i32 a) 0); f_equal; f_equal; f_equal; f_equal; unfold i32 in *; Z.div_mod_to_equations; lia.
Qed.

(** The precision of the code: none and a negative one are -1 or 0. *)
Definition prec_value (p : option Z) (v : Z) : Prop :=
  match p with None => v = -1 \/ v = 0 | Some n => v = n /\ 0 <= n < 2147483648 end.

Lemma get_precision_run p args c r q args' :
  match p with PNum ds => Forall (fun c => is_dec c = true) ds /\ decval 0 ds < 2147483648 | _ => True end ->
  c ∈ next_chars -> c <> 46 -> prec_of p args = Some (q, args') ->
  exists v, get_precision (prec_text p ++ c :: r) args = Some (v, c :: r, args') /\ prec_value q v.
Proof.
  intros Hp Hc H46 Ep. destruct (next_facts c Hc) as (Hr & Hn & H42 & _). destruct p as [|ds|]; cbn [prec_of prec_text app get_precision Z.eqb Pos.eqb] in Ep |- *.
  - injection Ep as <- <-. rewrite (proj2 (Z.eqb_neq _ _) H46). exists (-1). split; [done|by left].
  - injection Ep as <- <-. destruct Hp as (Hd & Hl). pose proof (decval_mono _ 0 ltac:(lia) Hd) as Hm.
    exists (decval 0 ds). split; [|by split; [|lia]]. destruct ds as [|x ds].
    + cbn [app]. rewrite isdigit_dec, Hn, (proj2 (Z.eqb_neq _ _) H42) by done. done.
    + pose proof (skip_atoi_run (x :: ds) c r 0 Hd ltac:(lia) Hl Hr Hn) as Es. apply list.Forall_cons in Hd as [Hx _].
      cbn [app] in *. rewrite isdigit_dec, Hx by (unfold is_dec in Hx; lia). rewrite Es. cbn [mbind option_bind fst snd]. destruct (Z.ltb_spec (decval 0 (x :: ds)) 0); [lia|done].
  - destruct args as [|a args]; [done|]. cbn [va_arg mbind option_bind fst snd] in Ep |- *. injection Ep as <- <-.
    change (isdigit 42) with false. cbn [mbind option_bind]. destruct (Z.ltb_spec (i32 a) 0).
    + exists 0. split; [done|by right].
    + exists (i32 a). split; [done|]. split; [done|]. unfold i32 in *; Z.div_mod_to_equations; lia.
Qed.

(** ** The output *)

Section Wrote.
Context (lim : Z) (arr : list Z) (Hlim : 0 <= lim < Z.of_nat (length arr)).

(** [t] has been written: the array holds the part of [t] that fits, followed by what it held.
    The count may exceed the length of [t] by at most [k] when [t] does not fit. *)
Definition wrote (t : list Z) (k : Z) (o : out) : Prop :=
  o_mem o = take (Z.to_nat (lim + 1)) t ++ drop (length (take (Z.to_nat (lim + 1)) t)) arr /\
  Z.of_nat (length t) <= o_pos o <= Z.of_nat (length t) + k /\
  (Z.of_nat (length t) <= lim -> o_pos o = Z.of_nat (length t)).

Lemma put_wrote t k c o : wrote t k o -> exists o', put lim c o = Some o' /\ wrote (t ++ [c]) k o' /\ o_pos o' = o_pos o + 1.
Proof.
  intros (Hm & Hp & Hq). unfold put. destruct (Z.leb_spec (o_pos o) lim) as [Hl|Hl].
  - assert (Hpos : o_pos o = Z.of_nat (length t)) by lia.
    assert (Ht : take (Z.to_nat (lim + 1)) t = t) by (apply take_ge; lia). rewrite Ht in Hm.
    assert (Htc : take (Z.to_nat (lim + 1)) (t ++ [c]) = t ++ [c]) by (apply take_ge; rewrite length_app; cbn; lia).
    destruct (drop (length t) arr) as [|x rest] eqn:Ed.
    { apply (f_equal length) in Ed. rewrite length_drop in Ed. cbn in Ed. lia. }
    assert (Er : drop (length (t ++ [c])) arr = rest) by (rewrite length_app, <-drop_drop, Ed; done).
    unfold store_at. destruct (Z.leb_spec 0 (o_pos o)); [|lia].
    assert (Hlen : length (o_mem o) = (length t + S (length rest))%nat) by (rewrite Hm, length_app; done). rewrite Hlen.
    destruct (Z.ltb_spec (o_pos o) (Z.of_nat (length t + S (length rest)))); [|lia]. cbn.
    eexists. split; [reflexivity|]. split; [|done]. unfold wrote. cbn [o_mem o_pos]. rewrite Htc, Er, Hm, Hpos, Nat2Z.id.
    rewrite insert_app_r_alt, Nat.sub_diag by lia. rewrite <-app_assoc, length_app. cbn. split; [done|]. lia.
  - assert (Hlen : lim < Z.of_nat (length t)) by (destruct (Z.le_gt_cases (Z.of_nat (length t)) lim) as [H|H]; [specialize (Hq H)|]; lia).
    eexists. split; [reflexivity|]. split; [|done]. unfold wrote. cbn [o_mem o_pos]. rewrite !take_app_le by lia.
    rewrite length_app. cbn. split; [done|]. lia.
Qed.

Lemma puts_wrote l : forall t k o, wrote t k o -> exists o', puts lim l o = Some o' /\ wrote (t ++ l) k o'.
Proof.
  induction l as [|c l IH]; intros t k o Ho; cbn [puts]; [exists o; by rewrite app_nil_r|].
  destruct (put_wrote t k c o Ho) as (o1 & E & H1 & _). rewrite E. cbn. destruct (IH _ _ _ H1) as (o' & E' & H').
  exists o'. by rewrite <-app_assoc in H'.
Qed.

Lemma pad_wrote size c t k o : wrote t k o ->
  exists o', pad lim size c o = Some (Z.min size 0 - 1, o') /\ wrote (t ++ fill size c) k o'.
Proof.
  unfold pad, fill. intros Ho. assert (G : forall n t size o, Z.to_nat size = n -> wrote t k o ->
    exists o', pad_loop lim n size c o = Some (Z.min size 0 - 1, o') /\ wrote (t ++ replicate n c) k o').
  { clear size t o Ho. induction n as [|n IH]; intros t size o Hs Ho; cbn [pad_loop]; destruct (Z.ltb_spec 0 size); try lia.
    - exists o. rewrite app_nil_r. split; [do 2 f_equal; lia|done].
    - destruct (put_wrote t k c o Ho) as (o1 & E & H1 & _). rewrite E. cbn.
      destruct (IH (t ++ [c]) (size - 1) o1 ltac:(lia) H1) as (o' & E' & H'). exists o'. rewrite <-app_assoc in H'.
      split; [rewrite E'; do 2 f_equal; lia|done]. }
  by apply G.
Qed.

(** Behind the end of the array characters change only the count. *)
Lemma wrote_forget t x y k o :
  wrote (t ++ x) k o -> lim < Z.of_nat (length t) -> (length y <= length x <= length y + 1)%nat -> wrote (t ++ y) (k + 1) o.
Proof.
  intros (Hm & Hp & Hq) Hl Hxy. unfold wrote. rewrite length_app in *. rewrite take_app_le in Hm |- * by lia. split; [done|]. lia.
Qed.
Lemma wrote_weaken t k k' o : wrote t k o -> k <= k' -> wrote t k' o.
Proof. intros (Hm & Hp & Hq) Hl. split; [done|]. lia. Qed.
End Wrote.

(** ** Numbers *)

Lemma digit_lookup large v : 0 <= v < 16 ->
  (if large : bool then large_digits else small_digits) !! Z.to_nat v = Some (digit large v).
Proof.
  intros Hv. assert (H : forallb (fun i => bool_decide ((if large then large_digits else small_digits) !! i = Some (digit large (Z.of_nat i)))) (seq 0 16) = true)
    by (destruct large; vm_compute; reflexivity).
  rewrite forallb_forall in H. specialize (H (Z.to_nat v)). rewrite bool_decide_eq_true, Z2Nat.id in H by lia. apply H, in_seq. lia.
Qed.

Lemma digits_loop_run (large : bool) base : base = 10 \/ base = 16 -> forall k fuel v tmp,
  0 < v < 4294967296 -> v < base ^ Z.of_nat k -> (k <= fuel)%nat -> (length tmp + k <= 16)%nat ->
  digits_loop fuel (if large then large_digits else small_digits) (i32 v) base tmp = Some (tmp ++ rev (numeral k large base v)).
Proof.
  intros Hb. assert (Hdiv : forall v, 0 < v < 4294967296 -> divide (i32 v) base = (v mod base, i32 (v / base))).
  { intros v Hv. assert (Hu : u32 (i32 v) = v) by mlia. unfold divide. rewrite Hu. by destruct Hb as [-> | ->]. }
  induction k as [|k IH]; intros fuel v tmp Hv Hk Hf Ht; [cbn in Hk; lia|].
  destruct fuel as [|f]; [lia|]. cbn [digits_loop numeral].
  destruct (Z.eqb_spec (i32 v) 0) as [E|_]; [mlia|]. destruct (Nat.ltb_spec (length tmp) 16); [|lia]. rewrite (Hdiv v Hv).
  assert (Hm : 0 <= v mod base < 16) by (pose proof (Z.mod_pos_bound v base); lia). rewrite (digit_lookup large _ Hm). cbn [mbind option_bind].
  destruct (Z.ltb_spec v base) as [Hs|Hs].
  - rewrite (Z.div_small v base), (Z.mod_small v base) by lia. by destruct f.
  - rewrite IH; [|split; [apply Z.div_str_pos; lia|apply Z.div_lt_upper_bound; lia]|apply Z.div_lt_upper_bound; [lia|];
      rewrite Nat2Z.inj_succ, Z.pow_succ_r in Hk; lia|lia|rewrite length_app; cbn; lia].
    rewrite rev_app_distr, <-app_assoc. done.
Qed.

(** The digits of a numeral stand for the number: numbers are printed right. *)
Lemma numeral_decval n large v : 0 <= v < 10 ^ Z.of_nat n -> (0 < n)%nat -> decval 0 (numeral n large 10 v) = v.
Proof.
  revert v. induction n as [|n IH]; intros v Hv Hn; [lia|]. cbn [numeral]. destruct (Z.ltb_spec v 10) as [Hs|Hs].
  - unfold decval, digit. cbn. destruct (Z.ltb_spec v 10); lia.
  - rewrite Nat2Z.inj_succ, Z.pow_succ_r in Hv by lia. destruct n as [|n]; [cbn in Hv; lia|].
    specialize (IH (v / 10)). unfold decval in *. rewrite foldl_app, IH.
    + pose proof (Z.mod_pos_bound v 10 ltac:(lia)). cbn [foldl]. unfold digit. destruct (Z.ltb_spec (v mod 10) 10); [|lia].
      pose proof (Z.div_mod v 10 ltac:(lia)). lia.
    + split; [apply Z.div_pos; lia|apply Z.div_lt_upper_bound; lia].
    + lia.
Qed.

Lemma fill_nil n c : n <= 0 -> fill n c = [].
Proof. intros Hn. unfold fill. by replace (Z.to_nat n) with 0%nat by lia. Qed.
Lemma fill_eq n m c : Z.max n 0 = Z.max m 0 -> fill n c = fill m c.
Proof. intros Hn. unfold fill. by replace (Z.to_nat n) with (Z.to_nat m) by lia. Qed.
Lemma length_fill n c : Z.of_nat (length (fill n c)) = Z.max n 0.
Proof. unfold fill. rewrite length_replicate. lia. Qed.

Section Numbers.
Context (lim : Z) (arr : list Z) (Hlim : 0 <= lim < Z.of_nat (length arr)).
Notation wrote := (wrote lim arr).

(** The digits [print_number] makes. *)
Lemma print_digits (large : bool) base v : base = 10 \/ base = 16 -> 0 <= v < 4294967296 ->
  (if i32 v =? 0 then Some [48] else digits_loop 16 (if large then large_digits else small_digits) (i32 v) base []) =
  Some (rev (numeral 10 large base v)).
Proof.
  intros Hb Hv. destruct (Z.eqb_spec (i32 v) 0) as [E|E].
  - assert (v = 0) as -> by mlia. destruct Hb as [-> | ->]; by destruct large.
  - assert (v <> 0) by (intros ->; done). rewrite (digits_loop_run large base Hb 10); try done; [lia| |cbn; lia..].
    destruct Hb as [-> | ->]; cbn; lia.
Qed.

(** The part of a number behind its sign. *)
Definition num_body (lft : bool) (c n minimum : Z) (digits : list Z) : list Z :=
  (if lft then [] else fill n c) ++ fill (minimum - Z.of_nat (length digits)) 48 ++ digits ++ (if lft then fill n 32 else []).

Lemma pad_none size c t k o : size <= 0 -> wrote t k o -> pad lim size c o = Some (size - 1, o).
Proof. intros Hs Ho. unfold pad. replace (Z.to_nat size) with 0%nat by lia. cbn. destruct (Z.ltb_spec 0 size); [lia|done]. Qed.

Lemma print_body lft c size precision i tmp t k o :
  wrote t k o -> i = Z.of_nat (length tmp) ->
  exists o', (p ← (if negb lft then pad lim size c o else Some (size, o));
    let '(size, o) := p in
    p ← pad lim (precision - i) 48 o; o ← puts lim (rev tmp) p.2; p ← pad lim size 32 o; Some p.2) = Some o' /\
    wrote (t ++ num_body lft c size precision (rev tmp)) k o'.
Proof.
  intros Ho ->. unfold num_body. rewrite length_rev.
  assert (Hrest : forall t size o, wrote t k o -> exists o', (p ← pad lim (precision - Z.of_nat (length tmp)) 48 o;
    o ← puts lim (rev tmp) p.2; p ← pad lim size 32 o; Some p.2) = Some o' /\
    wrote (t ++ fill (precision - Z.of_nat (length tmp)) 48 ++ rev tmp ++ fill size 32) k o').
  { clear t o Ho size. intros t size o Ho. destruct (pad_wrote lim arr Hlim (precision - Z.of_nat (length tmp)) 48 t k o Ho) as (o1 & E1 & H1).
    rewrite E1. cbn [mbind option_bind snd]. destruct (puts_wrote lim arr Hlim (rev tmp) _ k o1 H1) as (o2 & E2 & H2).
    rewrite E2. cbn [mbind option_bind]. destruct (pad_wrote lim arr Hlim size 32 _ k o2 H2) as (o3 & E3 & H3). rewrite E3.
    exists o3. by rewrite <-!app_assoc in H3. }
  destruct lft; cbn [negb].
  - cbn [mbind option_bind]. destruct (Hrest t size o Ho) as (o' & E & H). by exists o'.
  - destruct (pad_wrote lim arr Hlim size c t k o Ho) as (o1 & E1 & H1). rewrite E1. cbn [mbind option_bind].
    destruct (Hrest _ (Z.min size 0 - 1) o1 H1) as (o' & E & H). exists o'. split; [done|].
    replace (fill (Z.min size 0 - 1) 32) with (@nil Z) in H by (unfold fill; by replace (Z.to_nat (Z.min size 0 - 1)) with 0%nat by lia).
    by rewrite <-!app_assoc in H.
Qed.

(** The flags without the one for zeros when the text goes to the left. *)
Lemma flag_bits_left f lft plus space zero sign large :
  flag_bits f lft plus space zero sign large ->
  flag_bits (if has f LEFT then Z.land f (Z.lnot ZEROPAD) else f) lft plus space (zero && negb lft) sign large.
Proof.
  intros H. destruct H as [H0 H1 H2 H3 H4 H6]. rewrite H4. destruct lft; cbn [negb]; [|rewrite andb_true_r; by split].
  assert (G : forall i, 0 <= i -> has (Z.land f (Z.lnot ZEROPAD)) (2 ^ i) = has f (2 ^ i) && negb (Z.testbit ZEROPAD i)).
  { intros i Hi. rewrite !has_testbit, Z.land_spec, Z.lnot_spec by done. done. }
  subst. rewrite andb_false_r. split.
  - etrans; [apply (G 0); lia|apply andb_false_r]. - etrans; [apply (G 1); lia|apply andb_true_r].
  - etrans; [apply (G 2); lia|apply andb_true_r]. - etrans; [apply (G 3); lia|apply andb_true_r].
  - etrans; [apply (G 4); lia|]. etrans; [apply andb_true_r|exact H4]. - etrans; [apply (G 6); lia|apply andb_true_r].
Qed.

(** The sign as a character, zero for none. *)
Lemma get_sign_run f lft plus space zero sign large v :
  flag_bits f lft plus space zero sign large ->
  (if sign then -2147483648 <= v < 2147483648 else 0 <= v < 4294967296) ->
  exists sgn, get_sign (i32 v) f = (sgn, i32 (Z.abs v)) /\
    dir_sign sign plus space v = (if sgn =? 0 then [] else [sgn]).
Proof.
  intros H Hv. unfold get_sign, dir_sign. rewrite (fb_sign _ _ _ _ _ _ _ H). destruct sign.
  - assert (E : i32 v = v) by mlia. rewrite E. destruct (Z.ltb_spec v 0).
    + exists 45. split; [|done]. f_equal. f_equal. lia.
    + rewrite (fb_plus _ _ _ _ _ _ _ H), (fb_space _ _ _ _ _ _ _ H), Z.abs_eq, E by done.
      destruct plus; [by exists 43|]. destruct space; [by exists 32|by exists 0].
  - exists 0. rewrite Z.abs_eq by lia. done.
Qed.

(** The sign and what follows it, when no blanks come first. *)
Lemma print_signed lft c sgn size precision tmp t k o :
  wrote t k o ->
  exists o', (p ← (if negb (sgn =? 0) then o' ← put lim sgn o; Some (if o_pos o <=? lim then size - 1 else size, o') else Some (size, o));
    let '(size, o) := p in
    p ← (if negb lft then pad lim size c o else Some (size, o));
    let '(size, o) := p in
    p ← pad lim (precision - Z.of_nat (length tmp)) 48 o; o ← puts lim (rev tmp) p.2; p ← pad lim size 32 o; Some p.2) = Some o' /\
    let sign := if sgn =? 0 then [] else [sgn] in
    wrote (t ++ sign ++ num_body lft c (size - Z.of_nat (length sign)) precision (rev tmp)) (k + 1) o'.
Proof.
  intros Ho. destruct (Z.eqb_spec sgn 0) as [E|E]; cbn [negb mbind option_bind].
  - destruct (print_body lft c size precision _ tmp t k o Ho eq_refl) as (o' & E' & H'). exists o'. split; [done|].
    cbn. rewrite Z.sub_0_r. eapply wrote_weaken; [exact H'|lia].
  - destruct (put_wrote lim arr Hlim t k sgn o Ho) as (o1 & E1 & H1 & _). rewrite E1. cbn [mbind option_bind].
    destruct (Z.leb_spec (o_pos o) lim) as [Hp|Hp].
    + destruct (print_body lft c (size - 1) precision _ tmp _ k o1 H1 eq_refl) as (o' & E' & H'). exists o'. split; [done|].
      rewrite <-app_assoc in H'. eapply wrote_weaken; [exact H'|lia].
    + destruct (print_body lft c size precision _ tmp _ k o1 H1 eq_refl) as (o' & E' & H'). exists o'. split; [done|].
      cbv zeta. rewrite app_assoc. eapply (wrote_forget lim arr Hlim); [exact H'| |].
      * rewrite length_app. cbn. destruct Ho as (_ & Hq & Hr). destruct (Z.le_gt_cases (Z.of_nat (length t)) lim) as [G|G]; [specialize (Hr G)|]; lia.
      * unfold num_body, fill. destruct lft; rewrite !length_app, ?length_replicate; cbn [length]; lia.
Qed.

Lemma print_number_run f lft plus space zero sign large base v s precision minimum t k o :
  flag_bits f lft plus space zero sign large -> base = 10 \/ base = 16 ->
  (if sign then -2147483648 <= v < 2147483648 else 0 <= v < 4294967296) ->
  Z.max precision 1 = Z.max minimum 1 -> wrote t k o ->
  exists o', print_number lim (i32 v) base s precision f o = Some o' /\
    wrote (t ++ num_field lft (zero && negb lft) s minimum (dir_sign sign plus space v) (numeral 10 large base (Z.abs v))) (k + 1) o'.
Proof.
  intros Hf Hb Hv Hp Ho. unfold print_number. rewrite (fb_large _ _ _ _ _ _ _ Hf). pose proof (flag_bits_left _ _ _ _ _ _ _ Hf) as Hf'.
  set (ty := if has f LEFT then _ else f) in *. destruct (get_sign_run ty _ _ _ _ _ _ v Hf' Hv) as (sgn & -> & Es).
  rewrite print_digits by (done || destruct sign; lia). cbn [mbind option_bind]. rewrite has_lor, (fb_zero _ _ _ _ _ _ _ Hf'), (fb_left _ _ _ _ _ _ _ Hf').
  set (ds := numeral _ _ _ _). rewrite length_rev, Es. set (i := Z.of_nat (length ds)). set (pr := if precision <? i then i else precision).
  assert (Hi : 1 <= i).
  { unfold i, ds. destruct (numeral 10 large base (Z.abs v)) eqn:E; [|cbn; lia]. exfalso. cbn [numeral] in E.
    destruct (_ <? base); [done|]. by apply app_nil in E as [_ ?]. }
  assert (Hpr : fill (pr - i) 48 = fill (minimum - i) 48) by (apply fill_eq; unfold pr; destruct (Z.ltb_spec precision i); lia).
  assert (Hlen : Z.of_nat (length (fill (minimum - i) 48 ++ ds)) = pr).
  { rewrite length_app, Nat2Z.inj_add, <-Hpr, length_fill. fold i. unfold pr. destruct (Z.ltb_spec precision i); lia. }
  unfold num_field. fold i. rewrite Hlen.
  assert (Hbody : forall c n, num_body lft c n pr (rev (rev ds)) =
    (if lft then [] else fill n c) ++ fill (minimum - i) 48 ++ ds ++ (if lft then fill n 32 else [])).
  { intros c n. unfold num_body. rewrite rev_involutive. fold i. by rewrite Hpr. }
  destruct (lft || zero) eqn:Elz.
  - replace (negb (zero && negb lft || lft)) with false by (by destruct lft, zero). cbn [mbind option_bind].
    destruct (print_signed lft (if zero && negb lft then 48 else 32) sgn (s - pr) pr (rev ds) t k o Ho) as (o' & E & H').
    exists o'. rewrite length_rev in E. split; [exact E|]. cbv zeta in H'. rewrite Hbody in H'.
    replace (s - pr - Z.of_nat (length (if sgn =? 0 then [] else [sgn]))) with (s - Z.of_nat (length (if sgn =? 0 then [] else [sgn])) - pr) in H' by lia.
    destruct lft; cbn [orb] in Elz; [|subst zero]; cbn [negb andb] in *; rewrite ?app_nil_r in H'; by rewrite <-?app_assoc.
  - apply orb_false_iff in Elz as [-> ->]. cbn [negb andb orb] in *.
    destruct (pad_wrote lim arr Hlim (if negb (sgn =? 0) && (0 <? s - pr) then s - pr - 1 else s - pr) 32 t k o Ho) as (o1 & E1 & H1).
    rewrite E1. cbn [mbind option_bind]. set (sz := Z.min _ 0 - 1) in *. assert (Hsz : sz < 0) by (unfold sz; lia).
    destruct (print_signed false 32 sgn sz pr (rev ds) _ k o1 H1) as (o' & E & H'). exists o'. rewrite length_rev in E. split; [exact E|].
    cbv zeta in H'. rewrite Hbody, (fill_nil (sz - _)), app_nil_r, <-app_assoc in H' by lia. cbn [app] in H'. erewrite fill_eq; [exact H'|].
    destruct (Z.eqb_spec sgn 0); cbn [length negb andb]; [lia|]. destruct (Z.ltb_spec 0 (s - pr)); lia.
Qed.
End Numbers.

(** ** Directives *)

Section Directives.
Context (lim : Z) (arr : list Z) (Hlim : 0 <= lim < Z.of_nat (length arr)).
Context (strs : Z -> option (list Z)).
Notation wrote := (wrote lim arr).

Lemma print_char_run f lft plus space zero sign large fw width a t k o :
  flag_bits f lft plus space zero sign large -> Z.max fw 0 = Z.max width 0 -> wrote t k o ->
  exists o', print_char lim f fw a o = Some o' /\ wrote (t ++ field lft width [u8 a]) k o'.
Proof.
  intros Hf Hw Ho. unfold print_char, field. rewrite (fb_left _ _ _ _ _ _ _ Hf). cbn [length]. change (Z.of_nat 1) with 1.
  rewrite (fill_eq (width - 1) (fw - 1)) by lia. destruct lft; cbn [negb mbind option_bind fst snd].
  - destruct (put_wrote lim arr Hlim t k (u8 a) o Ho) as (o1 & E1 & H1 & _). rewrite E1. cbn [mbind option_bind].
    destruct (pad_wrote lim arr Hlim (fw - 1) 32 _ k o1 H1) as (o2 & E2 & H2). rewrite E2. exists o2. by rewrite <-app_assoc in H2.
  - destruct (pad_wrote lim arr Hlim (fw - 1) 32 t k o Ho) as (o1 & E1 & H1). rewrite E1. cbn [mbind option_bind fst snd].
    destruct (put_wrote lim arr Hlim _ k (u8 a) o1 H1) as (o2 & E2 & H2 & _). rewrite E2. cbn [mbind option_bind].
    erewrite (pad_none lim arr) by (exact H2 || lia). exists o2. by rewrite <-app_assoc in H2.
Qed.

Lemma print_string_run f lft plus space zero sign large fw width p v a s t k o :
  flag_bits f lft plus space zero sign large -> Z.max fw 0 = Z.max width 0 -> prec_value p v -> p <> Some 0 ->
  (if a =? 0 then Some [40; 78; 85; 76; 76; 41; 0] else strs a) = Some s -> 0 ∈ s -> wrote t k o ->
  exists o', print_string lim strs f fw v a o = Some o' /\
    wrote (t ++ field lft width (match p with None => cstring s | Some n => take (Z.to_nat n) (cstring s) end)) k o'.
Proof.
  intros Hf Hw Hp Hp0 Es Hz Ho. unfold print_string. rewrite Es. cbn [mbind option_bind]. rewrite (rt_strlen_cstring s Hz). cbn [mbind option_bind].
  set (len := if (0 <? v) && _ then v else _). set (txt := match p with None => _ | Some n => _ end).
  assert (Ht : take (Z.to_nat len) s = txt /\ len = Z.of_nat (length txt)).
  { destruct (cstring_split s Hz) as (r & E). unfold len, txt.
    assert (Ek : forall n, take n s = take n (cstring s ++ 0 :: r)) by (intros n; by rewrite <-E). rewrite Ek. clear Ek E. destruct p as [n|]; cbn in Hp.
    - assert (0 < n) by (destruct (decide (n = 0)); [congruence|lia]). destruct Hp as [-> _]. rewrite (proj2 (Z.ltb_lt 0 n)) by done. cbn [andb].
      rewrite length_take. destruct (Z.ltb_spec n (Z.of_nat (length (cstring s)))); [rewrite take_app_le by lia; split; [done|lia]|].
      rewrite (take_ge (cstring s)) by lia. rewrite Nat2Z.id, take_app_length. split; [done|lia].
    - rewrite (proj2 (Z.ltb_ge 0 v)) by lia. cbn [andb]. by rewrite Nat2Z.id, take_app_length. }
  destruct Ht as [Ht Hl]. rewrite Ht. unfold field. rewrite <-Hl. rewrite (fill_eq (width - len) (fw - len)) by lia. rewrite (fb_left _ _ _ _ _ _ _ Hf).
  destruct lft; cbn [negb mbind option_bind fst snd].
  - destruct (puts_wrote lim arr Hlim txt t k o Ho) as (o1 & E1 & H1). rewrite E1. cbn [mbind option_bind].
    destruct (pad_wrote lim arr Hlim (fw - len) 32 _ k o1 H1) as (o2 & E2 & H2). rewrite E2. exists o2. by rewrite <-app_assoc in H2.
  - destruct (pad_wrote lim arr Hlim (fw - len) 32 t k o Ho) as (o1 & E1 & H1). rewrite E1. cbn [mbind option_bind fst snd].
    destruct (puts_wrote lim arr Hlim txt _ k o1 H1) as (o2 & E2 & H2). rewrite E2. cbn [mbind option_bind].
    erewrite (pad_none lim arr) by (exact H2 || lia). exists o2. by rewrite <-app_assoc in H2.
Qed.

Lemma num_field_width lft zero w w' minimum sign digits : Z.max w 0 = Z.max w' 0 ->
  num_field lft zero w minimum sign digits = num_field lft zero w' minimum sign digits.
Proof.
  intros H. unfold num_field. set (ds := _ ++ digits).
  assert (E : forall c, fill (w - Z.of_nat (length sign) - Z.of_nat (length ds)) c = fill (w' - Z.of_nat (length sign) - Z.of_nat (length ds)) c)
    by (intros c; apply fill_eq; lia). by rewrite !E.
Qed.

(** A number with the flags of its conversion. *)
Lemma render_num_run d f sign large lft width fw p v base a txt t k o :
  flag_bits f lft (bool_decide (43 ∈ d_flags d)) (bool_decide (32 ∈ d_flags d)) (bool_decide (48 ∈ d_flags d)) sign large ->
  base = 10 \/ base = 16 -> Z.max fw 0 = Z.max width 0 -> prec_value p v -> match d_qual d with Some c => c = 104 \/ c = 108 | None => True end ->
  render_num d lft width p base sign large a = Some txt -> wrote t k o ->
  exists o', print_number lim (i32 (get_number (default 0 (d_qual d)) f a)) base fw v f o = Some o' /\ wrote (t ++ txt) (k + 1) o'.
Proof.
  intros Hf Hb Hw Hp Hq Er Ho. unfold render_num in Er. set (zero := _ && negb lft) in Er. set (n := arg_value _ _ _) in Er.
  assert (En : get_number (default 0 (d_qual d)) f a = n /\ if sign then -2147483648 <= n < 2147483648 else 0 <= n < 4294967296).
  { unfold n, arg_value, get_number. rewrite (fb_sign _ _ _ _ _ _ _ Hf).
    assert (Hh : i16 (u16 a) = i16 a) by mlia. destruct (d_qual d) as [c|]; cbn [default]; [destruct Hq as [-> | ->]|]; cbn;
      destruct sign; rewrite ?Hh; (split; [done|]); mlia. }
  destruct En as [-> Hn].
  assert (Hm : exists minimum, txt = num_field lft zero width minimum
    (dir_sign sign (bool_decide (43 ∈ d_flags d)) (bool_decide (32 ∈ d_flags d)) n) (numeral 10 large base (Z.abs n)) /\ Z.max v 1 = Z.max minimum 1).
  { destruct p as [q|]; cbn in Er, Hp.
    - destruct ((q =? 0) || zero); [done|]. cbn in Er. injection Er as <-. exists q. split; [done|lia].
    - injection Er as <-. exists 1. split; [done|lia]. }
  destruct Hm as (minimum & -> & Hm). destruct (print_number_run lim arr Hlim f _ _ _ _ _ _ base n fw v minimum t k o Hf Hb Hn Hm Ho) as (o' & E & H').
  exists o'. split; [done|]. by rewrite (num_field_width _ _ _ fw) by done.
Qed.

Lemma convert_run d f lft width fw p v rest args txt args' t k o :
  flag_bits f lft (bool_decide (43 ∈ d_flags d)) (bool_decide (32 ∈ d_flags d)) (bool_decide (48 ∈ d_flags d)) false false ->
  d_conv d ∈ conv_chars -> match d_qual d with Some c => c = 104 \/ c = 108 | None => True end ->
  fw = (match d_width d with WNone => -1 | _ => width end) -> 0 <= width -> (d_width d = WNone -> width = 0) -> prec_value p v ->
  render_conv strs d lft width p args = Some (txt, args') -> wrote t k o ->
  exists o', convert lim strs f fw v (default 0 (d_qual d)) (d_conv d :: rest) args o = Some (rest, args', o') /\ wrote (t ++ txt) (k + 1) o'.
Proof.
  intros Hf Hc Hq Hfw Hw0 Hwn Hp Er Ho.
  assert (Hw : Z.max fw 0 = Z.max width 0) by (subst fw; destruct (d_width d); [rewrite Hwn by done|..]; lia).
  unfold render_conv in Er. unfold convert. cbn [tail].
  destruct (Z.eqb_spec (d_conv d) 37) as [E37|E37].
  { rewrite E37. cbn [Z.eqb Pos.eqb]. destruct (bool_decide (dir_text d = [37])); [|done]. injection Er as <- <-.
    destruct (put_wrote lim arr Hlim t k 37 o Ho) as (o' & E & H' & _). rewrite E. exists o'. split; [done|]. eapply wrote_weaken; [exact H'|lia]. }
  destruct args as [|a args]; [done|]. cbn [va_arg mbind option_bind fst snd] in Er |- *.
  match type of Er with (?x ≫= _) = _ => destruct x as [txt1|] eqn:Et; [|done] end. cbn in Er. injection Er as <- <-.
  pose proof (flag_bits_or f LARGE _ _ _ _ _ _ Hf) as Hfl. pose proof (flag_bits_or f SIGN _ _ _ _ _ _ Hf) as Hfs.
  pose proof (flag_bits_or f ZEROPAD _ _ _ _ _ _ Hf) as Hfz. flags_in Hfl. flags_in Hfs. flags_in Hfz.
  unfold conv_chars in Hc. rewrite !elem_of_cons, elem_of_nil in Hc.
  destruct Hc as [Hc|[Hc|[Hc|[Hc|[Hc|[Hc|[Hc|[Hc|[Hc|[]]]]]]]]]]; rewrite Hc in Et |- *; cbn [Z.eqb Pos.eqb orb] in Et |- *; try done.
  - injection Et as <-. destruct (print_char_run f _ _ _ _ _ _ fw width a t k o Hf Hw Ho) as (o' & E & H'). rewrite E. exists o'. split; [done|].
    eapply wrote_weaken; [exact H'|lia].
  - match type of Et with (?x ≫= _) = _ => destruct x as [s|] eqn:Es; [|done] end. cbn in Et.
    destruct (bool_decide (0 ∈ s)) eqn:Ez; [|done]. destruct (bool_decide (p = Some 0)) eqn:Ep; [done|]. cbn in Et. injection Et as <-.
    apply bool_decide_eq_true in Ez. apply bool_decide_eq_false in Ep.
    destruct (print_string_run f _ _ _ _ _ _ fw width p v a s t k o Hf Hw Hp Ep Es Ez Ho) as (o' & E & H'). rewrite E. exists o'. split; [done|].
    eapply wrote_weaken; [exact H'|lia].
  - destruct (bool_decide (p = None)) eqn:Ep; [|done]. apply bool_decide_eq_true in Ep. subst p. cbn in Hp.
    injection Et as <-. assert (Ha : i32 a = i32 (u32 a)) by mlia. rewrite Ha. pose proof (u32_range a) as Hu.
    destruct (d_width d) eqn:Ed; subst fw; cbn [Z.eqb Pos.eqb orb]; rewrite ?orb_true_r, ?orb_false_r.
    2,3: destruct (Z.eqb_spec width (-1)); [lia|].
    1: destruct (print_number_run lim arr Hlim _ _ _ _ _ _ _ 16 (u32 a) 8 v 1 t k o Hfz ltac:(lia) Hu ltac:(lia) Ho) as (o' & E & H').
    2,3: destruct (print_number_run lim arr Hlim _ _ _ _ _ _ _ 16 (u32 a) width v 1 t k o Hf ltac:(lia) Hu ltac:(lia) Ho) as (o' & E & H').
    all: rewrite E; exists o'; split; [done|]; rewrite ?orb_true_r, Z.abs_eq in H' by lia; exact H'.
  - destruct (render_num_run d f _ _ _ width fw p v 16 a _ t k o Hf ltac:(lia) Hw Hp Hq Et Ho) as (o' & E & H'). rewrite E. by exists o'.
  - destruct (render_num_run d _ _ _ _ width fw p v 16 a _ t k o Hfl ltac:(lia) Hw Hp Hq Et Ho) as (o' & E & H'). rewrite E. by exists o'.
  - destruct (render_num_run d _ _ _ _ width fw p v 10 a _ t k o Hfs ltac:(lia) Hw Hp Hq Et Ho) as (o' & E & H'). rewrite E. by exists o'.
  - destruct (render_num_run d _ _ _ _ width fw p v 10 a _ t k o Hfs ltac:(lia) Hw Hp Hq Et Ho) as (o' & E & H'). rewrite E. by exists o'.
  - destruct (render_num_run d f _ _ _ width fw p v 10 a _ t k o Hf ltac:(lia) Hw Hp Hq Et Ho) as (o' & E & H'). rewrite E. by exists o'.
Qed.

(** The first character of the tail of a directive. *)
Lemma conv_next c : c ∈ conv_chars -> c ∈ next_chars /\ c <> 46 /\ c <> 104 /\ c <> 108.
Proof.
  intros Hc. assert (H : Forall (fun c => c ∈ next_chars /\ c <> 46 /\ c <> 104 /\ c <> 108) conv_chars)
    by (apply (bool_decide_unpack _); vm_compute; exact I). rewrite list.Forall_forall in H. by apply H.
Qed.
Lemma qual_head q c rest : c ∈ conv_chars -> match q with Some c => c = 104 \/ c = 108 | None => True end ->
  exists x r, qual_text q ++ c :: rest = x :: r /\ x ∈ next_chars /\ x <> 46.
Proof.
  intros Hc Hq. destruct (conv_next c Hc) as (H1 & H2 & _). destruct q as [x|]; [|by exists c, rest].
  exists x, (c :: rest). split; [done|]. destruct Hq as [-> | ->]; (split; [apply (bool_decide_unpack _); done|done]).
Qed.
Lemma prec_head p x r : x ∈ next_chars -> exists y r', prec_text p ++ x :: r = y :: r' /\ y ∈ next_chars.
Proof. intros Hx. destruct p as [|ds|]; cbn; eexists _, _; (split; [reflexivity|]); try done; apply (bool_decide_unpack _); done. Qed.
Lemma width_head w x r : x ∈ next_chars ->
  match w with
  | WNum ds => Forall (fun c => is_dec c = true) ds /\ decval 0 ds < 2147483648 /\ exists c ds', ds = c :: ds' /\ c <> 48
  | _ => True
  end -> exists y r', width_text w ++ x :: r = y :: r' /\ y ∉ 35 :: flag_chars.
Proof.
  intros Hx Hw. destruct w as [|ds|]; cbn.
  - eexists _, _. split; [reflexivity|]. apply (next_facts x Hx).
  - destruct Hw as (Hd & _ & c & ds' & -> & Hc). eexists _, _. split; [reflexivity|]. apply list.Forall_cons in Hd as [Hd _]. unfold is_dec in Hd.
    unfold flag_chars. rewrite !elem_of_cons, elem_of_nil. lia.
  - eexists _, _. split; [reflexivity|]. apply (bool_decide_unpack _). done.
Qed.

Lemma directive_run d rest args txt args' t k o :
  dir_ok d -> render_dir strs d args = Some (txt, args') -> wrote t k o ->
  exists o', directive lim strs (dir_text d ++ rest) args o = Some (rest, args', o') /\ wrote (t ++ txt) (k + 1) o'.
Proof.
  intros (Hfl & Hw & Hp & Hq & Hc) Er Ho. unfold render_dir in Er.
  destruct (width_of (d_width d) args) as [[[wl width] args1]|] eqn:Ew; [|done]. cbn [mbind option_bind] in Er.
  destruct (prec_of (d_prec d) args1) as [[p args2]|] eqn:Ep; [|done]. cbn [mbind option_bind fst snd] in Er.
  unfold directive, dir_text. rewrite <-!app_assoc. cbn [app].
  destruct (qual_head (d_qual d) (d_conv d) rest Hc Hq) as (x1 & r1 & E1 & Hx1 & Hx1').
  destruct (prec_head (d_prec d) x1 r1 Hx1) as (x2 & r2 & E2 & Hx2).
  destruct (width_head (d_width d) x2 r2 Hx2 Hw) as (x3 & r3 & E3 & Hx3).
  destruct (flags_loop_run (d_flags d) x3 r3 Hfl Hx3 0 _ _ _ _ flag_bits_0) as (f & Ef & Hf). cbn [orb] in Hf.
  rewrite E1, E2, E3, Ef. cbn [mbind option_bind fst snd]. rewrite <-E3.
  destruct (get_width_run (d_width d) args f x2 r2 wl width args1 Hw Hx2 Ew) as (fw & Eg & Hfw & Hwr). rewrite Eg. cbn [mbind option_bind]. rewrite <-E2.
  destruct (get_precision_run (d_prec d) args1 x1 r1 p args2 Hp Hx1 Hx1' Ep) as (v & Egp & Hv). rewrite Egp. cbn [mbind option_bind]. rewrite <-E1.
  assert (Eq : get_qualifier (qual_text (d_qual d) ++ d_conv d :: rest) = Some (default 0 (d_qual d), d_conv d :: rest)).
  { destruct (conv_next _ Hc) as (_ & _ & H1 & H2). destruct (d_qual d) as [c|]; cbn.
    - destruct Hq as [-> | ->]; done.
    - by rewrite (proj2 (Z.eqb_neq _ _) H1), (proj2 (Z.eqb_neq _ _) H2). }
  rewrite Eq. cbn [mbind option_bind fst snd].
  apply (convert_run d _ (bool_decide (45 ∈ d_flags d) || wl) width fw p v rest args2 txt args' t k o); try done; [|lia|].
  - destruct wl; [|by rewrite orb_false_r]. pose proof (flag_bits_or f LEFT _ _ _ _ _ _ Hf) as H. flags_in H. by rewrite orb_true_r.
  - intros En. rewrite En in Ew. by injection Ew as _ <- _.
Qed.

Lemma fmt_loop_run ps : forall fuel args txt t k o,
  Forall piece_ok ps -> render strs ps args = Some txt -> wrote t k o -> (length (format_text ps) <= fuel)%nat ->
  exists o', fmt_loop lim strs fuel (format_text ps ++ [0]) args o = Some o' /\ wrote (t ++ txt) (k + Z.of_nat (length ps)) o'.
Proof.
  induction ps as [|p ps IH]; intros fuel args txt t k o Hok Er Ho Hf.
  - cbn in Er. injection Er as <-. exists o. rewrite app_nil_r, Z.add_0_r. split; [|done]. cbn. by destruct fuel.
  - apply list.Forall_cons in Hok as [Hp Hok]. unfold format_text in Hf |- *. cbn [mbind list_bind] in Hf |- *. rewrite <-app_assoc.
    rewrite length_app in Hf. fold (format_text ps) in *. cbn [render] in Er. replace (k + Z.of_nat (length (p :: ps))) with (k + 1 + Z.of_nat (length ps)) by (cbn; lia).
    destruct p as [c|d]; cbn [piece_text] in *.
    + destruct Hp as [H0 H37]. destruct fuel as [|fuel]; [cbn in Hf; lia|]. destruct (render strs ps args) as [txt1|] eqn:E1; [|done]. cbn in Er. injection Er as <-.
      cbn [app fmt_loop]. rewrite (proj2 (Z.eqb_neq _ _) H0), (proj2 (Z.eqb_neq _ _) H37). cbn [negb].
      destruct (put_wrote lim arr Hlim t k c o Ho) as (o1 & Eo & H1 & _). rewrite Eo. cbn [mbind option_bind].
      destruct (IH fuel args txt1 _ (k + 1) o1 Hok E1 ltac:(eapply wrote_weaken; [exact H1|lia]) ltac:(cbn in Hf; lia)) as (o' & E' & H').
      exists o'. split; [done|]. by rewrite <-app_assoc in H'.
    + destruct fuel as [|fuel]; [cbn in Hf; lia|]. destruct (render_dir strs d args) as [[txt1 args1]|] eqn:E1; [|done]. cbn [mbind option_bind fst snd] in Er.
      destruct (render strs ps args1) as [txt2|] eqn:E2; [|done]. cbn in Er. injection Er as <-.
      cbn [app fmt_loop Z.eqb Pos.eqb negb]. destruct (directive_run d (format_text ps ++ [0]) args txt1 args1 t k o Hp E1 Ho) as (o1 & Eo & H1).
      rewrite Eo. cbn [mbind option_bind]. destruct (IH fuel args1 txt2 _ (k + 1) o1 Hok E2 H1 ltac:(cbn in Hf; lia)) as (o' & E' & H').
      exists o'. split; [done|]. by rewrite <-app_assoc in H'.
Qed.
End Directives.

(** ** The theorem *)

(** [rt_vsnprintf] for formats of the grammar: the array and the result. *)
Lemma rt_vsnprintf_run strs buf size ps args arr txt :
  Forall piece_ok ps -> render strs ps args = Some txt ->
  0 <= buf -> 0 < size <= Z.of_nat (length arr) -> buf + size <= 4294967296 ->
  Z.of_nat (length txt) + Z.of_nat (length ps) < 2147483648 ->
  exists n, rt_vsnprintf strs buf size (format_text ps ++ [0]) args arr =
      Some (n, take (Z.to_nat (size - 1)) txt ++ 0 :: drop (S (length (take (Z.to_nat (size - 1)) txt))) arr) /\
    (if Z.of_nat (length txt) <? size then n = Z.of_nat (length txt) else Z.of_nat (length txt) <= n).
Proof.
  intros Hok Er Hb Hs Hw Hl. unfold rt_vsnprintf. rewrite (u32_id (buf + size - 1)) by lia.
  destruct (Z.ltb_spec (buf + size - 1) buf); [lia|]. cbv zeta. replace (buf + size - 1 - buf) with (size - 1) by lia.
  assert (Hlim : 0 <= size - 1 < Z.of_nat (length arr)) by lia.
  assert (H0 : wrote (size - 1) arr [] 0 (Out arr 0)) by (split; [by rewrite take_nil|cbn; lia]).
  destruct (fmt_loop_run (size - 1) arr Hlim strs ps (length (format_text ps ++ [0])) args txt [] 0 _ Hok Er H0) as (o & Eo & Hm & Hp & Hq).
  { rewrite length_app. lia. } rewrite Eo. cbn [mbind option_bind app] in *. rewrite Z.add_0_l in Hp.
  replace (size - 1 + 1) with size in Hm by lia. exists (o_pos o).
  set (i := if o_pos o <=? size - 1 then o_pos o else size - 1).
  assert (Hi : i = Z.of_nat (length (take (Z.to_nat (size - 1)) txt))).
  { unfold i. rewrite length_take. destruct (Z.leb_spec (o_pos o) (size - 1)); lia. }
  assert (Hlen : Z.of_nat (length (o_mem o)) = Z.of_nat (length arr)).
  { rewrite Hm, length_app, length_drop, length_take. lia. }
  unfold store_at. rewrite Hlen. destruct (Z.leb_spec 0 i); [|lia]. destruct (Z.ltb_spec i (Z.of_nat (length arr))); [|rewrite length_take in Hi; lia].
  cbn [andb mbind option_bind]. split.
  - f_equal. f_equal; [unfold i32; Z.div_mod_to_equations; lia|]. rewrite Hi, Nat2Z.id, Hm.
    assert (Hcase : (length txt <= Z.to_nat (size - 1))%nat \/ (Z.to_nat (size - 1) < length txt)%nat) by lia. destruct Hcase as [G|G].
    + rewrite !(take_ge txt) by lia. destruct (drop (length txt) arr) as [|x rest] eqn:Ed.
      { apply (f_equal length) in Ed. rewrite length_drop in Ed. cbn in Ed. lia. }
      rewrite insert_app_r_alt, Nat.sub_diag by lia. cbn. f_equal. f_equal.
      change (S (length txt)) with (1 + length txt)%nat. rewrite Nat.add_comm, <-drop_drop, Ed. done.
    + rewrite (length_take_le txt (Z.to_nat (size - 1))) by lia. rewrite (length_take_le txt (Z.to_nat size)) by lia.
      replace (Z.to_nat size) with (S (Z.to_nat (size - 1))) by lia.
      destruct (lookup_lt_is_Some_2 txt (Z.to_nat (size - 1)) G) as [x Ex]. rewrite (take_S_r _ _ _ Ex), <-app_assoc.
      rewrite insert_app_r_alt by (rewrite length_take; lia). rewrite length_take_le, Nat.sub_diag by lia. done.
  - destruct (Z.ltb_spec (Z.of_nat (length txt)) size); lia.
Qed.

(** C31. Formatted output: for formats of literal text and of directives c s p x X d i u and %, with
    the flags - + blank and 0, a width, a precision and h or l, and arguments for them, but without
    a precision of zero and without a precision together with the 0 flag, [rt_snprintf] stores as
    much of the text as fits in front of a terminating zero, leaves the rest of the array alone,
    and returns the length of the text when it fits; when it does not fit, the result is at least
    that length. The text ([render]) is the one of the C standard; for a null string and for %p,
    which the standard leaves open, it is that of the code. In the two cases that are left out,
    for %o and for # the code departs from the standard, as the examples below show. *)
Theorem rt_snprintf_spec strs buf size ps args arr txt :
  Forall piece_ok ps -> render strs ps args = Some txt ->
  0 <= buf -> 0 < size <= Z.of_nat (length arr) -> buf + size <= 4294967296 ->
  Z.of_nat (length txt) + Z.of_nat (length ps) < 2147483648 ->
  exists n, rt_snprintf strs buf size (format_text ps ++ [0]) args arr =
      Some (n, take (Z.to_nat (size - 1)) txt ++ 0 :: drop (S (length (take (Z.to_nat (size - 1)) txt))) arr) /\
    (if Z.of_nat (length txt) <? size then n = Z.of_nat (length txt) else Z.of_nat (length txt) <= n).
Proof. apply rt_vsnprintf_run. Qed.

(** The characters of a Rocq string. *)
Definition chars (s : string) : list Z := (fun c => Z.of_N (Ascii.N_of_ascii c)) <$> String.list_ascii_of_string s.

(** "n=%-5d|%04x|%.2s", three arguments, and a buffer of sixteen bytes. *)
Definition fmt_pieces : list piece :=
  [Lit 110; Lit 61; Conv (Dir [45] (WNum [53]) PNone None 100); Lit 124;
   Conv (Dir [48] (WNum [52]) PNone (Some 104) 120); Lit 124; Conv (Dir [] WNone (PNum [50]) None 115)].
Definition fmt_strs (a : Z) : option (list Z) := if a =? 100 then Some (chars "abc" ++ [0]) else None.

Lemma rt_snprintf_spec_witness :
  exists n, rt_snprintf fmt_strs 1000 16 (chars "n=%-5d|%04hx|%.2s" ++ [0]) [4294967254; 65551; 100] (replicate 16 1) =
    Some (n, chars "n=-42  |000f|ab" ++ [0]) /\ n = 15.
Proof.
  destruct (rt_snprintf_spec fmt_strs 1000 16 fmt_pieces [4294967254; 65551; 100] (replicate 16 1) (chars "n=-42  |000f|ab")) as (n & E & Hn).
  - repeat constructor; try done; try set_solver; try (cbn; lia).
  - vm_compute. reflexivity.
  - lia.
  - cbn. lia.
  - lia.
  - cbn. lia.
  - exists n. exact (conj E Hn).
Defined.

(** A number comes back: what [rt_snprintf] makes of a number is read by [skip_atoi]. *)
Theorem print_read_roundtrip strs buf arr v :
  0 <= v < 2147483648 -> 0 <= buf -> (11 <= length arr)%nat -> buf + Z.of_nat (length arr) <= 4294967296 ->
  exists n arr', rt_snprintf strs buf (Z.of_nat (length arr)) (chars "%d" ++ [0]) [v] arr = Some (n, arr') /\
    fst <$> skip_atoi arr' 0 = Some v.
Proof.
  intros Hv Hb Ha Hw. set (txt := numeral 10 false 10 v).
  assert (Hlen : forall n, (length (numeral n false 10 v) <= n)%nat).
  { intros n. generalize v. induction n as [|n IH]; intros w; cbn [numeral]; [done|]. destruct (_ <? 10); [cbn; lia|].
    rewrite length_app. specialize (IH (w / 10)). cbn. lia. }
  specialize (Hlen 10%nat). fold txt in Hlen.
  assert (Er : render strs [Conv (Dir [] WNone PNone None 100)] [v] = Some txt).
  { cbn -[numeral num_field i32]. unfold render_num. cbn -[numeral num_field i32]. assert (E : i32 v = v) by mlia. rewrite E, Z.abs_eq by lia. destruct (Z.ltb_spec v 0); [lia|].
    assert (Hl : 1 <= Z.of_nat (length txt)) by (unfold txt; cbn [numeral]; destruct (v <? 10); [cbn; lia|rewrite length_app; cbn; lia]).
    fold txt. unfold num_field. cbn [length app]. rewrite (fill_nil (1 - _)) by lia. cbn [app]. rewrite fill_nil by lia. cbn [app]. by rewrite app_nil_r. }
  destruct (rt_vsnprintf_run strs buf (Z.of_nat (length arr)) [Conv (Dir [] WNone PNone None 100)] [v] arr txt) as (n & E & _);
    [apply list.Forall_cons; split; [|done]; split; [done|]; repeat split; apply (bool_decide_unpack _); done|done|done|lia|lia|cbn [length]; lia|].
  eexists n, _. split; [exact E|]. rewrite take_ge by lia.
  assert (Hd : Forall (fun c => is_dec c = true) txt).
  { unfold txt. assert (Hdg : forall w, 0 <= w < 10 -> is_dec (digit false w) = true) by (intros w Hw'; unfold digit, is_dec; destruct (Z.ltb_spec w 10); lia).
    clear -Hv Hdg. generalize 10%nat. intros n. assert (H0 : 0 <= v) by lia. clear Hv. revert v H0. induction n as [|n IH]; intros v H0; cbn [numeral]; [done|].
    destruct (Z.ltb_spec v 10); [by repeat constructor; apply Hdg|]. apply Forall_app. split; [apply IH, Z.div_pos; lia|].
    repeat constructor. apply Hdg, Z.mod_pos_bound. lia. }
  rewrite skip_atoi_run; try done; unfold txt; rewrite numeral_decval; try done; cbn; lia.
Qed.

(** ** Where the code departs from the standard *)

(** %o divides by 16. *)
Example octal_is_hexadecimal :
  rt_snprintf fmt_strs 1000 4 (chars "%o" ++ [0]) [8] [1; 1; 1; 1] = Some (1, chars "8" ++ [0; 1; 1]).
Proof. vm_compute. reflexivity. Qed.
(** A precision of zero does not cut a string. *)
Example precision_zero_string :
  rt_snprintf fmt_strs 1000 5 (chars "%.0s" ++ [0]) [100] [1; 1; 1; 1; 1] = Some (3, chars "abc" ++ [0; 1]).
Proof. vm_compute. reflexivity. Qed.
(** The flag 0 pads with zeros although there is a precision. *)
Example precision_and_zero :
  rt_snprintf fmt_strs 1000 7 (chars "%05.3d" ++ [0]) [42] (replicate 7 1) = Some (5, chars "00042" ++ [0; 1]).
Proof. vm_compute. reflexivity. Qed.
(** A size of zero sets no limit: the array of two bytes is overrun. *)
Example size_zero_overruns :
  rt_snprintf fmt_strs 1000 0 (chars "abc" ++ [0]) [] [1; 1] = None /\
  rt_snprintf fmt_strs 1000 0 (chars "abc" ++ [0]) [] [1; 1; 1; 1] = Some (3, chars "abc" ++ [0]).
Proof. vm_compute. done. Qed.
(** When the sign lies behind the end of the buffer, the result counts a character too many. *)
Example cut_sign_counts_more :
  fst <$> rt_snprintf fmt_strs 1000 2 (chars "abc%-4d" ++ [0]) [4294967295] [1; 1] = Some 8 /\
  fst <$> rt_snprintf fmt_strs 1000 9 (chars "abc%-4d" ++ [0]) [4294967295] (replicate 9 1) = Some 7.
Proof. vm_compute. done. Qed.
