(* ===== verification/Console.v ===== *)
(** * The console (console functions of src/src/kservice.c)

    [rt_kprintf] formats into a buffer of its own and writes it to the console device, or to
    the output function of the board when there is none.  The theorem follows a message from
    the format through the device table and the serial driver to the line. *)
From S2P Require Import Prelude RingBuffer KService Kernel Object Scheduler Timer Thread Frame Ipc.
From S2P Require Import Mem Heap Dynamic Completion DataQueue Device Serial MemFunc Format.

Definition RT_CONSOLEBUF_SIZE : Z := 256.

(** [_console_device], the address of [rt_log_buf] and what it holds. *)
Record console := Console { cs_device : option Z; cs_addr : Z; cs_log : list Z }.
Definition set_cs_device (d : option Z) (c : console) : console := Console d (cs_addr c) (cs_log c).
Definition set_cs_log (l : list Z) (c : console) : console := Console (cs_device c) (cs_addr c) l.

Definition rt_console_get_device (c : console) : option Z := cs_device c.

(** [rt_hw_console_output]: empty, unless the board has its own. *)
Definition rt_hw_console_output (str : list Z) : M unit := mret tt.

Section Driver.
Context (drv : driver).

(** [rt_console_set_device]: the old device, and the console. *)
Definition rt_console_set_device (name : list Z) (c : console) : M (option Z * console) :=
  let old := cs_device c in
  r ← rt_device_find name;
  match r with
  | Some (ODev new) =>
      match cs_device c with
      | Some d => _ ← rt_device_close drv d; mret tt
      | None => mret tt
      end;;
      _ ← rt_device_open drv new 0x003;
      mret (old, set_cs_device (Some new) c)
  | Some _ => stuck
  | None => mret (old, c)
  end.

(** [rt_kprintf]: the console behind it.  When the write suspends the thread, the flag is
    restored by [rt_kprintf_resume]. *)
Definition rt_kprintf (strs : Z -> option (list Z)) (fmt args : list Z) (c : console) : M (wait unit * console) :=
  p ← deref (rt_vsnprintf strs (cs_addr c) (RT_CONSOLEBUF_SIZE - 1) fmt args (cs_log c));
  let length := u32 p.1 in
  let length := if RT_CONSOLEBUF_SIZE - 1 <? length then RT_CONSOLEBUF_SIZE - 1 else length in
  let c := set_cs_log p.2 c in
  match cs_device c with
  | None => rt_hw_console_output (cs_log c);; mret (Ret tt, c)
  | Some d =>
      v ← get_dev d;
      let old_flag := dv_flag v in
      mod_dev d (fun v => set_dv_flag (u16 (Z.lor (dv_flag v) RT_DEVICE_FLAG_STREAM)) v);;
      w ← rt_device_write drv d 0 (cs_addr c) (cs_log c) length;
      match w with
      | Ret _ => mod_dev d (set_dv_flag old_flag);; mret (Ret tt, c)
      | Wait f => mret (Wait f, c)
      end
  end.
Definition rt_kprintf_resume (d old_flag : Z) : M unit := mod_dev d (set_dv_flag old_flag).
End Driver.

(** ** A message on a serial line *)

(** What reaches the device: the text, or, when it is longer than the buffer, its beginning and
    the zero behind it. *)
Definition sent (txt : list Z) : list Z :=
  if (length txt <=? 254)%nat then txt else take 254 txt ++ [0].

Lemma put_dev_put_dev d v v' k : put_dev d v' (put_dev d v k) = put_dev d v' k.
Proof. unfold put_dev. cbn. by rewrite insert_insert_eq. Qed.
Lemma put_dev_id d v k : k_devs k !! d = Some v -> put_dev d v k = k.
Proof. intros E. unfold put_dev. rewrite insert_id by done. by destruct k. Qed.
Lemma put_dev_put_sr d v d' s k : put_dev d v (put_sr d' s k) = put_sr d' s (put_dev d v k).
Proof. done. Qed.

(** The first [size] bytes of a buffer sent in polling mode. *)
Lemma serial_write_part callback d pos buffer data size v s k :
  0 <= size <= Z.of_nat (length data) -> k_devs k !! d = Some v -> k_serials k !! d = Some s ->
  has_flag v RT_DEVICE_FLAG_INT_TX = false -> has_flag v RT_DEVICE_FLAG_DMA_TX = false ->
  rt_serial_write callback d pos buffer data size k =
    Some (Ret size, put_sr d (set_sr_calls (sr_calls s ++ putcs (has_flag v RT_DEVICE_FLAG_STREAM) (take (Z.to_nat size) data)) s) k).
Proof.
  intros Hs E Es F1 F2. unfold rt_serial_write. destruct (Z.eqb_spec size 0) as [->|Hz].
  - cbn. unfold putcs. cbn. rewrite app_nil_r, put_sr_id; [done|]. rewrite Es. by destruct s.
  - rewrite (bind_run _ _ _ _ _ (get_dev_run _ _ _ E)). rewrite bool_decide_true by lia. mstep. rewrite F1, F2.
    rewrite (bind_run _ _ _ _ _ (write_polling_run d _ _ s k Es)). rewrite length_take.
    replace (Z.of_nat (Z.to_nat size `min` length data)) with size by lia.
    destruct (Z.eqb_spec size 0); [done|]. by mstep.
Qed.

(** The flag for streams does not touch the others. *)
Lemma stream_flags v f : 0 <= dv_flag v < 65536 -> 0 <= f < 65536 -> Z.land RT_DEVICE_FLAG_STREAM f = 0 ->
  has_flag (set_dv_flag (u16 (Z.lor (dv_flag v) RT_DEVICE_FLAG_STREAM)) v) f = has_flag v f.
Proof.
  intros Hv Hf H0. unfold has_flag. cbn. f_equal. f_equal. rewrite u16_id.
  - by rewrite Z.land_lor_distr_l, H0, Z.lor_0_r.
  - assert (0 <= Z.lor (dv_flag v) RT_DEVICE_FLAG_STREAM) by (apply Z.lor_nonneg; unfold RT_DEVICE_FLAG_STREAM; lia). split; [done|].
    destruct (Z.eq_dec (Z.lor (dv_flag v) RT_DEVICE_FLAG_STREAM) 0) as [->|]; [lia|].
    apply (Z.log2_lt_pow2 _ 16); [lia|]. rewrite Z.log2_lor by (unfold RT_DEVICE_FLAG_STREAM; lia). apply Z.max_lub_lt; [|cbn; lia].
    destruct (Z.eq_dec (dv_flag v) 0) as [->|]; [cbn; lia|]. apply Z.log2_lt_pow2; lia.
Qed.
Lemma stream_set v : 0 <= dv_flag v -> has_flag (set_dv_flag (u16 (Z.lor (dv_flag v) RT_DEVICE_FLAG_STREAM)) v) RT_DEVICE_FLAG_STREAM = true.
Proof.
  intros Hv. unfold has_flag. cbn [dv_flag set_dv_flag]. apply negb_true_iff, Z.eqb_neq. intros H. apply (f_equal (fun x => Z.testbit x 6)) in H.
  unfold u16 in H. change 65536 with (2 ^ 16) in H. rewrite Z.land_spec, Z.mod_pow2_bits_low, Z.lor_spec, Z.bits_0 in H by lia.
  rewrite orb_true_r in H. done.
Qed.

(** The part of the buffer that is written. *)
Lemma kprintf_length strs ps args c txt :
  Forall piece_ok ps -> render strs ps args = Some txt -> 0 <= cs_addr c -> cs_addr c + 256 <= 4294967296 ->
  length (cs_log c) = 256%nat -> Z.of_nat (length txt) + Z.of_nat (length ps) < 2147483648 ->
  exists n log, rt_vsnprintf strs (cs_addr c) (RT_CONSOLEBUF_SIZE - 1) (format_text ps ++ [0]) args (cs_log c) = Some (n, log) /\
    length log = 256%nat /\
    let len := if RT_CONSOLEBUF_SIZE - 1 <? u32 n then RT_CONSOLEBUF_SIZE - 1 else u32 n in
    0 <= len <= 255 /\ take (Z.to_nat len) log = sent txt.
Proof.
  intros Hok Er Ha1 Ha2 Hl Hb. unfold RT_CONSOLEBUF_SIZE. change (256 - 1) with 255.
  destruct (rt_vsnprintf_run strs (cs_addr c) 255 ps args (cs_log c) txt) as (n & E & Hn); try done; [lia..|].
  change (Z.to_nat (255 - 1)) with 254%nat in E. eexists n, _. split; [exact E|].
  assert (Hr : 0 <= n < 4294967296 -> u32 n = n) by apply u32_id.
  assert (Hn2 : Z.of_nat (length txt) <= n < 4294967296).
  { revert E. unfold rt_vsnprintf. intros E. destruct (Z.ltb_spec (Z.of_nat (length txt)) 255); [lia|]. split; [done|].
    destruct (fmt_loop _ _ _ _ _ _) as [o|]; [|done]. cbn [mbind option_bind] in E. destruct (store_at _ _ _); [|done]. cbn in E.
    injection E as <- _. unfold i32. Z.div_mod_to_equations. lia. }
  rewrite Hr by lia. cbv zeta. split; [|split].
  - rewrite length_app. cbn [length]. rewrite length_drop, length_take, Hl. lia.
  - destruct (Z.ltb_spec 255 n); lia.
  - unfold sent. destruct (Nat.leb_spec (length txt) 254) as [G|G].
    + destruct (Z.ltb_spec (Z.of_nat (length txt)) 255); [|lia]. subst n. destruct (Z.ltb_spec 255 (Z.of_nat (length txt))); [lia|].
      rewrite Nat2Z.id, (take_ge txt 254) by lia. apply take_app_length.
    + assert (Hlen : (if 255 <? n then 255 else n) = 255) by (destruct (Z.ltb_spec (Z.of_nat (length txt)) 255), (Z.ltb_spec 255 n); lia).
      rewrite Hlen. change (Z.to_nat 255) with 255%nat. rewrite take_app_ge by (rewrite length_take; lia). rewrite length_take.
      replace (254 `min` length txt)%nat with 254%nat by lia. done.
Qed.

(** C30. A message on the console: with a serial line in polling mode as the console, open, and a
    format of the grammar, [rt_kprintf] returns, the line has got the text with a carriage
    return before each line feed, and the device is as before, its flags included.  Of a text
    of more than 254 characters the line gets the first 254 and the zero behind them. *)
Theorem rt_kprintf_serial callback strs ps args c txt d v s k :
  Forall piece_ok ps -> render strs ps args = Some txt -> 0 <= cs_addr c -> cs_addr c + 256 <= 4294967296 ->
  length (cs_log c) = 256%nat -> Z.of_nat (length txt) + Z.of_nat (length ps) < 2147483648 ->
  cs_device c = Some d -> k_devs k !! d = Some v -> dv_ref_count v <> 0 -> is_Some (dv_write v) -> 0 <= dv_flag v < 65536 ->
  has_flag v RT_DEVICE_FLAG_INT_TX = false -> has_flag v RT_DEVICE_FLAG_DMA_TX = false -> k_serials k !! d = Some s ->
  exists log, rt_kprintf (serial_driver callback) strs (format_text ps ++ [0]) args c k =
    Some ((Ret tt, set_cs_log log c), put_sr d (set_sr_calls (sr_calls s ++ putcs true (sent txt)) s) k).
Proof.
  intros Hok Er Ha1 Ha2 Hl Hb Hd E Href [f Hf] Hfl F1 F2 Es.
  destruct (kprintf_length strs ps args c txt Hok Er Ha1 Ha2 Hl Hb) as (n & log & En & Hlog & Hlen & Hsent). exists log.
  unfold rt_kprintf. rewrite En. cbv zeta in Hlen, Hsent. set (len := if _ <? u32 n then _ else _) in *. mstep. cbn [fst snd]. fold len.
  cbn [cs_device set_cs_log]. rewrite Hd.
  set (v1 := set_dv_flag (u16 (Z.lor (dv_flag v) RT_DEVICE_FLAG_STREAM)) v).
  rewrite (bind_run _ _ _ _ _ (get_dev_run _ _ _ E)), (bind_run _ _ _ _ _ (mod_dev_run d v _ k E)). fold v1.
  unfold rt_device_write. rewrite bind_assoc, (bind_run _ _ _ _ _ (get_dev_run d v1 _ (lookup_put_dev d v1 k))).
  change (dv_ref_count v1) with (dv_ref_count v). change (dv_write v1) with (dv_write v).
  rewrite (proj2 (Z.eqb_neq _ _) Href), Hf. cbn [drv_write serial_driver cs_addr cs_log set_cs_log].
  assert (Ew := serial_write_part callback d 0 (cs_addr c) log len v1 s (put_dev d v1 k) ltac:(lia) (lookup_put_dev d v1 k) Es).
  unfold v1 in Ew. rewrite !stream_flags, stream_set in Ew by (done || lia). fold v1 in Ew. specialize (Ew F1 F2). rewrite Hsent in Ew.
  rewrite (bind_run _ _ _ _ _ Ew). rewrite <-put_dev_put_sr. rewrite (bind_run _ _ _ _ _ (mod_dev_run d v1 _ _ (lookup_put_dev d v1 _))).
  rewrite put_dev_put_dev, put_dev_id; [done|]. cbn. rewrite E. unfold v1. by destruct v.
Qed.
