(* ===== verification/Base64.v ===== *)
(** * Base64 (src/bsp/easyio_core/BASE64/cbase64.c)

    The encoder, the decoder of a string and the decoder of a stream of characters.  Bytes
    and characters are numbers below 256; the type [char] is unsigned on the ARM targets,
    so the value [np] of a character outside of the alphabet is 255. *)
From S2P Require Import Prelude.

Definition np : Z := 255.
Definition pad : Z := 61.

(** [alphabet64]: "A-Za-z0-9+/". *)
Definition alphabet64 : list Z := seqZ 65 26 ++ seqZ 97 26 ++ seqZ 48 10 ++ [43; 47].

(** [table64vals], for the characters from '+' to 'z'. *)
Definition table64vals : list Z :=
  [62; np; np; np; 63; 52; 53; 54; 55; 56; 57; 58; 59; 60; 61; np; np; np; np; np;
   np; np; 0; 1; 2; 3; 4; 5; 6; 7; 8; 9; 10; 11; 12; 13; 14; 15; 16; 17;
   18; 19; 20; 21; 22; 23; 24; 25; np; np; np; np; np; np; 26; 27; 28; 29; 30; 31;
   32; 33; 34; 35; 36; 37; 38; 39; 40; 41; 42; 43; 44; 45; 46; 47; 48; 49; 50; 51].

Definition table64 (c : Z) : Z :=
  if (c <? 43) || (122 <? c) then np else default np (table64vals !! Z.to_nat (c - 43)).

Definition alpha (c : Z) : Z := default 0 (alphabet64 !! Z.to_nat c).

(** The four values of six bits of a group, as the loop of [encode_base64] computes them. *)
Definition enc1 (x : Z) : Z := Z.land (Z.shiftr x 2) 63.
Definition enc2 (x y : Z) : Z := Z.lor (Z.land (Z.shiftl x 4) 63) (Z.land (Z.shiftr y 4) 15).
Definition enc2_last (x : Z) : Z := Z.land (Z.shiftl x 4) 63.
Definition enc3 (y z : Z) : Z := Z.lor (Z.land (Z.shiftl y 2) 60) (Z.land (Z.shiftr z 6) 3).
Definition enc3_last (y : Z) : Z := Z.land (Z.shiftl y 2) 60.
Definition enc4 (z : Z) : Z := Z.land z 63.

(** The loop of [encode_base64]: an iteration takes up to three bytes. *)
Fixpoint encode_loop (input : list Z) : list Z :=
  match input with
  | [] => []
  | [x] => [alpha (enc1 x); alpha (enc2_last x); pad; pad]
  | [x; y] => [alpha (enc1 x); alpha (enc2 x y); alpha (enc3_last y); pad]
  | x :: y :: z :: input' =>
      alpha (enc1 x) :: alpha (enc2 x y) :: alpha (enc3 y z) :: alpha (enc4 z) :: encode_loop input'
  end.
(** [encode_base64]: what is written to [output], with the terminating zero. *)
Definition encode_base64 (input : list Z) : list Z := encode_loop input ++ [0].

(** The three bytes of a group. *)
Definition dec1 (c d : Z) : Z := u8 (Z.lor (Z.shiftl c 2) (Z.land (Z.shiftr d 4) 3)).
Definition dec2 (d c : Z) : Z := u8 (Z.lor (Z.land (Z.shiftl d 4) 240) (Z.land (Z.shiftr c 2) 15)).
Definition dec3 (c d : Z) : Z := u8 (Z.lor (Z.land (Z.shiftl c 6) 192) d).

(** The loop of [decode_base64]; in a group of one character the next one read is the
    terminating zero. *)
Fixpoint decode_loop (input : list Z) : list Z :=
  match input with
  | [] => []
  | [a] => [dec1 (table64 a) (table64 0)]
  | a :: b :: [] => [dec1 (table64 a) (table64 b)]
  | a :: b :: c :: input' =>
      dec1 (table64 a) (table64 b) ::
      (if c =? pad then []
       else dec2 (table64 b) (table64 c) ::
         match input' with
         | [] => []
         | d :: input'' => if d =? pad then [] else dec3 (table64 c) (table64 d) :: decode_loop input''
         end)
  end.
(** [decode_base64]: the bytes written to [decoded], with the zero behind them, and [*outlen]. *)
Definition decode_base64 (input : list Z) : list Z * Z :=
  let out := decode_loop (cstring input) in (out ++ [0], Z.of_nat (length out)).

(** [struct dc_stream]. *)
Record dc_stream := DcStream { ds_status : Z; ds_c : Z; ds_d : Z; ds_count : Z }.
Definition start_decode_base64_stream : dc_stream := DcStream 0 0 0 0.

(** [decode_base64_stream]: the byte stored through [out], if any ([ret] is then 0, else -1). *)
Definition decode_base64_stream (input : Z) (ds : dc_stream) : option Z * dc_stream :=
  let count := u32 (ds_count ds + 1) in
  if ds_status ds =? 0 then (None, DcStream 1 (table64 input) (ds_d ds) count)
  else if ds_status ds =? 1 then
    let d := table64 input in
    let c := dec1 (ds_c ds) d in (Some c, DcStream 2 c d count)
  else if ds_status ds =? 2 then
    if input =? pad then (None, DcStream 0 input (ds_d ds) count)
    else
      let c := table64 input in
      let d := dec2 (ds_d ds) c in (Some d, DcStream 3 c d count)
  else if ds_status ds =? 3 then
    if input =? pad then (None, DcStream 0 (ds_c ds) input count)
    else
      let d := table64 input in
      let c := dec3 (ds_c ds) d in (Some c, DcStream 0 c d count)
  else (None, DcStream (ds_status ds) (ds_c ds) (ds_d ds) count).

(** A whole input fed to the stream decoder, as [test_base64] does. *)
Fixpoint stream_all (input : list Z) (ds : dc_stream) : list Z * dc_stream :=
  match input with
  | [] => ([], ds)
  | c :: input' =>
      let '(o, ds1) := decode_base64_stream c ds in
      let '(out, ds2) := stream_all input' ds1 in
      (match o with Some b => b :: out | None => out end, ds2)
  end.

(** ** Lemmas *)

Definition is_byte (x : Z) : Prop := 0 <= x < 256.

(** Facts about the finitely many bytes and values of six bits, by evaluation. *)
Definition bytes : list Z := seqZ 0 256.
Definition sextets : list Z := seqZ 0 64.

Lemma forall_range (P : Z -> bool) n : forallb P (seqZ 0 n) = true -> forall x, 0 <= x < n -> P x = true.
Proof. rewrite forallb_forall. intros H x Hx. apply H, list_elem_of_In, elem_of_seqZ. lia. Qed.
Lemma forall_range2 (P : Z -> Z -> bool) n m :
  forallb (fun x => forallb (P x) (seqZ 0 m)) (seqZ 0 n) = true ->
  forall x y, 0 <= x < n -> 0 <= y < m -> P x y = true.
Proof.
  intros H x y Hx Hy. apply (forall_range (P x) m); [|done].
  apply (forall_range (fun x => forallb (P x) (seqZ 0 m)) n); done.
Qed.

Lemma table64_alpha i : 0 <= i < 64 ->
  table64 (alpha i) = i /\ alpha i <> pad /\ alpha i <> 0 /\ is_byte (alpha i).
Proof.
  intros Hi. pose proof (forall_range (fun i => (table64 (alpha i) =? i) && negb (alpha i =? pad) &&
    negb (alpha i =? 0) && (0 <=? alpha i) && (alpha i <? 256)) 64 ltac:(vm_compute; reflexivity) i Hi) as H.
  cbv beta in H. rewrite !andb_true_iff, !negb_true_iff, !Z.eqb_neq, Z.eqb_eq, Z.leb_le, Z.ltb_lt in H.
  unfold is_byte. tauto.
Qed.

Lemma enc_range x y : is_byte x -> is_byte y ->
  0 <= enc1 x < 64 /\ 0 <= enc2 x y < 64 /\ 0 <= enc2_last x < 64 /\ 0 <= enc3 x y < 64 /\
  0 <= enc3_last x < 64 /\ 0 <= enc4 x < 64.
Proof.
  intros Hx Hy. pose proof (forall_range2 (fun x y =>
    forallb (fun v => (0 <=? v) && (v <? 64)) [enc1 x; enc2 x y; enc2_last x; enc3 x y; enc3_last x; enc4 x])
    256 256 ltac:(vm_compute; reflexivity) x y Hx Hy) as H. simpl in H.
  rewrite !andb_true_iff, !Z.leb_le, !Z.ltb_lt in H. lia.
Qed.

(** The bytes come back from the values of six bits. *)
Lemma dec_enc x y : is_byte x -> is_byte y ->
  dec1 (enc1 x) (enc2 x y) = x /\ dec1 (enc1 x) (enc2_last x) = x /\
  dec3 (enc3 x y) (enc4 y) = y.
Proof.
  intros Hx Hy. pose proof (forall_range2 (fun x y => (dec1 (enc1 x) (enc2 x y) =? x) &&
    (dec1 (enc1 x) (enc2_last x) =? x) && (dec3 (enc3 x y) (enc4 y) =? y)) 256 256
    ltac:(vm_compute; reflexivity) x y Hx Hy) as H. cbv beta in H.
  rewrite !andb_true_iff, !Z.eqb_eq in H. tauto.
Qed.

Lemma dec2_enc x y z : is_byte x -> is_byte y -> is_byte z ->
  dec2 (enc2 x y) (enc3 y z) = y /\ dec2 (enc2 x y) (enc3_last y) = y.
Proof.
  intros Hx Hy Hz.
  pose proof (forall_range2 (fun x y => Z.land (Z.shiftl (enc2 x y) 4) 240 =? Z.land y 240) 256 256
    ltac:(vm_compute; reflexivity) x y Hx Hy) as H1.
  pose proof (forall_range2 (fun y z => (Z.land (Z.shiftr (enc3 y z) 2) 15 =? Z.land y 15) &&
    (Z.land (Z.shiftr (enc3_last y) 2) 15 =? Z.land y 15)) 256 256
    ltac:(vm_compute; reflexivity) y z Hy Hz) as H2.
  pose proof (forall_range (fun y => u8 (Z.lor (Z.land y 240) (Z.land y 15)) =? y) 256
    ltac:(vm_compute; reflexivity) y Hy) as H3.
  cbv beta in H1, H2, H3. rewrite andb_true_iff, !Z.eqb_eq in H2. rewrite Z.eqb_eq in H1, H3.
  destruct H2 as [H2 H4]. unfold dec2. by rewrite H1, H2, H4.
Qed.

(** Induction over a list three elements at a time. *)
Lemma group_ind (P : list Z -> Prop) :
  P [] -> (forall x, P [x]) -> (forall x y, P [x; y]) ->
  (forall x y z l, P l -> P (x :: y :: z :: l)) -> forall l, P l.
Proof.
  intros H0 H1 H2 H3 l. assert (H : P l /\ (forall x, P (x :: l)) /\ (forall x y, P (x :: y :: l))).
  { induction l as [|a l (I1 & I2 & I3)]; [done|]. split_and!; [apply I2|intros x; apply I3|intros x y; by apply H3]. }
  apply H.
Qed.

Ltac alpha_facts := repeat match goal with
  | H : 0 <= ?i < 64 |- context [table64 (alpha ?i)] =>
      rewrite (proj1 (table64_alpha i H))
  | H : 0 <= ?i < 64 |- context [alpha ?i =? pad] =>
      rewrite (proj2 (Z.eqb_neq (alpha i) pad) (proj1 (proj2 (table64_alpha i H))))
  end.

Lemma encode_loop_chars l : Forall is_byte l -> Forall (fun c => c <> 0) (encode_loop l).
Proof.
  induction l as [|x|x y|x y z l IH] using group_ind; intros H; repeat (apply Forall_cons_1 in H as [? H]).
  - done.
  - destruct (enc_range x x) as (? & ? & ? & _); [done..|].
    repeat constructor; try done; by apply table64_alpha.
  - destruct (enc_range x y) as (? & ? & ? & _); [done..|]. destruct (enc_range y y) as (_ & _ & _ & _ & ? & _); [done..|].
    repeat constructor; try done; by apply table64_alpha.
  - destruct (enc_range x y) as (? & ? & ? & _); [done..|]. destruct (enc_range y z) as (_ & _ & _ & ? & _); [done..|].
    destruct (enc_range z z) as (_ & _ & _ & _ & _ & ?); [done..|].
    simpl. do 4 (apply Forall_cons_2; [by apply table64_alpha|]). by apply IH.
Qed.

Lemma cstring_app l : Forall (fun c => c <> 0) l -> cstring (l ++ [0]) = l.
Proof. induction 1 as [|c l Hc _ IH]; [done|]. simpl. destruct (Z.eqb_spec c 0); [done|]. by rewrite IH. Qed.

Lemma decode_encode_loop l : Forall is_byte l -> decode_loop (encode_loop l) = l.
Proof.
  induction l as [|x|x y|x y z l IH] using group_ind; intros H; repeat (apply Forall_cons_1 in H as [? H]).
  - done.
  - destruct (enc_range x x) as (? & ? & ? & _); [done..|]. simpl. alpha_facts.
    by rewrite (proj1 (proj2 (dec_enc x x ltac:(done) ltac:(done)))).
  - destruct (enc_range x y) as (? & ? & _); [done..|]. destruct (enc_range y y) as (_ & _ & _ & _ & ? & _); [done..|].
    simpl. alpha_facts. rewrite (proj1 (dec_enc x y ltac:(done) ltac:(done))).
    by rewrite (proj2 (dec2_enc x y y ltac:(done) ltac:(done) ltac:(done))).
  - destruct (enc_range x y) as (? & ? & _); [done..|]. destruct (enc_range y z) as (_ & _ & _ & ? & _); [done..|].
    destruct (enc_range z z) as (_ & _ & _ & _ & _ & ?); [done..|]. simpl. alpha_facts.
    rewrite (proj1 (dec_enc x y ltac:(done) ltac:(done))), (proj1 (dec2_enc x y z ltac:(done) ltac:(done) ltac:(done))).
    rewrite (proj2 (proj2 (dec_enc y z ltac:(done) ltac:(done)))). by rewrite IH.
Qed.

(** The encoding has four characters for every three bytes begun. *)
Lemma length_encode l : length (encode_loop l) = (4 * ((length l + 2) / 3))%nat.
Proof.
  induction l as [|x|x y|x y z l IH] using group_ind; try done.
  change (length (x :: y :: z :: l)) with (3 + length l)%nat.
  replace (3 + length l + 2)%nat with (length l + 2 + 1 * 3)%nat by lia.
  rewrite Nat.div_add by lia. simpl length. rewrite IH. lia.
Qed.

(** C33. [decode_base64] gives back what [encode_base64] encoded: for every sequence of
    bytes the encoding is a C string of four characters for every three bytes begun, and
    decoding it stores the bytes and their number. *)
Theorem base64_roundtrip input : Forall is_byte input ->
  cstring (encode_base64 input) = encode_loop input /\
  length (encode_base64 input) = S (4 * ((length input + 2) / 3)) /\
  decode_base64 (encode_base64 input) = (input ++ [0], Z.of_nat (length input)).
Proof.
  intros H. unfold decode_base64, encode_base64.
  rewrite cstring_app by by apply encode_loop_chars. rewrite decode_encode_loop by done.
  rewrite length_app, length_encode. split_and!; [done|simpl; lia|done].
Qed.

(** The four steps of the stream decoder on characters of the alphabet. *)
Lemma stream_0 i c d n l : 0 <= i < 64 ->
  stream_all (alpha i :: l) (DcStream 0 c d n) = stream_all l (DcStream 1 i d (u32 (n + 1))).
Proof.
  intros Hi. cbn [stream_all]. unfold decode_base64_stream. cbn [ds_status ds_c ds_d ds_count]. simpl Z.eqb.
  alpha_facts. by destruct (stream_all l _).
Qed.
Lemma stream_1 i c d n l : 0 <= i < 64 ->
  stream_all (alpha i :: l) (DcStream 1 c d n) =
  (dec1 c i :: (stream_all l (DcStream 2 (dec1 c i) i (u32 (n + 1)))).1,
   (stream_all l (DcStream 2 (dec1 c i) i (u32 (n + 1)))).2).
Proof.
  intros Hi. cbn [stream_all]. unfold decode_base64_stream. cbn [ds_status ds_c ds_d ds_count]. simpl Z.eqb.
  alpha_facts. by destruct (stream_all l _).
Qed.
Lemma stream_2 i c d n l : 0 <= i < 64 ->
  stream_all (alpha i :: l) (DcStream 2 c d n) =
  (dec2 d i :: (stream_all l (DcStream 3 i (dec2 d i) (u32 (n + 1)))).1,
   (stream_all l (DcStream 3 i (dec2 d i) (u32 (n + 1)))).2).
Proof.
  intros Hi. cbn [stream_all]. unfold decode_base64_stream. cbn [ds_status ds_c ds_d ds_count]. cbn [Z.eqb Pos.eqb].
  alpha_facts. by destruct (stream_all l _).
Qed.
Lemma stream_3 i c d n l : 0 <= i < 64 ->
  stream_all (alpha i :: l) (DcStream 3 c d n) =
  (dec3 c i :: (stream_all l (DcStream 0 (dec3 c i) i (u32 (n + 1)))).1,
   (stream_all l (DcStream 0 (dec3 c i) i (u32 (n + 1)))).2).
Proof.
  intros Hi. cbn [stream_all]. unfold decode_base64_stream. cbn [ds_status ds_c ds_d ds_count]. cbn [Z.eqb Pos.eqb].
  alpha_facts. by destruct (stream_all l _).
Qed.

Lemma stream_encode_loop l c d n : Forall is_byte l ->
  (stream_all (encode_loop l) (DcStream 0 c d n)).1 = l /\
  ds_status (stream_all (encode_loop l) (DcStream 0 c d n)).2 =
    (if (length l mod 3 =? 1)%nat then 1 else 0).
Proof.
  revert c d n.
  induction l as [|x|x y|x y z l IH] using group_ind; intros c d n H; repeat (apply Forall_cons_1 in H as [? H]).
  - done.
  - destruct (enc_range x x) as (? & ? & ? & _); [done..|]. cbn [encode_loop].
    rewrite stream_0, stream_1 by done. by rewrite (proj1 (proj2 (dec_enc x x ltac:(done) ltac:(done)))).
  - destruct (enc_range x y) as (? & ? & _); [done..|]. destruct (enc_range y y) as (_ & _ & _ & _ & ? & _); [done..|].
    cbn [encode_loop]. rewrite stream_0, stream_1, stream_2 by done. rewrite (proj1 (dec_enc x y ltac:(done) ltac:(done))).
    by rewrite (proj2 (dec2_enc x y y ltac:(done) ltac:(done) ltac:(done))).
  - destruct (enc_range x y) as (? & ? & _); [done..|]. destruct (enc_range y z) as (_ & _ & _ & ? & _); [done..|].
    destruct (enc_range z z) as (_ & _ & _ & _ & _ & ?); [done..|]. cbn [encode_loop].
    rewrite stream_0, stream_1, stream_2, stream_3 by done. cbn [fst snd].
    rewrite (proj1 (dec_enc x y ltac:(done) ltac:(done))), (proj1 (dec2_enc x y z ltac:(done) ltac:(done) ltac:(done))).
    rewrite (proj2 (proj2 (dec_enc y z ltac:(done) ltac:(done)))).
    edestruct IH as [E1 E2]; [done|]. rewrite E1, E2. split; [done|].
    change (length (x :: y :: z :: l)) with (3 + length l)%nat.
    by replace (3 + length l)%nat with (length l + 1 * 3)%nat by lia; rewrite Nat.Div0.mod_add.
Qed.

(** The stream decoder, started afresh and fed the characters of an encoding one by
    one, stores the encoded bytes in their order and nothing else.  It is then ready for
    another encoding (status 0), unless the encoding ends with two pad characters: the
    second one counts as the first character of a group. *)
Theorem base64_stream_roundtrip input : Forall is_byte input ->
  (stream_all (encode_loop input) start_decode_base64_stream).1 = input /\
  ds_status (stream_all (encode_loop input) start_decode_base64_stream).2 =
    (if (length input mod 3 =? 1)%nat then 1 else 0).
Proof. apply stream_encode_loop. Qed.

(** ** Witnesses *)

Lemma base64_roundtrip_witness :
  decode_base64 (encode_base64 [0; 116; 255; 10]) = ([0; 116; 255; 10; 0], 4).
Proof. apply (base64_roundtrip [0; 116; 255; 10]). repeat constructor; done. Defined.

Lemma base64_stream_roundtrip_witness :
  (stream_all (encode_loop [0; 116; 255; 10]) start_decode_base64_stream).1 = [0; 116; 255; 10].
Proof. apply (base64_stream_roundtrip [0; 116; 255; 10]). repeat constructor; done. Defined.

(** The encoding of a second message after one with two pad characters is decoded wrongly:
    the decoder is not back in its first state. *)
Example stream_after_two_pads :
  (stream_all (encode_loop [65] ++ encode_loop [66; 67; 68]) start_decode_base64_stream).1 <> [65; 66; 67; 68].
Proof. vm_compute. discriminate. Qed.
