(* ===== verification/AtParse.v ===== *)
(** * The parser of AT commands (src/bsp/easyio_core/atparse.c, atparse.h)

    [parse_at_cmd_string] reads a command such as AT+NAME=12,"text" and records its name and
    where its parameters begin; [get_at_param_int] and [get_at_param_string] read a
    parameter.  The result [None] of a definition is an access outside of an array.

    The theorems show exactly which strings are accepted and with what result, and that the
    parameters of a command come back. *)
From S2P Require Import Prelude.

(** ** Data *)

(** [struct ATCMD_PARAM]: the position is an index into the string, [None] for [NULL]. *)
Inductive param_type := ATCMD_PARAM_STRING_TYPE | ATCMD_PARAM_INTEGER_TYPE.
Record atcmd_param := AtParam { ap_type : param_type; ap_pos : option Z }.

(** [struct ATCMD_DATA]. *)
Record atcmd_data := AtData { ad_name : list Z; ad_param_count : Z; ad_param : list atcmd_param }.

Definition ATCMD_NAME_LENGTH : Z := 16.
(** The data after the [memset]. *)
Definition ad0 : atcmd_data := AtData (replicate 16 0) 0 (replicate 16 (AtParam ATCMD_PARAM_STRING_TYPE None)).

Inductive parser_status :=
  | PARSER_STATUS_INIT | PARSER_STATUS_RECV_A | PARSER_STATUS_RECV_T | PARSER_STATUS_RECV_PLUS
  | PARSER_STATUS_STARTPARSE | PARSER_STATUS_PARSE_STRING | PARSER_STATUS_PARSE_STRING_END
  | PARSER_STATUS_PARSE_INT | PARSER_STATUS_PARSE_END.

(** Characters. *)
Definition is_upper (c : Z) : bool := (65 <=? c) && (c <=? 90).
Definition is_digit (c : Z) : bool := (48 <=? c) && (c <=? 57).
Definition is_end (c : Z) : bool := (c =? 13) || (c =? 0).
Definition QUOTE : Z := 34.
Definition COMMA : Z := 44.

(** ** The parser *)

(** The end of a turn of the loop: the next one, or the result of the function. *)
Inductive turn := Next (st : parser_status) (ix : Z) (ad : atcmd_data) | Return (r : Z) (ad : atcmd_data) | Fault.

(** A parameter of the type [ty] begins at [i]. *)
Definition add_param (ty : param_type) (i : Z) (ad : atcmd_data) : option atcmd_data :=
  let n := Z.to_nat (ad_param_count ad) in
  if (n <? length (ad_param ad))%nat
  then Some (AtData (ad_name ad) (ad_param_count ad + 1) (<[n := AtParam ty (Some i)]> (ad_param ad)))
  else None.

(** The switch of [parse_at_cmd_string] for the character [c] at [i]; [ix] is
    [appendname_index]. *)
Definition parse_turn (i c : Z) (st : parser_status) (ix : Z) (ad : atcmd_data) : turn :=
  match st with
  | PARSER_STATUS_INIT =>
      if (i =? 0) && (c =? 65) then Next PARSER_STATUS_RECV_A ix ad
      else if (i =? 0) && (c =? 43) then Next PARSER_STATUS_RECV_PLUS ix ad
      else Return (-1) ad
  | PARSER_STATUS_RECV_A =>
      if (i =? 1) && (c =? 84) then Next PARSER_STATUS_RECV_T ix ad else Return (-1) ad
  | PARSER_STATUS_RECV_T =>
      if (i =? 2) && (c =? 43) then Next PARSER_STATUS_RECV_PLUS ix ad else Return (-1) ad
  | PARSER_STATUS_RECV_PLUS =>
      if is_upper c then
        let ad' := AtData (<[Z.to_nat ix := c]> (ad_name ad)) (ad_param_count ad) (ad_param ad) in
        if ATCMD_NAME_LENGTH - 1 <=? ix + 1 then Return (-1) ad' else Next PARSER_STATUS_RECV_PLUS (ix + 1) ad'
      else if c =? 61 then Next PARSER_STATUS_STARTPARSE ix ad
      else if is_end c then Next PARSER_STATUS_PARSE_END ix ad
      else Return (-1) ad
  | PARSER_STATUS_STARTPARSE =>
      if c =? QUOTE then
        match add_param ATCMD_PARAM_STRING_TYPE i ad with
        | Some ad' => Next PARSER_STATUS_PARSE_STRING ix ad' | None => Fault
        end
      else if is_digit c then
        match add_param ATCMD_PARAM_INTEGER_TYPE i ad with
        | Some ad' => Next PARSER_STATUS_PARSE_INT ix ad' | None => Fault
        end
      else Return (-1) ad
  | PARSER_STATUS_PARSE_STRING =>
      if c =? QUOTE then Next PARSER_STATUS_PARSE_STRING_END ix ad else Next PARSER_STATUS_PARSE_STRING ix ad
  | PARSER_STATUS_PARSE_STRING_END =>
      if c =? COMMA then Next PARSER_STATUS_STARTPARSE ix ad
      else if is_end c then Return 0 ad
      else Return (-1) ad
  | PARSER_STATUS_PARSE_INT =>
      if c =? COMMA then Next PARSER_STATUS_STARTPARSE ix ad
      else if is_end c then Return 0 ad
      else if is_digit c then Next PARSER_STATUS_PARSE_INT ix ad
      else Return (-1) ad
  | PARSER_STATUS_PARSE_END => Return 0 ad
  end.

(** The loop, over the characters that are left; behind it is [parse_err]. *)
Fixpoint parse_loop (cs : list Z) (i : Z) (st : parser_status) (ix : Z) (ad : atcmd_data) : option (Z * atcmd_data) :=
  match cs with
  | [] => Some (-1, ad)
  | c :: cs' =>
      match parse_turn i c st ix ad with
      | Next st' ix' ad' => parse_loop cs' (i + 1) st' ix' ad'
      | Return r ad' => Some (r, ad')
      | Fault => None
      end
  end.

(** [parse_at_cmd_string]: the characters with the terminating zero. *)
Definition parse_at_cmd_string (at_ : list Z) : option (Z * atcmd_data) :=
  parse_loop (cstring at_ ++ [0]) 0 PARSER_STATUS_INIT 0 ad0.

(** ** Reading parameters *)

(** [%d] of [sscanf] on an array that holds [s]: blanks, a sign, digits; [Some None] when
    nothing matches, [None] when the array ends before the number does. *)
Definition is_space (c : Z) : bool := (c =? 32) || ((9 <=? c) && (c <=? 13)).
Fixpoint scan_digits (s : list Z) (acc : Z) : option Z :=
  match s with
  | [] => None
  | c :: s' => if is_digit c then scan_digits s' (10 * acc + (c - 48)) else Some acc
  end.
Fixpoint skip_space (s : list Z) : list Z :=
  match s with c :: s' => if is_space c then skip_space s' else s | [] => [] end.
Definition sscanf_d (s : list Z) : option (option Z) :=
  match skip_space s with
  | [] => None
  | c :: s' =>
      let '(neg, t) := if c =? 45 then (true, s') else if c =? 43 then (false, s') else (false, c :: s') in
      match t with
      | [] => None
      | d :: _ => if is_digit d then v ← scan_digits t 0; Some (Some (if neg : bool then - v else v)) else Some None
      end
  end.

(** The loop of [get_at_param_int]: at most [n] digits of [str] are copied over [numstr]. *)
Fixpoint copy_digits (n : nat) (str numstr : list Z) : option (list Z) :=
  match n, numstr with
  | S n', x :: numstr' =>
      match str with
      | [] => None
      | c :: str' => if is_digit c then cons c <$> copy_digits n' str' numstr' else Some numstr
      end
  | _, _ => Some numstr
  end.

(** The bytes from the position of the parameter [idx] on, with the terminating zero. *)
Definition param_str (at_ : list Z) (ad : atcmd_data) (idx : Z) : option (list Z) :=
  p ← ad_param ad !! Z.to_nat idx; i ← ap_pos p; Some (drop (Z.to_nat i) (cstring at_ ++ [0])).

(** [get_at_param_int]: [numstr] are the 8 bytes of the local array before the call, which
    [memset(numstr, 8, 0)] leaves as they are, [ret] the one of the result variable. *)
Definition get_at_param_int (at_ : list Z) (ad : atcmd_data) (idx : Z) (numstr : list Z) (ret : Z) : option Z :=
  str ← param_str at_ ad idx;
  s ← copy_digits 7 str numstr;
  v ← sscanf_d s;
  Some (default ret v).

(** The loop of [get_at_param_string]: characters up to a quote are copied to [out] from
    [j] on. *)
Fixpoint copy_string (str : list Z) (j : nat) (out : list Z) : option (list Z) :=
  match str with
  | [] => if (j <? length out)%nat then Some (<[j := 0]> out) else None
  | c :: str' =>
      if c =? QUOTE then if (j <? length out)%nat then Some (<[j := 0]> out) else None
      else if (j <? length out)%nat then copy_string str' (S j) (<[j := c]> out) else None
  end.

(** [get_at_param_string]: whether a string is returned, and the buffer.  The buffer is
    shorter than 32768 bytes, so that the index, a [short], does not wrap before a write
    leaves the buffer. *)
Definition get_at_param_string (at_ : list Z) (ad : atcmd_data) (idx : Z) (out : list Z) : option (bool * list Z) :=
  str ← param_str at_ ad idx;
  match cstring str with
  | c :: str' =>
      if c =? QUOTE then out' ← copy_string str' 0 out; Some (true, out')
      else if (0 <? length out)%nat then Some (false, <[0%nat := 0]> out) else None
  | [] => if (0 <? length out)%nat then Some (false, <[0%nat := 0]> out) else None
  end.

(** ** The language of commands *)

(** A parameter: text between quotes, or digits. *)
Inductive arg := AStr (s : list Z) | AInt (ds : list Z).
Definition arg_ok (a : arg) : Prop :=
  match a with AStr s => QUOTE ∉ s | AInt ds => ds <> [] /\ Forall is_digit ds end.
Definition arg_text (a : arg) : list Z := match a with AStr s => QUOTE :: s ++ [QUOTE] | AInt ds => ds end.
Definition arg_type (a : arg) : param_type :=
  match a with AStr _ => ATCMD_PARAM_STRING_TYPE | AInt _ => ATCMD_PARAM_INTEGER_TYPE end.

(** Parameters with commas between them, and where they begin in a text at [i]. *)
Fixpoint args_text (args : list arg) : list Z :=
  match args with [] => [] | [a] => arg_text a | a :: args' => arg_text a ++ COMMA :: args_text args' end.
Fixpoint args_at (i : Z) (args : list arg) : list atcmd_param :=
  match args with
  | [] => []
  | a :: args' => AtParam (arg_type a) (Some i) :: args_at (i + Z.of_nat (length (arg_text a)) + 1) args'
  end.

(** A command without parameters ends with a carriage return; one with parameters ends
    there or with the string. *)
Definition command_end (args : list arg) (rest : list Z) : Prop :=
  match args with
  | [] => exists r, rest = 13 :: r
  | _ => exists more, rest = 61 :: args_text args ++ more /\ (more = [] \/ exists r, more = 13 :: r)
  end.
Definition command (pre s name : list Z) (args : list arg) : Prop :=
  (pre = [65; 84; 43] \/ pre = [43]) /\ Forall is_upper name /\ (length name <= 14)%nat /\ Forall arg_ok args /\
  exists rest, s = pre ++ name ++ rest /\ command_end args rest.

(** The data for a name and parameters. *)
Definition data (name : list Z) (ps : list atcmd_param) : atcmd_data :=
  AtData (name ++ replicate (16 - length name) 0) (Z.of_nat (length ps))
    (ps ++ replicate (16 - length ps) (AtParam ATCMD_PARAM_STRING_TYPE None)).
Definition parsed (pre name : list Z) (args : list arg) : atcmd_data :=
  data name (args_at (Z.of_nat (length pre + length name + 1)) args).

(** ** Lemmas *)

Lemma insert_middle {A} (l1 : list A) x y l2 : <[length l1 := y]> (l1 ++ x :: l2) = l1 ++ y :: l2.
Proof. rewrite insert_app_r_alt by lia. by rewrite Nat.sub_diag. Qed.

Lemma add_param_data ty i name ps :
  add_param ty i (data name ps) =
  if (length ps <? 16)%nat then Some (data name (ps ++ [AtParam ty (Some i)])) else None.
Proof.
  unfold add_param, data. cbn [ad_name ad_param_count ad_param]. rewrite Nat2Z.id, !length_app, length_replicate.
  destruct (Nat.ltb_spec (length ps) 16) as [Hl|Hl].
  - destruct (Nat.ltb_spec (length ps) (length ps + (16 - length ps))) as [_|]; [|lia].
    replace (16 - length ps)%nat with (S (16 - (length ps + 1))) by lia. cbn [replicate].
    rewrite insert_middle. cbn [length]. f_equal. f_equal; [lia|by rewrite <-app_assoc].
  - destruct (Nat.ltb_spec (length ps) (length ps + (16 - length ps))); [lia|done].
Qed.

Lemma not_upper c : is_upper c = true -> c <> 61 /\ c <> 13 /\ c <> 0.
Proof. unfold is_upper. lia. Qed.
Lemma digit_facts c : is_digit c = true -> c <> QUOTE /\ c <> COMMA /\ is_end c = false /\ c <> 0.
Proof. unfold is_digit, QUOTE, COMMA, is_end. lia. Qed.

Lemma parse_name name : forall done cs i ps,
  Forall is_upper name -> (length done + length name <= 14)%nat ->
  parse_loop (name ++ cs) i PARSER_STATUS_RECV_PLUS (Z.of_nat (length done)) (data done ps) =
  parse_loop cs (i + Z.of_nat (length name)) PARSER_STATUS_RECV_PLUS (Z.of_nat (length (done ++ name))) (data (done ++ name) ps).
Proof.
  induction name as [|c name IH]; intros dn cs i ps Hu Hl.
  { rewrite app_nil_r. cbn [app length]. by rewrite Z.add_0_r. }
  apply list.Forall_cons in Hu as [Hc Hu]. cbn [app parse_loop parse_turn length] in *. apply Is_true_true in Hc. rewrite Hc.
  unfold ATCMD_NAME_LENGTH. destruct (Z.leb_spec (16 - 1) (Z.of_nat (length dn) + 1)); [lia|].
  assert (E : AtData (<[Z.to_nat (Z.of_nat (length dn)) := c]> (ad_name (data dn ps))) (ad_param_count (data dn ps))
                (ad_param (data dn ps)) = data (dn ++ [c]) ps).
  { unfold data. cbn [ad_name ad_param_count ad_param]. rewrite Nat2Z.id, length_app. cbn [length].
    replace (16 - length dn)%nat with (S (16 - (length dn + 1))) by lia. cbn [replicate].
    rewrite insert_middle. by rewrite <-app_assoc. }
  rewrite E. specialize (IH (dn ++ [c]) cs (i + 1) ps Hu). rewrite length_app in IH. cbn [length] in IH.
  replace (Z.of_nat (length dn) + 1) with (Z.of_nat (length dn + 1)) by lia. rewrite IH by lia.
  rewrite <-app_assoc. cbn [app]. f_equal. lia.
Qed.

(** A name that is too long, or goes on with something else, is refused. *)
Lemma parse_name_sound s : forall dn i ps ad,
  0 ∉ s -> (length dn <= 14)%nat ->
  parse_loop (s ++ [0]) i PARSER_STATUS_RECV_PLUS (Z.of_nat (length dn)) (data dn ps) = Some (0, ad) ->
  exists name rest, s = name ++ rest /\ Forall is_upper name /\ (length dn + length name <= 14)%nat /\
    ((exists r, rest = 13 :: r) \/ exists r, rest = 61 :: r).
Proof.
  induction s as [|c s IH]; intros dn i ps ad Hz Hl E; [done|]. cbn [app parse_loop] in E.
  destruct (is_upper c) eqn:Hc.
  - pose proof (parse_name [c] dn (s ++ [0]) i ps) as Hp. cbn [app] in Hp. cbn [parse_loop] in Hp.
    unfold parse_turn in E, Hp. rewrite Hc in E, Hp. unfold ATCMD_NAME_LENGTH in *.
    destruct (Z.leb_spec (16 - 1) (Z.of_nat (length dn) + 1)) as [|Hlt]; [done|].
    rewrite Hp in E; [|constructor; [by apply Is_true_true|constructor]|cbn; lia].
    apply IH in E as (name & rest & -> & Hu & Hn & Hr); [|set_solver|rewrite length_app; cbn; lia].
    exists (c :: name), rest. split; [done|]. split; [constructor; [by apply Is_true_true|done]|].
    rewrite length_app in Hn. cbn in *. split; [lia|done].
  - unfold parse_turn in E. rewrite Hc in E. exists [], (c :: s). split; [done|]. split; [constructor|]. cbn. split; [lia|].
    destruct (Z.eqb_spec c 61) as [->|]; [right; eauto|]. unfold is_end in E.
    destruct (Z.eqb_spec c 13) as [->|]; [left; eauto|]. destruct (Z.eqb_spec c 0) as [->|]; [set_solver|done].
Qed.

Lemma parse_int ds : forall cs i ix ad, Forall is_digit ds ->
  parse_loop (ds ++ cs) i PARSER_STATUS_PARSE_INT ix ad =
  parse_loop cs (i + Z.of_nat (length ds)) PARSER_STATUS_PARSE_INT ix ad.
Proof.
  induction ds as [|c ds IH]; intros cs i ix ad Hd; [cbn; by rewrite Z.add_0_r|].
  apply list.Forall_cons in Hd as [Hc Hd]. apply Is_true_true in Hc. pose proof (digit_facts c Hc) as (_ & H1 & H2 & _).
  cbn [app parse_loop parse_turn length]. apply Z.eqb_neq in H1. rewrite H1, H2, Hc, IH by done. f_equal. lia.
Qed.

Lemma parse_str s : forall cs i ix ad, QUOTE ∉ s ->
  parse_loop (s ++ QUOTE :: cs) i PARSER_STATUS_PARSE_STRING ix ad =
  parse_loop cs (i + Z.of_nat (length s) + 1) PARSER_STATUS_PARSE_STRING_END ix ad.
Proof.
  induction s as [|c s IH]; intros cs i ix ad Hq; [cbn; by rewrite Z.add_0_r|].
  cbn [app parse_loop parse_turn length]. destruct (Z.eqb_spec c QUOTE) as [->|_]; [set_solver|].
  rewrite IH by set_solver. f_equal. lia.
Qed.
Lemma parse_str_open cs : forall i ix ad, QUOTE ∉ cs ->
  parse_loop cs i PARSER_STATUS_PARSE_STRING ix ad = Some (-1, ad).
Proof.
  induction cs as [|c cs IH]; intros i ix ad Hq; [done|]. cbn [parse_loop parse_turn].
  destruct (Z.eqb_spec c QUOTE) as [->|_]; [set_solver|]. apply IH. set_solver.
Qed.

(** The status behind a parameter. *)
Definition after (a : arg) : parser_status :=
  match a with AStr _ => PARSER_STATUS_PARSE_STRING_END | AInt _ => PARSER_STATUS_PARSE_INT end.

Lemma parse_arg a cs i ix name ps : arg_ok a ->
  parse_loop (arg_text a ++ cs) i PARSER_STATUS_STARTPARSE ix (data name ps) =
  if (length ps <? 16)%nat
  then parse_loop cs (i + Z.of_nat (length (arg_text a))) (after a) ix (data name (ps ++ [AtParam (arg_type a) (Some i)]))
  else None.
Proof.
  destruct a as [s|ds]; intros Ha; cbn [arg_text arg_type after].
  - rewrite <-app_comm_cons. cbn [parse_loop parse_turn length]. rewrite Z.eqb_refl, add_param_data.
    destruct (length ps <? 16)%nat; [|done]. rewrite <-app_assoc. cbn [app]. rewrite parse_str by done. rewrite length_app. cbn [length].
    f_equal. lia.
  - destruct Ha as [Hne Hd]. destruct ds as [|c ds]; [done|]. apply list.Forall_cons in Hd as [Hc Hd]. apply Is_true_true in Hc.
    pose proof (digit_facts c Hc) as (H1 & _). apply Z.eqb_neq in H1. rewrite <-app_comm_cons.
    cbn [parse_loop parse_turn length]. rewrite H1, Hc, add_param_data. destruct (length ps <? 16)%nat; [|done].
    rewrite parse_int by done. f_equal. lia.
Qed.

Lemma after_comma a cs i ix ad : parse_loop (COMMA :: cs) i (after a) ix ad = parse_loop cs (i + 1) PARSER_STATUS_STARTPARSE ix ad.
Proof. by destruct a. Qed.
Lemma after_end a c cs i ix ad : is_end c = true -> parse_loop (c :: cs) i (after a) ix ad = Some (0, ad).
Proof.
  intros Hc. assert (H : c =? COMMA = false) by (unfold is_end, COMMA in *; lia).
  destruct a; cbn [parse_loop parse_turn after]; by rewrite H, Hc.
Qed.

Lemma args_text_cons a args : args <> [] -> args_text (a :: args) = arg_text a ++ COMMA :: args_text args.
Proof. by destruct args. Qed.

(** The parameters of a command are all recorded, or do not fit. *)
Lemma parse_args args : forall more i ix name ps, args <> [] -> Forall arg_ok args -> (length ps <= 16)%nat ->
  (more = [] \/ exists r, more = 13 :: r) ->
  parse_loop (args_text args ++ more ++ [0]) i PARSER_STATUS_STARTPARSE ix (data name ps) =
  if (length ps + length args <=? 16)%nat then Some (0, data name (ps ++ args_at i args)) else None.
Proof.
  induction args as [|a args IH]; intros more i ix name ps Hne Hok Hl Hm; [done|].
  apply list.Forall_cons in Hok as [Ha Hok]. cbn [args_at length]. destruct (decide (args = [])) as [->|Hne'].
  - cbn [args_text length args_at]. rewrite parse_arg by done.
    destruct (Nat.ltb_spec (length ps) 16); destruct (Nat.leb_spec (length ps + 1) 16); try lia; [|done].
    destruct Hm as [->|[r ->]]; cbn [app]; by rewrite after_end.
  - rewrite args_text_cons by done. rewrite <-app_assoc. cbn [app]. rewrite parse_arg by done.
    destruct (Nat.ltb_spec (length ps) 16) as [Hlt|Hge].
    + rewrite after_comma, IH by (done || rewrite length_app; cbn; lia). rewrite <-app_assoc, length_app. cbn [app length].
      by replace (length ps + 1 + length args)%nat with (length ps + S (length args))%nat by lia.
    + destruct (Nat.leb_spec (length ps + S (length args)) 16); [lia|done].
Qed.

(** A maximal run of digits. *)
Lemma digits_split (s : list Z) : exists ds rest, s = ds ++ rest /\ Forall is_digit ds /\
  match rest with [] => True | c :: _ => is_digit c = false end.
Proof.
  induction s as [|c s (ds & rest & -> & Hd & Hr)]; [by exists [], []|].
  destruct (is_digit c) eqn:Hc.
  - exists (c :: ds), rest. split; [done|]. split; [constructor; [by apply Is_true_true|done]|done].
  - exists [], (c :: ds ++ rest). by split_and!.
Qed.

(** A text begins with a parameter, when the parser gets beyond its first character. *)
Lemma arg_split s i ix name ps ad : 0 ∉ s ->
  parse_loop (s ++ [0]) i PARSER_STATUS_STARTPARSE ix (data name ps) = Some (0, ad) ->
  exists a rest, s = arg_text a ++ rest /\ arg_ok a /\
    match a, rest with AInt _, c :: _ => is_digit c = false | _, _ => True end.
Proof.
  intros Hz E. destruct s as [|c s]; [done|]. cbn [app parse_loop parse_turn] in E.
  destruct (Z.eqb_spec c QUOTE) as [->|Hq].
  - rewrite add_param_data in E. destruct (length ps <? 16)%nat; [|done].
    destruct (decide (QUOTE ∈ s)) as [Hin|Hin].
    + apply list_elem_of_split_l in Hin as (t & rest & -> & Ht). exists (AStr t), rest. split; [|by split].
      cbn. by rewrite <-app_assoc.
    + rewrite parse_str_open in E; [done|]. rewrite elem_of_app. intros [?|Hx]; [done|]. by apply list_elem_of_singleton in Hx.
  - destruct (is_digit c) eqn:Hc; [|done]. destruct (digits_split s) as (ds & rest & -> & Hd & Hr).
    exists (AInt (c :: ds)), rest. split; [done|]. split; [|by destruct rest].
    split; [done|]. constructor; [by apply Is_true_true|done].
Qed.

(** What is recorded are the parameters of the text. *)
Lemma parse_args_sound n : forall s i ix name ps ad, (length s < n)%nat -> 0 ∉ s -> (length ps <= 16)%nat ->
  parse_loop (s ++ [0]) i PARSER_STATUS_STARTPARSE ix (data name ps) = Some (0, ad) ->
  exists args more, s = args_text args ++ more /\ args <> [] /\ Forall arg_ok args /\
    (more = [] \/ exists r, more = 13 :: r) /\ (length ps + length args <= 16)%nat /\ ad = data name (ps ++ args_at i args).
Proof.
  induction n as [|n IH]; intros s i ix name ps ad Hn Hz Hl E; [lia|].
  destruct (arg_split s i ix name ps ad Hz E) as (a & rest & -> & Ha & Hr).
  rewrite <-app_assoc, parse_arg in E by done. destruct (Nat.ltb_spec (length ps) 16) as [Hlt|]; [|done].
  destruct rest as [|c rest].
  { cbn [app] in E. rewrite after_end in E by done. injection E as <-. exists [a], []. cbn. rewrite app_nil_r.
    split; [done|]. split; [done|]. split; [by repeat constructor|]. split; [by left|]. split; [lia|done]. }
  cbn [app] in E. destruct (Z.eqb_spec c COMMA) as [->|Hc].
  - rewrite after_comma in E. assert (Hz' : 0 ∉ rest) by set_solver. rewrite length_app in Hn. cbn in Hn.
    assert (Hl' : (length (ps ++ [AtParam (arg_type a) (Some i)]) <= 16)%nat) by (rewrite length_app; cbn; lia).
    destruct (IH rest _ ix name _ ad ltac:(lia) Hz' Hl' E) as (args & more & -> & Hne & Hok & Hm & Hle & ->).
    exists (a :: args), more. rewrite args_text_cons, <-app_assoc by done. split; [done|]. split; [done|].
    split; [by constructor|]. split; [done|]. rewrite length_app in Hle. cbn [length] in *. split; [lia|].
    by rewrite <-app_assoc.
  - assert (Hend : c = 13).
    { assert (c <> 0) by set_solver. apply Z.eqb_neq in Hc. destruct a as [t|ds]; cbn [parse_loop parse_turn after] in E;
        rewrite Hc in E; unfold is_end in E; destruct (Z.eqb_spec c 13); try done; destruct (Z.eqb_spec c 0); try done.
      cbn in E. by rewrite Hr in E. }
    subst c. rewrite after_end in E by done. injection E as <-. exists [a], (13 :: rest). cbn.
    split; [done|]. split; [done|]. split; [by repeat constructor|]. split; [right; eauto|]. split; [lia|done].
Qed.

Lemma cstring_nz s : 0 ∉ s -> cstring s = s.
Proof.
  induction s as [|c s IH]; intros Hz; [done|]. cbn. destruct (Z.eqb_spec c 0) as [->|]; [set_solver|].
  rewrite IH; [done|set_solver].
Qed.

(** Behind the prefix. *)
Lemma parse_prefix pre cs : pre = [65; 84; 43] \/ pre = [43] ->
  parse_loop (pre ++ cs) 0 PARSER_STATUS_INIT 0 ad0 = parse_loop cs (Z.of_nat (length pre)) PARSER_STATUS_RECV_PLUS 0 (data [] []).
Proof. by intros [-> | ->]. Qed.
Lemma parse_prefix_sound s ad : 0 ∉ s -> parse_loop (s ++ [0]) 0 PARSER_STATUS_INIT 0 ad0 = Some (0, ad) ->
  exists pre rest, s = pre ++ rest /\ (pre = [65; 84; 43] \/ pre = [43]).
Proof.
  intros Hz E. destruct s as [|c s]; [done|]. cbn [app parse_loop] in E. unfold parse_turn in E at 1.
  destruct (Z.eqb_spec c 65) as [->|H1]; [|destruct (Z.eqb_spec c 43) as [->|H2]; [|done]].
  2:{ exists [43], s. split; [done|by right]. }
  cbn in E. destruct s as [|c s]; [done|]. cbn [app parse_loop] in E. unfold parse_turn in E at 1.
  destruct (Z.eqb_spec c 84) as [->|]; [|done]. cbn in E. destruct s as [|c s]; [done|].
  cbn [app parse_loop] in E. unfold parse_turn in E at 1. destruct (Z.eqb_spec c 43) as [->|]; [|done].
  exists [65; 84; 43], s. split; [done|by left].
Qed.

(** A command is parsed, unless it has more parameters than there is room for. *)
Lemma parse_command pre s name args : 0 ∉ s -> command pre s name args ->
  parse_at_cmd_string s = if (length args <=? 16)%nat then Some (0, parsed pre name args) else None.
Proof.
  intros Hz (Hpre & Hu & Hl & Hok & rest & -> & He). unfold parse_at_cmd_string. rewrite cstring_nz by done.
  rewrite <-!app_assoc, parse_prefix by done. change 0 with (Z.of_nat (length (@nil Z))) at 2.
  rewrite parse_name by done. cbn [app]. destruct args as [|a args]; cbn [command_end] in He.
  - destruct He as [r ->]. cbn [app length]. change (parse_loop (13 :: r ++ [0]) ?i ?st ?ix ?ad) with
      (parse_loop (r ++ [0]) (i + 1) PARSER_STATUS_PARSE_END ix ad). by destruct r.
  - destruct He as (more & -> & Hm). rewrite <-app_comm_cons, <-app_assoc.
    change (parse_loop (61 :: ?cs) ?i ?st ?ix ?ad) with (parse_loop cs (i + 1) PARSER_STATUS_STARTPARSE ix ad).
    rewrite parse_args by (done || cbn; lia). cbn [length Nat.add]. unfold parsed.
    by replace (Z.of_nat (length pre + length name + 1)) with (Z.of_nat (length pre) + Z.of_nat (length name) + 1) by lia.
Qed.

(** Only commands are. *)
Lemma parse_command_sound s ad : 0 ∉ s -> parse_at_cmd_string s = Some (0, ad) ->
  exists pre name args, command pre s name args /\ (length args <= 16)%nat.
Proof.
  intros Hz E. unfold parse_at_cmd_string in E. rewrite cstring_nz in E by done.
  destruct (parse_prefix_sound s ad Hz E) as (pre & s1 & -> & Hpre).
  rewrite <-app_assoc, parse_prefix in E by done. assert (Hz1 : 0 ∉ s1) by set_solver.
  destruct (parse_name_sound s1 [] _ [] ad Hz1 ltac:(cbn; lia) E) as (name & rest & -> & Hu & Hl & Hr).
  destruct Hr as [[r ->]|[r ->]].
  - exists pre, name, []. split; [|cbn; lia]. split; [done|]. split; [done|]. split; [done|]. split; [constructor|].
    eexists. split; [done|]. by exists r.
  - rewrite <-app_assoc in E. change 0 with (Z.of_nat (length (@nil Z))) in E at 2. rewrite parse_name in E by done.
    cbn [app] in E. change (parse_loop (61 :: ?cs) ?i ?st ?ix ?ad) with (parse_loop cs (i + 1) PARSER_STATUS_STARTPARSE ix ad) in E.
    destruct (parse_args_sound (S (length r)) r _ _ _ [] ad ltac:(lia) ltac:(set_solver) ltac:(cbn; lia) E)
      as (args & more & -> & Hne & Hok & Hm & Hle & _).
    exists pre, name, args. split; [|done]. split; [done|]. split; [done|]. split; [done|]. split; [done|].
    eexists. split; [done|]. destruct args; [done|]. by exists more.
Qed.

(** C39. The strings the parser accepts, with the result 0, are exactly the commands with at most
    16 parameters: AT+NAME or +NAME, with a name of at most 14 capital letters, followed by a
    carriage return, or by = and a list of one or more parameters, digits or text in quotes, up
    to a carriage return or the end of the string. The result holds the name, the number of the
    parameters, their types and their positions. A command with more than 16 parameters makes the
    parser write behind the array of parameters. A command without parameters needs its carriage
    return, although a comment says that the end of the string is recognised ([at_without_cr]). *)
Theorem parse_at_cmd_string_spec s : 0 ∉ s ->
  (forall ad, parse_at_cmd_string s = Some (0, ad) <->
     exists pre name args, command pre s name args /\ (length args <= 16)%nat /\ ad = parsed pre name args) /\
  (forall pre name args, command pre s name args -> (16 < length args)%nat -> parse_at_cmd_string s = None).
Proof.
  intros Hz. split.
  - intros ad. split.
    + intros E. destruct (parse_command_sound s ad Hz E) as (pre & name & args & Hc & Hl). exists pre, name, args. split; [done|]. split; [done|].
      rewrite (parse_command _ _ _ _ Hz Hc), (proj2 (Nat.leb_le _ _) Hl) in E. congruence.
    + intros (pre & name & args & Hc & Hl & ->). by rewrite (parse_command _ _ _ _ Hz Hc), (proj2 (Nat.leb_le _ _) Hl).
  - intros pre name args Hc Hl. by rewrite (parse_command _ _ _ _ Hz Hc), (proj2 (Nat.leb_gt _ _) Hl).
Qed.

(** ** The parameters come back *)

(** The number that digits stand for. *)
Definition dec (ds : list Z) : Z := foldl (fun a c => 10 * a + (c - 48)) 0 ds.

Lemma args_at_lookup args : forall p more n a, Forall arg_ok args -> args !! n = Some a ->
  (more = [] \/ exists r, more = 13 :: r) ->
  exists j c tail, args_at (Z.of_nat (length p)) args !! n = Some (AtParam (arg_type a) (Some j)) /\
    drop (Z.to_nat j) (p ++ args_text args ++ more ++ [0]) = arg_text a ++ c :: tail /\ is_digit c = false.
Proof.
  induction args as [|b args IH]; intros p more n a Hok Ha Hm; [done|]. apply list.Forall_cons in Hok as [Hb Hok].
  destruct n as [|n].
  - injection Ha as ->.
    assert (Hd : exists c tail, args_text (a :: args) ++ more ++ [0] = arg_text a ++ c :: tail /\ is_digit c = false).
    { destruct (decide (args = [])) as [->|Hne].
      - destruct Hm as [->|[r ->]]; cbn [args_text app]; by eexists _, _.
      - rewrite args_text_cons, <-app_assoc by done. cbn [app]. by eexists _, _. }
    destruct Hd as (c & tail & Hd & Hc). exists (Z.of_nat (length p)), c, tail. split; [done|]. split; [|done].
    by rewrite Nat2Z.id, drop_app_length, Hd.
  - assert (Hne : args <> []) by (intros ->; done).
    destruct (IH (p ++ arg_text b ++ [COMMA]) more n a Hok Ha Hm) as (j & c & tail & H1 & H2 & Hc).
    exists j, c, tail. cbn [args_at lookup list_lookup]. rewrite !length_app in H1. cbn [length] in H1.
    rewrite args_text_cons by done. split.
    + rewrite <-H1. do 2 f_equal. lia.
    + split; [|done]. rewrite <-H2. f_equal. by rewrite <-!app_assoc.
Qed.

Lemma args_at_length args : forall i, length (args_at i args) = length args.
Proof. induction args as [|a args IH]; intros i; [done|]. cbn. by rewrite IH. Qed.

Lemma param_str_command pre s name args n a : 0 ∉ s -> command pre s name args -> args !! n = Some a ->
  exists c tail, param_str s (parsed pre name args) (Z.of_nat n) = Some (arg_text a ++ c :: tail) /\ is_digit c = false.
Proof.
  intros Hz (Hpre & Hu & Hl & Hok & rest & -> & He) Ha. destruct args as [|b args]; [done|]. destruct He as (more & -> & Hm).
  destruct (args_at_lookup (b :: args) (pre ++ name ++ [61]) more n a Hok Ha Hm) as (j & c & tail & H1 & H2 & Hc).
  exists c, tail. split; [|done]. unfold param_str, parsed, data. cbn [ad_param]. rewrite Nat2Z.id, cstring_nz by done.
  rewrite lookup_app_l by (rewrite args_at_length; by apply lookup_lt_Some in Ha).
  rewrite !length_app, Nat.add_assoc in H1. cbn [length] in H1. rewrite H1. cbn [mbind option_bind ap_pos].
  rewrite <-H2. do 2 f_equal. rewrite <-!app_assoc, <-app_comm_cons. by rewrite <-app_assoc.
Qed.

Lemma copy_digits_app n : forall ds c tail numstr, Forall is_digit ds -> is_digit c = false -> (n <= length numstr)%nat ->
  copy_digits n (ds ++ c :: tail) numstr = Some (take n ds ++ drop (length (take n ds)) numstr).
Proof.
  induction n as [|n IH]; intros ds c tail numstr Hd Hc Hn; [by destruct numstr|].
  destruct numstr as [|x numstr]; [cbn in Hn; lia|]. destruct ds as [|d ds]; cbn [copy_digits app take].
  - by rewrite Hc.
  - apply list.Forall_cons in Hd as [Hx Hd]. apply Is_true_true in Hx. rewrite Hx, IH by (done || cbn in Hn; lia). done.
Qed.

Lemma scan_digits_app ds : forall c rest acc, Forall is_digit ds -> is_digit c = false ->
  scan_digits (ds ++ c :: rest) acc = Some (foldl (fun a c => 10 * a + (c - 48)) acc ds).
Proof.
  induction ds as [|d ds IH]; intros c rest acc Hd Hc; cbn [app scan_digits foldl]; [by rewrite Hc|].
  apply list.Forall_cons in Hd as [Hx Hd]. apply Is_true_true in Hx. rewrite Hx. by apply IH.
Qed.

Lemma sscanf_digits ds c rest : ds <> [] -> Forall is_digit ds -> is_digit c = false ->
  sscanf_d (ds ++ c :: rest) = Some (Some (dec ds)).
Proof.
  destruct ds as [|d ds]; intros Hne Hd Hc; [done|]. pose proof Hd as Hd'. apply list.Forall_cons in Hd as [Hx _].
  apply Is_true_true in Hx. unfold sscanf_d. cbn [app skip_space].
  assert (E1 : is_space d = false) by (unfold is_space, is_digit in *; lia).
  assert (E2 : d =? 45 = false) by (unfold is_digit in *; lia). assert (E3 : d =? 43 = false) by (unfold is_digit in *; lia).
  rewrite E1, E2, E3, Hx. change (d :: ds ++ c :: rest) with ((d :: ds) ++ c :: rest). by rewrite scan_digits_app.
Qed.

Lemma copy_string_app t : forall tail j out, QUOTE ∉ t -> (j + length t < length out)%nat ->
  copy_string (t ++ QUOTE :: tail) j out = Some (take j out ++ t ++ 0 :: drop (S (j + length t)) out).
Proof.
  induction t as [|c t IH]; intros tail j out Hq Hl; cbn [app copy_string].
  - rewrite Z.eqb_refl. cbn in Hl. destruct (Nat.ltb_spec j (length out)); [|lia].
    cbn [length]. rewrite Nat.add_0_r. by rewrite insert_take_drop by lia.
  - destruct (Z.eqb_spec c QUOTE) as [->|_]; [set_solver|]. cbn in Hl. destruct (Nat.ltb_spec j (length out)); [|lia].
    rewrite IH by (set_solver || rewrite length_insert; lia). f_equal. rewrite insert_take_drop by lia.
    rewrite take_app_ge, length_take by (rewrite length_take; lia). rewrite (Nat.min_l j) by lia.
    replace (S j - j)%nat with 1%nat by lia. cbn [take]. rewrite take_0, <-app_assoc. cbn [app].
    rewrite drop_app_ge, length_take by (rewrite length_take; lia). rewrite (Nat.min_l j) by lia.
    replace (S (S j + length t) - j)%nat with (S (S (length t))) by lia. cbn [drop]. rewrite drop_drop. cbn [length].
    by do 5 f_equal.
Qed.

Lemma cstring_quoted t c tail : 0 ∉ t -> exists tail', cstring (QUOTE :: t ++ QUOTE :: c :: tail) = QUOTE :: t ++ QUOTE :: tail'.
Proof.
  intros Hz. cbn [cstring Z.eqb]. change (QUOTE =? 0) with false. cbv iota.
  induction t as [|x t IH].
  - cbn [app cstring]. change (QUOTE =? 0) with false. by eexists.
  - cbn [app cstring]. destruct (Z.eqb_spec x 0) as [->|]; [set_solver|].
    destruct IH as [tail' E]; [set_solver|]. exists tail'. injection E as E. by rewrite E.
Qed.

Lemma in_args_text args : forall n a x, args !! n = Some a -> x ∈ arg_text a -> x ∈ args_text args.
Proof.
  induction args as [|b args IH]; intros n a x Ha Hx; [done|]. destruct n as [|n].
  - injection Ha as ->. destruct (decide (args = [])) as [->|Hne]; [done|]. rewrite args_text_cons by done. set_solver.
  - rewrite args_text_cons by (intros ->; done). specialize (IH n a x Ha Hx). set_solver.
Qed.

(** The parameters of a command come back: when a command with at most 16 parameters has
    been parsed, [get_at_param_string] of a text stores exactly its characters and a zero
    into a buffer that is longer than it, and [get_at_param_int] of digits gives the number
    that the first seven of them stand for, provided that the byte behind them in the local
    array, which the code means to clear, is not a digit. *)
Theorem at_param_roundtrip pre s name args n :
  0 ∉ s -> command pre s name args -> (length args <= 16)%nat ->
  exists ad, parse_at_cmd_string s = Some (0, ad) /\
    (forall t out, args !! n = Some (AStr t) -> (length t < length out)%nat ->
       get_at_param_string s ad (Z.of_nat n) out = Some (true, t ++ 0 :: drop (S (length t)) out)) /\
    (forall ds numstr ret c, args !! n = Some (AInt ds) -> length numstr = 8%nat ->
       numstr !! length (take 7 ds) = Some c -> is_digit c = false ->
       get_at_param_int s ad (Z.of_nat n) numstr ret = Some (dec (take 7 ds))).
Proof.
  intros Hz Hcmd Hl. exists (parsed pre name args). split.
  { rewrite (parse_command pre s name args Hz Hcmd). by destruct (Nat.leb_spec (length args) 16); [|lia]. }
  pose proof Hcmd as (_ & _ & _ & Hok & _). rewrite list.Forall_forall in Hok. split.
  - intros t out Ha Ho. destruct (param_str_command pre s name args n _ Hz Hcmd Ha) as (c & tail & E & _).
    assert (Hq : arg_ok (AStr t)) by (apply Hok; by eapply list_elem_of_lookup_2). cbn in Hq.
    unfold get_at_param_string. rewrite E. cbn [mbind option_bind arg_text]. rewrite <-app_comm_cons, <-app_assoc. cbn [app].
    destruct (cstring_quoted t c tail) as [tail' ->].
    { destruct Hcmd as (_ & _ & _ & _ & rest & -> & He). destruct args as [|b args]; [done|]. destruct He as (more & -> & _).
      intros H0. apply Hz. pose proof (in_args_text (b :: args) n (AStr t) 0 Ha) as Hin. cbn in Hin. set_solver. }
    rewrite Z.eqb_refl, copy_string_app by done. done.
  - intros ds numstr ret c Ha H8 Hc Hnd. destruct (param_str_command pre s name args n _ Hz Hcmd Ha) as (x & tail & E & Hx).
    assert (Hq : arg_ok (AInt ds)) by (apply Hok; by eapply list_elem_of_lookup_2). destruct Hq as [Hne Hd].
    unfold get_at_param_int. rewrite E. cbn [mbind option_bind arg_text]. rewrite copy_digits_app by (done || lia).
    cbn [mbind option_bind]. rewrite (drop_S _ _ _ Hc), sscanf_digits; [done|by destruct ds|by apply Forall_take|done].
Qed.

(** ** Examples *)

(** AT+CMGS=12,"ok" with a carriage return. *)
Definition cmgs : list Z := [65; 84; 43; 67; 77; 71; 83; 61; 49; 50; 44; 34; 111; 107; 34; 13].
Lemma cmgs_command : command [65; 84; 43] cmgs [67; 77; 71; 83] [AInt [49; 50]; AStr [111; 107]].
Proof.
  split; [by left|]. split; [repeat constructor|]. split; [cbn; lia|]. split.
  { constructor; [split; [done|repeat constructor]|]. constructor; [|constructor]. cbn. set_solver by lia. }
  eexists. split; [reflexivity|]. exists [13]. split; [reflexivity|]. right. by exists [].
Qed.
Lemma cmgs_nz : 0 ∉ cmgs.
Proof. apply (bool_decide_eq_true_1 (0 ∉ cmgs)). reflexivity. Qed.

Lemma parse_at_cmd_string_spec_witness :
  parse_at_cmd_string cmgs =
    Some (0, parsed [65; 84; 43] [67; 77; 71; 83] [AInt [49; 50]; AStr [111; 107]]).
Proof. apply (proj1 (parse_at_cmd_string_spec cmgs cmgs_nz)). exists [65; 84; 43], [67; 77; 71; 83], [AInt [49; 50]; AStr [111; 107]]. split; [exact cmgs_command|]. split; [vm_compute; lia|reflexivity]. Defined.

Lemma at_param_roundtrip_witness : exists ad, parse_at_cmd_string cmgs = Some (0, ad) /\
  get_at_param_string cmgs ad 1 [9; 9; 9; 9] = Some (true, [111; 107; 0; 9]) /\
  get_at_param_int cmgs ad 0 (replicate 8 0) 0 = Some 12.
Proof.
  destruct (at_param_roundtrip _ cmgs _ _ 1 cmgs_nz cmgs_command ltac:(cbn; lia)) as (ad & E & Hs & _).
  destruct (at_param_roundtrip _ cmgs _ _ 0 cmgs_nz cmgs_command ltac:(cbn; lia)) as (ad' & E' & _ & Hi).
  exists ad. split; [exact E|]. split; [exact (Hs [111; 107] [9; 9; 9; 9] eq_refl ltac:(cbn; lia))|].
  rewrite E in E'. injection E' as ->. exact (Hi [49; 50] (replicate 8 0) 0 0 eq_refl eq_refl eq_refl eq_refl).
Defined.

(** AT+CSQ that ends with the string, and not with a carriage return, is refused: the zero
    sets the status to the end of the command, and the loop is over. *)
Example at_without_cr : fst <$> parse_at_cmd_string [65; 84; 43; 67; 83; 81] = Some (-1) /\
  fst <$> parse_at_cmd_string [65; 84; 43; 67; 83; 81; 13] = Some 0.
Proof. split; reflexivity. Qed.

(** A digit that the local array of [get_at_param_int] held before becomes part of the
    number: 12 is read as 129. *)
Example at_int_garbage :
  (r ← parse_at_cmd_string cmgs; get_at_param_int cmgs r.2 0 [0; 0; 57; 0; 0; 0; 0; 0] 0) = Some 129.
Proof. reflexivity. Qed.

(** The size of the buffer is not looked at. *)
Example at_string_overrun :
  (r ← parse_at_cmd_string cmgs; get_at_param_string cmgs r.2 1 [0; 0]) = None.
Proof. reflexivity. Qed.

(** The seventeenth parameter is written behind the array. *)
Example at_params_overrun :
  parse_at_cmd_string ([43; 65; 61] ++ concat (replicate 16 [49; 44]) ++ [49]) = None.
Proof. reflexivity. Qed.
