(* ===== verification/Board.v ===== *)
(** * A small system

    An executable check of the kernel invariant, with its soundness, and a system
    brought up by the kernel's own initialisation: an idle thread, three threads and
    one object of each kind.  The theorems of the other files are applied to it. *)
From S2P Require Import Prelude KService RtList Kernel Object Scheduler Timer Thread Frame Clock Ipc.
From S2P Require Import Sem MutexLock EventSet Mailbox MsgQueue Mempool.

(** ** The invariant as a test *)

#[export] Instance timeout_fn_eq_dec : EqDecision timeout_fn.
Proof. solve_decision. Defined.
#[export] Instance thread_wf_dec th : Decision (thread_wf th).
Proof. unfold thread_wf. apply _. Defined.
#[export] Instance home_ok_dec h th : Decision (home_ok h th).
Proof. destruct h; simpl; apply _. Defined.

Definition homes_check (k : kstate) : bool :=
  forallb (fun p : lhead * list Z =>
    forallb (fun t => match k_threads k !! t with
                      | Some th => bool_decide (home_ok p.1 th) | None => false end) p.2)
    (map_to_list (k_queues k)).
Definition group_check (k : kstate) : bool :=
  (0 <=? k_group k) && (k_group k <? 4294967296) &&
  forallb (fun p => Bool.eqb (Z.testbit (k_group k) p)
                      (match queue k (LReady p) with [] => false | _ => true end)) (seqZ 0 32).
Definition threads_check (k : kstate) : bool :=
  forallb (fun p : Z * rt_thread => bool_decide (thread_wf p.2) &&
      (negb (th_stat p.2 =? RT_THREAD_READY) ||
       bool_decide (p.1 ∈ queue k (LReady (th_current_priority p.2)))))
    (map_to_list (k_threads k)).
Definition sched_check (k : kstate) : bool :=
  homes_check k && bool_decide (NoDup (concat ((map_to_list (k_queues k)).*2))) &&
  group_check k && threads_check k.

Lemma queue_listed k h t : t ∈ queue k h -> exists l, (h, l) ∈ map_to_list (k_queues k) /\ queue k h = l /\ t ∈ l.
Proof.
  unfold queue. intros H. destruct (k_queues k !! h) as [l|] eqn:E; simpl in *; [|by apply not_elem_of_nil in H].
  exists l. split_and!; [by apply elem_of_map_to_list|done|done].
Qed.

(** Lists whose concatenation has no duplicates share no element. *)
Lemma concat_nodup {A B} (ps : list (A * list B)) :
  NoDup (concat (ps.*2)) -> NoDup (ps.*1) ->
  (forall a l, (a, l) ∈ ps -> NoDup l) /\
  (forall a l a' l' x, (a, l) ∈ ps -> (a', l') ∈ ps -> x ∈ l -> x ∈ l' -> a = a').
Proof.
  induction ps as [|[a l] ps IH]; simpl; intros H Hk.
  { split; [intros ? ? Hin|intros ? ? ? ? ? Hin]; by apply not_elem_of_nil in Hin. }
  apply list.NoDup_app in H as (Hl & Hd & Hr). apply list.NoDup_cons in Hk as [_ Hk].
  destruct (IH Hr Hk) as [I1 I2].
  assert (Hc : forall b m x, (b, m) ∈ ps -> x ∈ m -> x ∈ concat (ps.*2)).
  { intros b m x Hb Hx. apply list_elem_of_In, in_concat. exists m. split; [|by apply list_elem_of_In].
    apply list_elem_of_In, list_elem_of_fmap. by exists (b, m). }
  split.
  - intros b m Hb. apply elem_of_cons in Hb as [[= -> ->]|Hb]; [done|by eapply I1].
  - intros b m b' m' x Hb Hb' Hx Hx'.
    apply elem_of_cons in Hb as [[= -> ->]|Hb]; apply elem_of_cons in Hb' as [[= -> ->]|Hb'].
    + done.
    + by destruct (Hd x Hx (Hc _ _ _ Hb' Hx')).
    + by destruct (Hd x Hx' (Hc _ _ _ Hb Hx)).
    + by eapply I2.
Qed.

Lemma sched_check_sound k : sched_check k = true -> sched_wf k.
Proof.
  unfold sched_check. intros H. repeat apply andb_true_iff in H as [H ?].
  rename H into Hh, H0 into Ht, H1 into Hg, H2 into Hn.
  apply bool_decide_eq_true in Hn.
  destruct (concat_nodup _ Hn (NoDup_fst_map_to_list _)) as [N1 N2].
  unfold homes_check in Hh. rewrite forallb_forall in Hh.
  unfold threads_check in Ht. rewrite forallb_forall in Ht.
  unfold group_check in Hg. repeat apply andb_true_iff in Hg as [Hg ?].
  apply Z.leb_le in Hg. apply Z.ltb_lt in H0. rewrite forallb_forall in H.
  assert (Hth : forall t th, k_threads k !! t = Some th -> thread_wf th /\
    (th_stat th = RT_THREAD_READY -> t ∈ queue k (LReady (th_current_priority th)))).
  { intros t th E.
    assert (Hi : In (t, th) (map_to_list (k_threads k))) by by apply list_elem_of_In, elem_of_map_to_list.
    specialize (Ht _ Hi). simpl in Ht. apply andb_true_iff in Ht as [Hw Hr].
    split; [by apply bool_decide_eq_true in Hw|]. intros Es. rewrite Es in Hr. simpl in Hr.
    by apply bool_decide_eq_true in Hr. }
  split.
  - intros h t Hq. destruct (queue_listed _ _ _ Hq) as (l & Hl & _ & Htl).
    apply list_elem_of_In in Hl. specialize (Hh _ Hl). rewrite forallb_forall in Hh.
    apply list_elem_of_In in Htl. specialize (Hh _ Htl). simpl in Hh.
    destruct (k_threads k !! t) as [th|]; [|done].
    exists th. split; [done|]. by apply bool_decide_eq_true in Hh.
  - intros h. unfold queue. destruct (k_queues k !! h) as [l|] eqn:E; simpl; [|constructor].
    eapply N1. by apply elem_of_map_to_list.
  - intros h1 h2 t Q1 Q2. destruct (queue_listed _ _ _ Q1) as (l1 & ? & _ & ?).
    destruct (queue_listed _ _ _ Q2) as (l2 & ? & _ & ?). by eapply N2.
  - intros t th E. by apply Hth.
  - split; [lia|]. intros p Hp. assert (Hi : In p (seqZ 0 32)) by (apply list_elem_of_In, elem_of_seqZ; plia).
    specialize (H _ Hi). apply Bool.eqb_prop in H. rewrite H.
    destruct (queue k (LReady p)); naive_solver.
  - intros t th E. by eapply Hth.
Qed.

Fixpoint sorted_check (tms : gmap tmid rt_timer) (now : Z) (l : list tmid) : bool :=
  match l with
  | [] => true
  | t :: l' =>
      forallb (fun t' => match tms !! t, tms !! t' with
                         | Some tm, Some tm' => delta now tm <=? delta now tm' | _, _ => true end) l' &&
      sorted_check tms now l'
  end.
Definition timer_ok_check (x : tmid) (tm : rt_timer) : bool :=
  (negb (tm_periodic tm) || ((1 <=? tm_init_tick tm) && (tm_init_tick tm <? RT_TICK_HALF))) &&
  match x, tm_func tm with TmUser _, rt_thread_timeout_fn _ => false | _, _ => true end.
Definition thread_timer_check (k : kstate) (t : Z) (th : rt_thread) : bool :=
  match k_timers k !! TmThread t with
  | Some tm => bool_decide (tm_func tm = rt_thread_timeout_fn t) && negb (tm_periodic tm) &&
      (0 <=? tm_flag tm) && (tm_flag tm <? 256) &&
      (negb (tm_active tm) || (th_stat th =? RT_THREAD_CLOSE) || bool_decide (TmThread t ∈ k_timer_list k))
  | None => false
  end.
Definition listed_check (b bd : Z) (k : kstate) (x : tmid) : bool :=
  match k_timers k !! x with
  | Some tm => tm_active tm && (delta b tm <? bd) &&
      match x with
      | TmThread t => match k_threads k !! t with
                      | Some th => th_stat th =? RT_THREAD_SUSPEND | None => false end
      | TmUser _ => true
      end
  | None => false
  end.
Definition timer_check (b bd : Z) (k : kstate) : bool :=
  (0 <=? k_tick k) && (k_tick k <? 4294967296) && bool_decide (NoDup (k_timer_list k)) &&
  forallb (listed_check b bd k) (k_timer_list k) &&
  sorted_check (k_timers k) b (k_timer_list k) &&
  forallb (fun p => thread_timer_check k p.1 p.2) (map_to_list (k_threads k)) &&
  forallb (fun p => timer_ok_check p.1 p.2) (map_to_list (k_timers k)).

Lemma sorted_check_sound tms now l : sorted_check tms now l = true -> timers_sorted tms now l.
Proof.
  induction l as [|t l IH]; [done|]. simpl. intros H. apply andb_true_iff in H as [Ha Hb].
  split; [|by apply IH]. intros t' tm tm' Ht' E E'. rewrite forallb_forall in Ha.
  apply list_elem_of_In in Ht'. specialize (Ha _ Ht'). rewrite E, E' in Ha. by apply Z.leb_le.
Qed.

Lemma timer_check_sound b bd k : timer_check b bd k = true -> timer_wf_at b bd k.
Proof.
  unfold timer_check. intros H. repeat apply andb_true_iff in H as [H ?].
  rename H into T0, H0 into Hok, H1 into Hth, H2 into Hs, H3 into Hl, H4 into Hn, H5 into T1.
  apply Z.leb_le in T0. apply Z.ltb_lt in T1. apply bool_decide_eq_true in Hn.
  rewrite forallb_forall in Hok, Hth, Hl.
  assert (Hl' : forall x, x ∈ k_timer_list k -> listed_check b bd k x = true)
    by (intros x Hx; by apply Hl, list_elem_of_In).
  assert (Hth' : forall t th, k_threads k !! t = Some th -> thread_timer_check k t th = true)
    by (intros t th E; apply (Hth (t, th)); by apply list_elem_of_In, elem_of_map_to_list).
  assert (Hok' : forall x tm, k_timers k !! x = Some tm -> timer_ok_check x tm = true)
    by (intros x tm E; apply (Hok (x, tm)); by apply list_elem_of_In, elem_of_map_to_list).
  clear Hok Hth Hl. split; [lia|done| |by apply sorted_check_sound| | | |].
  - intros t Ht. specialize (Hl' _ Ht). unfold listed_check in Hl'.
    destruct (k_timers k !! t) as [tm|]; [|done]. exists tm.
    repeat apply andb_true_iff in Hl' as [Hl' ?]. by rewrite <- Z.ltb_lt.
  - intros t th E. specialize (Hth' _ _ E). unfold thread_timer_check in Hth'.
    destruct (k_timers k !! TmThread t) as [tm|]; [|done]. exists tm.
    repeat apply andb_true_iff in Hth' as [Hth' ?]. apply bool_decide_eq_true in Hth'.
    split_and!; [done|done|by apply negb_true_iff|by apply Z.leb_le|by apply Z.ltb_lt].
  - intros t Ht. specialize (Hl' _ Ht). unfold listed_check in Hl'.
    destruct (k_timers k !! TmThread t) as [tm|]; [|done].
    apply andb_true_iff in Hl' as [_ Hl']. destruct (k_threads k !! t) as [th|]; [|done].
    exists th. split; [done|]. by apply Z.eqb_eq.
  - intros t th tm E Em Hc Ha. specialize (Hth' _ _ E). unfold thread_timer_check in Hth'.
    rewrite Em in Hth'. apply andb_true_iff in Hth' as [_ Hth']. rewrite Ha in Hth'.
    apply Z.eqb_neq in Hc. rewrite Hc in Hth'. by apply bool_decide_eq_true in Hth'.
  - intros x tm E. specialize (Hok' _ _ E). unfold timer_ok_check in Hok'.
    apply andb_true_iff in Hok' as [Hp Hf]. split.
    + intros Ep. rewrite Ep in Hp. simpl in Hp. apply andb_true_iff in Hp as [? ?].
      split; [by apply Z.leb_le|by apply Z.ltb_lt].
    + intros a t -> Ef. by rewrite Ef in Hf.
Qed.

Definition readyb (k : kstate) (t : Z) : bool :=
  match k_threads k !! t with Some th => th_stat th =? RT_THREAD_READY | None => false end.
Definition core_check (b bd idle : Z) (k : kstate) : bool :=
  sched_check k && timer_check b bd k && readyb k idle &&
  match k_current k with Some c => readyb k c | None => false end.

Lemma readyb_sound k t : readyb k t = true -> exists th, is_ready k t th.
Proof.
  unfold readyb, is_ready. destruct (k_threads k !! t) as [th|]; [|done].
  intros H. exists th. split; [done|]. by apply Z.eqb_eq.
Qed.

(** A state that passes the check satisfies the invariant of the kernel core. *)
Lemma core_check_sound b bd idle k : core_check b bd idle k = true -> core b bd idle k.
Proof.
  unfold core_check. rewrite !andb_true_iff. intros [[[Hs Ht] Hi] Hc].
  destruct (k_current k) as [c|] eqn:Ec; [|done].
  destruct (readyb_sound _ _ Hc) as (th & Hth). split.
  - split; [|by apply readyb_sound|rewrite Ec; by eexists].
    split; [by apply sched_check_sound|by apply timer_check_sound].
  - by exists c, th.
Qed.

(** ** The system *)

(** "tidle" and the like, as C strings. *)
Definition cstr (s : string) : list Z :=
  ((fun c => Z.of_N (Ascii.N_of_ascii c)) <$> String.list_ascii_of_string s) ++ [0].

Definition kernel0 : kstate :=
  KState ∅ ∅ 0 None 0 0 0 0 ∅ [] 0 ∅ ∅ ∅ ∅ ∅ ∅ ∅ ∅ ∅ ∅ ∅ ∅ ∅ 0.
Definition thread0 : rt_thread := Thread 0 0 0 0 0 0 0 0 0 0 0 0 0 None 0.

(** Creates and starts a thread at address [t]. *)
Definition spawn (t : Z) (name : string) (prio tick : Z) : M unit :=
  rt_thread_init t thread0 (cstr name) 0 0 (t + 256) 512 prio tick;;
  rt_thread_startup t;; mret tt.

(** The idle thread is 1000; 2000 and 3000 share a priority, 4000 is more urgent. *)
Definition boot : M unit :=
  rt_system_timer_init;; rt_system_scheduler_init;;
  rt_sem_init 10 (cstr "sem") 1 RT_IPC_FLAG_FIFO;;
  rt_mutex_init 20 (cstr "lock") RT_IPC_FLAG_PRIO;;
  rt_event_init 30 (cstr "event") RT_IPC_FLAG_FIFO;;
  rt_mb_init 40 (cstr "mbox") 400 (replicate 2 0) 2 RT_IPC_FLAG_FIFO;;
  rt_mq_init 50 (cstr "mq") 6000 8 24 RT_IPC_FLAG_FIFO
    (<[6000 := replicate 8 0]> (<[6012 := replicate 8 0]> ∅));;
  spawn 1000 "tidle" 31 32;; spawn 2000 "a" 10 20;; spawn 3000 "b" 10 20;;
  rt_system_scheduler_start.

(** The state a run leads to. *)
Definition run {A} (m : M A) (k : kstate) : kstate :=
  match m k with Some (_, k') => k' | None => kernel0 end.
Definition board : kstate := run boot kernel0.

Lemma board_core : core (k_tick board) RT_TICK_HALF 1000 board.
Proof. apply core_check_sound. vm_compute. reflexivity. Qed.
#[local] Opaque board.

(** ** Facts of concrete states *)

Definition th_of (k : kstate) (t : Z) : rt_thread := default thread0 (k_threads k !! t).

Lemma threads_forall (P : Z -> rt_thread -> bool) k :
  forallb (fun p => P p.1 p.2) (map_to_list (k_threads k)) = true ->
  forall t th, k_threads k !! t = Some th -> P t th = true.
Proof.
  rewrite forallb_forall. intros H t th E. apply (H (t, th)).
  by apply list_elem_of_In, elem_of_map_to_list.
Qed.

Lemma top_priority k p :
  forallb (fun x : Z * rt_thread => negb (th_stat x.2 =? RT_THREAD_READY) || (p <=? th_current_priority x.2))
    (map_to_list (k_threads k)) = true ->
  forall t th, is_ready k t th -> p <= th_current_priority th.
Proof.
  intros H t th [E Es]. pose proof (threads_forall (fun _ th => negb (th_stat th =? RT_THREAD_READY) ||
    (p <=? th_current_priority th)) k H t th E) as Hp. simpl in Hp. rewrite Es in Hp. by apply Z.leb_le.
Qed.

(** Evaluates a closed statement. *)
Ltac by_eval := vm_compute; first [reflexivity | discriminate | done].
Ltac ready_eval := split; vm_compute; reflexivity.
Ltac core_eval := apply core_check_sound; vm_compute; reflexivity.
Ltac may_block_eval :=
  unfold may_block, startable; split; [discriminate|]; repeat split; intros; vm_compute; first [reflexivity | done].

(** *** States on the way *)

(** The thread 2000 has taken the only token, or the lock; the lock is then asked for
    by the thread 3000. *)
Definition board_sem : kstate := run (rt_sem_take 10 0) board.
Definition board_own : kstate := run (rt_mutex_take 20 0) board.
Definition board_lock : kstate := run (rt_mutex_take 20 0;; rt_thread_yield) board.
(** The thread 2000 waits for one of the events 1 and 2, then 3000 runs. *)
Definition board_event : kstate := run (rt_event_recv 30 3 RT_EVENT_FLAG_OR (-1)) board.
(** The mailbox is full. *)
Definition board_full : kstate := run (rt_mb_send 40 7;; rt_mb_send 40 8) board.
(** A message is queued. *)
Definition board_msg : kstate := run (rt_mq_send 50 [1; 2; 3]) board.
(** A periodic timer of the application. *)
Definition board_timer : kstate :=
  run (rt_timer_init (TmUser 70) (cstr "led") (user_timeout_fn 1 2) 5 RT_TIMER_FLAG_PERIODIC) board.
(** A memory pool with two blocks of 8 bytes, one of them or both in use. *)
Definition board_mp : kstate :=
  run (rt_mp_init 80 (cstr "pool") 9000 24 8;; rt_mp_alloc 80 0) board.
Definition board_mp2 : kstate := run (rt_mp_alloc 80 0) board_mp.
#[local] Opaque board_mp board_mp2 board_sem board_own board_lock board_event board_full board_msg board_timer.

Lemma sems_eval k s : k_sems k = {[10 := s]} -> sem_ok k 10 s -> sems_ok k.
Proof. intros E H a s' Ha. rewrite E in Ha. by apply lookup_singleton_Some in Ha as [<- <-]. Qed.
Lemma mutexes_eval k m : k_mutexes k = {[20 := m]} -> mutex_ok k 20 m -> mutexes_ok k.
Proof. intros E H a s' Ha. rewrite E in Ha. by apply lookup_singleton_Some in Ha as [<- <-]. Qed.
Lemma events_eval k e : k_events k = {[30 := e]} -> event_ok k 30 e -> events_ok k.
Proof. intros E H a s' Ha. rewrite E in Ha. by apply lookup_singleton_Some in Ha as [<- <-]. Qed.
Lemma mbs_eval k b : k_mbs k = {[40 := b]} -> ring_ok b -> mbs_ok k.
Proof. intros E H a s' Ha. rewrite E in Ha. by apply lookup_singleton_Some in Ha as [<- <-]. Qed.
Lemma mqs_eval k q l : k_mqs k = {[50 := q]} -> mq_abs q l -> mqs_ok k.
Proof. intros E H a s' Ha. rewrite E in Ha. apply lookup_singleton_Some in Ha as [<- <-]. by exists l. Qed.

(** ** The theorems at work *)

Lemma rt_schedule_highest_witness :
  exists k' t th, rt_schedule board = Some (tt, k') /\ k_current k' = Some t /\ is_ready k' t th.
Proof.
  destruct (rt_schedule_highest board 2000) as (k' & t & th & l & H1 & _ & H2 & H3 & _).
  - exact (proj1 (c_inv (c_core0 board_core))).
  - by_eval.
  - by_eval.
  - exists 2000, (th_of board 2000). ready_eval.
  - exists k', t, th. exact (conj H1 (conj H2 H3)).
Defined.

Lemma rt_timer_start_ordered_witness :
  exists k', rt_timer_start (TmUser 70) board_timer = Some (- RT_EOK, k') /\ timer_wf k'.
Proof.
  destruct (rt_timer_start_ordered board_timer (TmUser 70) (default (Timer 0 (user_timeout_fn 0 0) 0 0)
    (k_timers board_timer !! TmUser 70))) as (k' & l1 & l2 & tm' & H1 & H2 & _).
  - apply timer_check_sound. vm_compute. reflexivity.
  - by_eval.
  - by_eval.
  - vm_compute. split; [discriminate|reflexivity].
  - intros u Hu. discriminate Hu.
  - exists k'. exact (conj H1 H2).
Defined.

Lemma rt_timer_start_stop_witness :
  exists r k1 k2, rt_timer_start (TmUser 70) board_timer = Some (r, k1) /\
    rt_timer_stop (TmUser 70) k1 = Some (RT_EOK, k2).
Proof.
  assert (Hs : match rt_timer_start (TmUser 70) board_timer with Some _ => true | None => false end = true)
    by by_eval.
  destruct (rt_timer_start (TmUser 70) board_timer) as [[r k1]|] eqn:E; [clear Hs|discriminate Hs].
  destruct (rt_timer_start_stop board_timer (TmUser 70) (default (Timer 0 (user_timeout_fn 0 0) 0 0)
    (k_timers board_timer !! TmUser 70)) k1 r) as (k2 & H & _).
  - apply timer_check_sound. vm_compute. reflexivity.
  - by_eval.
  - by_eval.
  - vm_compute. split; [discriminate|reflexivity].
  - exact E.
  - exists r, k1, k2. exact (conj eq_refl H).
Defined.

Lemma rt_thread_yield_round_robin_witness :
  exists k', rt_thread_yield board = Some (RT_EOK, k') /\ k_current k' = Some 3000.
Proof.
  destruct (rt_thread_yield_round_robin _ _ _ board 2000 (th_of board 2000) 3000 [] board_core)
    as (k' & H1 & _ & H2 & _).
  - by_eval.
  - ready_eval.
  - by_eval.
  - by_eval.
  - apply top_priority. vm_compute. reflexivity.
  - exists k'. exact (conj H1 H2).
Defined.

(** Timeout functions that do nothing. *)
Definition idle_cb (f p : Z) : M unit := mret tt.
Lemma idle_cb_ok : cb_ok idle_cb.
Proof.
  intros b bd idle f p k H. exists k. split_and!; [done|done|]. split; try done.
  - intros t th Ht. by exists th.
  - intros t Ht. by left.
Qed.
Lemma idle_cb_quiet t : cb_quiet idle_cb t.
Proof. intros f p k k' [= <-]. done. Qed.

Lemma SysTick_Handler_ok_witness :
  exists k', SysTick_Handler idle_cb board = Some (tt, k') /\ k_tick k' = 1.
Proof.
  destruct (SysTick_Handler_ok idle_cb 1000 board idle_cb_ok board_core) as (k' & H1 & _ & H2).
  exists k'. split; [exact H1|]. rewrite (ti_tick _ _ _ H2). by_eval.
Defined.

Lemma rt_thread_sleep_duration_witness :
  exists k1 k3, rt_thread_sleep 10 board = Some (Wait FSleep, k1) /\ ticks idle_cb 10 k1 = Some (tt, k3) /\
    k_threads k3 !! 2000 = Some (woken (set_th_stat RT_THREAD_SUSPEND (th_of board 2000))).
Proof.
  destruct (rt_thread_sleep_duration idle_cb 1000 board 2000 (th_of board 2000) 10 idle_cb_ok
    (idle_cb_quiet 2000) board_core) as (k1 & H1 & _ & _ & k3 & k4 & H2 & H3 & _).
  - by_eval.
  - ready_eval.
  - discriminate.
  - by_eval.
  - vm_compute. split; [discriminate|reflexivity].
  - exists k1, k3. exact (conj H1 (conj H2 H3)).
Defined.

Lemma rt_tick_from_millisecond_ceil_witness : rt_tick_from_millisecond 15 = 2 /\
  15 * RT_TICK_PER_SECOND <= rt_tick_from_millisecond 15 * 1000.
Proof.
  split; [by_eval|]. apply (rt_tick_from_millisecond_ceil 15). lia.
Defined.

Lemma rt_sem_take_refines_witness :
  exists k' c', rt_sem_take 10 5 board_sem = Some (Wait FSemTake, k') /\
    sem_abs k' 10 = Some c' /\ 2000 ∈ cs_waiters c'.
Proof.
  destruct (rt_sem_take_refines 1000 10 (Sem 0 0) 5 board_sem 2000 (th_of board_sem 2000))
    as (r & k' & c & c' & o & H1 & _ & _ & H2 & H3 & H4 & H5).
  - core_eval.
  - eapply sems_eval; [by_eval|]. split; [simpl; lia|]. split; [by left|]. simpl. lia.
  - by_eval.
  - ready_eval.
  - by_eval.
  - intros _ _. may_block_eval.
  - assert (Hc : c = CSem 0 []) by (revert H2; vm_compute; congruence). subst c.
    inversion H4; subst; [lia|discriminate|]. destruct H5 as (-> & _).
    eexists k', _. split; [exact H1|]. split; [exact H3|]. apply elem_of_app. right. left.
Defined.

Lemma rt_sem_release_refines_witness :
  exists k', rt_sem_release 10 board_sem = Some (RT_EOK, k') /\ sem_abs k' 10 = Some (CSem 1 []).
Proof.
  destruct (rt_sem_release_refines (k_tick board_sem) RT_TICK_HALF 1000 10 (Sem 0 0) board_sem)
    as (k' & c & c' & o & H1 & _ & _ & H2 & H3 & H4 & _).
  - core_eval.
  - eapply sems_eval; [by_eval|]. split; [simpl; lia|]. split; [by left|]. simpl. lia.
  - by_eval.
  - assert (Hc : c = CSem 0 []) by (revert H2; vm_compute; congruence). subst c.
    inversion H4; subst. exists k'. exact (conj H1 H3).
Defined.

Lemma mutexes_own k m : k_mutexes k = {[20 := m]} -> mx_owner m = Some 2000 -> mx_value m = 0 ->
  mx_hold m = 1 -> mx_flag m = RT_IPC_FLAG_PRIO -> mx_original_priority m = 10 -> readyb k 2000 = true ->
  mutexes_ok k.
Proof.
  intros E Ho Hv Hh Hf Hp Hr. eapply mutexes_eval; [done|]. split; [rewrite Hf; by right|]. rewrite Ho.
  destruct (readyb_sound _ _ Hr) as (th & Et & Es).
  split_and!; [done|lia|lia|rewrite Hp; plia..|]. exists th. split; [done|]. rewrite Es. done.
Qed.

Lemma rt_mutex_take_refines_witness :
  exists k' c', rt_mutex_take 20 (-1) board_lock = Some (Wait FMutexTake, k') /\
    mutex_abs k' 20 = Some c' /\ rl_owner c' = Some (2000, 1) /\ 3000 ∈ rl_waiters c'.
Proof.
  destruct (rt_mutex_take_refines 1000 20 (Mutex 1 0 10 1 (Some 2000)) (-1) board_lock 3000 (th_of board_lock 3000))
    as (r & k' & c & c' & o & H1 & _ & _ & H2 & H3 & H4 & H5).
  - core_eval.
  - apply (mutexes_own _ (Mutex 1 0 10 1 (Some 2000))); by_eval.
  - by_eval.
  - ready_eval.
  - by_eval.
  - by_eval.
  - discriminate.
  - intros _ _ _. may_block_eval.
  - assert (Hc : c = RLock (Some (2000, 1)) []) by (revert H2; vm_compute; congruence). subst c.
    assert (Ho : o = None /\ rl_owner c' = Some (2000, 1) /\ 3000 ∈ rl_waiters c').
    { clear -H4. inversion H4 as [| |? ? ? _ Hw|? ? ? ? _ _ _]; subst; [discriminate Hw|].
      split; [reflexivity|]. split; [reflexivity|]. apply elem_of_app. right. left. }
    destruct Ho as (-> & Ho). destruct H5 as (-> & _).
    exists k', c'. exact (conj H1 (conj H3 Ho)).
Defined.

Lemma rt_mutex_release_refines_witness :
  exists k', rt_mutex_release 20 board_own = Some (RT_EOK, k') /\ mutex_abs k' 20 = Some (RLock None []).
Proof.
  destruct (rt_mutex_release_refines (k_tick board_own) RT_TICK_HALF 1000 20 (Mutex 1 0 10 1 (Some 2000))
    board_own 2000 (th_of board_own 2000)) as (r & k' & c & c' & H1 & _ & _ & H2 & H3 & H4 & _).
  - core_eval.
  - apply (mutexes_own _ (Mutex 1 0 10 1 (Some 2000))); by_eval.
  - by_eval.
  - ready_eval.
  - by_eval.
  - by_eval.
  - assert (Hc : c = RLock (Some (2000, 1)) []) by (revert H2; vm_compute; congruence). subst c.
    assert (Ho : c' = RLock None [] /\ r = RT_EOK).
    { clear -H4. inversion H4 as [? ? Hf|? ? Hf| |]; subst; [by destruct (Hf 1)|lia|done]. }
    destruct Ho as [-> ->]. exists k'. exact (conj H1 H3).
Defined.

(** The thread waits for one of the events 1 and 2 and gets the event 2, which stays set. *)
Lemma rt_event_send_delivers_witness :
  exists k', rt_event_send 30 2 board_event = Some (RT_EOK, k') /\ k_events k' = <[30 := Event 0 2]> (k_events board_event) /\
    queue k' (LSuspend (OEvent 30)) = [] /\ exists th, k_threads k' !! 2000 = Some (set_th_stat RT_THREAD_READY (set_th_event_set 2 th)).
Proof.
  assert (Hd : deliver (k_threads board_event) 2 (queue board_event (LSuspend (OEvent 30))) = (2, [(2000, 2)], [])) by by_eval.
  pose proof (rt_event_send_delivers (k_tick board_event) RT_TICK_HALF 1000 30 (Event 0 0) 2 board_event) as H.
  cbv zeta in H. change (Z.lor (ev_set (Event 0 0)) 2) with 2 in H. rewrite Hd in H. destruct H as (k' & H1 & _ & _ & H2 & H3 & _ & H4 & _).
  - core_eval.
  - eapply events_eval; [by_eval|]. split; [simpl; lia|]. split; [by left|]. intros t th _ E.
    assert (H : forallb (fun p => negb (satisfied p.2 0)) (map_to_list (k_threads board_event)) = true) by by_eval.
    apply negb_true_iff. exact (threads_forall (fun _ th => negb (satisfied th 0)) _ H t th E).
  - by_eval.
  - lia.
  - exists k'. split; [exact H1|]. split; [exact H2|]. split; [exact H3|]. destruct (H4 2000 2) as (th & _ & _ & E); [left|]. by exists th.
Defined.

Lemma events_idle k : k_events k = {[30 := Event 0 0]} -> queue k (LSuspend (OEvent 30)) = [] -> events_ok k.
Proof.
  intros E Hq. eapply events_eval; [done|]. split; [simpl; lia|]. split; [by left|].
  intros t th Ht. rewrite Hq in Ht. by apply not_elem_of_nil in Ht.
Qed.

Lemma rt_event_recv_spec_witness :
  exists k', rt_event_recv 30 3 RT_EVENT_FLAG_AND 5 board = Some (Wait FEventRecv, k') /\
    k_current k' <> Some 2000.
Proof.
  destruct (rt_event_recv_spec 1000 30 (Event 0 0) 3 RT_EVENT_FLAG_AND 5 board 2000 (th_of board 2000) false
    board_core) as (r & k' & H1 & _ & _ & H2).
  - apply events_idle; by_eval.
  - by_eval.
  - ready_eval.
  - by_eval.
  - by_eval.
  - discriminate.
  - by_eval.
  - intros _ _. may_block_eval.
  - destruct H2 as (Hr & _ & Hc & _). rewrite Hr in H1. exists k'. exact (conj H1 Hc).
Defined.

Lemma rt_mb_send_wait_refines_witness :
  exists k', rt_mb_send_wait 40 9 5 board_full = Some (Wait (FMbSend 40 9 5 0), k') /\
    k_current k' <> Some 2000.
Proof.
  destruct (rt_mb_send_wait_refines 1000 40 (Mailbox 0 400 [7; 8] 2 2 0 0) 9 5 board_full 2000
    (th_of board_full 2000)) as (r & k' & H1 & _ & _ & H2).
  - core_eval.
  - eapply mbs_eval; [by_eval|]. split; simpl; try lia; try done. by left.
  - by_eval.
  - by_eval.
  - ready_eval.
  - intros _ _. may_block_eval.
  - destruct H2 as (_ & Hr & Hb). rewrite Hr in H1. exists k'. exact (conj H1 (bl_cur Hb)).
Defined.

Lemma rt_mb_recv_refines_witness :
  exists k', rt_mb_recv 40 (-1) board_full = Some (Ret (RT_EOK, Some 7), k') /\
    exists m', k_mbs k' !! 40 = Some m' /\ mails m' = [8].
Proof.
  destruct (rt_mb_recv_refines 1000 40 (Mailbox 0 400 [7; 8] 2 2 0 0) (-1) board_full 2000
    (th_of board_full 2000)) as (r & k' & H1 & _ & _ & H2).
  - core_eval.
  - eapply mbs_eval; [by_eval|]. split; simpl; try lia; try done. by left.
  - by_eval.
  - by_eval.
  - ready_eval.
  - intros Hd. discriminate Hd.
  - destruct H2 as (Hr & m' & Hm & Hl). rewrite Hr in H1. exists k'. split; [exact H1|].
    exists m'. split; [|exact Hl]. rewrite Hm. apply lookup_insert_eq.
Defined.

(** The message queue of the board, empty and with one message. *)
Definition mq0 : rt_messagequeue := MsgQueue 0 0 0 0 0 ∅ ∅ None None None.
Definition mq_of (k : kstate) : rt_messagequeue := default mq0 (k_mqs k !! 50).

Lemma board_mq_empty : mq_abs (mq_of board) [].
Proof.
  exists [], [6012; 6000]. split; [|vm_compute; reflexivity]. split.
  - by_eval.
  - split; [by_eval|]. exists (Some 6000). split; [by_eval|]. split; [by_eval|]. by exists None.
  - by_eval.
  - refine (bool_decide_unpack _ _). vm_compute. exact I.
  - by_eval.
  - by_eval.
  - vm_compute. split; [discriminate|reflexivity].
  - intros s Hs. repeat (apply elem_of_cons in Hs as [->|Hs]; [vm_compute; by eexists|]).
    by apply not_elem_of_nil in Hs.
  - intros s Hs. repeat (apply elem_of_cons in Hs as [->|Hs]; [eexists; split; by_eval|]).
    by apply not_elem_of_nil in Hs.
  - left. by_eval.
Qed.
Lemma board_mq_one : mq_abs (mq_of board_msg) [[1; 2; 3; 0; 0; 0; 0; 0]].
Proof.
  exists [6012], [6000]. split; [|vm_compute; reflexivity]. split.
  - split; [by_eval|]. exists None. split; [by_eval|]. by_eval.
  - split; [by_eval|]. exists None. split; [by_eval|]. by_eval.
  - by_eval.
  - refine (bool_decide_unpack _ _). vm_compute. exact I.
  - by_eval.
  - by_eval.
  - vm_compute. split; [discriminate|reflexivity].
  - intros s Hs. repeat (apply elem_of_cons in Hs as [->|Hs]; [vm_compute; by eexists|]).
    by apply not_elem_of_nil in Hs.
  - intros s Hs. repeat (apply elem_of_cons in Hs as [->|Hs]; [eexists; split; by_eval|]).
    by apply not_elem_of_nil in Hs.
  - left. by_eval.
Qed.
#[local] Opaque mq_of.

Lemma rt_mq_send_refines_witness :
  exists k' q' d, rt_mq_send 50 [5; 6] board_msg = Some (RT_EOK, k') /\
    k_mqs k' !! 50 = Some q' /\ mq_abs q' [[1; 2; 3; 0; 0; 0; 0; 0]; d] /\ take 2 d = [5; 6].
Proof.
  destruct (rt_mq_send_refines (k_tick board_msg) RT_TICK_HALF 1000 50 (mq_of board_msg)
    [[1; 2; 3; 0; 0; 0; 0; 0]] [5; 6] board_msg)
    as (r & k' & H1 & H2); [core_eval|by_eval|apply board_mq_one|discriminate|].
  replace (mq_msg_size (mq_of board_msg) <? _) with false in H2 by by_eval.
  replace (_ =? mq_max_msgs (mq_of board_msg)) with false in H2 by by_eval.
  destruct H2 as (-> & Hs). destruct (se_queue _ _ _ _ _ _ _ _ _ Hs) as (q' & d & Hq & Ha & _ & Ht & _).
  exists k', q', d. split; [exact H1|]. split; [rewrite Hq; apply lookup_insert_eq|]. exact (conj Ha Ht).
Defined.

Lemma rt_mq_urgent_refines_witness :
  exists k' q' d, rt_mq_urgent 50 [5; 6] board_msg = Some (RT_EOK, k') /\
    k_mqs k' !! 50 = Some q' /\ mq_abs q' [d; [1; 2; 3; 0; 0; 0; 0; 0]] /\ take 2 d = [5; 6].
Proof.
  destruct (rt_mq_urgent_refines (k_tick board_msg) RT_TICK_HALF 1000 50 (mq_of board_msg)
    [[1; 2; 3; 0; 0; 0; 0; 0]] [5; 6] board_msg)
    as (r & k' & H1 & H2); [core_eval|by_eval|apply board_mq_one|discriminate|].
  replace (mq_msg_size (mq_of board_msg) <? _) with false in H2 by by_eval.
  replace (_ =? mq_max_msgs (mq_of board_msg)) with false in H2 by by_eval.
  destruct H2 as (-> & Hs). destruct (se_queue _ _ _ _ _ _ _ _ _ Hs) as (q' & d & Hq & Ha & _ & Ht & _).
  exists k', q', d. split; [exact H1|]. split; [rewrite Hq; apply lookup_insert_eq|]. exact (conj Ha Ht).
Defined.

Lemma rt_mq_recv_refines_witness :
  exists k', rt_mq_recv 50 3 (-1) board_msg = Some (Ret (RT_EOK, Some [1; 2; 3]), k').
Proof.
  destruct (rt_mq_recv_refines 1000 50 (mq_of board_msg) [[1; 2; 3; 0; 0; 0; 0; 0]] 3 (-1) board_msg 2000
    (th_of board_msg 2000)) as (r & k' & H1 & _ & _ & H2).
  - core_eval.
  - eapply mqs_eval; [by_eval|apply board_mq_one].
  - by_eval.
  - apply board_mq_one.
  - by_eval.
  - ready_eval.
  - discriminate.
  - discriminate.
  - discriminate.
  - destruct H2 as (Hr & _). exists k'. rewrite H1, Hr.
    replace (mq_msg_size (mq_of board_msg)) with 8 by by_eval. reflexivity.
Defined.

(** The memory of a pool for two messages. *)
Definition raw2 : gmap Z (list Z) := <[7000 := replicate 8 0]> (<[7012 := replicate 8 0]> ∅).
Lemma rt_mq_init_empty_witness :
  exists k' q, rt_mq_init 60 (cstr "q2") 7000 8 24 0 raw2 board = Some (RT_EOK, k') /\
    k_mqs k' !! 60 = Some q /\ mq_abs q [].
Proof.
  destruct (rt_mq_init_empty 60 (cstr "q2") 7000 8 24 0 raw2 board) as (k' & q & Hr & Hq & Ha & _).
  - eexists. by_eval.
  - by_eval.
  - lia.
  - lia.
  - exact (or_introl eq_refl).
  - reflexivity.
  - intros i Hi. change (24 / (4 * ((8 + 3) / 4) + 4)) with 2 in Hi.
    assert (i = 0 \/ i = 1) as [->| ->] by lia; exists (replicate 8 0); split; by_eval.
  - exists k', q. exact (conj Hr (conj Hq Ha)).
Defined.

(** The pool of the board. *)
Definition mp0 : rt_mempool := MemPool 0 0 0 None 0 0 ∅ 0.
Definition mp_of (k : kstate) : rt_mempool := default mp0 (k_mps k !! 80).
Lemma board_mp_ok : mp_ok 80 (mp_of board_mp) [9012] [9000].
Proof.
  split.
  - split; [by_eval|]. exists None. split; by_eval.
  - intros b Hb. apply list_elem_of_singleton in Hb as ->. by_eval.
  - assert (E : pool_blocks (mp_of board_mp) = [9000; 9012]) by by_eval. rewrite E.
    apply (Permutation_swap 9000 9012 []).
  - assert (E : pool_blocks (mp_of board_mp) = [9000; 9012]) by by_eval. rewrite E. intros b w Hb.
    assert (F : forallb (fun x : Z * (option Z + Z) => bool_decide (x.1 ∈ [9000; 9012]))
      (map_to_list (mp_link (mp_of board_mp))) = true) by by_eval.
    rewrite forallb_forall in F. specialize (F (b, w)). apply bool_decide_eq_true in F; [done|].
    by apply list_elem_of_In, elem_of_map_to_list.
  - by_eval.
  - vm_compute. split; [discriminate|]. split; [discriminate|reflexivity].
Qed.
#[local] Opaque mp_of.

Lemma rt_mp_alloc_spec_witness :
  exists k' p', rt_mp_alloc 80 (-1) board_mp = Some (Ret (Some 9016), k') /\
    k_mps k' !! 80 = Some p' /\ mp_ok 80 p' [] [9012; 9000].
Proof.
  destruct (rt_mp_alloc_spec 1000 80 (mp_of board_mp) [9012] [9000] (-1) board_mp 2000 (th_of board_mp 2000))
    as (r & k' & H1 & _ & Hr & (p' & Hk & Hp) & _).
  - core_eval.
  - by_eval.
  - ready_eval.
  - by_eval.
  - apply board_mp_ok.
  - discriminate.
  - exists k', p'. rewrite Hr in H1. split; [exact H1|]. split; [|exact Hp].
    rewrite Hk. apply lookup_insert_eq.
Defined.

Lemma rt_mp_free_refines_witness :
  exists k' p', rt_mp_free 9004 board_mp = Some (tt, k') /\ k_mps k' !! 80 = Some p' /\
    mp_ok 80 p' [9000; 9012] [].
Proof.
  destruct (rt_mp_free_refines (k_tick board_mp) RT_TICK_HALF 1000 80 (mp_of board_mp) [9012] [] 9000 [] board_mp)
    as (k' & p' & H1 & _ & H2 & H3 & _).
  - core_eval.
  - intros a a' p p' b E E'. assert (F : forallb (fun x : Z * rt_mempool => x.1 =? 80)
      (map_to_list (k_mps board_mp)) = true) by by_eval.
    rewrite forallb_forall in F.
    assert (forall c q, k_mps board_mp !! c = Some q -> c = 80) as Hc.
    { intros c q Hq. apply Z.eqb_eq. apply (F (c, q)). by apply list_elem_of_In, elem_of_map_to_list. }
    intros _ _. rewrite (Hc _ _ E), (Hc _ _ E'). reflexivity.
  - by_eval.
  - apply board_mp_ok.
  - by_eval.
  - by_eval.
  - exists k', p'. split; [exact H1|]. split; [rewrite H2; apply lookup_insert_eq|exact H3].
Defined.

Lemma rt_mp_init_ok_witness :
  exists k' p, rt_mp_init 81 (cstr "p2") 9500 50 6 board = Some (RT_EOK, k') /\
    k_mps k' !! 81 = Some p /\ mp_total p = 4.
Proof.
  destruct (rt_mp_init_ok 81 (cstr "p2") 9500 50 6 board) as (k' & p & Hr & Hp & Hok & Hb & _ & Ht & _).
  - eexists. by_eval.
  - by_eval.
  - lia.
  - lia.
  - by_eval.
  - lia.
  - exists k', p. split; [exact Hr|]. split; [exact Hp|]. rewrite Ht, Hb. by_eval.
Defined.

(** *** What goes wrong in the code *)

(** A wait for a block that times out leaves the count of waiting threads too high: the
    next [rt_mp_free] takes a thread from the empty list. *)
Definition timed_out_alloc : M unit := rt_mp_alloc 80 5;; ticks idle_cb 5.
Example mp_free_after_timeout :
  match timed_out_alloc board_mp2 with
  | Some (_, k) => queue k (LSuspend (OMp 80)) = [] /\ mp_suspend_count (mp_of k) = 1 /\ rt_mp_free 9004 k = None
  | None => False
  end.
Proof. vm_compute. repeat split. Qed.

(** A thread woken by [rt_mp_free] takes its block without looking: when the block has been
    given to a thread that ran first, it goes through a null pointer. *)
Definition stolen_block : M (wait (option Z)) := rt_mp_alloc 80 (-1);; rt_mp_free 9004;; rt_mp_alloc 80 0.
Example mp_alloc_stolen :
  match stolen_block board_mp2 with
  | Some (r, k) => r = Ret (Some 9004) /\ readyb k 2000 = true /\ rt_mp_alloc_resume 2000 80 k = None
  | None => False
  end.
Proof. vm_compute. repeat split. Qed.

(** With the scheduler locked, [rt_sem_take] comes back with [RT_EOK] and no token, and
    leaves the caller suspended in the list of the semaphore. *)
Example sem_take_while_locked :
  match (rt_enter_critical;; rt_sem_take 10 (-1)) board_sem with
  | Some (r, k) => r = Ret RT_EOK /\ queue k (LSuspend (OSem 10)) = [2000] /\ k_current k = Some 2000 /\
      readyb k 2000 = false
  | None => False
  end.
Proof. vm_compute. repeat split. Qed.

(** The 16-bit count of a semaphore goes from 65535 back to 0. *)
Example sem_release_wraps :
  match (rt_sem_init 11 (cstr "big") 65535 0;; rt_sem_release 11) board with
  | Some (r, k) => r = RT_EOK /\ sem_abs k 11 = Some (CSem 0 [])
  | None => False
  end.
Proof. vm_compute. repeat split. Qed.

(** A thread that was never started has no valid [number_mask]; detaching it clears
    whatever bits its memory held, here those of two ready threads, and the idle thread
    is scheduled in their place. *)
Definition garbage_thread : rt_thread := set_th_number_mask 1024 thread0.
Example detach_unstarted :
  match (rt_thread_init 5000 garbage_thread (cstr "t") 0 0 5256 512 5 10;; rt_thread_detach 5000;; rt_schedule) board with
  | Some (_, k) => readyb k 2000 = true /\ readyb k 3000 = true /\ k_current k = Some 1000
  | None => False
  end.
Proof. vm_compute. repeat split. Qed.

(** A thread that has lent its priority to the owner of a mutex and gives up leaves the
    owner with the raised priority. *)
Example mutex_boost_outlives_waiter :
  match (spawn 4000 "urgent" 5 20;; rt_mutex_take 20 3;; ticks idle_cb 3) board_own with
  | Some (_, k) => queue k (LSuspend (OMutex 20)) = [] /\ th_current_priority (th_of k 2000) = 5 /\
      th_init_priority (th_of k 2000) = 10
  | None => False
  end.
Proof. vm_compute. repeat split. Qed.
