(* ===== verification/BoardHeap.v ===== *)
(** * The heap on the board

    The theorems of Heap.v at the heap of 1 KiB of Mem.v and the states of Board.v, where
    the semaphore 10 stands for [heap_sem]. *)
From S2P Require Import Prelude KService Kernel Object Scheduler Timer Thread Frame Ipc Sem Mem Heap Board.

#[local] Opaque board board_sem.

Lemma board_heap_idle : heap_idle 10 board.
Proof. split; [by_eval|]. split; [by_eval|]. exists (Sem 0 1). split; by_eval. Qed.

Lemma heap_calls_sequential_witness :
  rt_malloc 10 100 (HState board ram1) = returned board (heap_malloc 100 ram1).
Proof. exact (proj1 (heap_calls_sequential 10 board ram1 board_heap_idle) 100). Defined.

Lemma rt_malloc_refines_witness :
  exists p h' bs', rt_malloc 10 100 (HState board ram1) = Some (HRet p, HState board h') /\ heap_wf h' bs'.
Proof.
  destruct (rt_malloc_refines 10 board ram1 _ 100 board_heap_idle ram1_wf ltac:(lia)) as (p & h' & bs' & H1 & H2 & _).
  exists p, h', bs'. exact (conj H1 H2).
Defined.

Lemma rt_free_refines_witness :
  exists h' bs', rt_free 10 536870924 (HState board ram1) = Some (HRet 0, HState board h') /\
    heap_wf h' bs' /\ live h' bs' = [].
Proof.
  destruct (rt_free_refines 10 board ram1 _ 536870924 100 board_heap_idle ram1_wf) as (h' & bs' & H1 & H2 & H3 & _);
    [vm_compute; left|].
  exists h', bs'. split; [exact H1|]. split; [exact H2|].
  change (live ram1 _) with [(536870924, 100)] in H3.
  apply Permutation_cons_inv in H3. by apply Permutation_nil in H3.
Defined.

Lemma rt_malloc_free_roundtrip_witness :
  exists h'', rt_free 10 536870924 (HState board ram1) = Some (HRet 0, HState board h'') /\
    heap_wf h'' [Blk 0 1012 false].
Proof.
  destruct (rt_malloc_free_roundtrip 10 board ram _ 100 536870924 ram1 board_heap_idle ram_wf)
    as (h'' & H1 & H2 & _); [lia| |discriminate|exists h''; exact (conj H1 H2)].
  rewrite rt_malloc_idle by exact board_heap_idle.
  assert (E : heap_malloc 100 ram = Some (536870924, ram1)) by (vm_compute; reflexivity). by rewrite E.
Defined.

Lemma rt_calloc_zeroed_witness : exists p h',
  rt_calloc 10 5 8 (HState board ram1) = Some (HRet p, HState board h') /\
  (p = 0 \/ h_mem h' !! (p + 39) = Some 0).
Proof.
  destruct (rt_calloc_zeroed 10 board ram1 _ 5 8 board_heap_idle ram1_wf ltac:(lia))
    as (p & h' & H1 & [H2|(bs' & len & _ & _ & _ & H)]); exists p, h'; (split; [exact H1|]); [left; exact H2|].
  right. apply H. lia.
Defined.

Lemma rt_realloc_grow_witness : exists q h' bs',
  rt_realloc 10 536870924 300 (HState board ram1) = Some (HRet q, HState board h') /\ heap_wf h' bs'.
Proof.
  destruct (rt_realloc_grow 10 board ram1 _ 536870924 100 300 board_heap_idle ram1_wf)
    as (q & h' & bs' & H1 & H2 & _); [vm_compute; left|lia|lia|]. exists q, h', bs'. exact (conj H1 H2).
Defined.

Lemma rt_system_heap_init_wf_witness : exists k' h,
  rt_system_heap_init 90 536870912 536871936 (HState board heap0) = Some (tt, HState k' h) /\
  heap_idle 90 k' /\ heap_wf h [Blk 0 (h_end h) false].
Proof.
  destruct (rt_system_heap_init_wf 90 536870912 536871936 board heap0) as (k' & h & H1 & H2 & H3 & _);
    [lia|lia|lia|done|done|by_eval|by_eval|]. exists k', h. exact (conj H1 (conj H2 H3)).
Defined.

Lemma rt_malloc_excluded_witness : exists k',
  rt_malloc 10 100 (HState board_sem ram1) = Some (HWait (HTake (LMalloc 100) AReturn), HState k' ram1) /\
  2000 ∈ queue k' (LSuspend (OSem 10)).
Proof.
  destruct (rt_malloc_excluded 10 1000 board_sem ram1 2000 (th_of board_sem 2000) (Sem 0 0) 100 100)
    as ((k' & H1 & _ & _ & _ & H2 & _) & _).
  - core_eval.
  - eapply sems_eval; [by_eval|]. split; [simpl; lia|]. split; [by left|]. simpl. lia.
  - by_eval.
  - ready_eval.
  - by_eval.
  - reflexivity.
  - may_block_eval.
  - by_eval.
  - exists k'. exact (conj H1 H2).
Defined.

(** With the scheduler locked, a call does not wait for a heap that another call holds:
    [rt_sem_take] returns at once and its result is not looked at. *)
Example malloc_while_locked :
  match rt_enter_critical board_sem with
  | Some (_, k) => match rt_malloc 10 100 (HState k ram1) with
                   | Some (HRet p, s) => p = 536871036 /\ queue (hs_kernel s) (LSuspend (OSem 10)) = []
                   | _ => False
                   end
  | None => False
  end.
Proof. vm_compute. repeat split. Qed.
