(* ===== verification/BoardSystem.v ===== *)
(** * The system on the board

    The theorems of System.v at the board of Board.v, with a timeout function that really
    does something: it wakes the thread its parameter names, if that thread waits. *)
From S2P Require Import Prelude KService Kernel Object Scheduler Timer Thread Frame Clock Ipc.
From S2P Require Import Sem MutexLock EventSet Mailbox MsgQueue System Board.

(** [rt_thread_resume] and [rt_schedule] on the thread [p] when it waits. *)
Definition wake_cb (f p : Z) : M unit := fun k =>
  match k_threads k !! p with
  | Some th => if th_stat th =? RT_THREAD_SUSPEND then (rt_thread_resume p;; rt_schedule) k else Some (tt, k)
  | None => Some (tt, k)
  end.

(** The timers after a resume: only the thread's own is stopped. *)
Lemma timer_stop_others t k :
  (forall x, x ∈ k_timer_list (timer_stop_eff (TmThread t) k) -> x ∈ k_timer_list k) /\
  (forall x, x <> TmThread t -> k_timers (timer_stop_eff (TmThread t) k) !! x = k_timers k !! x) /\
  (forall x, x <> TmThread t -> x ∈ k_timer_list k -> x ∈ k_timer_list (timer_stop_eff (TmThread t) k)).
Proof.
  unfold timer_stop_eff. destruct (k_timers k !! TmThread t) as [tm|]; [|done]. destruct (tm_active tm); [|done].
  cbn. split_and!.
  - intros x. rewrite list_elem_of_filter. tauto.
  - intros x Hx. by rewrite lookup_insert_ne.
  - intros x Hx Hin. by apply list_elem_of_filter.
Qed.

Lemma wake_run b bd idle k p th :
  core b bd idle k -> k_threads k !! p = Some th -> th_stat th = RT_THREAD_SUSPEND ->
  exists k', (rt_thread_resume p;; rt_schedule) k = Some (tt, k') /\ core b bd idle k' /\ core_only k k' /\
    k_threads k' = <[p := set_th_stat RT_THREAD_READY th]> (k_threads k) /\
    k_timers k' = k_timers (timer_stop_eff (TmThread p) k) /\
    k_timer_list k' = k_timer_list (timer_stop_eff (TmThread p) k) /\ ipc_frame no_growth k k'.
Proof.
  intros Hc E Hs. pose proof (c_inv (c_core0 Hc)) as Hk.
  destruct (rt_thread_resume_core b bd idle k p th Hc E Hs) as (k1 & Er & Hc1 & F1 & Et1 & _).
  pose proof (rt_thread_resume_run b bd k p th Hk E Hs) as Er1. assert (k1 = resume_eff p th k) as -> by congruence.
  destruct (rt_schedule_ready b bd idle _ Hc1) as (k' & Es & Hc' & F & Et & Eq & Em & El & If).
  exists k'. split; [by mstep_by Er|]. split; [done|]. split; [by etrans|]. split; [congruence|].
  rewrite Em, El. split; [done|]. split; [done|]. etrans; [by apply (ipc_frame_resume_eff _ b bd)|exact If].
Qed.

Lemma wake_cb_cases b bd idle f p k :
  core b bd idle k ->
  wake_cb f p k = Some (tt, k) \/
  exists th, k_threads k !! p = Some th /\ th_stat th = RT_THREAD_SUSPEND /\
    wake_cb f p k = (rt_thread_resume p;; rt_schedule) k.
Proof.
  intros Hc. unfold wake_cb. destruct (k_threads k !! p) as [th|] eqn:E; [|by left].
  destruct (Z.eqb_spec (th_stat th) RT_THREAD_SUSPEND) as [Hs|Hs]; [right; by exists th|by left].
Qed.

Lemma cb_frame_refl k : cb_frame k k.
Proof.
  split; try done.
  - intros t th Ht. by exists th.
  - intros t Ht. by left.
Qed.

Lemma wake_cb_frame b bd idle k k' p th :
  core b bd idle k -> core_only k k' -> k_threads k !! p = Some th -> th_stat th = RT_THREAD_SUSPEND ->
  k_threads k' = <[p := set_th_stat RT_THREAD_READY th]> (k_threads k) ->
  k_timers k' = k_timers (timer_stop_eff (TmThread p) k) ->
  k_timer_list k' = k_timer_list (timer_stop_eff (TmThread p) k) -> TmThread p ∉ k_timer_list k' -> cb_frame k k'.
Proof.
  intros Hc F E Hs Et Em El Hp. destruct (timer_stop_others p k) as (T1 & T2 & T3).
  assert (Hrp : is_ready k' p (set_th_stat RT_THREAD_READY th)).
  { split; [|done]. by rewrite Et, lookup_insert_eq. }
  split.
  - by rewrite F.
  - by rewrite F.
  - intros x Hx. rewrite Em, T2 by (by intros ->). rewrite El in Hx. split; [by apply T1|done].
  - intros a. rewrite Em. by apply T2.
  - intros t tht Ht. exists tht. eapply is_ready_other; [exact Et|by eapply is_ready_ne|done].
  - intros t Ht. destruct (decide (t = p)) as [->|Hne]; [right; by eexists|left]. rewrite El. apply T3; [congruence|done].
Qed.

Lemma wake_cb_ok : cb_ok wake_cb.
Proof.
  intros b bd idle f p k Hc. destruct (wake_cb_cases b bd idle f p k Hc) as [->|(th & E & Hs & ->)].
  - exists k. split; [done|]. split; [done|apply cb_frame_refl].
  - destruct (wake_run b bd idle k p th Hc E Hs) as (k' & Er & Hc' & F & Et & Em & El & _). exists k'.
    split; [done|]. split; [done|]. eapply wake_cb_frame; try done.
    eapply ready_unlisted; [apply Hc'|]. split; [rewrite Et; apply lookup_insert_eq|done].
Qed.

(** It is a quiet step of the kernel. *)
Lemma wake_cb_quiet b bd idle f p k k' :
  core b bd idle k -> wake_cb f p k = Some (tt, k') -> quiet_step k k'.
Proof.
  intros Hc. destruct (wake_cb_cases b bd idle f p k Hc) as [->|(th & E & Hs & ->)]; [by intros [= <-]|].
  destruct (wake_run b bd idle k p th Hc E Hs) as (k2 & -> & _ & F & _ & _ & _ & If). intros [= <-]. auto with rt.
Qed.

Lemma wake_cb_keeps I : Stable I -> cb_keeps wake_cb I.
Proof. intros HI b bd idle f p k k' Hc Hk Er. eapply stable_step; [done|by eapply wake_cb_quiet]. Qed.

Lemma wake_cb_serves : cb_serves wake_cb.
Proof.
  split; [apply wake_cb_ok| |apply wake_cb_keeps, _..].
  intros b bd idle f p k k' Hc Er. destruct (wake_cb_quiet b bd idle f p k k' Hc Er) as [If [O1 O2 O3 O4 O5 O6 O7]].
  split; [done|]. split; [|done]. split; intros a; by rewrite ?O1, ?O3, ?O4, ?O5.
Qed.

(** ** The board is in order *)

#[local] Opaque board.

(** No thread waits. *)
Definition nobody_waits (k : kstate) : bool :=
  forallb (fun x : Z * rt_thread => negb (th_stat x.2 =? RT_THREAD_SUSPEND)) (map_to_list (k_threads k)).

Lemma nobody_suspended k : nobody_waits k = true -> forall t, ~ suspended k t.
Proof.
  intros H t (th & E & Hs).
  pose proof (threads_forall (fun _ th => negb (th_stat th =? RT_THREAD_SUSPEND)) k H t th E) as Hn.
  cbn in Hn. by rewrite Hs in Hn.
Qed.

Lemma board_kernel_ok : kernel_ok 1000 0 board.
Proof.
  split; [exact board_core|..|by_eval|by_eval].
  - apply (sems_eval board (Sem 0 1)); [by_eval|]. split; [by_eval|]. split; [by left|]. intros _. by_eval.
  - apply (mutexes_eval board (default (Mutex 0 0 0 0 None) (k_mutexes board !! 20))); [by_eval|].
    split; [right; by_eval|]. by_eval.
  - apply (events_idle board); by_eval.
  - apply (mbs_eval board (Mailbox 0 400 [0; 0] 2 0 0 0)); [by_eval|]. split; simpl; try lia; try done. by left.
  - apply (mqs_eval board (mq_of board) []); [by_eval|exact board_mq_empty].
Qed.

Definition sys0 : sys := Sys board ∅.
Lemma sys0_inv : sys_inv 1000 sys0.
Proof.
  assert (Hn : forall t, ~ suspended board t) by (apply nobody_suspended; by_eval).
  split; cbn [s_k s_frames sys0]; [exact board_kernel_ok|by intros t f|by intros t Ht; destruct (Hn t)|].
  intros h t Hh Ht. exfalso. apply (Hn t).
  eapply wait_list_suspended; [exact (proj1 (c_inv (c_core0 board_core)))|exact Hh|exact Ht].
Qed.

(** ** A run *)

(** Events one after the other. *)
Fixpoint sys_run (es : list event) (s : sys) : option sys :=
  match es with
  | [] => Some s
  | e :: es' => s' ← sys_step wake_cb e s; sys_run es' s'
  end.

(** The thread 2000 takes the token of the semaphore, then waits for another one with 3000
    running; an interrupt handler releases it after a tick, 3000 sleeps, and 2000 goes on
    and returns. *)
Definition story : list event :=
  [EvCall (CSemTake 10 (-1)); EvCall (CSemTake 10 (-1)); EvTick; EvIrq [CSemRelease 10];
   EvCall (CSleep 5); EvResume].
Definition where_is (s : sys) : option Z * list (Z * frame) := (k_current (s_k s), map_to_list (s_frames s)).

Example story_waits : where_is <$> sys_run (take 2 story) sys0 = Some (Some 3000, [(2000, FSemTake)]).
Proof. vm_compute. reflexivity. Qed.
Example story_ends : where_is <$> sys_run story sys0 = Some (Some 2000, [(3000, FSleep)]).
Proof. vm_compute. reflexivity. Qed.

Lemma sys_step_total_witness :
  exists s', sys_step wake_cb (EvCall (CMbRecv 40 7)) sys0 = Some s' /\ sys_inv 1000 s'.
Proof.
  apply (sys_step_total wake_cb 1000 sys0 (EvCall (CMbRecv 40 7)) wake_cb_serves sys0_inv).
  exists 2000. split; [by_eval|]. split; [by_eval|]. split; [vm_compute; by eexists|]. right. split; [discriminate|by_eval].
Defined.

(** The states after the first two events. *)
Definition sys1 : sys := default sys0 (sys_step wake_cb (EvCall (CSemTake 10 (-1))) sys0).
Definition sys2 : sys := default sys0 (sys_step wake_cb (EvCall (CSemTake 10 (-1))) sys1).

Lemma step_default e s :
  sys_inv 1000 s -> allowed 1000 e s ->
  sys_step wake_cb e s = Some (default sys0 (sys_step wake_cb e s)) /\
  sys_inv 1000 (default sys0 (sys_step wake_cb e s)).
Proof.
  intros Hs Ha. by destruct (sys_step_run 1000 wake_cb s e wake_cb_serves Hs Ha) as (s' & -> & Hs').
Qed.

Lemma take_allowed s :
  k_current (s_k s) = Some 2000 -> s_frames s !! 2000 = None -> is_Some (k_sems (s_k s) !! 10) ->
  allowed 1000 (EvCall (CSemTake 10 (-1))) s.
Proof. intros H1 H2 H3. exists 2000. do 3 (split; [done|]). right. by split. Qed.

Lemma sys2_reachable : reachable wake_cb 1000 sys0 sys2.
Proof.
  destruct (step_default (EvCall (CSemTake 10 (-1))) sys0 sys0_inv) as [E1 H1].
  { apply take_allowed; vm_compute; (reflexivity || by eexists). }
  fold sys1 in E1, H1. destruct (step_default (EvCall (CSemTake 10 (-1))) sys1 H1) as [E2 _].
  { apply take_allowed; vm_compute; (reflexivity || by eexists). }
  eapply reach_step; [eapply reach_step; [constructor| |exact E1]| |exact E2];
    apply take_allowed; vm_compute; (reflexivity || by eexists).
Qed.

Lemma reachable_no_lost_wakeup_witness :
  queue (s_k sys2) (LSuspend (OSem 10)) = [2000] /\ k_lock_nest (s_k sys2) = 0.
Proof.
  split; [by_eval|].
  destruct (reachable_no_lost_wakeup wake_cb 1000 sys0 sys2 wake_cb_serves sys0_inv sys2_reachable)
    as (_ & _ & _ & _ & H & _). exact H.
Defined.
