(* ===== verification/BoardDynamic.v ===== *)
(** * Objects on the heap of the board

    An executable check that the kernel and the heap agree, with its soundness, and the
    theorems of DynObjects.v and Idle.v at the board of Board.v with the heap of 1 KiB of
    Mem.v, where the semaphore 10 stands for [heap_sem]. *)
From S2P Require Import Prelude KService Kernel Object Scheduler Timer Thread Frame Ipc.
From S2P Require Import Sem MutexLock EventSet Mailbox MsgQueue Mempool Mem Heap System Dynamic DynObjects Idle.
From S2P Require Import Board BoardHeap BoardSystem.

(** ** The agreement as a test *)

Definition dynamicb (k : kstate) (o : oid) : bool :=
  match k_objs k !! o with Some ob => Z.land (o_type ob) RT_Object_Class_Static =? 0 | None => false end.
Definition knownb (k : kstate) (o : oid) : bool := match k_objs k !! o with Some _ => true | None => false end.
Definition outsideb (h : heap) (a : Z) : bool := (a <? h_ptr h) || (h_ptr h + h_end h <=? a).
Definition simpleb (o : oid) : bool := match o with OThread _ | OTimer _ => false | _ => true end.

(** The objects that have a control block. *)
Definition stored_objects (k : kstate) : list oid :=
  (OThread <$> (map_to_list (k_threads k)).*1) ++ (OTimer <$> (map_to_list (k_timers k)).*1) ++
  (OSem <$> (map_to_list (k_sems k)).*1) ++ (OMutex <$> (map_to_list (k_mutexes k)).*1) ++
  (OEvent <$> (map_to_list (k_events k)).*1) ++ (OMb <$> (map_to_list (k_mbs k)).*1) ++
  (OMq <$> (map_to_list (k_mqs k)).*1) ++ (OMp <$> (map_to_list (k_mps k)).*1) ++
  (ODev <$> (map_to_list (k_devs k)).*1).
Definition known_objects (k : kstate) : list oid := (map_to_list (k_objs k)).*1.
Definition heap_objects (k : kstate) : list oid := filter (fun o => dynamicb k o) (known_objects k).

Definition blocks_check (k : kstate) (lv : list (Z * Z)) : bool :=
  forallb (fun o =>
    forallb (fun b => bool_decide (b ∈ lv.*1)) (blocks_of k o) &&
    match obj_addr o with
    | Some a => forallb (fun r : Z * Z => negb (r.1 =? a) || (object_size (obj_class o) <=? r.2)) lv
    | None => false
    end) (heap_objects k) &&
  bool_decide (NoDup (concat (((fun o => (o, blocks_of k o)) <$> heap_objects k).*2))).
Definition objects_check (k : kstate) (h : heap) : bool :=
  forallb (fun o => (dynamicb k o || match obj_addr o with Some a => outsideb h a | None => true end) &&
                    match o with OTimer (TmThread t) => knownb k (OThread t) | _ => true end) (known_objects k).
Definition queue_check (k : kstate) (p : lhead * list Z) : bool :=
  match p with
  | (LSuspend o, _ :: _) => knownb k o && simpleb o
  | (LSender o, _ :: _) => knownb k o && match o with OMb _ => true | _ => false end
  | _ => true
  end.
Definition known_check (k : kstate) : bool :=
  forallb (knownb k) (stored_objects k) && forallb (knownb k) (concat (map_to_list (k_container k)).*2) &&
  forallb (queue_check k) (map_to_list (k_queues k)).
Definition mem_check (k : kstate) (h : heap) (bs : list blk) : bool :=
  blocks_check k (live h bs) && objects_check k h && known_check k.

Lemma dynamicb_spec k o : dynamicb k o = true <-> dynamic k o.
Proof.
  unfold dynamicb, dynamic. destruct (k_objs k !! o) as [ob|]; [|naive_solver].
  rewrite Z.eqb_eq. naive_solver.
Qed.
Lemma knownb_spec k o : knownb k o = true <-> is_Some (k_objs k !! o).
Proof. unfold knownb. by destruct (k_objs k !! o); split; intros ?%is_Some_alt || intros ?. Qed.

Lemma in_heap_objects k o : dynamic k o -> o ∈ heap_objects k.
Proof.
  intros H. pose proof (dynamic_known _ _ H) as [ob E]. apply list_elem_of_filter.
  split; [by apply Is_true_true, dynamicb_spec|]. apply list_elem_of_fmap. exists (o, ob).
  split; [done|]. by apply elem_of_map_to_list.
Qed.
Lemma in_known_objects k o : is_Some (k_objs k !! o) -> o ∈ known_objects k.
Proof.
  intros [ob E]. apply list_elem_of_fmap. exists (o, ob). split; [done|]. by apply elem_of_map_to_list.
Qed.

Lemma in_keys `{Countable K} {A B} (f : K -> B) (m : gmap K A) i :
  is_Some (m !! i) -> f i ∈ f <$> (map_to_list m).*1.
Proof.
  intros [x E]. apply list_elem_of_fmap. exists i. split; [done|]. apply list_elem_of_fmap. exists (i, x).
  split; [done|]. by apply elem_of_map_to_list.
Qed.
Lemma in_stored_objects k o : stored k o -> o ∈ stored_objects k.
Proof.
  unfold stored_objects. rewrite !elem_of_app. intros H. destruct o; cbn in H.
  - left. by apply (in_keys OThread).
  - right. left. by apply (in_keys OTimer).
  - do 2 right. left. by apply (in_keys OSem).
  - do 3 right. left. by apply (in_keys OMutex).
  - do 4 right. left. by apply (in_keys OEvent).
  - do 5 right. left. by apply (in_keys OMb).
  - do 6 right. left. by apply (in_keys OMq).
  - do 7 right. left. by apply (in_keys OMp).
  - do 8 right. by apply (in_keys ODev).
Qed.

Lemma forallb_elem {A} (f : A -> bool) l x : forallb f l = true -> x ∈ l -> f x = true.
Proof. rewrite forallb_forall. intros H Hx. by apply H, list_elem_of_In. Qed.

(** What has no entry among the objects is unused. *)
Lemma known_check_sound k : known_check k = true ->
  (forall o, k_objs k !! o = None -> unused k o) /\
  (forall o, ~ simple o -> queue k (LSuspend o) = []) /\
  (forall o, (forall a, o <> OMb a) -> queue k (LSender o) = []).
Proof.
  unfold known_check. rewrite !andb_true_iff. intros [[H1 H2] H3].
  assert (Hq : forall h, queue k h = [] \/ exists x l, (h, x :: l) ∈ map_to_list (k_queues k)).
  { intros h. unfold queue. destruct (k_queues k !! h) as [[|x l]|] eqn:E; [by left| |by left]. right.
    exists x, l. by apply elem_of_map_to_list. }
  split_and!.
  - intros o Hn. assert (Hk : knownb k o = false) by (unfold knownb; by rewrite Hn). split.
    + intros Hs%in_stored_objects. pose proof (forallb_elem _ _ _ H1 Hs). congruence.
    + unfold registered, objects. destruct (k_container k !! obj_class o) as [l|] eqn:E; cbn; apply bool_decide_false;
        [|apply not_elem_of_nil]. intros Ho.
      assert (Hin : o ∈ concat (map_to_list (k_container k)).*2); [|pose proof (forallb_elem _ _ _ H2 Hin); congruence].
      apply list_elem_of_In, in_concat. exists l. split; [|by apply list_elem_of_In].
      apply list_elem_of_In, list_elem_of_fmap. exists (obj_class o, l). split; [done|]. by apply elem_of_map_to_list.
    + destruct (Hq (LSuspend o)) as [?|(x & l & Hin)]; [done|].
      pose proof (forallb_elem _ _ _ H3 Hin) as Hc. cbn in Hc. by rewrite Hk in Hc.
    + destruct (Hq (LSender o)) as [?|(x & l & Hin)]; [done|].
      pose proof (forallb_elem _ _ _ H3 Hin) as Hc. cbn in Hc. by rewrite Hk in Hc.
  - intros o Hs. destruct (Hq (LSuspend o)) as [?|(x & l & Hin)]; [done|].
    pose proof (forallb_elem _ _ _ H3 Hin) as Hc. cbn in Hc. apply andb_true_iff in Hc as [_ Hc].
    destruct o; try done; by destruct Hs.
  - intros o Hs. destruct (Hq (LSender o)) as [?|(x & l & Hin)]; [done|].
    pose proof (forallb_elem _ _ _ H3 Hin) as Hc. cbn in Hc. apply andb_true_iff in Hc as [_ Hc].
    destruct o; try done. by destruct (Hs a).
Qed.

Lemma blocks_check_sound k lv : blocks_check k lv = true ->
  (forall o b, dynamic k o -> b ∈ blocks_of k o -> b ∈ lv.*1) /\
  (forall o a len, dynamic k o -> obj_addr o = Some a -> (a, len) ∈ lv -> object_size (obj_class o) <= len) /\
  (forall o1 o2 b, dynamic k o1 -> dynamic k o2 -> b ∈ blocks_of k o1 -> b ∈ blocks_of k o2 -> o1 = o2) /\
  (forall o, dynamic k o -> NoDup (blocks_of k o)) /\
  (forall t, ~ dynamic k (OTimer (TmThread t))).
Proof.
  unfold blocks_check. rewrite andb_true_iff. intros [H1 H2]. apply bool_decide_eq_true in H2.
  assert (Hb : forall o, dynamic k o -> forallb (fun b => bool_decide (b ∈ lv.*1)) (blocks_of k o) = true /\
    match obj_addr o with
    | Some a => forallb (fun r : Z * Z => negb (r.1 =? a) || (object_size (obj_class o) <=? r.2)) lv = true
    | None => False
    end).
  { intros o Ho%in_heap_objects. pose proof (forallb_elem _ _ _ H1 Ho) as H. cbn beta in H.
    apply andb_true_iff in H as [? ?]. split; [done|]. by destruct (obj_addr o). }
  destruct (concat_nodup ((fun o => (o, blocks_of k o)) <$> heap_objects k) H2) as [N1 N2].
  { rewrite <-list_fmap_compose. erewrite (list_fmap_ext _ id); [rewrite list_fmap_id|by intros].
    apply list.NoDup_filter, NoDup_fst_map_to_list. }
  assert (Hp : forall o, dynamic k o -> (o, blocks_of k o) ∈ (fun o => (o, blocks_of k o)) <$> heap_objects k).
  { intros o Ho. apply list_elem_of_fmap. exists o. split; [done|]. by apply in_heap_objects. }
  split_and!.
  - intros o b Ho Hin. destruct (Hb o Ho) as [H _]. by apply (forallb_elem _ _ _ H), bool_decide_eq_true in Hin.
  - intros o a len Ho Ea Hin. destruct (Hb o Ho) as [_ H]. rewrite Ea in H.
    pose proof (forallb_elem _ _ _ H Hin) as Hl. cbn in Hl. rewrite Z.eqb_refl in Hl. by apply Z.leb_le.
  - intros o1 o2 b Ho1 Ho2 Hb1 Hb2. exact (N2 _ _ _ _ _ (Hp o1 Ho1) (Hp o2 Ho2) Hb1 Hb2).
  - intros o Ho. exact (N1 _ _ (Hp o Ho)).
  - intros t Ht. by destruct (Hb _ Ht) as [_ []].
Qed.

(** A state that passes the check agrees with its heap. *)
Lemma mem_check_sound k h bs : heap_wf h bs -> mem_check k h bs = true -> mem_ok k h bs.
Proof.
  intros W. unfold mem_check. rewrite !andb_true_iff. intros [[H1 H2] H3].
  destruct (blocks_check_sound k _ H1) as (B1 & B2 & B3 & B4 & B5).
  destruct (known_check_sound k H3) as (K1 & K2 & K3).
  split; try done.
  - intros o a Ho Hn Ea. pose proof (forallb_elem _ _ _ H2 (in_known_objects _ _ Ho)) as H. cbn beta in H.
    rewrite Ea in H. apply andb_true_iff in H as [H _]. apply orb_true_iff in H as [H|H].
    + by apply dynamicb_spec in H.
    + unfold outsideb in H. apply orb_true_iff in H as [H|H]; [left; by apply Z.ltb_lt|right; by apply Z.leb_le].
  - intros t Ho. pose proof (forallb_elem _ _ _ H2 (in_known_objects _ _ Ho)) as H. cbn beta in H.
    apply andb_true_iff in H as [_ H]. by apply knownb_spec.
Qed.

(** ** The board with its heap *)

#[local] Opaque board.

Lemma board_dyn_ok : dyn_ok 1000 10 board ram [Blk 0 1012 false].
Proof.
  split; [exact board_kernel_ok|exact board_heap_idle|apply mem_check_sound; [exact ram_wf|by_eval]|].
  split; [vm_compute; by eexists|]. intros H%dynamicb_spec. revert H. by_eval.
Qed.

(** The state a program leads to, and the address it returns. *)
Definition prun {A} (p : prog A) (s : hstate) : hstate :=
  match exec 10 p s with Some (_, s') => s' | None => s end.
Definition pval (p : prog Z) (s : hstate) : Z :=
  match exec 10 p s with Some (Done a, _) => a | _ => -1 end.

Definition mbox : prog Z := rt_mb_create (cstr "mbox2") 4 RT_IPC_FLAG_FIFO (Mailbox 0 0 [] 0 0 0 0) (replicate 4 0).

Lemma object_create_atomic_witness : exists a len pool len2 k' h' bs',
  exec 10 mbox (HState board ram) = Some (Done a, HState k' h') /\
  created 1000 10 OMb (cstr "mbox2") a len [(pool, len2)] board ram [Blk 0 1012 false] k' h' bs' /\ 16 <= len2.
Proof.
  destruct (object_create_atomic 1000 10 board ram _ (cstr "mbox2") RT_IPC_FLAG_FIFO board_dyn_ok)
    as (_ & _ & _ & H & _); [vm_compute; by eexists|by left|].
  destruct (H 4 (Mailbox 0 0 [] 0 0 0 0) (replicate 4 0)) as [(k' & h' & bs' & E & _)|(a & len & pool & len2 & k' & h' & bs' & E & C & L & _)];
    [lia|done| |exists a, len, pool, len2, k', h', bs'; exact (conj E (conj C L))].
  exfalso. assert (Hv : pval mbox (HState board ram) <> 0) by by_eval. apply Hv. unfold pval, mbox. by rewrite E.
Defined.

(** A semaphore on the heap; the thread 2000 waits for it, and 3000 runs. *)
Definition token : prog Z := rt_sem_create (cstr "sem2") 0 RT_IPC_FLAG_FIFO.
Definition heap_token : heap := hs_heap (prun token (HState board ram)).
Definition board_token : kstate :=
  run (rt_sem_take 536870924 (-1)) (hs_kernel (prun token (HState board ram))).

Definition sem_okb (k : kstate) (a : Z) (s : rt_semaphore) : bool :=
  bool_decide (0 <= sem_value s < 65536) && bool_decide (sem_flag s = 0 \/ sem_flag s = 1) &&
  ((sem_value s <=? 0) || bool_decide (queue k (LSuspend (OSem a)) = [])).
Lemma sems_check k : forallb (fun p => sem_okb k p.1 p.2) (map_to_list (k_sems k)) = true -> sems_ok k.
Proof.
  intros H a s E. assert (Hin : (a, s) ∈ map_to_list (k_sems k)) by by apply elem_of_map_to_list.
  pose proof (forallb_elem _ _ _ H Hin) as Hs. unfold sem_okb in Hs. cbn [fst snd] in Hs.
  rewrite !andb_true_iff, orb_true_iff in Hs. destruct Hs as [[H1 H2] H3].
  apply bool_decide_eq_true in H1, H2. split; [done|]. split; [done|]. intros Hv.
  destruct H3 as [H3%Z.leb_le|H3%bool_decide_eq_true]; [lia|done].
Qed.

Lemma board_token_ok : dyn_ok 1000 10 board_token heap_token [Blk 0 44 true; Blk 44 1012 false].
Proof.
  split.
  - split; [core_eval|..|by_eval|by_eval].
    + apply sems_check. by_eval.
    + apply (mutexes_eval board_token (default (Mutex 0 0 0 0 None) (k_mutexes board !! 20))); [by_eval|].
      split; [right; by_eval|]. by_eval.
    + apply (events_idle board_token); by_eval.
    + apply (mbs_eval board_token (Mailbox 0 400 [0; 0] 2 0 0 0)); [by_eval|]. split; simpl; try lia; try done. by left.
    + apply (mqs_eval board_token (mq_of board) []); [by_eval|exact board_mq_empty].
  - split; [by_eval|]. split; [by_eval|]. exists (Sem 0 1). split; by_eval.
  - apply mem_check_sound; [heap_wf_eval|by_eval].
  - split; [vm_compute; by eexists|]. intros H%dynamicb_spec. revert H. by_eval.
Qed.
#[local] Opaque board_token.

(** Deleted under its waiting thread: 2000 is ready again, with an error. *)
Lemma object_delete_releases_witness : exists k' h' th,
  exec 10 (rt_sem_delete 536870924) (HState board_token heap_token) = Some (Done RT_EOK, HState k' h') /\
  k_sems k' !! 536870924 = None /\ k_threads board_token !! 2000 = Some th /\
  k_threads k' !! 2000 = Some (set_th_stat RT_THREAD_READY (set_th_error (- RT_ERROR) th)).
Proof.
  destruct (object_delete_releases 1000 10 board_token heap_token _ 536870924 board_token_ok) as (H & _).
  destruct (H ltac:(apply dynamicb_spec; by_eval)) as (len & k' & h' & bs' & E & D).
  assert (Hq : 2000 ∈ queue board_token (LSuspend (OSem 536870924))) by (vm_compute; left).
  destruct (de_woken _ _ _ _ _ _ _ _ _ _ D 2000 (or_introl Hq)) as (th & E1 & E2).
  exists k', h', th. split; [exact E|]. split; [|exact (conj E1 E2)].
  destruct (de_gone _ _ _ _ _ _ _ _ _ _ D) as (_ & _ & Hn). by apply eq_None_not_Some.
Defined.

(** ** Threads *)

Definition worker (name : string) (priority : Z) : prog Z := rt_thread_create thread0 (cstr name) 7 0 100 priority 20.

Lemma rt_thread_create_whole_witness : exists a k' h' stack,
  exec 10 (worker "w" 20) (HState board ram) = Some (Done a, HState k' h') /\
  k_threads k' !! a = Some (new_thread thread0 7 0 stack 100 20 20).
Proof.
  destruct (rt_thread_create_whole 1000 10 board ram _ thread0 (cstr "w") 7 0 100 20 20 board_dyn_ok)
    as [(k' & h' & bs' & E & _)|(a & len & pool & len2 & k' & h' & bs' & E & C & L & Et)];
    [vm_compute; by eexists|lia|plia| |exists a, k', h', pool; split; [exact E|]; rewrite Et; apply lookup_insert_eq].
  exfalso. assert (Hv : pval (worker "w" 20) (HState board ram) <> 0) by by_eval. apply Hv. unfold pval, worker. by rewrite E.
Defined.

(** Two threads are deleted before they run; another one, more urgent than its creator, runs
    at once and ends. *)
Definition workers : prog unit :=
  a ← worker "w1" 20; atomic (rt_thread_startup a);;
  b ← worker "w2" 12; atomic (rt_thread_startup b);;
  atomic (rt_thread_delete a);; atomic (rt_thread_delete b);;
  c ← worker "w3" 5; atomic (rt_thread_startup c);; atomic rt_thread_exit.
Definition board_dead : kstate := hs_kernel (prun workers (HState board ram)).
Definition heap_dead : heap := hs_heap (prun workers (HState board ram)).
Definition blks_dead : list blk :=
  [Blk 0 140 true; Blk 140 252 true; Blk 252 392 true; Blk 392 504 true; Blk 504 644 true; Blk 644 756 true; Blk 756 1012 false].

Lemma board_dead_ok : dyn_ok 1000 10 board_dead heap_dead blks_dead.
Proof.
  split.
  - split; [core_eval|..|by_eval|by_eval].
    + apply sems_check. by_eval.
    + apply (mutexes_eval board_dead (default (Mutex 0 0 0 0 None) (k_mutexes board !! 20))); [by_eval|].
      split; [right; by_eval|]. by_eval.
    + apply (events_idle board_dead); by_eval.
    + apply (mbs_eval board_dead (Mailbox 0 400 [0; 0] 2 0 0 0)); [by_eval|]. split; simpl; try lia; try done. by left.
    + apply (mqs_eval board_dead (mq_of board) []); [by_eval|exact board_mq_empty].
  - split; [by_eval|]. split; [by_eval|]. exists (Sem 0 1). split; by_eval.
  - apply mem_check_sound; [unfold blks_dead; heap_wf_eval|by_eval].
  - split; [vm_compute; by eexists|]. intros H%dynamicb_spec. revert H. by_eval.
Qed.

Definition reclaimableb (k : kstate) (t : Z) : bool :=
  match k_threads k !! t with Some th => bool_decide (th_cleanup th = None) | None => false end &&
  dynamicb k (OThread t) && negb (registered (OTimer (TmThread t)) k) &&
  forallb (fun p : Z * rt_mutex => bool_decide (mx_owner p.2 <> Some t)) (map_to_list (k_mutexes k)).
Lemma reclaimableb_sound f k t : reclaimableb k t = true -> reclaimable f k t.
Proof.
  unfold reclaimableb. rewrite !andb_true_iff. intros [[[H1 H2] H3] H4]. split.
  - destruct (k_threads k !! t) as [th|]; [|done]. exists th. split; [done|]. intros f' Ef.
    apply bool_decide_eq_true in H1. congruence.
  - by apply dynamicb_spec.
  - by apply negb_true_iff.
  - intros a m E. assert (Hin : (a, m) ∈ map_to_list (k_mutexes k)) by by apply elem_of_map_to_list.
    pose proof (forallb_elem _ _ _ H4 Hin) as H. by apply bool_decide_eq_true in H.
Qed.
#[local] Opaque board_dead heap_dead.

Lemma rt_thread_idle_excute_cleans_witness : exists k' h',
  exec 10 (rt_thread_idle_excute (fun _ _ => mret tt) 3) (HState board_dead heap_dead) = Some (Done tt, HState k' h') /\
  queue k' LDefunct = [] /\ k_threads k' !! 536870924 = None.
Proof.
  destruct (rt_thread_idle_excute_cleans (fun _ _ => mret tt) 1000 10 board_dead heap_dead blks_dead board_dead_ok)
    as (rs & k' & h' & bs' & E & _ & Eq & _ & _ & Ht).
  { intros t Ht. apply reclaimableb_sound. revert t Ht. apply list.Forall_forall. vm_compute. repeat constructor. }
  assert (Hl : length (queue board_dead LDefunct) = 3%nat) by by_eval. rewrite Hl in E.
  exists k', h'. split; [exact E|]. split; [exact Eq|]. rewrite Ht. apply decide_True. vm_compute. right. right. left.
Defined.

(** What is left of the heap is one free block again. *)
Example idle_frees_all :
  match exec 10 (rt_thread_idle_excute (fun _ _ => mret tt) 3) (HState board_dead heap_dead) with
  | Some (Done _, s) => h_used (hs_heap s) = h_used ram /\ h_lfree (hs_heap s) = h_lfree ram
  | _ => False
  end.
Proof. vm_compute. done. Qed.

(** A static thread with a cleanup function ends the loop: the closed thread behind it, and
    its memory, are left for another call. *)
Definition static_dead : option hstate :=
  s ← exec 10 (a ← worker "w1" 20; atomic (rt_thread_delete a);;
               atomic (rt_thread_init 5000 thread0 (cstr "s") 0 0 5256 512 12 20);;
               atomic (mod_thread 5000 (set_th_cleanup (Some 1)));;
               atomic (rt_thread_detach 5000)) (HState board ram);
  Some s.2.
Example idle_stops_at_static_thread :
  match s ← static_dead; exec 10 (rt_thread_idle_excute (fun _ _ => mret tt) 2) s with
  | Some (Done _, s') => (s0 ← static_dead; Some (queue (hs_kernel s0) LDefunct)) = Some [5000; 536870924] /\
                         queue (hs_kernel s') LDefunct = [536870924]
  | _ => False
  end.
Proof. vm_compute. done. Qed.

(** [rt_mutex_delete] of a mutex whose owner has inherited a priority does not give the
    owner's own priority back. *)
Definition lock_deleted : option hstate :=
  s ← exec 10 (m ← rt_mutex_create (cstr "m") RT_IPC_FLAG_PRIO;
               atomic (rt_mutex_take m 0);;
               c ← worker "w3" 5; atomic (rt_thread_startup c);; atomic (rt_mutex_take m (-1));;
               rt_mutex_delete m) (HState board ram);
  Some s.2.
Example mutex_delete_keeps_boost :
  (s ← lock_deleted; Some (k_mutexes (hs_kernel s) !! 536870924, th_current_priority (th_of (hs_kernel s) 2000),
     th_init_priority (th_of (hs_kernel s) 2000))) = Some (None, 5, 10).
Proof. vm_compute. reflexivity. Qed.
