(* ===== verification/BoardDrivers.v ===== *)
(** * Completions, data queues, devices, serial lines and pipes on the board

    Concrete states in which the hypotheses of the theorems about the objects of the drivers
    hold, and runs that show what those theorems leave open. *)
From S2P Require Import Prelude RingBuffer KService Kernel Object Scheduler Timer Thread Frame Clock Ipc.
From S2P Require Import Sem MutexLock EventSet Mailbox MsgQueue Mempool Mem Heap Dynamic Completion DataQueue.
From S2P Require Import Device Serial Pipe MemFunc Format Console Board BoardDynamic.
#[local] Opaque board.

(** The state and the result of a run. *)
Lemma run_some {A} (m : M A) k a : fst <$> m k = Some a -> m k = Some (a, run m k).
Proof. unfold run. destruct (m k) as [[x k']|]; [|done]. cbn. by intros [= ->]. Qed.

(** ** Completions *)

(** A completion, and the thread 2000 waiting for it. *)
Definition board_cp : kstate := run (rt_completion_init 5000) board.
Definition board_cpw : kstate := run (rt_completion_wait 5000 5) board_cp.

Lemma rt_completion_wait_spec_witness :
  exists k', rt_completion_wait 5000 5 board_cp = Some (Wait (FCompletion 5000), k') /\
    cp_abs k' 5000 = Some (CWaited 2000) /\ k_current k' <> Some 2000.
Proof.
  destruct (rt_completion_wait_spec (k_tick board_cp) RT_TICK_HALF 1000 5000 5 board_cp 2000 (th_of board_cp 2000) CIdle)
    as (k' & H1 & H2 & H3).
  - core_eval.
  - by_eval.
  - by_eval.
  - ready_eval.
  - intros _. may_block_eval.
  - exists k'. exact (conj H1 (conj H2 (bl_cur H3))).
Defined.

Lemma rt_completion_done_spec_witness :
  exists k', rt_completion_done 5000 board_cpw = Some (tt, k') /\ cp_abs k' 5000 = Some CDone.
Proof.
  destruct (rt_completion_done_spec (k_tick board_cpw) RT_TICK_HALF 1000 5000 board_cpw (CWaited 2000)) as (k' & H1 & _ & H2 & _).
  - core_eval.
  - by_eval.
  - exists k'. exact (conj H1 H2).
Defined.

(** An interrupt handler finishes the operation; 2000 goes on. *)
Definition board_cpd : kstate := run (rt_completion_done 5000) board_cpw.
Lemma rt_completion_handshake_witness :
  exists k5, rt_completion_wait_resume 2000 5000 board_cpd = Some (RT_EOK, k5) /\ cp_abs k5 5000 = Some CIdle.
Proof.
  destruct (rt_completion_handshake (k_tick board_cp) RT_TICK_HALF 1000 5000 5 board_cp board_cpw board_cpw board_cpd 2000
    (th_of board_cp 2000)) as (k3 & H1 & _ & H2).
  - core_eval.
  - by_eval.
  - by_eval.
  - ready_eval.
  - discriminate.
  - may_block_eval.
  - exact (run_some (rt_completion_wait 5000 5) board_cp (Wait (FCompletion 5000)) ltac:(by_eval)).
  - core_eval.
  - reflexivity.
  - reflexivity.
  - assert (E : k3 = board_cpd) by (unfold board_cpd, run; rewrite H1; reflexivity). subst k3. exact (H2 eq_refl eq_refl).
Defined.

(** A completion that was done before the wait stays done: one [rt_completion_done] ends two
    waits. *)
Example completion_done_twice :
  match (rt_completion_done 5000;; a ← rt_completion_wait 5000 (-1); b ← rt_completion_wait 5000 (-1); mret (a, b)) board_cp with
  | Some (r, k) => r = (Ret RT_EOK, Ret RT_EOK) /\ cp_abs k 5000 = Some CDone
  | None => False
  end.
Proof. vm_compute. done. Qed.

(** ** Data queues *)

(** No callback is installed. *)
Definition no_callback (f a e : Z) : M unit := mret tt.

Definition dq_of (size lwm : Z) (low : bool) (get put : Z) (items : list (Z * Z)) : M unit :=
  kmod (put_dq 5100 (DataQueue size lwm low get put (Some items) None));;
  list_head_init (dq_push_list 5100);; list_head_init (dq_pop_list 5100).

(** A queue of two items, with one of them and with both; the indices wrap around. *)
Definition board_dq : kstate := run (dq_of 2 1 false 65535 0 [(0, 0); (700, 7)]) board.
Definition board_dqf : kstate := run (dq_of 2 1 false 0 2 [(600, 6); (700, 7)]) board.

Lemma board_dq_ok size lwm low get put items :
  (size = 1 \/ size = 2) -> 0 <= get < 65536 -> 0 <= put < 65536 -> u16 (put - get) <= size ->
  Z.of_nat (length items) = size -> dq_ok (DataQueue size lwm low get put (Some items) None).
Proof.
  intros Hs Hg Hp Hc Hl. split; cbn; try done; [|by exists items].
  destruct Hs as [->| ->]; [exists 0|exists 1]; (split; [lia|done]).
Qed.

Definition q_dq : rt_data_queue := DataQueue 2 1 false 65535 0 (Some [(0, 0); (700, 7)]) None.

Lemma rt_data_queue_push_refines_witness :
  exists q' k', rt_data_queue_push no_callback 5100 800 8 5 board_dq =
      (evt_notify no_callback 5100 RT_DATAQUEUE_EVENT_PUSH;; mret (Ret RT_EOK)) k' /\
    k_dqs k' !! 5100 = Some q' /\ dq_contents q' = [(700, 7); (800, 8)].
Proof.
  assert (Hc : core (k_tick board_dq) RT_TICK_HALF 1000 board_dq) by core_eval.
  assert (Ed : k_dqs board_dq !! 5100 = Some q_dq) by by_eval.
  assert (Hq : dq_ok q_dq) by (apply board_dq_ok; auto; vm_compute; intuition discriminate).
  assert (Ec : k_current board_dq = Some 2000) by by_eval.
  assert (Hr : is_ready board_dq 2000 (th_of board_dq 2000)) by ready_eval.
  assert (El : queue board_dq (dq_pop_list 5100) = []) by by_eval.
  pose proof (rt_data_queue_push_refines no_callback _ _ _ 5100 q_dq 800 8 5 board_dq 2000 _ Hc Ed Hq Ec Hr
    ltac:(intros H; discriminate H) ltac:(intros H; discriminate H)) as H.
  rewrite El in H. change (Z.of_nat (length (dq_contents q_dq)) =? dq_size q_dq) with false in H. cbv iota in H.
  destruct H as (q' & k' & _ & H1 & _ & _ & H2 & _ & H3). exists q', k'. split; [exact H3|]. split; [|exact H1].
  rewrite H2. apply lookup_insert_eq.
Defined.

Lemma rt_data_queue_pop_refines_witness :
  exists q' k', rt_data_queue_pop no_callback 5100 5 board_dq =
      (evt_notify no_callback 5100 RT_DATAQUEUE_EVENT_POP;; mret (Ret (RT_EOK, Some (700, 7), true))) k' /\
    k_dqs k' !! 5100 = Some q' /\ dq_contents q' = [].
Proof.
  assert (Hc : core (k_tick board_dq) RT_TICK_HALF 1000 board_dq) by core_eval.
  assert (Ed : k_dqs board_dq !! 5100 = Some q_dq) by by_eval.
  assert (Hq : dq_ok q_dq) by (apply board_dq_ok; auto; vm_compute; intuition discriminate).
  assert (Ec : k_current board_dq = Some 2000) by by_eval.
  assert (Hr : is_ready board_dq 2000 (th_of board_dq 2000)) by ready_eval.
  pose proof (rt_data_queue_pop_refines no_callback _ _ _ 5100 q_dq 5 board_dq 2000 _ Hc Ed Hq Ec Hr
    ltac:(intros H; discriminate H)) as H.
  change (dq_contents q_dq) with [(700, 7)] in H. cbv zeta in H.
  destruct H as (q' & k' & _ & H1 & _ & _ & H2 & _ & _ & H3). exists q', k'. split; [exact H3|]. split; [|exact H1].
  rewrite H2. apply lookup_insert_eq.
Defined.

(** Both threads wait for room, then the idle thread resets the queue. *)
Definition board_dqw : kstate :=
  run (rt_data_queue_push no_callback 5100 800 8 (-1);; rt_data_queue_push no_callback 5100 900 9 (-1)) board_dqf.
Lemma rt_data_queue_reset_spec_witness :
  exists k', rt_data_queue_reset 5100 board_dqw = Some (tt, k') /\ queue k' (dq_push_list 5100) = [] /\
    exists th, k_threads k' !! 3000 = Some (set_th_stat RT_THREAD_READY (set_th_error (- RT_ERROR) th)).
Proof.
  destruct (rt_data_queue_reset_spec (k_tick board_dqw) RT_TICK_HALF 1000 5100 board_dqw) as (k' & H1 & _ & _ & _ & H2 & H3 & _).
  - core_eval.
  - vm_compute. done.
  - exists k'. split; [exact H1|]. split; [exact H2|]. destruct (H3 3000) as (th & _ & H).
    + right. assert (E : queue board_dqw (dq_push_list 5100) = [2000; 3000]) by by_eval. rewrite E. apply list_elem_of_further, list_elem_of_here.
    + by exists th.
Defined.

(** A full queue whose [put_index] has wrapped around takes one more item, in the place of the
    oldest. *)
Example dq_overrun_after_wrap :
  match (dq_of 2 1 false 65535 1 [(600, 6); (700, 7)];; a ← rt_data_queue_push no_callback 5100 800 8 0;
         b ← rt_data_queue_pop no_callback 5100 0; mret (a, b)) board with
  | Some (r, _) => r = (Ret RT_EOK, Ret (RT_EOK, Some (800, 8), true))
  | None => False
  end.
Proof. vm_compute. done. Qed.

(** A full queue of four items with the mark at 1: after the wrap of [put_index] the first pop tells
    the callback of the mark, although three items are left. *)
Example dq_low_after_wrap :
  match (dq_of 4 1 true 65533 1 [(500, 5); (600, 6); (700, 7); (800, 8)];; rt_data_queue_pop no_callback 5100 0) board with
  | Some (r, k) => r = Ret (RT_EOK, Some (600, 6), false) /\ dq_count <$> k_dqs k !! 5100 = Some 3
  | None => False
  end.
Proof. vm_compute. done. Qed.

(** A push that was refused lets the pop that reaches the low water mark return with the
    interrupts disabled. *)
Example dq_pop_interrupts_off :
  match (rt_data_queue_push no_callback 5100 800 8 0;; rt_data_queue_pop no_callback 5100 0) board_dqf with
  | Some (r, _) => r = Ret (RT_EOK, Some (600, 6), false)
  | None => False
  end.
Proof. vm_compute. done. Qed.

(** Two threads wait for room in a queue of one item.  The idle thread takes the item, the
    first thread puts its own in and goes to sleep, the idle thread takes that out too: the
    queue is empty and the second thread still waits for room. *)
Definition two_pushers : M unit :=
  dq_of 1 0 false 0 1 [(600, 6)];;
  rt_data_queue_push no_callback 5100 700 7 (-1);;
  rt_data_queue_push no_callback 5100 800 8 (-1);;
  rt_data_queue_pop no_callback 5100 0;;
  rt_data_queue_push_resume no_callback 2000 5100 700 7 (-1);;
  rt_thread_sleep 10;;
  rt_data_queue_pop no_callback 5100 0;;
  mret tt.
Example dq_lost_wakeup :
  match two_pushers board with
  | Some (_, k) => k_current k = Some 1000 /\ queue k (dq_push_list 5100) = [3000] /\
      dq_count <$> k_dqs k !! 5100 = Some 0
  | None => False
  end.
Proof. vm_compute. done. Qed.

(** ** Devices *)

(** A driver that accepts everything, and one whose open fails. *)
Definition null_driver : driver :=
  Driver (fun _ _ => mret RT_EOK) (fun _ _ _ => mret RT_EOK) (fun _ _ => mret RT_EOK)
    (fun _ _ _ _ size => mret (Ret (size, replicate (Z.to_nat size) 0))) (fun _ _ _ _ _ size => mret (Ret size)) (fun _ _ _ _ => mret RT_EOK).
Definition broken_driver : driver :=
  Driver (fun _ _ => mret RT_EOK) (fun _ _ _ => mret (- RT_ERROR)) (fun _ _ => mret RT_EOK)
    (fun _ _ _ _ size => mret (Ret (size, replicate (Z.to_nat size) 0))) (fun _ _ _ _ _ size => mret (Ret size)) (fun _ _ _ _ => mret RT_EOK).

(** They serve every device. *)
Definition any_dev (k : kstate) (d : Z) : Prop := True.
#[export] Instance null_driver_ok : DriverOk null_driver any_dev.
Proof. split; intros; [done|..]; exists RT_EOK, k; (split; [done|]); first [reflexivity|split; [reflexivity|done]]. Qed.
#[export] Instance broken_driver_ok : DriverOk broken_driver any_dev.
Proof. split; intros; [done|exists RT_EOK, k|exists (- RT_ERROR), k|exists RT_EOK, k]; (split; [done|]); first [reflexivity|split; [reflexivity|done]]. Qed.
Lemma null_driver_faultless : faultless null_driver any_dev.
Proof. repeat split; intros *; intros _; injection 1; auto. Qed.

Definition uart : rt_device := Device 0 0 0 0 None None (Some 1) (Some 2) (Some 3) (Some 4) (Some 5) (Some 6) 0.
Definition board_dev : kstate := run (rt_device_register 5200 uart (cstr "uart1") 3) board.

Lemma device_sessions_witness :
  exists k', dev_calls null_driver 5200 [DClose; DOpen 3; DOpen 3; DClose; DOpen 1; DClose; DClose] board_dev =
      Some ([- RT_ERROR; RT_EOK; RT_EOK; RT_EOK; RT_EOK; RT_EOK; RT_EOK], k') /\ any_dev k' 5200 /\ dev_users k' 5200 0.
Proof.
  apply (device_sessions null_driver any_dev 5200 0).
  - exact null_driver_faultless.
  - exact I.
  - exists (set_dv_flag 3 uart). split; [by_eval|]. repeat split; try reflexivity.
  - reflexivity.
Defined.

Lemma rt_device_open_spec_witness :
  exists r k' v', rt_device_open broken_driver 5200 3 board_dev = Some (r, k') /\ k_devs k' !! 5200 = Some v' /\
    open_outcome 3 r (set_dv_flag 3 uart) v'.
Proof.
  destruct (rt_device_open_spec broken_driver any_dev 5200 3 (set_dv_flag 3 uart) board_dev) as (r & k' & v' & H1 & H2 & _ & H3).
  - by_eval.
  - exact I.
  - split; [discriminate|reflexivity].
  - exists r, k', v'. exact (conj H1 (conj H2 H3)).
Defined.

Lemma board_registry : registry_ok board.
Proof.
  assert (E : devices board = []) by by_eval. split.
  - intros o Ho. rewrite E in Ho. destruct (not_elem_of_nil _ Ho).
  - intros o o' nm Ho. rewrite E in Ho. destruct (not_elem_of_nil _ Ho).
Qed.

Lemma rt_device_register_find_witness :
  exists k' k'', rt_device_register 5200 uart (cstr "uart1") 3 board = Some (RT_EOK, k') /\ registry_ok k' /\
    rt_device_find (cstr "uart1") k' = Some (Some (ODev 5200), k'').
Proof.
  destruct (rt_device_register_find (k_tick board) RT_TICK_HALF 1000 5200 uart (cstr "uart1") 3 board) as (r & k' & H1 & _ & H2 & H3).
  - exact board_core.
  - vm_compute. done.
  - exact board_registry.
  - repeat constructor; discriminate || reflexivity.
  - eexists. reflexivity.
  - discriminate.
  - vm_compute. set_solver.
  - assert (Hr : r = RT_EOK).
    { assert (E : fst <$> rt_device_register 5200 uart (cstr "uart1") 3 board = Some RT_EOK) by by_eval.
      rewrite H1 in E. injection E as E. exact E. }
    subst r. destruct H3 as (_ & _ & _ & k'' & H3). exists k', k''. exact (conj H1 (conj H2 H3)).
Defined.

Lemma rt_device_init_all_spec_witness :
  exists k', rt_device_init_all null_driver board_dev = Some (RT_EOK, k') /\ initialised null_driver any_dev 5200 board_dev k'.
Proof.
  assert (E : devices board_dev = [ODev 5200]) by by_eval.
  destruct (rt_device_init_all_spec null_driver any_dev board_dev) as (k' & H1 & _ & _ & H2).
  - rewrite E. repeat constructor. apply not_elem_of_nil.
  - rewrite E. intros o ->%list_elem_of_singleton. exists 5200. split; [reflexivity|]. split; [|exact I]. eexists. by_eval.
  - exists k'. split; [exact H1|]. apply H2. rewrite E. apply list_elem_of_here.
Defined.

(** After the driver refused to open the device, the device has a user, is not open, and is
    read from. *)
Example device_open_failed :
  match (a ← rt_device_open broken_driver 5200 3; n ← rt_device_read broken_driver 5200 0 0 4; v ← get_dev 5200;
         mret (a, n, dv_ref_count v, opened v)) board_dev with
  | Some (r, _) => r = (- RT_ERROR, Ret (4, [0; 0; 0; 0]), 1, false)
  | None => False
  end.
Proof. vm_compute. done. Qed.

(** ** Serial lines *)

Definition ring0 : serial_rb := SerialRb (replicate 2048 0) 0 0.
Definition serial0 : rt_serial := Serial (Some RT_EOK) (Some ring0) None false [] [].
Definition no_indicate (f d n : Z) : M Z := mret RT_EOK.

(** A line that receives by interrupts, registered and open. *)
Definition board_line : kstate :=
  run (kmod (put_sr 5300 serial0);; rt_hw_serial_register 5300 uart (cstr "uart2") 0x103 0;;
       rt_device_open (serial_driver no_callback) 5300 3) board.

Definition bytes_check (l : list Z) : bool := forallb (fun c => (0 <=? c) && (c <? 256)) l.
Lemma bytes_check_sound l : bytes_check l = true -> Forall (fun c => 0 <= c < 256) l.
Proof. intros H. apply List.Forall_forall. intros x Hx. pose proof (proj1 (forallb_forall _ _) H x Hx) as Hb. apply andb_true_iff in Hb as [Ha Hb]. lia. Qed.

Definition sr_of (k : kstate) (d : Z) : rt_serial := default serial0 (k_serials k !! d).
Lemma ring0_ok : sb_ok ring0.
Proof. split; [reflexivity|vm_compute; done|vm_compute; done|]. apply bytes_check_sound. vm_compute. reflexivity. Qed.

Lemma board_line_ok : line_ok board_line 5300 [].
Proof.
  split; [exists 2000; eexists; split; by_eval|]. eexists _, (sr_of board_line 5300). split; [by_eval|].
  split; [by_eval|]. split; [by_eval|]. split; [by eexists|]. split; [by_eval|]. split; [by_eval|]. split; [|by_eval].
  exists ring0. split; [by_eval|]. split; [exact ring0_ok|by_eval].
Qed.

Lemma serial_line_stream_witness :
  exists k', line_run no_callback no_indicate 5300 [LReceive [65; 66; 67]; LRead 2; LReceive [68]; LRead 5] board_line =
    Some ([65; 66; 67; 68], k') /\ line_ok k' 5300 [].
Proof.
  destruct (serial_line_stream no_callback no_indicate 5300 [LReceive [65; 66; 67]; LRead 2; LReceive [68]; LRead 5] [] board_line)
    as (k' & H1 & H2 & _).
  - exact board_line_ok.
  - repeat constructor; cbn; first [lia|split; lia].
  - exists k'. exact (conj H1 H2).
Defined.

(** A line that sends with DMA. *)
Definition dma_dev : rt_device := Device 0 0x813 8 1 None None (Some 1) (Some 2) (Some 3) (Some 4) (Some 5) (Some 6) 0.
Definition q_dma : rt_data_queue := DataQueue 4 1 false 0 0 (Some (replicate 4 (0, 0))) None.
Definition board_dma : kstate :=
  run (kmod (put_sr 5300 serial0);; kmod (put_dev 5300 dma_dev);; kmod (put_dq (tx_dq 5300) q_dma);;
       list_head_init (dq_push_list (tx_dq 5300));; list_head_init (dq_pop_list (tx_dq 5300))) board.

Lemma board_dma_ok : dma_ok (k_tick board_dma) RT_TICK_HALF 1000 board_dma 5300 4 0 [].
Proof.
  split; [core_eval|]. exists dma_dev, serial0, q_dma. split; [by_eval|]. split; [by_eval|]. split; [by_eval|]. do 4 (split; [by_eval|]).
  split; [split; [exists 2; split; [lia|reflexivity]|vm_compute; done|vm_compute; done|vm_compute; done|by eexists]|].
  do 5 (split; [by_eval|]). split; by_eval.
Qed.

Lemma serial_dma_in_order_witness :
  exists k' n' m', dma_run no_callback no_indicate 5300 [DWrite 600 [1; 2]; DWrite 700 [3]; DDone; DWrite 800 [4]; DDone] board_dma =
    Some ([2; 1; 1], k') /\ dma_ok (k_tick board_dma) RT_TICK_HALF 1000 k' 5300 n' m' [(600, 2); (700, 1); (800, 1)].
Proof.
  exact (serial_dma_in_order no_callback no_indicate (k_tick board_dma) RT_TICK_HALF 1000 5300
    [DWrite 600 [1; 2]; DWrite 700 [3]; DDone; DWrite 800 [4]; DDone] 4 0 [] board_dma [(600, 2); (700, 1); (800, 1)] [2; 1; 1]
    board_dma_ok eq_refl).
Defined.

Lemma rt_serial_write_polling_witness :
  rt_serial_write no_callback 5300 0 600 [72; 10] 2 board_line =
    Some (Ret 2, put_sr 5300 (set_sr_calls (sr_calls (sr_of board_line 5300) ++ [UPutc 72; UPutc 10]) (sr_of board_line 5300)) board_line).
Proof.
  exact (rt_serial_write_polling no_callback 5300 0 600 [72; 10] (set_dv_open_flag 11 (set_dv_ref_count 1 (set_dv_flag 0x113 uart))) (sr_of board_line 5300) board_line
    ltac:(discriminate) ltac:(by_eval) ltac:(by_eval) eq_refl eq_refl).
Defined.

(** A thread is switched out between its push and the test of [dma_flag], and another thread
    writes: its buffer is sent twice and the first one never. *)
Definition dma_race : M unit :=
  rt_data_queue_push no_callback (tx_dq 5300) 600 6 20;;
  rt_serial_write no_callback 5300 0 700 [1; 2; 3] 3;;
  serial_dma_start 5300 600 6 RT_EOK;;
  rt_hw_serial_dma_tx_isr no_callback no_indicate 5300;;
  rt_hw_serial_dma_tx_isr no_callback no_indicate 5300.
Example dma_write_race :
  match dma_race board_dma with
  | Some (_, k) => dmas (sr_calls (sr_of k 5300)) = [(700, 3); (700, 3)] /\ sr_dma_flag (sr_of k 5300) = false
  | None => False
  end.
Proof. vm_compute. done. Qed.

(** With interrupts for sending, what is written goes to a ring that nothing reads. *)
Example serial_int_tx_unsent :
  match (kmod (put_sr 5300 (Serial None None (Some ring0) false [] []));;
         kmod (put_dev 5300 (set_dv_flag 0x413 dma_dev));;
         rt_serial_write no_callback 5300 0 600 [1; 2; 3] 3) board with
  | Some (r, k) => r = Ret 3 /\ sr_calls (sr_of k 5300) = []
  | None => False
  end.
Proof. vm_compute. done. Qed.

(** ** Pipes *)

(** A pipe of four bytes whose readers wait; 2000 waits for data; 3000 has written three bytes. *)
Definition board_pipe : kstate := run (rt_pipe_init 5400 zeros (cstr "pipe") 1 9000 (replicate 4 0) 4) board.
Definition board_piper : kstate := run (rt_pipe_read 5400 0 0 2) board_pipe.
Definition board_pipew : kstate := run (rt_pipe_write no_indicate 5400 0 0 [1; 2; 3] 3) board_piper.
Definition pipe0 : rt_pipe := Pipe (RingBuffer (replicate 4 0) false 0 false 0 4) 9000 1.
Lemma pipe0_ok : rb_ok (pp_rb pipe0) [].
Proof. apply (rt_ringbuffer_init_empty (replicate 4 0) 4 (pp_rb pipe0)); [lia|reflexivity|reflexivity]. Qed.

Lemma pipe_handshake_witness :
  exists k5, rt_pipe_read_resume 2000 5400 2 board_pipew = Some (Ret (2, [1; 2]), k5).
Proof.
  destruct (pipe_handshake no_indicate (k_tick board_pipe) RT_TICK_HALF 1000 5400 0 2 pipe0 board_pipe 2000 (th_of board_pipe 2000)
    board_piper 3000 (th_of board_piper 3000) [1; 2; 3]
    (set_dv_flag 3 (Device 15 0 0 0 None None None None None (Some 7) (Some 8) (Some 9) 0)) board_pipew) as (k1 & H1 & _ & _ & H2).
  - core_eval.
  - by_eval.
  - exact pipe0_ok.
  - split; reflexivity.
  - by_eval.
  - ready_eval.
  - by_eval.
  - by_eval.
  - reflexivity.
  - reflexivity.
  - may_block_eval.
  - assert (E1 : k1 = board_piper) by (unfold board_piper, run; rewrite H1; reflexivity). subst k1. clear H1.
    destruct H2 as (n & k3 & H3 & Hn & _ & H4).
    + core_eval.
    + reflexivity.
    + by_eval.
    + by_eval.
    + reflexivity.
    + by_eval.
    + ready_eval.
    + discriminate.
    + discriminate.
    + reflexivity.
    + assert (E3 : k3 = board_pipew) by (unfold board_pipew, run; change (Z.of_nat (length [1; 2; 3])) with 3 in H3; rewrite H3; reflexivity).
      subst k3. subst n. apply H4; [core_eval|reflexivity|by_eval].
Defined.

(** [rt_pipe_create] under a name that is in use fails and keeps both blocks of memory. *)
Definition pipe_twice : prog Z :=
  rt_pipe_create (cstr "p") 0 8 (replicate 8 0);; rt_pipe_create (cstr "p") 0 8 (replicate 8 0).
Example pipe_create_leaks :
  match exec 10 (rt_pipe_create (cstr "p") 0 8 (replicate 8 0)) (HState board ram), exec 10 pipe_twice (HState board ram) with
  | Some (Done r1, s1), Some (Done r2, s2) => r1 = RT_EOK /\ r2 = - RT_ERROR /\ h_used (hs_heap s2) = 2 * h_used (hs_heap s1)
  | _, _ => False
  end.
Proof. vm_compute. done. Qed.

(** A data queue on the heap: items go through it, and a heap that is full is reported. *)
Example data_queue_on_heap :
  match exec 10 (r ← rt_data_queue_init 5100 4 1 None (replicate 4 (0, 0));
                 a ← atomic (rt_data_queue_push no_callback 5100 700 7 0);
                 b ← atomic (rt_data_queue_pop no_callback 5100 0); mret (r, a, b)) (HState board ram),
        exec 10 (rt_data_queue_init 5100 4096 1 None []) (HState board ram) with
  | Some (Done r, _), Some (Done r', _) => r = (RT_EOK, Ret RT_EOK, Ret (RT_EOK, Some (700, 7), true)) /\ r' = - RT_ENOMEM
  | _, _ => False
  end.
Proof. vm_compute. done. Qed.

(** ** The console *)

(** The console is the line of the board above. *)
Definition console0 : console := Console (Some 5300) 7000 (replicate 256 0).
(** "t=%d" and a line feed. *)
Definition console_fmt : list piece := [Lit 116; Lit 61; Conv (Dir [] WNone PNone None 100); Lit 10].
Lemma console_fmt_ok : Forall piece_ok console_fmt.
Proof.
  apply list.Forall_cons; split; [done|]. apply list.Forall_cons; split; [done|]. apply list.Forall_cons; split; [|by apply list.Forall_cons; split].
  split; [done|]. repeat split. apply (bool_decide_unpack _). done.
Qed.

Lemma rt_kprintf_serial_witness :
  exists log, rt_kprintf (serial_driver no_callback) (fun _ => None) (format_text console_fmt ++ [0]) [4294967291] console0 board_line =
    Some ((Ret tt, set_cs_log log console0),
      put_sr 5300 (set_sr_calls (sr_calls (sr_of board_line 5300) ++ [UPutc 116; UPutc 61; UPutc 45; UPutc 53; UPutc 13; UPutc 10])
        (sr_of board_line 5300)) board_line).
Proof.
  exact (rt_kprintf_serial no_callback (fun _ => None) console_fmt [4294967291] console0 [116; 61; 45; 53; 10] 5300
    (set_dv_open_flag 11 (set_dv_ref_count 1 (set_dv_flag 0x113 uart))) (sr_of board_line 5300) board_line
    console_fmt_ok eq_refl ltac:(cbn; lia) ltac:(cbn; lia) eq_refl ltac:(cbn; lia) eq_refl ltac:(by_eval) ltac:(discriminate) ltac:(eexists; reflexivity)
    ltac:(cbn; lia) eq_refl eq_refl ltac:(by_eval)).
Defined.

(** Of a text of 300 characters the line gets 254 and a zero. *)
Example kprintf_sends_zero :
  match rt_kprintf (serial_driver no_callback) (fun _ => None) (replicate 300 65 ++ [0]) [] console0 board_line with
  | Some (_, k) => sr_calls (sr_of k 5300) = sr_calls (sr_of board_line 5300) ++ replicate 254 (UPutc 65) ++ [UPutc 0]
  | None => False
  end.
Proof. vm_compute. reflexivity. Qed.
