(* ===== verification/Cmux.v ===== *)
(** * The multiplexer of the modem line
      (src/bsp/easyio_core/gsmmux/easyio_cmux.c, and [make_fcs] of gsmmux/buffer.c)

    The application talks to the modem over several virtual ports, in frames of the GSM
    07.10 basic mode.  [make_cmux_pkg] makes a frame, [cmux_write] cuts what is sent on a
    port into frames, and [__parser_cmux_pkg] takes the bytes that come in, one at a time,
    and hands a complete frame to [recv_vport_data].  A byte is a number below 256.  An
    access outside of the parser's buffer is [None]. *)
From S2P Require Import Prelude.

(** [r_crctable]. *)
Definition r_crctable : list Z :=
  [0; 145; 227; 114; 7; 150; 228; 117; 14; 159; 237; 124; 9; 152; 234; 123;
   28; 141; 255; 110; 27; 138; 248; 105; 18; 131; 241; 96; 21; 132; 246; 103;
   56; 169; 219; 74; 63; 174; 220; 77; 54; 167; 213; 68; 49; 160; 210; 67;
   36; 181; 199; 86; 35; 178; 192; 81; 42; 187; 201; 88; 45; 188; 206; 95;
   112; 225; 147; 2; 119; 230; 148; 5; 126; 239; 157; 12; 121; 232; 154; 11;
   108; 253; 143; 30; 107; 250; 136; 25; 98; 243; 129; 16; 101; 244; 134; 23;
   72; 217; 171; 58; 79; 222; 172; 61; 70; 215; 165; 52; 65; 208; 162; 51;
   84; 197; 183; 38; 83; 194; 176; 33; 90; 203; 185; 40; 93; 204; 190; 47;
   224; 113; 3; 146; 231; 118; 4; 149; 238; 127; 13; 156; 233; 120; 10; 155;
   252; 109; 31; 142; 251; 106; 24; 137; 242; 99; 17; 128; 245; 100; 22; 135;
   216; 73; 59; 170; 223; 78; 60; 173; 214; 71; 53; 164; 209; 64; 50; 163;
   196; 85; 39; 182; 195; 82; 32; 177; 202; 91; 41; 184; 205; 92; 46; 191;
   144; 1; 115; 226; 151; 6; 116; 229; 158; 15; 125; 236; 153; 8; 122; 235;
   140; 29; 111; 254; 139; 26; 104; 249; 130; 19; 97; 240; 133; 20; 102; 247;
   168; 57; 75; 218; 175; 62; 76; 221; 166; 55; 69; 212; 161; 48; 66; 211;
   180; 37; 87; 198; 179; 34; 80; 193; 186; 43; 89; 200; 189; 44; 94; 207].
Definition crc_at (x : Z) : Z := default 0 (r_crctable !! Z.to_nat x).

(** [make_fcs]. *)
Definition fcs_step (fcs b : Z) : Z := crc_at (Z.lxor fcs b).
Definition make_fcs (input : list Z) : Z := 255 - foldl fcs_step 255 input.

(** ** Sending *)

Definition F_FLAG : Z := 249.  (* 0xF9 *)
Definition UIH : Z := 239.     (* 0xEF *)

Section Send.
(** Whether [rt_malloc] gives a buffer of that many bytes. *)
Context (malloc_ok : Z -> bool).

(** [make_cmux_pkg]: the bytes given to the serial device. *)
Definition make_cmux_pkg (buf : list Z) (channel : Z) : list Z :=
  let len := Z.of_nat (length buf) in
  if malloc_ok (len + 16) then
    let addr := if channel =? 1 then 5 else if channel =? 2 then 9 else 3 in
    let head := [addr; UIH; u8 (Z.shiftl (Z.land 127 len) 1); u8 (Z.shiftr (Z.land 32640 len) 7)] in
    F_FLAG :: head ++ buf ++ [make_fcs head; F_FLAG]
  else [].

(** [cmux_write]: at most 64 bytes to a frame; [fuel] bounds the rounds. *)
Definition CMUX_MAX_LEN : Z := 64.
Fixpoint cmux_write_loop (fuel : nat) (port : Z) (data : list Z) : list Z :=
  match fuel with
  | O => []
  | S fuel' =>
      if CMUX_MAX_LEN <? Z.of_nat (length data) then
        make_cmux_pkg (take (Z.to_nat CMUX_MAX_LEN) data) port ++
        cmux_write_loop fuel' port (drop (Z.to_nat CMUX_MAX_LEN) data)
      else make_cmux_pkg data port
  end.
Definition cmux_write (port : Z) (data : list Z) : list Z := cmux_write_loop (S (length data)) port data.

End Send.

(** ** Receiving *)

(** [cmux_tmp_buf], [cmux_tmp_buf_index], [cmux_tmp_buf_len] and [recv_cmux_data_timer]. *)
Record cmux := Cmux { cm_buf : list Z; cm_index : Z; cm_len : Z; cm_timer : Z }.
Definition CMUX_BUF_SIZE : Z := 1280.
Definition set_cm_index (i : Z) (p : cmux) : cmux := Cmux (cm_buf p) i (cm_len p) (cm_timer p).
Definition set_cm_len (l : Z) (p : cmux) : cmux := Cmux (cm_buf p) (cm_index p) l (cm_timer p).
Definition set_cm_timer (t : Z) (p : cmux) : cmux := Cmux (cm_buf p) (cm_index p) (cm_len p) t.

(** [cmux_tmp_buf[cmux_tmp_buf_index++] = data]. *)
Definition cm_put (data : Z) (p : cmux) : option cmux :=
  if cm_index p <? Z.of_nat (length (cm_buf p)) then
    Some (Cmux (<[Z.to_nat (cm_index p) := data]> (cm_buf p)) (cm_index p + 1) (cm_len p) (cm_timer p))
  else None.

(** The bytes [cmux_tmp_buf[from]] and the following. *)
Definition cm_sub (p : cmux) (from n : Z) : list Z := take (Z.to_nat n) (drop (Z.to_nat from) (cm_buf p)).

(** What [recv_vport_data] is called with. *)
Definition delivery : Type := Z * list Z.

(** The part of [__parser_cmux_pkg] behind the header. *)
Definition parse_body (data : Z) (p : cmux) : option (cmux * list delivery) :=
  if (cm_index p =? cm_len p + 5) &&
     negb (data =? make_fcs (cm_sub p 1 (if default 0 (cm_buf p !! 4%nat) =? 255 then 3 else 4)))
  then Some (set_cm_len 0 p, [])
  else if cm_index p =? cm_len p + 6 then
    if data =? F_FLAG
    then Some (set_cm_index 0 p, [(Z.shiftr (default 0 (cm_buf p !! 1%nat)) 2, cm_sub p 5 (cm_len p))])
    else Some (set_cm_index 0 p, [])
  else p ← cm_put data p; Some (p, []).

(** The [switch] of [__parser_cmux_pkg]. *)
Definition parse_byte (data : Z) (p : cmux) : option (cmux * list delivery) :=
  if cm_index p =? 0 then
    if data =? F_FLAG then p ← cm_put F_FLAG p; Some (p, []) else Some (set_cm_index 0 p, [])
  else if cm_index p =? 1 then p ← cm_put data p; Some (p, [])
  else if cm_index p =? 2 then
    if data =? UIH then p ← cm_put UIH p; Some (p, []) else Some (set_cm_index 0 p, [])
  else if cm_index p =? 3 then
    if Z.land data 1 =? 0 then
      p ← cm_put data p; Some (set_cm_len (Z.shiftr data 1) p, [])
    else
      p ← cm_put data p; p ← cm_put 255 (set_cm_len (Z.shiftr data 1) p); Some (p, [])
  else if cm_index p =? 4 then
    p ← cm_put data p;
    let p := set_cm_len (u16 (data * 256 + cm_len p)) p in
    Some (if CMUX_BUF_SIZE - 32 <=? cm_len p then set_cm_index 0 p else p, [])
  else parse_body data p.

(** [__parser_cmux_pkg] at the second [now] of the application's clock: after more than a
    second of silence a frame begun is given up. *)
Definition parser_cmux_pkg (now data : Z) (p : cmux) : option (cmux * list delivery) :=
  parse_byte data (set_cm_timer now (if 1 <? u32 (now - cm_timer p) then set_cm_index 0 p else p)).

(** [read_cmux_port]: the bytes one after the other, each with the time of its coming. *)
Fixpoint feed (bs : list (Z * Z)) (p : cmux) : option (cmux * list delivery) :=
  match bs with
  | [] => Some (p, [])
  | (now, b) :: bs' =>
      r ← parser_cmux_pkg now b p;
      r' ← feed bs' r.1;
      Some (r'.1, r.2 ++ r'.2)
  end.

(** ** The check sequence against its definition *)

(** One bit of the division by the reversed polynomial x^8 + x^2 + x + 1. *)
Definition crc_bit (x : Z) : Z := if Z.odd x then Z.lxor (Z.shiftr x 1) 224 else Z.shiftr x 1.
(** A byte: eight bits, the lowest first. *)
Definition crc_byte (fcs b : Z) : Z := Nat.iter 8 crc_bit (Z.lxor fcs b).
Definition fcs_ref (input : list Z) : Z := Z.lnot (foldl crc_byte 255 input) mod 256.

Definition byte (b : Z) : Prop := 0 <= b < 256.

Lemma lxor_byte x y : byte x -> byte y -> byte (Z.lxor x y).
Proof.
  intros Hx Hy. unfold byte in *.
  assert (H0 : 0 <= Z.lxor x y) by (apply Z.lxor_nonneg; lia). split; [done|].
  destruct (decide (Z.lxor x y = 0)) as [->|Hnz]; [lia|].
  apply (Z.log2_lt_cancel _ 256). pose proof (Z.log2_lxor x y ltac:(lia) ltac:(lia)) as Hl.
  assert (Hlog : forall z, byte z -> Z.log2 z < 8).
  { intros z Hz. destruct (decide (z = 0)) as [->|]; [done|]. apply Z.log2_lt_pow2; unfold byte in Hz; lia. }
  pose proof (Hlog x Hx). pose proof (Hlog y Hy). change (Z.log2 256) with 8. lia.
Qed.

Lemma crc_table_ok : forallb (fun x => (crc_at x =? Nat.iter 8 crc_bit x) && (0 <=? crc_at x) && (crc_at x <? 256))
  (seqZ 0 256) = true.
Proof. vm_compute. reflexivity. Qed.

Lemma crc_at_ok x : byte x -> crc_at x = Nat.iter 8 crc_bit x /\ byte (crc_at x).
Proof.
  intros Hx. pose proof crc_table_ok as H. rewrite forallb_forall in H.
  specialize (H x). rewrite !andb_true_iff, Z.eqb_eq, Z.leb_le, Z.ltb_lt in H.
  destruct H as [[H1 H2] H3]; [|done]. apply list_elem_of_In, elem_of_seqZ. unfold byte in Hx. lia.
Qed.

Lemma fcs_fold input : forall fcs, byte fcs -> Forall byte input ->
  foldl fcs_step fcs input = foldl crc_byte fcs input /\ byte (foldl fcs_step fcs input).
Proof.
  induction input as [|b input IH]; intros fcs Hf Hin; [done|]. apply list.Forall_cons in Hin as [Hb Hin]. cbn [foldl].
  destruct (crc_at_ok (Z.lxor fcs b)) as [Hc Hc']; [by apply lxor_byte|].
  change (fcs_step fcs b) with (crc_at (Z.lxor fcs b)).
  change (crc_byte fcs b) with (Nat.iter 8 crc_bit (Z.lxor fcs b)). rewrite <-Hc. by apply IH.
Qed.

Lemma make_fcs_byte input : Forall byte input -> byte (make_fcs input).
Proof. intros Hin. destruct (fcs_fold input 255) as [_ H]; [done|done|]. unfold make_fcs, byte in *. lia. Qed.

(** The check sequence computed with the table is the one of the standard, computed bit
    by bit: the complement of the remainder of the division by x^8 + x^2 + x + 1. *)
Theorem make_fcs_bitwise input : Forall byte input -> make_fcs input = fcs_ref input.
Proof.
  intros Hin. destruct (fcs_fold input 255) as [E H]; [done|done|]. unfold make_fcs, fcs_ref. rewrite <-E.
  unfold byte in H. unfold Z.lnot. Z.div_mod_to_equations. lia.
Qed.
Lemma make_fcs_bitwise_witness : make_fcs [5; 239; 128; 0] = fcs_ref [5; 239; 128; 0].
Proof. apply make_fcs_bitwise. repeat (constructor; [unfold byte; lia|]). constructor. Defined.

(** ** The states of the parser *)

(** The bytes [l] of a frame are in the buffer, the last one came at [t]. *)
Record holds (l : list Z) (len t : Z) (p : cmux) : Prop := {
  hd_size : length (cm_buf p) = 1280%nat;
  hd_index : cm_index p = Z.of_nat (length l);
  hd_bytes : take (length l) (cm_buf p) = l;
  hd_len : cm_len p = len;
  hd_timer : cm_timer p = t
}.
Definition idle (p : cmux) : Prop := length (cm_buf p) = 1280%nat /\ cm_index p = 0.

(** No byte comes more than a second after the one before, the first one after [t]. *)
Fixpoint prompt (t : Z) (bs : list (Z * Z)) : Prop :=
  match bs with [] => True | (now, _) :: bs' => u32 (now - t) <= 1 /\ prompt now bs' end.
(** The same from the first byte on. *)
Definition gapless (bs : list (Z * Z)) : Prop :=
  match bs with [] => True | (now, _) :: bs' => prompt now bs' end.

Lemma prompt_app t bs1 bs2 : prompt t (bs1 ++ bs2) -> prompt t bs1 /\ gapless bs2.
Proof.
  revert t. induction bs1 as [|[now b] bs1 IH]; intros t; cbn.
  - intros H. split; [done|]. destruct bs2 as [|[now b] bs2]; [done|]. apply H.
  - intros [H1 H2]. destruct (IH now H2). done.
Qed.
Lemma gapless_app bs1 bs2 : gapless (bs1 ++ bs2) -> gapless bs1 /\ gapless bs2.
Proof. destruct bs1 as [|[now b] bs1]; [done|]. apply prompt_app. Qed.

Lemma feed_app bs1 bs2 p p1 d1 :
  feed bs1 p = Some (p1, d1) -> feed (bs1 ++ bs2) p = r ← feed bs2 p1; Some (r.1, d1 ++ r.2).
Proof.
  revert p d1. induction bs1 as [|[now b] bs1 IH]; intros p d1; cbn.
  - intros [= -> <-]. destruct (feed bs2 p1) as [[? ?]|]; done.
  - destruct (parser_cmux_pkg now b p) as [[q d]|]; cbn; [|done].
    destruct (feed bs1 q) as [[q1 d2]|] eqn:E; cbn; [|done]. intros [= -> <-]. rewrite (IH q d2 E).
    destruct (feed bs2 p1) as [[? ?]|]; cbn; [|done]. by rewrite app_assoc.
Qed.

Lemma parser_prompt now b p :
  u32 (now - cm_timer p) <= 1 -> parser_cmux_pkg now b p = parse_byte b (set_cm_timer now p).
Proof. intros H. unfold parser_cmux_pkg. destruct (Z.ltb_spec 1 (u32 (now - cm_timer p))); [lia|done]. Qed.

Lemma holds_put l len t now b p :
  holds l len t p -> (length l < 1280)%nat ->
  exists p', cm_put b (set_cm_timer now p) = Some p' /\ holds (l ++ [b]) len now p'.
Proof.
  intros [H1 H2 H3 H4 H5] Hl. unfold cm_put. cbn. rewrite H1, H2.
  destruct (Z.ltb_spec (Z.of_nat (length l)) (Z.of_nat 1280)); [|lia]. eexists. split; [done|].
  split; cbn; [by rewrite length_insert|len| |done|done].
  rewrite Nat2Z.id, length_app, Nat.add_comm. cbn [length Nat.add]. rewrite (take_S_r _ _ b).
  - by rewrite take_insert_ge, H3.
  - apply list_lookup_insert_eq. lia.
Qed.

Lemma holds_sub l len t p from n :
  holds l len t p -> 0 <= from -> 0 <= n -> from + n <= Z.of_nat (length l) ->
  cm_sub p from n = take (Z.to_nat n) (drop (Z.to_nat from) l).
Proof.
  intros [H1 H2 H3 H4 H5] Hf Hn Hle. unfold cm_sub. rewrite <-H3. rewrite skipn_firstn_comm, take_take.
  f_equal. lia.
Qed.

Lemma holds_lookup l len t p i : holds l len t p -> (i < length l)%nat -> cm_buf p !! i = l !! i.
Proof. intros [H1 H2 H3 H4 H5] Hi. rewrite <-H3. by rewrite lookup_take_lt. Qed.

(** The check sequence the parser expects behind the bytes [l]. *)
Definition fcs_of (l : list Z) : Z :=
  make_fcs (take (if default 0 (l !! 4%nat) =? 255 then 3 else 4) (drop 1 l)).

Lemma holds_fcs l len t p :
  holds l len t p -> (5 <= length l)%nat ->
  make_fcs (cm_sub p 1 (if default 0 (cm_buf p !! 4%nat) =? 255 then 3 else 4)) = fcs_of l.
Proof.
  intros H Hl. rewrite (holds_lookup l len t _ 4 H) by lia. unfold fcs_of.
  rewrite (holds_sub l len t) by (done || destruct (_ =? _); lia). by destruct (_ =? _).
Qed.

Lemma set_timer_holds l len t now p : holds l len t p -> holds l len now (set_cm_timer now p).
Proof. by intros []. Qed.

Lemma parse_byte_body b p : 5 <= cm_index p -> parse_byte b p = parse_body b p.
Proof. intros H. unfold parse_byte. zcases; try lia; done. Qed.

(** A byte of the data, or the check sequence. *)
Lemma body_put l len t now b p :
  holds l len t p -> (5 <= length l < 1280)%nat -> u32 (now - t) <= 1 -> Z.of_nat (length l) <= len + 5 ->
  (Z.of_nat (length l) = len + 5 -> b = fcs_of l) ->
  exists p', parser_cmux_pkg now b p = Some (p', []) /\ holds (l ++ [b]) len now p'.
Proof.
  intros H Hl Ht Hle Hfcs. rewrite parser_prompt by (by rewrite (hd_timer _ _ _ _ H)).
  pose proof (set_timer_holds _ _ _ now _ H) as H'. destruct (holds_put l len t now b p H) as (p' & Ep & Hp'); [lia|].
  exists p'. split; [|done]. pose proof (hd_index _ _ _ _ H') as Hi. pose proof (hd_len _ _ _ _ H') as Hn.
  rewrite parse_byte_body by lia. unfold parse_body. rewrite Hi, Hn.
  rewrite (holds_fcs l len now _ H') by lia. rewrite Ep.
  destruct (Z.eqb_spec (Z.of_nat (length l)) (len + 6)); [lia|].
  destruct (Z.eqb_spec (Z.of_nat (length l)) (len + 5)) as [E|]; [|done].
  rewrite (Hfcs E), Z.eqb_refl. done.
Qed.

(** The closing flag. *)
Lemma body_end l len t now p :
  holds l len t p -> 0 <= len -> Z.of_nat (length l) = len + 6 -> u32 (now - t) <= 1 ->
  exists p', parser_cmux_pkg now F_FLAG p =
      Some (p', [(Z.shiftr (default 0 (l !! 1%nat)) 2, take (Z.to_nat len) (drop 5 l))]) /\ idle p'.
Proof.
  intros H H0 Hl Ht. rewrite parser_prompt by (by rewrite (hd_timer _ _ _ _ H)).
  pose proof (set_timer_holds _ _ _ now _ H) as H'. exists (set_cm_index 0 (set_cm_timer now p)).
  split; [|split; [apply H|done]]. pose proof (hd_index _ _ _ _ H') as Hi. pose proof (hd_len _ _ _ _ H') as Hn.
  rewrite parse_byte_body by lia. unfold parse_body. rewrite Hi, Hn, Hl.
  destruct (Z.eqb_spec (len + 6) (len + 5)); [lia|]. cbn [andb]. rewrite Z.eqb_refl.
  change (F_FLAG =? F_FLAG) with true. cbv iota. rewrite (holds_lookup l len now _ 1 H') by lia.
  by rewrite (holds_sub l len now) by (done || lia).
Qed.

(** The data of a frame, byte by byte. *)
Lemma feed_data bs : forall l len t p,
  holds l len t p -> (5 <= length l)%nat -> (length l + length bs < 1280)%nat ->
  Z.of_nat (length l + length bs) <= len + 5 -> prompt t bs ->
  exists p' t', feed bs p = Some (p', []) /\ holds (l ++ bs.*2) len t' p' /\
    forall bs', prompt t (bs ++ bs') -> prompt t' bs'.
Proof.
  induction bs as [|[now b] bs IH]; intros l len t p H H5 Hs Hle Hp.
  - exists p, t. cbn. rewrite app_nil_r. done.
  - destruct Hp as [Ht Hp]. cbn [length] in *.
    destruct (body_put l len t now b p H) as (p1 & E1 & H1); [lia|done|lia|lia|].
    destruct (IH (l ++ [b]) len now p1 H1) as (p' & t' & E' & H' & Hpr); [len|len|len|done|].
    exists p', t'. cbn [feed]. rewrite E1. cbn. rewrite E'. cbn. rewrite <-app_assoc in H'.
    split; [done|]. split; [done|]. intros bs' [_ Hb]. by apply Hpr.
Qed.

(** From the end of the header to the end of the frame. *)
Lemma feed_tail bs head data len t p :
  holds head len t p -> length head = 5%nat -> Z.of_nat (length data) = len -> len < 1248 ->
  bs.*2 = data ++ [fcs_of head; F_FLAG] -> prompt t bs ->
  exists p', feed bs p = Some (p', [(Z.shiftr (default 0 (head !! 1%nat)) 2, data)]) /\ idle p'.
Proof.
  intros H H5 Hlen Hmax Hbs Hp. apply fmap_app_inv in Hbs as (bs1 & bs2 & Hd & Htl & ->).
  destruct bs2 as [|[now1 b1] [|[now2 b2] [|? ?]]]; try done. injection Htl as <- <-.
  assert (Hlb : length bs1 = length data) by (by rewrite Hd, length_fmap).
  destruct (prompt_app _ _ _ Hp) as [Hp1 _].
  destruct (feed_data bs1 head len t p H) as (p1 & t1 & E1 & H1 & Hpr); [lia|lia|lia|done|].
  rewrite <-Hd in H1. destruct (Hpr _ Hp) as (Ht1 & Ht2 & _).
  destruct (body_put (head ++ data) len t1 now1 (fcs_of head) p1 H1) as (p2 & E2 & H2); [len|done|len| |].
  { intros _. unfold fcs_of. rewrite lookup_app_l by lia. f_equal. rewrite drop_app_le, take_app_le by (len; destruct (_ =? _); len). done. }
  destruct (body_end ((head ++ data) ++ [fcs_of head]) len now1 now2 p2 H2) as (p3 & E3 & H3); [lia|len|done|].
  exists p3. split; [|done]. rewrite (feed_app _ _ _ _ _ E1). cbn [feed]. rewrite E2. cbn. rewrite E3. cbn.
  rewrite <-app_assoc, lookup_app_l, drop_app_ge by len. rewrite H5. cbn [Nat.sub drop].
  rewrite drop_0, take_app_le by len. by rewrite take_ge by len.
Qed.

(** ** Headers *)

(** The opening flag starts a frame whenever it comes. *)
Lemma feed_flag now p : idle p -> exists p', parser_cmux_pkg now F_FLAG p = Some (p', []) /\ holds [F_FLAG] (cm_len p) now p'.
Proof.
  intros [Hs Hi]. assert (H0 : holds [] (cm_len p) (cm_timer p) p) by (by split).
  destruct (holds_put [] (cm_len p) (cm_timer p) now F_FLAG p H0) as (p' & Ep & Hp'); [cbn; lia|].
  exists p'. split; [|done]. unfold parser_cmux_pkg.
  assert (Hr : (if 1 <? u32 (now - cm_timer p) then set_cm_index 0 p else p) = p).
  { destruct (_ <? _); [|done]. destruct p. cbn in *. by subst. }
  rewrite Hr. unfold parse_byte. cbn [cm_index set_cm_timer]. rewrite Hi. cbn. by rewrite Ep.
Qed.

Ltac header_step H now b :=
  rewrite parser_prompt by (by rewrite (hd_timer _ _ _ _ H));
  let p' := fresh "p" in let Ep := fresh "Ep" in let Hp := fresh "Hp" in
  destruct (holds_put _ _ _ now b _ H) as (p' & Ep & Hp); [cbn; lia|];
  unfold parse_byte; rewrite (hd_index _ _ _ _ (set_timer_holds _ _ _ now _ H)); cbn [length app] in *;
  repeat match goal with |- context [Z.of_nat ?k] =>
    let v := eval compute in (Z.of_nat k) in change (Z.of_nat k) with v end;
  cbn [Z.eqb Pos.eqb].

(** The address and the type of the frame. *)
Lemma feed_address bs addr len t p :
  holds [F_FLAG] len t p -> bs.*2 = [addr; UIH] -> prompt t bs ->
  exists p' t', feed bs p = Some (p', []) /\ holds [F_FLAG; addr; UIH] len t' p' /\
    forall bs', prompt t (bs ++ bs') -> prompt t' bs'.
Proof.
  intros H Hbs Hp. destruct bs as [|[now1 b1] [|[now2 b2] [|? ?]]]; try done. injection Hbs as -> ->.
  destruct Hp as (Ht1 & Ht2 & _).
  assert (exists p1, parser_cmux_pkg now1 addr p = Some (p1, []) /\ holds [F_FLAG; addr] len now1 p1) as (p1 & E1 & H1).
  { header_step H now1 addr. exists p0. by rewrite Ep. }
  assert (exists p2, parser_cmux_pkg now2 UIH p1 = Some (p2, []) /\ holds [F_FLAG; addr; UIH] len now2 p2) as (p2 & E2 & H2).
  { header_step H1 now2 UIH. exists p0. cbn. by rewrite Ep. }
  exists p2, now2. cbn [feed]. rewrite E1. cbn. rewrite E2. cbn. split; [done|]. split; [done|]. by intros bs' (_ & _ & Hb).
Qed.

(** A length in two bytes, and in one. *)
Lemma feed_length2 bs l0 l1 head len t p :
  holds head len t p -> length head = 3%nat -> bs.*2 = [l0; l1] -> prompt t bs ->
  Z.land l0 1 = 0 -> 0 <= l1 * 256 + Z.shiftr l0 1 < 1248 ->
  exists p' t', feed bs p = Some (p', []) /\ holds (head ++ [l0; l1]) (l1 * 256 + Z.shiftr l0 1) t' p' /\
    forall bs', prompt t (bs ++ bs') -> prompt t' bs'.
Proof.
  intros H H3 Hbs Hp He Hr. destruct bs as [|[now1 b1] [|[now2 b2] [|? ?]]]; try done. injection Hbs as -> ->.
  destruct Hp as (Ht1 & Ht2 & _). destruct head as [|h0 [|h1 [|h2 [|? ?]]]]; try done.
  assert (exists p1, parser_cmux_pkg now1 l0 p = Some (p1, []) /\ holds [h0; h1; h2; l0] (Z.shiftr l0 1) now1 p1) as (p1 & E1 & H1).
  { header_step H now1 l0. exists (set_cm_len (Z.shiftr l0 1) p0). rewrite He, Ep. split; [done|]. by destruct Hp. }
  assert (exists p2, parser_cmux_pkg now2 l1 p1 = Some (p2, []) /\
    holds [h0; h1; h2; l0; l1] (l1 * 256 + Z.shiftr l0 1) now2 p2) as (p2 & E2 & H2).
  { header_step H1 now2 l1. exists (set_cm_len (l1 * 256 + Z.shiftr l0 1) p0). rewrite Ep. cbn.
    rewrite (hd_len _ _ _ _ Hp), u16_id by lia.
    destruct (Z.leb_spec (CMUX_BUF_SIZE - 32) (l1 * 256 + Z.shiftr l0 1)); [unfold CMUX_BUF_SIZE in *; lia|]. split; [done|]. by destruct Hp. }
  exists p2, now2. cbn [feed]. rewrite E1. cbn. rewrite E2. cbn. split; [done|]. split; [done|]. by intros bs' (_ & _ & Hb).
Qed.

Lemma feed_length1 now l0 head len t p :
  holds head len t p -> length head = 3%nat -> u32 (now - t) <= 1 -> Z.land l0 1 = 1 ->
  exists p', parser_cmux_pkg now l0 p = Some (p', []) /\ holds (head ++ [l0; 255]) (Z.shiftr l0 1) now p'.
Proof.
  intros H H3 Ht He. destruct head as [|h0 [|h1 [|h2 [|? ?]]]]; try done.
  header_step H now l0. rewrite He, Ep. cbn.
  assert (H4 : holds [h0; h1; h2; l0] (Z.shiftr l0 1) now (set_cm_len (Z.shiftr l0 1) p0)) by (by destruct Hp).
  destruct (holds_put _ _ _ now 255 _ H4) as (p' & Ep' & Hp'); [cbn; lia|]. exists p'. split; [|done].
  assert (Hsame : set_cm_timer now (set_cm_len (Z.shiftr l0 1) p0) = set_cm_len (Z.shiftr l0 1) p0).
  { pose proof (hd_timer _ _ _ _ Hp) as Htm. destruct p0. cbn in *. by subst. }
  rewrite Hsame in Ep'. by rewrite Ep'.
Qed.

(** ** Round trips *)

Lemma fmap_cons_split (bs : list (Z * Z)) b l :
  bs.*2 = b :: l -> exists now bs', bs = (now, b) :: bs' /\ bs'.*2 = l.
Proof. destruct bs as [|[now x] bs]; [done|]. intros [= -> <-]. by exists now, bs. Qed.

(** A frame with a length in two bytes, as the parser reads it. *)
Lemma feed_frame2 bs addr l0 l1 data p :
  idle p -> Z.land l0 1 = 0 -> l1 * 256 + Z.shiftr l0 1 = Z.of_nat (length data) -> Z.of_nat (length data) < 1248 ->
  bs.*2 = F_FLAG :: [addr; UIH] ++ [l0; l1] ++ data ++ [fcs_of [F_FLAG; addr; UIH; l0; l1]; F_FLAG] -> gapless bs ->
  exists p', feed bs p = Some (p', [(Z.shiftr addr 2, data)]) /\ idle p'.
Proof.
  intros Hi He Hl Hmax Hbs Hg. apply fmap_cons_split in Hbs as (now & bs0 & -> & Hbs).
  apply fmap_app_inv in Hbs as (bsa & bs1 & Ha & Hbs & ->). symmetry in Hbs. apply fmap_app_inv in Hbs as (bsl & bst & Hbl & Hbt & ->).
  cbn [gapless] in Hg. destruct (feed_flag now p Hi) as (p0 & E0 & H0). destruct (prompt_app _ _ _ Hg) as [Hga _].
  destruct (feed_address bsa addr _ now p0 H0 (eq_sym Ha) Hga) as (p1 & t1 & E1 & H1 & P1). specialize (P1 _ Hg).
  destruct (prompt_app _ _ _ P1) as [Hgl _].
  destruct (feed_length2 bsl l0 l1 _ _ t1 p1 H1 eq_refl (eq_sym Hbl) Hgl He) as (p2 & t2 & E2 & H2 & P2); [lia|].
  specialize (P2 _ P1). rewrite Hl in H2.
  destruct (feed_tail bst _ data _ t2 p2 H2 eq_refl eq_refl Hmax (eq_sym Hbt) P2) as (p3 & E3 & H3).
  exists p3. split; [|done]. cbn [feed]. rewrite E0. cbn. rewrite (feed_app _ _ _ _ _ E1).
  rewrite (feed_app _ _ _ _ _ E2). rewrite E3. done.
Qed.

(** A frame with a length in one byte, as the modem sends it. *)
Lemma feed_frame1 bs addr data p :
  idle p -> Z.of_nat (length data) < 128 ->
  bs.*2 = F_FLAG :: [addr; UIH] ++ [2 * Z.of_nat (length data) + 1] ++ data ++
    [make_fcs [addr; UIH; 2 * Z.of_nat (length data) + 1]; F_FLAG] -> gapless bs ->
  exists p', feed bs p = Some (p', [(Z.shiftr addr 2, data)]) /\ idle p'.
Proof.
  intros Hi Hmax Hbs Hg. set (l0 := 2 * Z.of_nat (length data) + 1) in *.
  assert (He : Z.land l0 1 = 1).
  { change 1 with (Z.ones 1) at 1. rewrite Z.land_ones by lia. unfold l0. change (2 ^ 1) with 2. mlia. }
  assert (Hl : Z.shiftr l0 1 = Z.of_nat (length data)).
  { rewrite Z.shiftr_div_pow2 by lia. unfold l0. change (2 ^ 1) with 2. mlia. }
  apply fmap_cons_split in Hbs as (now & bs0 & -> & Hbs).
  apply fmap_app_inv in Hbs as (bsa & bs1 & Ha & Hbs & ->).
  cbn [gapless] in Hg. destruct (feed_flag now p Hi) as (p0 & E0 & H0). destruct (prompt_app _ _ _ Hg) as [Hga _].
  destruct (feed_address bsa addr _ now p0 H0 (eq_sym Ha) Hga) as (p1 & t1 & E1 & H1 & P1). specialize (P1 _ Hg).
  symmetry in Hbs. apply fmap_cons_split in Hbs as (now2 & bst & -> & Hbt). destruct P1 as [Ht2 P2].
  destruct (feed_length1 now2 l0 _ _ t1 p1 H1 eq_refl Ht2 He) as (p2 & E2 & H2). rewrite Hl in H2.
  destruct (feed_tail bst _ data _ now2 p2 H2 eq_refl eq_refl ltac:(lia) Hbt P2) as (p3 & E3 & H3).
  exists p3. split; [|done]. cbn [feed]. rewrite E0. cbn. rewrite (feed_app _ _ _ _ _ E1).
  cbn [feed]. rewrite E2. cbn. rewrite E3. done.
Qed.

(** The virtual port in the address that [make_cmux_pkg] writes. *)
Definition channel_port (channel : Z) : Z := if channel =? 1 then 1 else if channel =? 2 then 2 else 0.

Lemma length_bytes len :
  0 <= len < 128 -> u8 (Z.shiftl (Z.land 127 len) 1) = 2 * len /\ u8 (Z.shiftr (Z.land 32640 len) 7) = 0.
Proof.
  intros Hl. rewrite (Z.land_comm 127), (Z.land_comm 32640). change 127 with (Z.ones 7).
  rewrite Z.land_ones, Z.mod_small, Z.shiftl_mul_pow2 by lia. split; [unfold u8; mlia|].
  assert (H0 : Z.shiftr (Z.land len 32640) 7 = 0).
  { rewrite Z.shiftr_land. rewrite (Z.shiftr_div_pow2 len) by lia. rewrite Z.div_small by lia. by rewrite Z.land_0_l. }
  by rewrite H0.
Qed.

Lemma cmux_pkg_parsed malloc_ok bs buf channel p :
  (forall n, malloc_ok n = true) -> Z.of_nat (length buf) < 128 ->
  bs.*2 = make_cmux_pkg malloc_ok buf channel -> gapless bs -> idle p ->
  exists p', feed bs p = Some (p', [(channel_port channel, buf)]) /\ idle p'.
Proof.
  intros Hm Hl Hbs Hg Hi. unfold make_cmux_pkg in Hbs. rewrite Hm in Hbs.
  destruct (length_bytes (Z.of_nat (length buf))) as [-> ->] in Hbs; [lia|].
  set (addr := if channel =? 1 then 5 else if channel =? 2 then 9 else 3) in *.
  assert (Ha : Z.shiftr addr 2 = channel_port channel) by (unfold addr, channel_port; zcases; done).
  rewrite <-Ha. eapply (feed_frame2 bs addr (2 * Z.of_nat (length buf)) 0 buf p); try done; try lia.
  - change 1 with (Z.ones 1). rewrite Z.land_ones by lia. change (2 ^ 1) with 2. mlia.
  - rewrite Z.shiftr_div_pow2 by lia. change (2 ^ 1) with 2. mlia.
Qed.

Lemma cmux_write_parsed malloc_ok port fuel : forall data bs p,
  (forall n, malloc_ok n = true) -> (length data < fuel)%nat ->
  bs.*2 = cmux_write_loop malloc_ok fuel port data -> gapless bs -> idle p ->
  exists p' ds, feed bs p = Some (p', ds) /\ idle p' /\
    Forall (fun d => d.1 = channel_port port) ds /\ concat (ds.*2) = data.
Proof.
  induction fuel as [|fuel IH]; intros data bs p Hm Hf Hbs Hg Hi; [lia|]. cbn [cmux_write_loop] in Hbs.
  destruct (Z.ltb_spec CMUX_MAX_LEN (Z.of_nat (length data))) as [Hlong|Hshort]; unfold CMUX_MAX_LEN in *.
  - apply fmap_app_inv in Hbs as (bs1 & bs2 & H1 & H2 & ->). apply gapless_app in Hg as [Hg1 Hg2].
    destruct (cmux_pkg_parsed malloc_ok bs1 (take (Z.to_nat 64) data) port p Hm) as (p1 & E1 & Hi1); [len|done..|].
    destruct (IH (drop (Z.to_nat 64) data) bs2 p1 Hm) as (p' & ds & E2 & Hi2 & Hp & Hd); [len|done..|].
    exists p', ((channel_port port, take (Z.to_nat 64) data) :: ds). rewrite (feed_app _ _ _ _ _ E1), E2.
    split; [done|]. split; [done|]. split; [by constructor|]. cbn. by rewrite Hd, take_drop.
  - destruct (cmux_pkg_parsed malloc_ok bs data port p Hm) as (p1 & E1 & Hi1); [lia|done..|].
    exists p1, [(channel_port port, data)]. split; [done|]. split; [done|]. split; [by repeat constructor|].
    cbn. by rewrite app_nil_r.
Qed.

(** C35. What [cmux_write] sends on a port, of any length, the parser at the other end hands over:
    the data of the frames it delivers, one after the other, are the data sent, no byte lost, added
    or reordered, and it is ready for the next frame. They arrive on the port they were sent on
    when it is 0, 1 or 2, and on port 0 when it is any other. This holds as long as no pause inside
    a frame is longer than a second and there is memory for every frame: [make_cmux_pkg] sends
    nothing, and reports nothing, when [rt_malloc] fails. *)
Theorem cmux_write_roundtrip malloc_ok port data bs p :
  (forall n, malloc_ok n = true) -> bs.*2 = cmux_write malloc_ok port data -> gapless bs -> idle p ->
  exists p' ds, feed bs p = Some (p', ds) /\ idle p' /\
    Forall (fun d => d.1 = if (0 <=? port) && (port <=? 2) then port else 0) ds /\ concat (ds.*2) = data.
Proof.
  intros Hm Hbs Hg Hi. assert (Ep : (if (0 <=? port) && (port <=? 2) then port else 0) = channel_port port) by (unfold channel_port; zcases; cbn; lia).
  rewrite Ep. eapply cmux_write_parsed; [done| |exact Hbs|done|done]. lia.
Qed.

(** ** A wrong check sequence *)

(** With the length forgotten nothing ends the frame any more. *)
Lemma runaway bs : forall l t p,
  holds l 0 t p -> (7 <= length l <= 1280)%nat -> prompt t bs -> (1280 - length l < length bs)%nat ->
  feed bs p = None.
Proof.
  induction bs as [|[now b] bs IH]; intros l t p H Hl Hp Hlen; [cbn in Hlen; lia|]. destruct Hp as [Ht Hp].
  cbn [feed]. rewrite parser_prompt by (by rewrite (hd_timer _ _ _ _ H)).
  pose proof (set_timer_holds _ _ _ now _ H) as H'. pose proof (hd_index _ _ _ _ H') as Hi.
  pose proof (hd_len _ _ _ _ H') as Hn. rewrite parse_byte_body by lia. unfold parse_body. rewrite Hi, Hn.
  destruct (Z.eqb_spec (Z.of_nat (length l)) (0 + 5)); [lia|]. cbn [andb].
  destruct (Z.eqb_spec (Z.of_nat (length l)) (0 + 6)); [lia|].
  destruct (decide (length l < 1280)%nat) as [Hlt|Hge].
  - destruct (holds_put l 0 t now b p H Hlt) as (p1 & E1 & H1). rewrite E1. cbn.
    rewrite (IH (l ++ [b]) now p1 H1); [done|len|done|]. cbn [length] in Hlen. len.
  - unfold cm_put. rewrite Hi, (hd_size _ _ _ _ H').
    destruct (Z.ltb_spec (Z.of_nat (length l)) (Z.of_nat 1280)); [lia|done].
Qed.

(** C38. A frame with two bytes of data or more whose check sequence is wrong makes the parser
    forget its length but not its place: as long as the bytes behind it come without a pause of
    more than a second, each of them is stored behind the frame, no frame is delivered any more,
    and as soon as the rest of the buffer is used up a byte is stored outside of it. *)
Theorem cmux_bad_fcs_overruns l len t now b bs p :
  holds l len t p -> 2 <= len -> Z.of_nat (length l) = len + 5 -> (length l <= 1280)%nat ->
  u32 (now - t) <= 1 -> b <> fcs_of l -> prompt now bs -> (1280 - length l < length bs)%nat ->
  feed ((now, b) :: bs) p = None.
Proof.
  intros H H2 Hl Hmax Ht Hb Hp Hlen. cbn [feed]. rewrite parser_prompt by (by rewrite (hd_timer _ _ _ _ H)).
  pose proof (set_timer_holds _ _ _ now _ H) as H'. pose proof (hd_index _ _ _ _ H') as Hi.
  pose proof (hd_len _ _ _ _ H') as Hn. rewrite parse_byte_body by lia. unfold parse_body. rewrite Hi, Hn.
  rewrite (holds_fcs l len now _ H') by lia. rewrite Hl, Z.eqb_refl.
  destruct (Z.eqb_spec b (fcs_of l)); [done|]. cbn. rewrite (runaway bs l now); [done| |lia|done|done].
  by destruct H'.
Qed.

(** ** At work *)

Definition cmux0 : cmux := Cmux (replicate 1280 0) 0 0 0.
(** Bytes that come in the same second. *)
Definition at_once (now : Z) (l : list Z) : list (Z * Z) := pair now <$> l.
Lemma at_once_prompt now l : prompt now (at_once now l).
Proof. induction l as [|b l IH]; [done|]. split; [by rewrite Z.sub_diag|done]. Qed.
Lemma at_once_bytes now l : (at_once now l).*2 = l.
Proof. unfold at_once. rewrite <-list_fmap_compose. apply list_fmap_id. Qed.
Lemma at_once_gapless now l : gapless (at_once now l).
Proof. destruct l; [done|]. apply at_once_prompt. Qed.

(** A hundred bytes to the port 2, in two frames. *)
Lemma cmux_write_roundtrip_witness :
  exists p' ds, feed (at_once 7 (cmux_write (fun _ => true) 2 (replicate 100 249))) cmux0 = Some (p', ds) /\
    Forall (fun d => d.1 = 2) ds /\ concat (ds.*2) = replicate 100 249.
Proof.
  destruct (cmux_write_roundtrip (fun _ => true) 2 (replicate 100 249)
    (at_once 7 (cmux_write (fun _ => true) 2 (replicate 100 249))) cmux0) as (p' & ds & H1 & _ & Hp & H2).
  - reflexivity.
  - apply at_once_bytes.
  - apply at_once_gapless.
  - split; reflexivity.
  - exists p', ds. exact (conj H1 (conj Hp H2)).
Defined.

(** Data for port 3 arrive on port 0, and without memory nothing is sent. *)
Example cmux_port3_on_0 :
  snd <$> feed (at_once 7 (cmux_write (fun _ => true) 3 [65; 66])) cmux0 = Some [(0, [65; 66])] /\ cmux_write (fun _ => false) 3 [65; 66] = [].
Proof. vm_compute. done. Qed.

(** The header and the two bytes of data of a frame. *)
Definition cmux_mid : cmux := Cmux ([249; 5; 239; 4; 0; 1; 2] ++ replicate 1273 0) 7 2 0.
Lemma cmux_bad_fcs_overruns_witness : feed ((0, 0) :: at_once 0 (replicate 1274 0)) cmux_mid = None.
Proof.
  apply (cmux_bad_fcs_overruns [249; 5; 239; 4; 0; 1; 2] 2 0).
  - split; vm_compute; reflexivity.
  - lia.
  - reflexivity.
  - vm_compute. lia.
  - vm_compute. discriminate.
  - vm_compute. discriminate.
  - apply at_once_prompt.
  - unfold at_once. rewrite length_fmap, length_replicate. simpl. lia.
Defined.

(** A frame of 128 bytes of data made by [make_cmux_pkg] is not parsed: the second byte of
    the length counts 128 when it is made and 256 when it is read. *)
Example cmux_long_frame_lost :
  (fun r => (cm_len r.1, r.2)) <$> feed (at_once 0 (make_cmux_pkg (fun _ => true) (replicate 128 0) 1)) cmux0
  = Some (256, []).
Proof. vm_compute. reflexivity. Qed.
