(* ===== verification/Gsm0710.v ===== *)
(** * The receive buffer of the GSM 07.10 multiplexer
      (src/bsp/easyio_core/gsmmux/buffer.c)

    A ring of 2048 bytes that takes what comes in over the line, and [gsm0710_buffer_get_frame],
    which finds the frames in it.  The theorems compare it with a parser of byte strings
    ([deframe]): the ring, its wrap and the recursion do not show, the frames that are found do
    not depend on the pieces in which their bytes come, and no block of the heap is lost. *)
From S2P Require Import Prelude Cmux.

Definition GSM0710_BUFFER_SIZE : Z := 2048.
Definition UI : Z := 3.

Record GSM0710_Frame := Frame { fr_channel : Z; fr_control : Z; fr_data_length : Z; fr_data : list Z }.

(** The pointers are distances from the start of [data]; [endp] is the size and never changes. *)
Record GSM0710_Buffer := Buffer {
  gb_data : list Z;
  gb_readp : Z;
  gb_writep : Z;
  gb_flag_found : bool;
  gb_received_count : Z;
  gb_dropped_count : Z
}.
Definition set_gb_readp (p : Z) (b : GSM0710_Buffer) : GSM0710_Buffer :=
  Buffer (gb_data b) p (gb_writep b) (gb_flag_found b) (gb_received_count b) (gb_dropped_count b).
Definition set_gb_flag (f : bool) (b : GSM0710_Buffer) : GSM0710_Buffer :=
  Buffer (gb_data b) (gb_readp b) (gb_writep b) f (gb_received_count b) (gb_dropped_count b).
Definition set_gb_received (n : Z) (b : GSM0710_Buffer) : GSM0710_Buffer :=
  Buffer (gb_data b) (gb_readp b) (gb_writep b) (gb_flag_found b) (u32 n) (gb_dropped_count b).
Definition set_gb_dropped (n : Z) (b : GSM0710_Buffer) : GSM0710_Buffer :=
  Buffer (gb_data b) (gb_readp b) (gb_writep b) (gb_flag_found b) (gb_received_count b) (u32 n).

(** [INC_BUF_POINTER]. *)
Definition inc_buf_pointer (p : Z) : Z := if p + 1 =? GSM0710_BUFFER_SIZE then 0 else p + 1.

Definition gsm0710_buffer_length (b : GSM0710_Buffer) : Z :=
  if gb_writep b <? gb_readp b then GSM0710_BUFFER_SIZE - (gb_readp b - gb_writep b)
  else gb_writep b - gb_readp b.
Definition gsm0710_buffer_free (b : GSM0710_Buffer) : Z :=
  if gb_writep b <? gb_readp b then gb_readp b - gb_writep b
  else GSM0710_BUFFER_SIZE - (gb_writep b - gb_readp b).

(** ** The heap

    What matters of it here: whether the next call of [malloc] succeeds, and the number of
    blocks that are in use. *)
Record heap := Heap { hp_calls : nat; hp_live : Z }.

Section Buffer.
(** Whether each of the calls of [malloc] gives a block. *)
Context (malloc_ok : nat -> bool).

Definition malloc (h : heap) : bool * heap :=
  if malloc_ok (hp_calls h) then (true, Heap (S (hp_calls h)) (hp_live h + 1))
  else (false, Heap (S (hp_calls h)) (hp_live h)).
Definition free (h : heap) : heap := Heap (hp_calls h) (hp_live h - 1).
Definition destroy_frame (f : GSM0710_Frame) (h : heap) : heap :=
  free (if 0 <? fr_data_length f then free h else h).

Definition gsm0710_buffer_init (h : heap) : option GSM0710_Buffer * heap :=
  let '(ok, h) := malloc h in
  (if ok then Some (Buffer (replicate (Z.to_nat GSM0710_BUFFER_SIZE) 0) 0 0 false 0 0) else None, h).
Definition gsm0710_buffer_destroy (h : heap) : heap := free h.

(** ** Writing *)

(** [memcpy(buf->data + p, src, n)]; outside of either there is no result. *)
Definition copy_in (data : list Z) (p : Z) (src : list Z) (n : Z) : option (list Z) :=
  if (0 <=? n) && (n <=? Z.of_nat (length src)) && (p + n <=? Z.of_nat (length data)) then
    Some (take (Z.to_nat p) data ++ take (Z.to_nat n) src ++ drop (Z.to_nat (p + n)) data)
  else None.

Definition gsm0710_buffer_write (b : GSM0710_Buffer) (input : list Z) (count : Z) : option (Z * GSM0710_Buffer) :=
  let c := GSM0710_BUFFER_SIZE - gb_writep b in
  let count := if count <? gsm0710_buffer_free b then count else gsm0710_buffer_free b in
  if c <? count then
    d1 ← copy_in (gb_data b) (gb_writep b) input c;
    d2 ← copy_in d1 0 (drop (Z.to_nat c) input) (count - c);
    Some (count, Buffer d2 (gb_readp b) (count - c) (gb_flag_found b) (gb_received_count b) (gb_dropped_count b))
  else
    d1 ← copy_in (gb_data b) (gb_writep b) input count;
    let w := gb_writep b + count in
    Some (count, Buffer d1 (gb_readp b) (if w =? GSM0710_BUFFER_SIZE then 0 else w)
                   (gb_flag_found b) (gb_received_count b) (gb_dropped_count b)).

(** ** Finding frames *)

(** [*p]. *)
Definition at_ (b : GSM0710_Buffer) (p : Z) : option Z := gb_data b !! Z.to_nat p.

(** The loop that looks for the start flag. *)
Fixpoint find_flag (fuel : nat) (b : GSM0710_Buffer) : option GSM0710_Buffer :=
  if negb (gb_flag_found b) && (0 <? gsm0710_buffer_length b) then
    match fuel with
    | O => None
    | S f =>
        c ← at_ b (gb_readp b);
        let b := if c =? F_FLAG then set_gb_flag true b else b in
        find_flag f (set_gb_readp (inc_buf_pointer (gb_readp b)) b)
    end
  else Some b.

(** The loop that skips empty frames. *)
Fixpoint skip_empty (fuel : nat) (b : GSM0710_Buffer) : option GSM0710_Buffer :=
  if 0 <? gsm0710_buffer_length b then
    c ← at_ b (gb_readp b);
    if c =? F_FLAG then
      match fuel with
      | O => None
      | S f => skip_empty f (set_gb_readp (inc_buf_pointer (gb_readp b)) b)
      end
    else Some b
  else Some b.

(** [memcpy(dst, buf->data + p, n)]. *)
Definition copy_out (b : GSM0710_Buffer) (p n : Z) : option (list Z) :=
  if (0 <=? n) && (p + n <=? Z.of_nat (length (gb_data b))) then
    Some (take (Z.to_nat n) (drop (Z.to_nat p) (gb_data b)))
  else None.

(** The data of a frame of [n] bytes at [p], and the place behind them. *)
Definition extract_data (b : GSM0710_Buffer) (p n : Z) : option (list Z * Z) :=
  let end_ := GSM0710_BUFFER_SIZE - p in
  if end_ <? n then
    d1 ← copy_out b p end_; d2 ← copy_out b 0 (n - end_); Some (d1 ++ d2, n - end_)
  else
    d ← copy_out b p n;
    Some (d, if p + n =? GSM0710_BUFFER_SIZE then 0 else p + n).

(** [FRAME_IS(type, frame)]. *)
Definition frame_is (type control : Z) : bool := Z.land control (Z.lnot 16) =? type.

(** The part of [gsm0710_buffer_get_frame] that takes the data of the frame: the frame, the place
    behind its data, the check sum so far. *)
Definition frame_data (b : GSM0710_Buffer) (data channel control data_length fcs : Z) (h : heap)
    : option (GSM0710_Frame * Z * Z * heap) :=
  if 0 <? data_length then
    let '(ok, h) := malloc h in
    if ok then
      p ← extract_data b data data_length;
      Some (Frame channel control data_length p.1, p.2,
            if frame_is UI control then foldl fcs_step fcs p.1 else fcs, h)
    else Some (Frame channel control 0 [], data, fcs, h)
  else Some (Frame channel control 0 [], data, fcs, h).

(** [gsm0710_buffer_get_frame]: the frame, [None] for [NULL]; [fuel] bounds the calls of itself.
    The code does not test what [malloc] returns for the frame. *)
Fixpoint gsm0710_buffer_get_frame (fuel : nat) (b : GSM0710_Buffer) (h : heap) : option (option GSM0710_Frame * GSM0710_Buffer * heap) :=
  match fuel with
  | O => None
  | S fuel' =>
      b ← find_flag (Z.to_nat GSM0710_BUFFER_SIZE) b;
      if negb (gb_flag_found b) then Some (None, b, h)
      else
        b ← skip_empty (Z.to_nat GSM0710_BUFFER_SIZE) b;
        if gsm0710_buffer_length b <? 5 then Some (None, b, h)
        else
          let data := gb_readp b in
          let '(ok, h) := malloc h in
          if negb ok then None
          else
            c0 ← at_ b data;
            let channel := Z.shiftr (Z.land c0 252) 2 in
            let fcs := fcs_step 255 c0 in
            let data := inc_buf_pointer data in
            control ← at_ b data;
            let fcs := fcs_step fcs control in
            let data := inc_buf_pointer data in
            c2 ← at_ b data;
            let data_length := Z.shiftr (Z.land c2 254) 1 in
            let fcs := fcs_step fcs c2 in
            if Z.land c2 1 =? 0 then
              gsm0710_buffer_get_frame fuel' (set_gb_flag false (set_gb_readp data b)) (free h)
            else if gsm0710_buffer_length b <? 5 + data_length then Some (None, b, free h)
            else
              let data := inc_buf_pointer data in
              r ← frame_data b data channel control data_length fcs h;
              let '(frame, data, fcs, h) := r in
              x ← at_ b data;
              if negb (fcs_step fcs x =? 0xCF) then
                gsm0710_buffer_get_frame fuel'
                  (set_gb_readp data (set_gb_dropped (gb_dropped_count b + 1) (set_gb_flag false b))) (destroy_frame frame h)
              else
                let data := inc_buf_pointer data in
                y ← at_ b data;
                if negb (y =? F_FLAG) then
                  gsm0710_buffer_get_frame fuel'
                    (set_gb_readp data (set_gb_dropped (gb_dropped_count b + 1) (set_gb_flag false b))) (destroy_frame frame h)
                else
                  let b := set_gb_received (gb_received_count b + 1) b in
                  Some (Some frame, set_gb_readp (inc_buf_pointer data) b, h)
  end.
End Buffer.

(** ** The parser of byte strings *)

(** What follows the first flag, and what follows the flags at the front. *)
Fixpoint after_flag (l : list Z) : option (list Z) :=
  match l with [] => None | c :: l' => if c =? F_FLAG then Some l' else after_flag l' end.
Fixpoint drop_flags (l : list Z) : list Z :=
  match l with [] => [] | c :: l' => if c =? F_FLAG then drop_flags l' else l end.

(** What begins with the bytes of a frame: not enough of them, something that is not a frame,
    with the place where the search goes on and whether it is counted, or a frame. *)
Inductive verdict := Short | Bad (rest : list Z) (counted : Z) | Good (f : GSM0710_Frame) (rest : list Z).
Definition frame_at (l : list Z) : verdict :=
  match l with
  | c0 :: c1 :: c2 :: t =>
      let n := Z.shiftr (Z.land c2 254) 1 in
      if Z.of_nat (length l) <? 5 then Short
      else if Z.land c2 1 =? 0 then Bad (c2 :: t) 0
      else if Z.of_nat (length l) <? 5 + n then Short
      else
        let d := take (Z.to_nat n) t in
        match drop (Z.to_nat n) t with
        | x :: y :: rest =>
            if negb (x =? make_fcs (c0 :: c1 :: c2 :: (if frame_is UI c1 then d else []))) then Bad (x :: y :: rest) 1
            else if negb (y =? F_FLAG) then Bad (y :: rest) 1
            else Good (Frame (Z.shiftr (Z.land c0 252) 2) c1 n d) rest
        | _ => Short
        end
  | _ => Short
  end.

(** One frame: the frame, whether the flag before the next one has been seen, what is left, and
    how many frames were dropped. *)
Fixpoint deframe (fuel : nat) (flag : bool) (l : list Z) : option GSM0710_Frame * bool * list Z * Z :=
  match fuel with
  | O => (None, flag, l, 0)
  | S f =>
      match (if flag then Some l else after_flag l) with
      | None => (None, false, [], 0)
      | Some l =>
          match frame_at (drop_flags l) with
          | Short => (None, true, drop_flags l, 0)
          | Good fr rest => (Some fr, true, rest, 0)
          | Bad rest k => let '(fr, flag', l', n) := deframe f false rest in (fr, flag', l', n + k)
          end
      end
  end.

(** ** The ring *)

Lemma lookup_ring_view {A} d (l : list A) n s c i :
  (i < Z.to_nat c)%nat -> ring_view d l n s c !! i = Some (default d (l !! Z.to_nat ((s + Z.of_nat i) mod n))).
Proof. intros Hi. unfold ring_view. rewrite list_lookup_fmap, lookup_seqZ_lt by lia. done. Qed.

Lemma ring_view_sub {A} d (l : list A) n s c i k :
  0 <= i -> 0 <= k -> i + k <= c -> take (Z.to_nat k) (drop (Z.to_nat i) (ring_view d l n s c)) = ring_view d l n (s + i) k.
Proof.
  intros Hi Hk Hc. apply list_eq_same_length with (Z.to_nat k); [by rewrite length_ring_view|..].
  { rewrite length_take, length_drop, length_ring_view. lia. }
  intros j x y Hj. rewrite lookup_take_lt, lookup_drop, !lookup_ring_view by lia.
  rewrite Nat2Z.inj_add, Z2Nat.id, Z.add_assoc by lia. congruence.
Qed.

Lemma ring_view_drop {A} d (l : list A) n s c i :
  0 <= i <= c -> drop (Z.to_nat i) (ring_view d l n s c) = ring_view d l n (s + i) (c - i).
Proof.
  intros Hi. rewrite <-(ring_view_sub d l n s c i (c - i)) by lia. rewrite take_ge; [done|].
  rewrite length_drop, length_ring_view. lia.
Qed.

Lemma ring_view_app {A} d (l : list A) n s a b : 0 <= a -> 0 <= b ->
  ring_view d l n s (a + b) = ring_view d l n s a ++ ring_view d l n (s + a) b.
Proof.
  intros Ha Hb. rewrite <-(take_drop (Z.to_nat a) (ring_view d l n s (a + b))). f_equal.
  - pose proof (ring_view_sub d l n s (a + b) 0 a) as H. rewrite Z.add_0_r in H. by apply H; lia.
  - rewrite ring_view_drop by lia. f_equal. lia.
Qed.

Lemma ring_view_linear {A} d (l : list A) n s k :
  Z.of_nat (length l) = n -> 0 <= s -> 0 <= k -> s + k <= n -> ring_view d l n s k = take (Z.to_nat k) (drop (Z.to_nat s) l).
Proof.
  intros Hl Hs Hk Hn. apply list_eq_same_length with (Z.to_nat k).
  { rewrite length_take, length_drop. lia. } { by rewrite length_ring_view. }
  intros j x y Hj. rewrite lookup_take_lt, lookup_drop, lookup_ring_view by lia. rewrite Z.mod_small by lia.
  replace (Z.to_nat (s + Z.of_nat j)) with (Z.to_nat s + j)%nat by lia. intros Ex Ey. rewrite Ey in Ex. cbn in Ex. congruence.
Qed.

(** ** The buffer as a byte string *)

Record gb_ok (b : GSM0710_Buffer) : Prop := {
  gk_size : Z.of_nat (length (gb_data b)) = 2048;
  gk_bytes : Forall byte (gb_data b);
  gk_readp : 0 <= gb_readp b < 2048;
  gk_writep : 0 <= gb_writep b < 2048 }.
Definition gb_view (b : GSM0710_Buffer) : list Z := ring_view 0 (gb_data b) 2048 (gb_readp b) (gsm0710_buffer_length b).

Lemma gb_length_mod b : gb_ok b -> gsm0710_buffer_length b = (gb_writep b - gb_readp b) mod 2048.
Proof.
  intros [_ _ Hr Hw]. unfold gsm0710_buffer_length, GSM0710_BUFFER_SIZE.
  destruct (Z.ltb_spec (gb_writep b) (gb_readp b)); Z.div_mod_to_equations; lia.
Qed.
Lemma gb_length_range b : gb_ok b -> 0 <= gsm0710_buffer_length b < 2048.
Proof. intros H. rewrite gb_length_mod by done. apply Z.mod_pos_bound. lia. Qed.
Lemma gb_view_length b : gb_ok b -> Z.of_nat (length (gb_view b)) = gsm0710_buffer_length b.
Proof. intros H. pose proof (gb_length_range b H). unfold gb_view. rewrite length_ring_view. lia. Qed.
Lemma gb_free_length b : gb_ok b -> gsm0710_buffer_free b = 2048 - gsm0710_buffer_length b.
Proof.
  intros [_ _ Hr Hw]. unfold gsm0710_buffer_free, gsm0710_buffer_length, GSM0710_BUFFER_SIZE.
  destruct (Z.ltb_spec (gb_writep b) (gb_readp b)); lia.
Qed.

Lemma inc_mod p i : inc_buf_pointer ((p + i) mod 2048) = (p + (i + 1)) mod 2048.
Proof.
  unfold inc_buf_pointer, GSM0710_BUFFER_SIZE. destruct (Z.eqb_spec ((p + i) mod 2048 + 1) 2048); Z.div_mod_to_equations; lia.
Qed.

Lemma at_view b i c : gb_ok b -> 0 <= i -> gb_view b !! Z.to_nat i = Some c -> at_ b ((gb_readp b + i) mod 2048) = Some c /\ byte c.
Proof.
  intros H Hi E. pose proof (lookup_lt_Some _ _ _ E) as Hl. pose proof (gb_view_length b H). unfold gb_view in E.
  rewrite lookup_ring_view in E by lia. rewrite Z2Nat.id in E by lia. unfold at_. pose proof (Z.mod_pos_bound (gb_readp b + i) 2048 ltac:(lia)).
  pose proof (gk_size b H). destruct (lookup_lt_is_Some_2 (gb_data b) (Z.to_nat ((gb_readp b + i) mod 2048)) ltac:(lia)) as [x Ex].
  rewrite Ex in E |- *. injection E as <-. split; [done|]. pose proof (gk_bytes b H) as Hb. rewrite list.Forall_forall in Hb. by eapply Hb, list_elem_of_lookup_2.
Qed.

(** Moving the read pointer over [i] bytes. *)
Lemma advance b i : gb_ok b -> 0 <= i <= gsm0710_buffer_length b ->
  let b' := set_gb_readp ((gb_readp b + i) mod 2048) b in
  gb_ok b' /\ gb_view b' = drop (Z.to_nat i) (gb_view b) /\ gsm0710_buffer_length b' = gsm0710_buffer_length b - i.
Proof.
  intros H Hi b'. pose proof (Z.mod_pos_bound (gb_readp b + i) 2048 ltac:(lia)) as Hm. pose proof (gb_length_range b H) as Hr.
  assert (H' : gb_ok b') by (destruct H; by split). split; [done|].
  assert (Hl : gsm0710_buffer_length b' = gsm0710_buffer_length b - i).
  { pose proof (gb_length_mod b H) as E1. rewrite (gb_length_mod b') by done. rewrite E1 in *. cbn. rewrite Zminus_mod_idemp_r. replace (gb_writep b - (gb_readp b + i)) with (gb_writep b - gb_readp b - i) by lia.
    Z.div_mod_to_equations; lia. }
  split; [|done]. unfold gb_view. rewrite ring_view_drop by lia. rewrite Hl. cbn. apply ring_view_mod.
Qed.

Lemma extract_run b i n : gb_ok b -> 0 <= i -> 0 <= n -> i + n <= gsm0710_buffer_length b ->
  extract_data b ((gb_readp b + i) mod 2048) n = Some (take (Z.to_nat n) (drop (Z.to_nat i) (gb_view b)), (gb_readp b + (i + n)) mod 2048).
Proof.
  intros H Hi Hn Hl. pose proof (gb_length_range b H) as Hr. unfold gb_view. rewrite ring_view_sub by lia.
  set (p := (gb_readp b + i) mod 2048). pose proof (Z.mod_pos_bound (gb_readp b + i) 2048 ltac:(lia)) as Hp. fold p in Hp.
  rewrite <-(ring_view_mod 0 (gb_data b) 2048 (gb_readp b + i) n). fold p. pose proof (gk_size b H) as Hs.
  assert (Hq : (gb_readp b + (i + n)) mod 2048 = (p + n) mod 2048) by (unfold p; rewrite Z.add_mod_idemp_l by lia; f_equal; lia). rewrite Hq.
  unfold extract_data, copy_out, GSM0710_BUFFER_SIZE. rewrite Hs. destruct (Z.ltb_spec (2048 - p) n) as [Hc|Hc].
  - destruct (Z.leb_spec 0 (2048 - p)); [|lia]. destruct (Z.leb_spec (p + (2048 - p)) 2048); [|lia].
    destruct (Z.leb_spec 0 (n - (2048 - p))); [|lia]. destruct (Z.leb_spec (0 + (n - (2048 - p))) 2048); [|lia]. cbn [andb mbind option_bind].
    f_equal. f_equal; [|Z.div_mod_to_equations; lia]. replace n with (2048 - p + (n - (2048 - p))) at 2 by lia. rewrite ring_view_app by lia.
    rewrite (ring_view_linear 0 (gb_data b) 2048 p) by lia. f_equal. replace (p + (2048 - p)) with 2048 by lia.
    rewrite <-ring_view_mod, Z_mod_same_full. by rewrite ring_view_linear by lia.
  - destruct (Z.leb_spec 0 n); [|lia]. destruct (Z.leb_spec (p + n) 2048); [|lia]. cbn [andb mbind option_bind].
    rewrite ring_view_linear by lia. f_equal. f_equal. destruct (Z.eqb_spec (p + n) 2048) as [E|E]; [by rewrite E|]. by rewrite Z.mod_small by lia.
Qed.

(** The first byte. *)
Lemma view_first b : gb_ok b -> 0 < gsm0710_buffer_length b ->
  exists c l, at_ b (gb_readp b) = Some c /\ gb_view b = c :: l /\
    let b' := set_gb_readp (inc_buf_pointer (gb_readp b)) b in
    gb_ok b' /\ gb_view b' = l /\ gsm0710_buffer_length b' = gsm0710_buffer_length b - 1.
Proof.
  intros H Hl. pose proof (gb_view_length b H) as Hv. destruct (gb_view b) as [|c l] eqn:E; [cbn in Hv; lia|].
  destruct (at_view b 0 c H ltac:(lia)) as [Ea _]; [by rewrite E|]. rewrite Z.add_0_r, Z.mod_small in Ea by apply (gk_readp b H).
  exists c, l. split; [done|]. split; [done|]. pose proof (inc_mod (gb_readp b) 0) as Ei.
  rewrite Z.add_0_r, Z.mod_small in Ei by apply (gk_readp b H). rewrite Z.add_0_l in Ei. rewrite Ei. destruct (advance b 1 H ltac:(lia)) as (H1 & H2 & H3).
  cbv zeta in *. split; [done|]. by rewrite H2, E.
Qed.

(** What the two loops leave alone. *)
Definition same_counts (b b' : GSM0710_Buffer) : Prop :=
  gb_received_count b' = gb_received_count b /\ gb_dropped_count b' = gb_dropped_count b.

Lemma set_flag_ok f b : gb_ok b -> gb_ok (set_gb_flag f b).
Proof. intros []. by split. Qed.

Lemma find_flag_run fuel : forall b, gb_ok b -> gsm0710_buffer_length b <= Z.of_nat fuel ->
  exists b', find_flag fuel b = Some b' /\ gb_ok b' /\ same_counts b b' /\
    (if gb_flag_found b then b' = b
     else match after_flag (gb_view b) with
          | Some l => gb_flag_found b' = true /\ gb_view b' = l
          | None => gb_flag_found b' = false /\ gb_view b' = []
          end).
Proof.
  induction fuel as [|f IH]; intros b H Hf; cbn [find_flag]; destruct (gb_flag_found b) eqn:Ef; cbn [negb andb].
  1,3: by exists b.
  - destruct (Z.ltb_spec 0 (gsm0710_buffer_length b)); [lia|]. exists b. pose proof (gb_length_range b H). pose proof (gb_view_length b H) as Hv.
    destruct (gb_view b) eqn:E; [done|cbn in Hv; lia].
  - destruct (Z.ltb_spec 0 (gsm0710_buffer_length b)) as [Hl|Hl].
    + destruct (view_first b H Hl) as (c & l & Ea & Ev & H' & Ev' & Hl'). rewrite Ea, Ev. cbn [mbind option_bind after_flag].
      destruct (Z.eqb_spec c F_FLAG) as [->|Hc].
      * change (gb_readp (set_gb_flag true b)) with (gb_readp b). set (b1 := set_gb_readp _ (set_gb_flag true b)).
        exists b1. assert (E1 : find_flag f b1 = Some b1) by (destruct f; done). split; [done|].
        split; [destruct H'; by split|]. done.
      * set (b1 := set_gb_readp _ b) in *. destruct (IH b1 H' ltac:(lia)) as (b' & E & Hok & Hs & Hm). exists b'. split; [done|].
        split; [done|]. split; [done|]. change (gb_flag_found b1) with (gb_flag_found b) in Hm. by rewrite Ef, Ev' in Hm.
    + exists b. pose proof (gb_length_range b H). pose proof (gb_view_length b H) as Hv. destruct (gb_view b) eqn:E; [done|cbn in Hv; lia].
Qed.

Lemma skip_empty_run fuel : forall b, gb_ok b -> gsm0710_buffer_length b <= Z.of_nat fuel ->
  exists b', skip_empty fuel b = Some b' /\ gb_ok b' /\ same_counts b b' /\ gb_flag_found b' = gb_flag_found b /\
    gb_view b' = drop_flags (gb_view b).
Proof.
  induction fuel as [|f IH]; intros b H Hf; cbn [skip_empty]; destruct (Z.ltb_spec 0 (gsm0710_buffer_length b)) as [Hl|Hl]; try lia.
  1,3: exists b; pose proof (gb_length_range b H); pose proof (gb_view_length b H) as Hv; destruct (gb_view b) eqn:E; [done|cbn in Hv; lia].
  destruct (view_first b H Hl) as (c & l & Ea & Ev & H' & Ev' & Hl'). rewrite Ea, Ev. cbn [mbind option_bind drop_flags].
  destruct (Z.eqb_spec c F_FLAG) as [->|Hc]; [|by exists b].
  set (b1 := set_gb_readp _ b) in *. destruct (IH b1 H' ltac:(lia)) as (b' & E & Hok & Hs & Hfl & Hm). exists b'. by rewrite Ev' in Hm.
Qed.

(** The check at the end of a frame compares with the check sequence. *)
Lemma crc_at_207 : forallb (fun z => Bool.eqb (crc_at z =? 207) (z =? 255) && (Z.lxor z 255 =? 255 - z)) (seqZ 0 256) = true.
Proof. vm_compute. reflexivity. Qed.
Lemma fcs_check f x : byte f -> byte x -> (fcs_step f x =? 0xCF) = (x =? 255 - f).
Proof.
  intros Hf Hx. pose proof crc_at_207 as H. rewrite forallb_forall in H.
  assert (Hin : forall z, byte z -> (crc_at z =? 207) = (z =? 255) /\ Z.lxor z 255 = 255 - z).
  { intros z Hz. specialize (H z). rewrite andb_true_iff, eqb_true_iff, Z.eqb_eq in H. apply H, list_elem_of_In, elem_of_seqZ. unfold byte in Hz. lia. }
  unfold fcs_step. destruct (Hin _ (lxor_byte f x Hf Hx)) as [-> _]. destruct (Hin f Hf) as [_ <-].
  destruct (Z.eqb_spec x (Z.lxor f 255)) as [->|Hn].
  - by rewrite <-Z.lxor_assoc, Z.lxor_nilpotent, Z.lxor_0_l.
  - apply Z.eqb_neq. intros E. apply Hn. rewrite <-E, <-Z.lxor_assoc, Z.lxor_nilpotent. by rewrite Z.lxor_0_l.
Qed.

(** The blocks of a frame. *)
Definition blocks (f : option GSM0710_Frame) : Z :=
  match f with None => 0 | Some f => if 0 <? fr_data_length f then 2 else 1 end.

Lemma destroy_live f h : hp_live (destroy_frame f h) = hp_live h - blocks (Some f).
Proof. unfold destroy_frame, blocks. destruct (0 <? fr_data_length f); cbn; lia. Qed.

Lemma land_254 x : byte x -> 0 <= Z.shiftr (Z.land x 254) 1 < 128.
Proof.
  intros Hx. rewrite Z.shiftr_div_pow2 by lia. change (2 ^ 1) with 2.
  pose proof (land_byte_range x 254 Hx ltac:(lia)). Z.div_mod_to_equations; lia.
Qed.

(** ** The buffer finds the frames of its byte string *)

Lemma after_flag_length l l' : after_flag l = Some l' -> (length l' < length l)%nat.
Proof.
  induction l as [|c l IH]; [done|]. cbn. destruct (_ =? _); [intros [= ->]; cbn; lia|]. intros E. specialize (IH E). lia.
Qed.
Lemma drop_flags_length l : (length (drop_flags l) <= length l)%nat.
Proof. induction l as [|c l IH]; [done|]. cbn. destruct (_ =? _); cbn; lia. Qed.

Lemma view_bytes b : gb_ok b -> Forall byte (gb_view b).
Proof.
  intros H. rewrite list.Forall_forall. intros x Hx. apply list_elem_of_lookup in Hx as [i Hi].
  apply (at_view b (Z.of_nat i) x H); [lia|]. by rewrite Nat2Z.id.
Qed.

Section Run.
Context (malloc_ok : nat -> bool) (Hmalloc : forall n, malloc_ok n = true).

(** What holds behind a call. *)
Record found (b : GSM0710_Buffer) (h : heap) (fr : option GSM0710_Frame) (flag : bool) (rest : list Z) (n : Z)
    (b' : GSM0710_Buffer) (h' : heap) : Prop := {
  fd_ok : gb_ok b';
  fd_flag : gb_flag_found b' = flag;
  fd_view : gb_view b' = rest;
  fd_live : hp_live h' = hp_live h + blocks fr;
  fd_dropped : u32 (gb_dropped_count b') = u32 (gb_dropped_count b + n);
  fd_received : u32 (gb_received_count b') = u32 (gb_received_count b + if fr then 1 else 0) }.

Lemma malloc_run h : malloc malloc_ok h = (true, Heap (S (hp_calls h)) (hp_live h + 1)).
Proof. unfold malloc. by rewrite Hmalloc. Qed.

(** Dropping a frame and going on from the byte at [j]. *)
Lemma found_bad b h h1 fr flag rest n k j b' h' :
  found (set_gb_readp j (if 0 <? k then set_gb_dropped (gb_dropped_count b + 1) (set_gb_flag false b) else set_gb_flag false b)) h1 fr flag rest n b' h' ->
  0 <= k <= 1 -> hp_live h1 = hp_live h -> found b h fr flag rest (n + k) b' h'.
Proof.
  intros [H1 H2 H3 H4 H5 H6] Hk Hl. split; try done; [by rewrite <-Hl| |].
  - rewrite H5. assert (k = 0 \/ k = 1) as [-> | ->] by lia; cbn; unfold u32; Z.div_mod_to_equations; lia.
  - rewrite H6. by destruct (0 <? k).
Qed.

(** The two loops at the start. *)
Lemma sync_run b : gb_ok b -> exists b1, find_flag (Z.to_nat GSM0710_BUFFER_SIZE) b = Some b1 /\
  match (if gb_flag_found b then Some (gb_view b) else after_flag (gb_view b)) with
  | None => gb_flag_found b1 = false /\ gb_view b1 = [] /\ gb_ok b1 /\ same_counts b b1
  | Some l => gb_flag_found b1 = true /\ (length l <= length (gb_view b))%nat /\
      exists b2, skip_empty (Z.to_nat GSM0710_BUFFER_SIZE) b1 = Some b2 /\
        gb_flag_found b2 = true /\ gb_view b2 = drop_flags l /\ gb_ok b2 /\ same_counts b b2
  end.
Proof.
  intros H. pose proof (gb_length_range b H) as Hr.
  destruct (find_flag_run (Z.to_nat GSM0710_BUFFER_SIZE) b H) as (b1 & E1 & H1 & [Hc1 Hd1] & Hm1); [unfold GSM0710_BUFFER_SIZE; lia|].
  exists b1. split; [done|]. destruct (skip_empty_run (Z.to_nat GSM0710_BUFFER_SIZE) b1 H1) as (b2 & E2 & H2 & [Hc2 Hd2] & Hf2 & Hm2);
    [pose proof (gb_length_range b1 H1); unfold GSM0710_BUFFER_SIZE; lia|].
  assert (Hsc : same_counts b b2) by (split; congruence). destruct (gb_flag_found b) eqn:Ef.
  - subst b1. split; [done|]. split; [done|]. exists b2. split; [done|]. by rewrite Hf2.
  - destruct (after_flag (gb_view b)) as [l|] eqn:El; destruct Hm1 as [Hm1 Hv1]; [|done]. apply after_flag_length in El.
    split; [done|]. split; [lia|]. exists b2. rewrite Hf2, Hm2, Hv1. done.
Qed.

(** Taking the data of a frame. *)
Lemma frame_data_run b h c0 c1 n fcs d :
  gb_ok b -> 0 <= n -> 3 + n <= gsm0710_buffer_length b -> d = take (Z.to_nat n) (drop 3 (gb_view b)) ->
  exists h', frame_data malloc_ok b ((gb_readp b + 3) mod 2048) c0 c1 n fcs h =
      Some (Frame c0 c1 n d, (gb_readp b + (3 + n)) mod 2048, foldl fcs_step fcs (if frame_is UI c1 then d else []), h') /\
    hp_live h' = hp_live h - 1 + blocks (Some (Frame c0 c1 n d)).
Proof.
  intros H Hn Hl Hd. unfold frame_data, blocks. cbn [fr_data_length]. destruct (Z.ltb_spec 0 n) as [Hp|Hp].
  - rewrite malloc_run. pose proof (extract_run b 3 n H ltac:(lia) Hn Hl) as Ex. change (Z.to_nat 3) with 3%nat in Ex. rewrite <-Hd in Ex.
    rewrite Ex. cbn [mbind option_bind fst snd]. eexists. split; [by destruct (frame_is UI c1)|cbn; lia].
  - assert (n = 0) as -> by lia. assert (d = []) as -> by done. eexists. split; [by destruct (frame_is UI c1)|lia].
Qed.

(** The parts of a byte string that is long enough for its frame. *)
Lemma split_frame (c0 c1 c2 : Z) t n : 0 <= n -> 5 + n <= Z.of_nat (length (c0 :: c1 :: c2 :: t)) ->
  exists x y rest, let l := c0 :: c1 :: c2 :: t in drop (Z.to_nat n) t = x :: y :: rest /\
    l !! Z.to_nat (3 + n) = Some x /\ l !! Z.to_nat (3 + n + 1) = Some y /\
    drop (Z.to_nat (3 + n)) l = x :: y :: rest /\ drop (Z.to_nat (3 + n + 1)) l = y :: rest /\ drop (Z.to_nat (3 + n + 1 + 1)) l = rest.
Proof.
  intros Hn Hl. cbn [length] in Hl. destruct (drop (Z.to_nat n) t) as [|x [|y rest]] eqn:Ed.
  1,2: apply (f_equal length) in Ed; rewrite length_drop in Ed; cbn [length] in Ed; lia.
  exists x, y, rest. cbv zeta. set (l := c0 :: c1 :: c2 :: t).
  assert (Edl : forall j k, k = (Z.to_nat (3 + n) + j)%nat -> drop k l = drop j (x :: y :: rest)).
  { intros j k ->. replace (Z.to_nat (3 + n)) with (3 + Z.to_nat n)%nat by lia. rewrite <-!drop_drop. change (drop 3 l) with t. by rewrite Ed. }
  assert (E0 : drop (Z.to_nat (3 + n)) l = x :: y :: rest) by (apply (Edl 0%nat); lia).
  assert (E1 : drop (Z.to_nat (3 + n + 1)) l = y :: rest) by (apply (Edl 1%nat); lia).
  assert (E2 : drop (Z.to_nat (3 + n + 1 + 1)) l = rest) by (apply (Edl 2%nat); lia).
  split; [done|]. split; [by rewrite <-(Nat.add_0_r (Z.to_nat (3 + n))), <-lookup_drop, E0|].
  split; [by rewrite <-(Nat.add_0_r (Z.to_nat (3 + n + 1))), <-lookup_drop, E1|]. done.
Qed.

(** The call of the function of itself, from the byte at [j]. *)
Definition run_ok (fuel : nat) : Prop := forall b h, gb_ok b -> (length (gb_view b) < fuel)%nat ->
  let '(fr, flag, rest, n) := deframe fuel (gb_flag_found b) (gb_view b) in
  exists b' h', gsm0710_buffer_get_frame malloc_ok fuel b h = Some (fr, b', h') /\ found b h fr flag rest n b' h'.

Lemma go_on fuel b b2 h h1 j k : run_ok fuel -> gb_ok b2 -> same_counts b b2 -> (length (gb_view b2) <= fuel)%nat ->
  2 <= j <= Z.of_nat (length (gb_view b2)) -> 0 <= k <= 1 -> hp_live h1 = hp_live h ->
  let '(fr, flag, rest, m) := (let '(fr, flag', l', n) := deframe fuel false (drop (Z.to_nat j) (gb_view b2)) in (fr, flag', l', n + k)) in
  exists b' h', gsm0710_buffer_get_frame malloc_ok fuel (set_gb_readp ((gb_readp b2 + j) mod 2048)
    (if 0 <? k then set_gb_dropped (gb_dropped_count b2 + 1) (set_gb_flag false b2) else set_gb_flag false b2)) h1 = Some (fr, b', h') /\
    found b h fr flag rest m b' h'.
Proof.
  intros IH H2 [Hc Hd] Hf Hj Hk Hh. set (b3 := set_gb_readp _ _).
  destruct (advance b2 j H2) as (Ha1 & Ha2 & Ha3); [rewrite <-gb_view_length by done; lia|].
  assert (H3 : gb_ok b3) by (unfold b3; destruct Ha1, (0 <? k); by split).
  assert (Ev : gb_view b3 = drop (Z.to_nat j) (gb_view b2)) by (rewrite <-Ha2; unfold b3; by destruct (0 <? k)).
  assert (Ef : gb_flag_found b3 = false) by (unfold b3; by destruct (0 <? k)).
  pose proof (IH b3 h1 H3 ltac:(rewrite Ev, length_drop; lia)) as Hrun. rewrite Ev, Ef in Hrun.
  destruct (deframe fuel false (drop (Z.to_nat j) (gb_view b2))) as [[[fr flag] rest] m]. destruct Hrun as (b' & h' & E & Hfd). exists b', h'. split; [done|].
  assert (Hfd' : found b2 h fr flag rest (m + k) b' h') by (eapply found_bad; [exact Hfd|done|done]).
  destruct Hfd' as [F1 F2 F3 F4 F5 F6]. split; try done; [by rewrite F5, Hd|by rewrite F6, Hc].
Qed.

Lemma found_none b b2 h h1 flag rest : gb_ok b2 -> same_counts b b2 -> hp_live h1 = hp_live h -> gb_flag_found b2 = flag -> gb_view b2 = rest ->
  exists b' h', Some (@None GSM0710_Frame, b2, h1) = Some (None, b', h') /\ found b h None flag rest 0 b' h'.
Proof.
  intros H2 [Hc Hd] Hh Hf Hv. exists b2, h1. split; [done|]. split; try done; [rewrite Hh; cbn; lia|by rewrite Hd, Z.add_0_r|by rewrite Hc, Z.add_0_r].
Qed.

(** [frame_at] read through the pointers of the code. *)
Lemma get_frame_run fuel : run_ok fuel.
Proof.
  induction fuel as [|fuel IH]; intros b h H Hf; [lia|]. cbn [deframe gsm0710_buffer_get_frame].
  destruct (sync_run b H) as (b1 & -> & Hsync). cbn [mbind option_bind].
  destruct (if gb_flag_found b then Some (gb_view b) else after_flag (gb_view b)) as [l1|].
  2:{ destruct Hsync as (Hfl & Hv & H1 & Hs). rewrite Hfl. cbn [negb]. by apply found_none. }
  destruct Hsync as (-> & Hl1 & b2 & -> & Hf2 & Hv2 & H2 & Hs). cbn [negb mbind option_bind]. pose proof (drop_flags_length l1) as Hdl.
  pose proof (gb_view_length b2 H2) as Hl2. rewrite <-Hv2 in Hdl |- *. assert (Hgo := go_on fuel b b2 h). rewrite <-Hl2.
  destruct (gb_view b2) as [|c0 [|c1 [|c2 t]]] eqn:El; try (by apply found_none). unfold frame_at.
  set (l := c0 :: c1 :: c2 :: t) in *.
  destruct (Z.ltb_spec (Z.of_nat (length l)) 5) as [H5|H5]; [by apply found_none|]. rewrite malloc_run. cbn [negb].
  assert (Hat : forall i c, 0 <= i -> l !! Z.to_nat i = Some c -> at_ b2 ((gb_readp b2 + i) mod 2048) = Some c /\ byte c).
  { intros i c Hi E. apply (at_view b2 i c H2 Hi). by rewrite El. }
  destruct (Hat 0 c0 ltac:(lia) eq_refl) as [A0 B0]. destruct (Hat 1 c1 ltac:(lia) eq_refl) as [A1 B1]. destruct (Hat 2 c2 ltac:(lia) eq_refl) as [A2 B2].
  pose proof (gk_readp b2 H2) as Hrp. rewrite <-(Z.mod_small (gb_readp b2) 2048) by lia. rewrite <-(Z.add_0_r (gb_readp b2)).
  rewrite A0. cbn [mbind option_bind]. rewrite !inc_mod. change (0 + 1) with 1. change (1 + 1) with 2. rewrite A1. cbn [mbind option_bind].
  rewrite A2. cbn [mbind option_bind]. pose proof (land_254 c2 B2) as Hn. set (n := Z.shiftr (Z.land c2 254) 1) in *.
  destruct (Z.eqb_spec (Z.land c2 1) 0) as [Ee|Ee]; [apply (Hgo _ 2 0 IH); (done || lia || (cbn; lia))|].
  destruct (Z.ltb_spec (Z.of_nat (length l)) (5 + n)) as [H5n|H5n]; [apply found_none; (done || (cbn; lia))|]. change (2 + 1) with 3.
  set (d := take (Z.to_nat n) t). set (fcs := foldl fcs_step 255 (c0 :: c1 :: c2 :: (if frame_is UI c1 then d else []))).
  assert (Hbl : Forall byte l) by (rewrite <-El; by apply view_bytes).
  assert (Hdb : Forall byte d) by (unfold l in Hbl; rewrite !list.Forall_cons in Hbl; apply Forall_take, Hbl).
  assert (Hfb : byte fcs) by (apply fcs_fold; [done|]; rewrite !list.Forall_cons; repeat split; try apply B0; try apply B1; try apply B2; by destruct (frame_is UI c1)).
  destruct (frame_data_run b2 (Heap (S (hp_calls h)) (hp_live h + 1)) (Z.shiftr (Z.land c0 252) 2) c1 n (fcs_step (fcs_step (fcs_step 255 c0) c1) c2) d H2)
    as (h2 & -> & Hh2); [lia|lia|by rewrite El|]. cbn [mbind option_bind]. change (foldl _ (fcs_step _ c2) _) with fcs.
  destruct (split_frame c0 c1 c2 t n) as (x & y & rest & Ed & Hx & Hy & D0 & D1 & D2); [lia|done|]. fold l in Hx, Hy, D0, D1, D2. rewrite Ed.
  destruct (Hat (3 + n) x ltac:(lia) Hx) as [Ax Bx]. destruct (Hat (3 + n + 1) y ltac:(lia) Hy) as [Ay By].
  rewrite Ax. cbn [mbind option_bind]. rewrite (fcs_check fcs x Hfb Bx). change (255 - fcs) with (make_fcs (c0 :: c1 :: c2 :: (if frame_is UI c1 then d else []))).
  pose proof (destroy_live (Frame (Z.shiftr (Z.land c0 252) 2) c1 n d) h2) as Hdl2. cbn [hp_live] in Hh2. rewrite inc_mod, Ay. cbn [mbind option_bind].
  destruct (x =? make_fcs _); cbn [negb]; [|rewrite <-D0; apply (Hgo _ (3 + n) 1 IH); (done || lia)].
  destruct (y =? F_FLAG); cbn [negb]; [|rewrite <-D1; apply (Hgo _ (3 + n + 1) 1 IH); (done || lia)].
  rewrite inc_mod. eexists _, _. split; [reflexivity|]. destruct (advance b2 (3 + n + 1 + 1) H2) as (G1 & G2 & G3); [lia|]. rewrite El in G2.
  destruct Hs as [Hc2 Hd2]. split; cbn [gb_dropped_count gb_received_count set_gb_readp set_gb_received gb_flag_found].
  - destruct G1; by split.
  - done.
  - rewrite <-D2. by rewrite <-G2.
  - rewrite Hh2. cbn [blocks]. lia.
  - by rewrite Hd2, Z.add_0_r.
  - rewrite Hc2. unfold u32. Z.div_mod_to_equations; lia.
Qed.
End Run.

(** ** Byte strings in pieces *)

Lemma frame_at_length l : match frame_at l with
  | Short => (length l < 132)%nat \/ exists c2, l !! 2%nat = Some c2 /\ ~ byte c2
  | Bad r _ => (length r < length l)%nat
  | Good _ r => (length r < length l)%nat
  end.
Proof.
  destruct l as [|c0 [|c1 [|c2 t]]]; cbn [frame_at length]; try lia. set (l := c0 :: c1 :: c2 :: t).
  destruct (Z.ltb_spec (Z.of_nat (S (S (S (length t))))) 5); [lia|]. destruct (Z.land c2 1 =? 0); [cbn; lia|].
  destruct (Z.ltb_spec (Z.of_nat (S (S (S (length t))))) (5 + Z.shiftr (Z.land c2 254) 1)) as [Hl|Hl].
  - destruct (decide (byte c2)) as [Hb|Hb]; [|right; by exists c2]. left. pose proof (land_254 c2 Hb). lia.
  - destruct (drop _ t) as [|x [|y rest]] eqn:E; try (apply (f_equal length) in E; rewrite length_drop in E; cbn in E; lia).
    apply (f_equal length) in E. rewrite length_drop in E. cbn in E. destruct (negb _); [cbn; lia|]. destruct (negb _); cbn; lia.
Qed.

Lemma deframe_fuel fuel1 : forall fuel2 flag l, (length l < fuel1)%nat -> (length l < fuel2)%nat -> deframe fuel1 flag l = deframe fuel2 flag l.
Proof.
  induction fuel1 as [|f1 IH]; intros [|f2] flag l H1 H2; try lia. cbn [deframe].
  destruct (if flag then Some l else after_flag l) as [l1|] eqn:E; [|done].
  assert (Hl : (length l1 <= length l)%nat) by (destruct flag; [injection E as ->; lia|apply after_flag_length in E; lia]).
  pose proof (drop_flags_length l1). pose proof (frame_at_length (drop_flags l1)) as Hfa.
  destruct (frame_at (drop_flags l1)) as [|r k|fr r]; try done. by rewrite (IH f2) by lia.
Qed.

(** The next frame of a byte string. *)
Definition next (flag : bool) (l : list Z) : option GSM0710_Frame * bool * list Z * Z := deframe (S (length l)) flag l.
Lemma next_eq flag l : next flag l =
  match (if flag then Some l else after_flag l) with
  | None => (None, false, [], 0)
  | Some l =>
      match frame_at (drop_flags l) with
      | Short => (None, true, drop_flags l, 0)
      | Good fr rest => (Some fr, true, rest, 0)
      | Bad rest k => let '(fr, flag', l', n) := next false rest in (fr, flag', l', n + k)
      end
  end.
Proof.
  unfold next at 1. cbn [deframe]. destruct (if flag then Some l else after_flag l) as [l1|] eqn:E; [|done].
  assert (Hl : (length l1 <= length l)%nat) by (destruct flag; [injection E as ->; lia|apply after_flag_length in E; lia]).
  pose proof (drop_flags_length l1). pose proof (frame_at_length (drop_flags l1)) as Hfa.
  destruct (frame_at (drop_flags l1)) as [|r k|fr r]; try done. unfold next. by rewrite (deframe_fuel (length l) (S (length r))) by lia.
Qed.

Lemma after_flag_app l m : after_flag (l ++ m) = match after_flag l with Some l' => Some (l' ++ m) | None => after_flag m end.
Proof. induction l as [|c l IH]; [done|]. cbn. by destruct (c =? F_FLAG). Qed.
Lemma drop_flags_app l m : drop_flags (l ++ m) = drop_flags (drop_flags l ++ m).
Proof. induction l as [|c l IH]; [done|]. cbn. destruct (c =? F_FLAG) eqn:E; [done|]. cbn. by rewrite E. Qed.
Lemma drop_flags_head l m : frame_at (drop_flags l) <> Short -> drop_flags (l ++ m) = drop_flags l ++ m.
Proof. induction l as [|c l IH]; [done|]. cbn. destruct (c =? F_FLAG) eqn:E; done. Qed.

Lemma frame_at_app l m :
  match frame_at l with
  | Short => True
  | Bad r k => frame_at (l ++ m) = Bad (r ++ m) k
  | Good f r => frame_at (l ++ m) = Good f (r ++ m)
  end.
Proof.
  destruct l as [|c0 [|c1 [|c2 t]]]; try done. cbn [frame_at app length].
  destruct (Z.ltb_spec (Z.of_nat (S (S (S (length t))))) 5); [done|]. rewrite length_app.
  destruct (Z.ltb_spec (Z.of_nat (S (S (S (length t + length m))))) 5); [lia|]. destruct (Z.land c2 1 =? 0); [done|].
  set (n := Z.shiftr (Z.land c2 254) 1). destruct (Z.ltb_spec (Z.of_nat (S (S (S (length t))))) (5 + n)); [done|].
  destruct (Z.ltb_spec (Z.of_nat (S (S (S (length t + length m))))) (5 + n)); [lia|].
  rewrite take_app_le, drop_app_le by lia. destruct (drop (Z.to_nat n) t) as [|x [|y rest]]; [done|done|]. cbn [app].
  destruct (negb _); [done|]. by destruct (negb _).
Qed.

(** More bytes do not change the frame that is there, and the search goes on where it ended. *)
Lemma next_app l m : forall flag,
  let '(fr, flag', r, n) := next flag l in
  next flag (l ++ m) =
    match fr with
    | Some f => (Some f, flag', r ++ m, n)
    | None => let '(fr2, flag2, r2, n2) := next flag' (r ++ m) in (fr2, flag2, r2, n2 + n)
    end.
Proof.
  revert l. refine (well_founded_ind (well_founded_ltof _ (@length Z)) _ _). intros l IH flag.
  rewrite (next_eq flag l), (next_eq flag (l ++ m)).
  assert (Estart : (if flag then Some (l ++ m) else after_flag (l ++ m)) =
    match (if flag then Some l else after_flag l) with Some l1 => Some (l1 ++ m) | None => after_flag m end).
  { destruct flag; [done|]. apply after_flag_app. }
  rewrite Estart. clear Estart. destruct (if flag then Some l else after_flag l) as [l1|] eqn:E.
  2:{ trans (next false m); [symmetry; apply (next_eq false m)|]. cbn [app]. destruct (next false m) as [[[? ?] ?] ?]. by rewrite Z.add_0_r. }
  assert (Hl : (length l1 <= length l)%nat) by (destruct flag; [injection E as ->; lia|apply after_flag_length in E; lia]).
  pose proof (drop_flags_length l1). pose proof (frame_at_length (drop_flags l1)) as Hlen. pose proof (frame_at_app (drop_flags l1) m) as Happ.
  destruct (frame_at (drop_flags l1)) as [|r k|f r] eqn:Ef.
  - rewrite (drop_flags_app l1 m). rewrite (next_eq true (drop_flags l1 ++ m)). destruct (frame_at (drop_flags (drop_flags l1 ++ m))) as [|r k|f r].
    + done.
    + destruct (next false r) as [[[? ?] ?] ?]. f_equal. lia.
    + done.
  - rewrite drop_flags_head, Happ by (rewrite Ef; done). specialize (IH r ltac:(unfold ltof; lia) false). destruct (next false r) as [[[fr flag'] r'] n]. rewrite IH.
    destruct fr; [done|]. destruct (next flag' (r' ++ m)) as [[[? ?] ?] ?]. f_equal. lia.
  - by rewrite drop_flags_head, Happ by (rewrite Ef; done).
Qed.

(** What is left when there is no frame. *)
Lemma next_left l : forall flag, Forall byte l -> let '(fr, _, r, _) := next flag l in
  Forall byte r /\ (length r <= length l)%nat /\ match fr with None => (length r < 132)%nat | Some _ => (length r < length l)%nat end.
Proof.
  revert l. refine (well_founded_ind (well_founded_ltof _ (@length Z)) _ _). intros l IH flag Hb. rewrite next_eq.
  destruct (if flag then Some l else after_flag l) as [l1|] eqn:E; [|split; [done|cbn; lia]].
  assert (Hl : (length l1 <= length l)%nat) by (destruct flag; [injection E as ->; lia|apply after_flag_length in E; lia]).
  assert (Hsub : forall l, Forall byte l -> Forall byte (drop_flags l)).
  { clear. induction l as [|c l IH]; intros Hb; [done|]. cbn. destruct (_ =? _); [|done]. apply IH. by apply list.Forall_cons in Hb as [_ ?]. }
  assert (Hb1 : Forall byte l1).
  { destruct flag; [by injection E as <-|]. clear -E Hb. induction l as [|c l IH]; [done|]. apply list.Forall_cons in Hb as [_ Hb]. cbn in E.
    destruct (_ =? _); [by injection E as <-|by apply IH]. }
  apply Hsub in Hb1. pose proof (drop_flags_length l1). pose proof (frame_at_length (drop_flags l1)) as Hlen.
  assert (Hr : forall r, r `suffix_of` drop_flags l1 -> Forall byte r).
  { intros r [k Hk]. rewrite Hk in Hb1. by apply Forall_app in Hb1 as [_ ?]. }
  assert (Hsuf : match frame_at (drop_flags l1) with Bad r _ | Good _ r => r `suffix_of` drop_flags l1 | Short => True end).
  { destruct (drop_flags l1) as [|c0 [|c1 [|c2 t]]]; try done. cbn [frame_at]. destruct (_ <? 5); [done|].
    destruct (Z.land c2 1 =? 0); [by exists [c0; c1]|]. destruct (_ <? _); [done|]. set (n := Z.to_nat _).
    pose proof (take_drop n t) as Et. destruct (drop n t) as [|x [|y rest]]; try done.
    destruct (negb _); [exists ([c0; c1; c2] ++ take n t); cbn; by rewrite Et|]. destruct (negb _).
    - exists ([c0; c1; c2] ++ take n t ++ [x]). rewrite <-!app_assoc. cbn. by rewrite Et.
    - exists ([c0; c1; c2] ++ take n t ++ [x; y]). rewrite <-!app_assoc. cbn. by rewrite Et. }
  destruct (frame_at (drop_flags l1)) as [|r k|f r].
  - split; [done|]. split; [lia|]. destruct Hlen as [Hlen|(c2 & Ec & Hn)]; [done|]. exfalso. apply Hn. rewrite list.Forall_forall in Hb1.
    by eapply Hb1, list_elem_of_lookup_2.
  - specialize (IH r ltac:(unfold ltof; lia) false (Hr r Hsuf)). destruct (next false r) as [[[fr flag'] r'] n]. destruct IH as (H1 & H2 & H3).
    split; [done|]. split; [lia|]. destruct fr; [lia|done].
  - split; [by apply Hr|]. split; [lia|lia].
Qed.

(** All frames. *)
Fixpoint nexts_fuel (fuel : nat) (flag : bool) (l : list Z) : list GSM0710_Frame * bool * list Z * Z :=
  match fuel with
  | O => ([], flag, l, 0)
  | S f =>
      let '(fr, flag', r, n) := next flag l in
      match fr with
      | None => ([], flag', r, n)
      | Some x => let '(fs, flag2, r2, n2) := nexts_fuel f flag' r in (x :: fs, flag2, r2, n + n2)
      end
  end.
Definition nexts (flag : bool) (l : list Z) := nexts_fuel (S (length l)) flag l.

Lemma nexts_fuel_enough fuel1 : forall fuel2 flag l, Forall byte l -> (length l < fuel1)%nat -> (length l < fuel2)%nat ->
  nexts_fuel fuel1 flag l = nexts_fuel fuel2 flag l.
Proof.
  induction fuel1 as [|f1 IH]; intros [|f2] flag l Hb H1 H2; try lia. cbn [nexts_fuel].
  pose proof (next_left l flag Hb) as Hl. destruct (next flag l) as [[[fr flag'] r] n]. destruct Hl as (Hbr & _ & Hlr).
  destruct fr; [|done]. by rewrite (IH f2) by (done || lia).
Qed.

Lemma nexts_eq flag l : Forall byte l -> nexts flag l =
  let '(fr, flag', r, n) := next flag l in
  match fr with
  | None => ([], flag', r, n)
  | Some x => let '(fs, flag2, r2, n2) := nexts flag' r in (x :: fs, flag2, r2, n + n2)
  end.
Proof.
  intros Hb. unfold nexts at 1. cbn [nexts_fuel]. pose proof (next_left l flag Hb) as Hl.
  destruct (next flag l) as [[[fr flag'] r] n]. destruct Hl as (Hbr & _ & Hlr). destruct fr; [|done].
  unfold nexts. by rewrite (nexts_fuel_enough (length l) (S (length r))) by (done || lia).
Qed.

(** The frames of a byte string that comes in two pieces. *)
Lemma nexts_app l m : forall flag, Forall byte l -> Forall byte m ->
  let '(fs, flag', r, n) := nexts flag l in
  Forall byte r /\ (length r < 132)%nat /\
  nexts flag (l ++ m) = let '(fs2, flag2, r2, n2) := nexts flag' (r ++ m) in (fs ++ fs2, flag2, r2, n + n2).
Proof.
  revert l. refine (well_founded_ind (well_founded_ltof _ (@length Z)) _ _). intros l IH flag Hb Hm.
  rewrite (nexts_eq flag l Hb), (nexts_eq flag (l ++ m)) by (by apply Forall_app). pose proof (next_app l m flag) as Ha.
  pose proof (next_left l flag Hb) as Hl. destruct (next flag l) as [[[fr flag'] r] n]. destruct Hl as (Hbr & _ & Hlr). rewrite Ha. clear Ha. destruct fr as [f|].
  - specialize (IH r ltac:(unfold ltof; lia) flag' Hbr Hm). destruct (nexts flag' r) as [[[fs flag2] r2] n2]. destruct IH as (H1 & H2 & H3).
    split; [done|]. split; [done|]. rewrite H3. destruct (nexts flag2 (r2 ++ m)) as [[[fs3 flag3] r3] n3]. cbn. f_equal. lia.
  - split; [done|]. split; [done|]. rewrite (nexts_eq flag' (r ++ m)) by (by apply Forall_app).
    destruct (next flag' (r ++ m)) as [[[fr2 flag2] r2] n2]. destruct fr2 as [x|]; [|cbn; f_equal; lia].
    destruct (nexts flag2 r2) as [[[fs3 flag3] r3] n3]. cbn. f_equal. lia.
Qed.

(** ** Frames on the line *)

(** A frame as it is sent, with the closing flag and [k] more; the address has the command bit
    and the extension bit set, the length is one byte. *)
Definition header (f : GSM0710_Frame) : list Z := [fr_channel f * 4 + 3; fr_control f; fr_data_length f * 2 + 1].
Definition wire (f : GSM0710_Frame) : list Z :=
  header f ++ fr_data f ++ [make_fcs (header f ++ if frame_is UI (fr_control f) then fr_data f else [])].
Fixpoint frames_text (fs : list (GSM0710_Frame * nat)) : list Z :=
  match fs with [] => [] | (f, k) :: fs' => wire f ++ F_FLAG :: replicate k F_FLAG ++ frames_text fs' end.
Definition stream (fs : list (GSM0710_Frame * nat)) : list Z := F_FLAG :: frames_text fs.
Definition frame_ok (f : GSM0710_Frame) : Prop :=
  0 <= fr_channel f <= 61 /\ byte (fr_control f) /\ fr_data_length f = Z.of_nat (length (fr_data f)) /\
  (length (fr_data f) <= 127)%nat /\ Forall byte (fr_data f).

Lemma header_bits : forallb (fun c => (Z.shiftr (Z.land (c * 4 + 3) 252) 2 =? c) && negb (c * 4 + 3 =? F_FLAG)) (seqZ 0 62) = true /\
  forallb (fun n => (Z.shiftr (Z.land (n * 2 + 1) 254) 1 =? n) && negb (Z.land (n * 2 + 1) 1 =? 0)) (seqZ 0 128) = true.
Proof. split; vm_compute; reflexivity. Qed.

Lemma frame_at_wire f rest : frame_ok f -> frame_at (wire f ++ F_FLAG :: rest) = Good f rest /\ drop_flags (wire f ++ rest) = wire f ++ rest.
Proof.
  intros (Hc & Hb & Hn & Hl & Hd). destruct header_bits as [B1 B2]. rewrite forallb_forall in B1, B2.
  specialize (B1 (fr_channel f)). specialize (B2 (fr_data_length f)). rewrite andb_true_iff, Z.eqb_eq, negb_true_iff in B1, B2.
  destruct B1 as [B1 B1']; [apply list_elem_of_In, elem_of_seqZ; lia|]. destruct B2 as [B2 B2']; [apply list_elem_of_In, elem_of_seqZ; lia|].
  unfold wire, header. split.
  - rewrite <-!app_assoc. cbn [app frame_at length]. rewrite B2, B2', B1. rewrite length_app. cbn [length].
    destruct (Z.ltb_spec (Z.of_nat (S (S (S (length (fr_data f) + S (S (length rest))))))) 5); [lia|].
    destruct (Z.ltb_spec (Z.of_nat (S (S (S (length (fr_data f) + S (S (length rest))))))) (5 + fr_data_length f)); [lia|].
    rewrite Hn, Nat2Z.id, take_app_length, drop_app_length. rewrite Z.eqb_refl. cbn [negb]. rewrite Z.eqb_refl. cbn [negb]. rewrite <-Hn. by destruct f.
  - cbn [app drop_flags]. by rewrite B1'.
Qed.

Lemma drop_flags_replicate k l : drop_flags (replicate k F_FLAG ++ l) = drop_flags l.
Proof. induction k as [|k IH]; [done|]. cbn. done. Qed.

(** The stream gives back its frames. *)
Lemma wire_byte f : frame_ok f -> Forall byte (wire f).
Proof.
  intros (Hc & Hb & Hn & Hl & Hd). unfold wire. assert (Hh : Forall byte (header f)) by (repeat (apply list.Forall_cons; split); [unfold byte; lia|done|unfold byte; lia|done]).
  apply Forall_app. split; [done|]. apply Forall_app. split; [done|]. apply list.Forall_cons. split; [|done]. apply make_fcs_byte, Forall_app. split; [done|].
  by destruct (frame_is _ _).
Qed.
Lemma flags_byte k : Forall byte (replicate k F_FLAG).
Proof. by apply Forall_replicate. Qed.
Lemma frames_text_byte fs : Forall (fun p => frame_ok p.1) fs -> Forall byte (frames_text fs).
Proof.
  induction 1 as [|[f k] fs Hf H IH]; [done|]. cbn [frames_text]. apply Forall_app. split; [by apply wire_byte|].
  apply list.Forall_cons. split; [done|]. apply Forall_app. split; [apply flags_byte|done].
Qed.
Lemma stream_byte fs : Forall (fun p => frame_ok p.1) fs -> Forall byte (stream fs).
Proof. intros H. apply list.Forall_cons. split; [done|by apply frames_text_byte]. Qed.

Lemma nexts_stream fs : Forall (fun p => frame_ok p.1) fs -> nexts false (stream fs) = (fs.*1, true, [], 0).
Proof.
  intros H. assert (G : forall k, nexts true (replicate k F_FLAG ++ frames_text fs) = (fs.*1, true, [], 0)).
  { induction H as [|[f k0] fs Hf H IH]; intros k.
    - cbn [frames_text]. rewrite nexts_eq by (apply Forall_app; split; [apply flags_byte|done]). by rewrite next_eq, drop_flags_replicate.
    - assert (Hb : Forall byte (replicate k F_FLAG ++ frames_text ((f, k0) :: fs))).
      { apply Forall_app. split; [apply flags_byte|]. apply frames_text_byte. by apply list.Forall_cons. }
      rewrite nexts_eq by done. rewrite next_eq, drop_flags_replicate. cbn [frames_text].
      destruct (frame_at_wire f (F_FLAG :: replicate k0 F_FLAG ++ frames_text fs) Hf) as [_ ->].
      destruct (frame_at_wire f (replicate k0 F_FLAG ++ frames_text fs) Hf) as [-> _]. by rewrite IH. }
  specialize (G 0%nat). cbn [replicate app] in G. pose proof (stream_byte fs H) as Hb.
  rewrite nexts_eq by done. rewrite nexts_eq in G by (by apply list.Forall_cons in Hb as [_ ?]). rewrite next_eq in G |- *. exact G.
Qed.

(** ** Writing *)

Lemma gb_copy_in_run data p src n : 0 <= p -> 0 <= n <= Z.of_nat (length src) -> p + n <= Z.of_nat (length data) ->
  exists data', copy_in data p src n = Some data' /\ length data' = length data /\
    (forall i, p <= i < p + n -> data' !! Z.to_nat i = src !! Z.to_nat (i - p)) /\
    (forall i, 0 <= i -> i < p \/ p + n <= i -> data' !! Z.to_nat i = data !! Z.to_nat i).
Proof.
  intros Hp Hn Hl. unfold copy_in. destruct (Z.leb_spec 0 n); [|lia]. destruct (Z.leb_spec n (Z.of_nat (length src))); [|lia].
  destruct (Z.leb_spec (p + n) (Z.of_nat (length data))); [|lia]. cbn [andb]. eexists. split; [reflexivity|]. split; [|split].
  - rewrite !length_app, !length_take, length_drop. lia.
  - intros i Hi. rewrite lookup_app_r by (rewrite length_take; lia). rewrite lookup_app_l by (rewrite !length_take; lia).
    rewrite length_take, lookup_take_lt by lia. f_equal. lia.
  - intros i Hi0 [Hi|Hi].
    + rewrite lookup_app_l by (rewrite length_take; lia). apply lookup_take_lt. lia.
    + rewrite lookup_app_r by (rewrite length_take; lia). rewrite lookup_app_r by (rewrite !length_take; lia).
      rewrite lookup_drop, !length_take. f_equal. lia.
Qed.

(** The bytes of the data behind a write, counted from the write pointer. *)
Lemma write_data b input count : gb_ok b -> 0 <= count <= Z.of_nat (length input) -> count < gsm0710_buffer_free b ->
  exists data', gsm0710_buffer_write b input count =
      Some (count, Buffer data' (gb_readp b) ((gb_writep b + count) mod 2048) (gb_flag_found b) (gb_received_count b) (gb_dropped_count b)) /\
    length data' = length (gb_data b) /\
    (forall k, 0 <= k < count -> data' !! Z.to_nat ((gb_writep b + k) mod 2048) = input !! Z.to_nat k) /\
    (forall k, count <= k < 2048 -> data' !! Z.to_nat ((gb_writep b + k) mod 2048) = gb_data b !! Z.to_nat ((gb_writep b + k) mod 2048)).
Proof.
  intros H Hc Hf. pose proof (gk_size b H) as Hs. pose proof (gk_writep b H) as Hw. pose proof (gb_free_length b H). pose proof (gb_length_range b H).
  unfold gsm0710_buffer_write, GSM0710_BUFFER_SIZE. destruct (Z.ltb_spec count (gsm0710_buffer_free b)); [|lia].
  destruct (Z.ltb_spec (2048 - gb_writep b) count) as [Hg|Hg].
  - destruct (gb_copy_in_run (gb_data b) (gb_writep b) input (2048 - gb_writep b)) as (d1 & E1 & L1 & I1 & O1); [lia..|]. rewrite E1. cbn [mbind option_bind].
    destruct (gb_copy_in_run d1 0 (drop (Z.to_nat (2048 - gb_writep b)) input) (count - (2048 - gb_writep b))) as (d2 & E2 & L2 & I2 & O2); [lia|rewrite length_drop; lia|lia|].
    rewrite E2. cbn [mbind option_bind]. exists d2. split; [do 3 f_equal; Z.div_mod_to_equations; lia|]. split; [congruence|]. split; intros k Hk.
    + destruct (Z.lt_ge_cases (gb_writep b + k) 2048) as [Hlt|Hge].
      * rewrite Z.mod_small by lia. rewrite O2, I1 by lia. f_equal. lia.
      * replace ((gb_writep b + k) mod 2048) with (gb_writep b + k - 2048) by (Z.div_mod_to_equations; lia). rewrite I2, lookup_drop by lia. f_equal. lia.
    + destruct (Z.lt_ge_cases (gb_writep b + k) 2048) as [Hlt|Hge]; [lia|].
      replace ((gb_writep b + k) mod 2048) with (gb_writep b + k - 2048) by (Z.div_mod_to_equations; lia). rewrite O2, O1 by lia. done.
  - destruct (gb_copy_in_run (gb_data b) (gb_writep b) input count) as (d1 & E1 & L1 & I1 & O1); [lia..|]. rewrite E1. cbn [mbind option_bind].
    exists d1. split. { f_equal. f_equal. f_equal. destruct (Z.eqb_spec (gb_writep b + count) 2048) as [E|E]; [by rewrite E|by rewrite Z.mod_small by lia]. }
    split; [done|]. split; intros k Hk.
    + rewrite Z.mod_small by lia. rewrite I1 by lia. f_equal. lia.
    + pose proof (Z.mod_pos_bound (gb_writep b + k) 2048 ltac:(lia)). apply O1; [lia|]. Z.div_mod_to_equations; lia.
Qed.

(** What fits is appended. *)
Lemma write_run b input : gb_ok b -> Forall byte input -> Z.of_nat (length (gb_view b)) + Z.of_nat (length input) < 2048 ->
  exists b', gsm0710_buffer_write b input (Z.of_nat (length input)) = Some (Z.of_nat (length input), b') /\
    gb_ok b' /\ gb_view b' = gb_view b ++ input /\ gb_flag_found b' = gb_flag_found b /\ same_counts b b'.
Proof.
  intros H Hb Hl. rewrite gb_view_length in Hl by done. pose proof (gb_free_length b H) as Hfr. pose proof (gb_length_range b H) as Hr.
  set (count := Z.of_nat (length input)) in *.
  destruct (write_data b input count H) as (data' & E & Hlen & Hin & Hout); [unfold count; lia|lia|]. eexists. split; [exact E|].
  pose proof (gk_size b H) as Hs. pose proof (gk_writep b H) as Hw. pose proof (gk_readp b H) as Hrp.
  pose proof (Z.mod_pos_bound (gb_writep b + count) 2048 ltac:(lia)) as Hm. set (b' := Buffer _ _ _ _ _ _).
  assert (Hall : forall x i, 0 <= i < 2048 -> data' !! Z.to_nat i = Some x -> byte x).
  { intros x i Hi Ex. set (k := (i - gb_writep b) mod 2048). assert (Hk : 0 <= k < 2048) by (apply Z.mod_pos_bound; lia).
    assert (Ei : i = (gb_writep b + k) mod 2048) by (unfold k; Z.div_mod_to_equations; lia). rewrite Ei in Ex.
    destruct (Z.lt_ge_cases k count).
    - rewrite Hin in Ex by lia. rewrite list.Forall_forall in Hb. by eapply Hb, list_elem_of_lookup_2.
    - rewrite Hout in Ex by lia. pose proof (gk_bytes b H) as Hd. rewrite list.Forall_forall in Hd. by eapply Hd, list_elem_of_lookup_2. }
  assert (H' : gb_ok b').
  { split; cbn; [lia| |lia|lia]. rewrite list.Forall_forall. intros x Hx. apply list_elem_of_lookup in Hx as [i Ei].
    pose proof (lookup_lt_Some _ _ _ Ei). apply (Hall x (Z.of_nat i)); [lia|]. by rewrite Nat2Z.id. }
  split; [done|]. split; [|done].
  assert (El : gsm0710_buffer_length b' = gsm0710_buffer_length b + count).
  { pose proof (gb_length_mod b' H') as E1. pose proof (gb_length_mod b H) as E2. cbn in E1. rewrite E1. rewrite E2 in *. Z.div_mod_to_equations; lia. }
  assert (Ew : gb_writep b = (gb_readp b + gsm0710_buffer_length b) mod 2048).
  { rewrite gb_length_mod by done. Z.div_mod_to_equations; lia. }
  unfold gb_view. rewrite El, ring_view_app by (lia || (unfold count; lia)). cbn [gb_data gb_readp b']. f_equal.
  - apply list_eq_same_length with (Z.to_nat (gsm0710_buffer_length b)); [by rewrite length_ring_view..|].
    intros i x y Hi. rewrite !lookup_ring_view by lia. set (k := 2048 - gsm0710_buffer_length b + Z.of_nat i).
    assert (Ei : (gb_readp b + Z.of_nat i) mod 2048 = (gb_writep b + k) mod 2048) by (rewrite Ew; unfold k; Z.div_mod_to_equations; lia).
    rewrite Ei, Hout by (unfold k; lia). congruence.
  - apply list_eq_same_length with (length input); [done|by rewrite length_ring_view; unfold count; lia|].
    intros i x y Hi. rewrite lookup_ring_view by (unfold count; lia). replace (gb_readp b + gsm0710_buffer_length b + Z.of_nat i) with ((gb_readp b + gsm0710_buffer_length b) + Z.of_nat i) by lia.
    rewrite <-Z.add_mod_idemp_l, <-Ew by lia. rewrite Hin by (unfold count; lia). rewrite Nat2Z.id. intros Ex Ey. rewrite Ey in Ex. cbn in Ex. congruence.
Qed.

(** ** Bytes come in, frames go out *)

(** All frames that are there are taken and given back to the heap, as the loop of
    [extract_frames] does; [fuel] bounds its turns, [gsm_fuel] the calls of the function of itself. *)
Section Feed.
Context (malloc_ok : nat -> bool) (gsm_fuel : nat).

Fixpoint get_frames (fuel : nat) (b : GSM0710_Buffer) (h : heap) : option (list GSM0710_Frame * GSM0710_Buffer * heap) :=
  match fuel with
  | O => None
  | S f =>
      r ← gsm0710_buffer_get_frame malloc_ok gsm_fuel b h;
      let '(fr, b, h) := r in
      match fr with
      | None => Some ([], b, h)
      | Some fr => q ← get_frames f b (destroy_frame fr h); let '(fs, b, h) := q in Some (fr :: fs, b, h)
      end
  end.

(** Pieces of input, each of them written and followed by the loop. *)
Fixpoint feed_chunks (chunks : list (list Z)) (b : GSM0710_Buffer) (h : heap) : option (list GSM0710_Frame * GSM0710_Buffer * heap) :=
  match chunks with
  | [] => Some ([], b, h)
  | c :: chunks' =>
      w ← gsm0710_buffer_write b c (Z.of_nat (length c));
      r ← get_frames gsm_fuel w.2 h;
      let '(fs, b, h) := r in
      q ← feed_chunks chunks' b h;
      let '(fs2, b, h) := q in Some (fs ++ fs2, b, h)
  end.
Context (Hmalloc : forall n, malloc_ok n = true) (gsm_fuel_value : 2048 <= Z.of_nat gsm_fuel).

Lemma get_frames_run fuel : forall b h, gb_ok b -> (length (gb_view b) < fuel)%nat ->
  let '(fs, flag, r, n) := nexts (gb_flag_found b) (gb_view b) in
  exists b' h', get_frames fuel b h = Some (fs, b', h') /\ gb_ok b' /\ gb_flag_found b' = flag /\ gb_view b' = r /\
    hp_live h' = hp_live h /\ u32 (gb_dropped_count b') = u32 (gb_dropped_count b + n) /\
    u32 (gb_received_count b') = u32 (gb_received_count b + Z.of_nat (length fs)).
Proof.
  induction fuel as [|f IH]; intros b h H Hf; [lia|]. pose proof (view_bytes b H) as Hb. rewrite nexts_eq by done.
  pose proof (gb_length_range b H) as Hr. pose proof (gb_view_length b H) as Hv.
  pose proof (get_frame_run malloc_ok Hmalloc gsm_fuel b h H ltac:(pose proof gsm_fuel_value; lia)) as Hrun. rewrite (deframe_fuel gsm_fuel (S (length (gb_view b)))) in Hrun by (pose proof gsm_fuel_value; lia).
  pose proof (next_left (gb_view b) (gb_flag_found b) Hb) as Hl. unfold next in *. cbn [get_frames].
  destruct (deframe (S (length (gb_view b))) (gb_flag_found b) (gb_view b)) as [[[fr flag'] r] n]. destruct Hrun as (b1 & h1 & E & [F1 F2 F3 F4 F5 F6]).
  rewrite E. cbn [mbind option_bind]. destruct Hl as (_ & _ & Hl). destruct fr as [fr|].
  - specialize (IH b1 (destroy_frame fr h1) F1 ltac:(rewrite F3; lia)). rewrite F2, F3 in IH.
    destruct (nexts flag' r) as [[[fs flag2] r2] n2]. destruct IH as (b' & h' & E' & G1 & G2 & G3 & G4 & G5 & G6). rewrite E'. cbn [mbind option_bind].
    exists b', h'. split; [done|]. split; [done|]. split; [done|]. split; [done|]. rewrite destroy_live in G4. split; [lia|].
    cbn [length]. unfold u32 in *. split; Z.div_mod_to_equations; lia.
  - exists b1, h1. split; [done|]. split; [done|]. split; [done|]. split; [done|]. cbn in F4. split; [lia|]. split; [done|]. by rewrite F6.
Qed.

(** Nothing more is found in what is left. *)
Lemma nexts_drained flag l : Forall byte l -> let '(_, flag', r, _) := nexts flag l in nexts flag' r = ([], flag', r, 0).
Proof.
  intros Hb. pose proof (nexts_app l [] flag Hb ltac:(done)) as H. rewrite app_nil_r in H. destruct (nexts flag l) as [[[fs flag'] r] n].
  destruct H as (_ & _ & H). rewrite app_nil_r in H. destruct (nexts flag' r) as [[[fs2 flag2] r2] n2]. injection H as Hf -> -> Hn.
  assert (fs2 = []) as ->. { apply (f_equal length) in Hf. rewrite length_app in Hf. destruct fs2; [done|cbn in Hf; lia]. } do 2 f_equal. lia.
Qed.

Lemma feed_chunks_run chunks : forall b h, gb_ok b -> (length (gb_view b) < 132)%nat ->
  nexts (gb_flag_found b) (gb_view b) = ([], gb_flag_found b, gb_view b, 0) ->
  Forall (fun c => Forall byte c /\ Z.of_nat (length c) <= 1916) chunks ->
  let '(fs, flag, r, n) := nexts (gb_flag_found b) (gb_view b ++ concat chunks) in
  exists b' h', feed_chunks chunks b h = Some (fs, b', h') /\ gb_ok b' /\ gb_flag_found b' = flag /\ gb_view b' = r /\
    hp_live h' = hp_live h /\ u32 (gb_dropped_count b') = u32 (gb_dropped_count b + n) /\
    u32 (gb_received_count b') = u32 (gb_received_count b + Z.of_nat (length fs)).
Proof.
  induction chunks as [|c chunks IH]; intros b h H Hl Hdr Hc.
  - cbn [concat feed_chunks]. rewrite app_nil_r, Hdr. exists b, h. by rewrite !Z.add_0_r.
  - apply list.Forall_cons in Hc as [[Hcb Hcl] Hc]. cbn [concat feed_chunks].
    destruct (write_run b c H Hcb ltac:(lia)) as (b1 & E1 & H1 & Hv1 & Hf1 & [Hs1 Hs2]). rewrite E1. cbn [mbind option_bind snd].
    pose proof (get_frames_run gsm_fuel b1 h H1) as Hg. rewrite Hv1, Hf1 in Hg. specialize (Hg ltac:(pose proof gsm_fuel_value; rewrite length_app; lia)).
    assert (Hb : Forall byte (gb_view b ++ c)) by (apply Forall_app; split; [by apply view_bytes|done]).
    pose proof (nexts_drained (gb_flag_found b) (gb_view b ++ c) Hb) as Hd.
    assert (Hcc : Forall byte (concat chunks)). { apply List.Forall_concat. eapply list.Forall_impl; [exact Hc|]. by intros x [? _]. }
    pose proof (nexts_app (gb_view b ++ c) (concat chunks) (gb_flag_found b) Hb Hcc) as Ha.
    destruct (nexts (gb_flag_found b) (gb_view b ++ c)) as [[[fs1 flag1] r1] n1]. destruct Hg as (b2 & h2 & E2 & H2 & F2 & V2 & L2 & D2 & R2). rewrite E2. cbn [mbind option_bind].
    destruct Ha as (_ & Hlr & Ha). rewrite <-app_assoc in Ha. rewrite Ha.
    specialize (IH b2 h2 H2 ltac:(rewrite V2; done) ltac:(rewrite F2, V2; done) Hc). rewrite F2, V2 in IH.
    destruct (nexts flag1 (r1 ++ concat chunks)) as [[[fs2 flag2] r2] n2]. destruct IH as (b' & h' & E' & G1 & G2 & G3 & G4 & G5 & G6). rewrite E'. cbn [mbind option_bind].
    exists b', h'. split; [done|]. split; [done|]. split; [done|]. split; [done|]. split; [congruence|]. rewrite length_app.
    rewrite Hs1, Hs2 in *. unfold u32 in *. split; Z.div_mod_to_equations; lia.
Qed.
End Feed.

(** C36. Frames over the line: when frames with channels up to 61 and at most 127 bytes of data
    are sent, with any number of flags between them, their bytes come in pieces of at most 1916
    bytes each, which are taken out of the ring before the next one, and memory does not run out,
    a buffer that is empty before, wherever its pointers are, gives exactly these frames, in
    order; then it is empty,
    no frame has been dropped, and all the memory the frames took is free again. *)
Theorem gsm0710_stream malloc_ok fuel fs chunks b h :
  2048 <= Z.of_nat fuel ->
  (forall n, malloc_ok n = true) -> Forall (fun p => frame_ok p.1) fs ->
  concat chunks = stream fs -> Forall (fun c => Z.of_nat (length c) <= 1916) chunks ->
  gb_ok b -> gb_view b = [] -> gb_flag_found b = false ->
  exists b' h', feed_chunks malloc_ok fuel chunks b h = Some (fs.*1, b', h') /\ gb_ok b' /\ gb_view b' = [] /\
    hp_live h' = hp_live h /\ u32 (gb_dropped_count b') = u32 (gb_dropped_count b).
Proof.
  intros Hfuel Hm Hfs Hcc Hcl H Hv Hf. pose proof (stream_byte fs Hfs) as Hb. rewrite <-Hcc in Hb.
  assert (Hc : Forall (fun c => Forall byte c /\ Z.of_nat (length c) <= 1916) chunks).
  { apply List.Forall_concat in Hb. rewrite list.Forall_forall in Hb, Hcl |- *. intros c Hin. split; [by apply Hb|by apply Hcl]. }
  pose proof (feed_chunks_run malloc_ok fuel Hm Hfuel chunks b h H) as Hrun. rewrite Hv, Hf, Hcc in Hrun. cbn [app] in Hrun. rewrite nexts_stream in Hrun by done.
  destruct Hrun as (b' & h' & E & H1 & H2 & H3 & H4 & H5 & _); [cbn; lia|done|done|]. exists b', h'. rewrite Z.add_0_r in H5. done.
Qed.

(** Two frames, the second one a UI frame, in three pieces, and a buffer whose pointers are
    close to the end. *)
Definition frames2 : list (GSM0710_Frame * nat) := [(Frame 1 239 3 [65; 249; 66], 0%nat); (Frame 0 3 1 [7], 1%nat)].
Definition gb0 : GSM0710_Buffer := Buffer (replicate 2048 0) 2044 2044 false 0 0.
Definition chunks3 : list (list Z) := [take 3 (stream frames2); take 6 (drop 3 (stream frames2)); drop 9 (stream frames2)].

Lemma gsm0710_stream_witness :
  exists b' h', feed_chunks (fun _ => true) 2048 chunks3 gb0 (Heap 0 0) = Some ([Frame 1 239 3 [65; 249; 66]; Frame 0 3 1 [7]], b', h') /\
    gb_view b' = [] /\ hp_live h' = 0.
Proof.
  destruct (gsm0710_stream (fun _ => true) 2048 frames2 chunks3 gb0 (Heap 0 0)) as (b' & h' & E & _ & H1 & H2 & _).
  - reflexivity || (vm_compute; discriminate).
  - reflexivity.
  - apply (bool_decide_unpack _). vm_compute. exact I.
  - vm_compute. reflexivity.
  - apply (bool_decide_unpack _). vm_compute. exact I.
  - split; [reflexivity|apply Forall_replicate; done|cbn; lia|cbn; lia].
  - reflexivity.
  - reflexivity.
  - exists b', h'. exact (conj E (conj H1 H2)).
Defined.

(** When a write fills the ring, the pointers meet and its bytes are lost. *)
Example gsm0710_full_is_empty :
  match gsm0710_buffer_write gb0 (replicate 3000 249) 3000 with
  | Some (n, b) => n = 2048 /\ gb_view b = []
  | None => False
  end.
Proof. vm_compute. done. Qed.
(** What [make_cmux_pkg] sends has two bytes of length and is not taken for a frame. *)
Example cmux_frames_refused :
  (fun r => (r.1.1, gb_view r.1.2)) <$> feed_chunks (fun _ => true) 2048 [make_cmux_pkg (fun _ => true) [65; 66; 67; 68] 1] gb0 (Heap 0 0) = Some ([], []).
Proof. vm_compute. reflexivity. Qed.
(** Without memory for the frame itself the code goes on with a null pointer. *)
Example gsm0710_out_of_memory :
  feed_chunks (fun _ => false) 2048 [stream frames2] gb0 (Heap 0 0) = None.
Proof. vm_compute. reflexivity. Qed.
