(* ===== verification/AppEvent.v ===== *)
(** * The event loop of the application (src/bsp/easyio_core/app_ev.c)

    Interrupt handlers and threads post events, functions to be called, to the mailbox
    [mainloop_mb]; the thread [appev_thread_entry] takes them out and calls them.  An event
    posted by [post_hw_int_event] lives in one of the [APP_EVENT_BUFFER] slots of the array
    [app_event] until it has been handled, one posted by [post_default_event] in a block of
    the heap.  The component uses the mailbox of the kernel and is proved against its
    theorems.  What [rt_malloc] returns is an argument of the functions that call it, and
    [rt_free] takes the event out of the typed store of the blocks in use. *)
From S2P Require Import Prelude KService Kernel Object Scheduler Timer Thread Frame Ipc Mailbox.

(** [struct APP_EVENT]; of [simple_data] the first four words are used. *)
Record app_event := AppEvent {
  ae_enable : Z;  (**r 8 bits *)
  ae_type : Z;    (**r 8 bits *)
  ae_func : Z; ae_arg : Z; ae_func_resp : Z; ae_arg_resp : Z
}.
Definition set_ae_enable (v : Z) (e : app_event) : app_event :=
  AppEvent v (ae_type e) (ae_func e) (ae_arg e) (ae_func_resp e) (ae_arg_resp e).

Definition APP_EVENT_BUFFER : nat := 10.
Definition APP_EV_DEFAULT_TYPE : Z := 0.
Definition APP_EV_HW_INT_TYPE : Z := 1.
(** [sizeof (struct APP_EVENT)]. *)
Definition SIZEOF_APP_EVENT : Z := 36.

(** The kernel, the array, the events in blocks of the heap, and the functions called so
    far with their arguments, the last one first. *)
Record app := App {
  ap_k : kstate; ap_events : list app_event; ap_blocks : gmap Z app_event; ap_log : list (Z * Z)
}.
Definition set_ap_events (v : list app_event) (s : app) : app := App (ap_k s) v (ap_blocks s) (ap_log s).
Definition set_ap_blocks (v : gmap Z app_event) (s : app) : app := App (ap_k s) (ap_events s) v (ap_log s).

Definition AM (A : Type) : Type := app -> option (A * app).
#[export] Instance AM_ret : MRet AM := fun A a s => Some (a, s).
#[export] Instance AM_bind : MBind AM := fun A B f m s =>
  match m s with Some (a, s') => f a s' | None => None end.

(** A kernel call. *)
Definition sys_call {A} (m : M A) : AM A := fun s =>
  match m (ap_k s) with
  | Some (a, k) => Some (a, App k (ap_events s) (ap_blocks s) (ap_log s))
  | None => None
  end.

Definition app_mod (f : app -> app) : AM unit := fun s => Some (tt, f s).
Definition app_stuck {A} : AM A := fun _ => None.
(** [rt_free] of the event at [ev], in a block of the heap. *)
Definition free_block (ev : Z) : AM unit := app_mod (fun s => set_ap_blocks (delete ev (ap_blocks s)) s).

Section AppEv.
(** The addresses of [mainloop_mb] and of [app_event], and the functions posted. *)
Context (mb base : Z) (call_fn : Z -> Z -> AM unit).

Definition ev_addr (i : nat) : Z := base + SIZEOF_APP_EVENT * Z.of_nat i.
(** The slot at an address. *)
Definition ev_index (ev : Z) : option nat :=
  if (base <=? ev) && ((ev - base) mod SIZEOF_APP_EVENT =? 0) &&
     ((ev - base) / SIZEOF_APP_EVENT <? Z.of_nat APP_EVENT_BUFFER)
  then Some (Z.to_nat ((ev - base) / SIZEOF_APP_EVENT)) else None.

(** [*ev]. *)
Definition deref_event (ev : Z) : AM app_event := fun s =>
  e ← match ev_index ev with Some i => ap_events s !! i | None => ap_blocks s !! ev end;
  Some (e, s).
(** [ev->enable = v], for a slot of the array. *)
Definition set_enable (ev v : Z) : AM unit := fun s =>
  i ← ev_index ev;
  e ← ap_events s !! i;
  Some (tt, set_ap_events (<[i := set_ae_enable v e]> (ap_events s)) s).

(** [init_app_event]. *)
Definition init_app_event : AM Z := fun s =>
  Some (- RT_EOK, set_ap_events (set_ae_enable 0 <$> ap_events s) s).

(** The first slot that is not in use. *)
Fixpoint free_slot (i : nat) (l : list app_event) : option nat :=
  match l with
  | [] => None
  | e :: l' => if ae_enable e =? 0 then Some i else free_slot (S i) l'
  end.
(** [alloc_app_event]; 0 when all slots are in use. *)
Definition alloc_app_event : AM Z := fun s =>
  match free_slot 0 (ap_events s) with
  | Some i =>
      e ← ap_events s !! i;
      Some (ev_addr i, set_ap_events (<[i := set_ae_enable 1 e]> (ap_events s)) s)
  | None => Some (0, s)
  end.
(** [destory_app_event]. *)
Definition destory_app_event (ev : Z) : AM unit := set_enable ev 0.

(** The fields [type] and [simple_data] of a slot. *)
Definition fill_slot (ev type f a fr ar : Z) : AM unit := fun s =>
  i ← ev_index ev;
  e ← ap_events s !! i;
  Some (tt, set_ap_events (<[i := AppEvent (ae_enable e) type f a fr ar]> (ap_events s)) s).

(** [post_hw_int_event]. *)
Definition post_hw_int_event (f a fr ar : Z) : AM Z :=
  ev ← alloc_app_event;
  if 0 <? ev then
    fill_slot ev APP_EV_HW_INT_TYPE f a fr ar;;
    w ← sys_call (rt_mb_send mb ev);
    match w with
    | Ret res => (if negb (res =? RT_EOK) then destory_app_event ev else mret tt);; mret res
    | Wait _ => app_stuck
    end
  else mret (- RT_ERROR).

(** What follows the send of [post_default_event] and [post_default_event_wait]. *)
Definition default_sent (ev res : Z) : AM Z :=
  (if negb (res =? RT_EOK) then free_block ev else mret tt);;
  mret res.

(** [post_default_event]; [ev] is what [rt_malloc] returned, and the block may hold any
    value in the field [enable]. *)
Definition post_default_event (ev enable f a fr ar : Z) : AM Z :=
  if 0 <? ev then
    app_mod (fun s => set_ap_blocks (<[ev := AppEvent enable APP_EV_DEFAULT_TYPE f a fr ar]> (ap_blocks s)) s);;
    w ← sys_call (rt_mb_send mb ev);
    match w with Ret res => default_sent ev res | Wait _ => app_stuck end
  else mret (- RT_ERROR).

(** [cb] called with a field of [*ev], if it is not null. *)
Definition call_event (cb ev : Z) (field : app_event -> Z) : AM unit :=
  if 0 <? cb then
    e ← deref_event ev;
    let x := field e in
    app_mod (fun s => App (ap_k s) (ap_events s) (ap_blocks s) ((cb, x) :: ap_log s));;
    call_fn cb x
  else mret tt.

(** The [switch] of [appev_thread_entry]. *)
Definition run_event (ev : Z) : AM unit :=
  if 0 <? ev then
    e ← deref_event ev;
    if (ae_type e =? APP_EV_DEFAULT_TYPE) || (ae_type e =? APP_EV_HW_INT_TYPE) then
      call_event (ae_func e) ev ae_arg;;
      call_event (ae_func_resp e) ev ae_arg_resp;;
      if ae_type e =? APP_EV_DEFAULT_TYPE
      then free_block ev
      else destory_app_event ev
    else mret tt
  else mret tt.

(** A turn of the loop of [appev_thread_entry], once [rt_mb_recv] has returned. *)
Definition mainloop_turn (r : Z * option Z) : AM unit :=
  match r with
  | (err, Some tmp) => if err =? RT_EOK then run_event tmp else mret tt
  | (_, None) => mret tt
  end.
(** The loop from its call of [rt_mb_recv]; [None] as result when the thread waits. *)
Definition mainloop : AM (option unit) :=
  w ← sys_call (rt_mb_recv mb (-1));
  match w with Ret r => mainloop_turn r;; mret (Some tt) | Wait _ => mret None end.
End AppEv.

(** ** The invariant *)

Section Invariant.
Context (mb base b bd idle : Z).
#[local] Abbreviation ev_addr := (ev_addr base).
#[local] Abbreviation ev_index := (ev_index base).

(** The addresses in the mailbox, the oldest first. *)
Definition pending (s : app) : list Z :=
  match k_mbs (ap_k s) !! mb with Some m => mails m | None => [] end.
(** The event at an address. *)
Definition event_of (s : app) (ev : Z) : option app_event :=
  match ev_index ev with Some i => ap_events s !! i | None => ap_blocks s !! ev end.

(** An event is in use exactly from its post to the end of its handling: it is in the
    mailbox, once, or among the events [busy] that are being handled. *)
Record app_inv (busy : list Z) (s : app) : Prop := {
  ai_core : core b bd idle (ap_k s);
  ai_mbs : mbs_ok (ap_k s);
  ai_mb : is_Some (k_mbs (ap_k s) !! mb);
  ai_size : length (ap_events s) = APP_EVENT_BUFFER;
  ai_slots : forall i e, ap_events s !! i = Some e ->
    (ae_enable e = 1 /\ ae_type e = APP_EV_HW_INT_TYPE /\ ev_addr i ∈ pending s ++ busy) \/
    (ae_enable e = 0 /\ ev_addr i ∉ pending s ++ busy);
  ai_blocks : forall ev e, ap_blocks s !! ev = Some e ->
    ev_index ev = None /\ ae_type e = APP_EV_DEFAULT_TYPE /\ ev ∈ pending s ++ busy;
  ai_known : forall ev, ev ∈ pending s ++ busy -> 0 < ev /\ is_Some (event_of s ev);
  ai_once : NoDup (pending s ++ busy)
}.

(** The calls an event asks for. *)
Definition calls_of (e : app_event) : list (Z * Z) :=
  (if 0 <? ae_func e then [(ae_func e, ae_arg e)] else []) ++
  (if 0 <? ae_func_resp e then [(ae_func_resp e, ae_arg_resp e)] else []).

(** ** Addresses *)

Lemma ev_index_addr i : (i < APP_EVENT_BUFFER)%nat -> ev_index (ev_addr i) = Some i.
Proof.
  intros Hi. unfold AppEvent.ev_index, AppEvent.ev_addr, SIZEOF_APP_EVENT, APP_EVENT_BUFFER in *.
  replace (base + 36 * Z.of_nat i - base) with (Z.of_nat i * 36) by lia.
  rewrite Z.mod_mul, Z.div_mul by lia. destruct (Z.leb_spec base (base + 36 * Z.of_nat i)); [|lia].
  destruct (Z.ltb_spec (Z.of_nat i) (Z.of_nat 10)); [|lia]. cbn. by rewrite Nat2Z.id.
Qed.

Lemma ev_index_inv ev i : ev_index ev = Some i -> ev = ev_addr i /\ (i < APP_EVENT_BUFFER)%nat.
Proof.
  unfold AppEvent.ev_index, AppEvent.ev_addr, SIZEOF_APP_EVENT, APP_EVENT_BUFFER. intros H.
  destruct (Z.leb_spec base ev); [|done]. destruct (Z.eqb_spec ((ev - base) mod 36) 0); [|done].
  destruct (Z.ltb_spec ((ev - base) / 36) (Z.of_nat 10)); [|done]. cbn in H. injection H as <-.
  assert (0 <= (ev - base) / 36) by (apply Z.div_pos; lia). rewrite Z2Nat.id by lia.
  pose proof (Z.div_mod (ev - base) 36 ltac:(lia)). lia.
Qed.

Lemma free_slot_some n l i : free_slot n l = Some i ->
  exists j e, i = (n + j)%nat /\ l !! j = Some e /\ ae_enable e = 0.
Proof.
  revert n. induction l as [|e l IH]; intros n; cbn; [done|]. destruct (Z.eqb_spec (ae_enable e) 0) as [H|H].
  - intros [= <-]. exists 0%nat, e. split; [lia|done].
  - intros E. destruct (IH _ E) as (j & e' & -> & Ej & He). exists (S j), e'. split; [lia|done].
Qed.
Lemma free_slot_none n l : free_slot n l = None -> forall i e, l !! i = Some e -> ae_enable e <> 0.
Proof.
  revert n. induction l as [|e l IH]; intros n; cbn; [done|]. destruct (Z.eqb_spec (ae_enable e) 0) as [H|H]; [done|].
  intros E [|i] e' Hi; [by injection Hi as <-|]. by eapply IH.
Qed.

(** ** Steps *)

Lemma abind_run {A B} (m : AM A) (f : A -> AM B) s a s' : m s = Some (a, s') -> (m ≫= f) s = f a s'.
Proof. intros E. unfold mbind, AM_bind. by rewrite E. Qed.

Lemma sys_call_run {A} (m : M A) s x k : m (ap_k s) = Some (x, k) ->
  sys_call m s = Some (x, App k (ap_events s) (ap_blocks s) (ap_log s)).
Proof. intros E. unfold sys_call. by rewrite E. Qed.

Lemma deref_event_run s ev e : event_of s ev = Some e -> deref_event base ev s = Some (e, s).
Proof. unfold event_of, deref_event. by intros ->. Qed.

(** A slot handed back: the event leaves those being handled. *)
Lemma destory_run busy ev s e i :
  app_inv (ev :: busy) s -> ev_index ev = Some i -> ap_events s !! i = Some e ->
  let s' := set_ap_events (<[i := set_ae_enable 0 e]> (ap_events s)) s in
  destory_app_event base ev s = Some (tt, s') /\ app_inv busy s'.
Proof.
  intros [H1 H2 H3 H4 H5 H6 H7 H8] Ei Ee s'. destruct (ev_index_inv ev i Ei) as [Hev Hi].
  unfold destory_app_event, set_enable. rewrite Ei. cbn. rewrite Ee. cbn. split; [done|].
  assert (Hperm : pending s ++ ev :: busy ≡ₚ ev :: (pending s ++ busy)) by (by rewrite Permutation_middle).
  rewrite Hperm in H8. apply list.NoDup_cons in H8 as [Hn Hnd].
  split; try done; change (pending s') with (pending s).
  - cbn. by rewrite length_insert.
  - intros j ej. cbn. rewrite list_lookup_insert. case_decide as Hj.
    + destruct Hj as [-> _]. intros [= <-]. right. split; [done|]. by rewrite <-Hev.
    + intros Ej. destruct (H5 j ej Ej) as [(A1 & A2 & A3)|[A1 A2]].
      * left. split; [done|]. split; [done|]. rewrite Hperm in A3. apply elem_of_cons in A3 as [A3|A3]; [|done].
        exfalso. apply Hj. split; [|by apply lookup_lt_Some in Ee].
        assert (Hjj : ev_index (ev_addr j) = Some j).
        { apply ev_index_addr. rewrite <-H4. by apply lookup_lt_Some in Ej. }
        rewrite A3, Ei in Hjj. congruence.
      * right. split; [done|]. rewrite Hperm in A2. set_solver.
  - intros x ex Ex. cbn in Ex. destruct (H6 x ex Ex) as (A1 & A2 & A3). split; [done|]. split; [done|].
    rewrite Hperm in A3. apply elem_of_cons in A3 as [->|A3]; [congruence|done].
  - intros x Hx. destruct (H7 x) as [A1 A2]; [rewrite Hperm; set_solver|]. split; [done|].
    unfold event_of in *. cbn. destruct (ev_index x) as [j|]; [|done]. rewrite list_lookup_insert. by case_decide.
Qed.

(** The same for an event in a block. *)
Lemma free_block_run busy ev s :
  app_inv (ev :: busy) s -> ev_index ev = None ->
  app_inv busy (set_ap_blocks (delete ev (ap_blocks s)) s).
Proof.
  intros [H1 H2 H3 H4 H5 H6 H7 H8] Ei. set (s' := set_ap_blocks _ s).
  assert (Hperm : pending s ++ ev :: busy ≡ₚ ev :: (pending s ++ busy)) by (by rewrite Permutation_middle).
  rewrite Hperm in H8. apply list.NoDup_cons in H8 as [Hn Hnd].
  split; try done; change (pending s') with (pending s).
  - intros j ej Ej. destruct (H5 j ej Ej) as [(A1 & A2 & A3)|[A1 A2]].
    + left. split; [done|]. split; [done|]. rewrite Hperm in A3. apply elem_of_cons in A3 as [A3|A3]; [|done].
      exfalso. rewrite <-A3, ev_index_addr in Ei; [done|]. rewrite <-H4. by apply lookup_lt_Some in Ej.
    + right. split; [done|]. rewrite Hperm in A2. set_solver.
  - intros x ex Ex. cbn in Ex. apply lookup_delete_Some in Ex as [Hne Ex]. destruct (H6 x ex Ex) as (A1 & A2 & A3).
    split; [done|]. split; [done|]. rewrite Hperm in A3. set_solver.
  - intros x Hx. destruct (H7 x) as [A1 A2]; [rewrite Hperm; set_solver|]. split; [done|].
    unfold event_of in *. cbn. destruct (ev_index x) as [j|]; [done|]. rewrite lookup_delete_ne; [done|]. by intros ->.
Qed.

(** Events move between the mailbox and those being handled. *)
Lemma app_inv_move busy busy' s s' :
  app_inv busy s -> core b bd idle (ap_k s') -> mbs_ok (ap_k s') -> is_Some (k_mbs (ap_k s') !! mb) ->
  ap_events s' = ap_events s -> ap_blocks s' = ap_blocks s ->
  pending s' ++ busy' ≡ₚ pending s ++ busy -> app_inv busy' s'.
Proof.
  intros [H1 H2 H3 H4 H5 H6 H7 H8] Hc Hok Hm Ee Eb Hp. split; try done.
  - by rewrite Ee.
  - intros i e. rewrite Ee, Hp. apply H5.
  - intros ev e. rewrite Eb, Hp. apply H6.
  - intros ev. rewrite Hp. intros Hev. destruct (H7 ev Hev) as [A1 A2]. split; [done|].
    unfold event_of in *. by rewrite Ee, Eb.
  - by rewrite Hp.
Qed.

(** Sending the address of an event held by the caller. *)
Lemma send_event_run busy ev s :
  app_inv (ev :: busy) s -> exists r k', rt_mb_send mb ev (ap_k s) = Some (Ret r, k') /\
    let s' := App k' (ap_events s) (ap_blocks s) (ap_log s) in
    (r = RT_EOK /\ app_inv busy s' /\ pending s' = pending s ++ [ev]) \/ (r = - RT_EFULL /\ s' = s).
Proof.
  intros Hi. pose proof (ai_mb _ _ Hi) as [m Em].
  destruct (rt_mb_send_run b bd idle mb m ev (ap_k s) (ai_core _ _ Hi) (ai_mbs _ _ Hi) Em)
    as (r & k' & Er & Hc & Hok & Hcase). exists r, k'. split; [done|]. cbv zeta.
  destruct (_ =? _); destruct Hcase as [-> Hcase]; [right; subst k'; by destruct s|left].
  destruct Hcase as (m' & Em' & Hma). split; [done|].
  assert (Hp : pending (App k' (ap_events s) (ap_blocks s) (ap_log s)) = pending s ++ [ev]).
  { unfold pending. cbn. by rewrite Em', lookup_insert_eq, Em. }
  split; [|done]. eapply app_inv_move; [exact Hi|done|done| |done|done|].
  - cbn. rewrite Em', lookup_insert_eq. by eexists.
  - by rewrite Hp, <-app_assoc.
Qed.

(** Taking the oldest event. *)
Lemma recv_event_run busy ev rest s :
  app_inv busy s -> pending s = ev :: rest -> exists k', rt_mb_recv mb (-1) (ap_k s) = Some (Ret (RT_EOK, Some ev), k') /\
    let s' := App k' (ap_events s) (ap_blocks s) (ap_log s) in app_inv (ev :: busy) s' /\ pending s' = rest.
Proof.
  intros Hi Hp. pose proof (ai_mb _ _ Hi) as [m Em]. unfold pending in Hp. rewrite Em in Hp.
  destruct (rt_mb_recv_run b bd idle mb m (-1) (ap_k s) (ai_core _ _ Hi) (ai_mbs _ _ Hi) Em)
    as (v & k' & m' & Er & Hc & Hok & Em' & Hma); [by rewrite Hp|].
  rewrite Hp in Hma. injection Hma as <- ->. exists k'. split; [done|]. cbv zeta.
  assert (Hp' : pending (App k' (ap_events s) (ap_blocks s) (ap_log s)) = mails m').
  { unfold pending. cbn. by rewrite Em', lookup_insert_eq. }
  split; [|done]. eapply app_inv_move; [exact Hi|done|done| |done|done|].
  - cbn. rewrite Em', lookup_insert_eq. by eexists.
  - rewrite Hp'. unfold pending. rewrite Em, Hp. cbn. by rewrite <-Permutation_middle.
Qed.

(** A slot taken and filled by the caller. *)
Lemma alloc_slot_run busy s i e f a fr ar :
  app_inv busy s -> 0 < base -> ap_events s !! i = Some e -> ae_enable e = 0 ->
  app_inv (ev_addr i :: busy)
    (set_ap_events (<[i := AppEvent 1 APP_EV_HW_INT_TYPE f a fr ar]> (ap_events s)) s).
Proof.
  intros [H1 H2 H3 H4 H5 H6 H7 H8] Hb Ee He. set (s' := set_ap_events _ s).
  assert (Hi : (i < APP_EVENT_BUFFER)%nat) by (rewrite <-H4; by apply lookup_lt_Some in Ee).
  assert (Hperm : pending s ++ ev_addr i :: busy ≡ₚ ev_addr i :: (pending s ++ busy)) by (by rewrite Permutation_middle).
  destruct (H5 i e Ee) as [(A1 & _)|[_ Hn]]; [congruence|].
  split; try done; change (pending s') with (pending s).
  - cbn. by rewrite length_insert.
  - intros j ej. cbn. rewrite list_lookup_insert. case_decide as Hj.
    + destruct Hj as [-> _]. intros [= <-]. left. split; [done|]. split; [done|]. rewrite Hperm. set_solver.
    + intros Ej. destruct (H5 j ej Ej) as [(A1 & A2 & A3)|[A1 A2]].
      * left. split; [done|]. split; [done|]. rewrite Hperm. set_solver.
      * right. split; [done|]. rewrite Hperm, elem_of_cons. intros [E|E]; [|done]. apply Hj.
        assert (Hjj : ev_index (ev_addr j) = Some j).
        { apply ev_index_addr. rewrite <-H4. by apply lookup_lt_Some in Ej. }
        rewrite E, ev_index_addr in Hjj by done. split; [congruence|by apply lookup_lt_Some in Ee].
  - intros x ex Ex. cbn in Ex. destruct (H6 x ex Ex) as (A1 & A2 & A3). split; [done|]. split; [done|].
    rewrite Hperm. set_solver.
  - intros x. rewrite Hperm, elem_of_cons. intros [->|Hx].
    + split; [unfold AppEvent.ev_addr, SIZEOF_APP_EVENT; lia|]. unfold event_of. rewrite ev_index_addr by done. cbn.
      rewrite list_lookup_insert_eq by (by apply lookup_lt_Some in Ee). by eexists.
    + destruct (H7 x Hx) as [A1 A2]. split; [done|]. unfold event_of in *. cbn.
      destruct (ev_index x) as [j|]; [|done]. rewrite list_lookup_insert. by case_decide.
  - rewrite Hperm. by apply list.NoDup_cons.
Qed.

(** ** Posting *)

Lemma post_hw_run busy f a fr ar s :
  app_inv busy s -> 0 < base ->
  exists r s', post_hw_int_event mb base f a fr ar s = Some (r, s') /\ app_inv busy s' /\
    ap_log s' = ap_log s /\ ap_blocks s' = ap_blocks s /\
    ((r = RT_EOK /\ exists ev, ev ∉ pending s ++ busy /\ pending s' = pending s ++ [ev] /\
        event_of s' ev = Some (AppEvent 1 APP_EV_HW_INT_TYPE f a fr ar) /\
        forall x, x <> ev -> event_of s' x = event_of s x) \/
     (r = - RT_ERROR /\ s' = s /\ forall i e, ap_events s !! i = Some e -> ae_enable e = 1) \/
     (r = - RT_EFULL /\ pending s' = pending s /\
        forall x, x ∈ pending s ++ busy -> event_of s' x = event_of s x)).
Proof.
  intros Hi Hb. unfold post_hw_int_event.
  destruct (free_slot 0 (ap_events s)) as [i|] eqn:Ef.
  - destruct (free_slot_some _ _ _ Ef) as (j & e & -> & Ee & He). cbn [Nat.add] in *.
    pose proof (alloc_slot_run busy s j e f a fr ar Hi Hb Ee He) as Hi1.
    set (e1 := AppEvent 1 APP_EV_HW_INT_TYPE f a fr ar) in *. set (s1 := set_ap_events _ s) in Hi1.
    assert (Hj : (j < APP_EVENT_BUFFER)%nat) by (rewrite <-(ai_size _ _ Hi); by apply lookup_lt_Some in Ee).
    pose proof (ev_index_addr j Hj) as Eix.
    assert (Eal : alloc_app_event base s =
      Some (ev_addr j, set_ap_events (<[j := set_ae_enable 1 e]> (ap_events s)) s)).
    { unfold alloc_app_event. rewrite Ef. cbn. by rewrite Ee. }
    rewrite (abind_run _ _ _ _ _ Eal).
    destruct (Z.ltb_spec 0 (ev_addr j)) as [_|Hle]; [|exfalso; unfold AppEvent.ev_addr, SIZEOF_APP_EVENT in Hle; lia].
    assert (Efl : fill_slot base (ev_addr j) APP_EV_HW_INT_TYPE f a fr ar
        (set_ap_events (<[j := set_ae_enable 1 e]> (ap_events s)) s) = Some (tt, s1)).
    { unfold fill_slot. rewrite Eix. cbn. rewrite list_lookup_insert_eq by (by apply lookup_lt_Some in Ee). cbn.
      unfold s1. by rewrite list_insert_insert_eq. }
    rewrite (abind_run _ _ _ _ _ Efl).
    destruct (send_event_run busy (ev_addr j) s1 Hi1) as (r & k' & Er & Hcase).
    rewrite (abind_run _ _ _ _ _ (sys_call_run _ s1 _ _ Er)). cbv zeta in Hcase.
    destruct Hcase as [(-> & Hi' & Hp)|[-> Hs]].
    + exists RT_EOK. eexists. split; [reflexivity|]. split; [exact Hi'|]. split; [done|]. split; [done|]. left.
      split; [done|]. exists (ev_addr j). split; [|split; [done|split]].
      * destruct (ai_slots _ _ Hi j e Ee) as [(A1 & _)|[_ A2]]; [congruence|done].
      * unfold event_of. rewrite Eix. cbn. apply list_lookup_insert_eq. by apply lookup_lt_Some in Ee.
      * intros x Hx. unfold event_of. cbn. destruct (ev_index x) as [n|] eqn:En; [|done].
        destruct (ev_index_inv x n En) as [-> _]. rewrite list_lookup_insert_ne by congruence. done.
    + rewrite Hs. destruct (destory_run busy (ev_addr j) s1 e1 j Hi1 Eix) as [Ed Hi2].
      { cbn. apply list_lookup_insert_eq. by apply lookup_lt_Some in Ee. }
      exists (- RT_EFULL). eexists. split; [cbn [Z.eqb negb]; by rewrite (abind_run _ _ _ _ _ Ed)|].
      split; [exact Hi2|]. split; [done|]. split; [done|]. right. right. split; [done|]. split; [done|].
      intros x Hx. unfold event_of. cbn. destruct (ev_index x) as [n|] eqn:En; [|done].
      destruct (ev_index_inv x n En) as [-> _]. destruct (decide (n = j)) as [->|Hne].
      { exfalso. destruct (ai_slots _ _ Hi j e Ee) as [(A1 & _)|[_ A2]]; [congruence|done]. }
      by rewrite !list_lookup_insert_ne by done.
  - assert (Eal : alloc_app_event base s = Some (0, s)) by (unfold alloc_app_event; by rewrite Ef).
    exists (- RT_ERROR), s. split; [by rewrite (abind_run _ _ _ _ _ Eal)|]. split; [done|]. split; [done|]. split; [done|]. right. left.
    split; [done|]. split; [done|]. intros i e Ee. pose proof (free_slot_none _ _ Ef i e Ee).
    destruct (ai_slots _ _ Hi i e Ee) as [(A1 & _)|[A1 _]]; congruence.
Qed.

(** A block of the heap becomes an event of the caller. *)
Lemma alloc_block_run busy s ev en f a fr ar :
  app_inv busy s -> 0 < ev -> ev_index ev = None -> ev ∉ pending s ++ busy ->
  app_inv (ev :: busy)
    (set_ap_blocks (<[ev := AppEvent en APP_EV_DEFAULT_TYPE f a fr ar]> (ap_blocks s)) s).
Proof.
  intros [H1 H2 H3 H4 H5 H6 H7 H8] Hp Ei Hn. set (s' := set_ap_blocks _ s).
  assert (Hperm : pending s ++ ev :: busy ≡ₚ ev :: (pending s ++ busy)) by (by rewrite Permutation_middle).
  split; try done; change (pending s') with (pending s).
  - intros j ej Ej. destruct (H5 j ej Ej) as [(A1 & A2 & A3)|[A1 A2]].
    + left. split; [done|]. split; [done|]. rewrite Hperm. set_solver.
    + right. split; [done|]. rewrite Hperm, elem_of_cons. intros [E|E]; [|done].
      rewrite <-E, ev_index_addr in Ei; [done|]. rewrite <-H4. by apply lookup_lt_Some in Ej.
  - intros x ex. cbn. rewrite lookup_insert. rewrite Hperm. case_decide as Hx.
    + intros [= <-]. subst x. split; [done|]. split; [done|]. set_solver.
    + intros Ex. destruct (H6 x ex Ex) as (A1 & A2 & A3). split; [done|]. split; [done|]. set_solver.
  - intros x. rewrite Hperm, elem_of_cons. intros [->|Hx].
    + split; [done|]. unfold event_of. rewrite Ei. cbn. rewrite lookup_insert_eq. by eexists.
    + destruct (H7 x Hx) as [A1 A2]. split; [done|]. unfold event_of in *. cbn.
      destruct (ev_index x) as [j|]; [done|]. rewrite lookup_insert. by case_decide.
  - rewrite Hperm. by apply list.NoDup_cons.
Qed.

(** [post_default_event] with a block that [rt_malloc] has just given. *)
Lemma post_default_run busy ev en f a fr ar s :
  app_inv busy s -> 0 < ev -> ev_index ev = None -> ev ∉ pending s ++ busy ->
  exists r s', post_default_event mb ev en f a fr ar s = Some (r, s') /\ app_inv busy s' /\
    ap_log s' = ap_log s /\ ap_events s' = ap_events s /\
    ((r = RT_EOK /\ pending s' = pending s ++ [ev] /\
        event_of s' ev = Some (AppEvent en APP_EV_DEFAULT_TYPE f a fr ar)) \/
     (r = - RT_EFULL /\ pending s' = pending s /\ ap_blocks s' = delete ev (ap_blocks s))).
Proof.
  intros Hi Hp Ei Hn. pose proof (alloc_block_run busy s ev en f a fr ar Hi Hp Ei Hn) as Hi1.
  unfold post_default_event. destruct (Z.ltb_spec 0 ev) as [_|]; [|lia]. erewrite abind_run by reflexivity.
  set (s1 := set_ap_blocks _ s) in *.
  destruct (send_event_run busy ev s1 Hi1) as (r & k' & Er & Hcase).
  rewrite (abind_run _ _ _ _ _ (sys_call_run _ s1 _ _ Er)). cbv zeta in Hcase.
  destruct Hcase as [(-> & Hi' & Hpe)|[-> Hs]].
  - exists RT_EOK. eexists. split; [reflexivity|]. split; [exact Hi'|]. split; [done|]. split; [done|]. left.
    split; [done|]. split; [done|]. unfold event_of. rewrite Ei. cbn. apply lookup_insert_eq.
  - rewrite Hs. exists (- RT_EFULL). eexists. split; [reflexivity|]. split; [by apply free_block_run|].
    split; [done|]. split; [done|]. right. split; [done|]. split; [done|]. cbn. apply delete_insert_eq.
Qed.
(** ** Handling *)

Context (call_fn : Z -> Z -> AM unit).

(** What a function that is called may do: post events, but not touch the ones that are
    being handled. *)
Definition fn_ok : Prop := forall busy f x s, app_inv busy s ->
  exists s' more, call_fn f x s = Some (tt, s') /\ app_inv busy s' /\ pending s' = pending s ++ more /\
    ap_log s' = ap_log s /\ forall ev, ev ∈ busy -> event_of s' ev = event_of s ev.

Lemma call_event_run busy cb ev field s e :
  fn_ok -> app_inv (ev :: busy) s -> event_of s ev = Some e ->
  exists s' more, call_event base call_fn cb ev field s = Some (tt, s') /\ app_inv (ev :: busy) s' /\
    pending s' = pending s ++ more /\ event_of s' ev = Some e /\
    ap_log s' = (if 0 <? cb then [(cb, field e)] else []) ++ ap_log s.
Proof.
  intros Hfn Hi Ee. unfold call_event. destruct (0 <? cb).
  - rewrite (abind_run _ _ _ _ _ (deref_event_run _ _ _ Ee)). erewrite abind_run by reflexivity.
    set (s1 := App _ _ _ _). assert (Hi1 : app_inv (ev :: busy) s1) by (by eapply (app_inv_move _ _ s); try apply Hi).
    destruct (Hfn (ev :: busy) cb (field e) s1 Hi1) as (s' & more & Er & Hi' & Hp & Hl & Hev).
    exists s', more. split; [done|]. split; [done|]. split; [done|]. split; [|done].
    rewrite Hev by set_solver. done.
  - exists s, []. rewrite app_nil_r. done.
Qed.

Lemma run_event_run busy ev s e :
  fn_ok -> app_inv (ev :: busy) s -> event_of s ev = Some e ->
  exists s' more, run_event base call_fn ev s = Some (tt, s') /\ app_inv busy s' /\
    pending s' = pending s ++ more /\ ap_log s' = reverse (calls_of e) ++ ap_log s.
Proof.
  intros Hfn Hi Ee. destruct (ai_known _ _ Hi ev) as [Hpos _]; [set_solver|].
  assert (Hty : (ev_index ev = None /\ ae_type e = APP_EV_DEFAULT_TYPE) \/
    exists i, ev_index ev = Some i /\ ap_events s !! i = Some e /\ ae_type e = APP_EV_HW_INT_TYPE).
  { unfold event_of in Ee. destruct (ev_index ev) as [i|] eqn:Ei.
    - right. exists i. destruct (ev_index_inv _ _ Ei) as [-> _].
      destruct (ai_slots _ _ Hi i e Ee) as [(_ & A & _)|[_ A]]; [done|]. exfalso. apply A. set_solver.
    - left. destruct (ai_blocks _ _ Hi ev e Ee) as (_ & A & _). done. }
  unfold run_event. destruct (Z.ltb_spec 0 ev) as [_|]; [|lia].
  rewrite (abind_run _ _ _ _ _ (deref_event_run _ _ _ Ee)).
  destruct (call_event_run busy (ae_func e) ev ae_arg s e Hfn Hi Ee) as (s1 & m1 & E1 & Hi1 & Hp1 & Ee1 & Hl1).
  destruct (call_event_run busy (ae_func_resp e) ev ae_arg_resp s1 e Hfn Hi1 Ee1) as (s2 & m2 & E2 & Hi2 & Hp2 & Ee2 & Hl2).
  assert (Hor : (ae_type e =? APP_EV_DEFAULT_TYPE) || (ae_type e =? APP_EV_HW_INT_TYPE) = true).
  { destruct Hty as [[_ ->]|(i & _ & _ & ->)]; done. }
  rewrite Hor, (abind_run _ _ _ _ _ E1), (abind_run _ _ _ _ _ E2).
  assert (Hlog : ap_log s2 = reverse (calls_of e) ++ ap_log s).
  { rewrite Hl2, Hl1. unfold calls_of. by destruct (0 <? ae_func e), (0 <? ae_func_resp e). }
  assert (Hp : pending s2 = pending s ++ (m1 ++ m2)) by (by rewrite Hp2, Hp1, app_assoc).
  destruct Hty as [[Ei Et]|(i & Ei & _ & Et)]; rewrite Et; cbn [Z.eqb].
  - eexists _, (m1 ++ m2). split; [reflexivity|]. split; [by apply free_block_run|done].
  - assert (Es2 : ap_events s2 !! i = Some e) by (unfold event_of in Ee2; by rewrite Ei in Ee2).
    destruct (destory_run busy ev s2 e i Hi2 Ei Es2) as [Ed Hi3]. eexists _, (m1 ++ m2). split; [exact Ed|].
    split; [exact Hi3|]. done.
Qed.

End Invariant.

(** An interrupt handler or a thread that posts an event with [post_hw_int_event] gets
    [RT_EOK] exactly when the event has been put behind the others in the main loop's
    mailbox, in a slot that nobody was using and that now holds the functions and
    arguments posted; otherwise all slots are in use ([-RT_ERROR]) or the mailbox is full
    ([-RT_EFULL]), and no event is lost or left in use: the invariant holds again. *)
Theorem post_hw_int_event_spec mb base b bd idle busy f a fr ar s :
  app_inv mb base b bd idle busy s -> 0 < base ->
  exists r s', post_hw_int_event mb base f a fr ar s = Some (r, s') /\ app_inv mb base b bd idle busy s' /\
    ap_log s' = ap_log s /\ ap_blocks s' = ap_blocks s /\
    ((r = RT_EOK /\ exists ev, ev ∉ pending mb s ++ busy /\ pending mb s' = pending mb s ++ [ev] /\
        event_of base s' ev = Some (AppEvent 1 APP_EV_HW_INT_TYPE f a fr ar) /\
        forall x, x <> ev -> event_of base s' x = event_of base s x) \/
     (r = - RT_ERROR /\ s' = s /\ forall i e, ap_events s !! i = Some e -> ae_enable e = 1) \/
     (r = - RT_EFULL /\ pending mb s' = pending mb s /\
        forall x, x ∈ pending mb s ++ busy -> event_of base s' x = event_of base s x)).
Proof. apply post_hw_run. Qed.

(** C37. a turn of the main loop handles the oldest event and only it: its function and its
    reply function are called with their arguments, in this order and once, while the
    functions may post events behind the ones that wait; then the event's slot or block is
    free again. *)
Theorem mainloop_dispatches mb base call_fn b bd idle ev rest e s :
  fn_ok mb base b bd idle call_fn -> app_inv mb base b bd idle [] s ->
  pending mb s = ev :: rest -> event_of base s ev = Some e ->
  exists s' more, mainloop mb base call_fn s = Some (Some tt, s') /\ app_inv mb base b bd idle [] s' /\
    pending mb s' = rest ++ more /\ ap_log s' = reverse (calls_of e) ++ ap_log s.
Proof.
  intros Hfn Hi Hp Ee. destruct (recv_event_run mb base b bd idle [] ev rest s Hi Hp) as (k' & Er & Hi1 & Hp1).
  set (s1 := App k' _ _ _) in *. assert (Ee1 : event_of base s1 ev = Some e) by done.
  destruct (run_event_run mb base b bd idle call_fn [] ev s1 e Hfn Hi1 Ee1) as (s' & more & E & Hi' & Hp' & Hl).
  exists s', more. unfold mainloop. rewrite (abind_run _ _ _ _ _ (sys_call_run _ s _ _ Er)). fold s1.
  cbn [mainloop_turn]. rewrite Z.eqb_refl. rewrite (abind_run _ _ _ _ _ E). split; [done|]. split; [done|].
  split; [by rewrite Hp', Hp1|done].
Qed.
