(* ===== verification/AppTimer.v ===== *)
(** * The timers of the application (src/bsp/easyio_core/app_timer.c)

    The kernel timer [app_tmr] expires every tick of 10 ms.  Its function
    [app_tmr_timeout], run in the tick interrupt, counts the time in seconds and
    milliseconds and posts events to the main loop: [second_timer] once a second, which
    looks at the application's timers [ei_timer], and [feed_watchdog].  The component uses
    the event loop of AppEvent.v. *)
From S2P Require Import Prelude KService Kernel Object Scheduler Timer Thread Frame Ipc Mailbox AppEvent.

(** [struct APP_TIMER]: two 32-bit words. *)
Record app_time := AppTime { app_timer_second : Z; app_timer_ms : Z }.

(** [app_timer_add]. *)
Definition app_timer_add (tmr : app_time) (ms : Z) : app_time :=
  let mms := u32 (ms + app_timer_ms tmr) in
  let sec := mms / 1000 in
  AppTime (u32 (app_timer_second tmr + sec)) (mms mod 1000).

(** [app_timer_cmp]. *)
Definition app_timer_cmp (tmr1 tmr2 : app_time) : Z :=
  if app_timer_second tmr2 <? app_timer_second tmr1 then 1
  else if app_timer_second tmr1 <? app_timer_second tmr2 then -1
  else if app_timer_ms tmr2 <? app_timer_ms tmr1 then 1
  else if app_timer_ms tmr1 <? app_timer_ms tmr2 then -1
  else 0.

(** [app_timer_copy]. *)
Definition app_timer_copy (tmr1 tmr2 : app_time) : app_time :=
  AppTime (app_timer_second tmr2) (app_timer_ms tmr2).

(** [EI_TIMER], without the fields [num] and [ticksleft] that nothing uses. *)
Record ei_timer := EiTimer {
  ei_type : Z; ei_ticks : Z; ei_his_time : Z; ei_timeout : Z; ei_arg : Z; ei_enable : Z; ei_alloc : Z
}.
Definition EI_TIMER_TYPE_ONE : Z := 1.
Definition set_ei_his_time (v : Z) (t : ei_timer) : ei_timer :=
  EiTimer (ei_type t) (ei_ticks t) v (ei_timeout t) (ei_arg t) (ei_enable t) (ei_alloc t).
Definition set_ei_enable (v : Z) (t : ei_timer) : ei_timer :=
  EiTimer (ei_type t) (ei_ticks t) (ei_his_time t) (ei_timeout t) (ei_arg t) v (ei_alloc t).
Definition set_ei_alloc (v : Z) (t : ei_timer) : ei_timer :=
  EiTimer (ei_type t) (ei_ticks t) (ei_his_time t) (ei_timeout t) (ei_arg t) (ei_enable t) v.

(** The event loop, [app_timer_data], [ei_timer], [feed_watchdog_cnt] and
    [system_timer_counter]. *)
Record tstate := TState {
  ts_app : app; ts_time : app_time; ts_timers : list ei_timer; ts_feed : Z; ts_counters : list Z
}.
Definition set_ts_timers (v : list ei_timer) (s : tstate) : tstate :=
  TState (ts_app s) (ts_time s) v (ts_feed s) (ts_counters s).

(** ** The table of timers *)

(** [alloc_timer]: the index of the timer. *)
Fixpoint alloc_slot (i : nat) (l : list ei_timer) : option nat :=
  match l with
  | [] => None
  | t :: l' => if ei_alloc t =? 0 then Some i else alloc_slot (S i) l'
  end.
Definition alloc_timer (s : tstate) : option nat * tstate :=
  match alloc_slot 0 (ts_timers s) with
  | Some i => (Some i, set_ts_timers (alter (set_ei_alloc 1) i (ts_timers s)) s)
  | None => (None, s)
  end.
(** [timer_start]. *)
Definition timer_start (i : nat) (s : tstate) : tstate :=
  set_ts_timers (alter (fun t => set_ei_enable 1 (set_ei_his_time (app_timer_second (ts_time s)) t)) i (ts_timers s)) s.
(** [destory_timer]. *)
Definition destory_timer (i : nat) (s : tstate) : tstate :=
  set_ts_timers (alter (fun _ => EiTimer 0 0 0 0 0 0 0) i (ts_timers s)) s.

Section Seconds.
(** A timeout function called with its argument. *)
Context (fire : Z -> Z -> tstate -> option tstate).

(** The test of [__timerout_in]. *)
Definition ei_due (now : Z) (t : ei_timer) : bool :=
  (ei_enable t =? 1) && (ei_ticks t <? u32 (now - ei_his_time t)).

(** A turn of the loop of [__timerout_in]. *)
Definition timerout_one (i : nat) (s : tstate) : option tstate :=
  t ← ts_timers s !! i;
  if ei_due (app_timer_second (ts_time s)) t then
    let s1 := set_ts_timers (alter (set_ei_his_time (app_timer_second (ts_time s))) i (ts_timers s)) s in
    s2 ← fire (ei_timeout t) (ei_arg t) s1;
    t2 ← ts_timers s2 !! i;
    Some (if ei_type t2 =? EI_TIMER_TYPE_ONE then set_ts_timers (alter (set_ei_enable 0) i (ts_timers s2)) s2 else s2)
  else Some s.
(** [__timerout_in], and [second_timer] which calls it. *)
Fixpoint timerout_from (i n : nat) (s : tstate) : option tstate :=
  match n with O => Some s | S n' => s' ← timerout_one i s; timerout_from (S i) n' s' end.
Definition timerout_in (s : tstate) : option tstate := timerout_from 0 (length (ts_timers s)) s.
End Seconds.

(** ** The timer interrupt *)

Section Tick.
(** The addresses of [mainloop_mb], [app_event] and the two functions. *)
Context (mb base second_timer feed_watchdog : Z).

Definition TIMER_PREIOD : Z := 10.

(** The result of [post_hw_int_event] is not looked at. *)
Definition post (f : Z) (s : tstate) : option tstate :=
  r ← post_hw_int_event mb base f 0 0 0 (ts_app s);
  Some (TState r.2 (ts_time s) (ts_timers s) (ts_feed s) (ts_counters s)).

(** [app_tmr_timeout]. *)
Definition app_tmr_timeout (s : tstate) : option tstate :=
  let ms := u32 (app_timer_ms (ts_time s) + TIMER_PREIOD) in
  s1 ← (if 1000 <=? ms
        then post second_timer (TState (ts_app s) (AppTime (u32 (app_timer_second (ts_time s) + 1)) 0)
               (ts_timers s) (ts_feed s) (ts_counters s))
        else Some (TState (ts_app s) (AppTime (app_timer_second (ts_time s)) ms)
               (ts_timers s) (ts_feed s) (ts_counters s)));
  let feed := u32 (ts_feed s1 + TIMER_PREIOD) in
  s2 ← (if 2000 <? feed
        then s2 ← post feed_watchdog (TState (ts_app s1) (ts_time s1) (ts_timers s1) feed (ts_counters s1));
             Some (TState (ts_app s2) (ts_time s2) (ts_timers s2) 0 (ts_counters s2))
        else Some (TState (ts_app s1) (ts_time s1) (ts_timers s1) feed (ts_counters s1)));
  Some (TState (ts_app s2) (ts_time s2) (ts_timers s2) (ts_feed s2)
          ((fun c => u16 (c + TIMER_PREIOD)) <$> ts_counters s2)).

(** [n] expiries. *)
Fixpoint app_ticks (n : nat) (s : tstate) : option tstate :=
  match n with O => Some s | S n' => s' ← app_tmr_timeout s; app_ticks n' s' end.
End Tick.

(** [init_app_timer], for the kernel timer [tmr] and the function [fn] it is given. *)
Definition init_app_timer (tmr fn : Z) (s : tstate) : option tstate :=
  r ← (rt_timer_init (TmUser tmr) [97; 112; 112; 95; 116; 109; 114; 0] (user_timeout_fn fn 0) 1
         RT_TIMER_FLAG_PERIODIC;;
       rt_timer_start (TmUser tmr)) (ap_k (ts_app s));
  let a := ts_app s in
  Some (TState (App r.2 (ap_events a) (ap_blocks a) (ap_log a)) (AppTime 0 0)
          ((fun _ => EiTimer 0 0 0 0 0 0 0) <$> ts_timers s) (ts_feed s) (ts_counters s)).

(** ** The time *)

(** Milliseconds since the start; the count of seconds has 32 bits. *)
Definition time_ms (t : app_time) : Z := app_timer_second t * 1000 + app_timer_ms t.
Definition time_wraps : Z := 4294967296 * 1000.
Definition time_ok (t : app_time) : Prop :=
  0 <= app_timer_second t < 4294967296 /\ 0 <= app_timer_ms t < 1000.

(** [app_timer_add] adds milliseconds to a time, carrying into the seconds, as long as
    the sum fits 32 bits; [app_timer_cmp] is the order of the times in milliseconds. *)
Theorem app_time_arithmetic t1 t2 ms :
  time_ok t1 -> time_ok t2 -> 0 <= ms <= 4294966296 ->
  time_ok (app_timer_add t1 ms) /\ time_ms (app_timer_add t1 ms) = (time_ms t1 + ms) mod time_wraps /\
  app_timer_cmp t1 t2 = Z.sgn (time_ms t1 - time_ms t2).
Proof.
  intros [H1 H2] [H3 H4] Hms. unfold app_timer_add, time_ok, time_ms, time_wraps. cbn.
  rewrite (u32_id (ms + app_timer_ms t1)) by lia.
  assert (Hq : 0 <= (ms + app_timer_ms t1) / 1000 < 4294967296) by (split; [apply Z.div_pos|apply Z.div_lt_upper_bound]; lia).
  pose proof (Z.mod_pos_bound (ms + app_timer_ms t1) 1000 ltac:(lia)).
  pose proof (Z.div_mod (ms + app_timer_ms t1) 1000 ltac:(lia)).
  split; [split; [apply u32_range|lia]|]. split.
  - unfold u32. set (q := (ms + app_timer_ms t1) / 1000) in *. set (m := (ms + app_timer_ms t1) mod 1000) in *.
    pose proof (Z.div_mod (app_timer_second t1 + q) 4294967296 ltac:(lia)).
    pose proof (Z.mod_pos_bound (app_timer_second t1 + q) 4294967296 ltac:(lia)).
    apply Z.mod_unique_pos with ((app_timer_second t1 + q) / 4294967296); lia.
  - unfold app_timer_cmp. zcases; symmetry; (apply Z.sgn_pos || apply Z.sgn_neg || apply Z.sgn_null); lia.
Qed.
Lemma app_time_arithmetic_witness : time_ms (app_timer_add (AppTime 5 900) 250) = 6150.
Proof.
  rewrite (proj1 (proj2 (app_time_arithmetic (AppTime 5 900) (AppTime 0 0) 250 ltac:(split; cbn; lia)
    ltac:(split; cbn; lia) ltac:(lia)))). reflexivity.
Defined.

Section Run.
Context (mb base second_timer feed_watchdog b bd idle : Z) (busy : list Z).

(** What holds before and after every expiry. *)
Record ts_ok (s : tstate) : Prop := {
  tk_app : app_inv mb base b bd idle busy (ts_app s);
  tk_time : time_ok (ts_time s);
  tk_ms : app_timer_ms (ts_time s) mod 10 = 0;
  tk_feed : 0 <= ts_feed s <= 2000
}.

Lemma post_run f s :
  0 < base -> app_inv mb base b bd idle busy (ts_app s) ->
  exists a, post mb base f s = Some (TState a (ts_time s) (ts_timers s) (ts_feed s) (ts_counters s)) /\
    app_inv mb base b bd idle busy a.
Proof.
  intros Hb Hi. destruct (post_hw_run mb base b bd idle busy f 0 0 0 (ts_app s) Hi Hb) as (r & a & E & Ha & _).
  exists a. unfold post. by rewrite E.
Qed.

Lemma app_tmr_timeout_run s :
  0 < base -> ts_ok s ->
  exists s', app_tmr_timeout mb base second_timer feed_watchdog s = Some s' /\ ts_ok s' /\
    time_ms (ts_time s') = (time_ms (ts_time s) + 10) mod time_wraps /\ ts_timers s' = ts_timers s.
Proof.
  intros Hb [Hi [H1 H2] H3 H4]. unfold app_tmr_timeout, TIMER_PREIOD.
  rewrite (u32_id (app_timer_ms (ts_time s) + 10)) by lia.
  assert (Hs1 : exists s1, (if 1000 <=? app_timer_ms (ts_time s) + 10
        then post mb base second_timer (TState (ts_app s) (AppTime (u32 (app_timer_second (ts_time s) + 1)) 0)
               (ts_timers s) (ts_feed s) (ts_counters s))
        else Some (TState (ts_app s) (AppTime (app_timer_second (ts_time s)) (app_timer_ms (ts_time s) + 10))
               (ts_timers s) (ts_feed s) (ts_counters s))) = Some s1 /\ ts_ok s1 /\
    time_ms (ts_time s1) = (time_ms (ts_time s) + 10) mod time_wraps /\ ts_timers s1 = ts_timers s).
  { destruct (Z.leb_spec 1000 (app_timer_ms (ts_time s) + 10)) as [Hge|Hlt].
    - destruct (post_run second_timer (TState (ts_app s) (AppTime (u32 (app_timer_second (ts_time s) + 1)) 0)
        (ts_timers s) (ts_feed s) (ts_counters s)) Hb Hi) as (a & E & Ha).
      rewrite E. eexists. split; [done|]. split; [|split; [|done]].
      + split; cbn; try done. split; cbn; [apply u32_range|lia].
      + unfold time_ms, time_wraps. cbn. assert (app_timer_ms (ts_time s) = 990) as ->.
        { Z.div_mod_to_equations. lia. }
        unfold u32. Z.div_mod_to_equations. lia.
    - eexists. split; [done|]. split; [|split; [|done]].
      + split; cbn; try done; [split; cbn; lia|]. Z.div_mod_to_equations. lia.
      + unfold time_ms, time_wraps. cbn. rewrite Z.mod_small; lia. }
  destruct Hs1 as (s1 & -> & [Hi1 T1 T2 T3] & Htm & Htr). cbn [mbind option_bind].
  rewrite (u32_id (ts_feed s1 + 10)) by lia.
  destruct (Z.ltb_spec 2000 (ts_feed s1 + 10)) as [Hge|Hlt].
  - destruct (post_run feed_watchdog (TState (ts_app s1) (ts_time s1) (ts_timers s1) (ts_feed s1 + 10) (ts_counters s1)) Hb Hi1)
      as (a & E & Ha). rewrite E. eexists. split; [done|]. by split.
  - eexists. split; [done|]. split; [split; cbn; try done; lia|]. done.
Qed.
End Run.

(** C40. the application's clock does not drift: after any number of expiries of its timer
    every one of which posts what it has to post, the time is that many times 10 ms later
    (32 bits of seconds), and the events in use are again those in the mailbox. *)
Theorem app_clock_keeps_time mb base second_timer feed_watchdog b bd idle busy n : forall s,
  0 < base -> ts_ok mb base b bd idle busy s ->
  exists s', app_ticks mb base second_timer feed_watchdog n s = Some s' /\ ts_ok mb base b bd idle busy s' /\
    time_ms (ts_time s') = (time_ms (ts_time s) + 10 * Z.of_nat n) mod time_wraps.
Proof.
  induction n as [|n IH]; intros s Hb Hs.
  - exists s. split; [done|]. split; [done|]. rewrite Z.mul_0_r, Z.add_0_r, Z.mod_small; [done|].
    destruct (tk_time _ _ _ _ _ _ _ Hs). unfold time_ms, time_wraps. lia.
  - destruct (app_tmr_timeout_run mb base second_timer feed_watchdog b bd idle busy s Hb Hs) as (s1 & E1 & H1 & T1 & _).
    destruct (IH s1 Hb H1) as (s' & E' & H' & T'). exists s'. cbn [app_ticks]. rewrite E1. split; [done|].
    split; [done|]. rewrite T', T1, Zplus_mod_idemp_l. f_equal. lia.
Qed.

(** ** The application's timers *)

(** A timer after a look at it. *)
Definition ei_after (now : Z) (t : ei_timer) : ei_timer :=
  if ei_due now t then
    let t := set_ei_his_time now t in if ei_type t =? EI_TIMER_TYPE_ONE then set_ei_enable 0 t else t
  else t.

Lemma timerout_from_run (F : Z -> Z -> app -> app) rest : forall pre a tm fd cs,
  let now := app_timer_second tm in
  timerout_from (fun f x s => Some (TState (F f x (ts_app s)) (ts_time s) (ts_timers s) (ts_feed s) (ts_counters s)))
    (length pre) (length rest) (TState a tm (pre ++ rest) fd cs) =
  Some (TState (foldl (fun a t => F (ei_timeout t) (ei_arg t) a) a (filter (fun t => ei_due now t = true) rest))
          tm (pre ++ (ei_after now <$> rest)) fd cs).
Proof.
  induction rest as [|t rest IH]; intros pre a tm fd cs; [done|]. cbn zeta in *. cbn [length timerout_from].
  set (now := app_timer_second tm) in *. unfold timerout_one. cbn [ts_timers ts_time]. fold now.
  assert (Hl : forall x, (pre ++ x :: rest) !! length pre = Some x) by (intros; by rewrite list_lookup_middle).
  assert (Ha : forall (g : ei_timer -> ei_timer) x, alter g (length pre) (pre ++ x :: rest) = pre ++ g x :: rest).
  { intros g x. rewrite alter_app_r_alt by lia. by rewrite Nat.sub_diag. }
  assert (Hnext : forall x a', timerout_from (fun f x s => Some (TState (F f x (ts_app s)) (ts_time s) (ts_timers s) (ts_feed s) (ts_counters s)))
      (S (length pre)) (length rest) (TState a' tm (pre ++ x :: rest) fd cs) =
    Some (TState (foldl (fun a t => F (ei_timeout t) (ei_arg t) a) a' (filter (fun t => ei_due now t = true) rest))
          tm (pre ++ x :: (ei_after now <$> rest)) fd cs)).
  { intros x a'. specialize (IH (pre ++ [x]) a' tm fd cs). rewrite <-!app_assoc in IH. cbn [Datatypes.app] in IH.
    rewrite length_app, Nat.add_comm in IH. exact IH. }
  rewrite Hl. cbn [mbind option_bind]. cbn [fmap list_fmap]. unfold ei_after at 1. destruct (ei_due now t) eqn:Ed.
  - rewrite filter_cons_True by done. cbn [foldl]. unfold set_ts_timers. cbn. rewrite Ha, Hl. cbn.
    destruct (ei_type t =? EI_TIMER_TYPE_ONE); [rewrite Ha|]; by rewrite Hnext.
  - rewrite filter_cons_False by congruence. cbn. by rewrite Hnext.
Qed.

(** [__timerout_in] calls the functions of exactly the enabled timers of which more
    than their number of seconds have passed (modulo 2^32), each once and in the order of
    the table, notes the time for them and disables those that fire once; the other timers
    stay as they are. *)
Theorem timerout_in_fires (F : Z -> Z -> app -> app) s :
  let now := app_timer_second (ts_time s) in
  timerout_in (fun f x s => Some (TState (F f x (ts_app s)) (ts_time s) (ts_timers s) (ts_feed s) (ts_counters s))) s =
  Some (TState (foldl (fun a t => F (ei_timeout t) (ei_arg t) a) (ts_app s) (filter (fun t => ei_due now t = true) (ts_timers s)))
          (ts_time s) (ei_after now <$> ts_timers s) (ts_feed s) (ts_counters s)).
Proof. destruct s as [a tm timers fd cs]. exact (timerout_from_run F timers [] a tm fd cs). Qed.
