(* ===== verification/BoardApp.v ===== *)
(** * The event loop on the board

    The theorems of AppEvent.v at the board of Board.v: its mailbox 40 is [mainloop_mb],
    the array of events is at the address 500, and a function that is called posts another
    event. *)
From S2P Require Import Prelude KService Kernel Object Scheduler Timer Thread Frame Ipc Mailbox AppEvent AppTimer Board.

#[local] Opaque board.

Definition app0 : app := App board (replicate 10 (AppEvent 0 0 0 0 0 0)) ∅ [].

(** A function that posts the function [x]. *)
Definition repost (f x : Z) : AM unit := post_hw_int_event 40 500 x 0 0 0;; mret tt.

Lemma board_mails : k_mbs board !! 40 = Some (Mailbox 0 400 [0; 0] 2 0 0 0).
Proof. by_eval. Qed.

Lemma board_mbs_ok : mbs_ok board.
Proof.
  apply (mbs_eval board (Mailbox 0 400 [0; 0] 2 0 0 0)); [by_eval|]. split; simpl; try lia; try done. by left.
Qed.

Lemma app0_inv : app_inv 40 500 (k_tick board) RT_TICK_HALF 1000 [] app0.
Proof.
  assert (Hp : pending 40 app0 = []) by (unfold pending; cbn [ap_k app0]; by rewrite board_mails).
  split; try rewrite Hp.
  - exact board_core.
  - exact board_mbs_ok.
  - cbn [ap_k app0]. rewrite board_mails. by eexists.
  - done.
  - intros i e Ee. right. cbn [ap_events app0] in Ee. apply lookup_replicate in Ee as [-> _]. split; [reflexivity|]. exact (not_elem_of_nil _).
  - intros ev e Ee. cbn [ap_blocks app0] in Ee. by rewrite lookup_empty in Ee.
  - intros ev Hev. exfalso. exact (not_elem_of_nil ev Hev).
  - constructor.
Qed.

Lemma repost_ok b bd idle : fn_ok 40 500 b bd idle repost.
Proof.
  intros busy f x s Hi. destruct (post_hw_run 40 500 b bd idle busy x 0 0 0 s Hi ltac:(lia))
    as (r & s' & Er & Hi' & Hl & _ & Hcase).
  assert (Hr : repost f x s = Some (tt, s')) by (unfold repost; by rewrite (abind_run _ _ _ _ _ Er)).
  destruct Hcase as [(_ & ev & Hn & Hp & _ & Ho)|[(_ & -> & _)|(_ & Hp & Ho)]].
  - exists s', [ev]. split; [done|]. split; [done|]. split; [done|]. split; [done|]. intros y Hy. apply Ho.
    intros ->. apply Hn. set_solver.
  - exists s, []. split; [done|]. split; [done|]. split; [by rewrite app_nil_r|]. done.
  - exists s', []. split; [done|]. split; [done|]. split; [by rewrite app_nil_r|]. split; [done|].
    intros y Hy. apply Ho. set_solver.
Qed.

Lemma post_hw_int_event_spec_witness :
  exists r s', post_hw_int_event 40 500 11 12 13 14 app0 = Some (r, s') /\
    app_inv 40 500 (k_tick board) RT_TICK_HALF 1000 [] s'.
Proof.
  destruct (post_hw_int_event_spec 40 500 (k_tick board) RT_TICK_HALF 1000 [] 11 12 13 14 app0 app0_inv ltac:(lia))
    as (r & s' & H1 & H2 & _).
  exists r, s'. exact (conj H1 H2).
Defined.

(** An event has been posted. *)
Definition app1 : app :=
  match post_hw_int_event 40 500 11 12 13 14 app0 with Some (_, s) => s | None => app0 end.
Lemma app1_inv : app_inv 40 500 (k_tick board) RT_TICK_HALF 1000 [] app1.
Proof.
  destruct (post_hw_run 40 500 (k_tick board) RT_TICK_HALF 1000 [] 11 12 13 14 app0 app0_inv ltac:(lia))
    as (r & s' & H1 & H2 & _). unfold app1. by rewrite H1.
Qed.

(** Its two functions are called, and each of them posts an event. *)
Lemma mainloop_dispatches_witness :
  exists s' more, mainloop 40 500 repost app1 = Some (Some tt, s') /\
    pending 40 s' = more /\ ap_log s' = [(13, 14); (11, 12)].
Proof.
  destruct (mainloop_dispatches 40 500 repost (k_tick board) RT_TICK_HALF 1000 500 []
    (AppEvent 1 APP_EV_HW_INT_TYPE 11 12 13 14) app1) as (s' & more & H1 & _ & H2 & H3).
  - apply repost_ok.
  - exact app1_inv.
  - by_eval.
  - by_eval.
  - exists s', more. split; [exact H1|]. split; [exact H2|]. rewrite H3. by_eval.
Defined.

(** The two events posted are in the slots behind the one that was being handled. *)
Example mainloop_reposts :
  (fun r => pending 40 r.2) <$> mainloop 40 500 repost app1 = Some [536; 572].
Proof. by_eval. Qed.

(** An hour of expiries of the application's timer. *)
Definition ts0 : tstate := TState app0 (AppTime 0 0) (replicate 2 (EiTimer 0 0 0 0 0 0 0)) 0 [0; 0].
Lemma app_clock_keeps_time_witness :
  exists s', app_ticks 40 500 1 2 (Z.to_nat 360000) ts0 = Some s' /\ time_ms (ts_time s') = 3600000.
Proof.
  destruct (app_clock_keeps_time 40 500 1 2 (k_tick board) RT_TICK_HALF 1000 [] (Z.to_nat 360000) ts0) as (s' & H1 & _ & H2).
  - lia.
  - split; [exact app0_inv|split; cbn; lia|reflexivity|cbn; lia].
  - exists s'. split; [exact H1|]. rewrite H2, Z2Nat.id by lia. reflexivity.
Defined.
